(* ===== verification/_CoqProject ===== *)
-Q . S2P
Prelude.v
Pmm.v
Block.v
Vnode.v
FatTable.v
Fat.v
FatSpec.v
FatDir.v
Ext2.v
Ata.v
Paging.v
Heap.v
Objects.v
Ramfs.v
Vfs.v
Fd.v
Stack.v
Links.v
Ipc.v
Signal.v
Sched.v
NetPacket.v
Net.v
Input.v
Spaces.v
Elf.v
Exec.v
ExecFile.v
Console.v
Tty.v
Printf.v
Mount.v
RamfsTree.v
Tar.v
TarSpec.v
UserPath.v
Syscall.v
SyscallSpec.v
