(* ===== verification/Prelude.v ===== *)
(** * Clearfall: verification library, root file

    Clearfall is a small operating system for 32-bit x86: a kernel with memory
    management, file systems, processes and a terminal, and programs that run on
    its system calls.  This library models the kernel and proves what its parts do.  The file
    names below are paths under [src/].

    ** The program and this library

    Memory.  [kernel/mm/pmm.c] hands out the page frames ([Pmm.v]);
    [kernel/mm/paging.c], [vmm.c] and [usercopy.c] keep page tables in those frames and
    copy between the kernel and programs ([Paging.v]); [kernel/mm/heap.c] cuts the mapped
    pages into chunks ([Heap.v]).  The state of the three is one machine: the words of
    memory by address, the bitmap of frames and the registers that hold directories.
    [Spaces.v] is about several directories in that memory at once.

    Disks.  [kernel/fs/block/ata.c] drives the disk by port instructions ([Ata.v]);
    [kernel/fs/block/blockdev.c] registers devices and [partition.c] makes one of each
    partition ([Block.v]).  The class [Disk] of [Block.v] is what a device promises to a file system;
    the partitions keep it, and so does the driver, seen from the block layer ([ata_refines_disk]).

    File systems.  [kernel/fs/fat/] ([FatTable.v] for the allocation table, [Fat.v] for
    the operations, [FatSpec.v] for chains and files, [FatDir.v] for directories),
    [kernel/fs/ext2/ext2.c] ([Ext2.v]) and [kernel/fs/ramfs/] ([Ramfs.v], [RamfsTree.v]).
    What they share is in [Vnode.v].  The two on disks are models over a device that keeps [Disk],
    with their nodes as values; the RAM file system and all that is above it work on a store of vnodes, files and
    mounts by address with their reference counts ([Objects.v], from [kernel/fs/vfs/vnode.c]
    and [file.c]).  [kernel/fs/vfs/vfs.c] and [lookup.c] resolve paths and move bytes
    ([Vfs.v]) over any operations of file systems, a record of functions by vnode; [fd.c] keeps the table of descriptors
    ([Fd.v]); [mount.c] the table of mounts ([Mount.v], over the class [FsTypes], which the RAM
    file system keeps).  [Stack.v] composes the virtual and the RAM file system.
    [kernel/binfmt/tar.c] unpacks the archive of the first programs ([Tar.v], [TarSpec.v]).

    Processes.  [kernel/sched/] has threads, the run queue, sleep and exit, and
    the table of processes ([Sched.v]), and [exec.c] starts a program ([Exec.v]) whose
    image [kernel/binfmt/elf.c] loads ([Elf.v]; from a file, [ExecFile.v]).
    [kernel/syscall/signal/] delivers signals ([Signal.v]), [kernel/ipc/ipc.c]
    messages ([Ipc.v]), both on the lists of [include/kernel/list.h] ([Links.v]).

    Devices.  [kernel/drivers/console.c], [framebuffer.c] and [vga.c] draw text ([Console.v]),
    [tty.c] is the terminal ([Tty.v]), [kernel/drivers/input/] turns scan codes and serial
    bytes into lines ([Input.v]), [kernel/utils/printf.c] formats ([Printf.v]).  [kernel/net/]
    has packets, checksums and the address cache ([NetPacket.v]), and devices, queues and
    sockets ([Net.v]).

    System calls.  [kernel/core/syscall.c] ([Syscall.v], paths in [UserPath.v]) runs on
    the whole kernel state: the memory, the files, the descriptors and the directory of the process, the threads, the terminal and
    the input; [SyscallSpec.v] says what a program sees of them.

    ** How code is modelled

    A function that changes state is a command [cmd S A], a function from the state to a
    result and a state, or [None]: undefined behaviour of C (an access outside an object, a
    division by zero, a dead pointer) or a loop that does not return.  Error codes are
    values.  [wp m Q s] says that [m] is defined, returns and establishes [Q], so each
    statement with [wp] includes that the call ends.  Integers are [Z] with the wrap of
    their width written out ([u8], [u16], [u32]); buffers are lists of bytes.  What the kernel allocates comes from
    an oracle, a list of outcomes, where only failure matters; the heap itself is proved in [Heap.v].
    Every operation of a component is a definition with the name it has in C, and a loop
    is a fixpoint next to it.

    Fuel.  A loop over a list or a count recurses on it.  The others have fuel that
    the definition which runs them computes from the state, and the theorems show that it suffices: the number of pages
    of the heap for its list, whose chunks are pages, of frames for the bitmap, of clusters for a FAT chain (a chain of more is a cycle,
    and the code stops there too), of bytes for a file ([io_fuel]), more turns than bytes for the archive, and
    the polls that the ATA driver counts itself.  Some loops of the code need not end, and the library says so: a
    size in an archive ([tar_size_hangs]) and an ext2 directory entry of length 0 ([walk_block_hangs]).

    ** What the theorems show

    Invariants that every operation keeps: the bitmap and its counter, the chunk list of the
    heap, the page tables and who owns their frames, reference counts over all histories of
    the descriptor table ([fd_reachable_refcounts]), the queues of the scheduler, ports and sockets.

    Refinement of a specification: message ports as queues ([ipc_refines]), path resolution
    ([vfs_resolution_refines]), the mount table ([mount_refines]), the run queue
    ([sched_round_robin]), the line editor ([line_editor_refines]), the disk ([ata_refines_disk]), the archive
    ([tar_extract_correct], [tar_extract_ramfs]).

    Functional behaviour, errors included: mapping and unmapping, the check of user ranges
    against what the processor would allow, malloc and free, reading and writing files of the three
    file systems, loading a program and building its stack, printing, text on the screen.

    Round trips: an entry of each FAT type, a write and a read through the virtual file
    system and through the system calls, changing the directory and asking for it,
    numbers that are printed.

    ** What is not modelled, and why

    Processor state without data of its own: descriptor tables, interrupt controllers,
    interrupt stubs, the switch of stacks (its effect on threads is in [Sched.v]) and
    atomic operations; the kernel runs on one processor, and handlers are modelled as calls at the points
    where they may happen.  The PS/2 controller, below the scan codes, and the serial port, below its bytes.  The boot
    sequence beyond the compositions that are stated, the choice of the root partition ([kernel/fs/install.c]), /dev/fb0, the
    window manager and the kernel's debugging shell.  The programs in [user/], which only call
    the system calls.  The font, a table, which is a parameter.  The files that the Makefile
    filters out of the build, the copies in [archive/] and [tmp/], and the files that are
    empty ([kernel/smp/], [kernel/hw/] and others). *)

From stdpp Require Export base numbers list option gmap.
From stdpp Require Export strings.
From Stdlib Require Export ZArith Lia.

#[global] Open Scope Z_scope.
#[global] Set Default Goal Selector "!".

(** [lia] decides goals with [/] and [mod] by a constant. *)
Ltac Zify.zify_post_hook ::= Z.to_euclidean_division_equations.

(** ** Error codes, [include/shared/libc/errno.h] *)
Module Errno.
Definition ERR_SUCCESS : Z := 0.
Definition ERR_INVALID_ARGUMENT : Z := -2.
Definition ERR_NOT_SUPPORTED : Z := -3.
Definition ERR_BUSY : Z := -7.
Definition ERR_OUT_OF_MEMORY : Z := -10.
Definition ERR_BAD_ADDRESS : Z := -11.
Definition ERR_BUFFER_TOO_SMALL : Z := -12.
Definition ERR_FRAME_UNAVAILABLE : Z := -16.
Definition ERR_INVALID_ALIGNMENT : Z := -17.
Definition ERR_HEAP_EXHAUSTED : Z := -19.
Definition ERR_ADDRESS_IN_USE : Z := -21.
Definition ERR_NOT_FOUND : Z := -40.
Definition ERR_ALREADY_EXISTS : Z := -41.
Definition ERR_NOT_DIRECTORY : Z := -42.
Definition ERR_IS_DIRECTORY : Z := -43.
Definition ERR_DIRECTORY_NOT_EMPTY : Z := -44.
Definition ERR_READ_ONLY_FS : Z := -45.
Definition ERR_NO_SPACE_LEFT : Z := -46.
Definition ERR_NAME_TOO_LONG : Z := -47.
Definition ERR_BAD_FILE_DESCRIPTOR : Z := -60.
Definition ERR_TOO_MANY_OPEN_FILES : Z := -61.
Definition ERR_IO_ERROR : Z := -80.
Definition ERR_DEVICE_NOT_FOUND : Z := -81.
Definition ERR_PROCESS_NOT_FOUND : Z := -101.
Definition ERR_ADDRESS_IN_USE_NET : Z := -123.
Definition ERR_INTERNAL : Z := -201.
(* POSIX spellings: [#define EINVAL ERR_INVALID_ARGUMENT] and so on. *)
Definition EINVAL : Z := ERR_INVALID_ARGUMENT.
Definition ENOMEM : Z := ERR_OUT_OF_MEMORY.
Definition ENOENT : Z := ERR_NOT_FOUND.
End Errno.
Export Errno.

(** ** Commands: state passing C code

    [None] is undefined behaviour of the C program (an access outside an
    object, a dereference of a dead pointer) or a loop that does not return.
    C error codes are ordinary values. *)

Definition cmd (S A : Type) : Type := S → option (A * S).

#[global] Instance cmd_ret {S} : MRet (cmd S) := λ A a s, Some (a, s).
#[global] Instance cmd_bind {S} : MBind (cmd S) := λ A B f m s,
  match m s with
  | Some (a, s') => f a s'
  | None => None
  end.

Definition cget {S} : cmd S S := λ s, Some (s, s).
Definition cput {S} (s : S) : cmd S unit := λ _, Some (tt, s).
Definition cmodify {S} (f : S → S) : cmd S unit := λ s, Some (tt, f s).
Definition cundef {S A} : cmd S A := λ _, None.
(** A read through a partial view of the state: undefined where the view is. *)
Definition cread {S A} (f : S → option A) : cmd S A := λ s,
  match f s with Some a => Some (a, s) | None => None end.
(** Running a command of a component on the part of the state it owns. *)
Definition czoom {S T A} (get : S → T) (put : T → S → S) (m : cmd T A) : cmd S A :=
  λ s, match m (get s) with
       | Some (a, t) => Some (a, put t s)
       | None => None
       end.

(** [wp m Q s]: from [s], [m] is defined, returns, and establishes [Q]. *)
Definition wp {S A} (m : cmd S A) (Q : A → S → Prop) (s : S) : Prop :=
  match m s with Some (a, s') => Q a s' | None => False end.

Section wp.
Context {S : Type}.
Implicit Types (s : S).

Lemma wp_ret {A} (a : A) Q s : Q a s → wp (S:=S) (mret a) Q s.
Proof. done. Qed.

Lemma wp_bind {A B} (m : cmd S A) (f : A → cmd S B) Q s :
  wp m (λ a s', wp (f a) Q s') s → wp (m ≫= f) Q s.
Proof. unfold wp, mbind, cmd_bind. by destruct (m s) as [[a s']|]. Qed.

Lemma wp_get (Q : S → S → Prop) s : Q s s → wp cget Q s.
Proof. done. Qed.

Lemma wp_put (s' : S) Q s : Q tt s' → wp (cput s') Q s.
Proof. done. Qed.

Lemma wp_modify (f : S → S) Q s : Q tt (f s) → wp (cmodify f) Q s.
Proof. done. Qed.

Lemma wp_read {A} (f : S → option A) (a : A) (Q : A → S → Prop) s :
  f s = Some a → Q a s → wp (cread f) Q s.
Proof. unfold wp, cread. by intros ->. Qed.

Lemma wp_mono {A} (m : cmd S A) (P Q : A → S → Prop) s :
  wp m P s → (∀ a s', P a s' → Q a s') → wp m Q s.
Proof. unfold wp. destruct (m s) as [[a s']|]; eauto. Qed.

Lemma wp_run {A} (m : cmd S A) Q s :
  wp m Q s ↔ ∃ a s', m s = Some (a, s') ∧ Q a s'.
Proof.
  unfold wp. destruct (m s) as [[a s']|]; split.
  - intros. by exists a, s'.
  - by intros (? & ? & [= <- <-] & ?).
  - done.
  - by intros (? & ? & ? & ?).
Qed.

Lemma wp_eq {A} (m : cmd S A) a s' Q s : m s = Some (a, s') → Q a s' → wp m Q s.
Proof. unfold wp. by intros ->. Qed.

Lemma wp_elim {A} (m : cmd S A) a s' (Q : A → S → Prop) s :
  wp m Q s → m s = Some (a, s') → Q a s'.
Proof. unfold wp. intros H E. by rewrite E in H. Qed.

Lemma wp_zoom {T A} (get : S → T) (put : T → S → S) (m : cmd T A) Q s :
  wp m (λ a t, Q a (put t s)) (get s) → wp (czoom get put m) Q s.
Proof. unfold wp, czoom. by destruct (m (get s)) as [[a t]|]. Qed.

Lemma wp_assoc {A B C} (a : cmd S A) (b : cmd S B) (c : cmd S C) Q s :
  wp ((a;; b);; c) Q s → wp (a;; b;; c) Q s.
Proof. unfold wp, mbind, cmd_bind. by destruct (a s) as [[? ?]|]. Qed.

Lemma wp_run_eq {A} (m1 m2 : cmd S A) Q s : m1 s = m2 s → wp m2 Q s → wp m1 Q s.
Proof. unfold wp. by intros ->. Qed.

Lemma bind_run {A B} (m : cmd S A) (f : A → cmd S B) s a s' :
  m s = Some (a, s') → (m ≫= f) s = f a s'.
Proof. unfold mbind, cmd_bind. by intros ->. Qed.

Lemma bind_Some {A B} (m : cmd S A) (f : A → cmd S B) s r :
  (m ≫= f) s = Some r ↔ ∃ a s', m s = Some (a, s') ∧ f a s' = Some r.
Proof.
  unfold mbind, cmd_bind. destruct (m s) as [[a s']|]; split.
  - intros. by exists a, s'.
  - by intros (? & ? & [= <- <-] & ?).
  - done.
  - by intros (? & ? & ? & ?).
Qed.
End wp.

(** One step of symbolic execution of a command under [wp]. *)
Ltac wp_step :=
  lazymatch goal with
  | |- wp (mbind _ _) _ _ => apply wp_bind
  | |- wp (mret _) _ _ => apply wp_ret
  | |- wp cget _ _ => apply wp_get
  | |- wp (cput _) _ _ => apply wp_put
  | |- wp (cmodify _) _ _ => apply wp_modify
  | |- wp (czoom _ _ _) _ _ => apply wp_zoom
  end.
Ltac wp_steps := repeat (wp_step; cbn beta).

(** The test [result != ERR_SUCCESS] after a call that succeeded. *)
Ltac on_success := cbn beta iota; change (negb (ERR_SUCCESS =? ERR_SUCCESS)) with false; cbn iota.

(** ** Machine integers

    A [w]-bit unsigned C integer is a [Z] in [0, 2^w); [u8], [u16], [u32] and
    [u64] are the conversions to the type, which wrap. *)

Definition u8 (z : Z) : Z := z mod 2 ^ 8.
Definition u16 (z : Z) : Z := z mod 2 ^ 16.
Definition u32 (z : Z) : Z := z mod 2 ^ 32.
Definition u64 (z : Z) : Z := z mod 2 ^ 64.

Definition is_u8 (z : Z) : Prop := 0 ≤ z < 2 ^ 8.
Definition is_u16 (z : Z) : Prop := 0 ≤ z < 2 ^ 16.
Definition is_u32 (z : Z) : Prop := 0 ≤ z < 2 ^ 32.

#[global] Instance is_u8_dec z : Decision (is_u8 z).
Proof. unfold is_u8. apply _. Defined.
#[global] Instance is_u16_dec z : Decision (is_u16 z).
Proof. unfold is_u16. apply _. Defined.
#[global] Instance is_u32_dec z : Decision (is_u32 z).
Proof. unfold is_u32. apply _. Defined.

(** Decidable facts about concrete states, by evaluation. *)
Ltac by_eval := refine (bool_decide_unpack _ _); vm_compute; exact I.

(** [~x] at 32 bits. *)
Definition not32 (z : Z) : Z := u32 (Z.lnot z).

(** [src/shared/libc/asm/math.asm] *)
Definition align_up (value align : Z) : Z :=
  Z.land (u32 (value + u32 (align - 1))) (not32 (u32 (align - 1))).
Definition align_down (value align : Z) : Z :=
  Z.land value (not32 (u32 (align - 1))).
Definition ceil_div_u32 (a b : Z) : Z :=
  if b =? 0 then a else u32 (u32 (a - 1) / b + 1).

Create HintDb clearfall discriminated.

Lemma u32_small z : 0 ≤ z < 2 ^ 32 → u32 z = z.
Proof. intros. unfold u32. by apply Z.mod_small. Qed.
Lemma u8_small z : 0 ≤ z < 2 ^ 8 → u8 z = z.
Proof. intros. unfold u8. by apply Z.mod_small. Qed.
Lemma u16_small z : 0 ≤ z < 2 ^ 16 → u16 z = z.
Proof. intros. unfold u16. by apply Z.mod_small. Qed.
Lemma u64_small z : 0 ≤ z < 2 ^ 64 → u64 z = z.
Proof. intros. unfold u64. by apply Z.mod_small. Qed.

Lemma u32_range z : 0 ≤ u32 z < 2 ^ 32.
Proof. unfold u32. by apply Z.mod_pos_bound. Qed.
Lemma u8_range z : 0 ≤ u8 z < 2 ^ 8.
Proof. unfold u8. by apply Z.mod_pos_bound. Qed.
Lemma u16_range z : 0 ≤ u16 z < 2 ^ 16.
Proof. unfold u16. by apply Z.mod_pos_bound. Qed.

(** The mask of a page-aligned address. *)
Lemma not32_ones k : 0 ≤ k ≤ 32 → not32 (2 ^ k - 1) = 2 ^ 32 - 2 ^ k.
Proof.
  intros Hk. unfold not32, u32.
  assert (0 < 2 ^ k ≤ 2 ^ 32) by (split; [lia | apply Z.pow_le_mono_r; lia]).
  unfold Z.lnot.
  rewrite <- (Z.mod_unique (Z.pred (- (2 ^ k - 1))) (2 ^ 32) (-1) (2 ^ 32 - 2 ^ k)); lia.
Qed.

Lemma land_high_bits v k w :
  0 ≤ k ≤ w → 0 ≤ v < 2 ^ w → Z.land v (2 ^ w - 2 ^ k) = v / 2 ^ k * 2 ^ k.
Proof.
  intros Hk Hv.
  replace (2 ^ w - 2 ^ k) with (Z.shiftl (Z.ones (w - k)) k).
  2:{ rewrite Z.shiftl_mul_pow2, Z.ones_equiv by lia.
      replace (2 ^ w) with (2 ^ (w - k) * 2 ^ k) by (rewrite <- Z.pow_add_r by lia; f_equal; lia).
      lia. }
  rewrite <- Z.shiftl_mul_pow2, <- Z.shiftr_div_pow2 by lia.
  apply Z.bits_inj'. intros n Hn.
  rewrite Z.land_spec, !Z.shiftl_spec by lia.
  destruct (decide (n < k)).
  { rewrite !(Z.testbit_neg_r _ (n - k)) by lia. by rewrite andb_false_r. }
  rewrite Z.shiftr_spec by lia. replace (n - k + k) with n by lia.
  destruct (decide (n < w)).
  { rewrite Z.ones_spec_low by lia. by rewrite andb_true_r. }
  rewrite Z.ones_spec_high by lia. rewrite andb_false_r.
  symmetry. destruct (decide (v = 0)) as [->|]; [apply Z.bits_0|].
  apply Z.bits_above_log2; [lia|]. apply Z.log2_lt_pow2; [lia|].
  apply Z.lt_le_trans with (2 ^ w); [lia|]. apply Z.pow_le_mono_r; lia.
Qed.

Lemma land_high_mask v k :
  0 ≤ k ≤ 32 → 0 ≤ v < 2 ^ 32 → Z.land v (2 ^ 32 - 2 ^ k) = v / 2 ^ k * 2 ^ k.
Proof. apply land_high_bits. Qed.

Lemma align_down_4096 v : 0 ≤ v < 2 ^ 32 → align_down v 4096 = v / 4096 * 4096.
Proof.
  intros Hv. unfold align_down. change (u32 (4096 - 1)) with (2 ^ 12 - 1).
  rewrite not32_ones by lia. by rewrite land_high_mask by lia.
Qed.

Lemma align_up_4096 v :
  0 ≤ v ≤ 2 ^ 32 - 4096 → align_up v 4096 = (v + 4095) / 4096 * 4096.
Proof.
  intros Hv. unfold align_up. change (u32 (4096 - 1)) with (2 ^ 12 - 1).
  rewrite not32_ones by lia. rewrite u32_small by lia.
  by rewrite land_high_mask by lia.
Qed.

Lemma align_up_4096_wrap v : 2 ^ 32 - 4096 < v < 2 ^ 32 → align_up v 4096 = 0.
Proof.
  intros Hv. unfold align_up. change (u32 (4096 - 1)) with (2 ^ 12 - 1).
  rewrite not32_ones by lia.
  assert (u32 (v + (2 ^ 12 - 1)) = v + 4095 - 2 ^ 32) as ->.
  { unfold u32. rewrite <- (Z.mod_unique (v + (2 ^ 12 - 1)) (2 ^ 32) 1 (v + 4095 - 2 ^ 32)); lia. }
  rewrite land_high_mask by lia. rewrite Z.div_small by lia. lia.
Qed.

(** A bit test written [(w & (1u << b)) == 0]. *)
Lemma land_bit_eq0 w b : 0 ≤ b → (Z.land w (Z.shiftl 1 b) =? 0) = negb (Z.testbit w b).
Proof.
  intros Hb. rewrite Z.shiftl_1_l.
  destruct (Z.testbit w b) eqn:E; simpl.
  - apply Z.eqb_neq. intros H0. apply (f_equal (λ x, Z.testbit x b)) in H0.
    by rewrite Z.land_spec, E, Z.pow2_bits_true, Z.bits_0 in H0 by lia.
  - apply Z.eqb_eq. apply Z.bits_inj'. intros n Hn. rewrite Z.land_spec, Z.bits_0.
    rewrite Z.pow2_bits_eqb by lia. destruct (Z.eqb_spec b n) as [<-|]; [by rewrite E|].
    by rewrite andb_false_r.
Qed.

#[export] Hint Resolve u8_range u16_range u32_range : clearfall.

(** ** C strings and byte buffers

    A C string is the list of its bytes without the final NUL; a buffer is the
    list of its bytes. [cstr] writes a literal. *)

Abbreviation cstring := (list Z).
Definition cstr (s : string) : cstring := Z.of_nat ∘ Ascii.nat_of_ascii <$> String.list_ascii_of_string s.

(** [strcmp(a, b) == 0] *)
Definition streq (a b : cstring) : bool := bool_decide (a = b).

Lemma streq_true a b : streq a b = true ↔ a = b.
Proof. unfold streq. by rewrite bool_decide_eq_true. Qed.
Lemma streq_false a b : streq a b = false ↔ a ≠ b.
Proof. unfold streq. by rewrite bool_decide_eq_false. Qed.
Lemma streq_refl a : streq a a = true.
Proof. by apply streq_true. Qed.

(** [memcpy(dst + off, src, |src|)] on a buffer: the bytes from [off] on are
    replaced.  It is used with [off + |src| <= |dst|]. *)
Definition splice {A} (off : nat) (src dst : list A) : list A :=
  take off dst ++ src ++ drop (off + length src) dst.

Lemma length_splice {A} off (src dst : list A) :
  (off + length src ≤ length dst)%nat → length (splice off src dst) = length dst.
Proof.
  intros. unfold splice. rewrite !length_app, length_take, length_drop. lia.
Qed.

Lemma splice_lookup {A} off (src dst : list A) k :
  (off + length src ≤ length dst)%nat →
  splice off src dst !! k =
    if decide (off ≤ k < off + length src)%nat then src !! (k - off)%nat else dst !! k.
Proof.
  intros H. unfold splice.
  destruct (decide (k < off)%nat).
  { rewrite decide_False by lia. rewrite lookup_app_l by (rewrite length_take; lia).
    by rewrite lookup_take_lt. }
  rewrite lookup_app_r by (rewrite length_take; lia).
  rewrite length_take, Nat.min_l by lia. case_decide.
  - by rewrite lookup_app_l by lia.
  - rewrite lookup_app_r by lia. rewrite lookup_drop. f_equal. lia.
Qed.

Lemma splice_full {A} (src dst : list A) : length src = length dst → splice 0 src dst = src.
Proof. intros H. unfold splice. cbn. rewrite drop_ge by lia. apply app_nil_r. Qed.

(** The bytes [off, off + n) of a buffer. *)
Definition slice {A} (off n : nat) (l : list A) : list A := take n (drop off l).

Lemma length_slice {A} off n (l : list A) : (off + n ≤ length l)%nat → length (slice off n l) = n.
Proof. intros. unfold slice. rewrite length_take, length_drop. lia. Qed.

Lemma slice_lookup {A} off n (l : list A) k :
  (k < n)%nat → slice off n l !! k = l !! (off + k)%nat.
Proof. intros. unfold slice. by rewrite lookup_take_lt, lookup_drop. Qed.

Lemma slice_splice_same {A} off (src dst : list A) :
  (off + length src ≤ length dst)%nat → slice off (length src) (splice off src dst) = src.
Proof.
  intros. apply list_eq. intros k. destruct (decide (k < length src)%nat).
  - rewrite slice_lookup, splice_lookup, decide_True by lia. f_equal. lia.
  - rewrite !lookup_ge_None_2; [done|lia|].
    rewrite length_slice; [lia|]. rewrite length_splice; lia.
Qed.

(** The bytes of a buffer one piece after the other. *)
Lemma splice_step {A} off a b (buf l : list A) :
  (a + b ≤ length buf)%nat → (off + length buf ≤ length l)%nat →
  splice (off + a) (slice a b buf) (splice off (take a buf) l) = splice off (take (a + b) buf) l.
Proof.
  intros Hab Hl. assert (length (take a buf) = a) as H1 by (rewrite length_take; lia).
  assert (length (slice a b buf) = b) as H2 by (by apply length_slice).
  assert (length (take (a + b) buf) = a + b)%nat as H3 by (rewrite length_take; lia).
  apply list_eq. intros k. rewrite !splice_lookup; rewrite ?length_splice; rewrite ?H1, ?H2, ?H3; try lia.
  destruct (decide (off + a ≤ k < off + a + b)%nat).
  - rewrite decide_True by lia. rewrite slice_lookup, lookup_take_lt by lia. f_equal. lia.
  - destruct (decide (off ≤ k < off + a)%nat).
    + rewrite decide_True by lia. by rewrite !lookup_take_lt by lia.
    + by rewrite decide_False by lia.
Qed.

Lemma take_splice {A} n off (bs l : list A) :
  (off + length bs ≤ n)%nat → (n ≤ length l)%nat → take n (splice off bs l) = splice off bs (take n l).
Proof.
  intros H1 H2. apply list_eq. intros k. destruct (decide (k < n)%nat).
  - rewrite lookup_take_lt by done. rewrite !splice_lookup by (rewrite ?length_take; lia).
    case_decide; [done|]. by rewrite lookup_take_lt.
  - rewrite !lookup_ge_None_2; [done| |rewrite length_take; lia].
    rewrite length_splice; rewrite length_take; lia.
Qed.

Lemma splice_bytes off bs l : Forall is_u8 bs → Forall is_u8 l → Forall is_u8 (splice off bs l).
Proof. intros. unfold splice. rewrite !Forall_app. auto using Forall_take, Forall_drop. Qed.

(** A list is empty or ends in an element. *)
Lemma exists_last_or {A} (l : list A) : l = [] ∨ ∃ l0 x, l = l0 ++ [x].
Proof. destruct l as [|x l _] using rev_ind; [by left|right; eauto]. Qed.

(** Little-endian integers in a buffer. *)
Definition le16 (l : list Z) (off : nat) : option Z :=
  b0 ← l !! off; b1 ← l !! (off + 1)%nat;
  Some (Z.lor b0 (Z.shiftl b1 8)).
Definition le32 (l : list Z) (off : nat) : option Z :=
  b0 ← l !! off; b1 ← l !! (off + 1)%nat; b2 ← l !! (off + 2)%nat; b3 ← l !! (off + 3)%nat;
  Some (Z.lor (Z.lor (Z.lor b0 (Z.shiftl b1 8)) (Z.shiftl b2 16)) (Z.shiftl b3 24)).
Definition put16 (v : Z) : list Z := [u8 v; u8 (Z.shiftr v 8)].
Definition put32 (v : Z) : list Z :=
  [u8 v; u8 (Z.shiftr v 8); u8 (Z.shiftr v 16); u8 (Z.shiftr v 24)].

Lemma lor_shiftl_add a b k : 0 ≤ k → 0 ≤ a < 2 ^ k → Z.lor a (Z.shiftl b k) = a + b * 2 ^ k.
Proof.
  intros Hk Ha.
  assert (Z.land a (Z.shiftl b k) = 0) as Hl.
  { apply Z.bits_inj'. intros n Hn. rewrite Z.land_spec, Z.shiftl_spec, Z.bits_0 by lia.
    destruct (decide (n < k)).
    - rewrite (Z.testbit_neg_r b) by lia. by rewrite andb_false_r.
    - destruct (decide (a = 0)) as [->|]; [by rewrite Z.bits_0|].
      rewrite (Z.bits_above_log2 a); [done|lia|]. apply Z.log2_lt_pow2; [lia|].
      apply Z.lt_le_trans with (2 ^ k); [lia|]. apply Z.pow_le_mono_r; lia. }
  rewrite <- Z.lxor_lor, <- Z.add_nocarry_lxor by done. by rewrite Z.shiftl_mul_pow2.
Qed.

Lemma le16_bytes b0 b1 : is_u8 b0 → is_u8 b1 → Z.lor b0 (Z.shiftl b1 8) = b0 + b1 * 256.
Proof. unfold is_u8. intros. rewrite lor_shiftl_add by lia. lia. Qed.

Lemma le32_bytes b0 b1 b2 b3 :
  is_u8 b0 → is_u8 b1 → is_u8 b2 → is_u8 b3 →
  Z.lor (Z.lor (Z.lor b0 (Z.shiftl b1 8)) (Z.shiftl b2 16)) (Z.shiftl b3 24) =
  b0 + b1 * 2 ^ 8 + b2 * 2 ^ 16 + b3 * 2 ^ 24.
Proof.
  unfold is_u8. intros.
  rewrite (lor_shiftl_add b0 b1), (lor_shiftl_add _ b2), (lor_shiftl_add _ b3) by lia. lia.
Qed.

Lemma lookup_byte (l : list Z) i b : Forall is_u8 l → l !! i = Some b → is_u8 b.
Proof. rewrite Forall_lookup. eauto. Qed.

Lemma lookup_is_Some {A} (l : list A) i : (i < length l)%nat → ∃ x, l !! i = Some x.
Proof. intros. by apply lookup_lt_is_Some. Qed.

Lemma le16_spec l off :
  Forall is_u8 l → (off + 2 ≤ length l)%nat →
  ∃ b0 b1, l !! off = Some b0 ∧ l !! (off + 1)%nat = Some b1 ∧ is_u8 b0 ∧ is_u8 b1 ∧
           le16 l off = Some (b0 + b1 * 256).
Proof.
  intros Hl Hlen. destruct (lookup_is_Some l off) as [b0 H0]; [lia|].
  destruct (lookup_is_Some l (off + 1)) as [b1 H1]; [lia|].
  exists b0, b1. assert (is_u8 b0 ∧ is_u8 b1) as [? ?] by eauto using lookup_byte.
  split_and!; try done. unfold le16. rewrite H0. simpl. rewrite H1. simpl. by rewrite le16_bytes.
Qed.

Lemma le32_spec l off :
  Forall is_u8 l → (off + 4 ≤ length l)%nat →
  ∃ b0 b1 b2 b3,
    l !! off = Some b0 ∧ l !! (off + 1)%nat = Some b1 ∧
    l !! (off + 2)%nat = Some b2 ∧ l !! (off + 3)%nat = Some b3 ∧
    is_u8 b0 ∧ is_u8 b1 ∧ is_u8 b2 ∧ is_u8 b3 ∧
    le32 l off = Some (b0 + b1 * 2 ^ 8 + b2 * 2 ^ 16 + b3 * 2 ^ 24).
Proof.
  intros Hl Hlen. destruct (lookup_is_Some l off) as [b0 H0]; [lia|].
  destruct (lookup_is_Some l (off + 1)) as [b1 H1]; [lia|].
  destruct (lookup_is_Some l (off + 2)) as [b2 H2]; [lia|].
  destruct (lookup_is_Some l (off + 3)) as [b3 H3]; [lia|].
  exists b0, b1, b2, b3. assert (is_u8 b0 ∧ is_u8 b1 ∧ is_u8 b2 ∧ is_u8 b3)
    as (? & ? & ? & ?) by eauto 10 using lookup_byte.
  split_and!; try done. unfold le32. rewrite H0. simpl. rewrite H1. simpl. rewrite H2. simpl.
  rewrite H3. simpl. by rewrite le32_bytes.
Qed.

Lemma le32_range l off :
  Forall is_u8 l → (off + 4 ≤ length l)%nat → ∃ v, le32 l off = Some v ∧ is_u32 v.
Proof.
  intros Hl Hlen. destruct (le32_spec l off Hl Hlen) as
    (b0 & b1 & b2 & b3 & _ & _ & _ & _ & ? & ? & ? & ? & Heq).
  rewrite Heq. unfold is_u8, is_u32 in *. eexists. split; [done|]. lia.
Qed.

(** An unsigned division or remainder: undefined for a zero divisor. *)
Definition cdiv {S} (a b : Z) : cmd S Z := if b =? 0 then cundef else mret (a / b).
Definition cmod {S} (a b : Z) : cmd S Z := if b =? 0 then cundef else mret (a mod b).
(** A value that the C program has if an access is inside its object. *)
Definition cget_opt {S A} (o : option A) : cmd S A := λ s,
  match o with Some a => Some (a, s) | None => None end.

Lemma wp_get_opt {S A} (o : option A) (a : A) (Q : A → S → Prop) s :
  o = Some a → Q a s → wp (cget_opt o) Q s.
Proof. unfold wp, cget_opt. by intros ->. Qed.
Lemma wp_cdiv {S} a b (Q : Z → S → Prop) s : b ≠ 0 → Q (a / b) s → wp (cdiv a b) Q s.
Proof. unfold cdiv. intros. by rewrite (proj2 (Z.eqb_neq b 0)). Qed.
Lemma wp_cmod {S} a b (Q : Z → S → Prop) s : b ≠ 0 → Q (a mod b) s → wp (cmod a b) Q s.
Proof. unfold cmod. intros. by rewrite (proj2 (Z.eqb_neq b 0)). Qed.
