(* ===== verification/Pmm.v ===== *)
(** * The physical frame allocator, [src/kernel/mm/pmm.c]

    A bitmap of 32-bit words, one bit per 4 KiB frame, with the number of
    frames and the number of frames in use.  The abstraction is the list of
    booleans [flags]: [flags !! f = Some true] when frame [f] is in use. *)

From S2P Require Import Prelude.

Module Pmm.

Definition PMM_FRAME_SIZE : Z := 4096.

Record pmm := mk_pmm {
  frame_bitmap : list Z;         (** the words at [frame_bitmap] *)
  total_frames_count : Z;
  frames_used : Z
}.

Definition with_bitmap (bm : list Z) (s : pmm) : pmm :=
  mk_pmm bm (total_frames_count s) (frames_used s).
Definition with_used (n : Z) (s : pmm) : pmm :=
  mk_pmm (frame_bitmap s) (total_frames_count s) n.

(** An access outside the bitmap is undefined. *)
Definition read_word (i : Z) : cmd pmm Z := cread (λ s, frame_bitmap s !! Z.to_nat i).
Definition write_word (i w : Z) : cmd pmm unit :=
  read_word i ;; cmodify (λ s, with_bitmap (<[Z.to_nat i := w]> (frame_bitmap s)) s).

Definition set_frame (frame_addr : Z) : cmd pmm unit :=
  let frame := frame_addr / PMM_FRAME_SIZE in
  w ← read_word (Z.shiftr frame 5);
  write_word (Z.shiftr frame 5) (Z.lor w (Z.shiftl 1 (Z.land frame 31))).

Definition clear_frame (frame_addr : Z) : cmd pmm unit :=
  let frame := frame_addr / PMM_FRAME_SIZE in
  w ← read_word (Z.shiftr frame 5);
  write_word (Z.shiftr frame 5) (Z.land w (not32 (Z.shiftl 1 (Z.land frame 31)))).

Definition test_frame (frame_addr : Z) : cmd pmm bool :=
  let frame := frame_addr / PMM_FRAME_SIZE in
  w ← read_word (Z.shiftr frame 5);
  mret (negb (Z.land w (Z.shiftl 1 (Z.land frame 31)) =? 0)).

(** The inner loop of [first_free_frame]: the lowest clear bit from [b] on. *)
Fixpoint first_clear_bit (w b : Z) (n : nat) : option Z :=
  match n with
  | O => None
  | S n => if Z.land w (Z.shiftl 1 b) =? 0 then Some b else first_clear_bit w (b + 1) n
  end.

(** The outer loop, on [n] words from index [i] on. *)
Fixpoint first_free_from (i : Z) (n : nat) : cmd pmm Z :=
  match n with
  | O => mret (-1)
  | S n =>
    w ← read_word i;
    if w =? 0xFFFFFFFF then first_free_from (i + 1) n
    else match first_clear_bit w 0 32 with
         | Some b =>
           s ← cget;
           let frame := u32 (u32 (Z.shiftl i 5) + b) in
           mret (if frame <? total_frames_count s then frame else -1)
         | None => first_free_from (i + 1) n
         end
  end.

Definition first_free_frame : cmd pmm Z :=
  s ← cget;
  first_free_from 0 (Z.to_nat (Z.shiftr (u32 (total_frames_count s + 31)) 5)).

(** The loop of [pmm_init] that reserves the frames below [reserved_end]. *)
Fixpoint init_reserve (fuel : nat) (addr reserved_end : Z) : cmd pmm unit :=
  if addr <? reserved_end then
    match fuel with
    | O => cundef
    | S fuel =>
      set_frame addr;;
      cmodify (λ s, with_used (u32 (frames_used s + 1)) s);;
      init_reserve fuel (u32 (addr + PMM_FRAME_SIZE)) reserved_end
    end
  else mret tt.

Definition pmm_init (mem_size_bytes kernel_end_paddr : Z) : cmd pmm Z :=
  if mem_size_bytes =? 0 then mret ERR_INVALID_ARGUMENT else
  let total := mem_size_bytes / PMM_FRAME_SIZE in
  let bitmap_size_bytes := u32 (Z.shiftr (u32 (total + 31)) 5 * 4) in
  let bitmap_phys := align_up kernel_end_paddr PMM_FRAME_SIZE in
  (* [frame_bitmap = (u32 * ) bitmap_phys]: no words yet *)
  cmodify (λ s, mk_pmm [] total (frames_used s));;
  if bitmap_phys =? 0 then mret ERR_BAD_ADDRESS else
  cput (mk_pmm (replicate (Z.to_nat (bitmap_size_bytes / 4)) 0) total 0);;
  let reserved_end := u32 (bitmap_phys + bitmap_size_bytes) in
  init_reserve (Z.to_nat (reserved_end / PMM_FRAME_SIZE + 1)) 0 reserved_end;;
  mret ERR_SUCCESS.

Definition pmm_alloc_frame : cmd pmm Z :=
  frame ← first_free_frame;
  if frame <? 0 then mret 0 else
  let addr := u32 (frame * PMM_FRAME_SIZE) in
  set_frame addr;;
  cmodify (λ s, with_used (u32 (frames_used s + 1)) s);;
  mret addr.

(** [if (frames_used) --frames_used;] *)
Definition drop_used (s : pmm) : pmm :=
  if frames_used s =? 0 then s else with_used (frames_used s - 1) s.

Definition pmm_free_frame (paddr : Z) : cmd pmm Z :=
  if negb (Z.land paddr (PMM_FRAME_SIZE - 1) =? 0) then mret ERR_INVALID_ALIGNMENT else
  t ← test_frame paddr;
  if negb t then mret ERR_INVALID_ARGUMENT else
  clear_frame paddr;;
  cmodify drop_used;;
  mret ERR_SUCCESS.

Fixpoint reserve_loop (fuel : nat) (a paddr_end : Z) : cmd pmm unit :=
  if a <? paddr_end then
    match fuel with
    | O => cundef
    | S fuel =>
      t ← test_frame a;
      (if negb t then
         set_frame a;; cmodify (λ s, with_used (u32 (frames_used s + 1)) s)
       else mret tt);;
      reserve_loop fuel (u32 (a + PMM_FRAME_SIZE)) paddr_end
    end
  else mret tt.

Definition pmm_reserve_region (paddr_start paddr_end : Z) : cmd pmm Z :=
  if paddr_end <=? paddr_start then mret ERR_INVALID_ARGUMENT else
  let paddr_start := align_down paddr_start PMM_FRAME_SIZE in
  let paddr_end := align_up paddr_end PMM_FRAME_SIZE in
  reserve_loop (Z.to_nat (paddr_end / PMM_FRAME_SIZE)) paddr_start paddr_end;;
  mret ERR_SUCCESS.

Fixpoint unreserve_loop (fuel : nat) (a paddr_end : Z) : cmd pmm unit :=
  if a <? paddr_end then
    match fuel with
    | O => cundef
    | S fuel =>
      t ← test_frame a;
      (if (t : bool) then clear_frame a;; cmodify drop_used else mret tt);;
      unreserve_loop fuel (u32 (a + PMM_FRAME_SIZE)) paddr_end
    end
  else mret tt.

Definition pmm_unreserve_region (paddr_start paddr_end : Z) : cmd pmm Z :=
  if paddr_end <=? paddr_start then mret ERR_INVALID_ARGUMENT else
  let paddr_start := align_down paddr_start PMM_FRAME_SIZE in
  let paddr_end := align_up paddr_end PMM_FRAME_SIZE in
  unreserve_loop (Z.to_nat (paddr_end / PMM_FRAME_SIZE)) paddr_start paddr_end;;
  mret ERR_SUCCESS.

Definition pmm_total_frames (s : pmm) : Z := total_frames_count s.
Definition pmm_used_frames (s : pmm) : Z := frames_used s.
Definition pmm_free_frames (s : pmm) : Z := u32 (total_frames_count s - frames_used s).

(** ** The abstraction: one flag per frame *)

Definition bits_of (w : Z) : list bool := (λ b, Z.testbit w (Z.of_nat b)) <$> seq 0 32.
Definition flags_of (bm : list Z) : list bool := bm ≫= bits_of.
Definition flags (s : pmm) : list bool := flags_of (frame_bitmap s).
Definition count_true (l : list bool) : Z := Z.of_nat (length (filter (λ b, b = true) l)).

(** The invariant of the allocator once [pmm_init] has run: the counter is the
    number of bits set ([core]), and frame 0 is in use, so that the address 0
    returned by [pmm_alloc_frame] always means that there is no frame left. *)
Record core (s : pmm) : Prop := {
  wf_words : Forall is_u32 (frame_bitmap s);
  wf_total : 0 ≤ total_frames_count s < 2 ^ 20;
  wf_length : length (frame_bitmap s) = Z.to_nat ((total_frames_count s + 31) / 32);
  wf_used : frames_used s = count_true (flags s)
}.
Record wf (s : pmm) : Prop := {
  wf_core : core s;
  wf_zero : flags s !! 0%nat = Some true
}.

(** ** Lemmas on the abstraction *)

Lemma length_bits_of w : length (bits_of w) = 32%nat.
Proof. by unfold bits_of; rewrite length_fmap, length_seq. Qed.

Lemma bits_of_lookup w b : (b < 32)%nat → bits_of w !! b = Some (Z.testbit w (Z.of_nat b)).
Proof.
  intros Hb. unfold bits_of. rewrite list_lookup_fmap, lookup_seq_lt by lia. done.
Qed.

Lemma length_flags_of bm : length (flags_of bm) = (32 * length bm)%nat.
Proof.
  induction bm as [|w bm IH]; [done|]. unfold flags_of in *. rewrite bind_cons.
  rewrite length_app, length_bits_of, IH. cbn [length]. lia.
Qed.

Lemma flags_of_lookup bm k :
  flags_of bm !! k = (λ w, Z.testbit w (Z.of_nat (k mod 32))) <$> bm !! (k / 32)%nat.
Proof.
  revert k. induction bm as [|w bm IH]; intros k; [by rewrite lookup_nil|].
  unfold flags_of in *. rewrite bind_cons. destruct (decide (k < 32)%nat) as [Hk|Hk].
  - rewrite lookup_app_l by (rewrite length_bits_of; lia).
    rewrite bits_of_lookup by lia.
    rewrite Nat.div_small, Nat.mod_small by lia. done.
  - rewrite lookup_app_r by (rewrite length_bits_of; lia). rewrite length_bits_of, IH.
    assert (k = (k - 32) + 1 * 32)%nat as Hk' by lia.
    replace (k / 32)%nat with (S ((k - 32) / 32)) by (rewrite Hk' at 2; rewrite Nat.div_add; lia).
    replace (k mod 32)%nat with ((k - 32) mod 32)%nat by (rewrite Hk' at 2; rewrite Nat.Div0.mod_add; done).
    done.
Qed.

Lemma testbit_u32_high w n : is_u32 w → 32 ≤ n → Z.testbit w n = false.
Proof.
  unfold is_u32. intros Hw Hn. destruct (decide (w = 0)) as [->|]; [apply Z.bits_0|].
  apply Z.bits_above_log2; [lia|]. apply Z.log2_lt_pow2; [lia|].
  apply Z.lt_le_trans with (2 ^ 32); [lia|]. apply Z.pow_le_mono_r; lia.
Qed.

Lemma is_u32_bits w : 0 ≤ w → (∀ n, 32 ≤ n → Z.testbit w n = false) → is_u32 w.
Proof.
  intros Hw Hb. unfold is_u32. split; [done|].
  destruct (decide (w = 0)) as [->|]; [lia|].
  apply Z.log2_lt_pow2; [lia|]. destruct (decide (Z.log2 w < 32)); [done|].
  pose proof (Z.bit_log2 w ltac:(lia)). rewrite Hb in H by lia. done.
Qed.

(** Two bitmaps of words with the same flags are the same. *)
Lemma flags_of_inj bm1 bm2 :
  Forall is_u32 bm1 → Forall is_u32 bm2 → length bm1 = length bm2 →
  flags_of bm1 = flags_of bm2 → bm1 = bm2.
Proof.
  intros H1 H2 Hl Hf. apply list_eq_same_length with (length bm2); [done..|].
  intros i x y Hi Hx Hy.
  rewrite Forall_lookup in H1, H2. specialize (H1 i x Hx). specialize (H2 i y Hy).
  apply Z.bits_inj'. intros n Hn. destruct (decide (n < 32)).
  2:{ by rewrite !testbit_u32_high by (done || lia). }
  assert (flags_of bm1 !! (i * 32 + Z.to_nat n)%nat = flags_of bm2 !! (i * 32 + Z.to_nat n)%nat)
    as Heq by (by rewrite Hf).
  rewrite !flags_of_lookup in Heq.
  rewrite Nat.div_add_l, (Nat.div_small (Z.to_nat n)), Nat.add_0_r in Heq by lia.
  replace ((i * 32 + Z.to_nat n) mod 32)%nat with (Z.to_nat n) in Heq
    by (rewrite Nat.add_comm, Nat.Div0.mod_add, Nat.mod_small; lia).
  rewrite Hx, Hy, Z2Nat.id in Heq by lia. simpl in Heq. congruence.
Qed.

(** Changing one bit of one word changes one flag. *)
Lemma flags_of_insert bm f w w' v :
  bm !! (f / 32)%nat = Some w →
  (∀ n, 0 ≤ n < 32 → Z.testbit w' n = if decide (n = Z.of_nat (f mod 32)) then v else Z.testbit w n) →
  flags_of (<[(f / 32)%nat := w']> bm) = <[f := v]> (flags_of bm).
Proof.
  intros Hw Hbits. apply list_eq. intros k.
  rewrite flags_of_lookup, !list_lookup_insert, flags_of_lookup, length_flags_of.
  pose proof (lookup_lt_Some _ _ _ Hw) as Hlt.
  pose proof (Nat.div_mod_eq k 32). pose proof (Nat.mod_upper_bound k 32).
  pose proof (Nat.div_mod_eq f 32). pose proof (Nat.mod_upper_bound f 32).
  destruct (decide (f / 32 = k / 32 ∧ f / 32 < length bm)%nat) as [[He Hl]|Hne].
  - rewrite <- He, Hw. cbn [fmap option_fmap option_map]. rewrite Hbits by lia.
    destruct (decide (f = k ∧ f < 32 * length bm)%nat) as [[-> ?]|Hfk].
    + rewrite decide_True by done. done.
    + rewrite decide_False; [done|]. intros ?. apply Hfk. split; lia.
  - rewrite (decide_False (P:=f = k ∧ _)); [done|]. intros [-> ?]. by apply Hne.
Qed.

Lemma count_true_insert l k :
  l !! k = Some false → count_true (<[k := true]> l) = count_true l + 1.
Proof.
  intros Hk. rewrite insert_take_drop by (by eapply lookup_lt_Some).
  unfold count_true. rewrite <- (take_drop_middle _ _ _ Hk) at 3.
  rewrite !filter_app, !filter_cons_True, filter_cons_False, !length_app by done. simpl. lia.
Qed.

Lemma count_true_remove l k :
  l !! k = Some true → count_true (<[k := false]> l) = count_true l - 1.
Proof.
  intros Hk. rewrite insert_take_drop by (by eapply lookup_lt_Some).
  unfold count_true. rewrite <- (take_drop_middle _ _ _ Hk) at 3.
  rewrite !filter_app, filter_cons_False, filter_cons_True, !length_app by done. simpl. lia.
Qed.

Lemma count_true_bound l : 0 ≤ count_true l ≤ Z.of_nat (length l).
Proof. unfold count_true. pose proof (length_filter (λ b, b = true) l). lia. Qed.

Lemma count_true_pos l k : l !! k = Some true → 0 < count_true l.
Proof.
  intros Hk. pose proof (count_true_remove _ _ Hk).
  pose proof (count_true_bound (<[k:=false]> l)). lia.
Qed.

(** ** Specifications of the bit operations *)

Lemma frame_word_index f : 0 ≤ f → Z.to_nat (Z.shiftr f 5) = (Z.to_nat f / 32)%nat.
Proof.
  intros. rewrite Z.shiftr_div_pow2 by lia. change (2 ^ 5) with 32.
  rewrite Z2Nat.inj_div by lia. done.
Qed.

Lemma frame_bit_index f : 0 ≤ f → Z.land f 31 = Z.of_nat (Z.to_nat f mod 32).
Proof.
  intros. change 31 with (Z.ones 5). rewrite Z.land_ones by lia. change (2 ^ 5) with 32.
  rewrite Nat2Z.inj_mod, Z2Nat.id by lia. done.
Qed.

Lemma bitmap_word s f :
  (f < length (flags s))%nat → ∃ w, frame_bitmap s !! (f / 32)%nat = Some w.
Proof.
  unfold flags. rewrite length_flags_of. intros.
  apply lookup_lt_is_Some. apply Nat.Div0.div_lt_upper_bound. lia.
Qed.

Lemma write_bit_spec s f w w' v Q :
  Forall is_u32 (frame_bitmap s) →
  frame_bitmap s !! (Z.to_nat f / 32)%nat = Some w → 0 ≤ f →
  is_u32 w' →
  (∀ n, 0 ≤ n < 32 →
     Z.testbit w' n = if decide (n = Z.of_nat (Z.to_nat f mod 32)) then v else Z.testbit w n) →
  (∀ bm', Forall is_u32 bm' → length bm' = length (frame_bitmap s) →
     flags_of bm' = <[Z.to_nat f := v]> (flags s) → Q tt (with_bitmap bm' s)) →
  wp (write_word (Z.shiftr f 5) w') Q s.
Proof.
  intros Hu Hw Hf Hw' Hb HQ. unfold write_word, read_word. wp_step.
  eapply wp_read; [by rewrite frame_word_index|]. wp_step.
  rewrite frame_word_index by done. apply HQ.
  - by apply Forall_insert.
  - by rewrite length_insert.
  - by eapply flags_of_insert.
Qed.

Lemma set_frame_spec s a Q :
  Forall is_u32 (frame_bitmap s) → 0 ≤ a →
  (Z.to_nat (a / 4096) < length (flags s))%nat →
  (∀ bm', Forall is_u32 bm' → length bm' = length (frame_bitmap s) →
     flags_of bm' = <[Z.to_nat (a / 4096) := true]> (flags s) → Q tt (with_bitmap bm' s)) →
  wp (set_frame a) Q s.
Proof.
  intros Hu Ha Hlt HQ. destruct (bitmap_word _ _ Hlt) as [w Hw].
  assert (0 ≤ a / 4096) by (apply Z.div_pos; lia).
  assert (is_u32 w) as Hwu by (by eapply Forall_lookup_1).
  unfold set_frame. wp_step. change PMM_FRAME_SIZE with 4096.
  eapply wp_read; [by rewrite frame_word_index|].
  rewrite frame_bit_index by done.
  pose proof (Nat.mod_upper_bound (Z.to_nat (a / 4096)) 32 ltac:(lia)).
  eapply (write_bit_spec _ _ w _ true); try done.
  - apply is_u32_bits.
    + apply Z.lor_nonneg. unfold is_u32 in Hwu. split; [lia|]. apply Z.shiftl_nonneg. lia.
    + intros n Hn. rewrite Z.lor_spec, (testbit_u32_high w) by done.
      rewrite Z.shiftl_1_l, Z.pow2_bits_false by lia. done.
  - intros n Hn. rewrite Z.lor_spec, Z.shiftl_1_l, Z.pow2_bits_eqb by lia.
    case_decide as He.
    + rewrite <- He, Z.eqb_refl. by rewrite orb_true_r.
    + rewrite (proj2 (Z.eqb_neq _ _)) by lia. by rewrite orb_false_r.
Qed.

Lemma clear_frame_spec s a Q :
  Forall is_u32 (frame_bitmap s) → 0 ≤ a →
  (Z.to_nat (a / 4096) < length (flags s))%nat →
  (∀ bm', Forall is_u32 bm' → length bm' = length (frame_bitmap s) →
     flags_of bm' = <[Z.to_nat (a / 4096) := false]> (flags s) → Q tt (with_bitmap bm' s)) →
  wp (clear_frame a) Q s.
Proof.
  intros Hu Ha Hlt HQ. destruct (bitmap_word _ _ Hlt) as [w Hw].
  assert (0 ≤ a / 4096) by (apply Z.div_pos; lia).
  assert (is_u32 w) as Hwu by (by eapply Forall_lookup_1).
  unfold clear_frame. wp_step. change PMM_FRAME_SIZE with 4096.
  eapply wp_read; [by rewrite frame_word_index|].
  rewrite frame_bit_index by done.
  pose proof (Nat.mod_upper_bound (Z.to_nat (a / 4096)) 32 ltac:(lia)).
  eapply (write_bit_spec _ _ w _ false); try done.
  - apply is_u32_bits.
    + apply Z.land_nonneg. unfold is_u32 in Hwu. left; lia.
    + intros n Hn. by rewrite Z.land_spec, (testbit_u32_high w).
  - intros n Hn. rewrite Z.land_spec. unfold not32, u32.
    rewrite Z.mod_pow2_bits_low by lia.
    rewrite Z.lnot_spec, Z.shiftl_1_l, Z.pow2_bits_eqb by lia.
    case_decide as He.
    + rewrite <- He, Z.eqb_refl. by rewrite andb_false_r.
    + rewrite (proj2 (Z.eqb_neq _ _)) by lia. by rewrite andb_true_r.
Qed.

Lemma test_frame_spec s a v Q :
  0 ≤ a → flags s !! Z.to_nat (a / 4096) = Some v → Q v s → wp (test_frame a) Q s.
Proof.
  intros Ha Hv HQ. pose proof (lookup_lt_Some _ _ _ Hv) as Hlt.
  destruct (bitmap_word _ _ Hlt) as [w Hw].
  assert (0 ≤ a / 4096) by (apply Z.div_pos; lia).
  unfold test_frame. wp_step. change PMM_FRAME_SIZE with 4096.
  eapply wp_read; [by rewrite frame_word_index|]. wp_step.
  rewrite frame_bit_index, land_bit_eq0, negb_involutive by lia.
  unfold flags in Hv. rewrite flags_of_lookup, Hw in Hv.
  by injection Hv as <-.
Qed.

(** ** The search for a free frame *)

(** Every frame below [n] is in use. *)
Definition all_used (s : pmm) (n : nat) : Prop := ∀ k, (k < n)%nat → flags s !! k = Some true.

Lemma first_clear_bit_spec w n b :
  0 ≤ b →
  match first_clear_bit w b n with
  | Some c => b ≤ c < b + Z.of_nat n ∧ Z.testbit w c = false ∧
              ∀ k, b ≤ k < c → Z.testbit w k = true
  | None => ∀ k, b ≤ k < b + Z.of_nat n → Z.testbit w k = true
  end.
Proof.
  revert b. induction n as [|n IH]; intros b Hb; simpl; [lia|].
  rewrite land_bit_eq0 by done. destruct (Z.testbit w b) eqn:Eb; simpl.
  - specialize (IH (b + 1) ltac:(lia)).
    destruct (first_clear_bit w (b + 1) n) as [c|].
    + destruct IH as (? & ? & Hk). split_and!; [lia|lia|done|].
      intros k ?. destruct (decide (k = b)) as [->|]; [done|]. apply Hk; lia.
    + intros k ?. destruct (decide (k = b)) as [->|]; [done|]. apply IH; lia.
  - split_and!; [lia|lia|done|lia].
Qed.

Lemma flags_word s i w k :
  frame_bitmap s !! i = Some w → (k < 32)%nat →
  flags s !! (32 * i + k)%nat = Some (Z.testbit w (Z.of_nat k)).
Proof.
  intros Hw Hk. unfold flags. rewrite flags_of_lookup, Nat.mul_comm.
  rewrite Nat.div_add_l, (Nat.div_small k), Nat.add_0_r by lia. rewrite Hw.
  replace ((i * 32 + k) mod 32)%nat with k; [done|].
  rewrite Nat.add_comm, Nat.Div0.mod_add, Nat.mod_small; lia.
Qed.

Lemma all_used_extend s i w c :
  all_used s (32 * i) → frame_bitmap s !! i = Some w → (c ≤ 32)%nat →
  (∀ k, 0 ≤ k < Z.of_nat c → Z.testbit w k = true) → all_used s (32 * i + c).
Proof.
  intros Hu Hw Hc Hb k Hk. destruct (decide (k < 32 * i)%nat); [by apply Hu|].
  replace k with (32 * i + (k - 32 * i))%nat by lia.
  rewrite (flags_word _ _ _ _ Hw) by lia. by rewrite Hb by lia.
Qed.

(** What the search returns: the lowest free frame, or [-1] when every frame of
    the machine is in use. *)
Definition search_post (s : pmm) (r : Z) : Prop :=
  (r = -1 ∧ all_used s (Z.to_nat (total_frames_count s))) ∨
  (0 ≤ r < total_frames_count s ∧ flags s !! Z.to_nat r = Some false ∧
   all_used s (Z.to_nat r)).

Lemma all_used_mono s n m : all_used s n → (m ≤ n)%nat → all_used s m.
Proof. intros H ? k ?. apply H. lia. Qed.

Lemma first_free_from_spec s n i :
  0 ≤ total_frames_count s < 2 ^ 20 →
  (i + n = length (frame_bitmap s))%nat →
  total_frames_count s ≤ 32 * Z.of_nat (length (frame_bitmap s)) →
  Z.of_nat (length (frame_bitmap s)) ≤ 2 ^ 20 →
  all_used s (32 * i) →
  wp (first_free_from (Z.of_nat i) n) (λ r s', s' = s ∧ search_post s r) s.
Proof.
  intros Ht Hlen Htot Hl. revert i Hlen.
  induction n as [|n IH]; intros i Hlen Hu; cbn [first_free_from].
  { wp_step. split; [done|]. left. split; [done|]. eapply all_used_mono; [done|]. lia. }
  assert (∃ w, frame_bitmap s !! i = Some w) as [w Hw] by (apply lookup_lt_is_Some; lia).
  wp_step. eapply wp_read; [by rewrite Nat2Z.id|].
  assert (all_used s (32 * S i) →
          wp (first_free_from (Z.of_nat i + 1) n) (λ r s', s' = s ∧ search_post s r) s) as Hnext.
  { intros. replace (Z.of_nat i + 1) with (Z.of_nat (S i)) by lia. apply IH; [lia|done]. }
  assert ((∀ k, 0 ≤ k < 32 → Z.testbit w k = true) → all_used s (32 * S i)) as Hfull.
  { intros. replace (32 * S i)%nat with (32 * i + 32)%nat by lia. by eapply all_used_extend. }
  destruct (Z.eqb_spec w 0xFFFFFFFF) as [->|].
  { apply Hnext, Hfull. intros k ?. change 0xFFFFFFFF with (Z.ones 32). by apply Z.ones_spec_low. }
  pose proof (first_clear_bit_spec w 32 0 ltac:(lia)) as Hb.
  destruct (first_clear_bit w 0 32) as [c|]; [|by apply Hnext, Hfull].
  destruct Hb as (Hc & Hbit & Hbelow). wp_steps. split; [done|].
  assert (u32 (u32 (Z.shiftl (Z.of_nat i) 5) + c) = 32 * Z.of_nat i + c) as ->.
  { rewrite Z.shiftl_mul_pow2, (u32_small (_ * _)), u32_small by lia. lia. }
  assert (Z.to_nat (32 * Z.of_nat i + c) = 32 * i + Z.to_nat c)%nat as Hnat by lia.
  assert (all_used s (32 * i + Z.to_nat c)).
  { eapply all_used_extend; [done..|lia|]. intros. apply Hbelow. lia. }
  destruct (Z.ltb_spec (32 * Z.of_nat i + c) (total_frames_count s)).
  - right. rewrite Hnat. split_and!; [lia|lia| |done].
    rewrite (flags_word _ _ _ _ Hw), Z2Nat.id, Hbit by lia. done.
  - left. split; [done|]. eapply all_used_mono; [done|lia].
Qed.

Lemma first_free_frame_spec s :
  wf s → wp first_free_frame (λ r s', s' = s ∧ search_post s r) s.
Proof.
  intros [[Hw Ht Hl Hu] Hz]. unfold first_free_frame. wp_steps.
  assert (Z.to_nat (Z.shiftr (u32 (total_frames_count s + 31)) 5) = length (frame_bitmap s)) as ->.
  { rewrite Hl, u32_small, Z.shiftr_div_pow2 by lia. done. }
  assert (Z.of_nat (length (frame_bitmap s)) = (total_frames_count s + 31) / 32) as Hlz
    by (rewrite Hl, Z2Nat.id by (apply Z.div_pos; lia); done).
  apply (first_free_from_spec s _ 0); [done|done|lia|lia|].
  intros k ?; lia.
Qed.

(** ** Allocation and release *)

Lemma length_flags s : length (flags s) = (32 * length (frame_bitmap s))%nat.
Proof. apply length_flags_of. Qed.

Lemma core_length_flags s :
  core s → total_frames_count s ≤ Z.of_nat (length (flags s)) < total_frames_count s + 32.
Proof. intros [_ ? Hl _]. rewrite length_flags, Hl. lia. Qed.

(** Setting or clearing one flag, with the counter, keeps the invariant. *)
Lemma core_set s bm f :
  core s → Forall is_u32 bm → length bm = length (frame_bitmap s) →
  flags s !! f = Some false → flags_of bm = <[f := true]> (flags s) →
  core (with_used (u32 (frames_used s + 1)) (with_bitmap bm s)).
Proof.
  intros Hwf Hbm Hl Hf Hfl. pose proof (core_length_flags _ Hwf).
  destruct Hwf as [Hw Ht Hlen Hu]. split; simpl; [done|done|congruence|].
  unfold flags; simpl. rewrite Hfl, count_true_insert, <- Hu by done.
  pose proof (count_true_bound (flags s)). rewrite u32_small; lia.
Qed.

Lemma wf_set s bm f :
  wf s → Forall is_u32 bm → length bm = length (frame_bitmap s) →
  flags s !! f = Some false → flags_of bm = <[f := true]> (flags s) →
  wf (with_used (u32 (frames_used s + 1)) (with_bitmap bm s)).
Proof.
  intros [Hc Hz] Hbm Hl Hf Hfl. split; [by eapply core_set|].
  unfold flags; simpl. rewrite Hfl. destruct (decide (f = 0%nat)) as [->|].
  + by rewrite list_lookup_insert_eq by (by eapply lookup_lt_Some).
  + by rewrite list_lookup_insert_ne.
Qed.

Lemma drop_used_eq s n : frames_used s = n → 0 < n → drop_used s = with_used (n - 1) s.
Proof. intros <- ?. unfold drop_used. rewrite (proj2 (Z.eqb_neq _ _)) by lia. done. Qed.

Lemma wf_clear s bm f :
  wf s → Forall is_u32 bm → length bm = length (frame_bitmap s) →
  (0 < f)%nat → flags s !! f = Some true → flags_of bm = <[f := false]> (flags s) →
  drop_used (with_bitmap bm s) = with_used (frames_used s - 1) (with_bitmap bm s) ∧
  wf (with_used (frames_used s - 1) (with_bitmap bm s)).
Proof.
  intros Hwf Hbm Hl Hf0 Hf Hfl. destruct Hwf as [[Hw Ht Hlen Hu] Hz].
  pose proof (count_true_pos _ _ Hf). split.
  { by apply drop_used_eq; simpl; [|lia]. }
  split; [split; simpl; [done|done|congruence|]|].
  - unfold flags; simpl. by rewrite Hfl, count_true_remove, <- Hu by done.
  - unfold flags; simpl. rewrite Hfl. by rewrite list_lookup_insert_ne by lia.
Qed.

(** The result of [pmm_alloc_frame]. *)
Definition alloc_post (s : pmm) (addr : Z) (s' : pmm) : Prop :=
  (addr = 0 ∧ s' = s ∧ all_used s (Z.to_nat (total_frames_count s))) ∨
  (∃ f, addr = 4096 * f ∧ 0 < f < total_frames_count s ∧
        flags s !! Z.to_nat f = Some false ∧ all_used s (Z.to_nat f) ∧
        flags s' = <[Z.to_nat f := true]> (flags s) ∧
        frames_used s' = frames_used s + 1 ∧
        total_frames_count s' = total_frames_count s ∧
        length (frame_bitmap s') = length (frame_bitmap s) ∧ wf s').

Lemma pmm_alloc_frame_wp s : wf s → wp pmm_alloc_frame (alloc_post s) s.
Proof.
  intros Hwf. unfold pmm_alloc_frame. wp_step.
  eapply wp_mono; [by apply first_free_frame_spec|].
  intros r s' [-> [[-> Hall]|(Hr & Hf & Hall)]].
  { simpl. wp_step. by left. }
  rewrite (proj2 (Z.ltb_ge _ _)) by lia.
  pose proof (core_length_flags _ (wf_core _ Hwf)). pose proof (wf_total _ (wf_core _ Hwf)).
  assert (0 < r).
  { destruct (decide (r = 0)) as [->|]; [|lia].
    change (Z.to_nat 0) with 0%nat in Hf. rewrite (wf_zero _ Hwf) in Hf. done. }
  change PMM_FRAME_SIZE with 4096. rewrite u32_small by lia.
  assert (r * 4096 / 4096 = r) as Hdiv by lia.
  wp_step. apply set_frame_spec; rewrite ?Hdiv; [apply Hwf.(wf_core _)|lia|lia|].
  intros bm' Hbm Hlbm Hfl. wp_steps.
  right. exists r. split_and!; try done; try lia.
  - simpl. rewrite u32_small; [done|]. rewrite (wf_used _ (wf_core _ Hwf)).
    pose proof (count_true_bound (flags s)). lia.
  - by apply (wf_set s bm' (Z.to_nat r)).
Qed.

(** The result of [pmm_free_frame] at a frame of the machine. *)
Definition free_post (s : pmm) (paddr : Z) (r : Z) (s' : pmm) : Prop :=
  let f := Z.to_nat (paddr / 4096) in
  if decide (paddr mod 4096 ≠ 0) then r = ERR_INVALID_ALIGNMENT ∧ s' = s
  else if decide (flags s !! f = Some true) then
    r = ERR_SUCCESS ∧ flags s' = <[f := false]> (flags s) ∧
    frames_used s' = frames_used s - 1 ∧
    total_frames_count s' = total_frames_count s ∧
    length (frame_bitmap s') = length (frame_bitmap s) ∧ wf s'
  else r = ERR_INVALID_ARGUMENT ∧ s' = s.

Lemma pmm_free_frame_wp s paddr :
  wf s → 4096 ≤ paddr < 4096 * total_frames_count s →
  wp (pmm_free_frame paddr) (free_post s paddr) s.
Proof.
  intros Hwf Hp. pose proof (core_length_flags _ (wf_core _ Hwf)). pose proof (wf_total _ (wf_core _ Hwf)).
  unfold pmm_free_frame. change (PMM_FRAME_SIZE - 1) with (Z.ones 12).
  rewrite Z.land_ones by lia. change (2 ^ 12) with 4096.
  destruct (Z.eqb_spec (paddr mod 4096) 0); simpl.
  2:{ wp_step. unfold free_post. by rewrite decide_True. }
  destruct (lookup_lt_is_Some_2 (flags s) (Z.to_nat (paddr / 4096))) as [v Hv]; [lia|].
  wp_step. eapply test_frame_spec; [lia|done|].
  destruct v; simpl.
  2:{ wp_step. unfold free_post. by rewrite !decide_False by (rewrite ?Hv; done || lia). }
  wp_step. apply clear_frame_spec; [apply Hwf.(wf_core _)|lia|lia|]. intros bm' Hbm Hlbm Hfl. wp_steps.
  destruct (wf_clear s bm' (Z.to_nat (paddr / 4096))) as [-> Hwf']; [done..|lia|done|done|].
  unfold free_post. rewrite decide_False, decide_True by (done || lia). done.
Qed.

(** ** Regions *)

(** The flags of frames [i, n) set to [v]. *)
Definition set_range (i n : nat) (v : bool) (l : list bool) : list bool :=
  imap (λ k b, if decide (i ≤ k < n)%nat then v else b) l.

Lemma set_range_lookup i n v l k :
  set_range i n v l !! k = (λ b, if decide (i ≤ k < n)%nat then v else b) <$> l !! k.
Proof. unfold set_range. by rewrite list_lookup_imap. Qed.

Lemma set_range_nil i n v l : (n ≤ i)%nat → set_range i n v l = l.
Proof.
  intros. apply list_eq. intros k. rewrite set_range_lookup.
  destruct (l !! k); simpl; [|done]. by rewrite decide_False by lia.
Qed.

Lemma set_range_step i n v l :
  (i < n)%nat → set_range (S i) n v (<[i := v]> l) = set_range i n v l.
Proof.
  intros. apply list_eq. intros k. rewrite !set_range_lookup, list_lookup_insert.
  destruct (decide (i = k ∧ i < length l)%nat) as [[-> Hl]|Hne].
  - destruct (lookup_lt_is_Some_2 _ _ Hl) as [b ->]. simpl.
    by rewrite decide_False, decide_True by lia.
  - destruct (l !! k) as [b|] eqn:Hk; [|done]. simpl.
    apply lookup_lt_Some in Hk. f_equal.
    destruct (decide (S i ≤ k < n)%nat), (decide (i ≤ k < n)%nat); done || lia.
Qed.

(** The part of the state a region operation does not touch. *)
Definition region_post (s : pmm) (i n : nat) (v : bool) (s' : pmm) : Prop :=
  flags s' = set_range i n v (flags s) ∧
  total_frames_count s' = total_frames_count s.

Lemma region_post_step s s1 s' i n v :
  (i < n)%nat → flags s1 = <[i := v]> (flags s) →
  total_frames_count s1 = total_frames_count s →
  region_post s1 (S i) n v s' → region_post s i n v s'.
Proof.
  intros ? Hf Ht [Hr Hr']. split; [|congruence].
  by rewrite Hr, Hf, set_range_step.
Qed.

Lemma next_frame_addr i n :
  (i < n)%nat → Z.of_nat n < 2 ^ 20 →
  u32 (4096 * Z.of_nat i + PMM_FRAME_SIZE) = 4096 * Z.of_nat (S i).
Proof. intros. change PMM_FRAME_SIZE with 4096. rewrite u32_small; lia. Qed.

Lemma reserve_loop_spec n fuel s i :
  wf s → Z.of_nat n < 2 ^ 20 → (n ≤ length (flags s))%nat → (n ≤ i + fuel)%nat →
  wp (reserve_loop fuel (4096 * Z.of_nat i) (4096 * Z.of_nat n))
     (λ _ s', wf s' ∧ region_post s i n true s') s.
Proof.
  intros Hwf Hn. revert s i Hwf.
  induction fuel as [|fuel IH]; intros s i Hwf Hl Hfuel; cbn [reserve_loop];
    destruct (Z.ltb_spec (4096 * Z.of_nat i) (4096 * Z.of_nat n)); try lia;
    try (wp_step; split_and!; [done|split; [by rewrite set_range_nil by lia|done]]).
  destruct (lookup_lt_is_Some_2 (flags s) i) as [v Hv]; [lia|].
  assert (Z.to_nat (4096 * Z.of_nat i / 4096) = i) as Hi by lia.
  wp_step. eapply test_frame_spec; [lia|by rewrite Hi|].
  rewrite next_frame_addr with (n := n) by lia.
  wp_step. destruct v; simpl.
  - wp_step. eapply wp_mono; [apply IH; [done|done|lia]|]. intros _ s' [? ?]. split; [done|].
    eapply region_post_step; [lia|by rewrite list_insert_id|done|done].
  - wp_step. apply set_frame_spec; rewrite ?Hi; [apply Hwf.(wf_core _)|lia|lia|].
    intros bm' Hbm Hlbm Hfl. wp_steps.
    eapply wp_mono; [apply IH; [by apply (wf_set s bm' i)| |lia]|].
    + unfold flags; simpl. by rewrite Hfl, length_insert.
    + intros _ s' [? ?]. split; [done|]. eapply region_post_step; [lia| | |done]; [exact Hfl|done].
Qed.

Lemma unreserve_loop_spec n fuel s i :
  wf s → (0 < i)%nat → Z.of_nat n < 2 ^ 20 → (n ≤ length (flags s))%nat → (n ≤ i + fuel)%nat →
  wp (unreserve_loop fuel (4096 * Z.of_nat i) (4096 * Z.of_nat n))
     (λ _ s', wf s' ∧ region_post s i n false s') s.
Proof.
  intros Hwf Hi0 Hn. revert s i Hwf Hi0.
  induction fuel as [|fuel IH]; intros s i Hwf Hi0 Hl Hfuel; cbn [unreserve_loop];
    destruct (Z.ltb_spec (4096 * Z.of_nat i) (4096 * Z.of_nat n)); try lia;
    try (wp_step; split_and!; [done|split; [by rewrite set_range_nil by lia|done]]).
  destruct (lookup_lt_is_Some_2 (flags s) i) as [v Hv]; [lia|].
  assert (Z.to_nat (4096 * Z.of_nat i / 4096) = i) as Hi by lia.
  wp_step. eapply test_frame_spec; [lia|by rewrite Hi|].
  rewrite next_frame_addr with (n := n) by lia.
  wp_step. destruct v; simpl.
  - wp_step. apply clear_frame_spec; rewrite ?Hi; [apply Hwf.(wf_core _)|lia|lia|].
    intros bm' Hbm Hlbm Hfl. wp_steps.
    destruct (wf_clear s bm' i) as [-> Hwf']; [done..|].
    eapply wp_mono; [apply IH; [done|lia| |lia]|].
    + unfold flags; simpl. by rewrite Hfl, length_insert.
    + intros _ s' [? ?]. split; [done|]. eapply region_post_step; [lia| | |done]; [exact Hfl|done].
  - wp_step. eapply wp_mono; [apply IH; [done|lia|done|lia]|]. intros _ s' [? ?]. split; [done|].
    eapply region_post_step; [lia|by rewrite list_insert_id|done|done].
Qed.

(** [init_reserve] from a bitmap whose frames [i, n) are free. *)
Lemma init_reserve_spec n e fuel s i :
  core s → Z.of_nat n < 2 ^ 20 → (n ≤ length (flags s))%nat → (n ≤ i + fuel)%nat → (i ≤ n)%nat →
  4096 * (Z.of_nat n - 1) < e ≤ 4096 * Z.of_nat n →
  (∀ k, (i ≤ k < n)%nat → flags s !! k = Some false) →
  wp (init_reserve fuel (4096 * Z.of_nat i) e) (λ _ s', core s' ∧ region_post s i n true s') s.
Proof.
  intros Hc Hn. revert s i Hc.
  induction fuel as [|fuel IH]; intros s i Hc Hl Hfuel Hin He Hfree; cbn [init_reserve];
    destruct (Z.ltb_spec (4096 * Z.of_nat i) e); try lia;
    try (wp_step; split_and!; [done|split; [by rewrite set_range_nil by lia|done]]).
  assert (Z.to_nat (4096 * Z.of_nat i / 4096) = i) as Hi by lia.
  rewrite next_frame_addr with (n := n) by lia.
  wp_step. apply set_frame_spec; rewrite ?Hi; [apply Hc|lia|lia|].
  intros bm' Hbm Hlbm Hfl. wp_steps.
  eapply wp_mono; [apply IH; [| |lia|lia|lia|]|].
  - apply (core_set s bm' i); [done..| |done]. apply Hfree. lia.
  - unfold flags; simpl. by rewrite Hfl, length_insert.
  - intros k ?. unfold flags; simpl. rewrite Hfl, list_lookup_insert_ne by lia. apply Hfree. lia.
  - intros _ s' [? ?]. split; [done|]. eapply region_post_step; [lia| | |done]; [exact Hfl|done].
Qed.

(** ** Theorems *)

(** A machine of 40 frames whose first free frame is frame 34. *)
Definition ex_pmm : pmm := mk_pmm [0xFFFFFFFF; 0xFFFFFF03] 40 58.

Lemma ex_pmm_wf : wf ex_pmm.
Proof. split; [split|]; by_eval. Qed.

(** C20: from a state of the invariant [pmm_alloc_frame] returns; it returns 0
    and changes nothing when every frame of the machine is in use, and
    otherwise it returns the address of the lowest free frame, sets the flag
    of this frame and no other, counts it, and keeps the invariant. *)
Theorem pmm_alloc_correct s : wf s → wp pmm_alloc_frame (alloc_post s) s.
Proof. apply pmm_alloc_frame_wp. Qed.

Lemma pmm_alloc_correct_witness :
  wf ex_pmm ∧ wp pmm_alloc_frame (alloc_post ex_pmm) ex_pmm ∧
  fst <$> pmm_alloc_frame ex_pmm = Some (34 * 4096).
Proof.
  split; [exact ex_pmm_wf|]. split; [apply (pmm_alloc_correct ex_pmm), ex_pmm_wf|].
  vm_compute. reflexivity.
Defined.

(** [n] calls of [pmm_alloc_frame] in a row, with the addresses returned. *)
Fixpoint alloc_many (n : nat) : cmd pmm (list Z) :=
  match n with
  | O => mret []
  | S n => a ← pmm_alloc_frame; l ← alloc_many n; mret (a :: l)
  end.

Lemma alloc_many_wp n s :
  wf s →
  wp (alloc_many n) (λ l s',
    wf s' ∧ NoDup (filter (λ a, a ≠ 0) l) ∧
    (∀ a, a ∈ l → a ≠ 0 → ∃ f, a = 4096 * f ∧ 0 < f < total_frames_count s ∧
                               flags s !! Z.to_nat f = Some false)) s.
Proof.
  revert s. induction n as [|n IH]; intros s Hwf; cbn [alloc_many].
  { wp_step. split_and!; [done|constructor|]. by intros a ?%elem_of_nil. }
  wp_step. eapply wp_mono; [by apply pmm_alloc_frame_wp|]. intros a s1 Ha. wp_step.
  destruct Ha as [(-> & -> & _)|(f & -> & Hf & Hfree & _ & Hfl & _ & Ht & _ & Hwf1)].
  { eapply wp_mono; [by apply IH|]. intros l s' (? & ? & Hl). wp_step.
    split_and!; [done|by rewrite filter_cons_False by tauto|].
    intros a [->|?]%elem_of_cons ?; [done|]. by apply Hl. }
  eapply wp_mono; [by apply IH|]. intros l s' (? & Hnd & Hl). wp_step. rewrite Ht, Hfl in Hl.
  split_and!; [done| |].
  - rewrite filter_cons_True by lia. constructor; [|done].
    rewrite list_elem_of_filter. intros [_ Hin].
    destruct (Hl _ Hin ltac:(lia)) as (f' & Heq & Hf' & Hlk).
    assert (f' = f) as -> by lia.
    rewrite list_lookup_insert_eq in Hlk by (by eapply lookup_lt_Some). done.
  - intros a [->|Hin]%elem_of_cons Ha; [by exists f|].
    destruct (Hl _ Hin Ha) as (f' & -> & Hf' & Hlk). exists f'. split_and!; [done|lia|lia|].
    rewrite list_lookup_insert in Hlk. by destruct (decide _).
Qed.

(** However many frames are requested in a row, no frame is handed out
    twice, and every address handed out is that of a frame of the machine that
    was free before the first request. *)
Theorem pmm_alloc_distinct n s :
  wf s →
  wp (alloc_many n) (λ l s',
    wf s' ∧ NoDup (filter (λ a, a ≠ 0) l) ∧
    (∀ a, a ∈ l → a ≠ 0 → ∃ f, a = 4096 * f ∧ 0 < f < total_frames_count s ∧
                               flags s !! Z.to_nat f = Some false)) s.
Proof. apply alloc_many_wp. Qed.

Lemma pmm_alloc_distinct_witness :
  wf ex_pmm ∧
  fst <$> alloc_many 8 ex_pmm = Some (((λ f, f * 4096) <$> [34; 35; 36; 37; 38; 39]) ++ [0; 0]) ∧
  wp (alloc_many 8) (λ l s',
    wf s' ∧ NoDup (filter (λ a, a ≠ 0) l) ∧
    (∀ a, a ∈ l → a ≠ 0 → ∃ f, a = 4096 * f ∧ 0 < f < total_frames_count ex_pmm ∧
                               flags ex_pmm !! Z.to_nat f = Some false)) ex_pmm.
Proof.
  split; [exact ex_pmm_wf|]. split; [vm_compute; reflexivity|].
  apply (pmm_alloc_distinct 8 ex_pmm), ex_pmm_wf.
Defined.

(** A state is determined by its flags, once the invariant holds. *)
Lemma core_ext s1 s2 :
  core s1 → core s2 → total_frames_count s1 = total_frames_count s2 →
  flags s1 = flags s2 → s1 = s2.
Proof.
  intros [? _ Hl1 Hu1] [? _ Hl2 Hu2] Ht Hf.
  destruct s1 as [bm1 t1 u1], s2 as [bm2 t2 u2]; simpl in *. subst t2.
  assert (bm1 = bm2) as -> by (apply flags_of_inj; [done..|congruence|done]).
  f_equal. by rewrite Hu1, Hu2.
Qed.

(** Releasing the frame that was just allocated succeeds and restores the
    allocator exactly: bitmap, counters and all. *)
Theorem pmm_free_alloc_roundtrip s addr s1 :
  wf s → pmm_alloc_frame s = Some (addr, s1) → addr ≠ 0 →
  pmm_free_frame addr s1 = Some (ERR_SUCCESS, s).
Proof.
  intros Hwf Hrun Hne. pose proof (wp_elim _ _ _ _ _ (pmm_alloc_frame_wp _ Hwf) Hrun) as Hpost.
  destruct Hpost as [(? & _)|(f & -> & Hf & Hfree & _ & Hfl & _ & Ht & Hlen & Hwf1)]; [done|].
  pose proof (pmm_free_frame_wp s1 (4096 * f) Hwf1 ltac:(lia)) as Hw.
  apply wp_run in Hw as (r & s2 & Hr & Hp). rewrite Hr.
  assert (4096 * f / 4096 = f) as Hdiv by lia.
  unfold free_post in Hp. rewrite Hdiv, Hfl in Hp.
  pose proof (lookup_lt_Some _ _ _ Hfree).
  rewrite decide_False, decide_True in Hp by (lia || by rewrite list_lookup_insert_eq).
  destruct Hp as (-> & Hfl2 & _ & Ht2 & _ & Hwf2).
  do 2 f_equal. apply core_ext; [apply Hwf2|apply Hwf|congruence|].
  by rewrite Hfl2, list_insert_insert_eq, list_insert_id.
Qed.

Lemma pmm_free_alloc_roundtrip_witness :
  ∃ addr s1, pmm_alloc_frame ex_pmm = Some (addr, s1) ∧ addr ≠ 0 ∧
             pmm_free_frame addr s1 = Some (ERR_SUCCESS, ex_pmm).
Proof.
  eexists _, _. split; [vm_compute; reflexivity|]. split; [done|].
  apply (pmm_free_alloc_roundtrip ex_pmm); [exact ex_pmm_wf|vm_compute; reflexivity|done].
Defined.

(** The frames a byte range [start, end_) touches. *)
Definition first_frame (start : Z) : nat := Z.to_nat (start / 4096).
Definition end_frame (end_ : Z) : nat := Z.to_nat ((end_ + 4095) / 4096).

(** On a region of the machine, [pmm_reserve_region] and
    [pmm_unreserve_region] succeed, set (clear) the flags of exactly the frames
    that the region touches, and keep the invariant; an empty or reversed
    region is refused with the state unchanged. *)
Theorem pmm_region_correct s start end_ :
  wf s → 0 ≤ start < 2 ^ 32 → 0 ≤ end_ ≤ 4096 * total_frames_count s →
  (end_ ≤ start →
     pmm_reserve_region start end_ s = Some (ERR_INVALID_ARGUMENT, s) ∧
     pmm_unreserve_region start end_ s = Some (ERR_INVALID_ARGUMENT, s)) ∧
  (start < end_ →
     wp (pmm_reserve_region start end_) (λ r s', r = ERR_SUCCESS ∧ wf s' ∧
        region_post s (first_frame start) (end_frame end_) true s') s) ∧
  (4096 ≤ start < end_ →
     wp (pmm_unreserve_region start end_) (λ r s', r = ERR_SUCCESS ∧ wf s' ∧
        region_post s (first_frame start) (end_frame end_) false s') s).
Proof.
  intros Hwf Hs He. pose proof (core_length_flags _ (wf_core _ Hwf)).
  pose proof (wf_total _ (wf_core _ Hwf)).
  unfold pmm_reserve_region, pmm_unreserve_region, first_frame, end_frame.
  change PMM_FRAME_SIZE with 4096.
  rewrite align_down_4096 by lia. rewrite align_up_4096 by lia.
  rewrite Z.div_mul by lia.
  assert (start / 4096 * 4096 = 4096 * Z.of_nat (Z.to_nat (start / 4096))) as -> by lia.
  assert ((end_ + 4095) / 4096 * 4096 = 4096 * Z.of_nat (Z.to_nat ((end_ + 4095) / 4096))) as -> by lia.
  split_and!; intros; destruct (Z.leb_spec end_ start); try done; try lia.
  - wp_step. eapply wp_mono; [apply reserve_loop_spec; [done|lia|lia|lia]|].
    intros _ s' [? ?]. by wp_step.
  - wp_step. eapply wp_mono; [apply unreserve_loop_spec; [done|lia|lia|lia|lia]|].
    intros _ s' [? ?]. by wp_step.
Qed.

Lemma pmm_region_correct_witness :
  wf ex_pmm ∧
  wp (pmm_reserve_region (35 * 4096 + 1) (37 * 4096)) (λ r s', r = ERR_SUCCESS ∧ wf s' ∧
        region_post ex_pmm (first_frame (35 * 4096 + 1)) (end_frame (37 * 4096)) true s') ex_pmm.
Proof.
  split; [exact ex_pmm_wf|].
  destruct (pmm_region_correct ex_pmm (35 * 4096 + 1) (37 * 4096)) as (_ & H & _);
    [exact ex_pmm_wf|by_eval|by_eval|].
  apply H. by_eval.
Defined.

(** A region that reaches into the last page of the address space is reported
    as reserved although no frame is: [align_up] wraps to 0. *)
Lemma pmm_reserve_region_top s start end_ :
  0 ≤ start < end_ → 2 ^ 32 - 4096 < end_ < 2 ^ 32 →
  pmm_reserve_region start end_ s = Some (ERR_SUCCESS, s).
Proof.
  intros Hs He. unfold pmm_reserve_region. change PMM_FRAME_SIZE with 4096.
  rewrite (proj2 (Z.leb_gt _ _)) by lia.
  rewrite align_down_4096, align_up_4096_wrap by lia.
  apply bind_run with (a := tt) (s' := s).
  change (Z.to_nat (0 / 4096)) with 0%nat. cbn [reserve_loop].
  by rewrite (proj2 (Z.ltb_ge _ _)) by lia.
Qed.

Lemma flags_of_zeros n : flags_of (replicate n 0) = replicate (32 * n) false.
Proof.
  apply list_eq. intros k. rewrite flags_of_lookup.
  destruct (decide (k < 32 * n)%nat).
  - rewrite (lookup_replicate_2 (32 * n)) by done.
    rewrite (lookup_replicate_2 n) by (apply Nat.Div0.div_lt_upper_bound; lia).
    cbn [fmap option_fmap option_map]. by rewrite Z.bits_0.
  - rewrite !lookup_ge_None_2; [done|rewrite length_replicate; lia|].
    rewrite length_replicate. apply Nat.div_le_lower_bound; lia.
Qed.

Lemma count_true_replicate n : count_true (replicate n false) = 0.
Proof.
  unfold count_true. induction n; [done|]. cbn [replicate].
  by rewrite filter_cons_False by done.
Qed.

(** The first byte past the bitmap that [pmm_init] lays out. *)
Definition bitmap_end (mem_size_bytes kernel_end_paddr : Z) : Z :=
  (kernel_end_paddr + 4095) / 4096 * 4096 + (mem_size_bytes / 4096 + 31) / 32 * 4.

(** When the kernel image and the bitmap fit in memory, [pmm_init]
    succeeds and establishes the invariant; exactly the frames up to the end
    of the bitmap are in use and every other frame is free. *)
Theorem pmm_init_establishes_wf s mem kend :
  0 < mem < 2 ^ 32 → 0 < kend → bitmap_end mem kend ≤ 4096 * (mem / 4096) →
  wp (pmm_init mem kend) (λ r s', r = ERR_SUCCESS ∧ wf s' ∧
    total_frames_count s' = mem / 4096 ∧
    ∀ f, (f < length (flags s'))%nat →
      flags s' !! f = Some (bool_decide (4096 * Z.of_nat f < bitmap_end mem kend))) s.
Proof.
  unfold bitmap_end. intros Hm Hk Hend. set (total := mem / 4096).
  assert (0 ≤ total < 2 ^ 20) by (subst total; lia).
  unfold pmm_init. rewrite (proj2 (Z.eqb_neq mem 0)) by lia.
  change PMM_FRAME_SIZE with 4096. fold total. fold total in Hend.
  rewrite align_up_4096, (u32_small (total + 31)), Z.shiftr_div_pow2 by lia.
  change (2 ^ 5) with 32. set (base := (kend + 4095) / 4096 * 4096) in *.
  set (words := (total + 31) / 32) in *.
  rewrite (u32_small (words * 4)), (u32_small (base + words * 4)) by lia.
  wp_step. wp_step. rewrite (proj2 (Z.eqb_neq base 0)) by lia. wp_steps.
  replace (words * 4 / 4) with words by lia.
  set (s0 := mk_pmm _ _ _).
  assert (flags s0 = replicate (32 * Z.to_nat words) false) as Hf0 by apply flags_of_zeros.
  assert (core s0) as Hc0.
  { split; [|done|by simpl; rewrite length_replicate|].
    - apply Forall_replicate. by_eval.
    - by rewrite Hf0, count_true_replicate. }
  set (n := Z.to_nat ((base + words * 4 + 4095) / 4096)).
  assert (n ≤ 32 * Z.to_nat words)%nat by (subst n words; lia).
  eapply wp_mono.
  { change 0 with (4096 * Z.of_nat 0) at 1.
    apply (init_reserve_spec n); [done|subst n; lia|by rewrite Hf0, length_replicate|subst n; lia|lia
      |subst n; lia|]. intros k ?. rewrite Hf0. apply lookup_replicate_2. lia. }
  intros _ s' (Hc & Hfl & Ht). wp_step. rewrite Hf0 in Hfl.
  assert (∀ f, (f < length (flags s'))%nat →
      flags s' !! f = Some (bool_decide (4096 * Z.of_nat f < base + words * 4))) as Hall.
  { intros f Hf. rewrite Hfl in *. unfold set_range in Hf. rewrite length_imap, length_replicate in Hf.
    rewrite set_range_lookup, lookup_replicate_2 by lia. simpl. f_equal.
    destruct (decide _); [rewrite bool_decide_true|rewrite bool_decide_false]; done || subst n; lia. }
  split_and!; [done| |done|exact Hall].
  split; [done|]. rewrite Hall; [by rewrite bool_decide_true by lia|].
  rewrite Hfl. unfold set_range. rewrite length_imap, length_replicate. lia.
Qed.

Lemma pmm_init_establishes_wf_witness :
  bitmap_end (16 * 1024 * 1024) 0x150123 ≤ 4096 * (16 * 1024 * 1024 / 4096) ∧
  wp (pmm_init (16 * 1024 * 1024) 0x150123) (λ r s', r = ERR_SUCCESS ∧ wf s' ∧
    total_frames_count s' = 16 * 1024 * 1024 / 4096 ∧
    ∀ f, (f < length (flags s'))%nat →
      flags s' !! f = Some (bool_decide
        (4096 * Z.of_nat f < bitmap_end (16 * 1024 * 1024) 0x150123))) ex_pmm.
Proof.
  split; [by_eval|].
  apply (pmm_init_establishes_wf ex_pmm (16 * 1024 * 1024) 0x150123); by_eval.
Defined.

End Pmm.
