(* ===== verification/Block.v ===== *)
(** * Block devices and MBR partitions

    [src/kernel/fs/block/blockdev.c] (the registry of devices, the checked
    read and write), [src/kernel/fs/block/partition.c] (the primary partitions
    of a disk as devices of their own).

    A driver works on a state of type [D] that stands for the hardware: its
    two functions return the status and what they did.  [Disk] is the promise
    of a working device to its clients: requests inside the device succeed and
    the device is an array of sectors.  Partitions of a working disk keep the
    promise ([partition_disk]). *)

From S2P Require Import Prelude.

Module Block.

(** [struct blockdev_ops]; a NULL function pointer is [None]. *)
Record blockdev_ops (D : Type) := mk_ops {
  op_read : option (D → Z → Z → Z * list Z);        (** lba, count: status, bytes *)
  op_write : option (D → Z → Z → list Z → Z * D)
}.
Arguments mk_ops {D} _ _.
Arguments op_read {D} _.
Arguments op_write {D} _.

(** [struct blockdev]; the [next] field is the registry's list. *)
Record blockdev (D : Type) := mk_blockdev {
  bd_name : option cstring;
  bd_ops : option (blockdev_ops D);
  sector_size : Z;
  sector_count : Z
}.
Arguments mk_blockdev {D} _ _ _ _.
Arguments bd_name {D} _.
Arguments bd_ops {D} _.
Arguments sector_size {D} _.
Arguments sector_count {D} _.

Section ops.
Context {D : Type}.
Implicit Types (bd : blockdev D) (d : D).

(** [buf] tells whether the buffer pointer is non-NULL. *)
Definition blockdev_read (bd : option (blockdev D)) (lba count : Z) (buf : bool) : cmd D (Z * list Z) :=
  match bd with
  | None => mret (ERR_INVALID_ARGUMENT, [])
  | Some bd =>
    match bd_ops bd ≫= op_read with
    | None => mret (ERR_INVALID_ARGUMENT, [])
    | Some read =>
      if count =? 0 then mret (ERR_SUCCESS, []) else
      if negb buf || (sector_count bd <=? lba) || (sector_count bd - lba <? count)
      then mret (ERR_INVALID_ARGUMENT, [])
      else d ← cget; mret (read d lba count)
    end
  end.

Definition blockdev_write (bd : option (blockdev D)) (lba count : Z) (buf : option (list Z)) : cmd D Z :=
  match bd with
  | None => mret ERR_INVALID_ARGUMENT
  | Some bd =>
    match bd_ops bd ≫= op_write with
    | None => mret ERR_INVALID_ARGUMENT
    | Some write =>
      if count =? 0 then mret ERR_SUCCESS else
      match buf with
      | None => mret ERR_INVALID_ARGUMENT
      | Some buf =>
        if (sector_count bd <=? lba) || (sector_count bd - lba <? count)
        then mret ERR_INVALID_ARGUMENT
        else d ← cget; let '(r, d') := write d lba count buf in cput d';; mret r
      end
    end
  end.

#[local] Arguments blockdev_read : simpl never.
#[local] Arguments blockdev_write : simpl never.

(** ** The registry *)

(** The devices are objects at addresses; [g_blockdev_list] links some. *)
Record registry := mk_registry {
  objects : gmap positive (blockdev D);
  g_blockdev_list : list positive
}.

Definition get_device (p : positive) : cmd registry (blockdev D) := cread (λ r, objects r !! p).

(** The walk along the list comparing names. *)
Fixpoint find_name (l : list positive) (name : cstring) : cmd registry (option positive) :=
  match l with
  | [] => mret None
  | p :: l =>
    bd ← get_device p;
    match bd_name bd with
    | None => cundef                       (* [strcmp] of a NULL name *)
    | Some n => if streq n name then mret (Some p) else find_name l name
    end
  end.

Definition registrable (bd : blockdev D) : bool :=
  match bd_name bd, bd_ops bd with
  | Some n, Some ops =>
    negb (streq n []) && bool_decide (is_Some (op_read ops)) && bool_decide (is_Some (op_write ops)) &&
    negb (sector_size bd =? 0) && negb (sector_count bd =? 0)
  | _, _ => false
  end.

Definition blockdev_register (bd : option positive) : cmd registry Z :=
  match bd with
  | None => mret ERR_INVALID_ARGUMENT
  | Some p =>
    dev ← get_device p;
    if negb (registrable dev) then mret ERR_INVALID_ARGUMENT else
    r ← cget;
    dup ← find_name (g_blockdev_list r) (default [] (bd_name dev));
    match dup with
    | Some _ => mret ERR_ALREADY_EXISTS
    | None =>
      cmodify (λ r, mk_registry (objects r) (p :: g_blockdev_list r));;
      mret ERR_SUCCESS
    end
  end.

(** The list without the first occurrence of [p], if there is one. *)
Fixpoint unlink_first (p : positive) (l : list positive) : option (list positive) :=
  match l with
  | [] => None
  | q :: l => if decide (q = p) then Some l else cons q <$> unlink_first p l
  end.

Definition blockdev_unregister (bd : option positive) : cmd registry Z :=
  match bd with
  | None => mret ERR_INVALID_ARGUMENT
  | Some p =>
    r ← cget;
    match unlink_first p (g_blockdev_list r) with
    | Some l => cput (mk_registry (objects r) l);; mret ERR_SUCCESS
    | None => mret ERR_NOT_FOUND
    end
  end.

Definition blockdev_lookup (name : option cstring) : cmd registry (option positive) :=
  match name with
  | None => mret None
  | Some name => r ← cget; find_name (g_blockdev_list r) name
  end.

(** ** Partitions *)

Definition MBR_SIGNATURE_OFFSET : nat := 510.
Definition MBR_PARTITION_TABLE_OFFSET : nat := 446.
Definition MBR_PARTITION_ENTRY_SIZE : nat := 16.
Definition MBR_PARTITION_COUNT : nat := 4.

Definition partition_names : list cstring := cstr <$> ["hd0p1"%string; "hd0p2"%string; "hd0p3"%string; "hd0p4"%string].

(** [disk] and [start_lba] are the fields of [struct mbr_partition] behind
    [private_data]; [count] is the partition device's [sector_count]. *)
Definition partition_read (disk : blockdev D) (start_lba sector_count : Z)
    (d : D) (lba count : Z) : Z * list Z :=
  if (sector_count <=? lba) || (sector_count - lba <? count) then (ERR_INVALID_ARGUMENT, [])
  else match blockdev_read (Some disk) (u32 (start_lba + lba)) count true d with
       | Some (r, _) => r
       | None => (ERR_INVALID_ARGUMENT, [])
       end.

Definition partition_write (disk : blockdev D) (start_lba sector_count : Z)
    (d : D) (lba count : Z) (buf : list Z) : Z * D :=
  if (sector_count <=? lba) || (sector_count - lba <? count) then (ERR_INVALID_ARGUMENT, d)
  else match blockdev_write (Some disk) (u32 (start_lba + lba)) count (Some buf) d with
       | Some r => r
       | None => (ERR_INVALID_ARGUMENT, d)
       end.

Definition partition_dev (disk : blockdev D) (name : cstring) (start_lba count : Z) : blockdev D :=
  mk_blockdev (Some name)
    (Some (mk_ops (Some (partition_read disk start_lba count))
                  (Some (partition_write disk start_lba count))))
    (sector_size disk) count.
End ops.
Arguments registry D : clear implicits.

Section scan.
Context {D : Type}.

(** [g_partitions[i]]: the start and the size, when its device is named. *)
Record scan_state := mk_scan {
  sc_registry : registry D;
  g_partitions : list (option (Z * Z));
  g_partition_disk : option positive;
  sc_device : D
}.

(** The address of the device inside [g_partitions[i]]. *)
Definition part_addr (i : nat) : positive := Pos.of_succ_nat i.

Definition in_registry {A} (m : cmd (registry D) A) : cmd scan_state A :=
  czoom sc_registry (λ r s, mk_scan r (g_partitions s) (g_partition_disk s) (sc_device s)) m.
Definition on_device {A} (m : cmd D A) : cmd scan_state A :=
  czoom sc_device (λ d s, mk_scan (sc_registry s) (g_partitions s) (g_partition_disk s) d) m.

Definition set_partition (i : nat) (p : option (Z * Z)) (dev : blockdev D) (s : scan_state) : scan_state :=
  mk_scan (mk_registry (<[part_addr i := dev]> (objects (sc_registry s)))
             (g_blockdev_list (sc_registry s)))
          (<[i := p]> (g_partitions s)) (g_partition_disk s) (sc_device s).

Definition set_partition_disk (p : option positive) (s : scan_state) : scan_state :=
  mk_scan (sc_registry s) (g_partitions s) p (sc_device s).

(** [memset(&g_partitions[i], 0, ...)] *)
Definition zero_device : blockdev D := mk_blockdev None None 0 0.

(** The roll back loop: every named partition is unregistered and cleared. *)
Fixpoint rollback (l : list nat) : cmd scan_state unit :=
  match l with
  | [] => mret tt
  | k :: l =>
    s ← cget;
    (match g_partitions s !! k with
     | Some (Some _) =>
       in_registry (blockdev_unregister (Some (part_addr k)));;
       cmodify (set_partition k None zero_device)
     | _ => mret tt
     end);;
    rollback l
  end.

Definition overlaps (start_lba count : Z) (prev : list (Z * Z)) : bool :=
  existsb (λ p, negb (p.2 =? 0) && (start_lba <? u32 (p.1 + p.2)) && (p.1 <? u32 (start_lba + count))) prev.

(** The tests of an MBR entry that do not look at the other entries. *)
Definition entry_usable (disk_sectors status type start_lba count : Z) : bool :=
  negb ((type =? 0) || (count =? 0)) &&
  negb ((negb (status =? 0) && negb (status =? 0x80)) || (type =? 0x05) || (type =? 0x0F) || (type =? 0x85)) &&
  negb ((start_lba =? 0) || (disk_sectors <=? start_lba) || (disk_sectors - start_lba <? count)).

(** The loop over the entries: [prev] is [starts] and [counts] below [i]. *)
Fixpoint scan_entries (disk : blockdev D) (sector : list Z) (todo i : nat)
    (prev : list (Z * Z)) (found : Z) : cmd scan_state Z :=
  match todo with
  | O => mret found
  | S todo =>
    let entry := (MBR_PARTITION_TABLE_OFFSET + i * MBR_PARTITION_ENTRY_SIZE)%nat in
    match sector !! entry, sector !! (entry + 4)%nat, le32 sector (entry + 8), le32 sector (entry + 12) with
    | Some status, Some type, Some start_lba, Some count =>
      if negb (entry_usable (sector_count disk) status type start_lba count) || overlaps start_lba count prev
      then scan_entries disk sector todo (S i) (prev ++ [(0, 0)]) found
      else
        cmodify (set_partition i (Some (start_lba, count))
                   (partition_dev disk (default [] (partition_names !! i)) start_lba count));;
        result ← in_registry (blockdev_register (Some (part_addr i)));
        if negb (result =? ERR_SUCCESS) then
          rollback (seq 0 MBR_PARTITION_COUNT);;
          cmodify (set_partition_disk None);;
          mret result
        else scan_entries disk sector todo (S i) (prev ++ [(start_lba, count)]) (found + 1)
    | _, _, _, _ => cundef
    end
  end.

Definition partition_scan (disk : option positive) : cmd scan_state Z :=
  match disk with
  | None => mret ERR_INVALID_ARGUMENT
  | Some p =>
    dev ← in_registry (get_device p);
    if negb (sector_size dev =? 512) || (sector_count dev =? 0) ||
       negb (bool_decide (bd_name dev = Some (cstr "hd0"%string)))
    then mret ERR_INVALID_ARGUMENT else
    s ← cget;
    match g_partition_disk s with
    | Some q =>
      if negb (bool_decide (q = p)) then mret ERR_BUSY
      else mret (Z.of_nat (length (filter is_Some (g_partitions s))))
    | None =>
      '(result, sector) ← on_device (blockdev_read (Some dev) 0 1 true);
      if negb (result =? ERR_SUCCESS) then mret result else
      match sector !! MBR_SIGNATURE_OFFSET, sector !! S MBR_SIGNATURE_OFFSET with
      | Some s0, Some s1 =>
        if negb (s0 =? 0x55) || negb (s1 =? 0xAA) then mret ERR_NOT_FOUND else
        cmodify (set_partition_disk (Some p));;
        scan_entries dev sector MBR_PARTITION_COUNT 0 [] 0
      | _, _ => cundef
      end
    end
  end.
End scan.
Arguments scan_state D : clear implicits.

(** ** The promise of a working device *)

(** The sectors [lba, lba + n) one after the other. *)
Definition run_of (sec : Z → list Z) (lba n : Z) : list Z := mjoin (sec <$> seqZ lba n).

Class Disk {D} (bd : blockdev D) := {
  sec : D → Z → list Z;
  sec_size : 0 < sector_size bd;
  sec_count : 0 < sector_count bd < 2 ^ 32;
  sec_length d i : length (sec d i) = Z.to_nat (sector_size bd);
  sec_bytes d i : Forall is_u8 (sec d i);
  disk_read d lba n :
    0 ≤ lba → 0 < n → lba + n ≤ sector_count bd →
    blockdev_read (Some bd) lba n true d = Some ((ERR_SUCCESS, run_of (sec d) lba n), d);
  disk_write d lba n buf :
    0 ≤ lba → 0 < n → lba + n ≤ sector_count bd →
    length buf = Z.to_nat (n * sector_size bd) → Forall is_u8 buf →
    ∃ d', blockdev_write (Some bd) lba n (Some buf) d = Some (ERR_SUCCESS, d') ∧
      ∀ i, sec d' i =
        if decide (lba ≤ i < lba + n)
        then slice (Z.to_nat ((i - lba) * sector_size bd)) (Z.to_nat (sector_size bd)) buf
        else sec d i
}.
#[global] Hint Mode Disk + + : typeclass_instances.
Arguments sec {D} bd {_} _ _ : rename.
Arguments sec_size {D} bd {_} : rename.
Arguments sec_count {D} bd {_} : rename.
Arguments sec_length {D} bd {_} _ _ : rename.
Arguments sec_bytes {D} bd {_} _ _ : rename.
Arguments disk_read {D} bd {_} _ _ _ _ _ _ : rename.
Arguments disk_write {D} bd {_} _ _ _ _ _ _ _ _ _ : rename.

#[global] Arguments blockdev_read : simpl never.
#[global] Arguments blockdev_write : simpl never.

(** ** Runs of sectors *)

Lemma run_of_S f lba n : 0 ≤ n → run_of f lba (n + 1) = f lba ++ run_of f (lba + 1) n.
Proof.
  intros. unfold run_of. rewrite seqZ_cons by lia. simpl.
  by replace (Z.succ lba) with (lba + 1) by lia; replace (Z.pred (n + 1)) with n by lia.
Qed.

Lemma run_of_ext f g lba n : (∀ i, lba ≤ i < lba + n → f i = g i) → run_of f lba n = run_of g lba n.
Proof.
  intros H. unfold run_of. f_equal. apply list_fmap_ext. intros k x Hx%lookup_seqZ. apply H. lia.
Qed.

Lemma length_run_of f lba n m :
  0 ≤ n → (∀ i, length (f i) = m) → length (run_of f lba n) = (Z.to_nat n * m)%nat.
Proof.
  intros Hn Hf. revert lba. pattern n. apply natlike_ind; [|clear n Hn; intros n Hn IH|done]; intros lba.
  { done. }
  unfold Z.succ. rewrite run_of_S, length_app, Hf, IH by done. rewrite Z2Nat.inj_add by lia. lia.
Qed.

Lemma run_of_bytes f lba n : (∀ i, Forall is_u8 (f i)) → Forall is_u8 (run_of f lba n).
Proof.
  intros H. unfold run_of. apply Forall_join, Forall_fmap. apply Forall_true. intros. apply H.
Qed.

(** A run of the slices of a buffer is the buffer. *)
Lemma run_of_slices buf (m : nat) lba n :
  0 ≤ n → length buf = (Z.to_nat n * m)%nat →
  run_of (λ i, slice (Z.to_nat ((i - lba) * Z.of_nat m)) m buf) lba n = buf.
Proof.
  intros Hn. revert buf lba. pattern n. apply natlike_ind; [|clear n Hn; intros n Hn IH|done]; intros buf lba Hlen.
  { destruct buf; [done|simpl in Hlen; lia]. }
  unfold Z.succ in *. rewrite Z2Nat.inj_add in Hlen by lia.
  rewrite run_of_S by done. rewrite Z.sub_diag. unfold slice at 1. simpl (drop _ _).
  etrans; [|apply (take_drop m buf)]. f_equal.
  etrans; [|apply (IH (drop m buf) (lba + 1))].
  - apply run_of_ext. intros i Hi. unfold slice. rewrite drop_drop.
    assert (0 ≤ (i - (lba + 1)) * Z.of_nat m) by (apply Z.mul_nonneg_nonneg; lia). do 2 f_equal. lia.
  - rewrite length_drop. lia.
Qed.

(** ** The registry keeps names unique *)

Section registry.
Context {D : Type}.
Implicit Types (r : registry D).

(** Every registered device is an object with a name, no device is in the
    list twice and no two have the same name. *)
Record reg_wf r : Prop := {
  reg_named q : q ∈ g_blockdev_list r → ∃ bd n, objects r !! q = Some bd ∧ bd_name bd = Some n;
  reg_nodup : NoDup (g_blockdev_list r);
  reg_unique q1 q2 bd1 bd2 n :
    q1 ∈ g_blockdev_list r → q2 ∈ g_blockdev_list r →
    objects r !! q1 = Some bd1 → objects r !! q2 = Some bd2 →
    bd_name bd1 = Some n → bd_name bd2 = Some n → q1 = q2
}.

Definition named_in r (l : list positive) (name : cstring) (o : option positive) : Prop :=
  match o with
  | Some q => q ∈ l ∧ ∃ bd, objects r !! q = Some bd ∧ bd_name bd = Some name
  | None => ∀ q bd, q ∈ l → objects r !! q = Some bd → bd_name bd ≠ Some name
  end.

Lemma find_name_wp r l name :
  (∀ q, q ∈ l → ∃ bd n, objects r !! q = Some bd ∧ bd_name bd = Some n) →
  wp (find_name l name) (λ o r', r' = r ∧ named_in r l name o) r.
Proof.
  induction l as [|p l IH]; intros Hn; cbn [find_name].
  { wp_step. split; [done|]. intros q bd Hq. by apply elem_of_nil in Hq. }
  destruct (Hn p ltac:(set_solver)) as (bd & n & Hbd & Hname).
  wp_step. eapply wp_read; [done|]. rewrite Hname.
  destruct (streq n name) eqn:E; [apply streq_true in E as ->|apply streq_false in E].
  - wp_step. split; [done|]. split; [set_solver|]. eauto.
  - eapply wp_mono; [apply IH; set_solver|]. intros o r' [-> Ho]. split; [done|].
    destruct o as [q|].
    + destruct Ho as [? ?]. split; [by right|done].
    + intros q bd' [->|?]%elem_of_cons ?; [congruence|]. by eapply Ho.
Qed.

Lemma reg_cons r p dev n :
  reg_wf r → objects r !! p = Some dev → bd_name dev = Some n →
  named_in r (g_blockdev_list r) n None →
  reg_wf (mk_registry (objects r) (p :: g_blockdev_list r)).
Proof.
  intros [Hn Hd Hu] Hp Hname Hfresh.
  assert (∀ q bd, q ∈ g_blockdev_list r → objects r !! q = Some bd → bd_name bd = Some n → False)
    as Hno by (intros q bd Hq Hl Hbn; by eapply (Hfresh q bd)).
  split; simpl.
  - intros q [->|?]%elem_of_cons; eauto.
  - constructor; [|done]. intros Hin. eauto.
  - intros q1 q2 bd1 bd2 m [->|H1]%elem_of_cons [->|H2]%elem_of_cons ????;
      simplify_eq; try (exfalso; by eauto); try by eauto.
Qed.

Lemma blockdev_register_wp r p dev :
  reg_wf r → objects r !! p = Some dev →
  wp (blockdev_register (Some p)) (λ res r', reg_wf r' ∧
    ((res = ERR_SUCCESS ∧ registrable dev = true ∧ (p ∉ g_blockdev_list r) ∧
      r' = mk_registry (objects r) (p :: g_blockdev_list r)) ∨
     (res < 0 ∧ r' = r))) r.
Proof.
  intros Hwf Hp. unfold blockdev_register. wp_step. eapply wp_read; [done|].
  destruct (registrable dev) eqn:Hreg; simpl; [|wp_step; split; [done|by right]].
  assert (∃ n, bd_name dev = Some n) as [n Hname].
  { unfold registrable in Hreg. destruct (bd_name dev); [eauto|done]. }
  wp_steps. rewrite Hname. simpl.
  eapply wp_mono; [apply find_name_wp, Hwf|]. intros [q|] r' [-> Ho]; wp_steps.
  - split; [done|]. right. done.
  - split; [by eapply reg_cons|]. left. split_and!; [done|done| |done].
    intros Hin. by eapply (Ho p dev).
Qed.

Lemma unlink_first_spec p l :
  NoDup l →
  match unlink_first p l with
  | Some l' => p ∈ l ∧ NoDup l' ∧ ∀ q, q ∈ l' ↔ q ∈ l ∧ q ≠ p
  | None => p ∉ l
  end.
Proof.
  induction l as [|q l IH]; intros Hnd; cbn [unlink_first]; [set_solver|].
  apply NoDup_cons in Hnd as [Hq Hnd]. case_decide as Hqp.
  - subst q. split_and!; [set_solver|done|]. intros q. set_solver.
  - specialize (IH Hnd). destruct (unlink_first p l) as [l'|]; simpl.
    + destruct IH as (? & ? & Hl). split_and!; [set_solver| |set_solver].
      constructor; [|done]. rewrite Hl. tauto.
    + set_solver.
Qed.

Lemma reg_shrink r l :
  reg_wf r → NoDup l → (∀ q, q ∈ l → q ∈ g_blockdev_list r) → reg_wf (mk_registry (objects r) l).
Proof.
  intros [Hn Hd Hu] Hl Hsub. split; simpl; [eauto|done|].
  intros ????????. eapply Hu; eauto.
Qed.

Lemma blockdev_unregister_wp r p :
  reg_wf r →
  wp (blockdev_unregister (Some p)) (λ res r', reg_wf r' ∧ objects r' = objects r ∧
    res = (if decide (p ∈ g_blockdev_list r) then ERR_SUCCESS else ERR_NOT_FOUND) ∧
    ∀ q, q ∈ g_blockdev_list r' ↔ q ∈ g_blockdev_list r ∧ q ≠ p) r.
Proof.
  intros Hwf. unfold blockdev_unregister. wp_steps.
  pose proof (unlink_first_spec p (g_blockdev_list r) (reg_nodup _ Hwf)) as Hu.
  destruct (unlink_first p (g_blockdev_list r)) as [l|]; wp_steps.
  - destruct Hu as (Hin & Hnd & Hl). rewrite decide_True by done.
    split_and!; [apply reg_shrink; [done|done|set_solver]|done|done|done].
  - rewrite decide_False by done. split_and!; [done|done|done|].
    intros q; split; [|tauto]. intros ?. split; [done|]. by intros ->.
Qed.

Lemma blockdev_lookup_wp r name :
  reg_wf r →
  wp (blockdev_lookup (Some name)) (λ o r', r' = r ∧ named_in r (g_blockdev_list r) name o) r.
Proof. intros Hwf. unfold blockdev_lookup. wp_steps. apply find_name_wp, Hwf. Qed.

(** Registration keeps the names of the registered devices unique;
    after a registration that succeeds, the lookup of the device's name finds
    the device, and after unregistering it again the lookup finds nothing. *)
Theorem blockdev_register_lookup r p dev n r1 :
  reg_wf r → objects r !! p = Some dev → bd_name dev = Some n →
  blockdev_register (Some p) r = Some (ERR_SUCCESS, r1) →
  reg_wf r1 ∧ blockdev_lookup (Some n) r1 = Some (Some p, r1) ∧
  wp (blockdev_unregister (Some p)) (λ res r2, res = ERR_SUCCESS ∧ reg_wf r2 ∧
      blockdev_lookup (Some n) r2 = Some (None, r2)) r1.
Proof.
  intros Hwf Hp Hname Hrun.
  destruct (wp_elim _ _ _ _ _ (blockdev_register_wp _ _ _ Hwf Hp) Hrun)
    as (Hwf1 & [(_ & _ & Hnew & ->)|[? _]]); [|done].
  split_and!; [done| |].
  - pose proof (blockdev_lookup_wp _ n Hwf1) as (o & r' & Hl & -> & Ho)%wp_run. rewrite Hl.
    destruct o as [q|]; simpl in Ho.
    + destruct Ho as (Hq & bd & Hbd & Hbn). do 3 f_equal.
      eapply (reg_unique _ Hwf1); simpl; [done| |done|done|done|done]. set_solver.
    + exfalso. eapply (Ho p dev); [set_solver|done|done].
  - eapply wp_mono; [by apply blockdev_unregister_wp|]. intros res r2 (Hwf2 & Hobj & -> & Hl).
    rewrite decide_True by (simpl; set_solver). split_and!; [done|done|].
    pose proof (blockdev_lookup_wp _ n Hwf2) as (o & r' & Hlk & -> & Ho)%wp_run. rewrite Hlk.
    destruct o as [q|]; [|done]. destruct Ho as (Hq & bd & Hbd & Hbn).
    rewrite Hobj in Hbd. apply Hl in Hq as [Hq Hne]. exfalso. apply Hne.
    eapply (reg_unique _ Hwf1); simpl; [done| |done|done|done|done]. set_solver.
Qed.
End registry.

(** ** Partitions of a working disk *)

Section partition.
Context {D : Type} (disk : blockdev D) `{HD : !Disk disk}.

Lemma partition_read_run name start n d lba cnt :
  0 ≤ start → 0 < n → start + n ≤ sector_count disk →
  0 ≤ lba → 0 < cnt → lba + cnt ≤ n →
  blockdev_read (Some (partition_dev disk name start n)) lba cnt true d =
    Some ((ERR_SUCCESS, run_of (λ i, sec disk d (start + i)) lba cnt), d).
Proof.
  intros. pose proof (sec_count disk). unfold blockdev_read; simpl.
  rewrite (proj2 (Z.eqb_neq cnt 0)), (proj2 (Z.leb_gt n lba)), (proj2 (Z.ltb_ge _ cnt)) by lia.
  simpl. unfold cget, mbind, cmd_bind, mret, cmd_ret. do 2 f_equal. unfold partition_read.
  rewrite (proj2 (Z.leb_gt n lba)), (proj2 (Z.ltb_ge _ cnt)) by lia. cbn [orb].
  rewrite u32_small, (disk_read disk) by lia. unfold run_of.
  by rewrite <- fmap_add_seqZ, <- list_fmap_compose.
Qed.

Lemma partition_write_run name start n d lba cnt buf :
  0 ≤ start → 0 < n → start + n ≤ sector_count disk →
  0 ≤ lba → 0 < cnt → lba + cnt ≤ n → length buf = Z.to_nat (cnt * sector_size disk) → Forall is_u8 buf →
  ∃ d', blockdev_write (Some (partition_dev disk name start n)) lba cnt (Some buf) d
          = Some (ERR_SUCCESS, d') ∧
    ∀ i, sec disk d' i =
      if decide (start + lba ≤ i < start + lba + cnt)
      then slice (Z.to_nat ((i - (start + lba)) * sector_size disk)) (Z.to_nat (sector_size disk)) buf
      else sec disk d i.
Proof.
  intros. pose proof (sec_count disk).
  destruct (disk_write disk d (start + lba) cnt buf) as (d' & Hw & Hs); [lia..|done|done|].
  exists d'. split; [|done]. unfold blockdev_write at 1; simpl.
  rewrite (proj2 (Z.eqb_neq cnt 0)), (proj2 (Z.leb_gt n lba)), (proj2 (Z.ltb_ge _ cnt)) by lia.
  simpl. unfold cget, cput, mbind, cmd_bind, mret, cmd_ret, partition_write.
  rewrite (proj2 (Z.leb_gt n lba)), (proj2 (Z.ltb_ge _ cnt)) by lia. cbn [orb].
  rewrite u32_small by lia. by rewrite Hw.
Qed.

(** A partition inside a working disk is a working disk. *)
Definition partition_disk name start n
    (Hs : 0 ≤ start) (Hn : 0 < n) (He : start + n ≤ sector_count disk) :
  Disk (partition_dev disk name start n).
Proof.
  pose proof (sec_count disk) as Hc.
  refine {| sec := λ d i, sec disk d (start + i) |}.
  - exact (sec_size disk).
  - simpl. lia.
  - intros. apply (sec_length disk).
  - intros. apply (sec_bytes disk).
  - intros d lba cnt ???. by apply partition_read_run.
  - simpl. intros d lba cnt buf ? ? ? Hb Hb8.
    destruct (partition_write_run name start n d lba cnt buf) as (d' & Hw & Hsec); [done..|].
    exists d'. split; [done|]. intros i. rewrite Hsec.
    destruct (decide (start + lba ≤ start + i < start + lba + cnt)),
      (decide (lba ≤ i < lba + cnt)); try lia; [|done].
    f_equal. simpl. f_equal. lia.
Defined.

(** A request outside the partition fails and changes nothing. *)
Lemma partition_out_of_range name start n d lba cnt buf :
  0 < cnt → n ≤ lba ∨ n - lba < cnt →
  blockdev_read (Some (partition_dev disk name start n)) lba cnt true d =
    Some ((ERR_INVALID_ARGUMENT, []), d) ∧
  blockdev_write (Some (partition_dev disk name start n)) lba cnt (Some buf) d =
    Some (ERR_INVALID_ARGUMENT, d).
Proof.
  intros Hc Hr. unfold blockdev_read, blockdev_write; simpl.
  rewrite (proj2 (Z.eqb_neq cnt 0)) by lia.
  assert ((n <=? lba) || (n - lba <? cnt) = true) as ->; [|done].
  destruct Hr; [rewrite (proj2 (Z.leb_le _ _)) by lia|rewrite (proj2 (Z.ltb_lt _ _)) by lia];
    [done|by rewrite orb_true_r].
Qed.

(** Whatever is asked of a partition, the sectors outside it stay the same. *)
Lemma partition_write_frame name start n d lba cnt buf r d' :
  0 ≤ start → 0 < n → start + n ≤ sector_count disk → 0 ≤ lba → 0 ≤ cnt →
  length buf = Z.to_nat (cnt * sector_size disk) → Forall is_u8 buf →
  blockdev_write (Some (partition_dev disk name start n)) lba cnt (Some buf) d = Some (r, d') →
  ∀ i, ¬ (start ≤ i < start + n) → sec disk d' i = sec disk d i.
Proof.
  intros Hs Hn He Hl Hc Hb Hb8 Hw i Hi. destruct (decide (cnt = 0)) as [->|].
  { assert (Some (r, d') = Some (ERR_SUCCESS, d)) as [= _ ->] by (rewrite <- Hw; done). done. }
  destruct (decide (lba + cnt ≤ n)).
  - destruct (partition_write_run name start n d lba cnt buf) as (d2 & Hw2 & Hsec); try done; [lia|].
    rewrite Hw in Hw2. simplify_eq. rewrite Hsec. by rewrite decide_False by lia.
  - destruct (partition_out_of_range name start n d lba cnt buf) as [_ Hw2]; [lia|lia|].
    rewrite Hw in Hw2. by simplify_eq.
Qed.
End partition.

(** ** The scan of the partition table *)

Section scan_proofs.
Context {D : Type} (disk : blockdev D) `{HD : !Disk disk}.
Implicit Types (s : scan_state D).

Definition part_name (i : nat) : cstring := default [] (partition_names !! i).

(** The named partitions lie inside the disk, their devices are registered,
    and no two of them share a sector. *)
Record parts_ok s : Prop := {
  po_inside j st c : g_partitions s !! j = Some (Some (st, c)) →
    0 < st ∧ 0 < c ∧ st + c ≤ sector_count disk;
  po_device j st c : g_partitions s !! j = Some (Some (st, c)) →
    objects (sc_registry s) !! part_addr j = Some (partition_dev disk (part_name j) st c) ∧
    part_addr j ∈ g_blockdev_list (sc_registry s);
  po_disjoint j k st1 c1 st2 c2 : j ≠ k →
    g_partitions s !! j = Some (Some (st1, c1)) → g_partitions s !! k = Some (Some (st2, c2)) →
    st1 + c1 ≤ st2 ∨ st2 + c2 ≤ st1
}.

(** The state when the loop is at entry [i]. *)
Record scan_inv (i : nat) (prev : list (Z * Z)) s : Prop := {
  si_reg : reg_wf (sc_registry s);
  si_len : length (g_partitions s) = MBR_PARTITION_COUNT;
  si_later j : (i ≤ j < MBR_PARTITION_COUNT)%nat → g_partitions s !! j = Some None;
  si_prevlen : length prev = i;
  si_prev j st c : g_partitions s !! j = Some (Some (st, c)) → prev !! j = Some (st, c);
  si_addr j : (j < MBR_PARTITION_COUNT)%nat → part_addr j ∈ g_blockdev_list (sc_registry s) →
    ∃ p, g_partitions s !! j = Some (Some p);
  si_parts : parts_ok s
}.

(** Nothing is registered of this disk and no partition is named. *)
Definition scan_clear s : Prop :=
  reg_wf (sc_registry s) ∧ length (g_partitions s) = MBR_PARTITION_COUNT ∧
  (∀ j, (j < MBR_PARTITION_COUNT)%nat →
        g_partitions s !! j = Some None ∧ (part_addr j ∉ g_blockdev_list (sc_registry s))).

Lemma part_addr_inj i j : part_addr i = part_addr j → i = j.
Proof. unfold part_addr. lia. Qed.

Lemma wp_in_registry {A} (m : cmd (registry D) A) Q s :
  wp m (λ a r, Q a (mk_scan r (g_partitions s) (g_partition_disk s) (sc_device s))) (sc_registry s) →
  wp (in_registry m) Q s.
Proof. intros H. unfold in_registry. by apply wp_zoom. Qed.

(** Overwriting an object that is not registered. *)
Lemma reg_set_object (r : registry D) p dev :
  reg_wf r → (p ∉ g_blockdev_list r) →
  reg_wf (mk_registry (<[p := dev]> (objects r)) (g_blockdev_list r)).
Proof.
  intros [Hn Hd Hu] Hp.
  assert (∀ q, q ∈ g_blockdev_list r → <[p := dev]> (objects r) !! q = objects r !! q) as Hlk
    by (intros q Hq; apply lookup_insert_ne; intros ->; done).
  split; simpl; [|done|].
  - intros q Hq. rewrite Hlk by done. eauto.
  - intros q1 q2 bd1 bd2 n H1 H2. rewrite !Hlk by done. eauto.
Qed.

Lemma overlaps_false start c prev st' c' j :
  overlaps start c prev = false → prev !! j = Some (st', c') → 0 < c' →
  is_u32 (st' + c') → is_u32 (start + c) → start + c ≤ st' ∨ st' + c' ≤ start.
Proof.
  unfold overlaps, is_u32. intros Ho Hj Hc ??.
  assert (¬ (negb (c' =? 0) && (start <? u32 (st' + c')) && (st' <? u32 (start + c)) = true)) as Hn.
  { intros Ht. assert (existsb (λ p, negb (p.2 =? 0) && (start <? u32 (p.1 + p.2)) &&
      (p.1 <? u32 (start + c))) prev = true); [|congruence].
    apply existsb_exists. exists (st', c'). split; [|done].
    apply list_elem_of_In. eapply list_elem_of_lookup_2. done. }
  rewrite !u32_small, (proj2 (Z.eqb_neq c' 0)) in Hn by lia. simpl in Hn.
  destruct (Z.ltb_spec start (st' + c')), (Z.ltb_spec st' (start + c)); simpl in Hn; try lia.
Qed.

Lemma entry_usable_true n status type start c :
  entry_usable n status type start c = true → is_u32 start → is_u32 c →
  0 < start ∧ 0 < c ∧ start + c ≤ n.
Proof.
  unfold entry_usable, is_u32. intros Hu ??.
  apply andb_prop in Hu as [[H1 _]%andb_prop H2].
  apply negb_true_iff in H1, H2. apply orb_false_iff in H1 as [_ H1].
  apply orb_false_iff in H2 as [[H2 H3]%orb_false_iff H4].
  apply Z.eqb_neq in H1, H2. apply Z.leb_gt in H3. apply Z.ltb_ge in H4. lia.
Qed.

(** Naming partition [i] and registering its device. *)
Lemma scan_inv_skip i prev s :
  scan_inv i prev s → (i < MBR_PARTITION_COUNT)%nat → scan_inv (S i) (prev ++ [(0, 0)]) s.
Proof.
  intros [? ? Hlat Hpl Hprev ? ?] Hi. split; try done.
  - intros j ?. apply Hlat. lia.
  - rewrite length_app. simpl. lia.
  - intros j st c Hj. apply lookup_app_l_Some. eauto.
Qed.

Lemma scan_inv_register i prev s st c :
  scan_inv i prev s → (i < MBR_PARTITION_COUNT)%nat →
  0 < st → 0 < c → st + c ≤ sector_count disk → overlaps st c prev = false →
  let dev := partition_dev disk (part_name i) st c in
  let s1 := set_partition i (Some (st, c)) dev s in
  reg_wf (mk_registry (objects (sc_registry s1)) (part_addr i :: g_blockdev_list (sc_registry s1))) →
  scan_inv (S i) (prev ++ [(st, c)])
    (mk_scan (mk_registry (objects (sc_registry s1)) (part_addr i :: g_blockdev_list (sc_registry s1)))
       (g_partitions s1) (g_partition_disk s1) (sc_device s1)).
Proof.
  intros Hinv Hi Hst Hc He Hov dev s1 Hreg. pose proof (sec_count disk).
  destruct Hinv as [Hrw Hlen Hlat Hpl Hprev Haddr [Hin Hdev Hdis]].
  assert (∀ j st' c', g_partitions s1 !! j = Some (Some (st', c')) →
    (j = i ∧ st' = st ∧ c' = c) ∨ (j ≠ i ∧ g_partitions s !! j = Some (Some (st', c')))) as Hcase.
  { intros j st' c' Hj. simpl in Hj. rewrite list_lookup_insert in Hj.
    case_decide as Hd; [destruct Hd as [-> _]; simplify_eq; by left|].
    right. split; [|done]. intros ->. apply Hd. rewrite Hlen. done. }
  assert (∀ j st' c', g_partitions s !! j = Some (Some (st', c')) →
            st + c ≤ st' ∨ st' + c' ≤ st) as Hnew.
  { intros j st' c' Hj. destruct (Hin _ _ _ Hj) as (? & ? & ?).
    eapply overlaps_false; [done|by eapply Hprev|lia|unfold is_u32; lia|unfold is_u32; lia]. }
  split; simpl; [done|by rewrite length_insert| | | | |split; simpl].
  - intros j ?. rewrite list_lookup_insert_ne by lia. apply Hlat. lia.
  - rewrite length_app. simpl. lia.
  - intros j st' c' [(-> & -> & ->)|[? Hj]]%Hcase.
    + rewrite lookup_app_r by lia. by rewrite Hpl, Nat.sub_diag.
    + apply lookup_app_l_Some. eauto.
  - intros j Hj [Heq|Hin']%elem_of_cons.
    + apply part_addr_inj in Heq as ->. rewrite list_lookup_insert_eq by (rewrite Hlen; done). eauto.
    + destruct (decide (j = i)) as [->|].
      * rewrite list_lookup_insert_eq by (rewrite Hlen; done). eauto.
      * rewrite list_lookup_insert_ne by done. eauto.
  - intros j st' c' [(-> & -> & ->)|[? Hj]]%Hcase; [done|]. eauto.
  - intros j st' c' [(-> & -> & ->)|[Hne Hj]]%Hcase.
    + rewrite lookup_insert_eq. split; [done|]. by left.
    + destruct (Hdev _ _ _ Hj) as [? ?]. rewrite lookup_insert_ne by (intros ?%part_addr_inj; done).
      split; [done|]. by right.
  - intros j k st1 c1 st2 c2 Hjk [(-> & -> & ->)|[? Hj]]%Hcase [(-> & -> & ->)|[? Hk]]%Hcase.
    + done.
    + eauto.
    + destruct (Hnew _ _ _ Hj); lia.
    + eapply Hdis; [exact Hjk|done|done].
Qed.

Lemma rollback_wp s k n :
  (k + n = MBR_PARTITION_COUNT)%nat → reg_wf (sc_registry s) →
  length (g_partitions s) = MBR_PARTITION_COUNT →
  (∀ j, (j < MBR_PARTITION_COUNT)%nat → part_addr j ∈ g_blockdev_list (sc_registry s) →
        ∃ p, g_partitions s !! j = Some (Some p)) →
  (∀ j, (j < k)%nat → g_partitions s !! j = Some None) →
  wp (rollback (seq k n)) (λ _ s', scan_clear s') s.
Proof.
  revert s k. induction n as [|n IH]; intros s k Hkn Hreg Hlen Haddr Hdone; cbn [seq rollback].
  { wp_step. split_and!; [done|done|]. intros j Hj.
    assert (g_partitions s !! j = Some None) as Hn by (apply Hdone; lia). split; [done|].
    intros Hin. destruct (Haddr _ Hj Hin) as [p Hp]. congruence. }
  wp_steps. destruct (lookup_is_Some (g_partitions s) k) as [o Ho]; [lia|]. rewrite Ho.
  destruct o as [p|].
  - wp_step. apply wp_in_registry. eapply wp_mono; [by apply blockdev_unregister_wp|].
    intros res r (Hreg' & Hobj & _ & Hl). wp_step.
    apply IH; simpl; [lia| |by rewrite length_insert| |].
    + apply reg_set_object; [done|]. rewrite Hl. tauto.
    + intros j Hj Hin. apply Hl in Hin as [Hin Hne]. rewrite list_lookup_insert_ne; [eauto|].
      intros ->. done.
    + intros j Hj. destruct (decide (j = k)) as [->|].
      * by rewrite list_lookup_insert_eq by lia.
      * rewrite list_lookup_insert_ne by done. apply Hdone. lia.
  - wp_step. apply IH; [lia|done..|]. intros j Hj.
    destruct (decide (j = k)) as [->|]; [done|]. apply Hdone. lia.
Qed.

Definition scan_post (r : Z) s : Prop :=
  (r < 0 ∧ scan_clear s) ∨
  (0 ≤ r ∧ reg_wf (sc_registry s) ∧ parts_ok s ∧ length (g_partitions s) = MBR_PARTITION_COUNT).

Lemma scan_entries_wp sector n i prev found s :
  length sector = 512%nat → Forall is_u8 sector → sector_size disk = 512 →
  (i + n = MBR_PARTITION_COUNT)%nat → scan_inv i prev s → 0 ≤ found →
  wp (scan_entries disk sector n i prev found) scan_post s.
Proof.
  intros Hlen Hb Hsz. pose proof (sec_count disk).
  revert i prev found s. induction n as [|n IH]; intros i prev found s Hi Hinv Hf; cbn [scan_entries].
  { wp_step. right. destruct Hinv. done. }
  assert (i < 4)%nat by (unfold MBR_PARTITION_COUNT in Hi; lia).
  set (e := (MBR_PARTITION_TABLE_OFFSET + i * MBR_PARTITION_ENTRY_SIZE)%nat).
  assert (e + 16 ≤ 510)%nat
    by (subst e; unfold MBR_PARTITION_TABLE_OFFSET, MBR_PARTITION_ENTRY_SIZE; lia).
  destruct (lookup_is_Some sector e) as [status ->]; [lia|].
  destruct (lookup_is_Some sector (e + 4)) as [type ->]; [lia|].
  destruct (le32_range sector (e + 8)) as (st & -> & Hst); [done|lia|].
  destruct (le32_range sector (e + 12)) as (c & -> & Hc); [done|lia|].
  destruct (entry_usable (sector_count disk) status type st c) eqn:Hu; simpl.
  2:{ apply IH; [lia|by apply scan_inv_skip|done]. }
  destruct (overlaps st c prev) eqn:Hov.
  { apply IH; [lia|by apply scan_inv_skip|done]. }
  destruct (entry_usable_true _ _ _ _ _ Hu Hst Hc) as (? & ? & ?).
  assert (part_addr i ∉ g_blockdev_list (sc_registry s)) as Hfree.
  { intros Hin. destruct (si_addr _ _ _ Hinv i ltac:(done) Hin) as [p Hp].
    rewrite (si_later _ _ _ Hinv) in Hp by lia. done. }
  wp_steps. apply wp_in_registry.
  eapply wp_mono; [apply blockdev_register_wp; simpl; [|by rewrite lookup_insert_eq]|].
  { apply reg_set_object; [apply Hinv|done]. }
  simpl. intros res r (Hreg & [(-> & _ & _ & ->)|[Hneg ->]]); simpl.
  - apply IH; [lia| |lia]. simpl in Hreg. by apply scan_inv_register.
  - rewrite (proj2 (Z.eqb_neq res ERR_SUCCESS)) by (change ERR_SUCCESS with 0; lia). simpl.
    wp_step. eapply wp_mono; [apply (rollback_wp _ 0 4)|]; simpl.
    + done.
    + done.
    + rewrite length_insert. apply Hinv.
    + intros j Hj Hin. destruct (decide (j = i)) as [->|]; [done|].
      rewrite list_lookup_insert_ne by done. eapply si_addr; done.
    + lia.
    + intros _ s' Hclear. wp_steps. left. split; [done|]. destruct Hclear. done.
Qed.
End scan_proofs.

(** ** A memory disk

    A driver that keeps the promise, on which the theorems about clients of a
    working disk are run. *)

Definition ram : Type := Z → list Z.
Definition fit (l : list Z) : list Z :=
  if decide (length l = 512%nat ∧ Forall is_u8 l) then l else replicate 512 0.
Definition ram_sec (d : ram) (i : Z) : list Z := fit (d i).
Definition ram_read (d : ram) (lba n : Z) : Z * list Z := (ERR_SUCCESS, run_of (ram_sec d) lba n).
Definition ram_write (d : ram) (lba n : Z) (buf : list Z) : Z * ram :=
  (ERR_SUCCESS, λ i, if decide (lba ≤ i < lba + n)
                     then slice (Z.to_nat ((i - lba) * 512)) 512 buf else d i).
Definition ram_disk (name : cstring) (n : Z) : blockdev ram :=
  mk_blockdev (Some name) (Some (mk_ops (Some ram_read) (Some ram_write))) 512 n.

Lemma length_fit l : length (fit l) = 512%nat.
Proof. unfold fit. case_decide as H; [apply H|by rewrite length_replicate]. Qed.
Lemma fit_bytes l : Forall is_u8 (fit l).
Proof. unfold fit. case_decide as H; [apply H|apply Forall_replicate; by_eval]. Qed.
Lemma fit_id l : length l = 512%nat → Forall is_u8 l → fit l = l.
Proof. intros. unfold fit. by rewrite decide_True. Qed.

Lemma Forall_slice {A} (P : A → Prop) off n l : Forall P l → Forall P (slice off n l).
Proof. intros. by apply Forall_take, Forall_drop. Qed.

Definition ram_disk_ok name n (Hn : 0 < n < 2 ^ 32) : Disk (ram_disk name n).
Proof.
  refine {| sec := ram_sec : _ → _ → _ |}; simpl.
  - by_eval.
  - exact Hn.
  - intros. apply length_fit.
  - intros. apply fit_bytes.
  - intros d lba cnt ???. unfold blockdev_read; simpl.
    by rewrite (proj2 (Z.eqb_neq cnt 0)), (proj2 (Z.leb_gt n lba)), (proj2 (Z.ltb_ge _ cnt)) by lia.
  - intros d lba cnt buf ? ? ? Hl Hb. eexists. split.
    { unfold blockdev_write; simpl.
      by rewrite (proj2 (Z.eqb_neq cnt 0)), (proj2 (Z.leb_gt n lba)), (proj2 (Z.ltb_ge _ cnt)) by lia. }
    intros i. unfold ram_sec. case_decide; [|done]. apply fit_id; [|by apply Forall_slice].
    rewrite length_slice; lia.
Defined.

(** ** Theorems on partitions *)

Section theorems.
Context {D : Type} (disk : blockdev D) `{HD : !Disk disk}.
Implicit Types (s : scan_state D).

Lemma partition_scan_wp s p :
  scan_clear s → g_partition_disk s = None → objects (sc_registry s) !! p = Some disk →
  sector_size disk = 512 →
  wp (partition_scan (Some p)) (scan_post disk) s.
Proof.
  intros (Hreg & Hlen & Hclear) Hpd Hp Hsz. pose proof (sec_count disk).
  unfold partition_scan. wp_step. apply wp_in_registry. unfold get_device.
  eapply wp_read; [done|].
  destruct (negb (sector_size disk =? 512) || (sector_count disk =? 0) ||
            negb (bool_decide (bd_name disk = Some (cstr "hd0")))).
  { wp_step. by left. }
  wp_steps. cbn [g_partition_disk]. rewrite Hpd. wp_step. unfold on_device. wp_step.
  eapply wp_eq; [apply (disk_read disk); lia|].
  cbn beta iota delta [sc_device sc_registry g_partitions g_partition_disk].
  change (negb (ERR_SUCCESS =? ERR_SUCCESS)) with false. cbn iota.
  assert (run_of (sec disk (sc_device s)) 0 1 = sec disk (sc_device s) 0) as -> by apply app_nil_r.
  set (sector := sec disk (sc_device s) 0).
  assert (length sector = 512%nat) as Hsl by (subst sector; rewrite (sec_length disk), Hsz; done).
  destruct (lookup_is_Some sector MBR_SIGNATURE_OFFSET) as [s0 ->];
    [unfold MBR_SIGNATURE_OFFSET; lia|].
  destruct (lookup_is_Some sector (S MBR_SIGNATURE_OFFSET)) as [s1 ->];
    [unfold MBR_SIGNATURE_OFFSET; lia|].
  destruct (negb (s0 =? 85) || negb (s1 =? 170)).
  { wp_step. left. done. }
  wp_steps. apply (scan_entries_wp disk); [done|apply (sec_bytes disk)|done|done| |lia].
  split; simpl; [done|done| |done| | |].
  - intros j ?. apply Hclear. lia.
  - intros j st c Hj. destruct (Hclear j) as [Hn _]; [|congruence].
    rewrite <- Hlen. by eapply lookup_lt_Some.
  - intros j Hj Hin. by destruct (Hclear j Hj).
  - assert (∀ j q, g_partitions s !! j ≠ Some (Some q)) as Hno.
    { intros j q Hj. destruct (Hclear j) as [Hn _]; [|congruence].
      rewrite <- Hlen. by eapply lookup_lt_Some. }
    split; simpl; intros; naive_solver.
Qed.

(** A scan of a disk none of whose partitions is registered returns a
    negative status and has rolled everything back, or returns the number of
    partitions, which then all lie inside the disk behind its first sector,
    pairwise share no sector, and are registered under their names. *)
Theorem partition_scan_correct s p :
  scan_clear s → g_partition_disk s = None → objects (sc_registry s) !! p = Some disk →
  sector_size disk = 512 →
  wp (partition_scan (Some p)) (scan_post disk) s.
Proof. apply partition_scan_wp. Qed.

(** The device of a partition that a scan has named is itself a working
    disk, whose sector [i] is sector [start + i] of the disk. *)
Theorem partition_device_refines s j start n bd :
  parts_ok disk s → g_partitions s !! j = Some (Some (start, n)) →
  objects (sc_registry s) !! part_addr j = Some bd →
  ∃ P : Disk bd, sector_count bd = n ∧ ∀ d i, @sec D bd P d i = sec disk d (start + i).
Proof.
  intros [Hin Hdev _] Hj Hbd. destruct (Hin _ _ _ Hj) as (Hs & Hn & He).
  destruct (Hdev _ _ _ Hj) as [Hobj _]. rewrite Hobj in Hbd. simplify_eq.
  by exists (partition_disk disk (part_name j) start n (Z.lt_le_incl _ _ Hs) Hn He).
Qed.

(** C11: what is written through the device of one partition is never seen
    through the device of another: every read of the other returns the same. *)
Theorem partition_isolation s j k pj pk bdj bdk d lba cnt buf r d' lba' cnt' :
  parts_ok disk s → j ≠ k →
  g_partitions s !! j = Some (Some pj) → g_partitions s !! k = Some (Some pk) →
  objects (sc_registry s) !! part_addr j = Some bdj →
  objects (sc_registry s) !! part_addr k = Some bdk →
  0 ≤ lba → 0 ≤ cnt → length buf = Z.to_nat (cnt * sector_size disk) → Forall is_u8 buf →
  blockdev_write (Some bdj) lba cnt (Some buf) d = Some (r, d') →
  0 ≤ lba' → 0 ≤ cnt' →
  fst <$> blockdev_read (Some bdk) lba' cnt' true d' =
  fst <$> blockdev_read (Some bdk) lba' cnt' true d.
Proof.
  destruct pj as [stj cj], pk as [stk ck].
  intros [Hin Hdev Hdis] Hjk Hj Hk Hbj Hbk Hl Hc Hlen Hb8 Hw Hl' Hc'.
  destruct (Hin _ _ _ Hj) as (? & ? & ?), (Hin _ _ _ Hk) as (? & ? & ?).
  destruct (Hdev _ _ _ Hj) as [Hoj _], (Hdev _ _ _ Hk) as [Hok _].
  rewrite Hoj in Hbj. rewrite Hok in Hbk. injection Hbj as <-. injection Hbk as <-.
  destruct (decide (cnt' = 0)) as [->|]; [done|].
  destruct (decide (lba' + cnt' ≤ ck)).
  2:{ assert (∀ d0, blockdev_read (Some (partition_dev disk (part_name k) stk ck)) lba' cnt' true d0 =
                    Some ((ERR_INVALID_ARGUMENT, []), d0)) as Hr
        by (intros d0; eapply (partition_out_of_range disk _ stk ck d0 lba' cnt' []); lia).
      by rewrite !Hr. }
  rewrite !(partition_read_run disk) by lia.
  assert (run_of (λ i, sec disk d' (stk + i)) lba' cnt' = run_of (λ i, sec disk d (stk + i)) lba' cnt')
    as ->; [|done].
  unfold run_of. f_equal. apply list_fmap_ext. intros x i Hx%lookup_seqZ.
  eapply (partition_write_frame disk); [..|exact Hw|]; try done; [lia|].
  pose proof (Hdis _ _ _ _ _ _ Hjk Hj Hk). lia.
Qed.
End theorems.

(** ** A run: a disk of 64 sectors with two partitions and an entry that
    overlaps the second one *)

Definition mbr_entry (start n : Z) : list Z := [0; 0; 0; 0; 1; 0; 0; 0] ++ put32 start ++ put32 n.
Definition ex_mbr : list Z :=
  replicate 446 0 ++ mbr_entry 1 10 ++ mbr_entry 11 5 ++ mbr_entry 12 5 ++ replicate 16 0 ++ [0x55; 0xAA].
Definition ex_ram : ram := λ i, if i =? 0 then ex_mbr else [].
Definition ex_disk : blockdev ram := ram_disk (cstr "hd0") 64.
#[local] Instance ex_disk_ok : Disk ex_disk := ram_disk_ok (cstr "hd0") 64 ltac:(by_eval).

Definition ex_registry : registry ram := mk_registry {[10%positive := ex_disk]} [10%positive].
Definition ex_scan : scan_state ram := mk_scan ex_registry (replicate 4 None) None ex_ram.
Definition ex_scanned : scan_state ram :=
  match partition_scan (Some 10%positive) ex_scan with Some (_, s) => s | None => ex_scan end.

Lemma ex_registry_wf : reg_wf ex_registry.
Proof.
  split; simpl.
  - intros q ->%list_elem_of_singleton. by exists ex_disk, (cstr "hd0").
  - apply NoDup_singleton.
  - by intros q1 q2 ??? ->%list_elem_of_singleton ->%list_elem_of_singleton.
Qed.

Lemma ex_scan_clear : scan_clear ex_scan.
Proof.
  split_and!; [exact ex_registry_wf|done|]. intros j Hj.
  split; [by apply (lookup_replicate_2 4)|]. simpl.
  intros Hin%list_elem_of_singleton. unfold part_addr in Hin. unfold MBR_PARTITION_COUNT in Hj. lia.
Qed.

Lemma ex_scanned_ok : parts_ok ex_disk ex_scanned.
Proof.
  pose proof (partition_scan_wp ex_disk ex_scan 10 ex_scan_clear eq_refl eq_refl eq_refl) as Hw.
  apply wp_run in Hw as (r & s' & Hrun & Hpost).
  assert (r = 2) as ->.
  { assert (fst <$> partition_scan (Some 10%positive) ex_scan = Some 2) as He by (vm_compute; done).
    rewrite Hrun in He. by injection He. }
  unfold ex_scanned. rewrite Hrun. destruct Hpost as [[? _]|(_ & _ & ? & _)]; [lia|done].
Qed.

Lemma partition_scan_correct_witness :
  scan_clear ex_scan ∧ fst <$> partition_scan (Some 10%positive) ex_scan = Some 2 ∧
  wp (partition_scan (Some 10%positive)) (scan_post ex_disk) ex_scan.
Proof.
  split; [exact ex_scan_clear|]. split; [vm_compute; reflexivity|].
  apply (partition_scan_correct ex_disk ex_scan 10 ex_scan_clear); reflexivity.
Defined.

Lemma partition_device_refines_witness :
  ∃ P : Disk (partition_dev ex_disk (cstr "hd0p2") 11 5),
    sector_count (partition_dev ex_disk (cstr "hd0p2") 11 5) = 5 ∧
    ∀ d i, @sec ram _ P d i = sec ex_disk d (11 + i).
Proof.
  apply (partition_device_refines ex_disk ex_scanned 1); [exact ex_scanned_ok|vm_compute; reflexivity|].
  exact (proj1 (po_device _ _ ex_scanned_ok 1 11 5 ltac:(vm_compute; reflexivity))).
Defined.

Lemma partition_isolation_witness :
  let bd1 := partition_dev ex_disk (cstr "hd0p1") 1 10 in
  let bd2 := partition_dev ex_disk (cstr "hd0p2") 11 5 in
  ∃ d', blockdev_write (Some bd1) 9 1 (Some (replicate 512 7)) ex_ram = Some (ERR_SUCCESS, d') ∧
    fst <$> blockdev_read (Some bd2) 0 1 true d' = fst <$> blockdev_read (Some bd2) 0 1 true ex_ram.
Proof.
  intros bd1 bd2. eexists. split; [reflexivity|].
  apply (partition_isolation ex_disk ex_scanned 0 1 (1, 10) (11, 5) bd1 bd2 ex_ram 9 1
           (replicate 512 7) ERR_SUCCESS); [exact ex_scanned_ok|done| | | | |done|done|done| |done|done|done].
  - vm_compute. reflexivity.
  - vm_compute. reflexivity.
  - exact (proj1 (po_device _ _ ex_scanned_ok 0 1 10 ltac:(vm_compute; reflexivity))).
  - exact (proj1 (po_device _ _ ex_scanned_ok 1 11 5 ltac:(vm_compute; reflexivity))).
  - apply Forall_replicate. by_eval.
Defined.

Lemma blockdev_register_lookup_witness :
  let r := mk_registry (<[11%positive := ram_disk (cstr "ram0") 8]> (objects ex_registry)) [10%positive] in
  ∃ r1, blockdev_register (Some 11%positive) r = Some (ERR_SUCCESS, r1) ∧
    blockdev_lookup (Some (cstr "ram0")) r1 = Some (Some 11%positive, r1).
Proof.
  intros r. eexists. split; [reflexivity|].
  refine (proj1 (proj2 (blockdev_register_lookup r 11 (ram_disk (cstr "ram0") 8) (cstr "ram0") _ _ _ _ _)));
    [|reflexivity..].
  apply (reg_set_object ex_registry 11 (ram_disk (cstr "ram0") 8)); [exact ex_registry_wf|].
  by intros ?%list_elem_of_singleton.
Defined.

End Block.
