(* ===== verification/Vnode.v ===== *)
(** * What the file systems share

    The enumeration and the structures of [include/kernel/fs/vnode.h] and
    [include/kernel/fs/vfs.h] that [Fat.v], [Ramfs.v] and [Vfs.v] exchange,
    and the comparison of names that ignores case. *)

From S2P Require Import Prelude.

Module Vnode.

(** [vnode_type_t] *)
Inductive vnode_type :=
  | VNODE_TYPE_NONE
  | VNODE_TYPE_FILE
  | VNODE_TYPE_DIR
  | VNODE_TYPE_DEV
  | VNODE_TYPE_BLOCK
  | VNODE_TYPE_EXEC.
#[global] Instance vnode_type_eq_dec : EqDecision vnode_type.
Proof. solve_decision. Defined.

(** [vfs_stat_t] *)
Record vfs_stat := mk_stat {
  st_type : vnode_type;
  st_size : Z;
  st_capacity : Z;
  st_mode : Z;
  st_uid : Z;
  st_gid : Z;
  st_atime : Z;
  st_mtime : Z;
  st_ctime : Z
}.

(** [strcasecmp(a, b) == 0], [src/shared/libc/asm/string.asm] *)
Definition tolower_ascii (c : Z) : Z := if (65 <=? c) && (c <=? 90) then u8 (c + 32) else c.
Definition strcaseeq (a b : cstring) : bool := streq (tolower_ascii <$> a) (tolower_ascii <$> b).

(** The C string that a buffer holds: the bytes before the first NUL. *)
Fixpoint until_nul (l : list Z) : cstring :=
  match l with
  | [] => []
  | c :: l => if c =? 0 then [] else c :: until_nul l
  end.

Lemma until_nul_id l : 0 ∉ l → until_nul l = l.
Proof.
  induction l as [|c l IH]; simpl; [done|]. intros [? ?]%not_elem_of_cons.
  rewrite (proj2 (Z.eqb_neq c 0)) by done. by rewrite IH.
Qed.

End Vnode.
