(* ===== verification/FatTable.v ===== *)
(** * The file allocation table, FAT12, FAT16 and FAT32

    [src/kernel/fs/fat/fat12.c], [fat16.c], [fat32.c] and the superblock of
    [include/kernel/fs/fat.h].  The three variants read and write entries of
    12, 16 and 28 bits in every copy of the table; [FatTable] is what they
    promise to the cluster chains of [Fat.v]: an array of entries. *)

From S2P Require Import Prelude Block.
Import Block.

Module FatTable.

(** [fat_type_t] *)
Inductive fat_type := FAT_TYPE_12 | FAT_TYPE_16 | FAT_TYPE_32.
#[global] Instance fat_type_eq_dec : EqDecision fat_type.
Proof. solve_decision. Defined.

(** [fat_super_t]; the table of operations [var] is one of the three below and
    is named by its variant. *)
Record fat_super (D : Type) := mk_super {
  bdev : blockdev D;
  type : fat_type;
  var : fat_type;
  bytes_per_sector : Z;
  sectors_per_cluster : Z;
  reserved_sectors : Z;
  fat_count : Z;
  root_entries : Z;
  total_sectors16 : Z;
  total_sectors32 : Z;
  sectors_per_fat16 : Z;
  sectors_per_fat32 : Z;
  fat_start : Z;
  root_dir_start : Z;
  data_start : Z;
  root_cluster : Z;
  volume_sectors : Z;
  fat_sectors : Z;
  root_dir_sectors : Z;
  cluster_count : Z
}.
Arguments mk_super {D}.
Arguments bdev {D} _.
Arguments type {D} _.
Arguments var {D} _.
Arguments bytes_per_sector {D} _.
Arguments sectors_per_cluster {D} _.
Arguments reserved_sectors {D} _.
Arguments fat_count {D} _.
Arguments root_entries {D} _.
Arguments total_sectors16 {D} _.
Arguments total_sectors32 {D} _.
Arguments sectors_per_fat16 {D} _.
Arguments sectors_per_fat32 {D} _.
Arguments fat_start {D} _.
Arguments root_dir_start {D} _.
Arguments data_start {D} _.
Arguments root_cluster {D} _.
Arguments volume_sectors {D} _.
Arguments fat_sectors {D} _.
Arguments root_dir_sectors {D} _.
Arguments cluster_count {D} _.

Section entries.
Context {D : Type}.
Implicit Types (sb : fat_super D).

(** [sb->fat_sectors * sb->bytes_per_sector] and [sb->cluster_count + 2] *)
Definition fat_bytes sb : Z := u32 (fat_sectors sb * bytes_per_sector sb).
Definition entry_limit sb : Z := u32 (cluster_count sb + 2).

Definition read_sector sb (lba : Z) : cmd D (Z * list Z) := blockdev_read (Some (bdev sb)) lba 1 true.
Definition write_sector sb (lba : Z) (buf : list Z) : cmd D Z := blockdev_write (Some (bdev sb)) lba 1 (Some buf).

(** The result of an entry read is the status and the value, which is only
    meaningful on success. *)
Definition fat12_get sb (index : Z) : cmd D (Z * Z) :=
  if entry_limit sb <=? index then mret (ERR_INVALID_ARGUMENT, 0) else
  let fat_offset := u32 (index + index / 2) in
  if fat_bytes sb <=? u32 (fat_offset + 1) then mret (ERR_IO_ERROR, 0) else
  q ← cdiv fat_offset (bytes_per_sector sb);
  let sector := u32 (fat_start sb + q) in
  offset ← cmod fat_offset (bytes_per_sector sb);
  '(result, buf) ← read_sector sb sector;
  if negb (result =? ERR_SUCCESS) then mret (result, 0) else
  b0 ← cget_opt (buf !! Z.to_nat offset);
  if offset + 1 <? bytes_per_sector sb then
    b1 ← cget_opt (buf !! Z.to_nat (offset + 1));
    let entry := Z.lor b0 (u16 (Z.shiftl b1 8)) in
    mret (ERR_SUCCESS, if negb (Z.land index 1 =? 0) then Z.shiftr entry 4 else Z.land entry 0x0FFF)
  else
    '(result, buf) ← read_sector sb (u32 (sector + 1));
    if negb (result =? ERR_SUCCESS) then mret (result, 0) else
    b1 ← cget_opt (buf !! 0%nat);
    let entry := Z.lor b0 (u16 (Z.shiftl b1 8)) in
    mret (ERR_SUCCESS, if negb (Z.land index 1 =? 0) then Z.shiftr entry 4 else Z.land entry 0x0FFF).

(** The 16 bits of an odd or even entry around the old contents. *)
Definition fat12_merge (index entry value : Z) : Z :=
  if negb (Z.land index 1 =? 0)
  then u16 (Z.lor (Z.land entry 0x000F) (Z.shiftl (Z.land value 0x0FFF) 4))
  else u16 (Z.lor (Z.land entry 0xF000) (Z.land value 0x0FFF)).

(** The body of the loop over the copies of the table: [fat_base] is the first
    sector of this copy. *)
Definition fat12_set_copy sb (index value offset fat_base : Z) : cmd D Z :=
  q ← cdiv offset (bytes_per_sector sb);
  in_sector ← cmod offset (bytes_per_sector sb);
  let first_lba := u32 (fat_base + q) in
  '(result, s0) ← read_sector sb first_lba;
  if negb (result =? ERR_SUCCESS) then mret result else
  if in_sector =? bytes_per_sector sb - 1 then
    '(result, s1) ← read_sector sb (u32 (first_lba + 1));
    if negb (result =? ERR_SUCCESS) then mret result else
    low ← cget_opt (s0 !! Z.to_nat in_sector);
    high ← cget_opt (s1 !! 0%nat);
    let entry := fat12_merge index (Z.lor low (u16 (Z.shiftl high 8))) value in
    result ← write_sector sb first_lba (<[Z.to_nat in_sector := u8 entry]> s0);
    if negb (result =? ERR_SUCCESS) then mret result else
    write_sector sb (u32 (first_lba + 1)) (<[0%nat := u8 (Z.shiftr entry 8)]> s1)
  else
    low ← cget_opt (s0 !! Z.to_nat in_sector);
    high ← cget_opt (s0 !! Z.to_nat (in_sector + 1));
    let entry := fat12_merge index (Z.lor low (u16 (Z.shiftl high 8))) value in
    write_sector sb first_lba
      (<[Z.to_nat (in_sector + 1) := u8 (Z.shiftr entry 8)]> (<[Z.to_nat in_sector := u8 entry]> s0)).

(** The loop over the copies: the first failure is returned. [step] works on
    the copy that starts at the given sector. *)
Fixpoint each_copy sb (step : Z → cmd D Z) (n : nat) (copy : Z) : cmd D Z :=
  match n with
  | O => mret ERR_SUCCESS
  | S n =>
    result ← step (u32 (fat_start sb + u32 (copy * fat_sectors sb)));
    if negb (result =? ERR_SUCCESS) then mret result
    else each_copy sb step n (copy + 1)
  end.

Definition fat12_set sb (index value : Z) : cmd D Z :=
  if (entry_limit sb <=? index) || (0x0FFF <? value) || negb (bytes_per_sector sb =? 512)
  then mret ERR_INVALID_ARGUMENT else
  let offset := u32 (index + index / 2) in
  if fat_bytes sb <=? u32 (offset + 1) then mret ERR_IO_ERROR else
  each_copy sb (fat12_set_copy sb index value offset) (Z.to_nat (fat_count sb)) 0.

Definition fat12_root sb : Z := 0.
Definition fat12_is_eoc sb (value : Z) : bool := 0x0FF8 <=? value.

Definition fat16_get sb (index : Z) : cmd D (Z * Z) :=
  if entry_limit sb <=? index then mret (ERR_INVALID_ARGUMENT, 0) else
  let fat_offset := u32 (index * 2) in
  if fat_bytes sb <=? u32 (fat_offset + 1) then mret (ERR_IO_ERROR, 0) else
  q ← cdiv fat_offset (bytes_per_sector sb);
  '(result, buf) ← read_sector sb (u32 (fat_start sb + q));
  if negb (result =? ERR_SUCCESS) then mret (result, 0) else
  offset ← cmod fat_offset (bytes_per_sector sb);
  value ← cget_opt (le16 buf (Z.to_nat offset));
  mret (ERR_SUCCESS, value).

Definition fat16_set_copy sb (value offset fat_base : Z) : cmd D Z :=
  q ← cdiv offset (bytes_per_sector sb);
  let lba := u32 (fat_base + q) in
  '(result, sector) ← read_sector sb lba;
  if negb (result =? ERR_SUCCESS) then mret result else
  in_sector ← cmod offset (bytes_per_sector sb);
  cget_opt (sector !! Z.to_nat (in_sector + 1));;
  write_sector sb lba (splice (Z.to_nat in_sector) (put16 value) sector).

Definition fat16_set sb (index value : Z) : cmd D Z :=
  if (entry_limit sb <=? index) || (0xFFFF <? value) || negb (bytes_per_sector sb =? 512)
  then mret ERR_INVALID_ARGUMENT else
  let offset := u32 (index * 2) in
  if fat_bytes sb <=? u32 (offset + 1) then mret ERR_IO_ERROR else
  each_copy sb (fat16_set_copy sb value offset) (Z.to_nat (fat_count sb)) 0.

Definition fat16_root sb : Z := 0.
Definition fat16_is_eoc sb (value : Z) : bool := 0xFFF8 <=? value.

Definition fat32_get sb (index : Z) : cmd D (Z * Z) :=
  if entry_limit sb <=? index then mret (ERR_INVALID_ARGUMENT, 0) else
  let fat_offset := u32 (index * 4) in
  if fat_bytes sb <=? u32 (fat_offset + 3) then mret (ERR_IO_ERROR, 0) else
  q ← cdiv fat_offset (bytes_per_sector sb);
  '(result, buf) ← read_sector sb (u32 (fat_start sb + q));
  if negb (result =? ERR_SUCCESS) then mret (result, 0) else
  offset ← cmod fat_offset (bytes_per_sector sb);
  value ← cget_opt (le32 buf (Z.to_nat offset));
  mret (ERR_SUCCESS, Z.land value 0x0FFFFFFF).

(** The loop keeps the merged value in [value], so that the next copy starts
    from it; its top four bits are masked away again. *)
Definition fat32_set_copy sb (offset fat_base value : Z) : cmd D (Z * Z) :=
  q ← cdiv offset (bytes_per_sector sb);
  let lba := u32 (fat_base + q) in
  '(result, sector) ← read_sector sb lba;
  if negb (result =? ERR_SUCCESS) then mret (result, value) else
  in_sector ← cmod offset (bytes_per_sector sb);
  b3 ← cget_opt (sector !! Z.to_nat (in_sector + 3));
  let value := Z.lor (Z.land value 0x0FFFFFFF) (u32 (Z.shiftl (Z.land b3 0xF0) 24)) in
  result ← write_sector sb lba (splice (Z.to_nat in_sector) (put32 value) sector);
  mret (result, value).

Fixpoint fat32_copies sb (offset : Z) (n : nat) (copy value : Z) : cmd D Z :=
  match n with
  | O => mret ERR_SUCCESS
  | S n =>
    '(result, value) ← fat32_set_copy sb offset (u32 (fat_start sb + u32 (copy * fat_sectors sb))) value;
    if negb (result =? ERR_SUCCESS) then mret result
    else fat32_copies sb offset n (copy + 1) value
  end.

Definition fat32_set sb (index value : Z) : cmd D Z :=
  if (entry_limit sb <=? index) || negb (bytes_per_sector sb =? 512)
  then mret ERR_INVALID_ARGUMENT else
  let offset := u32 (index * 4) in
  if fat_bytes sb <=? u32 (offset + 3) then mret ERR_IO_ERROR else
  fat32_copies sb offset (Z.to_nat (fat_count sb)) 0 value.

Definition fat32_root sb : Z := root_cluster sb.
Definition fat32_is_eoc sb (value : Z) : bool := 0x0FFFFFF8 <=? Z.land value 0x0FFFFFFF.

(** [fat_variant_ops_t] and its three tables *)
Record fat_variant_ops := mk_variant {
  get_fat_entry : fat_super D → Z → cmd D (Z * Z);
  set_fat_entry : fat_super D → Z → Z → cmd D Z;
  root_dir_first_cluster : fat_super D → Z;
  is_eoc : fat_super D → Z → bool
}.
Definition fat12_ops : fat_variant_ops := mk_variant fat12_get fat12_set fat12_root fat12_is_eoc.
Definition fat16_ops : fat_variant_ops := mk_variant fat16_get fat16_set fat16_root fat16_is_eoc.
Definition fat32_ops : fat_variant_ops := mk_variant fat32_get fat32_set fat32_root fat32_is_eoc.
Definition var_ops (v : fat_type) : fat_variant_ops :=
  match v with FAT_TYPE_12 => fat12_ops | FAT_TYPE_16 => fat16_ops | FAT_TYPE_32 => fat32_ops end.
End entries.

(** ** The disk as an array of bytes *)

Section image.
Context {D : Type} (bd : blockdev D) `{HD : !Disk bd} (Hsize : sector_size bd = 512).
Implicit Types (d : D).

(** The byte at absolute address [a]. *)
Definition img d (a : Z) : Z := default 0 (sec bd d (a / 512) !! Z.to_nat (a mod 512)).

Lemma length_sec d i : length (sec bd d i) = 512%nat.
Proof. by rewrite (sec_length bd), Hsize. Qed.

Lemma sec_img d i k :
  0 ≤ k < 512 → sec bd d i !! Z.to_nat k = Some (img d (512 * i + k)).
Proof.
  intros Hk. unfold img.
  replace ((512 * i + k) / 512) with i by lia. replace ((512 * i + k) mod 512) with k by lia.
  destruct (lookup_is_Some (sec bd d i) (Z.to_nat k)) as [b ->]; [rewrite length_sec; lia|done].
Qed.

Lemma img_byte d a : is_u8 (img d a).
Proof.
  unfold img. destruct (sec bd d (a / 512) !! _) as [b|] eqn:E; [|by_eval].
  eapply lookup_byte; [|exact E]. apply (sec_bytes bd).
Qed.

(** A sector whose bytes did not change is the same sector. *)
Lemma sec_ext d d' i :
  (∀ a, 512 * i ≤ a < 512 * i + 512 → img d' a = img d a) → sec bd d' i = sec bd d i.
Proof.
  intros Ha. apply list_eq. intros k. destruct (decide (k < 512)%nat).
  - pose proof (sec_img d i (Z.of_nat k) ltac:(lia)) as H1.
    pose proof (sec_img d' i (Z.of_nat k) ltac:(lia)) as H2.
    rewrite Nat2Z.id in H1, H2. rewrite H1, H2, Ha by lia. done.
  - rewrite !lookup_ge_None_2; [done|rewrite length_sec; lia..].
Qed.

(** [f] with [bytes] written at address [A]. *)
Definition put_img (f : Z → Z) (A : Z) (bytes : list Z) (a : Z) : Z :=
  if decide (A ≤ a < A + Z.of_nat (length bytes)) then default 0 (bytes !! Z.to_nat (a - A)) else f a.

Lemma read_one d lba :
  0 ≤ lba < sector_count bd →
  blockdev_read (Some bd) lba 1 true d = Some ((ERR_SUCCESS, sec bd d lba), d).
Proof.
  intros. rewrite (disk_read bd) by lia. unfold run_of.
  replace (seqZ lba 1) with [lba] by (unfold seqZ; simpl; f_equal; lia).
  do 3 f_equal. simpl. apply app_nil_r.
Qed.

Lemma write_one d lba buf :
  0 ≤ lba < sector_count bd → length buf = 512%nat → Forall is_u8 buf →
  ∃ d', blockdev_write (Some bd) lba 1 (Some buf) d = Some (ERR_SUCCESS, d') ∧
        ∀ i, sec bd d' i = if decide (i = lba) then buf else sec bd d i.
Proof.
  intros Hl Hb H8. destruct (disk_write bd d lba 1 buf) as (d' & Hw & Hs); [lia..| |done|].
  { rewrite Hsize. lia. }
  exists d'. split; [done|]. intros i. rewrite Hs, Hsize.
  destruct (decide (lba ≤ i < lba + 1)), (decide (i = lba)) as [->|]; try lia; [|done].
  rewrite Z.sub_diag. unfold slice. simpl. rewrite drop_0. apply take_ge. lia.
Qed.

(** Writing back a sector in which [bytes] were replaced at offset [k]. *)
Lemma write_splice d lba k bytes :
  0 ≤ lba < sector_count bd → 0 ≤ k → k + Z.of_nat (length bytes) ≤ 512 → Forall is_u8 bytes →
  ∃ d', blockdev_write (Some bd) lba 1 (Some (splice (Z.to_nat k) bytes (sec bd d lba))) d
          = Some (ERR_SUCCESS, d') ∧
        ∀ a, img d' a = put_img (img d) (512 * lba + k) bytes a.
Proof.
  intros Hl Hk Hlen H8.
  destruct (write_one d lba (splice (Z.to_nat k) bytes (sec bd d lba))) as (d' & Hw & Hs); [done| | |].
  { rewrite length_splice, length_sec; [done|]. rewrite length_sec. lia. }
  { unfold splice. rewrite !Forall_app. split_and!; [apply Forall_take|done|apply Forall_drop];
      apply (sec_bytes bd). }
  exists d'. split; [done|]. intros a. unfold img at 1. rewrite Hs. unfold put_img.
  destruct (decide (a / 512 = lba)) as [<-|].
  - rewrite splice_lookup by (rewrite length_sec; lia).
    destruct (decide (Z.to_nat k ≤ Z.to_nat (a mod 512) < Z.to_nat k + length bytes)%nat).
    + rewrite decide_True by lia. do 2 f_equal. lia.
    + rewrite decide_False by lia. done.
  - rewrite decide_False by lia. done.
Qed.

(** Inserting single bytes is splicing. *)
Lemma insert_splice1 (l : list Z) k b : (k < length l)%nat → <[k := b]> l = splice k [b] l.
Proof.
  intros. rewrite insert_take_drop by done. unfold splice. simpl.
  by replace (k + 1)%nat with (S k) by lia.
Qed.
Lemma insert_splice2 (l : list Z) k b0 b1 :
  (S k < length l)%nat → <[S k := b1]> (<[k := b0]> l) = splice k [b0; b1] l.
Proof.
  intros. apply list_eq. intros j. rewrite !list_lookup_insert, splice_lookup, length_insert
    by (simpl; lia). simpl.
  destruct (decide (S k = j ∧ S k < length l)%nat) as [[<- ?]|];
    [rewrite decide_True by lia; by replace (S k - k)%nat with 1%nat by lia|].
  destruct (decide (k = j ∧ k < length l)%nat) as [[<- ?]|];
    [rewrite decide_True by lia; by rewrite Nat.sub_diag|].
  by rewrite decide_False by lia.
Qed.
End image.

(** ** The entries of a table, seen in the bytes of the disk *)

(** The entry [i] of the table whose first byte is at address [B]. *)
Definition ent12 (f : Z → Z) (B i : Z) : Z :=
  let w := f (B + (i + i / 2)) + f (B + (i + i / 2) + 1) * 256 in
  if decide (i mod 2 = 0) then w mod 4096 else w / 16.
Definition ent16 (f : Z → Z) (B i : Z) : Z := f (B + i * 2) + f (B + i * 2 + 1) * 256.
Definition ent32 (f : Z → Z) (B i : Z) : Z :=
  (f (B + i * 4) + f (B + i * 4 + 1) * 2 ^ 8 + f (B + i * 4 + 2) * 2 ^ 16 + f (B + i * 4 + 3) * 2 ^ 24)
  mod 2 ^ 28.

(** The width of an entry and the address of its first byte. *)
Definition ent (t : fat_type) : (Z → Z) → Z → Z → Z :=
  match t with FAT_TYPE_12 => ent12 | FAT_TYPE_16 => ent16 | FAT_TYPE_32 => ent32 end.
Definition ent_bits (t : fat_type) : Z :=
  match t with FAT_TYPE_12 => 12 | FAT_TYPE_16 => 16 | FAT_TYPE_32 => 28 end.
Definition ent_off (t : fat_type) (i : Z) : Z :=
  match t with FAT_TYPE_12 => i + i / 2 | FAT_TYPE_16 => i * 2 | FAT_TYPE_32 => i * 4 end.
Definition ent_len (t : fat_type) : Z :=
  match t with FAT_TYPE_32 => 4 | _ => 2 end.
Definition ent_mask (t : fat_type) (f : Z → Z) (A i v : Z) : list Z :=
  match t with
  | FAT_TYPE_12 => put16 (fat12_merge i (f A + f (A + 1) * 256) v)
  | FAT_TYPE_16 => put16 v
  | FAT_TYPE_32 => put32 (v mod 2 ^ 28 + f (A + 3) / 16 * 2 ^ 28)
  end.

Lemma land1_mod2 i : Z.land i 1 = i mod 2.
Proof. change 1 with (Z.ones 1) at 1. by rewrite Z.land_ones. Qed.
Lemma odd_test i : negb (Z.land i 1 =? 0) = negb (bool_decide (i mod 2 = 0)).
Proof. rewrite land1_mod2. f_equal. case_bool_decide; [by apply Z.eqb_eq|by apply Z.eqb_neq]. Qed.

Lemma fat12_merge_spec i w v :
  0 ≤ w < 2 ^ 16 → 0 ≤ v < 2 ^ 12 →
  fat12_merge i w v = if decide (i mod 2 = 0) then w / 4096 * 4096 + v else w mod 16 + v * 16.
Proof.
  intros Hw Hv. unfold fat12_merge. rewrite odd_test.
  assert (Z.land v 4095 = v) as ->.
  { change 4095 with (Z.ones 12). rewrite Z.land_ones by lia. by apply Z.mod_small. }
  case_bool_decide as E; cbn [negb].
  - rewrite decide_True by done. change 0xF000 with (2 ^ 16 - 2 ^ 12). rewrite land_high_bits by lia.
    rewrite Z.lor_comm.
    replace (w / 2 ^ 12 * 2 ^ 12) with (Z.shiftl (w / 4096) 12)
      by (rewrite Z.shiftl_mul_pow2 by lia; done).
    rewrite lor_shiftl_add by lia. unfold u16. rewrite Z.mod_small; lia.
  - rewrite decide_False by done.
    assert (Z.land w 15 = w mod 16) as ->
      by (change 15 with (Z.ones 4); by rewrite Z.land_ones by lia).
    rewrite lor_shiftl_add by lia. unfold u16. rewrite Z.mod_small; lia.
Qed.

Lemma put16_value v : 0 ≤ v < 2 ^ 16 → put16 v = [v mod 256; v / 256].
Proof.
  intros. unfold put16, u8. rewrite Z.shiftr_div_pow2 by lia. change (2 ^ 8) with 256.
  by rewrite (Z.mod_small (v / 256)) by lia.
Qed.
Lemma put32_value v :
  0 ≤ v < 2 ^ 32 → put32 v = [v mod 256; v / 256 mod 256; v / 2 ^ 16 mod 256; v / 2 ^ 24].
Proof.
  intros. unfold put32, u8. rewrite !Z.shiftr_div_pow2 by lia. change (2 ^ 8) with 256.
  by rewrite (Z.mod_small (v / 2 ^ 24)) by lia.
Qed.

Lemma length_ent_mask t f A i v : Z.of_nat (length (ent_mask t f A i v)) = ent_len t.
Proof. by destruct t. Qed.
Lemma ent_mask_bytes t f A i v : Forall is_u8 (ent_mask t f A i v).
Proof. destruct t; repeat constructor; apply u8_range. Qed.

(** An entry only depends on its bytes. *)
Lemma ent_ext t f g B i :
  (∀ a, B + ent_off t i ≤ a < B + ent_off t i + ent_len t → f a = g a) → ent t f B i = ent t g B i.
Proof.
  intros H. destruct t; cbn [ent ent_off ent_len] in *; unfold ent12, ent16, ent32;
    rewrite ?H by lia; done.
Qed.

Lemma ent_range t f B i : (∀ a, is_u8 (f a)) → 0 ≤ ent t f B i < 2 ^ ent_bits t.
Proof.
  intros H. assert (∀ a, 0 ≤ f a < 256) as H' by (intros a; destruct (H a); lia).
  destruct t; cbn [ent ent_bits]; unfold ent12, ent16, ent32;
    [|pose proof (H' (B + i * 2)); pose proof (H' (B + i * 2 + 1)); lia|by apply Z.mod_pos_bound].
  pose proof (H' (B + (i + i / 2))). pose proof (H' (B + (i + i / 2) + 1)). case_decide; lia.
Qed.

Lemma put_img_out f A bytes a :
  ¬ A ≤ a < A + Z.of_nat (length bytes) → put_img f A bytes a = f a.
Proof. intros. unfold put_img. by rewrite decide_False. Qed.
Lemma put_img_in f A bytes k b :
  0 ≤ k → bytes !! Z.to_nat k = Some b → put_img f A bytes (A + k) = b.
Proof.
  intros ? Hk. unfold put_img. pose proof (lookup_lt_Some _ _ _ Hk). rewrite decide_True by lia.
  replace (A + k - A) with k by lia. by rewrite Hk.
Qed.
Lemma put_img_in0 f A bytes b : head bytes = Some b → put_img f A bytes A = b.
Proof.
  intros Hk. rewrite <- (Z.add_0_r A) at 2. apply put_img_in; [done|]. by destruct bytes.
Qed.

(** Storing an entry changes this entry only, even where neighbours of a
    12-bit entry share a byte with it. *)
Lemma ent_put12 f B i v j :
  (∀ a, is_u8 (f a)) → 0 ≤ i → 0 ≤ j → 0 ≤ v < 2 ^ 12 →
  let A := B + ent_off FAT_TYPE_12 i in
  ent12 (put_img f A (ent_mask FAT_TYPE_12 f A i v)) B j = if decide (j = i) then v else ent12 f B j.
Proof.
  intros Hf Hi Hj Hv A. subst A. cbn [ent_off ent_mask].
  assert (∀ a, 0 ≤ f a < 256) as H' by (intros a; destruct (Hf a); lia).
  set (A := B + (i + i / 2)).
  pose proof (H' A) as H0. pose proof (H' (A + 1)) as H1.
  set (w := f A + f (A + 1) * 256). set (m := fat12_merge i w v).
  assert (0 ≤ m < 2 ^ 16 ∧
    m = if decide (i mod 2 = 0) then w / 4096 * 4096 + v else w mod 16 + v * 16) as [Hmr Hm].
  { subst m. rewrite fat12_merge_spec by lia. split; [case_decide; lia|done]. }
  rewrite put16_value by done.
  set (g := put_img f A [m mod 256; m / 256]).
  assert (g A = m mod 256) as G0.
  { by apply put_img_in0. }
  assert (g (A + 1) = m / 256) as G1 by (apply (put_img_in f A _ 1); done).
  assert (∀ a, a < A ∨ A + 2 ≤ a → g a = f a) as Go.
  { intros a Ha. apply put_img_out. simpl. lia. }
  unfold ent12. clearbody g m. subst w.
  pose proof (H' (A - 1)). pose proof (H' (A + 2)).
  destruct (decide (j = i)) as [->|].
  { fold A. rewrite G0, G1. destruct (decide (i mod 2 = 0)); lia. }
  destruct (decide (j = i + 1 ∧ i mod 2 = 0)) as [[-> He]|].
  { rewrite decide_True in Hm by done. rewrite !(decide_False (P := (i + 1) mod 2 = 0)) by lia.
    replace (B + (i + 1 + (i + 1) / 2)) with (A + 1) by (subst A; lia).
    rewrite G1, (Go (A + 1 + 1)) by lia. lia. }
  destruct (decide (j = i - 1 ∧ i mod 2 ≠ 0)) as [[-> He]|].
  { rewrite decide_False in Hm by done. rewrite !(decide_True (P := (i - 1) mod 2 = 0)) by lia.
    replace (B + (i - 1 + (i - 1) / 2)) with (A - 1) by (subst A; lia).
    replace (A - 1 + 1) with A by lia. rewrite G0, (Go (A - 1)) by lia. lia. }
  rewrite !Go by (subst A; lia). done.
Qed.

Lemma ent_put t f B i v j :
  (∀ a, is_u8 (f a)) → 0 ≤ i → 0 ≤ j → 0 ≤ v < 2 ^ ent_bits t →
  let A := B + ent_off t i in
  ent t (put_img f A (ent_mask t f A i v)) B j = if decide (j = i) then v else ent t f B j.
Proof.
  destruct t; cbn [ent ent_bits]; [by apply ent_put12|..];
    intros Hf Hi Hj Hv; cbn [ent_off ent_mask].
  - rewrite put16_value by lia. unfold ent16. case_decide as E.
    + subst j. rewrite (put_img_in f (B + i * 2) [v mod 256; v / 256] 1 (v / 256)) by done.
      rewrite (put_img_in0 f (B + i * 2) _ (v mod 256)) by done. lia.
    + rewrite !put_img_out by (simpl; lia). done.
  - pose proof (Hf (B + i * 4 + 3)) as Hb. unfold is_u8 in Hb.
    set (x := v mod 2 ^ 28 + f (B + i * 4 + 3) / 16 * 2 ^ 28).
    assert (0 ≤ x < 2 ^ 32) as Hx by (subst x; lia).
    rewrite put32_value by done. unfold ent32. case_decide as E.
    + subst j. set (bs := [x mod 256; x / 256 mod 256; x / 2 ^ 16 mod 256; x / 2 ^ 24]).
      rewrite (put_img_in f (B + i * 4) bs 1 (x / 256 mod 256)) by done.
      rewrite (put_img_in f (B + i * 4) bs 2 (x / 2 ^ 16 mod 256)) by done.
      rewrite (put_img_in f (B + i * 4) bs 3 (x / 2 ^ 24)) by done.
      rewrite (put_img_in0 f (B + i * 4) bs (x mod 256)) by done.
      replace (x mod 256 + x / 256 mod 256 * 2 ^ 8 + x / 2 ^ 16 mod 256 * 2 ^ 16 + x / 2 ^ 24 * 2 ^ 24)
        with x by lia. subst x. lia.
    + rewrite !put_img_out by (simpl; lia). done.
Qed.

(** ** The geometry of a mounted volume, as far as the table is concerned *)

Record geom {D} (sb : fat_super D) : Prop := {
  g_bps : bytes_per_sector sb = 512;
  g_size : sector_size (bdev sb) = 512;
  g_fats : 1 ≤ fat_count sb ≤ 255;
  g_start : 0 ≤ fat_start sb;
  g_fsec : 0 < fat_sectors sb < 2 ^ 23;
  g_fit : fat_start sb + fat_count sb * fat_sectors sb ≤ sector_count (bdev sb);
  g_count : 0 ≤ cluster_count sb < 2 ^ 28 - 16;
  g_entries i : 0 ≤ i < cluster_count sb + 2 →
    ent_off (var sb) i + ent_len (var sb) ≤ 512 * fat_sectors sb
}.

(** The first sector of copy [c] of the table and its address. *)
Definition copy_base {D} (sb : fat_super D) (c : Z) : Z := fat_start sb + c * fat_sectors sb.

Section table.
Context {D : Type} (sb : fat_super D) `{HD : !Disk (bdev sb)} (G : geom sb).
Implicit Types (d : D).
Abbreviation image := (img (bdev sb)).
#[local] Arguments blockdev_read : simpl never.
#[local] Arguments blockdev_write : simpl never.

Lemma entry_limit_val : entry_limit sb = cluster_count sb + 2.
Proof. destruct G. unfold entry_limit. apply u32_small. lia. Qed.
Lemma fat_bytes_val : fat_bytes sb = 512 * fat_sectors sb.
Proof. destruct G. unfold fat_bytes. rewrite g_bps0, u32_small; lia. Qed.
Lemma sectors_bound : sector_count (bdev sb) < 2 ^ 32.
Proof. apply (sec_count (bdev sb)). Qed.

(** The sector that holds a byte of a copy of the table. *)
Lemma copy_sector c o :
  0 ≤ c < fat_count sb → 0 ≤ o < 512 * fat_sectors sb →
  u32 (copy_base sb c + o / 512) = copy_base sb c + o / 512 ∧
  0 ≤ copy_base sb c + o / 512 < sector_count (bdev sb).
Proof.
  intros Hc Ho. pose proof sectors_bound. destruct G. unfold copy_base.
  assert ((c + 1) * fat_sectors sb ≤ fat_count sb * fat_sectors sb)
    by (apply Z.mul_le_mono_nonneg_r; lia).
  assert (0 ≤ c * fat_sectors sb) by (apply Z.mul_nonneg_nonneg; lia).
  rewrite u32_small; lia.
Qed.

Lemma copy_base_u32 c :
  0 ≤ c < fat_count sb → u32 (fat_start sb + u32 (c * fat_sectors sb)) = copy_base sb c.
Proof.
  intros Hc. pose proof sectors_bound. destruct G. unfold copy_base.
  assert ((c + 1) * fat_sectors sb ≤ fat_count sb * fat_sectors sb)
    by (apply Z.mul_le_mono_nonneg_r; lia).
  assert (0 ≤ c * fat_sectors sb) by (apply Z.mul_nonneg_nonneg; lia).
  rewrite (u32_small (c * _)) by lia. rewrite u32_small; lia.
Qed.

(** Reading a sector of the volume. *)
Lemma read_sector_wp lba (Q : Z * list Z → D → Prop) d :
  0 ≤ lba < sector_count (bdev sb) → Q (ERR_SUCCESS, sec (bdev sb) d lba) d →
  wp (read_sector sb lba) Q d.
Proof. intros. eapply wp_eq; [by apply read_one|done]. Qed.

(** Writing a sector back with some bytes replaced. *)
Lemma write_splice_wp lba k bytes (Q : Z → D → Prop) d :
  0 ≤ lba < sector_count (bdev sb) → 0 ≤ k → k + Z.of_nat (length bytes) ≤ 512 → Forall is_u8 bytes →
  (∀ d', (∀ a, image d' a = put_img (image d) (512 * lba + k) bytes a) → Q ERR_SUCCESS d') →
  wp (write_sector sb lba (splice (Z.to_nat k) bytes (sec (bdev sb) d lba))) Q d.
Proof.
  intros ? ? ? ? HQ.
  destruct (write_splice (bdev sb) (g_size sb G) d lba k bytes) as (d' & Hw & Hi); [done..|].
  eapply wp_eq; [exact Hw|]. by apply HQ.
Qed.

Lemma sec_byte d i k :
  0 ≤ k < 512 → sec (bdev sb) d i !! Z.to_nat k = Some (image d (512 * i + k)).
Proof. apply (sec_img (bdev sb)). by destruct G. Qed.

Lemma image_byte d a : is_u8 (image d a).
Proof. apply (img_byte (bdev sb)). Qed.

Lemma low_high d A : Z.lor (image d A) (u16 (Z.shiftl (image d (A + 1)) 8)) = image d A + image d (A + 1) * 256.
Proof.
  pose proof (image_byte d A) as H0. pose proof (image_byte d (A + 1)) as H1. unfold is_u8 in *.
  rewrite u16_small by (rewrite Z.shiftl_mul_pow2 by lia; lia). by rewrite lor_shiftl_add by lia.
Qed.

(** One copy of the table after a store. *)
Definition stored d base i v (r : Z) d' : Prop :=
  let A := 512 * base + ent_off (var sb) i in
  r = ERR_SUCCESS ∧ ∀ a, image d' a = put_img (image d) A (ent_mask (var sb) (image d) A i v) a.

Lemma cdiv_wp o (Q : Z → D → Prop) d : Q (o / 512) d → wp (cdiv o (bytes_per_sector sb)) Q d.
Proof. destruct G as [-> _ _ _ _ _ _ _]. by apply wp_cdiv. Qed.
Lemma cmod_wp o (Q : Z → D → Prop) d : Q (o mod 512) d → wp (cmod o (bytes_per_sector sb)) Q d.
Proof. destruct G as [-> _ _ _ _ _ _ _]. by apply wp_cmod. Qed.

(** The part of a copy that the entry lies in. *)
Definition in_copy c i : Prop := 0 ≤ c < fat_count sb ∧ 0 ≤ i < cluster_count sb + 2.

Lemma in_copy_off c i : in_copy c i →
  0 ≤ ent_off (var sb) i ∧ ent_off (var sb) i + ent_len (var sb) ≤ 512 * fat_sectors sb.
Proof. intros [_ Hi]. split; [destruct (var sb); simpl; lia|by apply (g_entries sb G)]. Qed.

Lemma fat12_copy_wp c i v d :
  var sb = FAT_TYPE_12 → in_copy c i →
  wp (fat12_set_copy sb i v (i + i / 2) (copy_base sb c)) (stored d (copy_base sb c) i v) d.
Proof.
  intros Hv Hi. pose proof (in_copy_off c i Hi) as [Ho1 Ho2]. rewrite Hv in Ho1, Ho2.
  cbn [ent_off ent_len] in Ho1, Ho2. set (o := i + i / 2) in *.
  destruct (copy_sector c o) as [Hu Hl]; [apply Hi|lia|].
  unfold fat12_set_copy. wp_step. apply cdiv_wp. wp_step. apply cmod_wp. rewrite Hu.
  wp_step. apply read_sector_wp; [done|]. cbn beta iota. on_success. rewrite (g_bps sb G). set (lba := copy_base sb c + o / 512) in *.
  assert (512 * lba + o mod 512 = 512 * copy_base sb c + o) as HA by (subst lba; lia).
  unfold stored. rewrite Hv. cbn [ent_off ent_mask]. fold o.
  set (A := 512 * copy_base sb c + o) in *. set (m := fat12_merge _ _ _).
  destruct (Z.eqb_spec (o mod 512) (512 - 1)) as [E|E].
  - destruct (copy_sector c (o + 1)) as [Hu' Hl']; [apply Hi|lia|].
    replace (copy_base sb c + (o + 1) / 512) with (lba + 1) in Hu', Hl' by (subst lba; lia).
    rewrite Hu'. wp_step. apply read_sector_wp; [done|]. cbn beta iota.
    on_success.
    wp_step. eapply wp_get_opt; [apply sec_byte; lia|].
    wp_step. eapply wp_get_opt; [apply (sec_byte d _ 0); lia|].
    rewrite HA. replace (512 * (lba + 1) + 0) with (A + 1) by lia.
    rewrite low_high. fold m. wp_step. rewrite insert_splice1 by (rewrite (length_sec (bdev sb)); [lia|apply (g_size sb G)]).
    apply write_splice_wp; [done|lia|simpl; lia|repeat constructor; apply u8_range|].
    intros d1 H1. rewrite HA in H1. on_success.
    assert (sec (bdev sb) d (lba + 1) = sec (bdev sb) d1 (lba + 1)) as ->.
    { symmetry. apply (sec_ext (bdev sb) (g_size sb G)). intros a Ha. rewrite H1. apply put_img_out. simpl. lia. }
    rewrite insert_splice1 by (rewrite (length_sec (bdev sb)); [lia|apply (g_size sb G)]).
    apply (write_splice_wp _ 0); [done|lia|simpl; lia|repeat constructor; apply u8_range|].
    intros d2 H2. split; [done|]. intros a. rewrite H2. replace (512 * (lba + 1) + 0) with (A + 1) by lia.
    destruct (decide (a = A + 1)) as [->|].
    { rewrite (put_img_in0 _ _ _ (u8 (Z.shiftr m 8))) by done.
      by rewrite (put_img_in _ A _ 1 (u8 (Z.shiftr m 8))) by done. }
    rewrite put_img_out by (simpl; lia). rewrite H1. destruct (decide (a = A)) as [->|].
    { by rewrite !(put_img_in0 _ A _ (u8 m)) by done. }
    by rewrite !put_img_out by (simpl; lia).
  - wp_step. eapply wp_get_opt; [apply sec_byte; lia|].
    wp_step. eapply wp_get_opt; [apply (sec_byte d _ (o mod 512 + 1)); lia|].
    replace (512 * lba + (o mod 512 + 1)) with (A + 1) by lia. rewrite HA, low_high. fold m.
    replace (Z.to_nat (o mod 512 + 1)) with (S (Z.to_nat (o mod 512))) by lia.
    rewrite insert_splice2 by (rewrite (length_sec (bdev sb)); [lia|apply (g_size sb G)]).
    apply write_splice_wp; [done|lia|simpl; lia|repeat constructor; apply u8_range|].
    intros d1 H1. rewrite HA in H1. by split.
Qed.

Lemma sector_byte d lba k : 0 ≤ k < 512 → is_Some (sec (bdev sb) d lba !! Z.to_nat k).
Proof. intros. rewrite sec_byte by done. by eexists. Qed.

Lemma fat16_copy_wp c i v d :
  var sb = FAT_TYPE_16 → in_copy c i →
  wp (fat16_set_copy sb v (i * 2) (copy_base sb c)) (stored d (copy_base sb c) i v) d.
Proof.
  intros Hv Hi. pose proof (in_copy_off c i Hi) as [Ho1 Ho2]. rewrite Hv in Ho1, Ho2.
  cbn [ent_off ent_len] in Ho1, Ho2. destruct (copy_sector c (i * 2)) as [Hu Hl]; [apply Hi|lia|].
  unfold fat16_set_copy. wp_step. apply cdiv_wp. rewrite Hu.
  wp_step. apply read_sector_wp; [done|]. cbn beta iota. on_success. wp_step. apply cmod_wp. destruct (sector_byte d (copy_base sb c + i * 2 / 512) (i * 2 mod 512 + 1))
    as [b Hb]; [lia|].
  wp_step. eapply wp_get_opt; [exact Hb|].
  apply write_splice_wp; [done|lia|simpl; lia|repeat constructor; apply u8_range|].
  intros d1 H1. split; [done|]. intros a. rewrite H1, Hv. cbn [ent_off ent_mask]. f_equal. lia.
Qed.

Lemma fat32_merge b v : is_u8 b →
  Z.lor (Z.land v 0x0FFFFFFF) (u32 (Z.shiftl (Z.land b 0xF0) 24)) = v mod 2 ^ 28 + b / 16 * 2 ^ 28.
Proof.
  unfold is_u8. intros Hb. change 0x0FFFFFFF with (Z.ones 28). rewrite Z.land_ones by lia.
  change 0xF0 with (2 ^ 8 - 2 ^ 4). rewrite land_high_bits by lia.
  replace (Z.shiftl (b / 2 ^ 4 * 2 ^ 4) 24) with (Z.shiftl (b / 16) 28)
    by (rewrite !Z.shiftl_mul_pow2 by lia; lia).
  rewrite u32_small by (rewrite Z.shiftl_mul_pow2 by lia; lia).
  by rewrite lor_shiftl_add by lia.
Qed.

Lemma fat32_copy_wp c i v w d :
  var sb = FAT_TYPE_32 → in_copy c i → w mod 2 ^ 28 = v mod 2 ^ 28 →
  wp (fat32_set_copy sb (i * 4) (copy_base sb c) w)
     (λ '(r, w') d', w' mod 2 ^ 28 = v mod 2 ^ 28 ∧ stored d (copy_base sb c) i v r d') d.
Proof.
  intros Hv Hi Hw. pose proof (in_copy_off c i Hi) as [Ho1 Ho2]. rewrite Hv in Ho1, Ho2.
  cbn [ent_off ent_len] in Ho1, Ho2. destruct (copy_sector c (i * 4)) as [Hu Hl]; [apply Hi|lia|].
  unfold fat32_set_copy. wp_step. apply cdiv_wp. rewrite Hu.
  wp_step. apply read_sector_wp; [done|]. cbn beta iota. on_success. wp_step. apply cmod_wp. wp_step. eapply wp_get_opt; [apply sec_byte; lia|].
  rewrite fat32_merge by apply image_byte. rewrite Hw.
  replace (512 * (copy_base sb c + i * 4 / 512) + (i * 4 mod 512 + 3)) with (512 * copy_base sb c + i * 4 + 3) by lia.
  wp_step. apply write_splice_wp; [done|lia|simpl; lia|repeat constructor; apply u8_range|].
  intros d1 H1. wp_step. split; [lia|]. split; [done|].
  intros a. rewrite H1, Hv. cbn [ent_off ent_mask]. f_equal. lia.
Qed.

(** The loops over the copies. *)
Record all_stored d (lo hi i v : Z) d' : Prop := {
  as_new c k : lo ≤ c < hi → 0 ≤ k < ent_len (var sb) →
    let A := 512 * copy_base sb c + ent_off (var sb) i in
    image d' (A + k) = put_img (image d) A (ent_mask (var sb) (image d) A i v) (A + k);
  as_old a :
    (∀ c, lo ≤ c < hi → ¬ 512 * copy_base sb c + ent_off (var sb) i ≤ a
                          < 512 * copy_base sb c + ent_off (var sb) i + ent_len (var sb)) →
    image d' a = image d a
}.

Lemma copies_apart c c' i k k' :
  in_copy c i → in_copy c' i → c ≠ c' → 0 ≤ k < ent_len (var sb) → 0 ≤ k' < ent_len (var sb) →
  512 * copy_base sb c + ent_off (var sb) i + k ≠ 512 * copy_base sb c' + ent_off (var sb) i + k'.
Proof.
  intros Hc Hc' Hne Hk Hk'. pose proof (in_copy_off c i Hc). unfold copy_base. destruct G.
  destruct (decide (c < c')).
  - assert ((c + 1) * fat_sectors sb ≤ c' * fat_sectors sb) by (apply Z.mul_le_mono_nonneg_r; lia). lia.
  - assert ((c' + 1) * fat_sectors sb ≤ c * fat_sectors sb) by (apply Z.mul_le_mono_nonneg_r; lia). lia.
Qed.

Lemma ent_mask_ext f g A i v :
  (∀ k, 0 ≤ k < ent_len (var sb) → f (A + k) = g (A + k)) →
  ent_mask (var sb) f A i v = ent_mask (var sb) g A i v.
Proof.
  intros H. pose proof (H 0) as H0. rewrite Z.add_0_r in H0.
  destruct (var sb); cbn [ent_mask ent_len] in *; rewrite ?H0, ?H by lia; done.
Qed.

Lemma all_stored_cons d d1 d2 c hi i v :
  c < hi ≤ fat_count sb → in_copy c i → stored d (copy_base sb c) i v ERR_SUCCESS d1 →
  all_stored d1 (c + 1) hi i v d2 → all_stored d c hi i v d2.
Proof.
  intros Hh Hc [_ H1] [Hn Ho]. split.
  - intros c' k Hc' Hk A. destruct (decide (c' = c)) as [->|].
    + rewrite Ho, H1; [done|]. intros c2 Hc2 Hr.
      apply (copies_apart c c2 i k (A + k - (512 * copy_base sb c2 + ent_off (var sb) i)));
        [done|split; [destruct Hc; lia|apply Hc]|lia|done|lia|]. subst A. lia.
    + subst A. rewrite Hn by lia.
      assert (∀ k, 0 ≤ k < ent_len (var sb) →
        image d1 (512 * copy_base sb c' + ent_off (var sb) i + k) =
        image d (512 * copy_base sb c' + ent_off (var sb) i + k)) as He.
      { intros k' Hk'. rewrite H1. apply put_img_out. rewrite length_ent_mask. intros Hr.
        apply (copies_apart c' c i k' (512 * copy_base sb c' + ent_off (var sb) i + k' - (512 * copy_base sb c + ent_off (var sb) i)));
          [split; [destruct Hc; lia|apply Hc]|done|lia|done|lia|]. lia. }
      rewrite (ent_mask_ext _ _ _ i v He). unfold put_img. rewrite length_ent_mask.
      rewrite decide_True by lia. by rewrite decide_True by lia.
  - intros a Ha. rewrite Ho by (intros c' Hc'; apply Ha; lia).
    rewrite H1. apply put_img_out. rewrite length_ent_mask. apply Ha. lia.
Qed.

Lemma all_stored_nil d c i v : all_stored d c c i v d.
Proof. split; [lia|done]. Qed.

Lemma each_copy_wp (step : Z → cmd D Z) i v n c d :
  0 ≤ c → c + Z.of_nat n = fat_count sb → 0 ≤ i < cluster_count sb + 2 →
  (∀ c d, in_copy c i → wp (step (copy_base sb c)) (stored d (copy_base sb c) i v) d) →
  wp (each_copy sb step n c) (λ r d', r = ERR_SUCCESS ∧ all_stored d c (fat_count sb) i v d') d.
Proof.
  intros Hc Hn Hi Hstep. revert c d Hc Hn. induction n as [|n IH]; intros c d Hc Hn; cbn [each_copy].
  { wp_step. split; [done|]. replace c with (fat_count sb) by lia. apply all_stored_nil. }
  wp_step. rewrite copy_base_u32 by lia. assert (in_copy c i) as Hin by (split; lia).
  eapply wp_mono; [by apply Hstep|]. intros r d1 Hs. pose proof Hs as [-> _].
  on_success.
  eapply wp_mono; [apply IH; lia|]. intros r d2 [-> H2]. split; [done|].
  eapply all_stored_cons; [lia|done..].
Qed.

Lemma fat32_copies_wp i v n c w d :
  var sb = FAT_TYPE_32 → 0 ≤ c → c + Z.of_nat n = fat_count sb → 0 ≤ i < cluster_count sb + 2 →
  w mod 2 ^ 28 = v mod 2 ^ 28 →
  wp (fat32_copies sb (i * 4) n c w) (λ r d', r = ERR_SUCCESS ∧ all_stored d c (fat_count sb) i v d') d.
Proof.
  intros Hv Hc Hn Hi. revert c w d Hc Hn. induction n as [|n IH]; intros c w d Hc Hn Hw; cbn [fat32_copies].
  { wp_step. split; [done|]. replace c with (fat_count sb) by lia. apply all_stored_nil. }
  wp_step. rewrite copy_base_u32 by lia. assert (in_copy c i) as Hin by (split; lia).
  eapply wp_mono; [by apply fat32_copy_wp|]. intros [r w'] d1 [Hw' Hs]. pose proof Hs as [-> _].
  on_success.
  eapply wp_mono; [apply IH; [lia..|exact Hw']|]. intros r d2 [-> H2]. split; [done|].
  eapply all_stored_cons; [lia|done..].
Qed.

(** Entry [i] of copy [c]. *)
Definition entry_of d c i : Z := ent (var sb) (image d) (512 * copy_base sb c) i.

Lemma all_stored_entry d i v d' c j :
  all_stored d 0 (fat_count sb) i v d' → in_copy c i → in_copy c j → 0 ≤ v < 2 ^ ent_bits (var sb) →
  entry_of d' c j = if decide (j = i) then v else entry_of d c j.
Proof.
  intros [Hn Ho] Hi Hj Hv. unfold entry_of.
  rewrite <- (ent_put (var sb) (image d) (512 * copy_base sb c) i v j);
    [|apply image_byte|destruct Hi; lia|destruct Hj; lia|done].
  apply ent_ext. intros a Ha.
  set (A := 512 * copy_base sb c + ent_off (var sb) i).
  destruct (decide (A ≤ a < A + ent_len (var sb))).
  { replace a with (A + (a - A)) by lia. apply Hn; [apply Hi|lia]. }
  rewrite put_img_out by (rewrite length_ent_mask; done). apply Ho. intros c' Hc' Hr.
  pose proof (in_copy_off c j Hj) as Hoj. pose proof (in_copy_off c i Hi) as Hoi.
  destruct (decide (c' = c)) as [->|Hne]; [done|]. unfold copy_base in *. subst A. destruct G, Hi.
  destruct (decide (c < c')).
  - assert ((c + 1) * fat_sectors sb ≤ c' * fat_sectors sb) by (apply Z.mul_le_mono_nonneg_r; lia). lia.
  - assert ((c' + 1) * fat_sectors sb ≤ c * fat_sectors sb) by (apply Z.mul_le_mono_nonneg_r; lia). lia.
Qed.

(** The sectors of the tables. *)
Definition fat_area (s : Z) : Prop := fat_start sb ≤ s < fat_start sb + fat_count sb * fat_sectors sb.

Lemma all_stored_frame d i v d' s :
  0 ≤ i < cluster_count sb + 2 → all_stored d 0 (fat_count sb) i v d' → ¬ fat_area s →
  sec (bdev sb) d' s = sec (bdev sb) d s.
Proof.
  intros Hi [_ Ho] Hs. apply (sec_ext (bdev sb) (g_size sb G)). intros a Ha. apply Ho. intros c Hc Hr.
  pose proof (in_copy_off c i (conj Hc Hi)) as Hoi. apply Hs. unfold fat_area, copy_base in *. destruct G.
  assert ((c + 1) * fat_sectors sb ≤ fat_count sb * fat_sectors sb) by (apply Z.mul_le_mono_nonneg_r; lia).
  assert (0 ≤ c * fat_sectors sb) by (apply Z.mul_nonneg_nonneg; lia). lia.
Qed.

Lemma set_wp i v d :
  0 ≤ i < cluster_count sb + 2 → 0 ≤ v < 2 ^ ent_bits (var sb) →
  wp (set_fat_entry (var_ops (var sb)) sb i v)
     (λ r d', r = ERR_SUCCESS ∧ all_stored d 0 (fat_count sb) i v d') d.
Proof.
  intros Hi Hv. pose proof (g_entries sb G i Hi) as He. pose proof (g_count sb G). pose proof (g_fats sb G).
  destruct (var sb) eqn:Hvar; cbn [var_ops set_fat_entry fat12_ops fat16_ops fat32_ops ent_bits ent_off ent_len] in *;
    [unfold fat12_set|unfold fat16_set|unfold fat32_set];
    rewrite entry_limit_val, (g_bps sb G), fat_bytes_val; change (negb (512 =? 512)) with false;
    rewrite (proj2 (Z.leb_gt (cluster_count sb + 2) i)) by lia; cbn [orb].
  - rewrite (proj2 (Z.ltb_ge 0x0FFF v)) by lia. cbn [orb]. rewrite (u32_small (i + i / 2)), u32_small by lia.
    rewrite (proj2 (Z.leb_gt _ _)) by lia.
    apply each_copy_wp; [done|lia|done|]. intros c d1 Hin. by apply fat12_copy_wp.
  - rewrite (proj2 (Z.ltb_ge 0xFFFF v)) by lia. cbn [orb]. rewrite (u32_small (i * 2)), u32_small by lia.
    rewrite (proj2 (Z.leb_gt _ _)) by lia.
    apply each_copy_wp; [done|lia|done|]. intros c d1 Hin. by apply fat16_copy_wp.
  - rewrite (u32_small (i * 4)), u32_small by lia.
    rewrite (proj2 (Z.leb_gt _ _)) by lia.
    apply fat32_copies_wp; [done|done|lia|done|done].
Qed.

Lemma le16_image d lba k : 0 ≤ k → k + 2 ≤ 512 →
  le16 (sec (bdev sb) d lba) (Z.to_nat k) =
    Some (image d (512 * lba + k) + image d (512 * lba + k + 1) * 256).
Proof.
  intros. destruct (le16_spec (sec (bdev sb) d lba) (Z.to_nat k)) as (b0 & b1 & E0 & E1 & _ & _ & ->).
  { apply (sec_bytes (bdev sb)). }
  { rewrite (length_sec (bdev sb)); [lia|apply (g_size sb G)]. }
  rewrite sec_byte in E0 by lia. replace (Z.to_nat k + 1)%nat with (Z.to_nat (k + 1)) in E1 by lia.
  rewrite sec_byte in E1 by lia. rewrite Z.add_assoc in E1. by simplify_eq.
Qed.

Lemma le32_image d lba k : 0 ≤ k → k + 4 ≤ 512 →
  le32 (sec (bdev sb) d lba) (Z.to_nat k) =
    Some (image d (512 * lba + k) + image d (512 * lba + k + 1) * 2 ^ 8 +
          image d (512 * lba + k + 2) * 2 ^ 16 + image d (512 * lba + k + 3) * 2 ^ 24).
Proof.
  intros. destruct (le32_spec (sec (bdev sb) d lba) (Z.to_nat k))
    as (b0 & b1 & b2 & b3 & E0 & E1 & E2 & E3 & _ & _ & _ & _ & ->).
  { apply (sec_bytes (bdev sb)). }
  { rewrite (length_sec (bdev sb)); [lia|apply (g_size sb G)]. }
  rewrite sec_byte in E0 by lia. replace (Z.to_nat k + 1)%nat with (Z.to_nat (k + 1)) in E1 by lia.
  replace (Z.to_nat k + 2)%nat with (Z.to_nat (k + 2)) in E2 by lia.
  replace (Z.to_nat k + 3)%nat with (Z.to_nat (k + 3)) in E3 by lia.
  rewrite sec_byte in E1, E2, E3 by lia. rewrite Z.add_assoc in E1, E2, E3. by simplify_eq.
Qed.

Lemma entry_value d A i :
  (if negb (Z.land i 1 =? 0) then Z.shiftr (image d A + image d (A + 1) * 256) 4
   else Z.land (image d A + image d (A + 1) * 256) 0x0FFF) =
  (if decide (i mod 2 = 0) then (image d A + image d (A + 1) * 256) mod 4096
   else (image d A + image d (A + 1) * 256) / 16).
Proof.
  rewrite odd_test. rewrite Z.shiftr_div_pow2 by lia. change 0x0FFF with (Z.ones 12).
  rewrite Z.land_ones by lia. case_bool_decide; [by rewrite decide_True|by rewrite decide_False].
Qed.

Lemma get_wp i d :
  0 ≤ i < cluster_count sb + 2 →
  wp (get_fat_entry (var_ops (var sb)) sb i) (λ r d', r = (ERR_SUCCESS, entry_of d 0 i) ∧ d' = d) d.
Proof.
  intros Hi. pose proof (g_entries sb G i Hi) as He. pose proof (g_count sb G). pose proof (g_fats sb G).
  assert (in_copy 0 i) as Hin by (split; lia). pose proof (in_copy_off 0 i Hin) as [Ho _].
  destruct (copy_sector 0 (ent_off (var sb) i)) as [Hu Hl]; [lia|destruct (var sb); simpl in *; lia|].
  unfold entry_of. assert (copy_base sb 0 = fat_start sb) as Hb by (unfold copy_base; lia). rewrite Hb in *.
  destruct (var sb) eqn:Hvar;
    cbn [var_ops get_fat_entry fat12_ops fat16_ops fat32_ops ent_bits ent_off ent_len ent] in *;
    [unfold fat12_get, ent12|unfold fat16_get, ent16|unfold fat32_get, ent32];
    rewrite entry_limit_val, fat_bytes_val; rewrite (proj2 (Z.leb_gt (cluster_count sb + 2) i)) by lia.
  - rewrite (u32_small (i + i / 2)), u32_small by lia. rewrite (proj2 (Z.leb_gt _ _)) by lia.
    set (o := i + i / 2) in *. wp_step. apply cdiv_wp. rewrite Hu. wp_step. apply cmod_wp.
    wp_step. apply read_sector_wp; [done|]. cbn beta iota. on_success. wp_step. eapply wp_get_opt; [apply sec_byte; lia|]. rewrite (g_bps sb G).
    replace (512 * (fat_start sb + o / 512) + o mod 512) with (512 * fat_start sb + o) by lia.
    destruct (Z.ltb_spec (o mod 512 + 1) 512).
    + wp_step. eapply wp_get_opt; [apply (sec_byte d _ (o mod 512 + 1)); lia|].
      replace (512 * (fat_start sb + o / 512) + (o mod 512 + 1)) with (512 * fat_start sb + o + 1) by lia.
      rewrite low_high, entry_value. by wp_step.
    + destruct (copy_sector 0 (o + 1)) as [Hu' Hl']; [lia|lia|]. rewrite Hb in Hu', Hl'.
      replace (fat_start sb + (o + 1) / 512) with (fat_start sb + o / 512 + 1) in Hu', Hl' by lia. rewrite Hu'.
      wp_step. apply read_sector_wp; [done|]. cbn beta iota.
      on_success.
      wp_step. eapply wp_get_opt; [apply (sec_byte d _ 0); lia|].
      replace (512 * (fat_start sb + o / 512 + 1) + 0) with (512 * fat_start sb + o + 1) by lia.
      rewrite low_high, entry_value. by wp_step.
  - rewrite (u32_small (i * 2)), u32_small by lia. rewrite (proj2 (Z.leb_gt _ _)) by lia.
    wp_step. apply cdiv_wp. rewrite Hu. wp_step. apply read_sector_wp; [done|]. cbn beta iota.
    on_success. wp_step. apply cmod_wp.
    wp_step. eapply wp_get_opt; [apply le16_image; lia|].
    replace (512 * (fat_start sb + i * 2 / 512) + i * 2 mod 512) with (512 * fat_start sb + i * 2) by lia.
    by wp_step.
  - rewrite (u32_small (i * 4)), u32_small by lia. rewrite (proj2 (Z.leb_gt _ _)) by lia.
    wp_step. apply cdiv_wp. rewrite Hu. wp_step. apply read_sector_wp; [done|]. cbn beta iota.
    on_success. wp_step. apply cmod_wp.
    wp_step. eapply wp_get_opt; [apply le32_image; lia|].
    replace (512 * (fat_start sb + i * 4 / 512) + i * 4 mod 512) with (512 * fat_start sb + i * 4) by lia.
    change 0x0FFFFFFF with (Z.ones 28). rewrite Z.land_ones by lia. by wp_step.
Qed.

(** Every copy of the table holds the same entries. *)
Definition mirrored d : Prop :=
  ∀ c i, in_copy c i → entry_of d c i = entry_of d 0 i.

(** C26: on a volume of any of the three types, storing an entry succeeds and
    changes this entry and no other, in every copy of the table, even where
    12-bit neighbours share a byte; the entry is read back as stored; no sector
    outside the tables changes, and equal copies stay equal. *)
Theorem fat_entry_store i v d :
  0 ≤ i < cluster_count sb + 2 → 0 ≤ v < 2 ^ ent_bits (var sb) →
  wp (set_fat_entry (var_ops (var sb)) sb i v)
    (λ r d', r = ERR_SUCCESS ∧
      (∀ c j, in_copy c j → entry_of d' c j = if decide (j = i) then v else entry_of d c j) ∧
      (∀ j, 0 ≤ j < cluster_count sb + 2 →
        get_fat_entry (var_ops (var sb)) sb j d' =
          Some ((ERR_SUCCESS, if decide (j = i) then v else entry_of d 0 j), d')) ∧
      (∀ s, ¬ fat_area s → sec (bdev sb) d' s = sec (bdev sb) d s) ∧
      (mirrored d → mirrored d')) d.
Proof.
  intros Hi Hv. eapply wp_mono; [by apply set_wp|]. intros r d' [-> Hs].
  pose proof (g_fats sb G).
  assert (∀ c j, in_copy c j → entry_of d' c j = if decide (j = i) then v else entry_of d c j) as He.
  { intros c j Hj. apply (all_stored_entry d i v); [done| |done|done]. split; [apply Hj|done]. }
  assert (∀ j, 0 ≤ j < cluster_count sb + 2 → in_copy 0 j) as H0 by (intros; split; lia).
  split_and!; [done|done| | |].
  - intros j Hj. pose proof (get_wp j d' Hj) as Hg. apply wp_run in Hg as (a & s & Hg & -> & ->).
    by rewrite Hg, He by auto.
  - intros s. by apply (all_stored_frame d i v).
  - intros Hm c j Hj. rewrite !He by (try apply H0; apply Hj). case_decide; [done|by apply Hm].
Qed.
End table.

(** ** What the table promises to cluster chains *)

Class Table {D} (sb : fat_super D) `{HD : !Disk (bdev sb)} := {
  table_entry : D → Z → Z;
  table_range d i : 0 ≤ table_entry d i < 2 ^ ent_bits (var sb);
  table_get d i :
    0 ≤ i < cluster_count sb + 2 →
    get_fat_entry (var_ops (var sb)) sb i d = Some ((ERR_SUCCESS, table_entry d i), d);
  table_set d i v :
    0 ≤ i < cluster_count sb + 2 → 0 ≤ v < 2 ^ ent_bits (var sb) →
    ∃ d', set_fat_entry (var_ops (var sb)) sb i v d = Some (ERR_SUCCESS, d') ∧
      (∀ j, 0 ≤ j < cluster_count sb + 2 →
        table_entry d' j = if decide (j = i) then v else table_entry d j) ∧
      (∀ s, ¬ fat_area sb s → sec (bdev sb) d' s = sec (bdev sb) d s);
  table_local d d' j :
    0 ≤ j < cluster_count sb + 2 →
    (∀ s, fat_area sb s → sec (bdev sb) d' s = sec (bdev sb) d s) →
    table_entry d' j = table_entry d j
}.
#[global] Hint Mode Table + + - : typeclass_instances.
Arguments table_entry {D} sb {_ _} _ _ : rename.
Arguments table_range {D} sb {_ _} _ _ : rename.
Arguments table_get {D} sb {_ _} _ _ _ : rename.
Arguments table_set {D} sb {_ _} _ _ _ _ _ : rename.
Arguments table_local {D} sb {_ _} _ _ _ _ _ : rename.

(** The three variants keep the promise. *)
Definition fat_table {D} (sb : fat_super D) `{HD : !Disk (bdev sb)} (G : geom sb) : Table sb.
Proof.
  refine {| table_entry d i := entry_of sb d 0 i |}.
  - intros. apply ent_range. intros a. apply (img_byte (bdev sb)).
  - intros d i Hi. pose proof (get_wp sb G i d Hi) as Hg. apply wp_run in Hg as (a & s & Hg & -> & ->). done.
  - intros d i v Hi Hv. pose proof (set_wp sb G i v d Hi Hv) as Hs.
    apply wp_run in Hs as (a & d' & Hs & -> & Ha). pose proof (g_fats sb G). exists d'. split_and!; [done| |].
    + intros j Hj. apply (all_stored_entry sb G d i v); [done|split; lia..|done].
    + intros s. by apply (all_stored_frame sb G d i v).
  - intros d d' j Hj Ha. unfold entry_of. apply ent_ext. intros a Har. unfold img. rewrite Ha; [done|].
    pose proof (g_fats sb G). pose proof (in_copy_off sb G 0 j ltac:(split; lia)) as Ho.
    unfold fat_area, copy_base in *. destruct G. assert (0 ≤ (fat_count sb - 1) * fat_sectors sb) by
      (apply Z.mul_nonneg_nonneg; lia). lia.
Defined.

(** ** A run: a floppy of 64 sectors *)

Definition ex_bdev : blockdev ram := ram_disk (cstr "fd0") 64.
#[global] Instance ex_bdev_ok : Disk ex_bdev := ram_disk_ok (cstr "fd0") 64 ltac:(by_eval).
Definition ex_super (t : fat_type) : fat_super ram :=
  mk_super ex_bdev t t 512 1 1 2 16 64 0 1 0 1 3 4 0 64 1 1 60.
Definition ex_disk : ram := λ i, if decide (i = 1) then [0xF0; 0xFF; 0xFF; 0xFF; 0x4F; 0x12; 0x23] ++ replicate 505 0 else [].

Lemma ex_geom t : geom (ex_super t).
Proof.
  split; cbn [ex_super bytes_per_sector bdev sector_size fat_count fat_start fat_sectors sector_count cluster_count var];
    try (cbn; lia).
  intros i Hi. destruct t; cbn [ent_off ent_len]; lia.
Qed.

Lemma fat_entry_store_witness :
  let sb := ex_super FAT_TYPE_12 in
  ∃ d', fat12_set sb 3 0xABC ex_disk = Some (ERR_SUCCESS, d') ∧
    entry_of sb ex_disk 0 3 = 0x124 ∧ entry_of sb d' 0 3 = 0xABC ∧ entry_of sb d' 1 3 = 0xABC ∧
    entry_of sb d' 0 2 = entry_of sb ex_disk 0 2.
Proof.
  intros sb. pose proof (fat_entry_store sb (ex_geom _) 3 0xABC ex_disk ltac:(by_eval) ltac:(by_eval)) as Hw.
  apply (proj1 (wp_run _ _ _)) in Hw as (r & d' & Hrun & -> & He & _). exists d'.
  split; [exact Hrun|]. split; [vm_compute; reflexivity|].
  rewrite !He by (split; by_eval). repeat split; reflexivity.
Defined.

End FatTable.
