(* ===== verification/Fat.v ===== *)
(** * The FAT file system

    [src/kernel/fs/fat/fat.c]: mounting, cluster chains, directories and the
    operations of its vnodes.  A command runs on a [world]: the state of the
    disk and the outcomes of the allocations to come.  Vnodes are values:
    every lookup makes a fresh one, and an operation returns the vnode it
    changed.  Freed memory is not tracked. *)

From S2P Require Import Prelude Block Vnode FatTable.
Import Block Vnode FatTable.

Module Fat.

(** ** State *)

(** The hardware and the allocator: [w_malloc] lists whether the next calls
    of [malloc] succeed, and they do when it is exhausted. *)
Record world (D : Type) := mk_world { w_disk : D; w_malloc : list bool }.
Arguments mk_world {D}.
Arguments w_disk {D} _.
Arguments w_malloc {D} _.

(** [fat_node_t] *)
Record fat_node (D : Type) := mk_node {
  node_sb : fat_super D;
  first_cluster : Z;
  node_size : Z;
  node_attr : Z;
  dir_sector : Z;
  dir_offset : Z;
  has_dirent : bool
}.
Arguments mk_node {D}.
Arguments node_sb {D} _.
Arguments first_cluster {D} _.
Arguments node_size {D} _.
Arguments node_attr {D} _.
Arguments dir_sector {D} _.
Arguments dir_offset {D} _.
Arguments has_dirent {D} _.

(** [struct vnode] of this file system: its [ops] are the functions below and
    its [fs_data] is the node. *)
Record fat_vnode (D : Type) := mk_vnode {
  vn_type : vnode_type;
  vn_mount : positive;
  vn_refcnt : Z;
  vn_node : fat_node D
}.
Arguments mk_vnode {D}.
Arguments vn_type {D} _.
Arguments vn_mount {D} _.
Arguments vn_refcnt {D} _.
Arguments vn_node {D} _.

(** [struct fat_dirent]: the fields that the code uses, at their offsets. *)
Record fat_dirent := mk_dirent {
  de_name : list Z;
  de_attr : Z;
  fst_clus_hi : Z;
  fst_clus_lo : Z;
  file_size : Z
}.

Definition dirent_at (buf : list Z) (off : nat) : option fat_dirent :=
  attr ← buf !! (off + 11)%nat;
  hi ← le16 buf (off + 20);
  lo ← le16 buf (off + 26);
  size ← le32 buf (off + 28);
  Some (mk_dirent (slice off 11 buf) attr hi lo size).

Section ops.
Context {D : Type}.
Implicit Types (sb : fat_super D) (node : fat_node D) (vn dir : fat_vnode D).

Definition on_disk {A} (m : cmd D A) : cmd (world D) A :=
  czoom w_disk (λ d w, mk_world d (w_malloc w)) m.

(** Whether [malloc] returns memory. *)
Definition malloc : cmd (world D) bool := λ w,
  match w_malloc w with
  | [] => Some (true, w)
  | b :: l => Some (b, mk_world (w_disk w) l)
  end.

(** ** Helpers *)

Definition fat_read_sector sb (lba : Z) : cmd (world D) (Z * list Z) := on_disk (read_sector sb lba).
Definition fat_write_sector sb (lba : Z) (buf : list Z) : cmd (world D) Z := on_disk (write_sector sb lba buf).

Definition fat_cluster_to_lba sb (cluster : Z) : Z :=
  u32 (data_start sb + u32 (u32 (cluster - 2) * sectors_per_cluster sb)).

(** The guards that the two cluster transfers share. *)
Definition bad_cluster sb (cluster : Z) : bool := (cluster <? 2) || (entry_limit sb <=? cluster).
Definition bad_lba sb (lba : Z) : bool :=
  (volume_sectors sb <=? lba) || (volume_sectors sb - lba <? sectors_per_cluster sb).

Definition fat_read_cluster sb (cluster : Z) : cmd (world D) (Z * list Z) :=
  if bad_cluster sb cluster then mret (ERR_IO_ERROR, []) else
  let lba := fat_cluster_to_lba sb cluster in
  if bad_lba sb lba then mret (ERR_IO_ERROR, []) else
  on_disk (blockdev_read (Some (bdev sb)) lba (sectors_per_cluster sb) true).

Definition fat_write_cluster sb (cluster : Z) (buf : list Z) : cmd (world D) Z :=
  if bad_cluster sb cluster then mret ERR_IO_ERROR else
  let lba := fat_cluster_to_lba sb cluster in
  if bad_lba sb lba then mret ERR_IO_ERROR else
  on_disk (blockdev_write (Some (bdev sb)) lba (sectors_per_cluster sb) (Some buf)).

(** [sb->bytes_per_sector * sb->sectors_per_cluster] *)
Definition cluster_bytes sb : Z := u32 (bytes_per_sector sb * sectors_per_cluster sb).

(** ** Mounting *)

(** The boot sector's parameters; the computed fields are zero. *)
Definition parse_bpb (bd : blockdev D) (bpb : list Z) : option (fat_super D) :=
  bps ← le16 bpb 11;
  spc ← bpb !! 13%nat;
  reserved ← le16 bpb 14;
  nfats ← bpb !! 16%nat;
  roots ← le16 bpb 17;
  total16 ← le16 bpb 19;
  per_fat16 ← le16 bpb 22;
  total32 ← le32 bpb 32;
  per_fat32 ← le32 bpb 36;
  root ← le32 bpb 44;
  Some (mk_super bd FAT_TYPE_12 FAT_TYPE_12 bps spc reserved nfats roots total16 total32
          per_fat16 per_fat32 0 0 0 (Z.land root 0x0FFFFFFF) 0 0 0 0).

(** The superblock with its type and its computed layout. *)
Definition set_layout sb (t : fat_type) (fat_secs root_secs root_start data volume clusters : Z) : fat_super D :=
  mk_super (bdev sb) t t (bytes_per_sector sb) (sectors_per_cluster sb) (reserved_sectors sb)
    (fat_count sb) (root_entries sb) (total_sectors16 sb) (total_sectors32 sb)
    (sectors_per_fat16 sb) (sectors_per_fat32 sb) (reserved_sectors sb) root_start data
    (root_cluster sb) volume fat_secs root_secs clusters.

(** The values that [fat_probe_type] computes. *)
Definition probe_fat_sectors sb : Z :=
  if negb (sectors_per_fat16 sb =? 0) then sectors_per_fat16 sb else sectors_per_fat32 sb.
Definition probe_root_sectors sb : Z :=
  u32 (u32 (root_entries sb * 32) + bytes_per_sector sb - 1) / bytes_per_sector sb.
Definition probe_fats_area sb : Z := u32 (fat_count sb * probe_fat_sectors sb).
Definition probe_root_start sb : Z := u32 (reserved_sectors sb + probe_fats_area sb).
Definition probe_data_start sb : Z := u32 (probe_root_start sb + probe_root_sectors sb).
Definition probe_clusters sb (total_sectors : Z) : Z :=
  u32 (total_sectors - probe_data_start sb) / sectors_per_cluster sb.
Definition probe_type (clusters : Z) : fat_type :=
  if clusters <? 4085 then FAT_TYPE_12 else if clusters <? 65525 then FAT_TYPE_16 else FAT_TYPE_32.

(** Its tests, in the order of the code: the parameters, the size of the
    tables, the areas, the root directory of the type, the capacity of the
    tables. *)
Definition bad_parameters sb (total_sectors : Z) : bool :=
  (total_sectors =? 0) || negb (bytes_per_sector sb =? 512) ||
  negb (sector_size (bdev sb) =? bytes_per_sector sb) ||
  (sectors_per_cluster sb =? 0) ||
  negb (Z.land (sectors_per_cluster sb) (sectors_per_cluster sb - 1) =? 0) ||
  (128 <? sectors_per_cluster sb) || (reserved_sectors sb =? 0) ||
  (negb (fat_count sb =? 1) && negb (fat_count sb =? 2)).
Definition bad_table sb (total_sectors : Z) : bool :=
  (probe_fat_sectors sb =? 0) || (total_sectors <? probe_fat_sectors sb) ||
  (sector_count (bdev sb) <? total_sectors).
Definition bad_areas sb (total_sectors : Z) : bool :=
  negb (probe_fats_area sb / fat_count sb =? probe_fat_sectors sb) ||
  (total_sectors <? reserved_sectors sb) ||
  (total_sectors - reserved_sectors sb <? probe_fats_area sb) ||
  (total_sectors - reserved_sectors sb - probe_fats_area sb <? probe_root_sectors sb).
Definition bad_root sb (t : fat_type) (clusters : Z) : bool :=
  match t with
  | FAT_TYPE_32 =>
    negb (sectors_per_fat16 sb =? 0) || negb (root_entries sb =? 0) ||
    (root_cluster sb <? 2) || (u32 (clusters + 2) <=? root_cluster sb)
  | _ => (sectors_per_fat16 sb =? 0) || (root_entries sb =? 0)
  end.
Definition bad_capacity sb (t : fat_type) (clusters : Z) : bool :=
  match t with
  | FAT_TYPE_12 => u64 (u64 (probe_fat_sectors sb * bytes_per_sector sb) * 2) / 3 <? u64 (clusters + 2)
  | FAT_TYPE_16 => u64 (probe_fat_sectors sb * (bytes_per_sector sb / 2)) <? u64 (clusters + 2)
  | FAT_TYPE_32 => u64 (probe_fat_sectors sb * (bytes_per_sector sb / 4)) <? u64 (clusters + 2)
  end.

(** The status, or the superblock with its layout and its type; [var] is set
    by the caller's [switch] from the type.  After an error the caller frees
    the superblock. *)
Definition fat_probe_type sb (total_sectors : Z) : Z + fat_super D :=
  if bad_parameters sb total_sectors then inl ERR_NOT_SUPPORTED else
  if bad_table sb total_sectors then inl ERR_IO_ERROR else
  if bad_areas sb total_sectors then inl ERR_IO_ERROR else
  let clusters := probe_clusters sb total_sectors in
  if clusters =? 0 then inl ERR_IO_ERROR else
  let t := probe_type clusters in
  if bad_root sb t clusters then inl ERR_IO_ERROR else
  if bad_capacity sb t clusters then inl ERR_IO_ERROR else
  inr (set_layout sb t (probe_fat_sectors sb) (probe_root_sectors sb) (probe_root_start sb)
         (probe_data_start sb) total_sectors clusters).

(** A fresh vnode needs two allocations; a failed second one frees the first. *)
Definition fat_alloc_vnode (mp : positive) sb (first size attr : Z) : cmd (world D) (option (fat_vnode D)) :=
  ok ← malloc;
  if negb ok then mret None else
  ok ← malloc;
  if negb ok then mret None else
  mret (Some (mk_vnode (if negb (Z.land attr 0x10 =? 0) then VNODE_TYPE_DIR else VNODE_TYPE_FILE) mp 1
                (mk_node sb first size attr 0 0 false))).

(** [dev] is [blockdev_lookup(mp->source)].  On success the result carries
    what [mp->fs_data] and [mp->root_vnode] are set to. *)
Definition fat_mount_fn (mp : positive) (dev : option (blockdev D))
    : cmd (world D) (Z * option (fat_super D * fat_vnode D)) :=
  match dev with
  | None => mret (ERR_DEVICE_NOT_FOUND, None)
  | Some bd =>
    ok ← malloc;
    if negb ok then mret (ERR_OUT_OF_MEMORY, None) else
    '(result, bpb) ← on_disk (blockdev_read (Some bd) 0 1 true);
    if negb (result =? ERR_SUCCESS) then mret (result, None) else
    s0 ← cget_opt (bpb !! 510%nat);
    s1 ← cget_opt (bpb !! 511%nat);
    if negb (s0 =? 0x55) || negb (s1 =? 0xAA) then mret (ERR_IO_ERROR, None) else
    sb ← cget_opt (parse_bpb bd bpb);
    let total_sectors :=
      if negb (total_sectors16 sb =? 0) then total_sectors16 sb else total_sectors32 sb in
    match fat_probe_type sb total_sectors with
    | inl result => mret (result, None)
    | inr sb =>
      root ←
        (if decide (type sb = FAT_TYPE_32)
         then fat_alloc_vnode mp sb (root_cluster sb) 0 0x10
         else fat_alloc_vnode mp sb 0 (u32 (root_entries sb * 32)) 0x10);
      match root with
      | None => mret (ERR_OUT_OF_MEMORY, None)
      | Some root => mret (ERR_SUCCESS, Some (sb, root))
      end
    end
  end.

(** [vnode_unref]: at zero references the vnode and its node are freed. *)
Definition vnode_unref vn : fat_vnode D :=
  mk_vnode (vn_type vn) (vn_mount vn) (if vn_refcnt vn =? 0 then 0 else vn_refcnt vn - 1) (vn_node vn).

(** The fields of the mount that unmounting changes: [root_vnode] and
    [fs_data]; [None] is NULL. *)
Definition fat_unmount_fn (mp : option (option (fat_vnode D) * option (fat_super D)))
    : Z * option (option (fat_vnode D) * option (fat_super D)) :=
  match mp with
  | None => (ERR_INVALID_ARGUMENT, None)
  | Some (root, sb) =>
    if (match root with Some vn => 1 <? vn_refcnt vn | None => false end) then (ERR_BUSY, mp)
    else (ERR_SUCCESS, Some (vnode_unref <$> root, None))
  end.
Definition fat_sync_fn : Z := 0.

(** ** Directories *)

(** The bytes of a field up to its first space, at most [n] of them. *)
Fixpoint until_space (n : nat) (l : list Z) : list Z :=
  match n, l with
  | S n, c :: l => if c =? 0x20 then [] else c :: until_space n l
  | _, _ => []
  end.

Definition fat_name_to_str (name : list Z) : cstring :=
  until_nul
    (until_space 8 name ++
     (if default 0x20 (name !! 8%nat) =? 0x20 then [] else cstr "." ++ until_space 3 (drop 8 name))).

Definition fat_next_cluster sb (cluster : Z) : cmd (world D) (Z * Z) :=
  '(result, value) ← on_disk (get_fat_entry (var_ops (var sb)) sb cluster);
  if negb (result =? ERR_SUCCESS) then mret (result, 0) else
  if is_eoc (D := D) (var_ops (var sb)) sb value then mret (ERR_SUCCESS, 0) else
  if (value <? 2) || (entry_limit sb <=? value) then mret (ERR_IO_ERROR, 0)
  else mret (ERR_SUCCESS, value).

(** Callbacks: the entry, its name, its sector and its offset there; the
    context is threaded through. *)
Definition dir_cb (C : Type) : Type := fat_dirent → cstring → Z → Z → C → cmd (world D) (bool * C).

(** [sizeof(struct fat_dirent)] *)
Definition DIRENT_SIZE : nat := 32.

(** The loop over the [n] slots of a buffer from offset [off] on: [true] when
    the directory has ended or the callback has stopped.  [limit] bounds the
    entries of the fixed root directory, counted in [entries]; [place] is the
    sector and the offset of a slot. *)
Fixpoint scan_slots {C} (cb : dir_cb C) (limit : option Z) (place : Z → Z * Z) (buf : list Z)
    (n off : nat) (entries : Z) (ctx : C) : cmd (world D) (bool * Z * C) :=
  match n with
  | O => mret (false, entries, ctx)
  | S n =>
    if (match limit with Some m => m <=? entries | None => false end) then mret (true, entries, ctx) else
    let entries := entries + 1 in
    de ← cget_opt (dirent_at buf off);
    let first := default 0 (head (de_name de)) in
    if first =? 0x00 then mret (true, entries, ctx) else
    if (first =? 0xE5) || (de_attr de =? 0x0F) || negb (Z.land (de_attr de) 0x08 =? 0)
    then scan_slots cb limit place buf n (off + DIRENT_SIZE) entries ctx else
    let '(sector, offset) := place (Z.of_nat off) in
    '(stop, ctx) ← cb de (fat_name_to_str (de_name de)) sector offset ctx;
    if (stop : bool) then mret (true, entries, ctx)
    else scan_slots cb limit place buf n (off + DIRENT_SIZE) entries ctx
  end.

(** The number of iterations of [for (off = 0; off < bytes; off += 32)]. *)
Definition slots (bytes : Z) : nat := Z.to_nat ((bytes + 31) / 32).

(** The loop over the [n] sectors of the fixed root directory from [s] on. *)
Fixpoint iter_root {C} sb (cb : dir_cb C) (n : nat) (s entries : Z) (ctx : C) : cmd (world D) (Z * C) :=
  match n with
  | O => mret (ERR_SUCCESS, ctx)
  | S n =>
    let lba := u32 (root_dir_start sb + s) in
    '(result, buf) ← fat_read_sector sb lba;
    if negb (result =? ERR_SUCCESS) then mret (result, ctx) else
    '(stop, entries, ctx) ← scan_slots cb (Some (root_entries sb)) (λ off, (lba, u16 off)) buf
                              (slots (bytes_per_sector sb)) 0 entries ctx;
    if (stop : bool) then mret (ERR_SUCCESS, ctx)
    else iter_root sb cb n (s + 1) entries ctx
  end.

(** The loop over the clusters of a directory; [n] is what is left of
    [cluster_count]. *)
Fixpoint iter_chain {C} sb (cb : dir_cb C) (n : nat) (cluster : Z) (ctx : C) : cmd (world D) (Z * C) :=
  match n with
  | O => mret (ERR_IO_ERROR, ctx)
  | S n =>
    '(result, buf) ← fat_read_cluster sb cluster;
    if negb (result =? ERR_SUCCESS) then mret (result, ctx) else
    let place off := (u32 (fat_cluster_to_lba sb cluster + off / bytes_per_sector sb),
                      u16 (off mod bytes_per_sector sb)) in
    '(stop, _, ctx) ← scan_slots cb None place buf (slots (cluster_bytes sb)) 0 0 ctx;
    if (stop : bool) then mret (ERR_SUCCESS, ctx) else
    '(result, next) ← fat_next_cluster sb cluster;
    if negb (result =? ERR_SUCCESS) then mret (result, ctx) else
    if next =? 0 then mret (ERR_SUCCESS, ctx)
    else iter_chain sb cb n next ctx
  end.

Definition fixed_root sb (first : Z) : bool :=
  (first =? 0) && bool_decide (type sb = FAT_TYPE_12 ∨ type sb = FAT_TYPE_16).

Definition fat_iter_dir {C} sb node (cb : dir_cb C) (ctx : C) : cmd (world D) (Z * C) :=
  ok ← malloc;
  if negb ok then mret (ERR_OUT_OF_MEMORY, ctx) else
  if fixed_root sb (first_cluster node)
  then iter_root sb cb (Z.to_nat (root_dir_sectors sb)) 0 0 ctx
  else iter_chain sb cb (Z.to_nat (cluster_count sb)) (first_cluster node) ctx.

(** [struct lookup_ctx]: [*out] and [error]. *)
Definition lookup_ctx : Type := option (fat_vnode D) * Z.

Definition set_dirent node (sector offset : Z) : fat_node D :=
  mk_node (node_sb node) (first_cluster node) (node_size node) (node_attr node) sector offset true.
Definition set_vnode_node vn node : fat_vnode D := mk_vnode (vn_type vn) (vn_mount vn) (vn_refcnt vn) node.

Definition fat_lookup_cb (want : cstring) dir : dir_cb lookup_ctx := λ de name sector offset ctx,
  if negb (strcaseeq name want) then mret (false, ctx) else
  let sb := node_sb (vn_node dir) in
  let clus := Z.lor (u32 (Z.shiftl (fst_clus_hi de) 16)) (fst_clus_lo de) in
  vn ← fat_alloc_vnode (vn_mount dir) sb clus (file_size de) (de_attr de);
  match vn with
  | None => mret (true, (ctx.1, ERR_OUT_OF_MEMORY))
  | Some vn => mret (true, (Some (set_vnode_node vn (set_dirent (vn_node vn) sector offset)), ctx.2))
  end.

Definition fat_lookup_vn (dir : option (fat_vnode D)) (name : option cstring)
    : cmd (world D) (Z * option (fat_vnode D)) :=
  match dir, name with
  | Some dir, Some name =>
    if negb (bool_decide (vn_type dir = VNODE_TYPE_DIR)) then mret (ERR_INVALID_ARGUMENT, None) else
    '(result, ctx) ← fat_iter_dir (node_sb (vn_node dir)) (vn_node dir) (fat_lookup_cb name dir) (None, ERR_SUCCESS);
    if negb (ctx.2 =? ERR_SUCCESS) then mret (ctx.2, ctx.1) else
    if negb (result =? ERR_SUCCESS) then mret (result, ctx.1) else
    match ctx.1 with
    | Some vn => mret (ERR_SUCCESS, Some vn)
    | None => mret (ERR_NOT_FOUND, None)
    end
  | _, _ => mret (ERR_INVALID_ARGUMENT, None)
  end.

(** [struct readdir_ctx]: [cur] and what [*name_out] and [*type_out] are. *)
Definition readdir_ctx : Type := Z * option (cstring * vnode_type).

Definition fat_readdir_cb (want : Z) : dir_cb readdir_ctx := λ de name _ _ ctx,
  if ctx.1 =? want then
    mret (true, (ctx.1, Some (name, if negb (Z.land (de_attr de) 0x10 =? 0) then VNODE_TYPE_DIR else VNODE_TYPE_FILE)))
  else mret (false, (u32 (ctx.1 + 1), ctx.2)).

Definition fat_readdir_vn (vn : option (fat_vnode D)) (index : Z)
    : cmd (world D) (Z * option (cstring * vnode_type)) :=
  match vn with
  | None => mret (ERR_INVALID_ARGUMENT, None)
  | Some vn =>
    if negb (bool_decide (vn_type vn = VNODE_TYPE_DIR)) then mret (ERR_INVALID_ARGUMENT, None) else
    '(result, ctx) ← fat_iter_dir (node_sb (vn_node vn)) (vn_node vn) (fat_readdir_cb index) (0, None);
    if negb (result =? ERR_SUCCESS) then mret (result, ctx.2) else
    match ctx.2 with
    | Some e => mret (ERR_SUCCESS, Some e)
    | None => mret (ERR_NOT_FOUND, None)
    end
  end.

(** ** Reading *)

(** The loop that skips clusters. *)
Fixpoint skip_clusters sb (n : nat) (cluster : Z) : cmd (world D) (Z * Z) :=
  match n with
  | O => mret (ERR_SUCCESS, cluster)
  | S n =>
    '(result, cluster) ← fat_next_cluster sb cluster;
    if negb (result =? ERR_SUCCESS) then mret (result, cluster) else
    if cluster =? 0 then mret (ERR_IO_ERROR, cluster)
    else skip_clusters sb n cluster
  end.

(** The loop that copies: [done] is what was copied so far, [n] what is left
    of [cluster_count + 1] visits. *)
Fixpoint read_clusters sb (n : nat) (cluster cluster_off len : Z) (done : list Z) : cmd (world D) (Z * list Z) :=
  match n with
  | O => mret (ERR_SUCCESS, done)
  | S n =>
    if negb (Z.of_nat (length done) <? len) then mret (ERR_SUCCESS, done) else
    '(result, cluster_buf) ← fat_read_cluster sb cluster;
    if negb (result =? ERR_SUCCESS) then mret (result, done) else
    let to_copy := Z.min (cluster_bytes sb - cluster_off) (len - Z.of_nat (length done)) in
    let done := done ++ slice (Z.to_nat cluster_off) (Z.to_nat to_copy) cluster_buf in
    if Z.of_nat (length done) <? len then
      '(result, cluster) ← fat_next_cluster sb cluster;
      if negb (result =? ERR_SUCCESS) then mret (result, done) else
      if cluster =? 0 then mret (ERR_IO_ERROR, done)
      else read_clusters sb n cluster 0 len done
    else read_clusters sb n cluster 0 len done
  end.

(** The status and the bytes written to [buf]; [*out] is their number.
    [buf] tells whether the buffer pointer is non-NULL. *)
Definition fat_read_vn (vn : option (fat_vnode D)) (buf : bool) (off len : Z) : cmd (world D) (Z * list Z) :=
  match vn with
  | None => mret (ERR_INVALID_ARGUMENT, [])
  | Some vn =>
    if negb buf then mret (ERR_INVALID_ARGUMENT, []) else
    let node := vn_node vn in
    let sb := node_sb node in
    if negb (bool_decide (vn_type vn = VNODE_TYPE_FILE)) then mret (ERR_INVALID_ARGUMENT, []) else
    if (node_size node <=? off) || (len =? 0) then mret (ERR_SUCCESS, []) else
    let len := if node_size node - off <? len then node_size node - off else len in
    ok ← malloc;
    if negb ok then mret (ERR_OUT_OF_MEMORY, []) else
    skip ← cdiv off (cluster_bytes sb);
    cluster_off ← cmod off (cluster_bytes sb);
    if (first_cluster node =? 0) && negb (node_size node =? 0) then mret (ERR_IO_ERROR, []) else
    '(result, cluster) ← skip_clusters sb (Z.to_nat skip) (first_cluster node);
    '(result, done) ←
      (if negb (result =? ERR_SUCCESS) then mret (result, [])
       else read_clusters sb (Z.to_nat (cluster_count sb + 1)) cluster cluster_off len []);
    if (result =? ERR_SUCCESS) && negb (Z.of_nat (length done) =? len)
    then mret (ERR_IO_ERROR, done) else mret (result, done)
  end.

(** ** Chains *)

Definition fat_eoc_marker sb : Z :=
  match type sb with FAT_TYPE_12 => 0x0FFF | FAT_TYPE_16 => 0xFFFF | FAT_TYPE_32 => 0x0FFFFFFF end.

Definition fat_set_entry sb (index value : Z) : cmd (world D) Z :=
  on_disk (set_fat_entry (var_ops (var sb)) sb index value).

(** The search for a free entry from [cluster] on; [n] entries are left. *)
Fixpoint alloc_from sb (n : nat) (cluster : Z) : cmd (world D) (Z * Z) :=
  match n with
  | O => mret (ERR_NO_SPACE_LEFT, 0)
  | S n =>
    '(result, value) ← on_disk (get_fat_entry (var_ops (var sb)) sb cluster);
    if negb (result =? ERR_SUCCESS) then mret (result, 0) else
    if negb (value =? 0) then alloc_from sb n (cluster + 1) else
    result ← fat_write_cluster sb cluster (replicate (Z.to_nat (cluster_bytes sb)) 0);
    result ← (if result =? ERR_SUCCESS then fat_set_entry sb cluster (fat_eoc_marker sb) else mret result);
    if negb (result =? ERR_SUCCESS) then mret (result, 0) else mret (ERR_SUCCESS, cluster)
  end.

Definition fat_alloc_cluster sb : cmd (world D) (Z * Z) :=
  ok ← malloc;
  if negb ok then mret (ERR_OUT_OF_MEMORY, 0)
  else alloc_from sb (Z.to_nat (entry_limit sb - 2)) 2.

Fixpoint free_from sb (n : nat) (cluster : Z) : cmd (world D) Z :=
  match n with
  | O => mret (if negb (cluster =? 0) then ERR_IO_ERROR else ERR_SUCCESS)
  | S n =>
    if cluster =? 0 then mret ERR_SUCCESS else
    '(result, next) ← fat_next_cluster sb cluster;
    if negb (result =? ERR_SUCCESS) then mret result else
    result ← fat_set_entry sb cluster 0;
    if negb (result =? ERR_SUCCESS) then mret result else free_from sb n next
  end.
Definition fat_free_chain sb (cluster : Z) : cmd (world D) Z :=
  free_from sb (Z.to_nat (cluster_count sb)) cluster.

(** The walk along the chain that appends clusters where it ends. *)
Fixpoint extend_from sb (n : nat) (cluster : Z) : cmd (world D) (Z * Z) :=
  match n with
  | O => mret (ERR_SUCCESS, cluster)
  | S n =>
    '(result, next) ← fat_next_cluster sb cluster;
    if negb (result =? ERR_SUCCESS) then mret (result, 0) else
    if negb (next =? 0) then extend_from sb n next else
    '(result, next) ← fat_alloc_cluster sb;
    if negb (result =? ERR_SUCCESS) then mret (result, 0) else
    result ← fat_set_entry sb cluster next;
    if negb (result =? ERR_SUCCESS) then fat_free_chain sb next;; mret (result, 0)
    else extend_from sb n next
  end.

Definition set_first node (cluster : Z) : fat_node D :=
  mk_node (node_sb node) cluster (node_size node) (node_attr node) (dir_sector node) (dir_offset node) (has_dirent node).
Definition set_size node (size : Z) : fat_node D :=
  mk_node (node_sb node) (first_cluster node) size (node_attr node) (dir_sector node) (dir_offset node) (has_dirent node).

(** The status, the cluster and the node, whose [first_cluster] may be new. *)
Definition fat_ensure_cluster node (index : Z) : cmd (world D) (Z * Z * fat_node D) :=
  let sb := node_sb node in
  '(result, node) ←
    (if first_cluster node =? 0 then
       '(result, cluster) ← fat_alloc_cluster sb;
       if negb (result =? ERR_SUCCESS) then mret (result, node) else mret (result, set_first node cluster)
     else mret (ERR_SUCCESS, node));
  if negb (result =? ERR_SUCCESS) then mret (result, 0, node) else
  '(result, cluster) ← extend_from sb (Z.to_nat index) (first_cluster node);
  mret (result, cluster, node).

(** Storing the chain and the size in a directory entry. *)
Definition put_clusters (first size : Z) (off : nat) (sector : list Z) : list Z :=
  splice (off + 28) (put32 size)
    (splice (off + 26) (put16 (u16 first)) (splice (off + 20) (put16 (u16 (Z.shiftr first 16))) sector)).

Definition fat_update_dirent node : cmd (world D) Z :=
  if negb (has_dirent node) then mret ERR_SUCCESS else
  if bytes_per_sector (node_sb node) <? dir_offset node + Z.of_nat DIRENT_SIZE then mret ERR_IO_ERROR else
  '(result, sector) ← fat_read_sector (node_sb node) (dir_sector node);
  if negb (result =? ERR_SUCCESS) then mret result else
  cget_opt (dirent_at sector (Z.to_nat (dir_offset node)));;
  fat_write_sector (node_sb node) (dir_sector node)
    (put_clusters (first_cluster node) (node_size node) (Z.to_nat (dir_offset node)) sector).

(** ** Creating *)

(** The first free slot of a sector buffer: [inl true] when the entries of
    the fixed root are used up, [inr off] when a slot was found. *)
Fixpoint free_slot (limit : option Z) (buf : list Z) (n off : nat) (entries : Z) : cmd (world D) (option bool * nat * Z) :=
  match n with
  | O => mret (Some false, 0%nat, entries)
  | S n =>
    if (match limit with Some m => m <=? entries | None => false end) then mret (Some true, 0%nat, entries) else
    first ← cget_opt (buf !! off);
    if (first =? 0) || (first =? 0xE5) then mret (None, off, entries + 1)
    else free_slot limit buf n (off + DIRENT_SIZE) (entries + 1)
  end.

(** The loop over the sectors of the fixed root directory. *)
Fixpoint free_in_root sb (n : nat) (s entries : Z) : cmd (world D) (Z * Z * Z) :=
  match n with
  | O => mret (ERR_NO_SPACE_LEFT, 0, 0)
  | S n =>
    let lba := u32 (root_dir_start sb + s) in
    '(result, buf) ← fat_read_sector sb lba;
    if negb (result =? ERR_SUCCESS) then mret (result, 0, 0) else
    '(stop, off, entries) ← free_slot (Some (root_entries sb)) buf (Z.to_nat (bytes_per_sector sb / 32)) 0 entries;
    match (stop : option bool) with
    | None => mret (ERR_SUCCESS, lba, u16 (Z.of_nat off))
    | Some true => mret (ERR_NO_SPACE_LEFT, 0, 0)
    | Some false => free_in_root sb n (s + 1) entries
    end
  end.

(** The loop over the sectors of a cluster: [None] when none has a slot. *)
Fixpoint free_in_cluster sb (first_lba : Z) (n : nat) (s : Z) : cmd (world D) (option (Z * Z * Z)) :=
  match n with
  | O => mret None
  | S n =>
    '(result, buf) ← fat_read_sector sb (u32 (first_lba + s));
    if negb (result =? ERR_SUCCESS) then mret (Some (result, 0, 0)) else
    '(stop, off, _) ← free_slot None buf (Z.to_nat (bytes_per_sector sb / 32)) 0 0;
    match (stop : option bool) with
    | None => mret (Some (ERR_SUCCESS, u32 (first_lba + s), u16 (Z.of_nat off)))
    | Some _ => free_in_cluster sb first_lba n (s + 1)
    end
  end.

(** The loop over the clusters of a directory, extended by one at its end. *)
Fixpoint free_in_chain sb (n : nat) (cluster : Z) : cmd (world D) (Z * Z * Z) :=
  match n with
  | O => mret (ERR_IO_ERROR, 0, 0)
  | S n =>
    found ← free_in_cluster sb (fat_cluster_to_lba sb cluster) (Z.to_nat (sectors_per_cluster sb)) 0;
    match found with
    | Some r => mret r
    | None =>
      '(result, next) ← fat_next_cluster sb cluster;
      if negb (result =? ERR_SUCCESS) then mret (result, 0, 0) else
      if next =? 0 then
        '(result, new_cluster) ← fat_alloc_cluster sb;
        if negb (result =? ERR_SUCCESS) then mret (result, 0, 0) else
        result ← fat_set_entry sb cluster new_cluster;
        if negb (result =? ERR_SUCCESS) then fat_free_chain sb new_cluster;; mret (result, 0, 0)
        else mret (ERR_SUCCESS, fat_cluster_to_lba sb new_cluster, 0)
      else free_in_chain sb n next
    end
  end.

(** The status, [*sector_out] and [*offset_out]. *)
Definition fat_find_free_slot sb (dir : fat_node D) : cmd (world D) (Z * Z * Z) :=
  if fixed_root sb (first_cluster dir) then free_in_root sb (Z.to_nat (root_dir_sectors sb)) 0 0 else
  if first_cluster dir =? 0 then mret (ERR_IO_ERROR, 0, 0)
  else free_in_chain sb (Z.to_nat (cluster_count sb)) (first_cluster dir).
End ops.

(** The characters that a short name may not hold. *)
Definition bad_char (c : Z) : bool :=
  (c <=? 0x20) || (0x7F <=? c) || bool_decide (c ∈ cstr "/\:*?<>|" ++ [0x22]).
Definition toupper_ascii (c : Z) : Z := if (97 <=? c) && (c <=? 122) then c - 97 + 65 else c.

(** The loop over the name: the lengths of the base and the extension and
    whether the dot was seen. *)
Fixpoint short_name_from (name : cstring) (base_len ext_len : nat) (in_ext : bool) (out : list Z) : Z * list Z :=
  match name with
  | [] => (ERR_SUCCESS, out)
  | c :: name =>
    if c =? 46 then
      if in_ext || (base_len =? 0)%nat then (ERR_INVALID_ARGUMENT, out)
      else short_name_from name base_len ext_len true out
    else if bad_char c then (ERR_INVALID_ARGUMENT, out)
    else
      let c := toupper_ascii c in
      if in_ext then
        if (3 <? S ext_len)%nat then (ERR_NAME_TOO_LONG, out)
        else short_name_from name base_len (S ext_len) in_ext (<[(8 + ext_len)%nat := c]> out)
      else
        if (8 <? S base_len)%nat then (ERR_NAME_TOO_LONG, out)
        else short_name_from name (S base_len) ext_len in_ext (<[base_len := c]> out)
  end.
Definition fat_make_short_name (name : option cstring) : Z * list Z :=
  match name with
  | None | Some [] => (ERR_INVALID_ARGUMENT, [])
  | Some name => short_name_from name 0 0 false (replicate 11 0x20)
  end.

Section write.
Context {D : Type}.
Implicit Types (sb : fat_super D) (node : fat_node D) (vn dir : fat_vnode D).

(** The loop of [fat_truncate_vn] that clears the bytes from [cursor] to the
    new size; each turn clears at least one, so [n] turns suffice for [n]
    bytes. *)
Fixpoint zero_from (n : nat) (new_size cursor : Z) node : cmd (world D) (Z * fat_node D) :=
  if negb (cursor <? new_size) then mret (ERR_SUCCESS, node) else
  match n with
  | O => cundef
  | S n =>
    let sb := node_sb node in
    index ← cdiv cursor (cluster_bytes sb);
    '(result, cluster, node) ← fat_ensure_cluster node index;
    if negb (result =? ERR_SUCCESS) then mret (result, node) else
    cluster_offset ← cmod cursor (cluster_bytes sb);
    let amount := Z.min (cluster_bytes sb - cluster_offset) (new_size - cursor) in
    result ←
      (if (cluster_offset =? 0) && (amount =? cluster_bytes sb)
       then fat_write_cluster sb cluster (replicate (Z.to_nat (cluster_bytes sb)) 0)
       else
         ok ← malloc;
         if negb ok then mret ERR_OUT_OF_MEMORY else
         '(result, data) ← fat_read_cluster sb cluster;
         if negb (result =? ERR_SUCCESS) then mret result else
         fat_write_cluster sb cluster (splice (Z.to_nat cluster_offset) (replicate (Z.to_nat amount) 0) data));
    if negb (result =? ERR_SUCCESS) then mret (result, node)
    else zero_from n new_size (cursor + amount) node
  end.

(** The shrinking branch: the node, or the status of the early return. *)
Definition truncate_shrink node (new_size : Z) : cmd (world D) (Z * fat_node D) :=
  let sb := node_sb node in
  keep_count ← (if negb (new_size =? 0) then cdiv (u32 (u32 (new_size + cluster_bytes sb) - 1)) (cluster_bytes sb) else mret 0);
  if keep_count =? 0 then
    result ← fat_free_chain sb (first_cluster node);
    if negb (result =? ERR_SUCCESS) then mret (result, node) else mret (ERR_SUCCESS, set_first node 0)
  else
    '(result, last, node) ← fat_ensure_cluster node (keep_count - 1);
    if negb (result =? ERR_SUCCESS) then mret (result, node) else
    '(result, tail) ← fat_next_cluster sb last;
    if negb (result =? ERR_SUCCESS) then mret (result, node) else
    result ← fat_set_entry sb last (fat_eoc_marker sb);
    if negb (result =? ERR_SUCCESS) then mret (result, node) else
    result ← fat_free_chain sb tail;
    mret (result, node).

(** The growing branch; [new_size] is positive there. *)
Definition truncate_grow node (new_size : Z) : cmd (world D) (Z * fat_node D) :=
  let sb := node_sb node in
  let old_size := node_size node in
  index ← cdiv (new_size - 1) (cluster_bytes sb);
  '(result, _, node) ← fat_ensure_cluster node index;
  if negb (result =? ERR_SUCCESS) then mret (result, node) else
  ok ← malloc;
  if negb ok then mret (ERR_OUT_OF_MEMORY, node) else
  zero_from (Z.to_nat (new_size - old_size)) new_size old_size node.

Definition fat_truncate_vn (vn : option (fat_vnode D)) (new_size : Z) : cmd (world D) (Z * option (fat_vnode D)) :=
  match vn with
  | None => mret (ERR_INVALID_ARGUMENT, None)
  | Some v =>
    if negb (bool_decide (vn_type v = VNODE_TYPE_FILE)) || (0xFFFFFFFF <? new_size)
    then mret (ERR_INVALID_ARGUMENT, vn) else
    '(result, node) ←
      (if new_size <? node_size (vn_node v) then truncate_shrink (vn_node v) new_size
       else if node_size (vn_node v) <? new_size then truncate_grow (vn_node v) new_size
       else mret (ERR_SUCCESS, vn_node v));
    if negb (result =? ERR_SUCCESS) then mret (result, Some (set_vnode_node v node)) else
    let node := set_size node new_size in
    result ← fat_update_dirent node;
    mret (result, Some (set_vnode_node v node))
  end.

(** The loop of [fat_write_vn]: [done] bytes of [buf] were written; each turn
    writes at least one, so [n] turns suffice for [n] bytes. *)
Fixpoint write_from (n : nat) (buf : list Z) (off done : Z) node : cmd (world D) (Z * Z * fat_node D) :=
  let len := Z.of_nat (length buf) in
  if negb (done <? len) then mret (ERR_SUCCESS, done, node) else
  match n with
  | O => cundef
  | S n =>
    let sb := node_sb node in
    let file_offset := u32 (off + done) in
    index ← cdiv file_offset (cluster_bytes sb);
    '(result, cluster, node) ← fat_ensure_cluster node index;
    if negb (result =? ERR_SUCCESS) then mret (result, done, node) else
    '(result, cluster_buf) ← fat_read_cluster sb cluster;
    if negb (result =? ERR_SUCCESS) then mret (result, done, node) else
    cluster_offset ← cmod file_offset (cluster_bytes sb);
    let amount := Z.min (cluster_bytes sb - cluster_offset) (len - done) in
    result ← fat_write_cluster sb cluster
               (splice (Z.to_nat cluster_offset) (slice (Z.to_nat done) (Z.to_nat amount) buf) cluster_buf);
    if negb (result =? ERR_SUCCESS) then mret (result, done, node)
    else write_from n buf off (done + amount) node
  end.

(** The status, [*out] and the vnode; [len] is the length of [buf], and a NULL
    [buf] is [None]. *)
Definition fat_write_vn (vn : option (fat_vnode D)) (buf : option (list Z)) (off : Z)
    : cmd (world D) (Z * Z * option (fat_vnode D)) :=
  match vn, buf with
  | Some v, Some buf =>
    let len := Z.of_nat (length buf) in
    if negb (bool_decide (vn_type v = VNODE_TYPE_FILE)) then mret (ERR_INVALID_ARGUMENT, 0, vn) else
    if len =? 0 then mret (ERR_SUCCESS, 0, vn) else
    if (0xFFFFFFFF <? off) || (0xFFFFFFFF - off <? len) then mret (ERR_NO_SPACE_LEFT, 0, vn) else
    '(result, vn) ← (if node_size (vn_node v) <? off + len then fat_truncate_vn vn (off + len) else mret (ERR_SUCCESS, vn));
    if negb (result =? ERR_SUCCESS) then mret (result, 0, vn) else
    v ← cget_opt vn;
    ok ← malloc;
    if negb ok then mret (ERR_OUT_OF_MEMORY, 0, vn) else
    '(result, done, node) ← write_from (Z.to_nat len) buf off 0 (vn_node v);
    let node := if node_size node <? off + done then set_size node (u32 (off + done)) else node in
    metadata_result ← fat_update_dirent node;
    mret (if negb (result =? ERR_SUCCESS) then result else metadata_result, done, Some (set_vnode_node v node))
  | _, _ => mret (ERR_INVALID_ARGUMENT, 0, vn)
  end.

(** ** Creating and removing entries *)

(** The bytes of a directory entry. *)
Definition dirent_bytes (name : list Z) (attr first : Z) : list Z :=
  name ++ [attr] ++ replicate 8 0 ++ put16 (u16 (Z.shiftr first 16)) ++ replicate 4 0 ++
  put16 (u16 first) ++ replicate 4 0.

(** The first cluster of a new directory: its entries for itself and for its
    parent. *)
Definition new_dir_contents sb (first parent : Z) : list Z :=
  splice 0 (dirent_bytes (cstr "." ++ replicate 10 0x20) 0x10 first ++
            dirent_bytes (cstr ".." ++ replicate 9 0x20) 0x10 parent)
    (replicate (Z.to_nat (cluster_bytes sb)) 0).

(** What follows once the vnode exists; the caller's [fail] label. *)
Definition create_entry dir (is_dir : bool) (short_name : list Z) (first sector_lba offset : Z) : cmd (world D) Z :=
  let sb := node_sb (vn_node dir) in
  result ←
    (if is_dir then
       ok ← malloc;
       if negb ok then mret ERR_OUT_OF_MEMORY else
       fat_write_cluster sb first (new_dir_contents sb first (first_cluster (vn_node dir)))
     else mret ERR_SUCCESS);
  if negb (result =? ERR_SUCCESS) then mret result else
  '(result, sector) ← fat_read_sector sb sector_lba;
  if negb (result =? ERR_SUCCESS) then mret result else
  cget_opt (dirent_at sector (Z.to_nat offset));;
  fat_write_sector sb sector_lba
    (splice (Z.to_nat offset) (dirent_bytes short_name (if is_dir then 0x10 else 0x20) first) sector).

Definition fat_create_vn (dir : option (fat_vnode D)) (name : option cstring) (ty : vnode_type)
    : cmd (world D) (Z * option (fat_vnode D)) :=
  match dir, name with
  | Some dir, Some name =>
    if negb (bool_decide (vn_type dir = VNODE_TYPE_DIR)) ||
       (negb (bool_decide (ty = VNODE_TYPE_FILE)) && negb (bool_decide (ty = VNODE_TYPE_DIR)))
    then mret (ERR_INVALID_ARGUMENT, None) else
    let '(result, short_name) := fat_make_short_name (Some name) in
    if negb (result =? ERR_SUCCESS) then mret (result, None) else
    '(result, _) ← fat_lookup_vn (Some dir) (Some name);
    if result =? ERR_SUCCESS then mret (ERR_ALREADY_EXISTS, None) else
    if negb (result =? ERR_NOT_FOUND) then mret (result, None) else
    let sb := node_sb (vn_node dir) in
    let is_dir := bool_decide (ty = VNODE_TYPE_DIR) in
    '(result, sector_lba, offset) ← fat_find_free_slot sb (vn_node dir);
    if negb (result =? ERR_SUCCESS) then mret (result, None) else
    '(result, first) ← (if is_dir then fat_alloc_cluster sb else mret (ERR_SUCCESS, 0));
    if negb (result =? ERR_SUCCESS) then mret (result, None) else
    vn ← fat_alloc_vnode (vn_mount dir) sb first 0 (if is_dir then 0x10 else 0x20);
    match vn with
    | None =>
      (if negb (first =? 0) then fat_free_chain sb first;; mret tt else mret tt);;
      mret (ERR_OUT_OF_MEMORY, None)
    | Some vn =>
      let vn := set_vnode_node vn (set_dirent (vn_node vn) sector_lba offset) in
      result ← create_entry dir is_dir short_name first sector_lba offset;
      if negb (result =? ERR_SUCCESS) then
        (if negb (first =? 0) then fat_free_chain sb first;; mret tt else mret tt);;
        mret (result, None)
      else mret (ERR_SUCCESS, Some vn)
    end
  | _, _ => mret (ERR_INVALID_ARGUMENT, None)
  end.

(** The context of [fat_empty_cb] is [nonempty]. *)
Definition fat_empty_cb : dir_cb (D := D) bool := λ _ name _ _ nonempty,
  if negb (streq name (cstr ".")) && negb (streq name (cstr "..")) then mret (true, true)
  else mret (false, nonempty).

Definition fat_unlink_vn (dir : option (fat_vnode D)) (name : option cstring) : cmd (world D) Z :=
  match dir, name with
  | Some dir, Some name =>
    if negb (bool_decide (vn_type dir = VNODE_TYPE_DIR)) then mret ERR_INVALID_ARGUMENT else
    '(result, found) ← fat_lookup_vn (Some dir) (Some name);
    if negb (result =? ERR_SUCCESS) then mret result else
    vn ← cget_opt found;
    let node := vn_node vn in
    let sb := node_sb node in
    result ←
      (if bool_decide (vn_type vn = VNODE_TYPE_DIR) then
         '(result, nonempty) ← fat_iter_dir sb node fat_empty_cb false;
         mret (if (result =? ERR_SUCCESS) && nonempty then ERR_DIRECTORY_NOT_EMPTY else result)
       else mret ERR_SUCCESS);
    result ←
      (if negb (result =? ERR_SUCCESS) then mret result else
       '(result, sector) ← fat_read_sector sb (dir_sector node);
       if negb (result =? ERR_SUCCESS) then mret result else
       cget_opt (sector !! Z.to_nat (dir_offset node));;
       fat_write_sector sb (dir_sector node) (<[Z.to_nat (dir_offset node) := 0xE5]> sector));
    if (result =? ERR_SUCCESS) && negb (first_cluster node =? 0)
    then fat_free_chain sb (first_cluster node) else mret result
  | _, _ => mret ERR_INVALID_ARGUMENT
  end.

(** [st] tells whether the buffer pointer is non-NULL. *)
Definition fat_getattr_vn vn (st : bool) : Z * option vfs_stat :=
  if negb st then (ERR_INVALID_ARGUMENT, None)
  else (ERR_SUCCESS, Some (mk_stat (vn_type vn) (node_size (vn_node vn)) (node_size (vn_node vn))
                                   (node_attr (vn_node vn)) 0 0 0 0 0)).
Definition fat_setattr_vn : Z := ERR_READ_ONLY_FS.
End write.

(** ** The layout of a mounted volume *)

(** The tables, the fixed root directory and the clusters follow each other
    inside the device. *)
Record layout {D} (sb : fat_super D) : Prop := {
  l_geom : geom sb;
  l_type : var sb = type sb;
  l_spc : 1 ≤ sectors_per_cluster sb ≤ 128;
  l_root : fat_start sb + fat_count sb * fat_sectors sb ≤ root_dir_start sb;
  l_root_size : 0 ≤ root_dir_sectors sb;
  l_data : root_dir_start sb + root_dir_sectors sb ≤ data_start sb;
  l_volume : data_start sb + cluster_count sb * sectors_per_cluster sb ≤ volume_sectors sb;
  l_device : volume_sectors sb ≤ sector_count (bdev sb);
  l_eoc : cluster_count sb + 2 ≤ 2 ^ ent_bits (type sb) - 8
}.

(** What the fields of a boot sector can be. *)
Record bpb_ok {D} (sb : fat_super D) : Prop := {
  b_spc : is_u8 (sectors_per_cluster sb);
  b_reserved : is_u16 (reserved_sectors sb);
  b_fats : is_u8 (fat_count sb);
  b_roots : is_u16 (root_entries sb);
  b_total16 : is_u16 (total_sectors16 sb);
  b_total32 : is_u32 (total_sectors32 sb);
  b_fat16 : is_u16 (sectors_per_fat16 sb);
  b_fat32 : is_u32 (sectors_per_fat32 sb)
}.

Lemma le16_range l off : Forall is_u8 l → (off + 2 ≤ length l)%nat → ∃ v, le16 l off = Some v ∧ is_u16 v.
Proof.
  intros Hl Hlen. destruct (le16_spec l off Hl Hlen) as (b0 & b1 & _ & _ & ? & ? & ->).
  unfold is_u8, is_u16 in *. eexists. split; [done|]. lia.
Qed.

Lemma parse_bpb_ok {D} (bd : blockdev D) bpb :
  Forall is_u8 bpb → length bpb = 512%nat →
  ∃ sb, parse_bpb bd bpb = Some sb ∧ bpb_ok sb ∧ bdev sb = bd.
Proof.
  intros H8 Hlen. unfold parse_bpb.
  destruct (le16_range bpb 11 H8 ltac:(lia)) as (v1 & -> & ?).
  destruct (lookup_is_Some bpb 13) as [v2 E2]; [lia|]. rewrite E2.
  destruct (le16_range bpb 14 H8 ltac:(lia)) as (v3 & -> & ?).
  destruct (lookup_is_Some bpb 16) as [v4 E4]; [lia|]. rewrite E4.
  destruct (le16_range bpb 17 H8 ltac:(lia)) as (v5 & -> & ?).
  destruct (le16_range bpb 19 H8 ltac:(lia)) as (v6 & -> & ?).
  destruct (le16_range bpb 22 H8 ltac:(lia)) as (v7 & -> & ?).
  destruct (le32_range bpb 32 H8 ltac:(lia)) as (v8 & -> & ?).
  destruct (le32_range bpb 36 H8 ltac:(lia)) as (v9 & -> & ?).
  destruct (le32_range bpb 44 H8 ltac:(lia)) as (v10 & -> & ?).
  eexists. split; [reflexivity|]. split; [|done].
  split; simpl; eauto using lookup_byte.
Qed.

Ltac split_bools H := rewrite ?orb_false_iff, ?negb_false_iff, ?andb_false_iff in H.

(** What the accepted values are, without the wrap-around. *)
Lemma probe_values {D} (sb : fat_super D) `{HD : !Disk (bdev sb)} total :
  bpb_ok sb → 0 ≤ total < 2 ^ 28 → bad_parameters sb total = false → bad_table sb total = false →
  bad_areas sb total = false →
  bytes_per_sector sb = 512 ∧ sector_size (bdev sb) = 512 ∧ 1 ≤ sectors_per_cluster sb ≤ 128 ∧
  1 ≤ reserved_sectors sb ∧ 1 ≤ fat_count sb ≤ 2 ∧ 1 ≤ probe_fat_sectors sb ∧
  total ≤ sector_count (bdev sb) ∧ 0 ≤ probe_root_sectors sb ∧
  probe_root_start sb = reserved_sectors sb + fat_count sb * probe_fat_sectors sb ∧
  probe_data_start sb = probe_root_start sb + probe_root_sectors sb ∧
  probe_data_start sb ≤ total ∧
  probe_clusters sb total = (total - probe_data_start sb) / sectors_per_cluster sb.
Proof.
  intros [? ? ? ? ? ? ? ?] Ht HP HT HA. pose proof (sec_count (bdev sb)).
  unfold bad_parameters in HP. unfold bad_table in HT. unfold bad_areas in HA.
  split_bools HP. split_bools HT. split_bools HA.
  destruct HP as (((((((_ & Tb) & Tz) & Ts) & _) & Ts') & Tr) & Tf).
  destruct HT as [[Tn Tm] Td]. destruct HA as [[[Ta Tq] Tc] Te].
  apply Z.eqb_neq in Ts, Tr, Tn. apply Z.ltb_ge in Ts', Tm, Td, Tq, Tc, Te. apply Z.eqb_eq in Tb, Tz, Ta.
  assert (1 ≤ fat_count sb ≤ 2) as Hfc by
    (destruct Tf as [Tf|Tf]; apply negb_false_iff, Z.eqb_eq in Tf; lia).
  unfold is_u8, is_u16, is_u32 in *.
  assert (0 ≤ probe_fat_sectors sb) by (unfold probe_fat_sectors; case_match; lia).
  assert (0 ≤ probe_root_sectors sb < 2 ^ 16).
  { unfold probe_root_sectors. rewrite Tb. rewrite (u32_small (_ * 32)) by lia. rewrite u32_small by lia. lia. }
  assert (probe_fats_area sb = fat_count sb * probe_fat_sectors sb) as Hfa.
  { unfold probe_fats_area. apply u32_small. split; [apply Z.mul_nonneg_nonneg; lia|].
    apply Z.le_lt_trans with (2 * probe_fat_sectors sb); [apply Z.mul_le_mono_nonneg_r; lia|lia]. }
  assert (probe_root_start sb = reserved_sectors sb + fat_count sb * probe_fat_sectors sb) as Hrs.
  { unfold probe_root_start. rewrite u32_small; lia. }
  assert (probe_data_start sb = probe_root_start sb + probe_root_sectors sb) as Hds.
  { unfold probe_data_start. rewrite u32_small; lia. }
  split_and!; try lia. unfold probe_clusters. rewrite u32_small; [done|lia].
Qed.

(** The tables that the last test accepts have an entry for every cluster. *)
Lemma capacity_entries {D} (sb : fat_super D) clusters i :
  bytes_per_sector sb = 512 → 1 ≤ probe_fat_sectors sb < 2 ^ 23 → 0 ≤ clusters < 2 ^ 28 →
  bad_capacity sb (probe_type clusters) clusters = false → 0 ≤ i < clusters + 2 →
  ent_off (probe_type clusters) i + ent_len (probe_type clusters) ≤ 512 * probe_fat_sectors sb.
Proof.
  intros Hb Hf Hc HC Hi. destruct (probe_type clusters); cbn [bad_capacity ent_off ent_len] in *;
    rewrite Hb in HC; apply Z.ltb_ge in HC; change (512 / 2) with 256 in HC; change (512 / 4) with 128 in HC;
    rewrite ?(u64_small (_ * 512)) in HC by lia; rewrite !u64_small in HC by lia; lia.
Qed.

(** A boot sector that the probe accepts, of a volume below 128 GiB whose
    table is below 4 GiB, describes areas that follow each other inside the
    device, with an entry in the table for every cluster; the type is the
    one that the number of clusters demands. *)
Theorem fat_probe_layout {D} (sb sb' : fat_super D) `{HD : !Disk (bdev sb)} total :
  bpb_ok sb → 0 ≤ total < 2 ^ 28 - 16 → fat_sectors sb' < 2 ^ 23 →
  fat_probe_type sb total = inr sb' →
  layout sb' ∧ bdev sb' = bdev sb ∧ volume_sectors sb' = total ∧ 1 ≤ cluster_count sb' ∧
  total < data_start sb' + (cluster_count sb' + 1) * sectors_per_cluster sb' ∧
  (type sb' = FAT_TYPE_12 ↔ cluster_count sb' < 4085) ∧
  (type sb' = FAT_TYPE_32 ↔ 65525 ≤ cluster_count sb').
Proof.
  intros B Ht Hf H. unfold fat_probe_type in H.
  destruct (bad_parameters sb total) eqn:HP; [done|]. destruct (bad_table sb total) eqn:HT; [done|].
  destruct (bad_areas sb total) eqn:HA; [done|].
  destruct (probe_values sb total B ltac:(lia) HP HT HA)
    as (Hb & Hz & Hs & Hr & Hn & Hfs & Hd & Hrd & Ers & Eds & Hds & Ec).
  destruct (probe_clusters sb total =? 0) eqn:HC; [done|]. apply Z.eqb_neq in HC.
  set (clusters := probe_clusters sb total) in *.
  assert (0 ≤ total - probe_data_start sb) by lia.
  assert (1 ≤ clusters ≤ total) as Hcl.
  { split; [|rewrite Ec; apply Z.div_le_upper_bound; [lia|]; apply Z.le_trans with (1 * total); [lia|];
      apply Z.mul_le_mono_nonneg_r; lia].
    assert (0 ≤ clusters) by (rewrite Ec; apply Z.div_pos; lia). lia. }
  assert (sectors_per_cluster sb * clusters ≤ total - probe_data_start sb <
          sectors_per_cluster sb * (clusters + 1)) as [Hlo Hhi].
  { rewrite Ec. split; [apply Z.mul_div_le; lia|]. rewrite Z.add_1_r. apply Z.mul_succ_div_gt. lia. }
  destruct (bad_root sb (probe_type clusters) clusters) eqn:HR; [done|].
  destruct (bad_capacity sb (probe_type clusters) clusters) eqn:HB; [done|]. injection H as <-.
  cbn [set_layout fat_sectors] in Hf.
  split_and!; try done; cbn [set_layout cluster_count data_start sectors_per_cluster type]; [|lia|lia| |].
  - split; cbn [set_layout var type sectors_per_cluster fat_start fat_count fat_sectors root_dir_start
      root_dir_sectors data_start cluster_count volume_sectors bdev]; try lia; [|done|].
    2: { unfold probe_type. repeat case_match; rewrite ?Z.ltb_lt, ?Z.ltb_ge in *; cbn [ent_bits]; lia. }
    split; cbn [set_layout bytes_per_sector bdev fat_count fat_start fat_sectors cluster_count var]; try lia.
    intros i Hi. apply capacity_entries; [done|lia|lia|done|done].
  - unfold probe_type. repeat case_match; rewrite ?Z.ltb_lt, ?Z.ltb_ge in *; split; intros; try done; lia.
  - unfold probe_type. repeat case_match; rewrite ?Z.ltb_lt, ?Z.ltb_ge in *; split; intros; try done; lia.
Qed.

(** A floppy of 2880 sectors. *)
Definition ex_floppy : blockdev ram := ram_disk (cstr "fd0") 2880.
#[global] Instance ex_floppy_ok : Disk ex_floppy := ram_disk_ok (cstr "fd0") 2880 ltac:(by_eval).
Definition ex_bpb : fat_super ram :=
  mk_super ex_floppy FAT_TYPE_12 FAT_TYPE_12 512 1 1 2 224 2880 0 9 0 0 0 0 0 0 0 0 0.

Definition ex_mounted : fat_super ram := set_layout ex_bpb FAT_TYPE_12 9 14 19 33 2880 2847.

Lemma ex_probe : fat_probe_type ex_bpb 2880 = inr ex_mounted.
Proof. reflexivity. Qed.

Lemma fat_probe_layout_witness :
  fat_probe_type ex_bpb 2880 = inr ex_mounted ∧ layout ex_mounted.
Proof.
  split; [exact ex_probe|].
  refine (proj1 (fat_probe_layout ex_bpb ex_mounted 2880 _ _ _ ex_probe)); [|by_eval|by_eval].
  split; by_eval.
Defined.
End Fat.
