(* ===== verification/FatSpec.v ===== *)
(** * Cluster chains and files of a FAT volume

    The theorems about [Fat.v]: what the cluster operations do to the
    table and to the data, proved against the promise [Table] of the three
    variants. *)

From S2P Require Import Prelude Block Vnode FatTable Fat.
Import Block Vnode FatTable Fat.

Module FatSpec.

(** ** Clusters *)

Section clusters.
Context {D : Type} (sb : fat_super D) `{HD : !Disk (bdev sb)} `{HT : !Table sb} (L : layout sb).
Implicit Types (d : D) (w : world D).
Abbreviation tab := (table_entry sb).

Definition valid (c : Z) : Prop := 2 ≤ c < cluster_count sb + 2.
#[global] Instance valid_dec c : Decision (valid c).
Proof. unfold valid. apply _. Defined.
Definition cluster_lba (c : Z) : Z := data_start sb + (c - 2) * sectors_per_cluster sb.
Definition cluster_size : Z := 512 * sectors_per_cluster sb.
Definition cluster_data d (c : Z) : list Z := run_of (sec (bdev sb) d) (cluster_lba c) (sectors_per_cluster sb).
Definition in_cluster (c s : Z) : Prop := cluster_lba c ≤ s < cluster_lba c + sectors_per_cluster sb.

Lemma cluster_bytes_val : cluster_bytes sb = cluster_size.
Proof.
  pose proof (l_spc sb L). unfold cluster_bytes, cluster_size. rewrite (g_bps sb (l_geom sb L)).
  apply u32_small. lia.
Qed.
Lemma limit_val : entry_limit sb = cluster_count sb + 2.
Proof. apply entry_limit_val. apply L. Qed.

Lemma cluster_bounds c : valid c →
  data_start sb ≤ cluster_lba c ∧ cluster_lba c + sectors_per_cluster sb ≤ volume_sectors sb ∧
  0 ≤ data_start sb ∧ volume_sectors sb < 2 ^ 32.
Proof.
  intros Hc. pose proof (sec_count (bdev sb)). destruct L as [[] ]. unfold valid, cluster_lba in *.
  assert ((c - 2 + 1) * sectors_per_cluster sb ≤ cluster_count sb * sectors_per_cluster sb)
    by (apply Z.mul_le_mono_nonneg_r; lia).
  assert (0 ≤ (c - 2) * sectors_per_cluster sb) by (apply Z.mul_nonneg_nonneg; lia).
  assert (0 ≤ fat_count sb * fat_sectors sb) by (apply Z.mul_nonneg_nonneg; lia). lia.
Qed.

Lemma cluster_to_lba_val c : valid c → fat_cluster_to_lba sb c = cluster_lba c.
Proof.
  intros Hc. pose proof (cluster_bounds c Hc). pose proof (l_spc sb L). pose proof (g_count sb (l_geom sb L)).
  unfold fat_cluster_to_lba, cluster_lba, valid in *.
  assert (0 ≤ (c - 2) * sectors_per_cluster sb) by (apply Z.mul_nonneg_nonneg; lia).
  rewrite (u32_small (c - 2)) by lia. rewrite (u32_small (_ * _)) by lia. rewrite u32_small; lia.
Qed.

(** The guards of the transfers never fire for a cluster of the volume. *)
Lemma good_cluster c : valid c → bad_cluster sb c = false ∧ bad_lba sb (fat_cluster_to_lba sb c) = false.
Proof.
  intros Hc. pose proof (cluster_bounds c Hc). rewrite cluster_to_lba_val by done. pose proof (l_spc sb L).
  unfold bad_cluster, bad_lba. rewrite limit_val. unfold valid in *.
  split; apply orb_false_iff; split; try apply Z.ltb_ge; try apply Z.leb_gt; lia.
Qed.

Lemma clusters_apart c c' s : c ≠ c' → in_cluster c s → ¬ in_cluster c' s.
Proof.
  intros Hne. pose proof (l_spc sb L). unfold in_cluster, cluster_lba. destruct (decide (c < c')).
  - assert ((c - 2 + 1) * sectors_per_cluster sb ≤ (c' - 2) * sectors_per_cluster sb)
      by (apply Z.mul_le_mono_nonneg_r; lia). lia.
  - assert ((c' - 2 + 1) * sectors_per_cluster sb ≤ (c - 2) * sectors_per_cluster sb)
      by (apply Z.mul_le_mono_nonneg_r; lia). lia.
Qed.

Lemma cluster_not_fat c s : valid c → in_cluster c s → ¬ fat_area sb s.
Proof.
  intros Hc. pose proof (cluster_bounds c Hc). destruct L. unfold in_cluster, fat_area. lia.
Qed.

Lemma length_cluster d c : length (cluster_data d c) = Z.to_nat cluster_size.
Proof.
  pose proof (l_spc sb L). unfold cluster_data, cluster_size. rewrite (length_run_of _ _ _ 512); [lia|lia|].
  intros i. apply (length_sec (bdev sb)). apply L.
Qed.
Lemma cluster_data_bytes d c : Forall is_u8 (cluster_data d c).
Proof. apply run_of_bytes. intros. apply (sec_bytes (bdev sb)). Qed.

Lemma cluster_data_ext d d' c :
  (∀ s, in_cluster c s → sec (bdev sb) d' s = sec (bdev sb) d s) → cluster_data d' c = cluster_data d c.
Proof. intros H. apply run_of_ext. intros i Hi. by apply H. Qed.

(** The three primitive steps of everything below. *)
Lemma read_cluster_run c w :
  valid c → fat_read_cluster sb c w = Some ((ERR_SUCCESS, cluster_data (w_disk w) c), w).
Proof.
  intros Hc. destruct (good_cluster c Hc) as [H1 H2]. pose proof (cluster_bounds c Hc).
  destruct L. unfold fat_read_cluster. rewrite H1, H2, cluster_to_lba_val by done.
  unfold on_disk, czoom. rewrite (disk_read (bdev sb)) by lia. by destruct w.
Qed.

Lemma write_cluster_run c buf w :
  valid c → length buf = Z.to_nat cluster_size → Forall is_u8 buf →
  ∃ d', fat_write_cluster sb c buf w = Some (ERR_SUCCESS, mk_world d' (w_malloc w)) ∧
    cluster_data d' c = buf ∧ (∀ s, ¬ in_cluster c s → sec (bdev sb) d' s = sec (bdev sb) (w_disk w) s).
Proof.
  intros Hc Hlen H8. destruct (good_cluster c Hc) as [H1 H2]. pose proof (cluster_bounds c Hc).
  pose proof (l_spc sb L). pose proof (l_device sb L). pose proof (g_size sb (l_geom sb L)) as Hsz.
  destruct (disk_write (bdev sb) (w_disk w) (cluster_lba c) (sectors_per_cluster sb) buf) as (d' & Hw & Hs);
    [lia..| |done|].
  { rewrite Hlen, Hsz. unfold cluster_size. lia. }
  exists d'. unfold fat_write_cluster. rewrite H1, H2, cluster_to_lba_val by done.
  unfold on_disk, czoom. rewrite Hw. split; [done|]. split.
  - unfold cluster_data. etrans; [|apply (run_of_slices buf 512 (cluster_lba c) (sectors_per_cluster sb)); [lia|]].
    + apply run_of_ext. intros i Hi. rewrite Hs, decide_True, Hsz by done. done.
    + rewrite Hlen. unfold cluster_size. lia.
  - intros s Hn. rewrite Hs, decide_False by done. done.
Qed.

Lemma set_entry_run j v w :
  0 ≤ j < cluster_count sb + 2 → 0 ≤ v < 2 ^ ent_bits (var sb) →
  ∃ d', fat_set_entry sb j v w = Some (ERR_SUCCESS, mk_world d' (w_malloc w)) ∧
    (∀ i, 0 ≤ i < cluster_count sb + 2 → tab d' i = if decide (i = j) then v else tab (w_disk w) i) ∧
    (∀ s, ¬ fat_area sb s → sec (bdev sb) d' s = sec (bdev sb) (w_disk w) s).
Proof.
  intros Hj Hv. destruct (table_set sb (w_disk w) j v Hj Hv) as (d' & Hs & He & Hf).
  exists d'. unfold fat_set_entry, on_disk, czoom. by rewrite Hs.
Qed.

Lemma get_entry_run j w :
  0 ≤ j < cluster_count sb + 2 →
  on_disk (get_fat_entry (var_ops (var sb)) sb j) w = Some ((ERR_SUCCESS, tab (w_disk w) j), w).
Proof. intros Hj. unfold on_disk, czoom. rewrite (table_get sb) by done. by destruct w. Qed.

(** ** The markers *)

Definition eoc (v : Z) : Prop := 2 ^ ent_bits (var sb) - 8 ≤ v.
#[global] Instance eoc_dec v : Decision (eoc v).
Proof. unfold eoc. apply _. Defined.

Lemma is_eoc_spec v : 0 ≤ v < 2 ^ ent_bits (var sb) → is_eoc (var_ops (D := D) (var sb)) sb v = bool_decide (eoc v).
Proof.
  intros Hv. case_bool_decide as E; unfold eoc in E; revert Hv E; destruct (var sb);
    cbn [ent_bits var_ops is_eoc fat12_ops fat16_ops fat32_ops];
    unfold fat12_is_eoc, fat16_is_eoc, fat32_is_eoc; intros Hv E;
    try (change 0x0FFFFFFF with (Z.ones 28); rewrite Z.land_ones, Z.mod_small by lia; simpl (Z.ones 28));
    first [apply Z.leb_le; lia | apply Z.leb_gt; lia].
Qed.

Lemma eoc_marker_spec : 0 < fat_eoc_marker sb < 2 ^ ent_bits (var sb) ∧ eoc (fat_eoc_marker sb).
Proof. unfold eoc, fat_eoc_marker. rewrite (l_type sb L). destruct (type sb); cbn [ent_bits]; lia. Qed.

Lemma valid_not_eoc c : valid c → ¬ eoc c ∧ 0 ≤ c < 2 ^ ent_bits (var sb).
Proof.
  pose proof (l_eoc sb L) as H. rewrite <- (l_type sb L) in H. unfold valid, eoc. lia.
Qed.

Lemma next_cluster_run c w :
  valid c →
  fat_next_cluster sb c w =
    Some (if decide (eoc (tab (w_disk w) c)) then (ERR_SUCCESS, 0)
          else if decide (valid (tab (w_disk w) c)) then (ERR_SUCCESS, tab (w_disk w) c)
          else (ERR_IO_ERROR, 0), w).
Proof.
  intros Hc. unfold fat_next_cluster. erewrite bind_run by (apply get_entry_run; unfold valid in *; lia).
  on_success. rewrite is_eoc_spec by apply (table_range sb). rewrite limit_val.
  case_bool_decide as E; [by rewrite decide_True|]. rewrite decide_False by done.
  unfold valid. case_decide as V.
  - rewrite (proj2 (Z.ltb_ge _ _)), (proj2 (Z.leb_gt _ _)) by lia. done.
  - destruct (Z.ltb_spec (tab (w_disk w) c) 2); [done|].
    rewrite (proj2 (Z.leb_le _ _)) by lia. done.
Qed.

(** ** Chains *)

(** The clusters that a chain of the table [t] links, from the first on. *)
Inductive chain (t : Z → Z) : Z → list Z → Prop :=
  | chain_end c : valid c → eoc (t c) → chain t c [c]
  | chain_next c l : valid c → valid (t c) → chain t (t c) l → chain t c (c :: l).

Lemma chain_valid t c l x : chain t c l → x ∈ l → valid x.
Proof.
  induction 1 as [c|c l ? ? ? IH]; [by intros ->%list_elem_of_singleton|].
  intros [->|?]%elem_of_cons; auto.
Qed.
Lemma chain_head t c l : chain t c l → ∃ l', l = c :: l' ∧ valid c.
Proof. destruct 1; eauto. Qed.

Lemma chain_det t c l l' : chain t c l → chain t c l' → l = l'.
Proof.
  intros H. revert l'. induction H as [c Hc He|c l Hc Hv Hl IH]; intros l' H'; inversion H'; subst; try done.
  - by destruct (valid_not_eoc (t c)).
  - by destruct (valid_not_eoc (t c)).
  - f_equal. by apply IH.
Qed.

Lemma chain_suffix t c l x : chain t c l → x ∈ l → ∃ l1 l2, l = l1 ++ x :: l2 ∧ chain t x (x :: l2).
Proof.
  induction 1 as [c Hc He|c l Hc Hv Hl IH].
  - intros ->%list_elem_of_singleton. exists [], []. split; [done|by constructor].
  - intros [->|Hx]%elem_of_cons; [exists [], l; split; [done|by constructor]|].
    destruct (IH Hx) as (l1 & l2 & -> & ?). by exists (c :: l1), l2.
Qed.

Lemma chain_NoDup t c l : chain t c l → NoDup l.
Proof.
  induction 1 as [c Hc He|c l Hc Hv Hl IH]; [apply NoDup_singleton|]. constructor; [|done].
  intros Hin. destruct (chain_suffix _ _ _ _ Hl Hin) as (l1 & l2 & -> & Hs).
  assert (c :: l1 ++ c :: l2 = c :: l2) as Heq by (eapply chain_det; [by constructor|done]).
  apply (f_equal length) in Heq. simpl in Heq. rewrite length_app in Heq. simpl in Heq. lia.
Qed.

(** A chain is not longer than the volume has clusters. *)
Lemma chain_length t c l : chain t c l → Z.of_nat (length l) ≤ cluster_count sb.
Proof.
  intros Hl. pose proof (g_count sb (l_geom sb L)).
  assert (l ⊆+ seqZ 2 (cluster_count sb)) as Hs%submseteq_length.
  { apply NoDup_submseteq; [by eapply chain_NoDup|]. intros x Hx. apply elem_of_seqZ.
    eapply chain_valid in Hx; [|done]. unfold valid in Hx. lia. }
  rewrite length_seqZ in Hs. lia.
Qed.

(** A chain only depends on the entries of its clusters. *)
Lemma chain_ext t t' c l : chain t c l → (∀ x, x ∈ l → t' x = t x) → chain t' c l.
Proof.
  induction 1 as [c Hc He|c l Hc Hv Hl IH]; intros Ht.
  - constructor; [done|]. by rewrite Ht by (by left).
  - assert (t' c = t c) as E by (apply Ht; by left).
    constructor; [done|by rewrite E|]. rewrite E. apply IH. intros x Hx. apply Ht. by right.
Qed.

(** ** Allocating and freeing *)

(** The state after cluster [k] was allocated. *)
Record allocated d (k : Z) d' : Prop := {
  al_valid : valid k;
  al_free : tab d k = 0;
  al_first j : 2 ≤ j < k → tab d j ≠ 0;
  al_entry j : 0 ≤ j < cluster_count sb + 2 → tab d' j = if decide (j = k) then fat_eoc_marker sb else tab d j;
  al_zero : cluster_data d' k = replicate (Z.to_nat cluster_size) 0;
  al_frame s : ¬ fat_area sb s → ¬ in_cluster k s → sec (bdev sb) d' s = sec (bdev sb) d s
}.

Lemma alloc_from_wp n k w :
  2 ≤ k → k + Z.of_nat n = cluster_count sb + 2 → (∀ j, 2 ≤ j < k → tab (w_disk w) j ≠ 0) →
  wp (alloc_from sb n k) (λ r w',
    w_malloc w' = w_malloc w ∧
    ((∃ c, r = (ERR_SUCCESS, c) ∧ allocated (w_disk w) c (w_disk w')) ∨
     (r = (ERR_NO_SPACE_LEFT, 0) ∧ w' = w ∧ ∀ j, valid j → tab (w_disk w) j ≠ 0))) w.
Proof.
  revert k. induction n as [|n IH]; intros k Hk Hn Hfirst; cbn [alloc_from].
  { wp_step. split; [done|]. right. split_and!; [done..|]. intros j Hj. apply Hfirst. unfold valid in Hj. lia. }
  wp_step. eapply wp_eq; [apply get_entry_run; lia|]. cbn beta iota. on_success.
  destruct (Z.eqb_spec (tab (w_disk w) k) 0) as [E|E]; cbn [negb].
  2: { apply IH; [lia|lia|]. intros j Hj. destruct (decide (j = k)) as [->|]; [done|apply Hfirst; lia]. }
  assert (valid k) as Hv by (unfold valid; lia).
  destruct (write_cluster_run k (replicate (Z.to_nat (cluster_bytes sb)) 0) w) as (d1 & Hw & Hd & Hf);
    [done|by rewrite length_replicate, cluster_bytes_val|apply Forall_replicate; by_eval|].
  wp_step. eapply wp_eq; [exact Hw|]. change (ERR_SUCCESS =? ERR_SUCCESS) with true. cbn iota.
  pose proof eoc_marker_spec as [He _].
  destruct (set_entry_run k (fat_eoc_marker sb) (mk_world d1 (w_malloc w))) as (d2 & Hs & Ht & Hf2); [lia|lia|].
  wp_step. eapply wp_eq; [exact Hs|]. on_success. wp_step. split; [done|]. left. exists k. split; [done|].
  cbn [w_disk w_malloc] in *.
  assert (∀ j, 0 ≤ j < cluster_count sb + 2 → tab d1 j = tab (w_disk w) j) as Hloc.
  { intros j Hj. apply (table_local sb); [done|]. intros s Hs'. apply Hf. intros ?. by eapply cluster_not_fat. }
  split; [done|done|done| | |].
  - intros j Hj. rewrite Ht by done. case_decide; [done|by apply Hloc].
  - rewrite <- cluster_bytes_val, <- Hd. apply cluster_data_ext. intros s Hs'. apply Hf2. by eapply cluster_not_fat.
  - intros s H1 H2. rewrite Hf2 by done. by apply Hf.
Qed.

Lemma fat_alloc_cluster_wp w :
  wp (fat_alloc_cluster sb) (λ r w',
    (r = (ERR_OUT_OF_MEMORY, 0) ∧ w_disk w' = w_disk w ∧ head (w_malloc w) = Some false) ∨
    (∃ c, r = (ERR_SUCCESS, c) ∧ allocated (w_disk w) c (w_disk w')) ∨
    (r = (ERR_NO_SPACE_LEFT, 0) ∧ w_disk w' = w_disk w ∧ ∀ j, valid j → tab (w_disk w) j ≠ 0)) w.
Proof.
  assert (∀ w0, w_disk w0 = w_disk w →
    wp (alloc_from sb (Z.to_nat (entry_limit sb - 2)) 2) (λ r w',
    (∃ c, r = (ERR_SUCCESS, c) ∧ allocated (w_disk w) c (w_disk w')) ∨
    (r = (ERR_NO_SPACE_LEFT, 0) ∧ w_disk w' = w_disk w ∧ ∀ j, valid j → tab (w_disk w) j ≠ 0)) w0) as Hrun.
  { intros w0 E. pose proof (g_count sb (l_geom sb L)). rewrite limit_val.
    eapply wp_mono; [apply alloc_from_wp; lia|]. intros r w' [_ Hr]. rewrite E in Hr.
    destruct Hr as [?|(? & -> & ?)]; eauto. }
  unfold fat_alloc_cluster. wp_step. unfold malloc, wp at 1.
  destruct (w_malloc w) as [|[] l] eqn:E; cbn [negb].
  - eapply wp_mono; [by apply Hrun|]. intros r w' Hr. by right.
  - eapply wp_mono; [by apply Hrun|]. intros r w' Hr. by right.
  - wp_step. left. by split_and!.
Qed.

Lemma free_from_wp n c l w :
  chain (tab (w_disk w)) c l → (length l ≤ n)%nat →
  wp (free_from sb n c) (λ r w', r = ERR_SUCCESS ∧ w_malloc w' = w_malloc w ∧
    (∀ j, 0 ≤ j < cluster_count sb + 2 → tab (w_disk w') j = if decide (j ∈ l) then 0 else tab (w_disk w) j) ∧
    (∀ s, ¬ fat_area sb s → sec (bdev sb) (w_disk w') s = sec (bdev sb) (w_disk w) s)) w.
Proof.
  revert c n w. induction l as [|x l IH]; intros c n w Hl Hn; [by destruct (chain_head _ _ _ Hl) as (? & ? & ?)|].
  destruct n as [|n]; [simpl in Hn; lia|]. cbn [free_from].
  pose proof (chain_NoDup _ _ _ Hl) as [Hnin _]%NoDup_cons.
  destruct (chain_head _ _ _ Hl) as (l' & [= -> <-] & Hc).
  rewrite (proj2 (Z.eqb_neq c 0)) by (unfold valid in Hc; lia).
  wp_step. eapply wp_eq; [by apply next_cluster_run|].
  destruct (set_entry_run c 0 w) as (d' & Hs & Ht & Hf); [unfold valid in Hc; lia|destruct (var sb); simpl; lia|].
  set (w1 := mk_world d' (w_malloc w)).
  assert (∀ r w', r = ERR_SUCCESS ∧ w_malloc w' = w_malloc w1 ∧
      (∀ j, 0 ≤ j < cluster_count sb + 2 → tab (w_disk w') j = if decide (j ∈ l) then 0 else tab (w_disk w1) j) ∧
      (∀ s, ¬ fat_area sb s → sec (bdev sb) (w_disk w') s = sec (bdev sb) (w_disk w1) s) →
      r = ERR_SUCCESS ∧ w_malloc w' = w_malloc w ∧
      (∀ j, 0 ≤ j < cluster_count sb + 2 → tab (w_disk w') j = if decide (j ∈ c :: l) then 0 else tab (w_disk w) j) ∧
      (∀ s, ¬ fat_area sb s → sec (bdev sb) (w_disk w') s = sec (bdev sb) (w_disk w) s)) as Hpost.
  { intros r w' (-> & Hm & Ht' & Hf'). split_and!; [done..| |].
    - intros j Hj. rewrite Ht', Ht by done. destruct (decide (j = c)) as [->|].
      { rewrite (decide_False (P := c ∈ l)) by done. by rewrite decide_True by (by left). }
      destruct (decide (j ∈ l)); [by rewrite decide_True by (by right)|].
      by rewrite decide_False by (by rewrite elem_of_cons; intros [?|?]).
    - intros s Hs'. by rewrite Hf', Hf. }
  inversion Hl as [? _ He|? ? _ Hv Hl']; subst.
  - rewrite decide_True by done. cbn beta iota. on_success. wp_step. eapply wp_eq; [exact Hs|]. on_success.
    assert (free_from sb n 0 w1 = Some (ERR_SUCCESS, w1)) as E0 by (by destruct n).
    eapply wp_eq; [exact E0|]. apply Hpost. by split_and!.
  - rewrite decide_False, decide_True by (try done; by apply valid_not_eoc). cbn beta iota. on_success.
    wp_step. eapply wp_eq; [exact Hs|]. on_success.
    eapply wp_mono; [apply (IH _ n w1)|exact Hpost]; [|simpl in Hn; lia].
    eapply chain_ext; [done|]. intros y Hy. cbn [w1 w_disk]. rewrite Ht.
    + by rewrite decide_False by (by intros ->).
    + eapply chain_valid in Hy; [|done]. unfold valid in Hy. lia.
Qed.

(** ** Reading *)

(** The bytes of the clusters of a chain, one after the other. *)
Definition file_bytes d (l : list Z) : list Z := mjoin (cluster_data d <$> l).

Lemma file_bytes_cons d c l : file_bytes d (c :: l) = cluster_data d c ++ file_bytes d l.
Proof. done. Qed.
Lemma length_file_bytes d l : length (file_bytes d l) = (length l * Z.to_nat cluster_size)%nat.
Proof.
  induction l as [|c l IH]; [done|]. by rewrite file_bytes_cons, length_app, IH, length_cluster.
Qed.

Lemma chain_drop t c l n c' : chain t c l → l !! n = Some c' → chain t c' (drop n l).
Proof.
  intros Hl. revert n. induction Hl as [c Hc He|c l Hc Hv Hl IH]; intros [|n] Hn; simplify_eq/=;
    try (by constructor); by apply IH.
Qed.

(** The walk to the cluster at an index. *)
Lemma skip_clusters_run c l n c' w :
  chain (tab (w_disk w)) c l → l !! n = Some c' → skip_clusters sb n c w = Some ((ERR_SUCCESS, c'), w).
Proof.
  intros Hl. revert n. remember (tab (w_disk w)) as t eqn:Et.
  induction Hl as [c Hc He|c l Hc Hv Hl IH]; intros [|n] Hn; simplify_eq/=; try done.
  erewrite bind_run by (by apply next_cluster_run). rewrite decide_False, decide_True by (try done; by apply valid_not_eoc).
  on_success. rewrite (proj2 (Z.eqb_neq _ 0)) by (unfold valid in Hv; lia). by apply IH.
Qed.

Lemma slice_app_l {A} off n (l1 l2 : list A) : (off + n ≤ length l1)%nat → slice off n (l1 ++ l2) = slice off n l1.
Proof. intros. unfold slice. rewrite drop_app_le by lia. by rewrite take_app_le by (rewrite length_drop; lia). Qed.
Lemma slice_app_split {A} off n (l1 l2 : list A) :
  (off ≤ length l1)%nat → (length l1 ≤ off + n)%nat →
  slice off n (l1 ++ l2) = slice off (length l1 - off) l1 ++ slice 0 (n - (length l1 - off)) l2.
Proof.
  intros. unfold slice. rewrite drop_app_le by lia. rewrite take_app_ge by (rewrite length_drop; lia).
  rewrite length_drop, drop_0. f_equal. by rewrite take_ge by (rewrite length_drop; lia).
Qed.

Lemma read_clusters_done n c off len done w :
  Z.of_nat (length done) = len → read_clusters sb n c off len done w = Some ((ERR_SUCCESS, done), w).
Proof. intros <-. destruct n; [done|]. cbn [read_clusters]. by rewrite Z.ltb_irrefl. Qed.

Lemma read_clusters_run n c l off len done w :
  chain (tab (w_disk w)) c l → (length l ≤ n)%nat → 0 ≤ off < cluster_size →
  Z.of_nat (length done) ≤ len → off + (len - Z.of_nat (length done)) ≤ Z.of_nat (length l) * cluster_size →
  read_clusters sb n c off len done w =
    Some ((ERR_SUCCESS,
           done ++ slice (Z.to_nat off) (Z.to_nat (len - Z.of_nat (length done))) (file_bytes (w_disk w) l)), w).
Proof.
  revert n c off done. induction l as [|x l IH]; intros n c off done Hl Hn Ho Hd Hfit;
    [by destruct (chain_head _ _ _ Hl) as (? & ? & ?)|].
  destruct n as [|n]; [simpl in Hn; lia|]. destruct (chain_head _ _ _ Hl) as (? & [= -> <-] & Hc).
  destruct (decide (Z.of_nat (length done) = len)) as [E|E].
  { rewrite read_clusters_done by done. rewrite E, Z.sub_diag. unfold slice. simpl. by rewrite app_nil_r. }
  cbn [read_clusters]. rewrite (proj2 (Z.ltb_lt _ _)) by lia. cbn [negb].
  erewrite bind_run by (by apply read_cluster_run). on_success. rewrite cluster_bytes_val, file_bytes_cons.
  pose proof (length_cluster (w_disk w) c) as Hlc.
  set (k := Z.min (cluster_size - off) (len - Z.of_nat (length done))).
  set (data := cluster_data (w_disk w) c) in *.
  assert (Z.of_nat (length (done ++ slice (Z.to_nat off) (Z.to_nat k) data)) = Z.of_nat (length done) + k) as Hk.
  { rewrite length_app, length_slice by lia. lia. }
  destruct (decide (k = len - Z.of_nat (length done))) as [Ek|Ek].
  - rewrite Hk. rewrite (proj2 (Z.ltb_ge _ _)) by lia. cbn iota. rewrite read_clusters_done by lia.
    rewrite slice_app_l by lia. by rewrite Ek.
  - rewrite Hk. rewrite (proj2 (Z.ltb_lt _ _)) by lia. cbn iota.
    erewrite bind_run by (by apply next_cluster_run).
    inversion Hl as [? _ He|? ? _ Hv Hl']; subst.
    { simpl in Hfit. lia. }
    rewrite decide_False, decide_True by (try done; by apply valid_not_eoc).
    on_success. rewrite (proj2 (Z.eqb_neq _ 0)) by (unfold valid in Hv; lia).
    rewrite IH; [|done|simpl in Hn; lia|lia|lia|simpl in Hfit; lia].
    rewrite Hk, slice_app_split by lia. rewrite <- app_assoc. repeat f_equal; lia.
Qed.

(** A file: the chain of its clusters, which has room for its size; a file
    without a cluster is empty. *)
Record file_ok d (node : fat_node D) (l : list Z) : Prop := {
  fo_sb : node_sb node = sb;
  fo_chain : (first_cluster node = 0 ∧ l = []) ∨ chain (tab d) (first_cluster node) l;
  fo_size : 0 ≤ node_size node ≤ Z.of_nat (length l) * cluster_size
}.
Definition file_content d (node : fat_node D) (l : list Z) : list Z :=
  take (Z.to_nat (node_size node)) (file_bytes d l).

Lemma file_chain d node l : file_ok d node l → node_size node ≠ 0 → chain (tab d) (first_cluster node) l.
Proof. intros [_ [[_ ->]|?] Hs] Hn; [simpl in Hs; lia|done]. Qed.

Lemma malloc_cases w (Q : bool → world D → Prop) :
  (∀ w', w_disk w' = w_disk w → Q true w') →
  (∀ w', w_disk w' = w_disk w → head (w_malloc w) = Some false → Q false w') → wp malloc Q w.
Proof. intros H1 H2. unfold wp, malloc. destruct (w_malloc w) as [|[] l]; [by apply H1|by apply H1|by apply H2]. Qed.

Lemma take_slice {A} n off k (l : list A) : (off + k ≤ n)%nat → slice off k (take n l) = slice off k l.
Proof.
  intros. unfold slice. rewrite skipn_firstn_comm, take_take. f_equal. lia.
Qed.

Lemma fat_read_vn_wp w v off len l :
  vn_type v = VNODE_TYPE_FILE → file_ok (w_disk w) (vn_node v) l → 0 ≤ off → 0 ≤ len →
  wp (fat_read_vn (Some v) true off len) (λ r w', w_disk w' = w_disk w ∧
    (r = (ERR_SUCCESS, slice (Z.to_nat off) (Z.to_nat len) (file_content (w_disk w) (vn_node v) l)) ∨
     r = (ERR_OUT_OF_MEMORY, []) ∧ head (w_malloc w) = Some false)) w.
Proof.
  intros Hty Hok Ho Hl. pose proof Hok as [Hsb _ Hs]. unfold fat_read_vn. cbn [negb].
  rewrite bool_decide_true by done. cbn [negb]. unfold file_content. set (size := node_size (vn_node v)) in *.
  pose proof (length_file_bytes (w_disk w) l) as Hlen.
  assert (0 < cluster_size) by (pose proof (l_spc sb L); unfold cluster_size; lia).
  destruct ((size <=? off) || (len =? 0)) eqn:E.
  { wp_step. split; [done|]. left. f_equal. symmetry. unfold slice. apply orb_true_iff in E as [E|E].
    - apply Z.leb_le in E. rewrite drop_ge; [by rewrite take_nil|]. rewrite length_take. lia.
    - apply Z.eqb_eq in E as ->. done. }
  apply orb_false_iff in E as [E1 E2]. apply Z.leb_gt in E1. apply Z.eqb_neq in E2.
  set (n := if size - off <? len then size - off else len).
  assert (n = Z.min (size - off) len) as En by (subst n; case_match; lia). clearbody n.
  wp_step. apply malloc_cases; [|intros w' Hw' Hm; cbn [negb]; wp_step; split; [done|by right]].
  intros w' Hw'. cbn [negb]. rewrite Hsb. rewrite cluster_bytes_val.
  wp_step. apply wp_cdiv; [lia|]. wp_step. apply wp_cmod; [lia|].
  assert (chain (tab (w_disk w')) (first_cluster (vn_node v)) l) as Hch
    by (rewrite Hw'; apply file_chain; [done|fold size; lia]).
  destruct (chain_head _ _ _ Hch) as (? & _ & Hv).
  rewrite (proj2 (Z.eqb_neq (first_cluster _) 0)) by (unfold valid in Hv; lia). cbn [andb].
  assert (0 ≤ off / cluster_size) by (apply Z.div_pos; lia).
  assert (off = cluster_size * (off / cluster_size) + off mod cluster_size) as Hoff by (apply Z.div_mod; lia).
  pose proof (Z.mod_pos_bound off cluster_size ltac:(lia)).
  assert (off / cluster_size < Z.of_nat (length l)) by (apply Z.div_lt_upper_bound; lia).
  destruct (lookup_is_Some l (Z.to_nat (off / cluster_size))) as [c' Hc']; [lia|].
  wp_step. eapply wp_eq; [by eapply skip_clusters_run|]. on_success.
  wp_step. eapply wp_eq.
  { eapply read_clusters_run; [by eapply chain_drop| |done|simpl; lia|].
    - rewrite length_drop. pose proof (chain_length _ _ _ Hch). lia.
    - rewrite length_drop. simpl. rewrite Nat2Z.inj_sub by lia. nia. }
  cbn [app length]. replace (n - Z.of_nat 0) with n by lia.
  assert (slice (Z.to_nat (off mod cluster_size)) (Z.to_nat n)
            (file_bytes (w_disk w') (drop (Z.to_nat (off / cluster_size)) l)) =
          slice (Z.to_nat off) (Z.to_nat n) (file_bytes (w_disk w) l)) as ->.
  { rewrite Hw'. unfold slice. f_equal.
    rewrite <- (take_drop (Z.to_nat (off / cluster_size)) l) at 2. unfold file_bytes.
    rewrite fmap_app, join_app, drop_app_ge.
    - f_equal. fold (file_bytes (w_disk w) (take (Z.to_nat (off / cluster_size)) l)).
      rewrite length_file_bytes, length_take. nia.
    - fold (file_bytes (w_disk w) (take (Z.to_nat (off / cluster_size)) l)).
      rewrite length_file_bytes, length_take. nia. }
  rewrite length_slice by lia. rewrite Z2Nat.id by lia. rewrite !Z.eqb_refl. cbn [negb andb].
  wp_step. split; [done|]. left. f_equal.
  destruct (decide (len ≤ size - off)).
  - rewrite take_slice by lia. f_equal. lia.
  - unfold slice. rewrite <- (take_ge (drop _ (take _ _)) (Z.to_nat len)) by (rewrite length_drop, length_take; lia).
    rewrite skipn_firstn_comm, take_take. rewrite take_take. f_equal. lia.
Qed.

(** ** Writing in place *)

Lemma extend_from_run c l n c' w :
  chain (tab (w_disk w)) c l → l !! n = Some c' → extend_from sb n c w = Some ((ERR_SUCCESS, c'), w).
Proof.
  intros Hl. revert n. remember (tab (w_disk w)) as t eqn:Et.
  induction Hl as [c Hc He|c l Hc Hv Hl IH]; intros [|n] Hn; simplify_eq/=; try done.
  erewrite bind_run by (by apply next_cluster_run). rewrite decide_False, decide_True by (try done; by apply valid_not_eoc).
  on_success. rewrite (proj2 (Z.eqb_neq _ 0)) by (unfold valid in Hv; lia). cbn [negb]. by apply IH.
Qed.

Lemma ensure_cluster_run node l i c w :
  node_sb node = sb → chain (tab (w_disk w)) (first_cluster node) l → 0 ≤ i → l !! Z.to_nat i = Some c →
  fat_ensure_cluster node i w = Some ((ERR_SUCCESS, c, node), w).
Proof.
  intros Hsb Hl Hi Hc. unfold fat_ensure_cluster. destruct (chain_head _ _ _ Hl) as (? & _ & Hv).
  rewrite (proj2 (Z.eqb_neq (first_cluster _) 0)) by (unfold valid in Hv; lia). rewrite Hsb.
  erewrite bind_run by done. on_success. erewrite bind_run by (by eapply extend_from_run). done.
Qed.

(** A byte of a file. *)
Lemma lookup_file_bytes d l k :
  file_bytes d l !! k =
    (c ← l !! (k / Z.to_nat cluster_size)%nat; cluster_data d c !! (k mod Z.to_nat cluster_size)%nat).
Proof.
  assert (0 < Z.to_nat cluster_size)%nat as Hcs by (pose proof (l_spc sb L); unfold cluster_size; lia).
  revert k. induction l as [|c l IH]; intros k; [done|].
  rewrite file_bytes_cons. pose proof (length_cluster d c) as Hlc.
  destruct (decide (k < Z.to_nat cluster_size)%nat).
  - rewrite lookup_app_l by lia. by rewrite Nat.div_small, Nat.mod_small by done.
  - rewrite lookup_app_r, Hlc, IH by lia.
    set (k' := (k - Z.to_nat cluster_size)%nat). replace k with (k' + 1 * Z.to_nat cluster_size)%nat by (subst k'; lia).
    rewrite Nat.div_add, Nat.Div0.mod_add by lia. by rewrite Nat.add_1_r.
Qed.

(** Replacing bytes of one cluster replaces them in the file. *)
Lemma file_bytes_update d d' l i c k bs :
  NoDup l → l !! i = Some c → (k + length bs ≤ Z.to_nat cluster_size)%nat →
  cluster_data d' c = splice k bs (cluster_data d c) →
  (∀ x, x ∈ l → x ≠ c → cluster_data d' x = cluster_data d x) →
  file_bytes d' l = splice (i * Z.to_nat cluster_size + k) bs (file_bytes d l).
Proof.
  intros Hnd Hi Hk Hc Ho. set (cs := Z.to_nat cluster_size) in *.
  assert (0 < cs)%nat by (pose proof (l_spc sb L); subst cs; unfold cluster_size; lia).
  pose proof (lookup_lt_Some _ _ _ Hi) as Hil.
  assert (i * cs + k + length bs ≤ length (file_bytes d l))%nat as Hin.
  { rewrite length_file_bytes. fold cs. nia. }
  apply list_eq. intros m. rewrite splice_lookup by done. rewrite !lookup_file_bytes. fold cs.
  pose proof (Nat.div_mod m cs ltac:(lia)) as Hm. pose proof (Nat.mod_upper_bound m cs ltac:(lia)).
  destruct (l !! (m / cs)%nat) as [x|] eqn:Ex; simpl.
  2: { apply lookup_ge_None in Ex. rewrite decide_False; [done|].
       assert (i < m / cs)%nat by lia. nia. }
  destruct (decide (x = c)) as [->|Hne].
  - assert ((m / cs)%nat = i) as E by (eapply NoDup_lookup; eauto).
    rewrite Hc, splice_lookup by (rewrite length_cluster; fold cs; lia).
    rewrite E in Hm. destruct (decide (k ≤ m mod cs < k + length bs)%nat).
    + rewrite decide_True by lia. f_equal. lia.
    + rewrite decide_False by lia. done.
  - rewrite Ho by (try done; by eapply list_elem_of_lookup_2). rewrite decide_False; [done|].
    intros Hr. apply Hne. assert ((m / cs)%nat = i) as E by nia. rewrite E in Ex. congruence.
Qed.

(** What a write may not touch: the sectors outside the clusters [l]. *)
Definition outside (l : list Z) d d' : Prop :=
  ∀ s, (∀ c, c ∈ l → ¬ in_cluster c s) → sec (bdev sb) d' s = sec (bdev sb) d s.

Lemma outside_table l d d' j :
  (∀ c, c ∈ l → valid c) → outside l d d' → 0 ≤ j < cluster_count sb + 2 → tab d' j = tab d j.
Proof.
  intros Hv Ho Hj. apply (table_local sb); [done|]. intros s Hs. apply Ho. intros c Hc Hin.
  by eapply cluster_not_fat; eauto.
Qed.

Lemma write_from_wp n l buf off node done w d0 :
  node_sb node = sb → chain (tab d0) (first_cluster node) l → Forall is_u8 buf →
  0 ≤ off → off + Z.of_nat (length buf) ≤ Z.of_nat (length l) * cluster_size →
  off + Z.of_nat (length buf) < 2 ^ 32 →
  0 ≤ done → Z.of_nat (length buf) ≤ done + Z.of_nat n → done ≤ Z.of_nat (length buf) →
  file_bytes (w_disk w) l = splice (Z.to_nat off) (take (Z.to_nat done) buf) (file_bytes d0 l) →
  outside l d0 (w_disk w) →
  wp (write_from n buf off done node) (λ r w', r = (ERR_SUCCESS, Z.of_nat (length buf), node) ∧
    w_malloc w' = w_malloc w ∧
    file_bytes (w_disk w') l = splice (Z.to_nat off) buf (file_bytes d0 l) ∧ outside l d0 (w_disk w')) w.
Proof.
  intros Hsb Hl H8 Ho Hfit H32. revert done w. induction n as [|n IH]; intros done w Hd Hn Hdl Hfb Hout; cbn [write_from].
  { rewrite (proj2 (Z.ltb_ge _ _)) by lia. cbn [negb]. wp_step.
    replace done with (Z.of_nat (length buf)) in * by lia. rewrite Nat2Z.id, take_ge in Hfb by lia. done. }
  destruct (Z.ltb_spec done (Z.of_nat (length buf))) as [Hlt|Hge]; cbn [negb].
  2: { wp_step. replace done with (Z.of_nat (length buf)) in * by lia.
       rewrite Nat2Z.id, take_ge in Hfb by lia. done. }
  assert (∀ c, c ∈ l → valid c) as Hvl by (intros c; by eapply chain_valid).
  assert (chain (tab (w_disk w)) (first_cluster node) l) as Hlw.
  { eapply chain_ext; [done|]. intros x Hx. apply (outside_table l); [done..|].
    apply Hvl in Hx. unfold valid in Hx. lia. }
  assert (0 < cluster_size) by (pose proof (l_spc sb L); unfold cluster_size; lia).
  rewrite Hsb, cluster_bytes_val, u32_small by lia. set (o := off + done) in *.
  wp_step. apply wp_cdiv; [lia|]. assert (0 ≤ o / cluster_size) by (apply Z.div_pos; lia).
  assert (o / cluster_size < Z.of_nat (length l)) by (apply Z.div_lt_upper_bound; lia).
  assert (o = cluster_size * (o / cluster_size) + o mod cluster_size) as Hoff by (apply Z.div_mod; lia).
  pose proof (Z.mod_pos_bound o cluster_size ltac:(lia)).
  destruct (lookup_is_Some l (Z.to_nat (o / cluster_size))) as [c Hc]; [lia|].
  assert (c ∈ l) as Hcl by (by eapply list_elem_of_lookup_2).
  wp_step. eapply wp_eq; [by eapply ensure_cluster_run|]. on_success.
  wp_step. eapply wp_eq; [apply read_cluster_run; auto|]. on_success.
  wp_step. apply wp_cmod; [lia|]. set (k := o mod cluster_size) in *.
  set (amount := Z.min (cluster_size - k) (Z.of_nat (length buf) - done)).
  assert (length (slice (Z.to_nat done) (Z.to_nat amount) buf) = Z.to_nat amount) as Hls by (apply length_slice; lia).
  pose proof (length_cluster (w_disk w) c) as Hlc.
  destruct (write_cluster_run c (splice (Z.to_nat k) (slice (Z.to_nat done) (Z.to_nat amount) buf)
              (cluster_data (w_disk w) c)) w) as (d' & Hw & Hcd & Hf); [by apply Hvl| | |].
  { rewrite length_splice; lia. }
  { unfold splice, slice. rewrite !Forall_app.
    split_and!; [apply Forall_take, cluster_data_bytes|by apply Forall_take, Forall_drop|apply Forall_drop, cluster_data_bytes]. }
  wp_step. eapply wp_eq; [exact Hw|]. on_success.
  apply (IH _ (mk_world d' (w_malloc w))); [lia|lia|lia| |].
  - cbn [w_disk]. erewrite (file_bytes_update (w_disk w) d' l); [|by eapply chain_NoDup|done| |exact Hcd|].
    + rewrite Hfb. replace (Z.to_nat (o / cluster_size) * Z.to_nat cluster_size + Z.to_nat k)%nat
        with (Z.to_nat off + Z.to_nat done)%nat by nia.
      rewrite splice_step; [|lia|rewrite length_file_bytes; nia].
      by replace (Z.to_nat (done + amount)) with (Z.to_nat done + Z.to_nat amount)%nat by lia.
    + lia.
    + intros x Hx Hne. apply cluster_data_ext. intros s Hs. apply Hf. by eapply clusters_apart.
  - intros s Hs. cbn [w_disk]. rewrite Hf by auto. by apply Hout.
Qed.

(** ** Directory entries *)

Lemma dirent_at_some buf off :
  Forall is_u8 buf → (off + 32 ≤ length buf)%nat → ∃ de, dirent_at buf off = Some de.
Proof.
  intros H8 Hlen. unfold dirent_at.
  destruct (lookup_is_Some buf (off + 11)) as [a ->]; [lia|].
  destruct (le16_range buf (off + 20) H8 ltac:(lia)) as (v1 & -> & _).
  destruct (le16_range buf (off + 26) H8 ltac:(lia)) as (v2 & -> & _).
  destruct (le32_range buf (off + 28) H8 ltac:(lia)) as (v3 & -> & _). by eexists.
Qed.

Lemma put16_bytes v : Forall is_u8 (put16 v).
Proof. repeat constructor; apply u8_range. Qed.
Lemma put32_bytes v : Forall is_u8 (put32 v).
Proof. repeat constructor; apply u8_range. Qed.
(** The entry of a file lies in a sector of its own. *)
Definition dirent_ok (node : fat_node D) (l : list Z) : Prop :=
  has_dirent node = true →
  0 ≤ dir_sector node < sector_count (bdev sb) ∧ 0 ≤ dir_offset node ∧ dir_offset node + 32 ≤ 512 ∧
  ¬ fat_area sb (dir_sector node) ∧ ∀ c, c ∈ l → ¬ in_cluster c (dir_sector node).

Lemma update_dirent_wp node l w :
  node_sb node = sb → dirent_ok node l →
  wp (fat_update_dirent node) (λ r w', r = ERR_SUCCESS ∧
    ∀ s, (has_dirent node = true → s ≠ dir_sector node) →
      sec (bdev sb) (w_disk w') s = sec (bdev sb) (w_disk w) s) w.
Proof.
  intros Hsb Hok. unfold fat_update_dirent. destruct (has_dirent node) eqn:Eh; cbn [negb].
  2: { by wp_step. }
  destruct (Hok Eh) as (Hs & Ho1 & Ho2 & _). pose proof (g_size sb (l_geom sb L)) as Hsz.
  rewrite Hsb, (g_bps sb (l_geom sb L)). unfold DIRENT_SIZE. rewrite (proj2 (Z.ltb_ge _ _)) by lia.
  unfold fat_read_sector, fat_write_sector, on_disk. wp_step. wp_step. eapply wp_eq; [by apply read_one|]. on_success.
  set (sector := sec (bdev sb) (w_disk w) (dir_sector node)).
  assert (length sector = 512%nat) as Hlen by (apply (length_sec (bdev sb)), Hsz).
  assert (Forall is_u8 sector) as H8 by (apply (sec_bytes (bdev sb))).
  destruct (dirent_at_some sector (Z.to_nat (dir_offset node)) H8) as [de Hde]; [lia|].
  wp_step. eapply wp_get_opt; [exact Hde|]. wp_step. unfold put_clusters.
  set (off := Z.to_nat (dir_offset node)) in *. assert (off + 32 ≤ 512)%nat by lia.
  assert (length (put32 (node_size node)) = 4%nat ∧ (∀ v, length (put16 v) = 2%nat)) as [L4 L2] by done.
  destruct (write_one (bdev sb) Hsz (w_disk w) (dir_sector node)
    (splice (off + 28) (put32 (node_size node))
      (splice (off + 26) (put16 (u16 (first_cluster node)))
        (splice (off + 20) (put16 (u16 (Z.shiftr (first_cluster node) 16))) sector)))) as (d' & Hw & Hsec); [done| | |].
  { rewrite !length_splice; rewrite ?length_splice; rewrite ?length_splice; rewrite ?L2, ?L4; lia. }
  { auto 10 using splice_bytes, put16_bytes, put32_bytes. }
  eapply wp_eq; [exact Hw|]. split; [done|]. intros s Hne. cbn [w_disk]. rewrite Hsec, decide_False by auto. done.
Qed.

(** ** The properties *)

(** C25: allocating takes the lowest free cluster of the volume, marks it as
    the end of a chain and clears its bytes; no other entry and no other
    sector outside the tables changes, so every chain keeps its clusters and
    its bytes.  It fails only when [malloc] does or no cluster is free, and
    then nothing on the disk has changed. *)
Theorem fat_alloc_cluster_correct w :
  wp (fat_alloc_cluster sb) (λ r w',
    (r = (ERR_OUT_OF_MEMORY, 0) ∧ w_disk w' = w_disk w ∧ head (w_malloc w) = Some false) ∨
    (r = (ERR_NO_SPACE_LEFT, 0) ∧ w_disk w' = w_disk w ∧ ∀ j, valid j → tab (w_disk w) j ≠ 0) ∨
    (∃ c, r = (ERR_SUCCESS, c) ∧ allocated (w_disk w) c (w_disk w') ∧
      chain (tab (w_disk w')) c [c] ∧
      ∀ f l, chain (tab (w_disk w)) f l →
        (c ∉ l) ∧ chain (tab (w_disk w')) f l ∧ file_bytes (w_disk w') l = file_bytes (w_disk w) l)) w.
Proof.
  eapply wp_mono; [apply fat_alloc_cluster_wp|]. intros r w' [?|[(c & -> & Ha)|?]]; [by left| |by right; left].
  right. right. exists c. split; [done|]. split; [done|]. pose proof Ha as [Hv Hfree _ He _ Hf].
  split. { constructor; [done|]. rewrite He, decide_True by (unfold valid in Hv; lia || done). apply (proj2 eoc_marker_spec). }
  intros f l Hl. assert (c ∉ l) as Hn.
  { intros Hc. destruct (chain_suffix _ _ _ _ Hl Hc) as (l1 & l2 & _ & Hs).
    inversion Hs as [? _ Hz|? ? _ Hz _]; subst; rewrite Hfree in Hz; unfold eoc, valid in Hz;
      [destruct (var sb); simpl in Hz|]; lia. }
  assert (∀ x, x ∈ l → valid x) as Hvl by (intros x; by eapply chain_valid).
  split; [done|]. split.
  - eapply chain_ext; [done|]. intros x Hx. rewrite He by (apply Hvl in Hx; unfold valid in Hx; lia).
    by rewrite decide_False by (by intros ->).
  - unfold file_bytes. f_equal. apply list_fmap_ext. intros k x Hx%list_elem_of_lookup_2.
    apply cluster_data_ext. intros s Hs. apply Hf; [by apply (cluster_not_fat x); [apply Hvl|]|].
    assert (x ≠ c) as Hne by (by intros ->). by apply (clusters_apart x c s).
Qed.

(** Freeing a chain terminates within the volume's number of clusters and
    succeeds; exactly the entries of the chain become free, and no sector
    outside the tables changes. *)
Theorem fat_free_chain_correct c l w :
  chain (tab (w_disk w)) c l →
  wp (fat_free_chain sb c) (λ r w', r = ERR_SUCCESS ∧
    (∀ j, 0 ≤ j < cluster_count sb + 2 → tab (w_disk w') j = if decide (j ∈ l) then 0 else tab (w_disk w) j) ∧
    (∀ s, ¬ fat_area sb s → sec (bdev sb) (w_disk w') s = sec (bdev sb) (w_disk w) s)) w.
Proof.
  intros Hl. unfold fat_free_chain. eapply wp_mono; [eapply free_from_wp; [done|]|].
  - pose proof (chain_length _ _ _ Hl). lia.
  - by intros r w' (? & _ & ? & ?).
Qed.

(** C23: reading a file returns the bytes of its clusters from the offset on,
    cut off at its size, and leaves the disk as it was; the only failure is
    that of [malloc]. *)
Theorem fat_read_correct w v off len l :
  vn_type v = VNODE_TYPE_FILE → file_ok (w_disk w) (vn_node v) l → 0 ≤ off → 0 ≤ len →
  wp (fat_read_vn (Some v) true off len) (λ r w', w_disk w' = w_disk w ∧
    (r = (ERR_SUCCESS, slice (Z.to_nat off) (Z.to_nat len) (file_content (w_disk w) (vn_node v) l)) ∨
     r = (ERR_OUT_OF_MEMORY, []) ∧ head (w_malloc w) = Some false)) w.
Proof. apply fat_read_vn_wp. Qed.

End clusters.

(** ** A run: a file of two clusters on a floppy *)

Abbreviation ex_sb := (ex_super FAT_TYPE_12).
#[global] Instance ex_sb_disk : Disk (bdev ex_sb) := ex_bdev_ok.
#[global] Instance ex_sb_table : Table ex_sb := fat_table ex_sb (ex_geom FAT_TYPE_12).

Lemma ex_layout : layout ex_sb.
Proof. split; [apply ex_geom|done|by_eval..]. Qed.

Definition ex_fat : list Z := [0xF0; 0xFF; 0xFF; 0x03; 0xF0; 0xFF] ++ replicate 506 0.
Definition ex_image : ram := λ i,
  if decide (i = 1) then ex_fat else if decide (i = 2) then ex_fat else
  if decide (i = 4) then replicate 512 65 else if decide (i = 5) then replicate 512 66 else replicate 512 0.
Definition ex_world : world ram := mk_world ex_image [].
Definition ex_file : fat_vnode ram :=
  mk_vnode VNODE_TYPE_FILE 1 1 (mk_node ex_sb 2 1000 0x20 3 0 true).

Lemma ex_chain : chain ex_sb (table_entry ex_sb (w_disk ex_world)) 2 [2; 3].
Proof.
  assert (table_entry ex_sb (w_disk ex_world) 2 = 3) as E2 by (vm_compute; reflexivity).
  assert (table_entry ex_sb (w_disk ex_world) 3 = 0xFFF) as E3 by (vm_compute; reflexivity).
  apply chain_next; [split; done|rewrite E2; split; done|rewrite E2].
  apply chain_end; [split; done|]. rewrite E3. by_eval.
Qed.
Lemma ex_file_ok : file_ok ex_sb (w_disk ex_world) (vn_node ex_file) [2; 3].
Proof. split; [done|right; exact ex_chain|by_eval]. Qed.
Lemma ex_dirent_ok : dirent_ok ex_sb (vn_node ex_file) [2; 3].
Proof.
  intros _. split_and!; [by_eval..| |].
  - unfold fat_area. by_eval.
  - intros c [->|[->|?%elem_of_nil]%elem_of_cons]%elem_of_cons; [unfold in_cluster; by_eval..|done].
Qed.

Lemma fat_alloc_cluster_correct_witness :
  (∃ w', fat_alloc_cluster ex_sb ex_world = Some ((ERR_SUCCESS, 4), w')) ∧
  wp (fat_alloc_cluster ex_sb) (λ r w', r = (ERR_SUCCESS, 4) → cluster_data ex_sb (w_disk w') 2 = replicate 512 65) ex_world.
Proof.
  split.
  - assert (fst <$> fat_alloc_cluster ex_sb ex_world = Some (ERR_SUCCESS, 4)) as E by (vm_compute; reflexivity).
    destruct (fat_alloc_cluster ex_sb ex_world) as [[r w']|]; [|done]. simpl in E. injection E as ->. by exists w'.
  - eapply wp_mono; [apply (fat_alloc_cluster_correct ex_sb ex_layout ex_world)|].
    intros r w' [[-> _]|[[-> _]|(c & -> & _ & _ & H)]]; [done|done|]. intros _.
    destruct (H 2 [2; 3] ex_chain) as (_ & _ & Hb).
    apply (f_equal (take 512)) in Hb. rewrite !file_bytes_cons, !take_app_length' in Hb
      by (by rewrite length_cluster by exact ex_layout). rewrite Hb. vm_compute. reflexivity.
Defined.

Lemma fat_free_chain_correct_witness :
  ∃ w', fat_free_chain ex_sb 2 ex_world = Some (ERR_SUCCESS, w') ∧
    table_entry ex_sb (w_disk w') 2 = 0 ∧ table_entry ex_sb (w_disk w') 3 = 0.
Proof.
  pose proof (fat_free_chain_correct ex_sb ex_layout 2 [2; 3] ex_world ex_chain) as H.
  apply (proj1 (wp_run _ _ _)) in H as (r & w' & Hrun & -> & He & _). exists w'. split; [exact Hrun|].
  rewrite !He by by_eval. split; reflexivity.
Defined.

Lemma fat_read_correct_witness :
  ∃ w', fat_read_vn (Some ex_file) true 510 4 ex_world = Some ((ERR_SUCCESS, [65; 65; 66; 66]), w').
Proof.
  pose proof (fat_read_correct ex_sb ex_layout ex_world ex_file 510 4 [2; 3] eq_refl ex_file_ok ltac:(by_eval) ltac:(by_eval)) as H.
  apply (proj1 (wp_run _ _ _)) in H as (r & w' & Hrun & _ & [->|[_ Hm]]); [|discriminate Hm]. exists w'. rewrite Hrun.
  vm_compute. reflexivity.
Defined.

End FatSpec.
