(* ===== verification/FatDir.v ===== *)
(** * Directories of a FAT volume

    The theorems about the directory walk of [Fat.v]: a walk with any callback
    is a walk along the list of live entries, whatever area they are
    stored in; lookup and readdir follow.  Short names are read back as they
    were written. *)

From S2P Require Import Prelude Block Vnode FatTable Fat FatSpec.
Import Block Vnode FatTable Fat FatSpec.

Module FatDir.

(** A live entry and where it is stored. *)
Record slot := mk_slot { sl_entry : fat_dirent; sl_sector : Z; sl_offset : Z }.
Definition sl_name (s : slot) : cstring := fat_name_to_str (de_name (sl_entry s)).

(** An entry that the walk passes over: deleted, part of a long name or a
    volume label. *)
Definition passed_over (de : fat_dirent) : bool :=
  (default 0 (head (de_name de)) =? 0xE5) || (de_attr de =? 0x0F) || negb (Z.land (de_attr de) 0x08 =? 0).

(** The live entries of a buffer, whether the directory ends in it and the
    number of entries seen. *)
Fixpoint live_slots (limit : option Z) (place : Z → Z * Z) (buf : list Z) (n off : nat) (entries : Z)
    : list slot * bool * Z :=
  match n with
  | O => ([], false, entries)
  | S n =>
    if (match limit with Some m => m <=? entries | None => false end) then ([], true, entries) else
    match dirent_at buf off with
    | None => ([], true, entries)
    | Some de =>
      if default 0 (head (de_name de)) =? 0x00 then ([], true, entries + 1) else
      let '(es, ended, seen) := live_slots limit place buf n (off + DIRENT_SIZE) (entries + 1) in
      if passed_over de then (es, ended, seen)
      else (mk_slot de (place (Z.of_nat off)).1 (place (Z.of_nat off)).2 :: es, ended, seen)
    end
  end.

Section walk.
Context {D C : Type} (cb : dir_cb (D := D) C).

(** The callback along a list of entries, until it stops. *)
Fixpoint run_cb (es : list slot) (ctx : C) : cmd (world D) (bool * C) :=
  match es with
  | [] => mret (false, ctx)
  | s :: es =>
    '(stop, ctx) ← cb (sl_entry s) (sl_name s) (sl_sector s) (sl_offset s) ctx;
    if (stop : bool) then mret (true, ctx) else run_cb es ctx
  end.

Lemma run_cb_app es1 es2 ctx (Q : bool * C → world D → Prop) w :
  wp (run_cb (es1 ++ es2) ctx) Q w ↔
  wp (run_cb es1 ctx) (λ '(stop, ctx) w', if (stop : bool) then Q (true, ctx) w' else wp (run_cb es2 ctx) Q w') w.
Proof.
  revert ctx w. induction es1 as [|s es1 IH]; intros ctx w; [done|].
  cbn [app run_cb]. unfold wp, mbind, cmd_bind in *.
  destruct (cb _ _ _ _ ctx w) as [[[[] ctx'] w']|]; [done| |done]. apply IH.
Qed.

Lemma scan_slots_wp limit place buf n off entries ctx (Q : bool * Z * C → world D → Prop) w es ended seen :
  Forall is_u8 buf → (off + 32 * n ≤ length buf)%nat →
  live_slots limit place buf n off entries = (es, ended, seen) →
  wp (run_cb es ctx) (λ '(stop, ctx) w', ∀ e, (stop = false → e = seen) → Q (stop || ended, e, ctx) w') w →
  wp (scan_slots cb limit place buf n off entries ctx) Q w.
Proof.
  intros H8. revert off entries ctx w es ended seen.
  induction n as [|n IH]; intros off entries ctx w es ended seen Hlen Hes H; cbn [live_slots scan_slots] in *.
  { injection Hes as <- <- <-. apply wp_ret. unfold wp in H. simpl in H. by apply H. }
  destruct (match limit with Some m => m <=? entries | None => false end).
  { injection Hes as <- <- <-. apply wp_ret. unfold wp in H. simpl in H. by apply H. }
  destruct (dirent_at_some buf off H8) as [de Hde]; [lia|]. rewrite Hde in Hes.
  apply wp_bind. eapply wp_get_opt; [exact Hde|].
  destruct (default 0 (head (de_name de)) =? 0).
  { injection Hes as <- <- <-. apply wp_ret. unfold wp in H. simpl in H. by apply H. }
  destruct (live_slots limit place buf n (off + DIRENT_SIZE) (entries + 1)) as [[es' ended'] seen'] eqn:El.
  fold (passed_over de). destruct (passed_over de).
  { injection Hes as -> -> ->. eapply IH; [|exact El|exact H]. unfold DIRENT_SIZE. lia. }
  injection Hes as <- <- <-. destruct (place (Z.of_nat off)) as [sector offset].
  cbn [run_cb sl_entry sl_sector sl_offset fst snd] in H. unfold sl_name in H. cbn [sl_entry] in H.
  apply wp_bind. unfold wp at 1 in H. unfold mbind, cmd_bind in H. unfold wp at 1.
  destruct (cb _ _ _ _ ctx w) as [[[[] ctx'] w']|]; [|eapply IH; [|exact El|exact H]; unfold DIRENT_SIZE; lia|done].
  apply wp_ret. by apply H.
Qed.
End walk.

(** A callback that leaves the disk alone. *)
Definition quiet {D C} (cb : dir_cb (D := D) C) : Prop :=
  ∀ de name s o ctx w, wp (cb de name s o ctx) (λ _ w', w_disk w' = w_disk w) w.

Lemma quiet_run {D C} (cb : dir_cb (D := D) C) es ctx (Q : bool * C → world D → Prop) w :
  quiet cb → wp (run_cb cb es ctx) Q w → wp (run_cb cb es ctx) (λ r w', Q r w' ∧ w_disk w' = w_disk w) w.
Proof.
  intros Hq. revert ctx w. induction es as [|s es IH]; intros ctx w H; [done|].
  cbn [run_cb] in *. pose proof (Hq (sl_entry s) (sl_name s) (sl_sector s) (sl_offset s) ctx w) as Hd.
  unfold wp, mbind, cmd_bind in *. destruct (cb _ _ _ _ ctx w) as [[[[] ctx'] w']|]; [done| |done].
  specialize (IH ctx' w' H). destruct (run_cb cb es ctx' w') as [[r w2]|]; [|done].
  destruct IH as [? ->]. done.
Qed.

Section directories.
Context {D : Type} (sb : fat_super D) `{HD : !Disk (bdev sb)} `{HT : !Table sb} (L : layout sb).
Implicit Types (d : D) (w : world D).
Abbreviation tab := (table_entry sb).

(** The live entries of a chain of clusters. *)
Definition cluster_place (c off : Z) : Z * Z :=
  (u32 (fat_cluster_to_lba sb c + off / bytes_per_sector sb), u16 (off mod bytes_per_sector sb)).
Definition cluster_slots d (c : Z) : list slot * bool :=
  (live_slots None (cluster_place c) (cluster_data sb d c) (slots (cluster_bytes sb)) 0 0).1.
Fixpoint chain_slots d (l : list Z) : list slot :=
  match l with
  | [] => []
  | c :: l => let '(es, ended) := cluster_slots d c in if (ended : bool) then es else es ++ chain_slots d l
  end.

(** The live entries of the fixed root directory, from sector [s] on. *)
Definition root_place (s off : Z) : Z * Z := (u32 (root_dir_start sb + s), u16 off).
Fixpoint root_slots d (n : nat) (s entries : Z) : list slot :=
  match n with
  | O => []
  | S n =>
    let '(es, ended, seen) := live_slots (Some (root_entries sb)) (root_place s)
      (sec (bdev sb) d (root_dir_start sb + s)) (slots (bytes_per_sector sb)) 0 entries in
    if (ended : bool) then es else es ++ root_slots d n (s + 1) seen
  end.

(** [es] are the live entries of the directory of a node. *)
Inductive dir_slots d (node : fat_node D) : list slot → Prop :=
  | dir_root :
      fixed_root sb (first_cluster node) = true →
      dir_slots d node (root_slots d (Z.to_nat (root_dir_sectors sb)) 0 0)
  | dir_chain l :
      fixed_root sb (first_cluster node) = false → chain sb (tab d) (first_cluster node) l →
      dir_slots d node (chain_slots d l).

Lemma slots_fit bytes : 0 ≤ bytes → bytes mod 32 = 0 → (32 * slots bytes)%nat = Z.to_nat bytes.
Proof. intros. unfold slots. lia. Qed.

Lemma iter_chain_wp {C} (cb : dir_cb C) n c l ctx (Q : Z * C → world D → Prop) w :
  quiet cb → chain sb (tab (w_disk w)) c l → (length l ≤ n)%nat →
  wp (run_cb cb (chain_slots (w_disk w) l) ctx) (λ '(_, ctx) w', Q (ERR_SUCCESS, ctx) w') w →
  wp (iter_chain sb cb n c ctx) Q w.
Proof.
  intros Hq. revert c n ctx w. induction l as [|x l IH]; intros c n ctx w Hl Hn H;
    [by destruct (chain_head _ _ _ _ Hl) as (? & ? & ?)|].
  destruct n as [|n]; [simpl in Hn; lia|]. destruct (chain_head _ _ _ _ Hl) as (? & [= -> <-] & Hc).
  cbn [iter_chain chain_slots] in *. wp_step. eapply wp_eq; [by apply read_cluster_run|]. on_success.
  fold (cluster_place c). wp_step.
  destruct (cluster_slots (w_disk w) c) as [es ended] eqn:Es. unfold cluster_slots in Es.
  destruct (live_slots None (cluster_place c) (cluster_data sb (w_disk w) c) (slots (cluster_bytes sb)) 0 0)
    as [[es0 ended0] seen] eqn:El. injection Es as -> ->.
  eapply scan_slots_wp; [apply cluster_data_bytes| |exact El|].
  { rewrite cluster_bytes_val by done. pose proof (length_cluster sb L (w_disk w) c). pose proof (l_spc sb L).
    rewrite slots_fit; unfold cluster_size in *; lia. }
  eapply wp_mono with (P := λ '(stop, ctx) w', w_disk w' = w_disk w ∧
     if (stop : bool) || ended then Q (ERR_SUCCESS, ctx) w' else
     wp (run_cb cb (chain_slots (w_disk w) l) ctx) (λ '(_, ctx) w', Q (ERR_SUCCESS, ctx) w') w').
  { destruct ended.
    - eapply wp_mono; [apply quiet_run; [done|exact H]|]. intros [[] ctx'] w' [HQ Hw]; by split.
    - rewrite run_cb_app in H.
      eapply wp_mono; [apply quiet_run; [done|exact H]|]. intros [[] ctx'] w' [HQ Hw]; by split. }
  intros [stop ctx'] w' [Hw HQ] e _. cbn beta iota. destruct (stop || ended); cbn iota; [by wp_step|].
  wp_step. eapply wp_eq; [by apply next_cluster_run|]. rewrite Hw.
  inversion Hl as [? _ He|? ? _ Hv Hl']; subst.
  - rewrite decide_True by done. on_success. change (0 =? 0) with true. cbn iota. by wp_step.
  - rewrite decide_False, decide_True by (try done; by apply (valid_not_eoc sb L)). on_success.
    rewrite (proj2 (Z.eqb_neq _ 0)) by (unfold valid in Hv; lia).
    apply IH; [by rewrite Hw|simpl in Hn; lia|by rewrite Hw].
Qed.

Lemma root_area : fixed_root sb 0 = true → 0 ≤ root_dir_start sb ∧
  root_dir_start sb + root_dir_sectors sb ≤ sector_count (bdev sb) < 2 ^ 32.
Proof.
  intros _. pose proof (sec_count (bdev sb)). destruct L as [[] ].
  assert (0 ≤ fat_count sb * fat_sectors sb) by (apply Z.mul_nonneg_nonneg; lia).
  assert (0 ≤ cluster_count sb * sectors_per_cluster sb) by (apply Z.mul_nonneg_nonneg; lia). lia.
Qed.

Lemma iter_root_wp {C} (cb : dir_cb C) n s entries ctx (Q : Z * C → world D → Prop) w :
  quiet cb → 0 ≤ root_dir_start sb → 0 ≤ s →
  root_dir_start sb + s + Z.of_nat n ≤ sector_count (bdev sb) < 2 ^ 32 →
  wp (run_cb cb (root_slots (w_disk w) n s entries) ctx) (λ '(_, ctx) w', Q (ERR_SUCCESS, ctx) w') w →
  wp (iter_root sb cb n s entries ctx) Q w.
Proof.
  intros Hq Hr. revert s entries ctx w. induction n as [|n IH]; intros s entries ctx w Hs Hfit H;
    cbn [iter_root root_slots] in *.
  { wp_step. done. }
  rewrite u32_small by lia. unfold fat_read_sector, on_disk. wp_step. wp_step.
  eapply wp_eq; [by apply read_one; lia|]. replace (mk_world (w_disk w) (w_malloc w)) with w by (by destruct w).
  on_success. wp_step.
  destruct (live_slots (Some (root_entries sb)) (root_place s) (sec (bdev sb) (w_disk w) (root_dir_start sb + s))
    (slots (bytes_per_sector sb)) 0 entries) as [[es ended] seen] eqn:El.
  unfold root_place in El. rewrite u32_small in El by lia.
  eapply scan_slots_wp; [apply (sec_bytes (bdev sb))| |exact El|].
  { rewrite (length_sec (bdev sb)) by apply L. rewrite (g_bps sb (l_geom sb L)), slots_fit by lia. lia. }
  eapply wp_mono with (P := λ '(stop, ctx) w', w_disk w' = w_disk w ∧
     if (stop : bool) || ended then Q (ERR_SUCCESS, ctx) w' else
     wp (run_cb cb (root_slots (w_disk w) n (s + 1) seen) ctx) (λ '(_, ctx) w', Q (ERR_SUCCESS, ctx) w') w').
  { destruct ended.
    - eapply wp_mono; [apply quiet_run; [done|exact H]|]. intros [[] ctx'] w' [HQ Hw]; by split.
    - rewrite run_cb_app in H.
      eapply wp_mono; [apply quiet_run; [done|exact H]|]. intros [[] ctx'] w' [HQ Hw]; by split. }
  intros [stop ctx'] w' [Hw HQ] e He. cbn beta iota.
  destruct stop; cbn [orb] in *; [by wp_step|]. rewrite He by done.
  destruct ended; cbn iota; [by wp_step|]. apply IH; [lia|lia|by rewrite Hw].
Qed.

(** A walk is a walk along the live entries; it fails when the allocation
    of the buffer does. *)
Lemma iter_dir_wp {C} (cb : dir_cb C) node es ctx (Q : Z * C → world D → Prop) w :
  quiet cb → node_sb node = sb → dir_slots (w_disk w) node es →
  (∀ w', w_disk w' = w_disk w → head (w_malloc w) = Some false → Q (ERR_OUT_OF_MEMORY, ctx) w') →
  (∀ w', w_disk w' = w_disk w → w_malloc w' = tail (w_malloc w) →
     wp (run_cb cb es ctx) (λ '(_, ctx) w', Q (ERR_SUCCESS, ctx) w') w') →
  wp (fat_iter_dir sb node cb ctx) Q w.
Proof.
  intros Hq Hsb Hes Hoom Hrun. unfold fat_iter_dir. wp_step.
  assert (∀ w', w_disk w' = w_disk w → w_malloc w' = tail (w_malloc w) →
    wp (if fixed_root sb (first_cluster node)
        then iter_root sb cb (Z.to_nat (root_dir_sectors sb)) 0 0 ctx
        else iter_chain sb cb (Z.to_nat (cluster_count sb)) (first_cluster node) ctx) Q w') as Hgo.
  { intros w' Hw Hm. specialize (Hrun w' Hw Hm). rewrite <- Hw in Hes. destruct Hes as [Hf|l Hf Hl]; rewrite Hf.
    - assert (fixed_root sb 0 = true) as H0.
      { unfold fixed_root in *. by apply andb_true_iff in Hf as [_ ->]. }
      pose proof (root_area H0). pose proof (l_root_size sb L). apply iter_root_wp; [done|lia|lia|lia|done].
    - apply (iter_chain_wp _ _ _ l); [done|done| |done]. pose proof (chain_length sb L _ _ _ Hl). lia. }
  unfold wp at 1, malloc. destruct (w_malloc w) as [|[] m] eqn:Em; cbn [negb]; [by apply Hgo|by apply Hgo|].
  wp_step. by apply Hoom.
Qed.

(** ** Lookup *)

(** The vnode of an entry. *)
Definition slot_vnode (mp : positive) (s : slot) : fat_vnode D :=
  let de := sl_entry s in
  mk_vnode (if negb (Z.land (de_attr de) 0x10 =? 0) then VNODE_TYPE_DIR else VNODE_TYPE_FILE) mp 1
    (mk_node sb (Z.lor (u32 (Z.shiftl (fst_clus_hi de) 16)) (fst_clus_lo de)) (file_size de) (de_attr de)
       (sl_sector s) (sl_offset s) true).

Lemma alloc_vnode_wp mp first size attr w :
  wp (fat_alloc_vnode mp sb first size attr) (λ r w', w_disk w' = w_disk w ∧
    match r with
    | Some vn => vn = mk_vnode (if negb (Z.land attr 0x10 =? 0) then VNODE_TYPE_DIR else VNODE_TYPE_FILE) mp 1
                        (mk_node sb first size attr 0 0 false)
    | None => w_malloc w !! 0%nat = Some false ∨ w_malloc w !! 1%nat = Some false
    end) w.
Proof.
  unfold fat_alloc_vnode, wp, mbind, cmd_bind, malloc.
  destruct (w_malloc w) as [|[] [|[] l]] eqn:E; simpl; rewrite ?E; simpl; auto.
Qed.

Lemma lookup_cb_quiet name dir : quiet (fat_lookup_cb (D := D) name dir).
Proof.
  intros de nm s o ctx w. unfold fat_lookup_cb. destruct (strcaseeq nm name); cbn [negb]; [|by wp_step].
  wp_step. unfold fat_alloc_vnode, wp, mbind, cmd_bind, malloc.
  destruct (w_malloc w) as [|[] [|[] l]] eqn:E; simpl; rewrite ?E; simpl; auto.
Qed.

Lemma run_lookup dir name es w :
  node_sb (vn_node dir) = sb →
  wp (run_cb (fat_lookup_cb name dir) es (None, ERR_SUCCESS)) (λ '(_, ctx) w', w_disk w' = w_disk w ∧
    match List.find (λ s, strcaseeq (sl_name s) name) es with
    | None => ctx = (None, ERR_SUCCESS)
    | Some s => ctx = (Some (slot_vnode (vn_mount dir) s), ERR_SUCCESS) ∨
        ctx = (None, ERR_OUT_OF_MEMORY) ∧ (w_malloc w !! 0%nat = Some false ∨ w_malloc w !! 1%nat = Some false)
    end) w.
Proof.
  intros Hsb. revert w. induction es as [|s es IH]; intros w; cbn [run_cb List.find]; [by wp_step|].
  wp_step. unfold fat_lookup_cb at 1. destruct (strcaseeq (sl_name s) name); cbn [negb].
  2: { wp_step. apply IH. }
  wp_step. rewrite Hsb. eapply wp_mono; [apply alloc_vnode_wp|]. intros [vn|] w' [Hw Hvn]; wp_step; cbn beta iota; wp_step.
  - split; [done|]. left. by rewrite Hvn.
  - split; [done|]. by right.
Qed.

(** C33: lookup returns the first live entry of the directory whose name is
    equal up to case, with its type, first cluster, size and place, whether
    the directory is the fixed root or a chain of clusters; it reports that
    there is none exactly when no entry matches, and it changes nothing on the
    disk.  The only other outcome is a failed allocation. *)
Theorem fat_lookup_correct w dir name es :
  vn_type dir = VNODE_TYPE_DIR → node_sb (vn_node dir) = sb → dir_slots (w_disk w) (vn_node dir) es →
  wp (fat_lookup_vn (Some dir) (Some name)) (λ r w', w_disk w' = w_disk w ∧
    ((r = (ERR_OUT_OF_MEMORY, None) ∧ ∃ k, (k < 3)%nat ∧ w_malloc w !! k = Some false) ∨
     r = match List.find (λ s, strcaseeq (sl_name s) name) es with
         | Some s => (ERR_SUCCESS, Some (slot_vnode (vn_mount dir) s))
         | None => (ERR_NOT_FOUND, None)
         end)) w.
Proof.
  intros Hty Hsb Hes. unfold fat_lookup_vn. rewrite bool_decide_true by done. cbn [negb]. rewrite Hsb.
  wp_step. apply (iter_dir_wp _ _ es); [apply lookup_cb_quiet|done|done| |].
  - intros w' Hw Hm. cbn beta iota. change (negb (snd (@None (fat_vnode D), ERR_SUCCESS) =? ERR_SUCCESS)) with false.
    cbn iota. change (negb (ERR_OUT_OF_MEMORY =? ERR_SUCCESS)) with true. cbn iota. wp_step. split; [done|]. left.
    split; [done|]. exists 0%nat. split; [lia|]. by destruct (w_malloc w).
  - intros w' Hw Hm. eapply wp_mono; [by apply run_lookup|]. intros [stop ctx] w2 [Hw2 Hctx]. cbn beta iota.
    destruct (List.find _ es) as [s|].
    + destruct Hctx as [->|[-> Hf]]; cbn [fst snd]; on_success.
      * wp_step. split; [congruence|]. by right.
      * change (negb (ERR_OUT_OF_MEMORY =? ERR_SUCCESS)) with true. cbn iota. wp_step. split; [congruence|]. left.
        split; [done|]. rewrite Hm in Hf. destruct (w_malloc w) as [|b m]; [by destruct Hf|]. simpl in Hf.
        destruct Hf; [exists 1%nat|exists 2%nat]; (split; [lia|done]).
    + subst ctx. cbn [fst snd]. on_success. wp_step. split; [congruence|]. by right.
Qed.

(** ** Readdir *)

Lemma readdir_cb_quiet want : quiet (fat_readdir_cb (D := D) want).
Proof. intros de nm s o ctx w. unfold fat_readdir_cb. destruct (ctx.1 =? want); by wp_step. Qed.

Lemma run_readdir want es cur w :
  0 ≤ cur ≤ want → want < 2 ^ 32 →
  wp (run_cb (fat_readdir_cb want) es (cur, None)) (λ '(_, ctx) w', w' = w ∧
    ctx.2 = (λ s, (sl_name s, vn_type (slot_vnode 1 s))) <$> es !! Z.to_nat (want - cur)) w.
Proof.
  intros Hc Hw. revert cur Hc. induction es as [|s es IH]; intros cur Hc; cbn [run_cb]; [by wp_step|].
  wp_step. unfold fat_readdir_cb at 1. cbn [fst snd]. destruct (Z.eqb_spec cur want) as [->|].
  - wp_step. wp_step. by rewrite Z.sub_diag.
  - wp_step. rewrite u32_small by lia. eapply wp_mono; [apply IH; lia|]. intros [stop ctx] w' [-> ->].
    by replace (Z.to_nat (want - cur)) with (S (Z.to_nat (want - (cur + 1)))) by lia.
Qed.

(** Readdir returns the name and the type of the live entry at the index,
    and reports that there is none exactly past the last one. *)
Theorem fat_readdir_correct w dir index es :
  vn_type dir = VNODE_TYPE_DIR → node_sb (vn_node dir) = sb → dir_slots (w_disk w) (vn_node dir) es →
  0 ≤ index < 2 ^ 32 →
  wp (fat_readdir_vn (Some dir) index) (λ r w', w_disk w' = w_disk w ∧
    ((r = (ERR_OUT_OF_MEMORY, None) ∧ head (w_malloc w) = Some false) ∨
     r = match es !! Z.to_nat index with
         | Some s => (ERR_SUCCESS, Some (sl_name s, vn_type (slot_vnode 1 s)))
         | None => (ERR_NOT_FOUND, None)
         end)) w.
Proof.
  intros Hty Hsb Hes Hi. unfold fat_readdir_vn. rewrite bool_decide_true by done. cbn [negb]. rewrite Hsb.
  wp_step. apply (iter_dir_wp _ _ es); [apply readdir_cb_quiet|done|done| |].
  - intros w' Hw Hm. cbn beta iota. change (negb (ERR_OUT_OF_MEMORY =? ERR_SUCCESS)) with true. cbn iota.
    wp_step. split; [done|]. by left.
  - intros w' Hw Hm. eapply wp_mono; [apply run_readdir; lia|]. intros [stop ctx] w2 [-> Hctx]. on_success.
    rewrite Hctx, Z.sub_0_r. destruct (es !! Z.to_nat index); simpl; wp_step; (split; [congruence|by right]).
Qed.
End directories.

(** ** Short names *)

(** A character that a short name may hold, other than the dot. *)
Definition good_char (c : Z) : Prop := c ≠ 46 ∧ bad_char c = false.

Lemma good_range c : good_char c → 0x20 < c < 0x7F.
Proof.
  intros [_ H]. unfold bad_char in H. apply orb_false_iff in H as [H _]. apply orb_false_iff in H as [H1 H2].
  apply Z.leb_gt in H1, H2. lia.
Qed.
Lemma toupper_range c : 0x20 < c < 0x7F → 0x20 < toupper_ascii c < 0x7F.
Proof. intros. unfold toupper_ascii. case_match; lia. Qed.

Lemma splice_cons {A} off c (bs out : list A) :
  (off + S (length bs) ≤ length out)%nat → splice (S off) bs (<[off := c]> out) = splice off (c :: bs) out.
Proof.
  intros H. apply list_eq. intros k. rewrite !splice_lookup by (rewrite ?length_insert; simpl; lia). cbn [length].
  destruct (decide (S off ≤ k < S off + length bs)%nat).
  - rewrite decide_True by lia. by replace (k - off)%nat with (S (k - S off)) by lia.
  - rewrite list_lookup_insert by done. destruct (decide (off = k ∧ off < length out)%nat) as [[-> _]|].
    + rewrite decide_True by lia. by rewrite Nat.sub_diag.
    + by rewrite decide_False by lia.
Qed.

Lemma splice_nil {A} off (l : list A) : splice off [] l = l.
Proof. unfold splice. simpl. by rewrite Nat.add_0_r, take_drop. Qed.

Lemma short_ext name b e out out' :
  short_name_from name b e true out = (ERR_SUCCESS, out') → length out = 11%nat → (e ≤ 3)%nat →
  Forall good_char name ∧ (e + length name ≤ 3)%nat ∧ out' = splice (8 + e) (toupper_ascii <$> name) out.
Proof.
  revert e out. induction name as [|c name IH]; intros e out H Hlen He; cbn [short_name_from] in H.
  { injection H as <-. split_and!; [constructor|simpl; lia|]. by rewrite fmap_nil, splice_nil. }
  destruct (Z.eqb_spec c 46); [done|]. destruct (bad_char c) eqn:Eb; [done|].
  destruct (3 <? S e)%nat eqn:E3; [done|]. apply Nat.ltb_ge in E3.
  apply IH in H as (Hg & Hl & ->); [|by rewrite length_insert|lia].
  split_and!; [by constructor|simpl; lia|]. rewrite fmap_cons.
  replace (8 + S e)%nat with (S (8 + e)) by lia. apply splice_cons. rewrite length_fmap. lia.
Qed.

Lemma short_base name b out out' :
  short_name_from name b 0 false out = (ERR_SUCCESS, out') → length out = 11%nat → (b ≤ 8)%nat →
  ∃ base, Forall good_char base ∧ (b + length base ≤ 8)%nat ∧
    ((name = base ∧ out' = splice b (toupper_ascii <$> base) out) ∨
     ∃ ext, name = base ++ 46 :: ext ∧ (0 < b + length base)%nat ∧ Forall good_char ext ∧ (length ext ≤ 3)%nat ∧
       out' = splice 8 (toupper_ascii <$> ext) (splice b (toupper_ascii <$> base) out)).
Proof.
  revert b out. induction name as [|c name IH]; intros b out H Hlen Hb; cbn [short_name_from] in H.
  { injection H as <-. exists []. split_and!; [constructor|simpl; lia|]. left. split; [done|].
    by rewrite fmap_nil, splice_nil. }
  destruct (Z.eqb_spec c 46) as [->|].
  { cbn [orb] in H. destruct (b =? 0)%nat eqn:E0; [done|]. apply Nat.eqb_neq in E0.
    apply short_ext in H as (Hg & Hl & ->); [|done|lia].
    exists []. split_and!; [constructor|simpl; lia|]. right. exists name. split_and!; [done|simpl; lia|done|lia|].
    by rewrite fmap_nil, splice_nil. }
  destruct (bad_char c) eqn:Eb; [done|]. destruct (8 <? S b)%nat eqn:E8; [done|]. apply Nat.ltb_ge in E8.
  apply IH in H as (base & Hg & Hl & H); [|by rewrite length_insert|lia].
  assert (splice (S b) (toupper_ascii <$> base) (<[b := toupper_ascii c]> out) =
          splice b (toupper_ascii <$> c :: base) out) as Es.
  { rewrite fmap_cons. apply splice_cons. rewrite length_fmap. lia. }
  exists (c :: base). split_and!; [by constructor|simpl; lia|].
  destruct H as [[-> ->]|(ext & -> & ? & ? & ? & ->)]; [left|right].
  - by rewrite <- Es.
  - exists ext. split_and!; [done|simpl; lia|done|done|]. by rewrite <- Es.
Qed.

Lemma until_space_pad n l k :
  Forall (λ c, c ≠ 0x20) l → (length l ≤ n)%nat → (length l + k = n)%nat → ∀ rest, until_space n (l ++ replicate k 0x20 ++ rest) = l.
Proof.
  revert n. induction l as [|c l IH]; intros n Hl Hn Hk rest.
  { simpl in Hk. subst n. by destruct k. }
  destruct n as [|n]; [simpl in Hn; lia|]. inversion Hl; subst. simpl.
  rewrite (proj2 (Z.eqb_neq c 32)) by done. f_equal. apply IH; [done|simpl in Hn; lia|simpl in Hk; lia].
Qed.

(** The padded name. *)
Definition padded (base ext : list Z) : list Z :=
  (base ++ replicate (8 - length base) 0x20) ++ ext ++ replicate (3 - length ext) 0x20.

Lemma splice_padded base ext :
  (length base ≤ 8)%nat → (length ext ≤ 3)%nat →
  splice 8 ext (splice 0 base (replicate 11 0x20)) = padded base ext.
Proof.
  intros Hb He. unfold splice at 2. rewrite take_0. cbn [app]. rewrite Nat.add_0_l.
  assert (drop (length base) (replicate 11 32) = replicate (8 - length base) 0x20 ++ replicate 3 0x20) as ->.
  { rewrite <- replicate_add, drop_replicate. f_equal. lia. }
  unfold splice, padded. rewrite (app_assoc base).
  assert (length (base ++ replicate (8 - length base) 32) = 8%nat) as H8 by (rewrite length_app, length_replicate; lia).
  set (X := base ++ _) in *. rewrite (take_app_length' X) by done. rewrite (drop_app_ge X) by lia.
  rewrite H8, drop_replicate. do 3 f_equal. lia.
Qed.

Lemma name_of_padded base ext :
  (length base ≤ 8)%nat → (length ext ≤ 3)%nat →
  Forall (λ c, 0x20 < c) base → Forall (λ c, 0x20 < c) ext →
  fat_name_to_str (padded base ext) = base ++ (if ext is [] then [] else 46 :: ext).
Proof.
  intros Hb He Hgb Hge.
  assert (∀ l, Forall (λ c, 0x20 < c) l → Forall (λ c, c ≠ 0x20) l) as Hne
    by (intros l Hl; eapply Forall_impl; [exact Hl|simpl; intros; lia]).
  assert (length (base ++ replicate (8 - length base) 32) = 8%nat) as H8 by (rewrite length_app, length_replicate; lia).
  unfold fat_name_to_str.
  assert (until_space 8 (padded base ext) = base) as ->.
  { unfold padded. rewrite <- app_assoc. apply until_space_pad; [auto|lia|lia]. }
  assert (drop 8 (padded base ext) = ext ++ replicate (3 - length ext) 0x20) as ->.
  { unfold padded. by apply drop_app_length'. }
  assert (until_space 3 (ext ++ replicate (3 - length ext) 32) = ext) as ->.
  { rewrite <- (app_nil_r (replicate _ _)). apply until_space_pad; [auto|lia|lia]. }
  assert (padded base ext !! 8%nat = (ext ++ replicate (3 - length ext) 0x20) !! 0%nat) as ->.
  { unfold padded. rewrite lookup_app_r by lia. by rewrite H8. }
  rewrite until_nul_id.
  - f_equal. destruct ext as [|c ext]; [done|]. simpl. inversion Hge; subst.
    by rewrite (proj2 (Z.eqb_neq c 32)) by lia.
  - rewrite elem_of_app. intros [H|H]; [rewrite Forall_forall in Hgb; apply Hgb in H; lia|].
    case_match; [by apply elem_of_nil in H|]. apply elem_of_app in H as [H|H].
    + by apply list_elem_of_singleton in H.
    + rewrite Forall_forall in Hge; apply Hge in H; lia.
Qed.

Lemma upper_good l : Forall good_char l → Forall (λ c, 0x20 < c) (toupper_ascii <$> l).
Proof.
  intros H. apply Forall_fmap. eapply Forall_impl; [exact H|]. intros c Hc%good_range. simpl.
  pose proof (toupper_range c Hc). lia.
Qed.

(** A name without a dot at its end. *)
Definition strip_dot (name : cstring) : cstring :=
  match last name with Some c => if c =? 46 then take (length name - 1) name else name | None => name end.

(** An accepted name becomes eleven bytes that are neither the end mark
    nor the mark of a deleted entry, and that are read back as the name in
    upper case, less a dot at its end. *)
Theorem fat_short_name_roundtrip name sn :
  fat_make_short_name (Some name) = (ERR_SUCCESS, sn) →
  length sn = 11%nat ∧ head sn ≠ Some 0x00 ∧ head sn ≠ Some 0xE5 ∧
  fat_name_to_str sn = toupper_ascii <$> strip_dot name.
Proof.
  intros H. destruct name as [|c0 name0]; [done|]. set (name := c0 :: name0) in *.
  change (short_name_from name 0 0 false (replicate 11 0x20) = (ERR_SUCCESS, sn)) in H.
  apply short_base in H as (base & Hgb & Hb & H); [|done|lia]. simpl in Hb.
  assert (∃ ext, Forall good_char ext ∧ (length ext ≤ 3)%nat ∧ sn = padded (toupper_ascii <$> base) (toupper_ascii <$> ext) ∧
    (0 < length base)%nat ∧ toupper_ascii <$> strip_dot name =
      (toupper_ascii <$> base) ++ (if toupper_ascii <$> ext is [] then [] else 46 :: (toupper_ascii <$> ext)))
    as (ext & Hge & He & -> & Hpos & ->).
  { destruct H as [[En ->]|(ext & En & Hpos & Hge & He & ->)].
    - exists []. split_and!; [constructor|simpl; lia| |subst base; simpl; lia|].
      + rewrite <- splice_padded by (rewrite length_fmap; simpl; lia). by rewrite fmap_nil, splice_nil.
      + simpl. rewrite app_nil_r, En. f_equal. unfold strip_dot.
        destruct (last base) as [c|] eqn:El; [|done]. destruct (Z.eqb_spec c 46) as [->|]; [|done].
        apply last_Some_elem_of in El. rewrite Forall_forall in Hgb. by destruct (Hgb _ El).
    - exists ext. split_and!; [done|done| |lia|].
      + by rewrite <- splice_padded by (rewrite length_fmap; lia).
      + rewrite En. unfold strip_dot. destruct ext as [|c ext].
        { rewrite last_snoc. simpl. rewrite length_app. simpl. rewrite Nat.add_sub, take_app_length.
          by rewrite app_nil_r. }
        rewrite (last_app_cons base) , last_cons_cons. destruct (last (c :: ext)) as [x|] eqn:El; [|by rewrite fmap_app].
        destruct (Z.eqb_spec x 46) as [->|]; [|by rewrite fmap_app].
        apply last_Some_elem_of in El. rewrite Forall_forall in Hge. by destruct (Hge _ El). }
  assert (length (padded (toupper_ascii <$> base) (toupper_ascii <$> ext)) = 11%nat) as Hl.
  { unfold padded. rewrite !length_app, !length_fmap, !length_replicate. lia. }
  split; [done|]. destruct base as [|b base]; [simpl in Hpos; lia|].
  inversion Hgb as [|? ? Hgc _]; subst. pose proof (toupper_range b (good_range b Hgc)).
  split_and!; [simpl; intros [= ?]; lia..|].
  apply name_of_padded; rewrite ?length_fmap; auto using upper_good.
Qed.

(** ** A run: the root directory of a floppy *)

Definition ex_entry (n : cstring) (attr first size : Z) : list Z :=
  n ++ [attr] ++ replicate 8 0 ++ put16 (first / 65536) ++ replicate 4 0 ++ put16 first ++ put32 size.
Definition ex_root : list Z :=
  ex_entry (cstr "CLEARFALL  ") 0x08 0 0 ++ ex_entry (0xE5 :: cstr "LD     TXT") 0x20 9 9 ++
  ex_entry (cstr "README  TXT") 0x20 2 1000 ++ ex_entry (cstr "BIN        ") 0x10 7 0 ++ replicate 384 0.
Definition ex_dir_image : ram := λ i,
  if decide (i = 1) then ex_fat else if decide (i = 3) then ex_root else replicate 512 0.
Definition ex_dir_world : world ram := mk_world ex_dir_image [].
Definition ex_dir : fat_vnode ram :=
  mk_vnode VNODE_TYPE_DIR 1 1 (mk_node ex_sb 0 512 0x10 0 0 false).
Definition ex_slots : list slot :=
  [mk_slot (mk_dirent (cstr "README  TXT") 0x20 0 2 1000) 3 64;
   mk_slot (mk_dirent (cstr "BIN        ") 0x10 0 7 0) 3 96].

Lemma ex_dir_slots : dir_slots ex_sb (w_disk ex_dir_world) (vn_node ex_dir) ex_slots.
Proof.
  assert (ex_slots = root_slots ex_sb (w_disk ex_dir_world) (Z.to_nat (root_dir_sectors ex_sb)) 0 0) as ->
    by (vm_compute; reflexivity).
  by apply dir_root.
Qed.

Lemma fat_lookup_correct_witness :
  ∃ w' vn, fat_lookup_vn (Some ex_dir) (Some (cstr "ReadMe.txt")) ex_dir_world = Some ((ERR_SUCCESS, Some vn), w') ∧
    first_cluster (vn_node vn) = 2 ∧ node_size (vn_node vn) = 1000 ∧ dir_offset (vn_node vn) = 64.
Proof.
  pose proof (fat_lookup_correct ex_sb ex_layout ex_dir_world ex_dir (cstr "ReadMe.txt") ex_slots eq_refl eq_refl ex_dir_slots) as H.
  apply (proj1 (wp_run _ _ _)) in H as (r & w' & Hrun & _ & [(_ & k & _ & Hk)| ->]); [by destruct k|].
  exists w'. eexists. split; [exact Hrun|]. vm_compute. split_and!; reflexivity.
Defined.

Lemma fat_readdir_correct_witness :
  ∃ w', fat_readdir_vn (Some ex_dir) 1 ex_dir_world = Some ((ERR_SUCCESS, Some (cstr "BIN", VNODE_TYPE_DIR)), w').
Proof.
  pose proof (fat_readdir_correct ex_sb ex_layout ex_dir_world ex_dir 1 ex_slots eq_refl eq_refl ex_dir_slots ltac:(by_eval)) as H.
  apply (proj1 (wp_run _ _ _)) in H as (r & w' & Hrun & _ & [[_ Hk]| ->]); [discriminate Hk|].
  exists w'. rewrite Hrun. vm_compute. reflexivity.
Defined.

Lemma fat_short_name_roundtrip_witness :
  fat_make_short_name (Some (cstr "readme.md")) = (ERR_SUCCESS, cstr "README  MD ") ∧
  fat_name_to_str (cstr "README  MD ") = cstr "README.MD".
Proof.
  assert (fat_make_short_name (Some (cstr "readme.md")) = (ERR_SUCCESS, cstr "README  MD ")) as E by (vm_compute; reflexivity).
  split; [exact E|]. rewrite (proj2 (proj2 (proj2 (fat_short_name_roundtrip _ _ E)))). vm_compute. reflexivity.
Defined.
End FatDir.
