(* ===== verification/Ext2.v ===== *)
(** * The ext2 file system

    [src/kernel/fs/ext2/ext2.c]: the superblock, inodes, directories and files
    with direct blocks.  The driver ignores most of the statuses it gets: what it then reads
    from a buffer that was not filled is undefined here. *)

From S2P Require Import Prelude Block Vnode.
Import Block Vnode.

Module Ext2.

(** ** Data *)

(** [ext2_inode_disk_t] as its 128 bytes; the fields are at fixed offsets. *)
Definition SIZEOF_INODE : nat := 128.
Definition inode : Type := list Z.
Definition i_mode (i : inode) : Z := default 0 (le16 i 0).
Definition i_size (i : inode) : Z := default 0 (le32 i 4).
Definition i_links_count (i : inode) : Z := default 0 (le16 i 26).
Definition i_blocks (i : inode) : Z := default 0 (le32 i 28).
Definition i_block (i : inode) (n : nat) : Z := default 0 (le32 i (40 + 4 * n)).
Definition set_size (v : Z) (i : inode) : inode := splice 4 (put32 v) i.
Definition set_links_count (v : Z) (i : inode) : inode := splice 26 (put16 v) i.
Definition set_blocks (v : Z) (i : inode) : inode := splice 28 (put32 v) i.
Definition set_block (n : nat) (v : Z) (i : inode) : inode := splice (40 + 4 * n) (put32 v) i.
(** [mode & 0x4000] *)
Definition is_dir_mode (i : inode) : bool := negb (Z.land (i_mode i) 0x4000 =? 0).

(** [ext2_bg_desc_t]: 32 bytes *)
Definition SIZEOF_BGD : Z := 32.
Record bg_desc := mk_bgd { block_bitmap : Z; inode_bitmap : Z; inode_table : Z; free_blocks : Z; free_inodes : Z }.
Definition bgd_at (buf : list Z) (off : nat) : option bg_desc :=
  bb ← le32 buf off; ib ← le32 buf (off + 4); it ← le32 buf (off + 8);
  fb ← le16 buf (off + 12); fi ← le16 buf (off + 14); _ ← buf !! (off + 31)%nat;
  Some (mk_bgd bb ib it fb fi).

(** [struct ext2_dirent] without its name: 8 bytes *)
Definition SIZEOF_DIRENT : Z := 8.
Record dirent := mk_dirent { de_ino : Z; rec_len : Z; name_len : Z; file_type : Z }.
Definition dirent_at (block : list Z) (off : nat) : option dirent :=
  ino ← le32 block off; r ← le16 block (off + 4); n ← block !! (off + 6)%nat; t ← block !! (off + 7)%nat;
  Some (mk_dirent ino r n t).
Definition dirent_bytes (de : dirent) : list Z := put32 (de_ino de) ++ put16 (rec_len de) ++ [u8 (name_len de); u8 (file_type de)].

(** A store behind the end of an object is undefined. *)
Definition store (off : Z) (src l : list Z) : option (list Z) :=
  if Z.of_nat (length l) <? off + Z.of_nat (length src) then None else Some (splice (Z.to_nat off) src l).
Definition load (off len : Z) (l : list Z) : option (list Z) :=
  if Z.of_nat (length l) <? off + len then None else Some (slice (Z.to_nat off) (Z.to_nat len) l).

Section ext2.
Context {D : Type}.

(** [ext2_super_t], the fields that are used *)
Record ext2_super := mk_super {
  bdev : blockdev D;
  inodes_count : Z; blocks_count : Z; r_blocks_count : Z; free_blocks_count : Z; free_inodes_count : Z;
  first_data_block : Z; log_block_size : Z; blocks_per_group : Z; inodes_per_group : Z;
  magic : Z; first_ino : Z; inode_size : Z;
  block_size : Z; groups_count : Z; bgdt_block : Z
}.
(** A mounted volume: the device, the outcomes of the next allocations, and the
    superblock that its nodes point to. *)
Record vol := mk_vol { v_disk : D; v_malloc : list bool; v_super : ext2_super }.
(** A vnode with its [ext2_node_t]. *)
Record ext2_vnode := mk_vnode { vn_type : vnode_type; vn_ino : Z; vn_inode : inode }.
Implicit Types (s : vol) (sb : ext2_super) (vn : ext2_vnode) (i : inode).

Definition on_disk {A} (m : cmd D A) : cmd vol A := czoom v_disk (λ d s, mk_vol d (v_malloc s) (v_super s)) m.
Definition malloc : cmd vol bool := λ s,
  match v_malloc s with [] => Some (true, s) | b :: l => Some (b, mk_vol (v_disk s) l (v_super s)) end.
(** A result of [malloc] that is used without a test. *)
Definition malloc_used : cmd vol unit := ok ← malloc; if ok : bool then mret tt else cundef.
Definition super : cmd vol ext2_super := s ← cget; mret (v_super s).
Definition set_free (blocks inodes : Z) : cmd vol unit := cmodify (λ s, let sb := v_super s in
  mk_vol (v_disk s) (v_malloc s) (mk_super (bdev sb) (inodes_count sb) (blocks_count sb) (r_blocks_count sb) blocks inodes
    (first_data_block sb) (log_block_size sb) (blocks_per_group sb) (inodes_per_group sb) (magic sb) (first_ino sb) (inode_size sb)
    (block_size sb) (groups_count sb) (bgdt_block sb))).

(** ** Blocks *)

(** [buf] says whether the buffer is not NULL. *)
Definition ext2_read_block (block : Z) (buf : bool) : cmd vol (Z * list Z) :=
  sb ← super;
  count ← cdiv (block_size sb) (sector_size (bdev sb));
  on_disk (blockdev_read (Some (bdev sb)) (u32 (count * block)) count buf).
Definition ext2_write_block (block : Z) (buf : list Z) : cmd vol Z :=
  sb ← super;
  count ← cdiv (block_size sb) (sector_size (bdev sb));
  on_disk (blockdev_write (Some (bdev sb)) (u32 (count * block)) count (Some buf)).

(** A block in an array [buf[4096]], read without a look at the status. *)
Definition read_buf (block : Z) : cmd vol (list Z) :=
  '(r, buf) ← ext2_read_block block true;
  if negb (r =? 0) || (4096 <? Z.of_nat (length buf)) then cundef else mret buf.

(** ** Inodes *)

(** The block of an inode and its offset there. *)
Definition locate_inode (ino : Z) : cmd vol (Z * Z) :=
  sb ← super;
  group ← cdiv (u32 (ino - 1)) (inodes_per_group sb);
  index ← cmod (u32 (ino - 1)) (inodes_per_group sb);
  in_table ← cdiv (u32 (group * SIZEOF_BGD)) (block_size sb);
  buf ← read_buf (u32 (bgdt_block sb + in_table));
  per_block ← cdiv (block_size sb) SIZEOF_BGD;
  slot ← cmod group per_block;
  bgd ← cget_opt (bgd_at buf (Z.to_nat (slot * SIZEOF_BGD)));
  inodes_per_block ← cdiv (block_size sb) (inode_size sb);
  b ← cdiv index inodes_per_block;
  o ← cmod index inodes_per_block;
  mret (u32 (inode_table bgd + b), u32 (o * inode_size sb)).
Definition ext2_read_inode (ino : Z) : cmd vol inode :=
  '(block, offset) ← locate_inode ino;
  buf ← read_buf block;
  cget_opt (load offset (Z.of_nat SIZEOF_INODE) buf).
Definition ext2_write_inode (ino : Z) (i : inode) : cmd vol Z :=
  '(block, offset) ← locate_inode ino;
  buf ← read_buf block;
  buf ← cget_opt (store offset i buf);
  ext2_write_block block buf.

(** The loop over the groups: the scan of the bitmap stands behind a [continue]
    and is never reached; behind the loop there is no [return]. *)
Fixpoint alloc_inode_from (n : nat) (group : Z) : cmd vol Z :=
  match n with
  | O => cundef
  | S n =>
    sb ← super;
    desc_per_block ← cdiv (block_size sb) SIZEOF_BGD;
    q ← cdiv group desc_per_block;
    '(r, buf) ← ext2_read_block (u32 (bgdt_block sb + q)) true;
    if negb (r =? 0) then alloc_inode_from n (group + 1) else
    if 4096 <? Z.of_nat (length buf) then cundef else
    slot ← cmod group desc_per_block;
    bgd ← cget_opt (bgd_at buf (Z.to_nat (slot * SIZEOF_BGD)));
    if free_inodes bgd =? 0 then alloc_inode_from n (group + 1) else
    '(r, _) ← ext2_read_block (inode_bitmap bgd) true;
    if negb (r =? 0) then alloc_inode_from n (group + 1) else mret (-1)
  end.
(** The status and [*out_ino], which no path of the code stores. *)
Definition ext2_alloc_inode (mode : Z) : cmd vol (Z * option Z) :=
  sb ← super;
  groups ← cdiv (u32 (inodes_count sb + inodes_per_group sb - 1)) (inodes_per_group sb);
  ok ← malloc;
  if negb ok then mret (-1, None) else
  r ← alloc_inode_from (Z.to_nat groups) 0;
  mret (r, None).

Definition ext2_alloc_vnode (ino : Z) (disk : inode) : cmd vol ext2_vnode :=
  malloc_used;;
  malloc_used;;
  mret (mk_vnode (if is_dir_mode disk then VNODE_TYPE_DIR else VNODE_TYPE_FILE) ino disk).

(** ** The superblock *)

Definition parse_super (bd : blockdev D) (buf : list Z) : option ext2_super :=
  ic ← le32 buf 0; bc ← le32 buf 4; rb ← le32 buf 8; fb ← le32 buf 12; fi ← le32 buf 16;
  fd ← le32 buf 20; lb ← le32 buf 24; bg ← le32 buf 32; ig ← le32 buf 40; mg ← le16 buf 56;
  isz ← le16 buf 88; fi' ← le32 buf 84;
  Some (mk_super bd ic bc rb fb fi fd lb bg ig mg fi' isz 0 0 0).
Definition set_layout sb (bs gc bb : Z) : ext2_super :=
  mk_super (bdev sb) (inodes_count sb) (blocks_count sb) (r_blocks_count sb) (free_blocks_count sb) (free_inodes_count sb)
    (first_data_block sb) (log_block_size sb) (blocks_per_group sb) (inodes_per_group sb) (magic sb) (first_ino sb) (inode_size sb) bs gc bb.
(** The part of [ext2_mount_fn] that reads and checks the superblock; it works on
    the device alone. *)
Definition read_super (bd : blockdev D) : cmd D (option ext2_super) :=
  '(rc, buf) ← blockdev_read (Some bd) 2 2 true;
  if negb (rc =? 0) || (1024 <? Z.of_nat (length buf)) then cundef else
  sb ← cget_opt (parse_super bd buf);
  if negb (magic sb =? 0xEF53) then mret None else
  if 32 <=? log_block_size sb then cundef else
  let bs := u32 (Z.shiftl 1024 (log_block_size sb)) in
  gc ← cdiv (u32 (blocks_count sb + blocks_per_group sb - 1)) (blocks_per_group sb);
  mret (Some (set_layout sb bs gc (if bs =? 1024 then 2 else 1))).
(** [bdev] is [blockdev_lookup(mp->source)].  On success the mount has the
    superblock as its private data and the vnode as its root. *)
Definition ext2_mount_fn (bdev : option (blockdev D)) (d : D) (oracle : list bool) : option (Z * option (ext2_vnode * vol)) :=
  match bdev with
  | None => Some (-1, None)
  | Some bd =>
    match oracle with
    | false :: _ => None
    | _ =>
      '(sb, d) ← read_super bd d;
      match sb with
      | None => Some (-1, None)
      | Some sb => '(root, s) ← (root_inode ← ext2_read_inode 2; ext2_alloc_vnode 2 root_inode) (mk_vol d (tail oracle) sb); Some (0, Some (root, s))
      end
    end
  end.
Definition ext2_unmount_fn : Z := 0.
Definition ext2_sync_fn : Z := 0.

(** ** Directories *)

Definition ext2_read_block_for_inode (i : inode) (iblock : Z) (buf : bool) : cmd vol (Z * list Z) :=
  if iblock <? 12 then
    if i_block i (Z.to_nat iblock) =? 0 then mret (-1, []) else ext2_read_block (i_block i (Z.to_nat iblock)) buf
  else mret (-1, []).

(** The name of an entry: [name_len] bytes behind it, up to a NUL. *)
Fixpoint str_of (l : list Z) : cstring := match l with [] => [] | c :: l => if c =? 0 then [] else c :: str_of l end.
Definition entry_name (block : list Z) (pos : Z) (de : dirent) : option cstring :=
  str_of <$> load (pos + SIZEOF_DIRENT) (name_len de) block.
Definition live (de : dirent) : bool := negb (de_ino de =? 0) && (0 <? name_len de).

(** When [malloc] has failed, the block device refuses the buffer NULL, and the
    walks end there.  The walk over the entries of [ext2_lookup_vn] and [ext2_readdir_vn].  [visit]
    says whether the walk ends at an entry.  One loop stands for the two: [next] reads the next block. An entry
    with [rec_len] 0 is visited again and again: the fuel runs out. *)
Fixpoint walk_block {C A} (visit : C → cstring → dirent → A + C) (fuel : nat) (bs size : Z) (block : list Z) (pos off : Z) (c : C)
    : option (A + (Z * C)) :=
  if negb ((pos <? bs) && (off <? size)) then Some (inr (off, c)) else
  match fuel with
  | O => None
  | S fuel =>
    de ← dirent_at block (Z.to_nat pos);
    r ← (if live de then name ← entry_name block pos de; Some (visit c name de) else Some (inr c));
    match r with
    | inl a => Some (inl a)
    | inr c => walk_block visit fuel bs size block (u32 (pos + rec_len de)) (u32 (off + rec_len de)) c
    end
  end.
Fixpoint walk_dir {C A} (visit : C → cstring → dirent → A + C) (fuel : nat) (i : inode) (buf : bool) (off : Z) (c : C) : cmd vol (option A) :=
  if negb (off <? i_size i) then mret None else
  match fuel with
  | O => cundef
  | S fuel' =>
    sb ← super;
    blk_index ← cdiv off (block_size sb);
    blk_off ← cmod off (block_size sb);
    '(r, block) ← ext2_read_block_for_inode i blk_index buf;
    if negb (r =? 0) then mret None else
    w ← cget_opt (walk_block visit fuel (block_size sb) (i_size i) block blk_off off c);
    match w with
    | inl a => mret (Some a)
    | inr (off, c) => walk_dir visit fuel' i buf off c
    end
  end.

(** The status and the vnode. *)
Definition ext2_lookup_vn (dir : ext2_vnode) (name : cstring) : cmd vol (Z * option ext2_vnode) :=
  let i := vn_inode dir in
  if negb (is_dir_mode i) then mret (-1, None) else
  ok ← malloc;
  found ← walk_dir (λ (_ : unit) n de, if streq n name then inl (de_ino de) else inr tt) (S (Z.to_nat (i_size i))) i ok 0 tt;
  match found with
  | None => mret (-1, None)
  | Some ino =>
    child_inode ← ext2_read_inode ino;
    vn ← ext2_alloc_vnode ino child_inode;
    mret (0, Some vn)
  end.

Definition ext2_readdir_vn vn (index : Z) : cmd vol (Z * option (cstring * vnode_type)) :=
  let i := vn_inode vn in
  if negb (is_dir_mode i) then mret (-1, None) else
  ok ← malloc;
  found ← walk_dir (λ cur n de, if cur =? index then inl (n, if file_type de =? 2 then VNODE_TYPE_DIR else VNODE_TYPE_FILE) else inr (u32 (cur + 1)))
            (S (Z.to_nat (i_size i))) i ok 0 0;
  match found with None => mret (-1, None) | Some e => mret (0, Some e) end.

(** ** Files *)

(** The loop of [ext2_read_vn]: [done] bytes are in [buf]. *)
Fixpoint read_from (n : nat) (i : inode) (ok : bool) (off len : Z) (buf : list Z) : cmd vol (list Z) :=
  let done := Z.of_nat (length buf) in
  if negb (done <? len) then mret buf else
  match n with
  | O => cundef
  | S n =>
    sb ← super;
    blk_index ← cdiv (u32 (off + done)) (block_size sb);
    blk_off ← cmod (u32 (off + done)) (block_size sb);
    let to_copy := Z.min (block_size sb - blk_off) (len - done) in
    '(r, block) ← ext2_read_block_for_inode i blk_index ok;
    if negb (r =? 0) then mret buf else
    bytes ← cget_opt (load blk_off to_copy block);
    read_from n i ok off len (buf ++ bytes)
  end.
(** The status, [*out] and the bytes. *)
Definition ext2_read_vn vn (off len : Z) : cmd vol (Z * Z * list Z) :=
  let i := vn_inode vn in
  if negb (bool_decide (vn_type vn = VNODE_TYPE_FILE)) then mret (-1, 0, []) else
  if i_size i <=? off then mret (0, 0, []) else
  let len := if i_size i <? u32 (off + len) then i_size i - off else len in
  ok ← malloc;
  buf ← read_from (Z.to_nat len) i ok off len [];
  mret (0, Z.of_nat (length buf), buf).

(** ** Allocation of blocks *)

(** The first byte that is not full, and its lowest clear bit. *)
Fixpoint clear_bit (n : nat) (byte bit : Z) : option Z :=
  match n with
  | O => None
  | S n => if Z.land byte (Z.shiftl 1 bit) =? 0 then Some bit else clear_bit n byte (bit + 1)
  end.
Fixpoint scan_bitmap (bitmap : list Z) (byte : Z) : option (Z * Z) :=
  match bitmap with
  | [] => None
  | b :: bitmap =>
    match (if b =? 0xFF then None else clear_bit 8 b 0) with
    | Some bit => Some (byte, bit)
    | None => scan_bitmap bitmap (byte + 1)
    end
  end.

Fixpoint alloc_block_from (n : nat) (group : Z) : cmd vol (Z * Z) :=
  match n with
  | O => mret (-1, 0)
  | S n =>
    sb ← super;
    desc_per_block ← cdiv (block_size sb) SIZEOF_BGD;
    q ← cdiv group desc_per_block;
    '(r, buf) ← ext2_read_block (u32 (bgdt_block sb + q)) true;
    if negb (r =? 0) then alloc_block_from n (group + 1) else
    if 4096 <? Z.of_nat (length buf) then cundef else
    slot ← cmod group desc_per_block;
    let at_ := Z.to_nat (slot * SIZEOF_BGD) in
    bgd ← cget_opt (bgd_at buf at_);
    if free_blocks bgd =? 0 then alloc_block_from n (group + 1) else
    '(r, bitmap) ← ext2_read_block (block_bitmap bgd) true;
    if negb (r =? 0) then alloc_block_from n (group + 1) else
    match scan_bitmap (take (Z.to_nat (block_size sb)) bitmap) 0 with
    | None => if Z.of_nat (length bitmap) <? block_size sb then cundef else alloc_block_from n (group + 1)
    | Some (byte, bit) =>
      b ← cget_opt (bitmap !! Z.to_nat byte);
      ext2_write_block (block_bitmap bgd) (<[Z.to_nat byte := Z.lor b (Z.shiftl 1 bit)]> bitmap);;
      let block := u32 (u32 (group * blocks_per_group sb) + byte * 8 + bit) in
      set_free (u32 (free_blocks_count sb - 1)) (free_inodes_count sb);;
      ext2_write_block (u32 (bgdt_block sb + q)) (splice (at_ + 12) (put16 (free_blocks bgd - 1)) buf);;
      mret (0, block)
    end
  end.
(** The status and [*out_block]. *)
Definition ext2_alloc_block : cmd vol (Z * Z) :=
  sb ← super;
  ok ← malloc;
  if negb ok then mret (-1, 0) else alloc_block_from (Z.to_nat (groups_count sb)) 0.

(** ** Creation *)

(** The last entry of a directory block from [off] on; [inr tt] for an entry of
    length 0.  Every turn moves on by at least one byte. *)
Fixpoint last_entry (fuel : nat) (bs : Z) (block : list Z) (off : Z) : option (Z * dirent + unit) :=
  match fuel with
  | O => None
  | S fuel =>
    de ← dirent_at block (Z.to_nat off);
    if rec_len de =? 0 then Some (inr tt) else
    if bs <=? off + rec_len de then Some (inl (off, de)) else last_entry fuel bs block (off + rec_len de)
  end.

(** An entry with its name, written into a block. *)
Definition put_entry (off : Z) (de : dirent) (name : cstring) (block : list Z) : option (list Z) :=
  block ← store off (dirent_bytes de) block;
  store (off + SIZEOF_DIRENT) name block.

(** The loop over the direct blocks from [iblock] on: the status and the inode. *)
Fixpoint add_entry_from (n : nat) (iblock : Z) (dir_inode : inode) (child_ino : Z) (name : cstring) (type : Z) : cmd vol (Z * inode) :=
  match n with
  | O => mret (-1, dir_inode)
  | S n =>
    sb ← super;
    let bs := block_size sb in
    let len := Z.of_nat (length name) in
    let blk := i_block dir_inode (Z.to_nat iblock) in
    if blk =? 0 then
      '(r, blk) ← ext2_alloc_block;
      if negb (r =? 0) then mret (-1, dir_inode) else
      let dir_inode := set_blocks (u32 (i_blocks dir_inode + bs / 512)) (set_size (u32 ((iblock + 1) * bs)) (set_block (Z.to_nat iblock) blk dir_inode)) in
      block ← cget_opt (put_entry 0 (mk_dirent child_ino (u16 bs) len type) name (replicate (Z.to_nat bs) 0));
      ext2_write_block blk block;;
      mret (0, dir_inode)
    else
      '(r, block) ← ext2_read_block blk true;
      if negb (r =? 0) then cundef else
      last ← cget_opt (last_entry (Z.to_nat bs) bs block 0);
      match last with
      | inr _ => mret (-1, dir_inode)
      | inl (off, de) =>
        let actual_len := align_up (SIZEOF_DIRENT + name_len de) 4 in
        let slack := u32 (rec_len de - actual_len) in
        if align_up (u32 (SIZEOF_DIRENT + len)) 4 <=? slack then
          block ← cget_opt (store (off + 4) (put16 actual_len) block);
          block ← cget_opt (put_entry (off + actual_len) (mk_dirent child_ino (u16 slack) len type) name block);
          ext2_write_block blk block;;
          mret (0, dir_inode)
        else add_entry_from n (iblock + 1) dir_inode child_ino name type
      end
  end.
Definition ext2_dir_add_entry (dir_inode : inode) (child_ino : Z) (name : cstring) (type : Z) : cmd vol (Z * inode) :=
  ok ← malloc;
  if negb ok then mret (-1, dir_inode) else add_entry_from 12 0 dir_inode child_ino name type.

(** The block of a new directory: the entries for itself and for its parent. *)
Definition dot_block (bs ino parent : Z) : option (list Z) :=
  let rec_len := align_up (SIZEOF_DIRENT + 1) 4 in
  block ← put_entry 0 (mk_dirent ino rec_len 1 2) (cstr ".") (replicate (Z.to_nat bs) 0);
  put_entry rec_len (mk_dirent parent (u16 (bs - rec_len)) 2 2) (cstr "..") block.

(** Step 3 for a directory: the new inode, or nothing when it fails, and the
    parent, which has one link more from the moment on that there is a block. *)
Definition make_dir (ino : Z) (new_inode : inode) (dir : ext2_vnode) : cmd vol (option inode * ext2_vnode) :=
  sb ← super;
  '(r, blk) ← ext2_alloc_block;
  if negb (r =? 0) then mret (None, dir) else
  let new_inode := set_links_count 2 (set_blocks (block_size sb / 512) (set_size (block_size sb) (set_block 0 blk new_inode))) in
  let dir := mk_vnode (vn_type dir) (vn_ino dir) (set_links_count (u16 (i_links_count (vn_inode dir) + 1)) (vn_inode dir)) in
  ok ← malloc;
  if negb ok then mret (None, dir) else
  block ← cget_opt (dot_block (block_size sb) ino (vn_ino dir));
  ext2_write_block blk block;;
  mret (Some new_inode, dir).

(** Steps 2 to 7 with the new inode [ino]: the status, [*out] and the directory. *)
Definition create_with (ino : Z) (dir : ext2_vnode) (name : cstring) (type : vnode_type) : cmd vol (Z * option ext2_vnode * ext2_vnode) :=
  new_inode ← ext2_read_inode ino;
  '(made, dir) ← (if bool_decide (type = VNODE_TYPE_DIR) then make_dir ino new_inode dir else mret (Some new_inode, dir));
  match made with
  | None => mret (-1, None, dir)
  | Some new_inode =>
    ext2_write_inode ino new_inode;;
    '(r, dinode) ← ext2_dir_add_entry (vn_inode dir) ino name (if bool_decide (type = VNODE_TYPE_DIR) then 2 else 1);
    let dir := mk_vnode (vn_type dir) (vn_ino dir) dinode in
    if negb (r =? 0) then mret (-1, None, dir) else
    ext2_write_inode (vn_ino dir) dinode;;
    vn ← ext2_alloc_vnode ino new_inode;
    mret (0, Some vn, dir)
  end.
Definition ext2_create_vn (dir : ext2_vnode) (name : cstring) (type : vnode_type) : cmd vol (Z * option ext2_vnode * ext2_vnode) :=
  '(r, ino) ← ext2_alloc_inode (if bool_decide (type = VNODE_TYPE_DIR) then 0x4000 else 0x8000);
  if negb (r =? 0) then mret (-1, None, dir) else
  match ino with None => cundef | Some ino => create_with ino dir name type end.

(** ** Writing *)

(** The loop of [ext2_write_vn]: [done] bytes of [buf] were written. *)
Fixpoint write_from (n : nat) (i : inode) (buf : list Z) (off done : Z) : cmd vol (Z * inode) :=
  let len := Z.of_nat (length buf) in
  if negb (done <? len) then mret (done, i) else
  match n with
  | O => cundef
  | S n =>
    sb ← super;
    let bs := block_size sb in
    let file_off := u32 (off + done) in
    iblock ← cdiv file_off bs;
    blk_off ← cmod file_off bs;
    let to_copy := Z.min (bs - blk_off) (len - done) in
    if 12 <=? iblock then mret (done, i) else
    '(r, i) ←
      (if i_block i (Z.to_nat iblock) =? 0 then
         '(r, newblk) ← ext2_alloc_block;
         mret (if r =? 0 then (0, set_blocks (u32 (i_blocks i + bs / 512)) (set_block (Z.to_nat iblock) newblk i)) else (r, i))
       else mret (0, i));
    if negb (r =? 0) then mret (done, i) else
    let blk := i_block i (Z.to_nat iblock) in
    '(r, block) ← ext2_read_block blk true;
    if negb (r =? 0) then mret (done, i) else
    block ← cget_opt (store blk_off (slice (Z.to_nat done) (Z.to_nat to_copy) buf) block);
    r ← ext2_write_block blk block;
    if negb (r =? 0) then mret (done, i) else write_from n i buf off (done + to_copy)
  end.
(** The status, [*out] and the vnode. *)
Definition ext2_write_vn vn (buf : list Z) (off : Z) : cmd vol (Z * Z * ext2_vnode) :=
  if negb (bool_decide (vn_type vn = VNODE_TYPE_FILE)) then mret (-1, 0, vn) else
  ok ← malloc;
  if negb ok then mret (-1, 0, vn) else
  '(done, i) ← write_from (length buf) (vn_inode vn) buf off 0;
  let i := if i_size i <? u32 (off + done) then set_size (u32 (off + done)) i else i in
  ext2_write_inode (vn_ino vn) i;;
  mret (0, done, mk_vnode (vn_type vn) (vn_ino vn) i).

Definition ext2_unlink_vn : Z := -1.
Definition ext2_truncate_vn : Z := -1.
Definition ext2_getattr_vn : Z := 0.
Definition ext2_setattr_vn : Z := -1.

(** ** Creation never succeeds *)

(** A command that leaves the device alone. *)
Definition reads {A} (m : cmd vol A) : Prop := ∀ s r s', m s = Some (r, s') → v_disk s' = v_disk s.
Lemma reads_ret {A} (a : A) : reads (mret a).
Proof. by intros s r s' [= <- <-]. Qed.
Lemma reads_undef {A} : reads (A := A) cundef.
Proof. done. Qed.
Lemma reads_bind {A B} (m : cmd vol A) (f : A → cmd vol B) : reads m → (∀ a, reads (f a)) → reads (m ≫= f).
Proof. intros Hm Hf s r s' (a & s1 & E1 & E2)%bind_Some. transitivity (v_disk s1); [by eapply Hf|by eapply Hm]. Qed.
Lemma reads_opt {A} (o : option A) : reads (cget_opt o).
Proof. intros s r s'. unfold cget_opt. destruct o; [by intros [= <- <-]|done]. Qed.
Lemma reads_super : reads super.
Proof. by intros s r s' [= <- <-]. Qed.
Lemma reads_malloc : reads malloc.
Proof. intros s r s'. unfold malloc. destruct (v_malloc s); by intros [= <- <-]. Qed.
Lemma reads_div a b : reads (cdiv a b).
Proof. unfold cdiv. destruct (b =? 0); [done|apply reads_ret]. Qed.
Lemma reads_mod a b : reads (cmod a b).
Proof. unfold cmod. destruct (b =? 0); [done|apply reads_ret]. Qed.
Lemma blockdev_read_keeps (bd : option (blockdev D)) lba n b d r d' : blockdev_read bd lba n b d = Some (r, d') → d' = d.
Proof.
  unfold blockdev_read. destruct bd as [bd|]; [|by intros [= <- <-]]. destruct (bd_ops bd ≫= op_read); [|by intros [= <- <-]].
  destruct (n =? 0); [by intros [= <- <-]|]. destruct (_ || _ || _); by intros [= <- <-].
Qed.
Lemma reads_block block b : reads (ext2_read_block block b).
Proof.
  apply reads_bind; [apply reads_super|]. intros sb. apply reads_bind; [apply reads_div|]. intros n s r s'. unfold on_disk, czoom.
  destruct (blockdev_read _ _ _ _ _) as [[r' d']|] eqn:E; [|done]. intros [= <- <-]. by apply blockdev_read_keeps in E.
Qed.
Create HintDb ext2_reads.
#[local] Hint Resolve reads_ret reads_undef reads_opt reads_super reads_malloc reads_div reads_mod reads_block : ext2_reads.
Ltac reads_step :=
  match goal with
  | |- reads (mbind _ _) => apply reads_bind; [|intros]
  | |- reads (match _ with _ => _ end) => case_match
  | |- reads _ => solve [auto with ext2_reads]
  end.

Lemma reads_alloc_inode_from n : ∀ group, reads (alloc_inode_from n group).
Proof. induction n as [|n IH]; intros group; cbn [alloc_inode_from]; [done|]. repeat first [apply IH|reads_step]. Qed.
Lemma alloc_inode_from_fails n : ∀ group s r s', alloc_inode_from n group s = Some (r, s') → r = -1.
Proof.
  induction n as [|n IH]; intros group s r s' H; cbn [alloc_inode_from] in H; [done|].
  repeat match type of H with
    | (mbind _ _) _ = Some _ => apply bind_Some in H as (? & ? & _ & H); cbn beta in H
    | (match ?x with _ => _ end) _ = Some _ => destruct x
    | alloc_inode_from _ _ _ = Some _ => by eapply IH
    end; try done; injection H; congruence.
Qed.

(** No file or directory is ever created: whatever the volume holds, a
    call of [ext2_create_vn] that returns answers -1, and neither the device nor the directory has
    changed.  The scan of the inode bitmap stands behind a [continue]. *)
Theorem ext2_create_fails dir name type s r out dir' s' :
  ext2_create_vn dir name type s = Some ((r, out, dir'), s') → r = -1 ∧ out = None ∧ dir' = dir ∧ v_disk s' = v_disk s.
Proof.
  intros ([r1 ino] & s1 & E1 & H)%bind_Some.
  assert (Hr : r1 = -1 ∧ v_disk s1 = v_disk s).
  { split.
    - unfold ext2_alloc_inode in E1. apply bind_Some in E1 as (? & ? & _ & E1). apply bind_Some in E1 as (? & ? & _ & E1). apply bind_Some in E1 as (ok & ? & _ & E1).
      destruct (negb ok); [by injection E1|]. apply bind_Some in E1 as (? & ? & E1 & E2). injection E2 as <- _ _. by eapply alloc_inode_from_fails.
    - assert (H1 : ∀ mode, reads (ext2_alloc_inode mode)); [|by eapply H1]. intros mode. unfold ext2_alloc_inode.
      repeat first [apply reads_alloc_inode_from|reads_step]. }
  destruct Hr as [-> Hd]. cbn in H. injection H as <- <- <- <-. done.
Qed.

(** An entry of length 0 is visited for ever, unless the walk ends at it: no fuel
    is enough. *)
Lemma walk_block_hangs {C A} (visit : C → cstring → dirent → A + C) bs size block pos off de :
  0 <= pos < bs → 0 <= off < size → bs < 2 ^ 32 → size < 2 ^ 32 → dirent_at block (Z.to_nat pos) = Some de → rec_len de = 0 →
  (∀ c name, ∃ c', visit c name de = inr c') → ∀ fuel c, walk_block visit fuel bs size block pos off c = None.
Proof.
  intros Hp Ho Hbs Hsz Hde Hr Hv. induction fuel as [|fuel IH]; intros c; cbn [walk_block]; rewrite !(proj2 (Z.ltb_lt _ _)) by lia; [done|].
  cbn [andb negb]. rewrite Hde. cbn [mbind option_bind]. destruct (live de).
  - destruct (entry_name block pos de) as [name|]; [|done]. cbn [mbind option_bind]. destruct (Hv c name) as [c' ->]. rewrite Hr, !Z.add_0_r, !u32_small by lia. apply IH.
  - cbn [mbind option_bind]. rewrite Hr, !Z.add_0_r, !u32_small by lia. apply IH.
Qed.

(** ** Volumes on a working device *)

Section volume.
Context (sb : ext2_super) `{HD : !Disk (bdev sb)} (spb : Z).
(** A block is [spb] sectors. *)
Hypothesis Hspb : 0 < spb.
Hypothesis Hbs : block_size sb = spb * sector_size (bdev sb).
Hypothesis Hmax : block_size sb < 2 ^ 32.

Definition valid_block (b : Z) : Prop := 0 < b ∧ (b + 1) * spb <= sector_count (bdev sb).
Definition block_data (d : D) (b : Z) : list Z := run_of (sec (bdev sb) d) (spb * b) spb.

Lemma bs_pos : 0 < block_size sb.
Proof. pose proof (sec_size (bdev sb)). rewrite Hbs. nia. Qed.
Lemma length_block_data d b : length (block_data d b) = Z.to_nat (block_size sb).
Proof. unfold block_data. rewrite (length_run_of _ _ _ (Z.to_nat (sector_size (bdev sb)))); [|lia|apply sec_length]. pose proof (sec_size (bdev sb)). rewrite Hbs. nia. Qed.

Lemma per_block s : v_super s = sb → cdiv (block_size sb) (sector_size (bdev sb)) s = Some (spb, s).
Proof.
  intros _. pose proof (sec_size (bdev sb)). unfold cdiv. rewrite (proj2 (Z.eqb_neq _ 0)) by lia. unfold mret, cmd_ret. rewrite Hbs. by rewrite Z.div_mul by lia.
Qed.
Lemma block_lba b : valid_block b → u32 (spb * b) = spb * b ∧ 0 <= spb * b ∧ spb * b + spb <= sector_count (bdev sb).
Proof. intros [Hb Hv]. pose proof (sec_count (bdev sb)). split; [apply u32_small; nia|nia]. Qed.

Lemma read_block_run s b : v_super s = sb → valid_block b → ext2_read_block b true s = Some ((0, block_data (v_disk s) b), s).
Proof.
  intros Hs Hb. destruct (block_lba b Hb) as (E & H1 & H2). unfold ext2_read_block. erewrite bind_run by done. rewrite Hs.
  erewrite bind_run by (by apply per_block). rewrite E. unfold on_disk, czoom. rewrite (disk_read (bdev sb)) by lia. by destruct s.
Qed.
Lemma write_block_run s b buf : v_super s = sb → valid_block b → length buf = Z.to_nat (block_size sb) → Forall is_u8 buf →
  ∃ d', ext2_write_block b buf s = Some (0, mk_vol d' (v_malloc s) (v_super s)) ∧
    block_data d' b = buf ∧ ∀ c, valid_block c → c ≠ b → block_data d' c = block_data (v_disk s) c.
Proof.
  intros Hs Hb Hl Hu. destruct (block_lba b Hb) as (E & H1 & H2). pose proof (sec_size (bdev sb)) as Hss.
  destruct (disk_write (bdev sb) (v_disk s) (spb * b) spb buf) as (d' & Ew & Hd'); [done|done|done|by rewrite <- Hbs|done|]. exists d'. split; [|split].
  - unfold ext2_write_block. erewrite bind_run by done. rewrite Hs. erewrite bind_run by (by apply per_block). rewrite E. unfold on_disk, czoom. by rewrite Ew, Hs.
  - etrans; [|apply (run_of_slices buf (Z.to_nat (sector_size (bdev sb))) (spb * b) spb); [lia|rewrite Hl, Hbs; nia]].
    apply run_of_ext. intros i Hi. rewrite Hd', decide_True by lia. by rewrite Z2Nat.id by lia.
  - intros c Hc Hne. destruct (block_lba c Hc) as (_ & H3 & H4). apply run_of_ext. intros i Hi. rewrite Hd', decide_False; [done|].
    intros Hi'. apply Hne. destruct (Z.lt_total b c) as [Hlt|[->|Hlt]]; [nia|done|nia].
Qed.
Lemma block_data_bytes d b : Forall is_u8 (block_data d b).
Proof. apply run_of_bytes. intros i. apply sec_bytes. Qed.

(** The first [n] blocks of a file, one after the other. *)
Definition blocks_of d (i : inode) (n : nat) : list Z := concat ((λ k, block_data d (i_block i k)) <$> seq 0 n).
(** The blocks that hold the bytes of a file of the size of [i] exist. *)
Definition n_blocks (size : Z) : nat := Z.to_nat ((size + block_size sb - 1) / block_size sb).
Definition mapped (i : inode) (size : Z) : Prop :=
  0 <= size < 2 ^ 32 ∧ (n_blocks size <= 12)%nat ∧ ∀ k, (k < n_blocks size)%nat → valid_block (i_block i k).
Definition file_bytes d (i : inode) : list Z := take (Z.to_nat (i_size i)) (blocks_of d i (n_blocks (i_size i))).

Lemma length_blocks_of d i n : length (blocks_of d i n) = (n * Z.to_nat (block_size sb))%nat.
Proof.
  unfold blocks_of. induction n as [|n IH]; [done|]. rewrite seq_S, fmap_app, concat_app, length_app, IH. cbn [fmap list_fmap concat].
  rewrite app_nil_r, length_block_data. lia.
Qed.
Lemma n_blocks_spec size : 0 <= size → size <= Z.of_nat (n_blocks size) * block_size sb ∧ (0 < size → (Z.of_nat (n_blocks size) - 1) * block_size sb < size).
Proof. intros H. pose proof bs_pos. unfold n_blocks. rewrite Z2Nat.id by (apply Z.div_pos; lia). pose proof (Z.div_mod (size + block_size sb - 1) (block_size sb)). pose proof (Z.mod_pos_bound (size + block_size sb - 1) (block_size sb)). split; nia. Qed.
(** A byte position lies in a block that exists. *)
Lemma block_index size p : 0 <= p < size → (Z.to_nat (p / block_size sb) < n_blocks size)%nat.
Proof.
  intros Hp. pose proof bs_pos. destruct (n_blocks_spec size ltac:(lia)) as [H1 _].
  assert (p / block_size sb < Z.of_nat (n_blocks size)) by (apply Z.div_lt_upper_bound; [lia|nia]). pose proof (Z.div_pos p (block_size sb)). lia.
Qed.

(** The bytes from [k * block_size + o] on, up to the end of that block. *)
Lemma blocks_of_slice d i n k o len : (k < n)%nat → 0 <= o → 0 <= len → o + len <= block_size sb →
  slice (k * Z.to_nat (block_size sb) + Z.to_nat o) (Z.to_nat len) (blocks_of d i n) = slice (Z.to_nat o) (Z.to_nat len) (block_data d (i_block i k)).
Proof.
  intros Hk Ho Hl Hol. unfold slice. rewrite <- drop_drop.
  assert (E : drop (k * Z.to_nat (block_size sb)) (blocks_of d i n) = block_data d (i_block i k) ++ concat ((λ k, block_data d (i_block i k)) <$> seq (S k) (n - S k))).
  { unfold blocks_of. replace n with (k + S (n - S k))%nat at 1 by lia. rewrite seq_app, fmap_app, concat_app.
    rewrite drop_app_ge by (fold (blocks_of d i k); rewrite length_blocks_of; lia). fold (blocks_of d i k). rewrite length_blocks_of, Nat.sub_diag. done. }
  rewrite E. rewrite drop_app_le by (rewrite length_block_data; lia). rewrite take_app_le; [done|]. rewrite length_drop, length_block_data. lia.
Qed.

Lemma for_inode_run s i p size : v_super s = sb → mapped i size → 0 <= p < size →
  ext2_read_block_for_inode i (p / block_size sb) true s = Some ((0, block_data (v_disk s) (i_block i (Z.to_nat (p / block_size sb)))), s).
Proof.
  intros Hs (_ & H12 & Hm) Hp. pose proof (block_index size p Hp) as Hk. unfold ext2_read_block_for_inode. pose proof bs_pos. pose proof (Z.div_pos p (block_size sb)).
  rewrite (proj2 (Z.ltb_lt _ _)) by lia. pose proof (Hm _ Hk) as Hv. rewrite (proj2 (Z.eqb_neq _ 0)) by (destruct Hv; lia). by apply read_block_run.
Qed.

Lemma load_slice o len l : 0 <= o → o + len <= Z.of_nat (length l) → load o len l = Some (slice (Z.to_nat o) (Z.to_nat len) l).
Proof. intros Ho Hl. unfold load. by rewrite (proj2 (Z.ltb_ge _ _)) by lia. Qed.

Lemma slice_app_next {A} (l : list A) a b c : slice a b l ++ slice (a + b) c l = slice a (b + c) l.
Proof. unfold slice. rewrite <- drop_drop. by rewrite <- take_take_drop. Qed.

Lemma read_from_run fuel : ∀ s i off len buf size,
  v_super s = sb → mapped i size → 0 <= off → 0 <= len → off + len <= size → Z.of_nat (length buf) <= len →
  buf = slice (Z.to_nat off) (length buf) (blocks_of (v_disk s) i (n_blocks size)) → len - Z.of_nat (length buf) <= Z.of_nat fuel →
  read_from fuel i true off len buf s = Some (slice (Z.to_nat off) (Z.to_nat len) (blocks_of (v_disk s) i (n_blocks size)), s).
Proof.
  induction fuel as [|fuel IH]; intros s i off len buf size Hs Hm Ho Hlen Hsz Hb Hbuf Hf; cbn [read_from].
  { rewrite (proj2 (Z.ltb_ge _ _)) by lia. cbn [negb]. unfold mret, cmd_ret. rewrite Hbuf at 1. do 3 f_equal. lia. }
  destruct (Z.ltb_spec (Z.of_nat (length buf)) len) as [Hlt|Hge]; cbn [negb].
  2: { unfold mret, cmd_ret. rewrite Hbuf at 1. do 3 f_equal. lia. }
  pose proof Hm as (Hs32 & _ & _). pose proof bs_pos as Hbsp. set (p := off + Z.of_nat (length buf)). assert (Hp : 0 <= p < size) by lia.
  rewrite (u32_small p) by lia. erewrite bind_run by done. rewrite Hs.
  erewrite bind_run by (unfold cdiv; rewrite (proj2 (Z.eqb_neq _ 0)) by lia; done).
  erewrite bind_run by (unfold cmod; rewrite (proj2 (Z.eqb_neq _ 0)) by lia; done).
  erewrite bind_run by (by apply (for_inode_run s i p size)). cbn [Z.eqb negb].
  pose proof (Z.mod_pos_bound p (block_size sb) Hbsp) as Hmod. pose proof (Z.div_mod p (block_size sb) ltac:(lia)) as Hdm. pose proof (Z.div_pos p (block_size sb) ltac:(lia) Hbsp) as Hdp.
  set (n := Z.min (block_size sb - p mod block_size sb) (len - Z.of_nat (length buf))).
  erewrite bind_run by (unfold cget_opt; rewrite load_slice by (rewrite ?length_block_data; lia); reflexivity).
  rewrite <- (blocks_of_slice (v_disk s) i (n_blocks size)) by (try apply block_index; lia).
  replace (Z.to_nat (p / block_size sb) * Z.to_nat (block_size sb) + Z.to_nat (p mod block_size sb))%nat with (Z.to_nat off + length buf)%nat by nia.
  assert (Hall : (Z.to_nat off + length buf + Z.to_nat n <= length (blocks_of (v_disk s) i (n_blocks size)))%nat).
  { rewrite length_blocks_of. pose proof (n_blocks_spec size ltac:(lia)) as [H1 _]. nia. }
  apply IH; [done|done|done|done|done|rewrite length_app, length_slice by lia; lia| |rewrite length_app, length_slice by lia; lia].
  rewrite length_app, length_slice by lia. rewrite Hbuf at 1. apply slice_app_next.
Qed.

Lemma slice_take {A} (l : list A) n a b : slice a b (take n l) = slice a (Nat.min b (n - a)) l.
Proof.
  unfold slice. apply list_eq. intros k. destruct (decide (k < Nat.min b (n - a))%nat).
  - rewrite !lookup_take_lt, !lookup_drop, lookup_take_lt by lia. done.
  - rewrite (lookup_ge_None_2 (take (b `min` (n - a)) _)) by (rewrite length_take; lia).
    apply lookup_ge_None_2. rewrite length_take, length_drop, length_take. lia.
Qed.

(** [malloc] gives the buffer that the call works with. *)
Lemma malloc_run s : head (v_malloc s) ≠ Some false → malloc s = Some (true, mk_vol (v_disk s) (tail (v_malloc s)) (v_super s)).
Proof. destruct s as [d [|[] o] sb']; simpl; unfold malloc; [done..|]. by intros []. Qed.

(** A read gives exactly the bytes of the file from [off] on, at most [len]
    and no more than there are, and changes nothing on the volume. *)
Theorem ext2_read_correct s vn off len :
  vn_type vn = VNODE_TYPE_FILE → v_super s = sb → mapped (vn_inode vn) (i_size (vn_inode vn)) →
  0 <= off → 0 <= len → off + len < 2 ^ 32 → head (v_malloc s) ≠ Some false →
  let bytes := slice (Z.to_nat off) (Z.to_nat len) (file_bytes (v_disk s) (vn_inode vn)) in
  ∃ s', ext2_read_vn vn off len s = Some ((0, Z.of_nat (length bytes), bytes), s') ∧ v_disk s' = v_disk s ∧ v_super s' = sb.
Proof.
  intros Hty Hs Hm Ho Hl Hol Hok bytes. set (i := vn_inode vn) in *. pose proof Hm as (Hsz & _ & _).
  pose proof (n_blocks_spec (i_size i) ltac:(lia)) as [Hn _]. pose proof bs_pos.
  assert (HL : (Z.to_nat (i_size i) <= length (blocks_of (v_disk s) i (n_blocks (i_size i))))%nat) by (rewrite length_blocks_of; nia).
  unfold ext2_read_vn. rewrite bool_decide_true by done. fold i. cbn [negb]. cbv zeta. unfold bytes, file_bytes. rewrite slice_take.
  destruct (Z.leb_spec (i_size i) off) as [Hle|Hlt].
  { exists s. replace (Z.to_nat (i_size i) - Z.to_nat off)%nat with 0%nat by lia. by rewrite Nat.min_0_r. }
  rewrite (u32_small (off + len)) by lia. set (n := if i_size i <? off + len then i_size i - off else len).
  assert (Hn' : n = Z.min len (i_size i - off)) by (unfold n; destruct (Z.ltb_spec (i_size i) (off + len)); lia).
  erewrite bind_run by (by apply malloc_run). erewrite bind_run.
  2: { apply (read_from_run (Z.to_nat n) _ i off n [] (i_size i)); simpl; rewrite ?take_0; [done|done|lia..|done|lia]. }
  eexists. replace (Nat.min (Z.to_nat len) (Z.to_nat (i_size i) - Z.to_nat off)) with (Z.to_nat n) by lia. cbn [v_disk v_super]. done.
Qed.

(** ** Writing inside a file *)

Lemma splice_app {A} (l1 l2 l3 : list A) o bs : (o + length bs <= length l2)%nat →
  splice (length l1 + o) bs (l1 ++ l2 ++ l3) = l1 ++ splice o bs l2 ++ l3.
Proof.
  intros H. unfold splice. rewrite <- Nat.add_assoc, !take_app_add, !drop_app_add, take_app_le, drop_app_le by lia. by rewrite <- !(assoc_L (++)).
Qed.

(** A block of the file changes, and no other one. *)
Lemma blocks_of_update d d' i n k o bs : (k < n)%nat → (o + length bs <= Z.to_nat (block_size sb))%nat →
  block_data d' (i_block i k) = splice o bs (block_data d (i_block i k)) →
  (∀ j, (j < n)%nat → j ≠ k → block_data d' (i_block i j) = block_data d (i_block i j)) →
  blocks_of d' i n = splice (k * Z.to_nat (block_size sb) + o) bs (blocks_of d i n).
Proof.
  intros Hk Ho Hb Hne. unfold blocks_of. replace n with (k + S (n - S k))%nat by lia. rewrite !seq_app, !fmap_app, !concat_app. cbn [seq fmap list_fmap concat Nat.add].
  fold (blocks_of d i k) (blocks_of d' i k). rewrite <- (length_blocks_of d i k), splice_app, <- Hb by (rewrite length_block_data; lia).
  assert (H : ∀ a m, (a + m <= n)%nat → (k < a ∨ a + m <= k)%nat → (λ k, block_data d' (i_block i k)) <$> seq a m = (λ k, block_data d (i_block i k)) <$> seq a m).
  { intros a m Ha Hak. apply list_fmap_ext. intros x y Hx%list_elem_of_lookup_2%elem_of_seq. apply Hne; lia. }
  unfold blocks_of. by rewrite !H by lia.
Qed.

(** The blocks of a file, each of which it has once. *)
Definition distinct (i : inode) (n : nat) : Prop := ∀ j k, (j < n)%nat → (k < n)%nat → i_block i j = i_block i k → j = k.
Definition data_block (i : inode) (n : nat) (b : Z) : Prop := ∃ k, (k < n)%nat ∧ i_block i k = b.

Lemma store_run o (src l : list Z) s : 0 <= o → o + Z.of_nat (length src) <= Z.of_nat (length l) → cget_opt (store o src l) s = Some (splice (Z.to_nat o) src l, s).
Proof. intros Ho Hl. unfold store. by rewrite (proj2 (Z.ltb_ge _ _)) by lia. Qed.

Lemma write_from_run d0 i size off buf fuel : mapped i size → distinct i (n_blocks size) → Forall is_u8 buf →
  0 <= off → off + Z.of_nat (length buf) <= size → ∀ s done, v_super s = sb → 0 <= done <= Z.of_nat (length buf) →
  Z.of_nat (length buf) - done <= Z.of_nat fuel →
  blocks_of (v_disk s) i (n_blocks size) = splice (Z.to_nat off) (take (Z.to_nat done) buf) (blocks_of d0 i (n_blocks size)) →
  (∀ b, valid_block b → ¬ data_block i (n_blocks size) b → block_data (v_disk s) b = block_data d0 b) →
  ∃ d', write_from fuel i buf off done s = Some ((Z.of_nat (length buf), i), mk_vol d' (v_malloc s) sb) ∧
    blocks_of d' i (n_blocks size) = splice (Z.to_nat off) buf (blocks_of d0 i (n_blocks size)) ∧
    ∀ b, valid_block b → ¬ data_block i (n_blocks size) b → block_data d' b = block_data d0 b.
Proof.
  intros Hm Hdis Hu Ho Hsz. pose proof Hm as (Hs32 & H12 & Hval). pose proof bs_pos as Hbsp.
  assert (Hfin : ∀ s done, v_super s = sb → done = Z.of_nat (length buf) →
    blocks_of (v_disk s) i (n_blocks size) = splice (Z.to_nat off) (take (Z.to_nat done) buf) (blocks_of d0 i (n_blocks size)) →
    (∀ b, valid_block b → ¬ data_block i (n_blocks size) b → block_data (v_disk s) b = block_data d0 b) →
    ∃ d', mret (M := cmd vol) (done, i) s = Some ((Z.of_nat (length buf), i), mk_vol d' (v_malloc s) sb) ∧
      blocks_of d' i (n_blocks size) = splice (Z.to_nat off) buf (blocks_of d0 i (n_blocks size)) ∧
      ∀ b, valid_block b → ¬ data_block i (n_blocks size) b → block_data d' b = block_data d0 b).
  { intros s done Hs -> HB Hout. exists (v_disk s). rewrite Nat2Z.id, take_ge in HB by lia. rewrite <- Hs. by destruct s. }
  induction fuel as [|fuel IH]; intros s done Hs Hd Hf HB Hout; cbn [write_from]; cbv zeta.
  { rewrite (proj2 (Z.ltb_ge _ _)) by lia. cbn [negb]. by apply Hfin; [|lia|..]. }
  destruct (Z.ltb_spec done (Z.of_nat (length buf))) as [Hlt|Hge]; cbn [negb]; [|by apply Hfin; [|lia|..]].
  set (p := off + done). assert (Hp : 0 <= p < size) by lia. pose proof (block_index size p Hp) as Hk.
  pose proof (Z.mod_pos_bound p (block_size sb) Hbsp) as Hmod. pose proof (Z.div_mod p (block_size sb) ltac:(lia)) as Hdm. pose proof (Z.div_pos p (block_size sb) ltac:(lia) Hbsp) as Hdp.
  rewrite (u32_small p) by lia. erewrite bind_run by done. rewrite Hs.
  erewrite bind_run by (unfold cdiv; rewrite (proj2 (Z.eqb_neq _ 0)) by lia; done).
  erewrite bind_run by (unfold cmod; rewrite (proj2 (Z.eqb_neq _ 0)) by lia; done).
  rewrite (proj2 (Z.leb_gt _ _)) by lia. pose proof (Hval _ Hk) as Hv. set (b := i_block i (Z.to_nat (p / block_size sb))) in *.
  rewrite (proj2 (Z.eqb_neq b 0)) by (destruct Hv; lia). erewrite bind_run by done. cbn [Z.eqb negb]. fold b.
  erewrite bind_run by (by apply read_block_run). cbn [Z.eqb negb].
  set (n := Z.min (block_size sb - p mod block_size sb) (Z.of_nat (length buf) - done)).
  assert (Hls : length (slice (Z.to_nat done) (Z.to_nat n) buf) = Z.to_nat n) by (apply length_slice; lia).
  erewrite bind_run by (apply store_run; rewrite ?Hls, ?length_block_data; lia).
  edestruct (write_block_run s b) as (d' & Ew & Hd' & Hother); [done|done| | |].
  3: { erewrite bind_run by exact Ew. cbn [Z.eqb negb]. rewrite Hs. apply (IH (mk_vol d' (v_malloc s) sb)); cbn [v_super v_disk]; [done|lia|lia| |].
    - rewrite (blocks_of_update (v_disk s) d' i (n_blocks size) _ (Z.to_nat (p mod block_size sb)) (slice (Z.to_nat done) (Z.to_nat n) buf) Hk); [|rewrite Hls; lia|exact Hd'|].
      + rewrite HB. replace (Z.to_nat (p / block_size sb) * Z.to_nat (block_size sb) + Z.to_nat (p mod block_size sb))%nat with (Z.to_nat off + Z.to_nat done)%nat by nia.
        rewrite splice_step; [f_equal; f_equal; lia|lia|]. rewrite length_blocks_of. pose proof (n_blocks_spec size ltac:(lia)) as [H1 _]. nia.
      + intros j Hj Hne. apply Hother; [by apply Hval|]. intros E. by apply Hne, Hdis.
    - intros c Hc Hnd. rewrite Hother; [by apply Hout|done|]. intros ->. apply Hnd. by exists (Z.to_nat (p / block_size sb)). }
  - rewrite length_splice; rewrite ?Hls, length_block_data; lia.
  - apply splice_bytes; [by apply Forall_slice|apply block_data_bytes].
Qed.

(** Where an inode is: in the block [b] of its table, at [o]. *)
Definition desc_block (ino : Z) : Z :=
  u32 (bgdt_block sb + u32 (u32 (ino - 1) / inodes_per_group sb * SIZEOF_BGD) / block_size sb).
Definition located (d : D) (ino b o : Z) : Prop :=
  inodes_per_group sb ≠ 0 ∧ SIZEOF_BGD <= block_size sb <= 4096 ∧ 0 < inode_size sb <= block_size sb ∧ valid_block (desc_block ino) ∧
  let group := u32 (ino - 1) / inodes_per_group sb in let index := u32 (ino - 1) mod inodes_per_group sb in
  let per_block := block_size sb / inode_size sb in
  ∃ bgd, bgd_at (block_data d (desc_block ino)) (Z.to_nat (group mod (block_size sb / SIZEOF_BGD) * SIZEOF_BGD)) = Some bgd ∧
    b = u32 (inode_table bgd + index / per_block) ∧ o = u32 (index mod per_block * inode_size sb).

Lemma cdiv_run a b s : b ≠ 0 → cdiv a b s = Some (a / b, s).
Proof. intros H. unfold cdiv. by rewrite (proj2 (Z.eqb_neq b 0)). Qed.
Lemma cmod_run a b s : b ≠ 0 → cmod a b s = Some (a mod b, s).
Proof. intros H. unfold cmod. by rewrite (proj2 (Z.eqb_neq b 0)). Qed.
Lemma read_buf_run s b : v_super s = sb → valid_block b → block_size sb <= 4096 → read_buf b s = Some (block_data (v_disk s) b, s).
Proof.
  intros Hs Hb Hle. unfold read_buf. erewrite bind_run by (by apply read_block_run). cbn [Z.eqb negb orb]. rewrite length_block_data.
  pose proof bs_pos. by rewrite (proj2 (Z.ltb_ge _ _)) by lia.
Qed.

Lemma locate_run s ino b o : v_super s = sb → located (v_disk s) ino b o → locate_inode ino s = Some ((b, o), s).
Proof.
  intros Hs (Hg & Hle & Hi & Hv & bgd & Hbgd & -> & ->). unfold desc_block in Hv, Hbgd. cbv zeta. unfold SIZEOF_BGD in Hle. pose proof bs_pos.
  assert (0 < block_size sb / 32) by (apply Z.div_str_pos; lia). assert (0 < block_size sb / inode_size sb) by (apply Z.div_str_pos; lia).
  unfold locate_inode. erewrite bind_run by done. rewrite Hs.
  repeat (erewrite bind_run by first [apply cdiv_run; unfold SIZEOF_BGD in *; lia|apply cmod_run; unfold SIZEOF_BGD in *; lia
    |apply read_buf_run; [done|exact Hv|lia]|unfold cget_opt; rewrite Hbgd; done]). done.
Qed.

Lemma read_inode_run s ino b o : v_super s = sb → located (v_disk s) ino b o → valid_block b → 0 <= o → o + 128 <= block_size sb →
  ext2_read_inode ino s = Some (slice (Z.to_nat o) 128 (block_data (v_disk s) b), s).
Proof.
  intros Hs Hloc Hb Ho Hob. pose proof Hloc as (_ & Hle & _). unfold ext2_read_inode. erewrite bind_run by (by apply locate_run). cbn beta iota.
  erewrite bind_run by (apply read_buf_run; [done|done|lia]). unfold cget_opt. rewrite load_slice; [done|lia|rewrite length_block_data; unfold SIZEOF_INODE; lia].
Qed.
Lemma write_inode_run s ino b o i : v_super s = sb → located (v_disk s) ino b o → valid_block b → 0 <= o → o + 128 <= block_size sb →
  length i = 128%nat → Forall is_u8 i →
  ∃ d', ext2_write_inode ino i s = Some (0, mk_vol d' (v_malloc s) (v_super s)) ∧
    block_data d' b = splice (Z.to_nat o) i (block_data (v_disk s) b) ∧ ∀ c, valid_block c → c ≠ b → block_data d' c = block_data (v_disk s) c.
Proof.
  intros Hs Hloc Hb Ho Hob Hl Hu. pose proof Hloc as (_ & Hle & _).
  destruct (write_block_run s b (splice (Z.to_nat o) i (block_data (v_disk s) b))) as (d' & Ew & Hd'); [done|done| | |].
  - rewrite length_splice; rewrite length_block_data; lia.
  - apply splice_bytes; [done|apply block_data_bytes].
  - exists d'. split; [|exact Hd']. unfold ext2_write_inode. erewrite bind_run by (by apply locate_run). cbn beta iota.
    erewrite bind_run by (apply read_buf_run; [done|done|lia]). erewrite bind_run by (apply store_run; rewrite ?Hl, ?length_block_data; lia). exact Ew.
Qed.

(** C39: writing inside a file puts the bytes where they belong and leaves the
    rest of the file as it was; the inode goes back to its table, and of the other blocks of
    the volume none changes. *)
Theorem ext2_overwrite_correct s vn buf off b o :
  let i := vn_inode vn in let n := n_blocks (i_size i) in
  vn_type vn = VNODE_TYPE_FILE → v_super s = sb → mapped i (i_size i) → distinct i n →
  length i = 128%nat → Forall is_u8 i → Forall is_u8 buf →
  0 <= off → off + Z.of_nat (length buf) <= i_size i → head (v_malloc s) ≠ Some false →
  located (v_disk s) (vn_ino vn) b o → valid_block b → 0 <= o → o + 128 <= block_size sb →
  ¬ data_block i n b → ¬ data_block i n (desc_block (vn_ino vn)) →
  ∃ s', ext2_write_vn vn buf off s = Some ((0, Z.of_nat (length buf), vn), s') ∧ v_super s' = sb ∧
    file_bytes (v_disk s') i = splice (Z.to_nat off) buf (file_bytes (v_disk s) i) ∧
    block_data (v_disk s') b = splice (Z.to_nat o) i (block_data (v_disk s) b) ∧
    ∀ c, valid_block c → c ≠ b → ¬ data_block i n c → block_data (v_disk s') c = block_data (v_disk s) c.
Proof.
  intros i n Hty Hs Hm Hdis Hli Hui Hu Ho Hsz Hok Hloc Hb Hob Hob' Hnb Hnd. pose proof Hm as (Hs32 & _ & Hval).
  pose proof (n_blocks_spec (i_size i) ltac:(lia)) as [Hn _]. pose proof bs_pos.
  assert (HL : (Z.to_nat (i_size i) <= length (blocks_of (v_disk s) i n))%nat) by (rewrite length_blocks_of; unfold n; nia).
  set (s1 := mk_vol (v_disk s) (tail (v_malloc s)) (v_super s)).
  destruct (write_from_run (v_disk s) i (i_size i) off buf (length buf) Hm Hdis Hu Ho Hsz s1 0) as (d1 & E1 & HB & Hout); [done|lia|lia| |done|].
  { simpl. unfold splice. simpl. by rewrite Nat.add_0_r, take_drop. }
  set (s2 := mk_vol d1 (v_malloc s1) sb). assert (Hloc2 : located d1 (vn_ino vn) b o).
  { destruct Hloc as (H1 & H2 & H3 & H4 & bgd & H5 & H6). refine (conj H1 (conj H2 (conj H3 (conj H4 _)))). cbv zeta. exists bgd. split; [|done]. by rewrite Hout. }
  destruct (write_inode_run s2 (vn_ino vn) b o i) as (d2 & E2 & Hd2 & Hother); try done.
  exists (mk_vol d2 (v_malloc s1) sb). cbn [v_disk v_super]. split; [|split; [done|split; [|split]]].
  - unfold ext2_write_vn. rewrite bool_decide_true by done. cbn [negb]. erewrite bind_run by (by apply malloc_run). cbn [negb]. fold i s1.
    erewrite bind_run by exact E1. cbn beta iota. cbv zeta. rewrite u32_small by lia. rewrite (proj2 (Z.ltb_ge _ _)) by lia.
    erewrite bind_run by exact E2. by destruct vn.
  - unfold file_bytes. fold n in HB |- *. rewrite <- take_splice, <- HB by lia. f_equal. unfold blocks_of. f_equal. apply list_fmap_ext.
    intros x y Hx%list_elem_of_lookup_2%elem_of_seq. apply Hother; [apply Hval; unfold n in *; lia|]. intros E. apply Hnb. exists y. unfold n in *. split; [lia|done].
  - rewrite Hd2. f_equal. by apply Hout.
  - intros c Hc Hcb Hcd. rewrite Hother by done. by apply Hout.
Qed.
End volume.
End ext2.

(** ** A run: a volume with the file "a" of 1300 bytes

    Blocks of 1024 bytes: the superblock is block 1, the group descriptor is in block 2, the
    inode bitmap in block 4, the inode table in block 5, the root directory in block 6 and the file in blocks
    7 and 8. *)

Definition ex_inode (mode size : Z) (blocks : list Z) : inode :=
  put16 mode ++ [0; 0] ++ put32 size ++ replicate 32 0 ++ concat (put32 <$> blocks) ++ replicate (88 - 4 * length blocks) 0.
Definition ex_super_block : list Z :=
  put32 16 ++ put32 64 ++ put32 0 ++ put32 10 ++ put32 5 ++ put32 1 ++ put32 0 ++ put32 0 ++ put32 64 ++ put32 0 ++ put32 16 ++
  replicate 12 0 ++ put16 0xEF53 ++ replicate 26 0 ++ put32 11 ++ put16 128.
Definition pad (n : nat) (l : list Z) : list Z := take n (l ++ replicate n 0).
Definition ex_desc : list Z := put32 3 ++ put32 4 ++ put32 5 ++ put16 10 ++ put16 5 ++ replicate 16 0.
Definition ex_root : inode := ex_inode 0x4000 1024 [6].
Definition ex_file : inode := ex_inode 0x8000 1300 [7; 8].
Definition ex_directory : list Z :=
  dirent_bytes (mk_dirent 2 12 1 2) ++ cstr "." ++ [0; 0; 0] ++ dirent_bytes (mk_dirent 2 12 2 2) ++ cstr ".." ++ [0; 0] ++
  dirent_bytes (mk_dirent 3 1000 1 1) ++ cstr "a".
Definition ex_sectors (i : Z) : list Z :=
  if i =? 2 then pad 512 ex_super_block else if i =? 4 then pad 512 ex_desc
  else if i =? 10 then pad 512 (replicate 128 0 ++ ex_root ++ ex_file)
  else if i =? 12 then pad 512 ex_directory
  else if (14 <=? i) && (i <? 18) then replicate 512 (i + 50) else [].
Definition ex_dev : blockdev ram := ram_disk (cstr "hd0") 128.
#[local] Instance ex_dev_ok : Disk ex_dev := ram_disk_ok (cstr "hd0") 128 ltac:(by_eval).
Definition ex_sb : ext2_super := mk_super ex_dev 16 64 0 10 5 1 0 64 16 0xEF53 11 128 1024 1 2.
Definition ex_vol : vol := mk_vol ex_sectors [] ex_sb.
Definition ex_root_vn : ext2_vnode := mk_vnode VNODE_TYPE_DIR 2 ex_root.
Definition ex_file_vn : ext2_vnode := mk_vnode VNODE_TYPE_FILE 3 ex_file.

(** Mounting, finding the file and reading over the end of its first block. *)
Example ext2_mounts :
  (let '(r, o) := default (0, None) (ext2_mount_fn (Some ex_dev) ex_sectors []) in (r, (λ '(vn, s), (vn, blocks_count (v_super s), block_size (v_super s), bgdt_block (v_super s))) <$> o))
    = (0, Some (ex_root_vn, 64, 1024, 2)).
Proof. vm_compute. reflexivity. Qed.
Example ext2_finds : fst <$> ext2_lookup_vn ex_root_vn (cstr "a") ex_vol = Some (0, Some ex_file_vn).
Proof. vm_compute. reflexivity. Qed.
Example ext2_lists : fst <$> ext2_readdir_vn ex_root_vn 2 ex_vol = Some (0, Some (cstr "a", VNODE_TYPE_FILE)).
Proof. vm_compute. reflexivity. Qed.

Lemma ex_mapped : mapped ex_sb 2 ex_file (i_size ex_file).
Proof.
  split_and!; [by_eval..|]. change (n_blocks ex_sb (i_size ex_file)) with 2%nat. intros k Hk.
  destruct k as [|[|k]]; [..|lia]; split; by_eval.
Qed.

Lemma ex_distinct : distinct ex_file (n_blocks ex_sb (i_size ex_file)).
Proof. intros j k. change (n_blocks ex_sb (i_size ex_file)) with 2%nat. destruct j as [|[|j]], k as [|[|k]]; by (done || lia). Qed.
Lemma ex_not_data b : b ≠ 7 → b ≠ 8 → ¬ data_block ex_file (n_blocks ex_sb (i_size ex_file)) b.
Proof. intros H7 H8 (k & Hk & E). change (n_blocks ex_sb (i_size ex_file)) with 2%nat in Hk. destruct k as [|[|k]]; [by apply H7|by apply H8|lia]. Qed.

Lemma ext2_create_fails_witness :
  ∃ r s', ext2_create_vn ex_root_vn (cstr "b") VNODE_TYPE_FILE ex_vol = Some ((r, None, ex_root_vn), s') ∧ r = -1.
Proof.
  assert (fst <$> ext2_create_vn ex_root_vn (cstr "b") VNODE_TYPE_FILE ex_vol = Some (-1, None, ex_root_vn)) as E by (vm_compute; reflexivity).
  destruct (ext2_create_vn ex_root_vn (cstr "b") VNODE_TYPE_FILE ex_vol) as [[[[r out] dir'] s']|] eqn:H; [|done].
  exists r, s'. destruct (ext2_create_fails _ _ _ _ _ _ _ _ H) as (-> & -> & -> & _). done.
Defined.

Lemma ext2_read_correct_witness :
  ∃ s', ext2_read_vn ex_file_vn 1022 5 ex_vol = Some ((0, 5, [65; 65; 66; 66; 66]), s').
Proof.
  destruct (ext2_read_correct ex_sb 2 ltac:(by_eval) eq_refl ltac:(by_eval) ex_vol ex_file_vn 1022 5) as (s' & E & _);
    [done|done|exact ex_mapped|by_eval..|done|]. exists s'. etransitivity; [exact E|]. vm_compute. reflexivity.
Defined.

Lemma ext2_overwrite_correct_witness :
  ∃ s', ext2_write_vn ex_file_vn [1; 2; 3] 1023 ex_vol = Some ((0, 3, ex_file_vn), s') ∧
    slice 1022 5 (file_bytes ex_sb 2 (v_disk s') ex_file) = [65; 1; 2; 3; 66].
Proof.
  destruct (ext2_overwrite_correct ex_sb 2 ltac:(by_eval) eq_refl ltac:(by_eval) ex_vol ex_file_vn [1; 2; 3] 1023 5 256) as (s' & E & _ & Hb & _).
  - done.
  - done.
  - exact ex_mapped.
  - exact ex_distinct.
  - vm_compute. reflexivity.
  - by_eval.
  - by_eval.
  - by_eval.
  - by_eval.
  - done.
  - split_and!; [by_eval..|]. eexists. split; [vm_compute; reflexivity|split; reflexivity].
  - split; by_eval.
  - by_eval.
  - by_eval.
  - apply ex_not_data; by_eval.
  - apply ex_not_data; by_eval.
  - exists s'. split; [exact E|]. etransitivity; [exact (f_equal (slice 1022 5) Hb)|]. vm_compute. reflexivity.
Defined.
End Ext2.
