(* ===== verification/Ata.v ===== *)
(** * The ATA disk

    [src/kernel/fs/block/ata.c]: programmed input and output on the primary channel.
    The port instructions are a parameter: [ports] is the hardware behind them. What a drive
    promises is the class [AtaDrive]; against a drive that keeps it, the driver is the disk
    that the file systems work on ([ata_refines_disk]). *)

From S2P Require Import Prelude Block.
Import Block.

Module Ata.

(** ** Ports, [include/kernel/drivers/ata.h] *)

Definition ATA_PRIMARY_IO : Z := 0x1F0.
Definition ATA_PRIMARY_CTRL : Z := 0x3F6.
Definition ATA_REG_DATA : Z := 0.
Definition ATA_REG_SECCOUNT : Z := 2.
Definition ATA_REG_LBA0 : Z := 3.
Definition ATA_REG_LBA1 : Z := 4.
Definition ATA_REG_LBA2 : Z := 5.
Definition ATA_REG_HDDEVSEL : Z := 6.
Definition ATA_REG_COMMAND : Z := 7.
Definition ATA_REG_STATUS : Z := 7.
Definition ATA_CMD_IDENTIFY : Z := 0xEC.
Definition ATA_CMD_READ28 : Z := 0x20.
Definition ATA_CMD_WRITE28 : Z := 0x30.
Definition ATA_CMD_FLUSH : Z := 0xE7.
Definition ATA_SR_BSY : Z := 0x80.
Definition ATA_SR_DRQ : Z := 0x08.
Definition ATA_SR_ERR : Z := 0x01.
Definition ATA_SECTOR_SIZE : Z := 512.
Definition ATA_LBA28_SECTOR_LIMIT : Z := 0x10000000.
Definition ATA_POLL_LIMIT : Z := 1000000.
Definition ERR_TIMED_OUT : Z := -6.

(** The instructions [in] and [out] on some hardware. *)
Record ports (H : Type) := mk_ports {
  p_in8 : Z → H → Z * H; p_in16 : Z → H → Z * H;
  p_out8 : Z → Z → H → H; p_out16 : Z → Z → H → H
}.
Arguments mk_ports {H} _ _ _ _.
Arguments p_in8 {H} _ _ _.
Arguments p_in16 {H} _ _ _.
Arguments p_out8 {H} _ _ _ _.
Arguments p_out16 {H} _ _ _ _.

(** [status & bits] *)
Definition any (status bits : Z) : bool := negb (Z.land status bits =? 0).

Section driver.
Context {H : Type} (P : ports H).

(** The hardware and [g_ata_sector_count]. *)
Record ata := mk_ata { hw : H; g_ata_sector_count : Z }.
Implicit Types (s : ata).

Definition in8 (port : Z) : cmd ata Z := λ s,
  let '(v, h) := p_in8 P port (hw s) in Some (v, mk_ata h (g_ata_sector_count s)).
Definition in16 (port : Z) : cmd ata Z := λ s,
  let '(v, h) := p_in16 P port (hw s) in Some (v, mk_ata h (g_ata_sector_count s)).
Definition out8 (port v : Z) : cmd ata unit := cmodify (λ s, mk_ata (p_out8 P port v (hw s)) (g_ata_sector_count s)).
Definition out16 (port v : Z) : cmd ata unit := cmodify (λ s, mk_ata (p_out16 P port v (hw s)) (g_ata_sector_count s)).

(** ** Waiting *)

(** [n] polls are left. *)
Fixpoint wait_not_busy_from (n : nat) : cmd ata Z :=
  match n with
  | O => mret ERR_TIMED_OUT
  | S n =>
    status ← in8 (ATA_PRIMARY_IO + ATA_REG_STATUS);
    if (status =? 0) || (status =? 0xFF) then mret ERR_DEVICE_NOT_FOUND else
    if negb (any status ATA_SR_BSY) then mret (if any status (Z.lor ATA_SR_ERR 0x20) then ERR_IO_ERROR else ERR_SUCCESS)
    else wait_not_busy_from n
  end.
Definition ata_wait_not_busy : cmd ata Z := wait_not_busy_from (Z.to_nat ATA_POLL_LIMIT).

Fixpoint wait_drq_from (n : nat) : cmd ata Z :=
  match n with
  | O => mret ERR_TIMED_OUT
  | S n =>
    status ← in8 (ATA_PRIMARY_IO + ATA_REG_STATUS);
    if (status =? 0) || (status =? 0xFF) then mret ERR_DEVICE_NOT_FOUND else
    if any status (Z.lor ATA_SR_ERR 0x20) then mret ERR_IO_ERROR else
    if negb (any status ATA_SR_BSY) && any status ATA_SR_DRQ then mret ERR_SUCCESS else wait_drq_from n
  end.
Definition ata_wait_drq : cmd ata Z := wait_drq_from (Z.to_nat ATA_POLL_LIMIT).

Definition ata_delay_400ns : cmd ata unit :=
  in8 ATA_PRIMARY_CTRL;; in8 ATA_PRIMARY_CTRL;; in8 ATA_PRIMARY_CTRL;; in8 ATA_PRIMARY_CTRL;; mret tt.

(** ** Identification *)

(** [n] words from the data register. *)
Fixpoint read_words (n : nat) : cmd ata (list Z) :=
  match n with
  | O => mret []
  | S n => w ← in16 (ATA_PRIMARY_IO + ATA_REG_DATA); l ← read_words n; mret (w :: l)
  end.

Definition ata_identify : cmd ata Z :=
  cmodify (λ s, mk_ata (hw s) 0);;
  out8 ATA_PRIMARY_CTRL 0x02;;
  out8 (ATA_PRIMARY_IO + ATA_REG_HDDEVSEL) 0xA0;;
  ata_delay_400ns;;
  out8 (ATA_PRIMARY_IO + ATA_REG_SECCOUNT) 0;;
  out8 (ATA_PRIMARY_IO + ATA_REG_LBA0) 0;;
  out8 (ATA_PRIMARY_IO + ATA_REG_LBA1) 0;;
  out8 (ATA_PRIMARY_IO + ATA_REG_LBA2) 0;;
  out8 (ATA_PRIMARY_IO + ATA_REG_COMMAND) ATA_CMD_IDENTIFY;;
  status ← in8 (ATA_PRIMARY_IO + ATA_REG_STATUS);
  if (status =? 0) || (status =? 0xFF) then mret ERR_DEVICE_NOT_FOUND else
  result ← ata_wait_not_busy;
  if negb (result =? ERR_SUCCESS) then mret result else
  l1 ← in8 (ATA_PRIMARY_IO + ATA_REG_LBA1);
  l2 ← (if negb (l1 =? 0) then mret 0 else in8 (ATA_PRIMARY_IO + ATA_REG_LBA2));
  if negb (l1 =? 0) || negb (l2 =? 0) then mret ERR_NOT_SUPPORTED else
  result ← ata_wait_drq;
  if negb (result =? ERR_SUCCESS) then mret result else
  identify_data ← read_words 256;
  if negb (any (nth 49 identify_data 0) (Z.shiftl 1 9)) then mret ERR_NOT_SUPPORTED else
  let count := Z.lor (nth 60 identify_data 0) (u32 (Z.shiftl (nth 61 identify_data 0) 16)) in
  if count =? 0 then mret ERR_IO_ERROR else
  cmodify (λ s, mk_ata (hw s) (if ATA_LBA28_SECTOR_LIMIT <? count then ATA_LBA28_SECTOR_LIMIT else count));;
  mret ERR_SUCCESS.
Definition ata_sector_count : cmd ata Z := s ← cget; mret (g_ata_sector_count s).

(** ** Transfers *)

(** The registers and the command for one sector. *)
Definition start_command (lba command : Z) : cmd ata unit :=
  out8 (ATA_PRIMARY_IO + ATA_REG_HDDEVSEL) (u8 (Z.lor 0xE0 (Z.land (Z.shiftr lba 24) 0x0F)));;
  ata_delay_400ns;;
  out8 (ATA_PRIMARY_IO + ATA_REG_SECCOUNT) 1;;
  out8 (ATA_PRIMARY_IO + ATA_REG_LBA0) (u8 lba);;
  out8 (ATA_PRIMARY_IO + ATA_REG_LBA1) (u8 (Z.shiftr lba 8));;
  out8 (ATA_PRIMARY_IO + ATA_REG_LBA2) (u8 (Z.shiftr lba 16));;
  out8 (ATA_PRIMARY_IO + ATA_REG_COMMAND) command.

Definition bytes_of_word (v : Z) : list Z := [u8 v; u8 (Z.shiftr v 8)].
Definition bad_range (count_of_disk lba count : Z) : bool :=
  (count_of_disk =? 0) || (count_of_disk <=? lba) || (count_of_disk - lba <? count).

(** [n] sectors are left; [buf] has the bytes of the ones before. *)
Fixpoint read_sectors (n : nat) (lba : Z) (buf : list Z) : cmd ata (Z * list Z) :=
  match n with
  | O => mret (ERR_SUCCESS, buf)
  | S n =>
    result ← ata_wait_not_busy;
    if negb (result =? ERR_SUCCESS) then mret (result, buf) else
    start_command lba ATA_CMD_READ28;;
    result ← ata_wait_drq;
    if negb (result =? ERR_SUCCESS) then mret (result, buf) else
    words ← read_words 256;
    read_sectors n (u32 (lba + 1)) (buf ++ concat (bytes_of_word <$> words))
  end.
(** The status and what is in the buffer; [buf] says whether there is one. *)
Definition ata_read28 (lba : Z) (buf : bool) (count : Z) : cmd ata (Z * list Z) :=
  if count =? 0 then mret (ERR_SUCCESS, []) else
  n ← ata_sector_count;
  if negb buf || bad_range n lba count then mret (ERR_INVALID_ARGUMENT, []) else
  read_sectors (Z.to_nat count) lba [].

(** [n] words of [source] to the data register. *)
Fixpoint write_words (n : nat) (source : list Z) : cmd ata unit :=
  match n with
  | O => mret tt
  | S n =>
    match source with
    | b0 :: b1 :: source => out16 (ATA_PRIMARY_IO + ATA_REG_DATA) (Z.lor b0 (u16 (Z.shiftl b1 8)));; write_words n source
    | _ => cundef
    end
  end.
Fixpoint write_sectors (n : nat) (lba : Z) (source : list Z) : cmd ata Z :=
  match n with
  | O => mret ERR_SUCCESS
  | S n =>
    result ← ata_wait_not_busy;
    if negb (result =? ERR_SUCCESS) then mret result else
    start_command lba ATA_CMD_WRITE28;;
    result ← ata_wait_drq;
    if negb (result =? ERR_SUCCESS) then mret result else
    write_words 256 source;;
    result ← ata_wait_not_busy;
    if negb (result =? ERR_SUCCESS) then mret result else write_sectors n (u32 (lba + 1)) (drop 512 source)
  end.
Definition ata_write28 (lba : Z) (buf : option (list Z)) (count : Z) : cmd ata Z :=
  if count =? 0 then mret ERR_SUCCESS else
  n ← ata_sector_count;
  match buf with
  | None => mret ERR_INVALID_ARGUMENT
  | Some buf =>
    if bad_range n lba count then mret ERR_INVALID_ARGUMENT else
    result ← write_sectors (Z.to_nat count) lba buf;
    if negb (result =? ERR_SUCCESS) then mret result else
    out8 (ATA_PRIMARY_IO + ATA_REG_COMMAND) ATA_CMD_FLUSH;;
    ata_wait_not_busy
  end.

Definition ata_blockdev_read (lba count : Z) (buf : bool) : cmd ata (Z * list Z) := ata_read28 lba buf count.
Definition ata_blockdev_write (lba count : Z) (buf : option (list Z)) : cmd ata Z := ata_write28 lba buf count.

(** ** Registration

    The block layer knows the device by the driver's operations and the number of
    sectors; [ops] are the operations as it sees them, [p] is the address of [g_ata_blockdev]. *)
Definition g_ata_blockdev {D} (ops : blockdev_ops D) (count : Z) : blockdev D :=
  mk_blockdev (Some (cstr "hd0")) (Some ops) ATA_SECTOR_SIZE count.
Definition on_ata {D A} (m : cmd ata A) : cmd (ata * registry D) A := czoom fst (λ (a : ata) (r : ata * registry D), (a, snd r)) m.
Definition on_registry {D A} (m : cmd (registry D) A) : cmd (ata * registry D) A := czoom snd (λ (t : registry D) (r : ata * registry D), (fst r, t)) m.
Definition ata_init {D} (ops : blockdev_ops D) (p : positive) : cmd (ata * registry D) Z :=
  result ← on_ata ata_identify;
  if negb (result =? ERR_SUCCESS) then mret result else
  n ← on_ata ata_sector_count;
  cmodify (λ '(s, r), (s, mk_registry (<[p := g_ata_blockdev ops n]> (objects r)) (g_blockdev_list r)));;
  on_registry (blockdev_register (Some p)).

(** ** The self test *)

Definition pattern : list Z := (λ i, u8 (Z.lxor i 0xA5)) <$> seqZ 0 512.
Definition same_bytes (l1 l2 : list Z) : bool := bool_decide (l1 = l2).
Definition ata_selftest : cmd ata Z :=
  '(result, original) ← ata_read28 0 true 1;
  if negb (result =? ERR_SUCCESS) then mret result else
  result ← ata_write28 0 (Some pattern) 1;
  result ← (if negb (result =? ERR_SUCCESS) then mret result else
    '(result, actual) ← ata_read28 0 true 1;
    mret (if negb (result =? ERR_SUCCESS) then result else if same_bytes pattern actual then ERR_SUCCESS else ERR_IO_ERROR));
  restore_result ← ata_write28 0 (Some original) 1;
  if negb (restore_result =? ERR_SUCCESS) then mret restore_result else
  '(restore_result, actual) ← ata_read28 0 true 1;
  if negb (restore_result =? ERR_SUCCESS) then mret restore_result else
  if same_bytes original actual then mret result else mret ERR_IO_ERROR.

(** ** Every operation returns

    Whatever the hardware answers: the polls are bounded. *)

Definition returns {A} (m : cmd ata A) : Prop := ∀ s, is_Some (m s).
Lemma returns_ret {A} (a : A) : returns (mret a).
Proof. by intros s; eexists. Qed.
Lemma returns_bind {A B} (m : cmd ata A) (f : A → cmd ata B) : returns m → (∀ a, returns (f a)) → returns (m ≫= f).
Proof. intros Hm Hf s. destruct (Hm s) as [[a s'] E]. erewrite bind_run by exact E. apply Hf. Qed.
Lemma returns_in8 port : returns (in8 port).
Proof. intros s. unfold in8. destruct (p_in8 P port (hw s)). by eexists. Qed.
Lemma returns_in16 port : returns (in16 port).
Proof. intros s. unfold in16. destruct (p_in16 P port (hw s)). by eexists. Qed.
Lemma returns_modify (f : ata → ata) : returns (cmodify f).
Proof. by intros s; eexists. Qed.
Lemma returns_get : returns (cget (S := ata)).
Proof. by intros s; eexists. Qed.
Create HintDb ata_returns.
#[local] Hint Resolve returns_ret returns_in8 returns_in16 returns_modify returns_get : ata_returns.
Ltac returns_step :=
  match goal with
  | |- returns (mbind _ _) => apply returns_bind; [|intros]
  | |- returns (match _ with _ => _ end) => case_match
  | |- returns _ => solve [auto with ata_returns]
  end.

Lemma returns_wait_not_busy n : returns (wait_not_busy_from n).
Proof. induction n; cbn [wait_not_busy_from]; repeat returns_step. Qed.
Lemma returns_wait_drq n : returns (wait_drq_from n).
Proof. induction n; cbn [wait_drq_from]; repeat returns_step. Qed.
Lemma returns_read_words n : returns (read_words n).
Proof. induction n; cbn [read_words]; repeat returns_step. Qed.
#[local] Hint Resolve returns_wait_not_busy returns_wait_drq returns_read_words : ata_returns.
#[local] Hint Extern 1 (returns ata_wait_not_busy) => apply returns_wait_not_busy : ata_returns.
#[local] Hint Extern 1 (returns ata_wait_drq) => apply returns_wait_drq : ata_returns.
Lemma returns_start lba c : returns (start_command lba c).
Proof. unfold start_command, ata_delay_400ns, out8. repeat returns_step. Qed.
#[local] Hint Resolve returns_start : ata_returns.
Lemma returns_read_sectors n : ∀ lba buf, returns (read_sectors n lba buf).
Proof. induction n; intros; cbn [read_sectors]; repeat returns_step. Qed.
Lemma returns_write_words n : ∀ l, (2 * n <= length l)%nat → returns (write_words n l).
Proof.
  induction n; intros l Hl; cbn [write_words]; [returns_step|]. destruct l as [|b0 [|b1 l]]; simpl in Hl; [lia..|].
  unfold out16. returns_step; [returns_step|]. apply IHn. lia.
Qed.
Lemma returns_write_sectors n : ∀ lba l, (512 * n <= length l)%nat → returns (write_sectors n lba l).
Proof.
  induction n; intros lba l Hl; cbn [write_sectors]; [returns_step|]. repeat first [returns_step|apply IHn; rewrite length_drop; lia|apply returns_write_words; lia].
Qed.

Lemma returns_identify : returns ata_identify.
Proof. unfold ata_identify, ata_delay_400ns, out8. repeat returns_step. Qed.
Lemma returns_read28 lba buf count : returns (ata_read28 lba buf count).
Proof. unfold ata_read28, ata_sector_count. repeat first [returns_step|apply returns_read_sectors]. Qed.
Lemma returns_write28 lba buf count :
  match buf with Some l => 512 * count <= Z.of_nat (length l) | None => True end → returns (ata_write28 lba buf count).
Proof.
  intros Hl. unfold ata_write28, ata_sector_count, out8. repeat first [returns_step|apply returns_write_sectors; lia].
Qed.

(** C28: Whatever the hardware does, each operation of the driver returns: no
    drive can make it wait for ever. *)
Theorem ata_always_returns s lba buf data count :
  512 * count <= Z.of_nat (length data) →
  is_Some (ata_identify s) ∧ is_Some (ata_read28 lba buf count s) ∧ is_Some (ata_write28 lba (Some data) count s).
Proof. intros Hl. split_and!; [apply returns_identify|apply returns_read28|by apply returns_write28]. Qed.
End driver.
Arguments mk_ata {H} _ _.
Arguments hw {H} _.
Arguments g_ata_sector_count {H} _.

(** ** What a drive promises

    The ATA standard on programmed transfers of one sector, as far as the driver uses
    it: the registers, the state of the data transfer and the stored sectors. *)

Inductive phase := Idle | DataIn (words : list Z) | DataOut (lba : Z) (words : list Z).
Record regs := mk_regs { r_select : Z; r_count : Z; r_lba0 : Z; r_lba1 : Z; r_lba2 : Z; r_phase : phase }.

Definition words_of_bytes : list Z → list Z := fix go l :=
  match l with b0 :: b1 :: l => b0 + 2 ^ 8 * b1 :: go l | _ => [] end.
Definition lba28 (d : regs) : Z := r_lba0 d + 2 ^ 8 * r_lba1 d + 2 ^ 16 * r_lba2 d + 2 ^ 24 * Z.land (r_select d) 0x0F.
Definition set_phase (p : phase) (d : regs) : regs := mk_regs (r_select d) (r_count d) (r_lba0 d) (r_lba1 d) (r_lba2 d) p.

(** What the drive does with a byte for a register while it is idle; [None] is
    what the promise leaves open.  [n] is its size, [id] its identification. *)
Definition drive_out8 (n : Z) (id : list Z) (stored : Z → list Z) (port v : Z) (d : regs) : option regs :=
  match r_phase d with
  | Idle =>
    if port =? ATA_PRIMARY_CTRL then Some d
    else if port =? ATA_PRIMARY_IO + ATA_REG_HDDEVSEL then Some (mk_regs v (r_count d) (r_lba0 d) (r_lba1 d) (r_lba2 d) Idle)
    else if port =? ATA_PRIMARY_IO + ATA_REG_SECCOUNT then Some (mk_regs (r_select d) v (r_lba0 d) (r_lba1 d) (r_lba2 d) Idle)
    else if port =? ATA_PRIMARY_IO + ATA_REG_LBA0 then Some (mk_regs (r_select d) (r_count d) v (r_lba1 d) (r_lba2 d) Idle)
    else if port =? ATA_PRIMARY_IO + ATA_REG_LBA1 then Some (mk_regs (r_select d) (r_count d) (r_lba0 d) v (r_lba2 d) Idle)
    else if port =? ATA_PRIMARY_IO + ATA_REG_LBA2 then Some (mk_regs (r_select d) (r_count d) (r_lba0 d) (r_lba1 d) v Idle)
    else if port =? ATA_PRIMARY_IO + ATA_REG_COMMAND then
      if v =? ATA_CMD_IDENTIFY then Some (set_phase (DataIn id) d)
      else if v =? ATA_CMD_FLUSH then Some d
      else if negb (r_count d =? 1) || negb (Z.land (r_select d) 0xF0 =? 0xE0) || (n <=? lba28 d) then None
      else if v =? ATA_CMD_READ28 then Some (set_phase (DataIn (words_of_bytes (stored (lba28 d)))) d)
      else if v =? ATA_CMD_WRITE28 then Some (set_phase (DataOut (lba28 d) []) d)
      else None
    else None
  | _ => None
  end.

(** A status byte: a drive is there and reports no error. *)
Definition status_ok (busy drq : bool) (v : Z) : Prop :=
  v ≠ 0 ∧ v ≠ 0xFF ∧ any v (Z.lor ATA_SR_ERR 0x20) = false ∧ any v ATA_SR_BSY = busy ∧ (busy = false → drq = true → any v ATA_SR_DRQ = true).
Definition wants_data (d : regs) : bool := match r_phase d with Idle => false | _ => true end.

(** [busy h] is how often the drive will still report BSY.  It is busy after a
    command and after the last word of a sector, for fewer polls than the driver makes. *)
Class AtaDrive {H} (P : ports H) (n : Z) := {
  view : H → regs;
  busy : H → nat;
  stored : H → Z → list Z;
  identity : list Z;
  busy_limit h : Z.of_nat (busy h) < ATA_POLL_LIMIT;
  stored_length h i : length (stored h i) = 512%nat;
  stored_bytes h i : Forall is_u8 (stored h i);
  identity_length : length identity = 256%nat;
  identity_words : Forall is_u16 identity;
  identity_lba : any (nth 49 identity 0) (Z.shiftl 1 9) = true;
  identity_size : 0 < n <= ATA_LBA28_SECTOR_LIMIT ∧ nth 60 identity 0 + 2 ^ 16 * nth 61 identity 0 = n;
  in8_status h : let '(v, h') := p_in8 P (ATA_PRIMARY_IO + ATA_REG_STATUS) h in
    status_ok (negb (busy h =? 0)%nat) (wants_data (view h)) v ∧
    view h' = view h ∧ busy h' = pred (busy h) ∧ ∀ i, stored h' i = stored h i;
  in8_ctrl h : let '(v, h') := p_in8 P ATA_PRIMARY_CTRL h in
    view h' = view h ∧ (busy h = 0%nat → busy h' = 0%nat) ∧ ∀ i, stored h' i = stored h i;
  in8_lba h port : busy h = 0%nat → let '(v, h') := p_in8 P port h in
    (port = ATA_PRIMARY_IO + ATA_REG_LBA1 → v = r_lba1 (view h) ∧ view h' = view h ∧ busy h' = 0%nat ∧ ∀ i, stored h' i = stored h i) ∧
    (port = ATA_PRIMARY_IO + ATA_REG_LBA2 → v = r_lba2 (view h) ∧ view h' = view h ∧ busy h' = 0%nat ∧ ∀ i, stored h' i = stored h i);
  out8_idle h port v d : busy h = 0%nat → is_u8 v → drive_out8 n identity (stored h) port v (view h) = Some d →
    let h' := p_out8 P port v h in
    view h' = d ∧ (port ≠ ATA_PRIMARY_IO + ATA_REG_COMMAND → busy h' = 0%nat) ∧ ∀ i, stored h' i = stored h i;
  in16_data h w ws : busy h = 0%nat → r_phase (view h) = DataIn (w :: ws) →
    let '(v, h') := p_in16 P (ATA_PRIMARY_IO + ATA_REG_DATA) h in
    v = w ∧ view h' = set_phase (match ws with [] => Idle | _ => DataIn ws end) (view h) ∧ (ws ≠ [] → busy h' = 0%nat) ∧ ∀ i, stored h' i = stored h i;
  out16_data h lba ws v : busy h = 0%nat → is_u16 v → r_phase (view h) = DataOut lba ws → (length ws < 256)%nat →
    let h' := p_out16 P (ATA_PRIMARY_IO + ATA_REG_DATA) v h in
    if (S (length ws) =? 256)%nat
    then view h' = set_phase Idle (view h) ∧
      ∀ i, stored h' i = if i =? lba then concat (bytes_of_word <$> ws ++ [v]) else stored h i
    else view h' = set_phase (DataOut lba (ws ++ [v])) (view h) ∧ busy h' = 0%nat ∧ ∀ i, stored h' i = stored h i
}.

Section drive.
Context {H : Type} (P : ports H) (n : Z) `{HA : !AtaDrive P n}.
Implicit Types (s : ata (H := H)) (d : regs) (f : Z → list Z).

(** The drive has the registers [d] and the sectors [f]; when it is [calm], it is
    not busy either. *)
Definition after f (c : Z) d s : Prop :=
  view (hw s) = d ∧ (∀ i, stored (hw s) i = f i) ∧ g_ata_sector_count s = c.
Definition calm f c d s : Prop := after f c d s ∧ busy (hw s) = 0%nat.

Lemma wait_not_busy_from_wp f c d m : ∀ s, after f c d s → (busy (hw s) < m)%nat →
  wp (wait_not_busy_from P m) (λ r s', r = ERR_SUCCESS ∧ calm f c d s') s.
Proof.
  induction m as [|m IH]; intros s (Hv & Hf & Hc) Hb; [lia|]. cbn [wait_not_busy_from]. wp_step.
  pose proof (in8_status (hw s)) as Hst. unfold wp at 1, in8. destruct (p_in8 P _ (hw s)) as [v h']. destruct Hst as ((H0 & HF & HE & HB & _) & Hv' & Hb' & Hf').
  rewrite (proj2 (Z.eqb_neq v 0)), (proj2 (Z.eqb_neq v 255)) by done. cbn [orb]. rewrite HB, HE.
  assert (Ha : after f c d (mk_ata h' (g_ata_sector_count s))). { split_and!; [by cbn [hw]; rewrite Hv'|intros i; cbn [hw]; by rewrite Hf'|done]. }
  destruct (busy (hw s)) as [|b] eqn:E; cbn [Nat.eqb negb].
  - wp_step. split; [done|]. by split.
  - apply IH; [done|]. cbn [hw]. rewrite Hb'. simpl. lia.
Qed.
Lemma wait_not_busy_wp f c d s : after f c d s → wp (ata_wait_not_busy P) (λ r s', r = ERR_SUCCESS ∧ calm f c d s') s.
Proof. intros Ha. apply wait_not_busy_from_wp; [done|]. pose proof (busy_limit (hw s)). lia. Qed.

Lemma wait_drq_from_wp f c d m : wants_data d = true → ∀ s, after f c d s → (busy (hw s) < m)%nat →
  wp (wait_drq_from P m) (λ r s', r = ERR_SUCCESS ∧ calm f c d s') s.
Proof.
  intros Hd. induction m as [|m IH]; intros s (Hv & Hf & Hc) Hb; [lia|]. cbn [wait_drq_from]. wp_step.
  pose proof (in8_status (hw s)) as Hst. unfold wp at 1, in8. destruct (p_in8 P _ (hw s)) as [v h']. destruct Hst as ((H0 & HF & HE & HB & HD) & Hv' & Hb' & Hf').
  rewrite (proj2 (Z.eqb_neq v 0)), (proj2 (Z.eqb_neq v 255)) by done. cbn [orb]. rewrite HB, HE. rewrite Hv in HD.
  assert (Ha : after f c d (mk_ata h' (g_ata_sector_count s))). { split_and!; [by cbn [hw]; rewrite Hv'|intros i; cbn [hw]; by rewrite Hf'|done]. }
  destruct (busy (hw s)) as [|b] eqn:E; cbn [Nat.eqb negb andb].
  - rewrite HD by done. wp_step. split; [done|]. by split.
  - apply IH; [done|]. cbn [hw]. rewrite Hb'. simpl. lia.
Qed.
Lemma wait_drq_wp f c d s : wants_data d = true → after f c d s → wp (ata_wait_drq P) (λ r s', r = ERR_SUCCESS ∧ calm f c d s') s.
Proof. intros Hd Ha. apply wait_drq_from_wp; [done..|]. pose proof (busy_limit (hw s)). lia. Qed.

Lemma drive_out8_ext f g port v d : (∀ i, f i = g i) → drive_out8 n identity f port v d = drive_out8 n identity g port v d.
Proof. intros E. unfold drive_out8. by rewrite E. Qed.

Lemma out8_wp f c d port v d' s : calm f c d s → is_u8 v → drive_out8 n identity f port v d = Some d' →
  wp (out8 P port v) (λ _ s', after f c d' s' ∧ (port ≠ ATA_PRIMARY_IO + ATA_REG_COMMAND → calm f c d' s')) s.
Proof.
  intros ((Hv & Hf & Hc) & Hb) Hu Hd. unfold out8. apply wp_modify. rewrite <- (drive_out8_ext _ _ port v d Hf) in Hd. rewrite <- Hv in Hd.
  destruct (out8_idle (hw s) port v d' Hb Hu Hd) as (H1 & H2 & H3).
  assert (after f c d' (mk_ata (p_out8 P port v (hw s)) (g_ata_sector_count s))).
  { split_and!; [done|intros i; cbn [hw]; by rewrite H3|done]. }
  split; [done|]. intros Hne. split; [done|]. by apply H2.
Qed.
Lemma out8_reg_wp f c d port v d' s : calm f c d s → is_u8 v → port ≠ ATA_PRIMARY_IO + ATA_REG_COMMAND →
  drive_out8 n identity f port v d = Some d' → wp (out8 P port v) (λ _ s', calm f c d' s') s.
Proof. intros Hc Hu Hp Hd. eapply wp_mono; [by apply (out8_wp f c d port v d')|]. cbn beta. intros _ s' [_ Hx]. by apply Hx. Qed.

Lemma ctrl_wp f c d s : calm f c d s → wp (in8 P ATA_PRIMARY_CTRL) (λ _ s', calm f c d s') s.
Proof.
  intros ((Hv & Hf & Hc) & Hb). unfold wp, in8. pose proof (in8_ctrl (hw s)) as Hx. destruct (p_in8 P _ (hw s)) as [v h']. destruct Hx as (H1 & H2 & H3).
  split; [|by apply H2]. split_and!; [by cbn [hw]; rewrite H1|intros i; cbn [hw]; by rewrite H3|done].
Qed.
Lemma delay_wp f c d s : calm f c d s → wp (ata_delay_400ns P) (λ _ s', calm f c d s') s.
Proof. intros Hc. unfold ata_delay_400ns. do 4 (wp_step; eapply wp_mono; [by apply ctrl_wp|]; cbn beta; clear dependent s; intros _ s Hc). by wp_step. Qed.

(** ** One sector *)

Definition select_ok (x : Z) : Prop :=
  let v := u8 (Z.lor 0xE0 (Z.land x 0x0F)) in Z.land v 0x0F = x ∧ Z.land v 0xF0 = 0xE0 ∧ is_u8 v.
Lemma select_value x : 0 <= x < 16 → select_ok x.
Proof.
  intros Hx. assert (Hall : Forall select_ok (seqZ 0 16)) by (unfold select_ok; by_eval).
  rewrite Forall_forall in Hall. apply Hall, elem_of_seqZ. lia.
Qed.

(** The registers that hold a sector number. *)
Definition addressed (lba : Z) d : Prop := r_count d = 1 ∧ Z.land (r_select d) 0xF0 = 0xE0 ∧ lba28 d = lba.

Lemma start_command_wp f c d s lba command p :
  calm f c d s → r_phase d = Idle → 0 <= lba < n → is_u8 command →
  (∀ d', r_phase d' = Idle → addressed lba d' →
    drive_out8 n identity f (ATA_PRIMARY_IO + ATA_REG_COMMAND) command d' = Some (set_phase p d')) →
  wp (start_command P lba command) (λ _ s', ∃ d', r_phase d' = p ∧ after f c d' s') s.
Proof.
  intros Hc Hph Hl Hcu Hcmd. destruct identity_size as [Hn _]. unfold ATA_LBA28_SECTOR_LIMIT in Hn.
  assert (Hsh : 0 <= Z.shiftr lba 24 < 16) by (rewrite Z.shiftr_div_pow2 by lia; lia). destruct (select_value _ Hsh) as (Hs1 & Hs2 & Hs3).
  destruct d as [sel0 cnt0 a0 a1 a2 ph0]. cbn in Hph. subst ph0. unfold start_command.
  wp_step. eapply wp_mono; [by eapply out8_reg_wp|]. cbn beta. intros _ s1 H1.
  wp_step. eapply wp_mono; [by eapply delay_wp|]. cbn beta. intros _ s2 H2.
  do 4 (wp_step; eapply wp_mono; [eapply out8_reg_wp; [eassumption|first [by_eval|unfold u8, is_u8; apply Z.mod_pos_bound; lia]|done|reflexivity]|]; cbn beta; intros _ ? ?).
  eapply wp_mono; [eapply out8_wp; [eassumption|done|apply Hcmd]|]; [done| |].
  - split_and!; [done|exact Hs2|]. unfold lba28. cbn [r_lba0 r_lba1 r_lba2 r_select]. rewrite Hs1. unfold u8. rewrite !Z.shiftr_div_pow2 by lia. lia.
  - cbn beta. intros _ s9 [Ha _]. eexists. split; [|exact Ha]. done.
Qed.

(** The words that are left. *)
Lemma read_words_wp f c ws : ws ≠ [] → ∀ d s, calm f c d s → r_phase d = DataIn ws →
  wp (read_words P (length ws)) (λ l s', l = ws ∧ ∃ d', r_phase d' = Idle ∧ after f c d' s') s.
Proof.
  induction ws as [|w ws IH]; intros Hne d s ((Hv & Hf & Hc) & Hb) Hd; [done|]. cbn [length read_words]. wp_step.
  rewrite <- Hv in Hd. pose proof (in16_data (hw s) w ws Hb Hd) as Hx. unfold wp at 1, in16. destruct (p_in16 P _ (hw s)) as [v h'].
  destruct Hx as (-> & Hv' & Hb' & Hf'). set (s' := mk_ata h' (g_ata_sector_count s)).
  assert (Ha : after f c (view h') s') by (split_and!; [done|intros i; cbn [hw s']; by rewrite Hf'|done]).
  wp_step. destruct ws as [|w' ws].
  - cbn [length read_words]. wp_step. wp_step. split; [done|]. exists (view h'). split; [by rewrite Hv'|done].
  - eapply wp_mono; [apply (IH ltac:(done) (view h')); [split; [done|by apply Hb']|by rewrite Hv']|]. cbn beta. intros l s2 [-> Hs2].
    wp_step. by split.
Qed.

Lemma bytes_of_words l : Forall is_u8 l → Nat.Even (length l) → concat (bytes_of_word <$> words_of_bytes l) = l.
Proof.
  induction l as [l IH] using (induction_ltof1 _ (@length Z)). unfold ltof in IH. intros Hu He.
  destruct l as [|b0 [|b1 l]]; [done|by destruct He as [k ?]; simpl in *; lia|]. apply Forall_cons in Hu as [H0 [H1 Hu]%Forall_cons].
  change (bytes_of_word (b0 + 2 ^ 8 * b1) ++ concat (bytes_of_word <$> words_of_bytes l) = b0 :: b1 :: l). rewrite IH; [|simpl; lia|done|by destruct He as [k Hk]; exists (pred k); simpl in *; lia].
  unfold bytes_of_word, u8, is_u8 in *. rewrite Z.shiftr_div_pow2 by lia. cbn [app]. repeat f_equal; lia.
Qed.
Lemma length_words_of_bytes m : ∀ l, length l = (2 * m)%nat → length (words_of_bytes l) = m.
Proof. induction m as [|m IH]; intros [|b0 [|b1 l]] Hl; simpl in *; try lia. f_equal. apply IH. lia. Qed.
Lemma word_of_two b0 b1 : is_u8 b0 → is_u8 b1 → bytes_of_word (Z.lor b0 (u16 (Z.shiftl b1 8))) = [b0; b1] ∧ is_u16 (Z.lor b0 (u16 (Z.shiftl b1 8))).
Proof.
  unfold is_u8, is_u16, bytes_of_word, u8, u16. intros H0 H1. rewrite (Z.mod_small (Z.shiftl b1 8)) by (rewrite Z.shiftl_mul_pow2; lia).
  rewrite lor_shiftl_add, Z.shiftr_div_pow2 by lia. split; [repeat f_equal; lia|lia].
Qed.

Lemma write_words_wp f c lba m : ∀ ws source d s, calm f c d s → r_phase d = DataOut lba ws → (length ws + S m = 256)%nat →
  (2 * S m <= length source)%nat → Forall is_u8 source →
  wp (write_words P (S m) source) (λ _ s', ∃ d', r_phase d' = Idle ∧
    after (λ i, if i =? lba then concat (bytes_of_word <$> ws) ++ take (2 * S m) source else f i) c d' s') s.
Proof.
  induction m as [|m IH]; intros ws source d s ((Hv & Hf & Hc) & Hb) Hd Hws Hsrc Hu;
    (destruct source as [|b0 [|b1 source]]; cbn [length] in Hsrc; [lia..|]); apply Forall_cons in Hu as [H0 [H1 Hu]%Forall_cons];
    destruct (word_of_two b0 b1 H0 H1) as [Hw Hw16]; set (v := Z.lor b0 (u16 (Z.shiftl b1 8))) in *;
    rewrite <- Hv in Hd; pose proof (out16_data (hw s) lba ws v Hb Hw16 Hd ltac:(lia)) as Hx;
    remember (S _) as m' eqn:Em in |- *; cbn [write_words]; subst m'; cbn [write_words]; fold v; wp_step; unfold out16; apply wp_modify; cbv zeta in Hx.
  - rewrite (proj2 (Nat.eqb_eq _ 256)) in Hx by lia. destruct Hx as [Hv' Hf']. wp_step. eexists. split; [|split_and!; [exact Hv'| |done]]; [done|].
    intros i. cbn [hw]. rewrite Hf', fmap_app, concat_app, Hf. destruct (i =? lba); [|done]. cbn [fmap list_fmap concat]. by rewrite Hw.
  - rewrite (proj2 (Nat.eqb_neq _ 256)) in Hx by lia. destruct Hx as (Hv' & Hb' & Hf').
    eapply wp_mono; [eapply (IH (ws ++ [v]) source (set_phase (DataOut lba (ws ++ [v])) (view (hw s)))); [split; [split_and!|exact Hb']|done|rewrite length_app; simpl; lia|lia|done]|].
    + exact Hv'.
    + intros i. cbn [hw]. by rewrite Hf', Hf.
    + done.
    + cbn beta. intros _ s' (d' & Hd' & HB). exists d'. split; [done|]. destruct HB as (HA1 & HA2 & HA3). split_and!; [done| |done]. intros i. rewrite HA2.
      destruct (i =? lba); [|done]. rewrite fmap_app, concat_app. cbn [fmap list_fmap concat]. rewrite Hw, app_nil_r, <- (assoc_L (++)). f_equal.
      replace (2 * S (S m))%nat with (S (S (2 * S m))) by lia. done.
Qed.

(** ** The transfers *)

(** Between two operations: no data is being transferred. *)
Definition quiet f c s : Prop := ∃ d, r_phase d = Idle ∧ after f c d s.

Lemma read_sectors_wp f c m : ∀ lba buf s, quiet f c s → 0 <= lba → lba + Z.of_nat m <= n →
  wp (read_sectors P m lba buf) (λ r s', r = (ERR_SUCCESS, buf ++ run_of f lba (Z.of_nat m)) ∧ quiet f c s') s.
Proof.
  destruct identity_size as [Hn _]. unfold ATA_LBA28_SECTOR_LIMIT in Hn.
  induction m as [|m IH]; intros lba buf s (d & Hd & Ha) Hl Hm; cbn [read_sectors].
  { wp_step. split; [by rewrite app_nil_r|by exists d]. }
  wp_step. eapply wp_mono; [by eapply wait_not_busy_wp|]. cbn beta. intros r s1 [-> H1]. on_success.
  wp_step. eapply wp_mono; [apply (start_command_wp f c d s1 lba ATA_CMD_READ28 (DataIn (words_of_bytes (f lba)))); [done|done|lia|by_eval|]|].
  { intros d' Hi (Hc1 & Hc2 & Hc3). unfold drive_out8. rewrite Hi. cbn. by rewrite Hc1, Hc2, Hc3, (proj2 (Z.leb_gt _ _)) by lia. }
  cbn beta. intros _ s2 (d2 & Hd2 & H2). wp_step. eapply wp_mono; [eapply wait_drq_wp; [|exact H2]; unfold wants_data; by rewrite Hd2|].
  cbn beta. intros r s3 [-> H3]. on_success.
  assert (Hfl : length (f lba) = 512%nat ∧ Forall is_u8 (f lba)).
  { destruct Ha as (_ & Hf & _). rewrite <- Hf. split; [apply stored_length|apply stored_bytes]. }
  assert (Hwl : length (words_of_bytes (f lba)) = 256%nat) by (apply length_words_of_bytes; apply Hfl).
  wp_step. rewrite <- Hwl at 1. eapply wp_mono; [eapply read_words_wp; [|exact H3|exact Hd2]; intros E0; by rewrite E0 in Hwl|].
  cbn beta. intros l s4 [-> H4]. rewrite (u32_small (lba + 1)) by lia. eapply wp_mono; [apply IH; [exact H4|lia|lia]|].
  cbn beta. intros r s5 [-> H5]. split; [|done]. rewrite bytes_of_words; [|apply Hfl|exists 256%nat; apply Hfl].
  rewrite <- (assoc_L (++)). f_equal. replace (Z.of_nat (S m)) with (Z.of_nat m + 1) by lia. by rewrite run_of_S by lia.
Qed.

(** The sectors after a write of [data] from [lba] on. *)
Definition written f lba (m : nat) (data : list Z) : Z → list Z := λ i,
  if (lba <=? i) && (i <? lba + Z.of_nat m) then slice (Z.to_nat ((i - lba) * 512)) 512 data else f i.

Lemma after_ext f g c d s : (∀ i, f i = g i) → after f c d s → after g c d s.
Proof. intros E (H1 & H2 & H3). split_and!; [done| |done]. intros i. by rewrite H2. Qed.

Lemma write_sectors_wp c m : ∀ f lba data s, quiet f c s → 0 <= lba → lba + Z.of_nat m <= n →
  length data = (512 * m)%nat → Forall is_u8 data →
  wp (write_sectors P m lba data) (λ r s', r = ERR_SUCCESS ∧ quiet (written f lba m data) c s' ∧ (m ≠ 0%nat ∨ busy (hw s) = 0%nat → busy (hw s') = 0%nat)) s.
Proof.
  destruct identity_size as [Hn _]. unfold ATA_LBA28_SECTOR_LIMIT in Hn.
  induction m as [|m IH]; intros f lba data s (d & Hd & Ha) Hl Hm Hlen Hu; cbn [write_sectors].
  { wp_step. split_and!; [done| |by intros [Hx|Hx]]. exists d. split; [done|]. eapply after_ext; [|done]. intros i. unfold written.
    destruct (Z.leb_spec lba i), (Z.ltb_spec i (lba + Z.of_nat 0)); [lia|done..]. }
  wp_step. eapply wp_mono; [by eapply wait_not_busy_wp|]. cbn beta. intros r s1 [-> H1]. on_success.
  wp_step. eapply wp_mono; [apply (start_command_wp f c d s1 lba ATA_CMD_WRITE28 (DataOut lba [])); [done|done|lia|by_eval|]|].
  { intros d' Hi (Hc1 & Hc2 & Hc3). unfold drive_out8. rewrite Hi. cbn. by rewrite Hc1, Hc2, Hc3, (proj2 (Z.leb_gt _ _)) by lia. }
  cbn beta. intros _ s2 (d2 & Hd2 & H2). wp_step. eapply wp_mono; [eapply wait_drq_wp; [|exact H2]; unfold wants_data; by rewrite Hd2|].
  cbn beta. intros r s3 [-> H3]. on_success. wp_step.
  eapply wp_mono; [apply (write_words_wp f c lba 255 [] data d2 s3); [done|done|done|lia|done]|].
  cbn beta. intros _ s4 (d4 & Hd4 & H4). wp_step. eapply wp_mono; [by eapply wait_not_busy_wp|]. cbn beta. intros r s5 [-> [H5 Hb5]]. on_success.
  rewrite (u32_small (lba + 1)) by lia. cbn [fmap list_fmap concat app] in H5. change (2 * 256)%nat with 512%nat in H5.
  eapply wp_mono; [apply IH; [by exists d4|lia|lia|rewrite length_drop; lia|by apply Forall_drop]|].
  cbn beta. intros r s6 (-> & (d6 & Hd6 & H6) & Hb6). split_and!; [done| |].
  - exists d6. split; [done|]. eapply after_ext; [|exact H6]. intros i. unfold written.
    destruct (Z.leb_spec (lba + 1) i), (Z.leb_spec lba i), (Z.ltb_spec i (lba + 1 + Z.of_nat m)), (Z.ltb_spec i (lba + Z.of_nat (S m))); try lia; cbn [andb].
    + unfold slice. rewrite drop_drop. do 2 f_equal. lia.
    + by rewrite (proj2 (Z.eqb_neq i lba)) by lia.
    + replace i with lba by lia. by rewrite Z.eqb_refl, Z.sub_diag.
    + by rewrite (proj2 (Z.eqb_neq i lba)) by lia.
  - intros _. apply Hb6. by right.
Qed.

Lemma read28_wp f s lba count : quiet f n s → 0 <= lba → 0 < count → lba + count <= n →
  wp (ata_read28 P lba true count) (λ r s', r = (ERR_SUCCESS, run_of f lba count) ∧ quiet f n s') s.
Proof.
  intros Hq Hl Hc Hle. unfold ata_read28, ata_sector_count. rewrite (proj2 (Z.eqb_neq _ 0)) by lia. wp_step. wp_step. wp_step. wp_step.
  assert (E : g_ata_sector_count s = n) by (destruct Hq as (d & _ & _ & _ & E); exact E). rewrite E. unfold bad_range.
  rewrite (proj2 (Z.eqb_neq n 0)), (proj2 (Z.leb_gt n lba)), (proj2 (Z.ltb_ge _ count)) by lia. cbn [negb orb].
  eapply wp_mono; [apply (read_sectors_wp f n); [exact Hq|lia|lia]|]. cbn beta. intros r s' [-> Hs]. by rewrite Z2Nat.id by lia.
Qed.

Lemma write28_wp f s lba count data : quiet f n s → 0 <= lba → 0 < count → lba + count <= n →
  Z.of_nat (length data) = 512 * count → Forall is_u8 data →
  wp (ata_write28 P lba (Some data) count) (λ r s', r = ERR_SUCCESS ∧ quiet (written f lba (Z.to_nat count) data) n s') s.
Proof.
  intros Hq Hl Hc Hle Hlen Hu. unfold ata_write28, ata_sector_count. rewrite (proj2 (Z.eqb_neq _ 0)) by lia. wp_step. wp_step. wp_step. wp_step.
  assert (E : g_ata_sector_count s = n) by (destruct Hq as (d & _ & _ & _ & E); exact E). rewrite E. unfold bad_range.
  rewrite (proj2 (Z.eqb_neq n 0)), (proj2 (Z.leb_gt n lba)), (proj2 (Z.ltb_ge _ count)) by lia. cbn [negb orb].
  wp_step. eapply wp_mono; [apply (write_sectors_wp n (Z.to_nat count) f); [exact Hq|lia|lia|lia|done]|].
  cbn beta. intros r s1 (-> & (d & Hd & Ha) & Hb). on_success. wp_step.
  eapply wp_mono; [eapply out8_wp; [split; [exact Ha|apply Hb; left; lia]|by_eval|unfold drive_out8; rewrite Hd; reflexivity]|].
  cbn beta. intros _ s2 [Ha2 _]. eapply wp_mono; [by eapply wait_not_busy_wp|]. cbn beta. intros r s3 [-> [H3 _]]. split; [done|]. by exists d.
Qed.

Lemma lba_port_wp f c d s port : calm f c d s → port = ATA_PRIMARY_IO + ATA_REG_LBA1 ∨ port = ATA_PRIMARY_IO + ATA_REG_LBA2 →
  r_lba1 d = 0 → r_lba2 d = 0 → wp (in8 P port) (λ v s', v = 0 ∧ calm f c d s') s.
Proof.
  intros ((Hv & Hf & Hc) & Hb) Hp H1 H2. unfold wp, in8. pose proof (in8_lba (hw s) port Hb) as Hx. destruct (p_in8 P _ (hw s)) as [v h'].
  assert (Hy : v = 0 ∧ view h' = view (hw s) ∧ busy h' = 0%nat ∧ ∀ i, stored h' i = stored (hw s) i).
  { destruct Hx as [Hx1 Hx2], Hp as [Hp|Hp]; [destruct (Hx1 Hp) as (-> & Hx)|destruct (Hx2 Hp) as (-> & Hx)]; (split; [by rewrite Hv|exact Hx]). }
  destruct Hy as (-> & Hv' & Hb' & Hf'). split; [done|]. split; [|done]. split_and!; [by cbn [hw]; rewrite Hv'|intros i; cbn [hw]; by rewrite Hf'|done].
Qed.

Lemma identify_count : 
  Z.lor (nth 60 identity 0) (u32 (Z.shiftl (nth 61 identity 0) 16)) = n.
Proof.
  destruct identity_size as [Hn Hs]. assert (Hw : ∀ k, is_u16 (nth k identity 0)).
  { intros k. destruct (nth_in_or_default k identity 0) as [Hin| ->]; [|by_eval]. pose proof identity_words as Hall. rewrite Forall_forall in Hall. by apply Hall, list_elem_of_In. }
  destruct (Hw 60%nat), (Hw 61%nat). rewrite u32_small by (rewrite Z.shiftl_mul_pow2; lia). rewrite lor_shiftl_add by lia. lia.
Qed.

Lemma identify_wp f c d s : calm f c d s → r_phase d = Idle →
  wp (ata_identify P) (λ r s', r = ERR_SUCCESS ∧ quiet f n s') s.
Proof.
  intros Hc Hph. destruct d as [sel0 cnt0 a0 a1 a2 ph0]. cbn in Hph. subst ph0. unfold ata_identify. wp_step. wp_step.
  set (s0 := mk_ata _ 0). assert (H0 : calm f 0 (mk_regs sel0 cnt0 a0 a1 a2 Idle) s0) by (destruct Hc as ((E1 & E2 & E3) & E4); by split; [split_and!|]).
  clearbody s0. clear dependent s.
  do 2 (wp_step; eapply wp_mono; [eapply out8_reg_wp; [eassumption|by_eval|done|reflexivity]|]; cbn beta; cbn [r_select r_count r_lba0 r_lba1 r_lba2]; intros _ ? ?).
  wp_step. eapply wp_mono; [by eapply delay_wp|]. cbn beta. intros _ s2 G2.
  do 4 (wp_step; eapply wp_mono; [eapply out8_reg_wp; [eassumption|by_eval|done|reflexivity]|]; cbn beta; cbn [r_select r_count r_lba0 r_lba1 r_lba2]; intros _ ? ?).
  wp_step. eapply wp_mono; [eapply out8_wp; [eassumption|by_eval|reflexivity]|]. cbn beta. intros _ s7 [G7 _]. cbn [set_phase r_select r_count r_lba0 r_lba1 r_lba2] in G7.
  set (d := mk_regs 0xA0 0 0 0 0 (DataIn identity)) in G7. wp_step. pose proof (in8_status (hw s7)) as Hst. unfold wp at 1, in8. destruct (p_in8 P _ (hw s7)) as [v h'].
  destruct Hst as ((Hv0 & HvF & _) & Hv' & _ & Hf'). rewrite (proj2 (Z.eqb_neq v 0)), (proj2 (Z.eqb_neq v 255)) by done. cbn [orb].
  assert (G8 : after f 0 d (mk_ata h' (g_ata_sector_count s7))).
  { destruct G7 as (E1 & E2 & E3). split_and!; [exact (eq_trans Hv' E1)|intros i; cbn [hw]; by rewrite Hf'|done]. }
  wp_step. eapply wp_mono; [by eapply wait_not_busy_wp|]. cbn beta. intros r s9 [-> G9]. on_success.
  wp_step. eapply wp_mono; [eapply lba_port_wp; [exact G9|by left|done|done]|]. cbn beta. intros l1 s10 [-> G10]. cbn [Z.eqb negb].
  wp_step. eapply wp_mono; [eapply lba_port_wp; [exact G10|by right|done|done]|]. cbn beta. intros l2 s11 [-> G11]. cbn [Z.eqb negb orb].
  wp_step. eapply wp_mono; [apply (wait_drq_wp f 0 d); [done|apply G11]|]. cbn beta. intros r s12 [-> G12]. on_success.
  wp_step. rewrite <- identity_length at 1. eapply wp_mono; [eapply read_words_wp; [|exact G12|done]; intros E; pose proof identity_length as HL; by rewrite E in HL|].
  cbn beta. intros l s13 [-> (d' & Hd' & (E1 & E2 & E3))]. rewrite identity_lba. cbn [negb]. cbv zeta. rewrite identify_count.
  destruct identity_size as [Hn _]. rewrite (proj2 (Z.eqb_neq n 0)), (proj2 (Z.ltb_ge _ n)) by lia. wp_step. wp_step. wp_step. split; [done|]. by exists d'.
Qed.

(** ** The disk of the block layer

    A request of the block layer, served by the driver on the hardware and by the
    memory disk [ram_disk] of the same size. *)

Inductive request := Read (lba count : Z) (buf : bool) | Write (lba count : Z) (buf : option (list Z)).
(** A request in its C types, whose buffer is as long as it says. *)
Definition sound (q : request) : Prop :=
  match q with
  | Read lba count _ => 0 <= lba ∧ 0 <= count
  | Write lba count buf => 0 <= lba ∧ 0 <= count ∧ match buf with Some l => Z.of_nat (length l) = 512 * count ∧ Forall is_u8 l | None => True end
  end.
Definition serve_ata (q : request) : cmd (ata (H := H)) (Z * list Z) :=
  match q with
  | Read lba count buf => ata_blockdev_read P lba count buf
  | Write lba count buf => r ← ata_blockdev_write P lba count buf; mret (r, [])
  end.
Definition serve_disk (q : request) : cmd ram (Z * list Z) :=
  let bd := Some (ram_disk (cstr "hd0") n) in
  match q with
  | Read lba count buf => blockdev_read bd lba count buf
  | Write lba count buf => r ← blockdev_write bd lba count buf; mret (r, [])
  end.
Fixpoint serve {S} (server : request → cmd S (Z * list Z)) (qs : list request) : cmd S (list (Z * list Z)) :=
  match qs with [] => mret [] | q :: qs => r ← server q; l ← serve server qs; mret (r :: l) end.

Lemma quiet_ext f g c s : (∀ i, f i = g i) → quiet f c s → quiet g c s.
Proof. intros E (d & Hd & Ha). exists d. split; [done|]. by eapply after_ext. Qed.
Lemma quiet_count f c s : quiet f c s → g_ata_sector_count s = c.
Proof. by intros (d & _ & _ & _ & E). Qed.
(** The driver tests a range as the block layer does. *)
Lemma bad_range_disk lba count : bad_range n lba count = (n <=? lba) || (n - lba <? count).
Proof. destruct identity_size as [Hn _]. unfold bad_range. by rewrite (proj2 (Z.eqb_neq n 0)) by lia. Qed.

Lemma serve_step q s k : sound q → quiet (ram_sec k) n s →
  ∃ r s' k', serve_ata q s = Some (r, s') ∧ serve_disk q k = Some (r, k') ∧ quiet (ram_sec k') n s'.
Proof.
  intros Hq Hs. pose proof (quiet_count _ _ _ Hs) as Hc. destruct q as [lba count buf|lba count buf]; cbn [sound serve_ata serve_disk] in *.
  - destruct Hq as [Hl Hcnt]. unfold ata_blockdev_read, blockdev_read. cbn [ram_disk bd_ops mbind option_bind op_read sector_count].
    destruct (Z.eqb_spec count 0) as [->|Hne]; [by exists (ERR_SUCCESS, []), s, k|].
    destruct (negb buf || (n <=? lba) || (n - lba <? count)) eqn:E.
    + exists (ERR_INVALID_ARGUMENT, []), s, k. split_and!; [|done..]. unfold ata_read28, ata_sector_count. rewrite (proj2 (Z.eqb_neq count 0)) by done.
      erewrite bind_run by done. rewrite Hc, bad_range_disk, orb_assoc, E. done.
    + apply orb_false_iff in E as [[E1 E2]%orb_false_iff E3]. apply negb_false_iff in E1 as ->. apply Z.leb_gt in E2. apply Z.ltb_ge in E3.
      pose proof (read28_wp (ram_sec k) s lba count Hs ltac:(lia) ltac:(lia) ltac:(lia)) as (r & s' & Er & -> & Hs')%wp_run.
      by exists (ERR_SUCCESS, run_of (ram_sec k) lba count), s', k.
  - destruct Hq as (Hl & Hcnt & Hbuf). unfold ata_blockdev_write, blockdev_write. cbn [ram_disk bd_ops mbind option_bind op_write sector_count].
    destruct (Z.eqb_spec count 0) as [->|Hne]; [by exists (ERR_SUCCESS, []), s, k|].
    destruct buf as [data|].
    2: { exists (ERR_INVALID_ARGUMENT, []), s, k. split_and!; [|done..]. unfold ata_write28, ata_sector_count. rewrite (proj2 (Z.eqb_neq count 0)) by done. done. }
    destruct Hbuf as [Hlen Hu]. destruct ((n <=? lba) || (n - lba <? count)) eqn:E.
    + exists (ERR_INVALID_ARGUMENT, []), s, k. split_and!; [|done..]. unfold ata_write28, ata_sector_count. rewrite (proj2 (Z.eqb_neq count 0)) by done.
      erewrite bind_run; [|erewrite bind_run by done; cbn beta; rewrite Hc, bad_range_disk, E; done]. done.
    + apply orb_false_iff in E as [E2 E3]. apply Z.leb_gt in E2. apply Z.ltb_ge in E3.
      pose proof (write28_wp (ram_sec k) s lba count data Hs ltac:(lia) ltac:(lia) ltac:(lia) Hlen Hu) as (r & s' & Er & -> & Hs')%wp_run.
      exists (ERR_SUCCESS, []), s'. eexists. split_and!; [by erewrite bind_run by exact Er|done|]. eapply quiet_ext; [|exact Hs'].
      intros i. unfold written, ram_sec. rewrite Z2Nat.id by lia. destruct (Z.leb_spec lba i), (Z.ltb_spec i (lba + count)); cbn [andb]; try (by rewrite decide_False by lia).
      rewrite decide_True by lia. rewrite fit_id; [done|apply length_slice; lia|by apply Forall_slice].
Qed.
Lemma serve_run qs : ∀ s k, Forall sound qs → quiet (ram_sec k) n s →
  ∃ rs s' k', serve serve_ata qs s = Some (rs, s') ∧ serve serve_disk qs k = Some (rs, k') ∧ quiet (ram_sec k') n s'.
Proof.
  induction qs as [|q qs IH]; intros s k Hqs Hs; cbn [serve]; [by exists [], s, k|]. apply Forall_cons in Hqs as [Hq Hqs].
  destruct (serve_step q s k Hq Hs) as (r & s1 & k1 & E1 & E2 & H1). destruct (IH s1 k1 Hqs H1) as (rs & s2 & k2 & E3 & E4 & H2).
  exists (r :: rs), s2, k2. split_and!; [|by erewrite bind_run by exact E2; erewrite bind_run by exact E4|done].
  by erewrite bind_run by exact E1; erewrite bind_run by exact E3.
Qed.

(** C12: On a drive that keeps its promise, the driver is the disk of the block
    layer: [ata_init] registers the device "hd0" with the number of the drive's sectors, and from then on every
    sequence of reads and writes, those it must refuse included, gives the statuses and the
    bytes that the memory disk gives, and leaves the drive with the same sectors. *)
Theorem ata_refines_disk s p (objs : gmap positive (blockdev ram)) qs :
  busy (hw s) = 0%nat → r_phase (view (hw s)) = Idle → Forall sound qs →
  let k := stored (hw s) in
  ∃ s1 rs s2 k2,
    ata_init P (mk_ops (Some ram_read) (Some ram_write)) p (s, mk_registry objs []) =
      Some (ERR_SUCCESS, (s1, mk_registry (<[p := ram_disk (cstr "hd0") n]> objs) [p])) ∧
    serve serve_ata qs s1 = Some (rs, s2) ∧ serve serve_disk qs k = Some (rs, k2) ∧
    ∀ i, stored (hw s2) i = ram_sec k2 i.
Proof.
  intros Hb Hph Hqs k. destruct identity_size as [Hn _].
  assert (Hc : calm (ram_sec k) (g_ata_sector_count s) (view (hw s)) s).
  { split; [|done]. split_and!; [done| |done]. intros i. unfold ram_sec. rewrite fit_id; [done|apply stored_length|apply stored_bytes]. }
  pose proof (identify_wp _ _ _ s Hc Hph) as (r & s1 & E1 & -> & H1)%wp_run.
  destruct (serve_run qs s1 k Hqs H1) as (rs & s2 & k2 & E2 & E3 & (dr & _ & _ & Hst & _)). exists s1, rs, s2, k2. split_and!; [|done..].
  unfold ata_init. erewrite bind_run by (unfold on_ata, czoom; cbn [fst]; rewrite E1; reflexivity). on_success.
  erewrite bind_run by reflexivity. cbn [fst snd hw]. rewrite (quiet_count _ _ _ H1). erewrite bind_run by reflexivity. cbn [fst snd objects g_blockdev_list].
  unfold on_registry, czoom. cbn [snd]. unfold blockdev_register, get_device. erewrite bind_run by (unfold cread; cbn [objects]; rewrite lookup_insert_eq; reflexivity).
  assert (Hreg : registrable (g_ata_blockdev (mk_ops (Some ram_read) (Some ram_write)) n) = true).
  { unfold registrable, g_ata_blockdev. cbn [bd_name bd_ops op_read op_write sector_size Block.sector_count]. rewrite (proj2 (Z.eqb_neq n 0)) by lia. reflexivity. }
  rewrite Hreg. reflexivity.
Qed.

(** The self test passes and puts the first sector back. *)
Lemma run_of_one f i : run_of f i 1 = f i.
Proof. change 1 with (0 + 1). rewrite run_of_S by done. apply app_nil_r. Qed.
Lemma written_one f data : length data = 512%nat → written f 0 1 data 0 = data.
Proof. intros Hl. unfold written. cbn [Z.leb Z.ltb Z.compare andb Z.sub Z.mul Z.to_nat]. unfold slice. cbn [drop]. apply take_ge. simpl. unfold Z.to_nat. simpl. lia. Qed.
Lemma selftest_wp f s : quiet f n s → wp (ata_selftest P) (λ r s', r = ERR_SUCCESS ∧ quiet f n s') s.
Proof.
  intros Hq. destruct identity_size as [Hn _]. assert (Hf : length (f 0) = 512%nat ∧ Forall is_u8 (f 0)).
  { destruct Hq as (d & _ & _ & Hf & _). rewrite <- Hf. split; [apply stored_length|apply stored_bytes]. }
  assert (Hpl : length pattern = 512%nat) by reflexivity. assert (Hpu : Forall is_u8 pattern) by by_eval.
  unfold ata_selftest. wp_step. eapply wp_mono; [apply (read28_wp f); [done|lia..]|]. cbn beta. intros r s1 [-> H1]. rewrite run_of_one. on_success.
  wp_step. eapply wp_mono; [apply (write28_wp f); [done|lia..|by rewrite Hpl|done]|]. cbn beta. intros r s2 [-> H2]. wp_step. on_success.
  wp_step. eapply wp_mono; [eapply read28_wp; [exact H2|lia..]|]. cbn beta. intros r s3 [-> H3]. rewrite run_of_one, written_one by done. on_success.
  assert (Hsame : ∀ l, same_bytes l l = true) by (intros l; by apply bool_decide_true). rewrite Hsame. wp_step.
  wp_step. eapply wp_mono; [eapply write28_wp; [exact H3|lia..|rewrite (proj1 Hf); done|apply Hf]|]. cbn beta. intros r s4 [-> H4]. on_success.
  wp_step. eapply wp_mono; [eapply read28_wp; [exact H4|lia..]|]. cbn beta. intros r s5 [-> H5]. rewrite run_of_one, written_one by apply Hf. on_success.
  rewrite Hsame. wp_step. split; [done|]. eapply quiet_ext; [|exact H5]. intros i.
  destruct (Z.eq_dec i 0) as [->|Hi]; [apply written_one, Hf|]. unfold written.
  destruct (Z.leb_spec 0 i), (Z.ltb_spec i (0 + Z.of_nat (Z.to_nat 1))); cbn [andb]; (lia || done).
Qed.
End drive.

(** ** A drive of 8 sectors

    It is busy for one poll after each command and each sector it took. *)

Record sim := mk_sim { sim_regs : regs; sim_busy : bool; sim_ram : ram }.
Definition sim_identity : list Z := replicate 49 0 ++ [2 ^ 9] ++ replicate 10 0 ++ [8; 0] ++ replicate 194 0.
Definition sim_status (h : sim) : Z := if sim_busy h then 0xC0 else if wants_data (sim_regs h) then 0x48 else 0x40.
Definition sim_in8 (port : Z) (h : sim) : Z * sim :=
  if port =? ATA_PRIMARY_IO + ATA_REG_STATUS then (sim_status h, mk_sim (sim_regs h) false (sim_ram h))
  else if port =? ATA_PRIMARY_IO + ATA_REG_LBA1 then (r_lba1 (sim_regs h), h)
  else if port =? ATA_PRIMARY_IO + ATA_REG_LBA2 then (r_lba2 (sim_regs h), h)
  else (sim_status h, h).
Definition sim_out8 (port v : Z) (h : sim) : sim :=
  match drive_out8 8 sim_identity (ram_sec (sim_ram h)) port v (sim_regs h) with
  | Some d => mk_sim d (port =? ATA_PRIMARY_IO + ATA_REG_COMMAND) (sim_ram h)
  | None => h
  end.
Definition sim_in16 (port : Z) (h : sim) : Z * sim :=
  match r_phase (sim_regs h) with
  | DataIn (w :: ws) => (w, mk_sim (set_phase (match ws with [] => Idle | _ => DataIn ws end) (sim_regs h)) (bool_decide (ws = [])) (sim_ram h))
  | _ => (0, h)
  end.
Definition sim_out16 (port v : Z) (h : sim) : sim :=
  match r_phase (sim_regs h) with
  | DataOut lba ws =>
    if (S (length ws) =? 256)%nat
    then mk_sim (set_phase Idle (sim_regs h)) true (λ i, if i =? lba then concat (bytes_of_word <$> ws ++ [v]) else sim_ram h i)
    else mk_sim (set_phase (DataOut lba (ws ++ [v])) (sim_regs h)) false (sim_ram h)
  | _ => h
  end.
Definition sim_ports : ports sim := mk_ports sim_in8 sim_in16 sim_out8 sim_out16.

Lemma length_bytes ws : length (concat (bytes_of_word <$> ws)) = (2 * length ws)%nat.
Proof. induction ws as [|w ws IH]; [done|]. cbn [fmap list_fmap concat]. rewrite length_app, IH. simpl. lia. Qed.
Lemma bytes_u8 ws : Forall is_u8 (concat (bytes_of_word <$> ws)).
Proof. induction ws as [|w ws IH]; [constructor|]. repeat constructor; try (apply Z.mod_pos_bound; lia). exact IH. Qed.

#[local] Definition sim_drive : AtaDrive sim_ports 8.
Proof.
  refine {| view := sim_regs; busy := λ h, if sim_busy h then 1%nat else 0%nat; stored := λ h, ram_sec (sim_ram h); identity := sim_identity |}.
  - intros h. destruct (sim_busy h); unfold ATA_POLL_LIMIT; lia.
  - intros. apply length_fit.
  - intros. apply fit_bytes.
  - reflexivity.
  - by_eval.
  - reflexivity.
  - split; by_eval.
  - intros [d b k]. unfold sim_ports, p_in8, sim_in8. rewrite Z.eqb_refl. unfold sim_status. cbn [sim_busy sim_regs sim_ram].
    destruct b, (wants_data d); (split; [split_and!; done|done]).
  - intros h. done.
  - intros h port Hb. unfold sim_ports, p_in8. destruct (sim_in8 port h) as [v h'] eqn:E. split; intros ->; unfold sim_in8 in E; cbn in E; by injection E as <- <-.
  - intros h port v d Hb Hu Hd. unfold sim_ports, p_out8, sim_out8. rewrite Hd. cbn [sim_regs sim_busy sim_ram]. split_and!; [done| |done].
    intros Hp. by rewrite (proj2 (Z.eqb_neq _ _)).
  - intros h w ws Hb Hd. unfold sim_ports, p_in16, sim_in16. rewrite Hd. cbn [sim_regs sim_busy sim_ram]. split_and!; [done|done| |done].
    intros Hne. by rewrite bool_decide_false.
  - intros h lba ws v Hb Hv Hd Hl. unfold sim_ports, p_out16, sim_out16. rewrite Hd. destruct (_ =? _)%nat eqn:E; cbn [sim_regs sim_busy sim_ram]; [|done].
    apply Nat.eqb_eq in E. split; [done|]. intros i. unfold ram_sec. destruct (i =? lba); [|done].
    apply fit_id; [|apply bytes_u8]. rewrite length_bytes, length_app. simpl. lia.
Defined.

#[local] Existing Instance sim_drive.

Definition sim_start : ata (H := sim) := mk_ata (mk_sim (mk_regs 0 0 0 0 0 Idle) false (λ _, [])) 0.
Definition ex_requests : list request := [Write 3 1 (Some (replicate 512 7)); Read 3 1 true; Read 7 2 true; Read 4 1 false].
Definition ex_answers : list (Z * list Z) := [(0, []); (0, replicate 512 7); (ERR_INVALID_ARGUMENT, []); (ERR_INVALID_ARGUMENT, [])].

Lemma ata_refines_disk_witness :
  ∃ s1 s2 objs, ata_init sim_ports (mk_ops (Some ram_read) (Some ram_write)) 1 (sim_start, mk_registry ∅ []) = Some (0, (s1, mk_registry objs [1%positive])) ∧
    serve (serve_ata sim_ports) ex_requests s1 = Some (ex_answers, s2) ∧ stored (hw s2) 3 = replicate 512 7.
Proof.
  assert (Hq : Forall sound ex_requests).
  { repeat constructor; lia. }
  destruct (ata_refines_disk sim_ports 8 (HA := sim_drive) sim_start 1 ∅ ex_requests eq_refl eq_refl Hq) as (s1 & rs & s2 & k2 & E1 & E2 & E3 & E4).
  assert (E : (λ '(l, k), (l, ram_sec k 3)) <$> serve (serve_disk 8) ex_requests (stored (hw sim_start)) = Some (ex_answers, replicate 512 7)) by (vm_compute; reflexivity).
  rewrite E3 in E. cbn in E. injection E as -> E. exists s1, s2. eexists. split; [exact E1|]. split; [exact E2|]. rewrite E4. exact E.
Defined.

Lemma ata_always_returns_witness :
  is_Some (ata_write28 sim_ports 3 (Some (replicate 512 7)) 1 sim_start).
Proof. refine (proj2 (proj2 (ata_always_returns sim_ports sim_start 0 true (replicate 512 7) 1 _))). by_eval. Defined.
End Ata.
