(* ===== verification/Paging.v ===== *)
(** * Page tables and user copies

    [src/kernel/mm/paging.c], [src/kernel/mm/vmm.c] and
    [src/kernel/mm/usercopy.c].  The machine is its physical memory, as 32-bit
    words, the frame allocator and the paging registers; the kernel reaches
    every frame that it uses as a table through its identity map, so a table
    is read and written at its physical address. *)

From S2P Require Import Prelude Pmm.
Import Pmm.

Module Paging.

Definition PAGE_SIZE : Z := 0x1000.
Definition PAGE_PRESENT : Z := 0x001.
Definition PAGE_RW : Z := 0x002.
Definition PAGE_USER : Z := 0x004.
Definition PAGE_PWT : Z := 0x008.
Definition PAGE_PCD : Z := 0x010.
Definition TEMP_MAP_VADDR : Z := 0xFEE00000.

(** [mem i] is the word at the physical address [4 * i]; an address space is
    named by the physical address of its directory, and 0 is NULL. *)
Record machine := mk_machine {
  mem : Z → Z;
  frames : pmm;
  kernel_pd : Z;
  kernel_pd_phys : Z;
  cr3 : Z;
  paging_on : bool;
  current_pd : option Z;      (** [proc_current()->pd], when there is a process *)
  temp_map_phys : Z
}.

Definition set_mem (f : Z → Z) (s : machine) : machine :=
  mk_machine f (frames s) (kernel_pd s) (kernel_pd_phys s) (cr3 s) (paging_on s) (current_pd s) (temp_map_phys s).
Definition set_frames (p : pmm) (s : machine) : machine :=
  mk_machine (mem s) p (kernel_pd s) (kernel_pd_phys s) (cr3 s) (paging_on s) (current_pd s) (temp_map_phys s).
Definition set_kernel_pd (p : Z) (s : machine) : machine :=
  mk_machine (mem s) (frames s) p p (cr3 s) (paging_on s) (current_pd s) (temp_map_phys s).
Definition set_cr3 (p : Z) (s : machine) : machine :=
  mk_machine (mem s) (frames s) (kernel_pd s) (kernel_pd_phys s) p (paging_on s) (current_pd s) (temp_map_phys s).
Definition set_paging (b : bool) (s : machine) : machine :=
  mk_machine (mem s) (frames s) (kernel_pd s) (kernel_pd_phys s) (cr3 s) b (current_pd s) (temp_map_phys s).
Definition set_temp (p : Z) (s : machine) : machine :=
  mk_machine (mem s) (frames s) (kernel_pd s) (kernel_pd_phys s) (cr3 s) (paging_on s) (current_pd s) p.

(** [entries[i]] of the directory or table at [table]. *)
Definition entry_at (table i : Z) (s : machine) : Z := mem s (table / 4 + i).
Definition write_entry (table i v : Z) : cmd machine unit :=
  cmodify (λ s, set_mem (λ j, if j =? table / 4 + i then v else mem s j) s).
(** [memset(page, 0, PAGE_SIZE)] *)
Definition clear_page (page : Z) : cmd machine unit :=
  cmodify (λ s, set_mem (λ j, if (page / 4 <=? j) && (j <? page / 4 + 1024) then 0 else mem s j) s).

Definition alloc_frame : cmd machine Z := czoom frames set_frames pmm_alloc_frame.
Definition free_frame (f : Z) : cmd machine Z := czoom frames set_frames (pmm_free_frame f).

Definition has (e flag : Z) : bool := negb (Z.land e flag =? 0).
(** [e & ~0xFFFu] *)
Definition frame_of (e : Z) : Z := Z.land e (not32 0xFFF).
Definition pd_index (virt : Z) : Z := Z.land (Z.shiftr virt 22) 0x3FF.
Definition pt_index (virt : Z) : Z := Z.land (Z.shiftr virt 12) 0x3FF.

(** ** Mapping *)

Definition paging_map_page (pd virt phys flags : Z) : cmd machine Z :=
  if (pd =? 0) || negb (Z.land virt (PAGE_SIZE - 1) =? 0) || negb (Z.land phys (PAGE_SIZE - 1) =? 0)
  then mret (-1) else
  s ← cget;
  let pde := entry_at pd (pd_index virt) s in
  pt ←
    (if negb (has pde PAGE_PRESENT) then
       pt_phys ← alloc_frame;
       if pt_phys =? 0 then mret None else
       clear_page pt_phys;;
       let pde_flags := Z.lor (Z.lor PAGE_PRESENT PAGE_RW) (if has flags PAGE_USER then PAGE_USER else 0) in
       write_entry pd (pd_index virt) (Z.lor pt_phys pde_flags);;
       mret (Some pt_phys)
     else
       (if has flags PAGE_USER then write_entry pd (pd_index virt) (Z.lor pde PAGE_USER) else mret tt);;
       mret (Some (frame_of pde)));
  match pt with
  | None => mret (-1)
  | Some pt =>
    write_entry pt (pt_index virt)
      (Z.lor (frame_of phys)
         (Z.land flags (Z.lor (Z.lor (Z.lor (Z.lor PAGE_PRESENT PAGE_RW) PAGE_USER) PAGE_PWT) PAGE_PCD)));;
    mret 0
  end.

(** The inner loop of [identity_map_range]: entries [i, i + n) of a table. *)
Fixpoint identity_fill (pt base_page num_pages : Z) (n : nat) (i : Z) : cmd machine unit :=
  match n with
  | O => mret tt
  | S n =>
    let page := u32 (base_page + i) in
    if num_pages <=? page then mret tt else
    write_entry pt i (Z.lor (Z.lor (u32 (page * PAGE_SIZE)) PAGE_PRESENT) PAGE_RW);;
    identity_fill pt base_page num_pages n (i + 1)
  end.

Fixpoint identity_tables (pd num_pages : Z) (n : nat) (index : Z) : cmd machine unit :=
  match n with
  | O => mret tt
  | S n =>
    pt_phys ← alloc_frame;
    if pt_phys =? 0 then mret tt else
    clear_page pt_phys;;
    identity_fill pt_phys (u32 (index * 1024)) num_pages 1024 0;;
    write_entry pd index (Z.lor (Z.lor pt_phys PAGE_PRESENT) PAGE_RW);;
    identity_tables pd num_pages n (index + 1)
  end.

Definition identity_map_range (pd map_bytes : Z) : cmd machine unit :=
  let num_pages := ceil_div_u32 map_bytes PAGE_SIZE in
  let num_pt := ceil_div_u32 num_pages 1024 in
  identity_tables pd num_pages (Z.to_nat num_pt) 0.

(** [for (addr = first; addr < last; addr += PAGE_SIZE)] of [paging_init]. *)
Fixpoint map_window (pd : Z) (n : nat) (addr : Z) : cmd machine unit :=
  match n with
  | O => mret tt
  | S n => paging_map_page pd addr addr (Z.lor PAGE_PRESENT PAGE_RW);; map_window pd n (u32 (addr + PAGE_SIZE))
  end.

Definition paging_init : cmd machine unit :=
  pd ← alloc_frame;
  cmodify (set_kernel_pd pd);;
  clear_page pd;;
  identity_map_range pd (16 * 1024 * 1024);;
  map_window pd 256 0xF0000000;;
  map_window pd 1024 0xFD000000;;
  cmodify (set_cr3 pd);;
  cmodify (set_paging true).

(** ** Address spaces *)

(** The loop that copies the kernel's present entries. *)
Fixpoint copy_kernel (pd : Z) (n : nat) (i : Z) : cmd machine unit :=
  match n with
  | O => mret tt
  | S n =>
    s ← cget;
    let pde := entry_at (kernel_pd s) i s in
    (if has pde PAGE_PRESENT then write_entry pd i pde else mret tt);;
    copy_kernel pd n (i + 1)
  end.

(** The result is both the directory and [*out_phys]; 0 is NULL. *)
Definition paging_create_address_space : cmd machine Z :=
  pd_phys ← alloc_frame;
  if pd_phys =? 0 then mret 0 else
  clear_page pd_phys;;
  copy_kernel pd_phys 1024 0;;
  mret pd_phys.

(** The loop over the entries of a table of the address space. *)
Fixpoint free_table (pt : Z) (n : nat) (j : Z) : cmd machine unit :=
  match n with
  | O => mret tt
  | S n =>
    s ← cget;
    let pte := entry_at pt j s in
    (if has pte PAGE_PRESENT && has pte PAGE_USER then free_frame (frame_of pte);; mret tt else mret tt);;
    free_table pt n (j + 1)
  end.

Fixpoint free_tables (pd : Z) (n : nat) (i : Z) : cmd machine unit :=
  match n with
  | O => mret tt
  | S n =>
    s ← cget;
    let pde := entry_at pd i s in
    (if negb (has pde PAGE_PRESENT) || negb (has pde PAGE_USER) || (pde =? entry_at (kernel_pd s) i s)
     then mret tt
     else free_table (frame_of pde) 1024 0;; free_frame (frame_of pde);; mret tt);;
    free_tables pd n (i + 1)
  end.

Definition paging_destroy_address_space (pd pd_phys : Z) : cmd machine unit :=
  s ← cget;
  if (pd =? 0) || (pd =? kernel_pd s) then mret tt else
  free_tables pd 1024 0;;
  free_frame pd_phys;;
  mret tt.

Definition paging_switch_phys (pd_phys : Z) : cmd machine unit :=
  if pd_phys =? 0 then mret tt else cmodify (set_cr3 pd_phys).
Definition paging_switch (pd : Z) : cmd machine unit :=
  if pd =? 0 then mret tt else cmodify (set_cr3 pd).

(** ** User ranges *)

(** Whether an entry allows the access. *)
Definition entry_allows (write : bool) (e : Z) : bool :=
  has e PAGE_PRESENT && has e PAGE_USER && negb (write && negb (has e PAGE_RW)).

(** The loop from [page] to [last_page], on at most [n] pages. *)
Fixpoint pages_valid (s : machine) (pd : Z) (write : bool) (n : nat) (page last_page : Z) : option bool :=
  match n with
  | O => None
  | S n =>
    let pde := entry_at pd (pd_index page) s in
    if negb (entry_allows write pde) then Some false else
    let pte := entry_at (frame_of pde) (pt_index page) s in
    if negb (entry_allows write pte) then Some false else
    if page =? last_page then Some true else pages_valid s pd write n (u32 (page + PAGE_SIZE)) last_page
  end.

(** 2^20 pages are all there are. *)
Definition paging_user_range_valid (pd address length : Z) (write : bool) : cmd machine bool := λ s,
  let end_ := u64 (address + length) in
  if (pd =? 0) || (0x100000000 <? end_) then Some (false, s) else
  if length =? 0 then Some (true, s) else
  let page := Z.land address (not32 (PAGE_SIZE - 1)) in
  let last_page := Z.land (end_ - 1) (2 ^ 64 - PAGE_SIZE) in
  match pages_valid s pd write (Z.to_nat ((last_page - page) / PAGE_SIZE + 1)) page last_page with
  | Some b => Some (b, s)
  | None => None
  end.

(** ** Temporary mappings *)

Definition active_pd (s : machine) : Z :=
  match current_pd s with Some pd => if negb (pd =? 0) then pd else kernel_pd s | None => kernel_pd s end.

(** The result is the virtual address, 0 is NULL. *)
Definition paging_temp_map_frame (pd phys : Z) : cmd machine Z :=
  s ← cget;
  let act := active_pd s in
  let k := kernel_pd s in
  let flags := Z.lor PAGE_PRESENT PAGE_RW in
  r ← paging_map_page k TEMP_MAP_VADDR phys flags;
  if negb (r =? 0) then mret 0 else
  r ← (if negb (act =? k) && negb (act =? pd) then paging_map_page act TEMP_MAP_VADDR phys flags else mret 0);
  if negb (r =? 0) then paging_map_page k TEMP_MAP_VADDR 0 0;; mret 0 else
  r ← (if negb (pd =? 0) && negb (pd =? k) then paging_map_page pd TEMP_MAP_VADDR phys flags else mret 0);
  if negb (r =? 0) then
    paging_map_page k TEMP_MAP_VADDR 0 0;;
    (if negb (act =? k) && negb (act =? pd) then paging_map_page act TEMP_MAP_VADDR 0 0 else mret 0);;
    mret 0
  else
  cmodify (set_temp phys);;
  mret TEMP_MAP_VADDR.

Definition paging_temp_unmap_frame (pd : Z) : cmd machine unit :=
  s ← cget;
  let act := active_pd s in
  let k := kernel_pd s in
  paging_map_page k TEMP_MAP_VADDR 0 0;;
  (if negb (act =? k) && negb (act =? pd) then paging_map_page act TEMP_MAP_VADDR 0 0 else mret 0);;
  (if negb (pd =? 0) && negb (pd =? k) then paging_map_page pd TEMP_MAP_VADDR 0 0 else mret 0);;
  cmodify (set_temp 0).

(** ** [vmm.c] *)

(** The address of an entry, [None] for NULL. *)
Definition vmm_get_page (vaddr : Z) (make : bool) (dir : Z) : cmd machine (option (Z * Z)) :=
  s ← cget;
  let e := entry_at dir (pd_index vaddr) s in
  if has e PAGE_PRESENT then mret (Some (Z.land e 0xFFFFF000, pt_index vaddr))
  else if make then
    frame ← alloc_frame;
    if frame =? 0 then mret None else
    clear_page frame;;
    write_entry dir (pd_index vaddr) (Z.lor (Z.lor (Z.land frame 0xFFFFF000) PAGE_PRESENT) PAGE_RW);;
    mret (Some (frame, pt_index vaddr))
  else mret None.

Definition vmm_map_page (phys virt flags dir : Z) : cmd machine unit :=
  entry ← vmm_get_page virt true dir;
  match entry with
  | None => mret tt
  | Some (pt, i) => write_entry pt i (Z.lor (Z.lor (Z.land phys 0xFFFFF000) (Z.land flags 0xFFF)) PAGE_PRESENT)
  end.

Definition vmm_unmap_page (virt dir : Z) : cmd machine unit :=
  entry ← vmm_get_page virt false dir;
  match entry with
  | None => mret tt
  | Some (pt, i) => write_entry pt i 0
  end.

Definition switch_page_directory (dir : Z) : cmd machine unit := cmodify (set_cr3 dir).

Definition vmm_create_directory : cmd machine Z :=
  frame ← alloc_frame;
  if frame =? 0 then mret 0 else clear_page frame;; mret frame.

(** ** What the processor does with the tables *)

(** The entry that maps a virtual address: the physical address of its page
    and the flags of both levels. *)
Definition translate (s : machine) (pd virt : Z) : option (Z * Z * Z) :=
  let pde := entry_at pd (pd_index virt) s in
  if negb (has pde PAGE_PRESENT) then None else
  let pte := entry_at (frame_of pde) (pt_index virt) s in
  if negb (has pte PAGE_PRESENT) then None else Some (frame_of pte, pde, pte).

(** The byte at a physical address. *)
Definition byte_at (s : machine) (a : Z) : Z := mem s (a / 4) / 2 ^ (8 * (a mod 4)) mod 256.
Definition put_byte (a v : Z) (s : machine) : machine :=
  let w := mem s (a / 4) in
  let k := 2 ^ (8 * (a mod 4)) in
  set_mem (λ j, if j =? a / 4 then w - (w / k mod 256) * k + v * k else mem s j) s.

(** A kernel access at a virtual address, in the space that is switched to;
    a page that is not present faults. *)
Definition load (a : Z) : cmd machine Z := cread (λ s,
  match translate s (cr3 s) a with
  | Some (frame, _, _) => Some (byte_at s (frame + a mod PAGE_SIZE))
  | None => None
  end).
Definition store (a v : Z) : cmd machine unit :=
  s ← cget;
  match translate s (cr3 s) a with
  | Some (frame, _, _) => cput (put_byte (frame + a mod PAGE_SIZE) v s)
  | None => cundef
  end.

Fixpoint load_bytes (a : Z) (n : nat) : cmd machine (list Z) :=
  match n with
  | O => mret []
  | S n => b ← load a; l ← load_bytes (a + 1) n; mret (b :: l)
  end.
Fixpoint store_bytes (a : Z) (l : list Z) : cmd machine unit :=
  match l with
  | [] => mret tt
  | b :: l => store a b;; store_bytes (a + 1) l
  end.

(** ** [usercopy.c] *)

Definition current_address_space (s : machine) : Z := default 0 (current_pd s).

(** The status and the bytes copied to [kernel_dst]; [dst] tells whether that
    pointer is non-NULL, and 0 is a NULL [user_src]. *)
Definition copy_from_user (dst : bool) (user_src length : Z) : cmd machine (Z * list Z) :=
  if (negb dst || (user_src =? 0)) && negb (length =? 0) then mret (ERR_BAD_ADDRESS, []) else
  s ← cget;
  let pd := current_address_space s in
  ok ← paging_user_range_valid pd user_src length false;
  if negb (ok : bool) then mret (ERR_BAD_ADDRESS, []) else
  data ← load_bytes user_src (Z.to_nat length);
  mret (ERR_SUCCESS, data).

Definition copy_to_user (user_dst : Z) (src : option (list Z)) (length : Z) : cmd machine Z :=
  if ((user_dst =? 0) || negb (bool_decide (is_Some src))) && negb (length =? 0) then mret ERR_BAD_ADDRESS else
  s ← cget;
  let pd := current_address_space s in
  ok ← paging_user_range_valid pd user_dst length true;
  if negb (ok : bool) then mret ERR_BAD_ADDRESS else
  if (length =? 0) then mret ERR_SUCCESS else
  data ← cget_opt src;
  if Z.of_nat (List.length data) <? length then cundef else
  store_bytes user_dst (take (Z.to_nat length) data);;
  mret ERR_SUCCESS.

(** The loop of [copy_user_string]: [n] bytes are left of the buffer, [got]
    were copied. *)
Fixpoint copy_string_from (source : Z) (n : nat) (got : list Z) : cmd machine (Z * list Z) :=
  match n with
  | O => mret (ERR_BUFFER_TOO_SMALL, removelast got ++ [0])
  | S n =>
    let address := u64 (source + Z.of_nat (length got)) in
    if 0xFFFFFFFF <? address then mret (ERR_BAD_ADDRESS, got) else
    '(result, data) ← copy_from_user true (u32 address) 1;
    if negb (result =? ERR_SUCCESS) then mret (result, got) else
    match data with
    | [c] => if c =? 0 then mret (ERR_SUCCESS, got ++ [c]) else copy_string_from source n (got ++ [c])
    | _ => cundef
    end
  end.

(** The status and the bytes of the buffer that were written. *)
Definition copy_user_string (dst : bool) (capacity user_src : Z) : cmd machine (Z * list Z) :=
  if negb dst || (capacity =? 0) || (user_src =? 0) then mret (ERR_BAD_ADDRESS, [])
  else copy_string_from user_src (Z.to_nat capacity) [].

(** ** Entries *)

Lemma has_bit e n : 0 ≤ n → has e (2 ^ n) = Z.testbit e n.
Proof. intros. unfold has. rewrite <- Z.shiftl_1_l, land_bit_eq0 by done. by rewrite negb_involutive. Qed.
Lemma has_present e : has e PAGE_PRESENT = Z.testbit e 0.
Proof. by apply (has_bit e 0). Qed.
Lemma has_rw e : has e PAGE_RW = Z.testbit e 1.
Proof. by apply (has_bit e 1). Qed.
Lemma has_user e : has e PAGE_USER = Z.testbit e 2.
Proof. by apply (has_bit e 2). Qed.

Lemma land_u32 e m : 0 ≤ m < 2 ^ 32 → Z.land e m = Z.land (u32 e) m.
Proof.
  intros Hm. unfold u32. rewrite <- Z.land_ones by lia. rewrite <- Z.land_assoc. f_equal.
  rewrite Z.land_comm, Z.land_ones by lia. symmetry. by apply Z.mod_small.
Qed.
Lemma frame_of_val e : frame_of e = u32 e / 4096 * 4096.
Proof.
  unfold frame_of. change 0xFFF with (2 ^ 12 - 1). rewrite not32_ones by lia.
  rewrite land_u32 by lia. apply land_high_mask; [lia|apply u32_range].
Qed.
Lemma mask_frame e : Z.land e 0xFFFFF000 = frame_of e.
Proof. done. Qed.

(** A page is a multiple of 4096 below 4 GiB. *)
Definition is_page (p : Z) : Prop := 0 ≤ p < 2 ^ 32 ∧ p mod 4096 = 0.
Lemma frame_of_page e : is_page (frame_of e).
Proof. rewrite frame_of_val. pose proof (u32_range e). unfold is_page. lia. Qed.

Lemma lor_page p f : is_page p → 0 ≤ f < 4096 → Z.lor p f = p + f.
Proof.
  intros [Hp Hm] Hf. rewrite Z.lor_comm. replace p with (Z.shiftl (p / 4096) 12) at 1
    by (rewrite Z.shiftl_mul_pow2 by lia; lia).
  rewrite lor_shiftl_add by lia. lia.
Qed.
Lemma frame_of_lor p f : is_page p → 0 ≤ f < 4096 → frame_of (Z.lor p f) = p.
Proof.
  intros Hp Hf. rewrite lor_page, frame_of_val by done. destruct Hp. rewrite u32_small by lia. lia.
Qed.
Lemma testbit_page p n : is_page p → 0 ≤ n < 12 → Z.testbit p n = false.
Proof.
  intros [Hp Hm] Hn. replace p with (Z.shiftl (p / 4096) 12) by (rewrite Z.shiftl_mul_pow2 by lia; lia).
  rewrite Z.shiftl_spec by lia. apply Z.testbit_neg_r. lia.
Qed.
Lemma frame_of_add_user e : frame_of (Z.lor e PAGE_USER) = frame_of e.
Proof. unfold frame_of. rewrite Z.land_lor_distr_l. by rewrite Z.lor_0_r. Qed.

Lemma pd_index_val a : 0 ≤ a < 2 ^ 32 → pd_index a = a / 2 ^ 22.
Proof.
  intros. unfold pd_index. rewrite Z.shiftr_div_pow2 by lia. change 0x3FF with (Z.ones 10).
  rewrite Z.land_ones by lia. apply Z.mod_small. lia.
Qed.
Lemma pt_index_val a : pt_index a = a / 4096 mod 1024.
Proof.
  unfold pt_index. rewrite Z.shiftr_div_pow2 by lia. change 0x3FF with (Z.ones 10). by rewrite Z.land_ones by lia.
Qed.
Lemma pd_index_range a : 0 ≤ pd_index a < 1024.
Proof. unfold pd_index. change 0x3FF with (Z.ones 10). rewrite Z.land_ones by lia. by apply Z.mod_pos_bound. Qed.
Lemma pt_index_range a : 0 ≤ pt_index a < 1024.
Proof. rewrite pt_index_val. by apply Z.mod_pos_bound. Qed.

(** Addresses of one page have the same indices, and only they do. *)
Lemma indices_page a b :
  0 ≤ a < 2 ^ 32 → 0 ≤ b < 2 ^ 32 → pd_index a = pd_index b → pt_index a = pt_index b → a / 4096 = b / 4096.
Proof.
  intros Ha Hb. rewrite !pd_index_val, !pt_index_val by done. change (2 ^ 22) with 4194304. lia.
Qed.
Lemma same_page a b :
  0 ≤ a < 2 ^ 32 → 0 ≤ b < 2 ^ 32 → a / 4096 = b / 4096 → pd_index a = pd_index b ∧ pt_index a = pt_index b.
Proof. intros Ha Hb H. rewrite !pd_index_val, !pt_index_val by done. change (2 ^ 22) with 4194304. lia. Qed.

(** ** User ranges *)

(** Whether a user program may access the byte at [a]. *)
Definition user_access (s : machine) (pd : Z) (write : bool) (a : Z) : bool :=
  let pde := entry_at pd (pd_index a) s in
  entry_allows write pde && entry_allows write (entry_at (frame_of pde) (pt_index a) s).

Lemma user_access_page s pd write a b :
  0 ≤ a < 2 ^ 32 → 0 ≤ b < 2 ^ 32 → a / 4096 = b / 4096 → user_access s pd write a = user_access s pd write b.
Proof. intros Ha Hb H. destruct (same_page a b Ha Hb H) as [E1 E2]. unfold user_access. by rewrite E1, E2. Qed.

Lemma pages_valid_spec s pd write n page last :
  0 ≤ page → page mod 4096 = 0 → last = page + 4096 * (Z.of_nat n - 1) → last < 2 ^ 32 → (0 < n)%nat →
  ∃ b, pages_valid s pd write n page last = Some b ∧
    (b = true ↔ ∀ a, page ≤ a < last + 4096 → user_access s pd write a = true).
Proof.
  revert page. induction n as [|n IH]; intros page Hp Hm Hl Hlt Hn; [lia|]. cbn [pages_valid].
  set (pde := entry_at pd (pd_index page) s).
  assert (user_access s pd write page =
    entry_allows write pde && entry_allows write (entry_at (frame_of pde) (pt_index page) s)) as Hua by done.
  destruct (entry_allows write pde); cbn [negb andb] in *.
  2: { exists false. split; [done|]. split; [done|]. intros H. rewrite (H page) in Hua by lia. done. }
  destruct (entry_allows write (entry_at (frame_of pde) (pt_index page) s)); cbn [negb] in *.
  2: { exists false. split; [done|]. split; [done|]. intros H. rewrite (H page) in Hua by lia. done. }
  destruct (Z.eqb_spec page last) as [E|E].
  - exists true. split; [done|]. split; [|done]. intros _ a Ha. rewrite <- Hua.
    apply user_access_page; lia.
  - change PAGE_SIZE with 4096. rewrite u32_small by lia.
    destruct (IH (page + 4096)) as (b & -> & Hb); [lia..|]. exists b. split; [done|]. rewrite Hb. split.
    + intros H a Ha. destruct (decide (a < page + 4096)); [|apply H; lia].
      rewrite <- Hua. apply user_access_page; lia.
    + intros H a Ha. apply H. lia.
Qed.

Lemma user_range_wp s pd address length write :
  0 ≤ address < 2 ^ 32 → 0 ≤ length < 2 ^ 32 →
  ∃ b, paging_user_range_valid pd address length write s = Some (b, s) ∧
    (b = true ↔ pd ≠ 0 ∧ address + length ≤ 2 ^ 32 ∧
       ∀ a, address ≤ a < address + length → user_access s pd write a = true).
Proof.
  intros Ha Hl. unfold paging_user_range_valid. rewrite u64_small by lia.
  destruct (Z.eqb_spec pd 0) as [->|Hpd]; cbn [orb].
  { exists false. split; [done|]. split; [done|]. by intros [? _]. }
  destruct (Z.ltb_spec 0x100000000 (address + length)) as [|Hend].
  { exists false. split; [done|]. split; [done|]. intros (_ & ? & _). lia. }
  destruct (Z.eqb_spec length 0) as [->|Hl0].
  { exists true. split; [done|]. split; [|done]. intros _. split_and!; [done|lia|]. intros; lia. }
  change (PAGE_SIZE - 1) with (2 ^ 12 - 1). rewrite not32_ones, land_high_mask by lia.
  change PAGE_SIZE with (2 ^ 12). rewrite land_high_bits by lia. change (2 ^ 12) with 4096.
  set (page := address / 4096 * 4096). set (last := (address + length - 1) / 4096 * 4096).
  destruct (pages_valid_spec s pd write (Z.to_nat ((last - page) / 4096 + 1)) page last) as (b & -> & Hb);
    [subst page last; lia..|].
  exists b. split; [done|]. rewrite Hb. split.
  - intros H. split_and!; [done|lia|]. intros a Har. apply H. subst page last. lia.
  - intros (_ & _ & H) a Har. destruct (decide (a < address)).
    { rewrite <- (H address) by lia. apply user_access_page; subst page last; lia. }
    destruct (decide (a < address + length)); [apply H; lia|].
    rewrite <- (H (address + length - 1)) by lia. apply user_access_page; subst page last; lia.
Qed.


(** ** Mapping a page *)

(** An address space that the kernel has built: its directory and its tables
    are frames in use, all different. *)
Record space_ok (s : machine) (pd : Z) : Prop := {
  so_page : is_page pd;
  so_pd : pd ≠ 0;
  so_used : flags (frames s) !! Z.to_nat (pd / 4096) = Some true;
  so_tables i : 0 ≤ i < 1024 → has (entry_at pd i s) PAGE_PRESENT = true →
    frame_of (entry_at pd i s) ≠ pd ∧
    flags (frames s) !! Z.to_nat (frame_of (entry_at pd i s) / 4096) = Some true;
  so_distinct i j : 0 ≤ i < 1024 → 0 ≤ j < 1024 →
    has (entry_at pd i s) PAGE_PRESENT = true → has (entry_at pd j s) PAGE_PRESENT = true →
    frame_of (entry_at pd i s) = frame_of (entry_at pd j s) → i = j
}.

(** The entry of the page of an address, if it is present. *)
Definition mapping (s : machine) (pd a : Z) : option Z := snd <$> translate s pd a.

Lemma word_eq p q i j :
  is_page p → is_page q → 0 ≤ i < 1024 → 0 ≤ j < 1024 →
  (p / 4 + i =? q / 4 + j) = bool_decide (p = q ∧ i = j).
Proof.
  intros [Hp Hpm] [Hq Hqm] Hi Hj. case_bool_decide as E; [apply Z.eqb_eq|apply Z.eqb_neq]; [lia|].
  intros H. apply E. lia.
Qed.

Lemma in_page_word p q i :
  is_page p → is_page q → 0 ≤ i < 1024 →
  (p / 4 <=? q / 4 + i) && (q / 4 + i <? p / 4 + 1024) = bool_decide (p = q).
Proof.
  intros [Hp Hpm] [Hq Hqm] Hi. case_bool_decide as E.
  - apply andb_true_iff. split; [apply Z.leb_le|apply Z.ltb_lt]; lia.
  - apply andb_false_iff. destruct (decide (p < q)); [right; apply Z.ltb_ge|left; apply Z.leb_gt]; lia.
Qed.

(** A frame of the allocator is a page. *)
Lemma alloc_page s addr p' : wf (frames s) → alloc_post (frames s) addr p' → addr ≠ 0 →
  is_page addr ∧ wf p' ∧ flags (frames s) !! Z.to_nat (addr / 4096) = Some false ∧
  flags p' = <[Z.to_nat (addr / 4096) := true]> (flags (frames s)).
Proof.
  intros Hwf [[? _]|(f & -> & Hf & Hfl & _ & Hfl' & _ & _ & _ & Hwf')] Hne; [done|].
  pose proof (wf_total _ (wf_core _ Hwf)). replace (4096 * f / 4096) with f by lia. unfold is_page.
  split_and!; [lia|lia|lia|done..].
Qed.

Lemma used_stays (l : list bool) f k : l !! k = Some true → <[f := true]> l !! k = Some true.
Proof. intros H. rewrite list_lookup_insert. case_decide; [done|done]. Qed.

(** What a successful mapping has done. *)
Record mapped (s : machine) (pd virt pte : Z) (s' : machine) : Prop := {
  mp_wf : wf (frames s');
  mp_space : space_ok s' pd;
  mp_pde : has (entry_at pd (pd_index virt) s') PAGE_PRESENT = true;
  mp_new : entry_at (frame_of (entry_at pd (pd_index virt) s')) (pt_index virt) s' = pte;
  mp_old a : 0 ≤ a < 2 ^ 32 → a / 4096 ≠ virt / 4096 → mapping s' pd a = mapping s pd a;
  mp_frame j : mem s' j ≠ mem s j →
    pd / 4 ≤ j < pd / 4 + 1024 ∨
    frame_of (entry_at pd (pd_index virt) s') / 4 ≤ j < frame_of (entry_at pd (pd_index virt) s') / 4 + 1024;
  mp_rest : kernel_pd s' = kernel_pd s ∧ cr3 s' = cr3 s ∧ current_pd s' = current_pd s
}.

(** The directory and the tables of a space after a change of its words. *)
Definition new_mem (s : machine) (p' : pmm) (f : Z → Z) : machine := set_mem f (set_frames p' s).

(** A table that was there: the entry of [virt] is stored, and the entry of the
    directory may have become accessible to users. *)
Lemma mapped_present s pd virt pte pde' s' :
  wf (frames s) → space_ok s pd → 0 ≤ virt < 2 ^ 32 →
  let pde := entry_at pd (pd_index virt) s in
  has pde PAGE_PRESENT = true → (pde' = pde ∨ pde' = Z.lor pde PAGE_USER) →
  (∀ j, mem s' j = if j =? frame_of pde / 4 + pt_index virt then pte
                   else if j =? pd / 4 + pd_index virt then pde' else mem s j) →
  frames s' = frames s → kernel_pd s' = kernel_pd s ∧ cr3 s' = cr3 s ∧ current_pd s' = current_pd s →
  mapped s pd virt pte s'.
Proof.
  intros Hwf Hok Hv pde Hp Hpde' Hmem Hfr Hrest. destruct Hok as [Hpg Hne Hused Htab Hdis].
  pose proof (pd_index_range virt) as Hi. pose proof (pt_index_range virt) as Hj.
  pose proof (frame_of_page pde) as Hfp.
  destruct (Htab _ Hi Hp) as [Hfne Hfu]. fold pde in Hfne, Hfu.
  assert (frame_of pde' = frame_of pde ∧ has pde' PAGE_PRESENT = true) as [Hf' Hp'].
  { destruct Hpde' as [->| ->]; [done|]. rewrite frame_of_add_user. split; [done|].
    rewrite has_present in *. rewrite Z.lor_spec. by rewrite Hp. }
  assert (∀ i, 0 ≤ i < 1024 → entry_at pd i s' = if decide (i = pd_index virt) then pde' else entry_at pd i s) as Hpde.
  { intros i Hir. unfold entry_at. rewrite Hmem, !word_eq by done.
    rewrite (bool_decide_false (pd = _ ∧ _)) by (intros [? _]; congruence).
    case_bool_decide as E; case_decide; naive_solver. }
  assert (∀ i, 0 ≤ i < 1024 → has (entry_at pd i s') PAGE_PRESENT = has (entry_at pd i s) PAGE_PRESENT ∧
    frame_of (entry_at pd i s') = frame_of (entry_at pd i s)) as Hsame.
  { intros i Hir. rewrite Hpde by done. case_decide as E; [|done]. subst i. fold pde. by rewrite Hp, Hf', Hp'. }
  assert (∀ t i, is_page t → t ≠ pd → 0 ≤ i < 1024 →
    entry_at t i s' = if decide (t = frame_of pde ∧ i = pt_index virt) then pte else entry_at t i s) as Htbl.
  { intros t i Ht Htn Hir. unfold entry_at. rewrite Hmem, !word_eq by done.
    rewrite (bool_decide_false (t = pd ∧ _)) by (intros [? _]; congruence).
    case_bool_decide as E; case_decide; naive_solver. }
  destruct (Hsame _ Hi) as [Hsp Hsf]. fold pde in Hsp, Hsf.
  split; [by rewrite Hfr| |congruence| | | |done].
  - split; [done|done|by rewrite Hfr| |].
    + intros i Hir. destruct (Hsame i Hir) as [-> ->]. rewrite Hfr. by apply Htab.
    + intros i j Hir Hjr. destruct (Hsame i Hir) as [-> ->], (Hsame j Hjr) as [-> ->]. by apply Hdis.
  - rewrite Hsf, Htbl by done. by rewrite decide_True.
  - intros a Ha Hna. unfold mapping, translate. pose proof (pd_index_range a) as Hia. pose proof (pt_index_range a).
    destruct (Hsame _ Hia) as [-> Hfa]. destruct (has (entry_at pd (pd_index a) s) PAGE_PRESENT) eqn:Ea; cbn [negb]; [|done].
    rewrite Hfa. destruct (Htab _ Hia Ea) as [Hfn _]. rewrite Htbl by (done || apply frame_of_page).
    rewrite decide_False; [by case_match|]. intros [E1 E2].
    apply Hdis in E1; [|done..]. by apply Hna, indices_page.
  - intros j Hj'. rewrite Hsf. rewrite Hmem in Hj'.
    destruct (Z.eqb_spec j (frame_of pde / 4 + pt_index virt)); [right; lia|].
    destruct (Z.eqb_spec j (pd / 4 + pd_index virt)); [left; lia|done].
Qed.

(** A fresh table: the frame was free, so it is none of the others. *)
Lemma mapped_fresh s pd virt pte fl N p' :
  wf (frames s) → space_ok s pd → 0 ≤ virt < 2 ^ 32 →
  has (entry_at pd (pd_index virt) s) PAGE_PRESENT = false →
  is_page N → wf p' → flags (frames s) !! Z.to_nat (N / 4096) = Some false →
  flags p' = <[Z.to_nat (N / 4096) := true]> (flags (frames s)) →
  0 ≤ fl < 4096 → Z.testbit fl 0 = true →
  mapped s pd virt pte
    (new_mem s p' (λ j, if j =? N / 4 + pt_index virt then pte
                        else if j =? pd / 4 + pd_index virt then Z.lor N fl
                        else if (N / 4 <=? j) && (j <? N / 4 + 1024) then 0 else mem s j)).
Proof.
  intros Hwf Hok Hv Hp HN Hwf' Hfree Hfl Hflr Hfl0. destruct Hok as [Hpg Hne Hused Htab Hdis].
  pose proof (pd_index_range virt) as Hi. pose proof (pt_index_range virt) as Hj.
  set (s' := new_mem s p' _).
  assert (N ≠ pd) as HNpd by (intros ->; congruence).
  assert (∀ i, 0 ≤ i < 1024 → entry_at pd i s' = if decide (i = pd_index virt) then Z.lor N fl else entry_at pd i s) as Hpde.
  { intros i Hir. unfold entry_at, s', new_mem. cbn [mem set_mem set_frames]. rewrite !word_eq, in_page_word by done.
    rewrite (bool_decide_false (pd = N ∧ _)), (bool_decide_false (N = pd)) by naive_solver.
    case_bool_decide as E; case_decide; naive_solver. }
  assert (frame_of (Z.lor N fl) = N ∧ has (Z.lor N fl) PAGE_PRESENT = true) as [HNf HNp].
  { split; [by apply frame_of_lor|]. rewrite has_present, Z.lor_spec, Hfl0. by rewrite orb_true_r. }
  assert (∀ t i, is_page t → t ≠ pd → 0 ≤ i < 1024 →
    entry_at t i s' = if decide (t = N) then (if decide (i = pt_index virt) then pte else 0) else entry_at t i s) as Htbl.
  { intros t i Ht Htn Hir. unfold entry_at, s', new_mem. cbn [mem set_mem set_frames]. rewrite !word_eq, in_page_word by done.
    rewrite (bool_decide_false (t = pd ∧ _)) by naive_solver.
    destruct (decide (t = N)) as [->|].
    - rewrite (bool_decide_true (N = N)) by done. case_bool_decide; case_decide; naive_solver.
    - rewrite (bool_decide_false (N = t)), (bool_decide_false (t = N ∧ _)) by naive_solver. done. }
  assert (∀ i, 0 ≤ i < 1024 → has (entry_at pd i s) PAGE_PRESENT = true → frame_of (entry_at pd i s) ≠ N) as HnN.
  { intros i Hir Hpi E. destruct (Htab i Hir Hpi) as [_ Hu]. rewrite E in Hu. congruence. }
  assert (entry_at pd (pd_index virt) s' = Z.lor N fl) as Hnew by (rewrite Hpde by done; by rewrite decide_True).
  split; [done| |by rewrite Hnew| | | |done].
  - split; [done|done|cbn; rewrite Hfl; by apply used_stays| |].
    + intros i Hir. rewrite Hpde by done. case_decide.
      * intros _. rewrite HNf. split; [done|]. cbn. rewrite Hfl. apply list_lookup_insert_eq. by eapply lookup_lt_Some.
      * intros Hpi. destruct (Htab i Hir Hpi) as [? Hu]. split; [done|]. cbn. rewrite Hfl. by apply used_stays.
    + intros i j Hir Hjr. rewrite !Hpde by done. case_decide; case_decide; subst; try done; rewrite ?HNf; intros Hpi Hpj E.
      * by destruct (HnN j Hjr Hpj).
      * by destruct (HnN i Hir Hpi).
      * by apply Hdis.
  - rewrite Hnew, HNf, Htbl by done. by rewrite !decide_True.
  - intros a Ha Hna. unfold mapping, translate. pose proof (pd_index_range a) as Hia. pose proof (pt_index_range a).
    rewrite Hpde by done. destruct (decide (pd_index a = pd_index virt)) as [E|E].
    + rewrite HNp, HNf, Htbl by done. rewrite decide_True by done. rewrite E, Hp. cbn [negb].
      rewrite decide_False; [done|]. intros E2. by apply Hna, indices_page.
    + destruct (has (entry_at pd (pd_index a) s) PAGE_PRESENT) eqn:Ea; cbn [negb]; [|done].
      destruct (Htab _ Hia Ea) as [Hfn _]. rewrite Htbl by (done || apply frame_of_page).
      rewrite decide_False by (by apply HnN). done.
  - intros j Hj'. rewrite Hnew, HNf. unfold s', new_mem in Hj'. cbn [mem set_mem set_frames] in Hj'.
    destruct (Z.eqb_spec j (N / 4 + pt_index virt)); [right; lia|].
    destruct (Z.eqb_spec j (pd / 4 + pd_index virt)); [left; lia|].
    destruct ((N / 4 <=? j) && (j <? N / 4 + 1024)) eqn:E; [|done].
    apply andb_true_iff in E as [?%Z.leb_le ?%Z.ltb_lt]. right. lia.
Qed.

Definition map_flags : Z := Z.lor (Z.lor (Z.lor (Z.lor PAGE_PRESENT PAGE_RW) PAGE_USER) PAGE_PWT) PAGE_PCD.

Lemma aligned_test v : 0 ≤ v < 2 ^ 32 → v mod 4096 = 0 → (Z.land v (PAGE_SIZE - 1) =? 0) = true.
Proof.
  intros _ Hm. change (PAGE_SIZE - 1) with (Z.ones 12). rewrite Z.land_ones by lia. by apply Z.eqb_eq.
Qed.

(** What a successful mapping did to the words of memory and to the allocator,
    when the table of the page was there and when it is a fresh frame. *)
Inductive map_effect (s : machine) (pd virt pte : Z) (user : bool) (s' : machine) : Prop :=
  | effect_kept :
      let pde := entry_at pd (pd_index virt) s in
      has pde PAGE_PRESENT = true → frames s' = frames s →
      (∀ j, mem s' j = if j =? frame_of pde / 4 + pt_index virt then pte
                       else if j =? pd / 4 + pd_index virt then (if user then Z.lor pde PAGE_USER else pde) else mem s j) →
      map_effect s pd virt pte user s'
  | effect_fresh N :
      let fl := Z.lor (Z.lor PAGE_PRESENT PAGE_RW) (if user then PAGE_USER else 0) in
      has (entry_at pd (pd_index virt) s) PAGE_PRESENT = false → is_page N → wf (frames s') →
      flags (frames s) !! Z.to_nat (N / 4096) = Some false →
      flags (frames s') = <[Z.to_nat (N / 4096) := true]> (flags (frames s)) →
      total_frames_count (frames s') = total_frames_count (frames s) →
      (∀ j, mem s' j = if j =? N / 4 + pt_index virt then pte
                       else if j =? pd / 4 + pd_index virt then Z.lor N fl
                       else if (N / 4 <=? j) && (j <? N / 4 + 1024) then 0 else mem s j) →
      map_effect s pd virt pte user s'.
(** Nothing but the memory and the allocator is touched. *)
Definition only_mem (s s' : machine) : Prop := s' = new_mem s (frames s') (mem s').

Lemma map_page_effect s pd virt phys fl :
  wf (frames s) → pd ≠ 0 → is_page virt → is_page phys →
  wp (paging_map_page pd virt phys fl) (λ r s',
    (r = -1 ∧ mem s' = mem s ∧ frames s' = frames s ∧ only_mem s s' ∧
     all_used (frames s) (Z.to_nat (total_frames_count (frames s)))) ∨
    (r = 0 ∧ only_mem s s' ∧ map_effect s pd virt (Z.lor phys (Z.land fl map_flags)) (has fl PAGE_USER) s')) s.
Proof.
  intros Hwf Hpd Hv Hph. pose proof Hv as [Hv1 Hv2]. pose proof Hph as [Hp1 Hp2]. unfold paging_map_page.
  rewrite (proj2 (Z.eqb_neq pd 0)) by done. rewrite !aligned_test by done. cbn [negb orb].
  assert (frame_of phys = phys) as -> by (rewrite frame_of_val, u32_small by done; lia). fold map_flags.
  wp_step. wp_step. destruct (has (entry_at pd (pd_index virt) s) PAGE_PRESENT) eqn:Hp; cbn [negb].
  - wp_step. wp_step. destruct (has fl PAGE_USER).
    + wp_steps. right. split_and!; [done|done|]. by apply effect_kept.
    + wp_steps. right. split_and!; [done|by destruct s|]. apply effect_kept; [done|done|].
      intros j. cbn [mem set_mem]. destruct (j =? frame_of _ / 4 + pt_index virt); [done|].
      destruct (Z.eqb_spec j (pd / 4 + pd_index virt)) as [->|]; done.
  - wp_step. wp_step. unfold alloc_frame. wp_step. eapply wp_mono; [by apply pmm_alloc_frame_wp|].
    intros addr p' Hpost. destruct (Z.eqb_spec addr 0) as [E|E].
    + wp_step. wp_step. left. destruct Hpost as [(_ & -> & ?)|(f & -> & ? & _)]; [|lia]. by destruct s.
    + destruct (alloc_page s addr p' Hwf Hpost E) as (HN & Hwf' & Hfree & Hfl).
      wp_steps. right. split_and!; [done|done|]. apply (effect_fresh _ _ _ _ _ _ addr); try done.
      by destruct Hpost as [[? _]|(f & _ & _ & _ & _ & _ & _ & ? & _)].
Qed.

Lemma effect_mapped s pd virt pte user s' :
  wf (frames s) → space_ok s pd → 0 ≤ virt < 2 ^ 32 → only_mem s s' → map_effect s pd virt pte user s' → mapped s pd virt pte s'.
Proof.
  intros Hwf Hok Hv Hm [pde Hp Hfr Hmem|N fl Hp HN Hwf' Hfree Hfl Htot Hmem]; unfold only_mem in Hm.
  - apply (mapped_present s pd virt _ (if user then Z.lor pde PAGE_USER else pde) _ Hwf Hok Hv Hp); [destruct user; auto|done|done|by rewrite Hm].
  - pose proof (mapped_fresh s pd virt pte fl N (frames s') Hwf Hok Hv Hp HN Hwf' Hfree Hfl) as H.
    destruct H as [H1 H2 H3 H4 H5 H6 H7]; [subst fl; destruct user; by_eval..|].
    set (s1 := new_mem s _ (λ _, _)) in *.
    assert (Ee : ∀ t i, entry_at t i s' = entry_at t i s1) by (intros t i; unfold entry_at; by rewrite Hmem).
    assert (Em : ∀ a, mapping s' pd a = mapping s1 pd a) by (intros a; unfold mapping, translate; by rewrite !Ee).
    split; rewrite ?Ee; [done| |done|done| | |by rewrite Hm].
    + destruct H2 as [? ? ? Ht Hd]. split; [done|done|done| |].
      * intros i Hi. rewrite !Ee. by apply Ht.
      * intros i k Hi Hk. rewrite !Ee. by apply Hd.
    + intros a Ha Hn. rewrite Em. by apply H5.
    + intros k Hk. apply H6. by rewrite Hmem in Hk.
Qed.

Lemma map_page_wp s pd virt phys fl :
  wf (frames s) → space_ok s pd → is_page virt → is_page phys →
  wp (paging_map_page pd virt phys fl) (λ r s',
    (r = -1 ∧ mem s' = mem s ∧ frames s' = frames s ∧ all_used (frames s) (Z.to_nat (total_frames_count (frames s)))) ∨
    (r = 0 ∧ mapped s pd virt (Z.lor phys (Z.land fl map_flags)) s')) s.
Proof.
  intros Hwf Hok Hv Hph. eapply wp_mono; [by apply map_page_effect; [|apply Hok|..]|]. cbn beta.
  intros r s' [(? & ? & ? & _ & ?)|(? & ? & He)]; [by left|right]. split; [done|]. eapply effect_mapped; eauto. apply Hv.
Qed.

(** C19: mapping a page either fails because no frame is left for a table, and
    has changed nothing, or makes the entry of the page the given frame with
    the given flags; the entry of every other page of the space stays, the
    tables stay distinct frames in use, and only the directory and the table
    of the page were written. *)
Theorem paging_map_page_correct s pd virt phys fl :
  wf (frames s) → space_ok s pd → is_page virt → is_page phys →
  wp (paging_map_page pd virt phys fl) (λ r s',
    (r = -1 ∧ mem s' = mem s ∧ frames s' = frames s ∧ all_used (frames s) (Z.to_nat (total_frames_count (frames s)))) ∨
    (r = 0 ∧ mapped s pd virt (Z.lor phys (Z.land fl map_flags)) s')) s.
Proof. apply map_page_wp. Qed.

(** ** Destroying an address space *)

(** The frames that a table of the space maps for users. *)
Fixpoint table_frames (s : machine) (pt : Z) (n : nat) (j : Z) : list Z :=
  match n with
  | O => []
  | S n =>
    let pte := entry_at pt j s in
    (if has pte PAGE_PRESENT && has pte PAGE_USER then [frame_of pte] else []) ++ table_frames s pt n (j + 1)
  end.

(** The frames that belong to the space alone: those and the tables that it
    does not share with the kernel. *)
Fixpoint private_frames (s : machine) (pd : Z) (n : nat) (i : Z) : list Z :=
  match n with
  | O => []
  | S n =>
    let pde := entry_at pd i s in
    (if negb (has pde PAGE_PRESENT) || negb (has pde PAGE_USER) || (pde =? entry_at (kernel_pd s) i s) then []
     else table_frames s (frame_of pde) 1024 0 ++ [frame_of pde]) ++ private_frames s pd n (i + 1)
  end.
Definition space_frames (s : machine) (pd pd_phys : Z) : list Z := private_frames s pd 1024 0 ++ [pd_phys].

(** A frame in use other than frame 0. *)
Definition owned (p : pmm) (f : Z) : Prop :=
  4096 ≤ f < 4096 * total_frames_count p ∧ f mod 4096 = 0 ∧ flags p !! Z.to_nat (f / 4096) = Some true.

(** The allocator after the frames [l] were freed. *)
Record freed (p : pmm) (l : list Z) (p' : pmm) : Prop := {
  fr_wf : wf p';
  fr_total : total_frames_count p' = total_frames_count p;
  fr_used : frames_used p' = frames_used p - Z.of_nat (length l);
  fr_flags k : flags p' !! k = if decide (4096 * Z.of_nat k ∈ l) then Some false else flags p !! k
}.

Lemma freed_nil p : wf p → freed p [] p.
Proof. intros. split; [done|done|simpl; lia|]. intros k. by rewrite decide_False by (by intros ?%elem_of_nil). Qed.

Lemma freed_app p l1 p1 l2 p2 : freed p l1 p1 → freed p1 l2 p2 → freed p (l1 ++ l2) p2.
Proof.
  intros [H1 H2 H3 H4] [K1 K2 K3 K4]. split; [done|congruence|rewrite length_app; lia|].
  intros k. rewrite K4, H4. destruct (decide (4096 * Z.of_nat k ∈ l2)).
  { by rewrite decide_True by (apply elem_of_app; by right). }
  destruct (decide (4096 * Z.of_nat k ∈ l1)); [by rewrite decide_True by (apply elem_of_app; by left)|].
  rewrite decide_False; [done|]. rewrite elem_of_app. tauto.
Qed.

Lemma owned_freed p l p' f : freed p l p' → owned p f → f ∉ l → owned p' f.
Proof.
  intros Hf (Hr & Hm & Hu) Hn. split_and!; [lia|rewrite (fr_total _ _ _ Hf); lia|done|].
  rewrite (fr_flags _ _ _ Hf), decide_False; [done|].
  by replace (4096 * Z.of_nat (Z.to_nat (f / 4096))) with f by lia.
Qed.

Lemma free_frame_wp f s (Q : Z → machine → Prop) :
  wf (frames s) → owned (frames s) f →
  (∀ p', freed (frames s) [f] p' → Q ERR_SUCCESS (set_frames p' s)) → wp (free_frame f) Q s.
Proof.
  intros Hwf (Hr & Hm & Hu) HQ. unfold free_frame. wp_step.
  eapply wp_mono; [by apply pmm_free_frame_wp|]. intros r p' Hpost. unfold free_post in Hpost.
  rewrite decide_False, decide_True in Hpost by (done || lia).
  destruct Hpost as (-> & Hfl & Hus & Htot & _ & Hwf'). apply HQ. split; [done|done|simpl; lia|].
  intros k. rewrite Hfl, list_lookup_insert. pose proof (lookup_lt_Some _ _ _ Hu).
  destruct (decide (4096 * Z.of_nat k ∈ [f])) as [Hk%list_elem_of_singleton|Hk].
  - rewrite decide_True; [done|]. lia.
  - rewrite decide_False; [done|]. intros [E _]. apply Hk, list_elem_of_singleton. lia.
Qed.

(** The lists do not depend on the allocator. *)
Lemma table_frames_frames p' s pt n j : table_frames (set_frames p' s) pt n j = table_frames s pt n j.
Proof. revert j. induction n as [|n IH]; intros j; [done|]. cbn [table_frames]. by rewrite IH. Qed.
Lemma private_frames_frames p' s pd n i : private_frames (set_frames p' s) pd n i = private_frames s pd n i.
Proof. revert i. induction n as [|n IH]; intros i; [done|]. cbn [private_frames]. by rewrite IH, table_frames_frames. Qed.

Lemma free_table_wp s pt n j (Q : unit → machine → Prop) :
  wf (frames s) → NoDup (table_frames s pt n j) → (∀ f, f ∈ table_frames s pt n j → owned (frames s) f) →
  (∀ p', freed (frames s) (table_frames s pt n j) p' → Q tt (set_frames p' s)) →
  wp (free_table pt n j) Q s.
Proof.
  revert s j. induction n as [|n IH]; intros s j Hwf Hnd Hown HQ; cbn [free_table table_frames] in *.
  { wp_step. destruct s. apply (HQ frames0). by apply freed_nil. }
  wp_step. wp_step. wp_step.
  destruct (has (entry_at pt j s) PAGE_PRESENT && has (entry_at pt j s) PAGE_USER); cbn [app] in *.
  - apply NoDup_cons in Hnd as [Hni Hnd]. wp_step. apply free_frame_wp; [done|apply Hown; by left|].
    intros p1 Hp1. wp_step. apply IH; cbn [frames set_frames]; rewrite ?table_frames_frames; [apply Hp1|done| |].
    + intros f Hf. eapply owned_freed; [done|apply Hown; by right|]. intros ->%list_elem_of_singleton. done.
    + intros p2 Hp2. apply (HQ p2). by apply (freed_app _ [_] p1).
  - wp_step. by apply IH.
Qed.

Lemma free_tables_wp s pd n i (Q : unit → machine → Prop) :
  wf (frames s) → NoDup (private_frames s pd n i) → (∀ f, f ∈ private_frames s pd n i → owned (frames s) f) →
  (∀ p', freed (frames s) (private_frames s pd n i) p' → Q tt (set_frames p' s)) →
  wp (free_tables pd n i) Q s.
Proof.
  revert s i. induction n as [|n IH]; intros s i Hwf Hnd Hown HQ; cbn [free_tables private_frames] in *.
  { wp_step. destruct s. apply (HQ frames0). by apply freed_nil. }
  wp_step. wp_step. wp_step.
  set (pde := entry_at pd i s) in *.
  destruct (negb (has pde PAGE_PRESENT) || negb (has pde PAGE_USER) || (pde =? entry_at (kernel_pd s) i s)); cbn [app] in *.
  { wp_step. by apply IH. }
  rewrite <- app_assoc in *. apply NoDup_app in Hnd as (Hnd1 & Hd1 & Hnd2). cbn [app] in *. apply NoDup_cons in Hnd2 as [Hni Hnd2].
  wp_step. apply free_table_wp; [done|done|intros f Hf; apply Hown; apply elem_of_app; by left|].
  intros p1 Hp1. wp_step. apply free_frame_wp; [apply Hp1| |].
  { eapply owned_freed; [done|apply Hown; apply elem_of_app; right; by left|]. intros Hin. apply (Hd1 _ Hin). by left. }
  intros p2 Hp2. wp_step. apply IH; cbn [frames set_frames] in *; rewrite ?private_frames_frames; [apply Hp2|done| |].
  - intros f Hf. eapply owned_freed; [done| |by intros ->%list_elem_of_singleton].
    eapply owned_freed; [done|apply Hown; apply elem_of_app; right; by right|].
    intros Hin. apply (Hd1 _ Hin). by right.
  - intros p3 Hp3. apply (HQ p3). eapply freed_app; [done|]. by apply (freed_app _ [_] p2).
Qed.


(** ** Creating an address space *)

Lemma copy_kernel_wp s pd n i (Q : unit → machine → Prop) :
  is_page pd → is_page (kernel_pd s) → pd ≠ kernel_pd s → 0 ≤ i → i + Z.of_nat n ≤ 1024 →
  (∀ s', frames s' = frames s → kernel_pd s' = kernel_pd s → cr3 s' = cr3 s → current_pd s' = current_pd s →
    (∀ t j, is_page t → 0 ≤ j < 1024 → entry_at t j s' =
      if decide (t = pd ∧ i ≤ j < i + Z.of_nat n ∧ has (entry_at (kernel_pd s) j s) PAGE_PRESENT = true)
      then entry_at (kernel_pd s) j s else entry_at t j s) → Q tt s') →
  wp (copy_kernel pd n i) Q s.
Proof.
  intros Hpd Hk Hne. revert s i Hk Hne. induction n as [|n IH]; intros s i Hk Hne Hi Hn HQ; cbn [copy_kernel].
  { wp_step. apply HQ; try done. intros t j _ _. rewrite decide_False; [done|]. intros (_ & ? & _). lia. }
  wp_step. wp_step. wp_step. set (pde := entry_at (kernel_pd s) i s).
  destruct (has pde PAGE_PRESENT) eqn:Hp.
  - apply wp_modify. set (s1 := set_mem _ s).
    assert (∀ t j, is_page t → 0 ≤ j < 1024 → entry_at t j s1 = if decide (t = pd ∧ j = i) then pde else entry_at t j s) as H1.
    { intros t j Ht Hj. unfold entry_at, s1. cbn [mem set_mem]. rewrite word_eq by (done || lia).
      case_bool_decide; case_decide; naive_solver. }
    apply IH; [done|done|lia|lia|]. intros s' Hf Hks Hc Hcp He. apply HQ; [done..|].
    intros t j Ht Hj. rewrite He by done. cbn [kernel_pd set_mem s1] in *.
    assert (∀ j, 0 ≤ j < 1024 → entry_at (kernel_pd s) j s1 = entry_at (kernel_pd s) j s) as Hk1.
    { intros j' Hj'. rewrite H1 by done. rewrite decide_False; [done|]. intros [? _]. congruence. }
    fold s1. rewrite Hk1, H1 by done.
    destruct (decide (t = pd)) as [->|]; [|rewrite !decide_False by tauto; done].
    destruct (decide (j = i)) as [->|].
    + rewrite decide_False by lia. rewrite (decide_True (P := pd = pd ∧ i = i)) by done. rewrite decide_True; [done|].
      split_and!; [done|lia|lia|done].
    + rewrite (decide_False (P := pd = pd ∧ j = i)) by tauto. case_decide as E; case_decide as E2; try done; exfalso;
        [apply E2|apply E]; destruct_and?; split_and!; (done || lia).
  - wp_step. apply IH; [done|done|lia|lia|]. intros s' Hf Hks Hc Hcp He. apply HQ; [done..|].
    intros t j Ht Hj. rewrite He by done. case_decide as E; case_decide as E2; try done; exfalso.
    + apply E2. destruct_and?. split_and!; (done || lia).
    + destruct E2 as (-> & ? & Hpj). apply E. split_and!; try (done || lia).
      destruct (decide (j = i)) as [->|]; [|lia]. subst pde. congruence.
Qed.

(** A new address space is a fresh frame; every address means in it what
    it means in the kernel's space, and the kernel's space has not changed.
    Without a free frame the result is NULL and nothing has changed. *)
Theorem paging_create_correct s :
  wf (frames s) → space_ok s (kernel_pd s) →
  wp paging_create_address_space (λ r s',
    (r = 0 ∧ mem s' = mem s ∧ frames s' = frames s) ∨
    (is_page r ∧ r ≠ 0 ∧ flags (frames s) !! Z.to_nat (r / 4096) = Some false ∧
     flags (frames s') = <[Z.to_nat (r / 4096) := true]> (flags (frames s)) ∧ wf (frames s') ∧
     kernel_pd s' = kernel_pd s ∧ r ≠ kernel_pd s ∧
     (∀ a, translate s' r a = translate s (kernel_pd s) a) ∧
     (∀ a, translate s' (kernel_pd s) a = translate s (kernel_pd s) a))) s.
Proof.
  intros Hwf Hok. pose proof Hok as [Hpg Hne Hused Htab _].
  unfold paging_create_address_space. unfold alloc_frame. wp_step. wp_step.
  eapply wp_mono; [by apply pmm_alloc_frame_wp|]. intros N p' Hpost. destruct (Z.eqb_spec N 0) as [E|E].
  { wp_step. left. destruct Hpost as [(-> & -> & _)|(f & -> & ? & _)]; [|lia]. by destruct s. }
  destruct (alloc_page s N p' Hwf Hpost E) as (HN & Hwf' & Hfree & Hfl).
  assert (N ≠ kernel_pd s) as HNk by (intros ->; congruence).
  wp_step. apply wp_modify. wp_step. set (s1 := set_mem _ _).
  assert (∀ t j, is_page t → 0 ≤ j < 1024 → entry_at t j s1 = if decide (t = N) then 0 else entry_at t j s) as H1.
  { intros t j Ht Hj. unfold entry_at, s1. cbn [mem set_mem set_frames]. rewrite in_page_word by done.
    case_bool_decide; case_decide; naive_solver. }
  apply copy_kernel_wp; [done|done|done|lia|lia|]. intros s' Hf Hk _ _ He. cbn [frames kernel_pd set_mem set_frames s1] in *.
  wp_step. right. rewrite Hf, Hk. cbn [frames set_mem set_frames].
  split; [exact HN|]. split_and!; [done|done|done|done|done|done| |].
  - intros a. unfold translate. pose proof (pd_index_range a). pose proof (pt_index_range a).
    rewrite He, !H1 by done. rewrite (decide_False (P := kernel_pd s = N)), (decide_True (P := N = N)) by done.
    destruct (has (entry_at (kernel_pd s) (pd_index a) s) PAGE_PRESENT) eqn:Hp.
    + rewrite decide_True by (split_and!; done || lia). rewrite Hp. cbn [negb].
      rewrite He by (done || apply frame_of_page).
      destruct (Htab _ (pd_index_range a) Hp) as [Hfk Hfu].
      assert (frame_of (entry_at (kernel_pd s) (pd_index a) s) ≠ N) as HnN by (intros Hx; rewrite Hx in Hfu; congruence).
      rewrite decide_False by tauto. rewrite H1 by (done || apply frame_of_page). by rewrite decide_False.
    + rewrite decide_False by (intros (_ & _ & ?); done). done.
  - intros a. unfold translate. pose proof (pd_index_range a). pose proof (pt_index_range a).
    rewrite He, !H1 by done. rewrite (decide_False (P := kernel_pd s = N)) by done. rewrite decide_False by naive_solver.
    destruct (has (entry_at (kernel_pd s) (pd_index a) s) PAGE_PRESENT) eqn:Hp; cbn [negb]; [|done].
    destruct (Htab _ (pd_index_range a) Hp) as [Hfk Hfu].
    assert (frame_of (entry_at (kernel_pd s) (pd_index a) s) ≠ N) as HnN by (intros Hx; rewrite Hx in Hfu; congruence).
    rewrite He by (done || apply frame_of_page). rewrite decide_False by tauto.
    rewrite H1 by (done || apply frame_of_page). by rewrite decide_False.
Qed.

(** ** Copies from user space *)

(** The byte at a virtual address of the space that is switched to. *)
Definition user_byte (s : machine) (a : Z) : Z :=
  match translate s (cr3 s) a with
  | Some (frame, _, _) => byte_at s (frame + a mod PAGE_SIZE)
  | None => 0
  end.

Lemma user_access_present s pd write a : user_access s pd write a = true → is_Some (translate s pd a).
Proof.
  unfold user_access, entry_allows, translate. intros H. rewrite !andb_true_iff in H.
  destruct H as (((Hp & _) & _) & ((Hp2 & _) & _)). rewrite Hp, Hp2. cbn [negb]. by eexists.
Qed.

Lemma load_bytes_run s a n :
  (∀ x, a ≤ x < a + Z.of_nat n → user_access s (cr3 s) false x = true) →
  load_bytes a n s = Some (user_byte s <$> seqZ a (Z.of_nat n), s).
Proof.
  revert a. induction n as [|n IH]; intros a H; [done|]. cbn [load_bytes].
  destruct (user_access_present s (cr3 s) false a) as [[[f pde] pte] Ht]; [apply H; lia|].
  assert (load a s = Some (user_byte s a, s)) as Hl by (unfold load, cread, user_byte; by rewrite Ht).
  rewrite (bind_run _ _ _ _ _ Hl). cbn beta.
  rewrite (bind_run _ _ _ _ _ (IH (a + 1) ltac:(intros; apply H; lia))).
  rewrite (seqZ_cons a) by lia. rewrite fmap_cons. unfold mret, cmd_ret. do 3 f_equal.
  replace (Z.succ a) with (a + 1) by lia. by replace (Z.pred (Z.of_nat (S n))) with (Z.of_nat n) by lia.
Qed.

(** The process runs in its own space. *)
Definition in_user_space (s : machine) : Prop := cr3 s = current_address_space s.

Lemma copy_from_user_run s src len :
  in_user_space s → 0 < src < 2 ^ 32 → 0 ≤ len < 2 ^ 32 →
  let accessible := cr3 s ≠ 0 ∧ src + len ≤ 2 ^ 32 ∧ ∀ a, src ≤ a < src + len → user_access s (cr3 s) false a = true in
  (copy_from_user true src len s = Some ((ERR_SUCCESS, user_byte s <$> seqZ src len), s) ∧ accessible) ∨
  (copy_from_user true src len s = Some ((ERR_BAD_ADDRESS, []), s) ∧ ¬ accessible).
Proof.
  intros Hin Hs Hl accessible. unfold copy_from_user. cbn [negb orb].
  rewrite (proj2 (Z.eqb_neq src 0)) by lia. cbn [andb].
  destruct (user_range_wp s (cr3 s) src len false) as (b & Hb & Hiff); [lia..|].
  unfold in_user_space in Hin. rewrite Hin in Hb.
  erewrite bind_run by done. erewrite bind_run by exact Hb. destruct b; cbn [negb].
  - left. destruct Hiff as [Hacc _]. specialize (Hacc eq_refl). split; [|exact Hacc].
    erewrite bind_run by (apply load_bytes_run; intros; apply Hacc; lia).
    by rewrite Z2Nat.id by lia.
  - right. split; [done|]. intros H. by apply Hiff in H.
Qed.

Lemma copy_string_run s source n got :
  in_user_space s → 0 < source < 2 ^ 32 → Z.of_nat (length got + n) < 2 ^ 32 →
  let acc a := cr3 s ≠ 0 ∧ a < 2 ^ 32 ∧ user_access s (cr3 s) false a = true in
  let at_ k := source + Z.of_nat (length got) + Z.of_nat k in
  ∃ r, copy_string_from source n got s = Some (r, s) ∧
  ((∃ k, (k < n)%nat ∧ (∀ i, (i ≤ k)%nat → acc (at_ i)) ∧ (∀ i, (i < k)%nat → user_byte s (at_ i) ≠ 0) ∧
      user_byte s (at_ k) = 0 ∧ r = (ERR_SUCCESS, got ++ (user_byte s <$> seqZ (at_ 0%nat) (Z.of_nat (S k))))) ∨
   (∃ k, (k < n)%nat ∧ (∀ i, (i < k)%nat → acc (at_ i) ∧ user_byte s (at_ i) ≠ 0) ∧ ¬ acc (at_ k) ∧
      r = (ERR_BAD_ADDRESS, got ++ (user_byte s <$> seqZ (at_ 0%nat) (Z.of_nat k)))) ∨
   ((∀ i, (i < n)%nat → acc (at_ i) ∧ user_byte s (at_ i) ≠ 0) ∧
      r = (ERR_BUFFER_TOO_SMALL, removelast (got ++ (user_byte s <$> seqZ (at_ 0%nat) (Z.of_nat n))) ++ [0]))).
Proof.
  intros Hin Hs. revert got. induction n as [|n IH]; intros got Hlen acc at_; cbn [copy_string_from].
  { eexists. split; [done|]. right. right. split; [lia|]. simpl. by rewrite app_nil_r. }
  assert (at_ 0%nat = source + Z.of_nat (length got)) as H0 by (unfold at_; lia).
  rewrite u64_small by lia. rewrite <- H0.
  destruct (Z.ltb_spec 0xFFFFFFFF (at_ 0%nat)) as [Hbig|Hsmall].
  { eexists. split; [done|]. right. left. exists 0%nat.
    split_and!; [lia|lia|intros (_ & ? & _); lia|simpl; by rewrite app_nil_r]. }
  rewrite u32_small by lia.
  destruct (copy_from_user_run s (at_ 0%nat) 1 Hin) as [[Hc Ha]|[Hc Ha]]; [lia|lia| |].
  2: { erewrite bind_run by exact Hc. eexists. split; [done|]. right. left. exists 0%nat.
       split_and!; [lia|lia| |simpl; by rewrite app_nil_r].
       intros (? & ? & ?). apply Ha. split_and!; [done|lia|]. intros a Har. by replace a with (at_ 0%nat) by lia. }
  assert (acc (at_ 0%nat)) as Hacc by (destruct Ha as (? & ? & Ha); split_and!; [done|lia|apply Ha; lia]).
  erewrite bind_run by exact Hc. on_success.
  replace (user_byte s <$> seqZ (at_ 0%nat) 1) with [user_byte s (at_ 0%nat)] by (unfold seqZ; simpl; do 2 f_equal; lia).
  set (c := user_byte s (at_ 0%nat)).
  assert (∀ m, seqZ (at_ 0%nat) (Z.of_nat (S m)) = at_ 0%nat :: seqZ (at_ 1%nat) (Z.of_nat m)) as Hseq.
  { intros m. rewrite seqZ_cons by lia. f_equal. f_equal; unfold at_; lia. }
  destruct (Z.eqb_spec c 0) as [E|E].
  { eexists. split; [done|]. left. exists 0%nat. split_and!; [lia| |lia|done|].
    - intros i Hi. by replace i with 0%nat by lia.
    - by rewrite Hseq. }
  destruct (IH (got ++ [c])) as (r & Hr & Hcase); [rewrite length_app; simpl; lia|].
  assert (∀ i, source + Z.of_nat (length (got ++ [c])) + Z.of_nat i = at_ (S i)) as Hat
    by (intros i; rewrite length_app; unfold at_; simpl; lia).
  rewrite Hat in Hcase. setoid_rewrite Hat in Hcase.
  exists r. split; [done|]. destruct Hcase as [(k & Hk & Ha1 & Hb1 & Hz & ->)|[(k & Hk & Ha1 & Hn & ->)|(Ha1 & ->)]].
  - left. exists (S k). split_and!; [lia| | |done|].
    + intros [|i] Hi; [done|]. apply Ha1. lia.
    + intros [|i] Hi; [done|]. apply Hb1. lia.
    + rewrite (Hseq (S k)). rewrite fmap_cons, <- app_assoc. done.
  - right. left. exists (S k). split_and!; [lia| |done|].
    + intros [|i] Hi; [done|]. apply Ha1. lia.
    + rewrite (Hseq k). rewrite fmap_cons, <- app_assoc. done.
  - right. right. split.
    + intros [|i] Hi; [done|]. apply Ha1. lia.
    + rewrite (Hseq n). rewrite fmap_cons, <- app_assoc. done.
Qed.

(** C31: copying a string from user space always returns.  It succeeds exactly
    when the string with its NUL is accessible and fits, and then delivers it;
    it reports a bad address at the first byte that the user may not read, even
    in the middle of a page run; and when the buffer is full it ends the copy
    with a NUL. *)
Theorem copy_user_string_correct s capacity source :
  in_user_space s → 0 < source < 2 ^ 32 → 0 < capacity < 2 ^ 32 →
  let acc a := cr3 s ≠ 0 ∧ a < 2 ^ 32 ∧ user_access s (cr3 s) false a = true in
  ∃ r, copy_user_string true capacity source s = Some (r, s) ∧
  ((∃ k, 0 ≤ k < capacity ∧ (∀ i, 0 ≤ i ≤ k → acc (source + i)) ∧
      (∀ i, 0 ≤ i < k → user_byte s (source + i) ≠ 0) ∧ user_byte s (source + k) = 0 ∧
      r = (ERR_SUCCESS, user_byte s <$> seqZ source (k + 1))) ∨
   (∃ k, 0 ≤ k < capacity ∧ (∀ i, 0 ≤ i < k → acc (source + i) ∧ user_byte s (source + i) ≠ 0) ∧
      ¬ acc (source + k) ∧ r = (ERR_BAD_ADDRESS, user_byte s <$> seqZ source k)) ∨
   ((∀ i, 0 ≤ i < capacity → acc (source + i) ∧ user_byte s (source + i) ≠ 0) ∧
      r = (ERR_BUFFER_TOO_SMALL, removelast (user_byte s <$> seqZ source capacity) ++ [0]))).
Proof.
  intros Hin Hs Hc acc. unfold copy_user_string. cbn [negb orb].
  rewrite (proj2 (Z.eqb_neq capacity 0)), (proj2 (Z.eqb_neq source 0)) by lia. cbn [orb].
  destruct (copy_string_run s source (Z.to_nat capacity) [] Hin Hs) as (r & Hr & Hcase); [simpl; lia|].
  exists r. split; [done|]. cbn [length app] in Hcase.
  assert (∀ i, source + Z.of_nat 0 + Z.of_nat i = source + Z.of_nat i) as Hat by lia.
  rewrite Hat in Hcase. setoid_rewrite Hat in Hcase. rewrite Z.add_0_r in Hcase.
  assert (∀ i, 0 ≤ i → Z.of_nat (Z.to_nat i) = i) as Hid by lia.
  destruct Hcase as [(k & Hk & Ha1 & Hb1 & Hz & ->)|[(k & Hk & Ha1 & Hn & ->)|(Ha1 & ->)]].
  - left. exists (Z.of_nat k). split_and!; [lia|lia| | |done|].
    + intros i Hi. rewrite <- (Hid i) by lia. apply Ha1. lia.
    + intros i Hi. rewrite <- (Hid i) by lia. apply Hb1. lia.
    + do 3 f_equal. lia.
  - right. left. exists (Z.of_nat k). split_and!; [lia|lia| |done|done].
    intros i Hi. rewrite <- (Hid i) by lia. apply Ha1. lia.
  - right. right. split.
    + intros i Hi. rewrite <- (Hid i) by lia. apply Ha1. lia.
    + by rewrite Hid by lia.
Qed.

(** ** A run: a process with one page of its own

    The kernel's directory is at 0x2000 with a table at 0x3000; the process has
    its directory at 0x4000, a table at 0x5000 for the addresses from 4 MiB on
    and one page at 0x6000, which holds a short string. *)

Definition ex_mem (j : Z) : Z :=
  if j =? 0x800 then 0x3003 else if j =? 0x1000 then 0x3003 else if j =? 0x1001 then 0x5007
  else if j =? 0x1400 then 0x6007 else if j =? 0x1800 then 0x00006968 else 0.
Definition ex_machine : machine := mk_machine ex_mem ex_pmm 0x2000 0x2000 0x4000 true (Some 0x4000) 0.

Lemma ex_entry pd i : is_page pd → 0 ≤ i < 1024 →
  entry_at pd i ex_machine = 0 ∨
  (pd = 0x2000 ∧ i = 0 ∧ entry_at pd i ex_machine = 0x3003) ∨
  (pd = 0x4000 ∧ ((i = 0 ∧ entry_at pd i ex_machine = 0x3003) ∨ (i = 1 ∧ entry_at pd i ex_machine = 0x5007))) ∨
  (pd = 0x5000 ∨ pd = 0x6000).
Proof.
  intros [Hp Hm] Hi. unfold entry_at, ex_machine, ex_mem. cbn [mem].
  destruct (Z.eqb_spec (pd / 4 + i) 0x800); [right; left; lia|].
  destruct (Z.eqb_spec (pd / 4 + i) 0x1000); [right; right; left; lia|].
  destruct (Z.eqb_spec (pd / 4 + i) 0x1001); [right; right; left; lia|].
  destruct (Z.eqb_spec (pd / 4 + i) 0x1400); [right; right; right; lia|].
  destruct (Z.eqb_spec (pd / 4 + i) 0x1800); [right; right; right; lia|]. by left.
Qed.

Lemma ex_space : space_ok ex_machine 0x4000.
Proof.
  assert (is_page 0x4000) as Hp by by_eval.
  split; [done|done|by_eval| |].
  - intros i Hi. destruct (ex_entry 0x4000 i Hp Hi) as [->|[[? _]|[[_ [[_ ->]|[_ ->]]]|[?|?]]]]; try done; intros _; by_eval.
  - intros i j Hi Hj. destruct (ex_entry 0x4000 i Hp Hi) as [->|[[? _]|[[_ [[? ->]|[? ->]]]|[?|?]]]]; try done;
      destruct (ex_entry 0x4000 j Hp Hj) as [->|[[? _]|[[_ [[? ->]|[? ->]]]|[?|?]]]]; try done; intros; by subst.
Qed.
Lemma ex_kernel_space : space_ok ex_machine 0x2000.
Proof.
  assert (is_page 0x2000) as Hp by by_eval.
  split; [done|done|by_eval| |].
  - intros i Hi. destruct (ex_entry 0x2000 i Hp Hi) as [->|[[_ [_ ->]]|[[? _]|[?|?]]]]; try done; intros _; by_eval.
  - intros i j Hi Hj. destruct (ex_entry 0x2000 i Hp Hi) as [->|[[_ [-> ->]]|[[? _]|[?|?]]]]; try done;
      destruct (ex_entry 0x2000 j Hp Hj) as [->|[[_ [-> ->]]|[[? _]|[?|?]]]]; done.
Qed.


Lemma paging_map_page_correct_witness :
  wp (paging_map_page 0x4000 0x800000 0x7000 7) (λ r s', r = 0 ∧
    entry_at (frame_of (entry_at 0x4000 2 s')) 0 s' = 0x7007 ∧
    mapping s' 0x4000 0x400000 = Some 0x6007) ex_machine.
Proof.
  eapply wp_mono.
  - apply (paging_map_page_correct ex_machine 0x4000 0x800000 0x7000 7); [exact ex_pmm_wf|exact ex_space|by_eval|by_eval].
  - intros r s' [(_ & _ & _ & Hall)|(-> & Hm)].
    + specialize (Hall 34%nat ltac:(vm_compute; lia)). vm_compute in Hall. done.
    + split; [done|]. split; [exact (mp_new _ _ _ _ _ Hm)|].
      rewrite (mp_old _ _ _ _ _ Hm) by (by_eval || done). vm_compute. reflexivity.
Defined.

Lemma ex_owned f : f ∈ [0x6000; 0x5000; 0x4000] → owned ex_pmm f.
Proof.
  intros Hf. assert (f = 0x6000 ∨ f = 0x5000 ∨ f = 0x4000) as H by set_solver.
  destruct H as [->|[->| ->]]; (split_and!; [lia|by_eval|by_eval|by_eval]).
Qed.


Lemma paging_create_correct_witness :
  wp paging_create_address_space (λ r s', r ≠ 0 → translate s' r 0x1234 = translate ex_machine 0x2000 0x1234) ex_machine.
Proof.
  eapply wp_mono; [apply (paging_create_correct ex_machine); [exact ex_pmm_wf|exact ex_kernel_space]|].
  intros r s' [(-> & _)|(_ & _ & _ & _ & _ & _ & _ & Ht & _)] Hr; [done|]. apply Ht.
Defined.

Lemma copy_user_string_correct_witness :
  copy_user_string true 16 0x400000 ex_machine = Some ((ERR_SUCCESS, [104; 105; 0]), ex_machine).
Proof.
  destruct (copy_user_string_correct ex_machine 16 0x400000) as (r & Hr & Hcase); [done|lia|lia|]. rewrite Hr.
  assert (copy_user_string true 16 0x400000 ex_machine = Some ((ERR_SUCCESS, [104; 105; 0]), ex_machine)) as E
    by (vm_compute; reflexivity).
  rewrite Hr in E. exact E.
Defined.
End Paging.
