(* ===== verification/Heap.v ===== *)
(** * The kernel heap

    [src/kernel/mm/heap.c]: a doubly linked list of chunks in the heap region,
    first fit, coalescing on release.  The chunk headers are words of the
    machine's memory, at the addresses where the code puts them, next to the
    payloads. *)

From S2P Require Import Prelude Pmm Paging.
Import Pmm Paging.

Module Heap.

(** The file's static variables and the machine; the address 0 is NULL. *)
Record heap := mk_heap {
  heap_base : Z;
  heap_start_addr : Z;
  heap_end_addr : Z;
  heap_max_addr : Z;
  heap_pd : Z;
  mach : machine
}.

Definition set_base (a : Z) (h : heap) : heap :=
  mk_heap a (heap_start_addr h) (heap_end_addr h) (heap_max_addr h) (heap_pd h) (mach h).
Definition set_end (a : Z) (h : heap) : heap :=
  mk_heap (heap_base h) (heap_start_addr h) a (heap_max_addr h) (heap_pd h) (mach h).
Definition set_mach (s : machine) (h : heap) : heap :=
  mk_heap (heap_base h) (heap_start_addr h) (heap_end_addr h) (heap_max_addr h) (heap_pd h) s.
Definition on_mach {A} (m : cmd machine A) : cmd heap A := czoom mach set_mach m.

(** ** Memory accesses: a page fault is undefined *)

Definition phys_of (s : machine) (a : Z) : option Z :=
  if paging_on s then
    match translate s (cr3 s) a with
    | Some (frame, _, _) => Some (frame + a mod PAGE_SIZE)
    | None => None
    end
  else Some a.

Definition load32 (a : Z) : cmd heap Z :=
  if negb (a mod 4 =? 0) then cundef else
  cread (λ h, p ← phys_of (mach h) a; Some (mem (mach h) (p / 4))).
Definition store32 (a v : Z) : cmd heap unit :=
  if negb (a mod 4 =? 0) then cundef else
  p ← cread (λ h, phys_of (mach h) a);
  on_mach (cmodify (λ s, set_mem (λ j, if j =? p / 4 then v else mem s j) s)).

Definition load8 (a : Z) : cmd heap Z := cread (λ h, p ← phys_of (mach h) a; Some (byte_at (mach h) p)).
Definition store8 (a v : Z) : cmd heap unit :=
  p ← cread (λ h, phys_of (mach h) a);
  on_mach (cmodify (put_byte p v)).
Fixpoint memset (a c : Z) (n : nat) : cmd heap unit :=
  match n with
  | O => mret tt
  | S n => store8 a c;; memset (a + 1) c n
  end.
Fixpoint memcpy (dst src : Z) (n : nat) : cmd heap unit :=
  match n with
  | O => mret tt
  | S n => b ← load8 src; store8 dst b;; memcpy (dst + 1) (src + 1) n
  end.

(** ** [heap_chunk_t] *)

Definition HEADER : Z := 16.
Definition chunk_size (c : Z) : Z := c.
Definition chunk_free (c : Z) : Z := c + 4.
Definition chunk_prev (c : Z) : Z := c + 8.
Definition chunk_next (c : Z) : Z := c + 12.

(** ** Growing the heap *)

Fixpoint expand_heap_by_pages (pages : nat) : cmd heap Z :=
  match pages with
  | O => mret ERR_SUCCESS
  | S pages =>
    h ← cget;
    if heap_max_addr h <? u32 (heap_end_addr h + PAGE_SIZE) then mret ERR_HEAP_EXHAUSTED else
    ok ←
      (if negb (heap_pd h =? 0) then
         f ← on_mach alloc_frame;
         if f =? 0 then mret false else
         on_mach (vmm_map_page f (heap_end_addr h) PAGE_RW (heap_pd h));;
         mret true
       else
         let phys := heap_end_addr h in
         on_mach (czoom frames set_frames (pmm_reserve_region phys (u32 (phys + PAGE_SIZE))));;
         mret true);
    if negb (ok : bool) then mret ERR_FRAME_UNAVAILABLE else
    memset (heap_end_addr h) 0 (Z.to_nat PAGE_SIZE);;
    cmodify (set_end (u32 (heap_end_addr h + PAGE_SIZE)));;
    expand_heap_by_pages pages
  end.

Definition heap_init (heap_start heap_max dir : Z) : cmd heap unit :=
  cmodify (λ h, mk_heap 0 heap_start heap_start heap_max dir (mach h)).

(** The loops over the list visit at most one chunk for each page of the heap:
    a longer list is a cyclic one, on which the code does not return. *)
Definition list_fuel (h : heap) : nat := S (Z.to_nat (heap_end_addr h / PAGE_SIZE)).

Fixpoint find_from (size : Z) (fuel : nat) (cur : Z) : cmd heap Z :=
  match fuel with
  | O => cundef
  | S fuel =>
    if cur =? 0 then mret 0 else
    free ← load32 (chunk_free cur);
    sz ← load32 (chunk_size cur);
    if negb (free =? 0) && (size <=? sz) then mret cur else
    next ← load32 (chunk_next cur);
    find_from size fuel next
  end.
Definition find_free_chunk (size : Z) : cmd heap Z :=
  h ← cget; find_from size (list_fuel h) (heap_base h).

(** [while (cur->next) cur = cur->next;] *)
Fixpoint last_chunk (fuel : nat) (cur : Z) : cmd heap Z :=
  match fuel with
  | O => cundef
  | S fuel =>
    next ← load32 (chunk_next cur);
    if next =? 0 then mret cur else last_chunk fuel next
  end.

Definition append_chunk (chunk : Z) : cmd heap unit :=
  h ← cget;
  if heap_base h =? 0 then cmodify (set_base chunk)
  else
    cur ← last_chunk (list_fuel h) (heap_base h);
    store32 (chunk_next cur) chunk;;
    store32 (chunk_prev chunk) cur.

Definition request_space (size : Z) : cmd heap Z :=
  let total := u32 (size + HEADER) in
  let needed_pages := u32 (total + PAGE_SIZE - 1) / PAGE_SIZE in
  rc ← expand_heap_by_pages (Z.to_nat needed_pages);
  if negb (rc =? ERR_SUCCESS) then mret 0 else
  h ← cget;
  let chunk := u32 (heap_end_addr h - needed_pages * PAGE_SIZE) in
  store32 (chunk_size chunk) size;;
  store32 (chunk_free chunk) 0;;
  store32 (chunk_prev chunk) 0;;
  store32 (chunk_next chunk) 0;;
  append_chunk chunk;;
  mret chunk.

(** ** The interface *)

Definition malloc (size : Z) : cmd heap Z :=
  if size =? 0 then mret 0 else
  chunk ← find_free_chunk size;
  if negb (chunk =? 0) then store32 (chunk_free chunk) 0;; mret (u32 (chunk + HEADER)) else
  chunk ← request_space size;
  if chunk =? 0 then mret 0 else mret (u32 (chunk + HEADER)).

(** [if (chunk->next && chunk->next->free)] and its body. *)
Definition merge_next (chunk : Z) : cmd heap unit :=
  next ← load32 (chunk_next chunk);
  if next =? 0 then mret tt else
  next_free ← load32 (chunk_free next);
  if next_free =? 0 then mret tt else
  sz ← load32 (chunk_size chunk);
  next_size ← load32 (chunk_size next);
  store32 (chunk_size chunk) (u32 (sz + u32 (HEADER + next_size)));;
  next_next ← load32 (chunk_next next);
  store32 (chunk_next chunk) next_next;;
  if next_next =? 0 then mret tt else store32 (chunk_prev next_next) chunk.

(** [if (chunk->prev && chunk->prev->free)] and its body. *)
Definition merge_prev (chunk : Z) : cmd heap unit :=
  prev ← load32 (chunk_prev chunk);
  if prev =? 0 then mret tt else
  prev_free ← load32 (chunk_free prev);
  if prev_free =? 0 then mret tt else
  prev_size ← load32 (chunk_size prev);
  sz ← load32 (chunk_size chunk);
  store32 (chunk_size prev) (u32 (prev_size + u32 (HEADER + sz)));;
  next ← load32 (chunk_next chunk);
  store32 (chunk_next prev) next;;
  if next =? 0 then mret tt else store32 (chunk_prev next) prev.

Definition free (ptr : Z) : cmd heap unit :=
  if ptr =? 0 then mret tt else
  let chunk := u32 (ptr - HEADER) in
  store32 (chunk_free chunk) 1;;
  merge_next chunk;;
  merge_prev chunk.

Definition free_align (ptr : Z) : cmd heap Z :=
  if ptr =? 0 then mret ERR_INVALID_ARGUMENT else
  raw ← load32 (u32 (ptr - 4));
  free raw;;
  mret ERR_SUCCESS.

Definition malloc_usable_size (ptr : Z) : cmd heap Z :=
  if ptr =? 0 then mret 0 else load32 (chunk_size (u32 (ptr - HEADER))).

Definition SIZE_MAX : Z := 2 ^ 32 - 1.

Definition calloc (nmemb size : Z) : cmd heap Z :=
  if (nmemb =? 0) || (size =? 0) then mret 0 else
  if SIZE_MAX / size <? nmemb then mret 0 else
  let total := u32 (nmemb * size) in
  p ← malloc total;
  if p =? 0 then mret 0 else
  memset p 0 (Z.to_nat total);;
  mret p.

Definition realloc (ptr new_size : Z) : cmd heap Z :=
  if ptr =? 0 then malloc new_size else
  if new_size =? 0 then free ptr;; mret 0 else
  old_size ← load32 (chunk_size (u32 (ptr - HEADER)));
  if new_size <=? old_size then mret ptr else
  new_ptr ← malloc new_size;
  if new_ptr =? 0 then mret 0 else
  memcpy new_ptr ptr (Z.to_nat old_size);;
  free ptr;;
  mret new_ptr.

Definition malloc_align (size align : Z) : cmd heap Z :=
  if (align =? 0) || negb (Z.land align (u32 (align - 1)) =? 0) then mret 0 else
  let total := u32 (size + align - 1 + 4) in
  raw ← malloc total;
  if raw =? 0 then mret 0 else
  let aligned := align_up (u32 (raw + 4)) align in
  store32 (u32 (aligned - 4)) raw;;
  mret aligned.

(** ** Memory as a function of words *)

Definition with_mem (m : Z → Z) (h : heap) : heap := set_mach (set_mem m (mach h)) h.
Definition upd (k v : Z) (m : Z → Z) : Z → Z := λ j, if j =? k then v else m j.
Definition byte (m : Z → Z) (a : Z) : Z := m (a / 4) / 2 ^ (8 * (a mod 4)) mod 256.
Definition setb (a v : Z) (m : Z → Z) : Z → Z :=
  let w := m (a / 4) in
  let k := 2 ^ (8 * (a mod 4)) in
  upd (a / 4) (w - (w / k mod 256) * k + v * k) m.

Lemma byte_setb m a v x :
  0 ≤ v < 256 → byte (setb a v m) x = if decide (x = a) then v else byte m x.
Proof.
  intros Hv. unfold byte, setb, upd. destruct (Z.eqb_spec (x / 4) (a / 4)) as [E|E].
  2: { rewrite decide_False; [done|]. by intros ->. }
  rewrite <- E. generalize (m (x / 4)). intros w.
  assert (a mod 4 = 0 ∨ a mod 4 = 1 ∨ a mod 4 = 2 ∨ a mod 4 = 3) as Ha by lia.
  assert (x mod 4 = 0 ∨ x mod 4 = 1 ∨ x mod 4 = 2 ∨ x mod 4 = 3) as Hx by lia.
  destruct Ha as [Ha|[Ha|[Ha|Ha]]], Hx as [Hx|[Hx|[Hx|Hx]]]; rewrite Ha, Hx; cbn [Z.mul Pos.mul];
    change (2 ^ 0) with 1; change (2 ^ 8) with 256; change (2 ^ 16) with 65536; change (2 ^ 24) with 16777216;
    destruct (decide (x = a)) as [Hxa|Hxa]; try (exfalso; lia); clear E Ha Hx Hxa; lia.
Qed.

(** The heap with its region mapped at its own addresses, whatever it holds:
    paging is off, or the tables lie outside the region and map it to itself. *)
Definition reach (s : machine) (lo hi : Z) : Prop := ∀ m p,
  (∀ j, j < lo / 4 ∨ hi / 4 ≤ j → m j = mem s j) →
  ∀ a, lo ≤ a < hi → phys_of (set_mem m (set_frames p s)) a = Some a.

(** What every operation keeps of the globals. *)
Record hinv (h : heap) : Prop := {
  hi_start : 0 < heap_start_addr h ∧ heap_start_addr h mod 4096 = 0;
  hi_end : heap_start_addr h ≤ heap_end_addr h ∧ heap_end_addr h mod 4096 = 0 ∧
           heap_end_addr h ≤ heap_max_addr h;
  hi_pd : heap_pd h = 0;
  hi_frames : wf (frames (mach h));
  hi_max : heap_max_addr h ≤ 4096 * total_frames_count (frames (mach h)) ∧ heap_max_addr h < 2 ^ 32 - 4096;
  hi_reach : reach (mach h) (heap_start_addr h) (heap_max_addr h);
  hi_reserved k : heap_start_addr h ≤ 4096 * Z.of_nat k < heap_end_addr h →
    flags (frames (mach h)) !! k = Some true
}.

(** Changes inside the region only. *)
Definition inside (h : heap) (m : Z → Z) : Prop :=
  ∀ j, j < heap_start_addr h / 4 ∨ heap_max_addr h / 4 ≤ j → m j = mem (mach h) j.

Lemma with_mem_id h : with_mem (mem (mach h)) h = h.
Proof. by destruct h as [? ? ? ? ? []]. Qed.
Lemma inside_id h : inside h (mem (mach h)).
Proof. done. Qed.

Lemma reach_phys h m a :
  hinv h → inside h m → heap_start_addr h ≤ a < heap_max_addr h → phys_of (set_mem m (mach h)) a = Some a.
Proof.
  intros H Hm Ha. pose proof (hi_reach _ H m (frames (mach h)) Hm a Ha) as E.
  by destruct h as [? ? ? ? ? []].
Qed.

Lemma hinv_mem h m : hinv h → inside h m → hinv (with_mem m h).
Proof.
  intros [] Hm. split; try done. intros m' p Hm' a Ha. cbn in *.
  specialize (hi_reach0 m' p). unfold inside in Hm. rewrite <- hi_reach0 with (a := a); [done| |done].
  intros j Hj. rewrite <- Hm by done. apply Hm'. done.
Qed.

Section access.
Context (h : heap) (Hinv : hinv h).
Implicit Types (m : Z → Z).

Definition in_heap (a : Z) : Prop := heap_start_addr h ≤ a ∧ a / 4 < heap_max_addr h / 4.

Lemma inside_upd m k v : inside h m → heap_start_addr h / 4 ≤ k < heap_max_addr h / 4 → inside h (upd k v m).
Proof.
  intros Hm Hk j Hj. unfold upd. rewrite (proj2 (Z.eqb_neq j k)) by lia. by apply Hm.
Qed.

Lemma load32_wp m a Q :
  inside h m → in_heap a → a mod 4 = 0 → Q (m (a / 4)) (with_mem m h) → wp (load32 a) Q (with_mem m h).
Proof.
  intros Hm Ha Ha4 HQ. unfold load32. rewrite Ha4. cbn [negb Z.eqb].
  unfold in_heap in Ha. eapply wp_read; [|exact HQ]. cbn [mach with_mem set_mach]. by rewrite reach_phys by (done || lia).
Qed.

Lemma store32_wp m a v Q :
  inside h m → in_heap a → a mod 4 = 0 → Q tt (with_mem (upd (a / 4) v m) h) → wp (store32 a v) Q (with_mem m h).
Proof.
  intros Hm Ha Ha4 HQ. unfold store32. rewrite Ha4. cbn [negb Z.eqb].
  unfold in_heap in Ha. wp_step. eapply wp_read; [apply (reach_phys h); [done|done|lia]|]. apply wp_zoom, wp_modify. exact HQ.
Qed.

Lemma load8_wp m a Q :
  inside h m → in_heap a → Q (byte m a) (with_mem m h) → wp (load8 a) Q (with_mem m h).
Proof.
  intros Hm Ha HQ. unfold in_heap in Ha. eapply wp_read; [|exact HQ].
  cbn [mach with_mem set_mach]. by rewrite reach_phys by (done || lia).
Qed.

Lemma store8_wp m a v Q :
  inside h m → in_heap a → Q tt (with_mem (setb a v m) h) → wp (store8 a v) Q (with_mem m h).
Proof.
  intros Hm Ha HQ. unfold in_heap in Ha. unfold store8. wp_step. eapply wp_read; [apply (reach_phys h); [done|done|lia]|].
  apply wp_zoom, wp_modify. exact HQ.
Qed.

(** The bytes [a, a + n) replaced; the words that hold none of them stay. *)
Definition filled (m : Z → Z) (a : Z) (n : nat) (f : Z → Z) (m' : Z → Z) : Prop :=
  (∀ x, byte m' x = if decide (a ≤ x < a + Z.of_nat n) then f x else byte m x) ∧
  (∀ j, 4 * j + 4 ≤ a ∨ a + Z.of_nat n ≤ 4 * j → m' j = m j).

Lemma filled_step m a n f v m' :
  0 ≤ v < 256 → f a = v → filled (setb a v m) (a + 1) n f m' → filled m a (S n) f m'.
Proof.
  intros Hv Hf [Hb Hw]. split.
  - intros x. rewrite Hb, byte_setb by done.
    destruct (decide (x = a)) as [->|]; [rewrite decide_False, decide_True by lia; done|].
    destruct (decide (a + 1 ≤ x < a + 1 + Z.of_nat n)); [by rewrite decide_True by lia|by rewrite decide_False by lia].
  - intros j Hj. rewrite Hw by lia. unfold setb, upd. by rewrite (proj2 (Z.eqb_neq _ _)) by lia.
Qed.

Lemma inside_setb m a v : inside h m → in_heap a → inside h (setb a v m).
Proof. intros Hm [? ?]. apply inside_upd; [done|lia]. Qed.

Lemma memset_wp m a c n Q :
  0 ≤ c < 256 → inside h m → (∀ x, a ≤ x < a + Z.of_nat n → in_heap x) →
  (∀ m', inside h m' → filled m a n (λ _, c) m' → Q tt (with_mem m' h)) → wp (memset a c n) Q (with_mem m h).
Proof.
  intros Hc. revert m a Q. induction n as [|n IH]; intros m a Q Hm Ha HQ; cbn [memset].
  - wp_step. apply HQ; [done|]. split; [intros x; by rewrite decide_False by lia|done].
  - wp_step. apply store8_wp; [done|apply Ha; lia|]. apply IH.
    + apply inside_setb; [done|apply Ha; lia].
    + intros x Hx. apply Ha. lia.
    + intros m' Hin Hf. apply HQ; [done|]. by apply (filled_step _ _ _ _ c).
Qed.

(** A copy between ranges that do not overlap. *)
Lemma memcpy_wp m dst src n Q :
  inside h m → (∀ x, 0 ≤ x < Z.of_nat n → in_heap (dst + x) ∧ in_heap (src + x)) →
  (dst + Z.of_nat n ≤ src ∨ src + Z.of_nat n ≤ dst) →
  (∀ m', inside h m' → filled m dst n (λ x, byte m (src + (x - dst))) m' → Q tt (with_mem m' h)) →
  wp (memcpy dst src n) Q (with_mem m h).
Proof.
  revert m dst src Q. induction n as [|n IH]; intros m dst src Q Hm Ha Hd HQ; cbn [memcpy].
  - wp_step. apply HQ; [done|]. split; [intros x; by rewrite decide_False by lia|done].
  - destruct (Ha 0) as [Hd0 Hs0]; [lia|]. rewrite Z.add_0_r in Hd0, Hs0.
    assert (0 ≤ byte m src < 256) as Hb by (unfold byte; by apply Z.mod_pos_bound).
    wp_step. apply load8_wp; [done|done|]. wp_step. apply store8_wp; [done|done|]. apply IH.
    + by apply inside_setb.
    + intros x Hx. replace (dst + 1 + x) with (dst + (x + 1)) by lia.
      replace (src + 1 + x) with (src + (x + 1)) by lia. apply Ha. lia.
    + lia.
    + intros m' Hin [Hf Hw]. apply HQ; [done|]. apply (filled_step _ _ _ _ (byte m src)); [done| |].
      * f_equal. lia.
      * split; [|exact Hw]. intros x. rewrite Hf. case_decide; [|done].
        rewrite byte_setb by done. rewrite decide_False by lia. f_equal. lia.
Qed.
End access.

(** ** Growing the heap *)

Lemma reserve_page_wp p e :
  wf p → 0 ≤ e → e mod 4096 = 0 → e + 4096 ≤ 4096 * total_frames_count p →
  wp (pmm_reserve_region e (e + 4096)) (λ _ p', wf p' ∧
    region_post p (Z.to_nat (e / 4096)) (S (Z.to_nat (e / 4096))) true p') p.
Proof.
  intros Hwf He Hm Ht. pose proof (core_length_flags _ (wf_core _ Hwf)). pose proof (wf_total _ (wf_core _ Hwf)).
  unfold pmm_reserve_region. change PMM_FRAME_SIZE with 4096.
  rewrite (proj2 (Z.leb_gt _ _)) by lia.
  rewrite align_down_4096, align_up_4096 by lia. wp_step.
  replace (e / 4096 * 4096) with (4096 * Z.of_nat (Z.to_nat (e / 4096))) by lia.
  replace ((e + 4096 + 4095) / 4096 * 4096) with (4096 * Z.of_nat (S (Z.to_nat (e / 4096)))) by lia.
  eapply wp_mono; [apply reserve_loop_spec; [done|lia|lia|lia]|].
  intros _ p' [? ?]. by wp_step.
Qed.

(** The state of the heap after [k] more pages. *)
Record grown (h : heap) (k : nat) (h' : heap) : Prop := {
  gr_inv : hinv h';
  gr_base : heap_base h' = heap_base h;
  gr_start : heap_start_addr h' = heap_start_addr h;
  gr_end : heap_end_addr h' = heap_end_addr h + 4096 * Z.of_nat k;
  gr_max : heap_max_addr h' = heap_max_addr h;
  gr_mem j : ¬ heap_end_addr h / 4 ≤ j < heap_end_addr h' / 4 → mem (mach h') j = mem (mach h) j;
  gr_total : total_frames_count (frames (mach h')) = total_frames_count (frames (mach h))
}.

Lemma grown_trans h k h1 k' h2 : grown h k h1 → grown h1 k' h2 → grown h (k + k') h2.
Proof.
  intros [I1 B1 S1 E1 M1 W1 T1] [I2 B2 S2 E2 M2 W2 T2].
  split; [done|congruence|congruence|lia|congruence| |congruence].
  intros j Hj. rewrite W2, W1; [done|lia|]. destruct (hi_end _ I1) as (_ & ? & _). lia.
Qed.

Lemma hinv_grow h p m :
  hinv h → heap_end_addr h + 4096 ≤ heap_max_addr h → wf p →
  region_post (frames (mach h)) (Z.to_nat (heap_end_addr h / 4096)) (S (Z.to_nat (heap_end_addr h / 4096))) true p →
  inside h m →
  hinv (set_end (heap_end_addr h + 4096) (with_mem m (set_mach (set_frames p (mach h)) h))).
Proof.
  intros [] Hmax Hp [Hfl Htot] Hm. split; cbn; try done.
  - lia.
  - by rewrite Htot.
  - intros m' p' Hm' a Ha. specialize (hi_reach0 m' p'). rewrite <- hi_reach0 with (a := a); [done| |done].
    intros j Hj. rewrite <- Hm by done. by apply Hm'.
  - intros k Hk. rewrite Hfl, set_range_lookup.
    pose proof (core_length_flags _ (wf_core _ hi_frames0)).
    destruct (lookup_lt_is_Some_2 (flags (frames (mach h))) k) as [b Hb]; [lia|]. rewrite Hb. cbn [fmap option_fmap option_map].
    case_decide; [done|]. rewrite <- Hb. apply hi_reserved0. lia.
Qed.

Lemma expand_wp n h :
  hinv h → wp (expand_heap_by_pages n) (λ r h',
    (r = ERR_SUCCESS ∧ grown h n h' ∧ heap_end_addr h + 4096 * Z.of_nat n ≤ heap_max_addr h) ∨
    (r = ERR_HEAP_EXHAUSTED ∧ ∃ k, (k < n)%nat ∧ grown h k h' ∧
       heap_max_addr h < heap_end_addr h + 4096 * Z.of_nat (S k))) h.
Proof.
  revert h. induction n as [|n IH]; intros h Hinv; cbn [expand_heap_by_pages].
  { wp_step. left. split_and!; [done| |destruct (hi_end _ Hinv); lia].
    split; [done..|lia|done|done|done]. }
  pose proof (hi_end _ Hinv) as (? & ? & ?). pose proof (hi_start _ Hinv) as (? & ?).
  pose proof (hi_max _ Hinv) as (? & ?).
  wp_step. wp_step. cbn beta. change PAGE_SIZE with 4096. rewrite u32_small by lia.
  destruct (Z.ltb_spec (heap_max_addr h) (heap_end_addr h + 4096)) as [Hfull|Hroom].
  { wp_step. right. split; [done|]. exists 0%nat. split_and!; [lia| |lia]. split; [done..|lia|done|done|done]. }
  rewrite (hi_pd _ Hinv). cbn [Z.eqb negb]. wp_step. wp_step. unfold on_mach. wp_step. wp_step.
  eapply wp_mono; [apply reserve_page_wp; [apply Hinv|lia|lia|lia]|]. cbn beta. intros _ p' [Hp' Hreg]. wp_step.
  cbn [negb]. wp_step.
  set (h1 := set_mach (set_frames p' (mach h)) h).
  assert (hinv h1) as Hinv1.
  { destruct Hinv. destruct Hreg as [Hfl Htot]. split; cbn; try done; [by rewrite Htot|].
    intros k Hk. rewrite Hfl, set_range_lookup. rewrite (hi_reserved0 k Hk). cbn. by case_decide. }
  change (set_mach (set_frames p' (mach h)) h) with h1. rewrite <- (with_mem_id h1).
  apply memset_wp; [done|lia|apply inside_id| |].
  { intros x Hx. unfold in_heap, h1. cbn. change (Z.to_nat 4096) with 4096%nat in Hx. lia. }
  intros m Hm [_ Hw]. wp_step.
  set (h2 := set_end (heap_end_addr h + 4096) (with_mem m h1)).
  assert (grown h 1 h2) as Hg.
  { split; [by apply hinv_grow|done|done|unfold h2; cbn; lia|done| |].
    - intros j Hj. unfold h2, h1 in *. cbn in *. rewrite Hw; [done|]. lia.
    - apply Hreg. }
  change (wp (expand_heap_by_pages n) (λ r h',
    (r = ERR_SUCCESS ∧ grown h (S n) h' ∧ heap_end_addr h + 4096 * Z.of_nat (S n) ≤ heap_max_addr h) ∨
    (r = ERR_HEAP_EXHAUSTED ∧ ∃ k, (k < S n)%nat ∧ grown h k h' ∧
       heap_max_addr h < heap_end_addr h + 4096 * Z.of_nat (S k))) h2).
  eapply wp_mono; [apply IH, Hg|]. cbn beta.
  assert (heap_end_addr h2 = heap_end_addr h + 4096) as He by done.
  assert (heap_max_addr h2 = heap_max_addr h) as Hx by done. rewrite He, Hx.
  intros r h' [(-> & Hg' & Hfit)|(-> & k & Hk & Hg' & Hno)].
  - left. split_and!; [done| |lia]. by apply (grown_trans _ 1 _ n _ Hg).
  - right. split; [done|]. exists (S k). split_and!; [lia| |lia]. by apply (grown_trans _ 1 _ k _ Hg).
Qed.

(** ** The list of chunks

    A chunk is its address, its payload size and whether it is free. *)

Definition block : Type := Z * Z * bool.
Definition head_or (l : list block) (n : Z) : Z := match l with [] => n | (a, _, _) :: _ => a end.
Fixpoint last_or (p : Z) (l : list block) : Z := match l with [] => p | (a, _, _) :: l => last_or a l end.

Definition header (m : Z → Z) (a sz : Z) (fr : bool) (p n : Z) : Prop :=
  m (chunk_size a / 4) = sz ∧ m (chunk_free a / 4) = Z.b2z fr ∧ m (chunk_prev a / 4) = p ∧ m (chunk_next a / 4) = n.

(** The headers of the chunks of [l], linked in both directions between [p]
    and [n]. *)
Fixpoint seg (m : Z → Z) (p : Z) (l : list block) (n : Z) : Prop :=
  match l with
  | [] => True
  | (a, sz, fr) :: l => header m a sz fr p (head_or l n) ∧ seg m a l n
  end.

(** The chunks lie in ascending order in [lo, hi), each on a page boundary,
    and do not overlap. *)
Fixpoint ordered (lo : Z) (l : list block) (hi : Z) : Prop :=
  match l with
  | [] => lo ≤ hi
  | (a, sz, _) :: l => lo ≤ a ∧ a mod 4096 = 0 ∧ 0 ≤ sz ∧ ordered (a + HEADER + sz) l hi
  end.

(** The heap is the list [l]. *)
Record repr (h : heap) (l : list block) : Prop := {
  re_inv : hinv h;
  re_seg : seg (mem (mach h)) 0 l 0;
  re_order : ordered (heap_start_addr h) l (heap_end_addr h);
  re_base : heap_base h = head_or l 0
}.

Lemma seg_app m p l1 l2 n : seg m p (l1 ++ l2) n ↔ seg m p l1 (head_or l2 n) ∧ seg m (last_or p l1) l2 n.
Proof.
  revert p. induction l1 as [|[[a sz] fr] l1 IH]; intros p; cbn [app seg last_or]; [tauto|].
  rewrite IH. destruct l1 as [|[[? ?] ?] ?]; tauto.
Qed.

Lemma last_or_app p l1 l2 : last_or p (l1 ++ l2) = last_or (last_or p l1) l2.
Proof. revert p. induction l1 as [|[[a ?] ?] l1 IH]; intros p; cbn; [done|apply IH]. Qed.

Lemma ordered_le lo l hi : ordered lo l hi → lo ≤ hi.
Proof.
  revert lo. induction l as [|[[a sz] fr] l IH]; intros lo; cbn [ordered]; [done|].
  intros (? & ? & ? & Ho). apply IH in Ho. unfold HEADER in Ho. lia.
Qed.

Lemma ordered_app lo l1 l2 hi :
  ordered lo (l1 ++ l2) hi ↔ ∃ mid, ordered lo l1 mid ∧ ordered mid l2 hi.
Proof.
  revert lo. induction l1 as [|[[a sz] fr] l1 IH]; intros lo; cbn [app ordered].
  - split; [intros H; exists lo; split; [lia|done]|]. intros (mid & ? & H).
    destruct l2 as [|[[b sb] fb] l2]; cbn [ordered] in *; [lia|]. intuition lia.
  - rewrite IH. naive_solver.
Qed.

Lemma ordered_lo lo lo' l hi : lo' ≤ lo → ordered lo l hi → ordered lo' l hi.
Proof. intros Hl. destruct l as [|[[a sz] fr] l]; cbn [ordered]; [lia|]. intuition lia. Qed.

Lemma ordered_hi lo l hi hi' : hi ≤ hi' → ordered lo l hi → ordered lo l hi'.
Proof.
  intros Hh. revert lo. induction l as [|[[a sz] fr] l IH]; intros lo; cbn [ordered]; [lia|]. naive_solver.
Qed.

Lemma ordered_bounds lo l hi a sz fr :
  ordered lo l hi → (a, sz, fr) ∈ l → lo ≤ a ∧ a mod 4096 = 0 ∧ 0 ≤ sz ∧ a + HEADER + sz ≤ hi.
Proof.
  intros Ho [l1 [l2 ->]]%list_elem_of_split. apply ordered_app in Ho as (mid & H1 & H2). cbn [ordered] in H2.
  destruct H2 as (? & ? & ? & H2). apply ordered_le in H1, H2. lia.
Qed.

Lemma ordered_length lo l hi :
  ordered lo l hi → hi mod 4096 = 0 → 4096 * Z.of_nat (length l) ≤ hi - (lo + 4095) / 4096 * 4096.
Proof.
  revert lo. induction l as [|[[a sz] fr] l IH]; intros lo; cbn [ordered length]; [lia|].
  intros (? & ? & ? & Ho) Hh. specialize (IH _ Ho Hh). unfold HEADER in IH. lia.
Qed.

(** Chunks before and after a chunk do not touch its page. *)
Lemma ordered_split lo l1 a sz fr l2 hi :
  ordered lo (l1 ++ (a, sz, fr) :: l2) hi →
  lo ≤ a ∧ a mod 4096 = 0 ∧ 0 ≤ sz ∧ a + HEADER + sz ≤ hi ∧
  (∀ b sb fb, (b, sb, fb) ∈ l1 → b mod 4096 = 0 ∧ b + HEADER + sb ≤ a ∧ 0 ≤ sb) ∧
  (∀ b sb fb, (b, sb, fb) ∈ l2 → b mod 4096 = 0 ∧ a + HEADER + sz ≤ b ∧ 0 ≤ sb).
Proof.
  intros Ho. apply ordered_app in Ho as (mid & H1 & H2). cbn [ordered] in H2. destruct H2 as (? & ? & ? & H2).
  split_and!; [apply ordered_le in H1; lia|lia|lia|by apply ordered_le in H2| |].
  - intros b sb fb Hb. apply (ordered_bounds _ _ _ _ _ _ H1) in Hb. lia.
  - intros b sb fb Hb. apply (ordered_bounds _ _ _ _ _ _ H2) in Hb. lia.
Qed.

(** The words of a header at [a]. *)
Definition header_word (a j : Z) : Prop := a / 4 ≤ j < a / 4 + 4.

Lemma seg_frame m m' p l n :
  (∀ a sz fr, (a, sz, fr) ∈ l → a mod 4096 = 0) →
  (∀ a sz fr j, (a, sz, fr) ∈ l → header_word a j → m' j = m j) → seg m p l n → seg m' p l n.
Proof.
  revert p. induction l as [|[[a sz] fr] l IH]; intros p Ha Hm; cbn [seg]; [done|].
  intros [(H1 & H2 & H3 & H4) Hs]. split.
  - assert (a mod 4096 = 0) by (eapply Ha, list_elem_of_here).
    assert (∀ j, header_word a j → m' j = m j) as Hj by (intros j; eapply Hm, list_elem_of_here).
    unfold header, header_word, chunk_size, chunk_free, chunk_prev, chunk_next in *.
    split_and!; rewrite Hj; done || lia.
  - apply IH; [intros ??? H; eapply Ha; by constructor|intros ???? H; eapply Hm; by constructor|done].
Qed.

Lemma upd_eq k v m j : j = k → upd k v m j = v.
Proof. intros ->. unfold upd. by rewrite Z.eqb_refl. Qed.
Lemma upd_ne k v m j : j ≠ k → upd k v m j = m j.
Proof. intros H. unfold upd. by rewrite (proj2 (Z.eqb_neq _ _) H). Qed.

Ltac heap_arith := unfold header_word, in_heap, chunk_size, chunk_free, chunk_prev, chunk_next, HEADER in *; lia.
(** Reads of a memory after updates at known words. *)
Ltac upd_simpl := repeat
  (first [rewrite upd_eq by heap_arith | rewrite upd_ne by heap_arith]).

(** ** Operations on the list, for a heap whose globals do not change *)

Record rep (h : heap) (m : Z → Z) (l : list block) : Prop := {
  rp_inside : inside h m;
  rp_seg : seg m 0 l 0;
  rp_order : ordered (heap_start_addr h) l (heap_end_addr h);
  rp_base : heap_base h = head_or l 0
}.

Lemma repr_rep h l : repr h l → rep h (mem (mach h)) l.
Proof. intros []. by split. Qed.
Lemma rep_repr h m l : hinv h → rep h m l → repr (with_mem m h) l.
Proof. intros ? []. split; [by apply hinv_mem|done..]. Qed.

Section list.
Context (h : heap) (Hinv : hinv h).
Implicit Types (m : Z → Z) (l : list block).

(** The words that change between [m] and [m'] are headers of [l]. *)
Definition only_headers l m m' : Prop :=
  ∀ j, (∀ a sz fr, (a, sz, fr) ∈ l → ¬ header_word a j) → m' j = m j.

Lemma only_headers_trans l m1 m2 m3 : only_headers l m1 m2 → only_headers l m2 m3 → only_headers l m1 m3.
Proof. intros H1 H2 j Hj. by rewrite H2, H1. Qed.

Lemma only_headers_weaken l l' m m' :
  l.*1.*1 ⊆ l'.*1.*1 → only_headers l m m' → only_headers l' m m'.
Proof.
  intros Hl H j Hj. apply H. intros a sz fr Hin Ha.
  assert (a ∈ l'.*1.*1) as Ha' by (apply Hl; apply list_elem_of_fmap; exists (a, sz); split; [done|];
    apply list_elem_of_fmap; by exists (a, sz, fr)).
  apply list_elem_of_fmap in Ha' as ([b sb] & -> & Hb). apply list_elem_of_fmap in Hb as ([[c sc] fc] & [= -> ->] & Hc).
  by eapply Hj.
Qed.

Lemma only_headers_upd l m k v a sz fr : (a, sz, fr) ∈ l → header_word a k → only_headers l m (upd k v m).
Proof. intros Hin Hk j Hj. apply upd_ne. intros ->. by eapply Hj. Qed.

(** Where the header of a chunk is and what it holds. *)
Lemma rep_at m l1 a sz fr l2 :
  rep h m (l1 ++ (a, sz, fr) :: l2) →
  header m a sz fr (last_or 0 l1) (head_or l2 0) ∧
  0 < a ∧ a mod 4096 = 0 ∧ 0 ≤ sz ∧ a + HEADER + sz ≤ heap_end_addr h ∧ a + HEADER + sz < 2 ^ 32 ∧
  (∀ i, 0 ≤ i < 16 → in_heap h (a + i)).
Proof.
  intros [Hm Hs Ho _]. apply seg_app in Hs as (_ & Hh & _).
  apply ordered_split in Ho as (? & ? & ? & ? & _). destruct Hinv as [[? ?] (? & ? & ?) _ _ [_ ?] _ _].
  split_and!; [done|lia|lia|lia|lia|lia|]. intros i Hi. heap_arith.
Qed.

Lemma rep_inside_upd m l1 a sz fr l2 i v :
  rep h m (l1 ++ (a, sz, fr) :: l2) → 0 ≤ i < 16 → ∀ m', inside h m' → inside h (upd ((a + i) / 4) v m').
Proof.
  intros Hr Hi m' Hm'. destruct (rep_at _ _ _ _ _ _ Hr) as (_ & _ & _ & _ & _ & _ & Hin).
  apply inside_upd; [done|]. destruct (Hin i Hi). lia.
Qed.

Lemma rep_set_free m l1 a sz fr fr' l2 :
  rep h m (l1 ++ (a, sz, fr) :: l2) →
  rep h (upd (chunk_free a / 4) (Z.b2z fr') m) (l1 ++ (a, sz, fr') :: l2).
Proof.
  intros Hr. pose proof (rep_at _ _ _ _ _ _ Hr) as ((H1 & H2 & H3 & H4) & ? & ? & ? & _).
  pose proof (ordered_split _ _ _ _ _ _ _ (rp_order _ _ _ Hr)) as (_ & _ & _ & _ & Hb1 & Hb2).
  destruct Hr as [Hm Hs Ho Hb] eqn:Er. clear Er.
  split.
  - apply (rep_inside_upd m l1 a sz fr l2 4); [done|lia|done].
  - apply seg_app in Hs as (Hs1 & _ & Hs2). apply seg_app. split; [|split].
    + cbn [head_or] in *. eapply seg_frame; [intros ????; by eapply Hb1| |exact Hs1].
      intros b sb fb j Hin Hj. destruct (Hb1 _ _ _ Hin). apply upd_ne. heap_arith.
    + split_and!; upd_simpl; done.
    + eapply seg_frame; [intros ????; by eapply Hb2| |exact Hs2].
      intros b sb fb j Hin Hj. destruct (Hb2 _ _ _ Hin). apply upd_ne. heap_arith.
  - apply ordered_app in Ho as (mid & ? & Ho). apply ordered_app. by exists mid.
  - destruct l1 as [|[[? ?] ?] ?]; done.
Qed.

(** Two neighbours become one. *)
Lemma rep_merge m l1 a sz fr b sb fb l2 :
  rep h m (l1 ++ (a, sz, fr) :: (b, sb, fb) :: l2) →
  let m1 := upd (chunk_next a / 4) (head_or l2 0) (upd (chunk_size a / 4) (sz + HEADER + sb) m) in
  let m' := if head_or l2 0 =? 0 then m1 else upd (chunk_prev (head_or l2 0) / 4) a m1 in
  rep h m' (l1 ++ (a, sz + HEADER + sb, fr) :: l2) ∧
  only_headers (l1 ++ (a, sz, fr) :: (b, sb, fb) :: l2) m m'.
Proof.
  intros Hr m1 m'. pose proof (rep_at _ _ _ _ _ _ Hr) as ((H1 & H2 & H3 & H4) & ? & ? & ? & _).
  pose proof (ordered_split _ _ _ _ _ _ _ (rp_order _ _ _ Hr)) as (_ & _ & _ & _ & Hb1 & Hb2).
  assert (rep h m ((l1 ++ [(a, sz, fr)]) ++ (b, sb, fb) :: l2)) as Hr2 by by rewrite <- app_assoc.
  pose proof (rep_at _ _ _ _ _ _ Hr2) as (_ & ? & ? & ? & _).
  pose proof (ordered_split _ _ _ _ _ _ _ (rp_order _ _ _ Hr2)) as (_ & _ & _ & _ & _ & Hb3).
  destruct (Hb2 b sb fb (list_elem_of_here _ _)) as (_ & Hab & _).
  assert (only_headers (l1 ++ (a, sz, fr) :: (b, sb, fb) :: l2) m m1) as Ho1.
  { apply only_headers_trans with (upd (chunk_size a / 4) (sz + HEADER + sb) m);
      (eapply (only_headers_upd _ _ _ _ a sz fr); [set_solver|heap_arith]). }
  assert (m' = m1 ∧ l2 = [] ∨ ∃ c sc fc l3, l2 = (c, sc, fc) :: l3 ∧ m' = upd (chunk_prev c / 4) a m1) as Hm'.
  { unfold m'. destruct l2 as [|[[c sc] fc] l3]; cbn [head_or]; [by left|right].
    destruct (Hb3 c sc fc (list_elem_of_here _ _)). rewrite (proj2 (Z.eqb_neq c 0)) by heap_arith. by exists c, sc, fc, l3. }
  split; [split|].
  - assert (inside h m1) as Hi1.
    { apply (rep_inside_upd m l1 a sz fr ((b, sb, fb) :: l2) 12); [done|lia|].
      replace (chunk_size a) with (a + 0) by heap_arith.
      apply (rep_inside_upd m l1 a sz fr ((b, sb, fb) :: l2) 0); [done|lia|apply Hr]. }
    destruct Hm' as [[-> _]|(c & sc & fc & l3 & -> & ->)]; [done|].
    apply (rep_inside_upd m (l1 ++ [(a, sz, fr); (b, sb, fb)]) c sc fc l3 8); [by rewrite <- app_assoc|lia|done].
  - destruct Hr as [_ Hs _ _]. cbn [app] in Hs. apply seg_app in Hs as (Hs1 & _ & _ & Hs2). apply seg_app.
    assert (∀ c sc fc j, (c, sc, fc) ∈ l1 → header_word c j → m' j = m j) as Hf1.
    { intros c sc fc j Hin Hj. destruct (Hb1 _ _ _ Hin).
      destruct Hm' as [[-> _]|(d & sd & fd & l3 & -> & ->)]; unfold m1; upd_simpl; [done|].
      destruct (Hb3 d sd fd (list_elem_of_here _ _)). upd_simpl. done. }
    split; [|split].
    + cbn [head_or] in *. eapply seg_frame; [intros ????; by eapply Hb1|exact Hf1|exact Hs1].
    + destruct Hm' as [[-> ->]|(d & sd & fd & l3 & -> & ->)].
      * split_and!; unfold m1; cbn [head_or]; upd_simpl; done.
      * destruct (Hb3 d sd fd (list_elem_of_here _ _)). split_and!; unfold m1; cbn [head_or]; upd_simpl; done.
    + destruct Hm' as [[-> ->]|(d & sd & fd & l3 & -> & ->)]; [done|]. cbn [seg] in *.
      destruct (Hb3 d sd fd (list_elem_of_here _ _)) as (? & ? & ?). destruct Hs2 as [(K1 & K2 & K3 & K4) Hs2]. split.
      * split_and!; unfold m1; upd_simpl; done.
      * assert (∀ e se fe, (e, se, fe) ∈ l3 → e mod 4096 = 0 ∧ d + HEADER + sd ≤ e ∧ 0 ≤ se) as Hb4.
        { apply (ordered_split (heap_start_addr h) (l1 ++ [(a, sz, fr); (b, sb, fb)]) d sd fd l3 (heap_end_addr h)).
          rewrite <- app_assoc. apply (rp_order _ _ _ Hr2) || (rewrite <- app_assoc in Hr2; apply (rp_order _ _ _ Hr2)). }
        eapply seg_frame; [intros ????; by eapply Hb4| |exact Hs2].
        intros e se fe j Hin Hj. destruct (Hb4 _ _ _ Hin) as (? & ? & ?). unfold m1. upd_simpl. done.
  - destruct Hr as [_ _ Ho _]. apply ordered_app in Ho as (mid & Ho1' & Ho2). apply ordered_app. exists mid.
    split; [done|]. cbn [ordered] in *. destruct Ho2 as (? & ? & ? & ? & ? & ? & Ho2). split_and!; try heap_arith.
    eapply ordered_lo; [|exact Ho2]. heap_arith.
  - destruct Hr as [_ _ _ Hb]. destruct l1 as [|[[? ?] ?] ?]; done.
  - destruct Hm' as [[-> _]|(d & sd & fd & l3 & -> & ->)]; [done|].
    eapply only_headers_trans; [exact Ho1|]. eapply (only_headers_upd _ _ _ _ d sd fd); [set_solver|].
    destruct (Hb3 d sd fd (list_elem_of_here _ _)). heap_arith.
Qed.

(** The first free chunk that is large enough, with the chunks before and
    after it. *)
Fixpoint first_fit (size : Z) l : option (list block * Z * Z * list block) :=
  match l with
  | [] => None
  | (a, sz, fr) :: l =>
    if fr && (size <=? sz) then Some ([], a, sz, l)
    else '(l1, b, sb, l2) ← first_fit size l; Some ((a, sz, fr) :: l1, b, sb, l2)
  end.

Lemma first_fit_Some size l l1 a sz l2 :
  first_fit size l = Some (l1, a, sz, l2) → l = l1 ++ (a, sz, true) :: l2 ∧ size ≤ sz.
Proof.
  revert l1. induction l as [|[[b sb] fr] l IH]; intros l1; cbn [first_fit]; [done|].
  destruct (fr && (size <=? sb)) eqn:E.
  - apply andb_true_iff in E as [-> E]. intros [= <- <- <- <-]. split; [done|]. lia.
  - destruct (first_fit size l) as [[[[? ?] ?] ?]|]; cbn; [|done]. intros [= <- <- <- <-].
    destruct (IH _ eq_refl) as [-> ?]. done.
Qed.

Lemma fit_chunk m l1 a sz fr l2 Q :
  rep h m (l1 ++ (a, sz, fr) :: l2) → Q sz (with_mem m h) → wp (load32 (chunk_size a)) Q (with_mem m h).
Proof.
  intros Hr HQ. destruct (rep_at _ _ _ _ _ _ Hr) as ((H1 & _) & ? & ? & ? & _ & _ & Hin).
  apply load32_wp; [done|apply Hr| | |by rewrite H1].
  - replace (chunk_size a) with (a + 0) by heap_arith. apply Hin. lia.
  - heap_arith.
Qed.
Lemma free_chunk m l1 a sz fr l2 Q :
  rep h m (l1 ++ (a, sz, fr) :: l2) → Q (Z.b2z fr) (with_mem m h) → wp (load32 (chunk_free a)) Q (with_mem m h).
Proof.
  intros Hr HQ. destruct (rep_at _ _ _ _ _ _ Hr) as ((_ & H1 & _) & ? & ? & ? & _ & _ & Hin).
  apply load32_wp; [done|apply Hr|apply Hin; lia|heap_arith|by rewrite H1].
Qed.
Lemma prev_chunk m l1 a sz fr l2 Q :
  rep h m (l1 ++ (a, sz, fr) :: l2) → Q (last_or 0 l1) (with_mem m h) → wp (load32 (chunk_prev a)) Q (with_mem m h).
Proof.
  intros Hr HQ. destruct (rep_at _ _ _ _ _ _ Hr) as ((_ & _ & H1 & _) & ? & ? & ? & _ & _ & Hin).
  apply load32_wp; [done|apply Hr|apply Hin; lia|heap_arith|by rewrite H1].
Qed.
Lemma next_chunk m l1 a sz fr l2 Q :
  rep h m (l1 ++ (a, sz, fr) :: l2) → Q (head_or l2 0) (with_mem m h) → wp (load32 (chunk_next a)) Q (with_mem m h).
Proof.
  intros Hr HQ. destruct (rep_at _ _ _ _ _ _ Hr) as ((_ & _ & _ & H1) & ? & ? & ? & _ & _ & Hin).
  apply load32_wp; [done|apply Hr|apply Hin; lia|heap_arith|by rewrite H1].
Qed.

Lemma find_from_wp m size fuel l1 l2 :
  rep h m (l1 ++ l2) → (length l2 < fuel)%nat →
  wp (find_from size fuel (head_or l2 0)) (λ r h',
    h' = with_mem m h ∧ r = match first_fit size l2 with Some (_, a, _, _) => a | None => 0 end) (with_mem m h).
Proof.
  revert fuel l1. induction l2 as [|[[a sz] fr] l2 IH]; intros [|fuel] l1 Hr Hf; cbn [length] in Hf; try lia.
  { cbn [find_from head_or first_fit Z.eqb]. by wp_step. }
  destruct (rep_at _ _ _ _ _ _ Hr) as (_ & ? & _).
  cbn [find_from head_or]. rewrite (proj2 (Z.eqb_neq a 0)) by lia.
  wp_step. eapply free_chunk; [exact Hr|]. wp_step. eapply fit_chunk; [exact Hr|].
  cbn [first_fit]. replace (negb (Z.b2z fr =? 0)) with fr by by destruct fr.
  destruct (fr && (size <=? sz)); [by wp_step|]. wp_step. eapply next_chunk; [exact Hr|].
  eapply wp_mono; [apply (IH fuel (l1 ++ [(a, sz, fr)])); [by rewrite <- app_assoc|lia]|].
  cbn beta. intros r h' [-> ->]. split; [done|]. by destruct (first_fit size l2) as [[[[? ?] ?] ?]|].
Qed.

Lemma rep_fuel m l : rep h m l → (length l < list_fuel h)%nat.
Proof.
  intros Hr. destruct Hinv as [[? ?] (? & Hm & ?) _ _ _ _ _].
  pose proof (ordered_length _ _ _ (rp_order _ _ _ Hr) Hm). unfold list_fuel. change PAGE_SIZE with 4096. lia.
Qed.

Lemma find_free_chunk_wp m size l :
  rep h m l →
  wp (find_free_chunk size) (λ r h',
    h' = with_mem m h ∧ r = match first_fit size l with Some (_, a, _, _) => a | None => 0 end) (with_mem m h).
Proof.
  intros Hr. unfold find_free_chunk. wp_step. wp_step. cbn beta.
  change (list_fuel (with_mem m h)) with (list_fuel h). change (heap_base (with_mem m h)) with (heap_base h).
  rewrite (rp_base _ _ _ Hr). apply (find_from_wp m size _ [] l); [done|by apply (rep_fuel m)].
Qed.

Lemma last_chunk_wp m fuel l1 l2 l0 a sz fr :
  rep h m (l1 ++ l2) → l2 = l0 ++ [(a, sz, fr)] → (length l2 ≤ fuel)%nat →
  wp (last_chunk fuel (head_or l2 0)) (λ r h', h' = with_mem m h ∧ r = a) (with_mem m h).
Proof.
  revert fuel l1 l0. induction l2 as [|[[b sb] fb] l2 IH]; intros [|fuel] l1 l0 Hr E Hf; cbn [length] in Hf; try lia.
  { by destruct l0. }
  { by destruct l0. }
  cbn [last_chunk head_or]. wp_step. eapply next_chunk; [exact Hr|].
  destruct l0 as [|b0 l0]; simplify_eq/=.
  - by wp_step.
  - set (l2 := l0 ++ [(a, sz, fr)]) in *. assert (head_or l2 0 ≠ 0) as Hne.
    { destruct l2 as [|[[c sc] fc] l3] eqn:E2; [by destruct l0|]. cbn [head_or].
      assert (rep h m ((l1 ++ [(b, sb, fb)]) ++ (c, sc, fc) :: l3)) as Hr' by by rewrite <- app_assoc.
      apply rep_at in Hr' as (_ & ? & _). lia. }
    rewrite (proj2 (Z.eqb_neq _ 0)) by done.
    apply (IH fuel (l1 ++ [(b, sb, fb)]) l0); [by rewrite <- app_assoc|done|lia].
Qed.

(** A chunk behind the last one. *)
Lemma rep_append m l0 b sb fb c size :
  let l := l0 ++ [(b, sb, fb)] in
  rep h m l → ordered (heap_start_addr h) l c → c mod 4096 = 0 → 0 ≤ size → c + HEADER + size ≤ heap_end_addr h →
  m (chunk_size c / 4) = size → m (chunk_free c / 4) = 0 → m (chunk_next c / 4) = 0 →
  rep h (upd (chunk_prev c / 4) b (upd (chunk_next b / 4) c m)) (l ++ [(c, size, false)]).
Proof.
  intros l Hr Ho Hc Hs He Hm1 Hm2 Hm4. set (m' := upd _ _ _).
  pose proof (rep_at _ _ _ _ _ _ Hr) as ((H1 & H2 & H3 & H4) & ? & ? & ? & _).
  pose proof (ordered_split _ _ _ _ _ _ _ Ho) as (? & _ & _ & ? & Hb1 & _).
  pose proof (hi_end _ Hinv) as (? & ? & ?).
  assert (in_heap h (c + 8)) as Hin by heap_arith.
  destruct Hr as [Hm Hsg _ Hb]. subst l. split.
  - apply inside_upd; [|destruct Hin; heap_arith].
    apply inside_upd; [exact Hm|]. heap_arith.
  - rewrite <- app_assoc. cbn [app]. apply seg_app in Hsg as (Hs1 & _). apply seg_app. split; [|split_and!].
    + cbn [head_or] in *. eapply seg_frame; [intros ????; by eapply Hb1| |exact Hs1].
      intros d sd fd j Hin' Hj. destruct (Hb1 _ _ _ Hin') as (? & ? & ?). unfold m'. upd_simpl. done.
    + split_and!; unfold m'; cbn [head_or]; upd_simpl; done.
    + split_and!; [|done]. split_and!; unfold m'; upd_simpl; done.
  - apply ordered_app. exists c. split; [done|]. cbn [ordered]. heap_arith.
  - rewrite Hb. by destruct l0 as [|[[? ?] ?] ?].
Qed.

Lemma only_headers_byte lo l hi m m' a sz fr x :
  ordered lo l hi → only_headers l m m' → (a, sz, fr) ∈ l → a + HEADER ≤ x < a + HEADER + sz → byte m' x = byte m x.
Proof.
  intros Ho Hm Hin Hx. unfold byte. rewrite Hm; [done|]. intros b sb fb Hb Hj.
  apply list_elem_of_split in Hin as (l1 & l2 & ->).
  apply ordered_split in Ho as (? & ? & ? & ? & Hb1 & Hb2).
  apply elem_of_app in Hb as [Hb|[E|Hb]%elem_of_cons].
  - apply Hb1 in Hb. heap_arith.
  - simplify_eq. heap_arith.
  - apply Hb2 in Hb. heap_arith.
Qed.
End list.

(** ** What the user of the heap sees *)

Definition byte_of (h : heap) (x : Z) : Z := byte_at (mach h) x.
(** The payloads of the chunks of [l] hold what they held. *)
Definition payload_kept (l : list block) (h h' : heap) : Prop := ∀ a sz fr x,
  (a, sz, fr) ∈ l → a + HEADER ≤ x < a + HEADER + sz → byte_of h' x = byte_of h x.
Definition same_globals (h h' : heap) : Prop :=
  heap_start_addr h' = heap_start_addr h ∧ heap_end_addr h' = heap_end_addr h ∧ heap_max_addr h' = heap_max_addr h.

Lemma payload_kept_trans l h1 h2 h3 : payload_kept l h1 h2 → payload_kept l h2 h3 → payload_kept l h1 h3.
Proof. intros H1 H2 a sz fr x Hin Hx. by rewrite (H2 a sz fr), (H1 a sz fr). Qed.
Lemma payload_kept_sub l l' h h' : l' ⊆ l → payload_kept l h h' → payload_kept l' h h'.
Proof. intros Hs H a sz fr x Hin. by apply (H a sz fr), Hs. Qed.

Lemma only_headers_kept h l m m' :
  repr (with_mem m h) l → only_headers l m m' → payload_kept l (with_mem m h) (with_mem m' h).
Proof. intros Hr Hm a sz fr x Hin Hx. by apply (only_headers_byte _ _ _ _ _ _ _ _ _ (re_order _ _ Hr) Hm Hin). Qed.

Lemma repr_grown h l k h' :
  repr h l → grown h k h' →
  rep h' (mem (mach h')) l ∧ ordered (heap_start_addr h') l (heap_end_addr h) ∧ payload_kept l h h'.
Proof.
  intros [Hi Hs Ho Hb] [Hi' Eb Es Ee Em Hm _].
  assert (∀ j, j < heap_end_addr h / 4 → mem (mach h') j = mem (mach h) j) as Hw by (intros j Hj; apply Hm; lia).
  pose proof (hi_end _ Hi) as (? & ? & ?).
  split_and!; [split|by rewrite Es|].
  - done.
  - eapply seg_frame; [| |exact Hs].
    + intros a sz fr Hin. apply (ordered_bounds _ _ _ _ _ _ Ho) in Hin. lia.
    + intros a sz fr j Hin Hj. apply (ordered_bounds _ _ _ _ _ _ Ho) in Hin. apply Hw. heap_arith.
  - rewrite Es. eapply ordered_hi; [|exact Ho]. lia.
  - by rewrite Eb.
  - intros a sz fr x Hin Hx. apply (ordered_bounds _ _ _ _ _ _ Ho) in Hin.
    unfold byte_of, byte_at. rewrite Hw; [done|]. heap_arith.
Qed.

(** The pages that a request of [size] bytes takes. *)
Definition pages_for (size : Z) : Z := (size + HEADER + PAGE_SIZE - 1) / PAGE_SIZE.

Definition request_post (h : heap) (l : list block) (size r : Z) (h' : heap) : Prop :=
  payload_kept l h h' ∧ heap_start_addr h' = heap_start_addr h ∧ heap_max_addr h' = heap_max_addr h ∧
  ((r = heap_end_addr h ∧ heap_end_addr h' = heap_end_addr h + PAGE_SIZE * pages_for size ∧
    repr h' (l ++ [(heap_end_addr h, size, false)])) ∨
   (r = 0 ∧ heap_max_addr h < heap_end_addr h + PAGE_SIZE * pages_for size ∧
    heap_end_addr h ≤ heap_end_addr h' ∧ repr h' l)).

(** [append_chunk] on a chunk whose header is written. *)
Lemma append_chunk_wp h m l c size :
  hinv h → rep h m l → ordered (heap_start_addr h) l c → c mod 4096 = 0 → 0 ≤ size →
  c + HEADER + size ≤ heap_end_addr h → heap_start_addr h ≤ c →
  header m c size false 0 0 →
  wp (append_chunk c) (λ _ h', same_globals h h' ∧ repr h' (l ++ [(c, size, false)]) ∧
    payload_kept l (with_mem m h) h') (with_mem m h).
Proof.
  intros Hinv Hr Ho Hc Hs He Hlo (Hm1 & Hm2 & Hm3 & Hm4). unfold append_chunk. wp_step. wp_step. cbn beta.
  change (heap_base (with_mem m h)) with (heap_base h). change (list_fuel (with_mem m h)) with (list_fuel h).
  pose proof (hi_end _ Hinv) as (? & ? & ?). pose proof (hi_start _ Hinv) as (? & ?).
  destruct (exists_last_or l) as [->|(l0 & [[b sb] fb] & ->)].
  - rewrite (rp_base _ _ _ Hr). cbn [head_or Z.eqb]. wp_step. split; [done|]. split; [|by intros ? ? ? ? ?%elem_of_nil].
    destruct (hinv_mem h m Hinv (rp_inside _ _ _ Hr)) as [].
    split; [by split|done| |done]. cbn. split_and!; heap_arith.
  - pose proof (rep_at _ Hinv _ _ _ _ _ _ Hr) as (_ & ? & ? & ? & ? & ? & Hin).
    rewrite (proj2 (Z.eqb_neq (heap_base h) 0)).
    2: { rewrite (rp_base _ _ _ Hr). destruct l0 as [|[[d sd] fd] l0]; cbn [head_or app]; [lia|].
         apply (rep_at h Hinv m [] d sd fd) in Hr as (_ & ? & _). lia. }
    wp_step. rewrite (rp_base _ _ _ Hr).
    eapply wp_mono; [apply (last_chunk_wp h Hinv m _ [] _ l0 b sb fb Hr eq_refl); pose proof (rep_fuel h Hinv m _ Hr); lia|].
    cbn beta. intros r h' [-> ->]. wp_step.
    apply store32_wp; [done|apply Hr|apply Hin; lia|heap_arith|].
    apply store32_wp; [done| |heap_arith|heap_arith|].
    { apply inside_upd; [apply Hr|]. destruct (Hin 12); [lia|]. heap_arith. }
    set (m' := upd _ _ _).
    assert (rep h m' ((l0 ++ [(b, sb, fb)]) ++ [(c, size, false)])) as Hr' by by apply rep_append.
    split; [done|]. split; [by apply rep_repr|].
    intros a sz fr x Hx Hxr. unfold byte_of, byte_at. cbn. pose proof (ordered_bounds _ _ _ _ _ _ Ho Hx).
    assert (x / 4 ≠ chunk_prev c / 4) by heap_arith.
    assert (x / 4 ≠ chunk_next b / 4).
    { pose proof (ordered_split _ _ _ _ _ _ _ Ho) as (_ & _ & _ & _ & Hb1 & _).
      apply elem_of_app in Hx as [Hx|[= -> -> ->]%list_elem_of_singleton]; [apply Hb1 in Hx|]; heap_arith. }
    unfold m'. by rewrite !upd_ne by done.
Qed.

Lemma request_space_wp h l size :
  repr h l → 0 < size → size + HEADER + PAGE_SIZE ≤ 2 ^ 32 →
  wp (request_space size) (request_post h l size) h.
Proof.
  intros Hr Hs Hbig. change HEADER with 16 in Hbig. change PAGE_SIZE with 4096 in Hbig.
  unfold request_space. change PAGE_SIZE with 4096. change HEADER with 16. rewrite !u32_small by (rewrite ?u32_small; lia).
  replace ((size + 16 + 4096 - 1) / 4096) with (pages_for size) by done.
  assert (0 < pages_for size ∧ size + 16 ≤ 4096 * pages_for size) as [Hp0 Hp].
  { unfold pages_for. change PAGE_SIZE with 4096. change HEADER with 16. lia. }
  unfold request_post. change PAGE_SIZE with 4096. pose proof (re_inv _ _ Hr) as Hinv.
  wp_step. eapply wp_mono; [apply expand_wp, Hinv|]. cbn beta.
  intros r h1 [(-> & Hg & Hfit)|(-> & k & Hk & Hg & Hno)].
  2: { change (negb (ERR_HEAP_EXHAUSTED =? ERR_SUCCESS)) with true. cbn iota. wp_step.
       destruct (repr_grown _ _ _ _ Hr Hg) as (Hr1 & _ & Hkept). destruct Hg as [Hi1 ? ? He1 ? _ _].
       split_and!; [done|done|done|]. right. split_and!; [done|lia|lia|].
       rewrite <- (with_mem_id h1). by apply rep_repr. }
  on_success. wp_step. wp_step. cbn beta.
  destruct (repr_grown _ _ _ _ Hr Hg) as (Hr1 & Ho1 & Hkept). destruct Hg as [Hi1 Hb1 Hs1 He1 Hm1 Hmem _].
  pose proof (hi_end _ Hinv) as (? & ? & ?). pose proof (hi_start _ Hinv) as (? & ?). pose proof (hi_max _ Hinv) as (_ & ?).
  rewrite Z2Nat.id in He1, Hfit by lia.
  assert (u32 (heap_end_addr h1 - pages_for size * 4096) = heap_end_addr h) as Ec by (rewrite u32_small; lia).
  rewrite Ec. set (c := heap_end_addr h) in *. rewrite <- (with_mem_id h1) at 1.
  assert (∀ i, 0 ≤ i < 16 → in_heap h1 (c + i)) as Hin by (intros i Hi; heap_arith).
  assert (∀ m i v, 0 ≤ i < 16 → inside h1 m → inside h1 (upd ((c + i) / 4) v m)) as Hup.
  { intros m i v Hi Hm. apply inside_upd; [done|]. destruct (Hin i Hi). lia. }
  pose proof (Hup _ 0 size ltac:(lia) (rp_inside _ _ _ Hr1)) as Hi_1. rewrite Z.add_0_r in Hi_1.
  pose proof (Hup _ 4 0 ltac:(lia) Hi_1) as Hi_2. pose proof (Hup _ 8 0 ltac:(lia) Hi_2) as Hi_3.
  pose proof (Hup _ 12 0 ltac:(lia) Hi_3) as Hi_4.
  wp_step. apply store32_wp; [done|apply Hr1|replace (chunk_size c) with (c + 0) by heap_arith; apply Hin; lia|heap_arith|].
  wp_step. apply store32_wp; [done|done|apply Hin; lia|heap_arith|].
  wp_step. apply store32_wp; [done|done|apply Hin; lia|heap_arith|].
  wp_step. apply store32_wp; [done|done|apply Hin; lia|heap_arith|].
  set (m4 := upd _ _ _).
  assert (rep h1 m4 l) as Hr4.
  { destruct Hr1 as [_ Hsg Ho Hb]. split; [done| |done|done].
    eapply seg_frame; [| |exact Hsg].
    - intros a sz fr Ha. apply (ordered_bounds _ _ _ _ _ _ Ho1) in Ha. lia.
    - intros a sz fr j Ha Hj. apply (ordered_bounds _ _ _ _ _ _ Ho1) in Ha. unfold m4. upd_simpl. done. }
  wp_step. eapply wp_mono; [apply (append_chunk_wp h1 m4 l c size); try done; try heap_arith|].
  { unfold m4. split_and!; upd_simpl; done. }
  cbn beta. intros _ h' ((Hs' & He' & Hm') & Hrep & Hk'). wp_step.
  split_and!; [|congruence|congruence|left; split_and!; [done|by rewrite He', He1|done]].
  eapply payload_kept_trans; [exact Hkept|]. eapply payload_kept_trans; [|exact Hk'].
  intros a sz fr x Ha Hx. apply (ordered_bounds _ _ _ _ _ _ Ho1) in Ha. unfold byte_of, byte_at. cbn.
  unfold m4. rewrite !upd_ne by heap_arith. done.
Qed.

(** ** Allocation *)

Definition malloc_post (h : heap) (l : list block) (size r : Z) (h' : heap) : Prop :=
  payload_kept l h h' ∧ heap_start_addr h' = heap_start_addr h ∧ heap_max_addr h' = heap_max_addr h ∧
  match first_fit size l with
  | Some (l1, a, sz, l2) =>
    r = a + HEADER ∧ heap_end_addr h' = heap_end_addr h ∧ repr h' (l1 ++ (a, sz, false) :: l2)
  | None =>
    (r = heap_end_addr h + HEADER ∧ heap_end_addr h' = heap_end_addr h + PAGE_SIZE * pages_for size ∧
       repr h' (l ++ [(heap_end_addr h, size, false)])) ∨
    (r = 0 ∧ heap_max_addr h < heap_end_addr h + PAGE_SIZE * pages_for size ∧
       heap_end_addr h ≤ heap_end_addr h' ∧ repr h' l)
  end.

Lemma malloc_wp h l size :
  repr h l → 0 < size → size + HEADER + PAGE_SIZE ≤ 2 ^ 32 → wp (malloc size) (malloc_post h l size) h.
Proof.
  intros Hr Hs Hbig. pose proof (re_inv _ _ Hr) as Hinv. unfold malloc.
  rewrite (proj2 (Z.eqb_neq size 0)) by lia. pose proof (repr_rep _ _ Hr) as Hp.
  wp_step. rewrite <- (with_mem_id h) at 1.
  eapply wp_mono; [by apply (find_free_chunk_wp h Hinv (mem (mach h)) size l)|]. cbn beta.
  intros c h1 [-> ->]. rewrite with_mem_id. unfold malloc_post.
  destruct (first_fit size l) as [[[[l1 a] sz] l2]|] eqn:E.
  - destruct (first_fit_Some _ _ _ _ _ _ E) as [El _]. rewrite El in Hp.
    pose proof (rep_at _ Hinv _ _ _ _ _ _ Hp) as (_ & ? & ? & ? & ? & ? & Hin).
    rewrite (proj2 (Z.eqb_neq a 0)) by lia. cbn [negb]. wp_step. rewrite <- (with_mem_id h) at 1.
    apply store32_wp; [done|done|apply Hin; lia|heap_arith|]. wp_step.
    split_and!; [|done|done|rewrite u32_small; heap_arith|done|].
    + rewrite <- (with_mem_id h) at 1. apply only_headers_kept; [by rewrite with_mem_id|].
      eapply (only_headers_upd _ _ _ _ a sz true); [rewrite El; set_solver|heap_arith].
    + apply rep_repr; [done|]. by apply (rep_set_free h Hinv (mem (mach h)) l1 a sz true false l2).
  - cbn [Z.eqb negb]. wp_step. eapply wp_mono; [by apply (request_space_wp h l)|]. cbn beta.
    intros r h' (Hk & Es & Em & [(-> & He & Hr')|(-> & Hno & He & Hr')]).
    + pose proof (hi_start _ Hinv). pose proof (hi_end _ Hinv) as (? & ? & ?). pose proof (hi_max _ Hinv) as [_ ?].
      rewrite (proj2 (Z.eqb_neq _ 0)) by lia. wp_step. split_and!; [done..|]. left.
      split_and!; [rewrite u32_small; heap_arith|done|done].
    + cbn [Z.eqb]. wp_step. split_and!; [done..|]. by right.
Qed.

(** ** Release *)

Definition absorb_next (a sz : Z) (l2 : list block) : list block :=
  match l2 with
  | (b, sb, true) :: l3 => (a, sz + HEADER + sb, true) :: l3
  | _ => (a, sz, true) :: l2
  end.
(** The chunk at the head of [l2] joined to the last chunk of [l1], if that is
    free. *)
Fixpoint absorb_prev (l1 l2 : list block) : list block :=
  match l1 with
  | [] => l2
  | b :: l1' =>
    match l1', b, l2 with
    | [], (p, sp, true), (a, sz, _) :: l3 => (p, sp + HEADER + sz, true) :: l3
    | _, _, _ => b :: absorb_prev l1' l2
    end
  end.

Lemma absorb_prev_snoc l0 p sp fp a sz fr l2 :
  absorb_prev (l0 ++ [(p, sp, fp)]) ((a, sz, fr) :: l2) =
  if fp then l0 ++ (p, sp + HEADER + sz, true) :: l2 else (l0 ++ [(p, sp, fp)]) ++ (a, sz, fr) :: l2.
Proof.
  induction l0 as [|b l0 IH]; [by destruct fp|].
  assert (∃ c l, l0 ++ [(p, sp, fp)] = c :: l) as (c & l & E) by (destruct l0; simpl; eauto).
  transitivity (b :: absorb_prev (l0 ++ [(p, sp, fp)]) ((a, sz, fr) :: l2)); [by rewrite <- app_comm_cons, E|].
  rewrite IH. by destruct fp.
Qed.

Section release.
Context (h : heap) (Hinv : hinv h).

Lemma merge_next_wp m l1 a sz l2 :
  rep h m (l1 ++ (a, sz, true) :: l2) →
  wp (merge_next a) (λ _ h', ∃ m', h' = with_mem m' h ∧ rep h m' (l1 ++ absorb_next a sz l2) ∧
    only_headers (l1 ++ (a, sz, true) :: l2) m m') (with_mem m h).
Proof.
  intros Hr. pose proof (rep_at _ Hinv _ _ _ _ _ _ Hr) as (_ & ? & ? & ? & ? & ? & Hin).
  unfold merge_next. wp_step. eapply next_chunk; [done|exact Hr|].
  destruct l2 as [|[[b sb] fb] l2]; cbn [head_or].
  { cbn [Z.eqb]. wp_step. exists m. by split_and!. }
  assert (rep h m ((l1 ++ [(a, sz, true)]) ++ (b, sb, fb) :: l2)) as Hr2 by by rewrite <- app_assoc.
  pose proof (rep_at _ Hinv _ _ _ _ _ _ Hr2) as ((_ & _ & _ & Hnb) & ? & ? & ? & ? & ? & Hinb).
  rewrite (proj2 (Z.eqb_neq b 0)) by lia. wp_step. eapply free_chunk; [done|exact Hr2|].
  destruct fb; cbn [Z.b2z Z.eqb]; [|wp_step; exists m; by split_and!].
  pose proof (ordered_split _ _ _ _ _ _ _ (rp_order _ _ _ Hr)) as (_ & _ & _ & _ & _ & Hb2).
  destruct (Hb2 b sb true (list_elem_of_here _ _)) as (_ & Hab & _).
  wp_step. eapply fit_chunk; [done|exact Hr|]. wp_step. eapply fit_chunk; [done|exact Hr2|].
  assert (u32 (sz + u32 (HEADER + sb)) = sz + HEADER + sb) as ->
    by (rewrite (u32_small (HEADER + sb)), u32_small by heap_arith; lia).
  assert (in_heap h (chunk_size a)) as Hsa by (replace (chunk_size a) with (a + 0) by heap_arith; apply Hin; lia).
  wp_step. apply store32_wp; [done|apply Hr|done|heap_arith|].
  assert (inside h (upd (chunk_size a / 4) (sz + HEADER + sb) m)) as Hm1.
  { apply inside_upd; [apply Hr|]. destruct Hsa. lia. }
  wp_step. apply load32_wp; [done|done|apply Hinb; lia|heap_arith|]. rewrite upd_ne by heap_arith. rewrite Hnb.
  assert (in_heap h (chunk_next a)) as Hna by (apply Hin; lia).
  wp_step. apply store32_wp; [done|done|done|heap_arith|].
  destruct (rep_merge h Hinv m l1 a sz true b sb true l2 Hr) as [Hrep Hoh].
  destruct (Z.eqb_spec (head_or l2 0) 0) as [E|E].
  { wp_step. eexists. split; [done|]. by split. }
  destruct l2 as [|[[c sc] fc] l3]; [done|]. cbn [head_or] in *.
  assert (rep h m ((l1 ++ [(a, sz, true); (b, sb, true)]) ++ (c, sc, fc) :: l3)) as Hr3 by by rewrite <- app_assoc.
  pose proof (rep_at _ Hinv _ _ _ _ _ _ Hr3) as (_ & _ & ? & _ & _ & _ & Hinc).
  apply store32_wp; [done| |apply Hinc; lia|heap_arith|].
  { apply inside_upd; [done|]. destruct Hna. lia. }
  eexists. split; [done|]. by split.
Qed.

Lemma merge_prev_wp m l1 a sz l2 :
  rep h m (l1 ++ (a, sz, true) :: l2) →
  wp (merge_prev a) (λ _ h', ∃ m', h' = with_mem m' h ∧ rep h m' (absorb_prev l1 ((a, sz, true) :: l2)) ∧
    only_headers (l1 ++ (a, sz, true) :: l2) m m') (with_mem m h).
Proof.
  intros Hr. pose proof (rep_at _ Hinv _ _ _ _ _ _ Hr) as ((_ & _ & _ & Hna) & ? & ? & ? & ? & ? & Hin).
  unfold merge_prev. wp_step. eapply prev_chunk; [done|exact Hr|].
  destruct (exists_last_or l1) as [->|(l0 & [[p sp] fp] & ->)].
  { cbn [last_or Z.eqb]. wp_step. exists m. by split_and!. }
  rewrite last_or_app, absorb_prev_snoc. cbn [last_or].
  assert (rep h m (l0 ++ (p, sp, fp) :: (a, sz, true) :: l2)) as Hr2 by by rewrite <- app_assoc in Hr.
  pose proof (rep_at _ Hinv _ _ _ _ _ _ Hr2) as (_ & ? & ? & ? & ? & ? & Hinp).
  rewrite (proj2 (Z.eqb_neq p 0)) by lia. wp_step. eapply free_chunk; [done|exact Hr2|].
  destruct fp; cbn [Z.b2z Z.eqb]; [|wp_step; exists m; by split_and!].
  pose proof (ordered_split _ _ _ _ _ _ _ (rp_order _ _ _ Hr2)) as (_ & _ & _ & _ & _ & Hb2).
  destruct (Hb2 a sz true (list_elem_of_here _ _)) as (_ & Hab & _).
  wp_step. eapply fit_chunk; [done|exact Hr2|]. wp_step. eapply fit_chunk; [done|exact Hr|].
  assert (u32 (sp + u32 (HEADER + sz)) = sp + HEADER + sz) as ->
    by (rewrite (u32_small (HEADER + sz)), u32_small by heap_arith; lia).
  assert (in_heap h (chunk_size p)) as Hsp by (replace (chunk_size p) with (p + 0) by heap_arith; apply Hinp; lia).
  wp_step. apply store32_wp; [done|apply Hr|done|heap_arith|].
  assert (inside h (upd (chunk_size p / 4) (sp + HEADER + sz) m)) as Hm1.
  { apply inside_upd; [apply Hr|]. destruct Hsp. lia. }
  wp_step. apply load32_wp; [done|done|apply Hin; lia|heap_arith|]. rewrite upd_ne by heap_arith. rewrite Hna.
  assert (in_heap h (chunk_next p)) as Hnp by (apply Hinp; lia).
  wp_step. apply store32_wp; [done|done|done|heap_arith|].
  destruct (rep_merge h Hinv m l0 p sp true a sz true l2 Hr2) as [Hrep Hoh].
  rewrite <- app_assoc. cbn [app].
  destruct (Z.eqb_spec (head_or l2 0) 0) as [E|E].
  { wp_step. eexists. split; [done|]. by split. }
  destruct l2 as [|[[c sc] fc] l3]; [done|]. cbn [head_or] in *.
  assert (rep h m ((l0 ++ [(p, sp, true); (a, sz, true)]) ++ (c, sc, fc) :: l3)) as Hr3 by by rewrite <- app_assoc.
  pose proof (rep_at _ Hinv _ _ _ _ _ _ Hr3) as (_ & _ & ? & _ & _ & _ & Hinc).
  apply store32_wp; [done| |apply Hinc; lia|heap_arith|].
  { apply inside_upd; [done|]. destruct Hnp. lia. }
  eexists. split; [done|]. by split.
Qed.
End release.

(** The chunks in use. *)
Definition in_use (l : list block) (a sz : Z) : Prop := (a, sz, false) ∈ l.

Lemma absorb_next_in_use a sz l2 b sb : in_use (absorb_next a sz l2) b sb ↔ in_use l2 b sb.
Proof.
  unfold in_use. destruct l2 as [|[[c sc] [|]] l2]; cbn [absorb_next]; rewrite !elem_of_cons; naive_solver.
Qed.
Lemma absorb_prev_in_use l1 a sz l2 b sb :
  in_use (absorb_prev l1 ((a, sz, true) :: l2)) b sb ↔ in_use (l1 ++ (a, sz, true) :: l2) b sb.
Proof.
  unfold in_use. destruct (exists_last_or l1) as [->|(l0 & [[p sp] [|]] & ->)]; [done| |by rewrite absorb_prev_snoc].
  rewrite absorb_prev_snoc, !elem_of_app, !elem_of_cons. set_solver.
Qed.

Definition free_post (h : heap) (l1 : list block) (a sz : Z) (l2 : list block) (h' : heap) : Prop :=
  same_globals h h' ∧ frames (mach h') = frames (mach h) ∧
  repr h' (absorb_prev l1 (absorb_next a sz l2)) ∧ payload_kept (l1 ++ (a, sz, false) :: l2) h h'.

Lemma free_wp h l1 a sz l2 :
  repr h (l1 ++ (a, sz, false) :: l2) → wp (free (a + HEADER)) (λ _ h', free_post h l1 a sz l2 h') h.
Proof.
  intros Hr. pose proof (re_inv _ _ Hr) as Hinv. pose proof (repr_rep _ _ Hr) as Hp.
  pose proof (rep_at _ Hinv _ _ _ _ _ _ Hp) as (_ & ? & ? & ? & ? & ? & Hin).
  unfold free. rewrite (proj2 (Z.eqb_neq _ 0)) by heap_arith.
  replace (u32 (a + HEADER - HEADER)) with a by (rewrite u32_small; heap_arith).
  wp_step. rewrite <- (with_mem_id h) at 1. apply store32_wp; [done|done|apply Hin; lia|heap_arith|].
  set (l := l1 ++ (a, sz, false) :: l2) in *.
  pose proof (rep_set_free h Hinv _ _ _ _ false true _ Hp) as Hp1.
  assert (only_headers l (mem (mach h)) (upd (chunk_free a / 4) (Z.b2z true) (mem (mach h)))) as Ho1.
  { eapply (only_headers_upd _ _ _ _ a sz false); [set_solver|heap_arith]. }
  set (m1 := upd _ _ _) in *. change (upd (chunk_free a / 4) 1 (mem (mach h))) with m1.
  assert (∀ m m', only_headers (l1 ++ (a, sz, true) :: l2) m m' → only_headers l m m') as Hl.
  { intros m m'. apply only_headers_weaken. unfold l. by rewrite !fmap_app, !fmap_cons. }
  wp_step. eapply wp_mono; [by apply (merge_next_wp h Hinv m1)|]. cbn beta. intros _ ? (m2 & -> & Hp2 & Ho2%Hl).
  assert (∃ sz' l3, absorb_next a sz l2 = (a, sz', true) :: l3 ∧ l3.*1.*1 ⊆ l2.*1.*1) as (sz' & l3 & E & Hsub).
  { destruct l2 as [|[[b sb] [|]] l2]; cbn [absorb_next]; do 2 eexists; (split; [done|]); set_solver. }
  rewrite E in Hp2. eapply wp_mono; [by apply (merge_prev_wp h Hinv m2)|]. cbn beta.
  intros _ ? (m3 & -> & Hp3 & Ho3). split_and!; [done|done|rewrite E; by apply rep_repr|].
  rewrite <- (with_mem_id h) at 1. apply only_headers_kept; [by rewrite with_mem_id|].
  eapply only_headers_trans; [exact Ho1|]. eapply only_headers_trans; [exact Ho2|].
  eapply only_headers_weaken; [|exact Ho3]. unfold l. rewrite !fmap_app, !fmap_cons. set_solver.
Qed.

(** What a successful allocation gives, whatever chunk was chosen: a chunk that
    was not in use, the other chunks in use being those of before. *)
Definition allocated (l : list block) (size r : Z) (l' : list block) : Prop :=
  ∃ sz, size ≤ sz ∧ in_use l' (r - HEADER) sz ∧
  ∀ b sb, in_use l b sb ↔ in_use l' b sb ∧ b ≠ r - HEADER.

Lemma malloc_allocated h l size r h' :
  repr h l → malloc_post h l size r h' →
  (r = 0 ∧ repr h' l) ∨ (r ≠ 0 ∧ ∃ l', repr h' l' ∧ allocated l size r l').
Proof.
  intros Hr (_ & _ & _ & Hpost). pose proof (re_order _ _ Hr) as Ho.
  destruct (re_inv _ _ Hr) as [[? ?] (? & ? & ?) _ _ _ _ _].
  destruct (first_fit size l) as [[[[l1 a] sz] l2]|] eqn:E.
  - destruct Hpost as (-> & _ & Hr'). apply first_fit_Some in E as [-> Hs].
    apply ordered_split in Ho as (? & ? & ? & ? & Hb1 & Hb2). right. split; [heap_arith|].
    eexists. split; [exact Hr'|]. exists sz. replace (a + HEADER - HEADER) with a by lia. unfold in_use.
    split_and!; [done|set_solver|]. intros b sb. split.
    + intros [Hb|[?|Hb]%elem_of_cons]%elem_of_app; [|done|]; (split; [set_solver|]).
      * apply Hb1 in Hb. heap_arith.
      * apply Hb2 in Hb. heap_arith.
    + intros [[Hb|[?|Hb]%elem_of_cons]%elem_of_app Hne]; [set_solver|congruence|set_solver].
  - destruct Hpost as [(-> & _ & Hr')|(-> & _ & _ & Hr')]; [right|by left]. split; [heap_arith|].
    eexists. split; [exact Hr'|]. exists size. replace (heap_end_addr h + HEADER - HEADER) with (heap_end_addr h) by lia.
    unfold in_use. split_and!; [done|set_solver|]. intros b sb. split.
    + intros Hb. split; [set_solver|]. apply (ordered_bounds _ _ _ _ _ _ Ho) in Hb. heap_arith.
    + intros [[Hb|[= -> ->]%list_elem_of_singleton]%elem_of_app Hne]; done.
Qed.

(** Stores into the payload of one chunk. *)
Definition payload_word (a sz j : Z) : Prop := a + HEADER < 4 * j + 4 ∧ 4 * j < a + HEADER + sz.

Lemma rep_payload h m m' l a sz fr :
  rep h m l → inside h m' → (a, sz, fr) ∈ l → (∀ j, ¬ payload_word a sz j → m' j = m j) →
  rep h m' l ∧ ∀ b sb fb x, (b, sb, fb) ∈ l → b ≠ a → b + HEADER ≤ x < b + HEADER + sb → byte m' x = byte m x.
Proof.
  intros [_ Hs Ho Hb] Hm Hin Hw.
  assert (∀ b sb fb, (b, sb, fb) ∈ l → b mod 4096 = 0 ∧ 0 ≤ sb ∧ a mod 4096 = 0 ∧
            (b = a ∧ sb = sz ∨ b + HEADER + sb ≤ a ∨ a + HEADER + sz ≤ b)) as Hsep.
  { intros b sb fb Hb'. apply list_elem_of_split in Hin as (l1 & l2 & ->).
    apply ordered_split in Ho as (? & ? & ? & ? & Hb1 & Hb2).
    apply elem_of_app in Hb' as [Hb'|[[= -> -> _]|Hb']%elem_of_cons]; [apply Hb1 in Hb'|lia|apply Hb2 in Hb']; lia. }
  split; [split; [done| |done|done]|].
  - eapply seg_frame; [| |exact Hs].
    + intros b sb fb Hb'. apply Hsep in Hb'. lia.
    + intros b sb fb j Hb' Hj. apply Hsep in Hb'. apply Hw. unfold payload_word. heap_arith.
  - intros b sb fb x Hb' Hne Hx. apply Hsep in Hb'. unfold byte. rewrite Hw; [done|]. unfold payload_word. heap_arith.
Qed.

(** ** Theorems *)

Lemma allocated_disjoint h l size r l' :
  repr h l' → allocated l size r l' → 0 ≤ size →
  heap_start_addr h + HEADER ≤ r ∧ r + size ≤ heap_end_addr h ∧
  ∀ b sb, in_use l b sb → r + size ≤ b ∨ b + HEADER + sb ≤ r - HEADER.
Proof.
  intros Hr (sz & Hs & Hin & Hiff) H0. pose proof (re_order _ _ Hr) as Ho. unfold in_use in *.
  pose proof (ordered_bounds _ _ _ _ _ _ Ho Hin). split_and!; [lia|lia|]. intros b sb Hb.
  apply Hiff in Hb as [Hb Hne]. apply list_elem_of_split in Hin as (l1 & l2 & ->).
  apply ordered_split in Ho as (? & ? & ? & ? & Hb1 & Hb2).
  apply elem_of_app in Hb as [Hb|[[= -> ->]|Hb]%elem_of_cons]; [apply Hb1 in Hb|done|apply Hb2 in Hb]; heap_arith.
Qed.

Lemma repr_chunk h l a sz fr : repr h l → (a, sz, fr) ∈ l →
  ∃ l1 l2, l = l1 ++ (a, sz, fr) :: l2 ∧ 0 < a ∧ a mod 4096 = 0 ∧ 0 ≤ sz ∧
    heap_start_addr h ≤ a ∧ a + HEADER + sz ≤ heap_end_addr h ∧ heap_end_addr h < 2 ^ 32 ∧
    (∀ x, a ≤ x < a + HEADER + sz → in_heap h x).
Proof.
  intros Hr (l1 & l2 & ->)%list_elem_of_split. exists l1, l2. pose proof (re_inv _ _ Hr) as Hinv.
  destruct Hinv as [[? ?] (? & ? & ?) _ _ [_ ?] _ _].
  pose proof (ordered_split _ _ _ _ _ _ _ (re_order _ _ Hr)) as (? & ? & ? & ? & _).
  split_and!; try done; try lia. intros x Hx. heap_arith.
Qed.

(** The chunks in use after a release. *)
Lemma free_in_use h l1 a sz l2 b sb :
  repr h (l1 ++ (a, sz, false) :: l2) →
  in_use (absorb_prev l1 (absorb_next a sz l2)) b sb ↔ in_use (l1 ++ (a, sz, false) :: l2) b sb ∧ b ≠ a.
Proof.
  intros Hr.
  assert (in_use (absorb_prev l1 (absorb_next a sz l2)) b sb ↔ in_use (l1 ++ l2) b sb) as ->.
  { assert (∃ sz' l3, absorb_next a sz l2 = (a, sz', true) :: l3) as (sz' & l3 & E)
      by (destruct l2 as [|[[c sc] [|]] l2]; cbn [absorb_next]; eauto).
    rewrite E, absorb_prev_in_use, <- E. pose proof (absorb_next_in_use a sz l2 b sb) as Hn.
    unfold in_use in *. rewrite !elem_of_app, Hn. done. }
  pose proof (ordered_split _ _ _ _ _ _ _ (re_order _ _ Hr)) as (_ & _ & ? & _ & Hb1 & Hb2).
  unfold in_use. rewrite !elem_of_app, elem_of_cons. split.
  - intros [Hb|Hb]; (split; [tauto|]); [apply Hb1 in Hb|apply Hb2 in Hb]; heap_arith.
  - intros [[Hb|[[= -> ->]|Hb]] Hne]; [by left|done|by right].
Qed.

Lemma free_used_wp h l a sz :
  repr h l → in_use l a sz →
  wp (free (a + HEADER)) (λ _ h', payload_kept l h h' ∧ same_globals h h' ∧ ∃ l', repr h' l' ∧
    ∀ b sb, in_use l' b sb ↔ in_use l b sb ∧ b ≠ a) h.
Proof.
  intros Hr Hin. destruct (repr_chunk _ _ _ _ _ Hr Hin) as (l1 & l2 & -> & _).
  eapply wp_mono; [by apply free_wp|]. cbn beta. intros _ h' (Hg & _ & Hr' & Hk).
  split; [done|]. split; [done|]. eexists. split; [done|]. intros b sb. by apply (free_in_use h).
Qed.

(** C8: [malloc] takes the first free chunk that is large enough, or appends a
    chunk on fresh pages, and fails exactly when the region has no room for
    them; it then leaves the chunks as they were.  The returned block lies in
    the heap, apart from every block in use, and nothing else changes: the other
    chunks, their payloads and the rest of the list. *)
Theorem malloc_correct h l size :
  repr h l → 0 ≤ size → size + HEADER + PAGE_SIZE ≤ 2 ^ 32 →
  wp (malloc size) (λ r h',
    (size = 0 ∧ r = 0 ∧ h' = h) ∨
    (0 < size ∧ malloc_post h l size r h' ∧
      (r = 0 ∧ repr h' l ∨
       r ≠ 0 ∧ (∃ l', repr h' l' ∧ allocated l size r l') ∧
       heap_start_addr h' + HEADER ≤ r ∧ r + size ≤ heap_end_addr h' ∧
       ∀ b sb, in_use l b sb → r + size ≤ b ∨ b + HEADER + sb ≤ r - HEADER))) h.
Proof.
  intros Hr H0 Hbig. destruct (decide (size = 0)) as [->|Hne].
  { unfold malloc. cbn [Z.eqb]. wp_step. by left. }
  eapply wp_mono; [apply (malloc_wp h l size Hr); lia|]. cbn beta. intros r h' Hpost. right. split_and!; [lia|done|].
  destruct (malloc_allocated _ _ _ _ _ Hr Hpost) as [?|(Hr0 & l' & Hr' & Ha)]; [by left|right].
  split_and!; [done|by eauto|by eapply (allocated_disjoint h' l size r l' Hr' Ha)..].
Qed.

(** C9: [free] of a chunk in use joins it with its free neighbours, on both
    sides, and the chunks in use are exactly the others, with their payloads. *)
Theorem free_correct h l1 a sz l2 :
  let l := l1 ++ (a, sz, false) :: l2 in
  repr h l →
  wp (free (a + HEADER)) (λ _ h', ∃ l',
    l' = absorb_prev l1 (absorb_next a sz l2) ∧ repr h' l' ∧ same_globals h h' ∧
    frames (mach h') = frames (mach h) ∧ payload_kept l h h' ∧
    ∀ b sb, in_use l' b sb ↔ in_use l b sb ∧ b ≠ a) h.
Proof.
  intros l Hr. eapply wp_mono; [by apply free_wp|]. cbn beta. intros _ h' (Hg & Hf & Hr' & Hk).
  eexists. split_and!; [done..|]. intros b sb. by apply (free_in_use h).
Qed.

(** A block filled by its owner. *)
Lemma repr_filled h l a sz x n f m' :
  repr h l → in_use l a sz → a + HEADER ≤ x → x + Z.of_nat n ≤ a + HEADER + sz →
  inside h m' → filled (mem (mach h)) x n f m' →
  repr (with_mem m' h) l ∧
  ∀ b sb fb y, (b, sb, fb) ∈ l → b ≠ a → b + HEADER ≤ y < b + HEADER + sb →
    byte_of (with_mem m' h) y = byte_of h y.
Proof.
  intros Hr Hin Hx Hn Hm [_ Hw].
  destruct (rep_payload h (mem (mach h)) m' l a sz false (repr_rep _ _ Hr) Hm Hin) as [Hr' Hk].
  - intros j Hj. apply Hw. unfold payload_word in Hj. lia.
  - split; [apply rep_repr; [apply Hr|done]|exact Hk].
Qed.

(** [calloc] refuses a product that does not fit the size type without
    touching the heap; otherwise it allocates as [malloc] does and every byte of
    the block is zero. *)
Theorem calloc_correct h l nmemb size :
  repr h l → 0 ≤ nmemb < 2 ^ 32 → 0 ≤ size < 2 ^ 32 →
  (nmemb * size = 0 ∨ 2 ^ 32 ≤ nmemb * size → calloc nmemb size h = Some (0, h)) ∧
  (0 < nmemb * size → nmemb * size + HEADER + PAGE_SIZE ≤ 2 ^ 32 →
   wp (calloc nmemb size) (λ r h',
     (r = 0 ∧ repr h' l ∧ payload_kept l h h') ∨
     (r ≠ 0 ∧ (∃ l', repr h' l' ∧ allocated l (nmemb * size) r l') ∧
      (∀ x, r ≤ x < r + nmemb * size → byte_of h' x = 0) ∧
      payload_kept (filter (λ b, b.2 = false) l) h h')) h).
Proof.
  intros Hr Hn Hs. unfold calloc, SIZE_MAX. split.
  - intros Hz. destruct (Z.eqb_spec nmemb 0); [done|]. destruct (Z.eqb_spec size 0); [done|]. cbn [orb].
    rewrite (proj2 (Z.ltb_lt _ _)); [done|]. apply Z.div_lt_upper_bound; lia.
  - intros H0 Hbig. rewrite (proj2 (Z.eqb_neq nmemb 0)), (proj2 (Z.eqb_neq size 0)) by lia. cbn [orb].
    change HEADER with 16 in Hbig. change PAGE_SIZE with 4096 in Hbig.
    rewrite (proj2 (Z.ltb_ge _ _)) by (apply Z.div_le_lower_bound; lia).
    rewrite (u32_small (nmemb * size)) by lia. set (total := nmemb * size) in *.
    wp_step. eapply wp_mono; [by apply (malloc_wp h l total)|]. cbn beta. intros r h1 Hpost.
    destruct (malloc_allocated _ _ _ _ _ Hr Hpost) as [[-> Hr1]|(Hr0 & l' & Hr1 & Ha)].
    { cbn [Z.eqb]. wp_step. left. split_and!; [done|done|apply Hpost]. }
    rewrite (proj2 (Z.eqb_neq r 0)) by done. destruct Ha as (sz & Hsz & Hin & Hiff) eqn:Ea. clear Ea.
    destruct (repr_chunk _ _ _ _ _ Hr1 Hin) as (_ & _ & _ & ? & ? & ? & ? & ? & ? & Hh).
    wp_step. rewrite <- (with_mem_id h1) at 1. apply memset_wp; [apply Hr1|lia|done| |].
    { intros x Hx. apply Hh. unfold HEADER. lia. }
    intros m' Hm' Hf. wp_step. right. split; [done|].
    destruct (repr_filled h1 l' (r - HEADER) sz r (Z.to_nat total) (λ _, 0) m' Hr1 Hin) as [Hr2 Hk]; [lia|lia|done|done|].
    split_and!; [exists l'; split; [done|by exists sz]| |].
    + intros x Hx. destruct Hf as [Hf _]. unfold byte_of, byte_at. cbn. change (byte m' x = 0). rewrite Hf.
      by rewrite decide_True by lia.
    + intros b sb fb x [Hbf Hb]%list_elem_of_filter Hx. cbn in Hbf. subst fb.
      destruct (proj1 (Hiff b sb) Hb) as [Hb' Hne]. rewrite (Hk b sb false x Hb' Hne Hx).
      by apply (proj1 Hpost b sb false).
Qed.

(** [realloc] of a chunk in use to a size that fits keeps it; to a larger
    size it moves the block: the old bytes are at the new place, the old chunk
    is released, and every other block in use keeps its place and its bytes.
    When there is no memory it fails and the old block is as it was. *)
Theorem realloc_correct h l a sz new_size :
  repr h l → in_use l a sz → 0 < new_size → new_size + HEADER + PAGE_SIZE ≤ 2 ^ 32 →
  (new_size ≤ sz → realloc (a + HEADER) new_size h = Some (a + HEADER, h)) ∧
  (sz < new_size → wp (realloc (a + HEADER) new_size) (λ r h',
     (r = 0 ∧ repr h' l ∧ payload_kept l h h') ∨
     (r ≠ 0 ∧ ∃ l' nsz, repr h' l' ∧ new_size ≤ nsz ∧ in_use l' (r - HEADER) nsz ∧
      (∀ b sb, in_use l' b sb ∧ b ≠ r - HEADER ↔ in_use l b sb ∧ b ≠ a) ∧
      (∀ x, 0 ≤ x < sz → byte_of h' (r + x) = byte_of h (a + HEADER + x)) ∧
      (∀ b sb x, in_use l b sb → b ≠ a → b + HEADER ≤ x < b + HEADER + sb → byte_of h' x = byte_of h x))) h).
Proof.
  intros Hr Hin Hn Hbig. destruct (repr_chunk _ _ _ _ _ Hr Hin) as (l1 & l2 & El & ? & ? & ? & ? & ? & ? & Hh).
  assert (∀ Q, Q sz h → wp (load32 (chunk_size (u32 (a + HEADER - HEADER)))) Q h) as Hload.
  { intros Q HQ. replace (u32 (a + HEADER - HEADER)) with a by (rewrite u32_small; heap_arith).
    rewrite <- (with_mem_id h). apply (fit_chunk h (re_inv _ _ Hr) (mem (mach h)) l1 a sz false l2).
    - pose proof (repr_rep _ _ Hr) as Hp. rewrite El in Hp. exact Hp.
    - by rewrite with_mem_id. }
  unfold realloc. rewrite (proj2 (Z.eqb_neq (a + HEADER) 0)), (proj2 (Z.eqb_neq new_size 0)) by heap_arith.
  split; intros Hsz.
  - destruct (proj1 (wp_run _ _ _) (Hload (λ r h', r = sz ∧ h' = h) ltac:(done))) as (r & h' & E & -> & ->).
    erewrite bind_run by exact E. by rewrite (proj2 (Z.leb_le _ _)) by lia.
  - wp_step. apply Hload. rewrite (proj2 (Z.leb_gt _ _)) by lia. wp_step.
    eapply wp_mono; [by apply (malloc_wp h l new_size)|]. cbn beta. intros r h1 Hpost.
    destruct (malloc_allocated _ _ _ _ _ Hr Hpost) as [[-> Hr1]|(Hr0 & l' & Hr1 & Ha)].
    { cbn [Z.eqb]. wp_step. left. split_and!; [done|done|apply Hpost]. }
    rewrite (proj2 (Z.eqb_neq r 0)) by done.
    destruct (allocated_disjoint h1 l new_size r l' Hr1 Ha ltac:(lia)) as (? & ? & Hdis).
    destruct Ha as (nsz & Hnsz & Hinr & Hiff). destruct (proj1 (Hiff a sz) Hin) as [Hina Hne].
    destruct (repr_chunk _ _ _ _ _ Hr1 Hinr) as (_ & _ & _ & ? & ? & ? & ? & ? & ? & Hhr).
    destruct (repr_chunk _ _ _ _ _ Hr1 Hina) as (_ & _ & _ & _ & _ & _ & _ & _ & _ & Hha).
    specialize (Hdis a sz Hin).
    wp_step. rewrite <- (with_mem_id h1) at 1. apply memcpy_wp; [apply Hr1|done| | |].
    { intros x Hx. split; [apply Hhr|apply Hha]; heap_arith. }
    { heap_arith. }
    intros m' Hm' Hf. set (f := λ x, byte (mem (mach h1)) (a + HEADER + (x - r))) in *.
    destruct (repr_filled h1 l' (r - HEADER) nsz r (Z.to_nat sz) f m' Hr1 Hinr) as [Hr2 Hk]; [lia|lia|done|done|].
    wp_step. eapply wp_mono; [by apply (free_used_wp _ l' a sz)|]. cbn beta.
    intros _ h3 (Hk3 & _ & l3 & Hr3 & Hiff3). wp_step. right. split; [done|]. exists l3, nsz.
    split_and!; [done|done|apply Hiff3; split; [done|congruence]| | |].
    + intros b sb. rewrite Hiff3, Hiff. tauto.
    + intros x Hx. rewrite (Hk3 (r - HEADER) nsz false) by (done || lia). destruct Hf as [Hf _].
      change (byte m' (r + x) = byte_of h (a + HEADER + x)). rewrite Hf, decide_True by lia. unfold f.
      replace (r + x - r) with x by lia. by rewrite <- (proj1 Hpost a sz false) by (done || lia).
    + intros b sb x Hb Hba Hx. destruct (proj1 (Hiff b sb) Hb) as [Hb' Hbr].
      rewrite (Hk3 b sb false), (Hk b sb false) by done. by apply (proj1 Hpost b sb false).
Qed.

Lemma align_up_pow2 v k : 0 ≤ k < 32 → 0 ≤ v → v + 2 ^ k ≤ 2 ^ 32 →
  align_up v (2 ^ k) = (v + 2 ^ k - 1) / 2 ^ k * 2 ^ k.
Proof.
  intros Hk Hv Hb. assert (0 < 2 ^ k) by (apply Z.pow_pos_nonneg; lia). unfold align_up.
  rewrite (u32_small (2 ^ k - 1)) by lia. rewrite not32_ones by lia. rewrite u32_small by lia.
  rewrite land_high_mask by lia. by replace (v + (2 ^ k - 1)) with (v + 2 ^ k - 1) by lia.
Qed.

Lemma pow2_check k : 0 ≤ k → Z.land (2 ^ k) (2 ^ k - 1) = 0.
Proof.
  intros Hk. replace (2 ^ k - 1) with (Z.ones k) by (rewrite Z.ones_equiv; lia). apply Z.bits_inj'. intros n Hn. rewrite Z.land_spec, Z.bits_0.
  rewrite Z.pow2_bits_eqb by lia. destruct (Z.eqb_spec k n) as [->|]; [|done]. by rewrite Z.ones_spec_high by lia.
Qed.

(** The address that [malloc_align] returns for a block at [raw]. *)
Lemma aligned_bounds raw k : 0 ≤ k < 32 → 0 < raw → raw mod 16 = 0 → raw + 4 + 2 ^ k ≤ 2 ^ 32 →
  let r := align_up (u32 (raw + 4)) (2 ^ k) in
  r mod 2 ^ k = 0 ∧ raw + 4 ≤ r ≤ raw + 3 + 2 ^ k ∧ r mod 4 = 0.
Proof.
  intros Hk Hr Hm Hb. assert (0 < 2 ^ k) by (apply Z.pow_pos_nonneg; lia).
  rewrite (u32_small (raw + 4)) by lia. rewrite align_up_pow2 by lia. cbn zeta.
  pose proof (Z.div_mod (raw + 4 + 2 ^ k - 1) (2 ^ k) ltac:(lia)) as E.
  pose proof (Z.mod_pos_bound (raw + 4 + 2 ^ k - 1) (2 ^ k) ltac:(lia)).
  set (q := (raw + 4 + 2 ^ k - 1) / 2 ^ k) in *. split_and!; [by apply Z.mod_mul; lia|lia|lia|].
  destruct (decide (k < 2)) as [Hk2|Hk2].
  - assert (k = 0 ∨ k = 1) as [->| ->] by lia; [change (2 ^ 0) with 1 in *|change (2 ^ 1) with 2 in *]; lia.
  - replace (2 ^ k) with (2 ^ (k - 2) * 4) by (change 4 with (2 ^ 2); rewrite <- Z.pow_add_r by lia; f_equal; lia).
    rewrite Z.mul_assoc. by apply Z.mod_mul.
Qed.

(** [malloc_align] with a power of two returns an aligned block of at least
    [size] bytes inside a chunk that was not in use, and [free_align] of that
    address releases that chunk: the chunks in use are again those of before,
    and their payloads never change. *)
Theorem malloc_align_roundtrip h l size k :
  repr h l → 0 < size → 0 ≤ k < 32 → size + 2 ^ k + 3 + HEADER + PAGE_SIZE ≤ 2 ^ 32 →
  wp (malloc_align size (2 ^ k)) (λ r h',
    (r = 0 ∧ repr h' l) ∨
    (r ≠ 0 ∧ r mod 2 ^ k = 0 ∧ ∃ l' raw nsz, repr h' l' ∧ in_use l' raw nsz ∧
      (∀ b sb, in_use l b sb ↔ in_use l' b sb ∧ b ≠ raw) ∧
      raw + HEADER < r ∧ r + size ≤ raw + HEADER + nsz ∧
      wp (free_align r) (λ rc h'', rc = ERR_SUCCESS ∧
        (∃ l'', repr h'' l'' ∧ ∀ b sb, in_use l'' b sb ↔ in_use l b sb) ∧
        ∀ b sb x, in_use l b sb → b + HEADER ≤ x < b + HEADER + sb → byte_of h'' x = byte_of h x) h')) h.
Proof.
  intros Hr Hs Hk Hbig. assert (0 < 2 ^ k) by (apply Z.pow_pos_nonneg; lia).
  change HEADER with 16 in Hbig. change PAGE_SIZE with 4096 in Hbig.
  unfold malloc_align. rewrite (proj2 (Z.eqb_neq (2 ^ k) 0)) by lia. rewrite (u32_small (2 ^ k - 1)) by lia.
  rewrite pow2_check by lia. cbn [Z.eqb negb orb]. rewrite u32_small by lia.
  wp_step. eapply wp_mono; [apply (malloc_wp h l); [done|lia|]|].
  { change HEADER with 16. change PAGE_SIZE with 4096. lia. }
  cbn beta. intros p h1 Hpost.
  destruct (malloc_allocated _ _ _ _ _ Hr Hpost) as [[-> Hr1]|(Hp0 & l' & Hr1 & nsz & Hnsz & Hin & Hiff)].
  { cbn [Z.eqb]. wp_step. by left. }
  rewrite (proj2 (Z.eqb_neq p 0)) by done.
  destruct (repr_chunk _ _ _ _ _ Hr1 Hin) as (_ & _ & _ & ? & ? & ? & ? & ? & Htop & Hh).
  change HEADER with 16 in *.
  destruct (aligned_bounds p k) as (Hra & Hrb & Hr4); [lia|lia|lia|lia|].
  set (r := align_up (u32 (p + 4)) (2 ^ k)) in *.
  replace (u32 (r - 4)) with (r - 4) by (rewrite u32_small; lia).
  assert (in_heap h1 (r - 4)) as Hinr by (apply Hh; lia).
  wp_step. rewrite <- (with_mem_id h1) at 1. apply store32_wp; [apply Hr1|done|done|lia|].
  set (m' := upd _ _ _). assert (inside h1 m') as Hm' by (apply inside_upd; [done|destruct Hinr; lia]).
  destruct (rep_payload h1 (mem (mach h1)) m' l' (p - 16) nsz false (repr_rep _ _ Hr1) Hm' Hin) as [Hr2 Hkp].
  { intros j Hj. apply upd_ne. unfold payload_word in Hj. change HEADER with 16 in Hj. lia. }
  wp_step. right. split; [lia|]. split; [done|]. exists l', (p - 16), nsz.
  split_and!; [apply rep_repr; [apply Hr1|done]|done|done|lia|lia|].
  unfold free_align. rewrite (proj2 (Z.eqb_neq r 0)) by lia.
  replace (u32 (r - 4)) with (r - 4) by (rewrite u32_small; lia).
  wp_step. apply load32_wp; [apply Hr1|done|done|lia|]. unfold m' at 1. rewrite upd_eq by done.
  wp_step. pose proof (free_used_wp (with_mem m' h1) l' (p - 16) nsz (rep_repr _ _ _ (re_inv _ _ Hr1) Hr2) Hin) as Hfree.
  change HEADER with 16 in Hfree. replace (p - 16 + 16) with p in Hfree by lia.
  eapply wp_mono; [exact Hfree|]. cbn beta. intros _ h3 (Hk3 & _ & l3 & Hr3 & Hiff3). wp_step.
  split_and!; [done| |].
  - exists l3. split; [done|]. intros b sb. rewrite Hiff3, Hiff. done.
  - intros b sb x Hb Hx. destruct (proj1 (Hiff b sb) Hb) as [Hb' Hne].
    rewrite (Hk3 b sb false) by done. change (byte m' x = byte_of h x). rewrite (Hkp b sb false) by done.
    by apply (proj1 Hpost b sb false).
Qed.

(** ** Initialisation and a concrete heap *)

(** [heap_init] on a region of whole pages of the machine, which the tables map
    to itself, gives the empty list. *)
Lemma heap_init_repr h start max :
  0 < start → start mod 4096 = 0 → start ≤ max → max < 2 ^ 32 - 4096 →
  wf (frames (mach h)) → max ≤ 4096 * total_frames_count (frames (mach h)) → reach (mach h) start max →
  wp (heap_init start max 0) (λ _ h', repr h' [] ∧ heap_end_addr h' = start) h.
Proof.
  intros. apply wp_modify. split; [|done]. split; [|done|cbn; lia|done]. split; cbn; try done; lia.
Qed.

(** Three chunks on the pages 34 to 36 of a machine of 40 pages, paging off; the
    second is free, and there is room for one more page. *)
Definition ex_pmm_heap : pmm := mk_pmm [0xFFFFFFFF; 0xFFFFFF1F] 40 61.
Definition ex_heap_mem (j : Z) : Z :=
  if j =? 0x8800 then 100 else if j =? 0x8803 then 0x23000 else
  if j =? 0x8C00 then 50 else if j =? 0x8C01 then 1 else if j =? 0x8C02 then 0x22000 else if j =? 0x8C03 then 0x24000 else
  if j =? 0x9000 then 8 else if j =? 0x9002 then 0x23000 else 0.
Definition ex_heap : heap :=
  mk_heap 0x22000 0x22000 0x25000 0x26000 0 (mk_machine ex_heap_mem ex_pmm_heap 0 0 0 false None 0).
Definition ex_blocks : list block := [(0x22000, 100, false); (0x23000, 50, true); (0x24000, 8, false)].

Lemma ex_heap_repr : repr ex_heap ex_blocks.
Proof.
  split; [split|..]; try done.
  - split; [split|]; by_eval.
  - intros k Hk. cbn in Hk. assert (k = 34 ∨ k = 35 ∨ k = 36)%nat as [->|[->| ->]] by lia; by_eval.
Qed.

Lemma ex_big size : 0 < size ≤ 0x10000 → size + HEADER + PAGE_SIZE ≤ 2 ^ 32.
Proof. change HEADER with 16. change PAGE_SIZE with 4096. lia. Qed.

Lemma malloc_correct_witness :
  wp (malloc 60) (λ r h', r = 0x25010 ∧ ∀ sz, in_use ex_blocks 0x24000 sz → r + 60 ≤ 0x24000 ∨ 0x24010 + sz ≤ r - 16) ex_heap.
Proof.
  eapply wp_mono; [apply (malloc_correct ex_heap ex_blocks 60); [exact ex_heap_repr|lia|apply ex_big; lia]|].
  intros r h' [(? & _)|(_ & (_ & _ & _ & [(-> & _)|(_ & ? & _)]) & [(? & _)|(_ & _ & _ & _ & Hd)])]; try done.
  split; [done|]. intros sz Hs. by apply (Hd 0x24000 sz).
Defined.

Lemma free_correct_witness :
  wp (free (0x22000 + HEADER)) (λ _ h', repr h' [(0x22000, 166, true); (0x24000, 8, false)]) ex_heap.
Proof.
  eapply wp_mono; [apply (free_correct ex_heap [] 0x22000 100 [(0x23000, 50, true); (0x24000, 8, false)]); exact ex_heap_repr|].
  intros _ h' (l' & -> & Hr & _). exact Hr.
Defined.

Lemma calloc_correct_witness :
  calloc 0x10000 0x10000 ex_heap = Some (0, ex_heap) ∧
  wp (calloc 3 10) (λ r h', r = 0 ∨ ∀ x, r ≤ x < r + 30 → byte_of h' x = 0) ex_heap.
Proof.
  split; [refine (proj1 (calloc_correct ex_heap ex_blocks 0x10000 0x10000 ex_heap_repr _ _) _); lia|].
  refine (wp_mono _ _ _ _ (proj2 (calloc_correct ex_heap ex_blocks 3 10 ex_heap_repr _ _) _ _) _); [lia|lia|lia|apply ex_big; lia|].
  intros r h' [(-> & _)|(_ & _ & Hz & _)]; [by left|by right].
Defined.

Lemma realloc_correct_witness :
  realloc (0x22000 + HEADER) 90 ex_heap = Some (0x22000 + HEADER, ex_heap) ∧
  wp (realloc (0x22000 + HEADER) 200) (λ r h', r = 0 ∨ ∀ x, 0 ≤ x < 100 → byte_of h' (r + x) = byte_of ex_heap (0x22010 + x)) ex_heap.
Proof.
  assert (in_use ex_blocks 0x22000 100) as Hin by apply list_elem_of_here.
  split.
  - refine (proj1 (realloc_correct ex_heap ex_blocks 0x22000 100 90 ex_heap_repr Hin _ _) _); [lia|apply ex_big; lia|lia].
  - refine (wp_mono _ _ _ _ (proj2 (realloc_correct ex_heap ex_blocks 0x22000 100 200 ex_heap_repr Hin _ _) _) _);
      [lia|apply ex_big; lia|lia|].
    intros r h' [(-> & _)|(_ & l' & nsz & _ & _ & _ & _ & Hb & _)]; [by left|by right].
Defined.

Lemma malloc_align_roundtrip_witness :
  wp (malloc_align 40 (2 ^ 8)) (λ r h', r = 0 ∨ (r mod 256 = 0 ∧ wp (free_align r) (λ rc _, rc = ERR_SUCCESS) h')) ex_heap.
Proof.
  eapply wp_mono.
  - apply (malloc_align_roundtrip ex_heap ex_blocks 40 8); [exact ex_heap_repr|lia|lia|].
    change HEADER with 16. change PAGE_SIZE with 4096. lia.
  - intros r h' [(-> & _)|(_ & Hr & l' & raw & nsz & _ & _ & _ & _ & _ & Hf)]; [by left|right]. split; [exact Hr|].
    eapply wp_mono; [exact Hf|]. intros rc h'' (-> & _). done.
Defined.

(** A size near the top of the size type: the total wraps, one page is taken
    and the block is reported as allocated. *)
Lemma malloc_wrap : wp (malloc 0xFFFFFFF8) (λ r h', r = 0x25010 ∧ heap_end_addr h' = 0x26000) ex_heap.
Proof. vm_compute. done. Qed.
End Heap.
