(* ===== verification/Objects.v ===== *)
(** * Kernel objects of the virtual file system

    Vnodes, open files and mounts live in a store by address, so that two
    pointers to one object see the same object: [struct vnode]
    ([include/kernel/fs/vnode.h]), [struct file] ([include/kernel/fs/file.h]),
    [struct mount] ([include/kernel/fs/mount.h]), and the reference counts of
    [src/kernel/fs/vfs/vnode.c].  A file system keeps its own objects in the
    part [fs] of the store. *)

From S2P Require Import Prelude Vnode.
Import Vnode.

Module Objects.

(** [0] is NULL; [vn_ops] names an operations table, [vn_exec] a function. *)
Record vnode := mk_vnode {
  vn_type : vnode_type;
  vn_refcnt : Z;
  vn_mount : Z;
  vn_ops : Z;
  vn_fs_data : Z;
  vn_exec : Z
}.
Definition with_refcnt (n : Z) (v : vnode) : vnode :=
  mk_vnode (vn_type v) n (vn_mount v) (vn_ops v) (vn_fs_data v) (vn_exec v).
Definition with_fs_data (d : Z) (v : vnode) : vnode :=
  mk_vnode (vn_type v) (vn_refcnt v) (vn_mount v) (vn_ops v) d (vn_exec v).
Definition with_exec (fn : Z) (v : vnode) : vnode :=
  mk_vnode (vn_type v) (vn_refcnt v) (vn_mount v) (vn_ops v) (vn_fs_data v) fn.

Record file := mk_file {
  f_vn : Z;
  f_offset : Z;
  f_flags : Z;
  f_ops : Z;
  f_refcount : Z
}.
Definition with_offset (o : Z) (f : file) : file := mk_file (f_vn f) o (f_flags f) (f_ops f) (f_refcount f).
Definition with_refcount (n : Z) (f : file) : file := mk_file (f_vn f) (f_offset f) (f_flags f) (f_ops f) n.

Record mount := mk_mount {
  m_type : Z;
  m_root_vnode : Z;
  m_source : cstring;
  m_target : cstring;
  m_fs_data : Z
}.
Definition with_root (v : Z) (m : mount) : mount :=
  mk_mount (m_type m) v (m_source m) (m_target m) (m_fs_data m).
Definition with_data (d : Z) (m : mount) : mount :=
  mk_mount (m_type m) (m_root_vnode m) (m_source m) (m_target m) d.

(** The store.  [next] is an address that was never handed out; [oracle] lists
    whether the next allocations succeed, and they do when it is exhausted. *)
Record kernel (F : Type) := mk_kernel {
  vnodes : gmap Z vnode;
  files : gmap Z file;
  mounts : gmap Z mount;
  g_mounts : list Z;
  g_root_vnode : Z;
  next : Z;
  oracle : list bool;
  fs : F
}.
Arguments mk_kernel {F}.
Arguments vnodes {F} _.
Arguments files {F} _.
Arguments mounts {F} _.
Arguments g_mounts {F} _.
Arguments g_root_vnode {F} _.
Arguments next {F} _.
Arguments oracle {F} _.
Arguments fs {F} _.

(** The operations of a vnode; a missing entry is a NULL pointer. *)
Record vnode_ops (S : Type) := mk_ops {
  op_lookup : option (Z → option cstring → bool → cmd S (Z * Z));
  op_create : option (Z → option cstring → vnode_type → bool → cmd S (Z * Z));
  op_unlink : option (Z → option cstring → cmd S Z);
  op_read : option (Z → bool → Z → Z → cmd S (Z * Z * list Z));
  op_write : option (Z → option (list Z) → Z → Z → cmd S (Z * Z));
  op_readdir : option (Z → Z → cmd S (Z * option (cstring * vnode_type)));
  op_truncate : option (Z → Z → cmd S Z);
  op_getattr : option (Z → bool → cmd S (Z * option vfs_stat));
  op_setattr : option (Z → option vfs_stat → cmd S Z);
  op_destroy : option (Z → cmd S unit)
}.
Arguments mk_ops {S}.
Arguments op_lookup {S} _.
Arguments op_create {S} _.
Arguments op_unlink {S} _.
Arguments op_read {S} _.
Arguments op_write {S} _.
Arguments op_readdir {S} _.
Arguments op_truncate {S} _.
Arguments op_getattr {S} _.
Arguments op_setattr {S} _.
Arguments op_destroy {S} _.

Section objects.
Context {F : Type}.
Implicit Types (k : kernel F).

Definition set_vnodes (m : gmap Z vnode) k : kernel F :=
  mk_kernel m (files k) (mounts k) (g_mounts k) (g_root_vnode k) (next k) (oracle k) (fs k).
Definition set_files (m : gmap Z file) k : kernel F :=
  mk_kernel (vnodes k) m (mounts k) (g_mounts k) (g_root_vnode k) (next k) (oracle k) (fs k).
Definition set_mounts (m : gmap Z mount) k : kernel F :=
  mk_kernel (vnodes k) (files k) m (g_mounts k) (g_root_vnode k) (next k) (oracle k) (fs k).
Definition set_mount_list (l : list Z) k : kernel F :=
  mk_kernel (vnodes k) (files k) (mounts k) l (g_root_vnode k) (next k) (oracle k) (fs k).
Definition set_root (v : Z) k : kernel F :=
  mk_kernel (vnodes k) (files k) (mounts k) (g_mounts k) v (next k) (oracle k) (fs k).
Definition set_heap (n : Z) (o : list bool) k : kernel F :=
  mk_kernel (vnodes k) (files k) (mounts k) (g_mounts k) (g_root_vnode k) n o (fs k).
Definition set_fs (s : F) k : kernel F :=
  mk_kernel (vnodes k) (files k) (mounts k) (g_mounts k) (g_root_vnode k) (next k) (oracle k) s.

(** [malloc], [calloc] and a growing [realloc]: a new address or NULL. *)
Definition kalloc : cmd (kernel F) Z := λ k,
  match oracle k with
  | false :: o => Some (0, set_heap (next k) o k)
  | true :: o => Some (next k, set_heap (next k + 1) o k)
  | [] => Some (next k, set_heap (next k + 1) [] k)
  end.

(** Dereferences: a freed object is gone. *)
Definition get_vnode (a : Z) : cmd (kernel F) vnode := cread (λ k, vnodes k !! a).
Definition put_vnode (a : Z) (v : vnode) : cmd (kernel F) unit := cmodify (λ k, set_vnodes (<[a := v]> (vnodes k)) k).
Definition free_vnode (a : Z) : cmd (kernel F) unit := cmodify (λ k, set_vnodes (delete a (vnodes k)) k).
Definition get_file (a : Z) : cmd (kernel F) file := cread (λ k, files k !! a).
Definition put_file (a : Z) (f : file) : cmd (kernel F) unit := cmodify (λ k, set_files (<[a := f]> (files k)) k).
Definition free_file (a : Z) : cmd (kernel F) unit := cmodify (λ k, set_files (delete a (files k)) k).
Definition get_mount (a : Z) : cmd (kernel F) mount := cread (λ k, mounts k !! a).
Definition put_mount (a : Z) (m : mount) : cmd (kernel F) unit := cmodify (λ k, set_mounts (<[a := m]> (mounts k)) k).
Definition free_mount (a : Z) : cmd (kernel F) unit := cmodify (λ k, set_mounts (delete a (mounts k)) k).

(** ** [src/kernel/fs/vfs/vnode.c] *)

Definition vnode_create (mp : Z) (type : vnode_type) (ops fs_data : Z) : cmd (kernel F) Z :=
  vn ← kalloc;
  if vn =? 0 then mret 0 else
  put_vnode vn (mk_vnode type 1 mp ops fs_data 0);;
  mret vn.

Definition vnode_ref (vn : Z) : cmd (kernel F) unit :=
  if vn =? 0 then mret tt else
  v ← get_vnode vn;
  put_vnode vn (with_refcnt (u32 (vn_refcnt v + 1)) v).

(** [destroy_of] maps an operations table to its [destroy]. *)
Definition vnode_unref (destroy_of : Z → option (Z → cmd (kernel F) unit)) (vn : Z) : cmd (kernel F) unit :=
  if vn =? 0 then mret tt else
  v ← get_vnode vn;
  if vn_refcnt v =? 0 then mret tt else
  put_vnode vn (with_refcnt (vn_refcnt v - 1) v);;
  if vn_refcnt v - 1 =? 0 then
    match destroy_of (vn_ops v) with
    | Some destroy => destroy vn
    | None => mret tt
    end;;
    free_vnode vn
  else mret tt.

(** The store never hands out NULL or an address that is in use. *)
Definition fresh_above k : Prop :=
  0 < next k ∧ (∀ a, is_Some (vnodes k !! a) → a < next k) ∧ (∀ a, is_Some (files k !! a) → a < next k) ∧
  (∀ a, is_Some (mounts k !! a) → a < next k).

Lemma kalloc_wp k Q :
  (∀ o, Q 0 (set_heap (next k) o k)) → (∀ o, Q (next k) (set_heap (next k + 1) o k)) → wp kalloc Q k.
Proof. intros H1 H2. unfold wp, kalloc. by destruct (oracle k) as [|[|] o]. Qed.

Lemma get_vnode_wp a v k Q : vnodes k !! a = Some v → Q v k → wp (get_vnode a) Q k.
Proof. intros. by eapply wp_read. Qed.
Lemma get_file_wp a f k Q : files k !! a = Some f → Q f k → wp (get_file a) Q k.
Proof. intros. by eapply wp_read. Qed.
Lemma get_mount_wp a m k Q : mounts k !! a = Some m → Q m k → wp (get_mount a) Q k.
Proof. intros. by eapply wp_read. Qed.
End objects.
End Objects.
