(* ===== verification/Ramfs.v ===== *)
(** * The RAM file system

    [src/kernel/fs/ramfs/ramfs.c], [dir.c] and [file.c]: a tree of nodes, each
    with the list of its children, its buffer and its cached vnode. *)

From S2P Require Import Prelude Vnode Objects.
Import Vnode Objects.

Module Ramfs.

Section node.
Context {D : Type}.

(** [struct ramfs_node]; [D] is the state of the devices behind the hooks.  The
    buffer [n_data] holds [n_capacity] bytes. *)
Record ramfs_node := mk_node {
  n_name : cstring;
  n_type : vnode_type;
  n_vnode_cache : Z;
  n_parent : Z;
  n_sibling : Z;
  n_children : Z;
  n_data : list Z;
  n_size : Z;
  n_capacity : Z;
  n_dev_read : option (Z → cmd D (Z * list Z));
  n_dev_write : option (list Z → cmd D Z)
}.

Definition with_cache (v : Z) (n : ramfs_node) : ramfs_node :=
  mk_node (n_name n) (n_type n) v (n_parent n) (n_sibling n) (n_children n) (n_data n) (n_size n) (n_capacity n) (n_dev_read n) (n_dev_write n).
Definition with_parent (p : Z) (n : ramfs_node) : ramfs_node :=
  mk_node (n_name n) (n_type n) (n_vnode_cache n) p (n_sibling n) (n_children n) (n_data n) (n_size n) (n_capacity n) (n_dev_read n) (n_dev_write n).
Definition with_sibling (s : Z) (n : ramfs_node) : ramfs_node :=
  mk_node (n_name n) (n_type n) (n_vnode_cache n) (n_parent n) s (n_children n) (n_data n) (n_size n) (n_capacity n) (n_dev_read n) (n_dev_write n).
Definition with_children (c : Z) (n : ramfs_node) : ramfs_node :=
  mk_node (n_name n) (n_type n) (n_vnode_cache n) (n_parent n) (n_sibling n) c (n_data n) (n_size n) (n_capacity n) (n_dev_read n) (n_dev_write n).
Definition with_buffer (d : list Z) (cap : Z) (n : ramfs_node) : ramfs_node :=
  mk_node (n_name n) (n_type n) (n_vnode_cache n) (n_parent n) (n_sibling n) (n_children n) d (n_size n) cap (n_dev_read n) (n_dev_write n).
Definition with_size (s : Z) (n : ramfs_node) : ramfs_node :=
  mk_node (n_name n) (n_type n) (n_vnode_cache n) (n_parent n) (n_sibling n) (n_children n) (n_data n) s (n_capacity n) (n_dev_read n) (n_dev_write n).
Definition with_hooks (r : option (Z → cmd D (Z * list Z))) (w : option (list Z → cmd D Z)) (n : ramfs_node) : ramfs_node :=
  mk_node (n_name n) (n_type n) (n_vnode_cache n) (n_parent n) (n_sibling n) (n_children n) (n_data n) (n_size n) (n_capacity n) r w.

(** The file system's part of the store: the nodes, the roots of the mounts
    ([struct ramfs_mount]) and the devices. *)
Record ramfs := mk_ramfs {
  nodes : gmap Z ramfs_node;
  roots : gmap Z Z;
  dev : D
}.
End node.
Arguments ramfs_node D : clear implicits.
Arguments ramfs D : clear implicits.

(** The operations table [ramfs_vnode_ops]. *)
Definition RAMFS_OPS : Z := 1.

Section ops.
Context {D : Type}.
(** The bytes that [realloc] leaves in the part of a buffer that it adds. *)
Context (stale : nat → Z).
Abbreviation K := (kernel (ramfs D)).
Implicit Types (k : K) (n : ramfs_node D).

Definition set_nodes (m : gmap Z (ramfs_node D)) k : K := set_fs (mk_ramfs m (roots (fs k)) (dev (fs k))) k.
Definition set_roots (m : gmap Z Z) k : K := set_fs (mk_ramfs (nodes (fs k)) m (dev (fs k))) k.
Definition on_dev {A} (c : cmd D A) : cmd K A :=
  czoom (λ k, dev (fs k)) (λ d k, set_fs (mk_ramfs (nodes (fs k)) (roots (fs k)) d) k) c.

Definition get_node (a : Z) : cmd K (ramfs_node D) := cread (λ k, nodes (fs k) !! a).
Definition put_node (a : Z) n : cmd K unit := cmodify (λ k, set_nodes (<[a := n]> (nodes (fs k))) k).
Definition free_node (a : Z) : cmd K unit := cmodify (λ k, set_nodes (delete a (nodes (fs k))) k).

(** ** [ramfs.c] *)

Definition ramfs_node_create (name : option cstring) (type : vnode_type) : cmd K Z :=
  match name with
  | None => mret 0
  | Some name =>
    node ← kalloc;
    if node =? 0 then mret 0 else
    put_node node (mk_node [] VNODE_TYPE_NONE 0 0 0 0 [] 0 0 None None);;
    buffer ← kalloc;
    if buffer =? 0 then free_node node;; mret 0 else
    put_node node (mk_node name type 0 0 0 0 [] 0 0 None None);;
    mret node
  end.

Definition ramfs_node_vnode (mp node : Z) : cmd K Z :=
  if node =? 0 then mret 0 else
  n ← get_node node;
  if n_vnode_cache n =? 0 then
    vn ← vnode_create mp (n_type n) RAMFS_OPS node;
    put_node node (with_cache vn n);;
    mret vn
  else mret (n_vnode_cache n).

Definition ramfs_node_free (node : Z) : cmd K unit :=
  if node =? 0 then mret tt else free_node node.

Definition ramfs_destroy_vnode (vn : Z) : cmd K unit :=
  if vn =? 0 then mret tt else
  v ← get_vnode vn;
  let node := vn_fs_data v in
  if node =? 0 then mret tt else
  n ← get_node node;
  (if n_vnode_cache n =? vn then put_node node (with_cache 0 n) else mret tt);;
  put_vnode vn (with_fs_data 0 v);;
  ramfs_node_free node.

Definition destroy_of (ops : Z) : option (Z → cmd K unit) :=
  if ops =? RAMFS_OPS then Some ramfs_destroy_vnode else None.

Definition ramfs_node_release (node : Z) : cmd K unit :=
  if node =? 0 then mret tt else
  n ← get_node node;
  if negb (n_vnode_cache n =? 0) then
    put_node node (with_cache 0 n);;
    vnode_unref destroy_of (n_vnode_cache n)
  else ramfs_node_free node.

(** [ramfs_tree_release] and its loop over the children, on at most [fuel]
    nodes in all. *)
Fixpoint tree_release (fuel : nat) (node : Z) : cmd K unit :=
  match fuel with
  | O => cundef
  | S fuel =>
    n ← get_node node;
    if n_children n =? 0 then ramfs_node_release node else
    let child := n_children n in
    c ← get_node child;
    put_node node (with_children (n_sibling c) n);;
    c ← get_node child;
    put_node child (with_parent 0 (with_sibling 0 c));;
    tree_release fuel child;;
    tree_release fuel node
  end.
Definition ramfs_tree_release (node : Z) : cmd K unit :=
  if node =? 0 then mret tt else
  k ← cget;
  tree_release (2 * size (nodes (fs k))) node.

Definition ramfs_mount_fn (mp : Z) : cmd K Z :=
  if mp =? 0 then mret ERR_INVALID_ARGUMENT else
  rm ← kalloc;
  if rm =? 0 then mret ERR_OUT_OF_MEMORY else
  root ← ramfs_node_create (Some []) VNODE_TYPE_DIR;
  if root =? 0 then mret ERR_OUT_OF_MEMORY else
  cmodify (λ k, set_roots (<[rm := root]> (roots (fs k))) k);;
  m ← get_mount mp;
  put_mount mp (with_data rm m);;
  mret ERR_SUCCESS.

Definition ramfs_unmount_fn (mp : Z) : cmd K Z :=
  if mp =? 0 then mret ERR_INVALID_ARGUMENT else
  m ← get_mount mp;
  let rm := m_fs_data m in
  if rm =? 0 then mret ERR_SUCCESS else
  put_mount mp (with_data 0 m);;
  root ← cread (λ k, roots (fs k) !! rm);
  ramfs_tree_release root;;
  cmodify (λ k, set_roots (delete rm (roots (fs k))) k);;
  mret ERR_SUCCESS.

Definition ramfs_sync_fn (mp : Z) : cmd K Z :=
  mret (if negb (mp =? 0) then ERR_SUCCESS else ERR_INVALID_ARGUMENT).

(** The status and [*out_root]. *)
Definition ramfs_root_vnode (mp : Z) (out : bool) : cmd K (Z * Z) :=
  if (mp =? 0) || negb out then mret (ERR_INVALID_ARGUMENT, 0) else
  m ← get_mount mp;
  let rm := m_fs_data m in
  if rm =? 0 then mret (ERR_INVALID_ARGUMENT, 0) else
  root ← cread (λ k, roots (fs k) !! rm);
  if root =? 0 then mret (ERR_INVALID_ARGUMENT, 0) else
  vn ← ramfs_node_vnode mp root;
  mret (if negb (vn =? 0) then ERR_SUCCESS else ERR_OUT_OF_MEMORY, vn).

(** ** [dir.c] *)

(** The list of siblings from [child] on; it has at most as many nodes as there
    are. *)
Fixpoint find_child_from (name : cstring) (fuel : nat) (child : Z) : cmd K Z :=
  if child =? 0 then mret 0 else
  match fuel with
  | O => cundef
  | S fuel =>
    c ← get_node child;
    if streq (n_name c) name then mret child else find_child_from name fuel (n_sibling c)
  end.
Definition ramfs_find_child (dir : Z) (name : cstring) : cmd K Z :=
  k ← cget;
  d ← get_node dir;
  find_child_from name (size (nodes (fs k))) (n_children d).

Definition DOT : cstring := [46].
Definition DOTDOT : cstring := [46; 46].
Definition SLASH : Z := 47.

Definition ramfs_lookup_vn (dir : Z) (name : option cstring) (out : bool) : cmd K (Z * Z) :=
  match name with
  | Some name =>
    if (dir =? 0) || negb out then mret (ERR_INVALID_ARGUMENT, 0) else
    v ← get_vnode dir;
    if negb (bool_decide (vn_type v = VNODE_TYPE_DIR)) then mret (ERR_NOT_DIRECTORY, 0) else
    let node := vn_fs_data v in
    if node =? 0 then mret (ERR_INVALID_ARGUMENT, 0) else
    if streq name DOT then mret (ERR_SUCCESS, dir) else
    if streq name DOTDOT then
      n ← get_node node;
      let parent := if negb (n_parent n =? 0) then n_parent n else node in
      vn ← ramfs_node_vnode (vn_mount v) parent;
      mret (if negb (vn =? 0) then ERR_SUCCESS else ERR_OUT_OF_MEMORY, vn)
    else
    child ← ramfs_find_child node name;
    if child =? 0 then mret (ERR_NOT_FOUND, 0) else
    vn ← ramfs_node_vnode (vn_mount v) child;
    mret (if negb (vn =? 0) then ERR_SUCCESS else ERR_OUT_OF_MEMORY, vn)
  | None => mret (ERR_INVALID_ARGUMENT, 0)
  end.

(** The guards of [ramfs_create_vn] on the name and the type. *)
Definition bad_name (name : cstring) : bool :=
  bool_decide (name = []) || bool_decide (SLASH ∈ name) || streq name DOT || streq name DOTDOT.
Definition creatable (type : vnode_type) : bool :=
  match type with
  | VNODE_TYPE_FILE | VNODE_TYPE_DIR | VNODE_TYPE_DEV | VNODE_TYPE_EXEC => true
  | _ => false
  end.

Definition ramfs_create_vn (dir : Z) (name : option cstring) (type : vnode_type) (out : bool) : cmd K (Z * Z) :=
  match name with
  | Some name =>
    if (dir =? 0) || negb out then mret (ERR_INVALID_ARGUMENT, 0) else
    v ← get_vnode dir;
    if negb (bool_decide (vn_type v = VNODE_TYPE_DIR)) then mret (ERR_NOT_DIRECTORY, 0) else
    if bad_name name then mret (ERR_INVALID_ARGUMENT, 0) else
    if negb (creatable type) then mret (ERR_NOT_SUPPORTED, 0) else
    let parent := vn_fs_data v in
    if parent =? 0 then mret (ERR_INVALID_ARGUMENT, 0) else
    found ← ramfs_find_child parent name;
    if negb (found =? 0) then mret (ERR_ALREADY_EXISTS, 0) else
    child ← ramfs_node_create (Some name) type;
    if child =? 0 then mret (ERR_OUT_OF_MEMORY, 0) else
    c ← get_node child;
    put_node child (with_parent parent c);;
    vn ← ramfs_node_vnode (vn_mount v) child;
    if vn =? 0 then
      c ← get_node child;
      put_node child (with_parent 0 c);;
      ramfs_node_release child;;
      mret (ERR_OUT_OF_MEMORY, 0)
    else
      p ← get_node parent;
      c ← get_node child;
      put_node child (with_sibling (n_children p) c);;
      p ← get_node parent;
      put_node parent (with_children child p);;
      mret (ERR_SUCCESS, vn)
  | None => mret (ERR_INVALID_ARGUMENT, 0)
  end.

(** A [struct ramfs_node **]: the field of a node that points to a child. *)
Inductive link := Children (dir : Z) | Sibling (child : Z).
Definition read_link (l : link) : cmd K Z :=
  match l with
  | Children a => n ← get_node a; mret (n_children n)
  | Sibling a => n ← get_node a; mret (n_sibling n)
  end.
Definition write_link (l : link) (v : Z) : cmd K unit :=
  match l with
  | Children a => n ← get_node a; put_node a (with_children v n)
  | Sibling a => n ← get_node a; put_node a (with_sibling v n)
  end.

(** The body of the loop of [ramfs_unlink_vn] for the child of that name, which
    is [c]. *)
Definition unlink_child (l : link) (child : Z) (c : ramfs_node D) : cmd K Z :=
  if bool_decide (n_type c = VNODE_TYPE_DIR) && negb (n_children c =? 0) then mret ERR_DIRECTORY_NOT_EMPTY else
  write_link l (n_sibling c);;
  c ← get_node child;
  put_node child (with_sibling 0 (with_parent 0 c));;
  ramfs_node_release child;;
  mret ERR_SUCCESS.

Fixpoint unlink_from (name : cstring) (fuel : nat) (l : link) : cmd K Z :=
  child ← read_link l;
  if child =? 0 then mret ERR_NOT_FOUND else
  match fuel with
  | O => cundef
  | S fuel =>
    c ← get_node child;
    if streq (n_name c) name then unlink_child l child c else unlink_from name fuel (Sibling child)
  end.

Definition ramfs_unlink_vn (dir : Z) (name : option cstring) : cmd K Z :=
  match name with
  | Some name =>
    if dir =? 0 then mret ERR_INVALID_ARGUMENT else
    v ← get_vnode dir;
    if negb (bool_decide (vn_type v = VNODE_TYPE_DIR)) then mret ERR_NOT_DIRECTORY else
    if bool_decide (name = []) || streq name DOT || streq name DOTDOT then mret ERR_INVALID_ARGUMENT else
    let parent := vn_fs_data v in
    if parent =? 0 then mret ERR_INVALID_ARGUMENT else
    k ← cget;
    unlink_from name (size (nodes (fs k))) (Children parent)
  | None => mret ERR_INVALID_ARGUMENT
  end.

Fixpoint readdir_from (index current : Z) (fuel : nat) (child : Z) : cmd K (Z * option (cstring * vnode_type)) :=
  if child =? 0 then mret (ERR_NOT_FOUND, None) else
  match fuel with
  | O => cundef
  | S fuel =>
    c ← get_node child;
    if negb (current =? index) then readdir_from index (u32 (current + 1)) fuel (n_sibling c)
    else mret (ERR_SUCCESS, Some (n_name c, n_type c))
  end.

Definition ramfs_readdir_vn (vn index : Z) : cmd K (Z * option (cstring * vnode_type)) :=
  if vn =? 0 then mret (ERR_INVALID_ARGUMENT, None) else
  v ← get_vnode vn;
  if negb (bool_decide (vn_type v = VNODE_TYPE_DIR)) then mret (ERR_NOT_DIRECTORY, None) else
  let dir := vn_fs_data v in
  if dir =? 0 then mret (ERR_INVALID_ARGUMENT, None) else
  k ← cget;
  d ← get_node dir;
  readdir_from index 0 (size (nodes (fs k))) (n_children d).

(** ** [file.c] *)

Definition USIZE_MAX : Z := 2 ^ 32 - 1.

(** The doubling loop; a capacity of at least 1 doubles at most 32 times. *)
Fixpoint grow_capacity (fuel : nat) (capacity new_capacity : Z) : option Z :=
  if capacity <? new_capacity then
    match fuel with
    | O => None
    | S fuel =>
      if USIZE_MAX / 2 <? capacity then Some new_capacity
      else grow_capacity fuel (u32 (capacity * 2)) new_capacity
    end
  else Some capacity.

(** A buffer of [capacity] bytes that starts with the old one. *)
Definition resized (old : list Z) (capacity : Z) : list Z :=
  old ++ (stale <$> seq (length old) (Z.to_nat capacity - length old)).

Definition ramfs_ensure_capacity (node new_capacity : Z) : cmd K Z :=
  n ← get_node node;
  if new_capacity <=? n_capacity n then mret ERR_SUCCESS else
  capacity ← cget_opt (grow_capacity 33 (if negb (n_capacity n =? 0) then n_capacity n else 64) new_capacity);
  data ← kalloc;
  if data =? 0 then mret ERR_OUT_OF_MEMORY else
  put_node node (with_buffer (resized (n_data n) capacity) capacity n);;
  mret ERR_SUCCESS.

(** [memset(node->data + from, 0, count)] and [memcpy(node->data + off, buf, len)]:
    undefined beyond the buffer. *)
Definition store_data (node : Z) (off : Z) (bytes : list Z) : cmd K unit :=
  n ← get_node node;
  if Z.of_nat (length (n_data n)) <? off + Z.of_nat (length bytes) then cundef else
  put_node node (with_buffer (splice (Z.to_nat off) bytes (n_data n)) (n_capacity n) n).
Definition zeros (count : Z) : list Z := replicate (Z.to_nat count) 0.

(** The status, [*out] and the bytes copied to [buf]. *)
Definition ramfs_read_vn (vn : Z) (buf : bool) (off len : Z) : cmd K (Z * Z * list Z) :=
  if (vn =? 0) || (negb (len =? 0) && negb buf) then mret (ERR_INVALID_ARGUMENT, 0, []) else
  v ← get_vnode vn;
  let node := vn_fs_data v in
  if node =? 0 then mret (ERR_INVALID_ARGUMENT, 0, []) else
  n ← get_node node;
  if bool_decide (n_type n = VNODE_TYPE_DEV) then
    match n_dev_read n with
    | None => mret (ERR_NOT_SUPPORTED, 0, [])
    | Some dev_read =>
      '(read, bytes) ← on_dev (dev_read len);
      if read <? 0 then mret (read, 0, bytes) else
      if len <? read then mret (ERR_IO_ERROR, 0, bytes) else
      mret (ERR_SUCCESS, read, bytes)
    end
  else
  if bool_decide (n_type n = VNODE_TYPE_DIR) then mret (ERR_IS_DIRECTORY, 0, []) else
  if negb (bool_decide (n_type n = VNODE_TYPE_FILE)) && negb (bool_decide (n_type n = VNODE_TYPE_EXEC))
  then mret (ERR_NOT_SUPPORTED, 0, []) else
  if (n_size n <=? off) || (len =? 0) then mret (ERR_SUCCESS, 0, []) else
  let available := u32 (n_size n - off) in
  let len := if available <? len then available else len in
  if Z.of_nat (length (n_data n)) <? off + len then cundef else
  mret (ERR_SUCCESS, len, slice (Z.to_nat off) (Z.to_nat len) (n_data n)).

(** The status and [*out]; [buf] is NULL or points to at least [len] bytes. *)
Definition ramfs_write_vn (vn : Z) (buf : option (list Z)) (off len : Z) : cmd K (Z * Z) :=
  if (vn =? 0) || (negb (len =? 0) && negb (bool_decide (is_Some buf))) then mret (ERR_INVALID_ARGUMENT, 0) else
  v ← get_vnode vn;
  let node := vn_fs_data v in
  if node =? 0 then mret (ERR_INVALID_ARGUMENT, 0) else
  n ← get_node node;
  let bytes := take (Z.to_nat len) (default [] buf) in
  if bool_decide (n_type n = VNODE_TYPE_DEV) then
    match n_dev_write n with
    | None => mret (ERR_NOT_SUPPORTED, 0)
    | Some dev_write =>
      written ← on_dev (dev_write bytes);
      if written <? 0 then mret (written, 0) else
      if len <? written then mret (ERR_IO_ERROR, 0) else
      mret (ERR_SUCCESS, written)
    end
  else
  if bool_decide (n_type n = VNODE_TYPE_DIR) then mret (ERR_IS_DIRECTORY, 0) else
  if negb (bool_decide (n_type n = VNODE_TYPE_FILE)) && negb (bool_decide (n_type n = VNODE_TYPE_EXEC))
  then mret (ERR_NOT_SUPPORTED, 0) else
  if len =? 0 then mret (ERR_SUCCESS, 0) else
  if u32 (USIZE_MAX - off) <? len then mret (ERR_INVALID_ARGUMENT, 0) else
  let end_ := u32 (off + len) in
  result ← ramfs_ensure_capacity node end_;
  if negb (result =? ERR_SUCCESS) then mret (result, 0) else
  if Z.of_nat (length bytes) <? len then cundef else
  n ← get_node node;
  (if n_size n <? off then store_data node (n_size n) (zeros (off - n_size n)) else mret tt);;
  store_data node off bytes;;
  n ← get_node node;
  (if n_size n <? end_ then put_node node (with_size end_ n) else mret tt);;
  mret (ERR_SUCCESS, len).

Definition ramfs_truncate_vn (vn new_size : Z) : cmd K Z :=
  if vn =? 0 then mret ERR_INVALID_ARGUMENT else
  v ← get_vnode vn;
  let node := vn_fs_data v in
  if node =? 0 then mret ERR_INVALID_ARGUMENT else
  n ← get_node node;
  if bool_decide (n_type n = VNODE_TYPE_DIR) then mret ERR_IS_DIRECTORY else
  if negb (bool_decide (n_type n = VNODE_TYPE_FILE)) && negb (bool_decide (n_type n = VNODE_TYPE_EXEC))
  then mret ERR_NOT_SUPPORTED else
  result ← ramfs_ensure_capacity node new_size;
  if negb (result =? ERR_SUCCESS) then mret result else
  n ← get_node node;
  (if n_size n <? new_size then store_data node (n_size n) (zeros (new_size - n_size n)) else mret tt);;
  n ← get_node node;
  put_node node (with_size new_size n);;
  mret ERR_SUCCESS.

Definition ramfs_getattr_vn (vn : Z) (stat_buf : bool) : cmd K (Z * option vfs_stat) :=
  if (vn =? 0) || negb stat_buf then mret (ERR_INVALID_ARGUMENT, None) else
  v ← get_vnode vn;
  let node := vn_fs_data v in
  if node =? 0 then mret (ERR_INVALID_ARGUMENT, None) else
  n ← get_node node;
  mret (ERR_SUCCESS, Some (mk_stat (n_type n) (n_size n) (n_capacity n) 0 0 0 0 0 0)).

Definition ramfs_setattr_vn (vn : Z) (stat_buf : option vfs_stat) : cmd K Z :=
  match stat_buf with
  | Some stat => if vn =? 0 then mret ERR_INVALID_ARGUMENT else ramfs_truncate_vn vn (st_size stat)
  | None => mret ERR_INVALID_ARGUMENT
  end.

Definition ramfs_set_dev_hooks (vn : Z) (dev_read : option (Z → cmd D (Z * list Z)))
    (dev_write : option (list Z → cmd D Z)) : cmd K unit :=
  if vn =? 0 then mret tt else
  v ← get_vnode vn;
  if negb (bool_decide (vn_type v = VNODE_TYPE_DEV)) then mret tt else
  let node := vn_fs_data v in
  if node =? 0 then mret tt else
  n ← get_node node;
  put_node node (with_hooks dev_read dev_write n).

Definition ramfs_vnode_ops : vnode_ops K :=
  mk_ops (Some ramfs_lookup_vn) (Some ramfs_create_vn) (Some ramfs_unlink_vn) (Some ramfs_read_vn)
    (Some ramfs_write_vn) (Some ramfs_readdir_vn) (Some ramfs_truncate_vn) (Some ramfs_getattr_vn)
    (Some ramfs_setattr_vn) (Some ramfs_destroy_vnode).

(** The dispatch on [vn->ops] in a kernel with this file system. *)
Definition ops_of (ops : Z) : option (vnode_ops K) := if ops =? RAMFS_OPS then Some ramfs_vnode_ops else None.
End ops.

(** ** Regular files as byte sequences *)

Section files.
Context {D : Type} (stale : nat → Z).
Abbreviation K := (kernel (ramfs D)).
Implicit Types (k : K) (n : ramfs_node D).

Definition content n : list Z := take (Z.to_nat (n_size n)) (n_data n).

(** A regular file: its buffer has the recorded capacity and holds its bytes. *)
Record file_ok n : Prop := {
  fo_type : n_type n = VNODE_TYPE_FILE ∨ n_type n = VNODE_TYPE_EXEC;
  fo_size : 0 ≤ n_size n ≤ n_capacity n;
  fo_capacity : n_capacity n < 2 ^ 32;
  fo_data : Z.of_nat (length (n_data n)) = n_capacity n
}.

(** The vnode [vn] is the node [node], which is [n]. *)
Record is_node k (vn node : Z) n : Prop := {
  in_vn : vn ≠ 0;
  in_data : ∃ v, vnodes k !! vn = Some v ∧ vn_fs_data v = node;
  in_node : node ≠ 0;
  in_at : nodes (fs k) !! node = Some n
}.

(** [k'] is [k] with the node at [node] replaced by [n'], and perhaps memory
    allocated. *)
Record node_changed (node : Z) n' k k' : Prop := {
  nc_nodes : nodes (fs k') = <[node := n']> (nodes (fs k));
  nc_roots : roots (fs k') = roots (fs k);
  nc_dev : dev (fs k') = dev (fs k);
  nc_vnodes : vnodes k' = vnodes k;
  nc_files : files k' = files k;
  nc_mounts : mounts k' = mounts k ∧ g_mounts k' = g_mounts k ∧ g_root_vnode k' = g_root_vnode k;
  nc_next : next k ≤ next k'
}.

Lemma node_changed_is vn node n n' k k' : is_node k vn node n → node_changed node n' k k' → is_node k' vn node n'.
Proof.
  intros [] []. split; [done| |done|].
  - by rewrite nc_vnodes0.
  - by rewrite nc_nodes0, lookup_insert_eq.
Qed.

Lemma node_changed_trans node n1 n2 k k1 k2 :
  node_changed node n1 k k1 → node_changed node n2 k1 k2 → node_changed node n2 k k2.
Proof.
  intros [N1 R1 D1 V1 F1 (M1 & G1 & T1) X1] [N2 R2 D2 V2 F2 (M2 & G2 & T2) X2].
  split; [|congruence..|split_and!; congruence|lia]. by rewrite N2, N1, insert_insert_eq.
Qed.

Lemma node_changed_put node n' k : node_changed node n' k (set_nodes (<[node := n']> (nodes (fs k))) k).
Proof. by split. Qed.
Lemma node_changed_refl node n k : nodes (fs k) !! node = Some n → node_changed node n k k.
Proof. intros. split; try done. by rewrite insert_id. Qed.
Lemma node_changed_heap node n k nx o : nodes (fs k) !! node = Some n → next k ≤ nx → node_changed node n k (set_heap nx o k).
Proof. intros. split; try done. cbn. by rewrite insert_id. Qed.

Lemma get_node_wp node n k Q : nodes (fs k) !! node = Some n → Q n k → wp (get_node node) Q k.
Proof. intros. by eapply wp_read. Qed.
Lemma put_node_wp node n' k Q :
  (∀ k', node_changed node n' k k' → Q tt k') → wp (put_node node n') Q k.
Proof. intros H. apply wp_modify, H, node_changed_put. Qed.

Lemma grow_capacity_spec fuel capacity new :
  1 ≤ capacity < 2 ^ 32 → new < 2 ^ 32 → 2 ^ 32 ≤ capacity * 2 ^ Z.of_nat fuel →
  ∃ c, grow_capacity fuel capacity new = Some c ∧ new ≤ c < 2 ^ 32 ∧ capacity ≤ c.
Proof.
  intros Hc Hn. revert capacity Hc. induction fuel as [|fuel IH]; intros capacity Hc Hf; [lia|].
  cbn [grow_capacity]. unfold USIZE_MAX. destruct (Z.ltb_spec capacity new).
  2: { exists capacity. split; [done|lia]. }
  destruct (Z.ltb_spec ((2 ^ 32 - 1) / 2) capacity); [exists new; split; [done|lia]|].
  rewrite u32_small by lia.
  destruct (IH (capacity * 2)) as (c & -> & ? & ?); [lia| |exists c; split; [done|lia]].
  rewrite Nat2Z.inj_succ, Z.pow_succ_r in Hf by lia. lia.
Qed.

Lemma ensure_capacity_wp k node n new :
  nodes (fs k) !! node = Some n → file_ok n → 0 ≤ new < 2 ^ 32 →
  wp (ramfs_ensure_capacity stale node new) (λ r k',
    (r = ERR_OUT_OF_MEMORY ∧ node_changed node n k k') ∨
    (r = ERR_SUCCESS ∧ ∃ data cap, let n' := with_buffer data cap n in
       node_changed node n' k k' ∧ file_ok n' ∧ new ≤ cap ∧ content n' = content n)) k.
Proof.
  intros Hn Hok Hnew. destruct Hok as [Ht Hs Hc Hd] eqn:E. clear E. unfold ramfs_ensure_capacity.
  wp_step. eapply get_node_wp; [done|]. destruct (Z.leb_spec new (n_capacity n)).
  { wp_step. right. split; [done|]. exists (n_data n), (n_capacity n). cbn zeta.
    replace (with_buffer (n_data n) (n_capacity n) n) with n by by destruct n.
    split_and!; [by apply node_changed_refl|done|done|done]. }
  destruct (grow_capacity_spec 33 (if negb (n_capacity n =? 0) then n_capacity n else 64) new) as (c & Hg & ? & ?);
    [destruct (Z.eqb_spec (n_capacity n) 0); cbn [negb]; lia|lia|destruct (Z.eqb_spec (n_capacity n) 0); cbn [negb]; lia|].
  wp_step. eapply wp_get_opt; [exact Hg|]. wp_step. apply kalloc_wp; intros o.
  { cbn [Z.eqb]. wp_step. left. split; [done|]. apply node_changed_heap; [done|lia]. }
  destruct (Z.eqb_spec (next k) 0) as [E|E].
  { wp_step. left. split; [done|]. apply node_changed_heap; [done|lia]. }
  wp_step. apply put_node_wp. intros k' Hk'. wp_step. right. split; [done|]. exists (resized stale (n_data n) c), c. cbn zeta.
  assert (length (resized stale (n_data n) c) = Z.to_nat c) as Hl.
  { unfold resized. rewrite length_app, length_fmap, length_seq.
    destruct (Z.eqb_spec (n_capacity n) 0); cbn [negb] in *; lia. }
  split_and!; [|split|lia|].
  - eapply node_changed_trans; [|exact Hk']. apply (node_changed_heap _ n); [done|lia].
  - exact Ht.
  - cbn. lia.
  - cbn. lia.
  - cbn. lia.
  - unfold content. cbn. unfold resized. by rewrite take_app_le by lia.
Qed.

(** What a write makes of the bytes of a file: it fills a gap with zeros. *)
Definition extend (c : list Z) (m : nat) : list Z := c ++ replicate (m - length c) 0.
Definition file_write (c : list Z) (off : nat) (bytes : list Z) : list Z :=
  splice off bytes (extend c (off + length bytes)).

Lemma length_extend c m : length (extend c m) = (length c `max` m)%nat.
Proof. unfold extend. rewrite length_app, length_replicate. lia. Qed.
Lemma extend_lookup c m i : (i < length c `max` m)%nat →
  extend c m !! i = Some (if decide (i < length c)%nat then c !!! i else 0).
Proof.
  intros Hi. unfold extend. case_decide.
  - rewrite lookup_app_l by done. by apply list_lookup_lookup_total_lt.
  - rewrite lookup_app_r by lia. apply lookup_replicate. lia.
Qed.

(** The stores of [ramfs_write_vn] into the buffer. *)
Lemma write_buffer data s off bytes :
  (s ≤ length data)%nat → (off + length bytes ≤ length data)%nat →
  let data1 := if decide (s < off)%nat then splice s (replicate (off - s) 0) data else data in
  length data1 = length data ∧
  take (s `max` (off + length bytes)) (splice off bytes data1) = file_write (take s data) off bytes.
Proof.
  intros Hs Hl data1.
  assert (length data1 = length data) as H1.
  { unfold data1. case_decide; [|done]. rewrite length_splice by (rewrite length_replicate; lia). done. }
  split; [done|]. unfold file_write. apply list_eq. intros i.
  assert (length (take s data) = s) as Hts by (rewrite length_take; lia).
  destruct (decide (i < s `max` (off + length bytes))%nat) as [Hi|Hi].
  2: { rewrite !lookup_ge_None_2; [done| |].
       - rewrite length_splice, length_extend; [lia|]. rewrite length_extend. lia.
       - rewrite length_take, length_splice; lia. }
  rewrite lookup_take_lt by lia. rewrite !splice_lookup by (rewrite ?length_extend; lia).
  destruct (decide (off ≤ i < off + length bytes)%nat); [done|].
  rewrite extend_lookup by lia. rewrite Hts.
  unfold data1. destruct (decide (s < off)%nat).
  - rewrite splice_lookup by (rewrite length_replicate; lia). rewrite length_replicate.
    destruct (decide (i < s)%nat).
    + rewrite decide_False by lia. rewrite <- list_lookup_lookup_total_lt by lia. by rewrite lookup_take_lt.
    + rewrite decide_True by lia. rewrite lookup_replicate_2; [done|lia].
  - rewrite decide_True by lia. rewrite <- list_lookup_lookup_total_lt by lia. by rewrite lookup_take_lt by lia.
Qed.

Lemma store_data_wp k node n off bytes Q :
  nodes (fs k) !! node = Some n → 0 ≤ off → off + Z.of_nat (length bytes) ≤ Z.of_nat (length (n_data n)) →
  (∀ k', node_changed node (with_buffer (splice (Z.to_nat off) bytes (n_data n)) (n_capacity n) n) k k' → Q tt k') →
  wp (store_data node off bytes) Q k.
Proof.
  intros Hn Ho Hl HQ. unfold store_data. wp_step. eapply get_node_wp; [done|].
  rewrite (proj2 (Z.ltb_ge _ _)) by done. by apply put_node_wp.
Qed.

Lemma type_tests n : n_type n = VNODE_TYPE_FILE ∨ n_type n = VNODE_TYPE_EXEC →
  bool_decide (n_type n = VNODE_TYPE_DEV) = false ∧ bool_decide (n_type n = VNODE_TYPE_DIR) = false ∧
  negb (bool_decide (n_type n = VNODE_TYPE_FILE)) && negb (bool_decide (n_type n = VNODE_TYPE_EXEC)) = false.
Proof. by intros [-> | ->]. Qed.

(** A node whose buffer took [bytes] at [off], after the gap was cleared. *)
Lemma fill_and_store_wp k node n off bytes :
  nodes (fs k) !! node = Some n → file_ok n → 0 ≤ off → off + Z.of_nat (length bytes) ≤ n_capacity n →
  let size := Z.max (n_size n) (off + Z.of_nat (length bytes)) in
  ∀ Q, (∀ k' data, let n' := with_buffer data (n_capacity n) n in
    node_changed node n' k k' → length data = length (n_data n) →
    take (Z.to_nat size) data = file_write (content n) (Z.to_nat off) bytes → Q tt k') →
  wp ((if n_size n <? off then store_data node (n_size n) (zeros (off - n_size n)) else mret tt);;
      store_data node off bytes) Q k.
Proof.
  intros Hn [Ht Hs Hc Hd] Ho Hcap size Q HQ.
  destruct (write_buffer (n_data n) (Z.to_nat (n_size n)) (Z.to_nat off) bytes) as [Hl1 Hw]; [lia|lia|].
  assert (Z.to_nat size = Z.to_nat (n_size n) `max` (Z.to_nat off + length bytes))%nat as Hsz by lia.
  rewrite <- Hsz in Hw. wp_step. destruct (Z.ltb_spec (n_size n) off) as [Hgap|Hgap].
  - rewrite decide_True in Hl1, Hw by lia.
    assert (replicate (Z.to_nat off - Z.to_nat (n_size n)) 0 = zeros (off - n_size n)) as E by (unfold zeros; f_equal; lia).
    rewrite E in Hl1, Hw. apply (store_data_wp _ _ n); [done|lia|unfold zeros; rewrite length_replicate; lia|].
    intros k1 Hk1. eapply store_data_wp; [rewrite (nc_nodes _ _ _ _ Hk1); apply lookup_insert_eq|lia|cbn; lia|].
    intros k2 Hk2. eapply HQ; [by eapply node_changed_trans|rewrite length_splice; cbn; lia|exact Hw].
  - rewrite decide_False in Hl1, Hw by lia. wp_step. apply (store_data_wp _ _ n); [done|lia|lia|].
    intros k1 Hk1. eapply HQ; [done|rewrite length_splice; lia|exact Hw].
Qed.

(** [ramfs_write_vn] on a regular file. *)
Definition write_post (vn node : Z) n (buf : list Z) (off len : Z) k (r : Z * Z) k' : Prop :=
  (r = (ERR_INVALID_ARGUMENT, 0) ∧ 2 ^ 32 ≤ off + len ∧ k' = k) ∨
  (r = (ERR_OUT_OF_MEMORY, 0) ∧ node_changed node n k k') ∨
  (r = (ERR_SUCCESS, len) ∧ off + len < 2 ^ 32 ∧ ∃ n', node_changed node n' k k' ∧ file_ok n' ∧
     n_size n' = Z.max (n_size n) (off + len) ∧
     content n' = file_write (content n) (Z.to_nat off) (take (Z.to_nat len) buf) ∧
     n_name n' = n_name n ∧ n_parent n' = n_parent n ∧ n_sibling n' = n_sibling n ∧ n_vnode_cache n' = n_vnode_cache n ∧
     n_type n' = n_type n).

Lemma write_wp k vn node n buf off len :
  is_node k vn node n → file_ok n → is_u32 off → 0 < len < 2 ^ 32 → len ≤ Z.of_nat (length buf) →
  wp (ramfs_write_vn stale vn (Some buf) off len) (write_post vn node n buf off len k) k.
Proof.
  intros Hin Hok Ho Hlen Hbuf. destruct Hin as [Hvn (v & Hv & Hvd) Hnode Hat] eqn:Ein. clear Ein.
  unfold is_u32 in Ho. unfold ramfs_write_vn. rewrite (proj2 (Z.eqb_neq vn 0)) by done. cbn [orb].
  rewrite (proj2 (Z.eqb_neq len 0)) by lia. rewrite bool_decide_true by done. cbn [negb andb].
  wp_step. eapply get_vnode_wp; [done|]. rewrite Hvd, (proj2 (Z.eqb_neq node 0)) by done.
  wp_step. eapply get_node_wp; [done|]. destruct (type_tests n (fo_type _ Hok)) as (-> & -> & ->).
  unfold USIZE_MAX. rewrite u32_small by lia. destruct (Z.ltb_spec (2 ^ 32 - 1 - off) len) as [Hov|Hov].
  { wp_step. left. split_and!; [done|lia|done]. }
  rewrite u32_small by lia. wp_step. eapply wp_mono; [by apply (ensure_capacity_wp k node n); [| |lia]|]. cbn beta.
  intros r k1 [(-> & Hk1)|(-> & data & cap & Hk1 & Hok1 & Hcap & Hc1)].
  { change (negb (ERR_OUT_OF_MEMORY =? ERR_SUCCESS)) with true. cbn iota. wp_step. right. left. done. }
  on_success. set (bytes := take (Z.to_nat len) (default [] (Some buf))).
  assert (Z.of_nat (length bytes) = len) as Hlb by (unfold bytes; cbn; rewrite length_take; lia).
  rewrite (proj2 (Z.ltb_ge _ _)) by lia. set (n1 := with_buffer data cap n) in *.
  assert (nodes (fs k1) !! node = Some n1) as Hat1 by (rewrite (nc_nodes _ _ _ _ Hk1); apply lookup_insert_eq).
  wp_step. eapply get_node_wp; [exact Hat1|].
  apply wp_assoc. wp_step. apply (fill_and_store_wp k1 node n1 off bytes Hat1 Hok1); [lia|cbn; lia|].
  intros k2 data2 n2 Hk2 Hl2 Hc2. cbn in Hl2.
  assert (nodes (fs k2) !! node = Some n2) as Hat2 by (rewrite (nc_nodes _ _ _ _ Hk2); apply lookup_insert_eq).
  wp_step. eapply get_node_wp; [exact Hat2|]. change (n_size n2) with (n_size n). cbn in Hc2. rewrite Hlb in Hc2.
  destruct Hok1 as [Ht1 Hs1 Hc1' Hd1]. cbn in Ht1, Hs1, Hc1', Hd1.
  assert (∀ k3 n3, node_changed node n3 k2 k3 → n3 = with_size (Z.max (n_size n) (off + len)) n2 →
    write_post vn node n buf off len k (ERR_SUCCESS, len) k3) as Hdone.
  { intros k3 n3 Hk3 ->. right. right. split; [done|]. split; [lia|]. eexists.
    split; [eapply node_changed_trans; [eapply node_changed_trans; [exact Hk1|exact Hk2]|exact Hk3]|].
    split_and!; [split; cbn; [exact Ht1|lia|lia|lia]|done| |done..].
    unfold content at 1. cbn. rewrite Hc2. unfold content. cbn.
    unfold content in Hc1. cbn in Hc1. by rewrite Hc1. }
  destruct (Z.ltb_spec (n_size n) (off + len)).
  - wp_step. apply put_node_wp. intros k3 Hk3. wp_step. apply (Hdone k3 _ Hk3). f_equal. lia.
  - wp_step. wp_step. apply (Hdone k2 n2); [by apply node_changed_refl|].
    replace (Z.max (n_size n) (off + len)) with (n_size n) by lia. by destruct n.
Qed.

Lemma length_content n : file_ok n → length (content n) = Z.to_nat (n_size n).
Proof. intros [_ Hs _ Hd]. unfold content. rewrite length_take. lia. Qed.

Lemma read_wp k vn node n off len :
  is_node k vn node n → file_ok n → is_u32 off → is_u32 len →
  ramfs_read_vn vn true off len k =
    Some ((ERR_SUCCESS, Z.of_nat (length (slice (Z.to_nat off) (Z.to_nat len) (content n))),
           slice (Z.to_nat off) (Z.to_nat len) (content n)), k).
Proof.
  unfold is_u32. intros [Hvn (v & Hv & Hvd) Hnode Hat] Hok Ho Hlen. pose proof (length_content n Hok) as Hlc.
  destruct Hok as [Ht Hs Hc Hd]. unfold ramfs_read_vn.
  rewrite (proj2 (Z.eqb_neq vn 0)) by done. cbn [negb orb andb]. rewrite andb_false_r.
  erewrite bind_run by (unfold get_vnode, cread; by rewrite Hv). rewrite Hvd, (proj2 (Z.eqb_neq node 0)) by done.
  erewrite bind_run by (unfold get_node, cread; by rewrite Hat). destruct (type_tests n Ht) as (-> & -> & ->).
  destruct (Z.leb_spec (n_size n) off) as [Hend|Hend]; cbn [orb].
  { assert (slice (Z.to_nat off) (Z.to_nat len) (content n) = []) as ->; [|done].
    unfold slice. by rewrite drop_ge, take_nil by lia. }
  destruct (Z.eqb_spec len 0) as [->|Hl0].
  { unfold slice. change (Z.to_nat 0) with 0%nat. by rewrite take_0. }
  rewrite u32_small by lia.
  set (m := if n_size n - off <? len then n_size n - off else len).
  assert (m = Z.min len (n_size n - off)) as Em by (unfold m; destruct (Z.ltb_spec (n_size n - off) len); lia).
  rewrite (proj2 (Z.ltb_ge _ _)) by lia.
  assert (slice (Z.to_nat off) (Z.to_nat len) (content n) = slice (Z.to_nat off) (Z.to_nat m) (n_data n)) as ->.
  { unfold slice, content.
    replace (Z.to_nat (n_size n)) with (Z.to_nat off + (Z.to_nat (n_size n) - Z.to_nat off))%nat by lia.
    rewrite <- take_drop_commute, take_take. f_equal. lia. }
  rewrite length_slice by lia. by rewrite Z2Nat.id by lia.
Qed.

Lemma file_write_read c off bytes : slice off (length bytes) (file_write c off bytes) = bytes.
Proof. unfold file_write. apply slice_splice_same. rewrite length_extend. lia. Qed.

(** A write to a regular file of the RAM file system fails with the file as
    it was (a range past the end of the size type, no memory), or stores
    exactly the bytes at the offset, zeros in a gap, growing the file to the end
    of the range and keeping every other node; reading the range back then gives
    the bytes that were written. *)
Theorem ramfs_write_read_roundtrip k vn node n buf off len :
  is_node k vn node n → file_ok n → is_u32 off → 0 < len < 2 ^ 32 → len ≤ Z.of_nat (length buf) →
  wp (ramfs_write_vn stale vn (Some buf) off len) (λ r k',
    write_post vn node n buf off len k r k' ∧
    (r.1 = ERR_SUCCESS → ramfs_read_vn vn true off len k' = Some ((ERR_SUCCESS, len, take (Z.to_nat len) buf), k'))) k.
Proof.
  intros Hin Hok Ho Hlen Hbuf. eapply wp_mono; [by apply (write_wp k vn node n)|]. cbn beta.
  intros r k' Hpost. split; [done|]. intros Hr.
  destruct Hpost as [(-> & _)|[(-> & _)|(-> & Hend & n' & Hch & Hok' & Hs & Hc & _)]]; [done|done|].
  pose proof (node_changed_is _ _ _ _ _ _ Hin Hch) as Hin'.
  rewrite (read_wp k' vn node n' off len Hin' Hok' Ho) by (unfold is_u32; lia).
  assert (length (take (Z.to_nat len) buf) = Z.to_nat len) as Hl by (rewrite length_take; lia).
  pose proof (file_write_read (content n) (Z.to_nat off) (take (Z.to_nat len) buf)) as E. rewrite Hl in E.
  rewrite Hc, E, Hl. by rewrite Z2Nat.id by lia.
Qed.

(** Truncating a regular file keeps the bytes below the new size and extends
    with zeros, or fails for lack of memory with the file as it was. *)
Theorem ramfs_truncate_correct k vn node n new_size :
  is_node k vn node n → file_ok n → is_u32 new_size →
  wp (ramfs_truncate_vn stale vn new_size) (λ r k',
    (r = ERR_OUT_OF_MEMORY ∧ node_changed node n k k') ∨
    (r = ERR_SUCCESS ∧ ∃ n', node_changed node n' k k' ∧ file_ok n' ∧ n_size n' = new_size ∧
       content n' = take (Z.to_nat new_size) (extend (content n) (Z.to_nat new_size)))) k.
Proof.
  unfold is_u32. intros Hin Hok Hnew. destruct Hin as [Hvn (v & Hv & Hvd) Hnode Hat] eqn:Ein. clear Ein.
  unfold ramfs_truncate_vn. rewrite (proj2 (Z.eqb_neq vn 0)) by done.
  wp_step. eapply get_vnode_wp; [done|]. rewrite Hvd, (proj2 (Z.eqb_neq node 0)) by done.
  wp_step. eapply get_node_wp; [done|]. destruct (type_tests n (fo_type _ Hok)) as (_ & -> & ->).
  wp_step. eapply wp_mono; [by apply (ensure_capacity_wp k node n)|]. cbn beta.
  intros r k1 [(-> & Hk1)|(-> & data & cap & Hk1 & Hok1 & Hcap & Hc1)].
  { change (negb (ERR_OUT_OF_MEMORY =? ERR_SUCCESS)) with true. cbn iota. wp_step. left. done. }
  on_success. set (n1 := with_buffer data cap n) in *. pose proof (length_content _ Hok) as Hlc.
  assert (nodes (fs k1) !! node = Some n1) as Hat1 by (rewrite (nc_nodes _ _ _ _ Hk1); apply lookup_insert_eq).
  destruct Hok1 as [Ht1 Hs1 Hcap1 Hd1]. cbn in Ht1, Hs1, Hcap1, Hd1.
  assert (∀ k2 data2, node_changed node (with_buffer data2 cap n1) k k2 → Z.of_nat (length data2) = cap →
     take (Z.to_nat new_size) data2 = take (Z.to_nat new_size) (extend (content n) (Z.to_nat new_size)) →
     wp (n ← get_node node; put_node node (with_size new_size n);; mret ERR_SUCCESS) (λ r k',
    (r = ERR_OUT_OF_MEMORY ∧ node_changed node n k k') ∨
    (r = ERR_SUCCESS ∧ ∃ n', node_changed node n' k k' ∧ file_ok n' ∧ n_size n' = new_size ∧
       content n' = take (Z.to_nat new_size) (extend (content n) (Z.to_nat new_size)))) k2) as Hdone.
  { intros k2 data2 Hk2 Hl2 Hc2. wp_step. eapply get_node_wp; [rewrite (nc_nodes _ _ _ _ Hk2); apply lookup_insert_eq|].
    wp_step. apply put_node_wp. intros k3 Hk3. wp_step. right. split; [done|]. eexists.
    split; [by eapply node_changed_trans|]. split_and!; [split; cbn; [exact Ht1|lia|lia|lia]|done|]. exact Hc2. }
  wp_step. eapply get_node_wp; [exact Hat1|]. change (n_size n1) with (n_size n). wp_step.
  assert (take (Z.to_nat (n_size n)) data = content n) as Hct by exact Hc1.
  destruct (Z.ltb_spec (n_size n) new_size) as [Hgrow|Hshrink].
  - apply (store_data_wp _ _ n1); [done|lia|unfold zeros; rewrite length_replicate; cbn; lia|].
    intros k2 Hk2. cbn in Hk2. apply (Hdone _ _ (node_changed_trans _ _ _ _ _ _ Hk1 Hk2)).
    + rewrite length_splice; [lia|]. unfold zeros. rewrite length_replicate. lia.
    + unfold extend, splice, zeros. rewrite length_replicate, Hct, Hlc.
      replace (Z.to_nat (new_size - n_size n)) with (Z.to_nat new_size - Z.to_nat (n_size n))%nat by lia.
      rewrite app_assoc, take_app_le, !take_ge; [done|..]; rewrite length_app, length_replicate; lia.
  - wp_step. apply (Hdone k1 data); [exact Hk1|lia|]. unfold extend.
    replace (Z.to_nat new_size - length (content n))%nat with 0%nat by lia. cbn [replicate]. rewrite app_nil_r.
    rewrite <- Hct, take_take. f_equal. lia.
Qed.
End files.

(** ** Directories as lists of entries *)

Section dirs.
Context {D : Type}.
Abbreviation K := (kernel (ramfs D)).
Abbreviation entries := (list (Z * ramfs_node D)).
Implicit Types (k : K) (n : ramfs_node D) (es : entries) (m : gmap Z (ramfs_node D)).

(** The siblings from the address [a] on. *)
Fixpoint chain m (a : Z) es : Prop :=
  match es with
  | [] => a = 0
  | (c, n) :: es => a = c ∧ c ≠ 0 ∧ m !! c = Some n ∧ chain m (n_sibling n) es
  end.

(** The vnode [vn] is the directory node [node] with the entries [es], all of
    different names. *)
Record is_dir k (vn node : Z) (v : vnode) n es : Prop := {
  id_node : is_node k vn node n;
  id_vnode : vnodes k !! vn = Some v ∧ vn_fs_data v = node ∧ vn_type v = VNODE_TYPE_DIR;
  id_chain : chain (nodes (fs k)) (n_children n) es;
  id_nodup : NoDup (node :: es.*1);
  id_names : NoDup (n_name <$> es.*2)
}.

(** Addresses that were never handed out hold nothing. *)
Record store_ok k : Prop := {
  so_next : 0 < next k;
  so_nodes a : next k ≤ a → nodes (fs k) !! a = None;
  so_vnodes a : next k ≤ a → vnodes k !! a = None
}.

Definition find_entry (name : cstring) es : option (Z * ramfs_node D) :=
  List.find (λ e, streq (n_name e.2) name) es.

Lemma find_entry_Some name es c n : find_entry name es = Some (c, n) →
  ∃ es1 es2, es = es1 ++ (c, n) :: es2 ∧ n_name n = name ∧ find_entry name es1 = None.
Proof.
  unfold find_entry. induction es as [|[d nd] es IH]; cbn [List.find snd]; [done|].
  destruct (streq (n_name nd) name) eqn:E.
  - intros [= -> ->]. apply streq_true in E. by exists [], es.
  - intros (es1 & es2 & -> & ? & ?)%IH. exists ((d, nd) :: es1), es2. split_and!; [done|done|]. cbn. by rewrite E.
Qed.

Lemma find_entry_None name es : find_entry name es = None ↔ name ∉ n_name <$> es.*2.
Proof.
  unfold find_entry. induction es as [|[d nd] es IH]; cbn [List.find snd]; [split; [intros _ H; inversion H|done]|].
  rewrite !fmap_cons, not_elem_of_cons. cbn [snd]. destruct (streq (n_name nd) name) eqn:E.
  - apply streq_true in E. naive_solver.
  - apply streq_false in E. rewrite IH. naive_solver.
Qed.

Lemma chain_elem m a es c n : chain m a es → (c, n) ∈ es → m !! c = Some n ∧ c ≠ 0.
Proof.
  revert a. induction es as [|[d nd] es IH]; intros a; [by intros _ ?%elem_of_nil|].
  cbn [chain]. intros (_ & ? & ? & Hc) [[= -> ->]|Hin]%elem_of_cons; [done|by eapply IH].
Qed.

Lemma children_length m a es : chain m a es → NoDup es.*1 → (length es ≤ size m)%nat.
Proof.
  intros Hc Hnd. rewrite <- (length_fmap fst es). rewrite <- (size_list_to_set (C := gset Z)) by done.
  rewrite <- (size_dom (D := gset Z) m). apply subseteq_size. intros c Hin.
  apply elem_of_list_to_set in Hin. apply list_elem_of_fmap in Hin as ([d n] & -> & Hin).
  apply elem_of_dom. destruct (chain_elem _ _ _ _ _ Hc Hin). by eexists.
Qed.

(** A change of other nodes keeps a chain. *)
Lemma chain_frame m m' a es : chain m a es → (∀ c n, (c, n) ∈ es → m' !! c = m !! c) → chain m' a es.
Proof.
  revert a. induction es as [|[d nd] es IH]; intros a; cbn [chain]; [done|].
  intros (? & ? & Hd & Hc) Hm. split_and!; [done|done| |].
  - rewrite (Hm d nd); [done|by constructor].
  - apply IH; [done|]. intros c n Hin. apply (Hm c n). by constructor.
Qed.

Lemma find_child_run k name fuel a es :
  chain (nodes (fs k)) a es → (length es ≤ fuel)%nat →
  find_child_from name fuel a k = Some (match find_entry name es with Some (c, _) => c | None => 0 end, k).
Proof.
  revert fuel a. induction es as [|[c n] es IH]; intros fuel a Hc Hf; cbn [chain] in Hc.
  - subst a. by destruct fuel.
  - destruct Hc as (-> & Hc0 & Hcn & Hc). destruct fuel as [|fuel]; cbn [length] in Hf; [lia|].
    cbn [find_child_from]. rewrite (proj2 (Z.eqb_neq c 0)) by done.
    erewrite bind_run by (unfold get_node, cread; by rewrite Hcn).
    unfold find_entry. cbn [List.find snd]. destruct (streq (n_name n) name); [done|]. apply IH; [done|lia].
Qed.

Lemma ramfs_find_child_run k node n es name :
  nodes (fs k) !! node = Some n → chain (nodes (fs k)) (n_children n) es → NoDup es.*1 →
  ramfs_find_child node name k = Some (match find_entry name es with Some (c, _) => c | None => 0 end, k).
Proof.
  intros Hn Hc Hnd. unfold ramfs_find_child. erewrite bind_run by done.
  erewrite bind_run by (unfold get_node, cread; by rewrite Hn).
  apply find_child_run; [done|]. by eapply children_length.
Qed.

(** [ramfs_node_vnode]: the cached vnode, or a new one. *)
Lemma node_vnode_wp k mp node n :
  store_ok k → nodes (fs k) !! node = Some n → node ≠ 0 →
  wp (ramfs_node_vnode mp node) (λ vn k',
    (n_vnode_cache n ≠ 0 ∧ vn = n_vnode_cache n ∧ k' = k) ∨
    (n_vnode_cache n = 0 ∧ vn = 0 ∧ node_changed node n k k') ∨
    (n_vnode_cache n = 0 ∧ vn = next k ∧ next k' = next k + 1 ∧ nodes (fs k') = <[node := with_cache vn n]> (nodes (fs k)) ∧
     vnodes k' = <[vn := mk_vnode (n_type n) 1 mp RAMFS_OPS node 0]> (vnodes k) ∧
     files k' = files k)) k.
Proof.
  intros Hok Hn H0. unfold ramfs_node_vnode. rewrite (proj2 (Z.eqb_neq node 0)) by done.
  wp_step. eapply get_node_wp; [done|]. destruct (Z.eqb_spec (n_vnode_cache n) 0) as [E|E].
  2: { wp_step. by left. }
  wp_step. unfold vnode_create. wp_step. apply kalloc_wp; intros o.
  - cbn [Z.eqb]. wp_step. wp_step. apply wp_modify. wp_step. right. left. split_and!; [done|done|].
    replace (with_cache 0 n) with n by (rewrite <- E; by destruct n).
    split; cbn; try done.
  - pose proof (so_next _ Hok). rewrite (proj2 (Z.eqb_neq (next k) 0)) by lia.
    wp_step. apply wp_modify. wp_step. wp_step. apply wp_modify. wp_step. right. right. by split_and!.
Qed.

(** The guards that the directory operations share. *)
Lemma dir_guard {A} k vn node v n es (f : vnode → cmd K A) :
  is_dir k vn node v n es → (v0 ← get_vnode vn; f v0) k = f v k ∧ (vn =? 0) = false ∧ (vn_fs_data v =? 0) = false ∧
  bool_decide (vn_type v = VNODE_TYPE_DIR) = true ∧ nodes (fs k) !! node = Some n ∧ vn_fs_data v = node ∧ node ≠ 0.
Proof.
  intros [[Hvn _ Hnode Hat] (Hv & Hd & Ht) _ _ _]. split_and!; try done.
  - unfold get_vnode. by erewrite bind_run by (unfold cread; by rewrite Hv).
  - by apply Z.eqb_neq.
  - apply Z.eqb_neq. congruence.
  - by rewrite bool_decide_true.
Qed.

(** Looking a name up in a directory of the RAM file system finds the node
    of that name exactly when the directory has one; the answer is the node's
    vnode, which is created at most once, and no file or directory changes. *)
Theorem ramfs_lookup_correct k vn node v n es name :
  is_dir k vn node v n es → store_ok k → name ≠ DOT → name ≠ DOTDOT →
  wp (ramfs_lookup_vn vn (Some name) true) (λ r k',
    match find_entry name es with
    | None => r = (ERR_NOT_FOUND, 0) ∧ k' = k
    | Some (c, nc) =>
      (n_vnode_cache nc ≠ 0 ∧ r = (ERR_SUCCESS, n_vnode_cache nc) ∧ k' = k) ∨
      (n_vnode_cache nc = 0 ∧ r = (ERR_OUT_OF_MEMORY, 0) ∧ nodes (fs k') = nodes (fs k) ∧ vnodes k' = vnodes k) ∨
      (n_vnode_cache nc = 0 ∧ r = (ERR_SUCCESS, next k) ∧
       nodes (fs k') = <[c := with_cache (next k) nc]> (nodes (fs k)) ∧
       vnodes k' = <[next k := mk_vnode (n_type nc) 1 (vn_mount v) RAMFS_OPS c 0]> (vnodes k))
    end) k.
Proof.
  intros Hdir Hok Hd1 Hd2. unfold ramfs_lookup_vn.
  edestruct (dir_guard (A := Z * Z) k vn node v n es) as (Hrun & -> & Hfd & Hty & Hn & Hd & H0); [done|].
  cbn [negb orb]. eapply wp_run_eq; [apply Hrun|]. rewrite Hty, Hfd. cbn [negb].
  rewrite (proj2 (streq_false _ _) Hd1), (proj2 (streq_false _ _) Hd2). rewrite Hd.
  wp_step. eapply wp_eq; [apply (ramfs_find_child_run k node n es); [done|apply Hdir|apply (NoDup_cons_1_2 node), Hdir]|].
  destruct (find_entry name es) as [[c nc]|] eqn:E; [|cbn [Z.eqb]; by wp_step].
  apply find_entry_Some in E as (es1 & es2 & Ees & _ & _).
  destruct (chain_elem _ _ _ c nc (id_chain _ _ _ _ _ _ Hdir)) as [Hc Hc0]; [rewrite Ees; set_solver|].
  rewrite (proj2 (Z.eqb_neq c 0)) by done. wp_step. eapply wp_mono; [by apply (node_vnode_wp k _ c nc)|].
  cbn beta. intros r k' [(Hn0 & -> & ->)|[(Hn0 & -> & Hch)|(Hn0 & -> & _ & Hnodes & Hvn & _)]]; wp_step.
  - left. by rewrite (proj2 (Z.eqb_neq _ 0)).
  - right. left. split_and!; [done|done| |by apply Hch]. rewrite (nc_nodes _ _ _ _ Hch). by apply insert_id.
  - right. right. pose proof (so_next _ Hok). by rewrite (proj2 (Z.eqb_neq _ 0)) by lia.
Qed.

Lemma put_node_run node n' k : put_node node n' k = Some (tt, set_nodes (<[node := n']> (nodes (fs k))) k).
Proof. done. Qed.

(** [ramfs_node_create]: a node at a fresh address, or nothing. *)
Lemma node_create_wp k name type :
  store_ok k →
  wp (ramfs_node_create (Some name) type) (λ c k',
    store_ok k' ∧ vnodes k' = vnodes k ∧
    ((c = 0 ∧ nodes (fs k') = nodes (fs k)) ∨
     (c = next k ∧ next k < next k' ∧
      nodes (fs k') = <[c := mk_node name type 0 0 0 0 [] 0 0 None None]> (nodes (fs k))))) k.
Proof.
  intros [H1 H2 H3]. unfold ramfs_node_create. wp_step. apply kalloc_wp; intros o.
  { cbn [Z.eqb]. wp_step. split_and!; [by split|done|by left]. }
  rewrite (proj2 (Z.eqb_neq (next k) 0)) by lia. wp_step. apply wp_modify. wp_step. apply kalloc_wp; intros o'.
  { cbn [Z.eqb]. wp_step. apply wp_modify. wp_step.
    assert (∀ m : gmap Z (ramfs_node D), m !! next k = None → delete (next k) (<[next k := mk_node [] VNODE_TYPE_NONE 0 0 0 0 [] 0 0 None None]> m) = m) as E
      by (intros m Hm; apply delete_insert_id; exact Hm).
    cbn. rewrite E by (apply H2; lia). split_and!; [|done|by left].
    split; cbn; [lia|intros a Ha; apply H2; lia|intros a Ha; apply H3; lia]. }
  cbn [next set_nodes set_heap set_fs]. rewrite (proj2 (Z.eqb_neq (next k + 1) 0)) by lia.
  wp_step. apply wp_modify. wp_step. split_and!; [|done|right; split_and!; [done|cbn; lia|]].
  - split; cbn; [lia| |intros a Ha; apply H3; lia].
    intros a Ha. rewrite !lookup_insert_ne by lia. apply H2. lia.
  - cbn. by rewrite insert_insert_eq.
Qed.

(** Adding a node in front of the children. *)
Lemma chain_add m node n es c cn :
  chain m (n_children n) es → m !! node = Some n → NoDup (node :: es.*1) → m !! c = None → c ≠ 0 →
  n_sibling cn = n_children n →
  chain (<[node := with_children c n]> (<[c := cn]> m)) c ((c, cn) :: es) ∧ NoDup (node :: c :: es.*1).
Proof.
  intros Hc Hn Hnd Hm Hc0 Hs.
  assert (c ≠ node) as Hne by congruence.
  assert (∀ d nd, (d, nd) ∈ es → d ≠ c ∧ d ≠ node) as Hes.
  { intros d nd Hin. destruct (chain_elem _ _ _ _ _ Hc Hin). split; [congruence|]. intros ->.
    inversion Hnd as [|? ? Hnin _]. apply Hnin. apply list_elem_of_fmap. by exists (node, nd). }
  split.
  - cbn [chain]. split_and!; [done|done|by rewrite lookup_insert_ne, lookup_insert_eq by done|]. rewrite Hs.
    eapply chain_frame; [exact Hc|]. intros d nd Hin. destruct (Hes _ _ Hin).
    by rewrite !lookup_insert_ne by done.
  - inversion Hnd as [|? ? Hnin Hnd']. constructor; [set_solver|]. constructor; [|done].
    intros ([d nd] & -> & Hin)%list_elem_of_fmap. by destruct (Hes _ _ Hin).
Qed.

(** Growing the heap keeps the store in order. *)
Lemma store_ok_grows k k' : store_ok k → next k ≤ next k' → nodes (fs k') = nodes (fs k) → vnodes k' = vnodes k → store_ok k'.
Proof. intros [H1 H2 H3] Hn EN EV. split; [lia| |]; intros a Ha; rewrite ?EN, ?EV; [apply H2|apply H3]; lia. Qed.

Lemma create_wp k vn node v n es name type :
  is_dir k vn node v n es → store_ok k →
  wp (ramfs_create_vn vn (Some name) type true) (λ r k',
    if bad_name name then r = (ERR_INVALID_ARGUMENT, 0) ∧ k' = k else
    if negb (creatable type) then r = (ERR_NOT_SUPPORTED, 0) ∧ k' = k else
    if bool_decide (is_Some (find_entry name es)) then r = (ERR_ALREADY_EXISTS, 0) ∧ k' = k else
    (r = (ERR_OUT_OF_MEMORY, 0) ∧ nodes (fs k') = nodes (fs k) ∧ vnodes k' = vnodes k ∧ store_ok k') ∨
    (∃ c cv, let cn := mk_node name type cv node (n_children n) 0 [] 0 0 None None in
       r = (ERR_SUCCESS, cv) ∧ nodes (fs k) !! c = None ∧ vnodes k !! cv = None ∧
       nodes (fs k') = <[node := with_children c n]> (<[c := cn]> (nodes (fs k))) ∧
       vnodes k' = <[cv := mk_vnode type 1 (vn_mount v) RAMFS_OPS c 0]> (vnodes k) ∧
       is_dir k' vn node v (with_children c n) ((c, cn) :: es) ∧ cv ≠ 0 ∧ store_ok k')) k.
Proof.
  intros Hdir Hok. unfold ramfs_create_vn.
  edestruct (dir_guard (A := Z * Z) k vn node v n es) as (Hrun & -> & Hfd & Hty & Hn & Hd & H0); [done|].
  cbn [negb orb]. eapply wp_run_eq; [apply Hrun|]. rewrite Hty. cbn [negb].
  destruct (bad_name name); [by wp_step|]. destruct (creatable type) eqn:Ecr; cbn [negb]; [|by wp_step].
  rewrite Hfd. rewrite Hd.
  wp_step. eapply wp_eq; [apply (ramfs_find_child_run k node n es); [done|apply Hdir|apply (NoDup_cons_1_2 node), Hdir]|].
  destruct (find_entry name es) as [[c nc]|] eqn:E.
  { apply find_entry_Some in E as (es1 & es2 & Ees & _ & _).
    destruct (chain_elem _ _ _ c nc (id_chain _ _ _ _ _ _ Hdir)) as [Hc Hc0]; [rewrite Ees; set_solver|].
    rewrite (proj2 (Z.eqb_neq c 0)) by done. cbn [negb]. wp_step. by rewrite bool_decide_true. }
  rewrite bool_decide_false by (intros [? ?]; done). cbn [Z.eqb negb].
  wp_step. eapply wp_mono; [by apply node_create_wp|]. cbn beta.
  intros c k1 (Hok1 & Hv1 & [(-> & Hn1)|(-> & Hx1 & Hn1)]).
  { cbn [Z.eqb]. wp_step. left. by split_and!. }
  pose proof (so_next _ Hok) as Hpos. set (c := next k) in *.
  assert (nodes (fs k) !! c = None) as Hcn by (apply Hok; lia).
  rewrite (proj2 (Z.eqb_neq c 0)) by lia.
  assert (c ≠ node) as Hne by congruence.
  wp_step. eapply get_node_wp; [rewrite Hn1; apply lookup_insert_eq|]. wp_step. apply put_node_wp. intros k2 Hk2.
  set (cp := with_parent node _) in Hk2.
  assert (store_ok k2) as Hok2.
  { destruct Hok1 as [X1 X2 X3], Hk2 as [Y1 _ _ Y4 _ _ Y7]. split; [lia| |].
    - intros a Ha. rewrite Y1, lookup_insert_ne by lia. apply X2. lia.
    - intros a Ha. rewrite Y4. apply X3. lia. }
  assert (nodes (fs k2) !! c = Some cp) as Hat2 by (rewrite (nc_nodes _ _ _ _ Hk2); apply lookup_insert_eq).
  assert (nodes (fs k2) = <[c := cp]> (nodes (fs k))) as Hn2 by (by rewrite (nc_nodes _ _ _ _ Hk2), Hn1, insert_insert_eq).
  assert (vnodes k2 = vnodes k) as Hv2 by (by rewrite (nc_vnodes _ _ _ _ Hk2)).
  wp_step. eapply wp_mono; [apply (node_vnode_wp k2 (vn_mount v) c cp Hok2 Hat2); lia|]. cbn beta.
  intros cv k3 [(Hbad & _)|[(_ & -> & Hk3)|(_ & -> & Hx3 & Hn3 & Hv3 & _)]]; [done| |].
  - cbn [Z.eqb]. wp_step. eapply get_node_wp; [rewrite (nc_nodes _ _ _ _ Hk3); apply lookup_insert_eq|].
    wp_step. apply put_node_wp. intros k4 Hk4. wp_step. unfold ramfs_node_release.
    rewrite (proj2 (Z.eqb_neq c 0)) by lia. wp_step.
    eapply get_node_wp; [rewrite (nc_nodes _ _ _ _ Hk4); apply lookup_insert_eq|]. cbn [n_vnode_cache with_parent cp Z.eqb negb].
    unfold ramfs_node_free. rewrite (proj2 (Z.eqb_neq c 0)) by lia. apply wp_modify. wp_step. left.
    assert (Hback : nodes (fs (set_nodes (delete c (nodes (fs k4))) k4)) = nodes (fs k)).
    { cbn. rewrite (nc_nodes _ _ _ _ Hk4), (nc_nodes _ _ _ _ Hk3), Hn2, !insert_insert_eq. by apply delete_insert_id. }
    assert (HvB : vnodes k4 = vnodes k) by (by rewrite (nc_vnodes _ _ _ _ Hk4), (nc_vnodes _ _ _ _ Hk3)).
    split_and!; [done|exact Hback|exact HvB|]. pose proof (nc_next _ _ _ _ Hk2). pose proof (nc_next _ _ _ _ Hk3). pose proof (nc_next _ _ _ _ Hk4).
    apply (store_ok_grows k); [done|cbn; lia|by rewrite Hback|cbn; by rewrite HvB].
  - pose proof (so_next _ Hok2). rewrite (proj2 (Z.eqb_neq (next k2) 0)) by lia.
    assert (nodes (fs k3) !! node = Some n) as Hat3 by (rewrite Hn3, Hn2, !lookup_insert_ne by done; exact Hn).
    wp_step. eapply get_node_wp; [exact Hat3|].
    wp_step. eapply get_node_wp; [rewrite Hn3; apply lookup_insert_eq|].
    wp_step. apply put_node_wp. intros k4 Hk4. wp_step.
    eapply get_node_wp; [rewrite (nc_nodes _ _ _ _ Hk4), lookup_insert_ne by done; exact Hat3|].
    wp_step. apply put_node_wp. intros k5 Hk5. wp_step. right. exists c, (next k2). cbn zeta.
    set (cn := mk_node name type (next k2) node (n_children n) 0 [] 0 0 None None).
    assert (nodes (fs k5) = <[node := with_children c n]> (<[c := cn]> (nodes (fs k)))) as Hn5.
    { rewrite (nc_nodes _ _ _ _ Hk5), (nc_nodes _ _ _ _ Hk4), Hn3, Hn2, !insert_insert_eq. done. }
    assert (vnodes k !! next k2 = None) as Hcv by (rewrite <- Hv2; apply Hok2; lia).
    assert (vnodes k5 = <[next k2 := mk_vnode type 1 (vn_mount v) RAMFS_OPS c 0]> (vnodes k)) as Hv5.
    { by rewrite (nc_vnodes _ _ _ _ Hk5), (nc_vnodes _ _ _ _ Hk4), Hv3, Hv2. }
    destruct Hdir as [[Hvn (v' & Hvv & Hvd) Hnode Hat] (Hv & Hvd2 & Hvt) Hch Hnd Hnames].
    destruct (chain_add _ node n es c cn Hch Hn Hnd Hcn) as [Hch' Hnd']; [lia|done|].
    assert (vn ≠ next k2) as Hvne by congruence.
    pose proof (nc_next _ _ _ _ Hk2). pose proof (nc_next _ _ _ _ Hk4). pose proof (nc_next _ _ _ _ Hk5).
    split_and!; [done|done|done|done|done| |lia|].
    2: { split; [lia| |]; intros a Ha; rewrite ?Hn5, ?Hv5, !lookup_insert_ne; try apply Hok; try lia. intros <-. rewrite (so_nodes _ Hok) in Hn by lia. done. }
    split.
    + split; [done| |done|by rewrite Hn5, lookup_insert_eq]. exists v. by rewrite Hv5, lookup_insert_ne by done.
    + by rewrite Hv5, lookup_insert_ne by done.
    + by rewrite Hn5.
    + done.
    + rewrite fmap_cons. cbn. constructor; [|done]. by apply find_entry_None.
Qed.

(** Creating an entry refuses bad names, unknown types and names that the
    directory has, and a failed allocation leaves no node and no vnode behind;
    otherwise the directory gets one new entry in front, empty, with that name
    and type and a vnode with one reference, its names still differ, and every
    other node is as it was. *)
Theorem ramfs_create_correct k vn node v n es name type :
  is_dir k vn node v n es → store_ok k →
  wp (ramfs_create_vn vn (Some name) type true) (λ r k',
    if bad_name name then r = (ERR_INVALID_ARGUMENT, 0) ∧ k' = k else
    if negb (creatable type) then r = (ERR_NOT_SUPPORTED, 0) ∧ k' = k else
    if bool_decide (is_Some (find_entry name es)) then r = (ERR_ALREADY_EXISTS, 0) ∧ k' = k else
    (r = (ERR_OUT_OF_MEMORY, 0) ∧ nodes (fs k') = nodes (fs k) ∧ vnodes k' = vnodes k) ∨
    (∃ c cv, let cn := mk_node name type cv node (n_children n) 0 [] 0 0 None None in
       r = (ERR_SUCCESS, cv) ∧ nodes (fs k) !! c = None ∧ vnodes k !! cv = None ∧
       nodes (fs k') = <[node := with_children c n]> (<[c := cn]> (nodes (fs k))) ∧
       vnodes k' = <[cv := mk_vnode type 1 (vn_mount v) RAMFS_OPS c 0]> (vnodes k) ∧
       is_dir k' vn node v (with_children c n) ((c, cn) :: es))) k.
Proof.
  intros Hdir Hok. eapply wp_mono; [by apply (create_wp k vn node v n es)|]. cbn beta. intros r k'.
  destruct (bad_name name); [done|]. destruct (negb (creatable type)); [done|]. case_bool_decide; [done|].
  intros [(? & ? & ? & _)|(c & cv & ? & ? & ? & ? & ? & ? & _)]; [by left|]. right. by exists c, cv.
Qed.

(** *** Removing an entry *)

(** The entries before a removed one: the last is linked to [s]. *)
Fixpoint relink es (s : Z) : entries :=
  match es with
  | [] => []
  | (p, np) :: es => match es with [] => [(p, with_sibling s np)] | _ => (p, np) :: relink es s end
  end.

Lemma relink_snoc es p np s : relink (es ++ [(p, np)]) s = es ++ [(p, with_sibling s np)].
Proof.
  induction es as [|[q nq] es IH]; [done|]. cbn [app relink]. rewrite IH. by destruct es.
Qed.

Lemma chain_unlink m m' a es1 c nc es2 :
  chain m a (es1 ++ (c, nc) :: es2) →
  (∀ d nd, (d, nd) ∈ relink es1 (n_sibling nc) ++ es2 → m' !! d = Some nd) →
  chain m' (match es1 with [] => n_sibling nc | _ => a end) (relink es1 (n_sibling nc) ++ es2).
Proof.
  revert a. induction es1 as [|[p np] es1 IH]; intros a Hc Hm.
  - cbn in *. destruct Hc as (_ & _ & _ & Hc). eapply chain_frame; [exact Hc|]. intros d nd Hin.
    rewrite (Hm d nd Hin). by destruct (chain_elem _ _ _ _ _ Hc Hin) as [-> _].
  - cbn [app chain] in Hc. destruct Hc as (-> & Hp0 & Hp & Hc). destruct es1 as [|e es1].
    + cbn [relink app chain] in *. split_and!; [done|done|apply Hm; by left|].
      destruct Hc as (_ & _ & _ & Hc). eapply chain_frame; [exact Hc|]. intros d nd Hin.
      rewrite (Hm d nd) by (by right). by destruct (chain_elem _ _ _ _ _ Hc Hin) as [-> _].
    + change (relink ((p, np) :: e :: es1) (n_sibling nc)) with ((p, np) :: relink (e :: es1) (n_sibling nc)) in *.
      cbn [app chain]. split_and!; [done|done|apply Hm; by left|]. apply (IH _ Hc). intros d nd Hin. apply Hm. by right.
Qed.

(** The link that points to the entry after [es], from a directory's first link. *)
Definition link_after (l : link) es : link := match last es with Some (p, _) => Sibling p | None => l end.

Lemma unlink_walk k name fuel l a es1 c nc es2 :
  read_link l k = Some (a, k) → chain (nodes (fs k)) a (es1 ++ (c, nc) :: es2) →
  find_entry name es1 = None → n_name nc = name → (length es1 < fuel)%nat →
  unlink_from name fuel l k = unlink_child (link_after l es1) c nc k.
Proof.
  revert fuel l a. induction es1 as [|[p np] es1 IH]; intros [|fuel] l a Hl Hc Hf Hn Hfu; cbn [length] in Hfu; try lia.
  - cbn in Hc. destruct Hc as (-> & Hc0 & Hcn & _). cbn [unlink_from].
    erewrite bind_run by exact Hl. rewrite (proj2 (Z.eqb_neq c 0)) by done.
    erewrite bind_run by (unfold get_node, cread; by rewrite Hcn). by rewrite Hn, streq_refl.
  - cbn [app chain] in Hc. destruct Hc as (-> & Hp0 & Hpn & Hc). cbn [unlink_from].
    erewrite bind_run by exact Hl. rewrite (proj2 (Z.eqb_neq p 0)) by done.
    erewrite bind_run by (unfold get_node, cread; by rewrite Hpn).
    unfold find_entry in Hf. cbn [List.find snd] in Hf. destruct (streq (n_name np) name); [done|].
    rewrite (IH fuel (Sibling p) (n_sibling np)); [|by cbn; erewrite bind_run by (unfold get_node, cread; by rewrite Hpn)|done|done|done|lia].
    unfold link_after. rewrite last_cons. by destruct (last es1) as [[? ?]|].
Qed.

Lemma unlink_missing k name fuel l a es :
  read_link l k = Some (a, k) → chain (nodes (fs k)) a es → find_entry name es = None → (length es ≤ fuel)%nat →
  unlink_from name fuel l k = Some (ERR_NOT_FOUND, k).
Proof.
  revert fuel l a. induction es as [|[p np] es IH]; intros fuel l a Hl Hc Hf Hfu; cbn [length chain] in *.
  - subst a. destruct fuel; cbn [unlink_from]; by erewrite bind_run by exact Hl.
  - destruct Hc as (-> & Hp0 & Hpn & Hc). destruct fuel as [|fuel]; [lia|]. cbn [unlink_from].
    erewrite bind_run by exact Hl. rewrite (proj2 (Z.eqb_neq p 0)) by done.
    erewrite bind_run by (unfold get_node, cread; by rewrite Hpn).
    unfold find_entry in Hf. cbn [List.find snd] in Hf. destruct (streq (n_name np) name); [done|].
    apply (IH fuel (Sibling p) (n_sibling np)); [by cbn; erewrite bind_run by (unfold get_node, cread; by rewrite Hpn)|done|done|lia].
Qed.

(** The node of a directory entry and its cached vnode point at each other. *)
Definition cache_ok k (c : Z) n : Prop :=
  n_vnode_cache n ≠ 0 →
  ∃ vc, vnodes k !! n_vnode_cache n = Some vc ∧ vn_ops vc = RAMFS_OPS ∧ vn_fs_data vc = c ∧ 0 < vn_refcnt vc.

(** Whether somebody still holds a reference beside the cache. *)
Definition held k n : bool :=
  match vnodes k !! n_vnode_cache n with
  | Some vc => negb (n_vnode_cache n =? 0) && (1 <? vn_refcnt vc)
  | None => false
  end.

(** What a release leaves: a node that is held stays, out of the tree, behind
    its vnode; any other is freed with its vnode. *)
Definition released k (c : Z) n k' : Prop :=
  files k' = files k ∧
  if held k n then
    nodes (fs k') = <[c := with_cache 0 n]> (nodes (fs k)) ∧
    vnodes k' = alter (λ vc, with_refcnt (vn_refcnt vc - 1) vc) (n_vnode_cache n) (vnodes k)
  else
    nodes (fs k') = delete c (nodes (fs k)) ∧
    vnodes k' = if n_vnode_cache n =? 0 then vnodes k else delete (n_vnode_cache n) (vnodes k).

Lemma node_release_wp k c n :
  nodes (fs k) !! c = Some n → c ≠ 0 → cache_ok k c n →
  wp (ramfs_node_release c) (λ _ k', released k c n k') k.
Proof.
  intros Hn H0 Hcache. unfold ramfs_node_release, released, held. rewrite (proj2 (Z.eqb_neq c 0)) by done.
  wp_step. eapply get_node_wp; [done|]. destruct (Z.eqb_spec (n_vnode_cache n) 0) as [E|E]; cbn [negb].
  { unfold ramfs_node_free. rewrite (proj2 (Z.eqb_neq c 0)) by done. apply wp_modify. split; [done|].
    by destruct (vnodes k !! n_vnode_cache n). }
  destruct (Hcache E) as (vc & Hvc & Hops & Hdata & Href). rewrite Hvc. cbn [andb].
  wp_step. apply put_node_wp. intros k1 Hk1. unfold vnode_unref. rewrite (proj2 (Z.eqb_neq _ 0)) by done.
  assert (vnodes k1 !! n_vnode_cache n = Some vc) as Hvc1 by (by rewrite (nc_vnodes _ _ _ _ Hk1)).
  wp_step. eapply get_vnode_wp; [done|]. rewrite (proj2 (Z.eqb_neq (vn_refcnt vc) 0)) by lia.
  wp_step. apply wp_modify. destruct (Z.ltb_spec 1 (vn_refcnt vc)) as [Hheld|Hlast].
  - rewrite (proj2 (Z.eqb_neq (vn_refcnt vc - 1) 0)) by lia. wp_step. split_and!; cbn.
    + by rewrite (nc_files _ _ _ _ Hk1).
    + by rewrite (nc_nodes _ _ _ _ Hk1).
    + rewrite (nc_vnodes _ _ _ _ Hk1). apply map_eq. intros i. destruct (decide (i = n_vnode_cache n)) as [->|].
      * by rewrite lookup_alter_eq, lookup_insert_eq, Hvc.
      * by rewrite lookup_alter_ne, lookup_insert_ne.
  - rewrite (proj2 (Z.eqb_eq (vn_refcnt vc - 1) 0)) by lia. unfold destroy_of. rewrite Hops. cbn [Z.eqb RAMFS_OPS Pos.eqb].
    wp_step. unfold ramfs_destroy_vnode. rewrite (proj2 (Z.eqb_neq _ 0)) by done.
    wp_step. eapply get_vnode_wp; [apply lookup_insert_eq|]. cbn [vn_fs_data with_refcnt]. rewrite Hdata.
    rewrite (proj2 (Z.eqb_neq c 0)) by done.
    wp_step. eapply get_node_wp; [cbn; rewrite (nc_nodes _ _ _ _ Hk1); apply lookup_insert_eq|].
    cbn [n_vnode_cache with_cache]. rewrite (proj2 (Z.eqb_neq 0 _)) by done. wp_step. wp_step. wp_step. apply wp_modify.
    unfold ramfs_node_free. rewrite (proj2 (Z.eqb_neq c 0)) by done. apply wp_modify.
    apply wp_modify. split_and!; cbn.
    + by rewrite (nc_files _ _ _ _ Hk1).
    + by rewrite (nc_nodes _ _ _ _ Hk1), delete_insert_eq.
    + by rewrite !delete_insert_eq, (nc_vnodes _ _ _ _ Hk1).
Qed.

(** The directory's node after the removal of the entry behind [es1]. *)
Definition first_link es1 (s : Z) n : ramfs_node D := match es1 with [] => with_children s n | _ => n end.

(** The node that holds the link to the removed entry. *)
Definition link_holder (node : Z) n es1 (s : Z) : Z * ramfs_node D :=
  match last es1 with Some (p, np) => (p, with_sibling s np) | None => (node, with_children s n) end.

Lemma write_link_wp k node n es1 s Q :
  nodes (fs k) !! node = Some n → (∀ d nd, (d, nd) ∈ es1 → nodes (fs k) !! d = Some nd) →
  (∀ k', node_changed (link_holder node n es1 s).1 (link_holder node n es1 s).2 k k' → Q tt k') →
  wp (write_link (link_after (Children node) es1) s) Q k.
Proof.
  intros Hn Hes HQ. unfold link_holder, link_after in *. destruct (last es1) as [[p np]|] eqn:E; cbn in *.
  - wp_step. eapply get_node_wp; [apply (Hes p np), last_Some_elem_of, E|]. by apply put_node_wp.
  - wp_step. eapply get_node_wp; [done|]. by apply put_node_wp.
Qed.

(** The entries that stay, in a store whose link holder has changed. *)
Lemma remaining_entries m node n es1 c nc es2 s :
  chain m (n_children n) (es1 ++ (c, nc) :: es2) → NoDup (node :: (es1 ++ (c, nc) :: es2).*1) → m !! node = Some n →
  let m' := <[(link_holder node n es1 s).1 := (link_holder node n es1 s).2]> m in
  c ≠ node ∧ (link_holder node n es1 s).1 ≠ c ∧ m' !! c = Some nc ∧ m' !! node = Some (first_link es1 s n) ∧
  (∀ d nd, (d, nd) ∈ relink es1 s ++ es2 → m' !! d = Some nd ∧ d ≠ c ∧ d ≠ node).
Proof.
  intros Hc Hnd Hn m'. apply NoDup_cons in Hnd as [Hnode Hnd]. rewrite fmap_app, fmap_cons in Hnd, Hnode.
  apply NoDup_app in Hnd as (Hnd1 & Hdis & Hnd2). apply NoDup_cons in Hnd2 as [Hc2 Hnd2]. cbn [fst] in *.
  assert (∀ d nd, (d, nd) ∈ es1 ++ (c, nc) :: es2 → m !! d = Some nd) as Hm
    by (intros d nd Hin; by apply (chain_elem _ _ _ _ _ Hc Hin)).
  assert (∀ d nd, (d, nd) ∈ es2 → d ∈ es2.*1) as Hin2 by (intros d nd Hin; apply list_elem_of_fmap; by exists (d, nd)).
  assert (∀ d nd, (d, nd) ∈ es1 → d ∈ es1.*1) as Hin1 by (intros d nd Hin; apply list_elem_of_fmap; by exists (d, nd)).
  assert (c ≠ node) as Hcn by set_solver.
  unfold m', link_holder, first_link. destruct (exists_last_or es1) as [->|(es0 & [p np] & ->)].
  - cbn. split_and!; [done|done|rewrite lookup_insert_ne by done; apply Hm; set_solver|apply lookup_insert_eq|].
    intros d nd Hin. assert (d ∈ es2.*1) by eauto. assert (d ≠ node) by set_solver. assert (d ≠ c) by set_solver.
    split_and!; [rewrite lookup_insert_ne by done; apply Hm; set_solver|done|done].
  - rewrite last_snoc. cbn [fst snd]. assert (p ∈ (es0 ++ [(p, np)]).*1) as Hp by (apply Hin1 with np; set_solver).
    assert (p ≠ c) by set_solver. assert (p ≠ node) by set_solver.
    assert (match es0 ++ [(p, np)] with [] => with_children s n | _ => n end = n) as -> by by destruct es0.
    split_and!; [done|done|rewrite lookup_insert_ne by done; apply Hm; set_solver|rewrite lookup_insert_ne by done; exact Hn|].
    rewrite relink_snoc. intros d nd [[Hin|[= -> ->]%list_elem_of_singleton]%elem_of_app|Hin]%elem_of_app.
    + assert (d ∈ (es0 ++ [(p, np)]).*1) by (apply Hin1 with nd; set_solver).
      assert (d ≠ p). { intros ->. rewrite fmap_app in Hnd1. apply NoDup_app in Hnd1 as (_ & Hx & _).
        eapply (Hx p); [apply list_elem_of_fmap; by exists (p, nd)|cbn; set_solver]. }
      split_and!; [rewrite lookup_insert_ne by done; apply Hm; set_solver|set_solver|set_solver].
    + split_and!; [apply lookup_insert_eq|done|done].
    + assert (d ∈ es2.*1) by eauto. assert (d ≠ p) by set_solver.
      split_and!; [rewrite lookup_insert_ne by done; apply Hm; set_solver|set_solver|set_solver].
Qed.

Lemma relink_fst es s : (relink es s).*1 = es.*1.
Proof.
  destruct (exists_last_or es) as [->|(es0 & [p np] & ->)]; [done|]. by rewrite relink_snoc, !fmap_app.
Qed.
Lemma relink_names es s : n_name <$> (relink es s).*2 = n_name <$> es.*2.
Proof.
  destruct (exists_last_or es) as [->|(es0 & [p np] & ->)]; [done|]. by rewrite relink_snoc, !fmap_app.
Qed.

(** [unlink_child] on the entry behind [es1]. *)
Lemma unlink_child_wp k vn node v n es1 c nc es2 :
  is_dir k vn node v n (es1 ++ (c, nc) :: es2) → cache_ok k c nc →
  bool_decide (n_type nc = VNODE_TYPE_DIR) && negb (n_children nc =? 0) = false →
  wp (unlink_child (link_after (Children node) es1) c nc) (λ r k', r = ERR_SUCCESS ∧
    is_dir k' vn node v (first_link es1 (n_sibling nc) n) (relink es1 (n_sibling nc) ++ es2) ∧
    if held k nc then
      nodes (fs k') !! c = Some (with_cache 0 (with_sibling 0 (with_parent 0 nc))) ∧
      (∃ vc, vnodes k !! n_vnode_cache nc = Some vc ∧
             vnodes k' !! n_vnode_cache nc = Some (with_refcnt (vn_refcnt vc - 1) vc))
    else nodes (fs k') !! c = None ∧ (n_vnode_cache nc ≠ 0 → vnodes k' !! n_vnode_cache nc = None)) k.
Proof.
  intros [[Hvn (v' & Hv' & Hd') Hnode Hat] (Hv & Hvd & Hvt) Hch Hnd Hnames] Hcache Hempty.
  set (s := n_sibling nc). unfold unlink_child. rewrite Hempty.
  destruct (remaining_entries _ node n es1 c nc es2 s Hch Hnd Hat) as (Hnc & Hlc & Hc & Hnode' & Hrest).
  assert (c ≠ 0 ∧ nodes (fs k) !! c = Some nc) as [Hc0 Hcn] by (edestruct (chain_elem _ _ _ c nc Hch); [set_solver|done]).
  wp_step. apply (write_link_wp k node n es1 s); [done|intros d nd Hin; apply (chain_elem _ _ _ d nd Hch); set_solver|].
  intros k1 Hk1. rewrite <- (nc_nodes _ _ _ _ Hk1) in Hc, Hnode', Hrest.
  wp_step. eapply get_node_wp; [exact Hc|]. wp_step. apply put_node_wp. intros k2 Hk2.
  set (nc0 := with_sibling 0 (with_parent 0 nc)) in *.
  assert (vnodes k2 = vnodes k) as Hv2 by (by rewrite (nc_vnodes _ _ _ _ Hk2), (nc_vnodes _ _ _ _ Hk1)).
  assert (nodes (fs k2) !! c = Some nc0) as Hc2 by (rewrite (nc_nodes _ _ _ _ Hk2); apply lookup_insert_eq).
  assert (held k2 nc0 = held k nc) as Hheld by (unfold held; by rewrite Hv2).
  wp_step. eapply wp_mono; [apply (node_release_wp k2 c nc0 Hc2 Hc0)|].
  { intros Hne. rewrite Hv2. by apply Hcache. }
  cbn beta. intros _ k3 [_ Hrel]. rewrite Hheld, Hv2 in Hrel. change (n_vnode_cache nc0) with (n_vnode_cache nc) in Hrel.
  wp_step. split; [done|].
  assert (∀ d, d ≠ c → nodes (fs k3) !! d = nodes (fs k1) !! d) as Hother.
  { intros d Hd. destruct (held k nc); destruct Hrel as [-> _]; rewrite (nc_nodes _ _ _ _ Hk2).
    - by rewrite !lookup_insert_ne.
    - by rewrite lookup_delete_ne, lookup_insert_ne. }
  assert (vnodes k3 !! vn = Some v) as Hvn3.
  { assert (n_vnode_cache nc ≠ 0 → n_vnode_cache nc ≠ vn) as Hne.
    { intros H0 Heq. destruct (Hcache H0) as (vc & Hvc & _ & Hdata & _). rewrite Heq, Hv in Hvc. congruence. }
    unfold held in Hrel. destruct (Z.eqb_spec (n_vnode_cache nc) 0) as [E|E]; cbn [negb andb] in Hrel.
    - destruct (vnodes k !! n_vnode_cache nc); destruct Hrel as [_ ->]; done.
    - destruct (Hcache E) as (vc & Hvc & _). rewrite Hvc in Hrel. specialize (Hne E).
      destruct (1 <? vn_refcnt vc); destruct Hrel as [_ ->]; [by rewrite lookup_alter_ne|by rewrite lookup_delete_ne]. }
  split.
  - split.
    + split; [done|by exists v|done|by rewrite Hother].
    + done.
    + assert (n_children (first_link es1 s n) = match es1 with [] => s | _ => n_children n end) as -> by by destruct es1.
      eapply chain_unlink; [exact Hch|]. intros d nd Hin. destruct (Hrest d nd Hin) as (? & ? & _). by rewrite Hother.
    + rewrite fmap_app, relink_fst. rewrite fmap_app, fmap_cons in Hnd. apply NoDup_cons in Hnd as [Hn1 Hn2].
      apply NoDup_app in Hn2 as (? & Hdis & [? ?]%NoDup_cons). constructor; [set_solver|]. apply NoDup_app. set_solver.
    + rewrite fmap_app, fmap_app, relink_names. rewrite !fmap_app, !fmap_cons in Hnames.
      apply NoDup_app in Hnames as (? & Hdis & [? ?]%NoDup_cons). apply NoDup_app. set_solver.
  - unfold held in Hrel |- *. destruct (vnodes k !! n_vnode_cache nc) as [vc|] eqn:Hvc.
    + destruct (negb (n_vnode_cache nc =? 0) && (1 <? vn_refcnt vc)); destruct Hrel as [-> ->].
      * split; [apply lookup_insert_eq|]. exists vc. by rewrite lookup_alter_eq, Hvc.
      * split; [apply lookup_delete_eq|]. intros H0. rewrite (proj2 (Z.eqb_neq _ 0)) by done. apply lookup_delete_eq.
    + destruct Hrel as [-> ->]. split; [apply lookup_delete_eq|]. intros H0. rewrite (proj2 (Z.eqb_neq _ 0)) by done. apply lookup_delete_eq.
Qed.

(** Removing an entry refuses the special names, reports a name that the
    directory does not have and a directory that is not empty, changing
    nothing; otherwise exactly that entry leaves the directory, and its node is
    freed with its vnode, unless the vnode is held: then the node, its bytes
    included, lives on for the holders. *)
Theorem ramfs_unlink_correct k vn node v n es name :
  is_dir k vn node v n es → (∀ c nc, (c, nc) ∈ es → cache_ok k c nc) →
  wp (ramfs_unlink_vn vn (Some name)) (λ r k',
    if bool_decide (name = []) || streq name DOT || streq name DOTDOT then r = ERR_INVALID_ARGUMENT ∧ k' = k else
    match find_entry name es with
    | None => r = ERR_NOT_FOUND ∧ k' = k
    | Some (c, nc) =>
      if bool_decide (n_type nc = VNODE_TYPE_DIR) && negb (n_children nc =? 0)
      then r = ERR_DIRECTORY_NOT_EMPTY ∧ k' = k
      else r = ERR_SUCCESS ∧ (∃ es1 es2, es = es1 ++ (c, nc) :: es2 ∧
        is_dir k' vn node v (first_link es1 (n_sibling nc) n) (relink es1 (n_sibling nc) ++ es2)) ∧
        if held k nc then
          nodes (fs k') !! c = Some (with_cache 0 (with_sibling 0 (with_parent 0 nc))) ∧
          (∃ vc, vnodes k !! n_vnode_cache nc = Some vc ∧
                 vnodes k' !! n_vnode_cache nc = Some (with_refcnt (vn_refcnt vc - 1) vc))
        else nodes (fs k') !! c = None ∧ (n_vnode_cache nc ≠ 0 → vnodes k' !! n_vnode_cache nc = None)
    end) k.
Proof.
  intros Hdir Hcache. unfold ramfs_unlink_vn.
  edestruct (dir_guard (A := Z) k vn node v n es) as (Hrun & -> & Hfd & Hty & Hn & Hd & H0); [done|].
  eapply wp_run_eq; [apply Hrun|]. rewrite Hty. cbn [negb].
  destruct (bool_decide (name = []) || streq name DOT || streq name DOTDOT); [by wp_step|]. rewrite Hfd, Hd.
  wp_step. wp_step. cbn beta.
  assert (read_link (Children node) k = Some (n_children n, k)) as Hl
    by (cbn; by erewrite bind_run by (unfold get_node, cread; by rewrite Hn)).
  pose proof (children_length _ _ _ (id_chain _ _ _ _ _ _ Hdir) (NoDup_cons_1_2 _ _ (id_nodup _ _ _ _ _ _ Hdir))) as Hlen.
  destruct (find_entry name es) as [[c nc]|] eqn:E.
  2: { eapply wp_eq; [by apply (unlink_missing k name _ _ (n_children n) es Hl); [apply Hdir| |]|]. done. }
  apply find_entry_Some in E as (es1 & es2 & -> & Hname & Hnone).
  eapply wp_run_eq; [apply (unlink_walk k name _ _ (n_children n) es1 c nc es2 Hl); [apply Hdir|done|done|]|].
  { rewrite length_app in Hlen. cbn [length] in Hlen. lia. }
  destruct (bool_decide (n_type nc = VNODE_TYPE_DIR) && negb (n_children nc =? 0)) eqn:Hne.
  { unfold unlink_child. rewrite Hne. by wp_step. }
  eapply wp_mono; [apply (unlink_child_wp k vn node v n es1 c nc es2 Hdir); [apply Hcache; set_solver|done]|].
  cbn beta. intros r k' (-> & Hdir' & Hrest). split; [done|]. split; [|done]. by exists es1, es2.
Qed.
End dirs.

(** ** A small tree

    The root at 10 with the files [b] and [a]; [a] holds three bytes and an open
    file keeps its vnode. *)

Definition ex_root : ramfs_node unit := mk_node [] VNODE_TYPE_DIR 20 0 0 12 [] 0 0 None None.
Definition ex_a : ramfs_node unit := mk_node (cstr "a") VNODE_TYPE_FILE 21 10 0 0 (replicate 64 7) 3 64 None None.
Definition ex_b : ramfs_node unit := mk_node (cstr "b") VNODE_TYPE_FILE 0 10 11 0 [] 0 0 None None.
Definition ex_root_vnode : vnode := mk_vnode VNODE_TYPE_DIR 1 30 RAMFS_OPS 10 0.
Definition ex_a_vnode : vnode := mk_vnode VNODE_TYPE_FILE 2 30 RAMFS_OPS 11 0.
Definition ex_kernel : kernel (ramfs unit) :=
  mk_kernel {[20 := ex_root_vnode; 21 := ex_a_vnode]} ∅ ∅ [] 20 100 []
    (mk_ramfs {[10 := ex_root; 11 := ex_a; 12 := ex_b]} {[31 := 10]} ()).
Definition ex_entries : list (Z * ramfs_node unit) := [(12, ex_b); (11, ex_a)].

Lemma ex_dir : is_dir ex_kernel 20 10 ex_root_vnode ex_root ex_entries.
Proof.
  split.
  - split; [done|by exists ex_root_vnode|done|reflexivity].
  - done.
  - cbn. split_and!; reflexivity || done.
  - by_eval.
  - by_eval.
Qed.
Lemma ex_store : store_ok ex_kernel.
Proof.
  split; [done|..]; intros a Ha; cbn in *.
  - rewrite !lookup_insert_ne, lookup_singleton_ne by lia. done.
  - rewrite lookup_insert_ne, lookup_singleton_ne by lia. done.
Qed.
Lemma ex_is_a : is_node ex_kernel 21 11 ex_a.
Proof. split; [done|by exists ex_a_vnode|done|reflexivity]. Qed.
Lemma ex_a_ok : file_ok ex_a.
Proof. split; [by left|cbn; lia|cbn; lia|reflexivity]. Qed.

Definition ex_stale : nat → Z := λ _, 0xAA.

Lemma ramfs_write_read_roundtrip_witness :
  wp (ramfs_write_vn ex_stale 21 (Some [1; 2; 3]) 70 3) (λ r k', r.1 = ERR_SUCCESS →
    ramfs_read_vn 21 true 70 3 k' = Some ((ERR_SUCCESS, 3, [1; 2; 3]), k')) ex_kernel.
Proof.
  eapply wp_mono; [apply (ramfs_write_read_roundtrip ex_stale ex_kernel 21 11 ex_a [1; 2; 3] 70 3 ex_is_a ex_a_ok); [by_eval|lia|cbn; lia]|].
  intros r k' [_ H]. exact H.
Defined.

Lemma ramfs_truncate_correct_witness :
  wp (ramfs_truncate_vn ex_stale 21 5) (λ r k', r = ERR_SUCCESS → ∃ n', nodes (fs k') !! 11 = Some n' ∧ content n' = [7; 7; 7; 0; 0]) ex_kernel.
Proof.
  eapply wp_mono; [apply (ramfs_truncate_correct ex_stale ex_kernel 21 11 ex_a 5 ex_is_a ex_a_ok); by_eval|].
  intros r k' [(-> & _)|(-> & n' & Hch & _ & _ & Hc)] Hr; [done|]. exists n'. split; [|exact Hc].
  rewrite (nc_nodes _ _ _ _ Hch). apply lookup_insert_eq.
Defined.

Lemma ramfs_lookup_correct_witness :
  wp (ramfs_lookup_vn 20 (Some (cstr "a")) true) (λ r k', r = (ERR_SUCCESS, 21) ∧ k' = ex_kernel) ex_kernel.
Proof.
  eapply wp_mono; [apply (ramfs_lookup_correct ex_kernel 20 10 ex_root_vnode ex_root ex_entries (cstr "a") ex_dir ex_store); done|].
  intros r k' [(_ & -> & ->)|[(H & _)|(H & _)]]; done.
Defined.

Lemma ramfs_create_correct_witness :
  wp (ramfs_create_vn 20 (Some (cstr "a")) VNODE_TYPE_FILE true) (λ r _, r = (ERR_ALREADY_EXISTS, 0)) ex_kernel ∧
  wp (ramfs_create_vn 20 (Some (cstr "c")) VNODE_TYPE_DIR true) (λ r k', r.1 = ERR_SUCCESS →
    ∃ c cn, is_dir k' 20 10 ex_root_vnode (with_children c ex_root) ((c, cn) :: ex_entries) ∧ n_name cn = cstr "c") ex_kernel.
Proof.
  split.
  - eapply wp_mono; [apply (ramfs_create_correct ex_kernel 20 10 ex_root_vnode ex_root ex_entries (cstr "a") VNODE_TYPE_FILE ex_dir ex_store)|].
    intros r k' [-> _]. done.
  - eapply wp_mono; [apply (ramfs_create_correct ex_kernel 20 10 ex_root_vnode ex_root ex_entries (cstr "c") VNODE_TYPE_DIR ex_dir ex_store)|].
    intros r k' [(-> & _)|(c & cv & _ & _ & _ & _ & _ & Hd)] Hr; [done|]. by exists c, (mk_node (cstr "c") VNODE_TYPE_DIR cv 10 12 0 [] 0 0 None None).
Defined.

Lemma ramfs_unlink_correct_witness :
  wp (ramfs_unlink_vn 20 (Some (cstr "a"))) (λ r k', r = ERR_SUCCESS ∧
    is_dir k' 20 10 ex_root_vnode ex_root [(12, with_sibling 0 ex_b)] ∧
    nodes (fs k') !! 11 = Some (with_cache 0 (with_sibling 0 (with_parent 0 ex_a)))) ex_kernel.
Proof.
  eapply wp_mono; [apply (ramfs_unlink_correct ex_kernel 20 10 ex_root_vnode ex_root ex_entries (cstr "a") ex_dir)|].
  - intros c nc [[= -> ->]|[[= -> ->]|?%elem_of_nil]%elem_of_cons]%elem_of_cons Hne; [done| |done].
    exists ex_a_vnode. cbn. split_and!; reflexivity || lia.
  - cbn beta. intros r k' (-> & (es1 & es2 & E & Hd) & Hn & _). split; [done|]. split; [|exact Hn].
    unfold ex_entries in E. destruct es1 as [|e1 [|e2 es1]]; simplify_eq/=; [exact Hd|]. by destruct es1.
Defined.
End Ramfs.
