(* ===== verification/Vfs.v ===== *)
(** * The virtual file system

    [src/kernel/fs/vfs/lookup.c], [vfs.c], [file.c] and [ref.c]: path
    resolution, opening, reading, writing and closing files, creating and
    removing entries, over any file system that provides operations tables. *)

From S2P Require Import Prelude Vnode Objects.
Import Vnode Objects.

Module Vfs.

Definition VFS_NAME_MAX : Z := 255.
Definition VFS_O_CREATE : Z := 4.
Definition SLASH : Z := 47.
Definition DOT : cstring := [46].
Definition DOTDOT : cstring := [46; 46].

(** ** Path components, [lookup.c] *)

Fixpoint skip_slashes (p : cstring) : cstring :=
  match p with
  | c :: p' => if c =? SLASH then skip_slashes p' else p
  | [] => []
  end.

(** The copy loop: [len] bytes are in [name]; [None] is [ERR_NAME_TOO_LONG]. *)
Fixpoint copy_component (len : Z) (name p : cstring) : option (cstring * cstring) :=
  match p with
  | [] => Some (name, [])
  | c :: p' =>
    if c =? SLASH then Some (name, p)
    else if len =? VFS_NAME_MAX then None
    else copy_component (len + 1) (name ++ [c]) p'
  end.

(** The new cursor and the component with [*has_more], when there is one;
    [None] is [ERR_NAME_TOO_LONG]. *)
Definition vfs_next_component (cursor : cstring) : option (cstring * option (cstring * bool)) :=
  match skip_slashes cursor with
  | [] => Some ([], None)
  | p =>
    match copy_component 0 [] p with
    | None => None
    | Some (name, p) =>
      let p := skip_slashes p in
      Some (p, Some (name, negb (bool_decide (p = []))))
    end
  end.

(** [path[path_len - 1] == '/'] *)
Definition ends_in_slash (path : cstring) : bool := bool_decide (last path = Some SLASH).

Section vfs.
Context {F : Type}.
Abbreviation K := (kernel F).
(** The operations tables of the kernel. *)
Context (ops_of : Z → option (vnode_ops K)).
Implicit Types (k : K).

(** [vn->ops && vn->ops->op] *)
Definition has_op {A} (op : vnode_ops K → option A) (v : vnode) : option A := ops_of (vn_ops v) ≫= op.
Definition destroy_of (ops : Z) : option (Z → cmd K unit) := ops_of ops ≫= op_destroy.

Definition vfs_set_root (root : Z) : cmd K Z := cmodify (set_root root);; mret ERR_SUCCESS.
Definition vfs_get_root : cmd K Z := k ← cget; mret (g_root_vnode k).

Definition vfs_lookup_component (dir : Z) (name : cstring) : cmd K (Z * Z) :=
  if dir =? 0 then mret (ERR_INVALID_ARGUMENT, 0) else
  v ← get_vnode dir;
  if negb (bool_decide (vn_type v = VNODE_TYPE_DIR)) then mret (ERR_NOT_DIRECTORY, 0) else
  match has_op op_lookup v with
  | None => mret (ERR_NOT_SUPPORTED, 0)
  | Some lookup => lookup dir (Some name) true
  end.

(** The loop of [vfs_lookup]; a cursor of [n] bytes has at most [n] components. *)
Fixpoint lookup_loop (fuel : nat) (current : Z) (cursor : cstring) : cmd K (Z * Z) :=
  match fuel with
  | O => cundef
  | S fuel =>
    match vfs_next_component cursor with
    | None => mret (ERR_NAME_TOO_LONG, 0)
    | Some (_, None) => mret (ERR_SUCCESS, current)
    | Some (cursor, Some (name, _)) =>
      '(result, next) ← vfs_lookup_component current name;
      if negb (result =? ERR_SUCCESS) then mret (result, 0) else
      if next =? 0 then mret (ERR_INTERNAL, 0) else
      lookup_loop fuel next cursor
    end
  end.

(** A path that ends in a slash names a directory. *)
Definition slash_ok (path : cstring) (vn : Z) : cmd K bool :=
  if ends_in_slash path then v ← get_vnode vn; mret (bool_decide (vn_type v = VNODE_TYPE_DIR)) else mret true.

(** The status and [*out]. *)
Definition vfs_lookup (path : option cstring) (out : bool) : cmd K (Z * Z) :=
  match path with
  | None => mret (ERR_INVALID_ARGUMENT, 0)
  | Some path =>
    if bool_decide (path = []) || negb out then mret (ERR_INVALID_ARGUMENT, 0) else
    current ← vfs_get_root;
    if current =? 0 then mret (ERR_NOT_FOUND, 0) else
    '(result, current) ← lookup_loop (S (length path)) current path;
    if negb (result =? ERR_SUCCESS) then mret (result, 0) else
    ok ← slash_ok path current;
    if negb (ok : bool) then mret (ERR_NOT_DIRECTORY, 0) else
    mret (ERR_SUCCESS, current)
  end.

Definition vfs_resolve (path : option cstring) : cmd K Z :=
  '(result, vn) ← vfs_lookup path true;
  mret (if result =? ERR_SUCCESS then vn else 0).

(** The loop of [vfs_resolve_parent_path]: the status, the parent and the leaf
    name that it allocates. *)
Fixpoint parent_loop (fuel : nat) (current : Z) (cursor : cstring) : cmd K (Z * Z * option cstring) :=
  match fuel with
  | O => cundef
  | S fuel =>
    match vfs_next_component cursor with
    | None => mret (ERR_NAME_TOO_LONG, 0, None)
    | Some (_, None) => mret (ERR_INVALID_ARGUMENT, 0, None)
    | Some (cursor, Some (name, has_more)) =>
      if negb has_more then
        if streq name DOT || streq name DOTDOT then mret (ERR_INVALID_ARGUMENT, 0, None) else
        leaf ← kalloc;
        if leaf =? 0 then mret (ERR_OUT_OF_MEMORY, 0, None) else
        mret (ERR_SUCCESS, current, Some name)
      else
        '(result, next) ← vfs_lookup_component current name;
        if negb (result =? ERR_SUCCESS) then mret (result, 0, None) else
        if next =? 0 then mret (ERR_INTERNAL, 0, None) else
        parent_loop fuel next cursor
    end
  end.

Definition vfs_resolve_parent_path (path : option cstring) (outs : bool) : cmd K (Z * Z * option cstring) :=
  match path with
  | None => mret (ERR_INVALID_ARGUMENT, 0, None)
  | Some path =>
    if bool_decide (path = []) || negb outs then mret (ERR_INVALID_ARGUMENT, 0, None) else
    current ← vfs_get_root;
    if current =? 0 then mret (ERR_NOT_FOUND, 0, None) else
    parent_loop (S (length path)) current path
  end.

(** The parent, which is also the result, and the leaf. *)
Definition vfs_resolve_path (path : option cstring) (outs : bool) : cmd K (Z * option cstring) :=
  if negb outs then mret (0, None) else
  '(result, parent, leaf) ← vfs_resolve_parent_path path true;
  if negb (result =? ERR_SUCCESS) then mret (0, None) else
  mret (parent, leaf).

(** ** Open files, [file.c] and [ref.c] *)

(** The table [vfs_generic_file_ops], the only one; 0 is NULL. *)
Definition GENERIC_FILE_OPS : Z := 1.

Definition vfs_close (f : Z) : cmd K Z :=
  if f =? 0 then mret ERR_SUCCESS else
  fl ← get_file f;
  if 1 <? f_refcount fl then put_file f (with_refcount (f_refcount fl - 1) fl);; mret ERR_SUCCESS else
  (if negb (f_vn fl =? 0) then vnode_unref destroy_of (f_vn fl) else mret tt);;
  free_file f;;
  mret ERR_SUCCESS.

Definition file_ref (f : Z) : cmd K unit :=
  if f =? 0 then mret tt else
  fl ← get_file f;
  put_file f (with_refcount (f_refcount fl + 1) fl).

Definition file_unref (f : Z) : cmd K unit :=
  if f =? 0 then mret tt else
  fl ← get_file f;
  if f_refcount fl <=? 1 then vfs_close f;; mret tt
  else put_file f (with_refcount (f_refcount fl - 1) fl).

(** What follows a transfer of [done] bytes at the file's offset. *)
Definition transfer_done (f : Z) (len result done : Z) : cmd K (Z * Z) :=
  fl ← get_file f;
  if len <? done then mret (ERR_IO_ERROR, 0) else
  if u32 (2 ^ 32 - 1 - f_offset fl) <? done then mret (ERR_INVALID_ARGUMENT, 0) else
  (if result =? ERR_SUCCESS then put_file f (with_offset (u32 (f_offset fl + done)) fl) else mret tt);;
  mret (result, done).

(** The status, [*out] and the bytes in [buf]. *)
Definition vfs_generic_read (f : Z) (buf : bool) (len : Z) : cmd K (Z * Z * list Z) :=
  if f =? 0 then mret (ERR_INVALID_ARGUMENT, 0, []) else
  fl ← get_file f;
  if (f_vn fl =? 0) || (negb (len =? 0) && negb buf) then mret (ERR_INVALID_ARGUMENT, 0, []) else
  v ← get_vnode (f_vn fl);
  match has_op op_read v with
  | None => mret (ERR_NOT_SUPPORTED, 0, [])
  | Some read =>
    '(result, done, bytes) ← read (f_vn fl) buf (f_offset fl) len;
    '(result, out) ← transfer_done f len result done;
    mret (result, out, bytes)
  end.

Definition vfs_generic_write (f : Z) (buf : option (list Z)) (len : Z) : cmd K (Z * Z) :=
  if f =? 0 then mret (ERR_INVALID_ARGUMENT, 0) else
  fl ← get_file f;
  if (f_vn fl =? 0) || (negb (len =? 0) && negb (bool_decide (is_Some buf))) then mret (ERR_INVALID_ARGUMENT, 0) else
  v ← get_vnode (f_vn fl);
  match has_op op_write v with
  | None => mret (ERR_NOT_SUPPORTED, 0)
  | Some write =>
    '(result, done) ← write (f_vn fl) buf (f_offset fl) len;
    transfer_done f len result done
  end.

Definition vfs_generic_seek (f off : Z) : cmd K Z :=
  if f =? 0 then mret ERR_INVALID_ARGUMENT else
  fl ← get_file f;
  put_file f (with_offset off fl);;
  mret ERR_SUCCESS.

(** The file has an operations table. *)
Definition has_file_ops (f : Z) : cmd K bool :=
  if f =? 0 then mret false else
  fl ← get_file f;
  mret (f_ops fl =? GENERIC_FILE_OPS).

Definition vfs_read (f : Z) (buf : bool) (len : Z) : cmd K (Z * Z * list Z) :=
  ok ← has_file_ops f;
  if negb (ok : bool) then mret (ERR_INVALID_ARGUMENT, 0, []) else vfs_generic_read f buf len.
Definition vfs_write (f : Z) (buf : option (list Z)) (len : Z) : cmd K (Z * Z) :=
  ok ← has_file_ops f;
  if negb (ok : bool) then mret (ERR_INVALID_ARGUMENT, 0) else vfs_generic_write f buf len.
Definition vfs_seek (f offset : Z) : cmd K Z :=
  ok ← has_file_ops f;
  if negb (ok : bool) then mret ERR_INVALID_ARGUMENT else vfs_generic_seek f offset.

Definition vfs_readdir (vn index : Z) : cmd K (Z * option (cstring * vnode_type)) :=
  if vn =? 0 then mret (ERR_INVALID_ARGUMENT, None) else
  v ← get_vnode vn;
  match has_op op_readdir v with
  | None => mret (ERR_NOT_SUPPORTED, None)
  | Some readdir => readdir vn index
  end.

(** ** [vfs.c] *)

(** A new open file on [vn], which gains a reference. *)
Definition open_file (vn flags : Z) : cmd K (Z * Z) :=
  file ← kalloc;
  if file =? 0 then mret (ERR_OUT_OF_MEMORY, 0) else
  vnode_ref vn;;
  put_file file (mk_file vn 0 flags GENERIC_FILE_OPS 1);;
  mret (ERR_SUCCESS, file).

(** The branch of [vfs_open] that creates the file. *)
Definition open_create (path : cstring) : cmd K (Z * Z) :=
  if ends_in_slash path then mret (ERR_NOT_DIRECTORY, 0) else
  '(result, parent, leaf) ← vfs_resolve_parent_path (Some path) true;
  if negb (result =? ERR_SUCCESS) then mret (result, 0) else
  if parent =? 0 then mret (ERR_NOT_SUPPORTED, 0) else
  v ← get_vnode parent;
  match has_op op_create v, leaf with
  | Some create, Some leaf => create parent (Some leaf) VNODE_TYPE_FILE true
  | _, _ => mret (ERR_NOT_SUPPORTED, 0)
  end.

Definition vfs_open (path : option cstring) (flags : Z) (out : bool) : cmd K (Z * Z) :=
  match path with
  | None => mret (ERR_INVALID_ARGUMENT, 0)
  | Some path =>
    if negb out then mret (ERR_INVALID_ARGUMENT, 0) else
    '(result, vn) ← vfs_lookup (Some path) true;
    '(result, vn) ←
      (if (result =? ERR_NOT_FOUND) && negb (Z.land flags VFS_O_CREATE =? 0) then open_create path
       else mret (result, vn));
    if negb (result =? ERR_SUCCESS) then mret (result, 0) else
    if vn =? 0 then mret (ERR_INTERNAL, 0) else
    open_file vn flags
  end.

Definition vfs_open_vnode (vn : Z) : cmd K Z :=
  if vn =? 0 then mret 0 else
  '(_, file) ← open_file vn 0;
  mret file.

Definition vfs_stat (path : option cstring) (stat : bool) : cmd K (Z * option vfs_stat) :=
  match path with
  | None => mret (ERR_INVALID_ARGUMENT, None)
  | Some path =>
    if negb stat then mret (ERR_INVALID_ARGUMENT, None) else
    '(result, vn) ← vfs_lookup (Some path) true;
    if negb (result =? ERR_SUCCESS) then mret (result, None) else
    v ← get_vnode vn;
    match has_op op_getattr v with
    | None => mret (ERR_NOT_SUPPORTED, None)
    | Some getattr => getattr vn true
    end
  end.

(** The entry at [path] made of type [type]: the status and the new vnode. *)
Definition create_at (path : cstring) (type : vnode_type) : cmd K (Z * Z) :=
  '(result, parent, leaf) ← vfs_resolve_parent_path (Some path) true;
  if negb (result =? ERR_SUCCESS) then mret (result, 0) else
  if parent =? 0 then mret (ERR_NOT_DIRECTORY, 0) else
  v ← get_vnode parent;
  if negb (bool_decide (vn_type v = VNODE_TYPE_DIR)) then mret (ERR_NOT_DIRECTORY, 0) else
  match has_op op_create v with
  | None => mret (ERR_NOT_SUPPORTED, 0)
  | Some create =>
    '(result, created) ← create parent leaf type true;
    mret (if (result =? ERR_SUCCESS) && (created =? 0) then ERR_INTERNAL else result, created)
  end.

Definition vfs_mkdir (path : option cstring) : cmd K Z :=
  match path with
  | None => mret ERR_INVALID_ARGUMENT
  | Some path => '(result, _) ← create_at path VNODE_TYPE_DIR; mret result
  end.

(** The removal of the last component. *)
Definition unlink_at (path : cstring) : cmd K Z :=
  '(result, parent, leaf) ← vfs_resolve_parent_path (Some path) true;
  if negb (result =? ERR_SUCCESS) then mret result else
  if parent =? 0 then mret ERR_NOT_DIRECTORY else
  v ← get_vnode parent;
  if negb (bool_decide (vn_type v = VNODE_TYPE_DIR)) then mret ERR_NOT_DIRECTORY else
  match has_op op_unlink v with
  | None => mret ERR_NOT_SUPPORTED
  | Some unlink => unlink parent leaf
  end.

Definition vfs_unlink (path : option cstring) : cmd K Z :=
  match path with
  | None => mret ERR_INVALID_ARGUMENT
  | Some path =>
    if (1 <? Z.of_nat (length path)) && ends_in_slash path then
      '(lookup_result, target) ← vfs_lookup (Some path) true;
      if negb (lookup_result =? ERR_SUCCESS) then mret lookup_result else
      v ← get_vnode target;
      if negb (bool_decide (vn_type v = VNODE_TYPE_DIR)) then mret ERR_NOT_DIRECTORY else
      unlink_at path
    else unlink_at path
  end.

(** [fn] is the address of a function, 0 is NULL. *)
Definition vfs_create_exec (path : option cstring) (fn : Z) : cmd K Z :=
  match path with
  | None => mret ERR_INVALID_ARGUMENT
  | Some path =>
    if fn =? 0 then mret ERR_INVALID_ARGUMENT else
    if ends_in_slash path then mret ERR_NOT_DIRECTORY else
    '(result, node) ← create_at path VNODE_TYPE_EXEC;
    if result =? ERR_SUCCESS then
      v ← get_vnode node;
      put_vnode node (with_exec fn v);;
      mret result
    else mret result
  end.

(** The functions behind [vn->exec], and [exec_elf_vnode]. *)
Definition vfs_exec (run : Z → cmd K unit) (exec_elf_vnode : Z → cmd K Z) (path : option cstring) : cmd K Z :=
  '(result, vn) ← vfs_lookup path true;
  if negb (result =? ERR_SUCCESS) then mret result else
  v ← get_vnode vn;
  if bool_decide (vn_type v = VNODE_TYPE_EXEC) && negb (vn_exec v =? 0) then
    run (vn_exec v);;
    mret ERR_SUCCESS
  else exec_elf_vnode vn.

Definition vfs_chroot (new_root : Z) : cmd K Z :=
  if new_root =? 0 then mret ERR_INVALID_ARGUMENT else vfs_set_root new_root.
End vfs.

(** ** Path resolution against a reference definition *)

(** The segments between slashes, and the components: those that are not empty. *)
Fixpoint segments (p : cstring) : list cstring :=
  match p with
  | [] => [[]]
  | c :: p =>
    if c =? SLASH then [] :: segments p
    else match segments p with
         | s :: l => (c :: s) :: l
         | [] => [[c]]
         end
  end.
Definition components (p : cstring) : list cstring := filter (λ s, s ≠ []) (segments p).

Lemma components_slash p : components (SLASH :: p) = components p.
Proof. done. Qed.

Lemma components_skip p : components (skip_slashes p) = components p.
Proof.
  induction p as [|c p IH]; [done|]. cbn [skip_slashes]. destruct (Z.eqb_spec c SLASH) as [->|]; [|done].
  by rewrite components_slash.
Qed.

Lemma skip_slashes_head p : skip_slashes p = [] ∨ ∃ c q, skip_slashes p = c :: q ∧ c ≠ SLASH.
Proof.
  induction p as [|c p IH]; [by left|]. cbn [skip_slashes].
  destruct (Z.eqb_spec c SLASH) as [->|]; [done|]. right. by exists c, p.
Qed.
Lemma skip_slashes_length p : (length (skip_slashes p) ≤ length p)%nat.
Proof. induction p as [|c p IH]; cbn [skip_slashes length]; [lia|]. destruct (c =? SLASH); cbn [length]; lia. Qed.

(** The first segment and what follows it. *)
Fixpoint first_segment (p : cstring) : cstring :=
  match p with
  | c :: p => if c =? SLASH then [] else c :: first_segment p
  | [] => []
  end.
Definition after_segment (p : cstring) : cstring := drop (length (first_segment p)) p.

Lemma segments_first p : ∃ l, segments p = first_segment p :: l ∧ filter (λ s, s ≠ []) l = components (after_segment p).
Proof.
  unfold after_segment, components. induction p as [|c p IH]; cbn [segments first_segment]; [by exists []|].
  destruct (c =? SLASH) eqn:E.
  - exists (segments p). split; [done|]. cbn [length drop segments]. by rewrite E.
  - destruct IH as (l & -> & Hl). exists l. split; [done|]. exact Hl.
Qed.

Lemma components_cons c p : c ≠ SLASH → components (c :: p) = first_segment (c :: p) :: components (after_segment (c :: p)).
Proof.
  intros Hc. destruct (segments_first (c :: p)) as (l & E & Hl). rewrite <- Hl. unfold components. rewrite E.
  cbn [first_segment]. rewrite (proj2 (Z.eqb_neq c SLASH)) by done. done.
Qed.

Lemma copy_component_spec len name p : 0 ≤ len ≤ VFS_NAME_MAX →
  copy_component len name p =
  if VFS_NAME_MAX <? len + Z.of_nat (length (first_segment p)) then None
  else Some (name ++ first_segment p, after_segment p).
Proof.
  unfold VFS_NAME_MAX. revert len name. induction p as [|c p IH]; intros len name Hl; cbn [copy_component first_segment].
  - rewrite (proj2 (Z.ltb_ge _ _)) by (cbn; lia). by rewrite app_nil_r.
  - destruct (c =? SLASH) eqn:E.
    { rewrite (proj2 (Z.ltb_ge _ _)) by (cbn; lia). rewrite app_nil_r. unfold after_segment. cbn [first_segment]. by rewrite E. }
    cbn [length]. change VFS_NAME_MAX with 255. destruct (Z.eqb_spec len 255).
    { by rewrite (proj2 (Z.ltb_lt _ _)) by lia. }
    rewrite IH by lia. replace (len + 1 + Z.of_nat (length (first_segment p))) with (len + Z.of_nat (S (length (first_segment p)))) by lia.
    destruct (255 <? len + Z.of_nat (S (length (first_segment p)))); [done|].
    rewrite <- app_assoc. unfold after_segment. cbn [first_segment]. rewrite E. done.
Qed.

(** [vfs_next_component] takes the first of the components. *)
Lemma next_component_spec cursor :
  match components cursor with
  | [] => vfs_next_component cursor = Some ([], None)
  | name :: l =>
    if VFS_NAME_MAX <? Z.of_nat (length name) then vfs_next_component cursor = None
    else ∃ cursor', vfs_next_component cursor = Some (cursor', Some (name, negb (bool_decide (l = [])))) ∧
         components cursor' = l ∧ (length cursor' < length cursor)%nat
  end.
Proof.
  unfold vfs_next_component. rewrite <- components_skip. pose proof (skip_slashes_length cursor) as Hlen. revert Hlen.
  destruct (skip_slashes_head cursor) as [->|(c & q & -> & Hc)]; [done|]. intros Hlen.
  rewrite components_cons by done. rewrite copy_component_spec by (unfold VFS_NAME_MAX; lia). rewrite Z.add_0_l.
  set (seg := first_segment (c :: q)). set (rest := after_segment (c :: q)).
  destruct (VFS_NAME_MAX <? Z.of_nat (length seg)); [done|].
  exists (skip_slashes rest). assert (components (skip_slashes rest) = components rest) as Hcr by apply components_skip.
  split_and!; [|done|].
  - do 4 f_equal. rewrite <- Hcr. f_equal. apply bool_decide_ext.
    destruct (skip_slashes_head rest) as [->|(d & q' & -> & Hd)]; [done|].
    rewrite components_cons by done. done.
  - pose proof (skip_slashes_length rest). unfold rest, after_segment in *. rewrite length_drop in *.
    assert (1 ≤ length seg)%nat; [|unfold seg in *; cbn [length] in *; lia].
    unfold seg. cbn [first_segment]. rewrite (proj2 (Z.eqb_neq c SLASH)) by done. cbn. lia.
Qed.

Section resolution.
Context {F : Type} (ops_of : Z → option (vnode_ops (kernel F))).
Implicit Types (k : kernel F).

(** One component after the other, from the vnode [current]. *)
Fixpoint walk (current : Z) (l : list cstring) : cmd (kernel F) (Z * Z) :=
  match l with
  | [] => mret (ERR_SUCCESS, current)
  | name :: l =>
    if VFS_NAME_MAX <? Z.of_nat (length name) then mret (ERR_NAME_TOO_LONG, 0) else
    '(result, next) ← vfs_lookup_component ops_of current name;
    if negb (result =? ERR_SUCCESS) then mret (result, 0) else
    if next =? 0 then mret (ERR_INTERNAL, 0) else walk next l
  end.

(** The components before the last one, then the leaf. *)
Fixpoint walk_parent (current : Z) (l : list cstring) : cmd (kernel F) (Z * Z * option cstring) :=
  match l with
  | [] => mret (ERR_INVALID_ARGUMENT, 0, None)
  | name :: l =>
    if VFS_NAME_MAX <? Z.of_nat (length name) then mret (ERR_NAME_TOO_LONG, 0, None) else
    match l with
    | [] =>
      if streq name DOT || streq name DOTDOT then mret (ERR_INVALID_ARGUMENT, 0, None) else
      leaf ← kalloc;
      if leaf =? 0 then mret (ERR_OUT_OF_MEMORY, 0, None) else mret (ERR_SUCCESS, current, Some name)
    | _ =>
      '(result, next) ← vfs_lookup_component ops_of current name;
      if negb (result =? ERR_SUCCESS) then mret (result, 0, None) else
      if next =? 0 then mret (ERR_INTERNAL, 0, None) else walk_parent next l
    end
  end.

Lemma bind_ext {A B} (m : cmd (kernel F) A) (f g : A → cmd (kernel F) B) k :
  (∀ a k', f a k' = g a k') → (m ≫= f) k = (m ≫= g) k.
Proof. intros H. unfold mbind, cmd_bind. by destruct (m k) as [[? ?]|]. Qed.

Lemma lookup_loop_walk fuel current cursor k :
  (length cursor < fuel)%nat → lookup_loop ops_of fuel current cursor k = walk current (components cursor) k.
Proof.
  revert current cursor k. induction fuel as [|fuel IH]; intros current cursor k Hf; [lia|]. cbn [lookup_loop].
  pose proof (next_component_spec cursor) as H. destruct (components cursor) as [|name l]; [by rewrite H|]. cbn [walk].
  destruct (VFS_NAME_MAX <? Z.of_nat (length name)); [by rewrite H|]. destruct H as (cursor' & -> & Hl & Hlen).
  apply bind_ext. intros [result next] k'. destruct (negb (result =? ERR_SUCCESS)); [done|]. destruct (next =? 0); [done|].
  rewrite IH by lia. by rewrite Hl.
Qed.

Lemma parent_loop_walk fuel current cursor k :
  (length cursor < fuel)%nat → parent_loop ops_of fuel current cursor k = walk_parent current (components cursor) k.
Proof.
  revert current cursor k. induction fuel as [|fuel IH]; intros current cursor k Hf; [lia|]. cbn [parent_loop].
  pose proof (next_component_spec cursor) as H. destruct (components cursor) as [|name l]; [by rewrite H|]. cbn [walk_parent].
  destruct (VFS_NAME_MAX <? Z.of_nat (length name)); [by rewrite H|]. destruct H as (cursor' & -> & Hl & Hlen).
  destruct l as [|name' l]; [done|]. cbn [negb bool_decide]. rewrite bool_decide_false by done. cbn [negb].
  apply bind_ext. intros [result next] k'. destruct (negb (result =? ERR_SUCCESS)); [done|]. destruct (next =? 0); [done|].
  rewrite IH by lia. by rewrite Hl.
Qed.

(** C18: path resolution is the walk over the components of the path: the
    segments between slashes that are not empty, however many slashes there are.
    It returns for every path; a component of more than 255 bytes is refused when
    the walk reaches it, and a path that ends in a slash must name a
    directory.  The parent of a path is the walk over all components but the
    last, which must not be a dot name. *)
Theorem vfs_resolution_refines path k :
  path ≠ [] →
  vfs_lookup ops_of (Some path) true k =
    (if g_root_vnode k =? 0 then mret (ERR_NOT_FOUND, 0) else
     '(result, vn) ← walk (g_root_vnode k) (components path);
     if negb (result =? ERR_SUCCESS) then mret (result, 0) else
     ok ← slash_ok path vn;
     if negb (ok : bool) then mret (ERR_NOT_DIRECTORY, 0) else mret (ERR_SUCCESS, vn)) k ∧
  vfs_resolve_parent_path ops_of (Some path) true k =
    (if g_root_vnode k =? 0 then mret (ERR_NOT_FOUND, 0, None) else
     walk_parent (g_root_vnode k) (components path)) k.
Proof.
  intros Hp. unfold vfs_lookup, vfs_resolve_parent_path, vfs_get_root. rewrite bool_decide_false by done. cbn [orb negb]. split.
  - erewrite bind_run by done. destruct (g_root_vnode k =? 0); [done|].
    unfold mbind at 1 3, cmd_bind at 1 3. rewrite lookup_loop_walk by lia. done.
  - erewrite bind_run by done. destruct (g_root_vnode k =? 0); [done|]. apply parent_loop_walk. lia.
Qed.
End resolution.

(** ** Opening and closing *)

Section open_close.
Context {F : Type} (ops_of : Z → option (vnode_ops (kernel F))).
Implicit Types (k : kernel F).

(** A file that is open once, on a vnode that somebody else holds too. *)
Lemma close_last_wp k f fl vn v :
  f ≠ 0 → files k !! f = Some fl → f_refcount fl = 1 → f_vn fl = vn → vn ≠ 0 →
  vnodes k !! vn = Some v → 1 < vn_refcnt v →
  vfs_close ops_of f k =
    Some (ERR_SUCCESS, set_files (delete f (files k)) (set_vnodes (<[vn := with_refcnt (vn_refcnt v - 1) v]> (vnodes k)) k)).
Proof.
  intros Hf Hfl Href Hvn Hvn0 Hv Hrc. unfold vfs_close. rewrite (proj2 (Z.eqb_neq f 0)) by done.
  erewrite bind_run by (unfold get_file, cread; by rewrite Hfl). rewrite Href. cbn [Z.ltb Z.compare Pos.compare Pos.compare_cont].
  rewrite Hvn, (proj2 (Z.eqb_neq vn 0)) by done. cbn [negb]. unfold vnode_unref.
  rewrite (proj2 (Z.eqb_neq vn 0)) by done. unfold mbind, cmd_bind at 1.
  unfold mbind, cmd_bind, get_vnode, cread. rewrite Hv.
  rewrite (proj2 (Z.eqb_neq (vn_refcnt v) 0)) by lia. cbn [put_vnode cmodify].
  rewrite (proj2 (Z.eqb_neq (vn_refcnt v - 1) 0)) by lia. done.
Qed.

Lemma open_file_wp k vn v flags Q :
  vn ≠ 0 → 0 < next k → vnodes k !! vn = Some v → 0 ≤ vn_refcnt v < 2 ^ 32 - 1 →
  (∀ k', vnodes k' = vnodes k → files k' = files k → Q (ERR_OUT_OF_MEMORY, 0) k') →
  (∀ k', let f := next k in
     vnodes k' = <[vn := with_refcnt (vn_refcnt v + 1) v]> (vnodes k) →
     files k' = <[f := mk_file vn 0 flags GENERIC_FILE_OPS 1]> (files k) → fs k' = fs k →
     next k' = next k + 1 → Q (ERR_SUCCESS, f) k') →
  wp (open_file vn flags) Q k.
Proof.
  intros Hvn Hn Hv Hrc Hoom Hok. unfold open_file. wp_step. apply kalloc_wp; intros o.
  { cbn [Z.eqb]. wp_step. by apply Hoom. }
  rewrite (proj2 (Z.eqb_neq (next k) 0)) by lia. wp_step. unfold vnode_ref. rewrite (proj2 (Z.eqb_neq vn 0)) by done.
  wp_step. eapply get_vnode_wp; [exact Hv|]. apply wp_modify. wp_step. apply wp_modify. wp_step.
  rewrite u32_small by lia. by apply Hok.
Qed.

(** Opening a path that resolves gives a new file with one reference, at
    offset 0, that holds the vnode; or it fails for lack of memory without a
    trace.  Closing the file gives back exactly the files and the vnodes that
    were there before. *)
Theorem vfs_open_close_roundtrip path flags k k1 vn v :
  vfs_lookup ops_of (Some path) true k = Some ((ERR_SUCCESS, vn), k1) →
  vn ≠ 0 → vnodes k1 !! vn = Some v → 0 < vn_refcnt v < 2 ^ 32 - 1 → 0 < next k1 → files k1 !! next k1 = None →
  wp (vfs_open ops_of (Some path) flags true) (λ r k',
    (r = (ERR_OUT_OF_MEMORY, 0) ∧ vnodes k' = vnodes k1 ∧ files k' = files k1) ∨
    (∃ f, r = (ERR_SUCCESS, f) ∧ f ≠ 0 ∧ files k1 !! f = None ∧
       files k' = <[f := mk_file vn 0 flags GENERIC_FILE_OPS 1]> (files k1) ∧
       vnodes k' = <[vn := with_refcnt (vn_refcnt v + 1) v]> (vnodes k1) ∧
       wp (vfs_close ops_of f) (λ rc k'', rc = ERR_SUCCESS ∧ files k'' = files k1 ∧ vnodes k'' = vnodes k1 ∧ fs k'' = fs k1) k')) k.
Proof.
  intros Hl Hvn Hv Hrc Hn Hfresh. unfold vfs_open. cbn [negb].
  wp_step. eapply wp_eq; [exact Hl|]. cbn beta iota. change (ERR_SUCCESS =? ERR_NOT_FOUND) with false. cbn [andb].
  wp_step. wp_step. cbn beta iota.
  on_success. rewrite (proj2 (Z.eqb_neq vn 0)) by done.
  apply (open_file_wp k1 vn v); [done|done|done|lia| |].
  - intros k' Hv' Hf'. by left.
  - cbn zeta. intros k' Hv' Hf' Hfs Hn'. right. exists (next k1). split_and!; [done|lia|done|done|done|].
    eapply wp_eq; [eapply (close_last_wp k' (next k1) _ vn (with_refcnt (vn_refcnt v + 1) v))|].
    + lia.
    + rewrite Hf'. apply lookup_insert_eq.
    + done.
    + done.
    + done.
    + rewrite Hv'. apply lookup_insert_eq.
    + cbn. lia.
    + cbn. split_and!; [done| | |done].
      * rewrite Hf'. by apply delete_insert_id.
      * rewrite Hv', insert_insert_eq. apply insert_id. rewrite Hv. f_equal.
        replace (vn_refcnt v + 1 - 1) with (vn_refcnt v) by lia. by destruct v.
Qed.
End open_close.

(** ** A file system of one directory with one file [a] *)

Definition ex_lookup (dir : Z) (name : option cstring) (out : bool) : cmd (kernel unit) (Z * Z) :=
  mret (if bool_decide (name = Some (cstr "a")) then (ERR_SUCCESS, 21) else (ERR_NOT_FOUND, 0)).
Definition ex_ops (ops : Z) : option (vnode_ops (kernel unit)) :=
  if ops =? 1 then Some (mk_ops (Some ex_lookup) None None None None None None None None None) else None.
Definition ex_kernel : kernel unit :=
  mk_kernel {[20 := mk_vnode VNODE_TYPE_DIR 1 30 1 10 0; 21 := mk_vnode VNODE_TYPE_FILE 1 30 1 11 0]} ∅ ∅ [] 20 100 [] ().

Lemma vfs_resolution_refines_witness :
  components (cstr "//a/") = [cstr "a"] ∧
  vfs_lookup ex_ops (Some (cstr "//a")) true ex_kernel = Some ((ERR_SUCCESS, 21), ex_kernel) ∧
  vfs_lookup ex_ops (Some (cstr "//a/")) true ex_kernel = Some ((ERR_NOT_DIRECTORY, 0), ex_kernel).
Proof.
  assert (cstr "//a" ≠ []) as H1 by done. assert (cstr "//a/" ≠ []) as H2 by done.
  split; [reflexivity|]. split.
  - rewrite (proj1 (vfs_resolution_refines ex_ops (cstr "//a") ex_kernel H1)). reflexivity.
  - rewrite (proj1 (vfs_resolution_refines ex_ops (cstr "//a/") ex_kernel H2)). reflexivity.
Defined.

Lemma vfs_open_close_roundtrip_witness :
  wp (vfs_open ex_ops (Some (cstr "/a")) 1 true) (λ r k', r.1 = ERR_SUCCESS →
    wp (vfs_close ex_ops r.2) (λ _ k'', files k'' = ∅ ∧ vnodes k'' = vnodes ex_kernel) k') ex_kernel.
Proof.
  eapply wp_mono.
  - apply (vfs_open_close_roundtrip ex_ops (cstr "/a") 1 ex_kernel ex_kernel 21 (mk_vnode VNODE_TYPE_FILE 1 30 1 11 0));
      [reflexivity|done|reflexivity|cbn; lia|done|reflexivity].
  - intros r k' [(-> & _)|(f & -> & _ & _ & _ & _ & Hclose)] Hr; [done|]. cbn [snd].
    eapply wp_mono; [exact Hclose|]. intros rc k'' (_ & Hf & Hv & _). by rewrite Hf, Hv.
Defined.
End Vfs.
