(* ===== verification/Fd.v ===== *)
(** * File descriptors

    [src/kernel/fs/vfs/fd.c]: the table of a process that maps small integers to
    open files, each slot holding one reference to its file. *)

From S2P Require Import Prelude Vnode Objects Vfs.
Import Vnode Objects Vfs.

Module Fd.

Definition FD_MAX : Z := 256.

(** [fd_entry_t] *)
Record fd_entry := mk_entry { e_file : Z; e_used : bool }.
Abbreviation fd_table := (list fd_entry).

(** A table with the kernel behind it. *)
Record fds (F : Type) := mk_fds { table : fd_table; kern : kernel F }.
Arguments mk_fds {F}.
Arguments table {F} _.
Arguments kern {F} _.

Section fd.
Context {F : Type} (ops_of : Z → option (vnode_ops (kernel F))).
Implicit Types (s : fds F).

Definition set_table (t : fd_table) s : fds F := mk_fds t (kern s).
Definition set_kern (k : kernel F) s : fds F := mk_fds (table s) k.
Definition in_kernel {A} (m : cmd (kernel F) A) : cmd (fds F) A := czoom kern set_kern m.

(** [t->entries[i]]: an index outside the table is undefined. *)
Definition entry (i : Z) : cmd (fds F) fd_entry :=
  if i <? 0 then cundef else cread (λ s, table s !! Z.to_nat i).
Definition set_entry (i : Z) (e : fd_entry) : cmd (fds F) unit :=
  entry i;; cmodify (λ s, set_table (<[Z.to_nat i := e]> (table s)) s).

(** In the operations [t] tells whether the table pointer is not NULL. *)
Definition fd_table_init (t : bool) : cmd (fds F) unit :=
  if negb t then mret tt else cmodify (set_table (replicate (Z.to_nat FD_MAX) (mk_entry 0 false))).

(** The loop from [i] on. *)
Fixpoint find_free_from (n : nat) (i : Z) : cmd (fds F) Z :=
  match n with
  | O => mret ERR_TOO_MANY_OPEN_FILES
  | S n => e ← entry i; if negb (e_used e) then mret i else find_free_from n (i + 1)
  end.
Definition fd_find_free : cmd (fds F) Z := find_free_from (Z.to_nat (FD_MAX - 3)) 3.

Definition fd_alloc (t : bool) (f : Z) : cmd (fds F) Z :=
  if negb t || (f =? 0) then mret ERR_INVALID_ARGUMENT else
  fd ← fd_find_free;
  if fd <? 0 then mret fd else
  in_kernel (file_ref f);;
  set_entry fd (mk_entry f true);;
  mret fd.

Definition fd_get (t : bool) (fd : Z) : cmd (fds F) Z :=
  if negb t || (fd <? 0) || (FD_MAX <=? fd) then mret 0 else
  e ← entry fd;
  if negb (e_used e) then mret 0 else mret (e_file e).

Definition fd_close (t : bool) (fd : Z) : cmd (fds F) Z :=
  if negb t || (fd <? 0) || (FD_MAX <=? fd) then mret ERR_BAD_FILE_DESCRIPTOR else
  e ← entry fd;
  if negb (e_used e) then mret ERR_BAD_FILE_DESCRIPTOR else
  set_entry fd (mk_entry 0 false);;
  in_kernel (file_unref ops_of (e_file e));;
  mret ERR_SUCCESS.

(** The end of [fd_alloc_at]. *)
Definition install_at (fd f : Z) : cmd (fds F) Z :=
  in_kernel (file_ref f);;
  set_entry fd (mk_entry f true);;
  mret fd.

Definition fd_alloc_at (t : bool) (want_fd f : Z) : cmd (fds F) Z :=
  if negb t || (f =? 0) || (want_fd <? 0) || (FD_MAX <=? want_fd) then mret ERR_INVALID_ARGUMENT else
  e ← entry want_fd;
  if e_used e then
    if e_file e =? f then mret want_fd else
    result ← fd_close t want_fd;
    if negb (result =? ERR_SUCCESS) then mret result else install_at want_fd f
  else install_at want_fd f.

Definition fd_install_take (t : bool) (f : Z) : cmd (fds F) Z :=
  if negb t || (f =? 0) then mret ERR_INVALID_ARGUMENT else
  fd ← fd_find_free;
  if fd <? 0 then mret fd else
  set_entry fd (mk_entry f true);;
  mret fd.

Definition fd_dup (t : bool) (oldfd : Z) : cmd (fds F) Z :=
  if negb t then mret ERR_INVALID_ARGUMENT else
  f ← fd_get t oldfd;
  if f =? 0 then mret ERR_BAD_FILE_DESCRIPTOR else fd_alloc t f.

Definition fd_dup2 (t : bool) (oldfd newfd : Z) : cmd (fds F) Z :=
  if negb t || (newfd <? 0) || (FD_MAX <=? newfd) then mret ERR_INVALID_ARGUMENT else
  f ← fd_get t oldfd;
  if f =? 0 then mret ERR_BAD_FILE_DESCRIPTOR else
  if oldfd =? newfd then mret newfd else fd_alloc_at t newfd f.

Fixpoint count_from (n : nat) (i c : Z) : cmd (fds F) Z :=
  match n with
  | O => mret c
  | S n => e ← entry i; count_from n (i + 1) (if e_used e then c + 1 else c)
  end.
Definition fd_count (t : bool) : cmd (fds F) Z :=
  if negb t then mret (-1) else count_from (Z.to_nat FD_MAX) 0 0.

End fd.

(** ** What closing the last descriptor of a file needs

    The layer below promises an invariant that reference counts of files do not
    matter to, and under which the vnode of an open file can be released. *)
Class CloseLayer {F : Type} (ops_of : Z → option (vnode_ops (kernel F))) := {
  cl_inv : kernel F → Prop;
  cl_refcount k a f n : cl_inv k → files k !! a = Some f → cl_inv (set_files (<[a := with_refcount n f]> (files k)) k);
  cl_close k a f : cl_inv k → files k !! a = Some f →
    wp ((if negb (f_vn f =? 0) then vnode_unref (destroy_of ops_of) (f_vn f) else mret tt);; free_file a)
       (λ _ k', files k' = delete a (files k) ∧ cl_inv k') k
}.

(** ** Reference counts *)

Definition refs (t : fd_table) (a : Z) : Z := Z.of_nat (length (filter (λ e, e_used e = true ∧ e_file e = a) t)).

Lemma refs_app t1 t2 a : refs (t1 ++ t2) a = refs t1 a + refs t2 a.
Proof. unfold refs. rewrite filter_app, length_app. lia. Qed.
Lemma refs_cons e t a : refs (e :: t) a = (if e_used e && (e_file e =? a) then 1 else 0) + refs t a.
Proof.
  unfold refs. rewrite filter_cons. destruct (e_used e) eqn:E, (Z.eqb_spec (e_file e) a); cbn [andb].
  - rewrite decide_True by done. cbn [length]. lia.
  - rewrite decide_False by naive_solver. lia.
  - rewrite decide_False by naive_solver. lia.
  - rewrite decide_False by naive_solver. lia.
Qed.
Lemma refs_nonneg t a : 0 ≤ refs t a.
Proof. unfold refs. lia. Qed.

Lemma refs_free n a : refs (replicate n (mk_entry 0 false)) a = 0.
Proof. induction n as [|n IH]; [done|]. cbn [replicate]. rewrite refs_cons. cbn. lia. Qed.

(** The references that an entry holds. *)
Definition entry_refs (e : fd_entry) (a : Z) : Z := if e_used e && (e_file e =? a) then 1 else 0.

Lemma refs_insert t i e e' a : t !! i = Some e → refs (<[i := e']> t) a = refs t a - entry_refs e a + entry_refs e' a.
Proof.
  intros Hi. rewrite <- (take_drop_middle t i e Hi) at 2. rewrite insert_take_drop by (by eapply lookup_lt_Some).
  rewrite !refs_app, !refs_cons. unfold entry_refs. lia.
Qed.
Lemma refs_lookup t i e a : t !! i = Some e → e_used e = true → e_file e = a → 1 ≤ refs t a.
Proof.
  intros Hi Hu <-. rewrite <- (take_drop_middle t i e Hi). rewrite refs_app, refs_cons, Hu, Z.eqb_refl. cbn [andb].
  pose proof (refs_nonneg (take i t) (e_file e)). pose proof (refs_nonneg (drop (S i) t) (e_file e)). lia.
Qed.

Section inv.
Context {F : Type} (ops_of : Z → option (vnode_ops (kernel F))) `{!CloseLayer ops_of}.
Implicit Types (s : fds F) (k : kernel F) (ext : Z → Z).

(** The invariant: the reference count of every file is the number of slots
    that hold it plus the references [ext] held elsewhere, and a file lives as
    long as it is referenced. *)
Record fd_inv ext s : Prop := {
  fi_length : length (table s) = Z.to_nat FD_MAX;
  fi_slot i e : table s !! i = Some e → e_used e = true → e_file e ≠ 0;
  fi_refs a f : files (kern s) !! a = Some f → f_refcount f = refs (table s) a + ext a ∧ 1 ≤ f_refcount f;
  fi_live a : 1 ≤ refs (table s) a + ext a → is_Some (files (kern s) !! a);
  fi_ext a : 0 ≤ ext a;
  fi_layer : cl_inv (kern s)
}.

Lemma entry_wp i e s Q : 0 ≤ i → table s !! Z.to_nat i = Some e → Q e s → wp (entry i) Q s.
Proof. intros Hi He HQ. unfold entry. rewrite (proj2 (Z.ltb_ge _ _)) by done. by eapply wp_read. Qed.
Lemma set_entry_wp i e e' s Q :
  0 ≤ i → table s !! Z.to_nat i = Some e → Q tt (set_table (<[Z.to_nat i := e']> (table s)) s) → wp (set_entry i e') Q s.
Proof. intros Hi He HQ. unfold set_entry. wp_step. eapply entry_wp; [done|done|]. by apply wp_modify. Qed.

Lemma slot_is_Some ext s i : fd_inv ext s → 0 ≤ i < FD_MAX → ∃ e, table s !! Z.to_nat i = Some e.
Proof. intros Hinv Hi. apply lookup_lt_is_Some. rewrite (fi_length _ _ Hinv). lia. Qed.

Definition used s (i : Z) : bool := match table s !! Z.to_nat i with Some e => e_used e | None => false end.

Lemma find_free_run s n i :
  length (table s) = Z.to_nat FD_MAX → 0 ≤ i → i + Z.of_nat n = FD_MAX →
  ∃ r, find_free_from n i s = Some (r, s) ∧
    ((r = ERR_TOO_MANY_OPEN_FILES ∧ ∀ j, i ≤ j < FD_MAX → used s j = true) ∨
     (i ≤ r < FD_MAX ∧ used s r = false ∧ ∀ j, i ≤ j < r → used s j = true)).
Proof.
  intros Hl. revert i. induction n as [|n IH]; intros i Hi Hn; cbn [find_free_from].
  { exists ERR_TOO_MANY_OPEN_FILES. split; [done|]. left. split; [done|lia]. }
  destruct (lookup_lt_is_Some_2 (table s) (Z.to_nat i)) as [e He]; [lia|].
  assert (entry i s = Some (e, s)) as Hrun.
  { unfold entry. rewrite (proj2 (Z.ltb_ge _ _)) by done. unfold cread. by rewrite He. }
  erewrite bind_run by exact Hrun. assert (used s i = e_used e) as Hu by (unfold used; by rewrite He).
  destruct (e_used e); cbn [negb].
  - destruct (IH (i + 1)) as (r & Hr & Hcase); [lia|lia|]. exists r. split; [done|].
    destruct Hcase as [(-> & Hall)|(? & ? & Hall)]; [left|right].
    + split; [done|]. intros j Hj. destruct (decide (j = i)) as [->|]; [done|]. apply Hall. lia.
    + split_and!; [lia|lia|done|]. intros j Hj. destruct (decide (j = i)) as [->|]; [done|]. apply Hall. lia.
  - exists i. split; [done|]. right. split_and!; [lia|lia|done|lia].
Qed.

(** Taking a reference to a file that lives. *)
Lemma file_ref_wp k a f Q :
  a ≠ 0 → files k !! a = Some f → Q tt (set_files (<[a := with_refcount (f_refcount f + 1) f]> (files k)) k) →
  wp (file_ref a) Q k.
Proof.
  intros Ha Hf HQ. unfold file_ref. rewrite (proj2 (Z.eqb_neq a 0)) by done.
  wp_step. eapply get_file_wp; [exact Hf|]. by apply wp_modify.
Qed.

(** Dropping one: the last one closes the file. *)
Lemma file_unref_wp k a f :
  a ≠ 0 → files k !! a = Some f → 1 ≤ f_refcount f → cl_inv k →
  wp (file_unref ops_of a) (λ _ k', cl_inv k' ∧
    files k' = if f_refcount f =? 1 then delete a (files k) else <[a := with_refcount (f_refcount f - 1) f]> (files k)) k.
Proof.
  intros Ha Hf Hr Hcl. unfold file_unref. rewrite (proj2 (Z.eqb_neq a 0)) by done.
  wp_step. eapply get_file_wp; [exact Hf|]. destruct (Z.eqb_spec (f_refcount f) 1) as [E|E].
  - rewrite (proj2 (Z.leb_le _ _)) by lia. wp_step. unfold vfs_close. rewrite (proj2 (Z.eqb_neq a 0)) by done.
    wp_step. eapply get_file_wp; [exact Hf|]. rewrite (proj2 (Z.ltb_ge _ _)) by lia.
    apply wp_assoc. wp_step. eapply wp_mono; [by apply (cl_close k a f)|]. cbn beta. intros _ k' [Hf' Hc'].
    wp_step. wp_step. done.
  - rewrite (proj2 (Z.leb_gt _ _)) by lia. apply wp_modify. split; [|done]. by apply cl_refcount.
Qed.

Definition add_ref (a d : Z) ext : Z → Z := λ b, if b =? a then ext b + d else ext b.

(** The invariant after a free slot takes a file: with a new reference, or with
    one that was held elsewhere. *)
Lemma inv_install ext s i e a f n :
  fd_inv ext s → table s !! i = Some e → e_used e = false → a ≠ 0 → files (kern s) !! a = Some f →
  n = f_refcount f + 1 →
  fd_inv ext (mk_fds (<[i := mk_entry a true]> (table s)) (set_files (<[a := with_refcount n f]> (files (kern s))) (kern s))).
Proof.
  intros [Hl Hs Hr Hlive Hext Hcl] Hi Hu Ha Hf ->.
  assert (∀ b, refs (<[i := mk_entry a true]> (table s)) b = refs (table s) b + (if a =? b then 1 else 0)) as Hrefs.
  { intros b. rewrite (refs_insert _ _ e) by done. unfold entry_refs. rewrite Hu. cbn. destruct (a =? b); lia. }
  split; cbn.
  - by rewrite length_insert.
  - intros j e' Hj Hu'. apply list_lookup_insert_Some in Hj as [(<- & <- & _)|[_ Hj]]; [done|by eapply Hs].
  - intros b fb Hb. rewrite Hrefs. destruct (Z.eqb_spec a b) as [<-|Hne].
    + rewrite lookup_insert_eq in Hb. injection Hb as <-. cbn. destruct (Hr a f Hf). lia.
    + rewrite lookup_insert_ne in Hb by done. destruct (Hr b fb Hb). lia.
  - intros b. rewrite Hrefs. destruct (Z.eqb_spec a b) as [<-|Hne]; [rewrite lookup_insert_eq; by eexists|].
    rewrite lookup_insert_ne by done. rewrite Z.add_0_r. apply Hlive.
  - done.
  - by apply cl_refcount.
Qed.

Lemma inv_take ext s i e a :
  fd_inv ext s → table s !! i = Some e → e_used e = false → a ≠ 0 → 1 ≤ ext a →
  fd_inv (add_ref a (-1) ext) (set_table (<[i := mk_entry a true]> (table s)) s).
Proof.
  intros [Hl Hs Hr Hlive Hext Hcl] Hi Hu Ha He.
  assert (∀ b, refs (<[i := mk_entry a true]> (table s)) b + add_ref a (-1) ext b = refs (table s) b + ext b) as Hrefs.
  { intros b. rewrite (refs_insert _ _ e) by done. unfold entry_refs, add_ref. rewrite Hu. cbn.
    rewrite (Z.eqb_sym b a). destruct (a =? b); lia. }
  split; cbn.
  - by rewrite length_insert.
  - intros j e' Hj Hu'. apply list_lookup_insert_Some in Hj as [(<- & <- & _)|[_ Hj]]; [done|by eapply Hs].
  - intros b fb Hb. rewrite Hrefs. by apply Hr.
  - intros b. rewrite Hrefs. apply Hlive.
  - intros b. unfold add_ref. specialize (Hext b). destruct (Z.eqb_spec b a) as [->|]; lia.
  - done.
Qed.

(** The invariant after a slot lets its file go. *)
Lemma inv_release ext s i e f k' :
  fd_inv ext s → table s !! i = Some e → e_used e = true → files (kern s) !! e_file e = Some f →
  files k' = (if f_refcount f =? 1 then delete (e_file e) (files (kern s))
              else <[e_file e := with_refcount (f_refcount f - 1) f]> (files (kern s))) → cl_inv k' →
  fd_inv ext (mk_fds (<[i := mk_entry 0 false]> (table s)) k').
Proof.
  intros [Hl Hs Hr Hlive Hext Hcl] Hi Hu Hf Hk' Hcl'. set (a := e_file e) in *.
  assert (∀ b, refs (<[i := mk_entry 0 false]> (table s)) b = refs (table s) b - (if a =? b then 1 else 0)) as Hrefs.
  { intros b. rewrite (refs_insert _ _ e) by done. unfold entry_refs. rewrite Hu. fold a. cbn. lia. }
  destruct (Hr a f Hf) as [Hra Hra1]. split; cbn.
  - by rewrite length_insert.
  - intros j e' Hj Hu'. apply list_lookup_insert_Some in Hj as [(<- & <- & _)|[_ Hj]]; [done|by eapply Hs].
  - intros b fb Hb. rewrite Hrefs. rewrite Hk' in Hb. destruct (Z.eqb_spec a b) as [<-|Hne].
    + destruct (Z.eqb_spec (f_refcount f) 1); [by rewrite lookup_delete_eq in Hb|].
      rewrite lookup_insert_eq in Hb. injection Hb as <-. cbn. lia.
    + assert (files (kern s) !! b = Some fb) as Hb'.
      { destruct (f_refcount f =? 1); [by rewrite lookup_delete_ne in Hb|by rewrite lookup_insert_ne in Hb]. }
      destruct (Hr b fb Hb'). lia.
  - intros b Hb. rewrite Hrefs in Hb. rewrite Hk'. destruct (Z.eqb_spec a b) as [E|Hne].
    + rewrite <- E in *. destruct (Z.eqb_spec (f_refcount f) 1); [lia|]. rewrite lookup_insert_eq. by eexists.
    + destruct (f_refcount f =? 1); [rewrite lookup_delete_ne by done|rewrite lookup_insert_ne by done]; apply Hlive; lia.
  - done.
  - done.
Qed.

(** The lowest free descriptor from 3 on. *)
Definition lowest_free s (r : Z) : Prop := 3 ≤ r < FD_MAX ∧ used s r = false ∧ ∀ j, 3 ≤ j < r → used s j = true.
Definition all_used s : Prop := ∀ j, 3 ≤ j < FD_MAX → used s j = true.

Lemma find_free_wp ext s Q :
  fd_inv ext s → (all_used s → Q ERR_TOO_MANY_OPEN_FILES s) → (∀ r, lowest_free s r → Q r s) → wp fd_find_free Q s.
Proof.
  intros Hinv H1 H2. unfold fd_find_free.
  destruct (find_free_run s (Z.to_nat (FD_MAX - 3)) 3 (fi_length _ _ Hinv)) as (r & Hr & Hc); [lia|done|].
  eapply wp_eq; [exact Hr|]. destruct Hc as [(-> & ?)|(? & ? & ?)]; [by apply H1|]. by apply H2.
Qed.

Lemma not_used_slot ext s i : fd_inv ext s → 0 ≤ i < FD_MAX → ∃ e, table s !! Z.to_nat i = Some e ∧ used s i = e_used e.
Proof. intros Hinv Hi. destruct (slot_is_Some _ _ _ Hinv Hi) as [e He]. exists e. unfold used. by rewrite He. Qed.

(** The state after the slot [fd] took a new reference to [a]. *)
Definition installed s (fd a : Z) (f : file) : fds F :=
  mk_fds (<[Z.to_nat fd := mk_entry a true]> (table s))
    (set_files (<[a := with_refcount (f_refcount f + 1) f]> (files (kern s))) (kern s)).

Lemma install_wp ext s fd a f Q :
  fd_inv ext s → 0 ≤ fd < FD_MAX → used s fd = false → a ≠ 0 → files (kern s) !! a = Some f →
  (fd_inv ext (installed s fd a f) → Q fd (installed s fd a f)) → wp (install_at fd a) Q s.
Proof.
  intros Hinv Hfd Hu Ha Hf HQ. destruct (not_used_slot _ _ _ Hinv Hfd) as (e & He & Hue).
  unfold install_at. wp_step. apply wp_zoom. eapply file_ref_wp; [done|exact Hf|].
  wp_step. eapply set_entry_wp; [lia|exact He|]. wp_step. apply HQ.
  eapply inv_install; [done|exact He|congruence|done|exact Hf|done].
Qed.

Lemma alloc_wp ext s a f Q :
  fd_inv ext s → a ≠ 0 → files (kern s) !! a = Some f →
  (all_used s → Q ERR_TOO_MANY_OPEN_FILES s) →
  (∀ r, lowest_free s r → fd_inv ext (installed s r a f) → Q r (installed s r a f)) → wp (fd_alloc true a) Q s.
Proof.
  intros Hinv Ha Hf H1 H2. unfold fd_alloc. rewrite (proj2 (Z.eqb_neq a 0)) by done. cbn [negb orb].
  wp_step. apply (find_free_wp ext); [done| |].
  - intros Hall. change (ERR_TOO_MANY_OPEN_FILES <? 0) with true. cbn iota. wp_step. by apply H1.
  - intros r Hr. destruct Hr as (Hr3 & Hru & Hrl) eqn:E. clear E. rewrite (proj2 (Z.ltb_ge _ _)) by lia.
    apply (install_wp ext s r a f); [done|lia|done|done|done|]. by apply H2.
Qed.

(** Closing a descriptor: an error for one that is not open. *)
Lemma close_wp ext s fd Q :
  fd_inv ext s →
  (¬ (0 ≤ fd < FD_MAX ∧ used s fd = true) → Q ERR_BAD_FILE_DESCRIPTOR s) →
  (∀ e f k', 0 ≤ fd < FD_MAX → table s !! Z.to_nat fd = Some e → e_used e = true →
     files (kern s) !! e_file e = Some f →
     files k' = (if f_refcount f =? 1 then delete (e_file e) (files (kern s))
                 else <[e_file e := with_refcount (f_refcount f - 1) f]> (files (kern s))) →
     let s' := mk_fds (<[Z.to_nat fd := mk_entry 0 false]> (table s)) k' in fd_inv ext s' → Q ERR_SUCCESS s') →
  wp (fd_close ops_of true fd) Q s.
Proof.
  intros Hinv H1 H2. unfold fd_close. cbn [negb orb]. destruct (Z.ltb_spec fd 0); cbn [orb]; [wp_step; apply H1; lia|].
  destruct (Z.leb_spec FD_MAX fd); cbn [orb]; [wp_step; apply H1; lia|].
  destruct (not_used_slot _ _ fd Hinv) as (e & He & Hu); [lia|].
  wp_step. eapply entry_wp; [done|exact He|]. destruct (e_used e) eqn:Eu; cbn [negb].
  2: { wp_step. apply H1. intros [_ Hx]. congruence. }
  wp_step. eapply set_entry_wp; [done|exact He|]. wp_step. apply wp_zoom.
  assert (e_file e ≠ 0) as Hnz by (by eapply (fi_slot _ _ Hinv)).
  destruct (fi_live _ _ Hinv (e_file e)) as [f Hf].
  { pose proof (refs_lookup _ _ _ _ He Eu eq_refl). pose proof (fi_ext _ _ Hinv (e_file e)). lia. }
  destruct (fi_refs _ _ Hinv _ _ Hf) as [_ Hr1].
  eapply wp_mono; [apply (file_unref_wp (kern s) (e_file e) f Hnz Hf Hr1), (fi_layer _ _ Hinv)|].
  cbn beta. intros _ k' [Hcl Hk']. wp_step. apply (H2 e f k'); [lia|done|done|done|done|].
  by eapply (inv_release ext s (Z.to_nat fd) e f).
Qed.

Lemma get_run ext s fd :
  fd_inv ext s → ∃ a, fd_get true fd s = Some (a, s) ∧
    ((a = 0 ∧ ¬ (0 ≤ fd < FD_MAX ∧ used s fd = true)) ∨
     (a ≠ 0 ∧ 0 ≤ fd < FD_MAX ∧ table s !! Z.to_nat fd = Some (mk_entry a true))).
Proof.
  intros Hinv. unfold fd_get. cbn [negb orb]. destruct (Z.ltb_spec fd 0); [exists 0; split; [done|left; lia]|].
  destruct (Z.leb_spec FD_MAX fd); cbn [orb]; [exists 0; split; [done|left; lia]|].
  destruct (not_used_slot _ _ fd Hinv) as ([a u] & He & Hu); [lia|].
  assert (entry fd s = Some (mk_entry a u, s)) as Hrun.
  { unfold entry. rewrite (proj2 (Z.ltb_ge _ _)) by done. unfold cread. by rewrite He. }
  erewrite bind_run by exact Hrun. cbn in *. destruct u; cbn [negb].
  - exists a. split; [done|]. right. split_and!; [by eapply (fi_slot _ _ Hinv _ _ He)|lia|lia|done].
  - exists 0. split; [done|]. left. split; [done|]. intros [_ Hx]. congruence.
Qed.

Lemma alloc_at_wp ext s fd a :
  fd_inv ext s → a ≠ 0 →
  (1 ≤ ext a ∨ ∃ i, i ≠ Z.to_nat fd ∧ table s !! i = Some (mk_entry a true)) →
  wp (fd_alloc_at ops_of true fd a) (λ _ s', fd_inv ext s') s.
Proof.
  intros Hinv Ha Hheld. unfold fd_alloc_at. rewrite (proj2 (Z.eqb_neq a 0)) by done. cbn [negb orb].
  destruct (Z.ltb_spec fd 0); cbn [orb]; [by wp_step|]. destruct (Z.leb_spec FD_MAX fd); cbn [orb]; [by wp_step|].
  assert (∀ s1, fd_inv ext s1 → (1 ≤ ext a ∨ ∃ i, table s1 !! i = Some (mk_entry a true)) → is_Some (files (kern s1) !! a)) as Hlive.
  { intros s1 Hinv1 Hh. apply (fi_live _ _ Hinv1). pose proof (refs_nonneg (table s1) a). pose proof (fi_ext _ _ Hinv1 a).
    destruct Hh as [?|(i & Hi)]; [lia|]. pose proof (refs_lookup _ _ _ a Hi eq_refl eq_refl). lia. }
  destruct (not_used_slot _ _ fd Hinv) as (e & He & Hu); [lia|].
  wp_step. eapply entry_wp; [done|exact He|]. destruct (e_used e) eqn:Eu.
  - destruct (e_file e =? a); [by wp_step|]. wp_step. apply (close_wp ext s fd); [done|intros Hx; exfalso; apply Hx; by split|].
    intros e' f k' _ He' _ Hf Hk' s' Hinv'. on_success.
    destruct (Hlive s' Hinv') as [f' Hf'].
    { destruct Hheld as [?|(i & Hi & Hti)]; [by left|right]. exists i. unfold s'. cbn. by rewrite list_lookup_insert_ne. }
    apply (install_wp ext s' fd a f' _ Hinv'); [lia| |done|done|done].
    unfold used, s'. cbn. rewrite list_lookup_insert_eq; [done|]. by eapply lookup_lt_Some.
  - destruct (Hlive s Hinv) as [f Hf]; [destruct Hheld as [?|(i & _ & ?)]; [by left|right; by exists i]|].
    by apply (install_wp ext s fd a f _ Hinv).
Qed.

(** ** Sequences of calls *)

Inductive call :=
  | Alloc (f : Z)
  | AllocAt (fd f : Z)
  | Take (f : Z)
  | Close (fd : Z)
  | Dup (fd : Z)
  | Dup2 (oldfd newfd : Z).

Definition run (c : call) : cmd (fds F) Z :=
  match c with
  | Alloc f => fd_alloc true f
  | AllocAt fd f => fd_alloc_at ops_of true fd f
  | Take f => fd_install_take true f
  | Close fd => fd_close ops_of true fd
  | Dup fd => fd_dup true fd
  | Dup2 o n => fd_dup2 ops_of true o n
  end.

(** The caller owns a reference to the file that it passes. *)
Definition allowed ext (c : call) : Prop :=
  match c with
  | Alloc f | AllocAt _ f | Take f => f ≠ 0 → 1 ≤ ext f
  | _ => True
  end.
(** [fd_install_take] takes the caller's reference when it succeeds. *)
Definition owned_after ext (c : call) (r : Z) : Z → Z :=
  match c with
  | Take f => if r <? 0 then ext else add_ref f (-1) ext
  | _ => ext
  end.

Lemma call_wp ext s c :
  fd_inv ext s → allowed ext c → wp (run c) (λ r s', fd_inv (owned_after ext c r) s') s.
Proof.
  intros Hinv Hal.
  assert (∀ a, 1 ≤ ext a → is_Some (files (kern s) !! a)) as Hlive.
  { intros a Ha. apply (fi_live _ _ Hinv). pose proof (refs_nonneg (table s) a). lia. }
  destruct c as [f|fd f|f|fd|fd|o n]; cbn [run allowed owned_after] in *.
  - destruct (Z.eqb_spec f 0) as [->|H0]; [by unfold fd_alloc; cbn [negb orb Z.eqb]; wp_step|].
    destruct (Hlive f (Hal H0)) as [fl Hf]. by apply (alloc_wp ext s f fl).
  - destruct (Z.eqb_spec f 0) as [->|H0]; [by unfold fd_alloc_at; cbn [negb orb Z.eqb]; wp_step|].
    apply alloc_at_wp; [done|done|left; by apply Hal].
  - unfold fd_install_take. destruct (Z.eqb_spec f 0) as [->|H0]; cbn [negb orb]; [by wp_step|].
    wp_step. apply (find_free_wp ext); [done|intros _; change (ERR_TOO_MANY_OPEN_FILES <? 0) with true; cbn iota; by wp_step|].
    intros r (Hr & Hu & _). rewrite (proj2 (Z.ltb_ge r 0)) by lia.
    destruct (not_used_slot _ _ r Hinv) as (e & He & Hue); [lia|].
    wp_step. eapply set_entry_wp; [lia|exact He|]. wp_step. rewrite (proj2 (Z.ltb_ge r 0)) by lia.
    eapply (inv_take ext s _ e); [done|done|congruence|done|by apply Hal].
  - by apply (close_wp ext s fd).
  - unfold fd_dup. cbn [negb]. destruct (get_run ext s fd Hinv) as (a & Hg & Hc). wp_step. eapply wp_eq; [exact Hg|].
    destruct Hc as [(-> & _)|(Ha & Hfd & He)]; [by cbn [Z.eqb]; wp_step|]. rewrite (proj2 (Z.eqb_neq a 0)) by done.
    destruct (fi_live _ _ Hinv a) as [fl Hf].
    { pose proof (refs_lookup _ _ _ a He eq_refl eq_refl). pose proof (fi_ext _ _ Hinv a). lia. }
    by apply (alloc_wp ext s a fl).
  - unfold fd_dup2. cbn [negb orb]. destruct (Z.ltb_spec n 0); cbn [orb]; [by wp_step|].
    destruct (Z.leb_spec FD_MAX n); cbn [orb]; [by wp_step|].
    destruct (get_run ext s o Hinv) as (a & Hg & Hc). wp_step. eapply wp_eq; [exact Hg|].
    destruct Hc as [(-> & _)|(Ha & Hfd & He)]; [by cbn [Z.eqb]; wp_step|]. rewrite (proj2 (Z.eqb_neq a 0)) by done.
    destruct (Z.eqb_spec o n) as [->|Hne]; [by wp_step|].
    apply alloc_at_wp; [done|done|right; exists (Z.to_nat o)]. split; [lia|done].
Qed.

(** The states that calls reach, with the references held outside the table. *)
Inductive reachable (ext0 : Z → Z) (s0 : fds F) : (Z → Z) → fds F → Prop :=
  | reach_start : reachable ext0 s0 ext0 s0
  | reach_call ext s c r s' :
      reachable ext0 s0 ext s → allowed ext c → run c s = Some (r, s') →
      reachable ext0 s0 (owned_after ext c r) s'.

(** C5: in every state that descriptor calls reach, the reference count of every
    file is the number of descriptors that hold it plus the references held
    elsewhere, and every referenced file is still there; so no further call can
    touch a closed file: each one runs and returns. *)
Theorem fd_reachable_refcounts ext0 s0 ext s :
  fd_inv ext0 s0 → reachable ext0 s0 ext s →
  fd_inv ext s ∧ ∀ c, allowed ext c → ∃ r s', run c s = Some (r, s') ∧ fd_inv (owned_after ext c r) s'.
Proof.
  intros H0 Hr. assert (fd_inv ext s) as Hinv.
  { induction Hr as [|ext s c r s' _ IH Hal Hrun]; [done|].
    exact (wp_elim _ _ _ _ _ (call_wp ext s c IH Hal) Hrun). }
  split; [done|]. intros c Hal. by apply (proj1 (wp_run _ _ _)), call_wp.
Qed.

(** Duplicating an open descriptor gives the lowest free one from 3 on, or
    an error exactly when all are in use; the new descriptor is the same file,
    with one more reference, and every other descriptor is as it was. *)
Theorem fd_dup_correct ext s fd a :
  fd_inv ext s → 0 ≤ fd < FD_MAX → table s !! Z.to_nat fd = Some (mk_entry a true) →
  wp (fd_dup true fd) (λ r s',
    (r = ERR_TOO_MANY_OPEN_FILES ∧ all_used s ∧ s' = s) ∨
    (lowest_free s r ∧ fd_get true r s' = Some (a, s') ∧
     (∀ j, j ≠ Z.to_nat r → table s' !! j = table s !! j) ∧
     ∃ f, files (kern s) !! a = Some f ∧ files (kern s') = <[a := with_refcount (f_refcount f + 1) f]> (files (kern s)))) s.
Proof.
  intros Hinv Hfd He. unfold fd_dup. cbn [negb]. destruct (get_run ext s fd Hinv) as (b & Hg & Hc).
  wp_step. eapply wp_eq; [exact Hg|].
  destruct Hc as [(_ & Hc)|(Ha & _ & He')]; [exfalso; apply Hc; split; [done|]; unfold used; by rewrite He|].
  rewrite He in He'. injection He' as <-. rewrite (proj2 (Z.eqb_neq a 0)) by done.
  destruct (fi_live _ _ Hinv a) as [f Hf].
  { pose proof (refs_lookup _ _ _ a He eq_refl eq_refl). pose proof (fi_ext _ _ Hinv a). lia. }
  apply (alloc_wp ext s a f); [done|done|done|by left|]. intros r Hr Hinv'. right. pose proof Hr as (Hr3 & Hu & Hl).
  split_and!; [done..| | |by exists f].
  - destruct (get_run ext _ r Hinv') as (b & Hg' & [(-> & Hc)|(_ & _ & He')]).
    + exfalso. apply Hc. split; [lia|]. unfold used, installed. cbn. rewrite list_lookup_insert_eq; [done|].
      rewrite (fi_length _ _ Hinv). lia.
    + unfold installed in He'. cbn in He'. rewrite list_lookup_insert_eq in He'; [by injection He' as <-|].
      rewrite (fi_length _ _ Hinv). lia.
  - intros j Hj. unfold installed. cbn. by rewrite list_lookup_insert_ne.
Qed.
End inv.

(** ** File systems that hold their vnodes

    When every vnode has a reference besides those of its open files (the
    file system's cache), closing a file never destroys one. *)

Section cached.
Context {F : Type} (ops_of : Z → option (vnode_ops (kernel F))).

Definition files_on (fs : gmap Z file) (vn : Z) : gset Z := dom (filter (λ p, f_vn p.2 = vn) fs).
Lemma elem_of_files_on fs vn a : a ∈ files_on fs vn ↔ ∃ f, fs !! a = Some f ∧ f_vn f = vn.
Proof.
  unfold files_on. rewrite elem_of_dom. split.
  - intros [f Hf]. apply map_lookup_filter_Some in Hf. by exists f.
  - intros (f & ? & ?). exists f. by apply map_lookup_filter_Some.
Qed.

Definition cached (k : kernel F) : Prop := ∀ a f, files k !! a = Some f → f_vn f ≠ 0 →
  ∃ v, vnodes k !! f_vn f = Some v ∧ Z.of_nat (size (files_on (files k) (f_vn f))) < vn_refcnt v.

Lemma cached_refcount k a f n :
  cached k → files k !! a = Some f → cached (set_files (<[a := with_refcount n f]> (files k)) k).
Proof.
  intros Hc Hf b fb Hb Hn. cbn in *.
  assert (∀ vn, files_on (<[a := with_refcount n f]> (files k)) vn = files_on (files k) vn) as Hon.
  { intros vn. apply set_eq. intros c. rewrite !elem_of_files_on. destruct (decide (c = a)) as [->|Hne].
    - rewrite lookup_insert_eq, Hf. split; intros (g & [= <-] & ?); eexists; (split; [done|]); done.
    - by rewrite lookup_insert_ne. }
  rewrite Hon. apply lookup_insert_Some in Hb as [[<- <-]|[_ Hb]]; [exact (Hc a f Hf Hn)|by apply (Hc b)].
Qed.

Lemma cached_close k a f :
  cached k → files k !! a = Some f →
  wp ((if negb (f_vn f =? 0) then vnode_unref (destroy_of ops_of) (f_vn f) else mret tt);; free_file a)
     (λ _ k', files k' = delete a (files k) ∧ cached k') k.
Proof.
  intros Hc Hf.
  assert (∀ vn, vn ≠ f_vn f → files_on (delete a (files k)) vn = files_on (files k) vn) as Hother.
  { intros vn Hvn. apply set_eq. intros c. rewrite !elem_of_files_on. destruct (decide (c = a)) as [->|Hne].
    - rewrite lookup_delete_eq, Hf. split; [by intros (? & ? & _)|]. intros (g & [= <-] & ?). congruence.
    - by rewrite lookup_delete_ne. }
  assert (size (files_on (files k) (f_vn f)) = S (size (files_on (delete a (files k)) (f_vn f)))) as Hsize.
  { assert (files_on (files k) (f_vn f) = {[a]} ∪ files_on (delete a (files k)) (f_vn f)) as ->.
    { apply set_eq. intros c. rewrite elem_of_union, elem_of_singleton, !elem_of_files_on. destruct (decide (c = a)) as [->|Hne].
      - split; [by left|]. intros _. by exists f.
      - rewrite lookup_delete_ne by done. naive_solver. }
    rewrite size_union_alt. rewrite size_singleton. cbn. do 2 f_equal. apply set_eq. intros c.
    rewrite elem_of_difference, elem_of_singleton. split; [tauto|]. intros H. split; [done|]. intros ->.
    apply elem_of_files_on in H as (g & Hg & _). by rewrite lookup_delete_eq in Hg. }
  assert (∀ k1, files k1 = files k → (∀ vn, vn ≠ f_vn f → vnodes k1 !! vn = vnodes k !! vn) →
    (f_vn f ≠ 0 → ∃ v, vnodes k1 !! f_vn f = Some v ∧ Z.of_nat (size (files_on (delete a (files k)) (f_vn f))) < vn_refcnt v) →
    wp (free_file a) (λ _ k', files k' = delete a (files k) ∧ cached k') k1) as Hdone.
  { intros k1 Hf1 Hv1 Hvn. apply wp_modify. cbn. rewrite Hf1. split; [done|]. intros b fb Hb Hn. cbn in *.
    destruct (decide (f_vn fb = f_vn f)) as [E|E].
    - rewrite E. rewrite E in Hn. exact (Hvn Hn).
    - rewrite Hother, Hv1 by done. apply lookup_delete_Some in Hb as [_ Hb]. by apply (Hc b). }
  wp_step. destruct (Z.eqb_spec (f_vn f) 0) as [E|E]; cbn [negb]; [wp_step; apply Hdone; done|].
  destruct (Hc a f Hf E) as (v & Hv & Hrc). rewrite Hsize in Hrc. unfold vnode_unref. rewrite (proj2 (Z.eqb_neq _ 0)) by done.
  wp_step. eapply get_vnode_wp; [exact Hv|]. rewrite (proj2 (Z.eqb_neq (vn_refcnt v) 0)) by lia.
  wp_step. apply wp_modify. rewrite (proj2 (Z.eqb_neq (vn_refcnt v - 1) 0)) by lia. wp_step. apply Hdone; cbn.
  - done.
  - intros vn Hvn. by rewrite lookup_insert_ne.
  - intros _. rewrite lookup_insert_eq. eexists. split; [done|]. cbn. lia.
Qed.

#[export] Instance cached_layer : CloseLayer ops_of := {|
  cl_inv := cached;
  cl_refcount := cached_refcount;
  cl_close := cached_close
|}.
End cached.

(** ** A table with one file open twice *)

Definition ex_ops (ops : Z) : option (vnode_ops (kernel unit)) := None.
Definition ex_table : fd_table := <[5%nat := mk_entry 40 true]> (<[3%nat := mk_entry 40 true]> (replicate 256 (mk_entry 0 false))).
Definition ex_fds : fds unit :=
  mk_fds ex_table (mk_kernel {[21 := mk_vnode VNODE_TYPE_FILE 2 30 1 11 0]} {[40 := mk_file 21 0 1 1 2]} ∅ [] 20 100 [] ()).

Lemma ex_inv : fd_inv ex_ops (λ _, 0) ex_fds.
Proof.
  assert (∀ a, refs ex_table a = if a =? 40 then 2 else 0) as Hrefs.
  { intros a. unfold ex_table. rewrite (refs_insert _ _ (mk_entry 0 false)) by reflexivity.
    rewrite (refs_insert _ _ (mk_entry 0 false)) by reflexivity.
    rewrite refs_free.
    unfold entry_refs. cbn [e_used e_file andb]. rewrite (Z.eqb_sym 40 a). by destruct (a =? 40). }
  split.
  - reflexivity.
  - intros i e Hi Hu. cbn [table ex_fds] in Hi. unfold ex_table in Hi.
    apply list_lookup_insert_Some in Hi as [(_ & <- & _)|[_ Hi]]; [done|].
    apply list_lookup_insert_Some in Hi as [(_ & <- & _)|[_ Hi]]; [done|].
    apply lookup_replicate in Hi as [-> _]. done.
  - intros a f Ha. cbn [table kern ex_fds] in *. rewrite Hrefs. cbn in Ha.
    apply lookup_singleton_Some in Ha as [<- <-]. cbn. lia.
  - intros a Ha. cbn [table kern ex_fds] in *. rewrite Hrefs in Ha. destruct (Z.eqb_spec a 40) as [E|]; [|lia]. rewrite E. by eexists.
  - done.
  - intros a f Ha _. cbn in Ha. apply lookup_singleton_Some in Ha as [<- <-]. eexists. split; [reflexivity|]. by_eval.
Qed.

Lemma fd_reachable_refcounts_witness :
  ∃ r s', run ex_ops (Close 3) ex_fds = Some (r, s') ∧ fd_inv ex_ops (λ _, 0) s'.
Proof.
  destruct (fd_reachable_refcounts ex_ops (λ _, 0) ex_fds (λ _, 0) ex_fds ex_inv (reach_start _ _ _)) as [_ H].
  exact (H (Close 3) I).
Defined.

Lemma fd_dup_correct_witness :
  wp (fd_dup true 5) (λ r s', r = 4 ∧ fd_get true 4 s' = Some (40, s')) ex_fds.
Proof.
  eapply wp_mono; [apply (fd_dup_correct ex_ops (λ _, 0) ex_fds 5 40 ex_inv); [by_eval|reflexivity]|].
  intros r s' [(_ & Hall & _)|((Hr & Hu & Hl) & Hg & _)].
  - specialize (Hall 4 ltac:(by_eval)). discriminate Hall.
  - assert (r = 4) as ->; [|by split].
    destruct (decide (r < 4)) as [Hlt|Hge]; [replace r with 3 in Hu by lia; discriminate Hu|].
    destruct (decide (r = 4)) as [|Hne]; [done|]. specialize (Hl 4 ltac:(lia)). discriminate Hl.
Defined.
End Fd.
