(* ===== verification/Stack.v ===== *)
(** * Files of the RAM file system through the virtual file system

    The composition of [Vfs.v] and [Ramfs.v]: what a program that holds an open
    file sees. *)

From S2P Require Import Prelude Vnode Objects Ramfs Vfs.
Import Vnode Objects Ramfs.

Module Stack.

Section stack.
Context {D : Type} (stale : nat → Z).
Abbreviation K := (kernel (ramfs D)).
Abbreviation ops := (ops_of (D := D) stale).
Implicit Types (k : K) (n : ramfs_node D).

(** The open file [f] at offset [off] of the regular file [n]. *)
Record open_on k (f : Z) (fl : file) (vn node : Z) n : Prop := {
  oo_file : f ≠ 0 ∧ files k !! f = Some fl ∧ f_vn fl = vn ∧ f_ops fl = Vfs.GENERIC_FILE_OPS;
  oo_offset : is_u32 (f_offset fl);
  oo_vnode : ∃ v, vnodes k !! vn = Some v ∧ vn_ops v = RAMFS_OPS;
  oo_node : is_node k vn node n;
  oo_ok : file_ok n
}.

Lemma generic_run {A} k f fl (m : cmd K A) (e : A) :
  f ≠ 0 → files k !! f = Some fl → f_ops fl = Vfs.GENERIC_FILE_OPS →
  (ok ← Vfs.has_file_ops f; if negb ok then mret e else m) k = m k.
Proof.
  intros Hf Hfl Ho. unfold Vfs.has_file_ops. rewrite (proj2 (Z.eqb_neq f 0)) by done.
  unfold mbind at 1, cmd_bind at 1. unfold mbind, cmd_bind at 1, get_file, cread. rewrite Hfl, Ho. done.
Qed.

Lemma transfer_done_run k f fl len done :
  files k !! f = Some fl → 0 ≤ done ≤ len → is_u32 (f_offset fl) → f_offset fl + done < 2 ^ 32 →
  Vfs.transfer_done f len ERR_SUCCESS done k =
    Some ((ERR_SUCCESS, done), set_files (<[f := with_offset (f_offset fl + done) fl]> (files k)) k).
Proof.
  unfold is_u32. intros Hf Hd Ho Hs. unfold Vfs.transfer_done.
  erewrite bind_run by (unfold get_file, cread; by rewrite Hf).
  rewrite (proj2 (Z.ltb_ge _ _)) by lia. rewrite u32_small by lia. rewrite (proj2 (Z.ltb_ge _ _)) by lia.
  by rewrite u32_small by lia.
Qed.

(** Reading through an open file. *)
Lemma vfs_read_run k f fl vn node n len :
  open_on k f fl vn node n → is_u32 len → f_offset fl + len < 2 ^ 32 →
  let bytes := slice (Z.to_nat (f_offset fl)) (Z.to_nat len) (content n) in
  Vfs.vfs_read ops f true len k =
    Some ((ERR_SUCCESS, Z.of_nat (length bytes), bytes),
          set_files (<[f := with_offset (f_offset fl + Z.of_nat (length bytes)) fl]> (files k)) k).
Proof.
  intros [(Hf & Hfl & Hvn & Hops) Ho (v & Hv & Hvo) Hin Hok] Hlen Hs bytes. unfold is_u32 in Hlen.
  assert (Z.of_nat (length bytes) ≤ len) as Hb by (unfold bytes, slice; rewrite length_take; lia).
  unfold Vfs.vfs_read. erewrite generic_run by done. unfold Vfs.vfs_generic_read. rewrite (proj2 (Z.eqb_neq f 0)) by done.
  erewrite bind_run by (unfold get_file, cread; by rewrite Hfl). rewrite Hvn, (proj2 (Z.eqb_neq vn 0)) by apply (in_vn _ _ _ _ Hin).
  cbn [orb negb andb]. rewrite andb_false_r. erewrite bind_run by (unfold get_vnode, cread; by rewrite Hv).
  unfold Vfs.has_op, Ramfs.ops_of. rewrite Hvo. cbn [Z.eqb RAMFS_OPS Pos.eqb mbind option_bind op_read ramfs_vnode_ops].
  erewrite bind_run by (apply (read_wp k vn node n); [done|done|done|done]).
  fold bytes. cbn beta iota. erewrite bind_run by (apply transfer_done_run; [exact Hfl|lia|done|lia]). done.
Qed.

Lemma seek_run k f fl off :
  f ≠ 0 → files k !! f = Some fl → f_ops fl = Vfs.GENERIC_FILE_OPS →
  Vfs.vfs_seek f off k = Some (ERR_SUCCESS, set_files (<[f := with_offset off fl]> (files k)) k).
Proof.
  intros Hf Hfl Ho. unfold Vfs.vfs_seek. erewrite generic_run by done. unfold Vfs.vfs_generic_seek.
  rewrite (proj2 (Z.eqb_neq f 0)) by done. by erewrite bind_run by (unfold get_file, cread; by rewrite Hfl).
Qed.

Lemma open_on_moved k f fl vn node n off :
  open_on k f fl vn node n → is_u32 off →
  open_on (set_files (<[f := with_offset off fl]> (files k)) k) f (with_offset off fl) vn node n.
Proof.
  intros [(Hf & Hfl & Hvn & Hops) Ho Hv Hin Hok] Hoff. split; [|done|done| |done].
  - cbn. by rewrite lookup_insert_eq.
  - destruct Hin. by split.
Qed.

(** Writing through an open file: all of the bytes, or nothing. *)
Record kept_file k k' : Prop := { kf_files : files k' = files k; kf_nodes : nodes (fs k') = nodes (fs k) }.
Record wrote_file k f fl node n buf len k' n' : Prop := {
  wf_files : files k' = <[f := with_offset (f_offset fl + len) fl]> (files k);
  wf_nodes : nodes (fs k') = <[node := n']> (nodes (fs k));
  wf_content : content n' = file_write (content n) (Z.to_nat (f_offset fl)) (take (Z.to_nat len) buf)
}.
Definition write_state f fl len (r : Z * Z) k1 : K :=
  if r.1 =? ERR_SUCCESS then set_files (<[f := with_offset (f_offset fl + len) fl]> (files k1)) k1 else k1.
(** The write of the file system, then the offset. *)
Lemma vfs_write_node_wp k f fl vn node n buf len :
  open_on k f fl vn node n → 0 < len < 2 ^ 32 → len ≤ Z.of_nat (length buf) →
  wp (Vfs.vfs_write ops f (Some buf) len) (λ r k', ∃ k1,
    write_post vn node n buf (f_offset fl) len k r k1 ∧ files k1 = files k ∧ k' = write_state f fl len r k1) k.
Proof.
  intros Hopen Hlen Hbuf. pose proof Hopen as [(Hf & Hfl & Hvn & Hops) Ho (v & Hv & Hvo) Hin Hok].
  pose proof Ho as Ho'. unfold is_u32 in Ho'.
  unfold Vfs.vfs_write. eapply wp_run_eq; [by eapply generic_run|]. unfold Vfs.vfs_generic_write.
  rewrite (proj2 (Z.eqb_neq f 0)) by done. wp_step. eapply get_file_wp; [exact Hfl|].
  rewrite Hvn, (proj2 (Z.eqb_neq vn 0)) by apply (in_vn _ _ _ _ Hin). rewrite bool_decide_true by done.
  cbn [orb negb andb]. rewrite andb_false_r. wp_step. eapply get_vnode_wp; [exact Hv|].
  unfold Vfs.has_op, Ramfs.ops_of at 1. rewrite Hvo. cbn [Z.eqb RAMFS_OPS Pos.eqb mbind option_bind op_write ramfs_vnode_ops].
  wp_step. eapply wp_mono; [apply (write_wp stale k vn node n buf _ len Hin Hok Ho Hlen Hbuf)|]. cbn beta.
  assert (Hfail : ∀ r k1, files k1 = files k → (r =? ERR_SUCCESS) = false → write_post vn node n buf (f_offset fl) len k (r, 0) k1 →
    wp (Vfs.transfer_done f len r 0) (λ r k', ∃ k1,
      write_post vn node n buf (f_offset fl) len k r k1 ∧ files k1 = files k ∧ k' = write_state f fl len r k1) k1).
  { intros r k1 E Hrs Hpost. unfold Vfs.transfer_done. wp_step. eapply get_file_wp; [rewrite E; exact Hfl|].
    rewrite (proj2 (Z.ltb_ge _ _)) by lia. rewrite u32_small by lia. rewrite (proj2 (Z.ltb_ge _ _)) by lia.
    rewrite Hrs. wp_step. wp_step. wp_step. exists k1. split_and!; [done|done|]. unfold write_state. cbn [fst]. by rewrite Hrs. }
  intros r k1 Hpost. pose proof Hpost as [(-> & _ & ->)|[(-> & Hk1)|(-> & Hend & n' & Hk1 & _)]].
  - by apply Hfail.
  - apply Hfail; [apply Hk1|done|done].
  - assert (files k1 !! f = Some fl) as Hfl1 by (by rewrite (nc_files _ _ _ _ Hk1)).
    eapply wp_eq; [apply (transfer_done_run k1 f fl len len Hfl1); [lia|done|lia]|]. exists k1. split_and!; [done|apply Hk1|done].
Qed.

Lemma vfs_write_wp k f fl vn node n buf len :
  open_on k f fl vn node n → 0 < len < 2 ^ 32 → len ≤ Z.of_nat (length buf) →
  wp (Vfs.vfs_write ops f (Some buf) len) (λ r k',
    (r.1 < 0 ∧ r.2 = 0 ∧ kept_file k k' ∧ open_on k' f fl vn node n) ∨
    (r = (ERR_SUCCESS, len) ∧ f_offset fl + len < 2 ^ 32 ∧ ∃ n', wrote_file k f fl node n buf len k' n' ∧
       open_on k' f (with_offset (f_offset fl + len) fl) vn node n')) k.
Proof.
  intros Hopen Hlen Hbuf. pose proof Hopen as [(Hf & Hfl & Hvn & Hops) Ho (v & Hv & Hvo) Hin Hok]. pose proof Ho as Ho'. unfold is_u32 in Ho'.
  eapply wp_mono; [by apply (vfs_write_node_wp k f fl vn node n buf len)|]. cbn beta.
  intros r k' (k1 & [(-> & _ & ->)|[(-> & Hk1)|(-> & Hend & n' & Hk1 & Hok' & Hsz & Hc & _)]] & HF & ->); unfold write_state; cbn [fst].
  - left. done.
  - assert (En : <[node := n]> (nodes (fs k)) = nodes (fs k)) by apply insert_id, (in_at _ _ _ _ Hin).
    change (ERR_OUT_OF_MEMORY =? ERR_SUCCESS) with false. cbn iota.
    left. split; [done|]. split; [done|]. split; [split; [done|by rewrite (nc_nodes _ _ _ _ Hk1)]|].
    split; [by rewrite HF|done| |by eapply node_changed_is|done]. exists v. by rewrite (nc_vnodes _ _ _ _ Hk1).
  - assert (files k1 !! f = Some fl) as Hfl1 by (by rewrite HF).
    right. split; [done|]. split; [done|]. exists n'. change (ERR_SUCCESS =? ERR_SUCCESS) with true. cbn iota.
    split; [split; [cbn; by rewrite HF|apply Hk1|exact Hc]|].
    apply open_on_moved; [|unfold is_u32; lia]. split; [done|done| |by eapply node_changed_is|done].
    exists v. by rewrite (nc_vnodes _ _ _ _ Hk1).
Qed.

(** C10: a program that writes to an open regular file either gets an error,
    with the file and its offset as they were, or all bytes are written at the
    offset, which moves behind them; seeking back and reading gives the bytes
    that were written, and the offset is behind them again. *)
Theorem vfs_ramfs_write_seek_read k f fl vn node n buf len :
  open_on k f fl vn node n → 0 < len < 2 ^ 32 → len ≤ Z.of_nat (length buf) →
  wp (Vfs.vfs_write ops f (Some buf) len) (λ r k',
    (r.1 ≠ ERR_SUCCESS ∧ r.2 = 0 ∧ files k' = files k ∧ nodes (fs k') = nodes (fs k)) ∨
    (r = (ERR_SUCCESS, len) ∧
     files k' = <[f := with_offset (f_offset fl + len) fl]> (files k) ∧
     (∃ n', nodes (fs k') = <[node := n']> (nodes (fs k)) ∧
        content n' = file_write (content n) (Z.to_nat (f_offset fl)) (take (Z.to_nat len) buf)) ∧
     wp (Vfs.vfs_seek f (f_offset fl);; Vfs.vfs_read ops f true len)
        (λ r' k'', r' = (ERR_SUCCESS, len, take (Z.to_nat len) buf) ∧ files k'' = files k') k')) k.
Proof.
  intros Hopen Hlen Hbuf. eapply wp_mono; [by apply (vfs_write_wp k f fl vn node n buf len)|]. cbn beta.
  intros r k1 [(Hr & H2 & [E1 E2] & _)|(-> & Hend & n' & [E1 E2 Hc] & Hopen2)]; [left|right].
  { split_and!; [unfold ERR_SUCCESS; lia|done..]. }
  pose proof (oo_offset _ _ _ _ _ _ Hopen) as Ho. unfold is_u32 in Ho.
  split_and!; [done|done|by exists n'|]. destruct (oo_file _ _ _ _ _ _ Hopen2) as (Hf & Hfl & _ & Hops).
  wp_step. eapply wp_eq; [by apply (seek_run k1 f (with_offset (f_offset fl + len) fl))|].
  pose proof (open_on_moved _ _ _ _ _ _ (f_offset fl) Hopen2 ltac:(unfold is_u32; lia)) as Hopen3.
  eapply wp_eq; [apply (vfs_read_run _ _ _ _ _ _ len Hopen3); [unfold is_u32; lia|cbn; lia]|]. cbn [f_offset with_offset].
  assert (length (take (Z.to_nat len) buf) = Z.to_nat len) as Hl by (rewrite length_take; lia).
  pose proof (file_write_read stale (content n) (Z.to_nat (f_offset fl)) (take (Z.to_nat len) buf)) as E. rewrite Hl in E.
  rewrite Hc, E, Hl. rewrite Z2Nat.id by lia. split; [done|]. cbn. rewrite E1, !insert_insert_eq. by destruct fl.
Qed.
End stack.

(** The file [a] of the small tree, open at offset 70. *)
Definition ex_open : kernel (ramfs unit) := set_files {[40 := mk_file 21 70 3 1 1]} ex_kernel.

Lemma vfs_ramfs_write_seek_read_witness :
  wp (Vfs.vfs_write (ops_of ex_stale) 40 (Some [1; 2; 3]) 3) (λ r k', r.1 = ERR_SUCCESS →
    wp (Vfs.vfs_seek 40 70;; Vfs.vfs_read (ops_of ex_stale) 40 true 3) (λ r' _, r' = (ERR_SUCCESS, 3, [1; 2; 3])) k') ex_open.
Proof.
  assert (open_on ex_open 40 (mk_file 21 70 3 1 1) 21 11 ex_a) as Hopen.
  { split; [by split_and!|by_eval|exists ex_a_vnode; by split|destruct ex_is_a; by split|exact ex_a_ok]. }
  eapply wp_mono; [apply (vfs_ramfs_write_seek_read ex_stale ex_open 40 _ 21 11 ex_a [1; 2; 3] 3 Hopen); [lia|cbn; lia]|].
  intros r k' [(H & _)|(_ & _ & _ & Hw)] Hr; [done|].
  eapply wp_mono; [exact Hw|]. intros r' k'' [H _]. exact H.
Defined.
End Stack.
