(* ===== verification/Links.v ===== *)
(** * Intrusive doubly linked lists

    [include/kernel/list.h]: the [Link] that kernel structures embed.  The links
    of a component are a finite map from addresses to links; a structure is
    named by the address of its link, so that [LinkData] is the identity. *)

From S2P Require Import Prelude.

Module Links.

Record link := mk_link { l_prev : Z; l_next : Z }.
Abbreviation links := (gmap Z link).
Implicit Types (lk : links).

Definition get_link (x : Z) : cmd links link := cread (λ lk, lk !! x).
(** [x->prev = p] and [x->next = n] *)
Definition set_prev (x p : Z) : cmd links unit :=
  l ← get_link x; cmodify (<[x := mk_link p (l_next l)]>).
Definition set_next (x n : Z) : cmd links unit :=
  l ← get_link x; cmodify (<[x := mk_link (l_prev l) n]>).

Definition LinkInit (x : Z) : cmd links unit :=
  set_prev x x;; set_next x x.

Definition LinkAfter (a x : Z) : cmd links unit :=
  l ← get_link a;
  let p := a in let n := l_next l in
  set_prev n x;; set_next x n;; set_prev x p;; set_next p x.

Definition LinkBefore (a x : Z) : cmd links unit :=
  l ← get_link a;
  let p := l_prev l in let n := a in
  set_prev n x;; set_next x n;; set_prev x p;; set_next p x.

Definition LinkRemove (x : Z) : cmd links unit :=
  l ← get_link x;
  let p := l_prev l in let n := l_next l in
  set_prev n p;; set_next p n;; set_next x 0;; set_prev x 0.

Definition LinkMoveAfter (a x : Z) : cmd links unit := LinkRemove x;; LinkAfter a x.
Definition LinkMoveBefore (a x : Z) : cmd links unit := LinkRemove x;; LinkBefore a x.

Definition ListIsEmpty (x : Z) : cmd links bool :=
  l ← get_link x; mret (l_next l =? x).

(** The iteration macros, for a component that keeps its links in a larger
    state: the loop from [it] on, left with [Some r] by a [return] in the body.
    [step] is [l_next] forwards and [l_prev] backwards. *)
Section iteration.
Context {S R : Type} (links_of : S → links) (step : link → Z).

Fixpoint list_loop (head : Z) (body : Z → cmd S (option R)) (fuel : nat) (it : Z) : cmd S (option R) :=
  match fuel with
  | O => cundef
  | Datatypes.S fuel =>
      if it =? head then mret None else
      r ← body it;
      match r with
      | Some r => mret (Some r)
      | None => l ← cread (λ s, links_of s !! it); list_loop head body fuel (step l)
      end
  end.

(** The head is dereferenced once; a list has fewer entries than there are links. *)
Definition list_each (head : Z) (body : Z → cmd S (option R)) : cmd S (option R) :=
  s ← cget;
  l ← cread (λ s, links_of s !! head);
  list_loop head body (size (links_of s)) (step l).
End iteration.
Definition ListForEach {S R} (links_of : S → links) := list_each (R := R) links_of l_next.
Definition ListForEachReverse {S R} (links_of : S → links) := list_each (R := R) links_of l_prev.

(** The safe variant reads the next link before the body runs. *)
Section safe_iteration.
Context {S R : Type} (links_of : S → links).

Fixpoint safe_loop (head : Z) (body : Z → cmd S (option R)) (fuel : nat) (it : Z) : cmd S (option R) :=
  match fuel with
  | O => cundef
  | Datatypes.S fuel =>
      if it =? head then mret None else
      l ← cread (λ s, links_of s !! it);
      r ← body it;
      match r with
      | Some r => mret (Some r)
      | None => safe_loop head body fuel (l_next l)
      end
  end.
Definition ListForEachSafe (head : Z) (body : Z → cmd S (option R)) : cmd S (option R) :=
  s ← cget;
  l ← cread (λ s, links_of s !! head);
  safe_loop head body (size (links_of s)) (l_next l).
End safe_iteration.

(** ** Cycles

    [edge lk a b]: [b] follows [a].  [cycle lk c]: the links of [c] form a
    cycle in this order; [ring lk h xs]: the list with head [h] holds [xs]. *)

Definition edge lk (a b : Z) : Prop := l_next <$> lk !! a = Some b ∧ l_prev <$> lk !! b = Some a.

Fixpoint path (p : Z) (xs : list Z) (e : Z) : list (Z * Z) :=
  match xs with [] => [(p, e)] | x :: xs => (p, x) :: path x xs e end.

Definition edges lk (es : list (Z * Z)) : Prop := Forall (λ ab, edge lk ab.1 ab.2) es.

Definition ring lk (h : Z) (xs : list Z) : Prop := NoDup (h :: xs) ∧ edges lk (path h xs h).
Definition cycle lk (c : list Z) : Prop := match c with [] => True | h :: xs => ring lk h xs end.

Lemma path_app p xs y ys e : path p (xs ++ y :: ys) e = path p xs y ++ path y ys e.
Proof. revert p. induction xs as [|x xs IH]; intros p; [done|]. cbn. by rewrite IH. Qed.

Lemma path_fst p xs e : (path p xs e).*1 = p :: xs.
Proof. revert p. induction xs as [|x xs IH]; intros p; [done|]. cbn. by rewrite IH. Qed.

Lemma path_snd p xs e : (path p xs e).*2 = xs ++ [e].
Proof. revert p. induction xs as [|x xs IH]; intros p; [done|]. cbn. by rewrite IH. Qed.

Lemma path_in p xs e a b : (a, b) ∈ path p xs e → a ∈ p :: xs ∧ b ∈ xs ++ [e].
Proof.
  intros H. rewrite <- (path_fst p xs e), <- (path_snd p xs e).
  by split; [apply (list_elem_of_fmap_2 fst _ (a, b))|apply (list_elem_of_fmap_2 snd _ (a, b))].
Qed.

Lemma path_last p xs : ∃ es z, (∀ e, path p xs e = es ++ [(z, e)]) ∧ z ∈ p :: xs.
Proof.
  revert p. induction xs as [|x xs IH]; intros p; [exists [], p; split; [done|left]|].
  destruct (IH x) as (es & z & He & Hz). exists ((p, x) :: es), z. split; [intros e; cbn; by rewrite He|by right].
Qed.

(** A cycle can be entered anywhere. *)
Lemma cycle_rotate lk l1 l2 : cycle lk (l1 ++ l2) → cycle lk (l2 ++ l1).
Proof.
  destruct l1 as [|a l1]; [by rewrite app_nil_r|]. destruct l2 as [|b l2]; [by rewrite app_nil_r|].
  cbn. intros [Hnd He]. split.
  - change (NoDup ((b :: l2) ++ a :: l1)). change (NoDup ((a :: l1) ++ b :: l2)) in Hnd.
    apply NoDup_app in Hnd as (H1 & H2 & H3). apply NoDup_app. split_and!; [done| |done]. intros x Hx Hx'. by apply (H2 x).
  - unfold edges in *. rewrite path_app in *. rewrite Forall_app in *. tauto.
Qed.

Lemma ring_frame lk lk' h xs : ring lk h xs → (∀ a, a ∈ h :: xs → lk' !! a = lk !! a) → ring lk' h xs.
Proof.
  intros [Hnd He] Heq. split; [done|]. unfold edges in *. rewrite Forall_forall in *. intros [a b] Hab. specialize (He _ Hab).
  apply path_in in Hab as [Ha Hb]. unfold edge in *. cbn in *.
  rewrite (Heq a) by done. rewrite (Heq b); [done|]. set_solver.
Qed.

(** ** The operations on cycles *)

Definition next_of lk (a : Z) : option Z := l_next <$> lk !! a.
Definition prev_of lk (a : Z) : option Z := l_prev <$> lk !! a.

(** [lk'] differs from [lk] at most on the links of [l]. *)
Record only (l : list Z) lk lk' : Prop := {
  only_out a : a ∉ l → lk' !! a = lk !! a;
  only_live a : is_Some (lk !! a) → is_Some (lk' !! a)
}.

Lemma only_trans l1 l2 lk1 lk2 lk3 : only l1 lk1 lk2 → only l2 lk2 lk3 → only (l1 ++ l2) lk1 lk3.
Proof.
  intros [H1 H1'] [H2 H2']. split; [|by eauto]. intros a [Ha1 Ha2]%not_elem_of_app. by rewrite H2, H1.
Qed.

Lemma only_mono l l' lk lk' : only l lk lk' → (∀ a, a ∈ l → a ∈ l') → only l' lk lk'.
Proof. intros [H1 H2] Hl. split; [|done]. intros a Ha. apply H1. by intros ?%Hl. Qed.

Lemma get_link_wp x l lk Q : lk !! x = Some l → Q l lk → wp (get_link x) Q lk.
Proof. intros. by eapply wp_read. Qed.

Lemma set_prev_wp x p lk Q :
  is_Some (lk !! x) →
  (∀ lk', (∀ a, next_of lk' a = next_of lk a) → (∀ a, prev_of lk' a = if a =? x then Some p else prev_of lk a) →
     only [x] lk lk' → Q tt lk') →
  wp (set_prev x p) Q lk.
Proof.
  intros [l Hl] HQ. unfold set_prev. wp_step. eapply get_link_wp; [exact Hl|]. wp_step. apply HQ.
  - intros a. unfold next_of. destruct (decide (a = x)) as [->|]; [by rewrite lookup_insert_eq, Hl|by rewrite lookup_insert_ne].
  - intros a. unfold prev_of. destruct (Z.eqb_spec a x) as [->|]; [by rewrite lookup_insert_eq|by rewrite lookup_insert_ne].
  - split; [intros a Ha; rewrite lookup_insert_ne; set_solver|]. intros a Ha.
    destruct (decide (a = x)) as [->|]; [by rewrite lookup_insert_eq|by rewrite lookup_insert_ne].
Qed.

Lemma set_next_wp x n lk Q :
  is_Some (lk !! x) →
  (∀ lk', (∀ a, next_of lk' a = if a =? x then Some n else next_of lk a) → (∀ a, prev_of lk' a = prev_of lk a) →
     only [x] lk lk' → Q tt lk') →
  wp (set_next x n) Q lk.
Proof.
  intros [l Hl] HQ. unfold set_next. wp_step. eapply get_link_wp; [exact Hl|]. wp_step. apply HQ.
  - intros a. unfold next_of. destruct (Z.eqb_spec a x) as [->|]; [by rewrite lookup_insert_eq|by rewrite lookup_insert_ne].
  - intros a. unfold prev_of. destruct (decide (a = x)) as [->|]; [by rewrite lookup_insert_eq, Hl|by rewrite lookup_insert_ne].
  - split; [intros a Ha; rewrite lookup_insert_ne; set_solver|]. intros a Ha.
    destruct (decide (a = x)) as [->|]; [by rewrite lookup_insert_eq|by rewrite lookup_insert_ne].
Qed.

Lemma edge_def lk a b : edge lk a b ↔ next_of lk a = Some b ∧ prev_of lk b = Some a.
Proof. done. Qed.

Lemma edge_live lk a b : edge lk a b → is_Some (lk !! a) ∧ is_Some (lk !! b).
Proof. intros [H1 H2]. by destruct (lk !! a), (lk !! b). Qed.

Ltac link_step lemma :=
  wp_step; apply lemma;
  [eauto using only_live, mk_is_Some
  |let lk := fresh "lk" in let Hn := fresh "Hn" in let Hp := fresh "Hp" in let Ho := fresh "Ho" in intros lk Hn Hp Ho].

(** Comparisons of addresses in a lookup after updates. *)
Ltac link_eqs := repeat match goal with
  | |- context [?a =? ?b] => destruct (Z.eqb_spec a b); try subst; try congruence
  end.

(** The four stores of an insertion of [x] between [p] and [n]. *)
Lemma insert_wp p n x lk :
  edge lk p n → is_Some (lk !! x) → x ≠ p → x ≠ n →
  wp (set_prev n x;; set_next x n;; set_prev x p;; set_next p x) (λ _ lk',
    edge lk' p x ∧ edge lk' x n ∧ only [p; n; x] lk lk' ∧
    (∀ a b, edge lk a b → a ∉ [p; x] → b ∉ [n; x] → edge lk' a b)) lk.
Proof.
  intros He Hx Hp Hn. pose proof (edge_live _ _ _ He) as [Hlp Hln].
  link_step set_prev_wp. link_step set_next_wp. link_step set_prev_wp.
  apply set_next_wp; [eauto using only_live|]. intros lk3 Hn3 Hp3 Ho3.
  split_and!.
  - apply edge_def. rewrite Hn3, Hp3, Hp2. link_eqs. done.
  - apply edge_def. rewrite Hn3, Hp3, Hn2, Hp2, Hn1, Hp1, Hp0. link_eqs. done.
  - eapply only_mono; [exact (only_trans _ _ _ _ _ (only_trans _ _ _ _ _ (only_trans _ _ _ _ _ Ho Ho0) Ho1) Ho3)|set_solver].
  - intros a b [Ha Hb]%edge_def Hna Hnb. apply edge_def. rewrite Hn3, Hp3, Hn2, Hp2, Hn1, Hp1, Hn0, Hp0.
    rewrite !not_elem_of_cons in *. link_eqs; naive_solver.
Qed.

(** The four stores of a removal. *)
Lemma remove_wp p n x lk :
  edge lk p x → edge lk x n → p ≠ x → n ≠ x →
  wp (LinkRemove x) (λ _ lk',
    edge lk' p n ∧ lk' !! x = Some (mk_link 0 0) ∧ only [p; n; x] lk lk' ∧
    (∀ a b, edge lk a b → a ∉ [p; x] → b ∉ [n; x] → edge lk' a b)) lk.
Proof.
  intros Hpx Hxn Hp Hn. pose proof (edge_live _ _ _ Hpx) as [Hlp [l Hl]]. pose proof (edge_live _ _ _ Hxn) as [_ Hln].
  unfold LinkRemove. wp_step. eapply get_link_wp; [exact Hl|].
  assert (l_prev l = p ∧ l_next l = n) as [-> ->].
  { destruct Hpx as [_ H1], Hxn as [H2 _]. rewrite Hl in H1, H2. by inversion H1; inversion H2. }
  link_step set_prev_wp. link_step set_next_wp. link_step set_next_wp.
  apply set_prev_wp; [eauto using only_live|]. intros lk3 Hn3 Hp3 Ho3.
  split_and!.
  - apply edge_def. rewrite Hn3, Hp3, Hn2, Hp2, Hn1, Hp1, Hp0. link_eqs. done.
  - assert (next_of lk3 x = Some 0 ∧ prev_of lk3 x = Some 0) as [H1 H2].
    { rewrite Hn3, Hp3, Hn2. link_eqs. done. }
    unfold next_of, prev_of in H1, H2. destruct (lk3 !! x) as [[??]|]; [|done]. by inversion H1; inversion H2; subst.
  - eapply only_mono; [exact (only_trans _ _ _ _ _ (only_trans _ _ _ _ _ (only_trans _ _ _ _ _ Ho Ho0) Ho1) Ho3)|set_solver].
  - intros a b [Ha Hb]%edge_def Hna Hnb. apply edge_def. rewrite Hn3, Hp3, Hn2, Hp2, Hn1, Hp1, Hn0, Hp0.
    rewrite !not_elem_of_cons in *. link_eqs; naive_solver.
Qed.

Lemma path_head p ys e : ∃ n es, path p ys e = (p, n) :: es ∧ (∀ x, path p (x :: ys) e = (p, x) :: (x, n) :: es).
Proof. destruct ys as [|y ys]; [by exists e, []|by exists y, (path y ys e)]. Qed.

Lemma ring_nodup lk h xs : ring lk h xs → NoDup (path h xs h).*1 ∧ NoDup (path h xs h).*2.
Proof.
  intros [Hnd _]. rewrite path_fst, path_snd. split; [done|]. by rewrite <- Permutation_cons_append.
Qed.

Lemma edges_kept lk lk' es p n x y :
  edges lk es → (∀ a b, edge lk a b → a ∉ [p; x] → b ∉ [n; y] → edge lk' a b) →
  p ∉ es.*1 → x ∉ es.*1 → n ∉ es.*2 → y ∉ es.*2 → edges lk' es.
Proof.
  intros He Hk H1 H2 H3 H4. unfold edges in *. rewrite Forall_forall in *. intros [a b] Hab. cbn.
  pose proof (list_elem_of_fmap_2 fst _ _ Hab). pose proof (list_elem_of_fmap_2 snd _ _ Hab). cbn in *.
  apply Hk; [by apply (He (a, b))| |]; rewrite !not_elem_of_cons; repeat split; try congruence; try apply not_elem_of_nil.
Qed.

(** [LinkAfter] and [LinkBefore] at the entry of a cycle. *)
Lemma ring_after lk a ys x :
  ring lk a ys → x ∉ a :: ys → is_Some (lk !! x) →
  wp (LinkAfter a x) (λ _ lk', ring lk' a (x :: ys) ∧ only (x :: a :: ys) lk lk') lk.
Proof.
  intros Hr Hx Hlive. pose proof (ring_nodup _ _ _ Hr) as [Hnd1 Hnd2]. destruct Hr as [Hnd He].
  pose proof (path_fst a ys a) as Hfst. pose proof (path_snd a ys a) as Hsnd.
  destruct (path_head a ys a) as (n & es & Hp & Hpx). rewrite Hp in *. cbn in Hfst, Hsnd, Hnd1, Hnd2.
  apply Forall_cons in He as [Han He]. cbn in Han. apply NoDup_cons in Hnd1 as [Hae _]. apply NoDup_cons in Hnd2 as [Hne _].
  assert (n ∈ ys ++ [a]) as Hn by (rewrite <- Hsnd; left).
  assert (∀ b, b ∈ es.*2 → b ∈ ys ++ [a]) as Hsub by (intros b Hb; rewrite <- Hsnd; by right).
  unfold LinkAfter. pose proof (edge_live _ _ _ Han) as [[l Hl] _]. wp_step. eapply get_link_wp; [exact Hl|].
  assert (l_next l = n) as -> by (destruct Han as [H1 _]; rewrite Hl in H1; by inversion H1).
  eapply wp_mono; [apply (insert_wp a n x); [done|done|set_solver|set_solver]|]. cbn beta.
  intros _ lk' (H1 & H2 & Ho & Hk). split; [|eapply only_mono; [exact Ho|set_solver]].
  split; [apply NoDup_cons; apply NoDup_cons in Hnd as [??]; split; [set_solver|]; apply NoDup_cons; set_solver|].
  rewrite Hpx. apply Forall_cons. split; [done|]. apply Forall_cons. split; [done|].
  eapply (edges_kept _ _ _ a n x x); [done|exact Hk|done| |done|]; [|set_solver].
  inversion Hfst. set_solver.
Qed.

Lemma ring_before lk a ys x :
  ring lk a ys → x ∉ a :: ys → is_Some (lk !! x) →
  wp (LinkBefore a x) (λ _ lk', ring lk' a (ys ++ [x]) ∧ only (x :: a :: ys) lk lk') lk.
Proof.
  intros Hr Hx Hlive. pose proof (ring_nodup _ _ _ Hr) as [Hnd1 Hnd2]. destruct Hr as [Hnd He].
  pose proof (path_fst a ys a) as Hfst. pose proof (path_snd a ys a) as Hsnd.
  destruct (path_last a ys) as (es & z & Hp & Hz). rewrite (Hp a) in *. rewrite fmap_app in *. cbn in Hfst, Hsnd, Hnd1, Hnd2.
  apply Forall_app in He as [He Hza]. apply Forall_cons in Hza as [Hza _]. cbn in Hza.
  apply NoDup_app in Hnd1 as (_ & Hze & _). apply NoDup_app in Hnd2 as (_ & Hae & _).
  apply app_inj_tail in Hsnd as [Hsnd _].
  assert (∀ b, b ∈ es.*1 → b ∈ a :: ys) as Hsub by (intros b Hb; rewrite <- Hfst; apply elem_of_app; by left).
  unfold LinkBefore. pose proof (edge_live _ _ _ Hza) as [_ [l Hl]]. wp_step. eapply get_link_wp; [exact Hl|].
  assert (l_prev l = z) as -> by (destruct Hza as [_ H1]; rewrite Hl in H1; by inversion H1).
  eapply wp_mono; [apply (insert_wp z a x); [done|done|set_solver|set_solver]|]. cbn beta.
  intros _ lk' (H1 & H2 & Ho & Hk). split; [|eapply only_mono; [exact Ho|set_solver]].
  split; [change (NoDup ((a :: ys) ++ [x])); apply NoDup_app; split_and!; [done|set_solver|apply NoDup_singleton]|].
  rewrite path_app, (Hp x). cbn [path]. apply Forall_app. split; [|by apply Forall_cons].
  apply Forall_app. split; [|by apply Forall_cons].
  eapply (edges_kept _ _ _ z a x x); [done|exact Hk| | | |]; [|set_solver| |set_solver].
  - intros Hin. apply (Hze z Hin). left.
  - intros Hin. apply (Hae a Hin). left.
Qed.

Lemma ring_remove lk x ys :
  ring lk x ys → ys ≠ [] →
  wp (LinkRemove x) (λ _ lk', cycle lk' ys ∧ lk' !! x = Some (mk_link 0 0) ∧ only (x :: ys) lk lk') lk.
Proof.
  intros Hr Hys. pose proof (ring_nodup _ _ _ Hr) as [Hnd1 Hnd2]. destruct Hr as [Hnd He].
  destruct ys as [|y ys]; [done|]. clear Hys. cbn [path] in *.
  pose proof (path_fst y ys x) as Hfst. pose proof (path_snd y ys x) as Hsnd.
  destruct (path_last y ys) as (es & z & Hp & Hz). rewrite (Hp x) in *. rewrite !fmap_cons, !fmap_app in *. cbn in Hfst, Hsnd, Hnd1, Hnd2.
  apply Forall_cons in He as [Hxy He]. apply Forall_app in He as [He Hzx]. apply Forall_cons in Hzx as [Hzx _]. cbn in Hxy, Hzx.
  apply NoDup_cons in Hnd1 as [Hx1 Hnd1]. apply NoDup_cons in Hnd2 as [Hy2 Hnd2].
  apply NoDup_app in Hnd1 as (_ & Hze & _). apply NoDup_app in Hnd2 as (_ & Hxe & _).
  assert (x ∉ y :: ys) as Hx by (by apply NoDup_cons in Hnd as [??]).
  eapply wp_mono; [apply (remove_wp z y x); [done|done|intros ->; done|intros ->; apply Hx; left]|]. cbn beta.
  intros _ lk' (H1 & H2 & Ho & Hk). split_and!; [|done|eapply only_mono; [exact Ho|set_solver]].
  split; [by apply NoDup_cons in Hnd as [_ ?]|]. rewrite (Hp y). apply Forall_app. split; [|by apply Forall_cons].
  eapply (edges_kept _ _ _ z y x x); [done|exact Hk| |set_solver|set_solver|].
  - intros Hin. apply (Hze z Hin). left.
  - intros Hin. apply (Hxe x Hin). left.
Qed.

(** The same anywhere in a cycle. *)
Lemma cycle_after lk l1 a l2 x :
  cycle lk (l1 ++ a :: l2) → x ∉ l1 ++ a :: l2 → is_Some (lk !! x) →
  wp (LinkAfter a x) (λ _ lk', cycle lk' (l1 ++ a :: x :: l2) ∧ only (x :: l1 ++ a :: l2) lk lk') lk.
Proof.
  intros Hc Hx Hl. apply cycle_rotate in Hc. eapply wp_mono; [apply (ring_after lk a (l2 ++ l1) x Hc); [set_solver|done]|].
  intros _ lk' [Hr Ho]. split; [|eapply only_mono; [exact Ho|set_solver]].
  apply (cycle_rotate lk' (a :: x :: l2) l1), Hr.
Qed.

Lemma cycle_before lk l1 a l2 x :
  cycle lk (l1 ++ a :: l2) → x ∉ l1 ++ a :: l2 → is_Some (lk !! x) →
  wp (LinkBefore a x) (λ _ lk', cycle lk' (l1 ++ x :: a :: l2) ∧ only (x :: l1 ++ a :: l2) lk lk') lk.
Proof.
  intros Hc Hx Hl. apply cycle_rotate in Hc. eapply wp_mono; [apply (ring_before lk a (l2 ++ l1) x Hc); [set_solver|done]|].
  intros _ lk' [Hr Ho]. split; [|eapply only_mono; [exact Ho|set_solver]].
  rewrite <- app_assoc in Hr. apply (cycle_rotate lk' (a :: l2) (l1 ++ [x])) in Hr. by rewrite <- app_assoc in Hr.
Qed.

Lemma cycle_remove lk l1 x l2 :
  cycle lk (l1 ++ x :: l2) → l1 ++ l2 ≠ [] →
  wp (LinkRemove x) (λ _ lk', cycle lk' (l1 ++ l2) ∧ lk' !! x = Some (mk_link 0 0) ∧ only (l1 ++ x :: l2) lk lk') lk.
Proof.
  intros Hc Hne. apply cycle_rotate in Hc.
  eapply wp_mono; [apply (ring_remove lk x (l2 ++ l1) Hc); intros [-> ->]%app_nil; by apply Hne|].
  intros _ lk' (Hr & Hx & Ho). split_and!; [by apply cycle_rotate|done|eapply only_mono; [exact Ho|set_solver]].
Qed.

(** A list with its head: appending, prepending, removing an entry. *)
Lemma ring_init_wp lk x : is_Some (lk !! x) → wp (LinkInit x) (λ _ lk', ring lk' x [] ∧ only [x] lk lk') lk.
Proof.
  intros Hx. unfold LinkInit. link_step set_prev_wp. apply set_next_wp; [eauto using only_live|]. intros lk1 Hn1 Hp1 Ho1.
  split; [|eapply only_mono; [exact (only_trans _ _ _ _ _ Ho Ho1)|set_solver]].
  split; [apply NoDup_singleton|]. apply Forall_cons. split; [|done]. apply edge_def. cbn. rewrite Hn1, Hp1, Hp.
  by rewrite Z.eqb_refl.
Qed.

Lemma ring_remove_at lk h xs x ys :
  ring lk h (xs ++ x :: ys) →
  wp (LinkRemove x) (λ _ lk', ring lk' h (xs ++ ys) ∧ lk' !! x = Some (mk_link 0 0) ∧ only (h :: xs ++ x :: ys) lk lk') lk.
Proof. intros Hr. by apply (cycle_remove lk (h :: xs) x ys). Qed.

Lemma ring_live lk h xs a : ring lk h xs → a ∈ h :: xs → is_Some (lk !! a).
Proof.
  intros [_ He] Ha. rewrite <- (path_fst h xs h) in Ha. apply list_elem_of_fmap in Ha as ([a' b] & -> & Hab).
  unfold edges in He. rewrite Forall_forall in He. by apply (edge_live _ _ _ (He _ Hab)).
Qed.

Lemma ring_first lk h xs : ring lk h xs → next_of lk h = Some (hd h xs).
Proof. intros [_ He]. destruct xs; apply Forall_cons in He as [[H _] _]; exact H. Qed.

Lemma ring_head_link lk h xs : ring lk h xs → ∃ l, lk !! h = Some l ∧ l_next l = hd h xs.
Proof. intros Hr. pose proof (ring_first _ _ _ Hr) as H. unfold next_of in H. destruct (lk !! h) as [l|]; [|done]. exists l. by inversion H. Qed.
Lemma ring_next lk h xs x ys : ring lk h (xs ++ x :: ys) → next_of lk x = Some (hd h ys).
Proof.
  intros [_ He]. rewrite path_app in He. apply Forall_app in He as [_ He].
  destruct ys; apply Forall_cons in He as [[H _] _]; exact H.
Qed.

Lemma ring_head_not_in lk h xs : ring lk h xs → h ∉ xs.
Proof. intros [Hnd _]. by apply NoDup_cons in Hnd as [??]. Qed.

Lemma ring_empty_run lk h xs : ring lk h xs → ListIsEmpty h lk = Some (bool_decide (xs = []), lk).
Proof.
  intros Hr. pose proof (ring_first _ _ _ Hr) as H. pose proof (ring_head_not_in _ _ _ Hr) as Hh. unfold next_of in H.
  unfold ListIsEmpty. destruct (lk !! h) as [l|] eqn:E; [|done]. cbn in H.
  erewrite bind_run by (unfold get_link, cread; by rewrite E). inversion H as [H']. rewrite H'.
  destruct xs as [|x xs]; cbn [hd].
  - by rewrite Z.eqb_refl, bool_decide_true.
  - rewrite bool_decide_false by done. rewrite (proj2 (Z.eqb_neq _ _)); [done|]. intros ->. apply Hh. left.
Qed.

(** ** Iteration visits the entries in order *)

Lemma path_reverse p xs e : path p (reverse xs) e = reverse (prod_swap <$> path e xs p).
Proof.
  revert e. induction xs as [|x xs IH]; intros e; [done|].
  rewrite reverse_cons. rewrite path_app. cbn [path]. rewrite fmap_cons, reverse_cons. by rewrite IH.
Qed.

(** [step] leads along [path h vs h]. *)
Definition leads (step : link → Z) lk (h : Z) (vs : list Z) : Prop :=
  Forall (λ ab, step <$> lk !! ab.1 = Some ab.2) (path h vs h).

Lemma ring_leads_next lk h xs : ring lk h xs → leads l_next lk h xs.
Proof. intros [_ He]. eapply Forall_impl; [exact He|]. by intros [a b] [H _]. Qed.

Lemma ring_leads_prev lk h xs : ring lk h xs → leads l_prev lk h (reverse xs).
Proof.
  intros [_ He]. unfold leads. rewrite path_reverse. apply Forall_reverse, Forall_fmap.
  eapply Forall_impl; [exact He|]. by intros [a b] [_ H].
Qed.

Lemma ring_size lk h xs : ring lk h xs → (length xs < size lk)%nat.
Proof.
  intros Hr. pose proof Hr as [Hnd _].
  assert (length (h :: xs) ≤ size lk)%nat; [|done].
  rewrite <- size_dom. rewrite <- (size_list_to_set (C := gset Z)) by done. apply subseteq_size.
  intros a Ha%elem_of_list_to_set. apply elem_of_dom. by eapply ring_live.
Qed.

Section loops.
Context {S R : Type} (links_of : S → links) (step : link → Z).
Context (h : Z) (vs : list Z) (body : Z → cmd S (option R)) (Inv : list Z → S → Prop) (Q : option R → S → Prop).
Context (Hnd : h ∉ vs) (Hlead : ∀ us s, Inv us s → leads step (links_of s) h vs).
Context (Hbody : ∀ us x ys s, vs = us ++ x :: ys → Inv us s →
  wp (body x) (λ r s', match r with Some _ => Q r s' | None => Inv (us ++ [x]) s' end) s).
Context (Hend : ∀ s, Inv vs s → Q None s).

Lemma list_loop_wp us ys fuel s :
  vs = us ++ ys → Inv us s → (length ys < fuel)%nat →
  wp (list_loop links_of step h body fuel (hd h ys)) Q s.
Proof.
  revert us ys s. induction fuel as [|fuel IH]; intros us ys s Hvs Hs Hf; [lia|]. cbn [list_loop].
  destruct ys as [|x ys]; cbn [hd].
  - rewrite Z.eqb_refl. wp_step. apply Hend. by rewrite Hvs, app_nil_r.
  - rewrite (proj2 (Z.eqb_neq _ _)) by (intros ->; apply Hnd; rewrite Hvs; set_solver).
    wp_step. eapply wp_mono; [by eapply Hbody|]. cbn beta. intros [r|] s' Hr; [by wp_step|].
    pose proof (Hlead _ _ Hr) as Hl. unfold leads in Hl. rewrite Hvs, path_app in Hl. apply Forall_app in Hl as [_ Hl].
    assert (step <$> links_of s' !! x = Some (hd h ys)) as Hx by (destruct ys; by apply Forall_cons in Hl as [? _]).
    destruct (links_of s' !! x) as [l|] eqn:E; [|done]. cbn in Hx. inversion Hx as [Hx'].
    wp_step. eapply wp_read; [exact E|]. rewrite Hx'. apply (IH (us ++ [x])); [by rewrite <- app_assoc|done|cbn in Hf; lia].
Qed.

Lemma list_each_wp s :
  Inv [] s → (length vs < size (links_of s))%nat → wp (list_each links_of step h body) Q s.
Proof.
  intros Hs Hf. unfold list_each. wp_step. wp_step. pose proof (Hlead _ _ Hs) as Hl. unfold leads in Hl.
  assert (step <$> links_of s !! h = Some (hd h vs)) as Hx by (destruct vs; by apply Forall_cons in Hl as [? _]).
  destruct (links_of s !! h) as [l|] eqn:E; [|done]. cbn in Hx. inversion Hx as [Hx'].
  wp_step. eapply wp_read; [exact E|]. rewrite Hx'. by apply (list_loop_wp []).
Qed.
End loops.

(** The safe loop: the entries [ys] are still to be visited. *)
Section safe_loops.
Context {S R : Type} (links_of : S → links) (h : Z) (body : Z → cmd S (option R)).
Context (Inv : list Z → S → Prop) (Q : option R → S → Prop).
Context (Hnext : ∀ x ys s, Inv (x :: ys) s → x ≠ h ∧ next_of (links_of s) x = Some (hd h ys)).
Context (Hbody : ∀ x ys s, Inv (x :: ys) s →
  wp (body x) (λ r s', match r with Some _ => Q r s' | None => Inv ys s' end) s).
Context (Hend : ∀ s, Inv [] s → Q None s).

Lemma safe_loop_wp ys fuel s :
  Inv ys s → (length ys < fuel)%nat → wp (safe_loop links_of h body fuel (hd h ys)) Q s.
Proof.
  revert ys s. induction fuel as [|fuel IH]; intros ys s Hs Hf; [lia|]. cbn [safe_loop].
  destruct ys as [|x ys]; cbn [hd]; [rewrite Z.eqb_refl; wp_step; by apply Hend|].
  destruct (Hnext _ _ _ Hs) as [Hx Hn]. unfold next_of in Hn. destruct (links_of s !! x) as [l|] eqn:E; [|done].
  rewrite (proj2 (Z.eqb_neq _ _)) by done. wp_step. eapply wp_read; [exact E|].
  wp_step. eapply wp_mono; [by apply Hbody|]. cbn beta. intros [r|] s' Hr; [by wp_step|].
  inversion Hn as [Hn']. rewrite Hn'. apply IH; [done|cbn in Hf; lia].
Qed.

Lemma safe_each_wp ys s :
  Inv ys s → next_of (links_of s) h = Some (hd h ys) → (length ys < size (links_of s))%nat →
  wp (ListForEachSafe links_of h body) Q s.
Proof.
  intros Hs Hh Hf. unfold ListForEachSafe. wp_step. wp_step. unfold next_of in Hh.
  destruct (links_of s !! h) as [l|] eqn:E; [|done]. inversion Hh as [Hh'].
  wp_step. eapply wp_read; [exact E|]. rewrite Hh'. by apply safe_loop_wp.
Qed.
End safe_loops.

(** The entries in the order in which a loop visits them. *)
Definition visit (x : Z) : cmd (links * list Z) (option unit) :=
  cmodify (λ s, (s.1, s.2 ++ [x]));; mret None.

Lemma visit_each step lk h vs :
  h ∉ vs → leads step lk h vs → (length vs < size lk)%nat →
  wp (list_each fst step h visit) (λ r s, r = None ∧ s = (lk, vs)) (lk, []).
Proof.
  intros Hh Hl Hsz.
  apply (list_each_wp fst step h vs visit (λ us s, s = (lk, us)) (λ r s, r = None ∧ s = (lk, vs))); [done| | | |done|done].
  - intros us s ->. exact Hl.
  - intros us x ys s _ ->. unfold visit. wp_step. wp_step. by wp_step.
  - by intros s ->.
Qed.

(** A cycle of links is a sequence: inserting a free link after or before any
    link of it, removing a link and moving one next to another are the
    operations on the sequence and touch no other link, the list is empty
    exactly when only its head is in the cycle, and the iteration macros visit
    the entries behind the head in order, or in reverse order, and stop. *)
Theorem list_operations_refine lk c :
  c ≠ [] → cycle lk c →
  (∀ l1 a l2 x, c = l1 ++ a :: l2 → x ∉ c → is_Some (lk !! x) →
     wp (LinkAfter a x) (λ _ lk', cycle lk' (l1 ++ a :: x :: l2) ∧ only (x :: c) lk lk') lk ∧
     wp (LinkBefore a x) (λ _ lk', cycle lk' (l1 ++ x :: a :: l2) ∧ only (x :: c) lk lk') lk) ∧
  (∀ l1 x l2, c = l1 ++ x :: l2 → l1 ++ l2 ≠ [] →
     wp (LinkRemove x) (λ _ lk', cycle lk' (l1 ++ l2) ∧ lk' !! x = Some (mk_link 0 0) ∧ only c lk lk') lk ∧
     (∀ m1 a m2, l1 ++ l2 = m1 ++ a :: m2 →
        wp (LinkMoveAfter a x) (λ _ lk', cycle lk' (m1 ++ a :: x :: m2) ∧ only c lk lk') lk ∧
        wp (LinkMoveBefore a x) (λ _ lk', cycle lk' (m1 ++ x :: a :: m2) ∧ only c lk lk') lk)) ∧
  (∀ h xs, c = h :: xs →
     ListIsEmpty h lk = Some (bool_decide (xs = []), lk) ∧
     wp (ListForEach fst h visit) (λ r s, r = None ∧ s = (lk, xs)) (lk, []) ∧
     wp (ListForEachReverse fst h visit) (λ r s, r = None ∧ s = (lk, reverse xs)) (lk, [])).
Proof.
  intros Hne Hc. split_and!.
  - intros l1 a l2 x -> Hx Hl. by split; [apply cycle_after|apply cycle_before].
  - intros l1 x l2 -> Hn. split; [by apply cycle_remove|]. intros m1 a m2 Hm.
    assert (x ∉ l1 ++ l2) as Hx.
    { apply cycle_rotate in Hc. destruct Hc as [Hnd _]. apply NoDup_cons in Hnd as [H _]. set_solver. }
    split; (unfold LinkMoveAfter, LinkMoveBefore; wp_step; eapply wp_mono; [by apply cycle_remove|]; cbn beta; intros _ lk1 (Hc1 & Hx1 & Ho1);
      rewrite Hm in Hc1, Hx; eapply wp_mono; [(apply cycle_after || apply cycle_before); [done|done|by rewrite Hx1]|];
      intros _ lk2 [Hc2 Ho2]; split; [done|]; eapply only_mono; [exact (only_trans _ _ _ _ _ Ho1 Ho2)|]; rewrite <- Hm; set_solver).
  - intros h xs ->. cbn in Hc. pose proof (ring_head_not_in _ _ _ Hc). pose proof (ring_size _ _ _ Hc).
    split_and!; [by eapply ring_empty_run|by apply visit_each; [|apply ring_leads_next|]|].
    apply visit_each; [by rewrite elem_of_reverse|by apply ring_leads_prev|by rewrite length_reverse].
Qed.

(** The list with head 1 and the entries 3 and 2, and a free link. *)
Definition ex_links : links :=
  {[1 := mk_link 2 3; 3 := mk_link 1 2; 2 := mk_link 3 1; 4 := mk_link 0 0]}.

Lemma ex_ring : ring ex_links 1 [3; 2].
Proof. split; [by_eval|]. repeat (apply Forall_cons; split; [by split|]). apply Forall_nil_2. Qed.

Lemma list_operations_refine_witness :
  wp (LinkAfter 3 4) (λ _ lk', cycle lk' [1; 3; 4; 2] ∧ only [4; 1; 3; 2] ex_links lk') ex_links ∧
  wp (LinkMoveBefore 3 2) (λ _ lk', cycle lk' [1; 2; 3] ∧ only [1; 3; 2] ex_links lk') ex_links ∧
  wp (ListForEachReverse fst 1 visit) (λ r s, r = None ∧ s = (ex_links, [2; 3])) (ex_links, []).
Proof.
  destruct (list_operations_refine ex_links [1; 3; 2] ltac:(done) ex_ring) as (H1 & H2 & H3). split_and!.
  - exact (proj1 (H1 [1] 3 [2] 4 eq_refl ltac:(by_eval) ltac:(done))).
  - exact (proj2 (proj2 (H2 [1; 3] 2 [] eq_refl ltac:(done)) [1] 3 [] eq_refl)).
  - exact (proj2 (proj2 (H3 1 [3; 2] eq_refl))).
Defined.
End Links.
