(* ===== verification/Ipc.v ===== *)
(** * Message ports and the service registry

    [src/kernel/ipc/ipc.c].  The objects of the module are named by their
    addresses, and the link inside an object has the object's address; the head
    of the registry is [g_service_registry]. *)

From S2P Require Import Prelude Links.
Import Links.

Module Ipc.

Definition IPC_NAME_MAX : Z := 32.
Definition IPC_MAX_DATA : Z := 256.
Definition IPC_OK : Z := 0.
Definition IPC_EINVAL : Z := -1.
Definition IPC_ENOMEM : Z := -2.
Definition IPC_EAGAIN : Z := -3.
Definition IPC_E2BIG : Z := -4.
Definition IPC_ENOENT : Z := -5.
Definition IPC_EEXIST : Z := -6.

(** [ipc_msg_t], [ipc_port_t] and [ipc_service_node_t] without their links *)
Record ipc_msg := mk_msg {
  msg_id : Z; msg_src : Z; msg_type : Z; msg_flags : Z; msg_len : Z; msg_data : list Z
}.
Record ipc_port := mk_port { port_id : Z; port_name : cstring; port_owner : Z; port_pending : Z }.
Record ipc_service := mk_service { svc_name : cstring; svc_port : Z }.
Inductive object := Message (m : ipc_msg) | Port (p : ipc_port) | Service (v : ipc_service).

(** The state of the module; [oracle] lists whether the next allocations
    succeed, and [next] is an address that was never handed out. *)
Record ipc := mk_ipc {
  lk : links;
  objs : gmap Z object;
  g_next_port_id : Z;
  g_next_msg_id : Z;
  g_ipc_ready : bool;
  next : Z;
  oracle : list bool
}.
Implicit Types (s : ipc).

Definition g_service_registry : Z := 1.
(** Before [ipc_init] the statics have their initial values. *)
Definition boot (n : Z) (o : list bool) : ipc :=
  mk_ipc {[g_service_registry := mk_link 0 0]} ∅ 1 1 false n o.

Definition set_lk (l : links) s : ipc :=
  mk_ipc l (objs s) (g_next_port_id s) (g_next_msg_id s) (g_ipc_ready s) (next s) (oracle s).
Definition set_objs (m : gmap Z object) s : ipc :=
  mk_ipc (lk s) m (g_next_port_id s) (g_next_msg_id s) (g_ipc_ready s) (next s) (oracle s).
Definition set_ids (p m : Z) (ready : bool) s : ipc :=
  mk_ipc (lk s) (objs s) p m ready (next s) (oracle s).
Definition set_heap (n : Z) (o : list bool) s : ipc :=
  mk_ipc (lk s) (objs s) (g_next_port_id s) (g_next_msg_id s) (g_ipc_ready s) n o.

Definition on_links {A} (m : cmd links A) : cmd ipc A := czoom lk set_lk m.

(** [calloc] of an object, its link included, and [free]. *)
Definition new_object (o : object) : cmd ipc Z := λ s,
  match oracle s with
  | false :: t => Some (0, set_heap (next s) t s)
  | true :: t => Some (next s, set_heap (next s + 1) t (set_lk (<[next s := mk_link 0 0]> (lk s)) (set_objs (<[next s := o]> (objs s)) s)))
  | [] => Some (next s, set_heap (next s + 1) [] (set_lk (<[next s := mk_link 0 0]> (lk s)) (set_objs (<[next s := o]> (objs s)) s)))
  end.
Definition free_object (a : Z) : cmd ipc unit :=
  cmodify (λ s, set_lk (delete a (lk s)) (set_objs (delete a (objs s)) s)).

Definition get_msg (a : Z) : cmd ipc ipc_msg :=
  cread (λ s, match objs s !! a with Some (Message m) => Some m | _ => None end).
Definition get_port (a : Z) : cmd ipc ipc_port :=
  cread (λ s, match objs s !! a with Some (Port p) => Some p | _ => None end).
Definition get_service (a : Z) : cmd ipc ipc_service :=
  cread (λ s, match objs s !! a with Some (Service v) => Some v | _ => None end).
Definition put (a : Z) (o : object) : cmd ipc unit := cmodify (λ s, set_objs (<[a := o]> (objs s)) s).

Definition zero_msg : ipc_msg := mk_msg 0 0 0 0 0 (replicate 256 0).
Definition zero_port : ipc_port := mk_port 0 [] 0 0.
Definition zero_service : ipc_service := mk_service [] 0.

(** The copying loop, with room for [room] characters before the NUL. *)
Fixpoint copy_chars (room : nat) (src : cstring) : cstring :=
  match room, src with S room, c :: src => c :: copy_chars room src | _, _ => [] end.
(** [ipc_copy_name], the contents of [dst] *)
Definition ipc_copy_name (src : option cstring) : cstring :=
  match src with None => [] | Some src => copy_chars (Z.to_nat (IPC_NAME_MAX - 1)) src end.

Definition ipc_find_service (name : option cstring) : cmd ipc Z :=
  match name with
  | None => mret 0
  | Some name =>
      r ← ListForEach lk g_service_registry (λ it,
            svc ← get_service it;
            if streq (svc_name svc) name then mret (Some it) else mret None);
      mret (default 0 r)
  end.

(** [while (!ListIsEmpty(&port->inbox))] *)
Fixpoint free_messages (fuel : nat) (port : Z) : cmd ipc unit :=
  match fuel with
  | O => cundef
  | S fuel =>
      empty ← on_links (ListIsEmpty port);
      if (empty : bool) then mret tt else
      l ← on_links (get_link port);
      let node := l_next l in
      on_links (LinkRemove node);;
      get_msg node;;
      free_object node;;
      free_messages fuel port
  end.
Definition ipc_free_queue (port : Z) : cmd ipc unit :=
  if port =? 0 then mret tt else
  s ← cget;
  free_messages (size (lk s)) port;;
  p ← get_port port;
  put port (Port (mk_port (port_id p) (port_name p) (port_owner p) 0)).

Definition ipc_init : cmd ipc unit :=
  s ← cget;
  if g_ipc_ready s then mret tt else
  on_links (LinkInit g_service_registry);;
  cmodify (set_ids 1 1 true).

Definition ipc_port_create : cmd ipc Z :=
  port ← new_object (Port zero_port);
  if port =? 0 then mret 0 else
  s ← cget;
  cmodify (set_ids (u32 (g_next_port_id s + 1)) (g_next_msg_id s) (g_ipc_ready s));;
  put port (Port (mk_port (g_next_port_id s) [] 0 0));;
  on_links (LinkInit port);;
  mret port.

Definition ipc_unregister_port (port : Z) : cmd ipc Z :=
  if port =? 0 then mret IPC_EINVAL else
  ListForEachSafe (R := unit) lk g_service_registry (λ it,
    svc ← get_service it;
    if svc_port svc =? port then on_links (LinkRemove it);; free_object it;; mret None else mret None);;
  mret IPC_OK.

Definition ipc_port_destroy (port : Z) : cmd ipc unit :=
  if port =? 0 then mret tt else
  ipc_unregister_port port;;
  ipc_free_queue port;;
  free_object port.

(** [data] is [None] for a NULL pointer, and otherwise what is readable there. *)
Definition ipc_send (dst src type : Z) (data : option (list Z)) (len : Z) : cmd ipc Z :=
  if (dst =? 0) || (bool_decide (data = None) && negb (len =? 0)) then mret IPC_EINVAL else
  if IPC_MAX_DATA <? len then mret IPC_E2BIG else
  msg ← new_object (Message zero_msg);
  if msg =? 0 then mret IPC_ENOMEM else
  s ← cget;
  cmodify (set_ids (g_next_port_id s) (u32 (g_next_msg_id s + 1)) (g_ipc_ready s));;
  bytes ← (if 0 <? len then
             match data with
             | Some data => if Z.of_nat (length data) <? len then cundef else mret (take (Z.to_nat len) data)
             | None => cundef
             end
           else mret []);
  put msg (Message (mk_msg (g_next_msg_id s) src type 0 len (splice 0 bytes (msg_data zero_msg))));;
  on_links (LinkBefore dst msg);;
  p ← get_port dst;
  put dst (Port (mk_port (port_id p) (port_name p) (port_owner p) (u32 (port_pending p + 1))));;
  mret IPC_OK.

(** [out] is what the caller's message holds. *)
Definition ipc_recv (port : Z) (out : option ipc_msg) : cmd ipc (Z * option ipc_msg) :=
  match out with
  | Some o =>
      if port =? 0 then mret (IPC_EINVAL, out) else
      empty ← on_links (ListIsEmpty port);
      if (empty : bool) then mret (IPC_EAGAIN, out) else
      l ← on_links (get_link port);
      let node := l_next l in
      on_links (LinkRemove node);;
      p ← get_port port;
      put port (Port (mk_port (port_id p) (port_name p) (port_owner p) (u32 (port_pending p - 1))));;
      m ← get_msg node;
      let data := if 0 <? msg_len m then splice 0 (take (Z.to_nat (msg_len m)) (msg_data m)) (msg_data o) else msg_data o in
      free_object node;;
      mret (IPC_OK, Some (mk_msg (msg_id m) (msg_src m) (msg_type m) (msg_flags m) (msg_len m) data))
  | None => mret (IPC_EINVAL, None)
  end.

Definition ipc_pending (port : Z) : cmd ipc Z :=
  if port =? 0 then mret 0 else
  p ← get_port port; mret (port_pending p).

Definition ipc_register_service (name : option cstring) (port : Z) : cmd ipc Z :=
  if bool_decide (name = None) || (port =? 0) then mret IPC_EINVAL else
  found ← ipc_find_service name;
  if negb (found =? 0) then mret IPC_EEXIST else
  svc ← new_object (Service zero_service);
  if svc =? 0 then mret IPC_ENOMEM else
  put svc (Service (mk_service (ipc_copy_name name) port));;
  p ← get_port port;
  put port (Port (mk_port (port_id p) (ipc_copy_name name) (port_owner p) (port_pending p)));;
  on_links (LinkBefore g_service_registry svc);;
  mret IPC_OK.

Definition ipc_unregister_service (name : option cstring) : cmd ipc Z :=
  svc ← ipc_find_service name;
  if svc =? 0 then mret IPC_ENOENT else
  on_links (LinkRemove svc);;
  free_object svc;;
  mret IPC_OK.

Definition ipc_lookup_service (name : option cstring) : cmd ipc Z :=
  svc ← ipc_find_service name;
  if svc =? 0 then mret 0 else
  v ← get_service svc;
  mret (svc_port v).

(** ** The representation

    [svcs] are the registered services in order, and [G] gives each port the
    messages in its inbox, oldest first. *)

Implicit Types (L : links) (O : gmap Z object) (G : gmap Z (list Z)) (svcs ms : list Z).

Record box L O (p : Z) ms : Prop := {
  b_ring : ring L p ms;
  b_port : ∃ pt, O !! p = Some (Port pt) ∧ port_pending pt = u32 (Z.of_nat (length ms));
  b_msgs : ∀ a, a ∈ ms → ∃ m, O !! a = Some (Message m)
}.

Record heap_rep L O (n : Z) svcs G : Prop := {
  r_ring : ring L g_service_registry svcs;
  r_reg : O !! g_service_registry = None;
  r_svcs : ∀ a, a ∈ svcs ↔ ∃ v, O !! a = Some (Service v);
  r_names : ∀ a v, O !! a = Some (Service v) → (length (svc_name v) < 32)%nat;
  r_box : ∀ p ms, G !! p = Some ms → box L O p ms;
  r_ports : ∀ p pt, O !! p = Some (Port pt) → is_Some (G !! p);
  r_held : ∀ a m, O !! a = Some (Message m) → ∃ p ms, G !! p = Some ms ∧ a ∈ ms;
  r_apart : ∀ p q ms ms' a, G !! p = Some ms → G !! q = Some ms' → a ∈ ms → a ∈ ms' → p = q;
  r_fresh : ∀ a, is_Some (L !! a) → 0 < a < n
}.
Definition rep s svcs G : Prop := heap_rep (lk s) (objs s) (next s) svcs G.

Lemma box_frame L O L' O' p ms :
  box L O p ms → (∀ a, a ∈ p :: ms → L' !! a = L !! a ∧ O' !! a = O !! a) → box L' O' p ms.
Proof.
  intros [Hr (pt & Hpt & Hn) Hm] Heq. split.
  - eapply ring_frame; [exact Hr|]. intros a Ha. apply Heq, Ha.
  - exists pt. rewrite (proj2 (Heq p ltac:(left))). done.
  - intros a Ha. destruct (Hm a Ha) as [m Hma]. exists m. rewrite (proj2 (Heq a ltac:(by right))). done.
Qed.

Section rep.
Context (L : links) (O : gmap Z object) (n : Z) (svcs : list Z) (G : gmap Z (list Z)).
Context (HR : heap_rep L O n svcs G).

Lemma box_object p ms a : G !! p = Some ms → a ∈ p :: ms → ∃ o, O !! a = Some o.
Proof.
  intros Hp Ha. destruct (r_box _ _ _ _ _ HR _ _ Hp) as [_ (pt & Hpt & _) Hm].
  apply elem_of_cons in Ha as [->|Ha]; [by eexists|]. destruct (Hm _ Ha) as [m ?]. by eexists.
Qed.

Lemma box_apart p q ms ms' a :
  G !! p = Some ms → G !! q = Some ms' → p ≠ q → a ∈ q :: ms' → a ∉ p :: ms.
Proof.
  intros Hp Hq Hne Ha Ha'. destruct (r_box _ _ _ _ _ HR _ _ Hp) as [_ (pt & Hpt & _) Hm].
  destruct (r_box _ _ _ _ _ HR _ _ Hq) as [_ (qt & Hqt & _) Hm'].
  apply elem_of_cons in Ha as [->|Ha]; apply elem_of_cons in Ha' as [E|Ha'].
  - by subst.
  - destruct (Hm _ Ha') as [m ?]. congruence.
  - subst a. destruct (Hm' _ Ha) as [m ?]. congruence.
  - by apply Hne, (r_apart _ _ _ _ _ HR p q ms ms' a).
Qed.

Lemma registry_apart p ms a : G !! p = Some ms → a ∈ g_service_registry :: svcs → a ∉ p :: ms.
Proof.
  intros Hp Ha Ha'. destruct (box_object _ _ _ Hp Ha') as [o Ho].
  apply elem_of_cons in Ha as [->|Ha]; [by rewrite (r_reg _ _ _ _ _ HR) in Ho|].
  apply (r_svcs _ _ _ _ _ HR) in Ha as [v Hv]. destruct (r_box _ _ _ _ _ HR _ _ Hp) as [_ (pt & Hpt & _) Hm].
  apply elem_of_cons in Ha' as [->|Ha']; [congruence|]. destruct (Hm _ Ha') as [m ?]. congruence.
Qed.

Lemma object_fresh a : is_Some (O !! a) → 0 < a < n.
Proof.
  intros [o Ho]. apply (r_fresh _ _ _ _ _ HR). destruct o as [m|pt|v].
  - destruct (r_held _ _ _ _ _ HR _ _ Ho) as (p & ms & Hp & Ha). apply (ring_live _ p ms); [by apply (r_box _ _ _ _ _ HR)|by right].
  - destruct (r_ports _ _ _ _ _ HR _ _ Ho) as [ms Hp]. apply (ring_live _ a ms); [by apply (r_box _ _ _ _ _ HR)|left].
  - apply (ring_live _ _ _ _ (r_ring _ _ _ _ _ HR)). right. apply (r_svcs _ _ _ _ _ HR). by exists v.
Qed.

Lemma fresh_None : O !! n = None ∧ L !! n = None.
Proof.
  split; apply eq_None_not_Some; intros H.
  - pose proof (object_fresh _ H). lia.
  - pose proof (r_fresh _ _ _ _ _ HR _ H). lia.
Qed.

Lemma box_fresh p ms a : G !! p = Some ms → a ∈ p :: ms → a ≠ n.
Proof. intros Hp Ha ->. destruct (box_object _ _ _ Hp Ha) as [o Ho]. by rewrite (proj1 fresh_None) in Ho. Qed.

Lemma registry_fresh a : a ∈ g_service_registry :: svcs → a ≠ n.
Proof. intros Ha ->. pose proof (ring_live _ _ _ _ (r_ring _ _ _ _ _ HR) Ha) as [l Hl]. by rewrite (proj2 fresh_None) in Hl. Qed.

Lemma next_pos : 1 < n.
Proof.
  pose proof (ring_live _ _ _ g_service_registry (r_ring _ _ _ _ _ HR) ltac:(left)) as H.
  pose proof (r_fresh _ _ _ _ _ HR _ H). unfold g_service_registry in *. lia.
Qed.
End rep.

(** The abstract state: the messages that wait at each port, oldest first, and
    the services in the order of their registration. *)
Definition msg_at O (a : Z) : option ipc_msg := match O !! a with Some (Message m) => Some m | _ => None end.
Definition svc_at O (a : Z) : option ipc_service := match O !! a with Some (Service v) => Some v | _ => None end.
Definition inboxes O G : gmap Z (list ipc_msg) := fmap (M := gmap Z) (omap (M := list) (msg_at O)) G.
Definition registry O svcs : list ipc_service := omap (M := list) (svc_at O) svcs.

Lemma omap_ext_in {A B} (f g : A → option B) (l : list A) : (∀ a, a ∈ l → f a = g a) → omap f l = omap g l.
Proof.
  induction l as [|a l IH]; intros H; [done|]. cbn. rewrite (H a) by left. rewrite IH; [done|]. intros b Hb. apply H. by right.
Qed.

Lemma inboxes_insert O O' G p ms' :
  (∀ q mq a, G !! q = Some mq → q ≠ p → a ∈ mq → O' !! a = O !! a) →
  inboxes O' (<[p := ms']> G) = <[p := omap (msg_at O') ms']> (inboxes O G).
Proof.
  intros H. unfold inboxes. rewrite fmap_insert. apply map_eq. intros q. destruct (decide (q = p)) as [->|Hne]; [by rewrite !lookup_insert_eq|].
  rewrite !lookup_insert_ne, !lookup_fmap by done. destruct (G !! q) as [mq|] eqn:Hq; [|done]. cbn. f_equal.
  apply omap_ext_in. intros a Ha. unfold msg_at. by rewrite (H q mq a).
Qed.

Lemma registry_ext O O' svcs : (∀ a, a ∈ svcs → O' !! a = O !! a) → registry O' svcs = registry O svcs.
Proof. intros H. apply omap_ext_in. intros a Ha. unfold svc_at. by rewrite H. Qed.

(** Changing the inbox of one port: links and objects outside [p :: ms] and the
    new or freed message [x] stay. *)
Section change_box.
Context (L : links) (O : gmap Z object) (n : Z) (svcs : list Z) (G : gmap Z (list Z)).
Context (L' : links) (O' : gmap Z object) (p : Z) (ms : list Z) (x : Z).
Context (HR : heap_rep L O n svcs G) (Hp : G !! p = Some ms) (Hx : x = n ∨ x ∈ ms).
Context (Heq : ∀ a, a ∉ x :: p :: ms → L' !! a = L !! a ∧ O' !! a = O !! a).

Lemma box_other q mq a : G !! q = Some mq → q ≠ p → a ∈ q :: mq → (a ∉ x :: p :: ms) ∧ L' !! a = L !! a ∧ O' !! a = O !! a.
Proof.
  intros Hq Hne Ha. assert (a ∉ x :: p :: ms) as H; [|split; [done|by apply Heq]].
  pose proof (box_apart _ _ _ _ _ HR p q ms mq a Hp Hq ltac:(done) Ha).
  pose proof (box_fresh _ _ _ _ _ HR q mq a Hq Ha). destruct Hx as [->|?]; set_solver.
Qed.

Lemma box_registry a : a ∈ g_service_registry :: svcs → L' !! a = L !! a ∧ O' !! a = O !! a.
Proof.
  intros Ha. apply Heq. pose proof (registry_apart _ _ _ _ _ HR p ms a Hp Ha).
  pose proof (registry_fresh _ _ _ _ _ HR a Ha). destruct Hx as [->|?]; set_solver.
Qed.

Lemma abs_box ms' :
  inboxes O' (<[p := ms']> G) = <[p := omap (msg_at O') ms']> (inboxes O G) ∧ registry O' svcs = registry O svcs.
Proof.
  split.
  - apply inboxes_insert. intros q mq a Hq Hne Ha. apply (box_other q mq); [done|done|by right].
  - apply registry_ext. intros a Ha. apply box_registry. by right.
Qed.

Lemma fresh_box n' :
  n ≤ n' → (x = n → n < n') → ∀ a, is_Some (L' !! a) → 0 < a < n'.
Proof.
  intros Hn Hn' a Ha. destruct (decide (a ∈ x :: p :: ms)) as [Hin|Hin].
  - rewrite !elem_of_cons in Hin.
    assert (a = n ∨ is_Some (L !! a)) as [->|H].
    { destruct Hin as [->|Hin]; [destruct Hx as [?|Hx']; [by left|]|]; right; eapply ring_live; try apply (r_box _ _ _ _ _ HR _ _ Hp); set_solver. }
    + pose proof (next_pos _ _ _ _ _ HR). destruct Hx as [->|Hx']; [specialize (Hn' eq_refl); lia|]. exfalso. eapply (box_fresh _ _ _ _ _ HR p ms n Hp); [set_solver|done].
    + pose proof (r_fresh _ _ _ _ _ HR a H). lia.
  - rewrite (proj1 (Heq a Hin)) in Ha. pose proof (r_fresh _ _ _ _ _ HR a Ha). lia.
Qed.

Context (ms' : list Z) (Hbox : box L' O' p ms').
Context (Hsub : ∀ a, a ∈ ms' → a ∈ x :: ms) (Hsup : ∀ a, a ∈ ms → a ∈ ms' ∨ O' !! a = None) (Hfree : x ∈ ms' ∨ O' !! x = None).

Lemma box_objects a o : O' !! a = Some o → a ∈ p :: ms' ∨ ((a ∉ x :: p :: ms) ∧ O !! a = Some o).
Proof.
  intros Ho. destruct (decide (a ∈ x :: p :: ms)) as [Ha|Ha]; [left|right; split; [done|]; by rewrite <- (proj2 (Heq a Ha))].
  rewrite !elem_of_cons in Ha. destruct Ha as [->|[->|Ha]]; [|left|].
  - destruct Hfree as [?|E]; [by right|congruence].
  - destruct (Hsup a Ha) as [?|E]; [by right|congruence].
Qed.

Lemma box_no_service a v : a ∈ p :: ms' → O' !! a ≠ Some (Service v).
Proof.
  intros Ha. destruct Hbox as [_ (pt & Hpt & _) Hm]. apply elem_of_cons in Ha as [->|Ha]; [congruence|].
  destruct (Hm _ Ha) as [m ?]. congruence.
Qed.

Lemma rep_box n' : n ≤ n' → (x = n → n < n') → heap_rep L' O' n' svcs (<[p := ms']> G).
Proof.
  intros Hn Hn'. split.
  - eapply ring_frame; [exact (r_ring _ _ _ _ _ HR)|]. intros a Ha. apply box_registry, Ha.
  - rewrite (proj2 (box_registry _ ltac:(left))). apply HR.
  - intros a. split.
    + intros Ha. rewrite (proj2 (box_registry a ltac:(by right))). by apply (r_svcs _ _ _ _ _ HR).
    + intros [v Hv]. destruct (box_objects _ _ Hv) as [Ha|[_ Ho]]; [by apply box_no_service in Hv|].
      apply (r_svcs _ _ _ _ _ HR). by exists v.
  - intros a v Hv. destruct (box_objects _ _ Hv) as [Ha|[_ Ho]]; [by apply box_no_service in Hv|by apply (r_names _ _ _ _ _ HR a)].
  - intros q mq. destruct (decide (q = p)) as [->|Hne]; [rewrite lookup_insert_eq; by intros [= <-]|rewrite lookup_insert_ne by done].
    intros Hq. eapply box_frame; [by apply HR|]. intros a Ha. by apply (box_other q mq a).
  - intros q qt Hq. destruct (decide (q = p)) as [->|Hne]; [by rewrite lookup_insert_eq|rewrite lookup_insert_ne by done].
    destruct (box_objects _ _ Hq) as [Ha|[_ Ho]]; [|by apply (r_ports _ _ _ _ _ HR q qt)].
    apply elem_of_cons in Ha as [?|Ha]; [done|]. destruct (b_msgs _ _ _ _ Hbox q Ha) as [m ?]. congruence.
  - intros a m Hm. destruct (box_objects _ _ Hm) as [Ha|[Ha Ho]].
    + apply elem_of_cons in Ha as [->|Ha]; [destruct (b_port _ _ _ _ Hbox) as (pt & ? & _); congruence|].
      exists p, ms'. by rewrite lookup_insert_eq.
    + destruct (r_held _ _ _ _ _ HR _ _ Ho) as (q & mq & Hq & Haq). exists q, mq.
      rewrite lookup_insert_ne; [done|]. intros <-. rewrite Hp in Hq. inversion Hq. subst. set_solver.
  - assert (∀ q mq a, G !! q = Some mq → q ≠ p → a ∈ mq → a ∈ ms' → False) as Hapart.
    { intros q mq a Hq Hne Ha Ha'. pose proof (proj1 (box_other q mq a Hq Hne ltac:(by right))). apply Hsub in Ha'. set_solver. }
    intros p1 p2 m1 m2 a. destruct (decide (p1 = p)) as [->|H1], (decide (p2 = p)) as [->|H2];
      rewrite ?lookup_insert_eq, ?lookup_insert_ne by done.
    + done.
    + intros [= <-] Hq Ha1 Ha2. exfalso. by eapply (Hapart p2 m2 a).
    + intros Hq [= <-] Ha1 Ha2. exfalso. by eapply (Hapart p1 m1 a).
    + apply HR.
  - by apply fresh_box.
Qed.
End change_box.

(** Changing the registry: everything outside it and the new or freed service
    [x] stays. *)
Section change_registry.
Context (L : links) (O : gmap Z object) (n : Z) (svcs : list Z) (G : gmap Z (list Z)).
Context (L' : links) (O' : gmap Z object) (x : Z).
Context (HR : heap_rep L O n svcs G) (Hx : x = n ∨ x ∈ svcs).
Context (Heq : ∀ a, a ∉ x :: g_service_registry :: svcs → L' !! a = L !! a ∧ O' !! a = O !! a).

Lemma registry_other q mq a : G !! q = Some mq → a ∈ q :: mq → L' !! a = L !! a ∧ O' !! a = O !! a.
Proof.
  intros Hq Ha. apply Heq. pose proof (box_fresh _ _ _ _ _ HR q mq a Hq Ha).
  intros Hin. assert (a ∈ g_service_registry :: svcs) as Hr by (destruct Hx as [->|?]; set_solver).
  by apply (registry_apart _ _ _ _ _ HR q mq a Hq Hr).
Qed.

Lemma abs_registry : inboxes O' G = inboxes O G.
Proof.
  apply map_eq. intros q. unfold inboxes. rewrite !lookup_fmap. destruct (G !! q) as [mq|] eqn:Hq; [|done]. cbn. f_equal.
  apply omap_ext_in. intros a Ha. unfold msg_at. by rewrite (proj2 (registry_other q mq a Hq ltac:(by right))).
Qed.

Context (svcs' : list Z) (Hring : ring L' g_service_registry svcs') (Hreg : O' !! g_service_registry = None).
Context (Hsv : ∀ a, a ∈ svcs' → ∃ v, O' !! a = Some (Service v) ∧ (length (svc_name v) < 32)%nat).
Context (Hsup : ∀ a, a ∈ svcs → a ∈ svcs' ∨ a = x) (Hfree : x ∈ svcs' ∨ O' !! x = None).

Lemma registry_objects a o : O' !! a = Some o → a ∈ svcs' ∨ ((a ∉ x :: g_service_registry :: svcs) ∧ O !! a = Some o).
Proof.
  intros Ho. destruct (decide (a ∈ x :: g_service_registry :: svcs)) as [Ha|Ha]; [left|right; split; [done|]; by rewrite <- (proj2 (Heq a Ha))].
  rewrite !elem_of_cons in Ha. destruct Ha as [->|[->|Ha]].
  - destruct Hfree as [?|E]; [done|congruence].
  - congruence.
  - destruct (Hsup a Ha) as [?| ->]; [done|]. destruct Hfree as [?|E]; [done|congruence].
Qed.

Lemma rep_registry n' : n ≤ n' → (x = n → n < n') → heap_rep L' O' n' svcs' G.
Proof.
  intros Hn Hn'.
  assert (∀ a v, O' !! a = Some (Service v) → a ∈ svcs') as Hback.
  { intros a v Hv. destruct (registry_objects _ _ Hv) as [?|[Ha Ho]]; [done|]. exfalso. apply Ha. do 2 right.
    apply (r_svcs _ _ _ _ _ HR). by exists v. }
  split; [done|done| | | | | |exact (r_apart _ _ _ _ _ HR)|].
  - intros a. split; [|intros [v Hv]; by eapply Hback]. intros Ha. destruct (Hsv a Ha) as (v & Hv & _). by exists v.
  - intros a v Hv. destruct (Hsv a (Hback _ _ Hv)) as (v' & Hv' & Hl). congruence.
  - intros q mq Hq. eapply box_frame; [by apply HR|]. intros a Ha. by apply (registry_other q mq a).
  - intros q qt Hq. destruct (registry_objects _ _ Hq) as [Ha|[_ Ho]]; [|by apply (r_ports _ _ _ _ _ HR q qt)].
    destruct (Hsv q Ha) as (v & ? & _). congruence.
  - intros a m Hm. destruct (registry_objects _ _ Hm) as [Ha|[_ Ho]]; [|by apply (r_held _ _ _ _ _ HR a m)].
    destruct (Hsv a Ha) as (v & ? & _). congruence.
  - intros a Ha. destruct (decide (a ∈ x :: g_service_registry :: svcs)) as [Hin|Hin].
    + assert (a = n ∨ is_Some (L !! a)) as [->|H].
      { rewrite elem_of_cons in Hin. pose proof (ring_live _ _ _ a (r_ring _ _ _ _ _ HR)) as Hl.
        destruct Hin as [->|Hin]; [destruct Hx as [?|Hx']; [by left|]|]; right; apply Hl; set_solver. }
      * pose proof (next_pos _ _ _ _ _ HR). destruct Hx as [->|Hx']; [specialize (Hn' eq_refl); lia|]. exfalso. eapply (registry_fresh _ _ _ _ _ HR n); [|done]. set_solver.
      * pose proof (r_fresh _ _ _ _ _ HR a H). lia.
    + rewrite (proj1 (Heq a Hin)) in Ha. pose proof (r_fresh _ _ _ _ _ HR a Ha). lia.
Qed.
End change_registry.

Lemma rep_put_port L O n svcs G p pt pt' :
  heap_rep L O n svcs G → O !! p = Some (Port pt) → port_pending pt' = port_pending pt →
  heap_rep L (<[p := Port pt']> O) n svcs G.
Proof.
  intros HR Hp Hpend. destruct (r_ports _ _ _ _ _ HR _ _ Hp) as [ms HG].
  rewrite <- (insert_id G p ms HG). pose proof (r_box _ _ _ _ _ HR _ _ HG) as [Hr (pt0 & Hpt0 & Hn) Hm].
  assert (∀ a o, O !! a = Some o → (∀ q, o ≠ Port q) → <[p:=Port pt']> O !! a = Some o) as Hkeep.
  { intros a o Ho Hk. rewrite lookup_insert_ne; [done|]. intros <-. rewrite Hp in Ho. inversion Ho. subst. by eapply Hk. }
  destruct HR as [H1 H2 H3 H4 H5 H6 H7 H8 H9]. split; try done.
  - rewrite lookup_insert_ne; [done|]. intros ->. congruence.
  - intros a. rewrite H3. split; intros [v Hv]; exists v; [by apply Hkeep|].
    destruct (decide (a = p)) as [->|]; [by rewrite lookup_insert_eq in Hv|by rewrite lookup_insert_ne in Hv].
  - intros a v Hv. apply (H4 a v). destruct (decide (a = p)) as [->|]; [by rewrite lookup_insert_eq in Hv|by rewrite lookup_insert_ne in Hv].
  - intros q mq Hq. rewrite insert_id in Hq by done. destruct (H5 q mq Hq) as [Hr' (qt & Hqt & Hqn) Hm']. split; [done| |].
    + destruct (decide (q = p)) as [->|]; [exists pt'; rewrite lookup_insert_eq; split; [done|]|exists qt; by rewrite lookup_insert_ne].
      rewrite Hpend. congruence.
    + intros a Ha. destruct (Hm' a Ha) as [m ?]. exists m. by apply Hkeep.
  - intros q qt Hq. rewrite insert_id by done. destruct (decide (q = p)) as [->|]; [done|]. rewrite lookup_insert_ne in Hq by done. by eapply H6.
  - intros a m Hm0. rewrite insert_id by done. apply (H7 a m). destruct (decide (a = p)) as [->|]; [by rewrite lookup_insert_eq in Hm0|by rewrite lookup_insert_ne in Hm0].
  - by rewrite insert_id.
Qed.

(** ** The specification *)

(** What waits at each port, the registry, and the number of the next message. *)
Record abs := mk_abs { a_in : gmap Z (list ipc_msg); a_reg : list ipc_service; a_id : Z }.
Implicit Types (A : abs).

Definition models s A : Prop :=
  ∃ svcs G, rep s svcs G ∧ inboxes (objs s) G = a_in A ∧ registry (objs s) svcs = a_reg A ∧ g_next_msg_id s = a_id A.

Definition with_in (Q : gmap Z (list ipc_msg)) A : abs := mk_abs Q (a_reg A) (a_id A).
Definition with_reg (r : list ipc_service) A : abs := mk_abs (a_in A) r (a_id A).
Definition with_id (i : Z) A : abs := mk_abs (a_in A) (a_reg A) i.

(** The message that [ipc_send] builds and what [ipc_recv] makes of it. *)
Definition new_msg (id src type : Z) (data : option (list Z)) (len : Z) : ipc_msg :=
  mk_msg id src type 0 len (splice 0 (take (Z.to_nat len) (default [] data)) (replicate 256 0)).
Definition received (m out : ipc_msg) : ipc_msg :=
  mk_msg (msg_id m) (msg_src m) (msg_type m) (msg_flags m) (msg_len m)
    (splice 0 (take (Z.to_nat (msg_len m)) (msg_data m)) (msg_data out)).

Definition find_name (name : cstring) (reg : list ipc_service) : option ipc_service :=
  head (filter (λ v, svc_name v = name) reg).
Fixpoint remove_name (name : cstring) (reg : list ipc_service) : list ipc_service :=
  match reg with
  | [] => []
  | v :: reg => if decide (svc_name v = name) then reg else v :: remove_name name reg
  end.

Lemma new_object_wp o s Q :
  (∀ t, Q 0 (set_heap (next s) t s)) →
  (∀ t, Q (next s) (set_heap (next s + 1) t (set_lk (<[next s := mk_link 0 0]> (lk s)) (set_objs (<[next s := o]> (objs s)) s)))) →
  wp (new_object o) Q s.
Proof. intros H1 H2. unfold wp, new_object. by destruct (oracle s) as [|[|] t]. Qed.

Lemma get_port_wp a p s Q : objs s !! a = Some (Port p) → Q p s → wp (get_port a) Q s.
Proof. intros H. apply wp_read. by rewrite H. Qed.
Lemma get_msg_wp a m s Q : objs s !! a = Some (Message m) → Q m s → wp (get_msg a) Q s.
Proof. intros H. apply wp_read. by rewrite H. Qed.
Lemma get_service_wp a v s Q : objs s !! a = Some (Service v) → Q v s → wp (get_service a) Q s.
Proof. intros H. apply wp_read. by rewrite H. Qed.

(** A step through the accesses to the module's state. *)
Ltac ipc_step :=
  lazymatch goal with
  | |- wp (put _ _) _ _ => unfold put
  | |- wp (free_object _) _ _ => unfold free_object
  | |- wp (on_links _) _ _ => unfold on_links
  | _ => idtac
  end; wp_step.

(** A port of the abstract state. *)
Lemma models_port s A svcs G p q :
  rep s svcs G → inboxes (objs s) G = a_in A → a_in A !! p = Some q →
  ∃ ms, G !! p = Some ms ∧ box (lk s) (objs s) p ms ∧ q = omap (msg_at (objs s)) ms.
Proof.
  intros HR HG Hp. rewrite <- HG in Hp. unfold inboxes in Hp. rewrite lookup_fmap in Hp.
  destruct (G !! p) as [ms|] eqn:E; [|done]. exists ms. split_and!; [done|by apply HR|]. by inversion Hp.
Qed.

Lemma omap_all {B} (f : Z → option B) (l : list Z) : (∀ a, a ∈ l → is_Some (f a)) → length (omap f l) = length l.
Proof.
  induction l as [|a l IH]; intros H; [done|]. cbn. destruct (H a ltac:(left)) as [b ->]. cbn.
  rewrite IH; [done|]. intros c Hc. apply H. by right.
Qed.

Lemma box_length L O p ms : box L O p ms → length (omap (msg_at O) ms) = length ms.
Proof. intros HB. apply omap_all. intros a Ha. destruct (b_msgs _ _ _ _ HB a Ha) as [m Hm]. exists m. unfold msg_at. by rewrite Hm. Qed.

Lemma send_wp s A p q src type data len :
  models s A → p ≠ 0 → a_in A !! p = Some q → 0 ≤ len → (data = None → len = 0) → (len ≤ 256 → len ≤ Z.of_nat (length (default [] data))) →
  wp (ipc_send p src type data len) (λ r s',
    (len > 256 ∧ r = IPC_E2BIG ∧ models s' A) ∨
    (len ≤ 256 ∧ ((r = IPC_ENOMEM ∧ models s' A) ∨
      (r = IPC_OK ∧ models s' (with_id (u32 (a_id A + 1)) (with_in (<[p := q ++ [new_msg (a_id A) src type data len]]> (a_in A)) A)))))) s.
Proof.
  intros (svcs & G & HR & HG & Hreg & Hid) Hp0 Hq Hlen Hnull Hdata.
  destruct (models_port _ _ _ _ _ _ HR HG Hq) as (ms & Hp & HB & ->). pose proof (b_port _ _ _ _ HB) as (pt & Hpt & Hpend).
  unfold ipc_send. rewrite (proj2 (Z.eqb_neq p 0)) by done.
  assert (bool_decide (data = None) && negb (len =? 0) = false) as ->.
  { destruct data; [done|]. rewrite Hnull by done. done. }
  cbn [orb]. destruct (Z.ltb_spec IPC_MAX_DATA len) as [Hbig|Hsmall]; unfold IPC_MAX_DATA in *.
  { ipc_step. left. split_and!; [lia|done|]. by exists svcs, G. }
  ipc_step. pose proof (next_pos _ _ _ _ _ HR) as Hnext. apply new_object_wp.
  { intros t. cbn [Z.eqb]. ipc_step. right. split; [lia|]. left. split; [done|]. by exists svcs, G. }
  intros t. rewrite (proj2 (Z.eqb_neq (next s) 0)) by lia. do 5 ipc_step.
  apply (wp_eq _ (take (Z.to_nat len) (default [] data)) (set_ids (g_next_port_id s) (u32 (g_next_msg_id s + 1)) (g_ipc_ready s)
    (set_heap (next s + 1) t (set_lk (<[next s := mk_link 0 0]> (lk s)) (set_objs (<[next s := Message zero_msg]> (objs s)) s))))).
  { destruct (Z.ltb_spec 0 len); [|by replace len with 0 by lia]. destruct data as [data|]; [|by rewrite Hnull in *].
    cbn in Hdata. by rewrite (proj2 (Z.ltb_ge _ _)) by lia. }
  do 4 ipc_step. cbn [lk set_objs set_ids set_heap set_lk].
  pose proof (fresh_None _ _ _ _ _ HR) as [HOn HLn].
  assert (next s ∉ p :: ms) as Hfresh by (intros Hin; by apply (box_fresh _ _ _ _ _ HR p ms (next s) Hp Hin)).
  eapply wp_mono; [apply (ring_before _ p ms (next s))|].
  { eapply ring_frame; [apply HB|]. intros a Ha. rewrite lookup_insert_ne; [done|]. by intros <-. }
  { done. } { by rewrite lookup_insert_eq. }
  cbn beta. intros _ L' [Hring Honly]. ipc_step. eapply get_port_wp.
  { cbn. rewrite !lookup_insert_ne by (intros <-; apply Hfresh; left). exact Hpt. }
  ipc_step. ipc_step. ipc_step. right. split; [lia|]. right. split; [done|]. cbn [a_id]. rewrite Hid.
  set (m := new_msg (g_next_msg_id s) src type data len).
  set (O' := <[p := Port (mk_port (port_id pt) (port_name pt) (port_owner pt) (u32 (port_pending pt + 1)))]>
    (<[next s := Message m]> (<[next s := Message zero_msg]> (objs s)))).
  assert (∀ a, a ∉ next s :: p :: ms → L' !! a = lk s !! a ∧ O' !! a = objs s !! a) as Heq.
  { intros a Ha. rewrite (only_out _ _ _ Honly a Ha). rewrite !not_elem_of_cons in Ha. destruct Ha as (? & ? & ?).
    unfold O'. by rewrite !lookup_insert_ne by congruence. }
  assert (∀ a, a ∈ ms → O' !! a = objs s !! a) as Hold.
  { intros a Ha. unfold O'. rewrite !lookup_insert_ne; [done| | |].
    - intros <-. apply Hfresh. by right.
    - intros <-. apply Hfresh. by right.
    - intros <-. apply (ring_head_not_in _ _ _ (b_ring _ _ _ _ HB)). done. }
  assert (O' !! next s = Some (Message m)) as Hm.
  { unfold O'. rewrite lookup_insert_ne by (intros ->; apply Hfresh; left). by rewrite lookup_insert_eq. }
  destruct (abs_box _ _ _ _ _ L' O' p ms (next s) HR Hp (or_introl eq_refl) Heq (ms ++ [next s])) as [HG' Hreg'].
  exists svcs, (<[p := ms ++ [next s]]> G). split_and!.
  - apply (rep_box (lk s) (objs s) (next s) svcs G L' O' p ms (next s)); [done|done|by left|done| |set_solver|set_solver|left; set_solver|cbn; lia|cbn; lia].
    split; [done| |].
    + unfold O'. rewrite lookup_insert_eq. eexists. split; [done|]. cbn. rewrite Hpend, length_app. cbn. unfold u32.
      rewrite Zplus_mod_idemp_l. f_equal. lia.
    + intros a [Ha| ->%list_elem_of_singleton]%elem_of_app; [|by exists m]. rewrite Hold by done. by apply HB.
  - change (inboxes O' (<[p := ms ++ [next s]]> G) = a_in (with_id (u32 (a_id A + 1)) (with_in (<[p := omap (msg_at (objs s)) ms ++ [new_msg (a_id A) src type data len]]> (a_in A)) A))).
    rewrite HG', HG. cbn [a_in with_id with_in]. rewrite omap_app. f_equal. f_equal.
    + apply omap_ext_in. intros a Ha. unfold msg_at. by rewrite Hold.
    + cbn. unfold msg_at. rewrite Hm. unfold m. by rewrite Hid.
  - change (registry O' svcs = a_reg A). by rewrite Hreg'.
  - done.
Qed.

(** The link of a ring's head leads to the first entry. *)
Lemma box_empty_run s p ms : box (lk s) (objs s) p ms → on_links (ListIsEmpty p) s = Some (bool_decide (ms = []), s).
Proof. intros HB. unfold on_links, czoom. rewrite (ring_empty_run _ _ _ (b_ring _ _ _ _ HB)). by destruct s. Qed.

(** The state after the oldest message [a] of [p] is unlinked and freed. *)
Lemma drop_first_models s A p a ms L' pt n' svcs G o :
  heap_rep (lk s) (objs s) (next s) svcs G → G !! p = Some (a :: ms) → port_pending pt = u32 (Z.of_nat (length ms)) →
  ring L' p ms → only (a :: p :: ms) (lk s) L' → next s = n' → registry (objs s) svcs = a_reg A → inboxes (objs s) G = a_in A →
  o = delete a (<[p := Port pt]> (objs s)) →
  heap_rep (delete a L') o n' svcs (<[p := ms]> G) ∧
  inboxes o (<[p := ms]> G) = <[p := omap (msg_at (objs s)) ms]> (a_in A) ∧ registry o svcs = a_reg A.
Proof.
  intros HR Hp Hpend Hring Honly <- Hreg HG ->. pose proof (r_box _ _ _ _ _ HR _ _ Hp) as HB.
  assert (a ≠ p ∧ a ∉ ms) as [Hap Hams].
  { destruct (b_ring _ _ _ _ HB) as [Hnd _]. apply NoDup_cons in Hnd as [H1 H2]. apply NoDup_cons in H2 as [H2 _]. set_solver. }
  assert (p ∉ ms) as Hpms by (by apply (ring_head_not_in _ _ _ Hring)).
  set (O' := delete a (<[p := Port pt]> (objs s))).
  assert (∀ b, b ∉ a :: p :: a :: ms → delete a L' !! b = lk s !! b ∧ O' !! b = objs s !! b) as Heq.
  { intros b Hb. rewrite !not_elem_of_cons in Hb. destruct Hb as (H1 & H2 & _ & H3). unfold O'.
    rewrite !lookup_delete_ne, lookup_insert_ne by congruence. split; [|done]. apply Honly. set_solver. }
  assert (∀ b, b ∈ ms → O' !! b = objs s !! b) as Hold.
  { intros b Hb. unfold O'. rewrite lookup_delete_ne, lookup_insert_ne; [done| |]; by intros ->. }
  destruct (abs_box _ _ _ _ _ (delete a L') O' p (a :: ms) a HR Hp ltac:(right; left) Heq ms) as [HG' Hreg'].
  split_and!; [|rewrite HG', HG; f_equal; apply omap_ext_in; intros b Hb; unfold msg_at; by rewrite Hold|by rewrite Hreg'].
  apply (rep_box (lk s) (objs s) (next s) svcs G (delete a L') O' p (a :: ms) a);
    [done|done|right; left|done| |set_solver| |right; unfold O'; by rewrite lookup_delete_eq|done|].
  - split.
    + eapply ring_frame; [exact Hring|]. intros b Hb. rewrite lookup_delete_ne; [done|]. intros ->. set_solver.
    + exists pt. split; [|done]. unfold O'. by rewrite lookup_delete_ne, lookup_insert_eq.
    + intros b Hb. rewrite Hold by done. apply HB. by right.
  - intros b [->|Hb]%elem_of_cons; [right; unfold O'; by rewrite lookup_delete_eq|by left].
  - intros ->. exfalso. apply (box_fresh _ _ _ _ _ HR p (next s :: ms) (next s) Hp); [right; left|done].
Qed.

Lemma recv_wp s A p q o :
  models s A → p ≠ 0 → a_in A !! p = Some q →
  wp (ipc_recv p (Some o)) (λ r s',
    match q with
    | [] => r = (IPC_EAGAIN, Some o) ∧ models s' A
    | m :: q => r = (IPC_OK, Some (if 0 <? msg_len m then received m o else mk_msg (msg_id m) (msg_src m) (msg_type m) (msg_flags m) (msg_len m) (msg_data o))) ∧
        models s' (with_in (<[p := q]> (a_in A)) A)
    end) s.
Proof.
  intros (svcs & G & HR & HG & Hreg & Hid) Hp0 Hq.
  destruct (models_port _ _ _ _ _ _ HR HG Hq) as (ms & Hp & HB & ->). pose proof (b_port _ _ _ _ HB) as (pt & Hpt & Hpend).
  unfold ipc_recv. rewrite (proj2 (Z.eqb_neq p 0)) by done. ipc_step. eapply wp_eq; [by eapply box_empty_run|].
  destruct ms as [|a ms].
  { rewrite bool_decide_true by done. ipc_step. split; [done|]. by exists svcs, G. }
  rewrite bool_decide_false by done. pose proof (b_msgs _ _ _ _ HB a ltac:(left)) as [m Hm].
  cbn [omap list_omap]. unfold msg_at at 1. rewrite Hm.
  assert (a ≠ p) as Hap.
  { destruct (b_ring _ _ _ _ HB) as [Hnd _]. apply NoDup_cons in Hnd as [H1 _]. set_solver. }
  destruct (ring_head_link _ _ _ (b_ring _ _ _ _ HB)) as (l & Hl & Hln). cbn [hd] in Hln.
  ipc_step. ipc_step. eapply get_link_wp; [exact Hl|]. rewrite Hln. cbn zeta.
  ipc_step. ipc_step. eapply wp_mono; [apply (ring_remove_at _ p [] a ms), HB|]. cbn beta. intros _ L' (Hring & _ & Honly).
  ipc_step. eapply get_port_wp; [exact Hpt|]. ipc_step. ipc_step. ipc_step. eapply get_msg_wp.
  { cbn. rewrite lookup_insert_ne by congruence. exact Hm. }
  cbn zeta. ipc_step. ipc_step. ipc_step. split; [by destruct (0 <? msg_len m)|].
  exists svcs, (<[p := ms]> G).
  destruct (drop_first_models s A p a ms L' (mk_port (port_id pt) (port_name pt) (port_owner pt) (u32 (port_pending pt - 1))) (next s) svcs G _
    HR Hp ltac:(cbn; rewrite Hpend; cbn [length]; unfold u32; rewrite Zminus_mod_idemp_l; f_equal; lia) Hring ltac:(eapply only_mono; [exact Honly|set_solver]) eq_refl Hreg HG eq_refl) as (H1 & H2 & H3).
  by split_and!.
Qed.

(** ** The registry *)

(** The first service with a name, at its place in the list. *)
Definition named O (name : cstring) (a : Z) : Prop := ∃ v, O !! a = Some (Service v) ∧ svc_name v = name.

Lemma find_service_wp s svcs G name :
  rep s svcs G →
  wp (ipc_find_service (Some name)) (λ a s', s' = s ∧
    ((a = 0 ∧ ∀ b, b ∈ svcs → ¬ named (objs s) name b) ∨
     (a ≠ 0 ∧ ∃ l1 l2, svcs = l1 ++ a :: l2 ∧ named (objs s) name a ∧ ∀ b, b ∈ l1 → ¬ named (objs s) name b))) s.
Proof.
  intros HR. unfold ipc_find_service. ipc_step. pose proof (r_ring _ _ _ _ _ HR) as Hring.
  apply (list_each_wp lk l_next g_service_registry svcs _
    (λ us s', s' = s ∧ ∀ b, b ∈ us → ¬ named (objs s) name b)
    (λ r s', wp (mret (default 0 r)) _ s')).
  - by apply (ring_head_not_in _ _ _ Hring).
  - intros us s' [-> _]. by apply ring_leads_next.
  - intros us x ys s' Hsv [-> Hus].
    destruct (proj1 (r_svcs _ _ _ _ _ HR x) ltac:(rewrite Hsv; set_solver)) as [v Hv].
    ipc_step. eapply get_service_wp; [exact Hv|]. destruct (streq (svc_name v) name) eqn:E.
    + apply streq_true in E. ipc_step. ipc_step. split; [done|]. right. cbn. split.
      { intros ->. pose proof (ring_live _ _ _ 0 Hring ltac:(rewrite Hsv; set_solver)) as Hl.
        pose proof (r_fresh _ _ _ _ _ HR 0 Hl). lia. }
      exists us, ys. split_and!; [done|by exists v|done].
    + apply streq_false in E. ipc_step. split; [done|]. intros b [Hb| ->%list_elem_of_singleton]%elem_of_app; [by apply Hus|].
      intros (v' & Hv' & Hn). congruence.
  - intros s' [-> Hus]. ipc_step. split; [done|]. left. split; [done|]. exact Hus.
  - split; [done|]. intros b Hb. by apply not_elem_of_nil in Hb.
  - by eapply ring_size.
Qed.

Lemma registry_app O l1 l2 : registry O (l1 ++ l2) = registry O l1 ++ registry O l2.
Proof. apply omap_app. Qed.

Lemma registry_cons O a v l : O !! a = Some (Service v) → registry O (a :: l) = v :: registry O l.
Proof. intros H. unfold registry. cbn. unfold svc_at at 1. by rewrite H. Qed.

(** The abstract lookup of a name agrees with the walk. *)
Lemma find_name_missing O svcs name :
  (∀ b, b ∈ svcs → ∃ v, O !! b = Some (Service v)) → (∀ b, b ∈ svcs → ¬ named O name b) →
  find_name name (registry O svcs) = None ∧ remove_name name (registry O svcs) = registry O svcs.
Proof.
  intros Hs. induction svcs as [|a svcs IH]; intros Hn; [done|].
  destruct (Hs a ltac:(left)) as [v Hv]. rewrite (registry_cons _ _ _ _ Hv). unfold find_name in *. cbn [remove_name].
  assert (svc_name v ≠ name) as Hne by (intros E; apply (Hn a ltac:(left)); by exists v).
  rewrite filter_cons_False by done. rewrite decide_False by done.
  destruct IH as [-> ->]; [intros b Hb; apply Hs; by right|intros b Hb; apply Hn; by right|done].
Qed.

Lemma find_name_found O l1 a l2 name v :
  (∀ b, b ∈ l1 → ∃ v, O !! b = Some (Service v)) → (∀ b, b ∈ l1 → ¬ named O name b) →
  O !! a = Some (Service v) → svc_name v = name →
  find_name name (registry O (l1 ++ a :: l2)) = Some v ∧
  remove_name name (registry O (l1 ++ a :: l2)) = registry O (l1 ++ l2).
Proof.
  intros Hs Hn Hv Hname. rewrite !registry_app, (registry_cons _ _ _ _ Hv).
  induction l1 as [|b l1 IH]; cbn [app].
  - unfold find_name. cbn [registry omap list_omap app remove_name]. by rewrite filter_cons_True, decide_True.
  - destruct (Hs b ltac:(left)) as [w Hw]. rewrite (registry_cons _ _ _ _ Hw). unfold find_name in *. cbn [app remove_name].
    assert (svc_name w ≠ name) as Hne by (intros E; apply (Hn b ltac:(left)); by exists w).
    rewrite filter_cons_False by done. rewrite decide_False by done.
    destruct IH as [-> ->]; [intros c Hc; apply Hs; by right|intros c Hc; apply Hn; by right|done].
Qed.

Lemma services s svcs G : rep s svcs G → ∀ b, b ∈ svcs → ∃ v, objs s !! b = Some (Service v).
Proof. intros HR b Hb. by apply (r_svcs _ _ _ _ _ HR). Qed.

(** Taking a service off the registry and freeing it. *)
Lemma remove_service_wp s l1 x l2 G :
  rep s (l1 ++ x :: l2) G →
  wp (on_links (LinkRemove x);; free_object x) (λ _ s',
    rep s' (l1 ++ l2) G ∧ inboxes (objs s') G = inboxes (objs s) G ∧ (∀ a, a ∈ l1 ++ l2 → objs s' !! a = objs s !! a) ∧
    g_next_msg_id s' = g_next_msg_id s ∧ objs s' = delete x (objs s)) s.
Proof.
  intros HR. pose proof (r_ring _ _ _ _ _ HR) as Hring. ipc_step. ipc_step.
  eapply wp_mono; [by apply ring_remove_at|]. cbn beta. intros _ L' (Hring' & _ & Honly). ipc_step.
  assert ((x ∉ l1 ++ l2) ∧ x ≠ g_service_registry) as [Hx Hxr].
  { destruct Hring as [Hnd _]. apply NoDup_cons in Hnd as [H1 H2]. split; [|set_solver].
    apply NoDup_app in H2 as (_ & H2 & H3). apply NoDup_cons in H3 as [H3 _]. set_solver. }
  set (O' := delete x (objs s)).
  assert (∀ a, a ≠ x → O' !! a = objs s !! a) as Hold by (intros a Ha; unfold O'; by rewrite lookup_delete_ne).
  assert (∀ a, a ∉ x :: g_service_registry :: l1 ++ x :: l2 → delete x L' !! a = lk s !! a ∧ O' !! a = objs s !! a) as Heq.
  { intros a Ha. rewrite !not_elem_of_cons in Ha. destruct Ha as (H1 & H2 & H3). rewrite Hold by done.
    rewrite lookup_delete_ne by done. split; [|done]. apply Honly. set_solver. }
  split_and!; [|by apply (abs_registry (lk s) (objs s) (next s) (l1 ++ x :: l2) G (delete x L') O' x HR ltac:(right; set_solver) Heq)
    |intros a Ha; apply Hold; by intros ->|done|done].
  apply (rep_registry (lk s) (objs s) (next s) (l1 ++ x :: l2) G (delete x L') O' x);
    [done|right; set_solver|done| | | | |right; unfold O'; by rewrite lookup_delete_eq|cbn; lia|].
  - eapply ring_frame; [exact Hring'|]. intros a Ha. rewrite lookup_delete_ne; [done|]. intros ->. set_solver.
  - rewrite Hold by done. apply HR.
  - intros a Ha. rewrite Hold by (by intros ->). destruct (services _ _ _ HR a ltac:(set_solver)) as [v Hv]. exists v. split; [done|by eapply HR].
  - intros a Ha. rewrite elem_of_app, elem_of_cons in Ha. destruct (decide (a = x)); [by right|left; set_solver].
  - intros ->. exfalso. apply (registry_fresh _ _ _ _ _ HR (next s)); [set_solver|done].
Qed.

Lemma lookup_service_wp s A name :
  models s A →
  wp (ipc_lookup_service (Some name)) (λ r s', s' = s ∧ r = match find_name name (a_reg A) with Some v => svc_port v | None => 0 end) s.
Proof.
  intros (svcs & G & HR & _ & <- & _). unfold ipc_lookup_service. ipc_step. eapply wp_mono; [by eapply find_service_wp|]. cbn beta.
  intros a s' [-> [[-> Hno]|(Ha & l1 & l2 & Hsv & (v & Hv & Hn) & Hno)]].
  - rewrite (proj1 (find_name_missing _ _ _ (services _ _ _ HR) Hno)). cbn [Z.eqb]. by ipc_step.
  - rewrite (proj2 (Z.eqb_neq _ _)) by done. ipc_step. eapply get_service_wp; [exact Hv|]. ipc_step.
    rewrite Hsv. rewrite (proj1 (find_name_found (objs s) l1 a l2 name v ltac:(intros b Hb; apply (services s _ G HR); set_solver) Hno Hv Hn)). done.
Qed.

Lemma unregister_service_wp s A name :
  models s A →
  wp (ipc_unregister_service (Some name)) (λ r s',
    r = (if find_name name (a_reg A) is Some _ then IPC_OK else IPC_ENOENT) ∧
    models s' (with_reg (remove_name name (a_reg A)) A)) s.
Proof.
  intros (svcs & G & HR & HG & <- & Hid). unfold ipc_unregister_service. ipc_step. eapply wp_mono; [by eapply find_service_wp|]. cbn beta.
  intros a s' [-> [[-> Hno]|(Ha & l1 & l2 & -> & (v & Hv & Hn) & Hno)]].
  - destruct (find_name_missing _ _ _ (services _ _ _ HR) Hno) as [-> ->]. cbn [Z.eqb]. ipc_step. split; [done|]. by exists svcs, G.
  - destruct (find_name_found (objs s) l1 a l2 name v ltac:(intros b Hb; apply (services s _ G HR); set_solver) Hno Hv Hn) as [-> ->].
    rewrite (proj2 (Z.eqb_neq _ _)) by done. apply wp_assoc. ipc_step. eapply wp_mono; [by apply remove_service_wp|]. cbn beta.
    intros _ s' (HR' & HG' & Hold & Hid' & _). ipc_step. split; [done|]. exists (l1 ++ l2), G. split_and!; [done|by rewrite HG'| |by rewrite Hid'].
    cbn. by apply registry_ext.
Qed.

Lemma length_copy_chars room src : (length (copy_chars room src) ≤ room)%nat.
Proof. revert src. induction room as [|room IH]; intros [|c src]; cbn; try lia. specialize (IH src). lia. Qed.

Lemma copy_chars_take room src : copy_chars room src = take room src.
Proof. revert src. induction room as [|room IH]; intros [|c src]; cbn; [done..|]. by rewrite IH. Qed.

(** A new service behind the others. *)
Lemma add_service_wp s svcs G t v Q :
  rep s svcs G → (length (svc_name v) < 32)%nat →
  let n' := next s in
  let s1 := set_heap (n' + 1) t (set_lk (<[n' := mk_link 0 0]> (lk s)) (set_objs (<[n' := Service v]> (objs s)) s)) in
  (∀ L', rep (set_lk L' s1) (svcs ++ [n']) G → inboxes (objs s1) G = inboxes (objs s) G →
     registry (objs s1) (svcs ++ [n']) = registry (objs s) svcs ++ [v] → Q tt (set_lk L' s1)) →
  wp (on_links (LinkBefore g_service_registry n')) Q s1.
Proof.
  intros HR Hlen n' s1 HQ. pose proof (r_ring _ _ _ _ _ HR) as Hring. pose proof (fresh_None _ _ _ _ _ HR) as [HOn HLn].
  assert (next s ∉ g_service_registry :: svcs) as Hfresh by (intros Hin; by apply (registry_fresh _ _ _ _ _ HR (next s) Hin)).
  ipc_step. eapply wp_mono; [apply (ring_before _ g_service_registry svcs (next s))|].
  { eapply ring_frame; [exact Hring|]. intros a Ha. cbn. rewrite lookup_insert_ne; [done|]. by intros <-. }
  { done. } { cbn. by rewrite lookup_insert_eq. }
  cbn beta. intros [] L' [Hring' Honly].
  set (O' := <[next s := Service v]> (objs s)).
  assert (∀ a, a ≠ next s → O' !! a = objs s !! a) as Hold by (intros a Ha; unfold O'; by rewrite lookup_insert_ne).
  assert (∀ a, a ∉ next s :: g_service_registry :: svcs → L' !! a = lk s !! a ∧ O' !! a = objs s !! a) as Heq.
  { intros a Ha. rewrite (only_out _ _ _ Honly a Ha). rewrite !not_elem_of_cons in Ha. destruct Ha as (? & ? & ?).
    rewrite Hold by done. cbn. by rewrite lookup_insert_ne by (unfold n'; congruence). }
  assert (registry O' (svcs ++ [next s]) = registry (objs s) svcs ++ [v]) as Hreg.
  { rewrite registry_app. f_equal; [|by apply (registry_cons O' (next s) v []); unfold O'; rewrite lookup_insert_eq].
    apply registry_ext. intros a Ha. apply Hold. intros ->. apply Hfresh. by right. }
  apply HQ; [|by apply (abs_registry (lk s) (objs s) (next s) svcs G L' O' (next s) HR (or_introl eq_refl) Heq)|exact Hreg].
  apply (rep_registry (lk s) (objs s) (next s) svcs G L' O' (next s));
    [done|by left|done|done| | |intros a Ha; left; set_solver|left; set_solver|cbn; lia|cbn; lia].
  - rewrite Hold by (intros E; apply Hfresh; rewrite <- E; left). apply HR.
  - intros a [Ha| ->%list_elem_of_singleton]%elem_of_app.
    + rewrite Hold by (intros ->; apply Hfresh; by right). destruct (services _ _ _ HR a Ha) as [w Hw]. exists w. split; [done|by eapply HR].
    + exists v. unfold O'. by rewrite lookup_insert_eq.
Qed.

Lemma models_set_heap s A t : models s A → models (set_heap (next s) t s) A.
Proof. intros (svcs & G & H). by exists svcs, G. Qed.

Lemma inboxes_put_port O G p pt pt' : O !! p = Some (Port pt) → inboxes (<[p := Port pt']> O) G = inboxes O G.
Proof.
  intros Hp. unfold inboxes. apply map_eq. intros q. rewrite !lookup_fmap. destruct (G !! q) as [ms|]; [|done]. cbn. f_equal.
  apply omap_ext_in. intros a _. unfold msg_at. destruct (decide (a = p)) as [->|]; [by rewrite lookup_insert_eq, Hp|by rewrite lookup_insert_ne].
Qed.

Lemma registry_put_port O svcs p pt pt' : O !! p = Some (Port pt) → registry (<[p := Port pt']> O) svcs = registry O svcs.
Proof.
  intros Hp. apply omap_ext_in. intros a _. unfold svc_at.
  destruct (decide (a = p)) as [->|]; [by rewrite lookup_insert_eq, Hp|by rewrite lookup_insert_ne].
Qed.

Lemma register_service_wp s A name p q :
  models s A → p ≠ 0 → a_in A !! p = Some q →
  wp (ipc_register_service (Some name) p) (λ r s',
    match find_name name (a_reg A) with
    | Some _ => r = IPC_EEXIST ∧ models s' A
    | None => (r = IPC_ENOMEM ∧ models s' A) ∨
              (r = IPC_OK ∧ models s' (with_reg (a_reg A ++ [mk_service (take 31 name) p]) A))
    end) s.
Proof.
  intros HM Hp0 Hq. pose proof HM as (svcs & G & HR & HG & Hreg & Hid).
  destruct (models_port _ _ _ _ _ _ HR HG Hq) as (ms & Hp & HB & _). pose proof (b_port _ _ _ _ HB) as (pt & Hpt & Hpend).
  unfold ipc_register_service. rewrite bool_decide_false by done. rewrite (proj2 (Z.eqb_neq p 0)) by done. cbn [orb].
  ipc_step. eapply wp_mono; [by eapply find_service_wp|]. cbn beta.
  intros a s' [-> [[-> Hno]|(Ha & l1 & l2 & -> & (v & Hv & Hn) & Hno)]].
  2:{ rewrite <- Hreg. rewrite (proj1 (find_name_found (objs s) l1 a l2 name v ltac:(intros b Hb; apply (services s _ G HR); set_solver) Hno Hv Hn)).
      rewrite (proj2 (Z.eqb_neq _ _)) by done. cbn [negb]. ipc_step. split; [done|]. by exists (l1 ++ a :: l2), G. }
  pose proof (proj1 (find_name_missing _ _ _ (services _ _ _ HR) Hno)) as Hnone. rewrite Hreg in Hnone. rewrite Hnone. cbn [Z.eqb negb].
  ipc_step. apply new_object_wp.
  { intros t. cbn [Z.eqb]. ipc_step. left. split; [done|]. by apply models_set_heap. }
  intros t. pose proof (next_pos _ _ _ _ _ HR) as Hnext. rewrite (proj2 (Z.eqb_neq _ _)) by lia.
  pose proof (fresh_None _ _ _ _ _ HR) as [HOn HLn].
  assert (p ≠ next s) as Hpn by (intros ->; congruence).
  ipc_step. ipc_step. ipc_step. eapply get_port_wp; [cbn; rewrite !lookup_insert_ne by done; exact Hpt|].
  ipc_step. ipc_step. ipc_step.
  set (pt' := mk_port _ _ _ _). set (v := mk_service _ _).
  set (s0 := set_objs (<[p := Port pt']> (objs s)) s).
  assert (rep s0 svcs G) as HR0 by (by apply (rep_put_port _ _ _ _ _ p pt pt' HR Hpt)).
  match goal with |- wp _ _ ?st => assert (st = set_heap (next s + 1) t (set_lk (<[next s := mk_link 0 0]> (lk s0)) (set_objs (<[next s := Service v]> (objs s0)) s0))) as -> end.
  { unfold s0, set_objs, set_lk, set_heap. cbn. f_equal. rewrite insert_insert_eq. by rewrite insert_insert_ne. }
  apply (add_service_wp s0 svcs G t v).
  { done. } { change (length (copy_chars 31 name) < 32)%nat. pose proof (length_copy_chars 31 name). lia. }
  intros L' HR' HG' Hreg'. ipc_step. right. split; [done|]. exists (svcs ++ [next s]), G. split_and!; [exact HR'| | |exact Hid].
  - etrans; [exact HG'|]. cbn [objs set_objs s0]. unfold s0. cbn [objs set_objs]. rewrite (inboxes_put_port _ _ _ pt) by done. exact HG.
  - etrans; [exact Hreg'|]. unfold s0. cbn [objs set_objs]. rewrite (registry_put_port _ _ _ pt) by done. rewrite Hreg.
    cbn [a_reg with_reg]. assert (v = mk_service (take 31 name) p) as ->; [|done].
    change (mk_service (copy_chars 31 name) p = mk_service (take 31 name) p). by rewrite copy_chars_take.
Qed.

(** Unregistering every service of a port. *)
Lemma unregister_port_wp s A p :
  models s A → p ≠ 0 →
  wp (ipc_unregister_port p) (λ r s', r = IPC_OK ∧
    models s' (with_reg (filter (λ v, svc_port v ≠ p) (a_reg A)) A)) s.
Proof.
  intros (svcs & G & HR & HG & Hreg & Hid) Hp0. unfold ipc_unregister_port. rewrite (proj2 (Z.eqb_neq _ _)) by done.
  set (keep := λ v, svc_port v ≠ p). ipc_step.
  apply (safe_each_wp lk g_service_registry _ (λ ys s', ∃ kept, rep s' (kept ++ ys) G ∧ inboxes (objs s') G = a_in A ∧
    g_next_msg_id s' = a_id A ∧ registry (objs s') kept ++ filter keep (registry (objs s') ys) = filter keep (a_reg A))
    (λ r s', wp (mret IPC_OK) _ s')) with (ys := svcs).
  - intros x ys s' (kept & HR' & _). pose proof (r_ring _ _ _ _ _ HR') as Hring. split; [|by eapply ring_next].
    intros ->. apply (ring_head_not_in _ _ _ Hring). set_solver.
  - intros x ys s' (kept & HR' & HG' & Hid' & Hk). destruct (services _ _ _ HR' x ltac:(set_solver)) as [v Hv].
    rewrite (registry_cons _ _ _ _ Hv) in Hk. ipc_step. eapply get_service_wp; [exact Hv|].
    destruct (Z.eqb_spec (svc_port v) p) as [E|E].
    + rewrite filter_cons_False in Hk by (unfold keep; tauto). apply wp_assoc. ipc_step.
      eapply wp_mono; [by apply remove_service_wp|]. cbn beta. intros _ s'' (HR'' & HG'' & Hold & Hid'' & _). ipc_step.
      exists kept. split_and!; [done|by rewrite HG''|by rewrite Hid''|]. rewrite <- Hk.
      f_equal; [|f_equal]; apply registry_ext; intros a Ha; apply Hold; set_solver.
    + ipc_step. exists (kept ++ [x]). rewrite <- app_assoc. split_and!; [done|done|done|].
      rewrite registry_app, (registry_cons _ x v []) by done. rewrite filter_cons_True in Hk by done. by rewrite <- Hk, <- app_assoc.
  - intros s' (kept & HR' & HG' & Hid' & Hk). ipc_step. split; [done|]. rewrite app_nil_r in HR'. exists kept, G.
    split_and!; [done|done| |done]. cbn. rewrite <- Hk. cbn. by rewrite app_nil_r.
  - exists []. split_and!; [done|done|done|]. by rewrite Hreg.
  - by apply ring_first, HR.
  - eapply ring_size, HR.
Qed.

(** A new port, or a port with an empty inbox that goes away. *)
Lemma rep_new_port L O n svcs G L' O' pt :
  heap_rep L O n svcs G → ring L' n [] → port_pending pt = 0 → O' !! n = Some (Port pt) →
  (∀ a, a ≠ n → O' !! a = O !! a ∧ L' !! a = L !! a) →
  heap_rep L' O' (n + 1) svcs (<[n := []]> G).
Proof.
  intros HR Hring Hpend Hn Hold. pose proof (next_pos _ _ _ _ _ HR) as Hnext.
  assert (∀ a o, O' !! a = Some o → (∀ q, o ≠ Port q) → O !! a = Some o) as Hback.
  { intros a o Ho Hk. destruct (decide (a = n)) as [->|Ha]; [|by rewrite <- (proj1 (Hold a Ha))].
    rewrite Hn in Ho. inversion Ho. subst. by destruct (Hk pt). }
  assert (∀ q mq a, G !! q = Some mq → a ∈ q :: mq → a ≠ n) as Hne by (intros q mq a Hq Ha; by eapply box_fresh).
  assert (∀ a, a ∈ g_service_registry :: svcs → a ≠ n) as Hrne by (intros a Ha; by eapply registry_fresh).
  split.
  - eapply ring_frame; [exact (r_ring _ _ _ _ _ HR)|]. intros a Ha. apply Hold, Hrne, Ha.
  - rewrite (proj1 (Hold _ (Hrne _ ltac:(left)))). apply HR.
  - intros a. rewrite (r_svcs _ _ _ _ _ HR a). split; intros [v Hv]; exists v; [|by apply Hback].
    assert (a ≠ n) as Ha; [|by rewrite (proj1 (Hold a Ha))]. apply Hrne. right. apply (r_svcs _ _ _ _ _ HR). by exists v.
  - intros a v Hv. eapply (r_names _ _ _ _ _ HR a). by apply Hback.
  - intros q mq. destruct (decide (q = n)) as [->|Hq].
    + rewrite lookup_insert_eq. intros [= <-]. split; [done|by exists pt|]. intros a Ha. by apply not_elem_of_nil in Ha.
    + rewrite lookup_insert_ne by done. intros HGq. eapply box_frame; [by apply HR|]. intros a Ha.
      pose proof (Hne _ _ _ HGq Ha) as H. by destruct (Hold a H).
  - intros q qt Hq. destruct (decide (q = n)) as [->|Hqn]; [by rewrite lookup_insert_eq|]. rewrite lookup_insert_ne by done.
    rewrite (proj1 (Hold q Hqn)) in Hq. by eapply (r_ports _ _ _ _ _ HR).
  - intros a m Hm. destruct (r_held _ _ _ _ _ HR a m ltac:(by apply Hback)) as (q & mq & Hq & Ha). exists q, mq.
    rewrite lookup_insert_ne; [done|]. intros <-. by apply (Hne n mq n Hq ltac:(left)).
  - intros p1 p2 m1 m2 a. destruct (decide (p1 = n)) as [->|H1]; [rewrite lookup_insert_eq; intros [= <-] _ Ha; by apply not_elem_of_nil in Ha|].
    destruct (decide (p2 = n)) as [->|H2]; [rewrite lookup_insert_eq; intros _ [= <-] _ Ha; by apply not_elem_of_nil in Ha|].
    rewrite !lookup_insert_ne by done. apply HR.
  - intros a Ha. destruct (decide (a = n)) as [->|Han]; [lia|]. rewrite (proj2 (Hold a Han)) in Ha.
    pose proof (r_fresh _ _ _ _ _ HR a Ha). lia.
Qed.

Lemma rep_delete_port L O n svcs G L' O' p ms :
  heap_rep L O n svcs G → G !! p = Some ms →
  (∀ b, b ∉ p :: ms → L' !! b = L !! b ∧ O' !! b = O !! b) → (∀ b, b ∈ p :: ms → L' !! b = None ∧ O' !! b = None) →
  heap_rep L' O' n svcs (delete p G).
Proof.
  intros HR Hp Hold Hgone.
  assert (∀ q mq a, G !! q = Some mq → q ≠ p → a ∈ q :: mq → a ∉ p :: ms) as Hne by (intros; by eapply box_apart).
  assert (∀ a, a ∈ g_service_registry :: svcs → a ∉ p :: ms) as Hrne by (intros; by eapply registry_apart).
  assert (∀ a o, O' !! a = Some o → (a ∉ p :: ms) ∧ O !! a = Some o) as Hback.
  { intros a o Ho. destruct (decide (a ∈ p :: ms)) as [Ha|Ha]; [by rewrite (proj2 (Hgone a Ha)) in Ho|].
    split; [done|]. by rewrite <- (proj2 (Hold a Ha)). }
  split.
  - eapply ring_frame; [exact (r_ring _ _ _ _ _ HR)|]. intros a Ha. apply Hold, Hrne, Ha.
  - rewrite (proj2 (Hold _ (Hrne _ ltac:(left)))). apply HR.
  - intros a. split; [|intros [v [_ Hv]%Hback]; apply (r_svcs _ _ _ _ _ HR); by exists v]. intros Ha.
    rewrite (proj2 (Hold a (Hrne a ltac:(by right)))). by apply (r_svcs _ _ _ _ _ HR).
  - intros a v [_ Hv]%Hback. by eapply (r_names _ _ _ _ _ HR a).
  - intros q mq [Hqp Hq]%lookup_delete_Some. eapply box_frame; [by apply HR|]. intros a Ha. by apply Hold, (Hne q mq).
  - intros q qt [Hqp Hq]%Hback. rewrite lookup_delete_ne by set_solver. by eapply (r_ports _ _ _ _ _ HR).
  - intros a m [Ha Hm]%Hback. destruct (r_held _ _ _ _ _ HR a m Hm) as (q & mq & Hq & Haq). exists q, mq.
    rewrite lookup_delete_ne; [done|]. intros <-. rewrite Hp in Hq. inversion Hq. subst. set_solver.
  - intros p1 p2 m1 m2 a [_ H1]%lookup_delete_Some [_ H2]%lookup_delete_Some. by apply (r_apart _ _ _ _ _ HR p1 p2 m1 m2 a).
  - intros a Ha. destruct (decide (a ∈ p :: ms)) as [Hin|Hin]; [destruct Ha as [l Hl]; by rewrite (proj1 (Hgone a Hin)) in Hl|].
    rewrite (proj1 (Hold a Hin)) in Ha. by apply (r_fresh _ _ _ _ _ HR).
Qed.

(** [ipc_port_create]: a new port with an empty inbox. *)
Lemma endpoint_create_wp s A :
  models s A →
  wp ipc_port_create (λ r s', (r = 0 ∧ models s' A) ∨
    (r ≠ 0 ∧ a_in A !! r = None ∧ models s' (with_in (<[r := []]> (a_in A)) A))) s.
Proof.
  intros HM. pose proof HM as (svcs & G & HR & HG & Hreg & Hid). unfold ipc_port_create.
  pose proof (next_pos _ _ _ _ _ HR) as Hnext. pose proof (fresh_None _ _ _ _ _ HR) as [HOn HLn].
  ipc_step. apply new_object_wp.
  { intros t. cbn [Z.eqb]. ipc_step. left. split; [done|]. by apply models_set_heap. }
  intros t. rewrite (proj2 (Z.eqb_neq _ _)) by lia. ipc_step. ipc_step. ipc_step. ipc_step. ipc_step. ipc_step. ipc_step. ipc_step.
  eapply wp_mono; [apply ring_init_wp; cbn; by rewrite lookup_insert_eq|]. cbn beta. intros _ L' [Hring Honly]. ipc_step.
  right. split; [lia|].
  assert (G !! next s = None) as HGn.
  { destruct (G !! next s) as [ms|] eqn:E; [|done]. exfalso. apply (box_fresh _ _ _ _ _ HR _ ms (next s) E); [left|done]. }
  split; [rewrite <- HG; unfold inboxes; by rewrite lookup_fmap, HGn|].
  set (pt := mk_port (g_next_port_id s) [] 0 0). set (O' := <[next s := Port pt]> (<[next s := Port zero_port]> (objs s))).
  exists svcs, (<[next s := []]> G).
  assert (∀ a, a ≠ next s → O' !! a = objs s !! a ∧ L' !! a = lk s !! a) as Hold.
  { intros a Ha. unfold O'. rewrite !lookup_insert_ne by done. split; [done|]. rewrite (only_out _ _ _ Honly a) by set_solver.
    cbn. by rewrite lookup_insert_ne by done. }
  split_and!.
  - apply (rep_new_port (lk s) (objs s) (next s) svcs G L' O' pt); [done|done|done|unfold O'; by rewrite lookup_insert_eq|exact Hold].
  - change (inboxes O' (<[next s := []]> G) = <[next s := []]> (a_in A)). rewrite (inboxes_insert (objs s)), HG; [done|].
    intros q mq a Hq _ Ha. apply Hold. intros ->. by apply (box_fresh _ _ _ _ _ HR q mq (next s) Hq); [right|].
  - change (registry O' svcs = a_reg A). rewrite <- Hreg. apply registry_ext. intros a Ha. apply Hold. intros ->.
    by apply (registry_fresh _ _ _ _ _ HR (next s)); [right|].
  - done.
Qed.

(** Emptying an inbox. *)
Lemma free_messages_wp fuel s p ms :
  ring (lk s) p ms → (∀ a, a ∈ ms → ∃ m, objs s !! a = Some (Message m)) → (length ms < fuel)%nat →
  wp (free_messages fuel p) (λ _ s', (∀ b, b ∉ p :: ms → lk s' !! b = lk s !! b) ∧ (∀ b, b ∉ ms → objs s' !! b = objs s !! b) ∧
    (∀ b, b ∈ ms → lk s' !! b = None ∧ objs s' !! b = None) ∧ next s' = next s ∧ g_next_msg_id s' = g_next_msg_id s) s.
Proof.
  revert s ms. induction fuel as [|fuel IH]; intros s ms Hring Hms Hf; [lia|]. cbn [free_messages]. ipc_step.
  eapply wp_eq; [unfold on_links, czoom; by rewrite (ring_empty_run _ _ _ Hring)|].
  assert (set_lk (lk s) s = s) as -> by (by destruct s).
  destruct ms as [|a ms].
  { rewrite bool_decide_true by done. ipc_step. split_and!; try done. intros b Hb. by apply not_elem_of_nil in Hb. }
  rewrite bool_decide_false by done. destruct (ring_head_link _ _ _ Hring) as (l & Hl & Hln). cbn [hd] in Hln.
  destruct (Hms a ltac:(left)) as [m Hm].
  assert ((a ∉ ms) ∧ a ≠ p ∧ p ∉ ms) as (Ha & Hap & Hp).
  { clear IH Hms. destruct Hring as [Hnd _]. apply NoDup_cons in Hnd as [H1 H2]. apply NoDup_cons in H2 as [H2 _]. set_solver. }
  ipc_step. ipc_step. eapply get_link_wp; [exact Hl|]. rewrite Hln. cbn zeta. ipc_step. ipc_step.
  eapply wp_mono; [by apply (ring_remove_at _ p [] a ms)|]. cbn beta. intros _ L' (Hring' & _ & Honly).
  ipc_step. eapply get_msg_wp; [exact Hm|]. ipc_step. ipc_step.
  eapply wp_mono; [apply (IH _ ms)|].
  - clear IH Hms. eapply ring_frame; [exact Hring'|]. intros b Hb. cbn. rewrite lookup_delete_ne; [done|]. intros ->. set_solver.
  - intros b Hb. destruct (Hms b ltac:(by right)) as [mb Hmb]. exists mb. cbn. rewrite lookup_delete_ne; [done|]. by intros ->.
  - cbn in Hf. lia.
  - clear IH Hms. cbn beta. intros _ s' (H1 & H2 & H3 & H4 & H5). cbn in H1, H2, H4, H5. split_and!; [| | |exact H4|exact H5].
    + intros b Hb. rewrite H1 by set_solver. rewrite lookup_delete_ne by set_solver. apply Honly. set_solver.
    + intros b Hb. rewrite H2 by set_solver. by rewrite lookup_delete_ne by set_solver.
    + intros b [->|Hb]%elem_of_cons; [|by apply H3]. rewrite H1, H2 by set_solver. by rewrite !lookup_delete_eq.
Qed.

Lemma destroy_wp s A p q :
  models s A → p ≠ 0 → a_in A !! p = Some q →
  wp (ipc_port_destroy p) (λ _ s',
    models s' (with_reg (filter (λ v, svc_port v ≠ p) (a_reg A)) (with_in (delete p (a_in A)) A))) s.
Proof.
  intros HM Hp0 Hq. unfold ipc_port_destroy. rewrite (proj2 (Z.eqb_neq _ _)) by done. ipc_step.
  eapply wp_mono; [by eapply unregister_port_wp|]. cbn beta. intros _ s1 [_ (svcs & G & HR & HG & Hreg & Hid)].
  destruct (models_port s1 A svcs G p q HR HG Hq) as (ms & Hp & HB & _). pose proof (b_port _ _ _ _ HB) as (pt & Hpt & _).
  pose proof (ring_head_not_in _ _ _ (b_ring _ _ _ _ HB)) as Hpms.
  ipc_step. unfold ipc_free_queue. rewrite (proj2 (Z.eqb_neq _ _)) by done. ipc_step. ipc_step. ipc_step.
  eapply wp_mono; [apply (free_messages_wp _ s1 p ms); [apply HB|apply HB|by eapply ring_size, HB]|].
  cbn beta. intros _ s2 (H1 & H2 & H3 & H4 & H5). ipc_step. eapply get_port_wp; [rewrite H2 by done; exact Hpt|].
  ipc_step. ipc_step.
  set (s' := set_lk _ _).
  assert (∀ b, b ∉ p :: ms → lk s' !! b = lk s1 !! b ∧ objs s' !! b = objs s1 !! b) as Hold.
  { intros b Hb. unfold s'. cbn. rewrite !lookup_delete_ne, lookup_insert_ne by set_solver. split; [by apply H1|apply H2; set_solver]. }
  assert (∀ b, b ∈ p :: ms → lk s' !! b = None ∧ objs s' !! b = None) as Hgone.
  { intros b Hb. unfold s'. cbn. destruct (decide (b = p)) as [->|Hbp]; [by rewrite !lookup_delete_eq|].
    rewrite !lookup_delete_ne, lookup_insert_ne by done. apply H3. set_solver. }
  exists svcs, (delete p G). split_and!.
  - unfold rep. replace (next s') with (next s1) by (unfold s'; cbn; congruence). by eapply rep_delete_port.
  - cbn [a_in with_in with_reg] in *. rewrite <- HG. apply map_eq. intros r. unfold inboxes. rewrite lookup_fmap.
    destruct (decide (r = p)) as [->|Hr]; [by rewrite !lookup_delete_eq|]. rewrite !lookup_delete_ne, lookup_fmap by done.
    destruct (G !! r) as [mr|] eqn:Hr'; [|done]. cbn. f_equal. apply omap_ext_in. intros a Ha.
    refine (f_equal (λ o, match o with Some (Message m) => Some m | _ => None end) (proj2 (Hold a _))).
    apply (box_apart _ _ _ _ _ HR p r ms mr a Hp Hr'); [done|by right].
  - cbn [a_reg with_in with_reg] in *. rewrite <- Hreg. apply registry_ext. intros a Ha. apply Hold.
    apply (registry_apart _ _ _ _ _ HR p ms a Hp). by right.
  - unfold s'. cbn. rewrite H5. exact Hid.
Qed.

Lemma pending_wp s A p q :
  models s A → p ≠ 0 → a_in A !! p = Some q →
  wp (ipc_pending p) (λ r s', r = u32 (Z.of_nat (length q)) ∧ s' = s) s.
Proof.
  intros (svcs & G & HR & HG & Hreg & Hid) Hp0 Hq. destruct (models_port s A svcs G p q HR HG Hq) as (ms & Hp & HB & ->).
  pose proof (b_port _ _ _ _ HB) as (pt & Hpt & Hpend). unfold ipc_pending. rewrite (proj2 (Z.eqb_neq _ _)) by done.
  ipc_step. eapply get_port_wp; [exact Hpt|]. ipc_step. by rewrite (box_length _ _ _ _ HB).
Qed.

(** ** Calls *)

Inductive call :=
  | Create
  | Destroy (p : Z)
  | Send (p src type : Z) (data : option (list Z)) (len : Z)
  | Recv (p : Z) (out : option ipc_msg)
  | Pending (p : Z)
  | Register (name : option cstring) (p : Z)
  | Unregister (name : option cstring)
  | UnregisterPort (p : Z)
  | Lookup (name : option cstring).

Definition only_code {B} (m : cmd ipc B) (f : B → Z) : cmd ipc (Z * option ipc_msg) := r ← m; mret (f r, None).
Definition run (c : call) : cmd ipc (Z * option ipc_msg) :=
  match c with
  | Create => only_code ipc_port_create id
  | Destroy p => only_code (ipc_port_destroy p) (λ _, 0)
  | Send p src type data len => only_code (ipc_send p src type data len) id
  | Recv p out => ipc_recv p out
  | Pending p => only_code (ipc_pending p) id
  | Register name p => only_code (ipc_register_service name p) id
  | Unregister name => only_code (ipc_unregister_service name) id
  | UnregisterPort p => only_code (ipc_unregister_port p) id
  | Lookup name => only_code (ipc_lookup_service name) id
  end.

(** A port argument is NULL or a live port; the bytes to send are readable. *)
Definition port_arg s (p : Z) : Prop := p = 0 ∨ ∃ pt, objs s !! p = Some (Port pt).
Definition allowed s (c : call) : Prop :=
  match c with
  | Send p _ _ data len => port_arg s p ∧ 0 ≤ len ∧ (∀ d, data = Some d → len ≤ 256 → len ≤ Z.of_nat (length d))
  | Destroy p | Recv p _ | Pending p | Register _ p | UnregisterPort p => port_arg s p
  | _ => True
  end.

(** What a call returns and how it changes the abstract state. *)
Definition spec A (c : call) (r : Z * option ipc_msg) A' : Prop :=
  match c with
  | Create => r.2 = None ∧ ((r.1 = 0 ∧ A' = A) ∨
      (r.1 ≠ 0 ∧ a_in A !! r.1 = None ∧ A' = with_in (<[r.1 := []]> (a_in A)) A))
  | Destroy p => r = (0, None) ∧
      A' = if p =? 0 then A else with_reg (filter (λ v, svc_port v ≠ p) (a_reg A)) (with_in (delete p (a_in A)) A)
  | Send p src type data len => r.2 = None ∧
      if (p =? 0) || (bool_decide (data = None) && negb (len =? 0)) then r.1 = IPC_EINVAL ∧ A' = A
      else if 256 <? len then r.1 = IPC_E2BIG ∧ A' = A
      else (r.1 = IPC_ENOMEM ∧ A' = A) ∨
        (r.1 = IPC_OK ∧ ∃ q, a_in A !! p = Some q ∧
           A' = with_id (u32 (a_id A + 1)) (with_in (<[p := q ++ [new_msg (a_id A) src type data len]]> (a_in A)) A))
  | Recv p out =>
      match out with
      | None => r = (IPC_EINVAL, None) ∧ A' = A
      | Some o =>
          if p =? 0 then r = (IPC_EINVAL, Some o) ∧ A' = A else
          ∃ q, a_in A !! p = Some q ∧
            match q with
            | [] => r = (IPC_EAGAIN, Some o) ∧ A' = A
            | m :: q => r = (IPC_OK, Some (if 0 <? msg_len m then received m o
                          else mk_msg (msg_id m) (msg_src m) (msg_type m) (msg_flags m) (msg_len m) (msg_data o))) ∧
                A' = with_in (<[p := q]> (a_in A)) A
            end
      end
  | Pending p => A' = A ∧ r = (u32 (Z.of_nat (length (default [] (if p =? 0 then None else a_in A !! p)))), None)
  | Register name p => r.2 = None ∧
      match name with
      | Some n =>
          if p =? 0 then r.1 = IPC_EINVAL ∧ A' = A else
          match find_name n (a_reg A) with
          | Some _ => r.1 = IPC_EEXIST ∧ A' = A
          | None => (r.1 = IPC_ENOMEM ∧ A' = A) ∨
              (r.1 = IPC_OK ∧ A' = with_reg (a_reg A ++ [mk_service (take 31 n) p]) A)
          end
      | None => r.1 = IPC_EINVAL ∧ A' = A
      end
  | Unregister name =>
      r = (if name ≫= (λ n, find_name n (a_reg A)) is Some _ then IPC_OK else IPC_ENOENT, None) ∧
      A' = match name with Some n => with_reg (remove_name n (a_reg A)) A | None => A end
  | UnregisterPort p =>
      r = (if p =? 0 then IPC_EINVAL else IPC_OK, None) ∧
      A' = if p =? 0 then A else with_reg (filter (λ v, svc_port v ≠ p) (a_reg A)) A
  | Lookup name => A' = A ∧
      r = (match name ≫= (λ n, find_name n (a_reg A)) with Some v => svc_port v | None => 0 end, None)
  end.

Lemma port_arg_queue s A p : models s A → port_arg s p → p ≠ 0 → ∃ q, a_in A !! p = Some q.
Proof.
  intros (svcs & G & HR & HG & _) [?|[pt Hpt]] Hp; [done|]. destruct (r_ports _ _ _ _ _ HR _ _ Hpt) as [ms Hms].
  rewrite <- HG. unfold inboxes. rewrite lookup_fmap, Hms. by eexists.
Qed.

Lemma only_code_wp {B} (m : cmd ipc B) f Q s : wp m (λ r s', Q (f r, None) s') s → wp (only_code m f) Q s.
Proof. intros H. unfold only_code. ipc_step. eapply wp_mono; [exact H|]. intros r s' Hr. by ipc_step. Qed.

Lemma ipc_call_wp s A c :
  models s A → allowed s c → wp (run c) (λ r s', ∃ A', spec A c r A' ∧ models s' A') s.
Proof.
  intros HM Hal. destruct c as [|p|p src type data len|p out|p|name p|name|p|name]; cbn [run spec allowed] in *.
  - apply only_code_wp. eapply wp_mono; [by eapply endpoint_create_wp|]. cbn. intros r s' [[-> H]|(? & ? & H)]; eexists; split; try exact H; eauto.
  - apply only_code_wp. destruct (Z.eqb_spec p 0) as [->|Hp]; [exists A; by split|].
    destruct (port_arg_queue _ _ _ HM Hal Hp) as [q Hq]. eapply wp_mono; [by eapply destroy_wp|]. cbn. intros r s' H. by eexists.
  - destruct Hal as (Hp & Hlen & Hd). apply only_code_wp.
    destruct ((p =? 0) || (bool_decide (data = None) && negb (len =? 0))) eqn:E.
    { unfold ipc_send. rewrite E. ipc_step. by exists A. }
    apply orb_false_iff in E as [Hp0%Z.eqb_neq E]. destruct (port_arg_queue _ _ _ HM Hp Hp0) as [q Hq].
    assert (data = None → len = 0) as Hn.
    { intros ->. rewrite bool_decide_true in E by done. cbn in E. by apply negb_false_iff, Z.eqb_eq in E. }
    eapply wp_mono; [apply (send_wp s A p q src type data len HM Hp0 Hq Hlen Hn)|].
    { intros Hs. destruct data as [d|]; [by apply Hd|]. rewrite Hn by done. done. }
    cbn. intros r s' [(Hb & -> & H)|(Hb & [[-> H]|[-> H]])]; eexists; (split; [|exact H]); (split; [done|]).
    + by rewrite (proj2 (Z.ltb_lt _ _)) by lia.
    + rewrite (proj2 (Z.ltb_ge _ _)) by lia. by left.
    + rewrite (proj2 (Z.ltb_ge _ _)) by lia. right. split; [done|]. by exists q.
  - destruct out as [o|]; [|unfold ipc_recv; ipc_step; by exists A].
    destruct (Z.eqb_spec p 0) as [->|Hp]; [unfold ipc_recv; cbn [Z.eqb]; ipc_step; by exists A|].
    destruct (port_arg_queue _ _ _ HM Hal Hp) as [q Hq]. eapply wp_mono; [by eapply recv_wp|]. cbn beta.
    intros r s' H. destruct q as [|m q]; destruct H as [-> H]; eexists; (split; [|exact H]); eexists; (split; [exact Hq|]); done.
  - apply only_code_wp. destruct (Z.eqb_spec p 0) as [->|Hp]; [unfold ipc_pending; cbn [Z.eqb]; ipc_step; by exists A|].
    destruct (port_arg_queue _ _ _ HM Hal Hp) as [q Hq]. eapply wp_mono; [by eapply pending_wp|]. cbn beta.
    intros r s' [-> ->]. exists A. by rewrite Hq.
  - apply only_code_wp. destruct name as [n|]; [|unfold ipc_register_service; rewrite bool_decide_true by done; cbn [orb]; ipc_step; by exists A].
    destruct (Z.eqb_spec p 0) as [->|Hp]; [unfold ipc_register_service; rewrite bool_decide_false by done; cbn [orb Z.eqb]; ipc_step; by exists A|].
    destruct (port_arg_queue _ _ _ HM Hal Hp) as [q Hq]. eapply wp_mono; [by eapply register_service_wp|]. cbn beta.
    intros r s' H. destruct (find_name n (a_reg A)); [destruct H as [-> H]; by exists A|].
    destruct H as [[-> H]|[-> H]]; eexists; (split; [|exact H]); (split; [done|]); [by left|by right].
  - apply only_code_wp. destruct name as [n|]; [|unfold ipc_unregister_service, ipc_find_service; ipc_step; ipc_step; cbn [Z.eqb]; ipc_step; by exists A].
    eapply wp_mono; [by eapply unregister_service_wp|]. cbn beta. intros r s' [-> H]. by eexists.
  - apply only_code_wp. destruct (Z.eqb_spec p 0) as [->|Hp]; [unfold ipc_unregister_port; cbn [Z.eqb]; ipc_step; by exists A|].
    eapply wp_mono; [by eapply unregister_port_wp|]. cbn beta. intros r s' [-> H]. by eexists.
  - apply only_code_wp. destruct name as [n|]; [|unfold ipc_lookup_service, ipc_find_service; ipc_step; ipc_step; cbn [Z.eqb]; ipc_step; by exists A].
    eapply wp_mono; [by eapply lookup_service_wp|]. cbn beta. intros r s' [-> ->]. by exists A.
Qed.

Lemma init_wp n o : 1 < n → wp ipc_init (λ _ s, models s (mk_abs ∅ [] 1)) (boot n o).
Proof.
  intros Hn. unfold ipc_init. ipc_step. ipc_step. cbn [g_ipc_ready boot]. ipc_step. ipc_step.
  eapply wp_mono; [apply ring_init_wp; by exists (mk_link 0 0)|]. cbn beta. intros _ L' [Hring Honly].
  ipc_step. exists [], ∅. split_and!; [|apply fmap_empty|done|done]. split; try done.
  - intros a. split; [intros Ha; by apply not_elem_of_nil in Ha|by intros [v Hv]].
  - intros a Ha. change (is_Some (L' !! a)) in Ha. cbn. destruct (decide (a = g_service_registry)) as [->|Hne]; [unfold g_service_registry; lia|].
    rewrite (only_out _ _ _ Honly) in Ha by set_solver.
    change (is_Some (({[g_service_registry := mk_link 0 0]} : links) !! a)) in Ha. rewrite lookup_singleton_ne in Ha by done. by destruct Ha.
Qed.

(** ** Deliveries *)

(** The content of a message and a port's queue. *)
Definition view (m : ipc_msg) : Z * Z * list Z := (msg_src m, msg_type m, take (Z.to_nat (msg_len m)) (msg_data m)).
Definition waiting s (p : Z) (q : list ipc_msg) : Prop := ∃ A, models s A ∧ a_in A !! p = Some q.

Definition sent_to (p : Z) (c : call) (r : Z) : list (Z * Z * list Z) :=
  match c with
  | Send q src type data len => if (q =? p) && (r =? IPC_OK) then [(src, type, take (Z.to_nat len) (default [] data))] else []
  | _ => []
  end.
Definition taken_from (p : Z) (c : call) (r : Z * option ipc_msg) : list (Z * Z * list Z) :=
  match c, r with
  | Recv q _, (code, Some m) => if (q =? p) && (code =? IPC_OK) then [view m] else []
  | _, _ => []
  end.

(** [deliveries p s0 sent got s]: a sequence of calls from [s0] to [s], of which
    none destroys [p], sent [sent] to the port and received [got] from it. *)
Inductive deliveries (p : Z) s0 : list (Z * Z * list Z) → list (Z * Z * list Z) → ipc → Prop :=
  | no_deliveries : deliveries p s0 [] [] s0
  | more_deliveries sent got s c r s' :
      deliveries p s0 sent got s → allowed s c → c ≠ Destroy p → run c s = Some (r, s') →
      deliveries p s0 (sent ++ sent_to p c r.1) (got ++ taken_from p c r) s'.

Lemma take_splice0 n (bs buf : list Z) : length bs = n → take n (splice 0 bs buf) = bs.
Proof. intros <-. unfold splice. rewrite take_0. cbn [app]. by rewrite take_app_length. Qed.

Lemma view_new id src type data len :
  0 ≤ len → len ≤ Z.of_nat (length (default [] data)) → view (new_msg id src type data len) = (src, type, take (Z.to_nat len) (default [] data)).
Proof.
  intros H1 H2. unfold view, new_msg. cbn [msg_src msg_type msg_len msg_data]. f_equal.
  apply take_splice0. rewrite length_take. lia.
Qed.

(** Stored messages are as long as they say. *)
Definition sound (m : ipc_msg) : Prop := 0 ≤ msg_len m ≤ Z.of_nat (length (msg_data m)).

Lemma view_received m o : sound m → view (received m o) = view m.
Proof.
  intros [H1 H2]. unfold view, received. cbn [msg_src msg_type msg_len msg_data]. f_equal.
  apply take_splice0. rewrite length_take. lia.
Qed.

(** One call, as the port [p] sees it. *)
Lemma port_step A c r A' p q :
  spec A c r A' → c ≠ Destroy p → a_in A !! p = Some q → Forall sound q → p ≠ 0 →
  match c with Send _ _ _ data len => 0 ≤ len ∧ (∀ d, data = Some d → len ≤ 256 → len ≤ Z.of_nat (length d)) | _ => True end →
  ∃ q', a_in A' !! p = Some q' ∧ Forall sound q' ∧ (view <$> q) ++ sent_to p c r.1 = taken_from p c r ++ (view <$> q').
Proof.
  intros Hs Hc Hq Hsound Hp Harg.
  assert (∀ A'', a_in A'' !! p = a_in A !! p → ∃ q', a_in A'' !! p = Some q' ∧ Forall sound q' ∧ (view <$> q) ++ [] = [] ++ (view <$> q')) as Hsame.
  { intros A'' E. exists q. by rewrite E, app_nil_r. }
  destruct c as [|p'|p' src type data len|p' out|p'|name p'|name|p'|name]; cbn [spec sent_to] in *.
  - destruct Hs as (_ & [[_ ->]|(_ & Hnew & ->)]); apply Hsame; [done|]. cbn. apply lookup_insert_ne. congruence.
  - destruct Hs as [-> ->]. apply Hsame. destruct (p' =? 0); [done|]. cbn. apply lookup_delete_ne. congruence.
  - destruct Hs as [_ Hs]. destruct (orb _ _) eqn:E0.
    { destruct Hs as [-> ->]. rewrite andb_false_r. by apply Hsame. }
    destruct (256 <? len) eqn:Hb; [destruct Hs as [-> ->]; rewrite andb_false_r; by apply Hsame|].
    destruct Hs as [[-> ->]|(-> & q' & Hq' & ->)]; [rewrite andb_false_r; by apply Hsame|].
    destruct (Z.eqb_spec p' p) as [->|Hne]; cbn [andb]; [|apply Hsame; cbn; by apply lookup_insert_ne].
    change (IPC_OK =? IPC_OK) with true. cbn iota. rewrite Hq in Hq'. inversion Hq'; subst q'. apply Z.ltb_ge in Hb.
    destruct Harg as [Hl Hd]. assert (len ≤ Z.of_nat (length (default [] data))) as Hlen.
    { destruct data as [d|]; [by apply Hd|]. apply orb_false_iff in E0 as [_ E0]. cbn in E0. apply negb_false_iff, Z.eqb_eq in E0. cbn. lia. }
    eexists. cbn [a_in with_id with_in]. rewrite lookup_insert_eq. split_and!; [done| |].
    + apply Forall_app. split; [done|]. apply Forall_cons. split; [|done]. unfold sound, new_msg. cbn [msg_len msg_data].
      rewrite length_splice; [rewrite length_replicate; lia|]. rewrite length_take, length_replicate. lia.
    + cbn. rewrite fmap_app. cbn. by rewrite view_new.
  - destruct out as [o|]; [|destruct Hs as [-> ->]; by apply Hsame].
    destruct (p' =? 0); [destruct Hs as [-> ->]; cbn; rewrite andb_false_r; by apply Hsame|].
    destruct Hs as (q' & Hq' & Hs). destruct q' as [|m q']; destruct Hs as [-> ->]; [cbn; rewrite andb_false_r; by apply Hsame|].
    cbn [taken_from]. change (IPC_OK =? IPC_OK) with true. rewrite andb_true_r.
    destruct (Z.eqb_spec p' p) as [->|Hne]; [|apply Hsame; cbn; by apply lookup_insert_ne].
    rewrite Hq in Hq'. inversion Hq'; subst q. apply Forall_cons in Hsound as [Hm Hsound]. exists q'.
    cbn [a_in with_in]. rewrite lookup_insert_eq. split_and!; [done|done|]. rewrite app_nil_r. cbn. f_equal.
    destruct (Z.ltb_spec 0 (msg_len m)) as [|Hz]; [by rewrite view_received|]. unfold sound in Hm.
    unfold view. cbn. by replace (msg_len m) with 0 by lia.
  - destruct Hs as [-> ->]. by apply Hsame.
  - destruct r as [code o]. destruct Hs as [_ Hs]. apply Hsame. destruct name as [n|]; [|by destruct Hs as [_ ->]].
    destruct (p' =? 0); [by destruct Hs as [_ ->]|]. destruct (find_name n (a_reg A)); [by destruct Hs as [_ ->]|].
    by destruct Hs as [[_ ->]|[_ ->]].
  - destruct Hs as [-> ->]. apply Hsame. by destruct name.
  - destruct Hs as [-> ->]. apply Hsame. by destruct (p' =? 0).
  - destruct Hs as [-> ->]. by apply Hsame.
Qed.

Lemma deliveries_wp p s0 q0 sent got s :
  waiting s0 p q0 → Forall sound q0 → p ≠ 0 → deliveries p s0 sent got s →
  ∃ q, waiting s p q ∧ Forall sound q ∧ (view <$> q0) ++ sent = got ++ (view <$> q).
Proof.
  intros H0 Hs0 Hp Hd. induction Hd as [|sent got s c r s' _ IH Hal Hc Hrun]; [exists q0; by rewrite app_nil_r|].
  destruct IH as (q & (A & HM & Hq) & Hs & E). pose proof (wp_elim _ _ _ _ _ (ipc_call_wp s A c HM Hal) Hrun) as (A' & Hspec & HM').
  destruct (port_step A c r A' p q Hspec Hc Hq Hs Hp) as (q' & Hq' & Hs' & E').
  { destruct c; try done. by destruct Hal as (_ & ? & ?). }
  exists q'. split_and!; [by exists A'|done|]. by rewrite app_assoc, E, <- !app_assoc, E'.
Qed.

(** C17: the module implements its specification: after [ipc_init] there is no
    port, no message and no service, and every call with live arguments returns
    and acts on the inboxes of the ports and on the registry as specified,
    whatever allocations fail, keeping all lists well linked. *)
Theorem ipc_refines :
  (∀ n o, 1 < n → wp ipc_init (λ _ s, models s (mk_abs ∅ [] 1)) (boot n o)) ∧
  (∀ s A c, models s A → allowed s c → wp (run c) (λ r s', ∃ A', spec A c r A' ∧ models s' A') s).
Proof. split; [apply init_wp|apply ipc_call_wp]. Qed.

(** Messages are delivered in order, once, unchanged: along any sequence of
    calls that does not destroy the port, what was waiting and what was sent to
    it is what was received from it followed by what waits. *)
Theorem ipc_fifo p s0 q0 sent got s :
  waiting s0 p q0 → Forall sound q0 → p ≠ 0 → deliveries p s0 sent got s →
  ∃ q, waiting s p q ∧ (view <$> q0) ++ sent = got ++ (view <$> q).
Proof. intros H1 H2 H3 H4. destruct (deliveries_wp _ _ _ _ _ _ H1 H2 H3 H4) as (q & ? & _ & ?). by exists q. Qed.

Lemma short_names s A : models s A → Forall (λ v, (length (svc_name v) < 32)%nat) (a_reg A).
Proof.
  intros (svcs & G & HR & _ & <- & _). apply Forall_forall. intros v Hv. unfold registry in Hv.
  apply list_elem_of_omap in Hv as (a & Ha & Hv). unfold svc_at in Hv. destruct (objs s !! a) as [[m|pt|v']|] eqn:E; inversion Hv; subst.
  by eapply (r_names _ _ _ _ _ HR).
Qed.

Lemma find_name_snoc n reg v : find_name n reg = None → find_name n (reg ++ [v]) = if decide (svc_name v = n) then Some v else None.
Proof.
  unfold find_name. rewrite filter_app. destruct (filter _ reg) as [|w l]; [|done]. intros _. cbn [app].
  destruct (decide (svc_name v = n)); [by rewrite filter_cons_True|by rewrite filter_cons_False].
Qed.

(** A service that was registered under a new name is found under it, unless
    the name has 32 characters or more: such a name is cut to 31, the whole name
    is not found, and registering it again is not refused for that name. *)
Theorem ipc_register_lookup s A p q name :
  models s A → p ≠ 0 → a_in A !! p = Some q →
  wp (ipc_register_service (Some name) p) (λ r s', r = IPC_OK →
    find_name name (a_reg A) = None ∧
    wp (ipc_lookup_service (Some name)) (λ r' _, r' = if bool_decide (length name < 32)%nat then p else 0) s') s.
Proof.
  intros HM Hp Hq. eapply wp_mono; [by eapply register_service_wp|]. cbn beta. intros r s' H Hr.
  destruct (find_name name (a_reg A)) eqn:Hf; [destruct H as [-> _]; discriminate|]. split; [done|].
  destruct H as [[-> _]|[_ HM']]; [discriminate|]. eapply wp_mono; [by eapply lookup_service_wp|]. cbn beta.
  intros r' s'' [-> ->]. cbn [a_reg with_reg]. rewrite (find_name_snoc name (a_reg A) _ Hf). cbn [svc_name].
  destruct (decide (length name < 32)%nat) as [Hl|Hl].
  - rewrite bool_decide_true by done. rewrite decide_True by (rewrite take_ge; [done|lia]). done.
  - rewrite bool_decide_false by done. rewrite decide_False; [done|]. intros E. apply Hl. rewrite <- E, length_take. lia.
Qed.

(** A started module with one port. *)
Definition ex_ipc : ipc := default (boot 2 []) (snd <$> (ipc_init;; ipc_port_create) (boot 2 [])).
Definition ex_abs : abs := mk_abs {[2 := []]} [] 1.

Lemma ex_models : models ex_ipc ex_abs.
Proof.
  assert (wp (ipc_init;; ipc_port_create) (λ r s, r = 2 → models s ex_abs) (boot 2 [])) as H.
  { ipc_step. eapply wp_mono; [by apply init_wp|]. cbn beta. intros _ s HM. eapply wp_mono; [by eapply endpoint_create_wp|]. cbn beta.
    intros r s' [[-> _]|(_ & _ & H)] Hr; [discriminate|]. subst r. exact H. }
  apply (wp_elim _ 2 ex_ipc _ _ H); [by vm_compute|done].
Qed.

Lemma ipc_refines_witness :
  wp (run (Send 2 7 3 (Some [10; 11]) 2)) (λ r s', ∃ A', spec ex_abs (Send 2 7 3 (Some [10; 11]) 2) r A' ∧ models s' A') ex_ipc.
Proof.
  apply (proj2 ipc_refines); [exact ex_models|]. split; [right; by eexists|]. split; [lia|]. intros d [= <-] _. cbn. lia.
Defined.

Definition ex_call (c : call) (s : ipc) : (Z * option ipc_msg) * ipc := default ((0, None), s) (run c s).
Definition ex_send (s : ipc) : ipc := snd (ex_call (Send 2 7 3 (Some [10; 11]) 2) s).

Lemma ipc_fifo_witness :
  ∃ q, waiting (snd (ex_call (Recv 2 (Some zero_msg)) (ex_send ex_ipc))) 2 q ∧ [(7, 3, [10; 11])] = [(7, 3, [10; 11])] ++ (view <$> q).
Proof.
  apply (ipc_fifo 2 ex_ipc []); [exists ex_abs; split; [exact ex_models|done]|done|done|].
  refine (more_deliveries 2 ex_ipc [(7, 3, [10; 11])] [] (ex_send ex_ipc) (Recv 2 (Some zero_msg)) (fst (ex_call (Recv 2 (Some zero_msg)) (ex_send ex_ipc))) _ _ _ _ _).
  - refine (more_deliveries 2 ex_ipc [] [] ex_ipc (Send 2 7 3 (Some [10; 11]) 2) (0, None) _ (no_deliveries _ _) _ _ _).
    + split; [right; by eexists|]. split; [lia|]. intros d [= <-] _. cbn. lia.
    + done.
    + by vm_compute.
  - right. eexists. by vm_compute.
  - done.
  - by vm_compute.
Defined.

Lemma ipc_register_lookup_witness :
  wp (ipc_register_service (Some (cstr "net")) 2) (λ r s', r = IPC_OK →
    find_name (cstr "net") (a_reg ex_abs) = None ∧ wp (ipc_lookup_service (Some (cstr "net"))) (λ r' _, r' = 2) s') ex_ipc.
Proof. exact (ipc_register_lookup ex_ipc ex_abs 2 [] (cstr "net") ex_models ltac:(done) eq_refl). Defined.
End Ipc.
