(* ===== verification/Signal.v ===== *)
(** * Signals of a thread

    [src/kernel/syscall/signal/queue.c], the bounded queue of realtime signals,
    and [signal.c], the pending set, the mask and delivery, with the signal sets
    of [include/kernel/signal/signal.h]. *)

From S2P Require Import Prelude Links.
Import Links.

Module Signal.

Definition SIG_MIN : Z := 1.
Definition SIGRTMIN : Z := 34.
Definition SIGRTMAX : Z := 64.
Definition SIG_MAX : Z := SIGRTMAX.
Definition SIG_IS_REALTIME (sig : Z) : bool := (SIGRTMIN <=? sig) && (sig <=? SIGRTMAX).

(** ** Signal sets: two words of 32 bits *)

Abbreviation sigset := (list Z).
Definition sigset_words : nat := 2.

Definition sigemptyset : sigset := replicate sigset_words 0.
Definition sigfillset : sigset := replicate sigset_words (not32 0).

Definition sig_idx (sig : Z) : nat := Z.to_nat ((sig - 1) / 32).
Definition sig_off (sig : Z) : Z := (sig - 1) mod 32.
Definition bad_sig (sig : Z) : bool := (sig <? SIG_MIN) || (SIG_MAX <? sig).

Definition sigaddset (set : sigset) (sig : Z) : sigset :=
  if bad_sig sig then set else
  alter (λ w, Z.lor w (Z.shiftl 1 (sig_off sig))) (sig_idx sig) set.
Definition sigdelset (set : sigset) (sig : Z) : sigset :=
  if bad_sig sig then set else
  alter (λ w, Z.land w (not32 (Z.shiftl 1 (sig_off sig)))) (sig_idx sig) set.
Definition sigismember (set : sigset) (sig : Z) : bool :=
  if bad_sig sig then false else
  match set !! sig_idx sig with
  | Some w => negb (Z.land w (Z.shiftl 1 (sig_off sig)) =? 0)
  | None => false
  end.

(** ** The realtime queue *)

Record siginfo := mk_info { si_signo : Z; si_errno : Z; si_code : Z; si_addr : Z; si_status : Z }.
Definition zero_info : siginfo := mk_info 0 0 0 0 0.

(** [rtq_entry_t] without its link *)
Record rtq_entry := mk_entry { e_sig : Z; e_info : siginfo }.
Definition zero_entry : rtq_entry := mk_entry 0 zero_info.

Definition RTQ_CAPACITY : Z := 64.

(** The links of the two heads and of the pool, the pool's payloads by the
    addresses of their links, and the count. *)
Record rtq := mk_rtq { q_links : links; pool : gmap Z rtq_entry; q_count : Z }.
Implicit Types (q : rtq).

Definition used_head : Z := 1.
Definition free_head : Z := 2.
Definition pool_addr (i : Z) : Z := 3 + i.

Definition set_links (l : links) q : rtq := mk_rtq l (pool q) (q_count q).
Definition set_pool (p : gmap Z rtq_entry) q : rtq := mk_rtq (q_links q) p (q_count q).
Definition set_count (n : Z) q : rtq := mk_rtq (q_links q) (pool q) n.
Definition on_links {A} (m : cmd links A) : cmd rtq A := czoom q_links set_links m.
Definition get_entry (a : Z) : cmd rtq rtq_entry := cread (λ q, pool q !! a).
Definition put_entry (a : Z) (e : rtq_entry) : cmd rtq unit :=
  get_entry a;; cmodify (λ q, set_pool (<[a := e]> (pool q)) q).

(** The loop of [rtq_init] from entry [i] on. *)
Fixpoint init_entries (n : nat) (i : Z) : cmd rtq unit :=
  match n with
  | O => mret tt
  | S n =>
      put_entry (pool_addr i) zero_entry;;
      on_links (LinkInit (pool_addr i));;
      on_links (LinkAfter free_head (pool_addr i));;
      init_entries n (i + 1)
  end.

(** A NULL queue is never passed by the rest of the module; [q] tells whether
    the pointer is not NULL. *)
Definition rtq_init (q : bool) : cmd rtq unit :=
  if negb q then mret tt else
  on_links (LinkInit used_head);;
  on_links (LinkInit free_head);;
  init_entries (Z.to_nat RTQ_CAPACITY) 0;;
  cmodify (set_count 0).

Definition rtq_is_empty (q : bool) : cmd rtq bool :=
  if negb q then mret true else on_links (ListIsEmpty used_head).
Definition rtq_is_full (q : bool) : cmd rtq bool :=
  if negb q then mret false else on_links (ListIsEmpty free_head).

Definition rtq_enqueue (q : bool) (sig : Z) (info : option siginfo) : cmd rtq Z :=
  if negb q then mret (- EINVAL) else
  if bad_sig sig then mret (- EINVAL) else
  full ← rtq_is_full q;
  if (full : bool) then mret ERR_BUSY else
  l ← on_links (get_link free_head);
  let free_node := l_next l in
  if (free_node =? 0) || (free_node =? free_head) then mret ERR_BUSY else
  on_links (LinkRemove free_node);;
  put_entry free_node (mk_entry sig (match info with Some i => i | None => mk_info sig 0 0 0 0 end));;
  on_links (LinkBefore used_head free_node);;
  cmodify (λ q, set_count (u32 (q_count q + 1)) q);;
  mret 0.

(** The code and, on success, the entry that the out parameters receive. *)
Definition rtq_dequeue (q : bool) : cmd rtq (Z * option rtq_entry) :=
  if negb q then mret (- EINVAL, None) else
  empty ← rtq_is_empty q;
  if (empty : bool) then mret (- ENOENT, None) else
  l ← on_links (get_link used_head);
  let node := l_next l in
  if (node =? 0) || (node =? used_head) then mret (- ENOENT, None) else
  on_links (LinkRemove node);;
  entry ← get_entry node;
  put_entry node zero_entry;;
  on_links (LinkAfter free_head node);;
  cmodify (λ q, if 0 <? q_count q then set_count (q_count q - 1) q else q);;
  mret (0, Some entry).

Definition rtq_peek (q : bool) : cmd rtq (Z * option rtq_entry) :=
  if negb q then mret (- EINVAL, None) else
  empty ← rtq_is_empty q;
  if (empty : bool) then mret (- ENOENT, None) else
  l ← on_links (get_link used_head);
  let node := l_next l in
  if (node =? 0) || (node =? used_head) then mret (- ENOENT, None) else
  entry ← get_entry node;
  mret (0, Some entry).

Definition rtq_count (q : bool) : cmd rtq Z :=
  if negb q then mret 0 else s ← cget; mret (q_count s).

(** ** The signal state of a thread *)

(** [thread_sigstate_t] *)
Record sigstate := mk_sigstate { mask : sigset; pending : sigset; rt_queue : rtq }.
Implicit Types (s : sigstate).

Definition set_mask (m : sigset) s : sigstate := mk_sigstate m (pending s) (rt_queue s).
Definition set_pending (p : sigset) s : sigstate := mk_sigstate (mask s) p (rt_queue s).
Definition set_rt_queue (q : rtq) s : sigstate := mk_sigstate (mask s) (pending s) q.
Definition on_queue {A} (m : cmd rtq A) : cmd sigstate A := czoom rt_queue set_rt_queue m.

Definition signal_thread_init (s : bool) : cmd sigstate unit :=
  if negb s then mret tt else
  cmodify (set_mask sigemptyset);;
  cmodify (set_pending sigemptyset);;
  on_queue (rtq_init true).

Definition signal_add (s : bool) (sig : Z) (info : option siginfo) : cmd sigstate Z :=
  if negb s then mret (- EINVAL) else
  if bad_sig sig then mret (- EINVAL) else
  if SIG_IS_REALTIME sig then on_queue (rtq_enqueue true sig info) else
  cmodify (λ s, set_pending (sigaddset (pending s) sig) s);;
  mret 0.

(** The scan of the ordinary signals from [sig] on. *)
Fixpoint fetch_pending (n : nat) (sig : Z) : cmd sigstate (Z * option rtq_entry) :=
  match n with
  | O => mret (- ENOENT, None)
  | S n =>
      s ← cget;
      if negb (sigismember (pending s) sig) then fetch_pending n (sig + 1) else
      if sigismember (mask s) sig then fetch_pending n (sig + 1) else
      cmodify (λ s, set_pending (sigdelset (pending s) sig) s);;
      mret (0, Some (mk_entry sig (mk_info sig 0 0 0 0)))
  end.

(** [out_sig] tells whether the pointer is not NULL; on success the signal and
    what [out_info] receives when it is not NULL. *)
Definition signal_fetch (s out_sig : bool) : cmd sigstate (Z * option rtq_entry) :=
  if negb s || negb out_sig then mret (- EINVAL, None) else
  empty ← on_queue (rtq_is_empty true);
  rt ← (if negb (empty : bool) then
          r ← on_queue (rtq_peek true);
          match r with
          | (0, Some e) =>
              s ← cget;
              if negb (sigismember (mask s) (e_sig e)) then
                r ← on_queue (rtq_dequeue true);
                mret (Some (0, snd r))
              else mret None
          | _ => mret None
          end
        else mret None);
  match rt with
  | Some r => mret r
  | None => fetch_pending (Z.to_nat (SIG_MAX - SIG_MIN + 1)) SIG_MIN
  end.

Definition signal_block (s : bool) (set : option sigset) : cmd sigstate Z :=
  match set with
  | Some set => if negb s then mret (- EINVAL) else
      cmodify (λ s, set_mask (zip_with Z.lor (mask s) set) s);; mret 0
  | None => mret (- EINVAL)
  end.

Definition signal_unblock (s : bool) (set : option sigset) : cmd sigstate Z :=
  match set with
  | Some set => if negb s then mret (- EINVAL) else
      cmodify (λ s, set_mask (zip_with (λ w v, Z.land w (not32 v)) (mask s) set) s);; mret 0
  | None => mret (- EINVAL)
  end.

Fixpoint scan_pending (n : nat) (sig : Z) : cmd sigstate bool :=
  match n with
  | O => mret false
  | S n =>
      s ← cget;
      if negb (sigismember (pending s) sig) then scan_pending n (sig + 1) else
      if sigismember (mask s) sig then scan_pending n (sig + 1) else mret true
  end.

Definition signal_has_pending_unmasked (s : bool) : cmd sigstate bool :=
  if negb s then mret false else
  empty ← on_queue (rtq_is_empty true);
  rt ← (if negb (empty : bool) then
          r ← on_queue (rtq_peek true);
          match r with
          | (0, Some e) => s ← cget; mret (negb (sigismember (mask s) (e_sig e)))
          | _ => mret false
          end
        else mret false);
  if (rt : bool) then mret true else
  scan_pending (Z.to_nat (SIG_MAX - SIG_MIN + 1)) SIG_MIN.

Definition signal_clear_all (s : bool) : cmd sigstate unit :=
  if negb s then mret tt else cmodify (set_pending sigemptyset).

(** ** Sets of signals *)

Definition set_ok (S : sigset) : Prop := length S = sigset_words ∧ Forall is_u32 S.

Lemma good_sig sig : bad_sig sig = false → 1 ≤ sig ≤ 64.
Proof. unfold bad_sig, SIG_MIN, SIG_MAX, SIGRTMAX. intros [H1%Z.ltb_ge H2%Z.ltb_ge]%orb_false_iff. lia. Qed.

Lemma sig_place sig : 1 ≤ sig ≤ 64 → (sig_idx sig < sigset_words)%nat ∧ 0 ≤ sig_off sig < 32 ∧ sig = 32 * Z.of_nat (sig_idx sig) + sig_off sig + 1.
Proof. unfold sig_idx, sig_off, sigset_words. intros H. assert (0 ≤ (sig - 1) / 32 < 2) by lia. rewrite Z2Nat.id by lia. split_and!; lia. Qed.

Lemma member_bit S sig : bad_sig sig = false → sigismember S sig = Z.testbit (default 0 (S !! sig_idx sig)) (sig_off sig).
Proof.
  intros Hb. pose proof (sig_place _ (good_sig _ Hb)) as (_ & Ho & _). unfold sigismember. rewrite Hb.
  destruct (S !! sig_idx sig) as [w|]; cbn; [|by rewrite Z.bits_0]. rewrite land_bit_eq0 by lia. by rewrite negb_involutive.
Qed.

Lemma set_word S sig : set_ok S → bad_sig sig = false → ∃ w, S !! sig_idx sig = Some w ∧ is_u32 w.
Proof.
  intros [Hl Hw] Hb. pose proof (sig_place _ (good_sig _ Hb)) as (Hi & _ & _).
  destruct (lookup_lt_is_Some_2 S (sig_idx sig)) as [w E]; [lia|]. exists w. split; [done|]. by eapply Forall_lookup_1.
Qed.

Lemma same_place a b : bad_sig a = false → bad_sig b = false → sig_idx a = sig_idx b → sig_off a = sig_off b → a = b.
Proof.
  intros Ha Hb H1 H2. pose proof (sig_place _ (good_sig _ Ha)) as (_ & _ & ->).
  pose proof (sig_place _ (good_sig _ Hb)) as (_ & _ & ->). congruence.
Qed.

Lemma shiftl_bit i j : 0 ≤ i → 0 ≤ j → Z.testbit (Z.shiftl 1 i) j = (j =? i).
Proof. intros Hi Hj. rewrite Z.shiftl_1_l, Z.pow2_bits_eqb by lia. apply Z.eqb_sym. Qed.

Lemma not32_bit w i : 0 ≤ i < 32 → Z.testbit (not32 w) i = negb (Z.testbit w i).
Proof. intros Hi. unfold not32, u32. rewrite Z.mod_pow2_bits_low by lia. by rewrite Z.lnot_spec by lia. Qed.

Lemma is_u32_mod w : is_u32 w ↔ w mod 2 ^ 32 = w.
Proof. unfold is_u32. split; [intros; by apply Z.mod_small|]. intros <-. apply Z.mod_pos_bound. lia. Qed.

Lemma is_u32_lor a b : is_u32 a → is_u32 b → is_u32 (Z.lor a b).
Proof.
  rewrite !is_u32_mod, <- !Z.land_ones by lia. intros Ha Hb. rewrite Z.land_lor_distr_l. by rewrite Ha, Hb.
Qed.

Lemma is_u32_land a b : is_u32 a → is_u32 (Z.land a b).
Proof.
  rewrite !is_u32_mod, <- !Z.land_ones by lia. intros Ha. rewrite <- Z.land_assoc, (Z.land_comm b), Z.land_assoc. by rewrite Ha.
Qed.

Lemma is_u32_shiftl i : 0 ≤ i < 32 → is_u32 (Z.shiftl 1 i).
Proof.
  intros Hi. unfold is_u32. rewrite Z.shiftl_1_l. split; [apply Z.pow_nonneg; lia|]. apply Z.pow_lt_mono_r; lia.
Qed.

(** Changing the word of one signal. *)
Lemma alter_member S a b f :
  set_ok S → bad_sig a = false → bad_sig b = false → (∀ w, is_u32 w → is_u32 (f w)) →
  set_ok (alter f (sig_idx a) S) ∧
  sigismember (alter f (sig_idx a) S) b =
    if (sig_idx b =? sig_idx a)%nat then Z.testbit (f (default 0 (S !! sig_idx a))) (sig_off b) else sigismember S b.
Proof.
  intros HS Ha Hb Hf. destruct (set_word S a HS Ha) as (w & Hw & Hwr). split.
  - destruct HS as [Hl HF]. split; [by rewrite length_alter|]. apply Forall_alter; [done|]. intros x _ Hx. by apply Hf.
  - rewrite !member_bit by done. destruct (Nat.eqb_spec (sig_idx b) (sig_idx a)) as [E|E].
    + rewrite E. rewrite list_lookup_alter_eq, Hw. done.
    + by rewrite list_lookup_alter_ne by done.
Qed.

Lemma sigaddset_spec S a :
  set_ok S → set_ok (sigaddset S a) ∧
  (∀ b, sigismember (sigaddset S a) b = sigismember S b || ((b =? a) && negb (bad_sig a))).
Proof.
  intros HS. unfold sigaddset. destruct (bad_sig a) eqn:Ha; [split; [done|]; intros b; by rewrite andb_false_r, orb_false_r|].
  pose proof (sig_place _ (good_sig _ Ha)) as (Hi & Ho & _).
  assert (∀ w, is_u32 w → is_u32 (Z.lor w (Z.shiftl 1 (sig_off a)))) as Hf by (intros; apply is_u32_lor, is_u32_shiftl; [done|lia]).
  split; [by apply (alter_member S a a)|]. intros b. rewrite andb_true_r. destruct (bad_sig b) eqn:Hb.
  { unfold sigismember. rewrite Hb. destruct (Z.eqb_spec b a) as [->|]; [congruence|done]. }
  destruct (alter_member S a b (λ w, Z.lor w (Z.shiftl 1 (sig_off a))) HS Ha Hb Hf) as [_ ->].
  pose proof (sig_place _ (good_sig _ Hb)) as (_ & Hob & _).
  destruct (Nat.eqb_spec (sig_idx b) (sig_idx a)) as [E|E].
  - rewrite Z.lor_spec, shiftl_bit, member_bit, E by (done || lia). f_equal.
    destruct (Z.eqb_spec (sig_off b) (sig_off a)), (Z.eqb_spec b a); subst; try done. by destruct n; apply same_place.
  - destruct (Z.eqb_spec b a); [congruence|]. by rewrite orb_false_r.
Qed.

Lemma sigdelset_spec S a :
  set_ok S → set_ok (sigdelset S a) ∧ (∀ b, sigismember (sigdelset S a) b = sigismember S b && negb (b =? a)).
Proof.
  intros HS. unfold sigdelset. destruct (bad_sig a) eqn:Ha.
  { split; [done|]. intros b. destruct (Z.eqb_spec b a) as [->|]; [|by rewrite andb_true_r]. unfold sigismember. by rewrite Ha. }
  pose proof (sig_place _ (good_sig _ Ha)) as (Hi & Ho & _).
  assert (∀ w, is_u32 w → is_u32 (Z.land w (not32 (Z.shiftl 1 (sig_off a))))) as Hf by (intros; by apply is_u32_land).
  split; [by apply (alter_member S a a)|]. intros b. destruct (bad_sig b) eqn:Hb; [unfold sigismember; by rewrite Hb|].
  destruct (alter_member S a b (λ w, Z.land w (not32 (Z.shiftl 1 (sig_off a)))) HS Ha Hb Hf) as [_ ->].
  pose proof (sig_place _ (good_sig _ Hb)) as (_ & Hob & _).
  destruct (Nat.eqb_spec (sig_idx b) (sig_idx a)) as [E|E].
  - rewrite Z.land_spec, not32_bit, shiftl_bit, member_bit, E by (done || lia). f_equal. f_equal.
    destruct (Z.eqb_spec (sig_off b) (sig_off a)), (Z.eqb_spec b a); subst; try done. by destruct n; apply same_place.
  - destruct (Z.eqb_spec b a); [congruence|]. by rewrite andb_true_r.
Qed.

Lemma sigempty_spec : set_ok sigemptyset ∧ (∀ b, sigismember sigemptyset b = false).
Proof.
  split; [by split; [|repeat constructor]|]. intros b. destruct (bad_sig b) eqn:Hb; [unfold sigismember; by rewrite Hb|].
  rewrite member_bit by done. unfold sigemptyset. pose proof (sig_place _ (good_sig _ Hb)) as (Hi & _ & _).
  rewrite lookup_replicate_2 by done. apply Z.bits_0.
Qed.

Lemma sigfill_spec : set_ok sigfillset ∧ (∀ b, sigismember sigfillset b = negb (bad_sig b)).
Proof.
  split; [by split; [|repeat constructor]|]. intros b. destruct (bad_sig b) eqn:Hb; [unfold sigismember; by rewrite Hb|].
  rewrite member_bit by done. unfold sigfillset. pose proof (sig_place _ (good_sig _ Hb)) as (Hi & Ho & _).
  rewrite lookup_replicate_2 by done. change (default 0 (Some (not32 0))) with (not32 0). rewrite not32_bit by lia. by rewrite Z.bits_0.
Qed.

(** Word by word combination of two sets. *)
Lemma zip_member f g S T :
  set_ok S → set_ok T → (∀ w v, is_u32 w → is_u32 v → is_u32 (f w v)) →
  (∀ w v i, 0 ≤ i < 32 → Z.testbit (f w v) i = g (Z.testbit w i) (Z.testbit v i)) →
  set_ok (zip_with f S T) ∧
  (∀ b, bad_sig b = false → sigismember (zip_with f S T) b = g (sigismember S b) (sigismember T b)).
Proof.
  intros HS HT Hf Hg. split.
  - destruct HS as [Hl HF], HT as [Hl' HF']. split; [rewrite length_zip_with; lia|].
    apply Forall_lookup_2. intros i x Hx. apply lookup_zip_with_Some in Hx as (w & v & -> & Hw & Hv).
    apply Hf; [by eapply (Forall_lookup_1 _ S)|by eapply (Forall_lookup_1 _ T)].
  - intros b Hb. destruct (set_word S b HS Hb) as (w & Hw & _), (set_word T b HT Hb) as (v & Hv & _).
    pose proof (sig_place _ (good_sig _ Hb)) as (_ & Ho & _). rewrite !member_bit by done.
    assert (zip_with f S T !! sig_idx b = Some (f w v)) as ->.
    { apply lookup_zip_with_Some. by exists w, v. }
    rewrite Hw, Hv. cbn. by apply Hg.
Qed.

(** ** The queue *)

Definition pool_addrs : list Z := pool_addr <$> seqZ 0 RTQ_CAPACITY.

(** [queued q es]: the entries [es] wait, oldest first, and every other entry of
    the pool is free. *)
Definition queued q (es : list rtq_entry) : Prop :=
  ∃ us fs, ring (q_links q) used_head us ∧ ring (q_links q) free_head fs ∧ us ++ fs ≡ₚ pool_addrs ∧
    Forall2 (λ a e, pool q !! a = Some e) us es ∧ (∀ a, a ∈ pool_addrs → is_Some (pool q !! a)) ∧
    q_count q = Z.of_nat (length us).

Lemma pool_addrs_spec a : a ∈ pool_addrs ↔ 3 ≤ a < 67.
Proof.
  unfold pool_addrs, pool_addr, RTQ_CAPACITY. rewrite list_elem_of_fmap. split.
  - intros (i & -> & Hi%elem_of_seqZ). lia.
  - intros H. exists (a - 3). rewrite elem_of_seqZ. lia.
Qed.

Lemma pool_addrs_nodup : NoDup pool_addrs.
Proof. by_eval. Qed.

Lemma length_pool_addrs : length pool_addrs = 64%nat.
Proof. done. Qed.

Lemma forall2_frame (p p' : gmap Z rtq_entry) us es :
  Forall2 (λ a e, p !! a = Some e) us es → (∀ a, a ∈ us → p' !! a = p !! a) → Forall2 (λ a e, p' !! a = Some e) us es.
Proof.
  intros H. induction H as [|a e us es Ha _ IH]; intros Hp; [constructor|]. constructor.
  - rewrite Hp; [done|left].
  - apply IH. intros b Hb. apply Hp. by right.
Qed.

(** A step through the accesses to the queue. *)
Ltac queue_step :=
  lazymatch goal with
  | |- wp (on_links _) _ _ => unfold on_links
  | |- wp (on_queue _) _ _ => unfold on_queue
  | _ => idtac
  end; wp_step.

Lemma get_entry_wp a e q Q : pool q !! a = Some e → Q e q → wp (get_entry a) Q q.
Proof. intros. by eapply wp_read. Qed.
Lemma put_entry_wp a e q Q : is_Some (pool q !! a) → Q tt (set_pool (<[a := e]> (pool q)) q) → wp (put_entry a e) Q q.
Proof. intros [e0 He] H. unfold put_entry. queue_step. eapply get_entry_wp; [exact He|]. by queue_step. Qed.

Lemma queue_empty_run q h xs : ring (q_links q) h xs → on_links (ListIsEmpty h) q = Some (bool_decide (xs = []), q).
Proof. intros Hr. unfold on_links, czoom. rewrite (ring_empty_run _ _ _ Hr). by destruct q. Qed.

(** Moving the first entry of one list to an end of the other. *)
Lemma heads_apart us fs a : us ++ fs ≡ₚ pool_addrs → a ∈ us ++ fs → a ≠ used_head ∧ a ≠ free_head ∧ a ≠ 0 ∧ a ∈ pool_addrs.
Proof. intros HP Ha. rewrite HP in Ha. split_and!; [..|done]; apply pool_addrs_spec in Ha; unfold used_head, free_head; lia. Qed.

Lemma split_nodup us fs : us ++ fs ≡ₚ pool_addrs → NoDup (us ++ fs).
Proof. intros ->. exact pool_addrs_nodup. Qed.

(** Unlinking the first entry of a ring, and linking a free entry into a ring,
    leave another ring alone. *)
Lemma unlink_wp lk h a xs k ys Q :
  ring lk h (a :: xs) → ring lk k ys → (∀ b, b ∈ h :: a :: xs → b ∉ k :: ys) →
  (∀ lk', ring lk' h xs → ring lk' k ys → is_Some (lk' !! a) → a ∉ h :: xs → Q tt lk') →
  wp (LinkRemove a) Q lk.
Proof.
  intros Hh Hk Hap HQ. eapply wp_mono; [by apply (ring_remove_at _ h [] a xs)|]. cbn beta. intros [] lk1 (Hh1 & Ha & Ho).
  apply HQ; [done| |by rewrite Ha|].
  - eapply ring_frame; [exact Hk|]. intros b Hb. apply Ho. intros Hb'. by apply (Hap b).
  - destruct Hh as [Hnd _]. apply NoDup_cons in Hnd as [H1 H2]. apply NoDup_cons in H2 as [H2 _]. set_solver.
Qed.

Lemma relink_wp lk h xs k ys a (front : bool) Q :
  ring lk h xs → ring lk k ys → is_Some (lk !! a) → (a ∉ h :: xs) → (a ∉ k :: ys) → (∀ b, b ∈ h :: xs → b ∉ k :: ys) →
  (∀ lk', ring lk' h xs → ring lk' k (if front then a :: ys else ys ++ [a]) → Q tt lk') →
  wp (if front then LinkAfter k a else LinkBefore k a) Q lk.
Proof.
  intros Hh Hk Ha Hah Hak Hap HQ.
  assert (∀ lk', only (a :: k :: ys) lk lk' → ring lk' h xs) as Hframe.
  { intros lk' Ho. eapply ring_frame; [exact Hh|]. intros b Hb. apply Ho. intros [->|Hin]%elem_of_cons; [done|]. by apply (Hap b). }
  destruct front; (eapply wp_mono; [(apply ring_after || apply ring_before); done|]); cbn beta; intros [] lk' [Hr Ho]; by apply HQ; [apply Hframe|].
Qed.

(** The two rings of the queue share no link. *)
Lemma rings_apart us fs a : us ++ fs ≡ₚ pool_addrs → a ∈ used_head :: us → a ∉ free_head :: fs.
Proof.
  intros HP Ha Hf. pose proof (split_nodup _ _ HP) as (_ & Hd & _)%NoDup_app.
  apply elem_of_cons in Ha as [->|Ha]; apply elem_of_cons in Hf as [E|Hf].
  - done.
  - by destruct (heads_apart us fs used_head HP ltac:(set_solver)) as (? & _).
  - by destruct (heads_apart us fs a HP ltac:(set_solver)) as (_ & ? & _).
  - by apply (Hd a).
Qed.

Lemma enqueue_wp q es sig info :
  queued q es → bad_sig sig = false →
  wp (rtq_enqueue true sig info) (λ r q',
    if (length es =? 64)%nat then r = ERR_BUSY ∧ q' = q
    else r = 0 ∧ queued q' (es ++ [mk_entry sig (default (mk_info sig 0 0 0 0) info)])) q.
Proof.
  intros (us & fs & Hu & Hf & HP & He & Hpool & Hc) Hsig. pose proof (rings_apart us fs) as Hap.
  pose proof (Permutation_length HP) as Hlen. rewrite length_app, length_pool_addrs in Hlen. pose proof (Forall2_length _ _ _ He) as Hle.
  unfold rtq_enqueue. cbn [negb]. rewrite Hsig. unfold rtq_is_full. cbn [negb]. queue_step. eapply wp_eq; [by eapply queue_empty_run|].
  destruct fs as [|a fs].
  { rewrite bool_decide_true by done. queue_step. rewrite (proj2 (Nat.eqb_eq _ _)); [done|]. cbn in Hlen. lia. }
  rewrite bool_decide_false by done. cbn [length] in Hlen. rewrite (proj2 (Nat.eqb_neq _ _)) by lia.
  destruct (ring_head_link _ _ _ Hf) as (l & Hl & Hln). cbn [hd] in Hln. queue_step. queue_step. eapply get_link_wp; [exact Hl|].
  rewrite Hln. cbn zeta. destruct (heads_apart us (a :: fs) a HP ltac:(set_solver)) as (Hau & Haf & Ha0 & Hapool).
  rewrite (proj2 (Z.eqb_neq a 0)), (proj2 (Z.eqb_neq a free_head)) by done. cbn [orb]. queue_step. queue_step.
  eapply (unlink_wp _ free_head a fs used_head us); [exact Hf|exact Hu|intros b Hb Hb'; by apply (Hap b HP)|].
  intros lk1 Hf1 Hu1 Ha1 Hnf. queue_step. apply put_entry_wp; [by apply Hpool|]. queue_step. queue_step.
  assert (a ∉ used_head :: us) as Hnu by (intros Hin; by apply (Hap a HP Hin); right; left).
  apply (relink_wp _ free_head fs used_head us a false); [done|done|done|done|done|intros b Hb Hb'; apply (Hap b HP Hb'); set_solver|].
  intros lk2 Hf2 Hu2. queue_step. queue_step. queue_step. split; [done|].
  exists (us ++ [a]), fs. cbn [q_links set_count set_links set_pool pool q_count]. split_and!; [exact Hu2|exact Hf2| | | |].
  - rewrite <- app_assoc. exact HP.
  - apply Forall2_app; [|constructor; [rewrite lookup_insert_eq; by destruct info|constructor]].
    eapply forall2_frame; [exact He|]. intros b Hb. rewrite lookup_insert_ne; [done|]. intros ->. set_solver.
  - intros b Hb. destruct (decide (b = a)) as [->|]; [by rewrite lookup_insert_eq|rewrite lookup_insert_ne by done]. by apply Hpool.
  - rewrite Hc, length_app. cbn. rewrite u32_small by lia. lia.
Qed.

Lemma front_wp q e es :
  queued q (e :: es) → ∃ us fs a l, ring (q_links q) used_head (a :: us) ∧ ring (q_links q) free_head fs ∧ (a :: us) ++ fs ≡ₚ pool_addrs ∧
    Forall2 (λ a e, pool q !! a = Some e) us es ∧ (∀ a, a ∈ pool_addrs → is_Some (pool q !! a)) ∧ q_count q = Z.of_nat (S (length us)) ∧
    pool q !! a = Some e ∧ q_links q !! used_head = Some l ∧ l_next l = a ∧ a ≠ 0 ∧ a ≠ used_head ∧ a ∈ pool_addrs.
Proof.
  intros (us & fs & Hu & Hf & HP & He & Hpool & Hc). inversion He as [|a e' us' es' Ha He' E1 E2]; subst.
  destruct (ring_head_link _ _ _ Hu) as (l & Hl & Hln). destruct (heads_apart (a :: us') fs a HP ltac:(set_solver)) as (? & _ & ? & ?).
  by exists us', fs, a, l.
Qed.

Lemma empty_queue_run q es : queued q es → rtq_is_empty true q = Some (bool_decide (es = []), q).
Proof.
  intros (us & fs & Hu & _ & _ & He & _). unfold rtq_is_empty. cbn [negb]. rewrite (queue_empty_run _ _ _ Hu).
  by destruct He.
Qed.

Lemma peek_wp q es :
  queued q es →
  wp (rtq_peek true) (λ r q', q' = q ∧ r = match es with [] => (- ENOENT, None) | e :: _ => (0, Some e) end) q.
Proof.
  intros Hq. unfold rtq_peek. cbn [negb]. queue_step. eapply wp_eq; [by apply empty_queue_run|].
  destruct es as [|e es]; [rewrite bool_decide_true by done; by queue_step|]. rewrite bool_decide_false by done.
  destruct (front_wp _ _ _ Hq) as (us & fs & a & l & _ & _ & _ & _ & _ & _ & Ha & Hl & Hln & Ha0 & Hau & _).
  queue_step. queue_step. eapply get_link_wp; [exact Hl|]. rewrite Hln. cbn zeta.
  rewrite (proj2 (Z.eqb_neq a 0)), (proj2 (Z.eqb_neq a used_head)) by done. cbn [orb].
  assert (set_links (q_links q) q = q) as -> by (by destruct q).
  queue_step. eapply get_entry_wp; [exact Ha|]. by queue_step.
Qed.

Lemma dequeue_wp q es :
  queued q es →
  wp (rtq_dequeue true) (λ r q',
    match es with
    | [] => r = (- ENOENT, None) ∧ q' = q
    | e :: es => r = (0, Some e) ∧ queued q' es
    end) q.
Proof.
  intros Hq. unfold rtq_dequeue. cbn [negb]. queue_step. eapply wp_eq; [by apply empty_queue_run|].
  destruct es as [|e es]; [rewrite bool_decide_true by done; by queue_step|]. rewrite bool_decide_false by done.
  destruct (front_wp _ _ _ Hq) as (us & fs & a & l & Hu & Hf & HP & He & Hpool & Hc & Ha & Hl & Hln & Ha0 & Hau & Hap).
  queue_step. queue_step. eapply get_link_wp; [exact Hl|]. rewrite Hln. cbn zeta.
  rewrite (proj2 (Z.eqb_neq a 0)), (proj2 (Z.eqb_neq a used_head)) by done. cbn [orb]. queue_step. queue_step.
  eapply (unlink_wp _ used_head a us free_head fs); [exact Hu|exact Hf|intros b Hb; by apply (rings_apart (a :: us))|].
  intros lk1 Hu1 Hf1 Ha1 Hnu. queue_step. eapply get_entry_wp; [exact Ha|]. queue_step. apply put_entry_wp; [by eexists|].
  assert (a ∉ free_head :: fs) as Hnf by (apply (rings_apart (a :: us)); [done|right; left]).
  queue_step. queue_step.
  apply (relink_wp _ used_head us free_head fs a true); [done|done|done|done|done|intros b Hb; apply (rings_apart (a :: us)); [done|set_solver]|].
  intros lk2 Hu2 Hf2. queue_step. queue_step. queue_step. split; [done|].
  cbn [q_count set_links set_pool]. rewrite Hc. rewrite (proj2 (Z.ltb_lt _ _)) by lia.
  exists us, (a :: fs). cbn [q_links set_count set_links set_pool pool q_count]. split_and!; [exact Hu2|exact Hf2| | | |lia].
  - rewrite <- HP. cbn. by rewrite Permutation_middle.
  - eapply forall2_frame; [exact He|]. intros b Hb. rewrite lookup_insert_ne; [done|]. intros ->. set_solver.
  - intros b Hb. destruct (decide (b = a)) as [->|]; [by rewrite lookup_insert_eq|rewrite lookup_insert_ne by done]. by apply Hpool.
Qed.

(** Initialisation: the links and the entries are there, with any contents. *)
Definition raw q : Prop :=
  (∀ a, 1 ≤ a < 67 → is_Some (q_links q !! a)) ∧ (∀ a, a ∈ pool_addrs → is_Some (pool q !! a)).

Lemma init_entries_wp n i q fs :
  0 ≤ i → Z.of_nat n + i = 64 → ring (q_links q) used_head [] → ring (q_links q) free_head fs →
  (∀ a, a ∈ fs ↔ 3 ≤ a < 3 + i) → raw q →
  wp (init_entries n i) (λ _ q', ∃ fs', ring (q_links q') used_head [] ∧ ring (q_links q') free_head fs' ∧
    (∀ a, a ∈ fs' ↔ 3 ≤ a < 67) ∧ raw q') q.
Proof.
  revert i q fs. induction n as [|n IH]; intros i q fs Hi Hn Hu Hf Hfs [Hl Hp]; cbn [init_entries].
  { queue_step. exists fs. split_and!; [done|done| |done]. intros a. rewrite Hfs. lia. }
  assert (pool_addr i ∈ pool_addrs) as Hin by (apply pool_addrs_spec; unfold pool_addr; lia).
  queue_step. apply put_entry_wp; [by apply Hp|]. queue_step. queue_step.
  eapply wp_mono; [apply ring_init_wp, Hl; unfold pool_addr; lia|]. cbn beta. intros _ lk1 [Hr1 Ho1].
  cbn [q_links set_links set_pool] in *.
  assert (∀ h xs, ring (q_links q) h xs → pool_addr i ∉ h :: xs → ring lk1 h xs) as Hkeep.
  { intros h xs Hr Hni. eapply ring_frame; [exact Hr|]. intros a Ha. apply Ho1. intros ->%list_elem_of_singleton. done. }
  assert (pool_addr i ∉ free_head :: fs) as Hnf.
  { rewrite elem_of_cons, Hfs. unfold pool_addr, free_head. lia. }
  queue_step. queue_step. cbn [q_links set_links].
  eapply wp_mono; [apply (ring_after lk1 free_head fs (pool_addr i)); [by apply Hkeep|done|]|].
  { apply (ring_live lk1 (pool_addr i) [] _ Hr1). left. }
  cbn beta. intros _ lk2 [Hr2 Ho2].
  eapply (IH (i + 1)); [lia|lia| |exact Hr2| |].
  - eapply (ring_frame lk1); [apply Hkeep; [done|]|].
    + intros E%list_elem_of_singleton. unfold pool_addr, used_head in E. lia.
    + intros a ->%list_elem_of_singleton. apply Ho2. rewrite !elem_of_cons, Hfs. unfold pool_addr, used_head, free_head. lia.
  - intros a. rewrite elem_of_cons, Hfs. unfold pool_addr. lia.
  - split.
    + intros a Ha. cbn. apply (only_live _ _ _ Ho2), (only_live _ _ _ Ho1), Hl, Ha.
    + intros a Ha. cbn. destruct (decide (a = pool_addr i)) as [->|]; [by rewrite lookup_insert_eq|rewrite lookup_insert_ne by done]. by apply Hp.
Qed.

Lemma rtq_init_wp q : raw q → wp (rtq_init true) (λ _ q', queued q' []) q.
Proof.
  intros [Hl Hp]. unfold rtq_init. cbn [negb]. queue_step. queue_step.
  eapply wp_mono; [apply ring_init_wp, Hl; unfold used_head; lia|]. cbn beta. intros _ lk1 [Hr1 Ho1]. queue_step. queue_step.
  cbn [q_links set_links]. eapply wp_mono; [apply ring_init_wp, (only_live _ _ _ Ho1), Hl; unfold free_head; lia|].
  cbn beta. intros _ lk2 [Hr2 Ho2]. queue_step. eapply wp_mono; [apply (init_entries_wp _ 0 _ []); [done|done| |exact Hr2| |]|].
  - eapply ring_frame; [exact Hr1|]. intros a ->%list_elem_of_singleton. apply Ho2. intros E%list_elem_of_singleton. discriminate.
  - intros a. rewrite elem_of_nil. lia.
  - split; [|exact Hp]. intros a Ha. cbn. by apply (only_live _ _ _ Ho2), (only_live _ _ _ Ho1), Hl.
  - cbn beta. intros _ q' (fs & Hu & Hf & Hfs & _ & Hp'). queue_step. exists [], fs.
    split_and!; [exact Hu|exact Hf| |constructor|exact Hp'|done]. cbn [app].
    apply NoDup_Permutation; [by destruct Hf as [[_ ?]%NoDup_cons _]|exact pool_addrs_nodup|].
    intros a. by rewrite Hfs, pool_addrs_spec.
Qed.

(** ** Delivery *)

(** The mask, the pending set and the waiting realtime signals of a thread. *)
Definition sig_rep s (es : list rtq_entry) : Prop :=
  set_ok (mask s) ∧ set_ok (pending s) ∧ queued (rt_queue s) es.

(** A signal that is pending and not blocked, and the realtime signal that may
    be delivered: only the oldest one is looked at. *)
Definition ready s (sig : Z) : Prop := sigismember (pending s) sig = true ∧ sigismember (mask s) sig = false.
Definition rt_ready s (es : list rtq_entry) : option rtq_entry :=
  match es with e :: _ => if sigismember (mask s) (e_sig e) then None else Some e | [] => None end.

Lemma on_queue_wp {A} (m : cmd rtq A) s Q : wp m (λ a q, Q a (set_rt_queue q s)) (rt_queue s) → wp (on_queue m) Q s.
Proof. intros H. by apply wp_zoom. Qed.

Lemma same_queue s : set_rt_queue (rt_queue s) s = s.
Proof. by destruct s. Qed.

Lemma fetch_pending_wp n sig s :
  1 ≤ sig → Z.of_nat n + sig = 65 →
  wp (fetch_pending n sig) (λ r s',
    (∃ g, sig ≤ g ≤ 64 ∧ ready s g ∧ (∀ h, sig ≤ h < g → ¬ ready s h) ∧
       r = (0, Some (mk_entry g (mk_info g 0 0 0 0))) ∧ s' = set_pending (sigdelset (pending s) g) s) ∨
    ((∀ g, sig ≤ g ≤ 64 → ¬ ready s g) ∧ r = (- ENOENT, None) ∧ s' = s)) s.
Proof.
  revert sig. induction n as [|n IH]; intros sig Hs Hn; cbn [fetch_pending].
  { wp_step. right. split; [intros g Hg; lia|done]. }
  wp_step. wp_step.
  assert (¬ ready s sig → wp (fetch_pending n (sig + 1)) (λ r s',
    (∃ g, sig ≤ g ≤ 64 ∧ ready s g ∧ (∀ h, sig ≤ h < g → ¬ ready s h) ∧
       r = (0, Some (mk_entry g (mk_info g 0 0 0 0))) ∧ s' = set_pending (sigdelset (pending s) g) s) ∨
    ((∀ g, sig ≤ g ≤ 64 → ¬ ready s g) ∧ r = (- ENOENT, None) ∧ s' = s)) s) as Hnext.
  { intros Hr. eapply wp_mono; [apply (IH (sig + 1)); lia|]. cbn beta. intros r s' [(g & Hg & Hrg & Hlow & H)|(Hno & H)].
    - left. exists g. split_and!; [lia|lia|done| |by destruct H|by destruct H]. intros h Hh. destruct (decide (h = sig)) as [->|]; [done|]. apply Hlow. lia.
    - right. split; [|done]. intros g Hg. destruct (decide (g = sig)) as [->|]; [done|]. apply Hno. lia. }
  destruct (sigismember (pending s) sig) eqn:Ep; cbn [negb]; [|apply Hnext; intros [? _]; congruence].
  destruct (sigismember (mask s) sig) eqn:Em; [apply Hnext; intros [_ ?]; congruence|].
  wp_step. wp_step. wp_step. left. exists sig. split_and!; [lia|lia|by split|intros h Hh; lia|done|done].
Qed.

Lemma scan_pending_wp n sig s :
  1 ≤ sig → Z.of_nat n + sig = 65 →
  wp (scan_pending n sig) (λ r s', s' = s ∧ (r = true ↔ ∃ g, sig ≤ g ≤ 64 ∧ ready s g)) s.
Proof.
  revert sig. induction n as [|n IH]; intros sig Hs Hn; cbn [scan_pending].
  { wp_step. split; [done|]. split; [done|]. intros (g & Hg & _). lia. }
  wp_step. wp_step.
  assert (¬ ready s sig → wp (scan_pending n (sig + 1)) (λ r s', s' = s ∧ (r = true ↔ ∃ g, sig ≤ g ≤ 64 ∧ ready s g)) s) as Hnext.
  { intros Hr. eapply wp_mono; [apply (IH (sig + 1)); lia|]. cbn beta. intros r s' [-> ->]. split; [done|].
    split; intros (g & Hg & Hrg); exists g; (split; [|done]); [lia|]. destruct (decide (g = sig)) as [->|]; [done|lia]. }
  destruct (sigismember (pending s) sig) eqn:Ep; cbn [negb]; [|apply Hnext; intros [? _]; congruence].
  destruct (sigismember (mask s) sig) eqn:Em; [apply Hnext; intros [_ ?]; congruence|].
  wp_step. split; [done|]. split; [|done]. intros _. exists sig. split; [lia|by split].
Qed.

(** Looking at the realtime queue. *)
Lemma peek_on_queue s es :
  sig_rep s es →
  on_queue (rtq_is_empty true) s = Some (bool_decide (es = []), s) ∧
  (∀ e es', es = e :: es' → on_queue (rtq_peek true) s = Some ((0, Some e), s)).
Proof.
  intros (_ & _ & Hq). split.
  - unfold on_queue, czoom. rewrite (empty_queue_run _ _ Hq). by rewrite same_queue.
  - intros e es' ->. unfold on_queue, czoom. pose proof (peek_wp _ _ Hq) as H. unfold wp in H.
    destruct (rtq_peek true (rt_queue s)) as [[r q']|]; [|done]. destruct H as [-> ->]. by rewrite same_queue.
Qed.

Lemma fetch_wp s es :
  sig_rep s es →
  wp (signal_fetch true true) (λ r s',
    match rt_ready s es with
    | Some e => r = (0, Some e) ∧ sig_rep s' (tail es) ∧ mask s' = mask s ∧ pending s' = pending s
    | None =>
        (∃ g, 1 ≤ g ≤ 64 ∧ ready s g ∧ (∀ h, 1 ≤ h < g → ¬ ready s h) ∧
           r = (0, Some (mk_entry g (mk_info g 0 0 0 0))) ∧ s' = set_pending (sigdelset (pending s) g) s ∧ sig_rep s' es) ∨
        ((∀ g, 1 ≤ g ≤ 64 → ¬ ready s g) ∧ r = (- ENOENT, None) ∧ s' = s)
    end) s.
Proof.
  intros Hrep. pose proof Hrep as (Hm & Hp & Hq). destruct (peek_on_queue _ _ Hrep) as [He Hpk].
  assert (rt_ready s es = None → wp (fetch_pending (Z.to_nat (SIG_MAX - SIG_MIN + 1)) SIG_MIN) (λ r s',
        (∃ g, 1 ≤ g ≤ 64 ∧ ready s g ∧ (∀ h, 1 ≤ h < g → ¬ ready s h) ∧
           r = (0, Some (mk_entry g (mk_info g 0 0 0 0))) ∧ s' = set_pending (sigdelset (pending s) g) s ∧ sig_rep s' es) ∨
        ((∀ g, 1 ≤ g ≤ 64 → ¬ ready s g) ∧ r = (- ENOENT, None) ∧ s' = s)) s) as Hscan.
  { intros _. eapply wp_mono; [by apply fetch_pending_wp|]. cbn beta. intros r s' [(g & Hg & Hr & Hlow & -> & ->)|H]; [left|by right].
    unfold SIG_MIN in *. exists g. split_and!; try done; [lia..|]. split_and!; [done|by apply sigdelset_spec|done]. }
  unfold signal_fetch. cbn [negb orb]. wp_step. eapply wp_eq; [exact He|]. destruct es as [|e es].
  { rewrite bool_decide_true by done. cbn [negb]. wp_step. wp_step. by apply Hscan. }
  rewrite bool_decide_false by done. cbn [negb rt_ready] in *. apply wp_bind, wp_bind. eapply wp_eq; [by eapply Hpk|].
  cbn beta iota. wp_step. wp_step. destruct (sigismember (mask s) (e_sig e)) eqn:E; cbn [negb].
  { wp_step. by apply Hscan. }
  wp_step. apply on_queue_wp. eapply wp_mono; [by apply (dequeue_wp _ (e :: es))|]. cbn beta. intros r q' [-> Hq'].
  wp_step. wp_step. by split_and!.
Qed.

Lemma has_pending_wp s es :
  sig_rep s es →
  wp (signal_has_pending_unmasked true) (λ r s', s' = s ∧ (r = true ↔ is_Some (rt_ready s es) ∨ ∃ g, 1 ≤ g ≤ 64 ∧ ready s g)) s.
Proof.
  intros Hrep. destruct (peek_on_queue _ _ Hrep) as [He Hpk].
  assert (∀ rt, (rt = true ↔ is_Some (rt_ready s es)) →
    wp (if (rt : bool) then mret true else scan_pending (Z.to_nat (SIG_MAX - SIG_MIN + 1)) SIG_MIN)
      (λ r s', s' = s ∧ (r = true ↔ is_Some (rt_ready s es) ∨ ∃ g, 1 ≤ g ≤ 64 ∧ ready s g)) s) as Hscan.
  { intros rt Hrt. destruct rt; [wp_step; split; [done|]; split; [intros _; left; by apply Hrt|done]|]. eapply wp_mono; [by apply scan_pending_wp|]. cbn beta.
    intros r s' [-> Hr]. split; [done|]. rewrite Hr, <- Hrt. unfold SIG_MIN. split; [by right|]. by intros [?|?]. }
  unfold signal_has_pending_unmasked. cbn [negb]. wp_step. eapply wp_eq; [exact He|]. destruct es as [|e es].
  { rewrite bool_decide_true by done. cbn [negb]. wp_step. wp_step. apply (Hscan false). cbn. split; [done|by intros [? ?]]. }
  rewrite bool_decide_false by done. cbn [negb rt_ready] in *. apply wp_bind, wp_bind. eapply wp_eq; [by eapply Hpk|].
  cbn beta iota. wp_step. wp_step. wp_step. apply (Hscan (negb (sigismember (mask s) (e_sig e)))). clear.
  destruct (sigismember (mask s) (e_sig e)); cbn; (split; [done|]); [by intros [? ?]|done].
Qed.

Lemma add_wp s es sig info :
  sig_rep s es → bad_sig sig = false →
  wp (signal_add true sig info) (λ r s',
    if SIG_IS_REALTIME sig
    then (if (length es =? 64)%nat then r = ERR_BUSY ∧ s' = s
          else r = 0 ∧ mask s' = mask s ∧ pending s' = pending s ∧ sig_rep s' (es ++ [mk_entry sig (default (mk_info sig 0 0 0 0) info)]))
    else r = 0 ∧ s' = set_pending (sigaddset (pending s) sig) s ∧ sig_rep s' es) s.
Proof.
  intros (Hm & Hp & Hq) Hs. unfold signal_add. cbn [negb]. rewrite Hs. destruct (SIG_IS_REALTIME sig).
  - apply on_queue_wp. eapply wp_mono; [by apply (enqueue_wp _ es sig info)|]. cbn beta. intros r q'.
    destruct (length es =? 64)%nat; [intros [-> ->]; by rewrite same_queue|]. intros [-> Hq']. by split_and!.
  - wp_step. wp_step. wp_step. split_and!; [done|done|]. by split_and!; [|apply sigaddset_spec|].
Qed.

(** Fetching until nothing can be delivered: the signals in order. *)
Fixpoint fetch_all (fuel : nat) : cmd sigstate (list Z) :=
  match fuel with
  | O => cundef
  | S fuel =>
      r ← signal_fetch true true;
      match r with
      | (0, Some e) => l ← fetch_all fuel; mret (e_sig e :: l)
      | _ => mret []
      end
  end.

Definition pending_list s : list Z := filter (λ g, sigismember (pending s) g = true) (seqZ 1 64).

Lemma filter_none {B} (P : B → Prop) `{∀ x, Decision (P x)} (l : list B) : (∀ x, x ∈ l → ¬ P x) → filter P l = [].
Proof.
  induction l as [|x l IH]; intros HP; [done|]. rewrite filter_cons_False by (apply HP; left). apply IH. intros y Hy. apply HP. by right.
Qed.

Lemma filter_same {B} (P R : B → Prop) `{∀ x, Decision (P x)} `{∀ x, Decision (R x)} (l : list B) :
  (∀ x, x ∈ l → P x ↔ R x) → filter P l = filter R l.
Proof.
  induction l as [|x l IH]; intros HP; [done|]. rewrite !filter_cons. rewrite IH by (intros y Hy; apply HP; by right).
  pose proof (HP x ltac:(left)). destruct (decide (P x)), (decide (R x)); tauto.
Qed.

Lemma seqZ_split g : 1 ≤ g ≤ 64 → seqZ 1 64 = seqZ 1 (g - 1) ++ g :: seqZ (g + 1) (64 - g).
Proof.
  intros Hg. replace 64 with ((g - 1) + (65 - g)) at 1 by lia. rewrite seqZ_app by lia. f_equal.
  rewrite seqZ_cons by lia. f_equal; [lia|]. f_equal; lia.
Qed.

Lemma pending_list_least s g :
  set_ok (pending s) → 1 ≤ g ≤ 64 → sigismember (pending s) g = true → (∀ h, 1 ≤ h < g → sigismember (pending s) h ≠ true) →
  pending_list s = g :: pending_list (set_pending (sigdelset (pending s) g) s).
Proof.
  intros Hok Hg Hm Hlow. destruct (sigdelset_spec _ g Hok) as [_ Hdel]. unfold pending_list. cbn [pending set_pending].
  rewrite (seqZ_split g Hg), !filter_app.
  rewrite filter_none by (intros h Hh%elem_of_seqZ; apply Hlow; lia).
  rewrite (filter_none _ (seqZ 1 (g - 1))) by (intros h Hh%elem_of_seqZ; rewrite Hdel; intros [Hh' _]%andb_prop; apply (Hlow h); [lia|done]).
  cbn [app]. rewrite filter_cons_True by done. rewrite filter_cons_False by (rewrite Hdel, Z.eqb_refl, andb_false_r; done). f_equal.
  apply filter_same. intros h Hh%elem_of_seqZ. rewrite Hdel, (proj2 (Z.eqb_neq h g)) by lia. by rewrite andb_true_r.
Qed.

(** With nothing blocked everything is delivered. *)
Lemma fetch_all_wp fuel s es :
  sig_rep s es → (∀ g, sigismember (mask s) g = false) → (length es + length (pending_list s) < fuel)%nat →
  wp (fetch_all fuel) (λ l s', l = (e_sig <$> es) ++ pending_list s ∧ sig_rep s' [] ∧ mask s' = mask s ∧ pending_list s' = []) s.
Proof.
  revert s es. induction fuel as [|fuel IH]; intros s es Hrep Hmask Hf; [lia|]. cbn [fetch_all]. wp_step.
  eapply wp_mono; [by apply fetch_wp|]. cbn beta. intros r s' H. destruct es as [|e es]; cbn [rt_ready] in H.
  - destruct H as [(g & Hg & [Hpg _] & Hlow & -> & -> & Hrep')|(Hno & -> & ->)].
    + assert (pending_list s = g :: pending_list (set_pending (sigdelset (pending s) g) s)) as E.
      { apply pending_list_least; [apply Hrep|done|done|]. intros h Hh Hph. apply (Hlow h Hh). by split. }
      wp_step. eapply wp_mono; [apply (IH _ [] Hrep'); [done|rewrite E in Hf; cbn in *; lia]|]. cbn beta.
      intros l s'' (-> & H1 & H2 & H3). wp_step. by rewrite E.
    + assert (pending_list s = []) as E.
      { apply filter_none. intros g Hg%elem_of_seqZ Hpg. apply (Hno g); [lia|]. by split. }
      change (- ENOENT) with 40. cbn iota. wp_step. by rewrite E.
  - rewrite Hmask in H. destruct H as (-> & Hrep' & Hm' & Hp'). cbn [tail] in Hrep'.
    assert (pending_list s' = pending_list s) as E by (unfold pending_list; by rewrite Hp').
    wp_step. eapply wp_mono; [apply (IH s' es Hrep'); [by rewrite Hm'|rewrite E; cbn in Hf; lia]|]. cbn beta.
    intros l s'' (-> & H1 & H2 & H3). wp_step. by rewrite E, H2, Hm'.
Qed.

(** Signal sets are sets of the signals 1 to 64: the empty and the full set,
    adding and deleting a signal, and blocking and unblocking a set of signals
    have exactly the members they should; a number outside the range is ignored. *)
Theorem signal_sets_correct S T a :
  set_ok S → set_ok T →
  (∀ b, sigismember sigemptyset b = false ∧ sigismember sigfillset b = negb (bad_sig b)) ∧
  (set_ok (sigaddset S a) ∧ ∀ b, sigismember (sigaddset S a) b = sigismember S b || ((b =? a) && negb (bad_sig a))) ∧
  (set_ok (sigdelset S a) ∧ ∀ b, sigismember (sigdelset S a) b = sigismember S b && negb (b =? a)) ∧
  (∀ s, mask s = S →
    wp (signal_block true (Some T)) (λ r s', r = 0 ∧ set_ok (mask s') ∧ pending s' = pending s ∧ rt_queue s' = rt_queue s ∧
       ∀ b, bad_sig b = false → sigismember (mask s') b = sigismember S b || sigismember T b) s ∧
    wp (signal_unblock true (Some T)) (λ r s', r = 0 ∧ set_ok (mask s') ∧ pending s' = pending s ∧ rt_queue s' = rt_queue s ∧
       ∀ b, bad_sig b = false → sigismember (mask s') b = sigismember S b && negb (sigismember T b)) s).
Proof.
  intros HS HT. split_and!.
  - intros b. by split; [apply sigempty_spec|apply sigfill_spec].
  - by apply sigaddset_spec.
  - by apply sigaddset_spec.
  - by apply sigdelset_spec.
  - by apply sigdelset_spec.
  - intros s Hm. split; unfold signal_block, signal_unblock; cbn [negb]; wp_step; wp_step; wp_step; rewrite Hm; cbn [mask set_mask pending rt_queue].
    + destruct (zip_member Z.lor orb S T HS HT) as [H1 H2]; [intros; by apply is_u32_lor|intros; apply Z.lor_spec|by split_and!].
    + destruct (zip_member (λ w v, Z.land w (not32 v)) (λ x y, x && negb y) S T HS HT) as [H1 H2];
        [intros; by apply is_u32_land|intros; by rewrite Z.land_spec, not32_bit|by split_and!].
Qed.

(** The realtime queue is a first in, first out queue of at most 64 entries:
    it starts empty, an entry is refused only when 64 are waiting and joins
    the end otherwise, the oldest entry leaves first and is what a peek shows,
    and nothing else changes. *)
Theorem rtq_refines :
  (∀ q, raw q → wp (rtq_init true) (λ _ q', queued q' []) q) ∧
  (∀ q es, queued q es →
    (length es ≤ 64)%nat ∧
    rtq_is_empty true q = Some (bool_decide (es = []), q) ∧
    rtq_count true q = Some (Z.of_nat (length es), q) ∧
    (∀ sig info, bad_sig sig = false → wp (rtq_enqueue true sig info) (λ r q',
      if (length es =? 64)%nat then r = ERR_BUSY ∧ q' = q
      else r = 0 ∧ queued q' (es ++ [mk_entry sig (default (mk_info sig 0 0 0 0) info)])) q) ∧
    wp (rtq_peek true) (λ r q', q' = q ∧ r = match es with [] => (- ENOENT, None) | e :: _ => (0, Some e) end) q ∧
    wp (rtq_dequeue true) (λ r q',
      match es with
      | [] => r = (- ENOENT, None) ∧ q' = q
      | e :: es => r = (0, Some e) ∧ queued q' es
      end) q).
Proof.
  split; [apply rtq_init_wp|]. intros q es Hq. split_and!.
  - destruct Hq as (us & fs & _ & _ & HP & He & _). apply Forall2_length in He. apply Permutation_length in HP.
    rewrite length_app, length_pool_addrs in HP. lia.
  - by apply empty_queue_run.
  - destruct Hq as (us & fs & _ & _ & _ & He & _ & Hc). apply Forall2_length in He. unfold rtq_count. cbn [negb].
    erewrite bind_run by done. rewrite <- He, <- Hc. done.
  - intros sig info Hs. by apply enqueue_wp.
  - by apply peek_wp.
  - by apply dequeue_wp.
Qed.

(** [signal_fetch] delivers the oldest realtime signal when it is not
    blocked, and otherwise the least ordinary signal that is pending and not
    blocked, takes exactly that one away, and reports [-ENOENT] exactly when
    there is neither; [signal_has_pending_unmasked] tells the same beforehand.
    A realtime signal behind a blocked one is not looked at. *)
Theorem signal_fetch_correct s es :
  sig_rep s es →
  wp (signal_fetch true true) (λ r s',
    match rt_ready s es with
    | Some e => r = (0, Some e) ∧ sig_rep s' (tail es) ∧ mask s' = mask s ∧ pending s' = pending s
    | None =>
        (∃ g, 1 ≤ g ≤ 64 ∧ ready s g ∧ (∀ h, 1 ≤ h < g → ¬ ready s h) ∧
           r = (0, Some (mk_entry g (mk_info g 0 0 0 0))) ∧ s' = set_pending (sigdelset (pending s) g) s ∧ sig_rep s' es) ∨
        ((∀ g, 1 ≤ g ≤ 64 → ¬ ready s g) ∧ r = (- ENOENT, None) ∧ s' = s)
    end) s ∧
  wp (signal_has_pending_unmasked true)
    (λ r s', s' = s ∧ (r = true ↔ is_Some (rt_ready s es) ∨ ∃ g, 1 ≤ g ≤ 64 ∧ ready s g)) s.
Proof. intros H. by split; [apply fetch_wp|apply has_pending_wp]. Qed.

(** C29: every signal is delivered in the end: with nothing blocked, a signal that
    was accepted is fetched, and fetching until nothing is left gives the
    realtime signals in the order in which they were added and then the pending
    ordinary signals in increasing order, each once. *)
Theorem signal_delivered s es sig info fuel :
  sig_rep s es → (∀ g, sigismember (mask s) g = false) → bad_sig sig = false → (length es + 66 < fuel)%nat →
  wp (r ← signal_add true sig info; l ← fetch_all fuel; mret (r, l)) (λ rl s',
    (if SIG_IS_REALTIME sig && (length es =? 64)%nat then rl = (ERR_BUSY, (e_sig <$> es) ++ pending_list s)
     else rl.1 = 0 ∧ sig ∈ rl.2 ∧
       rl.2 = (if SIG_IS_REALTIME sig then (e_sig <$> es) ++ [sig] ++ pending_list s
               else (e_sig <$> es) ++ pending_list (set_pending (sigaddset (pending s) sig) s))) ∧
    sig_rep s' [] ∧ pending_list s' = []) s.
Proof.
  intros Hrep Hm Hs Hf.
  assert (∀ s, (length (pending_list s) ≤ 64)%nat) as Hlen by (intros s'; etrans; [apply length_filter|done]).
  wp_step. eapply wp_mono; [by apply add_wp|]. cbn beta. intros r s1 H. wp_step. destruct (SIG_IS_REALTIME sig) eqn:Ert; cbn [andb].
  - destruct (length es =? 64)%nat.
    + destruct H as [-> ->]. eapply wp_mono; [apply (fetch_all_wp fuel s es Hrep Hm); pose proof (Hlen s); lia|]. cbn beta.
      intros l s' (-> & ? & _ & ?). by wp_step.
    + destruct H as (-> & Hm1 & Hp1 & Hrep1).
      eapply wp_mono; [apply (fetch_all_wp fuel s1 _ Hrep1); [by rewrite Hm1|pose proof (Hlen s1); rewrite length_app; cbn; lia]|]. cbn beta.
      intros l s' (-> & ? & _ & ?). wp_step. split; [|done]. cbn [fst snd].
      assert (pending_list s1 = pending_list s) as -> by (unfold pending_list; by rewrite Hp1).
      rewrite fmap_app, <- app_assoc. cbn. split_and!; [done|set_solver|done].
  - destruct H as (-> & -> & Hrep1). set (s1 := set_pending _ s) in *.
    eapply wp_mono; [apply (fetch_all_wp fuel s1 _ Hrep1 Hm); pose proof (Hlen s1); lia|]. cbn beta.
    intros l s' (-> & ? & _ & ?). wp_step. split; [|done]. cbn [fst snd]. split_and!; [done| |done].
    apply elem_of_app. right. unfold pending_list. apply list_elem_of_filter. split.
    + cbn [s1 pending set_pending]. rewrite (proj2 (sigaddset_spec (pending s) sig (proj1 (proj2 Hrep)))).
      by rewrite Z.eqb_refl, Hs, orb_true_r.
    + apply elem_of_seqZ. pose proof (good_sig _ Hs). lia.
Qed.

(** A thread whose signal state was initialised. *)
Definition ex_raw : rtq :=
  mk_rtq (list_to_map ((λ a, (a, mk_link 0 0)) <$> seqZ 1 66)) (list_to_map ((λ a, (a, zero_entry)) <$> pool_addrs)) 0.
Definition ex_sigstate : sigstate :=
  default (mk_sigstate [] [] ex_raw) (snd <$> signal_thread_init true (mk_sigstate [] [] ex_raw)).

Lemma ex_raw_ok : raw ex_raw.
Proof.
  assert (Forall (λ a, is_Some (q_links ex_raw !! a)) (seqZ 1 66)) as H1 by by_eval.
  assert (Forall (λ a, is_Some (pool ex_raw !! a)) pool_addrs) as H2 by by_eval.
  rewrite Forall_forall in H1, H2. split; [|exact H2]. intros a Ha. apply H1, elem_of_seqZ. lia.
Qed.

Lemma ex_sig_rep : sig_rep ex_sigstate [].
Proof.
  assert (wp (signal_thread_init true) (λ _ s, sig_rep s []) (mk_sigstate [] [] ex_raw)) as H.
  { unfold signal_thread_init. cbn [negb]. wp_step. wp_step. wp_step. wp_step. apply on_queue_wp.
    eapply wp_mono; [apply rtq_init_wp, ex_raw_ok|]. cbn beta. intros _ q Hq. split_and!; [apply sigempty_spec|apply sigempty_spec|done]. }
  apply (wp_elim _ tt ex_sigstate _ _ H). by vm_compute.
Qed.

Lemma signal_sets_correct_witness :
  sigismember (sigaddset sigemptyset 40) 40 = true ∧ sigismember (sigdelset (sigaddset sigemptyset 40) 40) 40 = false.
Proof.
  split.
  - refine (eq_trans (proj2 (proj1 (proj2 (signal_sets_correct sigemptyset sigemptyset 40 _ _))) 40) _); [by_eval..|done].
  - refine (eq_trans (proj2 (proj1 (proj2 (proj2 (signal_sets_correct (sigaddset sigemptyset 40) sigemptyset 40 _ _)))) 40) _); [by_eval..|done].
Defined.

Lemma rtq_refines_witness :
  wp (rtq_enqueue true 40 None) (λ r q', r = 0 ∧ queued q' [mk_entry 40 (mk_info 40 0 0 0 0)]) (rt_queue ex_sigstate).
Proof.
  refine (proj1 (proj2 (proj2 (proj2 (proj2 rtq_refines (rt_queue ex_sigstate) [] _)))) 40 None eq_refl). apply ex_sig_rep.
Defined.

Lemma signal_fetch_correct_witness :
  wp (signal_has_pending_unmasked true)
    (λ r s', s' = ex_sigstate ∧ (r = true ↔ is_Some (rt_ready ex_sigstate []) ∨ ∃ g, 1 ≤ g ≤ 64 ∧ ready ex_sigstate g)) ex_sigstate.
Proof. exact (proj2 (signal_fetch_correct ex_sigstate [] ex_sig_rep)). Defined.

Lemma signal_delivered_witness :
  wp (r ← signal_add true 15 None; l ← fetch_all 67; mret (r, l)) (λ rl s', rl.1 = 0 ∧ 15 ∈ rl.2) ex_sigstate.
Proof.
  eapply wp_mono.
  - apply (signal_delivered ex_sigstate [] 15 None 67 ex_sig_rep); [|done|cbn; lia].
    intros g. assert (mask ex_sigstate = sigemptyset) as -> by (by vm_compute). apply sigempty_spec.
  - intros rl s' [(H1 & H2 & _) _]. by split.
Defined.
End Signal.
