(* ===== verification/Sched.v ===== *)
(** * Threads, the scheduler and the process table

    [src/kernel/sched/sched.c], [thread.c], [context.c] and [proc.c], and the
    timer of [src/kernel/arch/x86/pit.c].  A switch of stacks continues in the
    thread that is switched to: a call that switches ends in the state in which
    that thread goes on. *)

From S2P Require Import Prelude Pmm Links Paging Signal.
Import Links Paging Signal.

Module Sched.

Inductive thread_state := THREAD_RUNNABLE | THREAD_RUNNING | THREAD_ZOMBIE | THREAD_SLEEPING.
#[global] Instance thread_state_eq_dec : EqDecision thread_state.
Proof. solve_decision. Defined.

(** [Thread] without its link; [context_t] is the stack pointer [t_esp]. *)
Record thread := mk_thread {
  t_esp : Z;
  t_stack : Z;
  t_stack_size : Z;
  t_state : thread_state;
  t_wakeup : Z;
  t_next_sleep : Z;
  t_entry : Z;
  t_arg : Z;
  t_proc : Z;
  t_signals : sigstate
}.
Definition with_esp (e : Z) (t : thread) : thread :=
  mk_thread e (t_stack t) (t_stack_size t) (t_state t) (t_wakeup t) (t_next_sleep t) (t_entry t) (t_arg t) (t_proc t) (t_signals t).
Definition with_state (x : thread_state) (t : thread) : thread :=
  mk_thread (t_esp t) (t_stack t) (t_stack_size t) x (t_wakeup t) (t_next_sleep t) (t_entry t) (t_arg t) (t_proc t) (t_signals t).
Definition with_sleep (wakeup next : Z) (t : thread) : thread :=
  mk_thread (t_esp t) (t_stack t) (t_stack_size t) (t_state t) wakeup next (t_entry t) (t_arg t) (t_proc t) (t_signals t).
Definition with_proc (p : Z) (t : thread) : thread :=
  mk_thread (t_esp t) (t_stack t) (t_stack_size t) (t_state t) (t_wakeup t) (t_next_sleep t) (t_entry t) (t_arg t) p (t_signals t).

(** [process_t]; [p_alive] is the C truth value. *)
Record process := mk_process {
  p_pid : Z;
  p_ppid : Z;
  p_exit_code : Z;
  p_alive : bool;
  p_cwd : list Z;
  p_thread : Z;
  p_pd : Z;
  p_pd_phys : Z
}.
Definition zero_process : process := mk_process 0 0 0 false (replicate 256 0) 0 0 0.

(** The statics of [sched.c] with the tick counter, the kernel stack of the task
    state segment and the stack pointer of the processor. *)
Record cpu_state := mk_cpu {
  g_current : Z;
  g_idle_thread : Z;
  sleep_queue : Z;
  reschedule_pending : bool;
  g_pit_ticks : Z;
  esp0 : Z;
  esp : Z
}.
Definition set_current (t : Z) (c : cpu_state) : cpu_state :=
  mk_cpu t (g_idle_thread c) (sleep_queue c) (reschedule_pending c) (g_pit_ticks c) (esp0 c) (esp c).
Definition set_idle (t : Z) (c : cpu_state) : cpu_state :=
  mk_cpu (g_current c) t (sleep_queue c) (reschedule_pending c) (g_pit_ticks c) (esp0 c) (esp c).
Definition set_sleep_queue (t : Z) (c : cpu_state) : cpu_state :=
  mk_cpu (g_current c) (g_idle_thread c) t (reschedule_pending c) (g_pit_ticks c) (esp0 c) (esp c).
Definition set_pending (b : bool) (c : cpu_state) : cpu_state :=
  mk_cpu (g_current c) (g_idle_thread c) (sleep_queue c) b (g_pit_ticks c) (esp0 c) (esp c).
Definition set_ticks (n : Z) (c : cpu_state) : cpu_state :=
  mk_cpu (g_current c) (g_idle_thread c) (sleep_queue c) (reschedule_pending c) n (esp0 c) (esp c).
Definition set_esp0 (e : Z) (c : cpu_state) : cpu_state :=
  mk_cpu (g_current c) (g_idle_thread c) (sleep_queue c) (reschedule_pending c) (g_pit_ticks c) e (esp c).
Definition set_esp (e : Z) (c : cpu_state) : cpu_state :=
  mk_cpu (g_current c) (g_idle_thread c) (sleep_queue c) (reschedule_pending c) (g_pit_ticks c) (esp0 c) e.

(** The statics of [proc.c]. *)
Record proc_table := mk_table { g_boot_proc : process; g_procs : list process; g_proc_used : list bool }.
(** The kernel heap as far as it is used here: the live blocks that are not
    threads, and the addresses that the next allocations will give, 0 for a
    refusal; the allocator itself is the subject of [Heap.v]. *)
Record heap := mk_heap { blocks : gset Z; answers : list Z }.

Record os := mk_os { lk : links; threads : gmap Z thread; cpu : cpu_state; procs : proc_table; hp : heap; mm : machine }.
Implicit Types (s : os).
Definition set_lk (x : links) s : os := mk_os x (threads s) (cpu s) (procs s) (hp s) (mm s).
Definition set_threads (x : gmap Z thread) s : os := mk_os (lk s) x (cpu s) (procs s) (hp s) (mm s).
Definition set_cpu (x : cpu_state) s : os := mk_os (lk s) (threads s) x (procs s) (hp s) (mm s).
Definition set_procs (x : proc_table) s : os := mk_os (lk s) (threads s) (cpu s) x (hp s) (mm s).
Definition set_hp (x : heap) s : os := mk_os (lk s) (threads s) (cpu s) (procs s) x (mm s).
Definition set_mm (x : machine) s : os := mk_os (lk s) (threads s) (cpu s) (procs s) (hp s) x.

Definition on_links {A} (m : cmd links A) : cmd os A := czoom lk set_lk m.
Definition on_cpu (f : cpu_state → cpu_state) : cmd os unit := cmodify (λ s, set_cpu (f (cpu s)) s).
Definition get_thread (t : Z) : cmd os thread := cread (λ s, threads s !! t).
Definition put_thread (t : Z) (th : thread) : cmd os unit := cmodify (λ s, set_threads (<[t := th]> (threads s)) s).

(** Processes are named by numbers: 0 is NULL, 1 the boot process, and 2 + i the
    slot i of the table. *)
Definition MAX_PROCS : Z := 63.
Definition BOOT_PROC : Z := 1.
Definition slot_proc (i : Z) : Z := 2 + i.
Definition proc_at (p : Z) s : option process :=
  if p =? BOOT_PROC then Some (g_boot_proc (procs s)) else
  if p <? 2 then None else g_procs (procs s) !! Z.to_nat (p - 2).
Definition get_proc (p : Z) : cmd os process := cread (proc_at p).
Definition put_proc (p : Z) (x : process) : cmd os unit :=
  get_proc p;;
  cmodify (λ s, set_procs (
    if p =? BOOT_PROC then mk_table x (g_procs (procs s)) (g_proc_used (procs s))
    else mk_table (g_boot_proc (procs s)) (<[Z.to_nat (p - 2) := x]> (g_procs (procs s))) (g_proc_used (procs s))) s).

(** [malloc] of a block that is not a thread, [calloc] of a thread, [free]. *)
Definition alloc : cmd os Z := λ s,
  match answers (hp s) with
  | a :: o => Some (a, set_hp (mk_heap (blocks (hp s)) o) s)
  | [] => Some (0, s)
  end.
Definition malloc : cmd os Z :=
  a ← alloc;
  if a =? 0 then mret 0 else
  cmodify (λ s, set_hp (mk_heap ({[a]} ∪ blocks (hp s)) (answers (hp s))) s);;
  mret a.
Definition free (a : Z) : cmd os unit :=
  if a =? 0 then mret tt else
  s ← cget;
  if bool_decide (a ∈ blocks (hp s))
  then cmodify (λ s, set_hp (mk_heap (blocks (hp s) ∖ {[a]}) (answers (hp s))) s)
  else cundef.
Definition free_thread (t : Z) : cmd os unit :=
  get_thread t;;
  cmodify (λ s, set_lk (delete t (lk s)) (set_threads (delete t (threads s)) s)).

Section sched.
(** The addresses of the assembly entry of a new thread and of
    [idle_thread_entry]. *)
Context (kthread_entry idle_thread_entry : Z).

(** ** [context.c] *)

Definition store32 (a v : Z) : cmd os unit :=
  if negb (a mod 4 =? 0) then cundef else
  cmodify (λ s, set_mm (set_mem (λ j, if j =? a / 4 then v else mem (mm s) j) (mm s)) s).

(** [*(--stk) = v] for each of the values. *)
Fixpoint push_all (stk : Z) (vs : list Z) : cmd os Z :=
  match vs with
  | [] => mret stk
  | v :: vs => store32 (stk - 4) v;; push_all (stk - 4) vs
  end.

(** The return address, EBP, EFLAGS and the frame of [popad]. *)
Definition initial_frame (stack_top : Z) : list Z :=
  [kthread_entry; 0; 0x202; 0; 0; 0; stack_top - 24; 0; 0; 0; 0].

(** The code and the stack pointer of the new context. *)
Definition context_create (ctx : bool) (entry arg stack_top : Z) : cmd os (Z * Z) :=
  if negb ctx || (entry =? 0) || (stack_top =? 0) then mret (-1, 0) else
  stk ← push_all stack_top (initial_frame stack_top);
  mret (0, stk).

(** The flags and the eight registers, 36 bytes, are pushed and popped; the old
    context is not saved for NULL. *)
Definition context_switch (old_ctx new_ctx : Z) : cmd os unit :=
  new ← get_thread new_ctx;
  s ← cget;
  (if old_ctx =? 0 then mret tt else
   old ← get_thread old_ctx; put_thread old_ctx (with_esp (esp (cpu s) - 36) old));;
  new ← get_thread new_ctx;
  on_cpu (set_esp (t_esp new + 36)).

(** ** The run queue *)

Definition run_queue : Z := 1.

Definition runqueue_init : cmd os unit := on_links (LinkInit run_queue).

Definition runqueue_add (t : Z) : cmd os unit :=
  s ← cget;
  if (t =? 0) || (t =? g_idle_thread (cpu s)) then mret tt else
  l ← on_links (get_link t);
  if negb (l_next l =? 0) && negb (l_next l =? t) then mret tt else
  (if l_next l =? 0 then on_links (LinkInit t) else mret tt);;
  th ← get_thread t;
  put_thread t (with_state THREAD_RUNNABLE th);;
  on_links (LinkBefore run_queue t).

Definition runqueue_remove (t : Z) : cmd os unit :=
  if t =? 0 then mret tt else
  l ← on_links (get_link t);
  if (l_next l =? 0) || (l_next l =? t) then mret tt else
  on_links (LinkRemove t).

Definition runqueue_next : cmd os Z :=
  empty ← on_links (ListIsEmpty run_queue);
  if negb (empty : bool) then
    l ← on_links (get_link run_queue);
    let t := l_next l in
    on_links (LinkRemove t);;
    mret t
  else s ← cget; mret (g_idle_thread (cpu s)).

(** ** [thread.c] *)

Definition zero_rtq : rtq :=
  mk_rtq (list_to_map ((λ a, (a, mk_link 0 0)) <$> seqZ 1 66)) (list_to_map ((λ a, (a, zero_entry)) <$> pool_addrs)) 0.
Definition zero_signals : sigstate := mk_sigstate (replicate 2 0) (replicate 2 0) zero_rtq.
(** Running [signal_thread_init] on the state inside a new thread. *)
Definition init_signals : cmd os sigstate :=
  λ s, match signal_thread_init true zero_signals with Some (_, g) => Some (g, s) | None => None end.

Definition thread_create (entry arg stack_mem stack_size : Z) : cmd os Z :=
  if (entry =? 0) || (stack_mem =? 0) || (stack_size =? 0) then mret 0 else
  t ← alloc;
  if t =? 0 then mret 0 else
  cmodify (λ s, set_lk (<[t := mk_link 0 0]> (lk s)) s);;
  on_links (LinkInit t);;
  g ← init_signals;
  put_thread t (mk_thread 0 stack_mem stack_size THREAD_RUNNABLE 0 0 entry arg 0 g);;
  r ← context_create true entry arg (stack_mem + stack_size);
  if negb (r.1 =? 0) then free_thread t;; mret 0 else
  th ← get_thread t;
  put_thread t (with_esp r.2 th);;
  mret t.

Definition sched_current : cmd os Z := s ← cget; mret (g_current (cpu s)).

(** ** [sched.c] *)

Definition sched_activate_thread (t : Z) : cmd os unit :=
  if t =? 0 then mret tt else
  on_cpu (set_current t);;
  th ← get_thread t;
  put_thread t (with_state THREAD_RUNNING th);;
  s ← cget;
  page_directory ←
    (if t_proc th =? 0 then mret (kernel_pd_phys (mm s))
     else p ← get_proc (t_proc th);
          mret (if negb (p_pd_phys p =? 0) then p_pd_phys p else kernel_pd_phys (mm s)));
  on_cpu (set_esp0 (u32 (t_stack th + t_stack_size th)));;
  czoom mm set_mm (paging_switch_phys page_directory).

Definition sched_init : cmd os unit :=
  on_cpu (set_current 0);; on_cpu (set_idle 0);; on_cpu (set_ticks 0);;
  on_cpu (set_sleep_queue 0);; on_cpu (set_pending false);;
  runqueue_init;;
  stack ← malloc;
  if stack =? 0 then mret tt else
  t ← thread_create idle_thread_entry 0 stack 4096;
  on_cpu (set_idle t);;
  if t =? 0 then free stack else mret tt.

Definition sched_add (t : Z) : cmd os unit := runqueue_add t.

(** Up to the switch, after which the caller is never continued; the result
    tells whether there was a thread to switch to. *)
Definition sched_start : cmd os bool :=
  next ← runqueue_next;
  if next =? 0 then mret false else
  sched_activate_thread next;;
  context_switch 0 next;;
  mret true.

Definition ksched_yield : cmd os unit :=
  s ← cget;
  let current := g_current (cpu s) in
  (if negb (current =? 0) && negb (current =? g_idle_thread (cpu s)) then
     th ← get_thread current;
     if bool_decide (t_state th = THREAD_RUNNING) then runqueue_add current else mret tt
   else mret tt);;
  next ← runqueue_next;
  if (next =? 0) || (next =? current) then
    if negb (current =? 0) then th ← get_thread current; put_thread current (with_state THREAD_RUNNING th) else mret tt
  else
    sched_activate_thread next;;
    context_switch current next.

Definition sched_yield : cmd os unit := ksched_yield.

Definition sched_sleep (ticks : Z) : cmd os unit :=
  s ← cget;
  let current := g_current (cpu s) in
  if (current =? 0) || (current =? g_idle_thread (cpu s)) then mret tt else
  th ← get_thread current;
  put_thread current (with_state THREAD_SLEEPING
    (with_sleep (u64 (g_pit_ticks (cpu s) + (if negb (ticks =? 0) then ticks else 1))) (sleep_queue (cpu s)) th));;
  on_cpu (set_sleep_queue current);;
  ksched_yield.

(** [Thread **link]: the head of the sleepers or the field of a thread. *)
Inductive sleep_link := Head | Field (t : Z).
Definition read_sleep (l : sleep_link) : cmd os Z :=
  match l with
  | Head => s ← cget; mret (sleep_queue (cpu s))
  | Field t => th ← get_thread t; mret (t_next_sleep th)
  end.
Definition write_sleep (l : sleep_link) (v : Z) : cmd os unit :=
  match l with
  | Head => on_cpu (set_sleep_queue v)
  | Field t => th ← get_thread t; put_thread t (with_sleep (t_wakeup th) v th)
  end.

Fixpoint wake_loop (fuel : nat) (link : sleep_link) : cmd os unit :=
  match fuel with
  | O => cundef
  | S fuel =>
      t ← read_sleep link;
      if t =? 0 then mret tt else
      th ← get_thread t;
      s ← cget;
      if t_wakeup th <=? g_pit_ticks (cpu s) then
        write_sleep link (t_next_sleep th);;
        th ← get_thread t;
        put_thread t (with_sleep 0 0 th);;
        runqueue_add t;;
        wake_loop fuel link
      else wake_loop fuel (Field t)
  end.
(** A list of sleepers has no more entries than there are threads. *)
Definition sched_wake_sleepers : cmd os unit :=
  s ← cget; wake_loop (S (size (threads s))) Head.

Definition sched_tick : cmd os unit :=
  sched_wake_sleepers;; on_cpu (set_pending true).

Definition sched_maybe_resched : cmd os unit :=
  s ← cget;
  if reschedule_pending (cpu s) then on_cpu (set_pending false);; ksched_yield else mret tt.

Definition sched_ticks : cmd os Z := s ← cget; mret (g_pit_ticks (cpu s)).

(** ** [pit.c] *)

(** The frequency that is recorded and the two bytes of the divisor. *)
Definition pit_program (hz : Z) : Z * (Z * Z) :=
  let hz := if hz =? 0 then 100 else hz in
  let hz := if 1193182 <? hz then 1193182 else hz in
  let divisor := u16 (1193182 / hz) in
  let divisor := if divisor =? 0 then 1 else divisor in
  (hz, (Z.land divisor 0xFF, Z.land (Z.shiftr divisor 8) 0xFF)).

Definition pit_handler : cmd os unit :=
  on_cpu (λ c, set_ticks (u32 (g_pit_ticks c + 1)) c);;
  sched_tick.

(** ** [proc.c] *)

Definition slash_cwd (cwd : list Z) : list Z := <[1%nat := 0]> (<[0%nat := 47]> cwd).

Definition proc_init : cmd os unit :=
  cmodify (λ s, set_procs (mk_table
    (mk_process 0 (-1) 0 true (slash_cwd (replicate 256 0)) 0 (kernel_pd (mm s)) (kernel_pd_phys (mm s)))
    (replicate (Z.to_nat MAX_PROCS) zero_process) (replicate (Z.to_nat MAX_PROCS) false)) s).

Definition proc_current : cmd os Z :=
  s ← cget;
  if g_current (cpu s) =? 0 then mret BOOT_PROC else
  th ← get_thread (g_current (cpu s));
  mret (if negb (t_proc th =? 0) then t_proc th else BOOT_PROC).

Definition set_used (i : Z) (b : bool) : cmd os unit :=
  cmodify (λ s, set_procs (mk_table (g_boot_proc (procs s)) (g_procs (procs s)) (<[Z.to_nat i := b]> (g_proc_used (procs s)))) s).

(** The search for a free slot from [i] on. *)
Fixpoint alloc_slot_from (n : nat) (i : Z) : cmd os Z :=
  match n with
  | O => mret 0
  | S n =>
      used ← cread (λ s, g_proc_used (procs s) !! Z.to_nat i);
      if negb (used : bool) then
        set_used i true;;
        put_proc (slot_proc i) zero_process;;
        mret (slot_proc i)
      else alloc_slot_from n (i + 1)
  end.
Definition proc_alloc_slot : cmd os Z := alloc_slot_from (Z.to_nat MAX_PROCS) 0.

Definition proc_create : cmd os Z :=
  p ← proc_alloc_slot;
  if p =? 0 then mret 0 else
  parent ← proc_current;
  par ← get_proc parent;
  s ← cget;
  put_proc p (mk_process (p - slot_proc 0 + 1) (p_pid par) 0 true
    (if bool_decide (p_cwd par !! 0%nat = Some 47) then p_cwd par else slash_cwd (p_cwd zero_process))
    0 (kernel_pd (mm s)) (kernel_pd_phys (mm s)));;
  mret p.

Fixpoint find_child_from (parent_pid child_pid : Z) (n : nat) (i : Z) : cmd os Z :=
  match n with
  | O => mret 0
  | S n =>
      p ← get_proc (slot_proc i);
      used ← cread (λ s, g_proc_used (procs s) !! Z.to_nat i);
      if (used : bool) && (p_pid p =? child_pid) && (p_ppid p =? parent_pid) then mret (slot_proc i)
      else find_child_from parent_pid child_pid n (i + 1)
  end.
Definition proc_find_child (parent_pid child_pid : Z) : cmd os Z :=
  find_child_from parent_pid child_pid (Z.to_nat MAX_PROCS) 0.

Definition proc_reap (pid : Z) : cmd os Z :=
  if (pid <=? 0) || (MAX_PROCS <? pid) then mret ERR_PROCESS_NOT_FOUND else
  p ← get_proc (slot_proc (pid - 1));
  used ← cread (λ s, g_proc_used (procs s) !! Z.to_nat (pid - 1));
  if negb (used : bool) || negb (p_pid p =? pid) then mret ERR_PROCESS_NOT_FOUND else
  if p_alive p then mret ERR_BUSY else
  (if negb (p_thread p =? 0) then
     runqueue_remove (p_thread p);;
     th ← get_thread (p_thread p);
     free (t_arg th);;
     free (t_stack th);;
     free_thread (p_thread p)
   else mret tt);;
  s ← cget;
  (if negb (p_pd p =? 0) && negb (p_pd p =? kernel_pd (mm s))
   then czoom mm set_mm (paging_destroy_address_space (p_pd p) (p_pd_phys p)) else mret tt);;
  put_proc (slot_proc (pid - 1)) zero_process;;
  set_used (pid - 1) false;;
  mret ERR_SUCCESS.

Definition proc_attach_thread (p t : Z) : cmd os unit :=
  if (p =? 0) || (t =? 0) then mret tt else
  x ← get_proc p;
  put_proc p (mk_process (p_pid x) (p_ppid x) (p_exit_code x) (p_alive x) (p_cwd x) t (p_pd x) (p_pd_phys x));;
  th ← get_thread t;
  put_thread t (with_proc p th).

Definition proc_mark_exit (code : Z) : cmd os unit :=
  p ← proc_current;
  x ← get_proc p;
  put_proc p (mk_process (p_pid x) (p_ppid x) code false (p_cwd x) (p_thread x) (p_pd x) (p_pd_phys x));;
  s ← cget;
  if g_current (cpu s) =? 0 then mret tt else
  th ← get_thread (g_current (cpu s));
  put_thread (g_current (cpu s)) (with_state THREAD_ZOMBIE th).

(** Up to the switch to the next thread. *)
Definition thread_exit : cmd os unit :=
  t ← sched_current;
  (if t =? 0 then mret tt else
   th ← get_thread t;
   if negb (t_proc th =? 0) then proc_mark_exit 0
   else put_thread t (with_state THREAD_ZOMBIE th));;
  ksched_yield.

Definition thread_sleep (milliseconds : Z) : cmd os unit := sched_sleep (u32 (milliseconds + 9) / 10).
Definition wake_sleepers : cmd os unit := sched_wake_sleepers.

(** ** The invariant

    [ready] are the threads in the run queue, first the next to run, and
    [asleep] the sleepers in the order of their list. *)

Fixpoint sleepers (m : gmap Z thread) (a : Z) (l : list Z) : Prop :=
  match l with
  | [] => a = 0
  | t :: l => a = t ∧ t ≠ 0 ∧ ∃ th, m !! t = Some th ∧ t_state th = THREAD_SLEEPING ∧ sleepers m (t_next_sleep th) l
  end.

Record sched_core s (ready asleep : list Z) : Prop := {
  so_ring : ring (lk s) run_queue ready;
  so_ready : ∀ t, t ∈ ready → t ≠ g_idle_thread (cpu s) ∧ t_state <$> threads s !! t = Some THREAD_RUNNABLE;
  so_unqueued : ∀ t, is_Some (threads s !! t) → t ∉ ready →
    ∃ l, lk s !! t = Some l ∧ (l_next l = 0 ∨ l_next l = t);
  so_names : ∀ t, is_Some (threads s !! t) → t ≠ 0 ∧ t ≠ run_queue;
  so_asleep : sleepers (threads s) (sleep_queue (cpu s)) asleep;
  so_nodup : NoDup asleep;
  so_idle : is_Some (threads s !! g_idle_thread (cpu s)) ∧ (g_idle_thread (cpu s) ∉ asleep);
  so_procs : ∀ t th, threads s !! t = Some th → t_proc th = 0 ∨ is_Some (proc_at (t_proc th) s)
}.
(** The running thread is in neither list. *)
Definition sched_ok s (ready asleep : list Z) : Prop :=
  sched_core s ready asleep ∧
  (g_current (cpu s) = 0 ∨ (is_Some (threads s !! g_current (cpu s)) ∧ (g_current (cpu s) ∉ ready) ∧ (g_current (cpu s) ∉ asleep))).

(** A step through the accesses to the state. *)
Ltac os_step :=
  lazymatch goal with
  | |- wp (on_links _) _ _ => unfold on_links
  | |- wp (on_cpu _) _ _ => unfold on_cpu
  | |- wp (put_thread _ _) _ _ => unfold put_thread
  | |- wp runqueue_init _ _ => unfold runqueue_init, on_links
  | _ => idtac
  end; wp_step.

Lemma get_thread_wp t th s Q : threads s !! t = Some th → Q th s → wp (get_thread t) Q s.
Proof. intros. by eapply wp_read. Qed.
Lemma get_proc_wp p x s Q : proc_at p s = Some x → Q x s → wp (get_proc p) Q s.
Proof. intros. by eapply wp_read. Qed.

Lemma same_lk s : set_lk (lk s) s = s.
Proof. by destruct s. Qed.

(** The states of threads that nothing points to from a list may change. *)
Lemma sleepers_frame m m' a l :
  sleepers m a l → (∀ t, t ∈ l → m' !! t = m !! t) → sleepers m' a l.
Proof.
  revert a. induction l as [|t l IH]; intros a; [done|]. cbn. intros (-> & H0 & th & Hth & Hst & Hl) Hm.
  split_and!; [done|done|]. exists th. rewrite Hm by left. split_and!; [done|done|]. apply IH; [done|]. intros u Hu. apply Hm. by right.
Qed.

Lemma sleepers_state m a l t : sleepers m a l → t ∈ l → t_state <$> m !! t = Some THREAD_SLEEPING.
Proof.
  revert a. induction l as [|u l IH]; intros a; [by intros _ ?%not_elem_of_nil|]. cbn. intros (_ & _ & th & Hth & Hst & Hl) [->|Ht]%elem_of_cons.
  - by rewrite Hth, <- Hst.
  - by eapply IH.
Qed.

Lemma asleep_live s ready asleep t : sched_core s ready asleep → t ∈ asleep → is_Some (threads s !! t).
Proof. intros HC Ht. pose proof (sleepers_state _ _ _ _ (so_asleep _ _ _ HC) Ht) as H. by destruct (threads s !! t). Qed.

Lemma ready_live s ready asleep t : sched_core s ready asleep → t ∈ ready → is_Some (threads s !! t).
Proof. intros HC Ht. destruct (so_ready _ _ _ HC t Ht) as [_ H]. by destruct (threads s !! t). Qed.

Lemma ready_not_asleep s ready asleep t : sched_core s ready asleep → t ∈ ready → t ∉ asleep.
Proof.
  intros HC Hr Ha. pose proof (sleepers_state _ _ _ _ (so_asleep _ _ _ HC) Ha) as H1. destruct (so_ready _ _ _ HC t Hr) as [_ H2]. congruence.
Qed.

(** Changing a thread that is in neither list. *)
Lemma core_put_thread s ready asleep t th th' :
  sched_core s ready asleep → threads s !! t = Some th → (t ∉ ready) → (t ∉ asleep) → t_proc th' = t_proc th →
  sched_core (set_threads (<[t := th']> (threads s)) s) ready asleep.
Proof.
  intros HC Ht Hr Ha Hp.
  assert (∀ u, is_Some (<[t := th']> (threads s) !! u) → is_Some (threads s !! u)) as Hlive.
  { intros u. destruct (decide (u = t)) as [->|]; [by rewrite Ht|by rewrite lookup_insert_ne]. }
  destruct HC as [H1 H2 H3 H4 H5 H6 [H7 H7'] H8]. split; cbn [lk threads cpu set_threads]; try done.
  - intros u Hu. rewrite lookup_insert_ne by (by intros ->). by apply H2.
  - intros u Hu. by apply H3, Hlive.
  - intros u Hu. by apply H4, Hlive.
  - eapply sleepers_frame; [exact H5|]. intros u Hu. rewrite lookup_insert_ne; [done|]. by intros ->.
  - split; [|done]. destruct (decide (g_idle_thread (cpu s) = t)) as [->|]; [by rewrite lookup_insert_eq|by rewrite lookup_insert_ne].
  - intros u thu. destruct (decide (u = t)) as [->|]; [rewrite lookup_insert_eq; intros [= <-]; rewrite Hp; by apply (H8 t)|rewrite lookup_insert_ne by done; by apply H8].
Qed.

(** A change of the statics that keeps the idle thread and the sleepers. *)
Lemma core_cpu s ready asleep c :
  sched_core s ready asleep → g_idle_thread c = g_idle_thread (cpu s) → sleep_queue c = sleep_queue (cpu s) →
  sched_core (set_cpu c s) ready asleep.
Proof. intros [H1 H2 H3 H4 H5 H6 H7 H8] Hi Hs. split; cbn [lk threads cpu set_cpu]; rewrite ?Hi, ?Hs; done. Qed.

Lemma core_mm s ready asleep m : sched_core s ready asleep → sched_core (set_mm m s) ready asleep.
Proof. by intros [H1 H2 H3 H4 H5 H6 H7 H8]. Qed.

(** What a step leaves alone besides links and threads. *)
Record same_rest s s' : Prop := {
  sr_procs : procs s' = procs s;
  sr_hp : hp s' = hp s;
  sr_mm : mm s' = mm s
}.

Lemma runqueue_add_wp s ready asleep t th :
  sched_core s ready asleep → threads s !! t = Some th → t ≠ g_idle_thread (cpu s) → (t ∉ ready) → (t ∉ asleep) →
  wp (runqueue_add t) (λ _ s', sched_core s' (ready ++ [t]) asleep ∧
    threads s' = <[t := with_state THREAD_RUNNABLE th]> (threads s) ∧ cpu s' = cpu s ∧ same_rest s s') s.
Proof.
  intros HC Ht Hi Hr Ha. destruct (so_names _ _ _ HC t ltac:(by eexists)) as [Ht0 Htq].
  destruct (so_unqueued _ _ _ HC t ltac:(by eexists) Hr) as (l & Hl & Hnext).
  unfold runqueue_add. os_step. os_step. rewrite (proj2 (Z.eqb_neq t 0)), (proj2 (Z.eqb_neq t _)) by done. cbn [orb].
  os_step. os_step. eapply get_link_wp; [exact Hl|]. rewrite same_lk.
  assert (negb (l_next l =? 0) && negb (l_next l =? t) = false) as ->.
  { destruct Hnext as [-> | ->]; [done|]. by rewrite Z.eqb_refl, andb_false_r. }
  assert (t ∉ run_queue :: ready) as Hout by (rewrite elem_of_cons; tauto).
  assert (∀ lk1, only [t] (lk s) lk1 → wp (th ← get_thread t; put_thread t (with_state THREAD_RUNNABLE th);; on_links (LinkBefore run_queue t))
    (λ _ s', sched_core s' (ready ++ [t]) asleep ∧ threads s' = <[t := with_state THREAD_RUNNABLE th]> (threads s) ∧ cpu s' = cpu s ∧ same_rest s s')
    (set_lk lk1 s)) as Hgo.
  { intros lk1 Ho1. assert (ring lk1 run_queue ready) as Hr1.
    { eapply ring_frame; [exact (so_ring _ _ _ HC)|]. intros a Hin. apply Ho1. intros ->%list_elem_of_singleton. done. }
    os_step. eapply get_thread_wp; [exact Ht|]. os_step. os_step. os_step. cbn [lk set_lk set_threads].
    eapply wp_mono; [apply ring_before; [exact Hr1|done|apply (only_live _ _ _ Ho1); by eexists]|]. cbn beta. intros _ lk2 [Hr2 Ho2].
    split_and!; [|done|done|done].
    pose proof (core_put_thread s ready asleep t th (with_state THREAD_RUNNABLE th) HC Ht Hr Ha eq_refl) as [H1 H2 H3 H4 H5 H6 H7 H8].
    split; cbn [lk set_lk set_threads threads cpu] in *; try done.
    - intros u [Hu| ->%list_elem_of_singleton]%elem_of_app; [by apply H2|]. split; [done|]. by rewrite lookup_insert_eq.
    - intros u Hu Hnu. rewrite not_elem_of_app, list_elem_of_singleton in Hnu. destruct Hnu as [Hnu Hut].
      destruct (H3 u Hu Hnu) as (lu & Hlu & Hn). exists lu. split; [|done]. rewrite (only_out _ _ _ Ho2), (only_out _ _ _ Ho1); [done|set_solver|].
      rewrite !elem_of_cons. destruct (H4 u Hu). tauto. }
  os_step. destruct (l_next l =? 0).
  - os_step. eapply wp_mono; [apply ring_init_wp; by eexists|]. cbn beta. intros _ lk1 [_ Ho1]. by apply Hgo.
  - os_step. pose proof (Hgo (lk s)) as H. rewrite same_lk in H. apply H. by split.
Qed.

(** The next thread: the first in the queue, or the idle thread. *)
Lemma runqueue_next_wp s ready asleep :
  sched_core s ready asleep →
  wp runqueue_next (λ t s', t = hd (g_idle_thread (cpu s)) ready ∧ sched_core s' (tail ready) asleep ∧ (t ∉ tail ready) ∧ (t ∉ asleep) ∧
    threads s' = threads s ∧ cpu s' = cpu s ∧ same_rest s s') s.
Proof.
  intros HC. pose proof (so_ring _ _ _ HC) as Hring. unfold runqueue_next. os_step.
  eapply wp_eq; [unfold on_links, czoom; by rewrite (ring_empty_run _ _ _ Hring)|]. rewrite same_lk.
  destruct ready as [|t ready].
  { rewrite bool_decide_true by done. cbn [negb]. os_step. os_step. os_step. cbn. split_and!; try done; [apply not_elem_of_nil|apply HC]. }
  rewrite bool_decide_false by done. cbn [negb hd tail]. pose proof (ring_first _ _ _ Hring) as Hfirst. unfold next_of in Hfirst.
  destruct (lk s !! run_queue) as [l|] eqn:Hl; [|done]. cbn in Hfirst. inversion Hfirst as [Hn].
  os_step. os_step. eapply get_link_wp; [exact Hl|]. rewrite Hn, same_lk. cbn zeta. os_step. os_step.
  eapply wp_mono; [by apply (ring_remove_at _ run_queue [] t ready)|]. cbn beta. intros _ lk' (Hr' & Ht & Ho). os_step.
  assert (t ∉ ready) as Hnt.
  { destruct Hring as [Hnd _]. apply NoDup_cons in Hnd as [_ Hnd]. by apply NoDup_cons in Hnd as [? _]. }
  split_and!; [done| |done|by apply (ready_not_asleep s (t :: ready) asleep t HC); left|done|done|done].
  destruct HC as [H1 H2 H3 H4 H5 H6 H7 H8]. split; cbn [lk set_lk threads cpu]; try done.
  - intros u Hu. apply H2. by right.
  - intros u Hu Hnu. destruct (decide (u = t)) as [->|Hut]; [exists (mk_link 0 0); split; [done|by left]|].
    destruct (H3 u Hu) as (lu & Hlu & Hx); [rewrite elem_of_cons; tauto|]. exists lu. split; [|done].
    rewrite (only_out _ _ _ Ho); [done|]. cbn [app]. rewrite !elem_of_cons. destruct (H4 u Hu). tauto.
Qed.

(** What the processor runs with: the thread's directory and kernel stack. *)
Definition directory_of s (th : thread) : Z :=
  match proc_at (t_proc th) s with
  | Some p => if negb (t_proc th =? 0) && negb (p_pd_phys p =? 0) then p_pd_phys p else kernel_pd_phys (mm s)
  | None => kernel_pd_phys (mm s)
  end.
Definition runs s (t : Z) : Prop :=
  ∃ th, g_current (cpu s) = t ∧ threads s !! t = Some th ∧ t_state th = THREAD_RUNNING ∧
    esp0 (cpu s) = u32 (t_stack th + t_stack_size th) ∧
    (directory_of s th ≠ 0 → cr3 (mm s) = directory_of s th).

Lemma proc_at_null s : proc_at 0 s = None.
Proof. done. Qed.

Lemma activate_wp s ready asleep t th :
  sched_core s ready asleep → threads s !! t = Some th → (t ∉ ready) → (t ∉ asleep) →
  wp (sched_activate_thread t) (λ _ s', sched_core s' ready asleep ∧ runs s' t ∧
    threads s' = <[t := with_state THREAD_RUNNING th]> (threads s) ∧ procs s' = procs s ∧ hp s' = hp s ∧
    g_idle_thread (cpu s') = g_idle_thread (cpu s) ∧ g_pit_ticks (cpu s') = g_pit_ticks (cpu s) ∧
    reschedule_pending (cpu s') = reschedule_pending (cpu s) ∧ kernel_pd (mm s') = kernel_pd (mm s)) s.
Proof.
  intros HC Ht Hr Ha. destruct (so_names _ _ _ HC t ltac:(by eexists)) as [Ht0 _]. unfold sched_activate_thread.
  rewrite (proj2 (Z.eqb_neq t 0)) by done. os_step. os_step. os_step. eapply get_thread_wp; [exact Ht|].
  os_step. os_step. os_step. os_step. cbn [mm threads cpu set_threads set_cpu].
  set (s1 := set_threads (<[t := with_state THREAD_RUNNING th]> (threads s)) (set_cpu (set_current t (cpu s)) s)).
  assert (sched_core s1 ready asleep) as HC1.
  { unfold s1. apply (core_put_thread (set_cpu (set_current t (cpu s)) s) ready asleep t th); [by apply core_cpu|done..]. }
  assert (wp (if t_proc th =? 0 then mret (kernel_pd_phys (mm s)) else p ← get_proc (t_proc th);
      mret (if negb (p_pd_phys p =? 0) then p_pd_phys p else kernel_pd_phys (mm s)))
    (λ d s', d = directory_of s1 th ∧ s' = s1) s1) as Hdir.
  { unfold directory_of. destruct (Z.eqb_spec (t_proc th) 0) as [->|Hp]; [by os_step|].
    destruct (so_procs _ _ _ HC t th Ht) as [?|[p Hpr]]; [done|]. os_step.
    assert (proc_at (t_proc th) s1 = Some p) as Hp1 by exact Hpr.
    eapply get_proc_wp; [exact Hp1|]. os_step. rewrite Hp1. by destruct (p_pd_phys p =? 0). }
  os_step. eapply wp_mono; [exact Hdir|]. cbn beta. intros d s' [-> ->]. os_step. os_step. os_step.
  cbn [mm set_cpu]. unfold paging_switch_phys.
  assert (∀ m, sched_core (set_mm m (set_cpu (set_esp0 (u32 (t_stack th + t_stack_size th)) (cpu s1)) s1)) ready asleep) as HC2.
  { intros m. apply core_mm. by apply core_cpu. }
  assert (threads s1 !! t = Some (with_state THREAD_RUNNING th)) as Ht1 by (unfold s1; cbn; by rewrite lookup_insert_eq).
  destruct (Z.eqb_spec (directory_of s1 th) 0) as [E|E]; os_step; (split_and!; [apply HC2| |done..]);
    exists (with_state THREAD_RUNNING th); (split_and!; [done|done|done|done|]); intros Hd; [done|done].
Qed.

Lemma core_esp s ready asleep c th e :
  sched_core s ready asleep → threads s !! c = Some th → sched_core (set_threads (<[c := with_esp e th]> (threads s)) s) ready asleep.
Proof.
  intros HC Hc.
  assert (∀ u, is_Some (<[c := with_esp e th]> (threads s) !! u) → is_Some (threads s !! u)) as Hlive.
  { intros u. destruct (decide (u = c)) as [->|]; [by rewrite Hc|by rewrite lookup_insert_ne]. }
  assert (∀ u, t_state <$> <[c := with_esp e th]> (threads s) !! u = t_state <$> threads s !! u) as Hst.
  { intros u. destruct (decide (u = c)) as [->|]; [by rewrite lookup_insert_eq, Hc|by rewrite lookup_insert_ne]. }
  destruct HC as [H1 H2 H3 H4 H5 H6 [H7 H7'] H8]. split; cbn [lk threads cpu set_threads]; try done.
  - intros u Hu. rewrite Hst. by apply H2.
  - intros u Hu. by apply H3, Hlive.
  - intros u Hu. by apply H4, Hlive.
  - revert H5. generalize (sleep_queue (cpu s)). clear -Hc. induction asleep as [|u l IH]; intros a; [done|]. cbn.
    intros (-> & H0 & thu & Hu & Hs & Hl). split_and!; [done|done|].
    destruct (decide (u = c)) as [->|]; [|exists thu; rewrite lookup_insert_ne by done; split_and!; [done|done|by apply IH]].
    exists (with_esp e th). rewrite lookup_insert_eq. rewrite Hc in Hu. inversion Hu; subst thu. split_and!; [done|done|by apply IH].
  - split; [|done]. destruct (decide (g_idle_thread (cpu s) = c)) as [->|]; [by rewrite lookup_insert_eq|by rewrite lookup_insert_ne].
  - intros u thu. destruct (decide (u = c)) as [->|]; [rewrite lookup_insert_eq; intros [= <-]; exact (H8 c th Hc)|rewrite lookup_insert_ne by done; intros Hx; exact (H8 u thu Hx)].
Qed.

(** Switching stacks keeps who runs. *)
Lemma switch_wp s ready asleep c t :
  sched_core s ready asleep → runs s t → (c = 0 ∨ is_Some (threads s !! c)) →
  wp (context_switch c t) (λ _ s', sched_core s' ready asleep ∧ runs s' t ∧
    (∀ u, with_esp 0 <$> threads s' !! u = with_esp 0 <$> threads s !! u) ∧ procs s' = procs s ∧ hp s' = hp s ∧
    g_idle_thread (cpu s') = g_idle_thread (cpu s) ∧ g_pit_ticks (cpu s') = g_pit_ticks (cpu s) ∧ kernel_pd (mm s') = kernel_pd (mm s)) s.
Proof.
  intros HC Hruns Hc. pose proof Hruns as (th & Hcur & Ht & Hst & He & Hd). unfold context_switch.
  os_step. eapply get_thread_wp; [exact Ht|]. os_step. os_step. os_step. destruct (Z.eqb_spec c 0) as [->|Hc0].
  - os_step. os_step. eapply get_thread_wp; [exact Ht|]. os_step. split_and!; [by apply core_cpu|by exists th|done..].
  - destruct Hc as [?|[thc Hthc]]; [done|]. os_step. eapply get_thread_wp; [exact Hthc|]. os_step. os_step.
    set (s1 := set_threads _ s). pose proof (core_esp s ready asleep c thc (esp (cpu s) - 36) HC Hthc) as HC1.
    assert (∃ th', threads s1 !! t = Some th' ∧ t_state th' = t_state th ∧ t_stack th' = t_stack th ∧ t_stack_size th' = t_stack_size th ∧ t_proc th' = t_proc th)
      as (th' & Ht' & E1 & E2 & E3 & E4).
    { unfold s1. cbn. destruct (decide (c = t)) as [->|]; [|exists th; by rewrite lookup_insert_ne].
      rewrite lookup_insert_eq. rewrite Ht in Hthc. inversion Hthc; subst. by eexists. }
    eapply get_thread_wp; [exact Ht'|]. os_step. split_and!; [by apply core_cpu| | |done..].
    + exists th'. split_and!; [done|done|by rewrite E1|by rewrite E2, E3|]. unfold directory_of in *. by rewrite E4.
    + intros u. unfold s1. cbn. destruct (decide (u = c)) as [->|]; [by rewrite lookup_insert_eq, Hthc|by rewrite lookup_insert_ne].
Qed.

(** Who runs after a yield by [c] with the queue [ready]: a running thread other
    than the idle thread joins the end of the queue first. *)
Definition rejoins s (c : Z) : bool :=
  negb (c =? 0) && negb (c =? g_idle_thread (cpu s)) &&
  bool_decide (t_state <$> threads s !! c = Some THREAD_RUNNING).
Definition queue_after s (ready : list Z) : list Z :=
  if rejoins s (g_current (cpu s)) then ready ++ [g_current (cpu s)] else ready.

(** What a yield leaves alone: all of a thread but its stack pointer and state. *)
Definition kept (th : thread) : thread := with_state THREAD_RUNNABLE (with_esp 0 th).
Record yielded s s' : Prop := {
  yd_procs : procs s' = procs s;
  yd_hp : hp s' = hp s;
  yd_pd : kernel_pd (mm s') = kernel_pd (mm s);
  yd_idle : g_idle_thread (cpu s') = g_idle_thread (cpu s);
  yd_ticks : g_pit_ticks (cpu s') = g_pit_ticks (cpu s);
  yd_kept : ∀ u, kept <$> threads s' !! u = kept <$> threads s !! u
}.
Lemma yd_wakeup s s' u : yielded s s' → t_wakeup <$> threads s' !! u = t_wakeup <$> threads s !! u.
Proof.
  intros HY. pose proof (yd_kept _ _ HY u) as H. destruct (threads s' !! u), (threads s !! u); try done. cbn in *.
  injection H. congruence.
Qed.
Lemma yd_live s s' u : yielded s s' → is_Some (threads s' !! u) ↔ is_Some (threads s !! u).
Proof. intros HY. pose proof (yd_kept _ _ HY u) as H. destruct (threads s' !! u), (threads s !! u); try done; by split. Qed.

Lemma yield_wp s ready asleep :
  sched_core s ready asleep → is_Some (threads s !! g_current (cpu s)) → (g_current (cpu s) ∉ ready) →
  (∀ th, threads s !! g_current (cpu s) = Some th → t_state th = THREAD_RUNNING → runs s (g_current (cpu s))) →
  (g_current (cpu s) = g_idle_thread (cpu s) → t_state <$> threads s !! g_current (cpu s) = Some THREAD_RUNNING) →
  wp ksched_yield (λ _ s',
    sched_ok s' (tail (queue_after s ready)) asleep ∧ runs s' (hd (g_idle_thread (cpu s)) (queue_after s ready)) ∧
    yielded s s' ∧
    (∀ u, u ≠ hd (g_idle_thread (cpu s)) (queue_after s ready) → (u = g_current (cpu s) → rejoins s u = false) →
       t_state <$> threads s' !! u = t_state <$> threads s !! u)) s.
Proof.
  intros HC [th Hth] Hcr Hruns Hidle. set (c := g_current (cpu s)) in *.
  destruct (so_names _ _ _ HC c ltac:(by eexists)) as [Hc0 _].
  assert (t_state th = THREAD_RUNNING → c ∉ asleep) as Hca.
  { intros Hst Hin. pose proof (sleepers_state _ _ _ _ (so_asleep _ _ _ HC) Hin) as H. rewrite Hth in H. inversion H. congruence. } unfold ksched_yield. os_step. os_step. fold c.
  assert (wp (if negb (c =? 0) && negb (c =? g_idle_thread (cpu s)) then th ← get_thread c; if bool_decide (t_state th = THREAD_RUNNING) then runqueue_add c else mret tt else mret tt)
    (λ _ s', sched_core s' (queue_after s ready) asleep ∧ cpu s' = cpu s ∧ same_rest s s' ∧
       threads s' = if rejoins s c then <[c := with_state THREAD_RUNNABLE th]> (threads s) else threads s) s) as Hjoin.
  { unfold queue_after, rejoins. fold c. destruct (negb (c =? 0) && negb (c =? g_idle_thread (cpu s))) eqn:E; cbn [andb]; [|by os_step].
    apply andb_true_iff in E as [_ Ei%negb_true_iff%Z.eqb_neq]. os_step. eapply get_thread_wp; [exact Hth|]. rewrite Hth. cbn [fmap option_fmap option_map].
    destruct (decide (t_state th = THREAD_RUNNING)) as [Hst|Hst].
    - rewrite !bool_decide_true by congruence. eapply wp_mono; [by apply (runqueue_add_wp s ready asleep c th); auto|]. cbn beta. by intros _ s' (? & ? & ? & ?).
    - rewrite !bool_decide_false by congruence. by os_step. }
  os_step. eapply wp_mono; [exact Hjoin|]. cbn beta. intros _ s1 (HC1 & Hcpu1 & [Hp1 Hh1 Hm1] & Hth1).
  assert (∀ u, kept <$> threads s1 !! u = kept <$> threads s !! u) as Hlive1.
  { intros u. rewrite Hth1. destruct (rejoins s c); [|done]. destruct (decide (u = c)) as [->|]; [by rewrite lookup_insert_eq, Hth|by rewrite lookup_insert_ne]. }
  assert (∀ u, (u = c → rejoins s u = false) → t_state <$> threads s1 !! u = t_state <$> threads s !! u) as Hstate1.
  { intros u Hu. rewrite Hth1. destruct (decide (u = c)) as [->|]; [by rewrite Hu|]. destruct (rejoins s c); [by rewrite lookup_insert_ne|done]. }
  os_step. eapply wp_mono; [by apply (runqueue_next_wp s1 _ asleep HC1)|]. cbn beta.
  intros t s2 (-> & HC2 & Hnt & Hna & Hth2 & Hcpu2 & [Hp2 Hh2 Hm2]). rewrite Hcpu1 in *. set (t := hd _ _) in *.
  assert (is_Some (threads s2 !! t)) as [tht Htht].
  { rewrite Hth2. unfold t. destruct (queue_after s ready) as [|x l] eqn:Eq; cbn [hd].
    - pose proof (proj1 (so_idle _ _ _ HC1)) as H. by rewrite Hcpu1 in H.
    - apply (ready_live _ _ _ x HC1). left. }
  destruct (so_names _ _ _ HC2 t ltac:(by eexists)) as [Ht0 _]. rewrite (proj2 (Z.eqb_neq t 0)) by done. cbn [orb].
  destruct (Z.eqb_spec t c) as [Etc|Etc].
  - rewrite (proj2 (Z.eqb_neq c 0)) by done. cbn [negb]. rewrite Etc in *.
    assert (t_state th = THREAD_RUNNING) as Hst.
    { unfold t, queue_after, rejoins in Etc. fold c in Etc. rewrite Hth in Etc. cbn [fmap option_fmap option_map] in Etc.
      destruct (decide (t_state th = THREAD_RUNNING)) as [|Hn]; [done|]. exfalso.
      rewrite (bool_decide_false (Some (t_state th) = _)), andb_false_r in Etc by congruence.
      destruct ready as [|x l]; cbn [hd] in Etc; [|subst x; apply Hcr; left]. specialize (Hidle (eq_sym Etc)). rewrite Hth in Hidle. by inversion Hidle. }
    destruct (Hruns th Hth Hst) as (th' & _ & Hth' & _ & He & Hd). rewrite Hth in Hth'. inversion Hth'; subst th'.
    assert (t_proc tht = t_proc th ∧ t_stack tht = t_stack th ∧ t_stack_size tht = t_stack_size th) as (E1 & E2 & E3).
    { rewrite Hth2, Hth1 in Htht. destruct (rejoins s c); [rewrite lookup_insert_eq in Htht; by inversion Htht|].
      rewrite Hth in Htht. by inversion Htht. }
    os_step. eapply get_thread_wp; [exact Htht|]. os_step.
    pose proof (core_put_thread s2 _ asleep c tht (with_state THREAD_RUNNING tht) HC2 Htht Hnt Hna eq_refl) as HC3.
    split_and!.
    + split; [exact HC3|]. right. cbn. rewrite Hcpu2. fold c. by rewrite lookup_insert_eq.
    + exists (with_state THREAD_RUNNING tht). cbn [threads set_threads cpu mm]. rewrite lookup_insert_eq, Hcpu2, Hm2, Hm1.
      cbn. rewrite E2, E3.
      split_and!; [done|done|done|done|]. unfold directory_of, proc_at in *. cbn. by rewrite E1, Hp2, Hp1, Hm2, Hm1.
    + split; cbn; rewrite ?Hp2, ?Hp1, ?Hh2, ?Hh1, ?Hm2, ?Hm1, ?Hcpu2, ?Hcpu1; try done. intros u. rewrite <- Hlive1, <- Hth2.
      destruct (decide (u = c)) as [->|]; [by rewrite lookup_insert_eq, Htht|by rewrite lookup_insert_ne].
    + intros u Hut Hu. cbn. rewrite lookup_insert_ne by done. rewrite Hth2. by apply Hstate1.
  - os_step. eapply wp_mono; [by apply (activate_wp s2 (tail (queue_after s ready)) asleep t tht)|]. cbn beta.
    intros _ s3 (HC3 & Hruns3 & Hth3 & Hp3 & Hh3 & Hi3 & Htk3 & _ & Hpd3).
    assert (∀ u, kept <$> threads s3 !! u = kept <$> threads s !! u) as Hlive3.
    { intros u. rewrite <- Hlive1, <- Hth2, Hth3. destruct (decide (u = t)) as [->|]; [by rewrite lookup_insert_eq, Htht|by rewrite lookup_insert_ne]. }
    eapply wp_mono; [apply (switch_wp s3 (tail (queue_after s ready)) asleep c t HC3 Hruns3); right; specialize (Hlive3 c); rewrite Hth in Hlive3; by destruct (threads s3 !! c)|]. cbn beta.
    intros _ s4 (HC4 & Hruns4 & Hst4 & Hp4 & Hh4 & Hi4 & Htk4 & Hpd4). split_and!; [|exact Hruns4| |].
    + split; [exact HC4|]. right. destruct Hruns4 as (tht' & -> & Ht4 & _). by rewrite Ht4.
    + split; [congruence..|]. intros u. rewrite <- Hlive3. specialize (Hst4 u).
      destruct (threads s4 !! u), (threads s3 !! u); try done. cbn in *. injection Hst4. intros. unfold kept, with_state, with_esp. cbn. congruence.
    + intros u Hut Hu. rewrite <- (Hstate1 u Hu), <- Hth2. specialize (Hst4 u). rewrite Hth3, lookup_insert_ne in Hst4 by done.
      destruct (threads s4 !! u), (threads s2 !! u); try done. cbn in *. injection Hst4. congruence.
Qed.

(** ** Waking *)

Lemma sleepers_drop m a l1 t l2 :
  sleepers m a (l1 ++ t :: l2) → ∃ th, m !! t = Some th ∧ t_state th = THREAD_SLEEPING ∧ t ≠ 0 ∧ sleepers m (t_next_sleep th) l2.
Proof.
  revert a. induction l1 as [|u l1 IH]; intros a; cbn; [intros (_ & H0 & th & Ht & Hs & Hl); by exists th|].
  intros (_ & _ & th & _ & _ & Hl). by eapply IH.
Qed.

Lemma sleepers_unlink m a l0 u t l2 thu tht w :
  sleepers m a (l0 ++ u :: t :: l2) → NoDup (l0 ++ u :: t :: l2) → m !! u = Some thu → m !! t = Some tht →
  sleepers (<[u := with_sleep w (t_next_sleep tht) thu]> m) a (l0 ++ u :: l2).
Proof.
  revert a. induction l0 as [|v l0 IH]; intros a; cbn.
  - intros (-> & H0 & th & Hu & Hs & (Etu & Ht0 & th' & Ht & Hst & Hl)) Hnd Hu' Ht'. split_and!; [done|done|].
    exists (with_sleep w (t_next_sleep tht) thu). rewrite lookup_insert_eq. rewrite Hu in Hu'. inversion Hu'; subst thu.
    rewrite Ht in Ht'. inversion Ht'; subst tht. split_and!; [done|done|]. eapply sleepers_frame; [exact Hl|].
    intros x Hx. rewrite lookup_insert_ne; [done|]. intros ->. apply NoDup_cons in Hnd as [Hnd _]. apply Hnd. by right.
  - intros (-> & H0 & th & Hv & Hs & Hl) Hnd Hu' Ht'. apply NoDup_cons in Hnd as [Hvn Hnd]. split_and!; [done|done|].
    exists th. rewrite lookup_insert_ne; [|intros ->; apply Hvn; set_solver]. split_and!; [done|done|]. by apply IH.
Qed.

Definition link_behind (l1 : list Z) : sleep_link := match last l1 with Some u => Field u | None => Head end.

Lemma read_sleep_run s ready l1 l2 :
  sched_core s ready (l1 ++ l2) → read_sleep (link_behind l1) s = Some (hd 0 l2, s).
Proof.
  intros HC. pose proof (so_asleep _ _ _ HC) as Hs. unfold link_behind. destruct (exists_last_or l1) as [->|(l0 & u & ->)].
  - cbn in *. unfold mbind, cmd_bind. cbn. unfold mret, cmd_ret. f_equal. f_equal. destruct l2; cbn in *; [done|]. by destruct Hs as (-> & _).
  - rewrite last_snoc. rewrite <- app_assoc in Hs. cbn in Hs. apply sleepers_drop in Hs as (th & Hu & _ & _ & Hl).
    unfold read_sleep. erewrite bind_run by (unfold get_thread, cread; by rewrite Hu). unfold mret, cmd_ret. f_equal. f_equal.
    destruct l2; cbn in *; [done|]. by destruct Hl as (-> & _).
Qed.

(** What waking leaves alone; the fields that the sleepers use may change. *)
Definition same_thread (th th' : thread) : Prop :=
  t_esp th' = t_esp th ∧ t_stack th' = t_stack th ∧ t_stack_size th' = t_stack_size th ∧ t_entry th' = t_entry th ∧
  t_arg th' = t_arg th ∧ t_proc th' = t_proc th ∧ t_signals th' = t_signals th.
Record unslept (l : list Z) s s' : Prop := {
  un_rest : same_rest s s';
  un_cpu : set_sleep_queue 0 (cpu s') = set_sleep_queue 0 (cpu s);
  un_live : ∀ u, is_Some (threads s' !! u) → is_Some (threads s !! u);
  un_threads : ∀ u th, threads s !! u = Some th → ∃ th', threads s' !! u = Some th' ∧ same_thread th th' ∧ (u ∉ l → th' = th)
}.

Lemma unslept_refl l s : unslept l s s.
Proof. split; [done|done|done|]. intros u th Hu. exists th. split_and!; [done|by repeat split|done]. Qed.

Lemma unslept_trans l s1 s2 s3 : unslept l s1 s2 → unslept l s2 s3 → unslept l s1 s3.
Proof.
  intros [[A1 A2 A3] A4 A5 A6] [[B1 B2 B3] B4 B5 B6]. split; [split; congruence|congruence|auto|].
  intros u th Hu. destruct (A6 u th Hu) as (th' & Hu' & Hs & He). destruct (B6 u th' Hu') as (th'' & Hu'' & Hs' & He').
  exists th''. split_and!; [done|unfold same_thread in *; intuition congruence|]. intros Hl. rewrite He' by done. by apply He.
Qed.

Lemma put_unslept l s t th th' :
  threads s !! t = Some th → same_thread th th' → t ∈ l → unslept l s (set_threads (<[t := th']> (threads s)) s).
Proof.
  intros Ht Hs Hin. split; [done|done| |].
  - intros u. cbn. destruct (decide (u = t)) as [->|]; [by rewrite Ht|by rewrite lookup_insert_ne].
  - intros u thu Hu. cbn. destruct (decide (u = t)) as [->|Hne].
    + exists th'. rewrite lookup_insert_eq. rewrite Ht in Hu. inversion Hu; subst. by split_and!.
    + exists thu. rewrite lookup_insert_ne by done. split_and!; [done|by repeat split|done].
Qed.

(** Unlinking the sleeper behind [l1]. *)
Lemma unlink_sleeper_wp s ready l1 t l2 th :
  sched_core s ready (l1 ++ t :: l2) → threads s !! t = Some th →
  wp (write_sleep (link_behind l1) (t_next_sleep th);; th ← get_thread t; put_thread t (with_sleep 0 0 th))
    (λ _ s', sched_core s' ready (l1 ++ l2) ∧ unslept (l1 ++ t :: l2) s s' ∧
       (∀ u, t_state <$> threads s' !! u = t_state <$> threads s !! u) ∧
       (∀ u, u ≠ t → t_wakeup <$> threads s' !! u = t_wakeup <$> threads s !! u) ∧
       threads s' !! t = Some (with_sleep 0 0 th)) s.
Proof.
  intros HC Ht. pose proof (so_nodup _ _ _ HC) as Hnd. pose proof (so_asleep _ _ _ HC) as Hs.
  assert (t ∉ l1 ++ l2) as Htn by (apply NoDup_app in Hnd as (_ & H2 & [H3 _]%NoDup_cons); set_solver).
  assert (∃ s1, write_sleep (link_behind l1) (t_next_sleep th) s = Some (tt, s1) ∧ lk s1 = lk s ∧ unslept (l1 ++ t :: l2) s s1 ∧
    threads s1 !! t = Some th ∧ (∀ u, t_state <$> threads s1 !! u = t_state <$> threads s !! u) ∧
    (∀ u, t_wakeup <$> threads s1 !! u = t_wakeup <$> threads s !! u) ∧ sleepers (threads s1) (sleep_queue (cpu s1)) (l1 ++ l2))
    as (s1 & Hrun & Hlk & Hun & Ht1 & Hst & Hwk & Hs1).
  { unfold link_behind. destruct (exists_last_or l1) as [->|(l0 & u & ->)].
    - eexists. split; [done|]. cbn. split_and!; [done|split; try done|done|done|done|].
      + intros u thu Hu. exists thu. split_and!; [done|by repeat split|done].
      + cbn in Hs. destruct Hs as (_ & _ & th' & Ht' & _ & Hl). rewrite Ht in Ht'. by inversion Ht'.
    - rewrite last_snoc. rewrite <- !app_assoc in *. cbn [app] in *. pose proof Hs as Hs'. apply sleepers_drop in Hs' as (thu & Hu & _ & _ & _).
      assert (u ≠ t) as Hut by (intros ->; apply Htn; set_solver).
      eexists. split; [unfold write_sleep; by erewrite bind_run by (unfold get_thread, cread; by rewrite Hu)|].
      cbn [lk threads set_threads cpu]. split_and!; [done|apply (put_unslept _ s u thu); [done|by repeat split|set_solver]|by rewrite lookup_insert_ne| | |by eapply sleepers_unlink].
      + intros v. destruct (decide (v = u)) as [->|]; [by rewrite lookup_insert_eq, Hu|by rewrite lookup_insert_ne].
      + intros v. destruct (decide (v = u)) as [->|]; [by rewrite lookup_insert_eq, Hu|by rewrite lookup_insert_ne]. }
  os_step. eapply wp_eq; [exact Hrun|]. os_step. eapply get_thread_wp; [exact Ht1|]. os_step.
  assert (unslept (l1 ++ t :: l2) s (set_threads (<[t := with_sleep 0 0 th]> (threads s1)) s1)) as Hun'.
  { eapply unslept_trans; [exact Hun|]. apply (put_unslept _ s1 t th); [done|by repeat split|set_solver]. }
  assert (∀ u, t_state <$> <[t := with_sleep 0 0 th]> (threads s1) !! u = t_state <$> threads s !! u) as Hst'.
  { intros u. destruct (decide (u = t)) as [->|]; [by rewrite lookup_insert_eq, Ht|by rewrite lookup_insert_ne]. }
  split_and!; [|exact Hun'|exact Hst'| |cbn; by rewrite lookup_insert_eq].
  2:{ intros u Hu. cbn. by rewrite lookup_insert_ne by done. }
  pose proof (un_cpu _ _ _ Hun') as Hcpu. apply (f_equal g_idle_thread) in Hcpu. cbn in Hcpu.
  destruct HC as [H1 H2 H3 H4 H5 H6 [H7 H7'] H8]. split; cbn [lk threads cpu set_threads].
  - by rewrite Hlk.
  - intros u Hu. rewrite Hcpu, Hst'. by apply H2.
  - intros u Hu Hnu. rewrite Hlk. apply H3; [by apply (un_live _ _ _ Hun')|done].
  - intros u Hu. apply H4. by apply (un_live _ _ _ Hun').
  - eapply sleepers_frame; [exact Hs1|]. intros u Hu. rewrite lookup_insert_ne; [done|]. by intros ->.
  - apply NoDup_app in H6 as (N1 & N2 & [_ N3]%NoDup_cons). apply NoDup_app. split_and!; [done|set_solver|done].
  - rewrite Hcpu. split; [|set_solver]. destruct H7 as [thi Hi]. destruct (un_threads _ _ _ Hun' _ _ Hi) as (thi' & Hi' & _). by exists thi'.
  - intros u thu Hu. destruct (un_live _ _ _ Hun' u ltac:(by eexists)) as [th0 Hu0].
    destruct (un_threads _ _ _ Hun' _ _ Hu0) as (th1 & Hu1 & Hsame & _). cbn in Hu1. rewrite Hu in Hu1. inversion Hu1; subst th1.
    destruct Hsame as (_ & _ & _ & _ & _ & Hp & _). rewrite Hp. destruct (H8 u th0 Hu0) as [?|Hx]; [by left|right].
    unfold proc_at in *. cbn. by rewrite (sr_procs _ _ (un_rest _ _ _ Hun)).
Qed.

(** The sleepers of [l] that are due at [now], in the order of the list. *)
Definition wakeup_of (m : gmap Z thread) (t : Z) : Z := default 0 (t_wakeup <$> m !! t).
Definition due (m : gmap Z thread) (now : Z) (l : list Z) : list Z := filter (λ t, wakeup_of m t ≤ now) l.
Definition not_due (m : gmap Z thread) (now : Z) (l : list Z) : list Z := filter (λ t, ¬ wakeup_of m t ≤ now) l.

Lemma due_ext m m' now l :
  (∀ t, t ∈ l → t_wakeup <$> m' !! t = t_wakeup <$> m !! t) → due m' now l = due m now l ∧ not_due m' now l = not_due m now l.
Proof.
  intros H. assert (∀ t, t ∈ l → wakeup_of m' t = wakeup_of m t) as Hw by (intros t Ht; unfold wakeup_of; by rewrite H).
  clear H. unfold due, not_due. induction l as [|t l IH]; [done|]. rewrite !filter_cons.
  rewrite (Hw t) by left. destruct IH as [-> ->]; [intros u Hu; apply Hw; by right|done].
Qed.

Lemma same_thread_state th x : same_thread th (with_state x th).
Proof. by repeat split. Qed.

Lemma wake_loop_wp fuel s ready l1 l2 all :
  sched_core s ready (l1 ++ l2) → (∀ u, u ∈ l1 ++ l2 → u ∈ all) → (length l2 < fuel)%nat →
  wp (wake_loop fuel (link_behind l1)) (λ _ s',
    let now := g_pit_ticks (cpu s) in
    sched_core s' (ready ++ due (threads s) now l2) (l1 ++ not_due (threads s) now l2) ∧ unslept all s s' ∧
    (∀ u, (u ∉ due (threads s) now l2) → t_wakeup <$> threads s' !! u = t_wakeup <$> threads s !! u)) s.
Proof.
  revert s ready l1 l2. induction fuel as [|fuel IH]; intros s ready l1 l2 HC Hall Hf; [lia|]. cbn [wake_loop]. os_step.
  eapply wp_eq; [by eapply read_sleep_run|]. destruct l2 as [|t l2]; cbn [hd].
  { rewrite Z.eqb_refl. os_step. cbn. rewrite !app_nil_r in *. split_and!; [done|apply unslept_refl|done]. }
  destruct (sleepers_drop _ _ _ _ _ (so_asleep _ _ _ HC)) as (th & Ht & Hst & Ht0 & _).
  rewrite (proj2 (Z.eqb_neq t 0)) by done. os_step. eapply get_thread_wp; [exact Ht|]. os_step. os_step.
  pose proof (so_nodup _ _ _ HC) as Hnd.
  assert (t ∉ l1 ++ l2) as Htn by (apply NoDup_app in Hnd as (_ & H2 & [H3 _]%NoDup_cons); set_solver).
  assert (wakeup_of (threads s) t = t_wakeup th) as Hw by (unfold wakeup_of; by rewrite Ht).
  destruct (Z.leb_spec (t_wakeup th) (g_pit_ticks (cpu s))) as [Hdue|Hdue].
  - assert (due (threads s) (g_pit_ticks (cpu s)) (t :: l2) = t :: due (threads s) (g_pit_ticks (cpu s)) l2 ∧
      not_due (threads s) (g_pit_ticks (cpu s)) (t :: l2) = not_due (threads s) (g_pit_ticks (cpu s)) l2) as [-> ->].
    { unfold due, not_due. rewrite filter_cons_True, filter_cons_False by (rewrite Hw; lia). done. }
    eapply (wp_run_eq _ ((write_sleep (link_behind l1) (t_next_sleep th);; th ← get_thread t; put_thread t (with_sleep 0 0 th));;
      runqueue_add t;; wake_loop fuel (link_behind l1))).
    { unfold mbind, cmd_bind. destruct (write_sleep _ _ s) as [[[] s0]|]; [|done]. by destruct (get_thread t s0) as [[? ?]|]. }
    os_step. eapply wp_mono; [by apply (unlink_sleeper_wp s ready l1 t l2 th)|]. cbn beta. intros _ s1 (HC1 & Hun1 & Hst1 & Hwk1 & Ht1).
    pose proof (un_cpu _ _ _ Hun1) as Hcpu1.
    assert (t ∉ ready) as Htr by (intros Hr; apply (ready_not_asleep s ready _ t HC Hr); set_solver).
    assert (t ≠ g_idle_thread (cpu s1)) as Hti.
    { apply (f_equal g_idle_thread) in Hcpu1. cbn in Hcpu1. rewrite Hcpu1. intros ->. apply (proj2 (so_idle _ _ _ HC)). set_solver. }
    os_step. eapply wp_mono; [by apply (runqueue_add_wp s1 ready (l1 ++ l2) t _ HC1 Ht1)|]. cbn beta.
    intros _ s2 (HC2 & Hth2 & Hcpu2 & Hrest2).
    eapply wp_mono; [apply (IH s2 (ready ++ [t]) l1 l2 HC2); [set_solver|cbn in Hf; lia]|]. cbn beta zeta. intros _ s3 (HC3 & Hun3 & Hwk3).
    assert (g_pit_ticks (cpu s2) = g_pit_ticks (cpu s)) as Htk.
    { rewrite Hcpu2. by apply (f_equal g_pit_ticks) in Hcpu1. }
    destruct (due_ext (threads s) (threads s2) (g_pit_ticks (cpu s)) l2) as [E1 E2].
    { intros u Hu. assert (u ≠ t) as Hut by (intros ->; apply Htn; set_solver). rewrite Hth2, lookup_insert_ne by done. by apply Hwk1. }
    rewrite Htk, E1, E2 in HC3. rewrite Htk, E1 in Hwk3. split_and!; [by rewrite <- app_assoc in HC3| |].
    2:{ intros u Hu. rewrite not_elem_of_cons in Hu. destruct Hu as [Hut Hu]. rewrite (Hwk3 u Hu), Hth2, lookup_insert_ne by done. by apply Hwk1. }
    eapply unslept_trans; [|exact Hun3]. eapply unslept_trans.
    { destruct Hun1 as [U1 U2 U3 U4]. split; [exact U1|exact U2|exact U3|]. intros u thu Hu. destruct (U4 u thu Hu) as (th' & ? & ? & He).
      exists th'. split_and!; [done|done|]. intros Hn. apply He. intros Hin. by apply Hn, Hall. }
    assert (unslept all s1 (set_threads (<[t := with_state THREAD_RUNNABLE (with_sleep 0 0 th)]> (threads s1)) s1)) as [U1 U2 U3 U4].
    { apply (put_unslept all s1 t (with_sleep 0 0 th)); [done|apply same_thread_state|apply Hall; set_solver]. }
    split; [exact Hrest2|by rewrite Hcpu2|by rewrite Hth2|by rewrite Hth2].
  - assert (due (threads s) (g_pit_ticks (cpu s)) (t :: l2) = due (threads s) (g_pit_ticks (cpu s)) l2 ∧
      not_due (threads s) (g_pit_ticks (cpu s)) (t :: l2) = t :: not_due (threads s) (g_pit_ticks (cpu s)) l2) as [-> ->].
    { unfold due, not_due. rewrite filter_cons_False, filter_cons_True by (rewrite Hw; lia). done. }
    pose proof (IH s ready (l1 ++ [t]) l2) as H. rewrite <- !app_assoc in H. unfold link_behind in H. rewrite last_snoc in H.
    eapply wp_mono; [apply H; [exact HC|exact Hall|cbn in Hf; lia]|]. cbn beta zeta. intros _ s' (H1 & H2 & H3). split_and!; [by rewrite <- app_assoc in H1|done|done].
Qed.

Lemma asleep_bound s ready asleep : sched_core s ready asleep → (length asleep ≤ size (threads s))%nat.
Proof.
  intros HC. rewrite <- size_dom. rewrite <- (size_list_to_set (C := gset Z)) by apply HC. apply subseteq_size.
  intros a Ha%elem_of_list_to_set. apply elem_of_dom. by eapply asleep_live.
Qed.

Lemma wake_wp s ready asleep :
  sched_ok s ready asleep →
  wp sched_wake_sleepers (λ _ s',
    sched_ok s' (ready ++ due (threads s) (g_pit_ticks (cpu s)) asleep) (not_due (threads s) (g_pit_ticks (cpu s)) asleep) ∧
    unslept asleep s s' ∧
    (∀ u, (u ∉ due (threads s) (g_pit_ticks (cpu s)) asleep) → t_wakeup <$> threads s' !! u = t_wakeup <$> threads s !! u)) s.
Proof.
  intros [HC Hcur]. unfold sched_wake_sleepers. os_step. os_step.
  pose proof (wake_loop_wp (S (size (threads s))) s ready [] asleep asleep HC ltac:(done) ltac:(pose proof (asleep_bound _ _ _ HC); lia)) as H.
  eapply wp_mono; [exact H|]. cbn beta zeta. intros _ s' (HC' & Hun & Hwk). split; [|done]. split; [exact HC'|].
  pose proof (un_cpu _ _ _ Hun) as Hcpu. apply (f_equal g_current) in Hcpu. cbn in Hcpu. rewrite Hcpu.
  destruct Hcur as [?|([th Hth] & Hr & Ha)]; [by left|right]. destruct (un_threads _ _ _ Hun _ _ Hth) as (th' & Hth' & _).
  split_and!; [by rewrite Hth'| |].
  - rewrite elem_of_app. intros [?|[_ ?]%list_elem_of_filter]; done.
  - intros [_ ?]%list_elem_of_filter. done.
Qed.

Lemma runs_unslept l s s' t : unslept l s s' → runs s t → (t ∉ l) → runs s' t.
Proof.
  intros Hun (th & Hc & Ht & Hst & He & Hd) Hl. pose proof (un_cpu _ _ _ Hun) as Hcpu.
  destruct (un_threads _ _ _ Hun _ _ Ht) as (th' & Ht' & _ & E). rewrite (E Hl) in Ht'. destruct (un_rest _ _ _ Hun) as [R1 R2 R3].
  exists th. pose proof (f_equal g_current Hcpu) as C1. pose proof (f_equal esp0 Hcpu) as C2. cbn in C1, C2.
  split_and!; [congruence|done|done|congruence|]. unfold directory_of, proc_at in *. by rewrite R1, R3.
Qed.

(** A state in which a thread runs. *)
Definition active s (ready asleep : list Z) : Prop := sched_ok s ready asleep ∧ runs s (g_current (cpu s)).

Lemma active_current s ready asleep :
  active s ready asleep → g_current (cpu s) ≠ 0 ∧ is_Some (threads s !! g_current (cpu s)) ∧
    t_state <$> threads s !! g_current (cpu s) = Some THREAD_RUNNING ∧ (g_current (cpu s) ∉ ready) ∧ (g_current (cpu s) ∉ asleep).
Proof.
  intros [[HC Hcur] (th & _ & Ht & Hst & _)]. assert (is_Some (threads s !! g_current (cpu s))) as Hl by (by eexists).
  destruct (so_names _ _ _ HC _ Hl) as [H0 _]. destruct Hcur as [?|(_ & ? & ?)]; [done|]. split_and!; try done. by rewrite Ht, <- Hst.
Qed.

Lemma active_yield_wp s ready asleep :
  active s ready asleep →
  wp ksched_yield (λ _ s', active s' (tail (queue_after s ready)) asleep ∧
    g_current (cpu s') = hd (g_idle_thread (cpu s)) (queue_after s ready) ∧ yielded s s') s.
Proof.
  intros HA. pose proof (active_current _ _ _ HA) as (H0 & Hl & Hst & Hr & _). destruct HA as [[HC _] HR].
  eapply wp_mono; [by apply (yield_wp s ready asleep HC Hl Hr)|]. cbn beta. intros _ s' (HO' & HR' & HY & _).
  assert (g_current (cpu s') = hd (g_idle_thread (cpu s)) (queue_after s ready)) as E by (by destruct HR' as (? & ? & _)).
  split_and!; [|done|done]. split; [done|]. by rewrite E.
Qed.

Fixpoint yields (n : nat) : cmd os unit :=
  match n with O => mret tt | S n => ksched_yield;; yields n end.

(** A queue turned by [n] places. *)
Fixpoint turn (n : nat) (l : list Z) : list Z :=
  match n with O => l | S n => turn n (tail l ++ take 1 l) end.

Lemma turn_to l1 l2 : turn (length l1) (l1 ++ l2) = l2 ++ l1.
Proof.
  revert l2. induction l1 as [|t l1 IH]; intros l2; cbn; [by rewrite app_nil_r|].
  rewrite take_0, <- app_assoc, IH. by rewrite <- app_assoc.
Qed.

Lemma turn_all l : turn (length l) l = l.
Proof. rewrite <- (app_nil_r l) at 2. by rewrite turn_to. Qed.

Lemma yielded_trans s1 s2 s3 : yielded s1 s2 → yielded s2 s3 → yielded s1 s3.
Proof. intros [A1 A2 A3 A4 A5 A6] [B1 B2 B3 B4 B5 B6]. split; [congruence..|]. intros u. by rewrite B6. Qed.

Lemma yields_wp n s ready asleep :
  active s ready asleep → g_current (cpu s) ≠ g_idle_thread (cpu s) →
  wp (yields n) (λ _ s', ∃ ready', active s' ready' asleep ∧ yielded s s' ∧
    g_current (cpu s') :: ready' = turn n (g_current (cpu s) :: ready)) s.
Proof.
  revert s ready. induction n as [|n IH]; intros s ready HA Hi; cbn [yields].
  { os_step. exists ready. split_and!; [done|by split|done]. }
  pose proof (active_current _ _ _ HA) as (H0 & _ & Hst & _ & _).
  assert (queue_after s ready = ready ++ [g_current (cpu s)]) as Hq.
  { unfold queue_after, rejoins. rewrite bool_decide_true by done. by rewrite (proj2 (Z.eqb_neq _ 0)), (proj2 (Z.eqb_neq _ _)). }
  os_step. eapply wp_mono; [by apply active_yield_wp|]. cbn beta. rewrite Hq. intros _ s1 (HA1 & Hc1 & HY1).
  assert (g_current (cpu s1) ≠ g_idle_thread (cpu s1)) as Hi1.
  { rewrite (yd_idle _ _ HY1), Hc1. destruct ready as [|t ready]; [done|]. cbn. destruct HA as [[HC _] _].
    apply (so_ready _ _ _ HC t). left. }
  eapply wp_mono; [apply (IH s1 _ HA1 Hi1)|]. cbn beta. intros _ s2 (ready2 & HA2 & HY2 & E2).
  exists ready2. split_and!; [done|by eapply yielded_trans|]. rewrite E2, Hc1. cbn [turn tail take]. by destruct ready.
Qed.

(** Going to sleep. *)
Definition wakeup_tick s (ticks : Z) : Z := g_pit_ticks (cpu s) + (if negb (ticks =? 0) then ticks else 1).

Lemma sleep_wp s ready asleep ticks :
  active s ready asleep → g_current (cpu s) ≠ g_idle_thread (cpu s) → is_u32 (g_pit_ticks (cpu s)) → 0 ≤ ticks < 2 ^ 63 →
  wp (sched_sleep ticks) (λ _ s',
    active s' (tail ready) (g_current (cpu s) :: asleep) ∧ g_current (cpu s') = hd (g_idle_thread (cpu s)) ready ∧
    g_pit_ticks (cpu s') = g_pit_ticks (cpu s) ∧
    wakeup_of (threads s') (g_current (cpu s)) = wakeup_tick s ticks) s.
Proof.
  intros HA Hi Htk Ht. pose proof (active_current _ _ _ HA) as (H0 & [th Hth] & Hst & Hcr & Hca). set (c := g_current (cpu s)) in *.
  unfold sched_sleep. os_step. os_step. fold c. rewrite (proj2 (Z.eqb_neq c 0)), (proj2 (Z.eqb_neq c _)) by done. cbn [orb].
  os_step. eapply get_thread_wp; [exact Hth|]. os_step. os_step. os_step. os_step. cbn [cpu set_threads].
  rewrite u64_small by (unfold is_u32 in *; destruct (ticks =? 0); cbn; lia).
  set (th' := with_state THREAD_SLEEPING _).
  set (s1 := set_cpu (set_sleep_queue c (cpu s)) (set_threads (<[c := th']> (threads s)) s)).
  assert (sched_core s1 ready (c :: asleep)) as HC1.
  { destruct HA as [[HC _] _]. pose proof (core_put_thread s ready asleep c th th' HC Hth Hcr Hca eq_refl) as [A1 A2 A3 A4 A5 A6 [A7 A7'] A8].
    cbn [lk threads cpu set_threads] in *.
    split; cbn [lk threads cpu set_threads set_cpu s1 g_idle_thread sleep_queue set_sleep_queue]; try done.
    - cbn. rewrite lookup_insert_eq. split_and!; [done|done|]. by exists th'.
    - by apply NoDup_cons.
    - split; [done|]. rewrite elem_of_cons. naive_solver. }
  assert (threads s1 !! c = Some th') as Hc1 by (cbn; by rewrite lookup_insert_eq).
  assert (queue_after s1 ready = ready) as Hq.
  { unfold queue_after, rejoins. change (g_current (cpu s1)) with c. rewrite Hc1.
    rewrite (bool_decide_false (t_state <$> Some th' = _)) by done. by rewrite andb_false_r. }
  eapply wp_mono; [apply (yield_wp s1 ready (c :: asleep) HC1); change (g_current (cpu s1)) with c; rewrite ?Hc1;
    [by eexists|done|by intros ? [= <-]|done]|]. cbn beta. rewrite Hq.
  change (g_idle_thread (cpu s1)) with (g_idle_thread (cpu s)). intros _ s' (HO' & HR' & HY & _).
  assert (g_current (cpu s') = hd (g_idle_thread (cpu s)) ready) as E by (by destruct HR' as (? & ? & _)).
  split_and!; [split; [done|by rewrite E]|done|by rewrite (yd_ticks _ _ HY)|].
  unfold wakeup_of. by rewrite (yd_wakeup _ _ _ HY), Hc1.
Qed.

(** The timer. *)
Lemma pit_handler_wp s ready asleep :
  active s ready asleep →
  let now := u32 (g_pit_ticks (cpu s) + 1) in
  wp pit_handler (λ _ s',
    active s' (ready ++ due (threads s) now asleep) (not_due (threads s) now asleep) ∧
    g_pit_ticks (cpu s') = now ∧ reschedule_pending (cpu s') = true ∧ g_current (cpu s') = g_current (cpu s) ∧
    (∀ u, (u ∉ due (threads s) now asleep) → t_wakeup <$> threads s' !! u = t_wakeup <$> threads s !! u)) s.
Proof.
  intros HA now. destruct HA as [HO HR]. pose proof (active_current s ready asleep (conj HO HR)) as (_ & _ & _ & _ & Hca).
  unfold pit_handler, sched_tick. os_step. os_step. fold now. set (s1 := set_cpu (set_ticks now (cpu s)) s).
  assert (sched_ok s1 ready asleep) as HO1 by (destruct HO as [HC Hc]; split; [by apply core_cpu|exact Hc]).
  os_step. eapply wp_mono; [by apply (wake_wp s1 ready asleep)|]. cbn beta. intros _ s2 (HO2 & Hun & Hwk).
  pose proof (un_cpu _ _ _ Hun) as Hcpu. pose proof (f_equal g_current Hcpu) as E1. pose proof (f_equal g_pit_ticks Hcpu) as E2. cbn in E1, E2.
  os_step. split_and!; [|done|done|done|exact Hwk].
  assert (runs s2 (g_current (cpu s))) as HR2 by (apply (runs_unslept asleep s1 s2); [done|exact HR|done]).
  split; [destruct HO2 as [HC2 Hc2]; split; [by apply core_cpu|exact Hc2]|]. destruct HR2 as (th & H1 & H2 & H3 & H4 & H5). exists th. cbn. rewrite E1. by split_and!.
Qed.

Fixpoint timer_interrupts (n : nat) : cmd os unit :=
  match n with O => mret tt | S n => pit_handler;; timer_interrupts n end.

Lemma due_elem m now l t : t ∈ due m now l ↔ wakeup_of m t ≤ now ∧ t ∈ l.
Proof. unfold due, not_due. by rewrite list_elem_of_filter. Qed.
Lemma not_due_elem m now l t : t ∈ not_due m now l ↔ ¬ wakeup_of m t ≤ now ∧ t ∈ l.
Proof. unfold due, not_due. by rewrite list_elem_of_filter. Qed.

(** A queued thread stays in the queue, and a sleeper waits for its tick. *)
Lemma timer_ready_wp n s ready asleep t :
  active s ready asleep → t ∈ ready →
  wp (timer_interrupts n) (λ _ s', ∃ ready' asleep', active s' ready' asleep' ∧ g_current (cpu s') = g_current (cpu s) ∧ t ∈ ready') s.
Proof.
  revert s ready asleep. induction n as [|n IH]; intros s ready asleep HA Hin; cbn [timer_interrupts]; [os_step; by exists ready, asleep|].
  os_step. eapply wp_mono; [by apply (pit_handler_wp s ready asleep)|]. cbn beta. intros _ s1 (HA1 & _ & _ & Hc1 & _). rewrite <- Hc1.
  eapply IH; [exact HA1|]. apply elem_of_app. by left.
Qed.

Lemma timer_asleep_wp n s ready asleep t w :
  active s ready asleep → is_u32 (g_pit_ticks (cpu s)) → t ∈ asleep → wakeup_of (threads s) t = w → g_pit_ticks (cpu s) < w →
  wp (timer_interrupts n) (λ _ s', ∃ ready' asleep', active s' ready' asleep' ∧ g_current (cpu s') = g_current (cpu s) ∧
    if bool_decide (w < 2 ^ 32 ∧ w ≤ g_pit_ticks (cpu s) + Z.of_nat n) then t ∈ ready' else t ∈ asleep') s.
Proof.
  revert s ready asleep. induction n as [|n IH]; intros s ready asleep HA Htk Hin Hw Hlt; cbn [timer_interrupts].
  { os_step. exists ready, asleep. rewrite bool_decide_false by lia. done. }
  os_step. eapply wp_mono; [by apply (pit_handler_wp s ready asleep)|]. cbn beta. intros _ s1 (HA1 & Htk1 & _ & Hc1 & Hwk). rewrite <- Hc1.
  set (now := u32 (g_pit_ticks (cpu s) + 1)) in *.
  assert (now = g_pit_ticks (cpu s) + 1 ∧ g_pit_ticks (cpu s) + 1 < 2 ^ 32 ∨ now = 0 ∧ 2 ^ 32 ≤ w) as Hnow.
  { unfold is_u32 in Htk. destruct (decide (g_pit_ticks (cpu s) + 1 = 2 ^ 32)) as [E|]; [right|left; split; [apply u32_small|]; lia].
    unfold now. rewrite E. split; [done|lia]. }
  destruct (decide (w ≤ now)) as [Hdue|Hdue].
  - rewrite bool_decide_true by lia. eapply timer_ready_wp; [exact HA1|]. apply elem_of_app. right. rewrite due_elem, Hw. done.
  - assert (wakeup_of (threads s1) t = w) as Hw1.
    { unfold wakeup_of. rewrite Hwk; [exact Hw|]. rewrite due_elem, Hw. tauto. }
    eapply wp_mono; [apply (IH s1 _ _ HA1); [rewrite Htk1; apply u32_range|by rewrite not_due_elem, Hw|exact Hw1|rewrite Htk1; lia]|].
    cbn beta. rewrite Htk1. intros _ s2 (ready2 & asleep2 & HA2 & Hc2 & Hin2). exists ready2, asleep2. split_and!; [done|done|].
    destruct Hnow as [[-> ?]|[-> ?]].
    + by replace (g_pit_ticks (cpu s) + Z.of_nat (S n)) with (g_pit_ticks (cpu s) + 1 + Z.of_nat n) by lia.
    + by rewrite !bool_decide_false in * by lia.
Qed.

(** C22: a sleeping thread hands the processor to the thread at the head of the
    queue, or to the idle thread, and comes back to the queue with exactly the
    timer interrupt that reaches its tick; a tick of 2^32 or more is never
    reached by the 32 bits of the counter, so that thread sleeps for ever. *)
Theorem sched_sleep_until n s ready asleep ticks :
  active s ready asleep → g_current (cpu s) ≠ g_idle_thread (cpu s) → is_u32 (g_pit_ticks (cpu s)) → 0 ≤ ticks < 2 ^ 63 →
  wp (sched_sleep ticks;; timer_interrupts n) (λ _ s', ∃ ready' asleep', active s' ready' asleep' ∧
    g_current (cpu s') = hd (g_idle_thread (cpu s)) ready ∧
    let w := wakeup_tick s ticks in
    if bool_decide (w < 2 ^ 32 ∧ w ≤ g_pit_ticks (cpu s) + Z.of_nat n) then g_current (cpu s) ∈ ready' else g_current (cpu s) ∈ asleep') s.
Proof.
  intros HA Hi Htk Ht. os_step. eapply wp_mono; [by apply sleep_wp|]. cbn beta. intros _ s1 (HA1 & Hc1 & Htk1 & Hw1).
  rewrite <- Hc1, <- Htk1. eapply timer_asleep_wp; [exact HA1|by rewrite Htk1|left|exact Hw1|].
  rewrite Htk1. unfold wakeup_tick. destruct (Z.eqb_spec ticks 0); cbn; lia.
Qed.


(** ** The process table *)

Definition used_at s (i : nat) : Prop := g_proc_used (procs s) !! i = Some true.
(** A used slot holds the process of its number. *)
Record table_ok s : Prop := {
  tk_procs : length (g_procs (procs s)) = 63%nat;
  tk_used : length (g_proc_used (procs s)) = 63%nat;
  tk_pid : ∀ i x, used_at s i → g_procs (procs s) !! i = Some x → p_pid x = Z.of_nat i + 1
}.

Lemma slot_at i s : proc_at (slot_proc (Z.of_nat i)) s = g_procs (procs s) !! i.
Proof.
  unfold proc_at, slot_proc, BOOT_PROC. rewrite (proj2 (Z.eqb_neq _ 1)), (proj2 (Z.ltb_ge _ 2)) by lia. f_equal. lia.
Qed.

Lemma slot_lookup s i : table_ok s → (i < 63)%nat → ∃ x b, g_procs (procs s) !! i = Some x ∧ g_proc_used (procs s) !! i = Some b.
Proof.
  intros [Hp Hu _] Hi. destruct (lookup_lt_is_Some_2 (g_procs (procs s)) i ltac:(lia)) as [x Hx].
  destruct (lookup_lt_is_Some_2 (g_proc_used (procs s)) i ltac:(lia)) as [b Hb]. by exists x, b.
Qed.

Definition with_slot (i : nat) (x : process) (b : bool) s : os :=
  set_procs (mk_table (g_boot_proc (procs s)) (<[i := x]> (g_procs (procs s))) (<[i := b]> (g_proc_used (procs s)))) s.

Lemma with_slot_ok i x b s : table_ok s → (b = true → p_pid x = Z.of_nat i + 1) → table_ok (with_slot i x b s).
Proof.
  intros [Hp Hu Hid] Hx. split; cbn; rewrite ?length_insert; [done..|]. intros j y. unfold used_at. cbn.
  destruct (decide (j = i)) as [->|Hne]; [|rewrite !list_lookup_insert_ne by done; apply Hid].
  rewrite !list_lookup_insert_Some. intros [(_ & -> & _)|[? _]] [(_ & <- & _)|[? _]]; try done. by apply Hx.
Qed.

Lemma with_slot_at i x b s p :
  table_ok s → (i < 63)%nat → proc_at p (with_slot i x b s) = if p =? slot_proc (Z.of_nat i) then Some x else proc_at p s.
Proof.
  intros [Hp _ _] Hi. unfold proc_at, slot_proc, BOOT_PROC. cbn. destruct (Z.eqb_spec p 1) as [->|]; [by rewrite (proj2 (Z.eqb_neq 1 _)) by lia|].
  destruct (Z.ltb_spec p 2) as [|]; [by rewrite (proj2 (Z.eqb_neq p _)) by lia|]. destruct (Z.eqb_spec p (2 + Z.of_nat i)) as [->|].
  - replace (Z.to_nat (2 + Z.of_nat i - 2)) with i by lia. by rewrite list_lookup_insert_eq by lia.
  - by rewrite list_lookup_insert_ne by lia.
Qed.

(** Creating takes the lowest free slot. *)
Definition first_free s (i : nat) : Prop := (i < 63)%nat ∧ ¬ used_at s i ∧ ∀ j, (j < i)%nat → used_at s j.

Lemma alloc_slot_wp n i s :
  table_ok s → (i + n = 63)%nat → (∀ j, (j < i)%nat → used_at s j) →
  wp (alloc_slot_from n (Z.of_nat i)) (λ p s',
    (p = 0 ∧ s' = s ∧ (∀ j, (j < 63)%nat → used_at s j)) ∨
    ∃ k, first_free s k ∧ p = slot_proc (Z.of_nat k) ∧ s' = with_slot k zero_process true s) s.
Proof.
  revert i. induction n as [|n IH]; intros i HT Hn Hall; cbn [alloc_slot_from].
  { os_step. left. split_and!; [done|done|]. intros j Hj. apply Hall. lia. }
  destruct (slot_lookup s i HT ltac:(lia)) as (x & b & Hx & Hb). os_step. eapply wp_read; [by rewrite Nat2Z.id|]. destruct b; cbn [negb].
  - replace (Z.of_nat i + 1) with (Z.of_nat (S i)) by lia. apply IH; [done|lia|]. intros j Hj.
    destruct (decide (j = i)) as [->|]; [done|]. apply Hall. lia.
  - os_step. unfold set_used. os_step. os_step. unfold put_proc. os_step. eapply get_proc_wp; [rewrite slot_at; exact Hx|]. os_step. os_step.
    right. exists i. split_and!; [split; [lia|]; split; [unfold used_at; by rewrite Hb|done]|done|].
    unfold with_slot, slot_proc, BOOT_PROC. cbn. rewrite (proj2 (Z.eqb_neq _ 1)) by lia.
    by replace (Z.to_nat (2 + Z.of_nat i - 2)) with i by lia; rewrite Nat2Z.id.
Qed.

(** The running process. *)
Definition running_proc s (p : Z) (par : process) : Prop :=
  proc_current s = Some (p, s) ∧ proc_at p s = Some par ∧ (p = BOOT_PROC ∨ ∃ i, p = slot_proc (Z.of_nat i) ∧ used_at s i).

Definition child_of s (par : process) (i : nat) : process :=
  mk_process (Z.of_nat i + 1) (p_pid par) 0 true
    (if bool_decide (p_cwd par !! 0%nat = Some 47) then p_cwd par else slash_cwd (replicate 256 0))
    0 (kernel_pd (mm s)) (kernel_pd_phys (mm s)).

Lemma with_slot_slot i x b y c s : with_slot i y c (with_slot i x b s) = with_slot i y c s.
Proof. unfold with_slot. cbn. by rewrite !list_insert_insert_eq. Qed.

Lemma put_slot_wp i x y b s Q :
  g_procs (procs s) !! i = Some y → g_proc_used (procs s) !! i = Some b → Q tt (with_slot i x b s) →
  wp (put_proc (slot_proc (Z.of_nat i)) x) Q s.
Proof.
  intros Hy Hb HQ. unfold put_proc. os_step. eapply get_proc_wp; [rewrite slot_at; exact Hy|]. os_step.
  unfold slot_proc, BOOT_PROC. rewrite (proj2 (Z.eqb_neq _ 1)) by lia. unfold with_slot in HQ. rewrite (list_insert_id (g_proc_used _) i b Hb) in HQ.
  by replace (Z.to_nat (2 + Z.of_nat i - 2)) with i by lia.
Qed.

Lemma proc_create_wp s p par :
  table_ok s → running_proc s p par →
  wp proc_create (λ r s',
    (r = 0 ∧ s' = s ∧ (∀ j, (j < 63)%nat → used_at s j)) ∨
    ∃ i, first_free s i ∧ r = slot_proc (Z.of_nat i) ∧ s' = with_slot i (child_of s par i) true s) s.
Proof.
  intros HT (Hcur & Hpar & Hlive). unfold proc_create. os_step.
  eapply wp_mono; [apply (alloc_slot_wp 63 0 s HT ltac:(lia)); lia|]. cbn beta. intros r s1 [(-> & -> & Hall)|(i & Hfree & -> & ->)].
  { rewrite Z.eqb_refl. os_step. by left. }
  destruct Hfree as (Hi & Hnu & Hbelow). unfold slot_proc at 1. rewrite (proj2 (Z.eqb_neq _ 0)) by lia. os_step.
  set (s1 := with_slot i zero_process true s).
  assert (proc_current s1 = Some (p, s1)) as Hcur1.
  { revert Hcur. unfold proc_current, mbind, cmd_bind, cget. cbn. unfold s1, with_slot. cbn. destruct (g_current (cpu s) =? 0); cbn; [by intros [= ->]|].
    unfold get_thread, cread. cbn. destruct (threads s !! g_current (cpu s)); [|done]. cbn. unfold mret, cmd_ret. by intros [= ->]. }
  eapply wp_eq; [exact Hcur1|]. os_step.
  assert (proc_at p s1 = Some par) as Hpar1.
  { unfold s1. rewrite with_slot_at by done. rewrite (proj2 (Z.eqb_neq p _)); [done|]. destruct Hlive as [->|(j & -> & Hj)]; unfold slot_proc, BOOT_PROC; [lia|].
    intros E. assert (j = i) as -> by lia. done. }
  eapply get_proc_wp; [exact Hpar1|]. os_step. os_step. os_step. destruct HT as [Hlp Hlu _].
  eapply put_slot_wp; [cbn; by rewrite list_lookup_insert_eq by lia|cbn; by rewrite list_lookup_insert_eq by lia|].
  os_step. right. exists i. split_and!; [by split_and!|done|]. unfold s1. rewrite with_slot_slot. unfold child_of. repeat f_equal. unfold slot_proc. lia.
Qed.

(** Looking up a child: the pids of the used slots are their places. *)
Definition is_child s (parent_pid child_pid : Z) (i : nat) : Prop :=
  ∃ x, g_procs (procs s) !! i = Some x ∧ used_at s i ∧ p_pid x = child_pid ∧ p_ppid x = parent_pid.

Lemma find_child_from_wp n i s pp cp :
  table_ok s → (i + n = 63)%nat → (∀ j, (j < i)%nat → ¬ is_child s pp cp j) →
  wp (find_child_from pp cp n (Z.of_nat i)) (λ r s', s' = s ∧
    ((r = 0 ∧ ∀ j, ¬ is_child s pp cp j) ∨ (∃ j, is_child s pp cp j ∧ r = slot_proc (Z.of_nat j)))) s.
Proof.
  revert i. induction n as [|n IH]; intros i HT Hn Hbelow; cbn [find_child_from].
  { os_step. split; [done|]. left. split; [done|]. intros j Hj. destruct (decide (j < i)%nat); [by apply (Hbelow j)|].
    destruct Hj as (x & Hx & _). apply lookup_lt_Some in Hx. rewrite (tk_procs _ HT) in Hx. lia. }
  destruct (slot_lookup s i HT ltac:(lia)) as (x & b & Hx & Hb). os_step. eapply get_proc_wp; [by rewrite slot_at|]. os_step.
  eapply wp_read; [by rewrite Nat2Z.id|].
  assert (is_child s pp cp i ↔ b && (p_pid x =? cp) && (p_ppid x =? pp) = true) as Hiff.
  { unfold is_child, used_at. rewrite Hx, Hb, !andb_true_iff, !Z.eqb_eq. naive_solver. }
  destruct (b && (p_pid x =? cp) && (p_ppid x =? pp)) eqn:E.
  - os_step. split; [done|right]. exists i. split; [|done]. by apply Hiff.
  - replace (Z.of_nat i + 1) with (Z.of_nat (S i)) by lia. apply IH; [done|lia|]. intros j Hj.
    destruct (decide (j = i)) as [->|]; [|apply Hbelow; lia]. intros Hc. apply Hiff in Hc. done.
Qed.

Lemma find_child_wp s pp cp :
  table_ok s →
  wp (proc_find_child pp cp) (λ r s', s' = s ∧
    ∀ i, Z.of_nat i + 1 = cp → r = slot_proc (Z.of_nat i) ↔ is_child s pp cp i) s.
Proof.
  intros HT. unfold proc_find_child. eapply wp_mono; [apply (find_child_from_wp 63 0 s pp cp HT); lia|]. cbn beta.
  intros r s' (-> & Hr). split; [done|]. intros i Hi. destruct Hr as [(-> & Hno)|(j & Hj & ->)].
  - split; [unfold slot_proc; lia|]. intros Hc. by destruct (Hno i).
  - assert (j = i) as ->; [|done]. pose proof Hj as (x & Hx & Hu & Hp & _). pose proof (tk_pid _ HT j x Hu Hx). lia.
Qed.

(** A thread in neither list is not linked and can be freed. *)
Lemma runqueue_remove_run s ready asleep t :
  sched_core s ready asleep → is_Some (threads s !! t) → (t ∉ ready) → runqueue_remove t s = Some (tt, s).
Proof.
  intros HC Ht Hout. destruct (so_names _ _ _ HC t Ht) as [Ht0 _]. destruct (so_unqueued _ _ _ HC t Ht Hout) as (l & Hl & Hn).
  unfold runqueue_remove. rewrite (proj2 (Z.eqb_neq t 0)) by done.
  erewrite bind_run by (unfold on_links, czoom, get_link, cread; by rewrite Hl). rewrite same_lk.
  by assert ((l_next l =? 0) || (l_next l =? t) = true) as -> by (destruct Hn as [-> | ->]; rewrite ?Z.eqb_refl, ?orb_true_r; done).
Qed.

Lemma free_thread_wp s ready asleep t :
  sched_ok s ready asleep → is_Some (threads s !! t) → (t ∉ ready) → (t ∉ asleep) → t ≠ g_idle_thread (cpu s) → t ≠ g_current (cpu s) →
  wp (free_thread t) (λ _ s', sched_ok s' ready asleep ∧ threads s' = delete t (threads s) ∧ cpu s' = cpu s ∧ same_rest s s') s.
Proof.
  intros [HC Hcur] [th Ht] Hr Ha Hi Hc. unfold free_thread. os_step. eapply get_thread_wp; [exact Ht|]. os_step.
  split_and!; [|done|done|done]. destruct (so_names _ _ _ HC t ltac:(by eexists)) as [Ht0 Htq].
  assert (∀ u, is_Some (delete t (threads s) !! u) → u ≠ t ∧ is_Some (threads s !! u)) as Hlive.
  { intros u [x [? Hx]%lookup_delete_Some]. split; [done|by exists x]. }
  split.
  - destruct HC as [H1 H2 H3 H4 H5 H6 [H7 H7'] H8]. split; cbn [lk threads cpu set_lk set_threads]; try done.
    + eapply ring_frame; [exact H1|]. intros a Ha'. rewrite lookup_delete_ne; [done|]. intros ->. apply elem_of_cons in Ha' as [?|?]; done.
    + intros u Hu. rewrite lookup_delete_ne by (by intros ->). by apply H2.
    + intros u [Hut Hu]%Hlive Hnu. rewrite lookup_delete_ne by done. by apply H3.
    + intros u [_ Hu]%Hlive. by apply H4.
    + eapply sleepers_frame; [exact H5|]. intros u Hu. rewrite lookup_delete_ne; [done|]. by intros ->.
    + by rewrite lookup_delete_ne.
    + intros u thu [_ Hu]%lookup_delete_Some. by apply (H8 u).
  - destruct Hcur as [?|(Hl & ? & ?)]; [by left|right]. cbn [lk threads cpu set_lk set_threads]. by rewrite lookup_delete_ne.
Qed.

Lemma sched_ok_procs s ready asleep x :
  sched_ok s ready asleep → (∀ p, is_Some (proc_at p s) → is_Some (proc_at p (set_procs x s))) → sched_ok (set_procs x s) ready asleep.
Proof.
  intros [[H1 H2 H3 H4 H5 H6 H7 H8] Hc] Hp. split; [|exact Hc]. split; try done. intros t th Ht. destruct (H8 t th Ht) as [?|?]; [by left|right; by apply Hp].
Qed.
Lemma sched_ok_hp s ready asleep x : sched_ok s ready asleep → sched_ok (set_hp x s) ready asleep.
Proof. by intros [[H1 H2 H3 H4 H5 H6 H7 H8] Hc]. Qed.
Lemma sched_ok_mm s ready asleep x : sched_ok s ready asleep → sched_ok (set_mm x s) ready asleep.
Proof. by intros [[H1 H2 H3 H4 H5 H6 H7 H8] Hc]. Qed.

Definition without (a : Z) (B : gset Z) : gset Z := if a =? 0 then B else B ∖ {[a]}.
Definition owned_block (a : Z) (B : gset Z) : Prop := a = 0 ∨ a ∈ B.
Definition set_blocks (B : gset Z) (h : heap) : heap := mk_heap B (answers h).

Lemma free_run a s : owned_block a (blocks (hp s)) → free a s = Some (tt, set_hp (set_blocks (without a (blocks (hp s))) (hp s)) s).
Proof.
  unfold owned_block, free, without, set_blocks. intros Ha. destruct (Z.eqb_spec a 0) as [->|Ha0].
  - by destruct s as [? ? ? ? [] ?].
  - destruct Ha as [?|Ha]; [done|]. unfold mbind, cmd_bind, cget. by rewrite bool_decide_true.
Qed.

(** What reaping an exited process with the thread [t] releases. *)
Definition reaped_thread s s' (ready asleep : list Z) (t : Z) : Prop :=
  sched_ok s' ready asleep ∧ cpu s' = cpu s ∧
  (if t =? 0 then threads s' = threads s ∧ hp s' = hp s else
   threads s' = delete t (threads s) ∧
   ∃ th, threads s !! t = Some th ∧ blocks (hp s') = without (t_stack th) (without (t_arg th) (blocks (hp s)))).

(** The thread of an exited process: it is in no list and owns its blocks. *)
Definition dead_thread s (t : Z) : Prop :=
  ∃ th, threads s !! t = Some th ∧ t_state th = THREAD_ZOMBIE ∧ t ≠ g_idle_thread (cpu s) ∧ t ≠ g_current (cpu s) ∧
    owned_block (t_arg th) (blocks (hp s)) ∧ owned_block (t_stack th) (without (t_arg th) (blocks (hp s))).

Lemma reap_thread_wp s ready asleep t :
  sched_ok s ready asleep → (t ≠ 0 → dead_thread s t) →
  wp (if negb (t =? 0) then runqueue_remove t;; th ← get_thread t; free (t_arg th);; free (t_stack th);; free_thread t else mret tt)
    (λ _ s', reaped_thread s s' ready asleep t ∧ procs s' = procs s ∧ mm s' = mm s) s.
Proof.
  intros HO Hdead. unfold reaped_thread. destruct (Z.eqb_spec t 0) as [->|Ht0]; cbn [negb]; [by os_step|].
  destruct (Hdead Ht0) as (th & Ht & Hst & Hi & Hc & Harg & Hstack). pose proof (proj1 HO) as HC.
  assert (t ∉ ready) as Hr by (intros Hin; pose proof (proj2 (so_ready _ _ _ HC t Hin)) as H; rewrite Ht in H; inversion H; congruence).
  assert (t ∉ asleep) as Ha by (intros Hin; pose proof (sleepers_state _ _ _ _ (so_asleep _ _ _ HC) Hin) as H; rewrite Ht in H; inversion H; congruence).
  os_step. eapply wp_eq; [eapply runqueue_remove_run; [exact HC|by eexists|done]|]. os_step. eapply get_thread_wp; [exact Ht|].
  os_step. eapply wp_eq; [by apply free_run|]. os_step. eapply wp_eq; [by apply free_run|].
  eapply wp_mono; [apply (free_thread_wp _ ready asleep t); [by do 2 apply sched_ok_hp|by eexists|done..]|]. cbn beta.
  intros _ s' (HO' & Hth & Hcpu & [Hp Hh Hm]). split_and!; [done|done|done| |done|done]. exists th. split; [done|]. by rewrite Hh.
Qed.

(** The directory of an exited process, which is dropped unless it is the
    kernel's: [m'] is the memory afterwards. *)
Definition drops_space s (x : process) (m' : machine) : Prop :=
  if negb (p_pd x =? 0) && negb (p_pd x =? kernel_pd (mm s))
  then paging_destroy_address_space (p_pd x) (p_pd_phys x) (mm s) = Some (tt, m') else m' = mm s.

Lemma slot_lookup_pid s pid i x :
  table_ok s → used_at s i → g_procs (procs s) !! i = Some x → p_pid x = pid → pid = Z.of_nat i + 1 ∧ (i < 63)%nat.
Proof. intros HT Hu Hx <-. split; [by eapply tk_pid|]. apply lookup_lt_Some in Hx. by rewrite (tk_procs _ HT) in Hx. Qed.

Lemma reap_none s pid :
  table_ok s → ¬ (∃ i, Z.of_nat i + 1 = pid ∧ used_at s i) → proc_reap pid s = Some (ERR_PROCESS_NOT_FOUND, s).
Proof.
  intros HT Hno. unfold proc_reap. destruct ((pid <=? 0) || (MAX_PROCS <? pid)) eqn:E; [done|].
  apply orb_false_iff in E as [E1%Z.leb_gt E2%Z.ltb_ge]. unfold MAX_PROCS in *. assert (∃ i, pid - 1 = Z.of_nat i ∧ (i < 63)%nat) as (i & Hi & Hlt) by (exists (Z.to_nat (pid - 1)); lia).
  destruct (slot_lookup s i HT Hlt) as (x & b & Hx & Hb). rewrite Hi.
  erewrite bind_run by (unfold get_proc, cread; by rewrite slot_at, Hx). erewrite bind_run by (unfold cread; by rewrite Nat2Z.id, Hb).
  destruct b; [|done]. destruct Hno. exists i. split; [lia|done].
Qed.

Lemma reap_busy s i x :
  table_ok s → used_at s i → g_procs (procs s) !! i = Some x → p_alive x = true →
  proc_reap (Z.of_nat i + 1) s = Some (ERR_BUSY, s).
Proof.
  intros HT Hu Hx Ha. destruct (slot_lookup_pid _ _ _ _ HT Hu Hx eq_refl) as [Hp Hi]. unfold proc_reap, MAX_PROCS.
  rewrite (proj2 (Z.leb_gt _ 0)), (proj2 (Z.ltb_ge 63 _)) by lia. cbn [orb]. replace (Z.of_nat i + 1 - 1) with (Z.of_nat i) by lia.
  erewrite bind_run by (unfold get_proc, cread; by rewrite slot_at, Hx). erewrite bind_run by (unfold cread; by rewrite Nat2Z.id, Hu).
  by rewrite Hp, Z.eqb_refl, Ha.
Qed.

Lemma reap_wp s ready asleep i x m' :
  table_ok s → sched_ok s ready asleep → used_at s i → g_procs (procs s) !! i = Some x → p_alive x = false →
  (p_thread x ≠ 0 → dead_thread s (p_thread x)) → drops_space s x m' →
  wp (proc_reap (Z.of_nat i + 1)) (λ r s', r = ERR_SUCCESS ∧ table_ok s' ∧ procs s' = procs (with_slot i zero_process false s) ∧
    reaped_thread s s' ready asleep (p_thread x) ∧ mm s' = m') s.
Proof.
  intros HT HO Hu Hx Ha Hdead Hm. destruct (slot_lookup_pid _ _ _ _ HT Hu Hx eq_refl) as [Hp Hi]. unfold proc_reap, MAX_PROCS.
  rewrite (proj2 (Z.leb_gt _ 0)), (proj2 (Z.ltb_ge 63 _)) by lia. cbn [orb]. replace (Z.of_nat i + 1 - 1) with (Z.of_nat i) by lia.
  os_step. eapply get_proc_wp; [by rewrite slot_at|]. os_step. eapply wp_read; [by rewrite Nat2Z.id|]. rewrite Hp, Z.eqb_refl, Ha. cbn [negb orb].
  os_step. eapply wp_mono; [by apply (reap_thread_wp s ready asleep)|]. cbn beta. intros _ s1 (Hre & Hp1 & Hm1). os_step. os_step.
  assert (wp (if negb (p_pd x =? 0) && negb (p_pd x =? kernel_pd (mm s1)) then czoom mm set_mm (paging_destroy_address_space (p_pd x) (p_pd_phys x)) else mret tt)
    (λ _ s2, s2 = set_mm m' s1) s1) as Hdrop.
  { unfold drops_space in Hm. rewrite Hm1. destruct (negb (p_pd x =? 0) && negb (p_pd x =? kernel_pd (mm s))).
    - eapply wp_eq; [unfold czoom; rewrite Hm1; by rewrite Hm|done].
    - os_step. rewrite Hm, <- Hm1. by destruct s1. }
  os_step. eapply wp_mono; [exact Hdrop|]. cbn beta. intros _ s2 ->. os_step.
  eapply put_slot_wp; [cbn; by rewrite Hp1|cbn; by rewrite Hp1|]. os_step. unfold set_used. os_step. os_step.
  assert (table_ok (with_slot i zero_process false s)) as HT' by by apply with_slot_ok.
  assert (∀ t', proc_at t' (with_slot i zero_process false s) = if t' =? slot_proc (Z.of_nat i) then Some zero_process else proc_at t' s) as Hat.
  { intros. by apply with_slot_at. }
  set (s3 := set_procs _ _). assert (procs s3 = procs (with_slot i zero_process false s)) as Hp3.
  { unfold s3. cbn. rewrite Hp1. by rewrite Nat2Z.id, list_insert_insert_eq. }
  split_and!; [done| |done| |done].
  - destruct HT' as [A1 A2 A3]. split; unfold used_at in *; rewrite Hp3; done.
  - destruct Hre as (HO1 & Hc1 & Hrest). split_and!; [|exact Hc1|exact Hrest].
    change (sched_ok (set_procs (procs s3) (set_mm m' s1)) ready asleep). apply sched_ok_procs; [by apply sched_ok_mm|].
    intros q Hq. change (is_Some (proc_at q s3)). unfold proc_at in *. rewrite Hp3. specialize (Hat q). unfold proc_at in Hat. rewrite Hat.
    destruct (q =? slot_proc (Z.of_nat i)); [done|]. revert Hq. cbn. by rewrite Hp1.
Qed.

(** Exiting marks the process and leaves the processor to the next thread. *)
Definition exited (code : Z) (x : process) : process :=
  mk_process (p_pid x) (p_ppid x) code false (p_cwd x) (p_thread x) (p_pd x) (p_pd_phys x).

Lemma with_slot_live i x b s p :
  table_ok s → (i < 63)%nat → is_Some (proc_at p s) → is_Some (proc_at p (with_slot i x b s)).
Proof. intros HT Hi Hp. rewrite with_slot_at by done. by destruct (p =? _). Qed.

Lemma exit_wp s ready asleep th i x :
  active s ready asleep → table_ok s → let c := g_current (cpu s) in
  c ≠ g_idle_thread (cpu s) → threads s !! c = Some th → t_proc th = slot_proc (Z.of_nat i) →
  used_at s i → g_procs (procs s) !! i = Some x →
  wp thread_exit (λ _ s', active s' (tail ready) asleep ∧ g_current (cpu s') = hd (g_idle_thread (cpu s)) ready ∧
    yielded (with_slot i (exited 0 x) true s) s' ∧ t_state <$> threads s' !! c = Some THREAD_ZOMBIE) s.
Proof.
  intros HA HT c Hi Hth Hp Hu Hx. pose proof (active_current _ _ _ HA) as (H0 & _ & _ & Hcr & Hca). fold c in H0, Hcr, Hca.
  assert (i < 63)%nat as Hlt by (apply lookup_lt_Some in Hx; by rewrite (tk_procs _ HT) in Hx).
  assert ((t_proc th =? 0) = false) as Hp0 by (rewrite Hp; unfold slot_proc; lia).
  unfold thread_exit, sched_current. do 4 os_step. fold c. rewrite (proj2 (Z.eqb_neq c 0)) by done.
  os_step. os_step. eapply get_thread_wp; [exact Hth|]. rewrite Hp0. cbn [negb]. unfold proc_mark_exit, proc_current. os_step. os_step. os_step.
  fold c. rewrite (proj2 (Z.eqb_neq c 0)) by done. os_step. eapply get_thread_wp; [exact Hth|]. os_step. rewrite Hp0. cbn [negb]. rewrite Hp.
  os_step. eapply get_proc_wp; [by rewrite slot_at|]. os_step. eapply put_slot_wp; [done|exact Hu|]. fold (exited 0 x).
  set (s1 := with_slot i (exited 0 x) true s). os_step. os_step. change (g_current (cpu s1)) with c. rewrite (proj2 (Z.eqb_neq c 0)) by done.
  os_step. eapply get_thread_wp; [exact Hth|]. os_step. set (s2 := set_threads _ s1).
  assert (sched_core s2 ready asleep) as HC2.
  { apply (core_put_thread s1 ready asleep c th); [|done..]. destruct HA as [HO _].
    apply (sched_ok_procs s ready asleep (procs s1) HO). intros p Hpp. by apply with_slot_live. }
  assert (threads s2 !! c = Some (with_state THREAD_ZOMBIE th)) as Hth2 by (cbn; by rewrite lookup_insert_eq).
  assert (rejoins s2 c = false) as Hno.
  { unfold rejoins. rewrite Hth2. by rewrite (bool_decide_false (t_state <$> Some _ = _)), andb_false_r. }
  assert (queue_after s2 ready = ready) as Hq by (unfold queue_after; change (g_current (cpu s2)) with c; by rewrite Hno).
  eapply wp_mono; [apply (yield_wp s2 ready asleep HC2); change (g_current (cpu s2)) with c; rewrite ?Hth2;
    [by eexists|done|by intros ? [= <-]|done]|]. cbn beta. rewrite Hq.
  change (g_idle_thread (cpu s2)) with (g_idle_thread (cpu s)). intros _ s' (HO' & HR' & HY & Hst).
  assert (g_current (cpu s') = hd (g_idle_thread (cpu s)) ready) as E by (by destruct HR' as (? & ? & _)).
  split_and!; [split; [done|by rewrite E]|done| |].
  - eapply (yielded_trans s1 s2); [|exact HY]. split; try done. intros u. cbn.
    destruct (decide (u = c)) as [->|]; [by rewrite lookup_insert_eq, Hth|by rewrite lookup_insert_ne].
  - rewrite Hst, Hth2; [done| |by intros]. destruct ready; cbn; [done|]. intros ->. apply Hcr. left.
Qed.

(** A new process gets the lowest free slot, whose number is its pid, with
    its parent's pid and directory; no other process changes, it is found as a
    child of its parent and of no one else, and it cannot be reaped while it
    lives; only a full table refuses. *)
Theorem proc_create_correct s p par :
  table_ok s → running_proc s p par →
  wp proc_create (λ r s',
    (r = 0 ∧ s' = s ∧ (∀ j, (j < 63)%nat → used_at s j)) ∨
    ∃ i, first_free s i ∧ r = slot_proc (Z.of_nat i) ∧ table_ok s' ∧ used_at s' i ∧
      (∀ q, proc_at q s' = if q =? r then Some (child_of s par i) else proc_at q s) ∧
      (∀ pp, wp (proc_find_child pp (Z.of_nat i + 1)) (λ q s2, s2 = s' ∧ (q = r ↔ pp = p_pid par)) s') ∧
      proc_reap (Z.of_nat i + 1) s' = Some (ERR_BUSY, s')) s.
Proof.
  intros HT HR. eapply wp_mono; [by eapply proc_create_wp|]. cbn beta. intros r s' [?|(i & Hfree & -> & ->)]; [by left|right].
  exists i. pose proof Hfree as (Hi & _ & _).
  assert (table_ok (with_slot i (child_of s par i) true s)) as HT' by by apply with_slot_ok.
  assert (used_at (with_slot i (child_of s par i) true s) i) as Hu by (unfold used_at; cbn; apply list_lookup_insert_eq; by rewrite (tk_used _ HT)).
  assert (g_procs (procs (with_slot i (child_of s par i) true s)) !! i = Some (child_of s par i)) as Hx.
  { cbn. apply list_lookup_insert_eq. by rewrite (tk_procs _ HT). }
  split_and!; [done|done|done|done|intros q; by apply with_slot_at| |by eapply reap_busy].
  intros pp. eapply wp_mono; [by apply find_child_wp|]. cbn beta. intros q s2 [-> Hq]. split; [done|]. rewrite (Hq i eq_refl).
  unfold is_child. rewrite Hx. split; [by intros (y & [= <-] & _ & _ & <-)|]. intros ->. by eexists.
Qed.


(** ** Starting *)

Lemma push_all_wp stk vs s :
  stk mod 4 = 0 → wp (push_all stk vs) (λ r s', r = stk - 4 * Z.of_nat (length vs) ∧ ∃ m, s' = set_mm m s) s.
Proof.
  revert stk s. induction vs as [|v vs IH]; intros stk s Hm; cbn [push_all length].
  { os_step. split; [lia|]. exists (mm s). by destruct s. }
  os_step. unfold store32. rewrite (proj2 (Z.eqb_eq ((stk - 4) mod 4) 0)) by lia. cbn [negb]. os_step.
  eapply wp_mono; [apply IH; lia|]. cbn beta. intros r s' [-> [m ->]]. split; [lia|]. by exists m.
Qed.

Lemma init_signals_run s : ∃ g, init_signals s = Some (g, s).
Proof.
  unfold init_signals. assert (is_Some (signal_thread_init true zero_signals)) as [[u g] ->] by (vm_compute; by eexists). by exists g.
Qed.

(** A new thread [t] beside those of [s]. *)
Definition fresh_thread s (t : Z) : Prop := t ≠ 0 ∧ t ≠ run_queue ∧ threads s !! t = None.
Record created s s' (t : Z) (th : thread) : Prop := {
  cr_threads : threads s' = <[t := th]> (threads s);
  cr_lk : lk s' !! t = Some (mk_link t t);
  cr_others : ∀ a, a ≠ t → lk s' !! a = lk s !! a;
  cr_cpu : cpu s' = cpu s;
  cr_procs : procs s' = procs s;
  cr_blocks : blocks (hp s') = blocks (hp s)
}.

Lemma thread_create_wp s entry arg stack size t o :
  answers (hp s) = t :: o → t ≠ 0 → entry ≠ 0 → stack ≠ 0 → size ≠ 0 → stack + size ≠ 0 → (stack + size) mod 4 = 0 →
  wp (thread_create entry arg stack size) (λ r s', r = t ∧ answers (hp s') = o ∧ ∃ g,
    created s s' t (mk_thread (stack + size - 44) stack size THREAD_RUNNABLE 0 0 entry arg 0 g)) s.
Proof.
  intros Ho Ht He Hs Hz Hsz Hm. unfold thread_create. rewrite !(proj2 (Z.eqb_neq _ 0)) by done. cbn [orb].
  os_step. eapply wp_eq; [unfold alloc; by rewrite Ho|]. rewrite (proj2 (Z.eqb_neq t 0)) by done. os_step. os_step. os_step. os_step.
  eapply wp_mono; [apply ring_init_wp; cbn; rewrite lookup_insert_eq; by eexists|]. cbn beta. intros _ lk1 [Hr1 Ho1].
  set (s1 := set_lk lk1 _). destruct (init_signals_run s1) as [g Hg]. os_step. eapply wp_eq; [exact Hg|]. os_step. os_step.
  os_step. unfold context_create. rewrite !(proj2 (Z.eqb_neq _ 0)) by done. cbn [negb orb]. os_step.
  eapply wp_mono; [by apply push_all_wp|]. cbn beta. intros r s2 [-> [m ->]]. os_step. cbn [negb Z.eqb fst snd length].
  os_step. eapply get_thread_wp; [cbn; by rewrite lookup_insert_eq|]. os_step. os_step. os_step. split_and!; [done|done|]. exists g.
  split; [|..|done|done|done].
  - cbn. by rewrite insert_insert_eq.
  - cbn. pose proof (ring_first _ _ _ Hr1) as Hn. destruct Hr1 as [_ Hp]. apply Forall_cons in Hp as [[_ Hp]%edge_def _]. unfold next_of, prev_of in *. cbn in Hn, Hp.
    destruct (lk1 !! t) as [[]|]; [|done]. cbn in *. congruence.
  - intros a Ha. cbn. rewrite (only_out _ _ _ Ho1) by (by rewrite list_elem_of_singleton). cbn. by rewrite lookup_insert_ne.
Qed.

Lemma core_created s s' ready asleep t th :
  sched_core s ready asleep → fresh_thread s t → created s s' t th → t_proc th = 0 → sched_core s' ready asleep ∧ (t ∉ ready) ∧ (t ∉ asleep).
Proof.
  intros HC (Ht0 & Htq & Hnew) [E1 E2 E3 E4 E5 _] Hp.
  assert (t ∉ ready) as Hr by (intros Hin; destruct (ready_live _ _ _ _ HC Hin) as [x Hx]; congruence).
  assert (t ∉ asleep) as Ha by (intros Hin; destruct (asleep_live _ _ _ _ HC Hin) as [x Hx]; congruence).
  split; [|done]. destruct HC as [H1 H2 H3 H4 H5 H6 [H7 H7'] H8]. split; rewrite ?E1, ?E4; try done.
  - eapply ring_frame; [exact H1|]. intros a Hin. apply E3. intros ->. apply elem_of_cons in Hin as [?|?]; done.
  - intros u Hu. rewrite lookup_insert_ne by (by intros ->). by apply H2.
  - intros u Hu Hnu. destruct (decide (u = t)) as [->|]; [exists (mk_link t t); split; [done|by right]|].
    rewrite lookup_insert_ne in Hu by done. rewrite E3 by done. by apply H3.
  - intros u Hu. destruct (decide (u = t)) as [->|]; [done|]. rewrite lookup_insert_ne in Hu by done. by apply H4.
  - eapply sleepers_frame; [exact H5|]. intros u Hu. rewrite lookup_insert_ne; [done|]. by intros ->.
  - split; [|done]. rewrite lookup_insert_ne; [done|]. intros ->. rewrite Hnew in H7. by destruct H7.
  - intros u thu. destruct (decide (u = t)) as [->|]; [rewrite lookup_insert_eq; intros [= <-]; by left|rewrite lookup_insert_ne by done].
    intros Hu. unfold proc_at. rewrite E5. by apply (H8 u thu).
Qed.

Lemma sched_init_wp s stack t o :
  threads s = ∅ → is_Some (lk s !! run_queue) → answers (hp s) = stack :: t :: o →
  stack ≠ 0 → t ≠ 0 → t ≠ run_queue → stack + 4096 ≠ 0 → stack mod 4 = 0 → idle_thread_entry ≠ 0 →
  wp sched_init (λ _ s', sched_core s' [] [] ∧ g_current (cpu s') = 0 ∧ g_idle_thread (cpu s') = t ∧
    dom (threads s') = {[t]} ∧ answers (hp s') = o ∧ procs s' = procs s) s.
Proof.
  intros Hth Hl Ho Hs Ht Htq Hsz Hm He. unfold sched_init. do 10 os_step. os_step. os_step.
  eapply wp_mono; [by apply ring_init_wp|]. cbn beta. intros _ lk1 [Hr1 Ho1]. os_step. unfold malloc. os_step.
  eapply wp_eq; [unfold alloc; cbn; by rewrite Ho|]. rewrite (proj2 (Z.eqb_neq stack 0)) by done. os_step. os_step. os_step.
  rewrite (proj2 (Z.eqb_neq stack 0)) by done. os_step.
  eapply wp_mono; [apply (thread_create_wp _ idle_thread_entry 0 stack 4096 t o); [done..|rewrite Z.add_mod, Hm by done; done]|]. cbn beta.
  intros r s1 (-> & Ho1' & g & [E1 E2 E3 E4 E5 E6]). cbn in E1, E3, E4, E5. os_step. os_step.
  rewrite (proj2 (Z.eqb_neq t 0)) by done. os_step. rewrite Hth in E1.
  split_and!; [|cbn; by rewrite E4|done|cbn; rewrite E1, dom_insert_L, dom_empty_L; set_solver|done|done].
  assert (∀ u, is_Some (threads s1 !! u) → u = t) as Hdom.
  { intros u [x Hx]. rewrite E1 in Hx. apply lookup_insert_Some in Hx as [[? _]|[_ Hx]]; [done|]. by rewrite lookup_empty in Hx. }
  split; cbn [lk threads cpu set_cpu g_idle_thread sleep_queue set_idle]; rewrite ?E4; try done.
  - eapply ring_frame; [exact Hr1|]. intros a ->%list_elem_of_singleton. by apply E3.
  - intros u Hu. by apply not_elem_of_nil in Hu.
  - intros u ->%Hdom _. exists (mk_link t t). split; [done|by right].
  - by intros u ->%Hdom.
  - apply NoDup_nil_2.
  - rewrite E1, lookup_insert_eq. split; [done|apply not_elem_of_nil].
  - intros u thu Hu. assert (u = t) as -> by (apply Hdom; by eexists). rewrite E1, lookup_insert_eq in Hu. injection Hu as <-. by left.
Qed.

(** Creating and queueing one thread for each entry, argument and stack. *)
Fixpoint start_threads (specs : list (Z * Z * Z * Z)) : cmd os unit :=
  match specs with
  | [] => mret tt
  | (entry, arg, stack, size) :: specs => t ← thread_create entry arg stack size; sched_add t;; start_threads specs
  end.
Definition good_spec (p : Z * Z * Z * Z) : Prop :=
  let '(entry, _, stack, size) := p in entry ≠ 0 ∧ stack ≠ 0 ∧ size ≠ 0 ∧ stack + size ≠ 0 ∧ (stack + size) mod 4 = 0.

Lemma start_threads_wp specs s ready ts o :
  sched_core s ready [] → Forall good_spec specs → length specs = length ts → answers (hp s) = ts ++ o →
  NoDup ts → Forall (fresh_thread s) ts →
  wp (start_threads specs) (λ _ s', sched_core s' (ready ++ ts) [] ∧ cpu s' = cpu s) s.
Proof.
  revert s ready ts. induction specs as [|[[[entry arg] stack] size] specs IH]; intros s ready [|t ts] HC Hg Hlen Ho Hnd Hf; try done; cbn [start_threads].
  { os_step. by rewrite app_nil_r. }
  apply Forall_cons in Hg as [(G1 & G2 & G3 & G4 & G5) Hg]. apply NoDup_cons in Hnd as [Htn Hnd]. apply Forall_cons in Hf as [Ht Hf].
  os_step. eapply wp_mono; [apply (thread_create_wp s entry arg stack size t (ts ++ o)); [done|apply Ht|done..]|]. cbn beta.
  intros r s1 (-> & Ho1 & g & Hcr). destruct (core_created _ _ _ _ _ _ HC Ht Hcr eq_refl) as (HC1 & Hr & _). os_step. unfold sched_add.
  assert (t ≠ g_idle_thread (cpu s1)) as Hi.
  { rewrite (cr_cpu _ _ _ _ Hcr). intros ->. destruct Ht as (_ & _ & Hn). destruct (so_idle _ _ _ HC) as [[x Hx] _]. congruence. }
  pose proof (f_equal (lookup t) (cr_threads _ _ _ _ Hcr)) as Hth1. rewrite lookup_insert_eq in Hth1.
  eapply wp_mono; [apply (runqueue_add_wp s1 ready [] t _ HC1 Hth1); [done|done|apply not_elem_of_nil]|].
  cbn beta. intros _ s2 (HC2 & Hth2 & Hcpu2 & [_ Hh2 _]).
  eapply wp_mono; [apply (IH s2 (ready ++ [t]) ts HC2); [done|by injection Hlen|by rewrite Hh2|done|]|].
  - apply Forall_forall. intros u Hu. rewrite Forall_forall in Hf. destruct (Hf u Hu) as (U1 & U2 & U3). split_and!; [done|done|].
    assert (u ≠ t) by (by intros ->). by rewrite Hth2, (cr_threads _ _ _ _ Hcr), !lookup_insert_ne.
  - cbn beta. intros _ s3 [HC3 E3]. rewrite <- app_assoc in HC3. split; [done|]. by rewrite E3, Hcpu2, (cr_cpu _ _ _ _ Hcr).
Qed.

Lemma sched_start_wp s ready asleep :
  sched_core s ready asleep →
  wp sched_start (λ b s', b = true ∧ active s' (tail ready) asleep ∧ g_current (cpu s') = hd (g_idle_thread (cpu s)) ready ∧
    g_idle_thread (cpu s') = g_idle_thread (cpu s)) s.
Proof.
  intros HC. unfold sched_start. os_step. eapply wp_mono; [by apply runqueue_next_wp|]. cbn beta.
  intros t s1 (-> & HC1 & Hnt & Hna & Hth1 & Hcpu1 & _). set (t := hd _ _) in *.
  assert (is_Some (threads s1 !! t)) as [tht Ht].
  { rewrite Hth1. unfold t. destruct ready as [|u l]; cbn [hd]; [apply (so_idle _ _ _ HC)|]. apply (ready_live _ _ _ u HC). left. }
  destruct (so_names _ _ _ HC1 t ltac:(by eexists)) as [Ht0 _]. rewrite (proj2 (Z.eqb_neq t 0)) by done.
  os_step. eapply wp_mono; [by apply (activate_wp s1 (tail ready) asleep t tht)|]. cbn beta. intros _ s2 (HC2 & HR2 & _ & _ & _ & Hi2 & _).
  os_step. eapply wp_mono; [apply (switch_wp s2 (tail ready) asleep 0 t HC2 HR2); by left|]. cbn beta. intros _ s3 (HC3 & HR3 & _ & _ & _ & Hi3 & _).
  os_step. pose proof HR3 as (th & Ec & Hth & _). split_and!; [done| |done|congruence]. split; [split; [done|right; rewrite Ec, Hth; by split_and!]|by rewrite Ec].
Qed.

Lemma boot_wp s stack idle specs ts o :
  threads s = ∅ → is_Some (lk s !! run_queue) → answers (hp s) = stack :: idle :: ts ++ o →
  stack ≠ 0 → stack + 4096 ≠ 0 → stack mod 4 = 0 → idle_thread_entry ≠ 0 →
  Forall good_spec specs → length specs = length ts → NoDup (idle :: ts) → Forall (λ t, t ≠ 0 ∧ t ≠ run_queue) (idle :: ts) →
  wp (sched_init;; start_threads specs;; sched_start) (λ b s', b = true ∧
    active s' (tail ts) [] ∧ g_idle_thread (cpu s') = idle ∧ g_current (cpu s') = hd idle ts) s.
Proof.
  intros Hth Hl Ho Hs Hsz Hm He Hg Hlen [Hi Hnd]%NoDup_cons [[Hi0 Hiq] Hts]%Forall_cons.
  os_step. eapply wp_mono; [by apply (sched_init_wp s stack idle (ts ++ o))|]. cbn beta. intros _ s1 (HC1 & _ & Hi1 & Hd1 & Ho1 & _).
  os_step. eapply wp_mono; [apply (start_threads_wp specs s1 [] ts o HC1); [done..|]|].
  - apply Forall_forall. intros t Ht. rewrite Forall_forall in Hts. destruct (Hts t Ht). split_and!; [done|done|].
    apply not_elem_of_dom. rewrite Hd1, elem_of_singleton. by intros ->.
  - cbn beta. intros _ s2 [HC2 Hcpu2]. eapply wp_mono; [by apply sched_start_wp|]. cbn beta. rewrite Hcpu2, Hi1.
    intros b s3 (-> & HA & Hc & Hi3). by split_and!.
Qed.

(** Booting the scheduler: with an idle thread and the threads [ts] created
    and queued, starting puts the processor on the first of them with the rest
    waiting in order, or on the idle thread when there is none. *)
Theorem sched_boot_correct s stack idle specs ts o :
  threads s = ∅ → is_Some (lk s !! run_queue) → answers (hp s) = stack :: idle :: ts ++ o →
  stack ≠ 0 → stack + 4096 ≠ 0 → stack mod 4 = 0 → idle_thread_entry ≠ 0 →
  Forall good_spec specs → length specs = length ts → NoDup (idle :: ts) → Forall (λ t, t ≠ 0 ∧ t ≠ run_queue) (idle :: ts) →
  wp (sched_init;; start_threads specs;; sched_start) (λ b s', b = true ∧
    active s' (tail ts) [] ∧ g_idle_thread (cpu s') = idle ∧ g_current (cpu s') = hd idle ts) s.
Proof. by apply boot_wp. Qed.
End sched.

(** ** Examples *)

(** The running thread gets a process with the directory it runs with. *)
Lemma attach_active s ready asleep th p P :
  active s ready asleep → let c := g_current (cpu s) in let s1 := set_procs P s in
  threads s !! c = Some th → (∀ q, is_Some (proc_at q s) → is_Some (proc_at q s1)) → is_Some (proc_at p s1) →
  directory_of s1 (with_proc p th) = directory_of s th →
  active (set_threads (<[c := with_proc p th]> (threads s)) s1) ready asleep.
Proof.
  intros HA c s1 Hth Hall Hp Hd. pose proof (active_current _ _ _ HA) as (_ & _ & _ & Hr & Ha). destruct HA as [[HC Hcur] HR]. fold c in Hr, Ha, Hcur, HR.
  assert (∀ u, is_Some (<[c := with_proc p th]> (threads s) !! u) ↔ is_Some (threads s !! u)) as Hlive.
  { intros u. destruct (decide (u = c)) as [->|]; [by rewrite lookup_insert_eq, Hth|by rewrite lookup_insert_ne]. }
  split; [split|].
  - destruct HC as [H1 H2 H3 H4 H5 H6 [H7 H7'] H8]. split; cbn [lk threads cpu set_threads set_procs s1]; try done.
    + intros u Hu. rewrite lookup_insert_ne by (by intros ->). by apply H2.
    + intros u Hu. apply H3. by apply Hlive.
    + intros u Hu. apply H4. by apply Hlive.
    + eapply sleepers_frame; [exact H5|]. intros u Hu. rewrite lookup_insert_ne; [done|]. by intros ->.
    + split; [by apply Hlive|done].
    + intros u thu. destruct (decide (u = c)) as [->|]; [rewrite lookup_insert_eq; intros [= <-]; by right|rewrite lookup_insert_ne by done].
      intros Hu. destruct (H8 u thu Hu); [by left|right; by apply Hall].
  - right. cbn. fold c. by rewrite lookup_insert_eq.
  - destruct HR as (th' & _ & Ht' & Hst & He & Hcr). rewrite Hth in Ht'. injection Ht' as <-. exists (with_proc p th).
    cbn [lk threads cpu set_threads set_procs s1 mm]. fold c. rewrite lookup_insert_eq. split_and!; [done|done|done|done|].
    change (directory_of _ _) with (directory_of s1 (with_proc p th)). by rewrite Hd.
Qed.

Definition ran {X} (m : cmd os X) (s : os) : os := match m s with Some (_, s') => s' | None => s end.
Lemma ran_wp {X} (m : cmd os X) Q s : wp m Q s → ∃ x, Q x (ran m s).
Proof. unfold wp, ran. destruct (m s) as [[x s']|]; [by exists x|done]. Qed.

Definition ex_off : os := mk_os {[1 := mk_link 0 0]} ∅ (mk_cpu 0 0 0 false 0 0 0x9000)
  (mk_table (mk_process 0 (-1) 0 true (slash_cwd (replicate 256 0)) 0 0x2000 0x2000) (replicate 63 zero_process) (replicate 63 false))
  (mk_heap {[8192; 12288; 77]} [4096; 100; 101; 102]) ex_machine.
Definition ex_specs : list (Z * Z * Z * Z) := [(0x100, 77, 8192, 4096); (0x200, 0, 12288, 4096)].
Definition ex_boot : cmd os bool := sched_init 0x500 0x600;; start_threads 0x500 ex_specs;; sched_start.
Definition ex_os : os := ran ex_boot ex_off.

Lemma sched_boot_correct_witness :
  wp ex_boot (λ b s', b = true ∧ active s' [102] [] ∧ g_idle_thread (cpu s') = 100 ∧ g_current (cpu s') = 101) ex_off.
Proof.
  apply (sched_boot_correct 0x500 0x600 ex_off 4096 100 ex_specs [101; 102] []); [done|by eexists|done|done|done|done|done| |done|by_eval|].
  - by repeat constructor.
  - by repeat constructor.
Defined.

Lemma ex_active : active ex_os [102] [] ∧ g_idle_thread (cpu ex_os) = 100 ∧ g_current (cpu ex_os) = 101.
Proof.
  destruct (ran_wp ex_boot _ ex_off (boot_wp 0x500 0x600 ex_off 4096 100 ex_specs [101; 102] [] eq_refl ltac:(by eexists) eq_refl
    ltac:(done) ltac:(done) eq_refl ltac:(done) ltac:(by repeat constructor) eq_refl ltac:(by_eval) ltac:(by repeat constructor))) as (b & _ & H).
  exact H.
Qed.


Lemma sched_sleep_until_witness :
  wp (sched_sleep 3;; timer_interrupts 3) (λ _ s', ∃ ready' asleep', active s' ready' asleep' ∧ g_current (cpu s') = 102 ∧ 101 ∈ ready') ex_os.
Proof.
  destruct ex_active as (HA & Hi & Hc).
  assert (g_pit_ticks (cpu ex_os) = 0) as Ht by (vm_compute; reflexivity).
  pose proof (sched_sleep_until 3 ex_os [102] [] 3 HA) as H. rewrite Hi, Hc, Ht in H.
  unfold wakeup_tick in H. rewrite Ht in H. apply H; [done|by_eval|lia].
Defined.

Definition ex_child : process := mk_process 1 0 0 true (slash_cwd (replicate 256 0)) 101 0x2000 0x2000.
(** The running thread 101 with a process of its own. *)
Definition ex_attached : os := ran (proc_create;; proc_attach_thread 2 101) ex_os.

Lemma proc_create_correct_witness :
  wp proc_create (λ r s', r = 2 ∧ proc_reap 1 s' = Some (ERR_BUSY, s')) ex_os.
Proof.
  assert (table_ok ex_os) as HT.
  { split; [by_eval|by_eval|]. intros i x Hu. exfalso. revert Hu. unfold used_at.
    assert (g_proc_used (procs ex_os) = replicate 63 false) as -> by (vm_compute; reflexivity). by intros [? _]%lookup_replicate. }
  assert (running_proc ex_os BOOT_PROC (g_boot_proc (procs ex_os))) as HR by (split_and!; [vm_compute; reflexivity|done|by left]).
  eapply wp_mono; [exact (proc_create_correct ex_os BOOT_PROC _ HT HR)|]. cbn beta.
  assert (∀ i, first_free ex_os i → i = 0%nat) as Hfirst.
  { intros i (_ & _ & Hb). destruct i; [done|]. exfalso. specialize (Hb 0%nat ltac:(lia)). by vm_compute in Hb. }
  intros r s' [(_ & _ & Hall)|(i & Hf & -> & _ & _ & _ & _ & Hreap)].
  - exfalso. specialize (Hall 0%nat ltac:(lia)). by vm_compute in Hall.
  - apply Hfirst in Hf as ->. done.
Defined.

Lemma proc_at_live s P q :
  length (g_procs P) = length (g_procs (procs s)) → is_Some (proc_at q s) → is_Some (proc_at q (set_procs P s)).
Proof.
  intros Hlen [x Hx]. unfold proc_at in *. cbn. destruct (q =? BOOT_PROC); [by eexists|]. destruct (q <? 2); [done|].
  apply lookup_lt_Some in Hx. apply lookup_lt_is_Some_2. by rewrite Hlen.
Qed.

Definition ex_thread : thread := default (mk_thread 0 0 0 THREAD_ZOMBIE 0 0 0 0 0 zero_signals) (threads ex_os !! 101).

Lemma ex_attached_ok : active ex_attached [102] [] ∧ table_ok ex_attached.
Proof.
  destruct ex_active as (HA & _ & Hc). split.
  - pose proof (attach_active ex_os [102] [] ex_thread 2 (procs ex_attached) HA) as H. rewrite Hc in H. cbv zeta in H.
    assert (set_threads (<[101 := with_proc 2 ex_thread]> (threads ex_os)) (set_procs (procs ex_attached) ex_os) = ex_attached) as E.
    { vm_compute. reflexivity. }
    rewrite E in H. apply H; [vm_compute; reflexivity| |vm_compute; by eexists|by_eval].
    intros q Hq. apply proc_at_live; [by_eval|done].
  - split; [by_eval|by_eval|]. intros i x Hu Hx. destruct i; [vm_compute in Hx; by injection Hx as <-|]. exfalso. revert Hu. unfold used_at.
    assert (g_proc_used (procs ex_attached) = true :: replicate 62 false) as -> by (vm_compute; reflexivity). by intros [? _]%lookup_replicate.
Qed.

End Sched.
