(* ===== verification/NetPacket.v ===== *)
(** * Packets: checksums, headers and the ARP cache

    [src/kernel/net/checksum.c], [ipv4.c], [udp.c], [tcp.c], [ethernet.c] and
    [arp.c].  Data in memory are lists of bytes; a 16- or 32-bit field of a
    packed header is the integer that the little-endian processor sees there. *)

From S2P Require Import Prelude.

Module NetPacket.

Definition NET_MAC_LEN : Z := 6.
Definition NET_OK : Z := 0.
Definition NET_EINVAL : Z := -1.
Definition NET_ENOMEM : Z := -2.
Definition NET_ENOENT : Z := -3.
Definition NET_EBUSY : Z := -4.
Definition NET_EAGAIN : Z := -5.
Definition NET_E2BIG : Z := -6.
Definition NET_IPPROTO_TCP : Z := 6.
Definition NET_IPPROTO_UDP : Z := 17.
Definition NET_ETHERTYPE_ARP : Z := 0x0806.
Definition NET_ARP_OPCODE_REQUEST : Z := 1.
Definition NET_ARP_OPCODE_REPLY : Z := 2.

Definition NET_HTONS (x : Z) : Z :=
  u16 (Z.lor (Z.land (Z.shiftl (u16 x) 8) 0xff00) (Z.land (Z.shiftr (u16 x) 8) 0x00ff)).
Definition NET_NTOHS (x : Z) : Z := NET_HTONS x.
Definition NET_HTONL (x : Z) : Z :=
  Z.lor (u32 (Z.shiftl (NET_HTONS (Z.land (u32 x) 0xffff)) 16)) (NET_HTONS (Z.land (Z.shiftr (u32 x) 16) 0xffff)).

(** ** Checksums *)

(** [((u16)bytes[0] << 8) | (u16)bytes[1]] *)
Definition be16 (b0 b1 : Z) : Z := Z.lor (Z.shiftl b0 8) b1.

(** [while (len > 1)] and the odd byte behind it *)
Fixpoint sum_bytes (sum : Z) (bytes : list Z) : Z :=
  match bytes with
  | b0 :: b1 :: bytes => sum_bytes (u32 (sum + be16 b0 b1)) bytes
  | [b0] => u32 (sum + Z.shiftl b0 8)
  | [] => sum
  end.

(** [while (sum >> 16)]; [None] when the fuel is used up. *)
Fixpoint fold_carries (fuel : nat) (sum : Z) : option Z :=
  match fuel with
  | O => None
  | S fuel =>
      if Z.shiftr sum 16 =? 0 then Some sum
      else fold_carries fuel (u32 (Z.land sum 0xffff + Z.shiftr sum 16))
  end.
(** The carries of a 32-bit sum are gone after two rounds. *)
Definition FOLDS : nat := 3.

Definition complement (sum : Z) : Z := u16 (not32 sum).

Definition net_checksum (data : list Z) : option Z :=
  complement <$> fold_carries FOLDS (sum_bytes 0 data).

Definition net_ipv4_checksum (data : list Z) : option Z := net_checksum data.

(** [(u8)((a >> k) & 0xFF)] *)
Definition byte_of (a k : Z) : Z := u8 (Z.land (Z.shiftr a k) 0xFF).

(** [len] bytes of [data] are summed; the length is converted to 16 bits. *)
Definition net_pseudo_checksum (src dst protocol : Z) (data : list Z) : option Z :=
  let sum := u32 (0 + be16 (byte_of src 24) (byte_of src 16)) in
  let sum := u32 (sum + be16 (byte_of src 8) (byte_of src 0)) in
  let sum := u32 (sum + be16 (byte_of dst 24) (byte_of dst 16)) in
  let sum := u32 (sum + be16 (byte_of dst 8) (byte_of dst 0)) in
  let sum := u32 (sum + u16 protocol) in
  let sum := u32 (sum + u16 (Z.of_nat (length data))) in
  complement <$> fold_carries FOLDS (sum_bytes sum data).

(** The loop [for (usize i = 0; i < 4; i += 2)] over the bytes of an address *)
Definition add_ip (sum : Z) (ip : list Z) : option Z :=
  match ip with
  | a :: b :: c :: d :: _ => Some (u32 (u32 (sum + be16 a b) + be16 c d))
  | _ => None
  end.

Definition transport_checksum (proto : Z) (src_ip dst_ip data : option (list Z)) : option Z :=
  match src_ip, dst_ip, data with
  | Some src_ip, Some dst_ip, Some data =>
      sum ← add_ip 0 src_ip;
      sum ← add_ip sum dst_ip;
      let sum := u32 (sum + NET_HTONS proto) in
      let sum := u32 (sum + NET_HTONS (u16 (Z.of_nat (length data)))) in
      complement <$> fold_carries FOLDS (sum_bytes sum data)
  | _, _, _ => Some 0
  end.
Definition net_udp_checksum := transport_checksum NET_IPPROTO_UDP.
Definition net_tcp_checksum := transport_checksum NET_IPPROTO_TCP.

(** ** IPv4 headers *)

Record net_ipv4_header := mk_ipv4 {
  ihl_version : Z; tos : Z; total_length : Z; identification : Z; flags_fragment : Z;
  ttl : Z; protocol : Z; checksum : Z; src : Z; dst : Z
}.

(** The bytes of a field and of the packed header. *)
Definition le2 (x : Z) : list Z := [x mod 256; x / 256 mod 256].
Definition le4 (x : Z) : list Z := [x mod 256; x / 256 mod 256; x / 65536 mod 256; x / 16777216 mod 256].
Definition ipv4_bytes (h : net_ipv4_header) : list Z :=
  [ihl_version h; tos h] ++ le2 (total_length h) ++ le2 (identification h) ++ le2 (flags_fragment h) ++
  [ttl h; protocol h] ++ le2 (checksum h) ++ le4 (src h) ++ le4 (dst h).
Definition IPV4_HEADER_SIZE : Z := 20.

Definition net_ipv4_header_valid (hdr : option net_ipv4_header) : option bool :=
  match hdr with
  | None => Some false
  | Some hdr =>
      let version := u8 (Z.shiftr (ihl_version hdr) 4) in
      let ihl := Z.land (ihl_version hdr) 0x0F in
      if negb (version =? 4) || (ihl <? 5) then Some false else
      let header_size := ihl * 4 in
      if IPV4_HEADER_SIZE <? header_size then Some false else
      if NET_NTOHS (total_length hdr) <? header_size then Some false else
      c ← net_ipv4_checksum (take (Z.to_nat header_size) (ipv4_bytes hdr));
      Some (c =? 0)
  end.

Definition with_checksum (c : Z) (h : net_ipv4_header) : net_ipv4_header :=
  mk_ipv4 (ihl_version h) (tos h) (total_length h) (identification h) (flags_fragment h) (ttl h) (protocol h) c (src h) (dst h).

(** The header that is filled in. *)
Definition net_ipv4_fill_header (src dst proto payload_len : Z) : option net_ipv4_header :=
  let hdr := mk_ipv4 (Z.lor (Z.shiftl 4 4) 5) 0 (NET_HTONS (u32 (IPV4_HEADER_SIZE + payload_len))) 0
    (NET_HTONS 0x4000) 64 proto 0 (NET_HTONL src) (NET_HTONL dst) in
  c ← net_ipv4_checksum (ipv4_bytes hdr);
  Some (with_checksum c hdr).

(** ** Ethernet *)

Definition net_ethernet_is_broadcast (mac : option (list Z)) : option bool :=
  match mac with
  | None => Some false
  | Some mac => if (length mac <? 6)%nat then None else Some (forallb (Z.eqb 0xFF) (take 6 mac))
  end.

Definition net_ethernet_mac_equal (lhs rhs : option (list Z)) : option bool :=
  match lhs, rhs with
  | Some lhs, Some rhs =>
      if (length lhs <? 6)%nat || (length rhs <? 6)%nat then None
      else Some (forallb (λ p, p.1 =? p.2) (zip (take 6 lhs) (take 6 rhs)))
  | _, _ => Some false
  end.

(** The character of a nibble of the digits 0123456789ABCDEF *)
Definition hex_digit (n : Z) : Z := if n <? 10 then 48 + n else 55 + n.

(** The loop, from the byte [i] on: the characters written behind the
    [written] that are there already. *)
Fixpoint format_from (mac : list Z) (i written out_len : Z) : list Z :=
  match mac with
  | [] => []
  | value :: mac =>
      if (i <? NET_MAC_LEN) && (written + 3 <? out_len) then
        let cs := [hex_digit (Z.land (Z.shiftr value 4) 0xF); hex_digit (Z.land value 0xF)] in
        let cs := if (i + 1 <? NET_MAC_LEN) && (written + 3 <? out_len) then cs ++ [58] else cs in
        cs ++ format_from mac (i + 1) (written + Z.of_nat (length cs)) out_len
      else []
  end.
(** The string that the buffer of [out_len] bytes holds; for a length of 0
    nothing is written. *)
Definition net_ethernet_format_mac (mac : list Z) (out_len : Z) : option (list Z) :=
  if (out_len =? 0) || (length mac <? 6)%nat then None else
  let s := format_from (take 6 mac) 0 0 out_len in
  Some (if Z.of_nat (length s) <? out_len then s else take (Z.to_nat (out_len - 1)) s).

(** The type field of the header in front of a frame. *)
Definition net_ethernet_type (hdr : option (list Z)) : option Z :=
  match hdr with
  | None => Some 0
  | Some hdr => b0 ← hdr !! 12%nat; b1 ← hdr !! 13%nat; Some (NET_NTOHS (b0 + 256 * b1))
  end.

(** ** The ARP cache *)

Record net_arp_entry := mk_arp { arp_ip : list Z; arp_mac : list Z; arp_valid : bool }.
#[global] Instance net_arp_entry_eq_dec : EqDecision net_arp_entry.
Proof. solve_decision. Defined.
Abbreviation arp_cache := (list net_arp_entry).
Definition NET_ARP_CACHE_SIZE : nat := 16.

Definition net_arp_init (g_arp_cache : arp_cache) : Z * arp_cache :=
  (NET_OK, (λ e, mk_arp (arp_ip e) (arp_mac e) false) <$> g_arp_cache).

Definition arp_hit (ip : list Z) (e : net_arp_entry) : bool := arp_valid e && bool_decide (arp_ip e = ip).

(** The first place that satisfies the test, in a loop over the cache. *)
Fixpoint find_index (f : net_arp_entry → bool) (i : nat) (l : arp_cache) : option nat :=
  match l with
  | [] => None
  | e :: l => if f e then Some i else find_index f (S i) l
  end.

Definition net_arp_insert (ip mac : option (list Z)) (g_arp_cache : arp_cache) : Z * arp_cache :=
  match ip, mac with
  | Some ip, Some mac =>
      match find_index (arp_hit ip) 0 g_arp_cache with
      | Some i => (NET_OK, alter (λ e, mk_arp (arp_ip e) mac (arp_valid e)) i g_arp_cache)
      | None =>
          match find_index (λ e, negb (arp_valid e)) 0 g_arp_cache with
          | Some i => (NET_OK, <[i := mk_arp ip mac true]> g_arp_cache)
          | None => (NET_OK, <[0%nat := mk_arp ip mac true]> g_arp_cache)
          end
      end
  | _, _ => (NET_EINVAL, g_arp_cache)
  end.

(** The result with what is written to [mac_out]. *)
Definition net_arp_lookup (ip : option (list Z)) (mac_out : bool) (g_arp_cache : arp_cache) : Z * option (list Z) :=
  match ip with
  | Some ip =>
      if negb mac_out then (NET_EINVAL, None) else
      match i ← find_index (arp_hit ip) 0 g_arp_cache; g_arp_cache !! i with
      | Some e => (NET_OK, Some (arp_mac e))
      | None => (NET_ENOENT, None)
      end
  | None => (NET_EINVAL, None)
  end.

(** A frame is an Ethernet header of 14 bytes, the ARP header of 28 bytes and
    what follows; the operation is at 20, the sender's addresses at 22 and 28. *)
Definition net_arp_process (dev : bool) (frame : option (list Z)) (g_arp_cache : arp_cache) : option (Z * arp_cache) :=
  match frame with
  | None => Some (NET_EINVAL, g_arp_cache)
  | Some frame =>
      if negb dev || (Z.of_nat (length frame) <? 14 + 28) then Some (NET_EINVAL, g_arp_cache) else
      type ← net_ethernet_type (Some frame);
      if negb (type =? NET_ETHERTYPE_ARP) then Some (NET_EINVAL, g_arp_cache) else
      b0 ← frame !! 20%nat; b1 ← frame !! 21%nat;
      let op := NET_NTOHS (b0 + 256 * b1) in
      let sha := take 6 (drop 22 frame) in
      let spa := take 4 (drop 28 frame) in
      if (op =? NET_ARP_OPCODE_REPLY) || (op =? NET_ARP_OPCODE_REQUEST)
      then Some (NET_OK, (net_arp_insert (Some spa) (Some sha) g_arp_cache).2)
      else Some (NET_OK, g_arp_cache)
  end.

(** ** The ones' complement sum *)

(** The sum of the big-endian words, an odd byte padded with zero. *)
Fixpoint word_sum (bytes : list Z) : Z :=
  match bytes with
  | b0 :: b1 :: bytes => 256 * b0 + b1 + word_sum bytes
  | [b0] => 256 * b0
  | [] => 0
  end.

(** Induction over pairs of bytes. *)
Lemma pairs_ind (P : list Z → Prop) :
  P [] → (∀ b, P [b]) → (∀ b0 b1 l, P l → P (b0 :: b1 :: l)) → ∀ l, P l.
Proof.
  intros H0 H1 H2 l. cut (P l ∧ ∀ b, P (b :: l)); [by intros []|]. induction l as [|b l [IH1 IH2]]; split; auto.
Qed.

Lemma be16_val b0 b1 : is_u8 b0 → is_u8 b1 → be16 b0 b1 = 256 * b0 + b1.
Proof. intros H0 H1. unfold be16, is_u8 in *. rewrite Z.lor_comm, lor_shiftl_add by lia. lia. Qed.

Lemma word_sum_range l : Forall is_u8 l → 0 ≤ word_sum l ≤ 65535 * Z.of_nat (S (length l) / 2).
Proof.
  induction l as [|b|b0 b1 l IH] using pairs_ind; intros Hl.
  - done.
  - apply Forall_cons in Hl as [Hb _]. unfold is_u8 in *. cbn. lia.
  - apply Forall_cons in Hl as [H0 Hl]. apply Forall_cons in Hl as [H1 Hl]. specialize (IH Hl). unfold is_u8 in *. cbn [word_sum length].
    replace (S (S (S (length l)))) with (S (length l) + 1 * 2)%nat by lia. rewrite Nat.div_add by lia. lia.
Qed.

Lemma sum_bytes_val l sum : Forall is_u8 l → is_u32 sum → sum_bytes sum l = u32 (sum + word_sum l).
Proof.
  revert sum. induction l as [|b|b0 b1 l IH] using pairs_ind; intros sum Hl Hs.
  - cbn. rewrite Z.add_0_r. by rewrite u32_small.
  - cbn. rewrite Z.shiftl_mul_pow2 by lia. f_equal. lia.
  - apply Forall_cons in Hl as [H0 Hl]. apply Forall_cons in Hl as [H1 Hl]. cbn [sum_bytes word_sum].
    rewrite IH by (done || apply u32_range). rewrite be16_val by done. unfold u32. rewrite Z.add_mod_idemp_l by lia. f_equal. lia.
Qed.

(** The ones' complement value of a sum of words. *)
Definition ones (sum : Z) : Z := if sum =? 0 then 0 else (sum - 1) mod 65535 + 1.

Lemma ones_range sum : 0 ≤ ones sum < 65536.
Proof. unfold ones. destruct (sum =? 0); lia. Qed.

Lemma fold_carries_val sum : is_u32 sum → fold_carries FOLDS sum = Some (ones sum).
Proof.
  unfold is_u32. intros Hs.
  assert (∀ n x, 0 ≤ x < 65536 → fold_carries (S n) x = Some x) as Hdone.
  { intros n x Hx. cbn. rewrite Z.shiftr_div_pow2 by lia. by rewrite Z.div_small. }
  assert (∀ n x, 65536 ≤ x < 2 ^ 32 → fold_carries (S n) x = fold_carries n (x mod 65536 + x / 65536)) as Hstep.
  { intros n x Hx. cbn [fold_carries]. rewrite Z.shiftr_div_pow2 by lia. change (2 ^ 16) with 65536. rewrite (proj2 (Z.eqb_neq _ 0)) by lia.
    change 0xffff with (Z.ones 16). rewrite Z.land_ones by lia. change (2 ^ 16) with 65536. by rewrite u32_small by lia. }
  unfold FOLDS, ones. destruct (Z.eqb_spec sum 0) as [->|H0]; [done|]. destruct (decide (sum < 65536)) as [Hlt|Hge].
  { rewrite Hdone by lia. f_equal. lia. }
  rewrite Hstep by lia. set (x := sum mod 65536 + sum / 65536). destruct (decide (x < 65536)) as [Hlt|Hge'].
  { rewrite Hdone by lia. f_equal. unfold x in *. lia. }
  rewrite Hstep by (unfold x; lia). rewrite Hdone by (unfold x in *; lia). f_equal. unfold x in *. lia.
Qed.

Lemma complement_val x : 0 ≤ x < 65536 → complement x = 65535 - x.
Proof. intros Hx. unfold complement, not32, Z.lnot, u16, u32. change (2 ^ 16) with 65536. change (2 ^ 32) with 4294967296. lia. Qed.

(** Packets short enough that the 32-bit sum does not wrap. *)
Definition summable (data : list Z) : Prop := Forall is_u8 data ∧ Z.of_nat (length data) ≤ 131000.

Lemma word_sum_bound data : summable data → 0 ≤ word_sum data < 2 ^ 32 - 10 * 65536.
Proof.
  intros [Hb Hl]. pose proof (word_sum_range _ Hb). assert (Z.of_nat (S (length data) / 2) ≤ 65501).
  { rewrite Nat2Z.inj_div. lia. }
  lia.
Qed.

Lemma checksum_val data : summable data → net_checksum data = Some (65535 - ones (word_sum data)).
Proof.
  intros Hd. pose proof (word_sum_bound _ Hd) as Hr. unfold net_checksum. rewrite sum_bytes_val by (apply Hd || done).
  rewrite Z.add_0_l, u32_small by lia. rewrite fold_carries_val by (unfold is_u32; lia). cbn. f_equal. apply complement_val, ones_range.
Qed.

Lemma checksum_zero data : summable data → net_checksum data = Some 0 ↔ word_sum data ≠ 0 ∧ word_sum data mod 65535 = 0.
Proof.
  intros Hd. pose proof (word_sum_bound _ Hd) as Hr. rewrite checksum_val by done. unfold ones.
  destruct (Z.eqb_spec (word_sum data) 0) as [E|E]; [rewrite E; split; [done|by intros []]|]. split.
  - intros [= H]. lia.
  - intros [_ H]. f_equal. lia.
Qed.

Lemma word_sum_app a b : Nat.Even (length a) → word_sum (a ++ b) = word_sum a + word_sum b.
Proof.
  induction a as [|x|x y a IH] using pairs_ind; intros He.
  - done.
  - destruct He as [k Hk]. cbn in Hk. lia.
  - cbn. rewrite IH; [lia|]. destruct He as [k Hk]. cbn in Hk. exists (k - 1)%nat. lia.
Qed.

Lemma word_sum_word a x y b : Nat.Even (length a) → word_sum (a ++ [x; y] ++ b) = 256 * x + y + (word_sum a + word_sum b).
Proof. intros He. rewrite word_sum_app by done. cbn. lia. Qed.

Lemma summable_word a x y x' y' b : is_u8 x' → is_u8 y' → summable (a ++ [x; y] ++ b) → summable (a ++ [x'; y'] ++ b).
Proof.
  intros Hx Hy [Hb Hl]. split; [|by rewrite !length_app in *]. rewrite !Forall_app in *. destruct Hb as (? & _ & ?). split_and!; [done| |done]. apply Forall_cons; split; [done|]. by apply Forall_singleton.
Qed.

(** C37: Filling in the checksum makes a packet verify, and a packet that
    verifies no longer does when one of its 16-bit words is changed, unless the
    change is between the two representations 0 and 65535 of zero. *)
Theorem net_checksum_detects a x y b c :
  Nat.Even (length a) → summable (a ++ [x; y] ++ b) →
  (net_checksum (a ++ [0; 0] ++ b) = Some c → net_checksum (a ++ [c / 256; c mod 256] ++ b) = Some 0) ∧
  (∀ x' y', is_u8 x' → is_u8 y' → net_checksum (a ++ [x; y] ++ b) = Some 0 →
     net_checksum (a ++ [x'; y'] ++ b) = Some 0 →
     (x', y') = (x, y) ∨ ((x, y) = (0, 0) ∧ (x', y') = (255, 255)) ∨ ((x, y) = (255, 255) ∧ (x', y') = (0, 0))).
Proof.
  intros He Hd. split.
  - assert (summable (a ++ [0; 0] ++ b)) as H0 by (by eapply summable_word).
    rewrite checksum_val by done. intros Hc%(inj Some). pose proof (ones_range (word_sum (a ++ [0; 0] ++ b))) as Hr.
    assert (summable (a ++ [c / 256; c mod 256] ++ b)) as H1 by (eapply summable_word; [| |exact Hd]; unfold is_u8; lia).
    apply checksum_zero; [done|]. pose proof (word_sum_bound _ H0). rewrite word_sum_word in * by done.
    set (w := word_sum a + word_sum b) in *. unfold ones in *. destruct (Z.eqb_spec (256 * 0 + 0 + w) 0); lia.
  - intros x' y' Hx' Hy' H1 H2. assert (summable (a ++ [x'; y'] ++ b)) as Hd' by (by eapply summable_word).
    apply checksum_zero in H1 as [N1 Z1]; [|done]. apply checksum_zero in H2 as [N2 Z2]; [|done].
    rewrite word_sum_word in * by done. set (w := word_sum a + word_sum b) in *.
    assert (is_u8 x ∧ is_u8 y) as [Hx Hy].
    { destruct Hd as [Hb _]. rewrite !Forall_app in Hb. destruct Hb as (_ & Hb & _). apply Forall_cons in Hb as [? Hb]. by apply Forall_cons in Hb as [? _]. }
    unfold is_u8 in *. assert (256 * x + y = 256 * x' + y' ∨ (256 * x + y = 0 ∧ 256 * x' + y' = 65535) ∨ (256 * x + y = 65535 ∧ 256 * x' + y' = 0)) as H by lia.
    destruct H as [H|[[? ?]|[? ?]]]; [left|right; left|right; right]; (try split); f_equal; lia.
Qed.

(** ** Byte order *)

Lemma htons_val x : 0 ≤ x < 65536 → NET_HTONS x = 256 * (x mod 256) + x / 256.
Proof.
  intros Hx. unfold NET_HTONS. rewrite (u16_small x) by lia.
  change 0xff00 with (Z.shiftl (Z.ones 8) 8). change 0x00ff with (Z.ones 8). rewrite <- Z.shiftl_land, !Z.land_ones by lia.
  rewrite Z.shiftr_div_pow2, Z.lor_comm, lor_shiftl_add by lia. change (2 ^ 8) with 256. rewrite u16_small; lia.
Qed.

Lemma htons_range x : 0 ≤ x < 65536 → 0 ≤ NET_HTONS x < 65536.
Proof. intros Hx. rewrite htons_val by done. lia. Qed.

Lemma htons_htons x : 0 ≤ x < 65536 → NET_HTONS (NET_HTONS x) = x.
Proof. intros Hx. rewrite (htons_val (NET_HTONS x)) by (by apply htons_range). rewrite htons_val by done. lia. Qed.

(** Swapping the bytes multiplies by 256 modulo 65535. *)
Lemma htons_mod x : 0 ≤ x < 65536 → NET_HTONS x mod 65535 = (256 * x) mod 65535.
Proof. intros Hx. rewrite htons_val by done. lia. Qed.

Lemma htonl_range x : is_u32 x → is_u32 (NET_HTONL x).
Proof.
  intros Hx. unfold is_u32 in *. unfold NET_HTONL. rewrite (u32_small x) by done. change 0xffff with (Z.ones 16).
  rewrite !Z.land_ones, Z.shiftr_div_pow2 by lia. change (2 ^ 16) with 65536.
  pose proof (htons_range (x mod 65536) ltac:(lia)). pose proof (htons_range (x / 65536 mod 65536) ltac:(lia)).
  rewrite u32_small by (rewrite Z.shiftl_mul_pow2 by lia; lia). rewrite Z.lor_comm, lor_shiftl_add by lia. lia.
Qed.

(** ** IPv4 *)

Record ipv4_ok (h : net_ipv4_header) : Prop := {
  io_small : is_u8 (ihl_version h) ∧ is_u8 (tos h) ∧ is_u8 (ttl h) ∧ is_u8 (protocol h);
  io_words : is_u16 (total_length h) ∧ is_u16 (identification h) ∧ is_u16 (flags_fragment h) ∧ is_u16 (checksum h);
  io_addrs : is_u32 (src h) ∧ is_u32 (dst h)
}.

Lemma mod256_u8 x : is_u8 (x mod 256).
Proof. unfold is_u8. lia. Qed.

(** The sum of a header splits off its checksum. *)
Lemma ipv4_sum c h : ipv4_ok h → is_u16 c →
  summable (ipv4_bytes (with_checksum c h)) ∧
  word_sum (ipv4_bytes (with_checksum c h)) = NET_HTONS c + word_sum (ipv4_bytes (with_checksum 0 h)) ∧
  256 * ihl_version h ≤ word_sum (ipv4_bytes (with_checksum 0 h)).
Proof.
  intros [(S1 & S2 & S3 & S4) (W1 & W2 & W3 & W4) [A1 A2]] Hc. unfold is_u16 in Hc. rewrite htons_val by lia. split_and!.
  - split; [|done]. unfold ipv4_bytes, le2, le4. cbn. repeat (apply Forall_cons; split; [done || apply mod256_u8|]). done.
  - unfold ipv4_bytes, le2, le4, with_checksum. cbn -[Z.mul Z.add Z.div Z.modulo]. lia.
  - unfold ipv4_bytes, le2, le4, with_checksum, is_u8, is_u16 in *. cbn -[Z.mul Z.add Z.div Z.modulo]. lia.
Qed.

Lemma ipv4_valid_run c h :
  ipv4_ok h → ihl_version h = 69 → is_u16 c → 20 ≤ NET_NTOHS (total_length h) →
  net_ipv4_header_valid (Some (with_checksum c h)) =
    Some (bool_decide ((NET_HTONS c + word_sum (ipv4_bytes (with_checksum 0 h))) mod 65535 = 0)).
Proof.
  intros Hh Hv Hc Ht. destruct (ipv4_sum c h Hh Hc) as (Hd & Hsum & Hpos). unfold net_ipv4_header_valid. cbn [with_checksum ihl_version total_length].
  rewrite Hv. change (Z.land 69 15) with 5. change (u8 (Z.shiftr 69 4)) with 4. cbn -[net_ipv4_checksum ipv4_bytes NET_NTOHS Z.ltb].
  rewrite (proj2 (Z.ltb_ge IPV4_HEADER_SIZE _)), (proj2 (Z.ltb_ge (NET_NTOHS _) _)) by (unfold IPV4_HEADER_SIZE; lia).
  change (5 <? 5) with false. cbn iota. unfold net_ipv4_checksum.
  change (take (Z.to_nat (5 * 4)) (ipv4_bytes (with_checksum c h))) with (ipv4_bytes (with_checksum c h)). destruct (decide ((NET_HTONS c + word_sum (ipv4_bytes (with_checksum 0 h))) mod 65535 = 0)) as [E|E].
  - rewrite (proj2 (checksum_zero _ Hd)); [by rewrite bool_decide_true|]. rewrite Hsum. split; [|done].
    pose proof (htons_range c Hc). rewrite Hv in Hpos. lia.
  - rewrite bool_decide_false by done. rewrite checksum_val by done. cbn. f_equal. apply Z.eqb_neq. intros H0. apply E.
    rewrite <- Hsum. apply (checksum_zero _ Hd). rewrite checksum_val by done. by f_equal.
Qed.

(** The header that is filled in has its checksum in the byte order of the
    processor: it is valid only when both bytes of the checksum are the same,
    and it would always be valid with the checksum in network order. *)
Theorem ipv4_fill_header_checksum src dst proto payload_len :
  is_u32 src → is_u32 dst → is_u8 proto → 0 ≤ payload_len ≤ 65515 →
  ∃ h, net_ipv4_fill_header src dst proto payload_len = Some h ∧ NET_NTOHS (total_length h) = 20 + payload_len ∧
    net_ipv4_header_valid (Some h) = Some (bool_decide (checksum h / 256 = checksum h mod 256)) ∧
    net_ipv4_header_valid (Some (with_checksum (NET_HTONS (checksum h)) h)) = Some true.
Proof.
  intros Hs Hd Hp Hl. unfold net_ipv4_fill_header. rewrite (u32_small (IPV4_HEADER_SIZE + payload_len)) by (unfold IPV4_HEADER_SIZE; lia).
  set (h0 := mk_ipv4 _ _ _ _ _ _ _ _ _ _).
  assert (NET_NTOHS (total_length h0) = 20 + payload_len) as Htl by (apply htons_htons; unfold IPV4_HEADER_SIZE; lia).
  assert (ipv4_ok h0) as Hh.
  { split; split_and!; try done; try (by apply htonl_range). apply htons_range. unfold IPV4_HEADER_SIZE. lia. }
  destruct (ipv4_sum 0 h0 Hh) as (Hd0 & _ & Hpos); [unfold is_u16; lia|]. change (with_checksum 0 h0) with h0 in *.
  set (w := word_sum (ipv4_bytes h0)) in *. unfold net_ipv4_checksum. rewrite checksum_val by done. cbn [mbind option_bind]. fold w.
  assert (0 < w ∧ 0 ≤ 65535 - ones w < 65535 ∧ (65535 - ones w + w) mod 65535 = 0) as (Hw & Hc & Hz).
  { change (ihl_version h0) with 69 in Hpos. unfold ones. rewrite (proj2 (Z.eqb_neq w 0)) by lia. lia. }
  set (c := 65535 - ones w) in *. eexists. split; [done|]. cbn [checksum with_checksum total_length].
  assert (∀ x, is_u16 x → net_ipv4_header_valid (Some (with_checksum x h0)) = Some (bool_decide ((NET_HTONS x + w) mod 65535 = 0))) as Hval.
  { intros x Hx. rewrite ipv4_valid_run; [done|done|done|done|rewrite Htl; lia]. }
  split_and!; [exact Htl| |].
  - change (with_checksum c _) with (with_checksum c h0). rewrite Hval by (unfold is_u16; lia). f_equal. apply bool_decide_ext.
    rewrite htons_val by lia. lia.
  - change (with_checksum (NET_HTONS c) _) with (with_checksum (NET_HTONS c) h0). rewrite Hval by (apply htons_range; lia).
    rewrite htons_htons by lia. by rewrite bool_decide_true.
Qed.

(** ** UDP and TCP *)

Lemma add_ip_val sum a b c d rest : Forall is_u8 [a; b; c; d] → is_u32 sum →
  add_ip sum (a :: b :: c :: d :: rest) = Some (u32 (sum + (256 * a + b + 256 * c + d))).
Proof.
  intros Hb Hs. repeat (apply Forall_cons in Hb as [? Hb]). cbn. rewrite !be16_val by done. f_equal. unfold u32. rewrite Z.add_mod_idemp_l by lia. f_equal. lia.
Qed.

(** An address as the integer with its first byte on top. *)
Definition ip_value (ip : list Z) : Z := foldl (λ v b, 256 * v + b) 0 ip.

Lemma byte_of_val a k : 0 ≤ k → 0 ≤ a → byte_of a k = a / 2 ^ k mod 256.
Proof.
  intros Hk Ha. unfold byte_of. change 0xFF with (Z.ones 8). rewrite Z.land_ones, Z.shiftr_div_pow2 by lia. change (2 ^ 8) with 256.
  apply u8_small. lia.
Qed.

(** Sums that do not wrap, from the inside out. *)
Ltac unwrap := repeat match goal with
  |- context [u32 ?x] => lazymatch x with context [u32 _] => fail | _ => rewrite (u32_small x) by lia end
end.

Lemma pseudo_val src dst proto data : length src = 4%nat → length dst = 4%nat → Forall is_u8 src → Forall is_u8 dst → is_u8 proto →
  Forall is_u8 data → Z.of_nat (length data) < 65536 →
  net_pseudo_checksum (ip_value src) (ip_value dst) proto data =
    Some (65535 - ones (word_sum src + word_sum dst + proto + Z.of_nat (length data) + word_sum data)).
Proof.
  intros Hls Hld Hs Hd Hp Hb Hl. destruct src as [|a [|b [|c [|d []]]]]; try done. destruct dst as [|a' [|b' [|c' [|d' []]]]]; try done.
  repeat (apply Forall_cons in Hs as [? Hs]). repeat (apply Forall_cons in Hd as [? Hd]). clear Hs Hd. unfold is_u8 in *.
  assert (summable data) as Hsum by (split; [done|lia]). pose proof (word_sum_bound _ Hsum). unfold net_pseudo_checksum.
  assert (∀ x y z t, 0 ≤ x < 2 ^ 8 → 0 ≤ y < 2 ^ 8 → 0 ≤ z < 2 ^ 8 → 0 ≤ t < 2 ^ 8 →
    byte_of (ip_value [x; y; z; t]) 24 = x ∧ byte_of (ip_value [x; y; z; t]) 16 = y ∧
    byte_of (ip_value [x; y; z; t]) 8 = z ∧ byte_of (ip_value [x; y; z; t]) 0 = t) as Hbytes.
  { intros x y z t Hx Hy Hz Ht. unfold ip_value. cbn [foldl]. rewrite !byte_of_val by lia. clear -Hx Hy Hz Ht. split_and!; lia. }
  destruct (Hbytes a b c d) as (-> & -> & -> & ->); [done..|]. destruct (Hbytes a' b' c' d') as (-> & -> & -> & ->); [done..|].
  rewrite !be16_val by done. rewrite !u16_small by lia. cbn [word_sum].
  unwrap.
  rewrite sum_bytes_val by (done || unfold is_u32; lia). rewrite u32_small by lia.
  rewrite fold_carries_val by (unfold is_u32; lia). cbn [fmap option_fmap option_map]. rewrite complement_val by apply ones_range.
  do 2 f_equal. f_equal. lia.
Qed.

Lemma transport_val proto src dst data : length src = 4%nat → length dst = 4%nat → Forall is_u8 src → Forall is_u8 dst → is_u8 proto →
  Forall is_u8 data → Z.of_nat (length data) < 65536 →
  transport_checksum proto (Some src) (Some dst) (Some data) =
    Some (65535 - ones (word_sum src + word_sum dst + NET_HTONS proto + NET_HTONS (Z.of_nat (length data)) + word_sum data)).
Proof.
  intros Hls Hld Hs Hd Hp Hb Hl. destruct src as [|a [|b [|c [|d []]]]]; try done. destruct dst as [|a' [|b' [|c' [|d' []]]]]; try done.
  unfold transport_checksum. rewrite add_ip_val by done. cbn [mbind option_bind]. rewrite add_ip_val by (done || apply u32_range). cbn [mbind option_bind].
  repeat (apply Forall_cons in Hs as [? Hs]). repeat (apply Forall_cons in Hd as [? Hd]). unfold is_u8 in *.
  assert (summable data) as Hsum by (split; [done|lia]). pose proof (word_sum_bound _ Hsum).
  pose proof (htons_range proto ltac:(lia)). pose proof (htons_range (Z.of_nat (length data)) ltac:(lia)).
  rewrite (u16_small (Z.of_nat (length data))) by lia. cbn [word_sum].
  unwrap. rewrite sum_bytes_val by (done || unfold is_u32; lia). rewrite u32_small by lia.
  rewrite fold_carries_val by (unfold is_u32; lia). cbn [fmap option_fmap option_map]. rewrite complement_val by apply ones_range.
  do 2 f_equal. f_equal. lia.
Qed.

Lemma ones_eq s t : 0 < s → 0 < t → ones s = ones t ↔ s mod 65535 = t mod 65535.
Proof. intros Hs Ht. unfold ones. rewrite !(proj2 (Z.eqb_neq _ 0)) by lia. lia. Qed.

Lemma swap_agrees w p n h : h mod 65535 = (256 * n) mod 65535 →
  (w + 256 * p + h) mod 65535 = (w + p + n) mod 65535 ↔ (p + n) mod 257 = 0.
Proof.
  intros Hh. assert (∃ k, h = 256 * n + 65535 * k) as [k ->].
  { exists (h / 65535 - 256 * n / 65535). pose proof (Z.div_mod h 65535 ltac:(lia)). pose proof (Z.div_mod (256 * n) 65535 ltac:(lia)).
    rewrite Hh in *. set ((256 * n) mod 65535) as r in *. clearbody r. lia. }
  clear Hh. split; intros H.
  - pose proof (Z.div_mod (w + 256 * p + (256 * n + 65535 * k)) 65535 ltac:(lia)) as E1. pose proof (Z.div_mod (w + p + n) 65535 ltac:(lia)) as E2.
    rewrite H in E1. set (r := (w + p + n) mod 65535) in *. set (q1 := (w + 256 * p + (256 * n + 65535 * k)) / 65535) in *. set (q2 := (w + p + n) / 65535) in *.
    clearbody r q1 q2. clear H. replace (p + n) with ((q1 - q2 - k) * 257) by lia. by apply Z.mod_mul.
  - assert (p + n = 257 * ((p + n) / 257)) as E by lia. set (q := (p + n) / 257) in *. clearbody q. clear H.
    replace (w + 256 * p + (256 * n + 65535 * k)) with (w + p + n + (q + k) * 65535) by lia. by rewrite Z.mod_add.
Qed.

Lemma eq_iff (a b c d : Z) : a = c → b = d → (a = b ↔ c = d).
Proof. by intros -> ->. Qed.

(** The UDP and TCP checksums add the protocol number and the length with
    their bytes swapped: they are the checksum over the pseudo header only for
    the lengths with which the swapped sum happens to agree, one in 257. *)
Theorem transport_checksum_differs src dst data :
  length src = 4%nat → length dst = 4%nat → Forall is_u8 src → Forall is_u8 dst → Forall is_u8 data → Z.of_nat (length data) < 65536 →
  (net_udp_checksum (Some src) (Some dst) (Some data) = net_pseudo_checksum (ip_value src) (ip_value dst) NET_IPPROTO_UDP data ↔
     (17 + Z.of_nat (length data)) mod 257 = 0) ∧
  (net_tcp_checksum (Some src) (Some dst) (Some data) = net_pseudo_checksum (ip_value src) (ip_value dst) NET_IPPROTO_TCP data ↔
     (6 + Z.of_nat (length data)) mod 257 = 0).
Proof.
  intros Hls Hld Hs Hd Hb Hl. unfold net_udp_checksum, net_tcp_checksum. rewrite !transport_val, !pseudo_val by done.
  pose proof (word_sum_range _ Hs). pose proof (word_sum_range _ Hd). pose proof (word_sum_range _ Hb).
  pose proof (htons_mod (Z.of_nat (length data)) ltac:(lia)). pose proof (htons_range (Z.of_nat (length data)) ltac:(lia)).
  change (NET_HTONS NET_IPPROTO_UDP) with (256 * 17). change (NET_HTONS NET_IPPROTO_TCP) with (256 * 6). unfold NET_IPPROTO_UDP, NET_IPPROTO_TCP.
  set (w := word_sum data) in *. set (n := Z.of_nat (length data)) in *.
  assert (∀ s t, 0 < s → 0 < t → Some (65535 - ones s) = Some (65535 - ones t) ↔ s mod 65535 = t mod 65535) as Heq.
  { intros s t Hs0 Ht0. rewrite <- ones_eq by done. split; [intros E%(inj Some); lia|by intros ->]. }
  split; (rewrite Heq by lia); [rewrite <- (swap_agrees (word_sum src + word_sum dst + w) 17 n (NET_HTONS n))|
    rewrite <- (swap_agrees (word_sum src + word_sum dst + w) 6 n (NET_HTONS n))]; try done; apply eq_iff; f_equal; lia.
Qed.

(** ** The ARP cache *)

Definition cache_ok (l : arp_cache) : Prop :=
  length l = NET_ARP_CACHE_SIZE ∧
  ∀ i j e e', l !! i = Some e → l !! j = Some e' → arp_valid e = true → arp_valid e' = true → arp_ip e = arp_ip e' → i = j.

(** The address that the cache knows for [ip]. *)
Definition known (l : arp_cache) (ip : list Z) (mac : list Z) : Prop := ∃ i, l !! i = Some (mk_arp ip mac true).

Lemma find_index_Some f n l i : find_index f n l = Some i →
  ∃ j e, i = (n + j)%nat ∧ l !! j = Some e ∧ f e = true.
Proof.
  revert n. induction l as [|e l IH]; intros n; [done|]. cbn. destruct (f e) eqn:Hf.
  - intros [= <-]. exists 0%nat, e. split_and!; [lia|done|done].
  - intros (j & e' & -> & Hj & He)%IH. exists (S j), e'. split_and!; [lia|done|done].
Qed.
Lemma find_index_None f n l e j : find_index f n l = None → l !! j = Some e → f e = false.
Proof.
  revert n j. induction l as [|e' l IH]; intros n j; [done|]. cbn. destruct (f e') eqn:Hf; [done|]. intros Hn. destruct j; cbn; [by intros [= <-]|]. by eapply IH.
Qed.

Lemma hit_iff ip e : arp_hit ip e = true ↔ arp_valid e = true ∧ arp_ip e = ip.
Proof. unfold arp_hit. by rewrite andb_true_iff, bool_decide_eq_true. Qed.

Lemma lookup_known l ip : cache_ok l →
  (∃ mac, known l ip mac ∧ net_arp_lookup (Some ip) true l = (NET_OK, Some mac)) ∨
  ((∀ mac, ¬ known l ip mac) ∧ net_arp_lookup (Some ip) true l = (NET_ENOENT, None)).
Proof.
  intros _. unfold net_arp_lookup, known. cbn [negb]. destruct (find_index (arp_hit ip) 0 l) as [i|] eqn:Hf; cbn [mbind option_bind].
  - left. apply find_index_Some in Hf as (j & [ip' mac v] & -> & Hj & [Hv <-]%hit_iff). cbn in *. rewrite Hv in Hj. rewrite Hj. eauto.
  - right. split; [|done]. intros mac [i Hi]. pose proof (find_index_None _ _ _ _ _ Hf Hi) as H.
    assert (arp_hit ip (mk_arp ip mac true) = true) by (by apply hit_iff). congruence.
Qed.

Lemma known_unique l ip mac mac' : cache_ok l → known l ip mac → known l ip mac' → mac = mac'.
Proof. intros [_ Hu] [i Hi] [j Hj]. assert (i = j) as -> by (by eapply Hu). rewrite Hi in Hj. by injection Hj. Qed.

(** Writing an entry for an address that no other place holds. *)
Lemma place_entry l i ip mac : cache_ok l → (i < NET_ARP_CACHE_SIZE)%nat →
  (∀ j e, l !! j = Some e → arp_valid e = true → arp_ip e = ip → j = i) →
  let l' := <[i := mk_arp ip mac true]> l in
  cache_ok l' ∧ known l' ip mac ∧
  (∀ ip' mac', ip' ≠ ip → known l' ip' mac' ↔ known l ip' mac' ∧ ¬ l !! i = Some (mk_arp ip' mac' true)).
Proof.
  intros [Hlen Hu] Hi Hfree l'. assert (∀ j, j ≠ i → l' !! j = l !! j) as Hne by (intros; by apply list_lookup_insert_ne).
  assert (l' !! i = Some (mk_arp ip mac true)) as Heq by (apply list_lookup_insert_eq; lia).
  split_and!.
  - split; [unfold l'; by rewrite length_insert|]. intros j k e e' Hj Hk Hv Hv' Hip.
    destruct (decide (j = i)) as [->|Hji], (decide (k = i)) as [->|Hki]; [done| | |].
    + rewrite Heq in Hj. injection Hj as <-. cbn in Hip. rewrite Hne in Hk by done. symmetry. by eapply Hfree.
    + rewrite Heq in Hk. injection Hk as <-. cbn in Hip. rewrite Hne in Hj by done. by eapply Hfree.
    + rewrite Hne in Hj, Hk by done. by eapply Hu.
  - by exists i.
  - intros ip' mac' Hip. split.
    + intros [j Hj]. destruct (decide (j = i)) as [->|Hji]; [rewrite Heq in Hj; by injection Hj|]. rewrite Hne in Hj by done. split; [by exists j|].
      intros Hi'. apply Hji. by eapply Hu.
    + intros [[j Hj] Hn]. exists j. rewrite Hne; [done|]. by intros ->.
Qed.

(** After an insertion the cache gives the new hardware address for the
    address, at most one entry exists for every address, and every other entry
    stays, but for the first place, which is given up when no entry is free. *)
Theorem arp_cache_correct l ip mac :
  cache_ok l → let l' := (net_arp_insert (Some ip) (Some mac) l).2 in
  cache_ok l' ∧ net_arp_lookup (Some ip) true l' = (NET_OK, Some mac) ∧
  (∀ ip' mac', ip' ≠ ip → known l ip' mac' →
     known l' ip' mac' ∨ (l !! 0%nat = Some (mk_arp ip' mac' true) ∧ (∀ m, ¬ known l ip m) ∧ Forall (λ e, arp_valid e = true) l)) ∧
  (∀ ip' mac', ip' ≠ ip → known l' ip' mac' → known l ip' mac').
Proof.
  intros HC l'.
  assert (∃ i, l' = <[i := mk_arp ip mac true]> l ∧ (i < NET_ARP_CACHE_SIZE)%nat ∧
    (∀ j e, l !! j = Some e → arp_valid e = true → arp_ip e = ip → j = i) ∧
    ((∃ e, l !! i = Some e ∧ (arp_valid e = false ∨ arp_ip e = ip)) ∨ (i = 0%nat ∧ (∀ m, ¬ known l ip m) ∧ Forall (λ e, arp_valid e = true) l)))
    as (i & -> & Hi & Hfree & Hwhy).
  { unfold l', net_arp_insert. pose proof HC as [Hlen Hu]. destruct (find_index (arp_hit ip) 0 l) as [i|] eqn:Hhit.
    - apply find_index_Some in Hhit as (j & e & -> & Hj & [Hv He]%hit_iff). exists j. cbn [Nat.add snd]. split_and!.
      + apply list_eq. intros k. destruct (decide (k = j)) as [->|]; [|by rewrite list_lookup_alter_ne, list_lookup_insert_ne].
        rewrite list_lookup_alter_eq, Hj, list_lookup_insert_eq by (by eapply lookup_lt_Some). cbn. by rewrite He, Hv.
      + apply lookup_lt_Some in Hj. lia.
      + intros k e' Hk Hv' He'. eapply Hu; [done|done|done|done|congruence].
      + left. exists e. eauto.
    - assert (∀ j e, l !! j = Some e → arp_valid e = true → arp_ip e ≠ ip) as Hno.
      { intros j e Hj Hv He. pose proof (find_index_None _ _ _ _ _ Hhit Hj) as H. assert (arp_hit ip e = true) by (by apply hit_iff). congruence. }
      destruct (find_index (λ e, negb (arp_valid e)) 0 l) as [i|] eqn:Hinv; cbn [snd].
      + apply find_index_Some in Hinv as (j & e & -> & Hj & Hv%negb_true_iff). exists j. split_and!; [done|apply lookup_lt_Some in Hj; lia| |left; eauto].
        intros k e' Hk Hv' He'. by destruct (Hno k e').
      + exists 0%nat. split_and!; [done|unfold NET_ARP_CACHE_SIZE; lia| |right; split_and!; [done| |]].
        * intros k e' Hk Hv' He'. by destruct (Hno k e').
        * intros m [k Hk]. by destruct (Hno k _ Hk).
        * apply Forall_lookup. intros k e Hk. pose proof (find_index_None _ _ _ _ _ Hinv Hk) as H. by apply negb_false_iff in H. }
  destruct (place_entry l i ip mac HC Hi Hfree) as (HC' & Hk & Hothers). split_and!; [done| | |].
  - destruct (lookup_known _ ip HC') as [(m & Hm & ->)|[Hno _]]; [by rewrite (known_unique _ _ _ _ HC' Hk Hm)|by destruct (Hno mac)].
  - intros ip' mac' Hne Hkn. destruct Hwhy as [(e & He & Hev)|(-> & Hn & Hall)].
    + left. apply Hothers; [done|]. split; [done|]. rewrite He. intros [= ->]. cbn in Hev. destruct Hev; done.
    + destruct (l !! 0%nat) as [e|] eqn:He; [|left; apply (proj2 (Hothers ip' mac' Hne)); split; [done|congruence]].
      destruct (decide (e = mk_arp ip' mac' true)) as [->|Hd]; [by right|]. left. apply Hothers; [done|]. split; [done|]. congruence.
  - intros ip' mac' Hne Hkn. by apply Hothers.
Qed.

(** ** Examples *)

Lemma net_checksum_detects_witness :
  net_checksum [1; 2; 0; 0; 3] = Some 0xFBFD ∧ net_checksum [1; 2; 0xFB; 0xFD; 3] = Some 0 ∧
  net_checksum [1; 2; 0xFB; 0xFC; 3] ≠ Some 0.
Proof.
  assert (summable [1; 2; 0xFB; 0xFD; 3]) as Hd by (split; by_eval).
  destruct (net_checksum_detects [1; 2] 0xFB 0xFD [3] 0xFBFD) as [H1 H2]; [by exists 1%nat|exact Hd|].
  assert (net_checksum [1; 2; 0; 0; 3] = Some 0xFBFD) as Hc by (vm_compute; reflexivity).
  split_and!; [exact Hc|exact (H1 Hc)|]. intros H. destruct (H2 0xFB 0xFC) as [E|[[E _]|[E _]]]; [by_eval|by_eval|exact (H1 Hc)|exact H|done|done|done].
Defined.

Lemma ipv4_fill_header_checksum_witness :
  ∃ h, net_ipv4_fill_header 0x7F000001 0x7F000001 17 8 = Some h ∧ net_ipv4_header_valid (Some h) = Some false.
Proof.
  destruct (ipv4_fill_header_checksum 0x7F000001 0x7F000001 17 8) as (h & Hh & _ & Hv & _); [by_eval|by_eval|by_eval|lia|].
  exists h. split; [exact Hh|]. rewrite Hv. vm_compute in Hh. injection Hh as <-. vm_compute. reflexivity.
Defined.

Lemma transport_checksum_differs_witness :
  net_udp_checksum (Some [10; 0; 0; 1]) (Some [10; 0; 0; 2]) (Some [1; 2; 3; 4]) ≠
  net_pseudo_checksum 0x0A000001 0x0A000002 NET_IPPROTO_UDP [1; 2; 3; 4].
Proof.
  destruct (transport_checksum_differs [10; 0; 0; 1] [10; 0; 0; 2] [1; 2; 3; 4]) as [H _]; [done|done|by_eval|by_eval|by_eval|done|].
  intros E. apply H in E. by vm_compute in E.
Defined.

Definition ex_cache : arp_cache := replicate 16 (mk_arp [10; 0; 0; 9] [9; 9; 9; 9; 9; 9] false).
Lemma arp_cache_correct_witness :
  net_arp_lookup (Some [10; 0; 0; 1]) true (net_arp_insert (Some [10; 0; 0; 1]) (Some [1; 2; 3; 4; 5; 6]) ex_cache).2 = (NET_OK, Some [1; 2; 3; 4; 5; 6]).
Proof.
  refine (proj1 (proj2 (arp_cache_correct ex_cache [10; 0; 0; 1] [1; 2; 3; 4; 5; 6] _))).
  split; [done|]. by intros i j e e' [-> _]%lookup_replicate [-> _]%lookup_replicate.
Defined.
End NetPacket.
