(* ===== verification/Net.v ===== *)
(** * Network devices, packet queues and sockets

    [src/kernel/net/net.c], [dev.c], [loopback.c], [nic.c], [packet.c],
    [socket.c] and the stubs of [e1000.c].  Objects are named by their
    addresses; a device or socket at [a] has the head of its packet queue at [a]
    and its own link at [a + 1], a packet at [a] has its link at [a]. *)

From S2P Require Import Prelude Links NetPacket.
Import Links NetPacket.

Module Net.

Definition NET_NAME_MAX : Z := 32.
Definition NET_MTU_DEFAULT : Z := 1500.

(** [net_packet_t], [net_device_t] and [net_socket_t] without their links;
    functions are named by numbers, 0 for NULL. *)
Record net_packet := mk_packet { pk_len : Z; pk_capacity : Z; pk_data : option (list Z) }.
Record net_device := mk_device {
  d_name : cstring; d_mac : list Z; d_mtu : Z; d_flags : Z; d_priv : Z; d_xmit : Z; d_poll_rx : Z
}.
Record net_socket := mk_socket { so_fd : Z; so_type : Z; so_port : Z; so_device : Z }.
Inductive object := Packet (p : net_packet) | Device (d : net_device) | Socket (k : net_socket).

Definition NET_SOCK_STREAM : Z := 1.
Definition NET_SOCK_DGRAM : Z := 2.

(** The statics of [net.c] and [socket.c], the ARP cache, and the heap: the
    objects, an address beyond all that were handed out and whether the next
    allocations succeed. *)
Record net := mk_net {
  lk : links; objs : gmap Z object; g_arp_cache : arp_cache; g_net_ready : bool; g_next_sock_fd : Z;
  next : Z; oracle : list bool
}.
Implicit Types (s : net).
Definition g_net_devices : Z := 1.
Definition g_net_sockets : Z := 2.

Definition set_lk (x : links) s : net := mk_net x (objs s) (g_arp_cache s) (g_net_ready s) (g_next_sock_fd s) (next s) (oracle s).
Definition set_objs (x : gmap Z object) s : net := mk_net (lk s) x (g_arp_cache s) (g_net_ready s) (g_next_sock_fd s) (next s) (oracle s).
Definition set_arp (x : arp_cache) s : net := mk_net (lk s) (objs s) x (g_net_ready s) (g_next_sock_fd s) (next s) (oracle s).
Definition set_ready (b : bool) s : net := mk_net (lk s) (objs s) (g_arp_cache s) b (g_next_sock_fd s) (next s) (oracle s).
Definition set_sock_fd (n : Z) s : net := mk_net (lk s) (objs s) (g_arp_cache s) (g_net_ready s) n (next s) (oracle s).
Definition set_heap (n : Z) (o : list bool) s : net := mk_net (lk s) (objs s) (g_arp_cache s) (g_net_ready s) (g_next_sock_fd s) n o.

Definition on_links {A} (m : cmd links A) : cmd net A := czoom lk set_lk m.
Definition queue_of (a : Z) : Z := a.
Definition link_of (a : Z) : Z := a + 1.

(** Whether the next allocation succeeds. *)
Definition allocates : cmd net bool := λ s,
  match oracle s with
  | b :: o => Some (b, set_heap (next s) o s)
  | [] => Some (true, s)
  end.
(** [calloc] of an object with its links, and [free]. *)
Definition new_object (o : object) : cmd net Z :=
  ok ← allocates;
  if negb (ok : bool) then mret 0 else
  s ← cget;
  cmodify (λ s, set_heap (next s + 2) (oracle s)
    (set_lk (<[next s := mk_link 0 0]> (<[next s + 1 := mk_link 0 0]> (lk s))) (set_objs (<[next s := o]> (objs s)) s)));;
  mret (next s).
Definition free_object (a : Z) : cmd net unit :=
  cmodify (λ s, set_lk (delete a (delete (a + 1) (lk s))) (set_objs (delete a (objs s)) s)).

Definition get_packet (a : Z) : cmd net net_packet :=
  cread (λ s, match objs s !! a with Some (Packet p) => Some p | _ => None end).
Definition get_device (a : Z) : cmd net net_device :=
  cread (λ s, match objs s !! a with Some (Device d) => Some d | _ => None end).
Definition get_socket (a : Z) : cmd net net_socket :=
  cread (λ s, match objs s !! a with Some (Socket k) => Some k | _ => None end).
Definition put (a : Z) (o : object) : cmd net unit := cmodify (λ s, set_objs (<[a := o]> (objs s)) s).

Section net.
(** The functions of drivers: sending gives the result, polling the result and
    what is put into the buffer. *)
Context (driver_xmit : Z → Z → list Z → cmd net Z).
Context (driver_poll : Z → Z → Z → cmd net (Z * option (list Z))).

(** ** [packet.c] and the packets of [net.c] *)

Definition net_packet_alloc (len : Z) : cmd net Z :=
  pkt ← new_object (Packet (mk_packet 0 0 None));
  if pkt =? 0 then mret 0 else
  data ← (if 0 <? len then ok ← allocates; mret (if (ok : bool) then Some (replicate (Z.to_nat len) 0) else None) else mret None);
  if (0 <? len) && bool_decide (data = None) then free_object pkt;; mret 0 else
  put pkt (Packet (mk_packet len len data));;
  on_links (LinkInit pkt);;
  mret pkt.

Definition net_packet_free (pkt : Z) : cmd net unit :=
  if pkt =? 0 then mret tt else get_packet pkt;; free_object pkt.

Definition net_packet_clone (pkt : Z) : cmd net Z :=
  if pkt =? 0 then mret 0 else
  p ← get_packet pkt;
  copy ← net_packet_alloc (pk_len p);
  if copy =? 0 then mret 0 else
  c ← get_packet copy;
  data ← (match pk_data p with
    | Some d => if Z.of_nat (length d) <? pk_len p then cundef
                else mret ((λ b, splice 0 (take (Z.to_nat (pk_len p)) d) b) <$> pk_data c)
    | None => if pk_len p =? 0 then mret (pk_data c) else cundef
    end);
  put copy (Packet (mk_packet (pk_len p) (pk_capacity p) data));;
  mret copy.

(** ** [net.c] *)

Definition net_socket_init : cmd net Z :=
  on_links (LinkInit g_net_sockets);; cmodify (set_sock_fd 1);; mret NET_OK.

Definition net_init : cmd net unit :=
  s ← cget;
  if g_net_ready s then mret tt else
  on_links (LinkInit g_net_devices);;
  cmodify (λ s, set_arp (net_arp_init (g_arp_cache s)).2 s);;
  net_socket_init;;
  cmodify (set_ready true).

(** The device whose link is [it]: [LinkData(it, net_device_t, rx_queue_link)]. *)
Definition device_at (it : Z) : Z := it - 1.

Definition net_find_device (name : option cstring) : cmd net Z :=
  match name with
  | None => mret 0
  | Some name =>
      r ← ListForEach lk g_net_devices (λ it,
            dev ← get_device (device_at it);
            if streq (d_name dev) name then mret (Some (device_at it)) else mret None);
      mret (default 0 r)
  end.

Definition net_register_device (dev : Z) : cmd net Z :=
  if dev =? 0 then mret NET_EINVAL else
  d ← get_device dev;
  if bool_decide (d_name d = []) then mret NET_EINVAL else
  s ← cget;
  (if g_net_ready s then mret tt else net_init);;
  r ← ListForEach lk g_net_devices (λ it,
        cur ← get_device (device_at it);
        if streq (d_name cur) (d_name d) then mret (Some NET_EBUSY) else mret None);
  match r with
  | Some r => mret r
  | None =>
      (if d_mtu d =? 0 then put dev (Device (mk_device (d_name d) (d_mac d) NET_MTU_DEFAULT (d_flags d) (d_priv d) (d_xmit d) (d_poll_rx d)))
       else mret tt);;
      on_links (LinkInit (queue_of dev));;
      on_links (LinkInit (link_of dev));;
      on_links (LinkBefore g_net_devices (link_of dev));;
      mret NET_OK
  end.

(** [while (!ListIsEmpty(&queue))], freeing the packets *)
Fixpoint free_packets (fuel : nat) (queue : Z) : cmd net unit :=
  match fuel with
  | O => cundef
  | S fuel =>
      empty ← on_links (ListIsEmpty queue);
      if (empty : bool) then mret tt else
      l ← on_links (get_link queue);
      let node := l_next l in
      on_links (LinkRemove node);;
      net_packet_free node;;
      free_packets fuel queue
  end.
(** [if (link.next && link.prev) ListRemove(&link)] *)
Definition remove_linked (link : Z) : cmd net unit :=
  l ← on_links (get_link link);
  if negb (l_next l =? 0) && negb (l_prev l =? 0) then on_links (LinkRemove link) else mret tt.

Definition net_unregister_device (dev : Z) : cmd net Z :=
  if dev =? 0 then mret NET_EINVAL else
  remove_linked (link_of dev);;
  s ← cget;
  free_packets (S (size (lk s))) (queue_of dev);;
  mret NET_OK.

(** [data] is [None] for NULL, and otherwise the [len] bytes. *)
Definition net_rx_push (dev : Z) (data : option (list Z)) (len : Z) : cmd net Z :=
  match data with
  | Some data =>
      if (dev =? 0) || (len =? 0) then mret NET_EINVAL else
      pkt ← net_packet_alloc len;
      if pkt =? 0 then mret NET_ENOMEM else
      p ← get_packet pkt;
      if Z.of_nat (length data) <? len then cundef else
      put pkt (Packet (mk_packet len (pk_capacity p) (splice 0 (take (Z.to_nat len) data) <$> pk_data p)));;
      on_links (LinkBefore (queue_of dev) pkt);;
      mret NET_OK
  | None => mret NET_EINVAL
  end.

(** The result and what is copied to the buffer, whose length is [*out]. *)
Definition net_rx_pop (dev : Z) (buf : bool) (len : Z) : cmd net (Z * option (list Z)) :=
  if (dev =? 0) || negb buf || (len =? 0) then mret (NET_EINVAL, None) else
  empty ← on_links (ListIsEmpty (queue_of dev));
  if (empty : bool) then mret (NET_EAGAIN, None) else
  l ← on_links (get_link (queue_of dev));
  let node := l_next l in
  on_links (LinkRemove node);;
  pkt ← get_packet node;
  let n := if len <? pk_len pkt then len else pk_len pkt in
  data ← (match pk_data pkt with
    | Some d => if Z.of_nat (length d) <? n then cundef else mret (take (Z.to_nat n) d)
    | None => if n =? 0 then mret [] else cundef
    end);
  net_packet_free node;;
  mret (NET_OK, Some data).

(** ** [loopback.c], and the calls through the pointers of a device *)

Definition LOOPBACK_XMIT : Z := 1.
Definition LOOPBACK_POLL : Z := 2.
Definition loopback_xmit (dev : Z) (data : list Z) (len : Z) : cmd net Z := net_rx_push dev (Some data) len.
Definition loopback_poll (dev : Z) (buf : bool) (len : Z) : cmd net (Z * option (list Z)) := net_rx_pop dev buf len.

Definition net_send (dev : Z) (data : option (list Z)) (len : Z) : cmd net Z :=
  match data with
  | Some data =>
      if (dev =? 0) || (len =? 0) then mret NET_EINVAL else
      d ← get_device dev;
      if d_xmit d =? 0 then mret NET_ENOENT else
      if d_mtu d <? len then mret NET_E2BIG else
      if d_xmit d =? LOOPBACK_XMIT then loopback_xmit dev data len else driver_xmit (d_xmit d) dev (take (Z.to_nat len) data)
  | None => mret NET_EINVAL
  end.

(** ** [dev.c] *)

Definition net_copy_name (src : cstring) : cstring := take (Z.to_nat (NET_NAME_MAX - 1)) src.

Definition net_device_alloc (name : option cstring) (mac : option (list Z)) (mtu xmit poll_rx priv : Z) : cmd net Z :=
  match name with
  | None => mret 0
  | Some name =>
      if xmit =? 0 then mret 0 else
      dev ← new_object (Device (mk_device [] (replicate 6 0) 0 0 0 0 0));
      if dev =? 0 then mret 0 else
      mac ← (match mac with
        | Some mac => if (length mac <? 6)%nat then cundef else mret (take 6 mac)
        | None => mret (replicate 6 0)
        end);
      put dev (Device (mk_device (net_copy_name name) mac (if mtu =? 0 then NET_MTU_DEFAULT else mtu) 0 priv xmit poll_rx));;
      on_links (LinkInit (queue_of dev));;
      on_links (LinkInit (link_of dev));;
      mret dev
  end.

Definition net_device_free (dev : Z) : cmd net unit :=
  if dev =? 0 then mret tt else
  net_unregister_device dev;;
  get_device dev;;
  free_object dev.

Definition net_device_poll (dev : Z) (buf : bool) (len : Z) : cmd net (Z * option (list Z)) :=
  if dev =? 0 then mret (NET_EINVAL, None) else
  d ← get_device dev;
  if d_poll_rx d =? 0 then net_rx_pop dev buf len else
  if d_poll_rx d =? LOOPBACK_POLL then loopback_poll dev buf len else driver_poll (d_poll_rx d) dev len.

Definition net_loopback_init : cmd net unit :=
  lo ← net_device_alloc (Some (cstr "lo")) (Some (replicate 6 0)) NET_MTU_DEFAULT LOOPBACK_XMIT LOOPBACK_POLL 0;
  if lo =? 0 then mret tt else
  r ← net_register_device lo;
  if negb (r =? NET_OK) then net_device_free lo else mret tt.

(** [nic.c] *)
Definition net_nic_initialize (dev : Z) : cmd net Z :=
  if dev =? 0 then mret NET_EINVAL else
  d ← get_device dev;
  if d_xmit d =? 0 then mret NET_ENOENT else
  (if d_mtu d =? 0 then put dev (Device (mk_device (d_name d) (d_mac d) NET_MTU_DEFAULT (d_flags d) (d_priv d) (d_xmit d) (d_poll_rx d)))
   else mret tt);;
  r ← net_register_device dev;
  mret (if negb (r =? NET_OK) then NET_EBUSY else NET_OK).

(** [e1000.c] *)
Definition e1000_probe : Z := NET_ENOENT.
Definition e1000_init (dev : Z) : Z := if dev =? 0 then NET_EINVAL else NET_ENOENT.

(** ** [socket.c] *)

Definition net_socket_create (type : Z) : cmd net Z :=
  if negb (type =? NET_SOCK_DGRAM) && negb (type =? NET_SOCK_STREAM) then mret 0 else
  sock ← new_object (Socket (mk_socket 0 0 0 0));
  if sock =? 0 then mret 0 else
  s ← cget;
  cmodify (set_sock_fd (g_next_sock_fd s + 1));;
  put sock (Socket (mk_socket (g_next_sock_fd s) type 0 0));;
  on_links (LinkInit (link_of sock));;
  on_links (LinkInit (queue_of sock));;
  on_links (LinkBefore g_net_sockets (link_of sock));;
  mret sock.

Definition net_socket_bind (sock port : Z) : cmd net Z :=
  if (sock =? 0) || (port =? 0) then mret NET_EINVAL else
  k ← get_socket sock;
  put sock (Socket (mk_socket (so_fd k) (so_type k) port (so_device k)));;
  mret NET_OK.

Definition net_socket_close (sock : Z) : cmd net Z :=
  if sock =? 0 then mret NET_EINVAL else
  remove_linked (link_of sock);;
  s ← cget;
  free_packets (S (size (lk s))) (queue_of sock);;
  get_socket sock;;
  free_object sock;;
  mret NET_OK.

Definition net_socket_sendto (sock : Z) (data : option (list Z)) (len : Z) : cmd net Z :=
  if (sock =? 0) || bool_decide (data = None) || (len =? 0) then mret NET_EINVAL else
  k ← get_socket sock;
  dev ← (if negb (so_device k =? 0) then mret (so_device k) else net_find_device (Some (cstr "lo")));
  if dev =? 0 then mret NET_ENOENT else net_send dev data len.

Definition net_socket_recvfrom (sock : Z) (buf : bool) (len : Z) : cmd net (Z * option (list Z)) :=
  if (sock =? 0) || negb buf || (len =? 0) then mret (NET_EINVAL, None) else
  empty ← on_links (ListIsEmpty (queue_of sock));
  if (empty : bool) then mret (NET_EAGAIN, None) else
  l ← on_links (get_link (queue_of sock));
  let node := l_next l in
  on_links (LinkRemove node);;
  pkt ← get_packet node;
  let copied := if pk_len pkt <=? len then pk_len pkt else len in
  data ← (match pk_data pkt with
    | Some d => if Z.of_nat (length d) <? copied then cundef else mret (take (Z.to_nat copied) d)
    | None => if copied =? 0 then mret [] else cundef
    end);
  net_packet_free node;;
  mret (NET_OK, Some data).

(** ** The loopback device as a queue *)

(** A step through the accesses to the state. *)
Ltac net_step :=
  lazymatch goal with
  | |- wp (put _ _) _ _ => unfold put
  | |- wp (free_object _) _ _ => unfold free_object
  | |- wp (on_links _) _ _ => unfold on_links
  | |- wp net_socket_init _ _ => unfold net_socket_init
  | _ => idtac
  end; wp_step.

Lemma get_packet_wp a p s Q : objs s !! a = Some (Packet p) → Q p s → wp (get_packet a) Q s.
Proof. intros H. apply wp_read. by rewrite H. Qed.
Lemma get_device_wp a d s Q : objs s !! a = Some (Device d) → Q d s → wp (get_device a) Q s.
Proof. intros H. apply wp_read. by rewrite H. Qed.
Lemma get_socket_wp a k s Q : objs s !! a = Some (Socket k) → Q k s → wp (get_socket a) Q s.
Proof. intros H. apply wp_read. by rewrite H. Qed.
Lemma net_same_lk s : set_lk (lk s) s = s.
Proof. by destruct s. Qed.

(** The heap: objects have even addresses below [next], links lie in them. *)
Record heap_ok s : Prop := {
  h_next : Z.Even (next s) ∧ 4 ≤ next s;
  h_links : ∀ a, is_Some (lk s !! a) → 0 < a < next s;
  h_objs : ∀ a, is_Some (objs s !! a) → a < next s
}.

Definition refuses s : Prop := false ∈ oracle s.

Lemma allocates_wp s :
  wp allocates (λ b s', lk s' = lk s ∧ objs s' = objs s ∧ next s' = next s ∧ g_net_ready s' = g_net_ready s ∧
    (b = false → refuses s) ∧ (refuses s' → refuses s)) s.
Proof.
  unfold allocates, refuses, wp. destruct (oracle s) as [|b o] eqn:E; cbn; rewrite ?E; [by split_and!|]. split_and!; try done.
  - intros ->. left.
  - intros H. by right.
Qed.

Lemma net_object_wp s o :
  heap_ok s →
  wp (new_object o) (λ r s',
    (r = 0 ∧ refuses s ∧ lk s' = lk s ∧ objs s' = objs s ∧ next s' = next s ∧ g_net_ready s' = g_net_ready s ∧ (refuses s' → refuses s)) ∨
    (r = next s ∧ lk s' = <[r := mk_link 0 0]> (<[r + 1 := mk_link 0 0]> (lk s)) ∧ objs s' = <[r := o]> (objs s) ∧
     next s' = next s + 2 ∧ g_net_ready s' = g_net_ready s ∧ (refuses s' → refuses s))) s.
Proof.
  intros HH. unfold new_object. net_step. eapply wp_mono; [apply allocates_wp|]. cbn beta. intros b s1 (E1 & E2 & E3 & E4 & Hf & Hr). destruct b; cbn [negb].
  - net_step. net_step. net_step. net_step. net_step. right. cbn. rewrite E1, E2, E3, E4. by split_and!.
  - net_step. left. by repeat split; auto.
Qed.

(** What an allocation at [r] leaves alone. *)
Record allocated (r : Z) s s' : Prop := {
  al_links : ∀ a, a ≠ r → a ≠ r + 1 → lk s' !! a = lk s !! a;
  al_objs : ∀ a, a ≠ r → objs s' !! a = objs s !! a;
  al_ready : g_net_ready s' = g_net_ready s;
  al_heap : heap_ok s';
  al_refuses : refuses s' → refuses s
}.

Lemma even_step n : Z.Even n → Z.Even (n + 2).
Proof. intros [k ->]. exists (k + 1). lia. Qed.

Lemma fresh_links s a : heap_ok s → next s ≤ a → lk s !! a = None.
Proof. intros HH Ha. apply eq_None_not_Some. intros H. pose proof (h_links _ HH a H). lia. Qed.

Lemma packet_alloc_wp s len :
  heap_ok s → 0 < len →
  wp (net_packet_alloc len) (λ r s', allocated (next s) s s' ∧
    ((r = 0 ∧ refuses s) ∨
     (r = next s ∧ objs s' !! r = Some (Packet (mk_packet len len (Some (replicate (Z.to_nat len) 0)))) ∧ is_Some (lk s' !! r) ∧ next s' = next s + 2))) s.
Proof.
  intros HH Hlen. pose proof (h_next _ HH) as [Hev Hge]. unfold net_packet_alloc. net_step. eapply wp_mono; [by apply net_object_wp|]. cbn beta.
  assert (∀ a, is_Some (lk s !! a) → a ≠ next s ∧ a ≠ next s + 1) as Hnew by (intros a Ha; pose proof (h_links _ HH a Ha); lia).
  intros r s1 [(-> & Hr & E1 & E2 & E3 & E4 & Hr')|(-> & E1 & E2 & E3 & E4 & Hr')].
  { rewrite Z.eqb_refl. net_step. split; [|by left]. split; try done; [intros; by rewrite E1|intros; by rewrite E2|]. split; [by rewrite E3| |]; intros a; rewrite ?E1, ?E2, E3; apply HH. }
  rewrite (proj2 (Z.eqb_neq (next s) 0)) by lia. rewrite (proj2 (Z.ltb_lt 0 len)) by done. net_step. net_step.
  eapply wp_mono; [apply allocates_wp|]. cbn beta. intros ok s2 (F1 & F2 & F3 & F4 & Hok & Hr2). net_step.
  assert (∀ a, is_Some (lk s1 !! a) → 0 < a < next s + 2) as Hb.
  { intros a. rewrite E1. intros [l Hl]. apply lookup_insert_Some in Hl as [[<- _]|[_ Hl]]; [lia|].
    apply lookup_insert_Some in Hl as [[<- _]|[_ Hl]]; [lia|]. pose proof (h_links _ HH a ltac:(by eexists)). lia. }
  assert (∀ a o, is_Some (<[next s := o]> (objs s1) !! a) → a < next s + 2) as Hbo.
  { intros a o. rewrite E2, insert_insert_eq. intros [x Hx]. apply lookup_insert_Some in Hx as [[<- _]|[_ Hx]]; [lia|].
    pose proof (h_objs _ HH a ltac:(by eexists)). lia. }
  destruct ok; cbn [andb bool_decide].
  - rewrite bool_decide_false by done. net_step. net_step. net_step.
    net_step. cbn [lk set_objs]. eapply wp_mono; [apply ring_init_wp; rewrite F1, E1, lookup_insert_eq; by eexists|]. cbn beta.
    intros _ lk1 [_ Ho1]. net_step. split.
    + split.
      * intros a Ha Ha'. cbn. rewrite (only_out _ _ _ Ho1) by (by rewrite list_elem_of_singleton). by rewrite F1, E1, !lookup_insert_ne.
      * intros a Ha. cbn. by rewrite lookup_insert_ne, F2, E2, lookup_insert_ne.
      * cbn. congruence.
      * split; cbn; rewrite F3, E3; [split; [by apply even_step|lia]| |intros a; rewrite F2; intros Ha; eapply Hbo; exact Ha]. intros a Ha. apply Hb. destruct (decide (a = next s)) as [->|].
        { rewrite E1, lookup_insert_eq. by eexists. }
        rewrite (only_out _ _ _ Ho1) in Ha by (by rewrite list_elem_of_singleton). by rewrite <- F1.
      * cbn. auto.
    + right. cbn. rewrite lookup_insert_eq, F3, E3. split_and!; [done|done| |done].
      apply (only_live _ _ _ Ho1). rewrite F1, E1, lookup_insert_eq. by eexists.
  - rewrite bool_decide_true by done. net_step. net_step. net_step. split; [|left; split; [done|auto]]. split.
    + intros a Ha Ha'. cbn. by rewrite !lookup_delete_ne, F1, E1, !lookup_insert_ne.
    + intros a Ha. cbn. by rewrite lookup_delete_ne, F2, E2, lookup_insert_ne.
    + cbn. congruence.
    + split; cbn; rewrite F3, E3; [split; [by apply even_step|lia]| |].
      2:{ intros a [x Hx]. apply lookup_delete_Some in Hx as [Hne Hx]. apply (Hbo a (Packet (mk_packet 0 0 None))). rewrite lookup_insert_ne, <- F2 by done. by eexists. }
      intros a [l Hl]. apply lookup_delete_Some in Hl as [_ Hl]. apply lookup_delete_Some in Hl as [_ Hl].
      apply Hb. rewrite <- F1. by eexists.
    + auto.
Qed.

Definition loopback : net_device := mk_device (cstr "lo") (replicate 6 0) NET_MTU_DEFAULT 0 0 LOOPBACK_XMIT LOOPBACK_POLL.

(** A packet with the contents [data] in the object store. *)
Definition holds (O : gmap Z object) (a : Z) (data : list Z) : Prop :=
  ∃ cap, O !! a = Some (Packet (mk_packet (Z.of_nat (length data)) cap (Some data))).

(** The device [lo] is registered, the packets [ps] with the contents [q] wait
    in its queue, and the socket [sock] has no device of its own. *)
Record lo_rep s (lo sock : Z) (ps : list Z) (q : list (list Z)) : Prop := {
  lo_heap : heap_ok s;
  lo_even : Z.Even lo ∧ lo ≠ 0 ∧ sock ≠ 0;
  lo_device : objs s !! lo = Some (Device loopback);
  lo_sock : ∃ fd type port, objs s !! sock = Some (Socket (mk_socket fd type port 0));
  lo_devices : ring (lk s) g_net_devices [link_of lo];
  lo_queue : ring (lk s) (queue_of lo) ps;
  lo_packets : Forall2 (holds (objs s)) ps q;
  lo_parity : Forall Z.Even ps
}.

Lemma even_ne_odd a b : Z.Even a → Z.Even b → a ≠ b + 1.
Proof. intros [x ->] [y ->]. lia. Qed.

Lemma lo_find_wp s lo sock ps q :
  lo_rep s lo sock ps q → wp (net_find_device (Some (cstr "lo"))) (λ r s', r = lo ∧ s' = s) s.
Proof.
  intros [HH (He & H0 & _) Hd _ Hring _ _ _]. unfold net_find_device. net_step.
  apply (list_each_wp lk l_next g_net_devices [link_of lo] _
    (λ us s', us = [] ∧ s' = s) (λ r s', wp (mret (default 0 r)) _ s')).
  - by apply (ring_head_not_in _ _ _ Hring).
  - intros us s' [-> ->]. by apply ring_leads_next.
  - intros us x ys s' Hsv [-> ->]. cbn in Hsv. injection Hsv as <- <-. net_step.
    eapply get_device_wp; [by replace (device_at (link_of lo)) with lo by (unfold device_at, link_of; lia)|].
    change (streq (d_name loopback) (cstr "lo")) with true. cbn iota. net_step. net_step. cbn. split; [unfold device_at, link_of; lia|done].
  - by intros s' [? _].
  - done.
  - by eapply ring_size.
Qed.

Lemma Forall2_impl_in {A B} (P Q : A → B → Prop) l k :
  Forall2 P l k → (∀ x y, x ∈ l → P x y → Q x y) → Forall2 Q l k.
Proof.
  induction 1 as [|x y l k H _ IH]; intros Hi; [done|]. constructor; [apply Hi; [left|done]|]. apply IH. intros x' y' Hx. apply Hi. by right.
Qed.

(** Adding a packet. *)
Lemma rx_push_wp s lo sock ps q data len :
  lo_rep s lo sock ps q → 0 < len ≤ Z.of_nat (length data) →
  wp (net_rx_push lo (Some data) len) (λ r s', (refuses s' → refuses s) ∧
    ((r = NET_ENOMEM ∧ refuses s ∧ lo_rep s' lo sock ps q) ∨
     (r = NET_OK ∧ ∃ p, lo_rep s' lo sock (ps ++ [p]) (q ++ [take (Z.to_nat len) data])))) s.
Proof.
  intros HR Hlen. pose proof HR as [HH (He & Hl0 & Hs0) Hdev (fd & ty & pt & Hsock) Hdevs Hring Hps Hpar]. unfold net_rx_push.
  rewrite (proj2 (Z.eqb_neq lo 0)), (proj2 (Z.eqb_neq len 0)) by lia. cbn [orb]. net_step.
  eapply wp_mono; [apply packet_alloc_wp; [done|lia]|]. cbn beta. intros r s1 [[A1 A2 A3 A4 A5] Hr].
  assert (∀ a, is_Some (lk s !! a) → a ≠ next s ∧ a ≠ next s + 1) as Hnew by (intros a Ha; pose proof (h_links _ HH a Ha); lia).
  assert (∀ h xs, ring (lk s) h xs → ring (lk s1) h xs) as Hrings.
  { intros h xs Hx. eapply ring_frame; [exact Hx|]. intros a Ha. pose proof (Hnew a (ring_live _ _ _ _ Hx Ha)). apply A1; tauto. }
  assert (∀ a o, objs s !! a = Some o → objs s1 !! a = Some o) as Hobjs.
  { intros a o Ha. rewrite A2; [done|]. pose proof (h_objs _ HH a ltac:(by eexists)). lia. }
  assert (lo_rep s1 lo sock ps q) as HR1.
  { split; try done; [by apply Hobjs|exists fd, ty, pt; by apply Hobjs|by apply Hrings|by apply Hrings|].
    eapply Forall2_impl; [exact Hps|]. intros a d [cap Ha]. exists cap. by apply Hobjs. }
  destruct Hr as [[-> Href]|(-> & Hpk & Hl & Hnx)].
  { rewrite Z.eqb_refl. net_step. split; [done|]. by left. }
  pose proof (h_next _ HH) as [Hev Hge]. rewrite (proj2 (Z.eqb_neq (next s) 0)) by lia.
  net_step. eapply get_packet_wp; [exact Hpk|]. rewrite (proj2 (Z.ltb_ge _ _)) by lia. net_step. net_step. net_step. net_step. cbn [lk set_objs].
  assert (next s ∉ queue_of lo :: ps) as Hout.
  { intros Hin. pose proof (ring_live _ _ _ _ Hring Hin) as Hx. apply Hnew in Hx. tauto. }
  eapply wp_mono; [apply ring_before; [apply HR1|exact Hout|exact Hl]|]. cbn beta. intros _ lk2 [Hr2 Ho2]. net_step.
  split; [exact A5|right]. split; [done|]. exists (next s). pose proof HR1 as [HH1 _ Hdev1 _ Hdevs1 _ Hps1 _].
  assert (∀ a, a ∈ next s :: queue_of lo :: ps → Z.Even a) as Heven.
  { intros a [->|[->|Ha]%elem_of_cons]%elem_of_cons; [done|done|]. rewrite Forall_forall in Hpar. by apply Hpar. }
  assert (lo ≠ next s ∧ sock ≠ next s) as [Hln Hsn].
  { split; intros E; [pose proof (h_objs _ HH lo ltac:(by eexists))|pose proof (h_objs _ HH sock ltac:(by eexists))]; lia. }
  split; cbn [lk objs set_lk set_objs next].
  - destruct A4 as [B1 B2 B3]. split; cbn [lk objs set_lk set_objs next]; [done| |].
    + intros a Ha. apply B2. destruct (decide (a ∈ next s :: queue_of lo :: ps)) as [Hin|Hin].
      * apply elem_of_cons in Hin as [->|Hin]; [exact Hl|]. apply (ring_live _ _ _ _ (lo_queue _ _ _ _ _ HR1) Hin).
      * by rewrite <- (only_out _ _ _ Ho2).
    + intros a [x Hx]. apply lookup_insert_Some in Hx as [[<- _]|[_ Hx]]; [lia|]. apply B3. by eexists.
  - done.
  - by rewrite lookup_insert_ne.
  - exists fd, ty, pt. rewrite lookup_insert_ne by done. by apply Hobjs.
  - eapply ring_frame; [exact Hdevs1|]. intros a Ha. apply (only_out _ _ _ Ho2). intros Hin%Heven.
    apply elem_of_cons in Ha as [->| ->%list_elem_of_singleton]; destruct Hin as [k Hk]; [unfold g_net_devices in Hk; lia|].
    destruct He as [k' Hk']. unfold link_of in Hk. lia.
  - exact Hr2.
  - apply Forall2_app.
    + eapply Forall2_impl_in; [exact Hps1|]. intros a d Ha [cap Hc]. exists cap. rewrite lookup_insert_ne; [done|]. intros <-. apply Hout. by right.
    + apply Forall2_cons. split; [|done]. eexists. rewrite lookup_insert_eq. do 3 f_equal.
      * rewrite length_take. lia.
      * cbn. f_equal. apply splice_full. rewrite length_take, length_replicate. lia.
  - apply Forall_app. split; [done|]. by apply Forall_singleton.
Qed.

(** Taking a packet. *)
Lemma pop_wp s lo sock p ps data q len :
  lo_rep s lo sock (p :: ps) (data :: q) → 0 < len →
  wp (net_rx_pop lo true len) (λ r s', r = (NET_OK, Some (take (Z.to_nat len) data)) ∧
    lo_rep s' lo sock ps q ∧ (refuses s' → refuses s)) s.
Proof.
  intros HR Hlen. pose proof HR as [HH (He & Hl0 & Hs0) Hdev (fd & ty & pt & Hsock) Hdevs Hring Hps Hpar]. unfold net_rx_pop.
  rewrite (proj2 (Z.eqb_neq lo 0)), (proj2 (Z.eqb_neq len 0)) by lia. cbn [orb negb]. net_step.
  eapply wp_eq; [unfold on_links, czoom; by rewrite (ring_empty_run _ _ _ Hring)|]. rewrite net_same_lk. rewrite bool_decide_false by done.
  assert (is_Some (lk s !! p)) as Hplive by (apply (ring_live _ _ _ _ Hring); right; left).
  destruct (ring_head_link _ _ _ Hring) as (l & Hl & Hn). cbn [hd] in Hn. net_step. net_step. eapply get_link_wp; [exact Hl|].
  rewrite net_same_lk, Hn. cbn zeta. net_step. net_step.
  eapply wp_mono; [by apply (ring_remove_at _ lo [] p ps)|]. cbn beta. intros _ lk1 (Hr1 & _ & Ho1).
  apply Forall2_cons in Hps as [[cap Hp] Hps]. apply Forall_cons in Hpar as [Hpe Hpar].
  net_step. eapply get_packet_wp; [exact Hp|]. cbn [pk_len pk_data].
  set (n := if len <? Z.of_nat (length data) then len else Z.of_nat (length data)).
  assert (0 ≤ n ≤ Z.of_nat (length data) ∧ take (Z.to_nat n) data = take (Z.to_nat len) data) as [Hn' Htake].
  { unfold n. destruct (Z.ltb_spec len (Z.of_nat (length data))); [split; [lia|done]|]. split; [lia|]. rewrite !take_ge by lia. done. }
  rewrite (proj2 (Z.ltb_ge _ n)) by lia. net_step. net_step. net_step. unfold net_packet_free.
  assert (p ≠ 0) as Hp0 by (pose proof (h_links _ HH p Hplive); lia).
  rewrite (proj2 (Z.eqb_neq p 0)) by done. net_step. eapply get_packet_wp; [exact Hp|]. net_step. net_step.
  split; [by rewrite Htake|]. split; [|done].
  assert (p ∉ lo :: ps) as Hout by (destruct Hring as [Hnd _]; apply NoDup_cons in Hnd as [H1 Hnd]; apply NoDup_cons in Hnd as [H2 _]; set_solver).
  assert (∀ a, Z.Even a → a ≠ p + 1) as Hodd by (intros a Ha; by apply even_ne_odd).
  assert (∀ a, Z.Even a → a ≠ p → delete p (delete (p + 1) lk1) !! a = lk1 !! a) as Hkeep.
  { intros a Ha Hne. rewrite !lookup_delete_ne; [done| |done]. intros E. by apply (Hodd a). }
  split; cbn [lk objs set_lk set_objs next].
  - destruct HH as [B1 B2 B3]. split; cbn [lk objs set_lk set_objs next]; [done| |].
    + intros a [x Hx]. apply lookup_delete_Some in Hx as [_ Hx]. apply lookup_delete_Some in Hx as [_ Hx]. apply B2.
      destruct (decide (a ∈ lo :: p :: ps)) as [Hin|Hin]; [by apply (ring_live _ _ _ _ Hring)|]. rewrite <- (only_out _ _ _ Ho1 a Hin). by eexists.
    + intros a [x Hx]. apply lookup_delete_Some in Hx as [_ Hx]. apply B3. by eexists.
  - done.
  - rewrite lookup_delete_ne; [done|]. intros ->. congruence.
  - exists fd, ty, pt. rewrite lookup_delete_ne; [done|]. intros ->. congruence.
  - eapply ring_frame; [exact Hdevs|]. intros a Ha.
    assert (a = lo + 1 ∨ a = 1) as Hae by (apply elem_of_cons in Ha as [->|Ha%list_elem_of_singleton]; [by right|by left]).
    assert (∀ k, Z.Even k → a ≠ k) as Hae'.
    { intros k [x ->] E. destruct He as [y ->]. lia. }
    assert (a ≠ p + 1).
    { intros E. destruct Hae as [Hae|Hae]; [|pose proof (h_links _ HH p Hplive); lia].
      apply Hout. rewrite elem_of_cons. left. lia. }
    rewrite !lookup_delete_ne by (intros E; first [by apply (Hae' p)|done]). apply (only_out _ _ _ Ho1). cbn [app].
    rewrite !elem_of_cons. intros [E|[E|E]]; [by apply (Hae' lo)|by apply (Hae' p)|]. rewrite Forall_forall in Hpar. by apply (Hae' a (Hpar a E)).
  - eapply ring_frame; [exact Hr1|]. intros a Ha. apply Hkeep; [|intros ->; by apply Hout].
    apply elem_of_cons in Ha as [->|Ha]; [done|]. rewrite Forall_forall in Hpar. by apply Hpar.
  - eapply Forall2_impl_in; [exact Hps|]. intros a d Ha [cap' Hc]. exists cap'. rewrite lookup_delete_ne; [done|]. intros ->. apply Hout. by right.
  - done.
Qed.

(** ** The interface as a queue *)

Inductive op := SendTo (data : list Z) (len : Z) | Poll (len : Z).
Definition run (lo sock : Z) (o : op) : cmd net (Z * option (list Z)) :=
  match o with
  | SendTo data len => r ← net_socket_sendto sock (Some data) len; mret (r, None)
  | Poll len => net_device_poll lo true len
  end.
(** The lengths are not negative and the caller's data are there. *)
Definition allowed (o : op) : Prop :=
  match o with SendTo data len => 0 ≤ len ≤ Z.of_nat (length data) | Poll len => 0 ≤ len end.

(** The answers of a queue of messages; memory may run out. *)
Inductive answers (refused : Prop) : list (list Z) → op → Z * option (list Z) → list (list Z) → Prop :=
  | ans_empty q data : answers refused q (SendTo data 0) (NET_EINVAL, None) q
  | ans_big q data len : NET_MTU_DEFAULT < len → answers refused q (SendTo data len) (NET_E2BIG, None) q
  | ans_sent q data len : 0 < len ≤ NET_MTU_DEFAULT →
      answers refused q (SendTo data len) (NET_OK, None) (q ++ [take (Z.to_nat len) data])
  | ans_nomem q data len : 0 < len ≤ NET_MTU_DEFAULT → refused → answers refused q (SendTo data len) (NET_ENOMEM, None) q
  | ans_none q : answers refused q (Poll 0) (NET_EINVAL, None) q
  | ans_again len : 0 < len → answers refused [] (Poll len) (NET_EAGAIN, None) []
  | ans_got data q len : 0 < len → answers refused (data :: q) (Poll len) (NET_OK, Some (take (Z.to_nat len) data)) q.

Definition loops s (lo sock : Z) (q : list (list Z)) : Prop := ∃ ps, lo_rep s lo sock ps q.

Lemma op_wp s lo sock q o :
  loops s lo sock q → allowed o →
  wp (run lo sock o) (λ r s', (refuses s' → refuses s) ∧ ∃ q', answers (refuses s) q o r q' ∧ loops s' lo sock q') s.
Proof.
  intros [ps HR] Hal. pose proof HR as [HH (He & Hl0 & Hs0) Hdev (fd & ty & pt & Hsock) _ Hring Hps _]. destruct o as [data len|len]; cbn [run allowed] in *.
  - unfold net_socket_sendto. rewrite (proj2 (Z.eqb_neq sock 0)) by done. rewrite bool_decide_false by done. cbn [orb].
    destruct (Z.eqb_spec len 0) as [->|Hlen]; [net_step; net_step; net_step; split; [done|]; exists q; split; [constructor|by exists ps]|].
    net_step. net_step. eapply get_socket_wp; [exact Hsock|]. cbn [so_device]. change (0 =? 0) with true. cbn [negb]. net_step.
    eapply wp_mono; [by eapply lo_find_wp|]. cbn beta. intros r s' [-> ->]. rewrite (proj2 (Z.eqb_neq lo 0)) by done.
    unfold net_send. rewrite (proj2 (Z.eqb_neq lo 0)), (proj2 (Z.eqb_neq len 0)) by done. cbn [orb]. net_step. eapply get_device_wp; [exact Hdev|].
    change (d_xmit loopback =? 0) with false. change (d_mtu loopback) with NET_MTU_DEFAULT. change (d_xmit loopback =? LOOPBACK_XMIT) with true. cbn iota.
    destruct (Z.ltb_spec NET_MTU_DEFAULT len) as [Hbig|Hfit].
    + net_step. net_step. split; [done|]. exists q. split; [by constructor|by exists ps].
    + eapply wp_mono; [apply (rx_push_wp s lo sock ps q); [done|lia]|]. cbn beta. intros r s' (Hr & [(-> & Href & HR')|(-> & p & HR')]); net_step; (split; [exact Hr|]).
      * exists q. split; [apply ans_nomem; [lia|done]|by exists ps].
      * eexists. split; [apply ans_sent; lia|by exists (ps ++ [p])].
  - unfold net_device_poll. rewrite (proj2 (Z.eqb_neq lo 0)) by done. net_step. eapply get_device_wp; [exact Hdev|].
    change (d_poll_rx loopback =? 0) with false. change (d_poll_rx loopback =? LOOPBACK_POLL) with true. cbn iota. unfold loopback_poll.
    destruct (Z.eqb_spec len 0) as [->|Hlen].
    { unfold net_rx_pop. rewrite (proj2 (Z.eqb_neq lo 0)) by done. cbn [orb negb]. rewrite Z.eqb_refl. net_step. split; [done|]. exists q. split; [constructor|by exists ps]. }
    destruct ps as [|p ps].
    { apply Forall2_nil_inv_l in Hps as ->. unfold net_rx_pop. rewrite (proj2 (Z.eqb_neq lo 0)), (proj2 (Z.eqb_neq len 0)) by done. cbn [orb negb]. net_step.
      eapply wp_eq; [unfold on_links, czoom; by rewrite (ring_empty_run _ _ _ Hring)|]. rewrite net_same_lk, bool_decide_true by done. net_step.
      split; [done|]. exists []. split; [constructor; lia|by exists []]. }
    destruct (Forall2_cons_inv_l _ _ _ _ Hps) as (data & q' & _ & _ & ->).
    eapply wp_mono; [apply (pop_wp s lo sock p ps data q' len HR); lia|]. cbn beta. intros r s' (-> & HR' & Hr). split; [done|].
    exists q'. split; [constructor; lia|by exists ps].
Qed.

(** The start of the kernel: no device, no object, memory for all that follows. *)
Definition net_off (cache : arp_cache) : net :=
  mk_net {[g_net_devices := mk_link 0 0; g_net_sockets := mk_link 0 0]} ∅ cache false 1 4 [].
Definition net_boot : cmd net Z := net_init;; net_loopback_init;; net_socket_create NET_SOCK_DGRAM.

Definition booted (cache : arp_cache) : net :=
  mk_net {[1 := mk_link 5 5; 2 := mk_link 7 7; 5 := mk_link 1 1; 4 := mk_link 4 4; 7 := mk_link 2 2; 6 := mk_link 6 6]}
    {[4 := Device loopback; 6 := Socket (mk_socket 1 NET_SOCK_DGRAM 0 0)]} ((λ e, mk_arp (arp_ip e) (arp_mac e) false) <$> cache) true 2 8 [].

Lemma boot_run cache : net_boot (net_off cache) = Some (6, booted cache).
Proof. vm_compute. reflexivity. Qed.

Lemma booted_loops cache : loops (booted cache) 4 6 [].
Proof.
  exists []. split.
  - split; [split; [by exists 4|done]| |].
    + intros a Ha%elem_of_dom. cbn [booted lk next] in *. revert Ha. rewrite !dom_insert, dom_singleton. set_unfold. lia.
    + intros a Ha%elem_of_dom. cbn [booted objs next] in *. revert Ha. rewrite dom_insert, dom_singleton. set_unfold. lia.
  - split; [by exists 2|done].
  - done.
  - by exists 1, NET_SOCK_DGRAM, 0.
  - split; [by_eval|]. repeat (apply Forall_cons; split; [by split|]). apply Forall_nil_2.
  - split; [by_eval|]. repeat (apply Forall_cons; split; [by split|]). apply Forall_nil_2.
  - done.
  - done.
Qed.

(** After the start, sending through a socket and polling the loopback
    device behave as a queue of messages, whatever calls are made: a message is
    stored whole behind those that wait, or refused for its length or for lack
    of memory without any effect, and polling gives the oldest one, cut to the
    buffer. *)
Theorem net_loopback_refines cache :
  (∃ lo sock s, net_boot (net_off cache) = Some (sock, s) ∧ loops s lo sock []) ∧
  (∀ s lo sock q o, loops s lo sock q → allowed o →
     wp (run lo sock o) (λ r s', (refuses s' → refuses s) ∧ ∃ q', answers (refuses s) q o r q' ∧ loops s' lo sock q') s).
Proof.
  split; [exists 4, 6, (booted cache); split; [apply boot_run|apply booted_loops]|].
  intros s lo sock q o HL Hal. by apply op_wp.
Qed.
End net.

Definition no_xmit (f dev : Z) (data : list Z) : cmd net Z := mret NET_ENOENT.
Definition no_poll (f dev len : Z) : cmd net (Z * option (list Z)) := mret (NET_ENOENT, None).
Lemma net_loopback_refines_witness :
  wp (run no_xmit no_poll 4 6 (SendTo [1; 2; 3] 2)) (λ r s', ∃ q',
    answers (refuses (booted [])) [] (SendTo [1; 2; 3] 2) r q' ∧ loops s' 4 6 q') (booted []).
Proof.
  destruct (net_loopback_refines no_xmit no_poll []) as [_ H].
  eapply wp_mono; [apply (H (booted []) 4 6 [] (SendTo [1; 2; 3] 2) (booted_loops no_xmit no_poll [])); by_eval|]. cbn beta. by intros r s' [_ Hq].
Defined.
End Net.
