(* ===== verification/Input.v ===== *)
(** * Keyboard, serial input and the line editor

    [src/kernel/drivers/input/keyboard.c], [keymap.c], [line.c] and [input.c],
    and the input side of [serial.c].  What is written to the terminal is the
    list of calls made; the signals go to the thread that runs. *)

From S2P Require Import Prelude Links Signal.
Import Signal.

Module Input.

(** ** Key codes, [keycodes.h] *)

Inductive keycode :=
  | KEY_NONE | KEY_ESC
  | KEY_1 | KEY_2 | KEY_3 | KEY_4 | KEY_5 | KEY_6 | KEY_7 | KEY_8 | KEY_9 | KEY_0
  | KEY_Q | KEY_W | KEY_E | KEY_R | KEY_T | KEY_Y | KEY_U | KEY_I | KEY_O | KEY_P
  | KEY_A | KEY_S | KEY_D | KEY_F | KEY_G | KEY_H | KEY_J | KEY_K | KEY_L
  | KEY_Z | KEY_X | KEY_C | KEY_V | KEY_B | KEY_N | KEY_M
  | KEY_MINUS | KEY_EQUALS | KEY_LEFT_BRACKET | KEY_RIGHT_BRACKET | KEY_BACKSLASH | KEY_SEMICOLON | KEY_APOSTROPHE
  | KEY_GRAVE | KEY_COMMA | KEY_PERIOD | KEY_SLASH
  | KEY_ENTER | KEY_BACKSPACE | KEY_TAB | KEY_SPACE
  | KEY_LSHIFT | KEY_RSHIFT | KEY_LCTRL | KEY_RCTRL | KEY_LALT | KEY_RALT | KEY_CAPSLOCK
  | KEY_F1 | KEY_F2 | KEY_F3 | KEY_F4 | KEY_F5 | KEY_F6 | KEY_F7 | KEY_F8 | KEY_F9 | KEY_F10 | KEY_F11 | KEY_F12
  | KEY_UP | KEY_DOWN | KEY_LEFT | KEY_RIGHT | KEY_HOME | KEY_END | KEY_DELETE | KEY_PAGE_UP | KEY_PAGE_DOWN.
#[global] Instance keycode_eq_dec : EqDecision keycode.
Proof. solve_decision. Defined.

Inductive key_event_type := KEY_EVENT_PRESS | KEY_EVENT_RELEASE.
#[global] Instance key_event_type_eq_dec : EqDecision key_event_type.
Proof. solve_decision. Defined.
Record key_event := mk_event { ev_type : key_event_type; ev_keycode : keycode; ev_ascii : Z }.

(** ** [keymap.c] *)

(** The table [letters]; 0 where it has no entry. *)
Definition letters (key : keycode) : Z :=
  match key with
  | KEY_A => 97 | KEY_B => 98 | KEY_C => 99 | KEY_D => 100 | KEY_E => 101 | KEY_F => 102 | KEY_G => 103 | KEY_H => 104
  | KEY_I => 105 | KEY_J => 106 | KEY_K => 107 | KEY_L => 108 | KEY_M => 109 | KEY_N => 110 | KEY_O => 111 | KEY_P => 112
  | KEY_Q => 113 | KEY_R => 114 | KEY_S => 115 | KEY_T => 116 | KEY_U => 117 | KEY_V => 118 | KEY_W => 119 | KEY_X => 120
  | KEY_Y => 121 | KEY_Z => 122 | _ => 0
  end.

(** The place in [digits] and [shifted_digits]. *)
Definition digit_index (key : keycode) : option nat :=
  match key with
  | KEY_1 => Some 0 | KEY_2 => Some 1 | KEY_3 => Some 2 | KEY_4 => Some 3 | KEY_5 => Some 4
  | KEY_6 => Some 5 | KEY_7 => Some 6 | KEY_8 => Some 7 | KEY_9 => Some 8 | KEY_0 => Some 9 | _ => None
  end%nat.
Definition digits : list Z := cstr "1234567890".
Definition shifted_digits : list Z := cstr "!@#$%^&*()".

Definition keymap_translate_ascii (key : keycode) (shift caps_lock : bool) : Z :=
  let uppercase := xorb shift caps_lock in
  if bool_decide (key = KEY_NONE) then 0 else
  let letter := letters key in
  if negb (letter =? 0) then u8 (if uppercase then letter - 97 + 65 else letter) else
  match digit_index key with
  | Some index => default 0 ((if shift then shifted_digits else digits) !! index)
  | None =>
      match key with
      | KEY_MINUS => if shift then 95 else 45
      | KEY_EQUALS => if shift then 43 else 61
      | KEY_LEFT_BRACKET => if shift then 123 else 91
      | KEY_RIGHT_BRACKET => if shift then 125 else 93
      | KEY_BACKSLASH => if shift then 124 else 92
      | KEY_SEMICOLON => if shift then 58 else 59
      | KEY_APOSTROPHE => if shift then 34 else 39
      | KEY_GRAVE => if shift then 126 else 96
      | KEY_COMMA => if shift then 60 else 44
      | KEY_PERIOD => if shift then 62 else 46
      | KEY_SLASH => if shift then 63 else 47
      | KEY_SPACE => 32
      | KEY_ENTER => 10
      | KEY_BACKSPACE => 8
      | KEY_TAB => 9
      | _ => 0
      end
  end.

(** ** [keyboard.c] *)

Definition translate_scancode (code : Z) (extended : bool) : keycode :=
  if extended then
    match code with
    | 0x1C => KEY_ENTER | 0x1D => KEY_RCTRL | 0x38 => KEY_RALT | 0x47 => KEY_HOME | 0x48 => KEY_UP | 0x49 => KEY_PAGE_UP
    | 0x4B => KEY_LEFT | 0x4D => KEY_RIGHT | 0x4F => KEY_END | 0x50 => KEY_DOWN | 0x51 => KEY_PAGE_DOWN | 0x53 => KEY_DELETE
    | _ => KEY_NONE
    end
  else
    match code with
    | 0x01 => KEY_ESC | 0x02 => KEY_1 | 0x03 => KEY_2 | 0x04 => KEY_3 | 0x05 => KEY_4 | 0x06 => KEY_5 | 0x07 => KEY_6
    | 0x08 => KEY_7 | 0x09 => KEY_8 | 0x0A => KEY_9 | 0x0B => KEY_0 | 0x0C => KEY_MINUS | 0x0D => KEY_EQUALS
    | 0x0E => KEY_BACKSPACE | 0x0F => KEY_TAB | 0x10 => KEY_Q | 0x11 => KEY_W | 0x12 => KEY_E | 0x13 => KEY_R | 0x14 => KEY_T
    | 0x15 => KEY_Y | 0x16 => KEY_U | 0x17 => KEY_I | 0x18 => KEY_O | 0x19 => KEY_P | 0x1A => KEY_LEFT_BRACKET
    | 0x1B => KEY_RIGHT_BRACKET | 0x1C => KEY_ENTER | 0x1D => KEY_LCTRL | 0x1E => KEY_A | 0x1F => KEY_S | 0x20 => KEY_D
    | 0x21 => KEY_F | 0x22 => KEY_G | 0x23 => KEY_H | 0x24 => KEY_J | 0x25 => KEY_K | 0x26 => KEY_L | 0x27 => KEY_SEMICOLON
    | 0x28 => KEY_APOSTROPHE | 0x29 => KEY_GRAVE | 0x2A => KEY_LSHIFT | 0x2B => KEY_BACKSLASH | 0x2C => KEY_Z | 0x2D => KEY_X
    | 0x2E => KEY_C | 0x2F => KEY_V | 0x30 => KEY_B | 0x31 => KEY_N | 0x32 => KEY_M | 0x33 => KEY_COMMA | 0x34 => KEY_PERIOD
    | 0x35 => KEY_SLASH | 0x36 => KEY_RSHIFT | 0x38 => KEY_LALT | 0x39 => KEY_SPACE | 0x3A => KEY_CAPSLOCK
    | _ => KEY_NONE
    end.

Record keyboard := mk_keyboard { left_shift : bool; right_shift : bool; caps_lock : bool; extended_scancode : bool }.
Definition keyboard_reset : keyboard := mk_keyboard false false false false.

Definition ignored_key (key : keycode) : bool :=
  bool_decide (key ∈ [KEY_NONE; KEY_ESC; KEY_LCTRL; KEY_RCTRL; KEY_LALT; KEY_RALT]).

(** The state after the scan code and the event given to the line editor. *)
Definition keyboard_scancode (scancode : Z) (k : keyboard) : keyboard * option key_event :=
  if scancode =? 0xE0 then (mk_keyboard (left_shift k) (right_shift k) (caps_lock k) true, None) else
  if scancode =? 0xE1 then (mk_keyboard (left_shift k) (right_shift k) (caps_lock k) false, None) else
  let released := negb (Z.land scancode 0x80 =? 0) in
  let key := translate_scancode (Z.land scancode 0x7F) (extended_scancode k) in
  let k := mk_keyboard (left_shift k) (right_shift k) (caps_lock k) false in
  if bool_decide (key = KEY_LSHIFT) then (mk_keyboard (negb released) (right_shift k) (caps_lock k) false, None) else
  if bool_decide (key = KEY_RSHIFT) then (mk_keyboard (left_shift k) (negb released) (caps_lock k) false, None) else
  if bool_decide (key = KEY_CAPSLOCK) then
    (mk_keyboard (left_shift k) (right_shift k) (if negb released then negb (caps_lock k) else caps_lock k) false, None) else
  if ignored_key key then (k, None) else
  (k, Some (mk_event (if released then KEY_EVENT_RELEASE else KEY_EVENT_PRESS) key
    (if released then 0 else keymap_translate_ascii key (left_shift k || right_shift k) (caps_lock k)))).

(** ** [serial.c], the escape sequences *)

Record serial := mk_serial { escape_state : Z; escape_key : Z }.
Definition serial_reset : serial := mk_serial 0 0.

(** [serial_handle_input]: the state and the event given to the line editor;
    [character] is the byte received. *)
Definition serial_input (character : Z) (st : serial) : serial * option key_event :=
  if escape_state st =? 1 then (mk_serial (if character =? 91 then 2 else 0) (escape_key st), None) else
  if escape_state st =? 2 then
    if (character =? 53) || (character =? 54) then (mk_serial 3 character, None) else
    let st := mk_serial 0 (escape_key st) in
    if character =? 65 then (st, Some (mk_event KEY_EVENT_PRESS KEY_UP 0)) else
    if character =? 66 then (st, Some (mk_event KEY_EVENT_PRESS KEY_DOWN 0)) else (st, None)
  else if escape_state st =? 3 then
    let st := mk_serial 0 (escape_key st) in
    if negb (character =? 126) then (st, None) else
    (st, Some (mk_event KEY_EVENT_PRESS (if escape_key st =? 53 then KEY_PAGE_UP else KEY_PAGE_DOWN) 0))
  else if character =? 0x1B then (mk_serial 1 (escape_key st), None)
  else (st, Some (mk_event KEY_EVENT_PRESS KEY_NONE character)).

(** ** [line.c] *)

Definition LINE_BUFFER_SIZE : Z := 256.
Definition LINE_HISTORY_SIZE : Z := 8.
Definition SIGINT : Z := 2.
Definition SIGTSTP : Z := 20.

(** Calls to the terminal and the scheduler. *)
Inductive call := TTY_putc (c : Z) | TTY_scrollback (lines : Z) | Sched_yield.

(** The statics of [line.c], the signals of the running thread if there is one,
    the number of rows of the terminal, and the calls made so far. *)
Record line := mk_line {
  line_buffer : list Z; line_len : Z;
  line_history : list (list Z); line_draft : list Z; line_history_count : Z; line_history_index : Z;
  g_line_ready : bool; g_line_eof : bool;
  current_signals : option sigstate; TTY_ROWS : Z; calls : list call
}.
Implicit Types (s : line).
Definition set_text (b : list Z) (n : Z) s : line :=
  mk_line b n (line_history s) (line_draft s) (line_history_count s) (line_history_index s) (g_line_ready s) (g_line_eof s) (current_signals s) (TTY_ROWS s) (calls s).
Definition set_history (h : list (list Z)) (n : Z) s : line :=
  mk_line (line_buffer s) (line_len s) h (line_draft s) n (line_history_index s) (g_line_ready s) (g_line_eof s) (current_signals s) (TTY_ROWS s) (calls s).
Definition set_draft (d : list Z) s : line :=
  mk_line (line_buffer s) (line_len s) (line_history s) d (line_history_count s) (line_history_index s) (g_line_ready s) (g_line_eof s) (current_signals s) (TTY_ROWS s) (calls s).
Definition set_index (i : Z) s : line :=
  mk_line (line_buffer s) (line_len s) (line_history s) (line_draft s) (line_history_count s) i (g_line_ready s) (g_line_eof s) (current_signals s) (TTY_ROWS s) (calls s).
Definition set_done (ready eof : bool) s : line :=
  mk_line (line_buffer s) (line_len s) (line_history s) (line_draft s) (line_history_count s) (line_history_index s) ready eof (current_signals s) (TTY_ROWS s) (calls s).
Definition set_signals (g : option sigstate) s : line :=
  mk_line (line_buffer s) (line_len s) (line_history s) (line_draft s) (line_history_count s) (line_history_index s) (g_line_ready s) (g_line_eof s) g (TTY_ROWS s) (calls s).
Definition add_call (c : call) s : line :=
  mk_line (line_buffer s) (line_len s) (line_history s) (line_draft s) (line_history_count s) (line_history_index s) (g_line_ready s) (g_line_eof s) (current_signals s) (TTY_ROWS s) (calls s ++ [c]).

Definition emit (c : call) : cmd line unit := cmodify (add_call c).
Fixpoint put_chars (cs : list Z) : cmd line unit :=
  match cs with [] => mret tt | c :: cs => emit (TTY_putc c);; put_chars cs end.

(** [a[i] = v] and [memcpy] of the [n] first bytes, with the bounds of C. *)
Definition store (a : list Z) (i v : Z) : cmd line (list Z) :=
  if (0 <=? i) && (i <? Z.of_nat (length a)) then mret (<[Z.to_nat i := v]> a) else cundef.
Definition copy (dst src : list Z) (n : Z) : cmd line (list Z) :=
  if (n <=? Z.of_nat (length src)) && (n <=? Z.of_nat (length dst)) then mret (splice 0 (take (Z.to_nat n) src) dst) else cundef.
(** The string in an array; undefined without a NUL. *)
Fixpoint string_in (a : list Z) : option cstring :=
  match a with [] => None | c :: a => if c =? 0 then Some [] else t ← string_in a; Some (c :: t) end.

Definition line_reset : cmd line unit :=
  s ← cget;
  b ← store (line_buffer s) 0 0;
  cmodify (set_text b 0);; cmodify (set_index (-1));; cmodify (set_done false false).

(** [for (i = 1; ...) memcpy(line_history[i - 1], line_history[i], ...)] *)
Fixpoint shift_history (n : nat) (i : nat) : cmd line unit :=
  match n with
  | O => mret tt
  | S n =>
      src ← cread (λ s, line_history s !! i);
      dst ← cread (λ s, line_history s !! (i - 1)%nat);
      row ← copy dst src LINE_BUFFER_SIZE;
      cmodify (λ s, set_history (<[(i - 1)%nat := row]> (line_history s)) (line_history_count s) s);;
      shift_history n (S i)
  end.

Definition line_store_history : cmd line unit :=
  s ← cget;
  if line_len s =? 0 then mret tt else
  same ← (if negb (line_history_count s =? 0) then
            last ← cread (λ s, row ← line_history s !! Z.to_nat (line_history_count s - 1); string_in row);
            text ← cread (λ s, string_in (line_buffer s));
            mret (bool_decide (last = text))
          else mret false);
  if (same : bool) then mret tt else
  (if line_history_count s =? LINE_HISTORY_SIZE then
     shift_history (Z.to_nat (LINE_HISTORY_SIZE - 1)) 1;;
     cmodify (λ s, set_history (line_history s) (line_history_count s - 1) s)
   else mret tt);;
  s ← cget;
  dst ← cread (λ s, line_history s !! Z.to_nat (line_history_count s));
  row ← copy dst (line_buffer s) (line_len s + 1);
  cmodify (set_history (<[Z.to_nat (line_history_count s) := row]> (line_history s)) (line_history_count s + 1)).

(** The characters that take back one column. *)
Definition rub_out : list Z := [8; 32; 8].

Definition line_replace (text : list Z) : cmd line unit :=
  s ← cget;
  put_chars (mjoin (replicate (Z.to_nat (line_len s)) rub_out));;
  t ← cread (λ _, string_in text);
  b ← copy (line_buffer s) text (Z.of_nat (length t) + 1);
  cmodify (set_text b (Z.of_nat (length t)));;
  put_chars (take (length t) b).

Definition line_history_move (direction : Z) : cmd line unit :=
  s ← cget;
  if line_history_count s =? 0 then mret tt else
  let index := line_history_index s in
  let replace_from (i : Z) : cmd line unit :=
    cmodify (set_index i);;
    row ← cread (λ s, line_history s !! Z.to_nat i);
    line_replace row in
  if direction <? 0 then
    if index <? 0 then
      d ← copy (line_draft s) (line_buffer s) (line_len s + 1);
      cmodify (set_draft d);;
      replace_from (line_history_count s - 1)
    else if 0 <? index then replace_from (index - 1)
    else mret tt
  else
  if index <? 0 then mret tt else
  if index <? line_history_count s - 1 then replace_from (index + 1)
  else cmodify (set_index (-1));; line_replace (line_draft s).

Definition line_send_signal (sig : Z) : cmd line unit :=
  s ← cget;
  match current_signals s with
  | None => mret tt
  | Some g =>
      match signal_add true sig (Some (mk_info sig 0 0 0 0)) g with
      | Some (_, g') => cmodify (set_signals (Some g'))
      | None => cundef
      end
  end.

(** Lines that one page key scrolls. *)
Definition page (rows : Z) : Z := if 1 <? rows then rows - 1 else 1.

Definition line_handle_keyevent (ev : option key_event) : cmd line Z :=
  match ev with
  | None => mret 0
  | Some ev =>
      if bool_decide (ev_type ev ≠ KEY_EVENT_PRESS) then mret 0 else
      if bool_decide (ev_keycode ev = KEY_F12) then mret 0 else
      s ← cget;
      if g_line_ready s || g_line_eof s then mret 0 else
      if bool_decide (ev_keycode ev = KEY_UP) then line_history_move (-1);; mret 0 else
      if bool_decide (ev_keycode ev = KEY_DOWN) then line_history_move 1;; mret 0 else
      if bool_decide (ev_keycode ev = KEY_PAGE_UP) then emit (TTY_scrollback (- page (TTY_ROWS s)));; mret 0 else
      if bool_decide (ev_keycode ev = KEY_PAGE_DOWN) then emit (TTY_scrollback (page (TTY_ROWS s)));; mret 0 else
      let ch := ev_ascii ev in
      if ch =? 0x03 then
        b ← store (line_buffer s) 0 0;
        cmodify (set_text b 0);; cmodify (set_index (-1));;
        put_chars [94; 67; 10];; line_send_signal SIGINT;; mret 0
      else if ch =? 0x1A then put_chars [94; 90; 10];; line_send_signal SIGTSTP;; mret 0
      else if ch =? 0x04 then
        if line_len s =? 0 then cmodify (set_done (g_line_ready s) true);; emit Sched_yield;; mret 1
        else
          b ← store (line_buffer s) (line_len s) 0;
          cmodify (set_text b (line_len s));;
          line_store_history;;
          cmodify (set_done true (g_line_eof s));;
          put_chars [10];; mret 1
      else if (ch =? 10) || (ch =? 13) then
        b ← store (line_buffer s) (line_len s) 0;
        cmodify (set_text b (line_len s));;
        line_store_history;;
        cmodify (set_index (-1));;
        cmodify (set_done true (g_line_eof s));;
        put_chars [10];; emit Sched_yield;; mret 1
      else if (ch =? 8) || (ch =? 0x7F) then
        if 0 <? line_len s then
          cmodify (set_index (-1));;
          b ← store (line_buffer s) (line_len s - 1) 0;
          cmodify (set_text b (line_len s - 1));;
          put_chars rub_out;; mret 0
        else mret 0
      else if ch <? 32 then mret 0
      else if line_len s <? LINE_BUFFER_SIZE - 1 then
        cmodify (set_index (-1));;
        b ← store (line_buffer s) (line_len s) ch;
        b ← store b (line_len s + 1) 0;
        cmodify (set_text b (line_len s + 1));;
        put_chars [ch];; mret 0
      else mret 0
  end.

Definition line_ready : cmd line bool := s ← cget; mret (g_line_ready s).
Definition line_eof : cmd line bool := s ← cget; mret (g_line_eof s).
Definition line_get_length : cmd line Z := s ← cget; mret (line_len s).
Definition line_consume : cmd line unit := line_reset.

Definition line_handle_ascii (character : Z) : cmd line unit :=
  line_handle_keyevent (Some (mk_event KEY_EVENT_PRESS KEY_NONE character));; mret tt.
(** [input.c] *)
Definition input_handle_ascii (character : Z) : cmd line unit := line_handle_ascii character.

(** Once there is input: the result and the bytes stored in the buffer. *)
Definition line_take (capacity : Z) : cmd line (Z * list Z) :=
  s ← cget;
  if g_line_eof s then line_consume;; mret (0, []) else
  let length := line_len s in
  if capacity <=? length then mret (-1, []) else
  bytes ← copy (replicate (Z.to_nat length) 0) (line_buffer s) length;
  line_consume;;
  mret (length, bytes ++ [0]).

Section reading.
(** What the other threads do while the reader yields. *)
Context (others : cmd line unit).
Fixpoint line_wait (fuel : nat) (wait : bool) : cmd line bool :=
  match fuel with
  | O => cundef
  | S fuel =>
      s ← cget;
      if g_line_ready s || g_line_eof s then mret true else
      if negb wait then mret false else
      emit Sched_yield;; others;; line_wait fuel wait
  end.
Definition line_read (fuel : nat) (buffer : bool) (capacity : Z) (wait : bool) : cmd line (Z * list Z) :=
  if negb buffer || (capacity =? 0) then mret (-1, []) else
  b ← line_wait fuel wait;
  if (b : bool) then line_take capacity else mret (0, []).
Definition line_scan (fuel : nat) (buffer : bool) (capacity : Z) : cmd line (Z * list Z) := line_read fuel buffer capacity true.
End reading.

(** The scan codes and the received bytes, up to the editor. *)
Definition keyboard_handle_scancode (scancode : Z) : cmd (keyboard * line) unit := λ '(k, s),
  let '(k, ev) := keyboard_scancode scancode k in
  match ev with
  | None => Some (tt, (k, s))
  | Some ev => match line_handle_keyevent (Some ev) s with Some (_, s) => Some (tt, (k, s)) | None => None end
  end.
Definition serial_handle_input (character : Z) : cmd (serial * line) unit := λ '(st, s),
  let '(st, ev) := serial_input character st in
  match ev with
  | None => Some (tt, (st, s))
  | Some ev => match line_handle_keyevent (Some ev) s with Some (_, s) => Some (tt, (st, s)) | None => None end
  end.
Definition keyboard_init : cmd (keyboard * line) unit := λ '(_, s),
  match line_reset s with Some (_, s) => Some (tt, (keyboard_reset, s)) | None => None end.


(** ** The abstract editor

    What is typed, up to eight distinct successive lines of history, the place
    in the history with the draft that is put aside while it is browsed, and
    whether a line or the end of the input is waiting for a reader. *)
Record editor := mk_editor {
  ed_text : cstring; ed_history : list cstring; ed_browse : option (nat * cstring); ed_ready : bool; ed_eof : bool
}.
Definition ed_empty : editor := mk_editor [] [] None false false.
Definition ed_remember (t : cstring) (h : list cstring) : list cstring :=
  if bool_decide (t = []) || bool_decide (last h = Some t) then h
  else (if bool_decide (length h = 8%nat) then tail h else h) ++ [t].
Definition ed_show (e : editor) (b : option (nat * cstring)) (t : cstring) : editor :=
  mk_editor t (ed_history e) b (ed_ready e) (ed_eof e).
Definition ed_up (e : editor) : editor :=
  match ed_browse e, ed_history e with
  | _, [] => e
  | None, h => ed_show e (Some (length h - 1, ed_text e)%nat) (default [] (last h))
  | Some (O, _), _ => e
  | Some (S i, d), h => ed_show e (Some (i, d)) (default [] (h !! i))
  end.
Definition ed_down (e : editor) : editor :=
  match ed_browse e with
  | None => e
  | Some (i, d) =>
      match ed_history e !! S i with
      | Some t => ed_show e (Some (S i, d)) t
      | None => ed_show e None d
      end
  end.
Definition ed_submit (b : option (nat * cstring)) (e : editor) : editor :=
  mk_editor (ed_text e) (ed_remember (ed_text e) (ed_history e)) b true (ed_eof e).

(** The editor after an event, the result, and the signal that is sent. *)
Definition ed_char (c : Z) (e : editor) : editor * Z * option Z :=
  if c =? 3 then (ed_show e None [], 0, Some SIGINT) else
  if c =? 26 then (e, 0, Some SIGTSTP) else
  if c =? 4 then
    match ed_text e with
    | [] => (mk_editor [] (ed_history e) (ed_browse e) (ed_ready e) true, 1, None)
    | _ => (ed_submit (ed_browse e) e, 1, None)
    end else
  if (c =? 10) || (c =? 13) then (ed_submit None e, 1, None) else
  if (c =? 8) || (c =? 127) then
    match ed_text e with [] => (e, 0, None) | t => (ed_show e None (take (length t - 1) t), 0, None) end else
  if (32 <=? c) && (bool_decide (length (ed_text e) < 255)%nat) then (ed_show e None (ed_text e ++ [c]), 0, None)
  else (e, 0, None).
Definition ed_event (ev : key_event) (e : editor) : editor * Z * option Z :=
  if bool_decide (ev_type ev ≠ KEY_EVENT_PRESS) || bool_decide (ev_keycode ev = KEY_F12) || ed_ready e || ed_eof e then (e, 0, None) else
  match ev_keycode ev with
  | KEY_UP => (ed_up e, 0, None)
  | KEY_DOWN => (ed_down e, 0, None)
  | KEY_PAGE_UP | KEY_PAGE_DOWN => (e, 0, None)
  | _ => ed_char (ev_ascii ev) e
  end.
(** What a reader with room for [capacity] bytes gets when it does not wait:
    the result and the bytes stored. *)
Definition ed_read (capacity : Z) (e : editor) : editor * (Z * list Z) :=
  if capacity =? 0 then (e, (-1, [])) else
  let len := Z.of_nat (length (ed_text e)) in
  if ed_eof e then (mk_editor [] (ed_history e) None false false, (0, [])) else
  if ed_ready e then
    if capacity <=? len then (e, (-1, []))
    else (mk_editor [] (ed_history e) None false false, (len, ed_text e ++ [0]))
  else (e, (0, [])).

(** *** An ideal terminal: the characters left of the cursor, and from it on. *)
Definition screen : Type := list Z * list Z.
Definition show_char (c : Z) (d : screen) : screen :=
  let '(before, after) := d in
  if c =? 10 then ([], []) else
  if c =? 8 then match reverse before with [] => ([], after) | x :: l => (reverse l, x :: after) end
  else (before ++ [c], tail after).
Definition show_call (d : screen) (c : call) : screen :=
  match c with TTY_putc c => show_char c d | _ => d end.
Definition show (cs : list call) (d : screen) : screen := foldl show_call d cs.
(** The row shows [t] with the cursor behind it. *)
Definition displays (t : cstring) (d : screen) : Prop := fst d = t ∧ Forall (λ c, c = 32) (snd d).

(** ** The arrays *)

(** The array holds a NUL-terminated text of bytes that are not control
    characters. *)
Definition text_in (a : list Z) (t : cstring) : Prop :=
  length a = 256%nat ∧ (∃ rest, a = t ++ 0 :: rest) ∧ Forall (λ c, 32 <= c) t.

Lemma text_in_length a t : text_in a t → (length t ≤ 255)%nat.
Proof. intros (Hl & (rest & ->) & _). rewrite length_app in Hl. simpl in Hl. lia. Qed.

Lemma string_in_text a t : text_in a t → string_in a = Some t.
Proof.
  intros (_ & (rest & ->) & Ht). induction Ht as [|c t Hc Ht IH]; [done|].
  simpl. rewrite (proj2 (Z.eqb_neq c 0)) by lia. by rewrite IH.
Qed.

Lemma take_text a t : text_in a t → take (length t) a = t.
Proof. intros (_ & (rest & ->) & _). by rewrite take_app_length. Qed.

Lemma copy_wp dst src n (Q : list Z → line → Prop) s :
  0 <= n <= Z.of_nat (length src) → n <= Z.of_nat (length dst) →
  Q (splice 0 (take (Z.to_nat n) src) dst) s → wp (copy dst src n) Q s.
Proof.
  intros H1 H2 HQ. unfold copy. rewrite (proj2 (Z.leb_le _ _)), (proj2 (Z.leb_le _ _)) by lia. by apply wp_ret.
Qed.

Lemma copy_text_wp dst src t (Q : list Z → line → Prop) s :
  text_in src t → length dst = 256%nat → (∀ a, text_in a t → Q a s) → wp (copy dst src (Z.of_nat (length t) + 1)) Q s.
Proof.
  intros Hs Hd HQ. pose proof (text_in_length _ _ Hs). pose proof Hs as (Hl & (rest & Er) & Ht).
  apply copy_wp; [lia|lia|]. apply HQ.
  assert (E : take (Z.to_nat (Z.of_nat (length t) + 1)) src = t ++ [0]).
  { rewrite Er, cons_middle, app_assoc. apply take_app_length'. rewrite length_app. simpl. lia. }
  rewrite E. split; [rewrite length_splice; rewrite ?length_app; simpl; lia|]. split; [|done].
  unfold splice. simpl. exists (drop (length (t ++ [0])) dst). by rewrite <-app_assoc.
Qed.

Lemma store_wp a i v (Q : list Z → line → Prop) s :
  0 <= i < Z.of_nat (length a) → Q (<[Z.to_nat i := v]> a) s → wp (store a i v) Q s.
Proof.
  intros Hi HQ. unfold store. rewrite (proj2 (Z.leb_le _ _)), (proj2 (Z.ltb_lt _ _)) by lia. by apply wp_ret.
Qed.

Lemma text_in_cut a t n : text_in a t → (n ≤ length t)%nat → text_in (<[n := 0]> a) (take n t).
Proof.
  intros (Hl & (rest & ->) & Ht) Hn. split; [by rewrite length_insert|]. split; [|by apply Forall_take].
  exists (drop (S n) (t ++ 0 :: rest)).
  rewrite length_app in Hl. simpl in Hl.
  rewrite insert_take_drop by (rewrite length_app; simpl; lia). by rewrite take_app_le.
Qed.

Lemma text_in_end a t : text_in a t → text_in (<[length t := 0]> a) t.
Proof. intros H. pose proof (text_in_cut a t (length t) H ltac:(lia)) as C. by rewrite firstn_all in C. Qed.

Lemma text_in_snoc a t c : text_in a t → 32 <= c → (length t < 255)%nat →
  text_in (<[S (length t) := 0]> (<[length t := c]> a)) (t ++ [c]).
Proof.
  intros (Hl & (rest & ->) & Ht) Hc Hn. split; [by rewrite !length_insert|].
  rewrite length_app in Hl. simpl in Hl. destruct rest as [|x rest]; [simpl in Hl; lia|].
  split; [|apply Forall_app; split; [done|by constructor]].
  exists rest. rewrite (insert_app_r_alt t _ (length t)) by lia. rewrite Nat.sub_diag. simpl.
  rewrite insert_app_r_alt by lia. replace (S (length t) - length t)%nat with 1%nat by lia. simpl. by rewrite <-app_assoc.
Qed.

(** ** Simulation *)

Record repr (s : line) (e : editor) : Prop := mk_repr {
  r_text : text_in (line_buffer s) (ed_text e);
  r_len : line_len s = Z.of_nat (length (ed_text e));
  r_rows : length (line_history s) = 8%nat;
  r_row : Forall (λ row, length row = 256%nat) (line_history s);
  r_count : line_history_count s = Z.of_nat (length (ed_history e));
  r_bound : (length (ed_history e) ≤ 8)%nat;
  r_hist : ∀ i t, ed_history e !! i = Some t → ∃ row, line_history s !! i = Some row ∧ text_in row t;
  r_draft : length (line_draft s) = 256%nat;
  r_browse : match ed_browse e with
             | None => line_history_index s = -1
             | Some (i, d) => line_history_index s = Z.of_nat i ∧ (i < length (ed_history e))%nat ∧ text_in (line_draft s) d
             end;
  r_ready : g_line_ready s = ed_ready e;
  r_eof : g_line_eof s = ed_eof e
}.

(** What the row of the terminal shows once everything typed is echoed. *)
Definition ed_row (e : editor) : cstring := if ed_ready e || ed_eof e then [] else ed_text e.
Definition raised (sig : option Z) (g : option sigstate) : option sigstate :=
  match sig with
  | None => g
  | Some n => (λ g, set_pending (sigaddset (pending g) n) g) <$> g
  end.
(** From [s], where the editor is [e], to [s'], where it is [e']; [quiet] when
    the row still shows the text. *)
Definition moves (s : line) (e e' : editor) (sig : option Z) (quiet : bool) (s' : line) : Prop :=
  repr s' e' ∧ TTY_ROWS s' = TTY_ROWS s ∧ current_signals s' = raised sig (current_signals s) ∧
  ∃ new, calls s' = calls s ++ new ∧ (quiet = true → ∀ d, displays (ed_row e) d → displays (ed_row e') (show new d)).

Definition say (cs : list call) s : line :=
  mk_line (line_buffer s) (line_len s) (line_history s) (line_draft s) (line_history_count s) (line_history_index s) (g_line_ready s) (g_line_eof s) (current_signals s) (TTY_ROWS s) (calls s ++ cs).

Lemma say_say a b s : say b (say a s) = say (a ++ b) s.
Proof. unfold say. simpl. by rewrite app_assoc. Qed.

Lemma put_chars_wp cs (Q : unit → line → Prop) s : Q tt (say (TTY_putc <$> cs) s) → wp (put_chars cs) Q s.
Proof.
  revert s. induction cs as [|c cs IH]; intros s HQ; simpl.
  - apply wp_ret. unfold say in HQ. simpl in HQ. rewrite app_nil_r in HQ. by destruct s.
  - apply wp_bind. unfold emit. apply wp_modify. apply IH. change (add_call (TTY_putc c) s) with (say [TTY_putc c] s).
    by rewrite say_say.
Qed.

(** *** The screen *)
Lemma show_app a b d : show (a ++ b) d = show b (show a d).
Proof. apply foldl_app. Qed.

Lemma show_text u : Forall (λ c, 32 <= c) u → ∀ t d, displays t d → displays (t ++ u) (show (TTY_putc <$> u) d).
Proof.
  induction 1 as [|c u Hc _ IH]; intros t [b a] [Hb Ha]; simpl in *; subst b; [by rewrite app_nil_r|].
  replace (t ++ c :: u) with ((t ++ [c]) ++ u) by by rewrite <-app_assoc. apply IH.
  rewrite !(proj2 (Z.eqb_neq _ _)) by lia. split; simpl; [done|]. by destruct Ha.
Qed.

Lemma show_rub t c d : displays (t ++ [c]) d → displays t (show (TTY_putc <$> rub_out) d).
Proof.
  destruct d as [b a]. intros [Hb Ha]. simpl in *. subst b. rewrite reverse_app. simpl. rewrite reverse_involutive.
  rewrite reverse_app. simpl. rewrite reverse_involutive. split; simpl; [done|]. by constructor.
Qed.

Lemma show_clear t : ∀ d, displays t d → displays [] (show (TTY_putc <$> mjoin (replicate (length t) rub_out)) d).
Proof.
  induction t as [|c t IH] using rev_ind; intros d Hd; [done|].
  rewrite length_app, Nat.add_comm.
  change (mjoin _) with (rub_out ++ mjoin (replicate (length t) rub_out)). rewrite fmap_app, show_app.
  apply IH. by eapply show_rub.
Qed.

Lemma show_newline t d : displays [] (show [TTY_putc 10] (show t d)).
Proof. unfold show. simpl. by destruct (foldl show_call d t). Qed.

(** *** The operations *)
Lemma line_replace_wp (row told t : cstring) (Q : unit → line → Prop) s :
  line_len s = Z.of_nat (length told) → length (line_buffer s) = 256%nat → text_in row t →
  (∀ b, text_in b t →
    Q tt (set_text b (Z.of_nat (length t)) (say (TTY_putc <$> mjoin (replicate (length told) rub_out) ++ t) s))) →
  wp (line_replace row) Q s.
Proof.
  intros Hlen Hb Hrow HQ. unfold line_replace. apply wp_bind, wp_get. apply wp_bind, put_chars_wp.
  apply wp_bind. eapply wp_read; [by apply string_in_text|]. apply wp_bind.
  apply copy_text_wp; [done|done|]. intros b Hbt. apply wp_bind, wp_modify. apply put_chars_wp.
  rewrite (take_text b t Hbt), Hlen, Nat2Z.id.
  specialize (HQ b Hbt). rewrite fmap_app in HQ. revert HQ. unfold set_text, say. cbn -[fmap mjoin]. by rewrite app_assoc.
Qed.

Lemma show_replaced told t d : Forall (λ c, 32 <= c) t → displays told d →
  displays t (show (TTY_putc <$> mjoin (replicate (length told) rub_out) ++ t) d).
Proof.
  intros Ht Hd. rewrite fmap_app, show_app. change t with ([] ++ t) at 1. apply show_text; [done|]. by apply show_clear.
Qed.

Lemma moves_after s s0 e e' sig q s' :
  calls s0 = calls s → TTY_ROWS s0 = TTY_ROWS s → current_signals s0 = current_signals s →
  moves s0 e e' sig q s' → moves s e e' sig q s'.
Proof. intros H1 H2 H3. unfold moves. by rewrite H1, H2, H3. Qed.

(** Showing [t] in place of the text. *)
Lemma moves_replaced s e b a t :
  repr s e → ed_ready e = false → ed_eof e = false → text_in b t →
  match a with
  | None => line_history_index s = -1
  | Some (i, d) => line_history_index s = Z.of_nat i ∧ (i < length (ed_history e))%nat ∧ text_in (line_draft s) d
  end →
  moves s e (ed_show e a t) None true
    (set_text b (Z.of_nat (length t)) (say (TTY_putc <$> mjoin (replicate (length (ed_text e)) rub_out) ++ t) s)).
Proof.
  intros [] Hr Hf Hb Ha. split; [by constructor|]. repeat (split; [done|]). eexists. split; [done|]. intros _ d Hd.
  unfold ed_row in *. simpl. rewrite Hr, Hf in *. apply show_replaced; [apply Hb|done].
Qed.

Lemma repr_index s e a i :
  repr s e →
  match a with
  | None => i = -1
  | Some (n, d) => i = Z.of_nat n ∧ (n < length (ed_history e))%nat ∧ text_in (line_draft s) d
  end → repr (set_index i s) (ed_show e a (ed_text e)).
Proof. intros [] Ha. by constructor. Qed.

Lemma line_browse_wp s e i d t :
  repr s e → ed_ready e = false → ed_eof e = false → ed_history e !! i = Some t → text_in (line_draft s) d →
  wp (cmodify (set_index (Z.of_nat i));; row ← cread (λ s, line_history s !! Z.to_nat (Z.of_nat i)); line_replace row)
     (λ _, moves s e (ed_show e (Some (i, d)) t) None true) s.
Proof.
  intros Hs Hr Hf Ht Hd. apply wp_bind, wp_modify. apply wp_bind.
  destruct (r_hist _ _ Hs i t Ht) as (row & Hrow & Htext).
  eapply wp_read; [simpl; rewrite Nat2Z.id; exact Hrow|].
  apply lookup_lt_Some in Ht.
  pose proof (repr_index s e (Some (i, d)) _ Hs (conj eq_refl (conj Ht Hd))) as H1.
  eapply line_replace_wp; [apply H1|apply H1|done|]. intros b Hb.
  eapply moves_after; [..|apply (moves_replaced (set_index (Z.of_nat i) s) _ b (Some (i, d)) t H1 Hr Hf Hb)]; done.
Qed.

Lemma moves_refl s e : repr s e → moves s e e None true s.
Proof. intros. repeat (split; [done|]). exists []. split; [by rewrite app_nil_r|done]. Qed.

Lemma last_nth {A} (l : list A) : l !! (length l - 1)%nat = last l.
Proof. rewrite last_lookup. f_equal. lia. Qed.

Lemma ed_show_same e : ed_show e (ed_browse e) (ed_text e) = e.
Proof. by destruct e. Qed.

Lemma line_history_up_wp s e : repr s e → ed_ready e = false → ed_eof e = false →
  wp (line_history_move (-1)) (λ _, moves s e (ed_up e) None true) s.
Proof.
  intros Hs Hr Hf. unfold line_history_move. apply wp_bind, wp_get. rewrite (r_count _ _ Hs).
  destruct (ed_history e) as [|t0 h0] eqn:Eh.
  { simpl. apply wp_ret. unfold ed_up. rewrite Eh. destruct (ed_browse e) as [[[|] ?]|]; by apply moves_refl. }
  rewrite (proj2 (Z.eqb_neq _ _)) by (simpl; lia). cbn iota. change (-1 <? 0) with true. cbn iota.
  pose proof (r_browse _ _ Hs) as Hb. unfold ed_up. rewrite Eh. destruct (ed_browse e) as [[i d]|] eqn:Ebr.
  - destruct Hb as (-> & Hi & Hd). rewrite (proj2 (Z.ltb_ge _ 0)) by lia. cbn iota. destruct i as [|i].
    { apply wp_ret. by apply moves_refl. }
    rewrite (proj2 (Z.ltb_lt 0 _)) by lia. cbn iota. replace (Z.of_nat (S i) - 1) with (Z.of_nat i) by lia.
    destruct (lookup_is_Some (t0 :: h0) i) as [t Ht]; [rewrite Eh in Hi; lia|]. rewrite Ht.
    apply line_browse_wp; [done|done|done|by rewrite Eh|done].
  - rewrite Hb. change (-1 <? 0) with true. cbn iota. apply wp_bind.
    rewrite (r_len _ _ Hs). apply copy_text_wp; [apply Hs|apply Hs|]. intros a Ha. apply wp_bind, wp_modify.
    replace (Z.of_nat (length (t0 :: h0)) - 1) with (Z.of_nat (length (t0 :: h0) - 1)) by (simpl; lia).
    assert (Hs1 : repr (set_draft a s) e).
    { destruct Hs. constructor; try done; [apply Ha|]. by rewrite Ebr in *. }
    destruct (lookup_is_Some (t0 :: h0) (length (t0 :: h0) - 1)) as [t Ht]; [simpl; lia|].
    rewrite <-last_nth, Ht. eapply wp_mono.
    + eapply (line_browse_wp (set_draft a s) e _ (ed_text e) t Hs1 Hr Hf); [by rewrite Eh|done].
    + intros [] s1. by apply moves_after.
Qed.

Lemma line_history_down_wp s e : repr s e → ed_ready e = false → ed_eof e = false →
  wp (line_history_move 1) (λ _, moves s e (ed_down e) None true) s.
Proof.
  intros Hs Hr Hf. unfold line_history_move. apply wp_bind, wp_get. rewrite (r_count _ _ Hs).
  pose proof (r_browse _ _ Hs) as Hb. unfold ed_down. destruct (ed_browse e) as [[i d]|] eqn:Ebr.
  - destruct Hb as (Ei & Hi & Hd). rewrite (proj2 (Z.eqb_neq _ _)) by lia. cbn iota.
    change (1 <? 0) with false. cbn iota. rewrite Ei, (proj2 (Z.ltb_ge _ 0)) by lia. cbn iota.
    destruct (ed_history e !! S i) as [t|] eqn:Et.
    + pose proof (lookup_lt_Some _ _ _ Et). rewrite (proj2 (Z.ltb_lt _ _)) by lia. cbn iota.
      replace (Z.of_nat i + 1) with (Z.of_nat (S i)) by lia. by apply line_browse_wp.
    + apply lookup_ge_None in Et. rewrite (proj2 (Z.ltb_ge _ _)) by lia. cbn iota. apply wp_bind, wp_modify.
      pose proof (repr_index s e None (-1) Hs eq_refl) as H1.
      eapply line_replace_wp; [apply H1|apply H1|done|]. intros b Hbt.
      eapply moves_after; [..|apply (moves_replaced _ _ b None d H1 Hr Hf Hbt eq_refl)]; done.
  - rewrite Hb. change (1 <? 0) with false. change (-1 <? 0) with true. cbn iota.
    destruct (_ =? 0); apply wp_ret; by apply moves_refl.
Qed.

(** *** The history *)
Lemma shift_history_wp (n i : nat) (Q : unit → line → Prop) s :
  (1 ≤ i)%nat → (i + n = length (line_history s))%nat → Forall (λ row, length row = 256%nat) (line_history s) →
  (∀ h, length h = length (line_history s) → Forall (λ row, length row = 256%nat) h →
     (∀ j, (j < i - 1)%nat → h !! j = line_history s !! j) →
     (∀ j, (i - 1 ≤ j < i - 1 + n)%nat → h !! j = line_history s !! S j) →
     Q tt (set_history h (line_history_count s) s)) →
  wp (shift_history n i) Q s.
Proof.
  revert i s. induction n as [|n IH]; intros i s Hi Hn Hrows HQ; simpl.
  - apply wp_ret. specialize (HQ (line_history s)). destruct s. apply HQ; try done. lia.
  - destruct (lookup_is_Some (line_history s) i) as [src Hsrc]; [lia|].
    destruct (lookup_is_Some (line_history s) (i - 1)) as [dst Hdst]; [lia|].
    pose proof (proj1 (Forall_lookup _ _) Hrows _ _ Hsrc) as Ls. pose proof (proj1 (Forall_lookup _ _) Hrows _ _ Hdst) as Ld.
    apply wp_bind. eapply wp_read; [exact Hsrc|]. apply wp_bind. eapply wp_read; [exact Hdst|].
    cbn beta in Ls, Ld. apply wp_bind. apply copy_wp; [unfold LINE_BUFFER_SIZE; lia|unfold LINE_BUFFER_SIZE; lia|].
    change (Z.to_nat LINE_BUFFER_SIZE) with 256%nat. rewrite take_ge, splice_full by lia.
    apply wp_bind, wp_modify. apply IH; simpl; rewrite ?length_insert; [lia|lia|by apply Forall_insert|].
    intros h Hl Hf H1 H2. specialize (HQ h). unfold set_history in *. simpl in *. apply HQ; [done|done| |].
    + intros j Hj. rewrite H1 by lia. by rewrite list_lookup_insert_ne by lia.
    + intros j Hj. destruct (decide (j = i - 1)%nat) as [->|Hne].
      * rewrite H1, list_lookup_insert_eq by lia. replace (S (i - 1)) with i by lia. done.
      * rewrite H2 by lia. by rewrite list_lookup_insert_ne by lia.
Qed.

(** The same text is at the end of the history. *)
Definition ed_same (e : editor) : bool := bool_decide (last (ed_history e) = Some (ed_text e)).

Lemma same_line_wp (Q : bool → line → Prop) s e :
  repr s e → Q (ed_same e) s →
  wp (if negb (line_history_count s =? 0) then
        last ← cread (λ s, row ← line_history s !! Z.to_nat (line_history_count s - 1); string_in row);
        text ← cread (λ s, string_in (line_buffer s));
        mret (bool_decide (last = text))
      else mret false) Q s.
Proof.
  intros Hs HQ. unfold ed_same in HQ. rewrite (r_count _ _ Hs). destruct (exists_last_or (ed_history e)) as [E|(h & t & E)].
  - rewrite E in *. simpl. by apply wp_ret.
  - rewrite (proj2 (Z.eqb_neq _ _)) by (rewrite E, length_app; simpl; lia). cbn [negb].
    destruct (r_hist _ _ Hs (length h) t) as (row & Hrow & Ht); [rewrite E; apply list_lookup_middle; done|].
    apply wp_bind. eapply wp_read.
    { simpl. rewrite (r_count _ _ Hs). replace (Z.to_nat _) with (length h) by (rewrite E, length_app; simpl; lia).
      rewrite Hrow. simpl. by apply string_in_text. }
    apply wp_bind. eapply wp_read; [apply string_in_text, Hs|]. apply wp_ret.
    rewrite E, last_snoc in HQ. replace (bool_decide (t = ed_text e)) with (bool_decide (Some t = Some (ed_text e))); [done|].
    apply bool_decide_ext. split; congruence.
Qed.

Definition ed_with_history (h : list cstring) (e : editor) : editor :=
  mk_editor (ed_text e) h (ed_browse e) (ed_ready e) (ed_eof e).

Lemma repr_history s e h rows n :
  repr s e → length rows = 8%nat → Forall (λ row, length row = 256%nat) rows → n = Z.of_nat (length h) →
  (length (ed_history e) ≤ length h ≤ 8)%nat → (∀ i t, h !! i = Some t → ∃ row, rows !! i = Some row ∧ text_in row t) →
  repr (set_history rows n s) (ed_with_history h e).
Proof.
  intros [] H1 H2 H3 H4 H5. constructor; try done; [simpl; lia|].
  simpl. destruct (ed_browse e) as [[i d]|]; [|done]. destruct r_browse0 as (? & ? & ?). split; [done|]. split; [lia|done].
Qed.

(** Appending the text to a history that has room. *)
Lemma history_push_wp s e h rows (Q : unit → line → Prop) :
  repr s e → length rows = 8%nat → Forall (λ row, length row = 256%nat) rows →
  (length h < 8)%nat → (length (ed_history e) ≤ S (length h))%nat →
  (∀ i t, h !! i = Some t → ∃ row, rows !! i = Some row ∧ text_in row t) →
  (∀ rows' n, repr (set_history rows' n s) (ed_with_history (h ++ [ed_text e]) e) → Q tt (set_history rows' n s)) →
  wp (s ← cget;
      dst ← cread (λ s, line_history s !! Z.to_nat (line_history_count s));
      row ← copy dst (line_buffer s) (line_len s + 1);
      cmodify (set_history (<[Z.to_nat (line_history_count s) := row]> (line_history s)) (line_history_count s + 1)))
     Q (set_history rows (Z.of_nat (length h)) s).
Proof.
  intros Hs Hl Hf Hn Hle Hh HQ. apply wp_bind, wp_get. apply wp_bind.
  destruct (lookup_is_Some rows (length h)) as [dst Hdst]; [lia|].
  eapply wp_read; [simpl; rewrite Nat2Z.id; exact Hdst|]. apply wp_bind. cbn [set_history line_buffer line_len].
  rewrite (r_len _ _ Hs). apply copy_text_wp; [apply Hs|by apply (proj1 (Forall_lookup _ _) Hf _ _ Hdst)|].
  intros row Hrow. apply wp_modify. cbn [set_history line_history line_history_count]. rewrite Nat2Z.id.
  apply (HQ (<[length h := row]> rows) (Z.of_nat (length h) + 1)).
  apply repr_history; rewrite ?length_insert, ?length_app; simpl; [done|done|by apply Forall_insert; [|apply Hrow]|lia|lia|].
  intros i t Ht. destruct (decide (i = length h)) as [->|Hne].
  - rewrite list_lookup_middle in Ht by done. injection Ht as <-. exists row. by rewrite list_lookup_insert_eq by lia.
  - apply lookup_app_Some in Ht as [Ht|(? & Ht)].
    + rewrite list_lookup_insert_ne by done. by apply Hh.
    + apply list_lookup_singleton_Some in Ht. lia.
Qed.

Lemma line_store_history_wp (Q : unit → line → Prop) s e :
  repr s e →
  (∀ rows n, repr (set_history rows n s) (ed_with_history (ed_remember (ed_text e) (ed_history e)) e) → Q tt (set_history rows n s)) →
  wp line_store_history Q s.
Proof.
  intros Hs HQ. unfold line_store_history. apply wp_bind, wp_get. rewrite (r_len _ _ Hs).
  assert (Hskip : ed_remember (ed_text e) (ed_history e) = ed_history e → Q tt s).
  { intros E. rewrite E in HQ. specialize (HQ (line_history s) (line_history_count s)). destruct s, e. by apply HQ. }
  unfold ed_remember in *. destruct (ed_text e) as [|c t] eqn:Et.
  { apply wp_ret. by apply Hskip. }
  rewrite (proj2 (Z.eqb_neq _ _)) by (simpl; lia). cbn iota. rewrite <-Et in *. apply wp_bind, (same_line_wp _ _ e Hs).
  rewrite (bool_decide_eq_false_2 (ed_text e = [])) in * by (rewrite Et; done). cbn [orb] in *.
  unfold ed_same. case_bool_decide; [apply wp_ret; by apply Hskip|]. clear Hskip.
  apply wp_bind. pose proof (r_bound _ _ Hs). rewrite (r_count _ _ Hs). unfold LINE_HISTORY_SIZE.
  case_bool_decide as E8.
  - rewrite (proj2 (Z.eqb_eq _ _)) by lia. apply wp_bind. change (Z.to_nat (8 - 1)) with 7%nat.
    apply shift_history_wp; [done|by rewrite (r_rows _ _ Hs)|apply Hs|]. intros rows Hl Hf _ H2. apply wp_modify.
    replace (set_history _ _ _) with (set_history rows (Z.of_nat (length (tail (ed_history e)))) s).
    2: { unfold set_history. simpl. rewrite (r_count _ _ Hs). f_equal. destruct (ed_history e); simpl in *; lia. }
    assert (Ht : length (tail (ed_history e)) = 7%nat) by (destruct (ed_history e); simpl in *; lia).
    apply (history_push_wp s e); [done|by rewrite Hl; apply Hs|done|lia|lia| |done].
    intros i u Hu. pose proof (lookup_lt_Some _ _ _ Hu). rewrite H2 by lia. apply (r_hist _ _ Hs).
    by destruct (ed_history e).
  - rewrite (proj2 (Z.eqb_neq _ _)) by lia. apply wp_ret.
    replace s with (set_history (line_history s) (Z.of_nat (length (ed_history e))) s) at 1
      by (rewrite <-(r_count _ _ Hs); by destruct s).
    apply (history_push_wp s e); [done|apply Hs|apply Hs|lia|lia|apply Hs|done].
Qed.

(** *** Events *)
Lemma moves_intro s e e' sig q new s' :
  repr s' e' → TTY_ROWS s' = TTY_ROWS s → current_signals s' = raised sig (current_signals s) → calls s' = calls s ++ new →
  (q = true → ∀ d, displays (ed_row e) d → displays (ed_row e') (show new d)) →
  moves s e e' sig q s'.
Proof. intros. repeat (split; [done|]). by exists new. Qed.

Lemma line_send_signal_wp sig (Q : unit → line → Prop) s :
  (sig = SIGINT ∨ sig = SIGTSTP) → Q tt (set_signals (raised (Some sig) (current_signals s)) s) → wp (line_send_signal sig) Q s.
Proof.
  intros Hsig HQ. unfold line_send_signal. apply wp_bind, wp_get. destruct (current_signals s) as [g|] eqn:E.
  - simpl in HQ. replace (signal_add _ _ _ g) with (Some (0, set_pending (sigaddset (pending g) sig) g))
      by (by destruct Hsig as [->| ->]). by apply wp_modify.
  - apply wp_ret. unfold set_signals in HQ. simpl in HQ. destruct s. simpl in *. by subst.
Qed.

Definition outcome (s : line) (e : editor) (ev : key_event) (r : Z) (s' : line) : Prop :=
  let '(e', r', sig) := ed_event ev e in r = r' ∧ moves s e e' sig (negb (ev_ascii ev =? 26)) s'.
Definition char_event (c : Z) : key_event := mk_event KEY_EVENT_PRESS KEY_NONE c.

Lemma store_end_wp {A} (K : list Z → cmd line A) n z (Q : A → line → Prop) s e :
  repr s e → (n ≤ length (ed_text e))%nat → z = Z.of_nat n → (∀ b, text_in b (take n (ed_text e)) → wp (K b) Q s) →
  wp (b ← store (line_buffer s) z 0; K b) Q s.
Proof.
  intros Hs Hn -> HK. pose proof (text_in_length _ _ (r_text _ _ Hs)). apply wp_bind, store_wp.
  { rewrite (proj1 (r_text _ _ Hs)). lia. }
  rewrite Nat2Z.id. apply HK. by apply text_in_cut; [apply Hs|].
Qed.

Lemma repr_text s e b t :
  repr s e → text_in b t → repr (set_index (-1) (set_text b (Z.of_nat (length t)) s)) (ed_show e None t).
Proof. intros [] Hb. by constructor. Qed.

Lemma repr_say s e cs : repr s e → repr (say cs s) e.
Proof. intros []. by constructor. Qed.
Lemma repr_signals s e g : repr s e → repr (set_signals g s) e.
Proof. intros []. by constructor. Qed.

(** The line is complete. *)
Lemma submit_wp {A} (K : cmd line A) (Q : A → line → Prop) s e :
  repr s e →
  (∀ b rows n, repr (set_history rows n (set_text b (line_len s) s)) (ed_with_history (ed_remember (ed_text e) (ed_history e)) e) →
     wp K Q (set_history rows n (set_text b (line_len s) s))) →
  wp (b ← store (line_buffer s) (line_len s) 0; cmodify (set_text b (line_len s));; line_store_history;; K) Q s.
Proof.
  intros Hs HK. rewrite (r_len _ _ Hs) in *. apply (store_end_wp _ (length (ed_text e)) _ _ s e Hs); [done|done|]. intros b Hb.
  rewrite firstn_all in Hb. apply wp_bind, wp_modify. apply wp_bind.
  apply (line_store_history_wp _ _ e).
  { destruct Hs. by constructor. }
  intros rows n Hr. by apply HK.
Qed.

(** Opens the handler at a character that the editor takes. *)
Ltac open_char Hs Hr Hf :=
  pose proof (r_len _ _ Hs) as Hlen;
  unfold outcome, ed_event, line_handle_keyevent; cbn -[line_store_history store put_chars bool_decide];
  rewrite ?bool_decide_eq_false_2 by (let H := fresh in intros H; first [by apply H|discriminate H]);
  rewrite Hr, Hf; cbn -[line_store_history store put_chars]; apply wp_bind, wp_get;
  rewrite (r_ready _ _ Hs), (r_eof _ _ Hs), Hr, Hf; cbn -[line_store_history store put_chars Z.of_nat].

Section events.
Context (s : line) (e : editor) (Hs : repr s e) (Hr : ed_ready e = false) (Hf : ed_eof e = false).

Lemma line_interrupt_wp : wp (line_handle_keyevent (Some (char_event 3))) (outcome s e (char_event 3)) s.
Proof.
  open_char Hs Hr Hf. apply (store_end_wp _ 0 _ _ s e Hs); [lia|done|]. intros b Hb.
  apply wp_bind, wp_modify, wp_bind, wp_modify, wp_bind, put_chars_wp, wp_bind, line_send_signal_wp; [by left|].
  apply wp_ret. split; [done|]. eapply moves_intro; [|done..|].
  - apply repr_signals, repr_say. by apply (repr_text _ _ _ []).
  - intros _ d _. unfold ed_row. simpl. rewrite Hr, Hf. apply (show_newline [TTY_putc 94; TTY_putc 67]).
Qed.

Lemma line_suspend_wp : wp (line_handle_keyevent (Some (char_event 26))) (outcome s e (char_event 26)) s.
Proof.
  open_char Hs Hr Hf. apply wp_bind, put_chars_wp, wp_bind, line_send_signal_wp; [by right|]. apply wp_ret. split; [done|].
  eapply moves_intro; [by apply repr_signals, repr_say|done..].
Qed.

Lemma line_eof_wp : wp (line_handle_keyevent (Some (char_event 4))) (outcome s e (char_event 4)) s.
Proof.
  open_char Hs Hr Hf. unfold ed_char. cbn -[line_store_history store put_chars Z.of_nat].
  destruct (ed_text e) as [|x t] eqn:Et; rewrite Hlen.
  - cbn -[line_store_history store]. apply wp_bind, wp_modify, wp_bind. unfold emit. apply wp_modify, wp_ret.
    split; [done|]. eapply (moves_intro _ _ _ _ _ [Sched_yield]); [|done..|].
    + destruct Hs. by constructor; simpl; rewrite ?Et in *.
    + intros _ d. unfold ed_row. simpl. by rewrite Hr, Hf, Et.
  - rewrite (proj2 (Z.eqb_neq _ _)) by (simpl; lia). rewrite <-Et, <-Hlen in *.
    apply (submit_wp _ _ _ e Hs). intros b rows n H1. apply wp_bind, wp_modify, wp_bind, put_chars_wp, wp_ret. split; [done|].
    eapply moves_intro; [|done..|].
    + apply repr_say. destruct H1. by constructor.
    + intros _ d _. apply (show_newline []).
Qed.

Lemma line_enter_wp c : c = 10 ∨ c = 13 → wp (line_handle_keyevent (Some (char_event c))) (outcome s e (char_event c)) s.
Proof.
  intros Hc. open_char Hs Hr Hf. unfold ed_char. rewrite !(proj2 (Z.eqb_neq c _)) by lia.
  replace ((c =? 10) || (c =? 13)) with true by lia. apply (submit_wp _ _ _ e Hs). intros b rows n H1.
  apply wp_bind, wp_modify, wp_bind, wp_modify, wp_bind, put_chars_wp, wp_bind. unfold emit. apply wp_modify, wp_ret.
  split; [done|]. eapply (moves_intro _ _ _ _ _ [TTY_putc 10; Sched_yield]); [|done..| |].
  - change (add_call Sched_yield) with (say [Sched_yield]). apply repr_say, repr_say. destruct H1. by constructor.
  - simpl. by rewrite <-app_assoc.
  - intros _ d _. apply (show_newline []).
Qed.

Lemma line_erase_wp c : c = 8 ∨ c = 127 → wp (line_handle_keyevent (Some (char_event c))) (outcome s e (char_event c)) s.
Proof.
  intros Hc. open_char Hs Hr Hf. unfold ed_char. rewrite !(proj2 (Z.eqb_neq c _)) by lia. cbn [orb].
  replace ((c =? 8) || (c =? 127)) with true by lia.
  destruct (exists_last_or (ed_text e)) as [Et|(t & y & Et)].
  { rewrite Hlen, Et. apply wp_ret. split; [done|]. by apply moves_refl. }
  unfold outcome. replace (match ed_text e with [] => _ | _ => _ end) with (ed_show e None t, 0, @None Z).
  2: { rewrite Et. by destruct t; simpl; [|rewrite Nat.sub_0_r, length_app, Nat.add_comm; simpl; rewrite take_app_length]. }
  rewrite (proj2 (Z.ltb_lt _ _)) by (rewrite Hlen, Et, length_app; simpl; lia). apply wp_bind, wp_modify.
  apply (store_end_wp _ (length t) _ _ (set_index (-1) s) (ed_show e None (ed_text e))); [by apply repr_index| | |].
  { simpl. rewrite Et, length_app. lia. } { simpl. rewrite Hlen, Et, length_app. simpl. lia. }
  cbn [ed_show ed_text]. intros b Hb. rewrite Et, take_app_length in Hb.
  apply wp_bind, wp_modify, wp_bind, put_chars_wp, wp_ret.
  split; [done|]. eapply moves_intro; [|done..|].
  - apply repr_say. replace (line_len s - 1) with (Z.of_nat (length t)) by (rewrite Hlen, Et, length_app; simpl; lia). by apply repr_text.
  - intros _ d Hd. unfold ed_row in *. simpl. rewrite Hr, Hf, Et in *. by eapply (show_rub t y).
Qed.

Lemma line_insert_wp c : c ≠ 3 → c ≠ 26 → c ≠ 4 → c ≠ 10 → c ≠ 13 → c ≠ 8 → c ≠ 127 →
  wp (line_handle_keyevent (Some (char_event c))) (outcome s e (char_event c)) s.
Proof.
  intros. open_char Hs Hr Hf. unfold ed_char. rewrite !(proj2 (Z.eqb_neq c _)) by lia. cbn [orb negb].
  destruct (Z.ltb_spec c 32) as [L|G].
  { rewrite (proj2 (Z.leb_gt _ _)) by lia. apply wp_ret. split; [done|]. by apply moves_refl. }
  rewrite (proj2 (Z.leb_le _ _)) by lia. cbn [andb]. pose proof (proj1 (r_text _ _ Hs)) as Hb. case_bool_decide as Hroom.
  - rewrite (proj2 (Z.ltb_lt _ _)) by (unfold LINE_BUFFER_SIZE; lia). apply wp_bind, wp_modify.
    apply wp_bind, store_wp; [simpl; lia|]. apply wp_bind, store_wp; [rewrite length_insert; simpl; lia|].
    cbn [set_index line_buffer line_len]. rewrite Hlen.
    replace (Z.of_nat (length (ed_text e)) + 1) with (Z.of_nat (length (ed_text e ++ [c]))) by (rewrite length_app; simpl; lia).
    apply wp_bind, wp_modify, wp_bind, put_chars_wp, wp_ret. split; [done|]. eapply moves_intro; [|done..|].
    + apply repr_say, repr_text; [done|]. rewrite !Nat2Z.id, length_app, Nat.add_comm. by apply text_in_snoc; [apply Hs|..].
    + intros _ d Hd. unfold ed_row in *. simpl. rewrite Hr, Hf in *. apply (show_text [c]); [by constructor|done].
  - rewrite (proj2 (Z.ltb_ge _ _)) by (unfold LINE_BUFFER_SIZE; lia). apply wp_ret. split; [done|]. by apply moves_refl.
Qed.

Lemma line_char_wp c : wp (line_handle_keyevent (Some (char_event c))) (outcome s e (char_event c)) s.
Proof.
  destruct (decide (c = 3)) as [->|]; [apply line_interrupt_wp|]. destruct (decide (c = 26)) as [->|]; [apply line_suspend_wp|].
  destruct (decide (c = 4)) as [->|]; [apply line_eof_wp|].
  destruct (decide (c = 10 ∨ c = 13)); [by apply line_enter_wp|]. destruct (decide (c = 8 ∨ c = 127)); [by apply line_erase_wp|].
  apply line_insert_wp; tauto.
Qed.
End events.

Lemma line_handle_wp ev s e : repr s e → wp (line_handle_keyevent (Some ev)) (outcome s e ev) s.
Proof.
  intros Hs.
  assert (Hskip : ∀ m, (m = mret 0) → ed_event ev e = (e, 0, None) → wp m (outcome s e ev) s).
  { intros m -> E. apply wp_ret. unfold outcome. rewrite E. split; [done|].
    destruct (moves_refl s e Hs) as (? & ? & ? & new & ? & ?). eapply moves_intro; eauto. }
  destruct (decide (ev_type ev = KEY_EVENT_PRESS)) as [Ht|Ht].
  2: { unfold line_handle_keyevent. rewrite bool_decide_eq_true_2 by done. apply Hskip; [done|].
       unfold ed_event. by rewrite bool_decide_eq_true_2. }
  destruct (decide (ev_keycode ev = KEY_F12)) as [E12|N12].
  { unfold line_handle_keyevent. rewrite bool_decide_eq_false_2, bool_decide_eq_true_2 by tauto. apply Hskip; [done|].
    unfold ed_event. rewrite (bool_decide_eq_true_2 (ev_keycode ev = KEY_F12)) by done. by rewrite orb_true_r. }
  destruct (ed_ready e || ed_eof e) eqn:Hstop.
  { unfold line_handle_keyevent. rewrite bool_decide_eq_false_2, bool_decide_eq_false_2 by tauto.
    apply wp_bind, wp_get. rewrite (r_ready _ _ Hs), (r_eof _ _ Hs), Hstop. apply Hskip; [done|].
    unfold ed_event. by rewrite <-orb_assoc, Hstop, orb_true_r. }
  apply orb_false_iff in Hstop as [Hr Hf]. destruct ev as [ty key c]. simpl in Ht, N12. subst ty.
  destruct (decide (key ∈ [KEY_UP; KEY_DOWN; KEY_PAGE_UP; KEY_PAGE_DOWN])) as [Hk|Hk].
  - repeat (apply elem_of_cons in Hk as [->|Hk]); [..|by apply not_elem_of_nil in Hk];
      unfold outcome, ed_event, line_handle_keyevent; cbn -[line_history_move page]; rewrite Hr, Hf; cbn -[line_history_move page];
      apply wp_bind, wp_get; rewrite (r_ready _ _ Hs), (r_eof _ _ Hs), Hr, Hf; cbn -[line_history_move page]; apply wp_bind.
    + eapply wp_mono; [by apply line_history_up_wp|]. intros [] s' (H1 & H2 & H3 & new & H4 & H5). apply wp_ret. split; [done|].
      eapply moves_intro; eauto.
    + eapply wp_mono; [by apply line_history_down_wp|]. intros [] s' (H1 & H2 & H3 & new & H4 & H5). apply wp_ret. split; [done|].
      eapply moves_intro; eauto.
    + unfold emit. apply wp_modify, wp_ret. split; [done|]. eapply moves_intro; [|done..]. by apply (repr_say s e [_]).
    + unfold emit. apply wp_modify, wp_ret. split; [done|]. eapply moves_intro; [|done..]. by apply (repr_say s e [_]).
  - pose proof (line_char_wp s e Hs Hr Hf c) as H. destruct key; try exact H; try (by destruct N12); destruct Hk; set_solver.
Qed.

(** *** Reading *)
Lemma line_reset_wp (Q : unit → line → Prop) s e :
  repr s e →
  (∀ b, repr (set_done false false (set_index (-1) (set_text b 0 s))) (mk_editor [] (ed_history e) None false false) →
     Q tt (set_done false false (set_index (-1) (set_text b 0 s)))) →
  wp line_reset Q s.
Proof.
  intros Hs HQ. unfold line_reset. apply wp_bind, wp_get. apply (store_end_wp _ 0 _ _ s e Hs); [lia|done|]. intros b Hb.
  apply wp_bind, wp_modify, wp_bind, wp_modify, wp_modify. apply HQ. destruct Hs. by constructor.
Qed.

Definition read_outcome (s : line) (e : editor) (capacity : Z) (r : Z * list Z) (s' : line) : Prop :=
  let '(e', r') := ed_read capacity e in r = r' ∧ moves s e e' None true s'.

Lemma line_read_wp others fuel capacity s e : 0 <= capacity → repr s e →
  wp (line_read others (S fuel) true capacity false) (read_outcome s e capacity) s.
Proof.
  intros Hc Hs. unfold line_read, read_outcome, ed_read. cbn [negb orb]. destruct (capacity =? 0).
  { apply wp_ret. split; [done|]. by apply moves_refl. }
  apply wp_bind. simpl line_wait. apply wp_bind, wp_get. rewrite (r_ready _ _ Hs), (r_eof _ _ Hs). destruct (ed_eof e) eqn:Hf.
  { rewrite orb_true_r. apply wp_ret. unfold line_take. apply wp_bind, wp_get. rewrite (r_eof _ _ Hs), Hf. apply wp_bind.
    apply (line_reset_wp _ s e Hs). intros b Hb. apply wp_ret. split; [done|].
    eapply (moves_intro _ _ _ _ _ []); [done..|by rewrite app_nil_r|].
    intros _ d. unfold ed_row. by rewrite Hf, orb_true_r. }
  destruct (ed_ready e) eqn:Hr; cbn [orb negb].
  2: { apply wp_ret, wp_ret. split; [done|]. by apply moves_refl. }
  apply wp_ret. unfold line_take. apply wp_bind, wp_get. rewrite (r_eof _ _ Hs), Hf, (r_len _ _ Hs). destruct (_ <=? _).
  { apply wp_ret. split; [done|]. by apply moves_refl. }
  pose proof (text_in_length _ _ (r_text _ _ Hs)). pose proof (proj1 (r_text _ _ Hs)).
  apply wp_bind, copy_wp; [lia|rewrite length_replicate; lia|]. rewrite Nat2Z.id, (take_text _ _ (r_text _ _ Hs)).
  rewrite splice_full by (by rewrite length_replicate). apply wp_bind. apply (line_reset_wp _ s e Hs). intros b Hb. apply wp_ret.
  split; [done|]. eapply (moves_intro _ _ _ _ _ []); [done..|by rewrite app_nil_r|].
  intros _ d. unfold ed_row. by rewrite Hr.
Qed.

(** *** Runs *)

Inductive action := Key (ev : key_event) | Read (capacity : Z).
Definition line_action (a : action) : cmd line (Z * list Z) :=
  match a with
  | Key ev => r ← line_handle_keyevent (Some ev); mret (r, [])
  | Read capacity => line_read (mret tt) 1 true capacity false
  end.
Fixpoint line_run (acts : list action) : cmd line (list (Z * list Z)) :=
  match acts with
  | [] => mret []
  | a :: acts => r ← line_action a; rs ← line_run acts; mret (r :: rs)
  end.

Definition ed_action (a : action) (e : editor) : editor * (Z * list Z) * option Z :=
  match a with
  | Key ev => let '(e, r, sig) := ed_event ev e in (e, (r, []), sig)
  | Read capacity => let '(e, r) := ed_read capacity e in (e, r, None)
  end.
(** The editor at the end, the results and the signals. *)
Fixpoint ed_run (acts : list action) (e : editor) : editor * list (Z * list Z) * list (option Z) :=
  match acts with
  | [] => (e, [], [])
  | a :: acts => let '(e, r, sig) := ed_action a e in let '(e, rs, sigs) := ed_run acts e in (e, r :: rs, sig :: sigs)
  end.
Definition suspends (a : action) : bool := match a with Key ev => ev_ascii ev =? 26 | Read _ => false end.
Definition readable (a : action) : bool := match a with Key _ => true | Read capacity => 0 <=? capacity end.

(** The statics at boot. *)
Definition line_start (g : option sigstate) (rows : Z) : line :=
  mk_line (replicate 256 0) 0 (replicate 8 (replicate 256 0)) (replicate 256 0) 0 (-1) false false g rows [].

Lemma repr_start g rows : repr (line_start g rows) ed_empty.
Proof.
  constructor; try done.
  - split; [done|]. split; [by exists (replicate 255 0)|done].
  - by apply Forall_replicate.
  - simpl. lia.
Qed.

Lemma line_action_wp a s e : readable a = true → repr s e →
  wp (line_action a) (λ r s', let '(e', r', sig) := ed_action a e in r = r' ∧ moves s e e' sig (negb (suspends a)) s') s.
Proof.
  intros Ha Hs. destruct a as [ev|capacity]; simpl.
  - apply wp_bind. eapply wp_mono; [by apply line_handle_wp|]. intros r s'. unfold outcome.
    destruct (ed_event ev e) as [[e' r'] sig]. intros [-> H]. by apply wp_ret.
  - simpl in Ha. eapply wp_mono; [apply line_read_wp; [lia|done]|]. intros r s'. unfold read_outcome.
    by destruct (ed_read capacity e) as [e' r'].
Qed.

Lemma line_run_wp acts : ∀ s e, forallb readable acts = true → repr s e →
  wp (line_run acts) (λ rs s', let '(e', rs', sigs) := ed_run acts e in
    rs = rs' ∧ repr s' e' ∧ current_signals s' = foldl (λ g sig, raised sig g) (current_signals s) sigs ∧
    ∃ new, calls s' = calls s ++ new ∧
      (existsb suspends acts = false → ∀ d, displays (ed_row e) d → displays (ed_row e') (show new d))) s.
Proof.
  induction acts as [|a acts IH]; intros s e Hok Hs; simpl.
  - apply wp_ret. repeat (split; [done|]). exists []. split; [by rewrite app_nil_r|done].
  - simpl in Hok. apply andb_true_iff in Hok as [Ha Hok]. apply wp_bind.
    eapply wp_mono; [by apply (line_action_wp a s e)|]. intros r s1. destruct (ed_action a e) as [[e1 r1] sig].
    intros [-> (H1 & _ & Hsig & new & Hc & Hd)]. apply wp_bind. eapply wp_mono; [by apply (IH s1 e1)|]. intros rs s2.
    destruct (ed_run acts e1) as [[e2 rs2] sigs]. intros (-> & H2 & Hsigs & new2 & Hc2 & Hd2). apply wp_ret.
    split; [done|]. split; [done|]. split; [simpl; by rewrite Hsigs, Hsig|].
    exists (new ++ new2). split; [by rewrite Hc2, Hc, app_assoc|]. intros Hq d Hd0. apply orb_false_iff in Hq as [Hq1 Hq2].
    rewrite show_app. apply Hd2; [done|]. apply Hd; [by rewrite Hq1|done].
Qed.

(** C38: The line editor refines the abstract editor: along every sequence of key
    events and non-blocking reads from boot, no access leaves the arrays, the
    results, the texts read and the signals raised are those of the abstract
    editor, the arrays hold its text, history and draft, and - unless Ctrl+Z is
    typed, which starts a row without clearing the text - the echoed characters
    leave the terminal row showing the text with the cursor behind it. *)
Theorem line_editor_refines acts g rows : forallb readable acts = true →
  let '(e, results, sigs) := ed_run acts ed_empty in
  ∃ s, line_run acts (line_start g rows) = Some (results, s) ∧ repr s e ∧
    current_signals s = foldl (λ g sig, raised sig g) g sigs ∧
    (existsb suspends acts = false → displays (ed_row e) (show (calls s) ([], []))).
Proof.
  intros Hok. pose proof (line_run_wp acts _ _ Hok (repr_start g rows)) as H. apply wp_run in H as (rs & s & E & H).
  destruct (ed_run acts ed_empty) as [[e results] sigs]. destruct H as (-> & Hs & Hsig & new & Hc & Hd).
  exists s. repeat (split; [done|]). intros Hq. rewrite Hc. by apply Hd.
Qed.

(** Typing "ab", erasing, Enter, reading, and recalling the line. *)
Lemma line_editor_refines_witness :
  let acts := (Key ∘ char_event <$> [97; 98; 8; 10]) ++ [Read 100; Key (mk_event KEY_EVENT_PRESS KEY_UP 0)] in
  let '(e, results, sigs) := ed_run acts ed_empty in
  e = mk_editor [97] [[97]] (Some (0%nat, [])) false false ∧ last (take 5 results) = Some (1, [97; 0]) ∧
  ∃ s, line_run acts (line_start None 25) = Some (results, s) ∧ repr s e ∧
    current_signals s = foldl (λ g sig, raised sig g) None sigs ∧
    (existsb suspends acts = false → displays (ed_row e) (show (calls s) ([], []))).
Proof.
  intros acts. exact (conj eq_refl (conj eq_refl (line_editor_refines acts None 25 eq_refl))).
Defined.

(** ** Typing on the keyboard *)

(** The scan code of the key for the character, with or without shift. *)
Definition find_code (shift : bool) (c : Z) : option Z :=
  snd <$> list_find (λ code, keymap_translate_ascii (translate_scancode code false) shift false = c) (Z.of_nat <$> seq 0 58).
(** The scan codes that type a character: the key and its release, between
    those of the left shift when it takes one. *)
Definition strokes (c : Z) : list Z :=
  match find_code false c, find_code true c with
  | Some code, _ => [code; code + 128]
  | None, Some code => [0x2A; code; code + 128; 0xAA]
  | None, None => []
  end.

Fixpoint keyboard_run (codes : list Z) : cmd (keyboard * line) unit :=
  match codes with [] => mret tt | code :: codes => keyboard_handle_scancode code;; keyboard_run codes end.
(** The events of a sequence of scan codes. *)
Fixpoint scancode_events (codes : list Z) (k : keyboard) : keyboard * list key_event :=
  match codes with
  | [] => (k, [])
  | code :: codes =>
      let '(k, ev) := keyboard_scancode code k in
      let '(k, evs) := scancode_events codes k in
      (k, match ev with Some ev => ev :: evs | None => evs end)
  end.

#[global] Instance keyboard_eq_dec : EqDecision keyboard.
Proof. solve_decision. Defined.
#[global] Instance key_event_eq_dec : EqDecision key_event.
Proof. solve_decision. Defined.

(** A press of a key that is not one of the editor's, with the character, and
    a release. *)
Definition types (c : Z) (evs : list key_event) : bool :=
  match evs with
  | [p; r] =>
      bool_decide (ev_type p = KEY_EVENT_PRESS) && (ev_ascii p =? c) && bool_decide (ev_type r = KEY_EVENT_RELEASE) &&
      bool_decide (ev_keycode p ∉ [KEY_UP; KEY_DOWN; KEY_PAGE_UP; KEY_PAGE_DOWN; KEY_F12])
  | _ => false
  end.
Definition strokes_type (c : Z) : bool :=
  let '(k, evs) := scancode_events (strokes c) keyboard_reset in bool_decide (k = keyboard_reset) && types c evs.

Lemma strokes_checked : forallb strokes_type (seqZ 32 95) = true.
Proof. vm_compute. reflexivity. Qed.

Lemma strokes_ok c : 32 <= c <= 126 → strokes_type c = true.
Proof. intros H. apply (proj1 (forallb_forall _ _) strokes_checked), list_elem_of_In, elem_of_seqZ. lia. Qed.

Lemma ed_plain p e : ev_type p = KEY_EVENT_PRESS → ev_keycode p ∉ [KEY_UP; KEY_DOWN; KEY_PAGE_UP; KEY_PAGE_DOWN; KEY_F12] →
  ed_ready e = false → ed_eof e = false → ed_event p e = ed_char (ev_ascii p) e.
Proof.
  intros H1 H2 H3 H4. unfold ed_event. rewrite H1, H3, H4, !bool_decide_eq_false_2; [|set_solver|tauto].
  cbn [orb]. revert H2. destruct (ev_keycode p); try done; set_solver.
Qed.

Lemma line_run_key ev acts s :
  line_run (Key ev :: acts) s =
    match line_handle_keyevent (Some ev) s with
    | Some (r, s1) => match line_run acts s1 with Some (rs, s2) => Some ((r, []) :: rs, s2) | None => None end
    | None => None
    end.
Proof.
  cbn [line_run line_action]. unfold mbind, cmd_bind. destruct (line_handle_keyevent (Some ev) s) as [[r s1]|]; [|done].
  cbn. by destruct (line_run acts s1) as [[rs s2]|].
Qed.

(** Scan codes act as the events they stand for. *)
Lemma keyboard_run_events codes : ∀ k s,
  keyboard_run codes (k, s) =
    match line_run (Key <$> snd (scancode_events codes k)) s with
    | Some (_, s') => Some (tt, (fst (scancode_events codes k), s'))
    | None => None
    end.
Proof.
  induction codes as [|code codes IH]; intros k s; [done|]. cbn [keyboard_run scancode_events].
  unfold mbind at 1, cmd_bind at 1, keyboard_handle_scancode at 1.
  destruct (keyboard_scancode code k) as [k1 [ev|]] eqn:Ek.
  - specialize (IH k1). destruct (scancode_events codes k1) as [k2 evs] eqn:Ev. cbn [fst snd] in *.
    rewrite fmap_cons, line_run_key. destruct (line_handle_keyevent (Some ev) s) as [[r s1]|]; [|done]. rewrite IH.
    by destruct (line_run (Key <$> evs) s1) as [[? ?]|].
  - rewrite IH. by destruct (scancode_events codes k1) as [k2 evs].
Qed.

Lemma scancode_events_app a b k :
  scancode_events (a ++ b) k =
    let '(k1, e1) := scancode_events a k in let '(k2, e2) := scancode_events b k1 in (k2, e1 ++ e2).
Proof.
  revert k. induction a as [|c a IH]; intros k; simpl.
  - by destruct (scancode_events b k).
  - destruct (keyboard_scancode c k) as [k1 ev]. rewrite IH. destruct (scancode_events a k1) as [k2 e1].
    destruct (scancode_events b k2) as [k3 e2]. by destruct ev.
Qed.

(** Typing a text inserts it. *)
Lemma typed_text t : ∀ e, Forall (λ c, 32 <= c <= 126) t → ed_ready e = false → ed_eof e = false →
  (length (ed_text e) + length t ≤ 255)%nat →
  fst (scancode_events (t ≫= strokes) keyboard_reset) = keyboard_reset ∧
  fst (fst (ed_run (Key <$> snd (scancode_events (t ≫= strokes) keyboard_reset)) e)) =
    match t with [] => e | _ => ed_show e None (ed_text e ++ t) end ∧
  Forall (λ a, readable a = true) (Key <$> snd (scancode_events (t ≫= strokes) keyboard_reset)).
Proof.
  induction t as [|c t IH]; intros e Hok Hr Hf Hl; [done|]. apply Forall_cons in Hok as [Hc Hok]. simpl in Hl.
  change ((c :: t) ≫= strokes) with (strokes c ++ (t ≫= strokes)). rewrite scancode_events_app.
  pose proof (strokes_ok c Hc) as Hs. unfold strokes_type in Hs.
  destruct (scancode_events (strokes c) keyboard_reset) as [k evs]. apply andb_true_iff in Hs as [Hk Ht].
  apply bool_decide_eq_true_1 in Hk as ->. destruct evs as [|p [|r [|]]]; try done. simpl in Ht.
  rewrite !andb_true_iff in Ht. destruct Ht as [[[H1 H2] H3] H4].
  apply bool_decide_eq_true_1 in H1, H3, H4. apply Z.eqb_eq in H2.
  assert (Ep : ed_event p e = (ed_show e None (ed_text e ++ [c]), 0, None)).
  { rewrite ed_plain by done. rewrite H2. unfold ed_char. rewrite !(proj2 (Z.eqb_neq c _)) by lia. cbn [orb].
    rewrite (proj2 (Z.leb_le _ _)), bool_decide_eq_true_2 by lia. done. }
  assert (Er : ∀ e, ed_event r e = (e, 0, None)).
  { intros e'. unfold ed_event. by rewrite H3. }
  destruct (IH (ed_show e None (ed_text e ++ [c])) Hok Hr Hf) as (Ik & Ie & Ir); [simpl; rewrite length_app; simpl; lia|].
  destruct (scancode_events (t ≫= strokes) keyboard_reset) as [k2 evs2]. cbn [fst snd app] in *. split; [done|].
  rewrite !fmap_cons. cbn [ed_run ed_action]. rewrite Ep, Er.
  revert Ie. destruct (ed_run (Key <$> evs2) _) as [[e2 rs] sigs]. intros Ie. split; [|by repeat (apply Forall_cons; split)].
  cbn [fst snd] in *. rewrite Ie. destruct t; [done|]. unfold ed_show. simpl. by rewrite <-app_assoc.
Qed.

Lemma ed_run_app a b e : fst (fst (ed_run (a ++ b) e)) = fst (fst (ed_run b (fst (fst (ed_run a e))))).
Proof.
  revert e. induction a as [|x a IH]; intros e; [done|]. cbn [app ed_run]. destruct (ed_action x e) as [[e1 r] sig].
  specialize (IH e1). destruct (ed_run (a ++ b) e1) as [[? ?] ?], (ed_run a e1) as [[? ?] ?]. exact IH.
Qed.

(** The presses and releases that type the text and Enter. *)
Definition typing (t : cstring) : list Z := (t ≫= strokes) ++ [0x1C; 0x1C + 128].
Definition ed_typed (t : cstring) (e : editor) : editor := ed_submit None (ed_show e None t).

Lemma typed_line t e : Forall (λ c, 32 <= c <= 126) t → (length t ≤ 255)%nat →
  ed_text e = [] → ed_browse e = None → ed_ready e = false → ed_eof e = false →
  let '(k, evs) := scancode_events (typing t) keyboard_reset in
  k = keyboard_reset ∧ fst (fst (ed_run (Key <$> evs) e)) = ed_typed t e ∧ forallb readable (Key <$> evs) = true.
Proof.
  intros Ht Hl E0 Eb Hr Hf. unfold typing. rewrite scancode_events_app.
  destruct (typed_text t e Ht Hr Hf) as (Ik & Ie & Ir); [rewrite E0; simpl; lia|].
  destruct (scancode_events (t ≫= strokes) keyboard_reset) as [k evs]. cbn [fst snd] in *. subst k.
  set (b := scancode_events [_; _] _). vm_compute in b. subst b. cbn iota. split; [done|]. rewrite fmap_app. split.
  - rewrite ed_run_app, Ie. replace (match t with [] => e | _ => _ end) with (ed_show e None t).
    2: { rewrite E0. destruct t; [|done]. destruct e. simpl in *. by subst. }
    unfold ed_typed, ed_show. cbn. rewrite Hr, Hf. cbn. rewrite ?Hr, ?Hf. reflexivity.
  - apply forallb_forall. intros a Ha%list_elem_of_In. apply elem_of_app in Ha as [Ha|Ha].
    + by apply (proj1 (Forall_forall _ _) Ir).
    + repeat (apply elem_of_cons in Ha as [->|Ha]; [done|]). by apply not_elem_of_nil in Ha.
Qed.

(** The keyboard, the key map and the line editor together: from the state
    after initialisation, pressing and releasing the keys of any text of at
    most 255 printable ASCII characters and then Enter makes [line_scan] return
    that text, NUL terminated, and its length, with every shift released and
    the editor ready for the next line, the text being in its history. *)
Theorem keyboard_types_line t capacity others fuel k0 s0 e0 :
  repr s0 e0 → Forall (λ c, 32 <= c <= 126) t → (length t ≤ 255)%nat → Z.of_nat (length t) < capacity →
  ∃ s s', (keyboard_init;; keyboard_run (typing t)) (k0, s0) = Some (tt, (keyboard_reset, s)) ∧
    line_scan others (S fuel) true capacity s = Some ((Z.of_nat (length t), t ++ [0]), s') ∧
    repr s' (mk_editor [] (ed_remember t (ed_history e0)) None false false).
Proof.
  intros H0 Ht Hl Hcap.
  assert (Hi : wp line_reset (λ _ s1, repr s1 (mk_editor [] (ed_history e0) None false false)) s0).
  { apply (line_reset_wp _ s0 e0 H0). auto. }
  apply wp_run in Hi as ([] & s1 & E1 & H1). set (e1 := mk_editor _ _ _ _ _) in H1.
  pose proof (typed_line t e1 Ht Hl eq_refl eq_refl eq_refl eq_refl) as Hev.
  destruct (scancode_events (typing t) keyboard_reset) as [k evs] eqn:Ek. destruct Hev as (-> & Ee & Hok).
  pose proof (line_run_wp _ s1 e1 Hok H1) as Hrun. apply wp_run in Hrun as (rs & s & E2 & H2).
  destruct (ed_run (Key <$> evs) e1) as [[e2 rs2] sigs]. cbn [fst] in Ee. subst e2. destruct H2 as (_ & H2 & _).
  pose proof (line_read_wp others fuel capacity s _ ltac:(lia) H2) as Hread.
  assert (Hscan : line_scan others (S fuel) true capacity s = line_read others (S fuel) true capacity false s).
  { assert (Hw : ∀ wait, line_wait others (S fuel) wait s = Some (true, s)).
    { intros wait. cbn [line_wait]. unfold mbind at 1, cmd_bind at 1, cget at 1. by rewrite (r_ready _ _ H2). }
    unfold line_scan, line_read. destruct (_ || _); [done|]. unfold mbind, cmd_bind. by rewrite !Hw. }
  apply wp_run in Hread as (r & s' & E3 & H3). exists s, s'. split; [|split].
  - unfold mbind, cmd_bind, keyboard_init. rewrite E1, keyboard_run_events, Ek. cbn [fst snd]. by rewrite E2.
  - rewrite Hscan, E3. unfold read_outcome, ed_read in H3. cbn in H3.
    rewrite (proj2 (Z.eqb_neq _ _)), (proj2 (Z.leb_gt _ _)) in H3 by lia. cbn in H3. by destruct H3 as [-> _].
  - unfold read_outcome, ed_read in H3. cbn in H3.
    rewrite (proj2 (Z.eqb_neq _ _)), (proj2 (Z.leb_gt _ _)) in H3 by lia. cbn in H3. apply H3.
Qed.

(** "Hi", with a shift. *)
Lemma keyboard_types_line_witness :
  ∃ s s', (keyboard_init;; keyboard_run (typing [72; 105])) (mk_keyboard true false true false, line_start None 25) = Some (tt, (keyboard_reset, s)) ∧
    line_scan (mret tt) 1 true 64 s = Some ((2, [72; 105; 0]), s') ∧ repr s' (mk_editor [] [[72; 105]] None false false).
Proof.
  apply (keyboard_types_line [72; 105] 64 (mret tt) 0 (mk_keyboard true false true false) (line_start None 25) ed_empty).
  - apply repr_start.
  - repeat (apply Forall_cons; split; [lia|]). by apply Forall_nil.
  - simpl. lia.
  - simpl. lia.
Defined.

End Input.
