(* ===== verification/Spaces.v ===== *)
(** * Several address spaces in one memory

    The kernel's directory, the one that is switched to and the one that is
    being built hold tables in common.  This file says what
    [paging_map_page] and the temporary mapping of [src/kernel/mm/paging.c] do
    to all of them at once, and which frames they leave alone. *)

From S2P Require Import Prelude Pmm Paging.
Import Pmm Paging.

Module Spaces.

(** ** Invariant *)

Definition used (s : machine) (f : Z) : Prop := flags (frames s) !! Z.to_nat (f / 4096) = Some true.
Definition present (s : machine) (p i : Z) : Prop := has (entry_at p i s) PAGE_PRESENT = true.
Definition table (s : machine) (p i : Z) : Z := frame_of (entry_at p i s).
Definition is_index (i : Z) : Prop := 0 <= i < 1024.
#[global] Instance used_dec s f : Decision (used s f).
Proof. unfold used. apply _. Defined.
#[global] Instance present_dec s p i : Decision (present s p i).
Proof. unfold present. apply _. Defined.

(** The directories of [S]: they and their tables are frames in use, no table
    is a directory, and a frame is a table at one index only. *)
Record spaces_ok (s : machine) (S : list Z) : Prop := {
  sp_wf : wf (frames s);
  sp_page p : p ∈ S → is_page p ∧ p ≠ 0 ∧ used s p;
  sp_table p i : p ∈ S → is_index i → present s p i →
    (table s p i ∉ S) ∧ used s (table s p i) ∧ has (entry_at p i s) PAGE_RW = true;
  sp_once p q i j : p ∈ S → q ∈ S → is_index i → is_index j → present s p i → present s q j →
    table s p i = table s q j → i = j
}.
(** A frame in use that holds no directory and no table. *)
Definition data (s : machine) (S : list Z) (f : Z) : Prop :=
  is_page f ∧ used s f ∧ (f ∉ S) ∧ ∀ p i, p ∈ S → is_index i → present s p i → table s p i ≠ f.
(** Two directories have the table at an index in common. *)
Definition shares (s : machine) (p q i : Z) : Prop := present s p i ∧ present s q i ∧ table s p i = table s q i.
#[global] Instance shares_dec s p q i : Decision (shares s p q i).
Proof. unfold shares. apply _. Defined.

Lemma table_page s p i : is_page (table s p i).
Proof. apply frame_of_page. Qed.

(** ** Mapping a page *)

Record map_done (s : machine) (S : list Z) (p virt pte : Z) (user : bool) (s' : machine) : Prop := {
  md_rest : only_mem s s' ∧ total_frames_count (frames s') = total_frames_count (frames s);
  md_ok : spaces_ok s' S;
  md_used f : used s f → used s' f;
  md_dir q i : q ∈ S → is_index i → q ≠ p ∨ i ≠ pd_index virt → entry_at q i s' = entry_at q i s;
  md_pde : present s' p (pd_index virt) ∧
    ((present s p (pd_index virt) ∧ has (entry_at p (pd_index virt) s) PAGE_USER = true) ∨ user = true → has (entry_at p (pd_index virt) s') PAGE_USER = true);
  md_kept : present s p (pd_index virt) → table s' p (pd_index virt) = table s p (pd_index virt);
  md_fresh : ¬ present s p (pd_index virt) → ¬ used s (table s' p (pd_index virt)) ∧
    ∀ i, is_index i → entry_at (table s' p (pd_index virt)) i s' = if decide (i = pt_index virt) then pte else 0;
  md_word t i : is_page t → is_index i → t ∉ S → used s t →
    entry_at t i s' = if decide (t = table s' p (pd_index virt) ∧ i = pt_index virt) then pte else entry_at t i s
}.

Lemma spaces_space s S p : spaces_ok s S → p ∈ S → space_ok s p.
Proof.
  intros H Hp. destruct (sp_page _ _ H p Hp) as (? & ? & ?). split; [done..| |].
  - intros i Hi Hpi. destruct (sp_table _ _ H p i Hp Hi Hpi) as (Hn & ? & _). split; [|done].
    intros E. apply Hn. unfold table. by rewrite E.
  - intros i j Hi Hj Hpi Hpj E. by apply (sp_once _ _ H p p i j).
Qed.

Lemma kept_done s S p virt pte (user : bool) s' :
  spaces_ok s S → p ∈ S → 0 <= virt < 2 ^ 32 → only_mem s s' →
  let pde := entry_at p (pd_index virt) s in
  has pde PAGE_PRESENT = true → frames s' = frames s →
  (∀ j, mem s' j = if j =? frame_of pde / 4 + pt_index virt then pte
                   else if j =? p / 4 + pd_index virt then (if user then Z.lor pde PAGE_USER else pde) else mem s j) →
  map_done s S p virt pte user s'.
Proof.
  intros Hok Hp Hv Honly pde Hpre Hfr Hmem.
  pose proof (pd_index_range virt) as Hi. pose proof (pt_index_range virt) as Hj. destruct (sp_page _ _ Hok p Hp) as (Hpp & _ & Hpu).
  destruct (sp_table _ _ Hok p _ Hp Hi Hpre) as (HTS & HTu & HTrw). unfold table in HTS, HTu. fold pde in HTS, HTu, HTrw.
  pose proof (frame_of_page pde) as HTp.
  set (pde' := if user then Z.lor pde PAGE_USER else pde) in *.
  assert (frame_of pde' = frame_of pde ∧ has pde' PAGE_PRESENT = true ∧ has pde' PAGE_RW = true ∧
          (has pde PAGE_USER = true ∨ user = true → has pde' PAGE_USER = true)) as (Ef & Ep & Erw & Eu).
  { unfold pde'. destruct user; [|naive_solver]. rewrite frame_of_add_user. split; [done|].
    rewrite has_present in Hpre. rewrite has_rw in HTrw. rewrite has_present, has_rw, !(has_user (Z.lor _ _)), !Z.lor_spec.
    fold pde in Hpre. rewrite Hpre, HTrw. split_and!; [done|done|]. intros _. apply orb_true_r. }
  assert (Hdir : ∀ q i, q ∈ S → is_index i →
    entry_at q i s' = if decide (q = p ∧ i = pd_index virt) then pde' else entry_at q i s).
  { intros q i Hq Hir. destruct (sp_page _ _ Hok q Hq) as (Hqp & _ & _). unfold entry_at. rewrite Hmem, !word_eq by done.
    rewrite (bool_decide_false (q = frame_of pde ∧ _)) by (intros [-> _]; done).
    case_bool_decide; case_decide; naive_solver. }
  assert (Hsame : ∀ q i, q ∈ S → is_index i → (present s' q i ↔ present s q i) ∧ table s' q i = table s q i).
  { intros q i Hq Hir. unfold present, table. rewrite Hdir by done. case_decide as E; [|done]. destruct E as [-> ->].
    fold pde. by rewrite Ef, Ep. }
  assert (ET : table s' p (pd_index virt) = frame_of pde) by (apply Hsame; done).
  assert (Hu : ∀ f, used s f → used s' f) by (intros f; unfold used; by rewrite Hfr).
  split; [by rewrite Hfr| |done| | | | |].
  + split; [rewrite Hfr; apply Hok| | |].
    * intros q Hq. destruct (sp_page _ _ Hok q Hq) as (? & ? & ?). auto.
    * intros q i Hq Hir. destruct (Hsame q i Hq Hir) as [-> ->]. intros Hpi.
      destruct (sp_table _ _ Hok q i Hq Hir Hpi) as (? & ? & ?). split_and!; [done|auto|]. rewrite Hdir by done. by case_decide.
    * intros q r i k Hq Hr Hir Hkr. destruct (Hsame q i Hq Hir) as [-> ->], (Hsame r k Hr Hkr) as [-> ->].
      by apply (sp_once _ _ Hok).
  + intros q i Hq Hir Hne. rewrite Hdir by done. rewrite decide_False; [done|]. tauto.
  + unfold present. rewrite Hdir by done. rewrite decide_True by done. fold pde. tauto.
  + intros _. by rewrite ET.
  + intros Hn. by destruct Hn.
  + intros t i Ht Hir HtS _. rewrite ET. unfold entry_at. rewrite Hmem, !word_eq by done.
    rewrite (bool_decide_false (t = p ∧ _)) by (intros [-> _]; done). case_bool_decide; case_decide; naive_solver.
Qed.

Lemma fresh_done s S p virt pte (user : bool) s' N :
  spaces_ok s S → p ∈ S → 0 <= virt < 2 ^ 32 → only_mem s s' →
  let fl := Z.lor (Z.lor PAGE_PRESENT PAGE_RW) (if user then PAGE_USER else 0) in
  has (entry_at p (pd_index virt) s) PAGE_PRESENT = false → is_page N → wf (frames s') →
  flags (frames s) !! Z.to_nat (N / 4096) = Some false →
  flags (frames s') = <[Z.to_nat (N / 4096) := true]> (flags (frames s)) →
  total_frames_count (frames s') = total_frames_count (frames s) →
  (∀ j, mem s' j = if j =? N / 4 + pt_index virt then pte
                   else if j =? p / 4 + pd_index virt then Z.lor N fl
                   else if (N / 4 <=? j) && (j <? N / 4 + 1024) then 0 else mem s j) →
  map_done s S p virt pte user s'.
Proof.
  intros Hok Hp Hv Honly fl Hpre HN Hwf' Hfree Hfl Htot Hmem.
  pose proof (pd_index_range virt) as Hi. pose proof (pt_index_range virt) as Hj. destruct (sp_page _ _ Hok p Hp) as (Hpp & _ & Hpu).
  assert (¬ used s N) as HNu by (unfold used; by rewrite Hfree).
  assert (N ∉ S) as HNS by (intros H; destruct (sp_page _ _ Hok N H) as (_ & _ & ?); done).
  assert (frame_of (Z.lor N fl) = N ∧ has (Z.lor N fl) PAGE_PRESENT = true ∧ has (Z.lor N fl) PAGE_RW = true ∧
          (user = true → has (Z.lor N fl) PAGE_USER = true)) as (Ef & Ep & Erw & Eu).
  { rewrite has_present, has_rw, has_user, !Z.lor_spec. unfold fl. split; [apply frame_of_lor; [done|by destruct user]|].
    destruct user; cbn; rewrite ?orb_true_r; split_and!; done. }
  assert (Hdir : ∀ q i, q ∈ S → is_index i →
    entry_at q i s' = if decide (q = p ∧ i = pd_index virt) then Z.lor N fl else entry_at q i s).
  { intros q i Hq Hir. destruct (sp_page _ _ Hok q Hq) as (Hqp & _ & _). unfold entry_at.
    rewrite Hmem, !word_eq, in_page_word by done.
    rewrite (bool_decide_false (q = N ∧ _)), (bool_decide_false (N = q)) by naive_solver.
    case_bool_decide; case_decide; naive_solver. }
  assert (Htab : ∀ q i, q ∈ S → is_index i → ¬ (q = p ∧ i = pd_index virt) → present s q i → table s q i ≠ N).
  { intros q i Hq Hir _ Hpi E. destruct (sp_table _ _ Hok q i Hq Hir Hpi) as (_ & H & _). by rewrite E in H. }
  assert (ET : table s' p (pd_index virt) = N) by (unfold table; rewrite Hdir by done; by rewrite decide_True).
  assert (Hu : ∀ f, used s f → used s' f) by (intros f; unfold used; rewrite Hfl; apply used_stays).
  split; [by rewrite Htot| |done| | | | |].
  + split; [done| | |].
    * intros q Hq. destruct (sp_page _ _ Hok q Hq) as (? & ? & ?). auto.
    * intros q i Hq Hir. unfold present, table. rewrite Hdir by done. case_decide as E.
      { intros _. rewrite Ef. split_and!; [done| |done]. unfold used. rewrite Hfl. apply list_lookup_insert_eq. by eapply lookup_lt_Some. }
      intros Hpi. destruct (sp_table _ _ Hok q i Hq Hir Hpi) as (? & ? & ?). auto.
    * intros q r i k Hq Hr Hir Hkr. unfold present, table. rewrite !Hdir by done.
      case_decide as E1; case_decide as E2; rewrite ?Ef; intros H1 H2 H3; [naive_solver| | |by apply (sp_once _ _ Hok q r)].
      { by destruct (Htab r k Hr Hkr E2 H2). } { by destruct (Htab q i Hq Hir E1 H1). }
  + intros q i Hq Hir Hne. rewrite Hdir by done. rewrite decide_False; [done|]. tauto.
  + unfold present. rewrite Hdir by done. rewrite decide_True by done. split; [done|]. intros [[H _]|H]; [congruence|by apply Eu].
  + intros H. unfold present in H. congruence.
  + intros _. rewrite ET. split; [done|]. intros i Hir. unfold entry_at. rewrite Hmem, !word_eq, in_page_word by done.
    rewrite (bool_decide_false (N = p ∧ _)) by (intros [-> _]; done). rewrite (bool_decide_true (N = N)) by done.
    case_bool_decide; case_decide; tauto.
  + intros t i Ht Hir HtS Htu. rewrite ET. assert (t ≠ N) by congruence. unfold entry_at.
    rewrite Hmem, !word_eq, in_page_word by done.
    rewrite (bool_decide_false (t = N ∧ _)), (bool_decide_false (N = t)) by naive_solver.
    rewrite (bool_decide_false (t = p ∧ _)) by (intros [-> _]; done). rewrite decide_False by tauto. done.
Qed.

Lemma effect_done s S p virt pte user s' :
  spaces_ok s S → p ∈ S → 0 <= virt < 2 ^ 32 → only_mem s s' → map_effect s p virt pte user s' → map_done s S p virt pte user s'.
Proof. intros Hok Hp Hv Honly []; [by apply kept_done|by eapply fresh_done]. Qed.

(** What every space sees after the mapping. *)
Lemma done_view s S p virt pte user s' q a :
  spaces_ok s S → p ∈ S → q ∈ S → 0 <= virt < 2 ^ 32 → 0 <= a < 2 ^ 32 → map_done s S p virt pte user s' →
  mapping s' q a =
    if decide (a / 4096 = virt / 4096 ∧ shares s' p q (pd_index virt))
    then (if has pte PAGE_PRESENT then Some pte else None) else mapping s q a.
Proof.
  intros Hok Hp Hq Hv Ha [_ Hok' _ Hdir [Hpde _] Hkept Hfresh Hword].
  pose proof (pd_index_range a) as Hi. pose proof (pt_index_range a) as Hj. pose proof (pd_index_range virt) as Hiv.
  unfold mapping, translate. fold (table s' q (pd_index a)) (table s q (pd_index a)).
  destruct (decide (present s' q (pd_index a))) as [Hpre|Hpre].
  2: { assert (q ≠ p ∨ pd_index a ≠ pd_index virt) as Hne.
       { destruct (decide (q = p)); [|by left]. right. intros E. subst q. rewrite E in Hpre. done. }
       rewrite decide_False.
       - unfold present in Hpre. rewrite Hdir in Hpre |- * by done. by destruct (has (entry_at q _ s) _).
       - intros [Eg (_ & Hs & _)]. destruct (same_page a virt Ha Hv Eg) as [E _]. by rewrite <- E in Hs. }
  rewrite Hpre. cbn [negb].
  assert (Hiff : a / 4096 = virt / 4096 ∧ shares s' p q (pd_index virt) ↔
                 table s' q (pd_index a) = table s' p (pd_index virt) ∧ pt_index a = pt_index virt).
  { split.
    - intros [Eg (_ & _ & Es)]. destruct (same_page a virt Ha Hv Eg) as [E1 E2]. by rewrite E1.
    - intros [E1 E2]. assert (pd_index a = pd_index virt) as E by by apply (sp_once _ _ Hok' q p).
      split; [by apply indices_page|]. rewrite E in *. by split_and!. }
  destruct (decide (q = p ∧ pd_index a = pd_index virt)) as [[-> E]|Hne].
  - destruct (decide (present s p (pd_index virt))) as [Hold|Hold].
    + rewrite E in *. specialize (Hkept Hold). pose proof (sp_table _ _ Hok p _ Hp Hiv Hold) as (HnS & Hu & _).
      rewrite Hold. cbn [negb]. rewrite Hword by (done || rewrite Hkept; done || apply table_page). rewrite Hkept in *.
      rewrite (decide_ext _ _ _ _ Hiff). case_decide as Ed; [by destruct (has pte PAGE_PRESENT)|].
      by destruct (has (entry_at _ _ s) _).
    + rewrite E in *. destruct (Hfresh Hold) as [_ Hnew]. rewrite Hnew by done. unfold present in Hold.
      destruct (has (entry_at p (pd_index virt) s) PAGE_PRESENT); [done|]. cbn [negb].
      rewrite (decide_ext _ _ _ _ Hiff). destruct (decide (pt_index a = pt_index virt)) as [Et|Et].
      * rewrite decide_True by done. by destruct (has pte PAGE_PRESENT).
      * rewrite decide_False by tauto. done.
  - assert (q ≠ p ∨ pd_index a ≠ pd_index virt) as Hne' by (destruct (decide (q = p)); [right|left]; naive_solver).
    assert (table s' q (pd_index a) = table s q (pd_index a)) as Et by (unfold table; by rewrite Hdir).
    assert (present s q (pd_index a)) as Hold by (unfold present in *; by rewrite Hdir in Hpre).
    pose proof (sp_table _ _ Hok q _ Hq Hi Hold) as (HnS & Hu & _). rewrite Hold. cbn [negb].
    rewrite Et, Hword by (done || apply table_page). rewrite Et in Hiff. rewrite (decide_ext _ _ _ _ Hiff).
    case_decide; [by destruct (has pte PAGE_PRESENT)|by destruct (has (entry_at _ _ s) _)].
Qed.

(** ** What a sequence of changes leaves alone

    [W q g]: the page number [g] of the directory [q] may be mapped anew; [D f]:
    the frame [f] may be written. *)
Record quiet (W : Z → Z → Prop) (D : Z → Prop) (S : list Z) (s s' : machine) : Prop := {
  q_rest : kernel_pd s' = kernel_pd s ∧ cr3 s' = cr3 s ∧ current_pd s' = current_pd s ∧
           total_frames_count (frames s') = total_frames_count (frames s);
  q_ok : spaces_ok s' S;
  q_used f : used s f → used s' f;
  q_pde q i : q ∈ S → is_index i → present s q i →
    present s' q i ∧ (has (entry_at q i s) PAGE_USER = true → has (entry_at q i s') PAGE_USER = true);
  q_shares p q i : p ∈ S → q ∈ S → p ≠ q → is_index i → shares s' p q i → shares s p q i;
  q_view q a : q ∈ S → 0 <= a < 2 ^ 32 → ¬ W q (a / 4096) → mapping s' q a = mapping s q a;
  q_data f : data s S f → data s' S f ∧ (¬ D f → ∀ i, is_index i → entry_at f i s' = entry_at f i s)
}.
Definition none1 : Z → Prop := λ _, False.
Definition none2 : Z → Z → Prop := λ _ _, False.

Lemma quiet_trans W D S s1 s2 s3 : quiet W D S s1 s2 → quiet W D S s2 s3 → quiet W D S s1 s3.
Proof.
  intros H1 H2. destruct (q_rest _ _ _ _ _ H1) as (A1 & B1 & C1 & D1), (q_rest _ _ _ _ _ H2) as (A2 & B2 & C2 & D2).
  split.
  - by rewrite A2, B2, C2, D2.
  - apply H2.
  - intros f Hf. by apply (q_used _ _ _ _ _ H2), (q_used _ _ _ _ _ H1).
  - intros q i Hq Hi Hp. destruct (q_pde _ _ _ _ _ H1 q i Hq Hi Hp) as [Hp1 Hu1].
    destruct (q_pde _ _ _ _ _ H2 q i Hq Hi Hp1) as [Hp2 Hu2]. auto.
  - intros p q i Hp Hq Hne Hi Hs. apply (q_shares _ _ _ _ _ H1); try done. by apply (q_shares _ _ _ _ _ H2).
  - intros q a Hq Ha Hn. rewrite (q_view _ _ _ _ _ H2), (q_view _ _ _ _ _ H1); done.
  - intros f Hf. destruct (q_data _ _ _ _ _ H1 f Hf) as [Hf1 He1], (q_data _ _ _ _ _ H2 f (proj1 (q_data _ _ _ _ _ H1 f Hf))) as [Hf2 He2].
    split; [done|]. intros Hn i Hi. rewrite He2, He1; done.
Qed.

Lemma quiet_weaken W D W' D' S s s' :
  (∀ q g, q ∈ S → W q g → W' q g) → (∀ f, D f → D' f) → quiet W D S s s' → quiet W' D' S s s'.
Proof.
  intros HW HD []. split; try done.
  - intros q a Hq Ha Hn. apply q_view0; auto.
  - intros f Hf. destruct (q_data0 f Hf) as [? He]. split; [done|]. intros Hn. apply He. auto.
Qed.

Lemma quiet_frames W D S s s' : quiet W none1 S s s' → quiet W D S s s'.
Proof. by apply quiet_weaken; [|intros f []]. Qed.
Lemma quiet_views W D S s s' : quiet none2 D S s s' → quiet W D S s s'.
Proof. by apply quiet_weaken; [intros q g _ []|]. Qed.

(** The same memory and allocator. *)
Lemma quiet_same S s s' :
  spaces_ok s S → mem s' = mem s → frames s' = frames s →
  kernel_pd s' = kernel_pd s → cr3 s' = cr3 s → current_pd s' = current_pd s → quiet none2 none1 S s s'.
Proof.
  intros Hok Hm Hf Hk Hc Hp.
  assert (He : ∀ t i, entry_at t i s' = entry_at t i s) by (intros; unfold entry_at; by rewrite Hm).
  assert (Hu : ∀ f, used s' f ↔ used s f) by (intros; unfold used; by rewrite Hf).
  assert (Hpr : ∀ p i, present s' p i ↔ present s p i) by (intros; unfold present; by rewrite He).
  assert (Ht : ∀ p i, table s' p i = table s p i) by (intros; unfold table; by rewrite He).
  split; [by rewrite Hf| |by intros; apply Hu| | | |].
  - destruct Hok as [H1 H2 H3 H4]. split; [by rewrite Hf| | |].
    + intros p Hpp. rewrite Hu. by apply H2.
    + intros p i Hpp Hi. rewrite Hpr, Ht, Hu, He. by apply H3.
    + intros p q i j. rewrite !Hpr, !Ht. apply H4.
  - intros q i _ _. by rewrite Hpr, He.
  - intros p q i _ _ _ _. unfold shares. by rewrite !Hpr, !Ht.
  - intros q a _ _ _. unfold mapping, translate. by rewrite !He.
  - intros f (H1 & H2 & H3 & H4). split; [|by intros _ i _; rewrite He]. split_and!; [done|by apply Hu|done|].
    intros p i Hpp Hi. rewrite Hpr, Ht. by apply H4.
Qed.

Lemma quiet_refl S s : spaces_ok s S → quiet none2 none1 S s s.
Proof. intros. by apply quiet_same. Qed.

Lemma done_shares s S p virt pte user s' p' q i :
  spaces_ok s S → p ∈ S → map_done s S p virt pte user s' → p' ∈ S → q ∈ S → p' ≠ q → is_index i →
  shares s' p' q i → shares s p' q i.
Proof.
  intros Hok Hp [_ Hok' _ Hdir [Hpde _] Hkept Hfresh _] Hp' Hq Hne Hi (H1 & H2 & H3).
  assert (Hcase : ∀ r, r ∈ S → present s' r i →
    (present s r i ∧ table s' r i = table s r i) ∨ (r = p ∧ i = pd_index virt ∧ ¬ used s (table s' p i))).
  { intros r Hr Hpr. destruct (decide (r = p ∧ i = pd_index virt)) as [[-> ->]|Hn].
    - destruct (decide (present s p (pd_index virt))) as [Ho|Ho]; [left; auto|right]. by destruct (Hfresh Ho).
    - left. assert (r ≠ p ∨ i ≠ pd_index virt) as Hn' by (destruct (decide (r = p)); [right|left]; naive_solver).
      unfold present, table in *. rewrite Hdir in * by done. done. }
  pose proof (Hcase p' Hp' H1) as A. pose proof (Hcase q Hq H2) as B.
  destruct A as [[A1 A2]|(Ea & Ei & A)], B as [[B1 B2]|(Eb & Ej & B)].
  - split_and!; [done|done|congruence].
  - subst q. destruct B. rewrite <- H3, A2. by apply (sp_table _ _ Hok).
  - subst p'. destruct A. rewrite H3, B2. by apply (sp_table _ _ Hok).
  - congruence.
Qed.

Lemma done_data s S p virt pte user s' f :
  spaces_ok s S → p ∈ S → map_done s S p virt pte user s' → data s S f →
  data s' S f ∧ (∀ i, is_index i → entry_at f i s' = entry_at f i s).
Proof.
  intros Hok Hp [_ Hok' Hu Hdir [Hpde _] Hkept Hfresh Hword] (H1 & H2 & H3 & H4). pose proof (pd_index_range virt) as Hiv.
  assert (HT : table s' p (pd_index virt) ≠ f).
  { destruct (decide (present s p (pd_index virt))) as [Ho|Ho]; [rewrite Hkept by done; by apply H4|].
    destruct (Hfresh Ho) as [Hn _]. congruence. }
  split.
  - split_and!; [done|auto|done|]. intros q i Hq Hi Hpr. destruct (decide (q = p ∧ i = pd_index virt)) as [[-> ->]|Hn]; [done|].
    assert (q ≠ p ∨ i ≠ pd_index virt) as Hn' by (destruct (decide (q = p)); [right|left]; naive_solver).
    unfold present, table in *. rewrite Hdir in * by done. by apply H4.
  - intros i Hi. rewrite Hword by done. rewrite decide_False; [done|]. intros [E _]. by subst.
Qed.

Lemma done_quiet s S p virt pte user s' :
  spaces_ok s S → p ∈ S → 0 <= virt < 2 ^ 32 → map_done s S p virt pte user s' →
  quiet (λ q g, g = virt / 4096 ∧ (q = p ∨ shares s p q (pd_index virt))) none1 S s s'.
Proof.
  intros Hok Hp Hv Hd. pose proof (pd_index_range virt) as Hiv. pose proof Hd as [[Ho Ht] Hok' Hu Hdir [Hpde Huser] Hkept Hfresh _].
  unfold only_mem in Ho. split; [|done|done| | | |].
  - rewrite Ht. by rewrite Ho.
  - intros q i Hq Hi Hpr. destruct (decide (q = p ∧ i = pd_index virt)) as [[-> ->]|Hn]; [split; [done|]; auto|].
    assert (q ≠ p ∨ i ≠ pd_index virt) as Hn' by (destruct (decide (q = p)); [right|left]; naive_solver).
    unfold present in *. rewrite Hdir by done. done.
  - intros p' q i Hp' Hq Hne Hi. by apply (done_shares s S p virt pte user s').
  - intros q a Hq Ha Hn. rewrite (done_view s S p virt pte user s') by done. rewrite decide_False; [done|].
    intros [Eg Hs]. apply Hn. split; [done|]. destruct (decide (q = p)); [by left|right].
    by apply (done_shares s S p virt pte user s').
  - intros f Hf. destruct (done_data s S p virt pte user s' f Hok Hp Hd Hf) as [H1 H2]. split; [done|]. by intros _.
Qed.

(** No frame is left. *)
Definition full (s : machine) : Prop := all_used (frames s) (Z.to_nat (total_frames_count (frames s))).

Lemma full_quiet W D S s s' : quiet W D S s s' → full s → full s'.
Proof.
  intros H Hf k Hk. destruct (q_rest _ _ _ _ _ H) as (_ & _ & _ & E). rewrite E in Hk. specialize (Hf k Hk).
  pose proof (q_used _ _ _ _ _ H (Z.of_nat k * 4096)) as Hu. unfold used in Hu.
  replace (Z.to_nat (Z.of_nat k * 4096 / 4096)) with k in Hu by lia. auto.
Qed.

Lemma only_rest s s' : only_mem s s' → kernel_pd s' = kernel_pd s ∧ cr3 s' = cr3 s ∧ current_pd s' = current_pd s.
Proof. unfold only_mem. intros H. by rewrite H. Qed.

Lemma map_spaces_wp s S p virt phys fl :
  spaces_ok s S → p ∈ S → is_page virt → is_page phys →
  wp (paging_map_page p virt phys fl) (λ r s',
    (r = -1 ∧ full s ∧ quiet none2 none1 S s s') ∨
    (r = 0 ∧ map_done s S p virt (Z.lor phys (Z.land fl map_flags)) (has fl PAGE_USER) s')) s.
Proof.
  intros Hok Hp Hv Hph. destruct (sp_page _ _ Hok p Hp) as (_ & Hne & _).
  eapply wp_mono; [by apply map_page_effect; [apply Hok|..]|]. cbn beta.
  intros r s' [(-> & Hm & Hf & Ho & Hfull)|(-> & Ho & He)].
  - left. split_and!; [done|done|]. destruct (only_rest s s' Ho) as (? & ? & ?). by apply quiet_same.
  - right. split; [done|]. eapply effect_done; eauto. apply Hv.
Qed.

(** ** The temporary mapping *)

Definition temp_page (q g : Z) : Prop := g = TEMP_MAP_VADDR / 4096.
Definition temp_pte (phys : Z) : Z := Z.lor phys (Z.land (Z.lor PAGE_PRESENT PAGE_RW) map_flags).

Lemma temp_is_page : is_page TEMP_MAP_VADDR.
Proof. by_eval. Qed.

Lemma done_temp s S p pte user s' :
  spaces_ok s S → p ∈ S → map_done s S p TEMP_MAP_VADDR pte user s' → quiet temp_page none1 S s s'.
Proof.
  intros Hok Hp Hd. eapply quiet_weaken; [| |by apply (done_quiet _ _ _ _ _ _ _ Hok Hp (proj1 temp_is_page) Hd)].
  - intros q g _ [H _]. exact H.
  - done.
Qed.

(** Mapping [phys] at the temporary page of [p] keeps it there in the spaces
    that have it already. *)
Lemma temp_step_wp s S p phys :
  spaces_ok s S → p ∈ S → is_page phys →
  wp (paging_map_page p TEMP_MAP_VADDR phys (Z.lor PAGE_PRESENT PAGE_RW)) (λ r s',
    quiet temp_page none1 S s s' ∧
    ((r = -1 ∧ full s') ∨
     (r = 0 ∧ mapping s' p TEMP_MAP_VADDR = Some (temp_pte phys) ∧
      ∀ q, q ∈ S → mapping s q TEMP_MAP_VADDR = Some (temp_pte phys) → mapping s' q TEMP_MAP_VADDR = Some (temp_pte phys)))) s.
Proof.
  intros Hok Hp Hph. eapply wp_mono; [by apply map_spaces_wp; [| |apply temp_is_page|]|]. cbn beta.
  intros r s' [(-> & Hf & Hq)|(-> & Hd)].
  - split; [by eapply quiet_weaken; [..|exact Hq]|]. left. split; [done|]. by eapply full_quiet.
  - split; [by eapply done_temp|]. right. split; [done|].
    assert (Hpre : has (temp_pte phys) PAGE_PRESENT = true).
    { unfold temp_pte. rewrite has_present, Z.lor_spec. cbn. apply orb_true_r. }
    assert (Hview : ∀ q, q ∈ S → mapping s' q TEMP_MAP_VADDR =
      if decide (TEMP_MAP_VADDR / 4096 = TEMP_MAP_VADDR / 4096 ∧ shares s' p q (pd_index TEMP_MAP_VADDR)) then Some (temp_pte phys)
      else mapping s q TEMP_MAP_VADDR).
    { intros q Hq. pose proof (proj1 temp_is_page) as Ht.
      rewrite (done_view _ _ _ _ _ _ _ q TEMP_MAP_VADDR Hok Hp Hq Ht Ht Hd). fold (temp_pte phys). by rewrite Hpre. }
    split.
    + rewrite Hview by done. rewrite decide_True; [done|]. split; [done|]. destruct (md_pde _ _ _ _ _ _ _ Hd) as [? _]. by split_and!.
    + intros q Hq E. rewrite Hview by done. destruct (decide _); [done|exact E].
Qed.

Lemma temp_any_wp s S p phys fl :
  spaces_ok s S → p ∈ S → is_page phys →
  wp (paging_map_page p TEMP_MAP_VADDR phys fl) (λ r s', quiet temp_page none1 S s s') s.
Proof.
  intros Hok Hp Hph. eapply wp_mono; [by apply map_spaces_wp; [| |apply temp_is_page|]|]. cbn beta.
  intros r s' [(-> & Hf & Hq)|(-> & Hd)]; [by eapply quiet_weaken; [..|exact Hq]|by eapply done_temp].
Qed.

(** The directories that the kernel uses besides [pd]. *)
Definition in_kernel (S : list Z) (s : machine) : Prop := kernel_pd s ∈ S ∧ active_pd s ∈ S.

Lemma active_rest s s' : kernel_pd s' = kernel_pd s → current_pd s' = current_pd s → active_pd s' = active_pd s.
Proof. unfold active_pd. by intros -> ->. Qed.

Lemma quiet_kernel W D S s s' : quiet W D S s s' →
  kernel_pd s' = kernel_pd s ∧ cr3 s' = cr3 s ∧ active_pd s' = active_pd s.
Proof. intros H. destruct (q_rest _ _ _ _ _ H) as (A & B & C & _). split_and!; [done|done|by apply active_rest]. Qed.

Lemma paging_temp_map_wp s S pd phys :
  spaces_ok s S → in_kernel S s → pd ∈ S → is_page phys →
  wp (paging_temp_map_frame pd phys) (λ r s', quiet temp_page none1 S s s' ∧
    ((r = 0 ∧ full s') ∨ (r = TEMP_MAP_VADDR ∧ mapping s' (active_pd s) TEMP_MAP_VADDR = Some (temp_pte phys)))) s.
Proof.
  intros Hok [Hk Ha] Hpd Hph. pose proof (is_page) as _. assert (Hp0 : is_page 0) by by_eval.
  unfold paging_temp_map_frame. wp_step. wp_step. wp_step.
  eapply wp_mono; [by apply (temp_step_wp s S)|]. cbn beta. intros r s1 [Q1 [(-> & F1)|(-> & M1 & _)]].
  { change (negb (-1 =? 0)) with true. cbn iota. wp_step. split; [done|]. by left. }
  change (negb (0 =? 0)) with false. cbn iota. pose proof (q_ok _ _ _ _ _ Q1) as O1. wp_step.
  set (other := negb (active_pd s =? kernel_pd s) && negb (active_pd s =? pd)).
  apply (wp_mono _ (λ r s2, quiet temp_page none1 S s s2 ∧ ((r = -1 ∧ full s2) ∨
    (r = 0 ∧ mapping s2 (kernel_pd s) TEMP_MAP_VADDR = Some (temp_pte phys) ∧
     (other = true → mapping s2 (active_pd s) TEMP_MAP_VADDR = Some (temp_pte phys)))))).
  { destruct other.
    - eapply wp_mono; [by apply (temp_step_wp s1 S)|]. cbn beta. intros r s2 [Q2 H]. split; [exact (quiet_trans _ _ _ _ _ _ Q1 Q2)|].
      destruct H as [?|(-> & M2 & K2)]; [by left|right]. split_and!; [done|by apply K2|done].
    - wp_step. split; [done|]. right. by split_and!. }
  intros r s2 [Q2 [(-> & F2)|(-> & M2 & A2)]].
  { change (negb (-1 =? 0)) with true. cbn iota. wp_step. eapply wp_mono; [by apply (temp_any_wp s2 S); [apply Q2|..]|].
    intros ? s3 Q3. wp_step. split; [exact (quiet_trans _ _ _ _ _ _ Q2 Q3)|]. left. split; [done|]. exact (full_quiet _ _ _ _ _ Q3 F2). }
  change (negb (0 =? 0)) with false. cbn iota. wp_step. pose proof (q_ok _ _ _ _ _ Q2) as O2.
  apply (wp_mono _ (λ r s3, quiet temp_page none1 S s s3 ∧ ((r = -1 ∧ full s3) ∨
    (r = 0 ∧ mapping s3 (active_pd s) TEMP_MAP_VADDR = Some (temp_pte phys))))).
  { destruct (sp_page _ _ Hok pd Hpd) as (_ & Hpd0 & _). rewrite (proj2 (Z.eqb_neq pd 0)) by done. cbn [negb andb].
    assert (Hact : active_pd s = kernel_pd s ∨ active_pd s = pd ∨ other = true).
    { unfold other. destruct (Z.eqb_spec (active_pd s) (kernel_pd s)); [by left|]. destruct (Z.eqb_spec (active_pd s) pd); auto. }
    destruct (Z.eqb_spec pd (kernel_pd s)) as [Epk|Npk]; cbn [negb].
    - wp_step. split; [done|]. right. split; [done|]. destruct Hact as [->|[->|Ho]]; [done|by rewrite Epk|by apply A2].
    - eapply wp_mono; [by apply (temp_step_wp s2 S)|]. cbn beta. intros r s3 [Q3 H]. split; [exact (quiet_trans _ _ _ _ _ _ Q2 Q3)|].
      destruct H as [?|(-> & M3 & K3)]; [by left|right]. split; [done|].
      destruct Hact as [->|[->|Ho]]; [by apply K3|done|by apply K3, A2]. }
  intros r s3 [Q3 [(-> & F3)|(-> & M3)]].
  - change (negb (-1 =? 0)) with true. cbn iota. wp_step. eapply wp_mono; [by apply (temp_any_wp s3 S); [apply Q3|..]|].
    intros ? s4 Q4. pose proof (q_ok _ _ _ _ _ Q4) as O4. wp_step.
    assert (Q34 : quiet temp_page none1 S s s4) by exact (quiet_trans _ _ _ _ _ _ Q3 Q4). pose proof (full_quiet _ _ _ _ _ Q4 F3) as F4.
    fold other. destruct other; [|wp_step; wp_step; split; [done|by left]].
    eapply wp_mono; [by apply (temp_any_wp s4 S)|]. intros ? s5 Q5. wp_step. split; [exact (quiet_trans _ _ _ _ _ _ Q34 Q5)|].
    left. split; [done|]. exact (full_quiet _ _ _ _ _ Q5 F4).
  - change (negb (0 =? 0)) with false. cbn iota. wp_step. wp_step. wp_step.
    assert (Q4 : quiet none2 none1 S s3 (set_temp phys s3)) by (by apply quiet_same; [apply Q3|..]).
    split; [|by right]. eapply quiet_trans; [exact Q3|]. by eapply quiet_weaken; [..|exact Q4].
Qed.

Lemma paging_temp_unmap_wp s S pd :
  spaces_ok s S → in_kernel S s → pd ∈ S →
  wp (paging_temp_unmap_frame pd) (λ _ s', quiet temp_page none1 S s s') s.
Proof.
  intros Hok [Hk Ha] Hpd. assert (Hp0 : is_page 0) by by_eval.
  assert (Hopt : ∀ (b : bool) p s1 (Q : Z → machine → Prop), quiet temp_page none1 S s s1 → p ∈ S →
    (∀ r s2, quiet temp_page none1 S s s2 → Q r s2) → wp (if b then paging_map_page p TEMP_MAP_VADDR 0 0 else mret 0) Q s1).
  { intros b p s1 Q H1 Hp HQ. destruct b; [|wp_step; by apply HQ].
    eapply wp_mono; [by apply (temp_any_wp s1 S); [apply H1|..]|]. intros r s2 H2. apply HQ. exact (quiet_trans _ _ _ _ _ _ H1 H2). }
  unfold paging_temp_unmap_frame. wp_step. wp_step. wp_step.
  apply (Hopt true); [by eapply quiet_weaken; [..|by apply quiet_refl]|done|]. intros _ s1 Q1.
  wp_step. apply Hopt; [done|done|]. intros _ s2 Q2. wp_step. apply Hopt; [done|done|]. intros _ s3 Q3. wp_step.
  eapply quiet_trans; [exact Q3|]. eapply quiet_weaken; [..|by apply quiet_same; [apply Q3|..]]; done.
Qed.

(** ** Bytes *)

Lemma byte_of_word w i v j :
  0 <= v < 256 → 0 <= i < 4 → 0 <= j < 4 →
  (w - (w / 2 ^ (8 * i) mod 256) * 2 ^ (8 * i) + v * 2 ^ (8 * i)) / 2 ^ (8 * j) mod 256 =
  if decide (j = i) then v else w / 2 ^ (8 * j) mod 256.
Proof.
  intros Hv Hi Hj.
  assert (i = 0 ∨ i = 1 ∨ i = 2 ∨ i = 3) as Ei by lia. assert (j = 0 ∨ j = 1 ∨ j = 2 ∨ j = 3) as Ej by lia.
  destruct Ei as [->|[->|[->| ->]]], Ej as [->|[->|[->| ->]]]; case_decide; try lia; cbn [Z.mul Pos.mul];
    change (2 ^ 0) with 1; change (2 ^ 8) with 256; change (2 ^ 16) with 65536; change (2 ^ 24) with 16777216; lia.
Qed.

Lemma put_byte_at s a v b : 0 <= v < 256 → byte_at (put_byte a v s) b = if decide (b = a) then v else byte_at s b.
Proof.
  intros Hv. unfold byte_at, put_byte. cbn [mem set_mem]. destruct (Z.eqb_spec (b / 4) (a / 4)) as [E|E].
  - rewrite E. rewrite byte_of_word by lia. destruct (decide (b mod 4 = a mod 4)); case_decide; try lia; done.
  - rewrite decide_False; [done|]. by intros ->.
Qed.

Lemma byte_word s f x : is_page f → 0 <= x < 4096 → byte_at s (f + x) = entry_at f (x / 4) s / 2 ^ (8 * (x mod 4)) mod 256.
Proof.
  intros [Hf Hm] Hx. unfold byte_at, entry_at. replace ((f + x) / 4) with (f / 4 + x / 4) by lia.
  by replace ((f + x) mod 4) with (x mod 4) by lia.
Qed.

Lemma quiet_byte W D S s s' f x : quiet W D S s s' → data s S f → ¬ D f → 0 <= x < 4096 → byte_at s' (f + x) = byte_at s (f + x).
Proof.
  intros H Hf Hn Hx. pose proof Hf as (Hp & _). rewrite !byte_word by done.
  by rewrite (proj2 (q_data _ _ _ _ _ H f Hf) Hn) by (unfold is_index; lia).
Qed.

(** Writing in a data frame. *)
Lemma put_quiet s S f x v :
  spaces_ok s S → data s S f → 0 <= x < 4096 → quiet none2 (eq f) S s (put_byte (f + x) v s).
Proof.
  intros Hok (Hfp & Hfu & HfS & HfT) Hx. set (s' := put_byte (f + x) v s).
  assert (He : ∀ t i, is_page t → is_index i → t ≠ f → entry_at t i s' = entry_at t i s).
  { intros t i [Ht Htm] Hi Hne. destruct Hfp as [Hf Hm]. unfold is_index in Hi. unfold entry_at, s', put_byte. cbn [mem set_mem].
    destruct (Z.eqb_spec (t / 4 + i) ((f + x) / 4)); [lia|done]. }
  assert (Hdir : ∀ q i, q ∈ S → is_index i → entry_at q i s' = entry_at q i s).
  { intros q i Hq Hi. destruct (sp_page _ _ Hok q Hq) as (Hqp & _). apply He; [done..|]. by intros ->. }
  assert (Hpr : ∀ q i, q ∈ S → is_index i → (present s' q i ↔ present s q i) ∧ table s' q i = table s q i).
  { intros q i Hq Hi. unfold present, table. by rewrite Hdir. }
  split; [done| |done| | | |].
  - destruct Hok as [H1 H2 H3 H4]. split; [done|done| |].
    + intros q i Hq Hi. destruct (Hpr q i Hq Hi) as [-> ->]. rewrite Hdir by done. by apply H3.
    + intros p q i j Hp Hq Hi Hj. destruct (Hpr p i Hp Hi) as [-> ->], (Hpr q j Hq Hj) as [-> ->]. by apply H4.
  - intros q i Hq Hi. destruct (Hpr q i Hq Hi) as [-> _]. by rewrite Hdir.
  - intros p q i Hp Hq _ Hi. unfold shares. destruct (Hpr p i Hp Hi) as [-> ->], (Hpr q i Hq Hi) as [-> ->]. done.
  - intros q a Hq Ha _. unfold mapping, translate. pose proof (pd_index_range a) as Hi. rewrite Hdir by done.
    destruct (has (entry_at q (pd_index a) s) PAGE_PRESENT) eqn:E; cbn [negb]; [|done].
    rewrite He; [done|apply frame_of_page|apply pt_index_range|]. by apply (HfT q (pd_index a)).
  - intros t (H1 & H2 & H3 & H4). split.
    + split_and!; [done..|]. intros q i Hq Hi. destruct (Hpr q i Hq Hi) as [-> ->]. by apply H4.
    + intros Hn i Hi. apply He; [done..|]. congruence.
Qed.

(** What a pointer of the kernel to the temporary page reaches. *)
Lemma translate_mapping s p a pte : mapping s p a = Some pte → ∃ pde, translate s p a = Some (frame_of pte, pde, pte).
Proof.
  unfold mapping, translate. destruct (negb _); [done|]. destruct (negb _); [done|]. cbn. intros [= <-]. by eexists.
Qed.
Lemma temp_frame phys : is_page phys → frame_of (temp_pte phys) = phys.
Proof. intros H. unfold temp_pte. by apply frame_of_lor; [|by_eval]. Qed.

Lemma mapping_same_page s q a b : 0 <= a < 2 ^ 32 → 0 <= b < 2 ^ 32 → a / 4096 = b / 4096 → mapping s q a = mapping s q b.
Proof. intros Ha Hb H. destruct (same_page a b Ha Hb H) as [E1 E2]. unfold mapping, translate. by rewrite E1, E2. Qed.

Lemma store_temp_wp s S phys x v :
  spaces_ok s S → data s S phys → cr3 s ∈ S → mapping s (cr3 s) TEMP_MAP_VADDR = Some (temp_pte phys) → 0 <= x < 4096 →
  wp (store (TEMP_MAP_VADDR + x) v) (λ _ s', s' = put_byte (phys + x) v s) s.
Proof.
  intros Hok Hd Hc Hm Hx. pose proof (proj1 temp_is_page) as Ht. unfold store. wp_step. wp_step.
  assert (mapping s (cr3 s) (TEMP_MAP_VADDR + x) = Some (temp_pte phys)) as Hm'.
  { rewrite <- Hm. unfold TEMP_MAP_VADDR in *. apply mapping_same_page; lia. }
  destruct (translate_mapping _ _ _ _ Hm') as [pde ->]. wp_step. rewrite temp_frame by apply Hd.
  unfold TEMP_MAP_VADDR, PAGE_SIZE. by replace ((0xFEE00000 + x) mod 0x1000) with x by lia.
Qed.

(** [memcpy] and [memset] through the temporary page. *)
Lemma store_bytes_wp s S phys bs : ∀ x,
  spaces_ok s S → data s S phys → cr3 s ∈ S → mapping s (cr3 s) TEMP_MAP_VADDR = Some (temp_pte phys) →
  0 <= x → x + Z.of_nat (length bs) <= 4096 → Forall is_u8 bs →
  wp (store_bytes (TEMP_MAP_VADDR + x) bs) (λ _ s', quiet none2 (eq phys) S s s' ∧
    ∀ y, 0 <= y < 4096 → byte_at s' (phys + y) = default (byte_at s (phys + y)) (if x <=? y then bs !! Z.to_nat (y - x) else None)) s.
Proof.
  revert s. induction bs as [|b bs IH]; intros s x Hok Hd Hc Hm Hx Hl Hb; cbn [store_bytes].
  - wp_step. split; [by eapply quiet_weaken; [..|by apply quiet_refl]|]. intros y Hy. by destruct (x <=? y).
  - apply Forall_cons in Hb as [Hb Hbs]. cbn [length] in Hl. wp_step.
    eapply wp_mono; [apply (store_temp_wp s S phys x b); [done..|lia]|]. cbn beta. intros _ s1 ->.
    pose proof (put_quiet s S phys x b Hok Hd ltac:(lia)) as Q1. set (s1 := put_byte (phys + x) b s) in *.
    replace (TEMP_MAP_VADDR + x + 1) with (TEMP_MAP_VADDR + (x + 1)) by lia.
    destruct (quiet_kernel _ _ _ _ _ Q1) as (_ & E3 & _).
    eapply wp_mono; [apply (IH s1 (x + 1)); [apply Q1|by apply Q1|by rewrite E3| |lia|lia|done]|].
    { rewrite E3, (q_view _ _ _ _ _ Q1); [done|done|apply temp_is_page|by intros []]. }
    cbn beta. intros _ s2 [Q2 H2]. split; [exact (quiet_trans _ _ _ _ _ _ Q1 Q2)|].
    intros y Hy. rewrite H2 by done. unfold s1. rewrite put_byte_at by done.
    destruct (Z.leb_spec x y), (Z.leb_spec (x + 1) y); try lia.
    + replace (Z.to_nat (y - x)) with (Datatypes.S (Z.to_nat (y - (x + 1)))) by lia. cbn [lookup list_lookup].
      destruct (bs !! _); cbn; [done|]. rewrite decide_False by lia. done.
    + replace y with x by lia. rewrite Z.sub_diag. cbn. by rewrite decide_True.
    + cbn. by rewrite decide_False by lia.
Qed.

(** ** New frames *)

Lemma quiet_drop W D S s s' : (∀ f, D f → ¬ used s f) → quiet W D S s s' → quiet W none1 S s s'.
Proof.
  intros HD []. split; try done. intros f Hf. destruct (q_data0 f Hf) as [? He]. split; [done|]. intros _. apply He.
  intros HDf. destruct Hf as (_ & Hu & _). by apply (HD f).
Qed.

Lemma alloc_spaces_wp s S :
  spaces_ok s S →
  wp alloc_frame (λ f s', quiet none2 none1 S s s' ∧
    ((f = 0 ∧ full s') ∨ (f ≠ 0 ∧ data s' S f ∧ ¬ used s f))) s.
Proof.
  intros Hok. pose proof (sp_wf _ _ Hok) as Hwf. unfold alloc_frame. wp_step. eapply wp_mono; [by apply pmm_alloc_frame_wp|].
  intros f p' Hpost. cbn beta. destruct (decide (f = 0)) as [->|Hne].
  { destruct Hpost as [(_ & -> & Hall)|(g & ? & ? & _)]; [|lia].
    assert (quiet none2 none1 S s (set_frames (frames s) s)) as Q by (by apply quiet_same). split; [done|]. by left. }
  destruct (alloc_page s f p' Hwf Hpost Hne) as (Hf & Hwf' & Hfree & Hfl).
  assert (total_frames_count p' = total_frames_count (frames s)) as Htot
    by (by destruct Hpost as [[? _]|(g & _ & _ & _ & _ & _ & _ & ? & _)]).
  assert (¬ used s f) as Hnu by (unfold used; by rewrite Hfree).
  assert (∀ g, used s g → used (set_frames p' s) g) as Hu by (intros g; unfold used; cbn; rewrite Hfl; apply used_stays).
  assert (used (set_frames p' s) f) as Huf.
  { unfold used. cbn. rewrite Hfl. apply list_lookup_insert_eq. by eapply lookup_lt_Some. }
  split.
  - split; [by rewrite <- Htot| |done|done|done|done|].
    + destruct Hok as [H1 H2 H3 H4]. split; [done| | |done].
      * intros p Hp. destruct (H2 p Hp) as (? & ? & ?). auto.
      * intros p i Hp Hi Hpr. destruct (H3 p i Hp Hi Hpr) as (? & ? & ?). auto.
    + intros g (H1 & H2 & H3 & H4). split; [|done]. split_and!; auto.
  - right. split; [done|]. split; [|done]. split_and!; [done|done| |].
    + intros H. destruct (sp_page _ _ Hok f H) as (_ & _ & ?). done.
    + intros p i Hp Hi Hpr E. destruct (sp_table _ _ Hok p i Hp Hi Hpr) as (_ & H & _).
      change (table s p i = f) in E. by rewrite E in H.
Qed.

(** ** The pages of a program *)

Definition not_temp (a : Z) : Prop := a / 4096 ≠ TEMP_MAP_VADDR / 4096.
(** The frame that a user program sees at an address. *)
Definition user_frame (s : machine) (pd a : Z) : option Z :=
  pte ← mapping s pd a; if has pte PAGE_USER then Some (frame_of pte) else None.
(** The byte at an address of a space. *)
Definition space_byte (s : machine) (pd a : Z) : Z :=
  match translate s pd a with Some (f, _, _) => byte_at s (f + a mod PAGE_SIZE) | None => 0 end.
(** User pages are frames of their own. *)
Record program_ok (s : machine) (S : list Z) (pd : Z) : Prop := {
  pk_data a f : 0 <= a < 2 ^ 32 → not_temp a → user_frame s pd a = Some f → data s S f;
  pk_once a b f : 0 <= a < 2 ^ 32 → 0 <= b < 2 ^ 32 → not_temp a → not_temp b →
    user_frame s pd a = Some f → user_frame s pd b = Some f → a / 4096 = b / 4096
}.

(** A page that a program may write, in the frame [f]. *)
Definition user_page (s : machine) (pd a f : Z) : Prop :=
  has (entry_at pd (pd_index a) s) PAGE_USER = true ∧
  ∃ pte, mapping s pd a = Some pte ∧ has pte PAGE_RW = true ∧ has pte PAGE_USER = true ∧ frame_of pte = f.

Lemma user_page_frame s pd a f : user_page s pd a f → user_frame s pd a = Some f.
Proof. intros (_ & pte & E & _ & Hu & Ef). unfold user_frame. rewrite E. cbn. by rewrite Hu, Ef. Qed.

Lemma user_page_access s S pd a f :
  spaces_ok s S → pd ∈ S → user_page s pd a f → user_access s pd true a = true.
Proof.
  intros Hok Hp (Hpu & pte & Hm & Hrw & Hu & _). pose proof (pd_index_range a) as Hi.
  unfold mapping, translate in Hm. unfold user_access, entry_allows.
  destruct (has (entry_at pd (pd_index a) s) PAGE_PRESENT) eqn:Ep; [|done]. cbn [negb] in Hm.
  destruct (has (entry_at (frame_of (entry_at pd (pd_index a) s)) (pt_index a) s) PAGE_PRESENT) eqn:Et; [|done].
  cbn in Hm. injection Hm as ->. destruct (sp_table _ _ Hok pd _ Hp Hi Ep) as (_ & _ & ->). by rewrite Hpu, Hrw, Hu.
Qed.

Lemma user_page_byte s pd a f : user_page s pd a f → space_byte s pd a = byte_at s (f + a mod 4096).
Proof.
  intros (_ & pte & Hm & _ & _ & <-). unfold space_byte. by destruct (translate_mapping _ _ _ _ Hm) as [pde ->].
Qed.

Lemma mapping_present s pd a pte : mapping s pd a = Some pte → present s pd (pd_index a).
Proof. unfold mapping, translate, present. by destruct (has (entry_at pd (pd_index a) s) PAGE_PRESENT). Qed.

Lemma quiet_user_page W D S s s' pd a f :
  quiet W D S s s' → pd ∈ S → 0 <= a < 2 ^ 32 → ¬ W pd (a / 4096) → user_page s pd a f → user_page s' pd a f.
Proof.
  intros Q Hp Ha Hn (Hu & pte & Hm & H). destruct (q_pde _ _ _ _ _ Q pd (pd_index a) Hp (pd_index_range a)) as [_ Hu'].
  { by eapply mapping_present. }
  split; [auto|]. exists pte. by rewrite (q_view _ _ _ _ _ Q).
Qed.
End Spaces.
