(* ===== verification/Elf.v ===== *)
(** * The program loader

    [src/kernel/binfmt/elf.c] over the page tables of [Paging.v].  The two
    loaders of the source differ in where they read the image from, memory or a
    vnode; they are written once, over an interface that says what the kernel
    around them does.  The image and the buffers read from it are values; the
    blocks of the heap are their addresses. *)

From S2P Require Import Prelude Pmm Paging Spaces.
Import Pmm Paging Spaces.

Module Elf.

(** ** [elf.h] *)

Record Elf32_Ehdr := mk_ehdr {
  e_ident : list Z; e_type : Z; e_machine : Z; e_version : Z; e_entry : Z; e_phoff : Z; e_shoff : Z; e_flags : Z;
  e_ehsize : Z; e_phentsize : Z; e_phnum : Z; e_shentsize : Z; e_shnum : Z; e_shstrndx : Z
}.
Record Elf32_Phdr := mk_phdr {
  p_type : Z; p_offset : Z; p_vaddr : Z; p_paddr : Z; p_filesz : Z; p_memsz : Z; p_flags : Z; p_align : Z
}.
Definition SIZEOF_EHDR : Z := 52.
Definition SIZEOF_PHDR : Z := 32.
Definition ELFMAG : list Z := [0x7F; 69; 76; 70].
Definition EI_CLASS : nat := 4.
Definition EI_DATA : nat := 5.
Definition ELFCLASS32 : Z := 1.
Definition ELFDATA2LSB : Z := 1.
Definition ET_EXEC : Z := 2.
Definition EM_386 : Z := 3.
Definition PT_LOAD : Z := 1.

(** The structures laid over the bytes that were read. *)
Definition ehdr_of (b : list Z) : option Elf32_Ehdr :=
  type ← le16 b 16; machine ← le16 b 18; version ← le32 b 20; entry ← le32 b 24; phoff ← le32 b 28; shoff ← le32 b 32;
  flags ← le32 b 36; ehsize ← le16 b 40; phentsize ← le16 b 42; phnum ← le16 b 44; shentsize ← le16 b 46;
  shnum ← le16 b 48; shstrndx ← le16 b 50;
  Some (mk_ehdr (take 16 b) type machine version entry phoff shoff flags ehsize phentsize phnum shentsize shnum shstrndx).
Definition phdr_of (b : list Z) (at_ : nat) : option Elf32_Phdr :=
  type ← le32 b at_; offset ← le32 b (at_ + 4); vaddr ← le32 b (at_ + 8); paddr ← le32 b (at_ + 12); filesz ← le32 b (at_ + 16);
  memsz ← le32 b (at_ + 20); flags ← le32 b (at_ + 24); align ← le32 b (at_ + 28);
  Some (mk_phdr type offset vaddr paddr filesz memsz flags align).

Definition elf32_validate (eh : option Elf32_Ehdr) : Z :=
  match eh with
  | None => -1
  | Some eh =>
      if negb (bool_decide (take 4 (e_ident eh) = ELFMAG)) then -1 else
      if negb (bool_decide (e_ident eh !! EI_CLASS = Some ELFCLASS32)) then -1 else
      if negb (bool_decide (e_ident eh !! EI_DATA = Some ELFDATA2LSB)) then -1 else
      if negb (e_type eh =? ET_EXEC) then -1 else
      if negb (e_machine eh =? EM_386) then -1 else 0
  end.

(** ** The pages of a segment *)

Definition USER_RW : Z := Z.lor (Z.lor PAGE_PRESENT PAGE_USER) PAGE_RW.

(** The body of the first loop: a zeroed frame at [addr], the frame or NULL. *)
Definition map_one (pd addr : Z) : cmd machine (option Z) :=
  phys ← alloc_frame;
  if phys =? 0 then mret None else
  r ← paging_map_page pd addr phys USER_RW;
  if negb (r =? 0) then mret None else
  kpage ← paging_temp_map_frame pd phys;
  if kpage =? 0 then mret None else
  store_bytes kpage (replicate (Z.to_nat PAGE_SIZE) 0);;
  paging_temp_unmap_frame pd;;
  mret (Some phys).

(** [for (addr = page_start; addr < page_end; addr += page_size)]: the entries
    of [pages] that were filled. *)
Fixpoint map_pages (fuel : nat) (pd addr page_end : Z) : cmd machine (option (list (Z * Z))) :=
  match fuel with
  | O => cundef
  | S fuel =>
      if negb (addr <? page_end) then mret (Some []) else
      phys ← map_one pd addr;
      match phys with
      | None => mret None
      | Some phys =>
          rest ← map_pages fuel pd (u32 (addr + PAGE_SIZE)) page_end;
          mret (pages ← rest; Some ((addr, phys) :: pages))
      end
  end.

(** The second loop, from the page that takes the bytes from [copied] on. *)
Fixpoint copy_pages (pd : Z) (pages : list (Z * Z)) (first : bool) (page_off copied : Z) (seg_data : list Z) : cmd machine bool :=
  match pages with
  | [] => mret true
  | (_, phys) :: pages =>
      let seg_filesz := Z.of_nat (length seg_data) in
      if negb (copied <? seg_filesz) then mret true else
      kpage ← paging_temp_map_frame pd phys;
      if kpage =? 0 then mret false else
      let dst_off := if first then page_off else 0 in
      let space := PAGE_SIZE - dst_off in
      let remain := seg_filesz - copied in
      let chunk := if remain <? space then remain else space in
      store_bytes (kpage + dst_off) (slice (Z.to_nat copied) (Z.to_nat chunk) seg_data);;
      paging_temp_unmap_frame pd;;
      copy_pages pd pages false page_off (copied + chunk) seg_data
  end.

(** ** The kernel around the loader *)

(** The machine, and the heap as far as the loader uses it: [env_live a] when
    the block [a] was allocated and not freed, [env_after] relates a state to
    those that come after it, and [env_refused] when an allocation was refused
    in between. *)
Class kernel_env (St : Type) := {
  env_get : St → machine;
  env_put : machine → St → St;
  env_malloc : cmd St Z;
  env_free : Z → cmd St unit;
  env_ok : St → Prop;
  env_live : Z → St → Prop;
  env_after : St → St → Prop;
  env_refused : St → St → Prop;
}.
(** A step that the machine does not see. *)
Record unseen `{kernel_env St} (s s' : St) : Prop := {
  un_machine : env_get s' = env_get s;
  un_ok : env_ok s';
  un_after : env_after s s'
}.
Class kernel_laws (St : Type) `{kernel_env St} := {
  get_put m s : env_get (env_put m s) = m;
  put_ok m s : env_ok (env_put m s) ↔ env_ok s;
  put_live a m s : env_live a (env_put m s) ↔ env_live a s;
  put_after m s : env_after s (env_put m s);
  after_refl s : env_after s s;
  after_trans s1 s2 s3 : env_after s1 s2 → env_after s2 s3 → env_after s1 s3;
  refused_before s1 s2 s3 : env_after s1 s2 → env_refused s2 s3 → env_refused s1 s3;
  refused_after s1 s2 s3 : env_refused s1 s2 → env_after s2 s3 → env_refused s1 s3;
  malloc_law s : env_ok s → wp env_malloc (λ a s', unseen s s' ∧ (∀ b, env_live b s → env_live b s') ∧
    ((a = 0 ∧ env_refused s s') ∨ (a ≠ 0 ∧ env_live a s' ∧ ¬ env_live a s))) s;
  free_law s a : env_ok s → a = 0 ∨ env_live a s → wp (env_free a) (λ _ s', unseen s s' ∧
    (∀ b, a = 0 ∨ b ≠ a → env_live b s → env_live b s')) s
}.
(** Where the image is read from: [source_read off n] gives [n] bytes of it. *)
Class image_source (St : Type) := { source_read : Z → Z → cmd St (option (list Z)) }.

Section load.
Context {St : Type} {KE : kernel_env St} {IS : image_source St}.
Definition on_machine {A} (m : cmd machine A) : cmd St A := czoom env_get env_put m.

Definition load_segment (pd : Z) (ph : Elf32_Phdr) : cmd St Z :=
  if pd =? 0 then mret (-1) else
  if p_memsz ph =? 0 then mret 0 else
  if p_memsz ph <? p_filesz ph then mret (-1) else
  let page_start := align_down (p_vaddr ph) PAGE_SIZE in
  let page_end := align_up (u32 (p_vaddr ph + p_memsz ph)) PAGE_SIZE in
  let page_count := u32 (page_end - page_start) / PAGE_SIZE in
  pages ← env_malloc;
  if pages =? 0 then mret (-1) else
  mapped ← on_machine (map_pages (S (Z.to_nat page_count)) pd page_start page_end);
  match mapped with
  | None => env_free pages;; mret (-1)
  | Some filled =>
      (* [calloc] zeroed the entries that the loop did not reach. *)
      let entries := filled ++ replicate (Z.to_nat page_count - length filled) (0, 0) in
      if negb (0 <? p_filesz ph) then env_free 0;; env_free pages;; mret 0 else
      seg_data ← env_malloc;
      if seg_data =? 0 then env_free pages;; mret (-1) else
      bytes ← source_read (p_offset ph) (p_filesz ph);
      match bytes with
      | None => env_free seg_data;; env_free pages;; mret (-1)
      | Some bytes =>
          ok ← on_machine (copy_pages pd entries true (Z.land (p_vaddr ph) (PAGE_SIZE - 1)) 0 bytes);
          env_free seg_data;; env_free pages;; mret (if (ok : bool) then 0 else -1)
      end
  end.

(** The loop over the program headers. *)
Fixpoint load_segments (pd : Z) (phs : list Elf32_Phdr) : cmd St Z :=
  match phs with
  | [] => mret 0
  | ph :: phs =>
      if negb (p_type ph =? PT_LOAD) then load_segments pd phs else
      r ← load_segment pd ph;
      if r <? 0 then mret (-1) else load_segments pd phs
  end.

(** From the allocation of the table on, in both loaders; the result and what
    is stored at [entry_out]. *)
Definition load_table (pd : Z) (eh : Elf32_Ehdr) : cmd St (Z * Z) :=
  let ph_size := u32 (e_phentsize eh * e_phnum eh) in
  phdrs ← env_malloc;
  if phdrs =? 0 then mret (-1, 0) else
  bytes ← source_read (e_phoff eh) ph_size;
  match bytes with
  | None => env_free phdrs;; mret (-1, 0)
  | Some bytes =>
      phs ← cget_opt (mapM (λ i, phdr_of bytes (i * Z.to_nat SIZEOF_PHDR)) (seq 0 (Z.to_nat (e_phnum eh))));
      r ← load_segments pd phs;
      env_free phdrs;;
      if r <? 0 then mret (-1, 0) else mret (0, e_entry eh)
  end.
End load.

(** ** The machine under the loader *)

(** [S] holds the directory [pd] that is being built, the kernel's and the one
    that is switched to; the program's pages are its own. *)
Record ready (S : list Z) (pd : Z) (s : machine) : Prop := {
  rd_spaces : spaces_ok s S;
  rd_kernel : in_kernel S s;
  rd_cr3 : cr3 s = active_pd s;
  rd_pd : pd ∈ S;
  rd_program : program_ok s S pd
}.

Section machine.
Context (S : list Z) (pd : Z).

Lemma quiet_in_kernel W D s s' : quiet W D S s s' → in_kernel S s → cr3 s = active_pd s → in_kernel S s' ∧ cr3 s' = active_pd s'.
Proof. intros Q [? ?] Hc. destruct (quiet_kernel _ _ _ _ _ Q) as (E1 & E2 & E3). unfold in_kernel. rewrite E1, E2, E3. auto. Qed.

(** The pages [lo, hi) of [pd], and of what shares their tables, and the
    temporary page. *)
Definition pages_touched (s : machine) (lo hi q g : Z) : Prop :=
  temp_page q g ∨ (lo <= g < hi ∧ (q = pd ∨ shares s pd q (g / 1024))).

Lemma pd_index_page a : 0 <= a < 2 ^ 32 → pd_index a = a / 4096 / 1024.
Proof. intros Ha. rewrite pd_index_val by done. change (2 ^ 22) with 4194304. lia. Qed.

(** A new frame at the page of [addr]. *)
Lemma program_step s s' W D addr f :
  program_ok s S pd → quiet W D S s s' → data s' S f → ¬ used s f → 
  (∀ a, 0 <= a < 2 ^ 32 → not_temp a → user_frame s' pd a = if decide (a / 4096 = addr / 4096) then Some f else user_frame s pd a) →
  program_ok s' S pd.
Proof.
  intros [Hd Ho] Q Hf Hn Hv. split.
  - intros a g Ha Ht. rewrite Hv by done. case_decide; [by intros [= <-]|]. intros E. by apply (q_data _ _ _ _ _ Q), (Hd a).
  - intros a b g Ha Hb Hta Htb. rewrite !Hv by done. case_decide as Ea; case_decide as Eb.
    + congruence.
    + intros [= <-] E. destruct Hn. by apply (Hd b).
    + intros E [= <-]. destruct Hn. by apply (Hd a).
    + by apply Ho.
Qed.

(** Writing data frames and the temporary page leaves the program's pages. *)
Lemma program_quiet s s' D : program_ok s S pd → pd ∈ S → quiet temp_page D S s s' → program_ok s' S pd.
Proof.
  intros [Hd Ho] Hp Q.
  assert (Hv : ∀ a, 0 <= a < 2 ^ 32 → not_temp a → user_frame s' pd a = user_frame s pd a).
  { intros a Ha Ht. unfold user_frame. by rewrite (q_view _ _ _ _ _ Q). }
  split.
  - intros a f Ha Ht. rewrite Hv by done. intros E. by apply (q_data _ _ _ _ _ Q), (Hd a).
  - intros a b f Ha Hb Hta Htb. rewrite !Hv by done. by apply Ho.
Qed.

(** The temporary mapping of [phys], writing [bs] at [x] through it, and taking
    it away. *)
Lemma through_temp_wp {A} s phys x bs (at_ : Z → Z) (fail ok : cmd machine A) (Q : A → machine → Prop) :
  spaces_ok s S → in_kernel S s → cr3 s = active_pd s → pd ∈ S → data s S phys →
  at_ TEMP_MAP_VADDR = TEMP_MAP_VADDR + x → 0 <= x → x + Z.of_nat (length bs) <= 4096 → Forall is_u8 bs →
  (∀ s', quiet temp_page none1 S s s' → full s' → wp fail Q s') →
  (∀ s', quiet temp_page (eq phys) S s s' →
     (∀ y, 0 <= y < 4096 → byte_at s' (phys + y) = default (byte_at s (phys + y)) (if x <=? y then bs !! Z.to_nat (y - x) else None)) →
     wp ok Q s') →
  wp (kpage ← paging_temp_map_frame pd phys;
      if kpage =? 0 then fail else store_bytes (at_ kpage) bs;; paging_temp_unmap_frame pd;; ok) Q s.
Proof.
  intros Hok Hk Hc Hp Hd Hat Hx Hl Hb Hfail Hgo. wp_step.
  eapply wp_mono; [by apply (paging_temp_map_wp s S pd phys); [..|apply Hd]|]. cbn beta.
  intros r s1 [Q1 [(-> & F1)|(-> & M1)]]; [by apply Hfail|]. change (TEMP_MAP_VADDR =? 0) with false. cbn iota. rewrite Hat.
  destruct (quiet_kernel _ _ _ _ _ Q1) as (_ & Ec & Ea). destruct (quiet_in_kernel _ _ _ _ Q1 Hk Hc) as [Hk1 Hc1].
  assert (Hd1 : data s1 S phys) by by apply Q1. wp_step.
  eapply wp_mono; [apply (store_bytes_wp s1 S phys bs x); [apply Q1|done|rewrite Hc1; apply Hk1|by rewrite Ec, Hc|done..]|].
  cbn beta. intros _ s2 [Q2 H2]. destruct (quiet_in_kernel _ _ _ _ Q2 Hk1 Hc1) as [Hk2 _]. wp_step.
  eapply wp_mono; [by apply (paging_temp_unmap_wp s2 S pd); [apply Q2|..]|]. cbn beta. intros _ s3 Q3.
  apply Hgo.
  - assert (W1 : quiet temp_page (eq phys) S s s1) by (by apply quiet_frames).
    assert (W2 : quiet temp_page (eq phys) S s1 s2) by (by apply quiet_views).
    assert (W3 : quiet temp_page (eq phys) S s2 s3) by (by apply quiet_frames).
    exact (quiet_trans _ _ _ _ _ _ W1 (quiet_trans _ _ _ _ _ _ W2 W3)).
  - intros y Hy. rewrite (quiet_byte _ _ _ _ _ phys y Q3); [|by apply Q2|by intros []|done].
    rewrite H2 by done. by rewrite (quiet_byte _ _ _ _ _ phys y Q1); [|done|intros []|].
Qed.

Definition user_pte (f : Z) : Z := Z.lor f (Z.land USER_RW map_flags).
Lemma user_pte_flags f : is_page f → has (user_pte f) PAGE_PRESENT = true ∧ has (user_pte f) PAGE_RW = true ∧
  has (user_pte f) PAGE_USER = true ∧ frame_of (user_pte f) = f.
Proof.
  intros Hf. unfold user_pte. rewrite has_present, has_rw, has_user, !Z.lor_spec.
  split_and!; [apply orb_true_r..|]. by apply frame_of_lor; [|by_eval].
Qed.

(** The user page that [paging_map_page] makes. *)
Lemma user_page_done s s' addr f :
  spaces_ok s S → pd ∈ S → 0 <= addr < 2 ^ 32 → is_page f → map_done s S pd addr (user_pte f) true s' →
  user_page s' pd addr f ∧
  ∀ a, 0 <= a < 2 ^ 32 → user_frame s' pd a = if decide (a / 4096 = addr / 4096) then Some f else user_frame s pd a.
Proof.
  intros Hok Hp Ha Hf Hd. destruct (user_pte_flags f Hf) as (F1 & F2 & F3 & F4). destruct (md_pde _ _ _ _ _ _ _ Hd) as [Hpre Hu].
  assert (Hv : ∀ a, 0 <= a < 2 ^ 32 → mapping s' pd a = if decide (a / 4096 = addr / 4096) then Some (user_pte f) else mapping s pd a).
  { intros a Har. rewrite (done_view _ _ _ _ _ _ _ pd a Hok Hp Hp Ha Har Hd), F1.
    destruct (decide (a / 4096 = addr / 4096)) as [E|E]; [rewrite decide_True|rewrite decide_False]; unfold shares; tauto. }
  split.
  - split; [by apply Hu; right|]. exists (user_pte f). rewrite Hv by done. by rewrite decide_True.
  - intros a Har. unfold user_frame. rewrite Hv by done. case_decide; [|done]. cbn. by rewrite F3, F4.
Qed.

(** The loader does not ask whether a page lies in a table that the kernel
    has, too: there the kernel's page is replaced. *)
Lemma shared_page_replaced s s' q addr f :
  spaces_ok s S → pd ∈ S → q ∈ S → 0 <= addr < 2 ^ 32 → is_page f → map_done s S pd addr (user_pte f) true s' →
  shares s' pd q (pd_index addr) → mapping s' q addr = Some (user_pte f).
Proof.
  intros Hok Hp Hq Ha Hf Hd Hs. destruct (user_pte_flags f Hf) as (F1 & _).
  rewrite (done_view _ _ _ _ _ _ _ q addr Hok Hp Hq Ha Ha Hd), F1. by rewrite decide_True.
Qed.

Lemma map_one_wp s addr :
  ready S pd s → is_page addr → not_temp addr →
  wp (map_one pd addr) (λ r s', quiet (pages_touched s (addr / 4096) (addr / 4096 + 1)) none1 S s s' ∧ program_ok s' S pd ∧
    match r with
    | None => full s'
    | Some f => data s' S f ∧ ¬ used s f ∧ user_page s' pd addr f ∧ ∀ y, 0 <= y < 4096 → byte_at s' (f + y) = 0
    end) s.
Proof.
  intros [Hok Hk Hc Hp Hpr] Ha Ht. pose proof (proj1 Ha) as Har. unfold map_one. wp_step.
  eapply wp_mono; [by apply (alloc_spaces_wp s S)|]. cbn beta. intros f s1 [Q1 Hf].
  destruct Hf as [[-> F1]|(Hf0 & Hf1 & Hfn)].
  { change (0 =? 0) with true. cbn iota. wp_step. split; [by apply quiet_views|]. split; [|done].
    eapply program_quiet; [done|done|by apply quiet_views]. }
  rewrite (proj2 (Z.eqb_neq f 0)) by done. wp_step.
  eapply wp_mono; [apply (map_spaces_wp s1 S pd addr f USER_RW); [apply Q1|done|done|apply Hf1]|]. cbn beta.
  intros r s2 [(-> & F2 & Q2)|(-> & Hdone)].
  { change (negb (-1 =? 0)) with true. cbn iota. wp_step. pose proof (quiet_trans _ _ _ _ _ _ Q1 Q2) as Q.
    split; [by apply quiet_views|]. split; [eapply program_quiet; [done|done|by apply quiet_views]|].
    eapply full_quiet; [exact Q2|done]. }
  change (negb (0 =? 0)) with false. cbn iota.
  pose proof (done_quiet _ _ _ _ _ _ _ (q_ok _ _ _ _ _ Q1) Hp Har Hdone) as Q2.
  destruct (quiet_in_kernel _ _ _ _ Q1 Hk Hc) as [Hk1 Hc1], (quiet_in_kernel _ _ _ _ Q2 Hk1 Hc1) as [Hk2 Hc2].
  set (touched := pages_touched s (addr / 4096) (addr / 4096 + 1)).
  assert (Q02 : quiet touched none1 S s s2).
  { eapply quiet_trans; [by apply quiet_views|]. eapply quiet_weaken; [| |exact Q2]; [|done].
    intros q g Hq [-> Hs]. right. split; [lia|]. destruct (decide (q = pd)) as [->|Hne]; [by left|right].
    destruct Hs as [->|Hs]; [done|]. rewrite <- pd_index_page by done.
    by apply (q_shares _ _ _ _ _ Q1); [..|apply pd_index_range|]. }
  destruct (user_page_done s1 s2 addr f (q_ok _ _ _ _ _ Q1) Hp Har (proj1 Hf1) Hdone) as [Hpage Hframe].
  assert (Hprog : ∀ D s3, quiet temp_page D S s2 s3 → program_ok s3 S pd).
  { intros D s3 Q3. apply (program_quiet s2 s3 D); [|done|done]. apply (program_step s s2 touched none1 addr f); [done|done|by apply Q2|done|].
    intros a Hra _. rewrite Hframe by done. case_decide; [done|]. unfold user_frame.
    by rewrite (q_view _ _ _ _ _ Q1); [| |done|intros []]. }
  assert (Htemp : ∀ D s3, quiet temp_page D S s2 s3 → quiet touched D S s2 s3).
  { intros D s3. by apply quiet_weaken; [by left|]. }
  apply (through_temp_wp s2 f 0 _ (λ k, k)); [apply Q02|done|done|done|by apply Q2|done|done|done|by apply Forall_replicate| |].
  { intros s3 Q3 F3. wp_step. split; [exact (quiet_trans _ _ _ _ _ _ Q02 (Htemp _ _ Q3))|]. split; [by eapply Hprog|done]. }
  intros s3 Q3 Hz. wp_step. split.
  { apply (quiet_drop _ (eq f)); [by intros ? <-|]. exact (quiet_trans _ _ _ _ _ _ (quiet_frames _ _ _ _ _ Q02) (Htemp _ _ Q3)). }
  split; [by eapply Hprog|]. split; [by apply Q3, Q2|]. split; [done|]. split.
  - by eapply (quiet_user_page temp_page (eq f) S s2).
  - intros y Hy. rewrite Hz by done. rewrite (proj2 (Z.leb_le 0 y)) by lia.
    rewrite lookup_replicate_2; [done|]. unfold PAGE_SIZE. lia.
Qed.

Lemma ready_quiet W D s s' : quiet W D S s s' → ready S pd s → program_ok s' S pd → ready S pd s'.
Proof.
  intros Q [H1 H2 H3 H4 H5] Hp. destruct (quiet_in_kernel _ _ _ _ Q H2 H3). split; [apply Q|done..].
Qed.

(** The pages from [addr] on, each a new frame that holds zeros. *)
Definition zeroed (s s' : machine) (addr page_end : Z) (l : list (Z * Z)) : Prop :=
  Z.of_nat (length l) = (page_end - addr) / 4096 ∧
  ∀ k v f, l !! k = Some (v, f) → v = addr + 4096 * Z.of_nat k ∧ data s' S f ∧ ¬ used s f ∧ user_page s' pd v f ∧
    ∀ y, 0 <= y < 4096 → byte_at s' (f + y) = 0.

Lemma pages_touched_mono s lo hi lo' hi' q g : lo' <= lo → hi <= hi' → pages_touched s lo hi q g → pages_touched s lo' hi' q g.
Proof. intros H1 H2 [?|[? ?]]; [by left|right]. split; [lia|done]. Qed.

(** Touching the same pages after a step. *)
Lemma pages_touched_after W D s s1 lo hi q g :
  quiet W D S s s1 → pd ∈ S → q ∈ S → 0 <= lo → hi <= 2 ^ 20 → pages_touched s1 lo hi q g → pages_touched s lo hi q g.
Proof.
  intros Q Hp Hq Hlo Hhi [?|[Hg Hs]]; [by left|right]. split; [done|]. destruct (decide (q = pd)) as [->|Hne]; [by left|right].
  destruct Hs as [->|Hs]; [done|]. apply (q_shares _ _ _ _ _ Q); try done. unfold is_index. lia.
Qed.

Lemma map_pages_wp fuel : ∀ s addr page_end,
  ready S pd s → is_page addr → is_page page_end → addr <= page_end → (page_end - addr) / 4096 < Z.of_nat fuel →
  (∀ g, addr / 4096 <= g < page_end / 4096 → g ≠ TEMP_MAP_VADDR / 4096) →
  wp (map_pages fuel pd addr page_end) (λ r s',
    quiet (pages_touched s (addr / 4096) (page_end / 4096)) none1 S s s' ∧ program_ok s' S pd ∧
    match r with None => full s' | Some l => zeroed s s' addr page_end l end) s.
Proof.
  induction fuel as [|fuel IH]; intros s addr page_end Hrd Ha He Hle Hfuel Ht; [lia|]. cbn [map_pages].
  pose proof Ha as [Ha1 Ha2]. pose proof He as [He1 He2]. pose proof (rd_pd _ _ _ Hrd) as Hpd.
  destruct (Z.ltb_spec addr page_end) as [Hlt|Hge]; cbn [negb].
  2: { wp_step. split; [by apply quiet_views, quiet_refl; apply Hrd|]. split; [apply Hrd|]. assert (addr = page_end) as -> by lia.
       split; [simpl; by rewrite Z.sub_diag|]. by intros [|k] v f Hk. }
  wp_step. eapply wp_mono; [apply map_one_wp; [done|done|apply Ht; lia]|]. cbn beta. intros r s1 (Q1 & P1 & H1).
  assert (Q1' : quiet (pages_touched s (addr / 4096) (page_end / 4096)) none1 S s s1).
  { eapply quiet_weaken; [| |exact Q1]; [|done]. intros q g _. apply pages_touched_mono; lia. }
  destruct r as [f|]; [|wp_step; done]. destruct H1 as (D1 & N1 & U1 & Z1). unfold PAGE_SIZE. rewrite u32_small by lia.
  pose proof (ready_quiet _ _ _ _ Q1 Hrd P1) as Hrd1. wp_step.
  eapply wp_mono; [apply (IH s1 (addr + 0x1000) page_end Hrd1); [unfold is_page in *; lia|done|lia|lia|intros g Hg; apply Ht; lia]|]. cbn beta.
  intros r s2 (Q2 & P2 & H2). wp_step.
  assert (Q2' : quiet (pages_touched s (addr / 4096) (page_end / 4096)) none1 S s1 s2).
  { eapply quiet_weaken; [| |exact Q2]; [|done]. intros q g Hq Hg. eapply pages_touched_after; [exact Q1|done|done|lia|lia|].
    eapply pages_touched_mono; [..|exact Hg]; lia. }
  split; [exact (quiet_trans _ _ _ _ _ _ Q1' Q2')|]. split; [done|]. destruct r as [l|]; [|done]. cbn.
  destruct H2 as [Hl H2]. split; [cbn [length]; lia|]. intros [|k] v g Hk.
  - injection Hk as <- <-. split; [lia|]. split; [by apply Q2|]. split; [done|]. split.
    + eapply quiet_user_page; [exact Q2|done|done| |done]. intros [Hg|[Hg _]]; [|lia]. by apply (Ht (addr / 4096)); [lia|].
    + intros y Hy. rewrite (quiet_byte _ _ _ _ _ f y Q2); [by apply Z1|done|intros []|done].
  - destruct (H2 k v g Hk) as (-> & Dg & Ng & Ug & Zg). split; [lia|]. split; [done|]. split; [|done].
    intros Hu. by apply Ng, (q_used _ _ _ _ _ Q1).
Qed.

(** The byte of the file at place [y] of page [k], when the pages take the
    bytes from [copied] on and the first of them starts at [dst]. *)
Definition copied_byte (data : list Z) (copied dst : Z) (k : nat) (y : Z) : option Z :=
  let pos := copied - dst + 4096 * Z.of_nat k + y in
  if copied <=? pos then data !! Z.to_nat pos else None.

Lemma slice_byte (data : list Z) copied chunk i :
  0 <= copied → 0 <= i → slice (Z.to_nat copied) (Z.to_nat chunk) data !! Z.to_nat i =
  if i <? chunk then data !! Z.to_nat (copied + i) else None.
Proof.
  intros Hc Hi. unfold slice. destruct (Z.ltb_spec i chunk).
  - rewrite lookup_take_lt by lia. rewrite lookup_drop. f_equal. lia.
  - by rewrite lookup_take_ge by lia.
Qed.

Lemma copy_pages_wp data : Forall is_u8 data → ∀ pages s first page_off copied,
  spaces_ok s S → in_kernel S s → cr3 s = active_pd s → pd ∈ S →
  Forall (Spaces.data s S) (snd <$> pages) → NoDup (snd <$> pages) →
  0 <= page_off < 4096 → 0 <= copied →
  wp (copy_pages pd pages first page_off copied data) (λ ok s',
    quiet temp_page (λ f, f ∈ snd <$> pages) S s s' ∧
    if (ok : bool) then ∀ k v f y, pages !! k = Some (v, f) → 0 <= y < 4096 →
      byte_at s' (f + y) = default (byte_at s (f + y)) (copied_byte data copied (if first then page_off else 0) k y)
    else full s') s.
Proof.
  intros Hu8. induction pages as [|[v0 phys] pages IH]; intros s first page_off copied Hok Hk Hc Hp Hd Hnd Hoff Hcop; cbn [copy_pages].
  { wp_step. split; [by apply quiet_views, quiet_frames, quiet_refl|]. intros k v f y Hkk. by rewrite lookup_nil in Hkk. }
  apply Forall_cons in Hd as [Hd0 Hd]. apply NoDup_cons in Hnd as [Hn0 Hnd]. cbn [fmap list_fmap snd] in *.
  set (filesz := Z.of_nat (length data)). set (dst := if first then page_off else 0).
  assert (Hdst : 0 <= dst < 4096) by (unfold dst; destruct first; lia).
  destruct (Z.ltb_spec copied filesz) as [Hlt|Hge]; cbn [negb].
  2: { wp_step. split; [by apply quiet_views, quiet_frames, quiet_refl|]. intros k v f y _ Hy. unfold copied_byte.
       destruct (Z.leb_spec copied (copied - dst + 4096 * Z.of_nat k + y)); [|done]. by rewrite lookup_ge_None_2 by lia. }
  set (chunk := if filesz - copied <? PAGE_SIZE - dst then filesz - copied else PAGE_SIZE - dst).
  assert (Hchunk : chunk = Z.min (filesz - copied) (4096 - dst)).
  { unfold chunk, PAGE_SIZE. destruct (Z.ltb_spec (filesz - copied) (0x1000 - dst)); lia. }
  set (bs := slice (Z.to_nat copied) (Z.to_nat chunk) data).
  assert (Hbs : Z.of_nat (length bs) = chunk) by (unfold bs; rewrite length_slice by lia; lia).
  apply (through_temp_wp s phys dst bs (λ k, k + dst)); try done; [lia|lia| | |].
  { unfold bs, slice. by apply Forall_take, Forall_drop. }
  { intros s1 Q1 F1. wp_step. split; [by apply quiet_frames|done]. }
  intros s1 Q1 H1. destruct (quiet_in_kernel _ _ _ _ Q1 Hk Hc) as [Hk1 Hc1].
  assert (Hd1 : Forall (Spaces.data s1 S) (snd <$> pages)) by (eapply Forall_impl; [exact Hd|]; intros f Hf; by apply Q1).
  eapply wp_mono; [apply (IH s1 false page_off (copied + chunk)); [apply Q1|done|done|done|done|done|done|lia]|].
  cbn beta. intros ok s2 [Q2 H2]. split.
  { apply (quiet_trans _ _ _ _ s1); [eapply quiet_weaken; [..|exact Q1]|eapply quiet_weaken; [..|exact Q2]]; try done.
    - intros f <-. left. - intros f Hf. by right. }
  destruct ok; [|done]. intros [|k] v f y Hkk Hy.
  - injection Hkk as <- <-. rewrite (quiet_byte _ _ _ _ _ phys y Q2); [|by apply Q1|done|done]. rewrite H1 by done.
    unfold copied_byte. destruct (Z.leb_spec dst y), (Z.leb_spec copied (copied - dst + 4096 * Z.of_nat 0 + y)); try lia; try done.
    unfold bs. rewrite slice_byte by lia. destruct (Z.ltb_spec (y - dst) chunk).
    + do 3 f_equal. lia.
    + by rewrite lookup_ge_None_2 by lia.
  - cbn [lookup list_lookup] in Hkk. rewrite (H2 k v f y Hkk Hy).
    assert (Hf : f ∈ snd <$> pages) by (apply list_elem_of_fmap; exists (v, f); split; [done|by eapply list_elem_of_lookup_2]).
    assert (phys ≠ f) by (intros ->; done).
    rewrite (quiet_byte _ _ _ _ _ f y Q1); [|by apply (proj1 (Forall_forall _ _) Hd)|done|done].
    f_equal. unfold copied_byte.
    destruct (Z.leb_spec (copied + chunk) (copied + chunk - 0 + 4096 * Z.of_nat k + y)); [|lia].
    destruct (Z.leb_spec copied (copied - dst + 4096 * Z.of_nat (Datatypes.S k) + y)); [|lia].
    destruct (decide (chunk = 4096 - dst)); [f_equal; lia|]. by rewrite !lookup_ge_None_2 by lia.
Qed.
End machine.

(** ** What a segment asks for *)

Definition seg_end (ph : Elf32_Phdr) : Z := (p_vaddr ph + p_memsz ph + 4095) / 4096 * 4096.
(** The pages of a loadable segment. *)
Definition covers (ph : Elf32_Phdr) (g : Z) : Prop :=
  p_type ph = PT_LOAD ∧ p_memsz ph ≠ 0 ∧ p_vaddr ph / 4096 <= g < seg_end ph / 4096.
#[global] Instance covers_dec ph g : Decision (covers ph g).
Proof. unfold covers. apply _. Defined.
(** The byte that belongs at an address of them: from the file, or zero. *)
Definition seg_byte (file : list Z) (ph : Elf32_Phdr) (a : Z) : Z :=
  if (p_vaddr ph <=? a) && (a <? p_vaddr ph + p_filesz ph)
  then default 0 (file !! Z.to_nat (p_offset ph + (a - p_vaddr ph))) else 0.
(** A segment that can be loaded: its bytes fit its memory and are in the file. *)
Definition seg_ok (file : list Z) (ph : Elf32_Phdr) : Prop :=
  p_memsz ph = 0 ∨ (p_filesz ph <= p_memsz ph ∧ (0 < p_filesz ph → p_offset ph + p_filesz ph <= Z.of_nat (length file))).
(** Its fields are 32-bit words, the sums of them that the loader computes do
    not wrap around, and it leaves the temporary page alone. *)
Record sane (ph : Elf32_Phdr) : Prop := {
  sn_fields : is_u32 (p_vaddr ph) ∧ is_u32 (p_memsz ph) ∧ is_u32 (p_filesz ph) ∧ is_u32 (p_offset ph);
  sn_memory : p_vaddr ph + p_memsz ph <= 2 ^ 32 - 4096;
  sn_file : p_offset ph + p_filesz ph < 2 ^ 32;
  sn_temp : ¬ covers ph (TEMP_MAP_VADDR / 4096)
}.

Section loader.
Context {St : Type} {KE : kernel_env St} {KL : kernel_laws St} {IS : image_source St} (S : list Z) (pd : Z) (file : list Z).
(** Reading gives the bytes of the file, or fails. *)
Hypothesis source_law : ∀ s off n, env_ok s → 0 <= off → 0 < n → off + n < 2 ^ 32 →
  wp (source_read off n) (λ r s', unseen s s' ∧ (∀ b, env_live b s → env_live b s') ∧
    match r with
    | None => Z.of_nat (length file) < off + n ∨ env_refused s s'
    | Some bytes => off + n <= Z.of_nat (length file) ∧ bytes = slice (Z.to_nat off) (Z.to_nat n) file
    end) s.
Hypothesis file_bytes : Forall is_u8 file.
Implicit Types (s : St).

(** The heap after a step: nothing that was live is gone. *)
Definition grown s s' : Prop :=
  env_ok s' ∧ env_after s s' ∧ ∀ b, env_live b s → env_live b s'.

Lemma env_grown_refl s : env_ok s → grown s s.
Proof. intros ?. split_and!; [done|apply after_refl|done]. Qed.
Lemma env_grown_trans s1 s2 s3 : grown s1 s2 → grown s2 s3 → grown s1 s3.
Proof. intros (A1 & A2 & A3) (B1 & B2 & B3). split_and!; [done|by eapply after_trans|auto]. Qed.

Lemma env_malloc_wp (Q : Z → St → Prop) s0 s :
  grown s0 s →
  (∀ s', env_get s' = env_get s → grown s0 s' → grown s s' → env_refused s0 s' → Q 0 s') →
  (∀ a s', env_get s' = env_get s → grown s0 s' → grown s s' → a ≠ 0 → env_live a s' → ¬ env_live a s → Q a s') →
  wp env_malloc Q s.
Proof.
  intros Hg H1 H2. eapply wp_mono; [apply malloc_law, Hg|]. cbn beta. intros a s' ([A1 A2 A3] & A4 & A5).
  assert (grown s s') as Hg' by by split_and!. pose proof (env_grown_trans _ _ _ Hg Hg') as Hg2.
  destruct A5 as [[-> Hr]|(? & ? & ?)]; [|by apply H2]. apply H1; [done|done|done|]. eapply refused_before; [apply Hg|done].
Qed.

(** Freeing a block that was not live at [s0]. *)
Lemma env_free_wp (Q : unit → St → Prop) s0 s a :
  grown s0 s → a = 0 ∨ (env_live a s ∧ ¬ env_live a s0) →
  (∀ s', env_get s' = env_get s → grown s0 s' → env_after s s' → (∀ b, a = 0 ∨ b ≠ a → env_live b s → env_live b s') → Q tt s') →
  wp (env_free a) Q s.
Proof.
  intros Hg Ha HQ. eapply wp_mono; [apply free_law; [apply Hg|tauto]|]. cbn beta. intros [] s' ([A1 A2 A3] & A4).
  apply HQ; [done| |done|done]. destruct Hg as (B1 & B2 & B3). split_and!; [done|by eapply after_trans|]. intros b Hb.
  apply A4; [|by apply B3]. destruct Ha as [->|[_ Hn]]; [by left|right]. by intros ->.
Qed.

(** *** The pages of one segment *)

Definition seg_start (ph : Elf32_Phdr) : Z := p_vaddr ph / 4096 * 4096.

Lemma seg_geometry ph : sane ph → p_memsz ph ≠ 0 →
  align_down (p_vaddr ph) PAGE_SIZE = seg_start ph ∧ align_up (u32 (p_vaddr ph + p_memsz ph)) PAGE_SIZE = seg_end ph ∧
  u32 (seg_end ph - seg_start ph) / PAGE_SIZE = (seg_end ph - seg_start ph) / 4096 ∧
  is_page (seg_start ph) ∧ is_page (seg_end ph) ∧ seg_start ph < seg_end ph ∧ seg_start ph <= p_vaddr ph < seg_start ph + 4096 ∧
  p_vaddr ph + p_memsz ph <= seg_end ph ∧ Z.land (p_vaddr ph) (PAGE_SIZE - 1) = p_vaddr ph - seg_start ph.
Proof.
  intros [(H1 & H2 & H3 & H4) H5 _ _] Hm. unfold is_u32, seg_end, seg_start, PAGE_SIZE, is_page in *.
  change 0x1000 with 4096. rewrite align_down_4096 by lia. rewrite (u32_small (_ + _)) by lia. rewrite align_up_4096 by lia.
  rewrite u32_small by lia. change (4096 - 1) with (Z.ones 12). rewrite Z.land_ones by lia. change (2 ^ 12) with 4096.
  split_and!; lia.
Qed.

Lemma user_page_same_page (m : machine) a b f : 0 <= a < 2 ^ 32 → 0 <= b < 2 ^ 32 → a / 4096 = b / 4096 → user_page m pd a f → user_page m pd b f.
Proof.
  intros Ha Hb E. destruct (same_page a b Ha Hb E) as [E1 _]. unfold user_page. by rewrite E1, (mapping_same_page m pd a b).
Qed.

Lemma zeroed_nodup (m0 m1 : machine) lo hi l :
  program_ok m1 S pd → is_page lo → is_page hi → (∀ g, lo / 4096 <= g < hi / 4096 → g ≠ TEMP_MAP_VADDR / 4096) →
  zeroed S pd m0 m1 lo hi l → NoDup (snd <$> l).
Proof.
  intros Hp [Hlo Hlm] [Hhi Hhm] Ht [Hl Hz]. apply NoDup_alt. intros i j f Hi Hj.
  apply list_lookup_fmap_Some in Hi as ([v f1] & -> & Hi). apply list_lookup_fmap_Some in Hj as ([w f2] & E & Hj). cbn in E. subst f2.
  pose proof (lookup_lt_Some _ _ _ Hi). pose proof (lookup_lt_Some _ _ _ Hj).
  destruct (Hz i v f1 Hi) as (-> & _ & _ & Ui & _), (Hz j w f1 Hj) as (-> & _ & _ & Uj & _).
  assert ((lo + 4096 * Z.of_nat i) / 4096 = (lo + 4096 * Z.of_nat j) / 4096); [|lia].
  apply (pk_once _ _ _ Hp _ _ f1); [lia|lia|apply Ht; lia|apply Ht; lia|by apply user_page_frame..].
Qed.

(** The pages hold the bytes of the file, then zeros. *)
Lemma filled_bytes (m0 m1 m2 : machine) ph l data D :
  sane ph → p_type ph = PT_LOAD → p_memsz ph ≠ 0 → pd ∈ S → p_filesz ph <= p_memsz ph →
  zeroed S pd m0 m1 (seg_start ph) (seg_end ph) l → quiet temp_page D S m1 m2 →
  (∀ i, 0 <= i < p_filesz ph → data !! Z.to_nat i = file !! Z.to_nat (p_offset ph + i)) → Z.of_nat (length data) = p_filesz ph →
  (∀ k v f y, l !! k = Some (v, f) → 0 <= y < 4096 →
     byte_at m2 (f + y) = default (byte_at m1 (f + y)) (copied_byte data 0 (p_vaddr ph - seg_start ph) k y)) →
  ∀ a, 0 <= a → covers ph (a / 4096) → ∃ f, user_page m2 pd a f ∧ space_byte m2 pd a = seg_byte file ph a.
Proof.
  intros Hs Hty Hm Hp Hfm [Hl Hz] Q Hdata Hlen Hb a Ha0 Hc.
  destruct (seg_geometry ph Hs Hm) as (_ & _ & _ & [G1 G2] & [G3 G4] & G5 & G6 & G7 & _).
  pose proof Hc as (_ & _ & Hg). assert (Hgs : p_vaddr ph / 4096 = seg_start ph / 4096) by lia.
  assert (Hk : (Z.to_nat (a / 4096 - seg_start ph / 4096) < length l)%nat) by lia.
  destruct (lookup_is_Some l _ Hk) as [[v f] Hv]. set (k := Z.to_nat (a / 4096 - seg_start ph / 4096)) in *.
  destruct (Hz k v f Hv) as (Ev & _ & _ & Hu & Hzero).
  assert (Hu2 : user_page m2 pd a f).
  { apply (user_page_same_page m2 v a); [lia|lia|lia|]. eapply quiet_user_page; [exact Q|done|lia| |done].
    intros E. apply (sn_temp _ Hs). unfold temp_page in E. rewrite <- E. by replace (v / 4096) with (a / 4096) by lia. }
  exists f. split; [done|]. rewrite (user_page_byte _ _ _ _ Hu2), (Hb k v f _ Hv), Hzero by lia.
  unfold copied_byte, seg_byte. replace (0 - (p_vaddr ph - seg_start ph) + 4096 * Z.of_nat k + a mod 4096) with (a - p_vaddr ph) by lia.
  destruct (Z.leb_spec 0 (a - p_vaddr ph)), (Z.leb_spec (p_vaddr ph) a); try lia; [|done].
  destruct (Z.ltb_spec a (p_vaddr ph + p_filesz ph)); cbn [andb].
  - by rewrite Hdata by lia.
  - by rewrite lookup_ge_None_2 by lia.
Qed.

Lemma on_machine_wp {A} (m : cmd machine A) (Q : A → St → Prop) s0 s :
  grown s0 s →
  wp m (λ a t, ∀ s', env_get s' = t → grown s0 s' → (∀ b, env_live b s → env_live b s') → Q a s') (env_get s) →
  wp (on_machine m) Q s.
Proof.
  intros Hg Hm. unfold on_machine. wp_step. eapply wp_mono; [exact Hm|]. cbn beta. intros a t HQ.
  destruct Hg as (B1 & B2 & B3). apply HQ; [apply get_put| |intros b; apply put_live].
  split_and!; [by apply put_ok|by eapply after_trans, put_after|]. intros b Hb. apply put_live. auto.
Qed.

(** *** One segment *)

(** The pages of the segments, in [pd] and in what shares their tables, and the
    temporary page. *)
Definition seg_touched (m : machine) (phs : list Elf32_Phdr) (q g : Z) : Prop :=
  temp_page q g ∨ ((∃ ph, ph ∈ phs ∧ covers ph g) ∧ (q = pd ∨ shares m pd q (g / 1024))).
Definition segment_post s (ph : Elf32_Phdr) (r : Z) s' : Prop :=
  grown s s' ∧ quiet (seg_touched (env_get s) [ph]) none1 S (env_get s) (env_get s') ∧ ready S pd (env_get s') ∧
  ((r = 0 ∧ seg_ok file ph ∧
    ∀ a, 0 <= a → covers ph (a / 4096) → ∃ f, user_page (env_get s') pd a f ∧ space_byte (env_get s') pd a = seg_byte file ph a) ∨
   (r = -1 ∧ (¬ seg_ok file ph ∨ full (env_get s') ∨ env_refused s s'))).

Lemma quiet_eq W D (m m1 m2 : machine) : m2 = m1 → quiet W D S m m1 → quiet W D S m m2.
Proof. by intros ->. Qed.

Lemma segment_fail s s' ph :
  grown s s' → quiet (seg_touched (env_get s) [ph]) none1 S (env_get s) (env_get s') → ready S pd (env_get s') →
  ¬ seg_ok file ph ∨ full (env_get s') ∨ env_refused s s' → segment_post s ph (-1) s'.
Proof. intros. do 3 (split; [done|]). by right. Qed.

Lemma load_segment_wp s ph :
  env_ok s → ready S pd (env_get s) → sane ph → p_type ph = PT_LOAD → wp (load_segment pd ph) (segment_post s ph) s.
Proof.
  intros Hok Hrd Hs Hty. pose proof (rd_pd _ _ _ Hrd) as Hpd. pose proof (env_grown_refl s Hok) as G0.
  destruct (sp_page _ _ (rd_spaces _ _ _ Hrd) pd Hpd) as (_ & Hpd0 & _).
  assert (Qid : quiet (seg_touched (env_get s) [ph]) none1 S (env_get s) (env_get s)) by apply quiet_views, quiet_refl, Hrd.
  unfold load_segment. rewrite (proj2 (Z.eqb_neq pd 0)) by done.
  destruct (Z.eqb_spec (p_memsz ph) 0) as [Em|Hm].
  { wp_step. do 3 (split; [done|]). left. split; [done|]. split; [by left|]. intros a _ (_ & ? & _). done. }
  destruct (Z.ltb_spec (p_memsz ph) (p_filesz ph)) as [Hlt|Hfm].
  { wp_step. apply segment_fail; [done..|]. left. intros [?|[? _]]; [done|lia]. }
  destruct (seg_geometry ph Hs Hm) as (-> & -> & Ecount & P1 & P2 & P3 & P4 & P5 & ->). rewrite Ecount.
  destruct (sn_fields _ Hs) as (F1 & F2 & F3 & F4). pose proof (sn_file _ Hs) as F5. unfold is_u32 in *.
  assert (Hgs : seg_start ph / 4096 = p_vaddr ph / 4096) by (destruct P1; lia).
  assert (Htp : ∀ g, seg_start ph / 4096 <= g < seg_end ph / 4096 → g ≠ TEMP_MAP_VADDR / 4096).
  { intros g Hg ->. apply (sn_temp _ Hs). by split_and!; try lia. }
  wp_step. apply (env_malloc_wp _ s); [done|..].
  { intros s1 E1 G1 _ R1. change (0 =? 0) with true. cbn iota. wp_step. apply segment_fail; rewrite ?E1; auto. }
  intros pages s1 E1 G1 _ Hp0 Lp Np. rewrite (proj2 (Z.eqb_neq pages 0)) by done. wp_step. apply (on_machine_wp _ _ s); [done|].
  rewrite E1. eapply wp_mono; [apply (map_pages_wp S pd); [done..|lia| |done]|].
  { destruct P1, P2. lia. }
  cbn beta. intros r m2 (Q2 & Pr2 & H2) s2 E2 G2 L2.
  assert (Q2' : quiet (seg_touched (env_get s) [ph]) none1 S (env_get s) m2).
  { eapply quiet_weaken; [| |exact Q2]; [|done]. intros q g _ [?|[Hg Hsh]]; [by left|right]. split; [|done].
    exists ph. split; [by left|]. by split_and!; try lia. }
  assert (Rd2 : ready S pd m2) by by eapply ready_quiet.
  assert (Lp2 : pages = 0 ∨ (env_live pages s2 ∧ ¬ env_live pages s)) by (right; split; [by apply L2|done]).
  destruct r as [l|].
  2: { wp_step. apply (env_free_wp _ s); [done|done|]. intros s3 E3 G3 _ _. wp_step. apply segment_fail; rewrite ?E3, ?E2; auto. }
  assert (Hlen : (Z.to_nat ((seg_end ph - seg_start ph) / 4096) - length l = 0)%nat) by (destruct H2 as [Hl _]; lia).
  rewrite Hlen, app_nil_r. destruct (Z.ltb_spec 0 (p_filesz ph)) as [Hf|Hf]; cbn [negb].
  2: { wp_step. apply (env_free_wp _ s); [done|by left|]. intros s3 E3 G3 _ L3. wp_step.
       apply (env_free_wp _ s); [done| |].
       { destruct Lp2 as [->|[? ?]]; [by left|right]. split; [by apply L3; [left|]|done]. }
       intros s4 E4 G4 _ _. wp_step. assert (E : env_get s4 = m2) by congruence.
       unfold segment_post. rewrite E. do 3 (split; [done|]). left. split; [done|]. split; [right; split; [done|lia]|].
       apply (filled_bytes (env_get s) m2 m2 ph l [] none1); try done.
       - by apply quiet_views, quiet_refl, Rd2.
       - intros; lia. - simpl. lia.
       - intros k v f y _ _. unfold copied_byte. rewrite lookup_nil. by destruct (_ <=? _). }
  wp_step. apply (env_malloc_wp _ s); [done|..].
  { intros s3 E3 G3 G23 R3. change (0 =? 0) with true. cbn iota. wp_step. apply (env_free_wp _ s); [done| |].
    { destruct Lp2 as [->|[? ?]]; [by left|right]. split; [by apply G23|done]. }
    intros s4 E4 G4 A4 _. wp_step. apply segment_fail; rewrite ?E4, ?E3, ?E2; try done. right. right. by eapply refused_after. }
  intros buf s3 E3 G3 G23 Hb0 Lb Nb. rewrite (proj2 (Z.eqb_neq buf 0)) by done. wp_step.
  eapply wp_mono; [apply source_law; [apply G3|lia..]|]. cbn beta. intros r s4 ([E4 Ok4 Rf4] & L4 & H4).
  assert (G34 : grown s3 s4) by by split_and!. pose proof (env_grown_trans _ _ _ G3 G34) as G4.
  (* Both blocks are freed at the end. *)
  assert (Hfree : ∀ s5 (r : Z) (Q : Z → St → Prop), grown s4 s5 → (∀ s7, env_get s7 = env_get s5 → grown s s7 → env_after s4 s7 → Q r s7) →
    wp (env_free buf;; env_free pages;; mret r) Q s5).
  { intros s5 r5 Q G45 HQ. pose proof (env_grown_trans _ _ _ G4 G45) as G5. wp_step. apply (env_free_wp _ s); [done| |].
    { right. split; [by apply G45, G34|]. intros Hl. by apply Nb, G2. }
    intros s6 E6 G6 A6 L6. wp_step. apply (env_free_wp _ s); [done| |].
    { destruct Lp2 as [->|[Hl2 Hn2]]; [by left|right]. split; [|done]. apply L6; [|by apply G45, G34, G23].
      right. by intros ->. }
    intros s7 E7 G7 A7 _. wp_step. apply HQ; [congruence|done|]. eapply after_trans; [apply G45|by eapply after_trans]. }
  destruct r as [bytes|].
  2: { apply Hfree; [by apply env_grown_refl|]. intros s7 E7 G7 A7. apply segment_fail; rewrite ?E7, ?E4, ?E3, ?E2; try done.
       destruct H4 as [Hbad|Href]; [left|right; right; eapply refused_before; [apply G3|by eapply refused_after]].
       intros [?|[_ Hin]]; [done|]. specialize (Hin Hf). lia. }
  destruct H4 as [Hin ->]. wp_step. apply (on_machine_wp _ _ s4); [by apply env_grown_refl|]. rewrite E4, E3, E2.
  set (data := slice (Z.to_nat (p_offset ph)) (Z.to_nat (p_filesz ph)) file).
  destruct Rd2 as [Ok2 Ik2 Cr2 _ Pg2].
  eapply wp_mono; [apply (copy_pages_wp S pd data); [|done|done|done|done| | |lia|lia]|].
  { unfold data, slice. by apply Forall_take, Forall_drop. }
  { apply Forall_fmap, Forall_forall. intros [v f] Hvf%list_elem_of_lookup_1. destruct Hvf as [k Hk]. by destruct (proj2 H2 _ _ _ Hk) as (_ & ? & _). }
  { by apply (zeroed_nodup (env_get s) m2 (seg_start ph) (seg_end ph)). }
  cbn beta. intros ok m5 [Q5 H5] s5 E5 G45 L5. apply Hfree; [done|]. intros s7 E7 G7 _.
  assert (E : env_get s7 = m5) by congruence.
  assert (Hnew : ∀ f, f ∈ snd <$> l → ¬ used (env_get s) f).
  { intros f Hfl. apply list_elem_of_fmap in Hfl as ([v g] & -> & Hvf%list_elem_of_lookup_1). destruct Hvf as [k Hk].
    by destruct (proj2 H2 _ _ _ Hk) as (_ & _ & ? & _). }
  assert (Q : quiet (seg_touched (env_get s) [ph]) none1 S (env_get s) m5).
  { apply (quiet_drop _ (λ f, f ∈ snd <$> l)); [done|]. eapply quiet_trans; [by apply quiet_frames|].
    eapply quiet_weaken; [| |exact Q5]; [by left|done]. }
  assert (Rd5 : ready S pd m5).
  { apply (ready_quiet S pd _ _ _ _ Q Hrd). by apply (program_quiet S pd m2 m5 (λ f, f ∈ snd <$> l)). }
  destruct ok; [|apply segment_fail; rewrite ?E; auto]. unfold segment_post. rewrite E.
  split; [done|]. split; [done|]. split; [done|]. left. split; [done|]. split; [right; split; [done|lia]|].
  apply (filled_bytes (env_get s) m2 m5 ph l data (λ f, f ∈ snd <$> l)); try done.
  - intros i Hi. unfold data. rewrite slice_lookup by lia. f_equal. lia.
  - unfold data. rewrite length_slice; lia.
Qed.

(** *** All segments *)

Definition load_ok (phs : list Elf32_Phdr) : Prop := Forall (λ ph, p_type ph = PT_LOAD → seg_ok file ph) phs.
(** The byte that belongs at an address: of the last segment that covers its
    page. *)
Fixpoint image_byte (phs : list Elf32_Phdr) (a : Z) : option Z :=
  match phs with
  | [] => None
  | ph :: phs =>
      match image_byte phs a with
      | Some b => Some b
      | None => if decide (covers ph (a / 4096)) then Some (seg_byte file ph a) else None
      end
  end.
(** The program sees the image. *)
Definition sees (m : machine) (phs : list Elf32_Phdr) : Prop :=
  ∀ a b, 0 <= a → image_byte phs a = Some b → ∃ f, user_page m pd a f ∧ space_byte m pd a = b.
Definition segments_post s (phs : list Elf32_Phdr) (r : Z) s' : Prop :=
  grown s s' ∧ quiet (seg_touched (env_get s) phs) none1 S (env_get s) (env_get s') ∧ ready S pd (env_get s') ∧
  ((r = 0 ∧ load_ok phs ∧ sees (env_get s') phs) ∨ (r = -1 ∧ (¬ load_ok phs ∨ full (env_get s') ∨ env_refused s s'))).

Lemma image_byte_None phs a : image_byte phs a = None → ∀ ph, ph ∈ phs → ¬ covers ph (a / 4096).
Proof.
  induction phs as [|ph phs IH]; cbn [image_byte]; [by intros _ ? ?%not_elem_of_nil|].
  destruct (image_byte phs a); [done|]. case_decide; [done|]. intros _ q [->|Hq]%elem_of_cons; [done|]. by apply IH.
Qed.

Lemma covers_bound ph g : sane ph → covers ph g → 0 <= g < 2 ^ 20.
Proof.
  intros Hs (_ & Hm & Hg). destruct (seg_geometry ph Hs Hm) as (_ & _ & _ & [G1 _] & [G3 G4] & _ & G6 & _). lia.
Qed.

(** A page that the later segments leave alone. *)
Lemma page_kept (m1 m2 : machine) phs a f :
  ready S pd m1 → quiet (seg_touched m1 phs) none1 S m1 m2 → 0 <= a < 2 ^ 32 → not_temp a →
  (∀ ph, ph ∈ phs → ¬ covers ph (a / 4096)) → user_page m1 pd a f →
  user_page m2 pd a f ∧ space_byte m2 pd a = space_byte m1 pd a.
Proof.
  intros [Ok _ _ Hp Pg] Q Ha Ht Hn Hu.
  assert (Hu2 : user_page m2 pd a f).
  { eapply quiet_user_page; [exact Q|done|done| |done]. intros [?|[(ph & Hin & Hc) _]]; [done|]. by apply (Hn ph). }
  split; [done|]. rewrite (user_page_byte _ _ _ _ Hu2), (user_page_byte _ _ _ _ Hu).
  eapply quiet_byte; [exact Q| |by intros []|lia]. apply (pk_data _ _ _ Pg a); [done|done|]. by apply user_page_frame.
Qed.

Lemma seg_touched_cons (m m1 : machine) W D ph phs q g :
  quiet W D S m m1 → pd ∈ S → q ∈ S → Forall sane phs → seg_touched m1 phs q g → seg_touched m (ph :: phs) q g.
Proof.
  intros Q Hp Hq Hs [?|[(ph' & Hin & Hc) Hsh]]; [by left|right]. split; [exists ph'; split; [by right|done]|].
  destruct (decide (q = pd)) as [->|Hne]; [by left|right]. destruct Hsh as [->|Hsh]; [done|].
  apply (q_shares _ _ _ _ _ Q); try done. pose proof (covers_bound ph' g (proj1 (Forall_forall _ _) Hs _ Hin) Hc).
  unfold is_index. lia.
Qed.

Lemma seg_touched_more (m : machine) phs phs' q g : phs ⊆ phs' → seg_touched m phs q g → seg_touched m phs' q g.
Proof. intros Hsub [?|[(ph & Hin & Hc) Hsh]]; [by left|right]. split; [exists ph; auto|done]. Qed.

Lemma load_segments_wp phs : ∀ s, env_ok s → ready S pd (env_get s) → Forall sane phs →
  wp (load_segments pd phs) (segments_post s phs) s.
Proof.
  induction phs as [|ph phs IH]; intros s Hok Hrd Hs; cbn [load_segments].
  { wp_step. split; [by apply env_grown_refl|]. split; [by apply quiet_views, quiet_refl, Hrd|]. split; [done|]. left.
    split; [done|]. split; [by apply Forall_nil|]. by intros a b _ E. }
  apply Forall_cons in Hs as [Hs1 Hs]. destruct (Z.eqb_spec (p_type ph) PT_LOAD) as [Ety|Nty]; cbn [negb].
  2: { eapply wp_mono; [by apply IH|]. intros r s' (G & Q & Rd & Hr). split; [done|]. split.
       { eapply quiet_weaken; [| |exact Q]; [|done]. intros q g _. apply seg_touched_more. by intros ? ?; right. }
       split; [done|]. destruct Hr as [(-> & Hl & Hsee)|(-> & Hf)]; [left|right].
       - split; [done|]. split; [by apply Forall_cons|]. intros a b Ha. cbn [image_byte].
         specialize (Hsee a). destruct (image_byte phs a) as [c|]; [by intros [= <-]; apply Hsee|].
         rewrite decide_False; [done|]. by intros [? _].
       - split; [done|]. destruct Hf as [Hf|Hf]; [left|by right]. by intros [_ ?]%Forall_cons. }
  wp_step. eapply wp_mono; [by apply load_segment_wp|]. intros r s1 (G1 & Q1 & Rd1 & Hr).
  pose proof (rd_pd _ _ _ Hrd) as Hp.
  assert (Q1' : quiet (seg_touched (env_get s) (ph :: phs)) none1 S (env_get s) (env_get s1)).
  { eapply quiet_weaken; [| |exact Q1]; [|done]. intros q g _. apply seg_touched_more. intros x ->%list_elem_of_singleton. by left. }
  destruct Hr as [(-> & Hl1 & Hsee1)|(-> & Hf)].
  2: { change (-1 <? 0) with true. cbn iota. wp_step. split; [done|]. split; [done|]. split; [done|]. right. split; [done|].
       destruct Hf as [Hf|Hf]; [left|by right]. intros [Hl _]%Forall_cons. auto. }
  change (0 <? 0) with false. cbn iota. eapply wp_mono; [apply IH; [apply G1|done|done]|]. intros r s2 (G2 & Q2 & Rd2 & Hr).
  split; [by eapply env_grown_trans|]. split.
  { eapply quiet_trans; [exact Q1'|]. eapply quiet_weaken; [| |exact Q2]; [|done]. intros q g Hq. by eapply seg_touched_cons. }
  split; [done|]. destruct Hr as [(-> & Hl & Hsee)|(-> & Hf)]; [left|right].
  - split; [done|]. split; [by apply Forall_cons|]. intros a b Ha. cbn [image_byte]. destruct (image_byte phs a) as [c|] eqn:Ec.
    { intros [= <-]. by apply Hsee. }
    case_decide as Hc; [|done]. intros [= <-]. destruct (Hsee1 a Ha Hc) as (f & Hu & <-). exists f.
    pose proof (covers_bound _ _ Hs1 Hc). apply (page_kept _ _ phs); [done|done|lia| |by apply image_byte_None|done].
    intros E. apply (sn_temp _ Hs1). by rewrite <- E.
  - split; [done|]. destruct Hf as [Hf|[Hf|Hf]]; [left|by right; left|right; right; eapply refused_before; [apply G1|done]].
    by intros [_ ?]%Forall_cons.
Qed.

(** *** The program header table *)

(** The headers, when the table is in the file. *)
Definition table_of (eh : Elf32_Ehdr) : option (list Elf32_Phdr) :=
  if decide (e_phoff eh + 32 * e_phnum eh <= Z.of_nat (length file)) then
    mapM (λ i, phdr_of (slice (Z.to_nat (e_phoff eh)) (Z.to_nat (32 * e_phnum eh)) file) (i * Z.to_nat SIZEOF_PHDR)) (seq 0 (Z.to_nat (e_phnum eh)))
  else None.
(** The result and the entry point. *)
Definition load_post s (phs : option (list Elf32_Phdr)) (entry : Z) (r : Z * Z) s' : Prop :=
  grown s s' ∧ ready S pd (env_get s') ∧
  match phs with
  | None => r = (-1, 0) ∧ quiet none2 none1 S (env_get s) (env_get s')
  | Some phs => quiet (seg_touched (env_get s) phs) none1 S (env_get s) (env_get s') ∧
      ((r = (0, entry) ∧ load_ok phs ∧ sees (env_get s') phs) ∨
       (r = (-1, 0) ∧ (¬ load_ok phs ∨ full (env_get s') ∨ env_refused s s')))
  end.

Lemma phdr_of_some b i n : Forall is_u8 b → length b = (32 * n)%nat → (i < n)%nat → ∃ ph, phdr_of b (i * Z.to_nat SIZEOF_PHDR) = Some ph.
Proof.
  intros Hb Hl Hi. unfold phdr_of. change (Z.to_nat SIZEOF_PHDR) with 32%nat.
  repeat match goal with
  | |- context [le32 b ?k] => let v := fresh in let E := fresh in
      destruct (le32_range b k Hb ltac:(lia)) as (v & E & _); rewrite E; clear E; cbn [mbind option_bind]
  end.
  by eexists.
Qed.

Lemma mapM_some {A B} (f : A → option B) l : (∀ x, x ∈ l → is_Some (f x)) → is_Some (mapM f l).
Proof. intros H. apply mapM_is_Some. by apply Forall_forall. Qed.

Lemma quiet_same_machine W D (m m1 : machine) : spaces_ok m S → m1 = m → quiet W D S m m1.
Proof. intros H ->. by apply quiet_views, quiet_frames, quiet_refl. Qed.

(** No allocation, or no table: nothing was mapped. *)
Lemma load_post_fail s s' phs entry :
  grown s s' → ready S pd (env_get s) → env_get s' = env_get s → phs = None ∨ env_refused s s' → load_post s phs entry (-1, 0) s'.
Proof.
  intros G Rd E Hr. split; [done|]. rewrite E. split; [done|]. destruct phs as [phs|].
  - split; [by apply quiet_same_machine; [apply Rd|]|]. right. split; [done|]. destruct Hr; [done|auto].
  - split; [done|]. by apply quiet_same_machine; [apply Rd|].
Qed.

(** A step before, which the machine does not see. *)
Lemma load_post_before s0 s phs entry r s' :
  grown s0 s → env_get s = env_get s0 → load_post s phs entry r s' → load_post s0 phs entry r s'.
Proof.
  intros G E (G' & Rd & H). split; [by eapply env_grown_trans|]. split; [done|]. rewrite E in H. destruct phs; [|done].
  destruct H as [Q [?|(Er & Hf)]]; (split; [done|]); [by left|right]. split; [done|].
  destruct Hf as [?|[?|?]]; [by left|by right; left|right; right]. eapply refused_before; [apply G|done].
Qed.

Lemma load_table_wp s eh :
  env_ok s → ready S pd (env_get s) → e_phentsize eh = 32 → is_u16 (e_phnum eh) → e_phnum eh ≠ 0 → is_u32 (e_phoff eh) →
  e_phoff eh + 32 * e_phnum eh < 2 ^ 32 → (∀ phs, table_of eh = Some phs → Forall sane phs) →
  wp (load_table pd eh) (load_post s (table_of eh) (e_entry eh)) s.
Proof.
  intros Hok Hrd Hsz Hnum Hnz Hoff Hend Hsane. pose proof (env_grown_refl s Hok) as G0. unfold load_table, is_u16, is_u32 in *.
  rewrite Hsz, u32_small by lia. wp_step. apply (env_malloc_wp _ s); [done|..].
  { intros s1 E1 G1 _ R1. change (0 =? 0) with true. cbn iota. wp_step. apply load_post_fail; auto. }
  intros tab s1 E1 G1 _ Hp0 Lt Nt. rewrite (proj2 (Z.eqb_neq tab 0)) by done. wp_step.
  eapply wp_mono; [apply source_law; [apply G1|lia..]|]. cbn beta. intros r s2 ([E2 Ok2 Rf2] & L2 & H2).
  assert (G2 : grown s s2) by (eapply env_grown_trans; [exact G1|by split_and!]).
  destruct r as [bytes|].
  2: { wp_step. apply (env_free_wp _ s); [done|right; auto|]. intros s3 E3 G3 A3 _. wp_step. apply load_post_fail; [done|done|congruence|].
       destruct H2 as [Hbad|Href]; [left|right; eapply refused_before; [apply G1|by eapply refused_after]]. unfold table_of. rewrite decide_False by lia. done. }
  destruct H2 as [Hin ->]. set (bytes := slice _ _ file).
  assert (Hb : Forall is_u8 bytes) by (unfold bytes, slice; by apply Forall_take, Forall_drop).
  assert (Hl : length bytes = (32 * Z.to_nat (e_phnum eh))%nat) by (unfold bytes; rewrite length_slice; lia).
  destruct (mapM_some (λ i, phdr_of bytes (i * Z.to_nat SIZEOF_PHDR)) (seq 0 (Z.to_nat (e_phnum eh)))) as [phs Hphs].
  { intros i Hi%elem_of_seq. destruct (phdr_of_some bytes i _ Hb Hl ltac:(lia)) as [ph ->]. by eexists. }
  assert (Ht : table_of eh = Some phs) by (unfold table_of; rewrite decide_True by lia; exact Hphs).
  rewrite Ht. wp_step. eapply wp_get_opt; [exact Hphs|]. wp_step.
  assert (Eg : env_get s2 = env_get s) by congruence.
  eapply wp_mono; [apply load_segments_wp; [apply G2|by rewrite Eg|by apply Hsane]|].
  intros r s3 (G3 & Q3 & Rd3 & Hr). rewrite Eg in Q3. pose proof (env_grown_trans _ _ _ G2 G3) as G03. wp_step.
  apply (env_free_wp _ s); [done|right; split; [by apply G3, L2|done]|]. intros s4 E4 G4 A4 _.
  assert (Hpost : ∀ r', (r' = (0, e_entry eh) ∧ load_ok phs ∧ sees (env_get s4) phs) ∨
    (r' = (-1, 0) ∧ (¬ load_ok phs ∨ full (env_get s4) ∨ env_refused s s4)) → load_post s (Some phs) (e_entry eh) r' s4).
  { intros r' Hr'. split; [done|]. rewrite E4 in *. by split_and!. }
  destruct Hr as [(-> & Hl1 & Hsee)|(-> & Hf)].
  - change (0 <? 0) with false. cbn iota. wp_step. apply Hpost. left. by rewrite E4.
  - change (-1 <? 0) with true. cbn iota. wp_step. apply Hpost. right. split; [done|]. rewrite E4.
    destruct Hf as [?|[?|?]]; [by left|by right; left|right; right].
    eapply refused_before; [apply G2|by eapply refused_after].
Qed.
End loader.

(** ** From memory *)

Section memory.
Context {St : Type} {KE : kernel_env St}.

Definition read_from_memory (image : option (list Z)) (image_size offset size : Z) : cmd St (option (list Z)) :=
  match image with
  | None => mret None
  | Some bytes =>
      if image_size <? u32 (offset + size) then mret None else
      if offset + size <=? Z.of_nat (length bytes) then mret (Some (slice (Z.to_nat offset) (Z.to_nat size) bytes)) else cundef
  end.
Definition memory_source (image : option (list Z)) (image_size : Z) : image_source St :=
  {| source_read := read_from_memory image image_size |}.

(** The second copy of the code of [load_segment] in the source: it differs in
    the call that reads the bytes. *)
Definition load_segment_from_memory (pd : Z) (image : option (list Z)) (image_size : Z) (ph : Elf32_Phdr) : cmd St Z :=
  load_segment (IS := memory_source image image_size) pd ph.
(** What follows the checks of the loader is [load_table] over this source, so
    that its segments are loaded by [load_segment_from_memory]. *)
Definition elf32_load_image_from_memory (pd : Z) (image : option (list Z)) (image_size : Z) (entry_out : bool) : cmd St (Z * Z) :=
  if (pd =? 0) || negb (bool_decide (is_Some image)) || negb entry_out then mret (-1, 0) else
  if image_size <? SIZEOF_EHDR then mret (-1, 0) else
  bytes ← read_from_memory image image_size 0 SIZEOF_EHDR;
  match bytes with
  | None => mret (-1, 0)
  | Some bytes =>
      eh ← cget_opt (ehdr_of bytes);
      if elf32_validate (Some eh) <? 0 then mret (-1, 0) else
      if negb (e_phentsize eh =? SIZEOF_PHDR) || (e_phnum eh =? 0) then mret (-1, 0) else
      if image_size <? u32 (e_phoff eh + u32 (e_phentsize eh * e_phnum eh)) then mret (-1, 0) else
      load_table (IS := memory_source image image_size) pd eh
  end.
End memory.

(** The header of a file that the loader takes. *)
Definition header_of (file : list Z) : option Elf32_Ehdr :=
  if decide (52 <= Z.of_nat (length file)) then
    eh ← ehdr_of (take 52 file);
    if (elf32_validate (Some eh) =? 0) && (e_phentsize eh =? 32) && negb (e_phnum eh =? 0) then Some eh else None
  else None.
(** The offsets and sizes in it do not wrap around. *)
Definition sane_file (file : list Z) : Prop :=
  ∀ eh, header_of file = Some eh → e_phoff eh + 32 * e_phnum eh < 2 ^ 32 ∧
    ∀ phs, table_of file eh = Some phs → Forall sane phs.

Lemma le16_u16 l off : Forall is_u8 l → (off + 2 ≤ length l)%nat → ∃ v, le16 l off = Some v ∧ is_u16 v.
Proof.
  intros Hl Hlen. destruct (le16_spec l off Hl Hlen) as (b0 & b1 & _ & _ & ? & ? & ->). unfold is_u8, is_u16 in *.
  eexists. split; [done|]. lia.
Qed.

Lemma ehdr_of_some b : Forall is_u8 b → length b = 52%nat → ∃ eh, ehdr_of b = Some eh ∧ is_u16 (e_phnum eh) ∧ is_u32 (e_phoff eh).
Proof.
  intros Hb Hl. unfold ehdr_of.
  repeat match goal with
  | |- context [le32 b ?k] => let v := fresh "v" in let E := fresh in let R := fresh in
      destruct (le32_range b k Hb ltac:(lia)) as (v & E & R); rewrite E; clear E; cbn [mbind option_bind]
  | |- context [le16 b ?k] => let v := fresh "v" in let E := fresh in let R := fresh in
      destruct (le16_u16 b k Hb ltac:(lia)) as (v & E & R); rewrite E; clear E; cbn [mbind option_bind]
  end.
  eexists. split; [done|]. cbn. by split.
Qed.

Lemma validate_cases eh : elf32_validate (Some eh) = 0 ∨ elf32_validate (Some eh) = -1.
Proof. unfold elf32_validate. repeat case_match; auto. Qed.

Section memory_correct.
Context {St : Type} {KE : kernel_env St} {KL : kernel_laws St} (S : list Z) (pd : Z) (image : list Z).
Hypothesis image_bytes : Forall is_u8 image.
Hypothesis image_small : Z.of_nat (length image) < 2 ^ 32.
Implicit Types (s : St).

Lemma memory_law s off n : env_ok s → 0 <= off → 0 < n → off + n < 2 ^ 32 →
  wp (read_from_memory (Some image) (Z.of_nat (length image)) off n) (λ r s', unseen s s' ∧ (∀ b, env_live b s → env_live b s') ∧
    match r with
    | None => Z.of_nat (length image) < off + n ∨ env_refused s s'
    | Some bytes => off + n <= Z.of_nat (length image) ∧ bytes = slice (Z.to_nat off) (Z.to_nat n) image
    end) s.
Proof.
  intros Hok Ho Hn Hs. unfold read_from_memory. rewrite u32_small by lia.
  assert (unseen s s) by (split; [done|done|apply after_refl]).
  destruct (Z.ltb_spec (Z.of_nat (length image)) (off + n)); [apply wp_ret; split; [done|]; split; [done|]; by left|].
  rewrite (proj2 (Z.leb_le _ _)) by lia. wp_step. split; [done|]. split; [done|]. by split.
Qed.

Lemma load_from_memory_wp s :
  env_ok s → ready S pd (env_get s) → sane_file image →
  wp (elf32_load_image_from_memory pd (Some image) (Z.of_nat (length image)) true) (λ r s',
    match header_of image with
    | None => r = (-1, 0) ∧ s' = s
    | Some eh => load_post S pd image s (table_of image eh) (e_entry eh) r s'
    end) s.
Proof.
  intros Hok Hrd Hsane. unfold elf32_load_image_from_memory, header_of.
  destruct (sp_page _ _ (rd_spaces _ _ _ Hrd) pd (rd_pd _ _ _ Hrd)) as (_ & Hpd & _).
  rewrite (proj2 (Z.eqb_neq pd 0)) by done. rewrite bool_decide_true by done. cbn [negb orb]. unfold SIZEOF_EHDR.
  destruct (Z.ltb_spec (Z.of_nat (length image)) 52) as [Hlt|Hge]; [rewrite decide_False by lia; by wp_step|].
  rewrite decide_True by lia. unfold read_from_memory at 1. rewrite (proj2 (Z.ltb_ge _ _)) by done.
  rewrite (proj2 (Z.leb_le _ _)) by lia. wp_step. wp_step. change (slice _ _ image) with (take 52 image).
  destruct (ehdr_of_some (take 52 image)) as (eh & Eeh & Hn & Ho); [by apply Forall_take|rewrite length_take; lia|].
  rewrite Eeh. wp_step. eapply wp_get_opt; [done|]. cbn [mbind option_bind].
  unfold sane_file, header_of in Hsane. rewrite decide_True, Eeh in Hsane by lia. cbn [mbind option_bind] in Hsane.
  destruct (validate_cases eh) as [Ev|Ev]; rewrite Ev in *; [|by apply wp_ret].
  change (0 <? 0) with false. change (0 =? 0) with true in *. cbn [andb] in *. unfold SIZEOF_PHDR.
  destruct (Z.eqb_spec (e_phentsize eh) 32) as [Esz|Nsz]; cbn [negb orb andb] in *; [|by apply wp_ret].
  destruct (Z.eqb_spec (e_phnum eh) 0) as [En|Nn]; cbn [negb orb andb] in *; [by apply wp_ret|].
  destruct (Hsane eh eq_refl) as [Hend Hsegs]. unfold is_u16, is_u32 in *. rewrite Esz, (u32_small (32 * _)), u32_small by lia.
  destruct (Z.ltb_spec (Z.of_nat (length image)) (e_phoff eh + 32 * e_phnum eh)) as [Hout|Hin].
  - wp_step. unfold table_of. rewrite decide_False by lia. split; [by apply env_grown_refl|]. split; [done|]. split; [done|].
    apply quiet_refl, Hrd.
  - apply (load_table_wp S pd image (IS := memory_source (Some image) (Z.of_nat (length image)))); try done.
    intros. by apply memory_law.
Qed.
End memory_correct.
End Elf.
