(* ===== verification/Exec.v ===== *)
(** * Running programs

    [src/kernel/sched/exec.c] and the part of [src/kernel/binfmt/elf.c] that
    reads from a vnode: a new address space, the image, the user stack with the
    arguments, the trampoline, and the process with its thread. *)

From S2P Require Import Prelude Pmm Links Paging Spaces Elf Objects Vnode Ramfs Vfs Stack Sched.
Import Pmm Paging Spaces Elf Sched.

Module Exec.

Definition USER_STACK_TOP : Z := 0xBFFFE000.
Definition USER_STACK_SIZE : Z := PAGE_SIZE * 16.
Definition TRAMPOLINE_PADDING_PAGES : Z := 4.

(** ** The stack of the program *)

(** [while (length)]: the bytes go to [address], page by page; at most [fuel]
    pages. *)
Fixpoint exec_copy_to_user_space (fuel : nat) (pd address : Z) (bytes : list Z) : cmd machine Z :=
  match fuel with
  | O => cundef
  | S fuel =>
      let length := Z.of_nat (length bytes) in
      if length =? 0 then mret 0 else
      let page := Z.land address (not32 (PAGE_SIZE - 1)) in
      s ← cget;
      let pde := entry_at pd (pd_index page) s in
      if negb (has pde PAGE_PRESENT) then mret (-1) else
      let pte := entry_at (frame_of pde) (pt_index page) s in
      if negb (has pte PAGE_PRESENT) || negb (has pte PAGE_USER) then mret (-1) else
      let offset := Z.land address (PAGE_SIZE - 1) in
      let amount := if length <? PAGE_SIZE - offset then length else PAGE_SIZE - offset in
      mapped ← paging_temp_map_frame pd (frame_of pte);
      if mapped =? 0 then mret (-1) else
      store_bytes (mapped + offset) (take (Z.to_nat amount) bytes);;
      paging_temp_unmap_frame pd;;
      exec_copy_to_user_space fuel pd (u32 (address + amount)) (drop (Z.to_nat amount) bytes)
  end.
(** The pages that [length] bytes can reach. *)
Definition copy_fuel (length : Z) : nat := Z.to_nat (length / PAGE_SIZE + 3).

(** The loop over the arguments, the last one first: the stack pointer and the
    pointers to the arguments after it, or an error. *)
Fixpoint push_args (pd : Z) (args : list cstring) (stack : Z) : cmd machine (option (Z * list Z)) :=
  match args with
  | [] => mret (Some (stack, []))
  | arg :: args =>
      let length := Z.of_nat (length arg) + 1 in
      if (PAGE_SIZE * 4 <? length) || (u32 (stack - (USER_STACK_TOP - USER_STACK_SIZE)) <? length) then mret None else
      let stack := u32 (stack - length) in
      r ← exec_copy_to_user_space (copy_fuel length) pd stack (arg ++ [0]);
      if negb (r =? 0) then mret None else
      rest ← push_args pd args stack;
      mret ('(top, ptrs) ← rest; Some (top, ptrs ++ [stack]))
  end.

(** The result, [*stack_out] and [*argv_out]; [argv] is [None] for NULL. *)
Definition exec_build_stack (pd argc : Z) (argv : option (list cstring)) : cmd machine (Z * Z * Z) :=
  if (argc <? 0) || (32 <? argc) || (negb (argc =? 0) && negb (bool_decide (is_Some argv))) then mret (-1, 0, 0) else
  args ← cget_opt (if argc =? 0 then Some [] else
    args ← argv; if Z.of_nat (length args) <? argc then None else Some (take (Z.to_nat argc) args));
  pushed ← push_args pd (reverse args) USER_STACK_TOP;
  match pushed with
  | None => mret (-1, 0, 0)
  | Some (stack, user_argv) =>
      let stack := Z.land stack (not32 3) in
      let vector_size := u32 (u32 (argc + 1) * 4) in
      if u32 (stack - (USER_STACK_TOP - USER_STACK_SIZE)) <? vector_size then mret (-1, 0, 0) else
      let stack := u32 (stack - vector_size) in
      r ← exec_copy_to_user_space (copy_fuel vector_size) pd stack ((user_argv ++ [0]) ≫= put32);
      if negb (r =? 0) then mret (-1, 0, 0) else mret (0, Z.land stack (not32 0xF), stack)
  end.

(** [for (addr = stack_base; addr < USER_STACK_TOP; addr += PAGE_SIZE)], with
    what a failure frees; [true] when the pages are there. *)
Fixpoint stack_pages (fuel : nat) (pd pd_phys addr : Z) : cmd machine bool :=
  match fuel with
  | O => cundef
  | S fuel =>
      if negb (addr <? USER_STACK_TOP) then mret true else
      phys ← alloc_frame;
      if phys =? 0 then paging_destroy_address_space pd pd_phys;; mret false else
      r ← paging_map_page pd addr phys (Z.lor (Z.lor PAGE_PRESENT PAGE_RW) PAGE_USER);
      if negb (r =? 0) then free_frame phys;; paging_destroy_address_space pd pd_phys;; mret false else
      kpage ← paging_temp_map_frame pd phys;
      if kpage =? 0 then paging_destroy_address_space pd pd_phys;; mret false else
      store_bytes kpage (replicate (Z.to_nat PAGE_SIZE) 0);;
      paging_temp_unmap_frame pd;;
      stack_pages fuel pd pd_phys (u32 (addr + PAGE_SIZE))
  end.

(** The code of the trampoline: it pushes the arguments, calls the entry point
    and exits with what that returns. *)
Definition tramp_code (user_argv argc entry : Z) : list Z :=
  [0x68] ++ put32 user_argv ++ [0x68] ++ put32 argc ++ [0xB8] ++ put32 entry ++
  [0xFF; 0xD0; 0x89; 0xC3; 0xB8; 0x01; 0; 0; 0; 0xCD; 0x80].
Definition trampoline_addr : Z := USER_STACK_TOP - USER_STACK_SIZE - PAGE_SIZE * TRAMPOLINE_PADDING_PAGES.

(** The pages of [exec_elf_context]: the initial stack pointer and the user's
    [argv], or [None] when the address space was destroyed. *)
Definition exec_pages (pd pd_phys entry argc : Z) (argv : option (list cstring)) : cmd machine (option (Z * Z)) :=
  let fail : cmd machine (option (Z * Z)) := paging_destroy_address_space pd pd_phys;; mret None in
  ok ← stack_pages 17 pd pd_phys (USER_STACK_TOP - USER_STACK_SIZE);
  if negb (ok : bool) then mret None else
  tramp_phys ← alloc_frame;
  if tramp_phys =? 0 then fail else
  r ← paging_map_page pd trampoline_addr tramp_phys (Z.lor (Z.lor PAGE_PRESENT PAGE_RW) PAGE_USER);
  if negb (r =? 0) then free_frame tramp_phys;; fail else
  tramp_kpage ← paging_temp_map_frame pd tramp_phys;
  if tramp_kpage =? 0 then fail else
  '(r, initial_stack, user_argv) ← exec_build_stack pd argc argv;
  if negb (r =? 0) then paging_temp_unmap_frame pd;; fail else
  tramp_kpage ← paging_temp_map_frame pd tramp_phys;
  if tramp_kpage =? 0 then fail else
  let code := tramp_code user_argv (u32 argc) entry in
  store_bytes tramp_kpage code;;
  store_bytes (tramp_kpage + Z.of_nat (length code)) (replicate (Z.to_nat PAGE_SIZE - length code) 0);;
  paging_temp_unmap_frame pd;;
  mret (Some (initial_stack, user_argv)).

(** ** The process *)

(** The block that the new thread gets as its argument. *)
Record user_exec_context := mk_context { entry : Z; stack_top : Z; ctx_argc : Z; ctx_argv : Z }.

Section exec.
(** The addresses of the assembly entry of a thread and of [user_thread_entry]. *)
Context (kthread_entry user_thread_entry : Z).

Definition on_mm {A} (m : cmd machine A) : cmd os A := czoom mm set_mm m.

(** The pid and the contents of the block of the thread, or an error. *)
Definition exec_elf_context (pd pd_phys elf_entry argc : Z) (argv : option (list cstring)) : cmd os (Z * option (Z * user_exec_context)) :=
  let destroy : cmd os (Z * option (Z * user_exec_context)) :=
    on_mm (paging_destroy_address_space pd pd_phys);; mret (-1, None) in
  pages ← on_mm (exec_pages pd pd_phys elf_entry argc argv);
  match pages with
  | None => mret (-1, None)
  | Some (initial_stack, user_argv) =>
      ctx ← malloc;
      if ctx =? 0 then destroy else
      let block := mk_context trampoline_addr initial_stack (u32 argc) user_argv in
      kernel_stack ← malloc;
      if kernel_stack =? 0 then free ctx;; destroy else
      t ← thread_create kthread_entry user_thread_entry ctx kernel_stack 4096;
      if t =? 0 then free ctx;; free kernel_stack;; destroy else
      process ← proc_create;
      if process =? 0 then free_thread t;; free ctx;; free kernel_stack;; destroy else
      x ← get_proc process;
      put_proc process (mk_process (p_pid x) (p_ppid x) (p_exit_code x) (p_alive x) (p_cwd x) (p_thread x) pd pd_phys);;
      proc_attach_thread process t;;
      sched_add t;;
      mret (p_pid x, Some (ctx, block))
  end.

(** *** Loading from memory: the heap of the scheduler. *)
#[export] Instance os_env : kernel_env os := {|
  env_get := mm;
  env_put := set_mm;
  env_malloc := malloc;
  env_free := free;
  env_ok := λ s, NoDup (filter (λ a, a ≠ 0) (answers (hp s))) ∧ ∀ a, a ∈ answers (hp s) → a ≠ 0 → a ∉ blocks (hp s);
  env_live := λ a s, a ∈ blocks (hp s);
  env_after := λ s s', ∃ given, answers (hp s) = given ++ answers (hp s');
  env_refused := λ s s', answers (hp s') = [] ∨ ∃ given, answers (hp s) = given ++ answers (hp s') ∧ 0 ∈ given
|}.

(** The argument is NULL or not; [entry] is 0 before the load. *)
Definition exec_elf_image (image : option (list Z)) (size : Z) : cmd os (Z * option (Z * user_exec_context)) :=
  if negb (bool_decide (is_Some image)) || (size =? 0) then mret (-1, None) else
  pd ← on_mm paging_create_address_space;
  if pd =? 0 then mret (-1, None) else
  '(r, entry) ← elf32_load_image_from_memory pd image size true;
  if r <? 0 then mret (-1, None) else
  '(result, ctx) ← exec_elf_context pd pd entry 0 None;
  mret (if result <? 0 then result else 0, ctx).
End exec.

(** ** The heap of the scheduler keeps the loader's laws *)

Lemma filter_nonzero_app (l1 l2 : list Z) : filter (λ a : Z, a ≠ 0) (l1 ++ l2) = filter (λ a : Z, a ≠ 0) l1 ++ filter (λ a : Z, a ≠ 0) l2.
Proof. apply filter_app. Qed.

#[export] Instance os_laws : kernel_laws os.
Proof.
  split; cbn; try done.
  - intros m s. by exists [].
  - intros s. by exists [].
  - intros s1 s2 s3 [g1 E1] [g2 E2]. exists (g1 ++ g2). by rewrite E1, E2, app_assoc.
  - intros s1 s2 s3 [g1 E1] [E|(g2 & E2 & Hin)]; [by left|right]. exists (g1 ++ g2). split; [by rewrite E1, E2, app_assoc|].
    apply elem_of_app. by right.
  - intros s1 s2 s3 [E|(g1 & E1 & Hin)] [g2 E2].
    + left. rewrite E in E2. symmetry in E2. by apply app_eq_nil in E2 as [_ ->].
    + right. exists (g1 ++ g2). split; [by rewrite E1, E2, app_assoc|]. apply elem_of_app. by left.
  - intros s [Hnd Hfresh]. unfold malloc, alloc. wp_step. unfold wp at 1. destruct (answers (hp s)) as [|a o] eqn:Ea.
    { cbn [Z.eqb]. wp_step. split; [|split; [done|left; by split; [|left]]]. split; [done| |]; cbn; rewrite Ea; [by split|by exists []]. }
    cbn [hp set_hp]. destruct (Z.eqb_spec a 0) as [->|Hne].
    { wp_step. split; [|split; [done|left; split; [done|right; exists [0]; by split; [|left]]]].
      split; [done| |by exists [0]]. cbn. rewrite filter_cons_False in Hnd by lia. split; [done|]. intros x Hx. apply Hfresh. by right. }
    rewrite filter_cons_True in Hnd by done. apply NoDup_cons in Hnd as [Hna Hnd]. wp_steps.
    assert (a ∉ blocks (hp s)) as Hb by (apply Hfresh; [left|done]).
    split; [|split; [set_solver|right; set_solver]]. split; [done| |by exists [a]]. cbn. split; [done|].
    intros x Hx Hx0. apply not_elem_of_union. split; [|apply Hfresh; [by right|done]]. rewrite not_elem_of_singleton. intros ->.
    by apply Hna, list_elem_of_filter.
  - intros s a [Hnd Hfresh] Ha. unfold free. destruct (Z.eqb_spec a 0) as [->|Hne].
    { wp_step. split; [|by intros]. split; [done|done|by exists []]. }
    destruct Ha as [?|Ha]; [done|]. wp_step. wp_step. rewrite bool_decide_true by done. wp_step.
    split; [|intros b [?|?]; [done|set_solver]]. split; [done| |by exists []]. cbn. split; [done|]. intros x Hx Hx0. specialize (Hfresh x Hx Hx0). set_solver.
Qed.

(** What a loader makes of a file: the machine before and after, whether an
    allocation was refused, and the result with the entry point. *)
Definition load_result (S : list Z) (pd : Z) (image : list Z) (m m' : machine) (refused : Prop) (r : Z * Z) : Prop :=
  match header_of image with
  | None => r = (-1, 0) ∧ m' = m
  | Some eh =>
      ready S pd m' ∧
      match table_of image eh with
      | None => r = (-1, 0) ∧ quiet none2 none1 S m m'
      | Some phs =>
          quiet (seg_touched pd m phs) none1 S m m' ∧
          ((r = (0, e_entry eh) ∧ load_ok image phs ∧
            ∀ a b, 0 <= a → image_byte image phs a = Some b →
              user_access m' pd true a = true ∧ space_byte m' pd a = b) ∨
           (r = (-1, 0) ∧ (¬ load_ok image phs ∨ full m' ∨ refused)))
      end
  end.

Lemma load_post_result `{kernel_laws St} S pd image (s s' : St) eh r :
  header_of image = Some eh → load_post S pd image s (table_of image eh) (e_entry eh) r s' →
  load_result S pd image (env_get s) (env_get s') (env_refused s s') r.
Proof.
  intros Eh (_ & Rd & H'). unfold load_result. rewrite Eh. split; [done|]. destruct (table_of image eh) as [phs|]; [|done].
  destruct H' as [Q H']. split; [done|]. destruct H' as [(-> & Hload & Hsee)|?]; [left|by right]. split; [done|]. split; [done|].
  intros a b Ha Eb. destruct (Hsee a b Ha Eb) as (f & Hu & <-). split; [|done]. by eapply user_page_access; [apply Rd|apply Rd|].
Qed.

(** Loading an image that is in memory gives the program its image.  A file
    that the loader does not take changes nothing.  Otherwise the result is the
    entry point, and then every byte of the pages of the loadable segments is
    mapped in a frame of the program's own that it may write, and is the byte
    of the file that the last segment over that page puts there, or zero; or
    the load fails, and then a segment does not fit, no frame is left, or an
    allocation was refused.  In all cases the tables stay well formed, the
    program's other pages keep their bytes, other address spaces see no change
    but at the temporary page and where they share a table with the program,
    and no frame that was in use is written, tables apart. *)
Theorem elf_load_correct (S : list Z) (pd : Z) (image : list Z) (s : os) :
  Forall is_u8 image → Z.of_nat (length image) < 2 ^ 32 → sane_file image → env_ok s → ready S pd (mm s) →
  wp (elf32_load_image_from_memory pd (Some image) (Z.of_nat (length image)) true) (λ r s',
    load_result S pd image (mm s) (mm s') (env_refused s s') r) s.
Proof.
  intros Hb Hl Hsane Hok Hrd. eapply wp_mono; [by apply (load_from_memory_wp S pd image)|]. cbn beta.
  intros r s' Hres. destruct (header_of image) as [eh|] eqn:Eh; [exact (load_post_result S pd image s s' eh r Eh Hres)|].
  destruct Hres as [-> ->]. unfold load_result. by rewrite Eh.
Qed.

(** ** The stack of the program *)

Section stack.
Context (S : list Z) (pd : Z).
Implicit Types (s : machine).

(** The frames of the program. *)
Definition program_frame s (f : Z) : Prop := ∃ a, 0 <= a < 2 ^ 32 ∧ not_temp a ∧ user_frame s pd a = Some f.
(** The program may write the addresses [lo, hi). *)
Definition writable s (lo hi : Z) : Prop := ∀ a, lo <= a < hi → not_temp a ∧ ∃ f, user_page s pd a f.
(** What [bytes] at [address] makes of the bytes of the program. *)
Definition patched s s' (address : Z) (bytes : list Z) : Prop :=
  ∀ a, 0 <= a < 2 ^ 32 → not_temp a → (∃ f, user_page s pd a f) →
    space_byte s' pd a = default (space_byte s pd a) (if address <=? a then bytes !! Z.to_nat (a - address) else None).
(** Only the program's frames, and the temporary page, are written. *)
Definition wrote s s' : Prop := quiet temp_page (program_frame s) S s s' ∧ ready S pd s'.

Lemma wrote_trans s1 s2 s3 : pd ∈ S → wrote s1 s2 → wrote s2 s3 → wrote s1 s3.
Proof.
  intros Hp [Q1 R1] [Q2 R2]. split; [|done]. eapply quiet_trans; [exact Q1|]. eapply quiet_weaken; [| |exact Q2]; [done|].
  intros f (a & Ha & Ht & E). exists a. split; [done|]. split; [done|]. unfold user_frame in *. by rewrite (q_view _ _ _ _ _ Q1) in E.
Qed.
Lemma wrote_refl s : ready S pd s → wrote s s.
Proof. intros H. split; [|done]. by apply quiet_views, quiet_frames, quiet_refl, H. Qed.

Lemma wrote_page s s' a f : pd ∈ S → wrote s s' → 0 <= a < 2 ^ 32 → not_temp a → user_page s pd a f → user_page s' pd a f.
Proof. intros Hp [Q _] Ha Ht. by apply (quiet_user_page _ _ _ _ _ _ _ _ Q). Qed.
Lemma wrote_writable s s' lo hi : pd ∈ S → wrote s s' → 0 <= lo → hi <= 2 ^ 32 → writable s lo hi → writable s' lo hi.
Proof.
  intros Hp Hw Hlo Hhi H a Ha. destruct (H a Ha) as [Ht [f Hf]]. split; [done|]. exists f. by eapply wrote_page; [..|exact Hf]; [| |lia|].
Qed.

(** Writing part of one page. *)
Lemma write_page_wp s s' f address bytes :
  ready S pd s → 0 <= address < 2 ^ 32 → not_temp address → user_page s pd address f →
  address mod 4096 + Z.of_nat (length bytes) <= 4096 → quiet temp_page (eq f) S s s' →
  (∀ y, 0 <= y < 4096 → byte_at s' (f + y) = default (byte_at s (f + y)) (if address mod 4096 <=? y then bytes !! Z.to_nat (y - address mod 4096) else None)) →
  wrote s s' ∧ patched s s' address bytes.
Proof.
  intros [Hok Hk Hc Hp Hpg] Ha Ht Hu Hl Q Hb. split; [split|].
  - eapply quiet_weaken; [| |exact Q]; [done|]. intros g <-. exists address. split; [done|]. split; [done|]. by apply user_page_frame.
  - eapply ready_quiet; [exact Q|done|]. by eapply program_quiet.
  - intros a Har Hta [g Hg]. assert (Hg' : user_page s' pd a g) by by eapply quiet_user_page.
    rewrite (user_page_byte _ _ _ _ Hg), (user_page_byte _ _ _ _ Hg').
    destruct (decide (a / 4096 = address / 4096)) as [E|E].
    + assert (g = f) as ->.
      { apply user_page_frame in Hu, Hg. unfold user_frame in *. rewrite (mapping_same_page s pd a address) in Hg by done. congruence. }
      rewrite Hb by lia. destruct (Z.leb_spec (address mod 4096) (a mod 4096)), (Z.leb_spec address a); try lia; try done.
      do 3 f_equal. lia.
    + assert (f ≠ g).
      { intros <-. apply E. apply (pk_once _ _ _ Hpg a address f); try done; by apply user_page_frame. }
      rewrite (quiet_byte _ _ _ _ _ g _ Q); [|apply (pk_data _ _ _ Hpg a); [done|done|by apply user_page_frame]|done|lia].
      destruct (Z.leb_spec address a); [|done]. rewrite lookup_ge_None_2; [done|]. lia.
Qed.

Lemma patched_trans s s1 s2 address bs1 bs2 :
  pd ∈ S → wrote s s1 → patched s s1 address bs1 → patched s1 s2 (address + Z.of_nat (length bs1)) bs2 → patched s s2 address (bs1 ++ bs2).
Proof.
  intros Hp Hw H1 H2 a Ha Ht [f Hf]. rewrite H2 by (done || exists f; by eapply wrote_page). rewrite H1 by eauto.
  destruct (Z.leb_spec address a), (Z.leb_spec (address + Z.of_nat (length bs1)) a); try lia.
  - rewrite lookup_app_r by lia. rewrite (lookup_ge_None_2 bs1) by lia. cbn. do 3 f_equal. lia.
  - by rewrite lookup_app_l by lia.
  - done.
Qed.

Lemma exec_copy_wp fuel : ∀ s address bytes,
  ready S pd s → 0 <= address → address + Z.of_nat (length bytes) < 2 ^ 32 → Forall is_u8 bytes →
  writable s address (address + Z.of_nat (length bytes)) →
  (length bytes = 0%nat ∧ 0 < Z.of_nat fuel) ∨ (address mod 4096 + Z.of_nat (length bytes) + 4095) / 4096 < Z.of_nat fuel →
  wp (exec_copy_to_user_space fuel pd address bytes) (λ r s', ready S pd s' ∧
    ((r = -1 ∧ full s') ∨ (r = 0 ∧ wrote s s' ∧ patched s s' address bytes))) s.
Proof.
  induction fuel as [|fuel IH]; intros s address bytes Hrd Ha Hl Hb Hw Hfuel; [lia|]. cbn [exec_copy_to_user_space].
  destruct (Z.eqb_spec (Z.of_nat (length bytes)) 0) as [E0|N0].
  { wp_step. split; [done|]. right. split; [done|]. split; [by apply wrote_refl|]. destruct bytes; [|done].
    intros a _ _ _. rewrite lookup_nil. by destruct (_ <=? _). }
  destruct (Hw address ltac:(lia)) as [Ht [f Hf]]. pose proof Hrd as [Hok Hk Hc Hp Hpg].
  assert (Hpage : Z.land address (not32 (PAGE_SIZE - 1)) = address / 4096 * 4096).
  { change (PAGE_SIZE - 1) with (2 ^ 12 - 1). rewrite not32_ones, land_high_mask by lia. done. }
  assert (Hoff : Z.land address (PAGE_SIZE - 1) = address mod 4096).
  { change (PAGE_SIZE - 1) with (Z.ones 12). by rewrite Z.land_ones by lia. }
  rewrite Hpage, Hoff. destruct (same_page (address / 4096 * 4096) address) as [Ei Ej]; [lia..|]. rewrite Ei, Ej.
  wp_step. wp_step. pose proof Hf as (Hpu & pte & Hm & _ & Hu & Ef). unfold mapping, translate in Hm.
  destruct (has (entry_at pd (pd_index address) s) PAGE_PRESENT); [|done]. cbn [negb] in *.
  destruct (has (entry_at (frame_of (entry_at pd (pd_index address) s)) (pt_index address) s) PAGE_PRESENT); [|done].
  cbn in Hm. injection Hm as Hm. rewrite Hm, Hu, Ef. cbn [negb orb].
  set (amount := if Z.of_nat (length bytes) <? PAGE_SIZE - address mod 4096 then Z.of_nat (length bytes) else PAGE_SIZE - address mod 4096).
  assert (Hamount : amount = Z.min (Z.of_nat (length bytes)) (4096 - address mod 4096)).
  { unfold amount, PAGE_SIZE. destruct (Z.ltb_spec (Z.of_nat (length bytes)) (0x1000 - address mod 4096)); lia. }
  assert (Hdata : data s S f) by (apply (pk_data _ _ _ Hpg address); [lia|done|by apply user_page_frame]).
  apply (through_temp_wp S pd s f (address mod 4096) (take (Z.to_nat amount) bytes) (λ k, k + address mod 4096)); try done;
    [lia|rewrite length_take; lia|by apply Forall_take| |].
  { intros s1 Q1 F1. wp_step. split; [|by left]. eapply ready_quiet; [exact Q1|done|by eapply program_quiet]. }
  intros s1 Q1 H1.
  destruct (write_page_wp s s1 f address (take (Z.to_nat amount) bytes) Hrd) as [W1 P1]; try done; [lia|rewrite length_take; lia|].
  assert (Hlen1 : Z.of_nat (length (take (Z.to_nat amount) bytes)) = amount) by (rewrite length_take; lia).
  assert (Hlen2 : Z.of_nat (length (drop (Z.to_nat amount) bytes)) = Z.of_nat (length bytes) - amount) by (rewrite length_drop; lia).
  rewrite u32_small by lia.
  eapply wp_mono; [apply (IH s1 (address + amount)); [apply W1|lia|lia|by apply Forall_drop| |]|].
  { rewrite Hlen2. eapply wrote_writable; [done|exact W1|lia|lia|]. intros a Hra. apply Hw. lia. }
  { rewrite Hlen2. destruct (decide (amount = Z.of_nat (length bytes))) as [E|E]; [left|right].
    - rewrite length_drop. lia. - lia. }
  cbn beta. intros r s2 [R2 H2]. split; [done|]. destruct H2 as [?|(-> & W2 & P2)]; [by left|right]. split; [done|].
  split; [by eapply wrote_trans|]. rewrite <- (take_drop (Z.to_nat amount) bytes).
  eapply patched_trans; [done|exact W1|exact P1|]. by rewrite Hlen1.
Qed.

(** *** Arguments *)

Definition stack_base : Z := USER_STACK_TOP - USER_STACK_SIZE.
(** Where the arguments go, the last one first: the lowest address and the
    addresses of the arguments; they do not fit in [None]. *)
Fixpoint place (args : list cstring) (stack : Z) : option (Z * list Z) :=
  match args with
  | [] => Some (stack, [])
  | arg :: args =>
      let length := Z.of_nat (length arg) + 1 in
      if (4 * 4096 <? length) || (stack - stack_base <? length) then None else
      '(top, ptrs) ← place args (stack - length); Some (top, ptrs ++ [stack - length])
  end.
(** The C string [arg] is at [p], and the word [w] at [p]. *)
Definition string_at s (p : Z) (arg : cstring) : Prop := ∀ j c, (arg ++ [0]) !! j = Some c → space_byte s pd (p + Z.of_nat j) = c.
Definition word_at s (p w : Z) : Prop := ∀ j c, put32 w !! j = Some c → space_byte s pd (p + Z.of_nat j) = c.
(** The bytes outside [lo, hi) are kept. *)
Definition kept_outside s s' (lo hi : Z) : Prop :=
  ∀ a, 0 <= a < 2 ^ 32 → not_temp a → (∃ f, user_page s pd a f) → a < lo ∨ hi <= a → space_byte s' pd a = space_byte s pd a.
Definition c_string (arg : cstring) : Prop := Forall (λ c, 0 < c < 256) arg.

Lemma copy_fuel_enough address len : 0 <= len → (address mod 4096 + len + 4095) / 4096 < Z.of_nat (copy_fuel len).
Proof. intros H. unfold copy_fuel, PAGE_SIZE. change 0x1000 with 4096. lia. Qed.

(** Copying a block that fits the stack. *)
Lemma copy_block_wp s address bytes :
  ready S pd s → stack_base <= address → address + Z.of_nat (length bytes) <= USER_STACK_TOP → Forall is_u8 bytes →
  writable s stack_base USER_STACK_TOP →
  wp (exec_copy_to_user_space (copy_fuel (Z.of_nat (length bytes))) pd address bytes) (λ r s', ready S pd s' ∧
    ((r = -1 ∧ full s') ∨
     (r = 0 ∧ wrote s s' ∧ kept_outside s s' address (address + Z.of_nat (length bytes)) ∧
      ∀ j c, bytes !! j = Some c → space_byte s' pd (address + Z.of_nat j) = c))) s.
Proof.
  intros Hrd Hlo Hhi Hb Hw. pose proof (conj Hlo Hhi) as Hr. unfold stack_base, USER_STACK_TOP, USER_STACK_SIZE, PAGE_SIZE in Hr.
  eapply wp_mono; [apply exec_copy_wp; [done|lia|lia|done| |right; apply copy_fuel_enough; lia]|].
  { intros a Ha. apply Hw. lia. }
  cbn beta. intros r s' [Rd H]. split; [done|]. destruct H as [?|(-> & W & P)]; [by left|right]. split; [done|]. split; [done|]. split.
  - intros a Ha Ht Hu Hout. rewrite P by done. destruct (Z.leb_spec address a); [|done]. by rewrite lookup_ge_None_2 by lia.
  - intros j c Hj. pose proof (lookup_lt_Some _ _ _ Hj). destruct (Hw (address + Z.of_nat j) ltac:(lia)) as [Ht Hu].
    rewrite P by (done || lia). rewrite (proj2 (Z.leb_le _ _)) by lia.
    replace (Z.to_nat (address + Z.of_nat j - address)) with j by lia. by rewrite Hj.
Qed.

Lemma kept_trans s s1 s2 lo hi lo1 hi1 : pd ∈ S → wrote s s1 → kept_outside s s1 lo hi → kept_outside s1 s2 lo1 hi1 →
  kept_outside s s2 (Z.min lo lo1) (Z.max hi hi1).
Proof.
  intros Hp W H1 H2 a Ha Ht [f Hf] Hout. rewrite H2; [apply H1; try done; [by exists f|lia]|done|done| |lia].
  exists f. by eapply wrote_page.
Qed.

Lemma string_kept s s' p arg lo hi :
  writable s stack_base USER_STACK_TOP → kept_outside s s' lo hi → stack_base <= p → p + Z.of_nat (length arg) + 1 <= USER_STACK_TOP →
  hi <= p → string_at s p arg → string_at s' p arg.
Proof.
  intros Hw Hk Hlo Hhi Hp H j c Hj. pose proof (lookup_lt_Some _ _ _ Hj) as Hl. rewrite length_app in Hl. cbn in Hl.
  rewrite <- (H j c Hj). destruct (Hw (p + Z.of_nat j) ltac:(lia)) as [Ht Hu].
  pose proof (conj Hlo Hhi) as Hr. unfold stack_base, USER_STACK_TOP, USER_STACK_SIZE, PAGE_SIZE in Hr.
  apply Hk; try done; lia.
Qed.

Lemma push_args_wp args : ∀ s stack,
  ready S pd s → writable s stack_base USER_STACK_TOP → stack_base <= stack <= USER_STACK_TOP → Forall c_string args →
  wp (push_args pd args stack) (λ r s', ready S pd s' ∧
    match r with
    | None => place args stack = None ∨ full s'
    | Some (top, ptrs) => place args stack = Some (top, ptrs) ∧ wrote s s' ∧ stack_base <= top <= stack ∧
        kept_outside s s' top stack ∧ length ptrs = length args ∧
        ∀ i arg p, args !! i = Some arg → reverse ptrs !! i = Some p →
          top <= p ∧ p + Z.of_nat (length arg) + 1 <= stack ∧ string_at s' p arg
    end) s.
Proof.
  induction args as [|arg args IH]; intros s stack Hrd Hw Hst Hargs; cbn [push_args place].
  { wp_step. split; [done|]. split; [done|]. split; [by apply wrote_refl|]. split; [lia|]. by split. }
  apply Forall_cons in Hargs as [Harg Hargs]. pose proof Hst as Hr. unfold stack_base, USER_STACK_TOP, USER_STACK_SIZE, PAGE_SIZE in Hr.
  fold stack_base. rewrite (u32_small (stack - stack_base)) by (unfold stack_base, USER_STACK_TOP, USER_STACK_SIZE, PAGE_SIZE; lia).
  change (PAGE_SIZE * 4) with (4 * 4096). set (len := Z.of_nat (length arg) + 1) in *.
  destruct (Z.ltb_spec (4 * 4096) len); cbn [orb]; [wp_step; split; [done|by left]|].
  destruct (Z.ltb_spec (stack - stack_base) len) as [|Hfit]; cbn [orb]; [wp_step; split; [done|by left]|].
  assert (Hlen : Z.of_nat (length (arg ++ [0])) = len) by (rewrite length_app; cbn; lia).
  assert (Hbytes : Forall is_u8 (arg ++ [0])).
  { apply Forall_app. split; [|by apply Forall_singleton]. eapply Forall_impl; [exact Harg|]. unfold is_u8. cbn. intros; lia. }
  rewrite u32_small by (unfold stack_base, USER_STACK_TOP, USER_STACK_SIZE, PAGE_SIZE in Hfit; lia).
  pose proof (rd_pd _ _ _ Hrd) as Hp. wp_step. rewrite <- Hlen at 1.
  eapply wp_mono; [apply copy_block_wp; [done|lia|lia|done|done]|]. cbn beta. rewrite Hlen.
  intros r s1 [R1 [(-> & F1)|(-> & W1 & K1 & B1)]].
  { change (negb (-1 =? 0)) with true. cbn iota. wp_step. split; [done|by right]. }
  change (negb (0 =? 0)) with false. cbn iota. wp_step.
  assert (Hw1 : writable s1 stack_base USER_STACK_TOP) by (eapply wrote_writable; [done|exact W1|by_eval|by_eval|done]).
  eapply wp_mono; [apply (IH s1 (stack - len)); [done|done|lia|done]|]. cbn beta. intros r s2 [R2 H2]. wp_step. split; [done|].
  destruct r as [[top ptrs]|]; cbn.
  2: { destruct H2 as [->|?]; [by left|by right]. }
  destruct H2 as (-> & W2 & Ht & K2 & Hn & Hs). replace (stack - len + len) with stack in K1 by lia.
  split; [done|]. split; [by eapply wrote_trans|]. split; [lia|]. split.
  { pose proof (kept_trans _ _ _ _ _ _ _ Hp W1 K1 K2) as K. by rewrite Z.min_r, Z.max_l in K by lia. }
  split; [rewrite length_app; cbn; lia|]. rewrite reverse_app. intros [|i] arg' p Hi Hpi; cbn in Hi, Hpi.
  - injection Hi as <-. injection Hpi as <-. split; [lia|]. split; [lia|].
    eapply string_kept; [exact Hw1|exact K2|lia|lia|lia|]. intros j c Hj. by apply B1.
  - destruct (Hs i arg' p Hi Hpi) as (? & ? & ?). split; [done|]. split; [lia|done].
Qed.

Lemma put32_lookup ws : ∀ i w j, ws !! i = Some w → (j < 4)%nat → (ws ≫= put32) !! (4 * i + j)%nat = put32 w !! j.
Proof.
  induction ws as [|v ws IH]; intros i w j Hi Hj; [done|]. change ((v :: ws) ≫= put32) with (put32 v ++ (ws ≫= put32)).
  destruct i as [|i]; cbn in Hi.
  - injection Hi as <-. by rewrite lookup_app_l by (cbn; lia).
  - rewrite lookup_app_r by (cbn; lia). cbn [length put32]. replace (4 * Datatypes.S i + j - 4)%nat with (4 * i + j)%nat by lia. by apply IH.
Qed.
Lemma length_put32s ws : length (ws ≫= put32) = (4 * length ws)%nat.
Proof. induction ws as [|v ws IH]; [done|]. change ((v :: ws) ≫= put32) with (put32 v ++ (ws ≫= put32)). rewrite length_app, IH. cbn. lia. Qed.
Lemma put32s_bytes ws : Forall is_u8 (ws ≫= put32).
Proof.
  induction ws as [|v ws IH]; [by apply Forall_nil|]. change ((v :: ws) ≫= put32) with (put32 v ++ (ws ≫= put32)).
  apply Forall_app. split; [|done]. unfold put32. repeat (apply Forall_cons; split; [apply u8_range|]). by apply Forall_nil.
Qed.

(** The address of the vector of pointers and the pointers, or [None] when the
    arguments do not fit. *)
Definition stack_layout (args : list cstring) : option (Z * list Z) :=
  '(top, ptrs) ← place (reverse args) USER_STACK_TOP;
  let argv := top / 4 * 4 - 4 * (Z.of_nat (length args) + 1) in
  if argv <? stack_base then None else Some (argv, ptrs).

Lemma build_stack_wp args s :
  ready S pd s → writable s stack_base USER_STACK_TOP → Forall c_string args → Z.of_nat (length args) <= 32 →
  wp (exec_build_stack pd (Z.of_nat (length args)) (Some args)) (λ r s', ready S pd s' ∧
    ((r = (-1, 0, 0) ∧ (stack_layout args = None ∨ full s')) ∨
     (∃ argv ptrs, r = (0, argv / 16 * 16, argv) ∧ stack_layout args = Some (argv, ptrs) ∧ wrote s s' ∧
       stack_base <= argv ∧ argv mod 4 = 0 ∧ length ptrs = length args ∧
       kept_outside s s' argv USER_STACK_TOP ∧
       (∀ i p, (ptrs ++ [0]) !! i = Some p → word_at s' (argv + 4 * Z.of_nat i) p) ∧
       ∀ i arg p, args !! i = Some arg → ptrs !! i = Some p →
         argv + 4 * (Z.of_nat (length args) + 1) <= p ∧ p + Z.of_nat (length arg) + 1 <= USER_STACK_TOP ∧ string_at s' p arg))) s.
Proof.
  intros Hrd Hw Hargs Hn. unfold exec_build_stack, stack_layout. set (n := Z.of_nat (length args)) in *.
  rewrite (proj2 (Z.ltb_ge n 0)), (proj2 (Z.ltb_ge 32 n)) by lia. rewrite bool_decide_true by done.
  change (negb true) with false. rewrite andb_false_r. cbn [orb].
  assert (Ec : (if n =? 0 then Some [] else args' ← Some args; if Z.of_nat (length args') <? n then None
    else Some (take (Z.to_nat n) args')) = Some args).
  { destruct (Z.eqb_spec n 0) as [E|_]; [by destruct args|]. cbn. fold n. rewrite Z.ltb_irrefl. f_equal. apply take_ge. lia. }
  rewrite Ec. wp_step. eapply wp_get_opt; [done|]. wp_step.
  eapply wp_mono; [apply (push_args_wp (reverse args) s USER_STACK_TOP); [done|done|done|by apply Forall_reverse]|].
  cbn beta. intros r s1 [R1 H1]. destruct r as [[top ptrs]|].
  2: { wp_step. split; [done|]. left. split; [done|]. destruct H1 as [->|?]; [by left|by right]. }
  destruct H1 as (-> & W1 & Ht & K1 & El & Hs). cbn [mbind option_bind]. rewrite length_reverse in El.
  pose proof Ht as Hr. unfold stack_base, USER_STACK_TOP, USER_STACK_SIZE, PAGE_SIZE in Hr.
  assert (E4 : Z.land top (not32 3) = top / 4 * 4).
  { change 3 with (2 ^ 2 - 1). rewrite not32_ones, land_high_mask by lia. done. }
  rewrite E4. rewrite (u32_small (n + 1)), (u32_small ((n + 1) * 4)) by lia. fold stack_base.
  assert (Hb4 : stack_base <= top / 4 * 4) by (unfold stack_base, USER_STACK_TOP, USER_STACK_SIZE, PAGE_SIZE; lia).
  assert (Hb : 0 <= stack_base) by done.
  rewrite (u32_small (top / 4 * 4 - stack_base)) by lia.
  destruct (Z.ltb_spec (top / 4 * 4 - stack_base) ((n + 1) * 4)) as [Hno|Hfit].
  { wp_step. split; [done|]. left. split; [done|]. left. by rewrite (proj2 (Z.ltb_lt _ _)) by lia. }
  rewrite (proj2 (Z.ltb_ge _ _)) by lia. rewrite u32_small by lia.
  set (argv := top / 4 * 4 - (n + 1) * 4). replace (top / 4 * 4 - 4 * (n + 1)) with argv by lia.
  assert (El4 : Z.of_nat (length ((ptrs ++ [0]) ≫= put32)) = (n + 1) * 4).
  { rewrite length_put32s, length_app. cbn. unfold n. lia. }
  pose proof (rd_pd _ _ _ Hrd) as Hp.
  assert (Hw1 : writable s1 stack_base USER_STACK_TOP) by (eapply wrote_writable; [done|exact W1|by_eval|by_eval|done]).
  wp_step. rewrite <- El4.
  eapply wp_mono; [apply (copy_block_wp s1 argv); [done|lia|lia|apply put32s_bytes|done]|]. cbn beta. rewrite El4.
  intros r s2 [R2 [(-> & F2)|(-> & W2 & K2 & B2)]].
  { change (negb (-1 =? 0)) with true. cbn iota. wp_step. split; [done|]. left. split; [done|by right]. }
  change (negb (0 =? 0)) with false. cbn iota. wp_step. split; [done|]. right. exists argv, ptrs.
  assert (E16 : Z.land argv (not32 15) = argv / 16 * 16).
  { change 15 with (2 ^ 4 - 1). rewrite not32_ones, land_high_mask by lia. done. }
  change 0xF with 15. rewrite E16. split; [done|]. split; [done|]. split; [by eapply wrote_trans|].
  split; [lia|]. split; [lia|]. split; [done|]. split; [|split].
  - pose proof (kept_trans _ _ _ _ _ _ _ Hp W1 K1 K2) as K. by rewrite Z.min_r, Z.max_l in K by lia.
  - intros i p Hi j c Hj. pose proof (lookup_lt_Some _ _ _ Hj) as Hj4. cbn in Hj4.
    rewrite <- (B2 (4 * i + j)%nat c); [f_equal; lia|]. by rewrite (put32_lookup _ _ _ _ Hi).
  - intros i arg p Ha Hpi. pose proof (lookup_lt_Some _ _ _ Ha) as Hi.
    destruct (Hs (length args - Datatypes.S i)%nat arg p) as (H1 & H2 & H3).
    { rewrite reverse_lookup by lia. rewrite <- Ha. f_equal. lia. }
    { rewrite reverse_lookup by lia. rewrite <- Hpi. f_equal. lia. }
    split; [lia|]. split; [done|]. eapply string_kept; [exact Hw1|exact K2|lia|lia|lia|done].
Qed.
End stack.

(** ** A run

    An executable of 88 bytes: one segment of four bytes of code and four zero
    bytes at 0x08048000, loaded into the small machine of [Paging.v]. *)

Definition ex_image : list Z :=
  [0x7F; 69; 76; 70; 1; 1; 1] ++ replicate 9 0 ++ put16 2 ++ put16 3 ++ put32 1 ++ put32 0x08048000 ++ put32 52 ++ put32 0 ++ put32 0 ++
  put16 52 ++ put16 32 ++ put16 1 ++ put16 0 ++ put16 0 ++ put16 0 ++
  (put32 1 ++ put32 84 ++ put32 0x08048000 ++ put32 0 ++ put32 4 ++ put32 8 ++ put32 5 ++ put32 4096) ++
  [0xB8; 0x2A; 0xC3; 0x90].
Definition ex_os : os :=
  mk_os ∅ ∅ (mk_cpu 0 0 0 false 0 0 0) (mk_table zero_process [] []) (mk_heap ∅ [8; 16; 24]) ex_machine.
Definition ex_dirs : list Z := [0x2000; 0x4000].

Lemma ex_present p i : p ∈ ex_dirs → is_index i → present ex_machine p i →
  (i = 0 ∧ entry_at p i ex_machine = 0x3003) ∨ (p = 0x4000 ∧ i = 1 ∧ entry_at p i ex_machine = 0x5007).
Proof.
  intros Hp Hi Hpr. unfold present in Hpr. assert (is_page p) as Hpp.
  { apply elem_of_cons in Hp as [->|Hp]; [by_eval|]. apply list_elem_of_singleton in Hp as ->. by_eval. }
  destruct (ex_entry p i Hpp Hi) as [E|[(_ & ? & ?)|[(-> & [(? & ?)|(? & ?)])|Hbad]]]; [by rewrite E in Hpr|by left|by left|by right|].
  apply elem_of_cons in Hp as [->|Hp]; [by destruct Hbad|]. apply list_elem_of_singleton in Hp as ->. by destruct Hbad.
Qed.

Lemma ex_spaces : spaces_ok ex_machine ex_dirs.
Proof.
  split.
  - apply ex_pmm_wf.
  - intros p Hp. apply elem_of_cons in Hp as [->|Hp]; [|apply list_elem_of_singleton in Hp as ->]; (split; [by_eval|split; [done|by_eval]]).
  - intros p i Hp Hi Hpr. unfold table. destruct (ex_present p i Hp Hi Hpr) as [[_ ->]|(_ & _ & ->)];
      (split; [|split; [by_eval|done]]); change (frame_of 0x3003) with 0x3000; change (frame_of 0x5007) with 0x5000;
      unfold ex_dirs; rewrite !not_elem_of_cons; (split; [lia|split; [lia|apply not_elem_of_nil]]).
  - intros p q i j Hp Hq Hi Hj H1 H2. unfold table.
    destruct (ex_present p i Hp Hi H1) as [[-> ->]|(_ & -> & ->)], (ex_present q j Hq Hj H2) as [[-> ->]|(_ & -> & ->)]; done.
Qed.

Lemma ex_user_frame a f : 0 <= a < 2 ^ 32 → user_frame ex_machine 0x4000 a = Some f → f = 0x6000 ∧ a / 4096 = 0x400.
Proof.
  intros Ha. unfold user_frame, mapping, translate. pose proof (pd_index_range a) as Hi. pose proof (pt_index_range a) as Hj.
  destruct (has (entry_at 0x4000 (pd_index a) ex_machine) PAGE_PRESENT) eqn:Ep; [|done]. cbn [negb].
  destruct (ex_present 0x4000 (pd_index a) ltac:(right; left) Hi Ep) as [[Ei ->]|(_ & Ei & ->)].
  - change (frame_of 0x3003) with 0x3000. destruct (ex_entry 0x3000 (pt_index a) ltac:(by_eval) Hj) as [->|Hbad]; [done|].
    exfalso. destruct Hbad as [(? & _)|[(? & _)|[?|?]]]; done.
  - change (frame_of 0x5007) with 0x5000. unfold entry_at, ex_machine, ex_mem. cbn [mem].
    change (0x5000 / 4) with 0x1400.
    destruct (Z.eqb_spec (0x1400 + pt_index a) 0x800); [lia|]. destruct (Z.eqb_spec (0x1400 + pt_index a) 0x1000); [lia|].
    destruct (Z.eqb_spec (0x1400 + pt_index a) 0x1001); [lia|]. destruct (Z.eqb_spec (0x1400 + pt_index a) 0x1400) as [E|]; [|].
    + change (has 0x6007 PAGE_PRESENT) with true. cbn. intros [= <-]. split; [done|].
      rewrite pd_index_page in Ei by done. rewrite pt_index_val in E. lia.
    + destruct (Z.eqb_spec (0x1400 + pt_index a) 0x1800); [lia|]. done.
Qed.

Lemma ex_ready : ready ex_dirs 0x4000 ex_machine.
Proof.
  split; [apply ex_spaces|split; [left|right; left]|done|right; left|]. split.
  - intros a f Ha _ E. destruct (ex_user_frame a f Ha E) as [-> _]. split_and!; [by_eval|by_eval|by_eval|].
    intros p i Hp Hi Hpr. unfold table. by destruct (ex_present p i Hp Hi Hpr) as [[_ ->]|(_ & _ & ->)].
  - intros a b f Ha Hb _ _ Ea Eb. destruct (ex_user_frame a f Ha Ea) as [_ ->]. by destruct (ex_user_frame b f Hb Eb) as [_ ->].
Qed.

Lemma ex_sane : sane_file ex_image.
Proof.
  intros eh E. assert (Eh : header_of ex_image = Some (mk_ehdr (take 16 ex_image) 2 3 1 0x08048000 52 0 0 52 32 1 0 0 0)) by by vm_compute.
  rewrite Eh in E. injection E as <-. split; [by_eval|]. intros phs Et. vm_compute in Et. injection Et as <-.
  apply Forall_cons. split; [|by apply Forall_nil]. split; [by_eval|by_eval|by_eval|]. intros (_ & _ & H). revert H. by_eval.
Qed.

Lemma elf_load_correct_witness :
  wp (elf32_load_image_from_memory 0x4000 (Some ex_image) 88 true) (λ r s', r = (0, 0x08048000) →
    user_access (mm s') 0x4000 true 0x08048001 = true ∧ space_byte (mm s') 0x4000 0x08048001 = 0x2A ∧
    space_byte (mm s') 0x4000 0x08048004 = 0) ex_os.
Proof.
  eapply wp_mono; [apply (elf_load_correct ex_dirs 0x4000 ex_image ex_os)|].
  - apply (bool_decide_unpack _). by vm_compute.
  - done.
  - exact ex_sane.
  - split; [by_eval|]. intros a Ha _ Hb. by apply elem_of_empty in Hb.
  - exact ex_ready.
  - intros r s'. assert (Eh : header_of ex_image = Some (mk_ehdr (take 16 ex_image) 2 3 1 0x08048000 52 0 0 52 32 1 0 0 0)) by by vm_compute.
    unfold load_result. rewrite Eh. intros [_ H] ->. set (t := table_of _ _) in H. vm_compute in t. subst t. destruct H as [_ [(_ & _ & H)|[? _]]]; [|done].
    destruct (H 0x08048001 0x2A ltac:(done)) as [H1 H2]; [by vm_compute|]. destruct (H 0x08048004 0 ltac:(done)) as [_ H3]; [by vm_compute|].
    by split_and!.
Defined.

(** C7: The argument vector that [exec_build_stack] makes.  The result is an error
    and then the arguments do not fit or no frame is left for the temporary
    mapping; or the strings are at the addresses of [ptrs] at the top of the
    stack, the vector of these pointers with a NULL after them is at the word
    address [argv] under them, the initial stack pointer is [argv] rounded down
    to 16, no other byte of the program changes, and only frames of the program
    are written. *)
Theorem exec_build_stack_correct (S : list Z) (pd : Z) (args : list cstring) (s : machine) :
  ready S pd s → writable pd s stack_base USER_STACK_TOP → Forall c_string args → Z.of_nat (length args) <= 32 →
  wp (exec_build_stack pd (Z.of_nat (length args)) (Some args)) (λ r s', ready S pd s' ∧
    ((r = (-1, 0, 0) ∧ (stack_layout args = None ∨ full s')) ∨
     (∃ argv ptrs, r = (0, argv / 16 * 16, argv) ∧ stack_layout args = Some (argv, ptrs) ∧ wrote S pd s s' ∧
       stack_base <= argv ∧ argv mod 4 = 0 ∧ length ptrs = length args ∧
       kept_outside pd s s' argv USER_STACK_TOP ∧
       (∀ i p, (ptrs ++ [0]) !! i = Some p → word_at pd s' (argv + 4 * Z.of_nat i) p) ∧
       ∀ i arg p, args !! i = Some arg → ptrs !! i = Some p →
         argv + 4 * (Z.of_nat (length args) + 1) <= p ∧ p + Z.of_nat (length arg) + 1 <= USER_STACK_TOP ∧ string_at pd s' p arg))) s.
Proof. intros. by apply build_stack_wp. Qed.

(** A machine in which the program at 0x4000 has its sixteen stack pages, in
    the frames from 0x8000 on, through the table at 0x5000. *)
Definition stk_mem (j : Z) : Z :=
  if j =? 0x800 then 0x3003 else if j =? 0x1000 then 0x3003 else if j =? 0x1000 + 767 then 0x5007
  else if (0x1400 + 0x3EE <=? j) && (j <? 0x1400 + 0x3FE) then 0x8007 + (j - (0x1400 + 0x3EE)) * 4096 else 0.
Definition stk_machine : machine := mk_machine stk_mem ex_pmm 0x2000 0x2000 0x4000 true (Some 0x4000) 0.

Lemma stk_present p i : p ∈ ex_dirs → is_index i → present stk_machine p i →
  (i = 0 ∧ entry_at p i stk_machine = 0x3003) ∨ (p = 0x4000 ∧ i = 767 ∧ entry_at p i stk_machine = 0x5007).
Proof.
  unfold present, entry_at, stk_machine, stk_mem, is_index. cbn [mem]. intros Hp Hi.
  apply elem_of_cons in Hp as [->|Hp]; [|apply list_elem_of_singleton in Hp as ->];
    repeat (case_match; [try (apply Z.eqb_eq in H; first [left; split; [lia|done]|right; split_and!; [done|lia|done]|lia]); try lia|]); done.
Qed.

Lemma stk_spaces : spaces_ok stk_machine ex_dirs.
Proof.
  split.
  - apply ex_pmm_wf.
  - intros p Hp. apply elem_of_cons in Hp as [->|Hp]; [|apply list_elem_of_singleton in Hp as ->]; (split; [by_eval|split; [done|by_eval]]).
  - intros p i Hp Hi Hpr. unfold table. destruct (stk_present p i Hp Hi Hpr) as [[_ ->]|(_ & _ & ->)];
      (split; [|split; [by_eval|done]]); change (frame_of 0x3003) with 0x3000; change (frame_of 0x5007) with 0x5000;
      unfold ex_dirs; rewrite !not_elem_of_cons; (split; [lia|split; [lia|apply not_elem_of_nil]]).
  - intros p q i j Hp Hq Hi Hj H1 H2. unfold table.
    destruct (stk_present p i Hp Hi H1) as [[-> ->]|(_ & -> & ->)], (stk_present q j Hq Hj H2) as [[-> ->]|(_ & -> & ->)]; done.
Qed.

(** The entry of the [k]-th stack page. *)
Lemma stk_pte (k : nat) : (k < 16)%nat → let e := 0x8007 + Z.of_nat k * 4096 in
  has e PAGE_PRESENT = true ∧ has e PAGE_RW = true ∧ has e PAGE_USER = true ∧ frame_of e = 0x8000 + Z.of_nat k * 4096 ∧
  is_page (frame_of e) ∧ used stk_machine (frame_of e) ∧ (frame_of e ∉ ex_dirs).
Proof. intros Hk e. subst e. do 16 (destruct k as [|k]; [by_eval|]). lia. Qed.

Lemma stk_page a : stack_base <= a < USER_STACK_TOP →
  mapping stk_machine 0x4000 a = Some (0x8007 + Z.of_nat (Z.to_nat (a / 4096 - 0xBFFEE)) * 4096) ∧ (Z.to_nat (a / 4096 - 0xBFFEE) < 16)%nat.
Proof.
  unfold stack_base, USER_STACK_TOP, USER_STACK_SIZE, PAGE_SIZE. intros Ha. unfold mapping, translate.
  assert (Ei : pd_index a = 767) by (rewrite pd_index_page by lia; lia).
  assert (Ej : pt_index a = a / 4096 - 0xBFFEE + 0x3EE) by (rewrite pt_index_val; lia). rewrite Ei.
  change (entry_at 0x4000 767 stk_machine) with 0x5007. change (has 0x5007 PAGE_PRESENT) with true. cbn [negb].
  change (frame_of 0x5007) with 0x5000. rewrite Ej. unfold entry_at, stk_machine, stk_mem. cbn [mem].
  rewrite !(proj2 (Z.eqb_neq _ _)) by lia. rewrite (proj2 (Z.leb_le _ _)), (proj2 (Z.ltb_lt _ _)) by lia. cbn [andb].
  assert (Hk : (Z.to_nat (a / 4096 - 0xBFFEE) < 16)%nat) by lia. split; [|done].
  replace (0x8007 + _) with (0x8007 + Z.of_nat (Z.to_nat (a / 4096 - 0xBFFEE)) * 4096) by lia.
  destruct (stk_pte _ Hk) as (Hp & _). cbn zeta in Hp. rewrite Hp. done.
Qed.

Lemma stk_user_frame a f : 0 <= a < 2 ^ 32 → user_frame stk_machine 0x4000 a = Some f →
  stack_base <= a < USER_STACK_TOP ∧ f = 0x8000 + Z.of_nat (Z.to_nat (a / 4096 - 0xBFFEE)) * 4096.
Proof.
  intros Ha E. assert (Hr : stack_base <= a < USER_STACK_TOP).
  { revert E. unfold user_frame, mapping, translate. pose proof (pd_index_range a) as Hi. pose proof (pt_index_range a) as Hj.
    destruct (has (entry_at 0x4000 (pd_index a) stk_machine) PAGE_PRESENT) eqn:Ep; [|done]. cbn [negb].
    destruct (stk_present 0x4000 (pd_index a) ltac:(right; left) Hi Ep) as [[Ei ->]|(_ & Ei & ->)].
    - change (frame_of 0x3003) with 0x3000. unfold entry_at, stk_machine, stk_mem. cbn [mem].
      rewrite !(proj2 (Z.eqb_neq _ _)) by lia. rewrite (proj2 (Z.leb_gt _ _)) by lia. done.
    - change (frame_of 0x5007) with 0x5000. unfold entry_at, stk_machine, stk_mem. cbn [mem].
      rewrite !(proj2 (Z.eqb_neq _ _)) by lia. rewrite pd_index_page in Ei by done. rewrite pt_index_val.
      unfold stack_base, USER_STACK_TOP, USER_STACK_SIZE, PAGE_SIZE.
      destruct (Z.leb_spec (0x1400 + 0x3EE) (0x5000 / 4 + a / 4096 mod 1024)), (Z.ltb_spec (0x5000 / 4 + a / 4096 mod 1024) (0x1400 + 0x3FE));
        cbn [andb]; try done. lia. }
  split; [done|]. destruct (stk_page a Hr) as [Em Hk]. destruct (stk_pte _ Hk) as (_ & _ & Hu & Ef & _).
  unfold user_frame in E. rewrite Em in E. cbn [mbind option_bind] in E. rewrite Hu in E. congruence.
Qed.

Lemma stk_ready : ready ex_dirs 0x4000 stk_machine.
Proof.
  split; [apply stk_spaces|split; [left|right; left]|done|right; left|]. split.
  - intros a f Ha _ E. destruct (stk_user_frame a f Ha E) as [Hr ->]. destruct (stk_page a Hr) as [_ Hk].
    destruct (stk_pte _ Hk) as (_ & _ & _ & Ef & H). rewrite Ef in H. destruct H as (? & ? & ?). split_and!; [done|done|done|].
    intros p i Hp Hi Hpr. unfold table. destruct (stk_present p i Hp Hi Hpr) as [[_ ->]|(_ & _ & ->)];
      change (frame_of 0x3003) with 0x3000; change (frame_of 0x5007) with 0x5000; lia.
  - intros a b f Ha Hb _ _ Ea Eb. destruct (stk_user_frame a f Ha Ea) as [Ra ->]. destruct (stk_user_frame b _ Hb Eb) as [Rb E].
    unfold stack_base, USER_STACK_TOP, USER_STACK_SIZE, PAGE_SIZE in *. lia.
Qed.

Lemma stk_writable : writable 0x4000 stk_machine stack_base USER_STACK_TOP.
Proof.
  intros a Ha. destruct (stk_page a Ha) as [Em Hk]. destruct (stk_pte _ Hk) as (_ & Hrw & Hu & Ef & _). split.
  - unfold not_temp, TEMP_MAP_VADDR. unfold stack_base, USER_STACK_TOP, USER_STACK_SIZE, PAGE_SIZE in Ha. lia.
  - eexists. split; [|by exists (0x8007 + Z.of_nat (Z.to_nat (a / 4096 - 0xBFFEE)) * 4096)].
    unfold stack_base, USER_STACK_TOP, USER_STACK_SIZE, PAGE_SIZE in Ha. rewrite pd_index_page by lia.
    replace (a / 4096 / 1024) with 767 by lia. done.
Qed.

(** [argv] is the strings "ls" and "a". *)
Lemma exec_build_stack_correct_witness :
  wp (exec_build_stack 0x4000 2 (Some [[108; 115]; [97]])) (λ r s', r.1.1 = 0 →
    r = (0, 0xBFFFDFE0, 0xBFFFDFEC) ∧ string_at 0x4000 s' 0xBFFFDFFB [108; 115] ∧
    word_at 0x4000 s' 0xBFFFDFEC 0xBFFFDFFB ∧ word_at 0x4000 s' 0xBFFFDFF4 0) stk_machine.
Proof.
  eapply wp_mono; [apply (exec_build_stack_correct ex_dirs 0x4000 [[108; 115]; [97]] stk_machine)|].
  - exact stk_ready.
  - exact stk_writable.
  - by_eval.
  - by_eval.
  - intros r s' [_ [[-> _]|(argv & ptrs & -> & Hlay & _ & _ & _ & _ & _ & Hw & Hs)]]; [done|]. intros _.
    vm_compute in Hlay. injection Hlay as <- <-. split; [done|]. split; [|split].
    + by destruct (Hs 0%nat [108; 115] 0xBFFFDFFB) as (_ & _ & H).
    + by apply (Hw 0%nat).
    + by apply (Hw 2%nat).
Defined.
End Exec.
