(* ===== verification/ExecFile.v ===== *)
(** * Running a program from a file

    [elf32_load_image] of [src/kernel/binfmt/elf.c], which reads the image
    through the virtual file system, and the part of [src/kernel/sched/exec.c]
    that starts a program from a vnode.  The file is one of the RAM file system,
    so the state is the file store of [Objects.v] and [Ramfs.v] next to the
    scheduler's, and the loader is that of [Elf.v] over another source. *)

From S2P Require Import Prelude Pmm Paging Spaces Elf Vnode Objects Ramfs Vfs Stack Sched Exec.
Import Pmm Paging Vnode Objects Ramfs Spaces Elf Stack Sched Exec.

Module ExecFile.

Section file.
Context {D : Type} (stale : nat → Z).
Abbreviation K := (kernel (ramfs D)).
Abbreviation ops := (ops_of (D := D) stale).
Abbreviation sys := (K * os)%type.

(** ** Reading *)

(** [while (total < size)]: the bytes that are still to come. *)
Fixpoint read_loop (fuel : nat) (f size total : Z) : cmd K (option (list Z)) :=
  match fuel with
  | O => cundef
  | S fuel =>
      if negb (total <? size) then mret (Some []) else
      '(r, got, bytes) ← Vfs.vfs_read ops f true (size - total);
      if negb (r =? 0) then Vfs.vfs_close ops f;; mret None else
      if got =? 0 then Vfs.vfs_close ops f;; mret None else
      rest ← read_loop fuel f size (total + got);
      mret (rest ← rest; Some (bytes ++ rest))
  end.
(** What is read into [buf], which is not NULL in any call. *)
Definition read_fully (vn offset size : Z) : cmd K (option (list Z)) :=
  if vn =? 0 then mret None else
  f ← Vfs.vfs_open_vnode vn;
  if f =? 0 then mret None else
  fl ← get_file f;
  put_file f (with_offset offset fl);;
  bytes ← read_loop (S (Z.to_nat size)) f size 0;
  match bytes with
  | None => mret None
  | Some bytes => Vfs.vfs_close ops f;; mret (Some bytes)
  end.

(** ** The loader over a vnode *)

Definition on_files {A} (m : cmd K A) : cmd sys A := czoom fst (λ k s, (k, s.2)) m.
Definition on_os {A} (m : cmd os A) : cmd sys A := czoom snd (λ o s, (s.1, o)) m.

(** The allocations that the file store made or refused. *)
Definition allocations (k k' : K) (given : list bool) : Prop := oracle k = given ++ oracle k'.
(** The environment, for an invariant [I] of the file store. *)
Definition sys_env (I : K → Prop) : kernel_env sys := {|
  env_get := λ s, mm s.2;
  env_put := λ m s, (s.1, set_mm m s.2);
  env_malloc := on_os malloc;
  env_free := λ a, on_os (free a);
  env_ok := λ s, I s.1 ∧ env_ok s.2;
  env_live := λ a s, env_live a s.2;
  env_after := λ s s', env_after s.2 s'.2 ∧ ∃ given, allocations s.1 s'.1 given;
  env_refused := λ s s', env_refused s.2 s'.2 ∨ ∃ given, allocations s.1 s'.1 given ∧ false ∈ given
|}.
Definition vnode_source (vn : Z) : image_source sys := {| source_read := λ off n, on_files (read_fully vn off n) |}.

(** The result and [*entry_out], 0 before the load; [load_segment] and what
    follows the checks are those of [Elf.v] over this source. *)
Definition elf32_load_image (pd vn : Z) (entry_out : bool) : cmd sys (Z * Z) :=
  if (pd =? 0) || (vn =? 0) || negb entry_out then mret (-1, 0) else
  bytes ← on_files (read_fully vn 0 SIZEOF_EHDR);
  match bytes with
  | None => mret (-1, 0)
  | Some bytes =>
      eh ← cget_opt (ehdr_of bytes);
      if elf32_validate (Some eh) <? 0 then mret (-1, 0) else
      if negb (e_phentsize eh =? SIZEOF_PHDR) then mret (-1, 0) else
      if e_phnum eh =? 0 then mret (-1, 0) else
      load_table (KE := sys_env (λ _, True)) (IS := vnode_source vn) pd eh
  end.

(** ** Starting the program *)

Section exec.
Context (kthread_entry user_thread_entry : Z).

Definition exec_elf_vnode_args (vn argc : Z) (argv : option (list cstring)) : cmd sys (Z * option (Z * user_exec_context)) :=
  if vn =? 0 then mret (-1, None) else
  pd ← on_os (on_mm paging_create_address_space);
  if pd =? 0 then mret (-1, None) else
  '(r, entry) ← elf32_load_image pd vn true;
  if r <? 0 then on_os (on_mm (paging_destroy_address_space pd pd));; mret (-1, None) else
  on_os (exec_elf_context kthread_entry user_thread_entry pd pd entry argc argv).
Definition exec_elf_vnode (vn : Z) : cmd sys (Z * option (Z * user_exec_context)) :=
  '(result, ctx) ← exec_elf_vnode_args vn 0 None;
  mret (if result <? 0 then result else 0, ctx).
Definition proc_exec_vnode (vn : Z) : cmd sys (Z * option (Z * user_exec_context)) := exec_elf_vnode vn.
End exec.

(** ** Laws *)

Lemma on_os_wp {A} (m : cmd os A) (Q : A → sys → Prop) s :
  wp m (λ a o, Q a (s.1, o)) s.2 → wp (on_os m) Q s.
Proof. intros H. by apply wp_zoom. Qed.

#[export] Instance sys_laws I : @kernel_laws sys (sys_env I).
Proof.
  split; cbn [sys_env env_get env_put env_malloc env_free env_ok env_live env_after env_refused fst snd]; try done.
  - intros m s. split; [exact (put_after (St := os) m s.2)|by exists []].
  - intros s. split; [exact (after_refl (St := os) s.2)|by exists []].
  - intros s1 s2 s3 [H1 [g1 E1]] [H2 [g2 E2]]. split; [by eapply (after_trans (St := os))|]. exists (g1 ++ g2). unfold allocations in *. by rewrite E1, E2, app_assoc.
  - intros s1 s2 s3 [H1 [g1 E1]] [H2|(g2 & E2 & Hin)]; [left; by eapply (refused_before (St := os))|right].
    exists (g1 ++ g2). unfold allocations in *. split; [by rewrite E1, E2, app_assoc|]. apply elem_of_app. by right.
  - intros s1 s2 s3 [H1|(g1 & E1 & Hin)] [H2 [g2 E2]]; [left; by eapply (refused_after (St := os))|right].
    exists (g1 ++ g2). unfold allocations in *. split; [by rewrite E1, E2, app_assoc|]. apply elem_of_app. by left.
  - intros s [HI Hok]. apply on_os_wp. eapply wp_mono; [exact (malloc_law (St := os) s.2 Hok)|]. cbn beta. intros a o ([E1 E2 E3] & Hl & Hc).
    split; [|split; [done|destruct Hc as [[-> ?]|?]; [left; split; [done|by left]|by right]]]. split; [done|done|]. split; [done|by exists []].
  - intros s a [HI Hok] Ha. apply on_os_wp. eapply wp_mono; [exact (free_law (St := os) s.2 a Hok Ha)|]. cbn beta. intros _ o ([E1 E2 E3] & Hl).
    split; [|done]. split; [done|done|]. split; [done|by exists []].
Qed.

(** ** The file *)

Implicit Types (k : K).

(** [vn] is a regular file of the RAM file system with the bytes [bytes]. *)
Record holds (vn : Z) (bytes : list Z) k : Prop := {
  ho_next : 0 < next k;
  ho_fresh a : next k <= a → files k !! a = None;
  ho_vnode : ∃ v node (n : ramfs_node D), vnodes k !! vn = Some v ∧ vn_ops v = RAMFS_OPS ∧ 0 < vn_refcnt v < 2 ^ 32 - 1 ∧
    is_node k vn node n ∧ file_ok n ∧ content n = bytes
}.
(** Nothing of the store changes but the addresses and answers that
    allocations use up. *)
Record reads k k' : Prop := {
  re_vnodes : vnodes k' = vnodes k;
  re_files : files k' = files k;
  re_fs : fs k' = fs k;
  re_next : next k <= next k';
  re_oracle : ∃ given, allocations k k' given
}.

Lemma holds_reads vn bytes k k' : holds vn bytes k → reads k k' → holds vn bytes k'.
Proof.
  intros [Hn Hf (v & node & n & Hv & Ho & Hr & [H1 H2 H3 H4] & Hok & Hc)] [E1 E2 E3 E4 _]. split; [lia|intros a Ha; rewrite E2; apply Hf; lia|].
  exists v, node, n. rewrite E1. repeat (split; [done|]). split; [|done]. split; [done|by rewrite E1|done|by rewrite E3].
Qed.
Section read.
Context (vn : Z) (bytes : list Z) (k0 : K).

(** The file is open at [off], as the object [next k0]. *)
Record open_at (off : Z) k : Prop := {
  oa_vnode : ∃ v, vnodes k0 !! vn = Some v ∧ vnodes k = <[vn := with_refcnt (vn_refcnt v + 1) v]> (vnodes k0);
  oa_file : files k = <[next k0 := mk_file vn off 0 Vfs.GENERIC_FILE_OPS 1]> (files k0);
  oa_fs : fs k = fs k0;
  oa_next : next k = next k0 + 1;
  oa_oracle : ∃ given, allocations k0 k given
}.

Lemma open_vnode_wp : holds vn bytes k0 →
  wp (Vfs.vfs_open_vnode vn) (λ f k, (f = 0 ∧ reads k0 k ∧ ∃ given, allocations k0 k given ∧ false ∈ given) ∨
    (f = next k0 ∧ open_at 0 k)) k0.
Proof.
  intros [Hn Hf (v & node & n & Hv & Ho & Hr & Hnode & Hok & Hc)]. pose proof (in_vn _ _ _ _ Hnode) as Hvn.
  unfold Vfs.vfs_open_vnode. rewrite (proj2 (Z.eqb_neq vn 0)) by done. wp_step. unfold Vfs.open_file. wp_step.
  assert (Hgood : ∀ o, (∃ given, oracle k0 = given ++ o) → wp (file ← mret (next k0); if file =? 0 then mret (ERR_OUT_OF_MEMORY, 0) else
      vnode_ref vn;; put_file file (mk_file vn 0 0 Vfs.GENERIC_FILE_OPS 1);; mret (ERR_SUCCESS, file))
    (λ r k, r.2 = next k0 ∧ open_at 0 k) (set_heap (next k0 + 1) o k0)).
  { intros o Hg. wp_step. wp_step. rewrite (proj2 (Z.eqb_neq (next k0) 0)) by lia. wp_step. unfold vnode_ref.
    rewrite (proj2 (Z.eqb_neq vn 0)) by done. wp_step. eapply get_vnode_wp; [exact Hv|]. apply wp_modify. wp_step. apply wp_modify.
    wp_step. split; [done|]. rewrite u32_small by lia. split; [by exists v|done|done|done|]. cbn. destruct Hg as [g Eg]. by exists g. }
  unfold wp at 1, kalloc. destruct (oracle k0) as [|[|] o] eqn:Eo.
  - eapply wp_mono; [by apply (Hgood []); exists []|]. cbn beta. intros [r f] k [Ef Hk]. wp_step. right. by split.
  - eapply wp_mono; [by apply (Hgood o); exists [true]|]. cbn beta. intros [r f] k [Ef Hk]. wp_step. right. by split.
  - change (0 =? 0) with true. cbn iota. wp_step. wp_step. left. split; [done|]. assert (Ha : allocations k0 (set_heap (next k0) o k0) [false]) by done.
    split; [split; [done|done|done|cbn; lia|by exists [false]]|]. exists [false]. split; [done|left].
Qed.

Lemma open_at_file off k : holds vn bytes k0 → open_at off k → is_u32 off →
  ∃ node n, open_on k (next k0) (mk_file vn off 0 Vfs.GENERIC_FILE_OPS 1) vn node n ∧ content n = bytes.
Proof.
  intros [Hn Hf (v & node & n & Hv & Ho & Hr & [H1 (v' & Hv' & Hd) H3 H4] & Hok & Hc)] [(w & Hw & Ev) Ef Es En Eo] Hoff.
  rewrite Hv in Hw, Hv'. injection Hw as <-. injection Hv' as <-.
  exists node, n. split; [|done]. split; [|done| | |done].
  - split; [lia|]. by rewrite Ef, lookup_insert_eq.
  - exists (with_refcnt (vn_refcnt v + 1) v). by rewrite Ev, lookup_insert_eq.
  - split; [done| |done|by rewrite Es]. exists (with_refcnt (vn_refcnt v + 1) v). by rewrite Ev, lookup_insert_eq.
Qed.

(** Closing gives the store back. *)
Lemma vnode_close_wp off k : holds vn bytes k0 → open_at off k → wp (Vfs.vfs_close ops (next k0)) (λ _ k', reads k0 k') k.
Proof.
  intros [Hn Hf (v & node & n & Hv & Ho & Hr & Hnode & Hok & Hc)] [(w & Hw & Ev) Ef Es En Eo].
  rewrite Hv in Hw. injection Hw as <-. pose proof (in_vn _ _ _ _ Hnode) as Hvn.
  eapply wp_eq; [eapply (Vfs.close_last_wp ops k (next k0) _ vn (with_refcnt (vn_refcnt v + 1) v))|].
  - lia.
  - by rewrite Ef, lookup_insert_eq.
  - done.
  - done.
  - done.
  - by rewrite Ev, lookup_insert_eq.
  - cbn. lia.
  - split; cbn.
    + rewrite Ev, insert_insert_eq. apply insert_id. rewrite Hv. f_equal. replace (vn_refcnt v + 1 - 1) with (vn_refcnt v) by lia. by destruct v.
    + rewrite Ef. apply delete_insert_id, Hf. lia.
    + done.
    + lia.
    + destruct Eo as [g Eg]. by exists g.
Qed.
Lemma reads_oracle k : reads k0 k → ∃ given, allocations k0 k given.
Proof. by intros []. Qed.

Lemma read_loop_wp off size fuel : ∀ k total,
  holds vn bytes k0 → 0 <= off → 0 <= total <= size → off + size < 2 ^ 32 → open_at (off + total) k →
  size - total < Z.of_nat fuel →
  wp (read_loop fuel (next k0) size total) (λ r k',
    match r with
    | None => Z.of_nat (length bytes) < off + size ∧ reads k0 k'
    | Some bs => open_at (off + size) k' ∧ bs = slice (Z.to_nat (off + total)) (Z.to_nat (size - total)) bytes ∧
        (total < size → off + size <= Z.of_nat (length bytes))
    end) k.
Proof.
  induction fuel as [|fuel IH]; intros k total Hh Ho Ht Hs Hk Hfuel; [lia|]. cbn [read_loop].
  destruct (Z.ltb_spec total size) as [Hlt|Hge]; cbn [negb].
  2: { assert (total = size) as -> by lia. wp_step. split; [done|]. rewrite Z.sub_diag. split; [done|lia]. }
  destruct (open_at_file (off + total) k Hh Hk) as (node & n & Hopen & Hc); [unfold is_u32; lia|].
  wp_step. eapply wp_eq; [apply (vfs_read_run stale k _ _ vn node n (size - total) Hopen); [unfold is_u32; lia|cbn; lia]|].
  cbn [f_offset]. rewrite Hc. set (bs := slice _ _ bytes). cbn beta iota. change (negb (ERR_SUCCESS =? 0)) with false. cbn iota.
  assert (Hbs : Z.of_nat (length bs) = Z.max 0 (Z.min (size - total) (Z.of_nat (length bytes) - (off + total)))).
  { unfold bs, slice. rewrite length_take, length_drop. lia. }
  assert (Hk1 : open_at (off + total + Z.of_nat (length bs))
    (set_files (<[next k0 := with_offset (off + total + Z.of_nat (length bs)) (mk_file vn (off + total) 0 Vfs.GENERIC_FILE_OPS 1)]> (files k)) k)).
  { destruct Hk as [Hv Hf Hfs Hn Hor]. split; [done| |done|done|done]. cbn. by rewrite Hf, insert_insert_eq. }
  destruct (Z.eqb_spec (Z.of_nat (length bs)) 0) as [E0|N0].
  { wp_step. eapply wp_mono; [by eapply vnode_close_wp|]. cbn beta. intros _ k' Hr. wp_step. split; [lia|done]. }
  wp_step. eapply wp_mono; [apply (IH _ (total + Z.of_nat (length bs))); try done; [lia|by rewrite Z.add_assoc|lia]|].
  cbn beta. intros [rest|] k' Hr; wp_step; [|done]. destruct Hr as (Hk' & -> & Hend). split; [done|].
  destruct (decide (total + Z.of_nat (length bs) < size)) as [Hmore|Hall]; [|split; [|lia]].
  - exfalso. specialize (Hend Hmore). lia.
  - replace (size - (total + Z.of_nat (length bs))) with 0 by lia. change (slice _ (Z.to_nat 0) bytes) with (@nil Z). by rewrite app_nil_r.
Qed.

Lemma read_fully_wp off n : holds vn bytes k0 → 0 <= off → 0 <= n → off + n < 2 ^ 32 →
  wp (read_fully vn off n) (λ r k', reads k0 k' ∧
    match r with
    | None => Z.of_nat (length bytes) < off + n ∨ ∃ given, allocations k0 k' given ∧ false ∈ given
    | Some bs => (0 < n → off + n <= Z.of_nat (length bytes)) ∧ bs = slice (Z.to_nat off) (Z.to_nat n) bytes
    end) k0.
Proof.
  intros Hh Ho Hn Hs. unfold read_fully. destruct (ho_vnode _ _ _ Hh) as (v & node & nd & _ & _ & _ & Hnode & _).
  rewrite (proj2 (Z.eqb_neq vn 0)) by apply Hnode. wp_step. eapply wp_mono; [by apply open_vnode_wp|]. cbn beta.
  intros f k [(-> & Hr & Hg)|[-> Hk]]; [change (0 =? 0) with true; cbn iota; wp_step; auto|].
  rewrite (proj2 (Z.eqb_neq (next k0) 0)) by (pose proof (ho_next _ _ _ Hh); lia). wp_step.
  eapply wp_read; [by rewrite (oa_file _ _ Hk), lookup_insert_eq|]. wp_step. apply wp_modify. wp_step.
  eapply wp_mono; [apply (read_loop_wp off n _ _ 0); [done|done|lia|done| |lia]|].
  { destruct Hk as [Hv Hf Hfs Hx Hor]. split; [done| |done|done|done]. cbn. by rewrite Hf, insert_insert_eq, Z.add_0_r. }
  cbn beta. intros [bs|] k' H; [|wp_step; destruct H; auto]. destruct H as (Hk' & -> & Hend). wp_step.
  eapply wp_mono; [by eapply vnode_close_wp|]. cbn beta. intros _ k'' Hr. wp_step. split; [done|]. rewrite Z.add_0_r, Z.sub_0_r. split; [lia|done].
Qed.
End read.

(** ** The image of a file *)

Section load.
Context (S : list Z) (pd vn : Z) (bytes : list Z) (k0 : K).
Hypothesis bytes_u8 : Forall is_u8 bytes.

(** The invariant: the file is there, and nothing of the store changed. *)
Definition untouched k : Prop := holds vn bytes k ∧ reads k0 k.
#[local] Instance load_env : kernel_env sys := sys_env untouched.
#[local] Instance load_laws : kernel_laws sys := sys_laws untouched.

Lemma reads_trans k k1 k2 : reads k k1 → reads k1 k2 → reads k k2.
Proof.
  intros [A1 A2 A3 A4 [g1 A5]] [B1 B2 B3 B4 [g2 B5]]. split; [congruence|congruence|congruence|lia|].
  exists (g1 ++ g2). unfold allocations in *. by rewrite A5, B5, app_assoc.
Qed.

Lemma vnode_law (s : sys) off n : env_ok s → 0 <= off → 0 < n → off + n < 2 ^ 32 →
  wp (on_files (read_fully vn off n)) (λ r s', unseen s s' ∧ (∀ b, env_live b s → env_live b s') ∧ s'.2 = s.2 ∧
    match r with
    | None => Z.of_nat (length bytes) < off + n ∨ env_refused s s'
    | Some bs => off + n <= Z.of_nat (length bytes) ∧ bs = slice (Z.to_nat off) (Z.to_nat n) bytes
    end) s.
Proof.
  destruct s as [k o]. intros [[Hh Hr] Hok] Ho Hn Hs. apply wp_zoom.
  eapply wp_mono; [apply (read_fully_wp vn bytes k off n); [done|done|lia|done]|]. cbn beta. intros r k' [Hr' H].
  split; [|split; [done|split; [done|]]].
  - split; [done| |].
    + split; [|done]. split; [by eapply holds_reads|by eapply reads_trans].
    + split; [apply (after_refl (St := os))|by apply reads_oracle].
  - destruct r as [bs|]; [split; [by apply H|apply H]|]. destruct H as [?|?]; [by left|right; by right].
Qed.

Lemma load_vnode_wp o : holds vn bytes k0 → sane_file bytes → env_ok o → ready S pd (mm o) →
  wp (elf32_load_image pd vn true) (λ r s',
    match header_of bytes with
    | None => r = (-1, 0) ∧ unseen (k0, o) s'
    | Some eh => (r = (-1, 0) ∧ unseen (k0, o) s' ∧ env_refused (k0, o) s') ∨ load_post S pd bytes (k0, o) (table_of bytes eh) (e_entry eh) r s'
    end) (k0, o).
Proof.
  intros Hh Hsane Hok Hrd. unfold elf32_load_image. destruct (ho_vnode _ _ _ Hh) as (v & node & nd & _ & _ & _ & Hnode & _).
  destruct (sp_page _ _ (rd_spaces _ _ _ Hrd) pd (rd_pd _ _ _ Hrd)) as (_ & Hpd & _).
  rewrite (proj2 (Z.eqb_neq pd 0)), (proj2 (Z.eqb_neq vn 0)) by (done || apply Hnode). cbn [negb orb].
  assert (Hr0 : reads k0 k0) by (split; [done|done|done|lia|by exists []]).
  assert (Hok0 : env_ok (k0, o)) by by split; [split|].
  wp_step. eapply wp_mono; [by apply (vnode_law (k0, o) 0 SIZEOF_EHDR)|]. cbn beta. unfold SIZEOF_EHDR.
  intros [bs|] s1 ([E1 Ok1 Af1] & Hl1 & Eo & H1).
  2: { wp_step. unfold header_of. destruct H1 as [Hlt|Href]; [rewrite decide_False by lia; by split|].
       destruct (decide _); [|by split]. destruct (ehdr_of (take 52 bytes)) as [eh|]; [|by split]. cbn. case_match; [|by split].
       left. by split_and!. }
  destruct H1 as [Hlen ->]. change (slice _ _ bytes) with (take 52 bytes).
  destruct (ehdr_of_some (take 52 bytes)) as (eh & Eeh & Hn & Ho); [by apply Forall_take|rewrite length_take; lia|].
  rewrite Eeh. wp_step. eapply wp_get_opt; [done|]. unfold sane_file, header_of in *. rewrite decide_True, Eeh in * by lia.
  cbn [mbind option_bind] in *. destruct (validate_cases eh) as [Ev|Ev]; rewrite Ev in *; [|by apply wp_ret].
  change (0 <? 0) with false. change (0 =? 0) with true in *. cbn [andb] in *. unfold SIZEOF_PHDR.
  destruct (Z.eqb_spec (e_phentsize eh) 32) as [Esz|Nsz]; cbn [negb orb andb] in *; [|by apply wp_ret].
  destruct (Z.eqb_spec (e_phnum eh) 0) as [En|Nn]; cbn [negb orb andb] in *; [by apply wp_ret|].
  destruct (Hsane eh eq_refl) as [Hend Hsegs].
  change (load_table pd eh) with (load_table (KE := load_env) (IS := vnode_source vn) pd eh).
  eapply wp_mono; [apply (load_table_wp S pd bytes (KL := load_laws) (IS := vnode_source vn)); try done|].
  - intros s2 off n Ho2 H0 H1 H2. eapply wp_mono; [by apply vnode_law|]. cbn beta. intros r s3 (? & ? & _ & ?). by split_and!.
  - cbn. by rewrite Eo.
  - intros r s2 Hpost. right. eapply load_post_before; [split; [done|split; [done|exact Hl1]]|done|done].
Qed.
End load.

(** C6: Loading a program from a regular file of the RAM file system gives it the
    image of the file's bytes, in the sense of [load_result]: the same image,
    entry point and failures as from memory, where a failure may also be the
    refusal of an open file.  Every file and vnode is afterwards as before, so
    the loader closes what it opens, on every path. *)
Theorem elf_load_file_correct (S : list Z) (pd vn : Z) (bytes : list Z) (k : K) (o : os) :
  holds vn bytes k → Forall is_u8 bytes → sane_file bytes → env_ok o → ready S pd (mm o) →
  wp (elf32_load_image pd vn true) (λ r s', reads k s'.1 ∧
    load_result S pd bytes (mm o) (mm s'.2) (env_refused o s'.2 ∨ ∃ given, allocations k s'.1 given ∧ false ∈ given) r) (k, o).
Proof.
  intros Hh Hb Hsane Hok Hrd. eapply wp_mono; [by apply (load_vnode_wp S pd vn bytes k)|]. cbn beta.
  assert (Hun : ∀ s', unseen (H := sys_env (untouched vn bytes k)) (k, o) s' → reads k s'.1 ∧ mm s'.2 = mm o).
  { by intros s' [E [[_ Hr] _] _]. }
  intros r s' H. destruct (header_of bytes) as [eh|] eqn:Eh.
  - destruct H as [(-> & Hu & Href)|Hpost].
    + destruct (Hun s' Hu) as [Hr E]. split; [done|]. unfold load_result. rewrite Eh, E. split; [done|].
      destruct (table_of bytes eh); (split; [|]); try done; try (by apply quiet_refl, Hrd).
      * eapply quiet_weaken; [| |by apply quiet_refl, Hrd]; done.
      * right. split; [done|]. by right; right.
    + split; [by destruct Hpost as [[[[_ Hr] _] _] _]|]. exact (load_post_result S pd bytes (k, o) s' eh r Eh Hpost).
  - destruct H as [-> Hu]. destruct (Hun s' Hu) as [Hr E]. split; [done|]. unfold load_result. by rewrite Eh.
Qed.
End file.

(** ** A run: the executable of [Exec.v] in the file [a] of the small store *)

Definition ex_file : ramfs_node unit := mk_node (cstr "a") VNODE_TYPE_FILE 21 10 0 0 (ex_image ++ replicate 40 0) 88 128 None None.
Definition ex_store : kernel (ramfs unit) :=
  mk_kernel {[20 := ex_root_vnode; 21 := ex_a_vnode]} ∅ ∅ [] 20 100 []
    (mk_ramfs {[10 := ex_root; 11 := ex_file]} {[31 := 10]} ()).

Lemma ex_holds : holds 21 ex_image ex_store.
Proof.
  split; [done|by intros; cbn; rewrite lookup_empty|]. exists ex_a_vnode, 11, ex_file.
  split; [done|]. split; [done|]. split; [by_eval|]. split; [|split].
  - split; [done|by exists ex_a_vnode|done|done].
  - split; [by left|by_eval|by_eval|by vm_compute].
  - by vm_compute.
Qed.

Lemma elf_load_file_correct_witness :
  wp (elf32_load_image (λ _, 0) 0x4000 21 true) (λ r s', vnodes s'.1 = vnodes ex_store ∧ (r = (0, 0x08048000) →
    user_access (mm s'.2) 0x4000 true 0x08048001 = true ∧ space_byte (mm s'.2) 0x4000 0x08048001 = 0x2A)) (ex_store, ex_os).
Proof.
  eapply wp_mono; [apply (elf_load_file_correct (λ _, 0) ex_dirs 0x4000 21 ex_image ex_store ex_os)|].
  - exact ex_holds.
  - apply (bool_decide_unpack _). by vm_compute.
  - exact ex_sane.
  - split; [by_eval|]. intros a Ha _ Hb. by apply elem_of_empty in Hb.
  - exact ex_ready.
  - intros r s' [Hr H]. split; [by apply Hr|]. revert H. unfold load_result.
    assert (Eh : header_of ex_image = Some (mk_ehdr (take 16 ex_image) 2 3 1 0x08048000 52 0 0 52 32 1 0 0 0)) by by vm_compute.
    rewrite Eh. intros [_ H] ->. set (t := table_of _ _) in H. vm_compute in t. subst t. destruct H as [_ [(_ & _ & H)|[? _]]]; [|done].
    apply (H 0x08048001 0x2A); [done|by vm_compute].
Defined.
End ExecFile.
