(* ===== verification/Console.v ===== *)
(** * The console

    [src/kernel/drivers/framebuffer.c], [vga.c] and [console.c]: pixels in a
    linear frame buffer, cells in the VGA text memory, and the character console
    that draws on either.  The font is a parameter: its glyphs are data of
    [include/kernel/gui/font.h]. *)

From S2P Require Import Prelude.

Module Console.

(** A [for] loop with the indices [l]. *)
Fixpoint each {S} (l : list Z) (f : Z → cmd S unit) : cmd S unit :=
  match l with [] => mret tt | i :: l => f i;; each l f end.

(** ** State *)

Inductive console_backend := CONSOLE_VGA | CONSOLE_FRAMEBUFFER.
Definition VGA_WIDTH : Z := 80.
Definition VGA_HEIGHT : Z := 25.
Definition VGA_MEMORY : Z := 0xB8000.
Definition VGA_BLACK : Z := 0.
Definition VGA_LIGHT_GREY : Z := 7.
Definition FONT_WIDTH : Z := 8.
Definition FONT_HEIGHT : Z := 16.

(** The statics of [framebuffer.c]; 0 is NULL. *)
Record framebuffer := mk_fb { fb : Z; fb_width : Z; fb_height : Z; fb_pitch : Z; fb_bpp : Z }.
(** The 16-bit words of the text memory and the bytes of the frame buffer, by
    address, the position of the hardware cursor, and the statics. *)
Record console := mk_console {
  words : Z → Z; bytes : Z → Z; hw_cursor : Z; frame : framebuffer;
  backend : console_backend; cursor_row : Z; cursor_col : Z; rows : Z; cols : Z; foreground : Z; background : Z
}.
Implicit Types (s : console).
Definition set_words w s : console :=
  mk_console w (bytes s) (hw_cursor s) (frame s) (backend s) (cursor_row s) (cursor_col s) (rows s) (cols s) (foreground s) (background s).
Definition set_bytes b s : console :=
  mk_console (words s) b (hw_cursor s) (frame s) (backend s) (cursor_row s) (cursor_col s) (rows s) (cols s) (foreground s) (background s).
Definition set_hw_cursor p s : console :=
  mk_console (words s) (bytes s) p (frame s) (backend s) (cursor_row s) (cursor_col s) (rows s) (cols s) (foreground s) (background s).
Definition set_fb_frame f s : console :=
  mk_console (words s) (bytes s) (hw_cursor s) f (backend s) (cursor_row s) (cursor_col s) (rows s) (cols s) (foreground s) (background s).
Definition set_cursor r c s : console :=
  mk_console (words s) (bytes s) (hw_cursor s) (frame s) (backend s) r c (rows s) (cols s) (foreground s) (background s).
Definition set_colors f b s : console :=
  mk_console (words s) (bytes s) (hw_cursor s) (frame s) (backend s) (cursor_row s) (cursor_col s) (rows s) (cols s) f b.
Definition set_backend k r c s : console :=
  mk_console (words s) (bytes s) (hw_cursor s) (frame s) k (cursor_row s) (cursor_col s) r c (foreground s) (background s).

Definition poke8 (a v : Z) : cmd console unit := cmodify (λ s, set_bytes (λ x, if x =? a then u8 v else bytes s x) s).
Definition poke16 (a v : Z) : cmd console unit := cmodify (λ s, set_words (λ x, if x =? a then u16 v else words s x) s).

(** ** [framebuffer.c] *)

(** A colour as the bytes of a pixel. *)
Definition pixel_bytes (bpp color : Z) : list Z :=
  let red := u8 (Z.shiftr color 16) in let green := u8 (Z.shiftr color 8) in let blue := u8 color in
  if bpp =? 16 then
    let value := u16 (Z.lor (Z.lor (u16 (Z.shiftl (Z.shiftr red 3) 11)) (u16 (Z.shiftl (Z.shiftr green 2) 5))) (Z.shiftr blue 3)) in
    [u8 value; u8 (Z.shiftr value 8)]
  else if bpp =? 32 then [blue; green; red; 0] else [blue; green; red].
Fixpoint put_pixel (a : Z) (b : list Z) : cmd console unit :=
  match b with [] => mret tt | v :: b => poke8 a v;; put_pixel (a + 1) b end.

(** [(int)] of a 32-bit value. *)
Definition as_int (z : Z) : Z := if u32 z <? 2 ^ 31 then u32 z else u32 z - 2 ^ 32.
(** [x] and [y] are ints. *)
Definition framebuffer_putpixel (x y color : Z) : cmd console unit :=
  s ← cget;
  let f := frame s in
  if (fb f =? 0) || (x <? 0) || (y <? 0) || (fb_width f <=? x) || (fb_height f <=? y) then mret tt else
  put_pixel (u32 (fb f + y * fb_pitch f + x * (fb_bpp f / 8))) (pixel_bytes (fb_bpp f) color).

Definition framebuffer_fill (color : Z) : cmd console unit :=
  s ← cget;
  let f := frame s in
  if fb f =? 0 then mret tt else
  each (seqZ 0 (fb_height f)) (λ y, each (seqZ 0 (fb_width f)) (λ x, framebuffer_putpixel (as_int x) (as_int y) color)).

Definition framebuffer_scroll (pixel_rows color : Z) : cmd console unit :=
  s ← cget;
  let f := frame s in
  if (fb f =? 0) || (pixel_rows =? 0) then mret tt else
  if fb_height f <=? pixel_rows then framebuffer_fill color else
  let copy_bytes := u32 ((fb_height f - pixel_rows) * fb_pitch f) in
  let clear_start := fb_height f - pixel_rows in
  each (seqZ 0 copy_bytes) (λ i, s ← cget; poke8 (u32 (fb f + i)) (bytes s (u32 (fb f + u32 (i + pixel_rows * fb_pitch f)))));;
  each (seqZ clear_start (fb_height f - clear_start)) (λ y, each (seqZ 0 (fb_width f)) (λ x, framebuffer_putpixel (as_int x) (as_int y) color)).

Definition framebuffer_init (address width height pitch bpp : Z) : cmd console bool :=
  if (address =? 0) || (width =? 0) || (height =? 0) || (negb (bpp =? 16) && negb (bpp =? 24) && negb (bpp =? 32)) then mret false else
  let bytes_per_pixel := bpp / 8 in
  if pitch <? u64 (width * bytes_per_pixel) then mret false else
  let required := u64 (pitch * height) in
  if (required =? 0) || (0xFFFFFFFF <? required) || (0x100000000 <? u64 (address + required)) then mret false else
  cmodify (set_fb_frame (mk_fb address width height pitch bpp));;
  framebuffer_fill 0;;
  mret true.

(** ** [vga.c] *)

Definition vga_entry (character fg bg : Z) : Z :=
  let color := u8 (Z.lor (Z.shiftl bg 4) (Z.land fg 0x0F)) in
  Z.lor (u8 character) (u16 (Z.shiftl color 8)).
Definition vga_text_put_cell (row col character fg bg : Z) : cmd console unit :=
  if (VGA_HEIGHT <=? row) || (VGA_WIDTH <=? col) then mret tt
  else poke16 (VGA_MEMORY + 2 * (row * VGA_WIDTH + col)) (vga_entry character fg bg).
Definition vga_text_clear (fg bg : Z) : cmd console unit :=
  each (seqZ 0 (VGA_WIDTH * VGA_HEIGHT)) (λ i, poke16 (VGA_MEMORY + 2 * i) (vga_entry 32 fg bg)).
Definition vga_text_scroll (fg bg : Z) : cmd console unit :=
  each (seqZ 1 (VGA_HEIGHT - 1)) (λ row, each (seqZ 0 VGA_WIDTH) (λ col,
    s ← cget; poke16 (VGA_MEMORY + 2 * ((row - 1) * VGA_WIDTH + col)) (words s (VGA_MEMORY + 2 * (row * VGA_WIDTH + col)))));;
  each (seqZ 0 VGA_WIDTH) (λ col, vga_text_put_cell (VGA_HEIGHT - 1) col 32 fg bg).
(** The four port writes set the cursor position register. *)
Definition vga_text_set_cursor (row col : Z) : cmd console unit :=
  let row := if VGA_HEIGHT <=? row then VGA_HEIGHT - 1 else row in
  let col := if VGA_WIDTH <=? col then VGA_WIDTH - 1 else col in
  cmodify (set_hw_cursor (u16 (row * VGA_WIDTH + col))).
Definition vga_text_init : cmd console unit :=
  vga_text_clear VGA_LIGHT_GREY VGA_BLACK;;
  vga_text_set_cursor 0 0.

(** ** [console.c] *)

Definition palette : list Z :=
  [0x000000; 0x0000AA; 0x00AA00; 0x00AAAA; 0xAA0000; 0xAA00AA; 0xAA5500; 0xAAAAAA;
   0x555555; 0x5555FF; 0x55FF55; 0x55FFFF; 0xFF5555; 0xFF55FF; 0xFFFF55; 0xFFFFFF].
Definition palette_color (color : Z) : Z := nth (Z.to_nat (Z.land color 0x0F)) palette 0.

Section font.
(** [glyph_row c y] is [font8x16[c][y]]. *)
Context (glyph_row : Z → Z → Z).

Definition draw_framebuffer_cell (row col character fg bg : Z) : cmd console unit :=
  each (seqZ 0 FONT_HEIGHT) (λ y, each (seqZ 0 FONT_WIDTH) (λ x,
    let color := if negb (Z.land (glyph_row (u8 character) y) (Z.shiftr 0x80 x) =? 0) then palette_color fg else palette_color bg in
    framebuffer_putpixel (as_int (col * FONT_WIDTH + x)) (as_int (row * FONT_HEIGHT + y)) color)).
Definition render_cell (row col character fg bg : Z) : cmd console unit :=
  s ← cget;
  match backend s with
  | CONSOLE_FRAMEBUFFER => draw_framebuffer_cell row col character fg bg
  | CONSOLE_VGA => vga_text_put_cell row col character fg bg
  end.
Definition update_cursor : cmd console unit :=
  s ← cget;
  match backend s with CONSOLE_VGA => vga_text_set_cursor (cursor_row s) (cursor_col s) | CONSOLE_FRAMEBUFFER => mret tt end.

Definition console_init_vga : cmd console unit :=
  cmodify (set_backend CONSOLE_VGA VGA_HEIGHT VGA_WIDTH);;
  cmodify (set_cursor 0 0);;
  cmodify (set_colors VGA_LIGHT_GREY VGA_BLACK);;
  vga_text_init.
Definition console_init_framebuffer (address width height pitch bpp : Z) : cmd console bool :=
  if (width <? FONT_WIDTH) || (height <? FONT_HEIGHT) then mret false else
  ok ← framebuffer_init address width height pitch bpp;
  if negb (ok : bool) then mret false else
  let new_cols := width / FONT_WIDTH in
  let new_rows := height / FONT_HEIGHT in
  if (new_cols =? 0) || (new_rows =? 0) then mret false else
  cmodify (set_backend CONSOLE_FRAMEBUFFER new_rows new_cols);;
  cmodify (set_cursor 0 0);;
  cmodify (set_colors VGA_LIGHT_GREY VGA_BLACK);;
  framebuffer_fill (palette_color VGA_BLACK);;
  mret true.

Definition console_rows : cmd console Z := s ← cget; mret (rows s).
Definition console_cols : cmd console Z := s ← cget; mret (cols s).
Definition console_set_color (fg bg : Z) : cmd console unit := cmodify (set_colors (Z.land fg 0x0F) (Z.land bg 0x0F)).
Definition console_get_color : cmd console (Z * Z) := s ← cget; mret (foreground s, background s).
Definition console_get_cursor : cmd console (Z * Z) := s ← cget; mret (cursor_row s, cursor_col s).
Definition console_set_cursor (row col : Z) : cmd console unit :=
  cmodify (λ s, set_cursor (if row <? rows s then row else u32 (rows s - 1)) (if col <? cols s then col else u32 (cols s - 1)) s);;
  update_cursor.
Definition console_putc_at (row col character fg bg : Z) : cmd console unit :=
  s ← cget;
  if (row <? rows s) && (col <? cols s) then render_cell row col character fg bg else mret tt.
Definition console_clear : cmd console unit :=
  cmodify (set_cursor 0 0);;
  s ← cget;
  match backend s with
  | CONSOLE_FRAMEBUFFER => framebuffer_fill (palette_color (background s))
  | CONSOLE_VGA => vga_text_clear (foreground s) (background s)
  end;;
  update_cursor.
Definition console_clearline (row : Z) : cmd console unit :=
  s ← cget;
  if rows s <=? row then mret tt else
  each (seqZ 0 (cols s)) (λ col, render_cell row col 32 (foreground s) (background s)).
Definition console_scroll : cmd console unit :=
  s ← cget;
  match backend s with
  | CONSOLE_FRAMEBUFFER => framebuffer_scroll FONT_HEIGHT (palette_color (background s))
  | CONSOLE_VGA => vga_text_scroll (foreground s) (background s)
  end;;
  cmodify (λ s, set_cursor (if negb (cursor_row s =? 0) then cursor_row s - 1 else cursor_row s) (cursor_col s) s);;
  update_cursor.
Definition advance_line : cmd console unit :=
  cmodify (λ s, set_cursor (u32 (cursor_row s + 1)) 0 s);;
  s ← cget;
  (if rows s <=? cursor_row s then console_scroll;; cmodify (λ s, set_cursor (u32 (rows s - 1)) (cursor_col s) s) else mret tt);;
  update_cursor.
Definition console_backspace : cmd console unit :=
  s ← cget;
  if (cursor_col s =? 0) && (cursor_row s =? 0) then mret tt else
  (if negb (cursor_col s =? 0) then cmodify (set_cursor (cursor_row s) (cursor_col s - 1))
   else cmodify (set_cursor (cursor_row s - 1) (u32 (cols s - 1))));;
  s ← cget;
  render_cell (cursor_row s) (cursor_col s) 32 (foreground s) (background s);;
  update_cursor.
(** The characters that [console_putc] does not print through itself again. *)
Definition console_put (character : Z) : cmd console unit :=
  if character =? 10 then advance_line else
  if character =? 13 then s ← cget; cmodify (set_cursor (cursor_row s) 0);; update_cursor else
  if character =? 8 then console_backspace else
  if u8 character <? 32 then mret tt else
  s ← cget;
  render_cell (cursor_row s) (cursor_col s) character (foreground s) (background s);;
  cmodify (set_cursor (cursor_row s) (u32 (cursor_col s + 1)));;
  s ← cget;
  if cols s <=? cursor_col s then advance_line else update_cursor.
Definition console_putc (character : Z) : cmd console unit :=
  if character =? 9 then s ← cget; each (seqZ 0 (4 - cursor_col s mod 4)) (λ _, console_put 32) else console_put character.
Definition console_puts (text : option cstring) : cmd console unit :=
  match text with None => mret tt | Some text => each text console_putc end.
End font.

(** ** Loops *)

Lemma wp_each {S} (I : Z → S → Prop) lo n f (Q : unit → S → Prop) (s : S) :
  0 <= n → I lo s → (∀ i (s : S), lo <= i < lo + n → I i s → wp (f i) (λ _, I (i + 1)) s) → (∀ s : S, I (lo + n) s → Q tt s) →
  wp (each (seqZ lo n) f) Q s.
Proof.
  intros Hn. remember (Z.to_nat n) as m eqn:Em. revert lo n Hn Em s. induction m as [|m IH]; intros lo n Hn Em s HI Hstep HQ.
  - assert (n = 0) as -> by lia. change (seqZ lo 0) with (@nil Z). cbn [each]. wp_step. apply HQ. by rewrite Z.add_0_r.
  - rewrite seqZ_cons by lia. cbn [each]. wp_step. eapply wp_mono; [apply Hstep; [lia|done]|]. cbn beta. intros _ s' HI'.
    apply (IH (Z.succ lo) (Z.pred n)); [lia|lia|exact HI'| |].
    + intros i s'' Hi. apply Hstep. lia.
    + intros s''. replace (Z.succ lo + Z.pred n) with (lo + n) by lia. apply HQ.
Qed.

Lemma as_int_small z : 0 <= z < 2 ^ 31 → as_int z = z.
Proof. intros H. unfold as_int. rewrite u32_small by lia. by rewrite (proj2 (Z.ltb_lt _ _)) by lia. Qed.

(** ** Pixels *)

(** A frame buffer whose lines fit in 32-bit addresses. *)
Record frame_ok (f : framebuffer) : Prop := {
  fk_base : 0 < fb f;
  fk_size : 0 < fb_width f ∧ 0 < fb_height f;
  fk_depth : fb_bpp f = 16 ∨ fb_bpp f = 24 ∨ fb_bpp f = 32;
  fk_pitch : fb_width f * (fb_bpp f / 8) <= fb_pitch f;
  fk_end : fb f + fb_pitch f * fb_height f <= 2 ^ 32
}.
Definition in_frame (f : framebuffer) (x y : Z) : Prop := 0 <= x < fb_width f ∧ 0 <= y < fb_height f.
Definition pixel_addr (f : framebuffer) (x y : Z) : Z := fb f + y * fb_pitch f + x * (fb_bpp f / 8).
(** The bytes of a pixel. *)
Definition pixel s (x y : Z) : list Z := (λ i, bytes s (pixel_addr (frame s) x y + i)) <$> seqZ 0 (fb_bpp (frame s) / 8).
(** Bytes are bytes. *)
Definition bytes_ok s : Prop := ∀ a, is_u8 (bytes s a).
(** Only bytes inside the frame buffer change, and the pixels of [P]. *)
Record painted s s' (P : Z → Z → option (list Z)) : Prop := {
  pt_rest : s' = set_bytes (bytes s') s;
  pt_pixel x y : in_frame (frame s) x y → pixel s' x y = default (pixel s x y) (P x y);
  pt_outside a : a < fb (frame s) ∨ fb (frame s) + fb_pitch (frame s) * fb_height (frame s) <= a → bytes s' a = bytes s a;
  pt_bytes : bytes_ok s → bytes_ok s'
}.

Lemma painted_frame s s' P : painted s s' P → frame s' = frame s.
Proof. intros [E _ _ _]. by rewrite E. Qed.
Lemma painted_none s : painted s s (λ _ _, None).
Proof. split; [by destruct s|done|done|done]. Qed.
Lemma painted_trans s s1 s2 P1 P2 P :
  painted s s1 P1 → painted s1 s2 P2 →
  (∀ x y, in_frame (frame s) x y → P x y = match P2 x y with Some b => Some b | None => P1 x y end) → painted s s2 P.
Proof.
  intros H1 H2 HP. pose proof (painted_frame _ _ _ H1) as Ef. destruct H1 as [E1 X1 O1 B1], H2 as [E2 X2 O2 B2]. rewrite Ef in *. split.
  - rewrite E2 at 1. rewrite E1. by destruct s.
  - intros x y Hxy. rewrite X2, X1, HP by done. by destruct (P2 x y).
  - intros a Ha. by rewrite O2, O1.
  - auto.
Qed.
Lemma painted_ext s s' P P' : painted s s' P → (∀ x y, in_frame (frame s) x y → P x y = P' x y) → painted s s' P'.
Proof. intros H HP. eapply painted_trans; [apply painted_none|exact H|]. intros x y Hxy. rewrite <- HP by done. by destruct (P x y). Qed.

Lemma frame_depth f : frame_ok f → fb_bpp f / 8 = 2 ∨ fb_bpp f / 8 = 3 ∨ fb_bpp f / 8 = 4.
Proof. intros [_ _ [->|[->| ->]] _ _]; auto. Qed.
Lemma frame_small f : frame_ok f → fb_width f < 2 ^ 31 ∧ fb_height f < 2 ^ 31.
Proof. intros Hf. pose proof (frame_depth f Hf) as Hd. destruct Hf as [? [? ?] _ ? ?]. nia. Qed.
Lemma length_pixel_bytes f color : frame_ok f → Z.of_nat (length (pixel_bytes (fb_bpp f) color)) = fb_bpp f / 8.
Proof. intros [_ _ [->|[->| ->]] _ _]; done. Qed.
Lemma pixel_bytes_u8 bpp color : Forall is_u8 (pixel_bytes bpp color).
Proof. unfold pixel_bytes. repeat case_match; repeat (apply Forall_cons; split; [apply u8_range || done|]); by apply Forall_nil. Qed.

Lemma pixel_inside f x y : frame_ok f → in_frame f x y →
  fb f <= pixel_addr f x y ∧ pixel_addr f x y + fb_bpp f / 8 <= fb f + fb_pitch f * fb_height f.
Proof. intros Hf [Hx Hy]. pose proof (frame_depth f Hf). destruct Hf as [? [? ?] _ ? ?]. unfold pixel_addr. nia. Qed.
Lemma pixels_apart f x y x' y' : frame_ok f → in_frame f x y → in_frame f x' y' → ¬ (x' = x ∧ y' = y) →
  pixel_addr f x y + fb_bpp f / 8 <= pixel_addr f x' y' ∨ pixel_addr f x' y' + fb_bpp f / 8 <= pixel_addr f x y.
Proof.
  intros Hf [Hx Hy] [Hx' Hy'] Hne. pose proof (frame_depth f Hf). destruct Hf as [? [? ?] _ ? ?]. unfold pixel_addr.
  destruct (Z.lt_trichotomy y y') as [?|[->|?]]; [nia| |nia]. assert (x < x' ∨ x' < x) as [?|?] by lia; nia.
Qed.

Lemma put_pixel_wp b : ∀ a s, Forall is_u8 b →
  wp (put_pixel a b) (λ _ s', s' = set_bytes (bytes s') s ∧
    ∀ x, bytes s' x = default (bytes s x) (if a <=? x then b !! Z.to_nat (x - a) else None)) s.
Proof.
  induction b as [|v b IH]; intros a s Hb; cbn [put_pixel].
  { wp_step. split; [by destruct s|]. intros x. by case_match. }
  apply Forall_cons in Hb as [Hv Hb]. wp_step. apply wp_modify. eapply wp_mono; [by apply IH|]. cbn beta. intros _ s' [E H].
  split; [exact E|]. intros x. rewrite H. cbn.
  destruct (Z.leb_spec (a + 1) x), (Z.leb_spec a x), (Z.eqb_spec x a); try lia; subst; cbn; try done.
  - replace (Z.to_nat (x - a)) with (S (Z.to_nat (x - (a + 1)))) by lia. done.
  - rewrite Z.sub_diag. cbn. by apply u8_small.
Qed.

Lemma putpixel_wp s x y color : frame_ok (frame s) → in_frame (frame s) x y →
  wp (framebuffer_putpixel x y color) (λ _ s', painted s s' (λ x' y',
    if decide (x' = x ∧ y' = y) then Some (pixel_bytes (fb_bpp (frame s)) color) else None)) s.
Proof.
  intros Hf Hxy. pose proof (pixel_inside _ _ _ Hf Hxy) as Hin. pose proof (length_pixel_bytes _ color Hf) as Hlen.
  pose proof (frame_depth _ Hf) as Hd. pose proof Hf as [Hb _ _ _ He]. pose proof Hxy as [Hx Hy].
  unfold framebuffer_putpixel. wp_step. wp_step. rewrite (proj2 (Z.eqb_neq _ _)) by lia.
  rewrite (proj2 (Z.ltb_ge x 0)), (proj2 (Z.ltb_ge y 0)), (proj2 (Z.leb_gt _ x)), (proj2 (Z.leb_gt _ y)) by lia. cbn [orb].
  fold (pixel_addr (frame s) x y). rewrite u32_small by lia.
  eapply wp_mono; [apply put_pixel_wp, pixel_bytes_u8|]. cbn beta. intros _ s' [E H].
  assert (Ef : frame s' = frame s) by by rewrite E. split; [done| | |].
  - intros x' y' Hxy'. unfold pixel. rewrite Ef. case_decide as Hc; cbn [default].
    + destruct Hc as [-> ->]. apply list_eq. intros i. rewrite list_lookup_fmap.
      destruct (decide (Z.of_nat i < fb_bpp (frame s) / 8)) as [Hi|Hi].
      * rewrite lookup_seqZ_lt by lia. cbn. rewrite H, (proj2 (Z.leb_le _ _)) by lia.
        replace (Z.to_nat _) with i by lia. destruct (lookup_lt_is_Some_2 (pixel_bytes (fb_bpp (frame s)) color) i) as [v ->]; [lia|done].
      * rewrite lookup_seqZ_ge by lia. cbn. symmetry. apply lookup_ge_None_2. lia.
    + apply list_fmap_ext. intros i j Hj%lookup_seqZ. destruct Hj as [-> Hj].
      pose proof (pixels_apart _ _ _ _ _ Hf Hxy Hxy' Hc). rewrite H. case_match eqn:El; [|done]. apply Z.leb_le in El.
      by rewrite lookup_ge_None_2 by lia.
  - intros a Ha. rewrite H. case_match eqn:El; [|done]. apply Z.leb_le in El. by rewrite lookup_ge_None_2 by lia.
  - intros Hok a. rewrite H. case_match; [|apply Hok]. destruct (_ !! _) as [v|] eqn:Ev; [|apply Hok].
    exact (proj1 (Forall_lookup _ _) (pixel_bytes_u8 _ _) _ _ Ev).
Qed.

(** Drawing a rectangle, row by row: [color x y] are the bytes at [(x, y)] in
    the frame. *)
Definition rect (ox nx oy ny : Z) (color : Z → Z → list Z) (x y : Z) : option (list Z) :=
  if decide (ox <= x < ox + nx ∧ oy <= y < oy + ny) then Some (color x y) else None.

Lemma rect_wp s ox nx oy ylo ny (f : Z → Z → cmd console unit) (color : Z → Z → Z) :
  frame_ok (frame s) → 0 <= nx → 0 <= ny → 0 <= ox → ox + nx <= fb_width (frame s) → 0 <= oy + ylo → oy + ylo + ny <= fb_height (frame s) →
  (∀ y x, ylo <= y < ylo + ny → 0 <= x < nx → f y x = framebuffer_putpixel (ox + x) (oy + y) (color (ox + x) (oy + y))) →
  wp (each (seqZ ylo ny) (λ y, each (seqZ 0 nx) (f y)))
    (λ _ s', painted s s' (rect ox nx (oy + ylo) ny (λ x y, pixel_bytes (fb_bpp (frame s)) (color x y)))) s.
Proof.
  intros Hf Hnx Hny Hox Hx Hoy Hy Hbody. set (P y := rect ox nx (oy + ylo) (y - ylo) (λ x y, pixel_bytes (fb_bpp (frame s)) (color x y))).
  apply (wp_each (λ y s', painted s s' (P y))); [done| | |].
  - eapply painted_ext; [apply painted_none|]. intros x y _. unfold P, rect. by rewrite decide_False by lia.
  - intros y s1 Hy1 H1. pose proof (painted_frame _ _ _ H1) as E1.
    apply (wp_each (λ x s', painted s1 s' (rect ox x (oy + y) 1 (λ x y, pixel_bytes (fb_bpp (frame s)) (color x y))))); [done| | |].
    + eapply painted_ext; [apply painted_none|]. intros x' y' _. unfold rect. by rewrite decide_False by lia.
    + intros x s2 Hx2 H2. pose proof (painted_frame _ _ _ H2) as E2. rewrite Hbody by lia.
      eapply wp_mono; [apply putpixel_wp; [by rewrite E2, E1|rewrite E2, E1; unfold in_frame; lia]|]. cbn beta.
      intros _ s3 H3. rewrite E2, E1 in H3. eapply painted_trans; [exact H2|exact H3|]. intros x' y' _. unfold rect.
      destruct (decide (x' = ox + x ∧ y' = oy + y)) as [[-> ->]|Hne]; [by rewrite decide_True by lia|].
      destruct (decide (ox <= x' < ox + x ∧ oy + y <= y' < oy + y + 1)); [by rewrite decide_True by lia|by rewrite decide_False by lia].
    + intros s2 H2. eapply painted_trans; [exact H1|exact H2|]. intros x' y' _. unfold P, rect. rewrite Z.add_0_l.
      destruct (decide (ox <= x' < ox + nx ∧ oy + y <= y' < oy + y + 1)); [by rewrite decide_True by lia|].
      destruct (decide (ox <= x' < ox + nx ∧ oy + ylo <= y' < oy + ylo + (y - ylo))); [by rewrite decide_True by lia|by rewrite decide_False by lia].
  - intros s1 H1. unfold P in H1. by replace (ylo + ny - ylo) with ny in H1 by lia.
Qed.

Lemma fill_wp s color : frame_ok (frame s) →
  wp (framebuffer_fill color) (λ _ s', painted s s' (λ _ _, Some (pixel_bytes (fb_bpp (frame s)) color))) s.
Proof.
  intros Hf. pose proof (frame_small _ Hf) as Hs. pose proof Hf as [Hb [Hw Hh] _ _ _]. unfold framebuffer_fill. wp_step. wp_step.
  rewrite (proj2 (Z.eqb_neq _ _)) by lia.
  eapply wp_mono; [apply (rect_wp s 0 _ 0 0 _ _ (λ _ _, color)); try lia; [done|]|].
  - intros y x Hy Hx. by rewrite !as_int_small, !Z.add_0_l by lia.
  - cbn beta. intros _ s' H. eapply painted_ext; [exact H|]. intros x y [? ?]. unfold rect. by rewrite decide_True by lia.
Qed.

(** The copy loop of [framebuffer_scroll], a move towards lower addresses. *)
Lemma copy_up_wp s n d : frame_ok (frame s) → 0 <= n → 0 < d → n + d <= fb_pitch (frame s) * fb_height (frame s) →
  wp (each (seqZ 0 n) (λ i, s' ← cget; poke8 (u32 (fb (frame s) + i)) (bytes s' (u32 (fb (frame s) + u32 (i + d))))))
    (λ _ s', s' = set_bytes (bytes s') s ∧
       ∀ a, bytes s' a = if decide (fb (frame s) <= a < fb (frame s) + n) then u8 (bytes s (a + d)) else bytes s a) s.
Proof.
  intros Hf Hn Hd Hend. pose proof Hf as [Hb [Hw Hh] _ _ He].
  apply (wp_each (λ i s', s' = set_bytes (bytes s') s ∧
    ∀ a, bytes s' a = if decide (fb (frame s) <= a < fb (frame s) + i) then u8 (bytes s (a + d)) else bytes s a)); [done| | |].
  - split; [by destruct s|]. intros a. by rewrite decide_False by lia.
  - intros i s1 Hi [E1 H1]. wp_step. wp_step. rewrite (u32_small (i + d)), !u32_small by lia. apply wp_modify. cbn. split; [by rewrite E1|].
    intros a. destruct (Z.eqb_spec a (fb (frame s) + i)) as [->|Hne].
    + rewrite H1, decide_False by lia. rewrite decide_True by lia. do 2 f_equal. lia.
    + rewrite H1. destruct (decide (fb (frame s) <= a < fb (frame s) + i)); [by rewrite decide_True by lia|by rewrite decide_False by lia].
  - done.
Qed.

Lemma scroll_wp s n color : frame_ok (frame s) → bytes_ok s → 0 < n < fb_height (frame s) →
  wp (framebuffer_scroll n color) (λ _ s', painted s s' (λ x y,
    Some (if y + n <? fb_height (frame s) then pixel s x (y + n) else pixel_bytes (fb_bpp (frame s)) color))) s.
Proof.
  intros Hf Hbytes Hn. pose proof (frame_small _ Hf) as Hs. pose proof (frame_depth _ Hf) as Hd. pose proof Hf as [Hb [Hw Hh] _ Hp He].
  set (h := fb_height (frame s)) in *. set (p := fb_pitch (frame s)) in *. unfold framebuffer_scroll. wp_step. wp_step. cbv zeta. fold h p.
  rewrite (proj2 (Z.eqb_neq (fb _) 0)), (proj2 (Z.eqb_neq n 0)), (proj2 (Z.leb_gt h n)) by lia. cbn [orb].
  assert (Hnp : 0 < n * p ∧ 0 <= (h - n) * p ∧ (h - n) * p + n * p = p * h) by nia.
  rewrite u32_small by lia. wp_step. eapply wp_mono; [apply (copy_up_wp s ((h - n) * p) (n * p)); [done|lia|lia|fold p h; lia]|].
  cbn beta. intros _ s1 [E1 H1]. assert (Ef : frame s1 = frame s) by by rewrite E1.
  eapply wp_mono; [apply (rect_wp s1 0 (fb_width (frame s)) 0 (h - n) (h - (h - n)) _ (λ _ _, color)); rewrite ?Ef; fold h; try lia; [done|]|].
  { intros y x Hy Hx. by rewrite !as_int_small, !Z.add_0_l by lia. }
  cbn beta. intros _ s2 [E2 X2 O2 B2]. rewrite Ef in *. fold h p in O2. split.
  - rewrite E2 at 1. by rewrite E1.
  - intros x y Hxy. rewrite X2 by done. unfold rect. pose proof Hxy as [Hx Hy]. fold h in Hy. cbn [default].
    destruct (Z.ltb_spec (y + n) h).
    + rewrite decide_False by lia. unfold pixel. rewrite Ef. apply list_fmap_ext. intros i j Hj%lookup_seqZ. destruct Hj as [-> Hj].
      rewrite H1. rewrite decide_True.
      * rewrite u8_small by apply Hbytes. f_equal. unfold pixel_addr. fold p. lia.
      * unfold pixel_addr. fold p. nia.
    + by rewrite decide_True by lia.
  - intros a Ha. rewrite O2 by done. rewrite H1, decide_False by (fold p h in Ha; lia). done.
  - intros _. apply B2. intros a. rewrite H1. case_decide; [apply u8_range|apply Hbytes].
Qed.

(** ** Cells *)

Section cells.
Context (glyph_row : Z → Z → Z).

(** The colour of a pixel of a character, and of a blank cell. *)
Definition cell_color (c fg bg x y : Z) : Z :=
  if negb (Z.land (glyph_row (u8 c) y) (Z.shiftr 0x80 x) =? 0) then palette_color fg else palette_color bg.
(** What a cell looks like, by rows of pixels. *)
Definition look_by (at_ : Z → Z → list Z) : list (list (list Z)) := (λ y, (λ x, at_ x y) <$> seqZ 0 FONT_WIDTH) <$> seqZ 0 FONT_HEIGHT.
Definition cell_look s (row col : Z) : list (list (list Z)) := look_by (λ x y, pixel s (col * FONT_WIDTH + x) (row * FONT_HEIGHT + y)).
Definition char_look s (c fg bg : Z) : list (list (list Z)) := look_by (λ x y, pixel_bytes (fb_bpp (frame s)) (cell_color c fg bg x y)).
Definition blank_look s : list (list (list Z)) := look_by (λ _ _, pixel_bytes (fb_bpp (frame s)) (palette_color (background s))).

Lemma look_ext f g : (∀ x y, 0 <= x < 8 → 0 <= y < 16 → f x y = g x y) → look_by f = look_by g.
Proof.
  intros H. unfold look_by, FONT_WIDTH, FONT_HEIGHT. apply list_fmap_ext. intros j y Hy%lookup_seqZ.
  apply list_fmap_ext. intros i x Hx%lookup_seqZ. apply H; lia.
Qed.

(** The console draws on the frame buffer: the grid fits, and what is below it
    has the colour of the background. *)
Record grid_ok s : Prop := {
  gk_frame : frame_ok (frame s);
  gk_bytes : bytes_ok s;
  gk_backend : backend s = CONSOLE_FRAMEBUFFER;
  gk_size : 0 < rows s ∧ 0 < cols s;
  gk_rows : rows s * 16 <= fb_height (frame s) < (rows s + 1) * 16;
  gk_cols : cols s * 8 <= fb_width (frame s);
  gk_margin x y : in_frame (frame s) x y → rows s * 16 <= y → pixel s x y = pixel_bytes (fb_bpp (frame s)) (palette_color (background s))
}.

Lemma grid_painted s s' P : grid_ok s → painted s s' P →
  (∀ x y b, in_frame (frame s) x y → rows s * 16 <= y → P x y = Some b → b = pixel_bytes (fb_bpp (frame s)) (palette_color (background s))) → grid_ok s'.
Proof.
  intros [Hf Hb Hk Hs Hr Hc Hm] [E X _ B] HP. specialize (B Hb).
  assert (frame s' = frame s ∧ backend s' = backend s ∧ rows s' = rows s ∧ cols s' = cols s ∧ background s' = background s) as (E1 & E2 & E3 & E4 & E5)
    by by rewrite E.
  split; rewrite ?E1, ?E2, ?E3, ?E4, ?E5; try done. intros x y Hxy Hy. rewrite X by done.
  destruct (P x y) as [b|] eqn:Ep; [by apply (HP x y)|by apply Hm].
Qed.

Lemma grid_cell s row col x y : grid_ok s → 0 <= row < rows s → 0 <= col < cols s → 0 <= x < 8 → 0 <= y < 16 →
  in_frame (frame s) (col * 8 + x) (row * 16 + y).
Proof. intros [_ _ _ _ ? ? _] ? ? ? ?. unfold in_frame. lia. Qed.

Lemma draw_cell_wp s row col c fg bg : grid_ok s → 0 <= row < rows s → 0 <= col < cols s →
  wp (draw_framebuffer_cell glyph_row row col c fg bg) (λ _ s', grid_ok s' ∧ s' = set_bytes (bytes s') s ∧
    ∀ r k, 0 <= r < rows s → 0 <= k < cols s →
      cell_look s' r k = if decide (r = row ∧ k = col) then char_look s c fg bg else cell_look s r k) s.
Proof.
  intros Hg Hrow Hcol. pose proof Hg as [Hf Hb Hk Hs Hr Hc Hm]. pose proof (frame_small _ Hf) as Hsm.
  unfold draw_framebuffer_cell, FONT_WIDTH, FONT_HEIGHT.
  eapply wp_mono; [apply (rect_wp s (col * 8) 8 (row * 16) 0 16 _ (λ x y, cell_color c fg bg (x - col * 8) (y - row * 16))); try lia; [done|]|].
  { intros y x Hy Hx. rewrite !as_int_small by lia. f_equal. unfold cell_color.
    replace (row * 16 + y - row * 16) with y by lia. by replace (col * 8 + x - col * 8) with x by lia. }
  cbn beta. intros _ s' H. split; [|split; [apply H|]].
  - eapply grid_painted; [done|exact H|]. intros x y b _ Hy. unfold rect. by rewrite decide_False by lia.
  - intros r k Hr' Hk'. unfold cell_look at 1, FONT_WIDTH, FONT_HEIGHT. case_decide as Hrk.
    + destruct Hrk as [-> ->]. apply look_ext. intros x y Hx Hy. rewrite (pt_pixel _ _ _ H) by by apply grid_cell.
      unfold rect. rewrite decide_True by lia. cbn. by rewrite !Z.add_simpl_l.
    + apply look_ext. intros x y Hx Hy. rewrite (pt_pixel _ _ _ H) by by apply grid_cell. unfold rect.
      rewrite decide_False; [done|]. intros [? ?]. apply Hrk. lia.
Qed.

(** The statics but the cursor of the console are kept. *)
Definition same_console s s' : Prop :=
  frame s' = frame s ∧ backend s' = backend s ∧ rows s' = rows s ∧ cols s' = cols s ∧ background s' = background s ∧ words s' = words s.

Lemma painted_same s s' P : painted s s' P → same_console s s'.
Proof. intros [E _ _ _]. unfold same_console. by rewrite E. Qed.
(** What the look of the cells depends on. *)
Lemma grid_same s s' : grid_ok s → same_console s s' → bytes s' = bytes s → grid_ok s' ∧ ∀ r k, cell_look s' r k = cell_look s r k.
Proof.
  intros [Hf Hb Hk Hs Hr Hc Hm] (E1 & E2 & E3 & E4 & E5 & E6) Eb. assert (Hp : ∀ x y, pixel s' x y = pixel s x y).
  { intros x y. unfold pixel. by rewrite E1, Eb. }
  split; [|intros r k; apply look_ext; intros; apply Hp].
  split; rewrite ?E1, ?E2, ?E3, ?E4, ?E5; try done; [intros a; rewrite Eb; apply Hb|]. intros x y Hxy Hy. rewrite Hp. by apply Hm.
Qed.

Lemma putc_at_wp s row col c fg bg : grid_ok s → 0 <= row < rows s → 0 <= col < cols s →
  wp (console_putc_at glyph_row row col c fg bg) (λ _ s', grid_ok s' ∧ same_console s s' ∧
    ∀ r k, 0 <= r < rows s → 0 <= k < cols s →
      cell_look s' r k = if decide (r = row ∧ k = col) then char_look s c fg bg else cell_look s r k) s.
Proof.
  intros Hg Hrow Hcol. unfold console_putc_at, render_cell. wp_step. wp_step.
  rewrite (proj2 (Z.ltb_lt row _)), (proj2 (Z.ltb_lt col _)) by lia. cbn [andb]. wp_step. wp_step. rewrite (gk_backend _ Hg).
  eapply wp_mono; [by apply draw_cell_wp|]. cbn beta. intros _ s' (Hg' & E & H). split; [done|]. split; [|done].
  unfold same_console. by rewrite E.
Qed.

Lemma update_cursor_wp s (Q : unit → console → Prop) : backend s = CONSOLE_FRAMEBUFFER → Q tt s → wp update_cursor Q s.
Proof. intros E H. unfold update_cursor. wp_step. wp_step. rewrite E. by wp_step. Qed.

Lemma console_clear_wp s : grid_ok s →
  wp console_clear (λ _ s', grid_ok s' ∧ same_console s s' ∧ ∀ r k, 0 <= r < rows s → 0 <= k < cols s → cell_look s' r k = blank_look s) s.
Proof.
  intros Hg. pose proof Hg as [Hf Hb Hk Hs Hr Hc Hm]. unfold console_clear. wp_step. apply wp_modify. wp_step. wp_step.
  cbn [backend set_cursor background]. rewrite Hk. wp_step. eapply wp_mono; [by apply fill_wp|]. cbn beta. intros _ s' H.
  pose proof (painted_same _ _ _ H) as Hsame. assert (Hg0 : grid_ok (set_cursor 0 0 s)) by by apply (grid_same s).
  apply update_cursor_wp; [destruct Hsame as (_ & Eb & _); cbn in *; congruence|]. split; [|split; [exact Hsame|]].
  - eapply grid_painted; [exact Hg0|exact H|]. by intros x y b _ _ [= <-].
  - intros r k Hr' Hk'. apply look_ext. intros x y Hx Hy. rewrite (pt_pixel _ _ _ H) by by apply (grid_cell (set_cursor 0 0 s)). done.
Qed.

Lemma console_scroll_wp s : grid_ok s →
  wp console_scroll (λ _ s', grid_ok s' ∧ same_console s s' ∧ ∀ r k, 0 <= r < rows s → 0 <= k < cols s →
    cell_look s' r k = if r + 1 <? rows s then cell_look s (r + 1) k else blank_look s) s.
Proof.
  intros Hg. pose proof Hg as [Hf Hb Hk Hs Hr Hc Hm]. pose proof (frame_small _ Hf) as Hsm. unfold console_scroll. wp_step. wp_step. rewrite Hk. wp_step.
  destruct (decide (fb_height (frame s) = 16)) as [E16|Hne].
  { assert (Er : rows s = 1) by lia. unfold framebuffer_scroll, FONT_HEIGHT. wp_step. wp_step. rewrite E16.
    rewrite (proj2 (Z.eqb_neq _ _)) by (pose proof (fk_base _ Hf); lia). cbn [orb Z.eqb Z.leb Z.compare Pos.compare Pos.compare_cont].
    eapply wp_mono; [by apply fill_wp|]. cbn beta. intros _ s' H. pose proof (painted_same _ _ _ H) as Hsame.
    assert (Hg' : grid_ok s') by (eapply grid_painted; [exact Hg|exact H|]; by intros x y b _ _ [= <-]).
    wp_step. apply wp_modify. apply update_cursor_wp; [destruct Hsame as (_ & Eb & _); cbn in *; congruence|].
    destruct (grid_same s' (set_cursor (if negb (cursor_row s' =? 0) then cursor_row s' - 1 else cursor_row s') (cursor_col s') s')) as [Hg'' Hl]; [done..|].
    split; [done|]. split; [exact Hsame|]. intros r k Hr' Hk'. rewrite Hl. rewrite (proj2 (Z.ltb_ge _ _)) by lia.
    apply look_ext. intros x y Hx Hy. rewrite (pt_pixel _ _ _ H) by by apply (grid_cell s). done. }
  eapply wp_mono; [apply (scroll_wp s FONT_HEIGHT); [done|done|unfold FONT_HEIGHT; lia]|]. cbn beta. intros _ s' H.
  pose proof (painted_same _ _ _ H) as Hsame.
  assert (Hlast : ∀ x y, in_frame (frame s) x y → (rows s - 1) * 16 <= y →
    pixel s' x y = pixel_bytes (fb_bpp (frame s)) (palette_color (background s))).
  { intros x y [Hx Hy] Hyr. rewrite (pt_pixel _ _ _ H) by done. cbn. destruct (Z.ltb_spec (y + FONT_HEIGHT) (fb_height (frame s))); [|done].
    apply Hm; unfold FONT_HEIGHT in *; [unfold in_frame|]; lia. }
  assert (Hg' : grid_ok s').
  { destruct Hsame as (E1 & E2 & E3 & E4 & E5 & E6). split; rewrite ?E1, ?E2, ?E3, ?E4, ?E5; try done; [by apply H|]. intros x y Hxy Hy. apply Hlast; [done|lia]. }
  wp_step. apply wp_modify. apply update_cursor_wp; [destruct Hsame as (_ & Eb & _); cbn in *; congruence|].
  destruct (grid_same s' (set_cursor (if negb (cursor_row s' =? 0) then cursor_row s' - 1 else cursor_row s') (cursor_col s') s')) as [Hg'' Hl]; [done..|].
  split; [done|]. split; [exact Hsame|]. intros r k Hr' Hk'. rewrite Hl. destruct (Z.ltb_spec (r + 1) (rows s)).
  - apply look_ext. intros x y Hx Hy. unfold FONT_WIDTH, FONT_HEIGHT in *. rewrite (pt_pixel _ _ _ H) by by apply (grid_cell s). cbn.
    rewrite (proj2 (Z.ltb_lt _ _)) by lia. f_equal. lia.
  - apply look_ext. intros x y Hx Hy. unfold FONT_WIDTH, FONT_HEIGHT in *. apply Hlast; [by apply grid_cell|lia].
Qed.

(** A frame buffer that is set up, all blank; the arguments are the ones that
    are refused otherwise. *)
Definition frame_fits (address width height pitch bpp : Z) : Prop :=
  address ≠ 0 ∧ 8 <= width ∧ 16 <= height ∧ (bpp = 16 ∨ bpp = 24 ∨ bpp = 32) ∧ width * (bpp / 8) <= pitch ∧
  pitch * height < 2 ^ 32 ∧ address + pitch * height <= 2 ^ 32.

Lemma init_framebuffer_wp s address width height pitch bpp :
  is_u32 address → is_u32 width → is_u32 height → is_u32 pitch → bytes_ok s →
  wp (console_init_framebuffer address width height pitch bpp) (λ ok s',
    (ok = true ∧ frame_fits address width height pitch bpp ∧ grid_ok s' ∧ rows s' = height / 16 ∧ cols s' = width / 8 ∧
      frame s' = mk_fb address width height pitch bpp ∧ words s' = words s ∧
      ∀ a, a < address ∨ address + pitch * height <= a → bytes s' a = bytes s a) ∨
    (ok = false ∧ ¬ frame_fits address width height pitch bpp ∧ s' = s)) s.
Proof.
  unfold is_u32, frame_fits. intros Ha Hw Hh Hp Hb. unfold console_init_framebuffer, FONT_WIDTH, FONT_HEIGHT.
  destruct (Z.ltb_spec width 8), (Z.ltb_spec height 16); cbn [orb]; try (wp_step; right; split; [done|split; [lia|done]]).
  unfold framebuffer_init. rewrite (proj2 (Z.eqb_neq width 0)), (proj2 (Z.eqb_neq height 0)) by lia. rewrite !orb_false_r.
  destruct (Z.eqb_spec address 0) as [->|Ha0]; cbn [orb]; [wp_step; wp_step; cbn [negb]; wp_step; right; split; [done|split; [lia|done]]|].
  destruct (negb (bpp =? 16) && negb (bpp =? 24) && negb (bpp =? 32)) eqn:Ebpp.
  { wp_step. wp_step. cbn [negb]. wp_step. right. split; [done|]. split; [|done]. intros (_ & _ & _ & Hbpp & _).
    destruct Hbpp as [->|[->| ->]]; done. }
  assert (Hbpp : bpp = 16 ∨ bpp = 24 ∨ bpp = 32).
  { destruct (Z.eqb_spec bpp 16), (Z.eqb_spec bpp 24), (Z.eqb_spec bpp 32); auto; done. }
  assert (HB : 2 <= bpp / 8 <= 4) by (destruct Hbpp as [->|[->| ->]]; by_eval).
  assert (Eu : u64 (width * (bpp / 8)) = width * (bpp / 8)) by (apply u64_small; nia).
  assert (Er : u64 (pitch * height) = pitch * height) by (apply u64_small; nia).
  rewrite Eu, Er. destruct (Z.ltb_spec pitch (width * (bpp / 8))).
  { wp_step. wp_step. cbn [negb]. wp_step. right. split; [done|]. split; [lia|done]. }
  assert (Hpos : 0 < pitch * height) by nia. rewrite (proj2 (Z.eqb_neq (pitch * height) 0)) by lia. cbn [orb].
  destruct (Z.ltb_spec 0xFFFFFFFF (pitch * height)); cbn [orb].
  { wp_step. wp_step. cbn [negb]. wp_step. right. split; [done|]. split; [lia|done]. }
  rewrite u64_small by lia. destruct (Z.ltb_spec 0x100000000 (address + pitch * height)).
  { wp_step. wp_step. cbn [negb]. wp_step. right. split; [done|]. split; [lia|done]. }
  wp_step. wp_step. apply wp_modify. set (s0 := set_fb_frame _ s).
  assert (Hf : frame_ok (frame s0)) by (split; cbn; [lia|lia|done|lia|lia]). wp_step. eapply wp_mono; [by apply fill_wp|].
  cbn beta. intros _ s1 P1. wp_step. change (negb true) with false. cbn iota. cbv zeta.
  rewrite (proj2 (Z.eqb_neq (width / 8) 0)), (proj2 (Z.eqb_neq (height / 16) 0)) by lia. cbn [orb].
  wp_step. apply wp_modify. wp_step. apply wp_modify. wp_step. apply wp_modify. wp_step.
  set (s2 := set_colors _ _ _). pose proof (painted_frame _ _ _ P1) as E1. assert (E2 : frame s2 = frame s0) by exact E1.
  eapply wp_mono; [apply (fill_wp s2); by rewrite E2|]. cbn beta. intros _ s3 P3. wp_step. left. split; [done|]. split; [lia|].
  pose proof (painted_same _ _ _ P3) as (A1 & A2 & A3 & A4 & A5 & A6). cbn in A2, A3, A4, A5, A6. rewrite E2 in A1.
  split; [|split; [exact A3|split; [exact A4|split; [exact A1|split]]]].
  - split; rewrite ?A1, ?A2, ?A3, ?A4, ?A5; cbn; try done; try lia.
    + apply (pt_bytes _ _ _ P3), (pt_bytes _ _ _ P1), Hb.
    + intros x y Hxy _. rewrite (pt_pixel _ _ _ P3) by by rewrite E2. cbn. by rewrite E1.
  - rewrite A6. by rewrite (pt_rest _ _ _ P1).
  - intros a Hout. rewrite (pt_outside _ _ _ P3) by (rewrite E2; exact Hout). cbn. by rewrite (pt_outside _ _ _ P1).
Qed.
End cells.
End Console.
