(* ===== verification/Tty.v ===== *)
(** * The terminal

    [src/kernel/drivers/tty.c] over the VGA text memory or the console of
    [Console.v], with the scrollback ring and the copy of the output on the
    serial line. *)

From S2P Require Import Prelude Console Input.
Import Console.

Module Tty.

Definition TTY_SCROLLBACK_LINES : Z := 256.
Definition TTY_SCROLLBACK_COLS : Z := 80.
Definition TTY_COLOR_BLACK : Z := 0.
Definition TTY_COLOR_WHITE : Z := 7.

(** The statics, the bytes sent on the serial line, and the console below. *)
Record tty := mk_tty {
  fb_mode : bool; TTY_base : Z; TTY_row : Z; TTY_col : Z; TTY_ROWS : Z; TTY_COLS : Z; TTY_fg : Z; TTY_bg : Z;
  scrollback : list (list Z); scrollback_total : Z; scrollback_offset : Z; serial_out : list Z; con : console
}.
Implicit Types (s : tty).
Definition set_pos r c s : tty :=
  mk_tty (fb_mode s) (TTY_base s) r c (TTY_ROWS s) (TTY_COLS s) (TTY_fg s) (TTY_bg s) (scrollback s) (scrollback_total s) (scrollback_offset s) (serial_out s) (con s).
Definition set_tty_size r c s : tty :=
  mk_tty (fb_mode s) (TTY_base s) (TTY_row s) (TTY_col s) r c (TTY_fg s) (TTY_bg s) (scrollback s) (scrollback_total s) (scrollback_offset s) (serial_out s) (con s).
Definition set_tty_colors f b s : tty :=
  mk_tty (fb_mode s) (TTY_base s) (TTY_row s) (TTY_col s) (TTY_ROWS s) (TTY_COLS s) f b (scrollback s) (scrollback_total s) (scrollback_offset s) (serial_out s) (con s).
Definition set_scrollback l n o s : tty :=
  mk_tty (fb_mode s) (TTY_base s) (TTY_row s) (TTY_col s) (TTY_ROWS s) (TTY_COLS s) (TTY_fg s) (TTY_bg s) l n o (serial_out s) (con s).
Definition set_serial l s : tty :=
  mk_tty (fb_mode s) (TTY_base s) (TTY_row s) (TTY_col s) (TTY_ROWS s) (TTY_COLS s) (TTY_fg s) (TTY_bg s) (scrollback s) (scrollback_total s) (scrollback_offset s) l (con s).
Definition set_con x s : tty :=
  mk_tty (fb_mode s) (TTY_base s) (TTY_row s) (TTY_col s) (TTY_ROWS s) (TTY_COLS s) (TTY_fg s) (TTY_bg s) (scrollback s) (scrollback_total s) (scrollback_offset s) (serial_out s) x.
Definition set_backend b base s : tty :=
  mk_tty b base (TTY_row s) (TTY_col s) (TTY_ROWS s) (TTY_COLS s) (TTY_fg s) (TTY_bg s) (scrollback s) (scrollback_total s) (scrollback_offset s) (serial_out s) (con s).
Definition on_con {A} (m : cmd console A) : cmd tty A := czoom con set_con m.

(** [TTY_base[i]] *)
Definition cell_addr (base i : Z) : Z := base + 2 * i.
Definition cell_at (i : Z) s : Z := words (con s) (cell_addr (TTY_base s) i).
Definition put_cell (i v : Z) : cmd tty unit := s ← cget; on_con (poke16 (cell_addr (TTY_base s) i) v).

(** ** The serial line, the output part of [serial.c] *)

Definition serial_write_char (c : Z) : cmd tty unit := cmodify (λ s, set_serial (serial_out s ++ [u8 c]) s).
Definition serial_write (str : option cstring) : cmd tty unit :=
  match str with None => mret tt | Some str => each str serial_write_char end.
Definition serial_clear : cmd tty unit := serial_write (Some ([27] ++ cstr "[2J" ++ [27] ++ cstr "[H")).
Definition serial_write_line (str : option cstring) : cmd tty unit := serial_write str;; serial_write (Some [13; 10]).

(** ** Set-up *)

(** [char] is signed: the conversion to 16 bits copies its top bit. *)
Definition vga_entry (c fg bg : Z) : Z :=
  let wide := if u8 c <? 128 then u8 c else u8 c + 0xFF00 in
  u16 (Z.lor wide (u16 (Z.shiftl (Z.lor (Z.shiftl (Z.land bg 0x0F) 4) (Z.land fg 0x0F)) 8))).

Definition TTY_set_fb_backend (enable : Z) : cmd tty unit := cmodify (λ s, set_backend (negb (enable =? 0)) (TTY_base s) s).
Definition TTY_set_TTY_base (addr : Z) : cmd tty unit :=
  if negb (addr =? 0) then cmodify (λ s, set_backend (fb_mode s) addr s) else mret tt.

Definition TTY_getrow : cmd tty Z := s ← cget; mret (TTY_row s).
Definition TTY_setrow (row : Z) : cmd tty unit :=
  cmodify (λ s, set_pos (if TTY_ROWS s <=? row then u32 (TTY_ROWS s - 1) else row) (TTY_col s) s).
Definition TTY_getcol : cmd tty Z := s ← cget; mret (TTY_col s).
Definition TTY_setcol (col : Z) : cmd tty unit :=
  cmodify (λ s, set_pos (TTY_row s) (if TTY_COLS s <=? col then u32 (TTY_COLS s - 1) else col) s).
Definition TTY_getpos : cmd tty (Z * Z) := s ← cget; mret (TTY_row s, TTY_col s).
Definition TTY_setpos (row col : Z) : cmd tty unit := TTY_setrow row;; TTY_setcol col.
Definition TTY_getsize : cmd tty (Z * Z) := s ← cget; mret (TTY_ROWS s, TTY_COLS s).

Definition TTY_setcolor (fg bg : Z) : cmd tty unit := cmodify (set_tty_colors (Z.land fg 0x0F) (Z.land bg 0x0F)).
Definition TTY_getcolor : cmd tty (Z * Z) := s ← cget; mret (TTY_fg s, TTY_bg s).
Definition TTY_resetcolor : cmd tty unit := cmodify (set_tty_colors TTY_COLOR_WHITE TTY_COLOR_BLACK).

Section font.
Context (glyph_row : Z → Z → Z).
Definition console_cell (row col c : Z) : cmd tty unit := on_con (console_putc_at glyph_row row col c (u8 0xFFFFFF) (u8 0x000000)).

Definition TTY_clear : cmd tty unit :=
  serial_clear;;
  cmodify (λ s, set_scrollback (scrollback s) 0 0 s);;
  s ← cget;
  if fb_mode s then on_con console_clear;; cmodify (set_pos 0 0) else
  if TTY_base s =? 0 then mret tt else
  let blank := vga_entry 32 (TTY_fg s) (TTY_bg s) in
  each (seqZ 0 (u32 (TTY_ROWS s * TTY_COLS s))) (λ i, put_cell i blank);;
  cmodify (set_pos 0 0).

Definition TTY_init : cmd tty unit :=
  s ← cget;
  (if fb_mode s then rows ← on_con console_rows; cols ← on_con console_cols; cmodify (set_tty_size rows cols) else cmodify (set_tty_size 25 80));;
  cmodify (set_pos 0 0);;
  TTY_resetcolor;;
  TTY_clear.

Definition TTY_clearline (row : Z) : cmd tty unit :=
  s ← cget;
  if TTY_ROWS s <=? row then mret tt else
  if fb_mode s then each (seqZ 0 (TTY_COLS s)) (λ col, console_cell row col 32) else
  if TTY_base s =? 0 then mret tt else
  let blank := vga_entry 32 (TTY_fg s) (TTY_bg s) in
  each (seqZ 0 (TTY_COLS s)) (λ col, put_cell (row * TTY_COLS s + col) blank).

(** ** Scrolling *)

(** The top line goes to the ring. *)
Definition save_top_line : cmd tty unit :=
  s ← cget;
  if TTY_COLS s =? TTY_SCROLLBACK_COLS then
    let slot := scrollback_total s mod TTY_SCROLLBACK_LINES in
    let line := (λ col, cell_at col s) <$> seqZ 0 TTY_SCROLLBACK_COLS in
    cmodify (set_scrollback (<[Z.to_nat slot := line]> (scrollback s)) (u32 (scrollback_total s + 1)) (scrollback_offset s))
  else mret tt.
Definition row_up : cmd tty unit := cmodify (λ s, set_pos (if 0 <? TTY_row s then TTY_row s - 1 else TTY_row s) (TTY_col s) s).
Definition TTY_scroll : cmd tty unit :=
  s ← cget;
  if fb_mode s then on_con console_scroll;; row_up else
  if TTY_base s =? 0 then mret tt else
  save_top_line;;
  each (seqZ 1 (TTY_ROWS s - 1)) (λ row, each (seqZ 0 (TTY_COLS s)) (λ col,
    s' ← cget; put_cell ((row - 1) * TTY_COLS s + col) (cell_at (row * TTY_COLS s + col) s')));;
  let blank := vga_entry 32 (TTY_fg s) (TTY_bg s) in
  each (seqZ 0 (TTY_COLS s)) (λ col, put_cell ((TTY_ROWS s - 1) * TTY_COLS s + col) blank);;
  row_up.

(** The new offset in the ring for a request of [lines]. *)
Definition scroll_offset (lines max_offset offset : Z) : Z :=
  if lines <? 0 then
    let amount := u32 (- lines) in if max_offset - offset <? amount then max_offset else offset + amount
  else if offset <? lines then 0 else offset - lines.
(** The cell that a row of the view takes, from the ring or from the screen. *)
Definition view_cell (logical_row oldest col : Z) s : option Z :=
  if (logical_row <? scrollback_total s) && (oldest <=? logical_row) then
    line ← scrollback s !! Z.to_nat (logical_row mod TTY_SCROLLBACK_LINES); line !! Z.to_nat col
  else if (scrollback_total s <=? logical_row) && (logical_row - scrollback_total s <? TTY_ROWS s) then
    Some (cell_at ((logical_row - scrollback_total s) * TTY_COLS s + col) s)
  else Some (vga_entry 32 (TTY_fg s) (TTY_bg s)).
Definition TTY_scrollback (lines : Z) : cmd tty unit :=
  s ← cget;
  if fb_mode s || (TTY_base s =? 0) || negb (TTY_COLS s =? TTY_SCROLLBACK_COLS) || (scrollback_total s =? 0) then mret tt else
  let max_offset := if scrollback_total s <? TTY_SCROLLBACK_LINES then scrollback_total s else TTY_SCROLLBACK_LINES in
  let offset := scroll_offset lines max_offset (scrollback_offset s) in
  cmodify (λ s, set_scrollback (scrollback s) (scrollback_total s) offset s);;
  let oldest := if TTY_SCROLLBACK_LINES <? scrollback_total s then scrollback_total s - TTY_SCROLLBACK_LINES else 0 in
  let first_row := u32 (scrollback_total s - offset) in
  each (seqZ 0 (TTY_ROWS s)) (λ row, each (seqZ 0 (TTY_COLS s)) (λ col,
    s' ← cget; cell ← cget_opt (view_cell (u32 (first_row + row)) oldest col s');
    put_cell (row * TTY_COLS s + col) cell)).

(** ** Characters *)

Definition TTY_backspace : cmd tty unit :=
  s ← cget;
  if (TTY_col s =? 0) && (TTY_row s =? 0) then mret tt else
  (if TTY_col s =? 0 then cmodify (set_pos (TTY_row s - 1) (u32 (TTY_COLS s - 1))) else cmodify (set_pos (TTY_row s) (TTY_col s - 1)));;
  s ← cget;
  if fb_mode s then console_cell (TTY_row s) (TTY_col s) 32 else
  if TTY_base s =? 0 then mret tt else
  put_cell (TTY_row s * TTY_COLS s + TTY_col s) (vga_entry 32 (TTY_fg s) (TTY_bg s)).

(** The end of the line: the next row, scrolled into view. *)
Definition next_line : cmd tty unit :=
  cmodify (λ s, set_pos (u32 (TTY_row s + 1)) 0 s);;
  s ← cget;
  if TTY_ROWS s <=? TTY_row s then TTY_scroll else mret tt.
Definition print_char (c : Z) : cmd tty unit :=
  s ← cget;
  if negb (fb_mode s) && (TTY_base s =? 0) then mret tt else
  (if fb_mode s then console_cell (TTY_row s) (TTY_col s) c
   else put_cell (TTY_row s * TTY_COLS s + TTY_col s) (vga_entry c (TTY_fg s) (TTY_bg s)));;
  cmodify (λ s, set_pos (TTY_row s) (u32 (TTY_col s + 1)) s);;
  s ← cget;
  if TTY_COLS s <=? TTY_col s then next_line else mret tt.
Definition leave_scrollback : cmd tty unit :=
  s ← cget; if negb (scrollback_offset s =? 0) then TTY_scrollback (as_int (scrollback_offset s)) else mret tt.
(** Every character but the tab. *)
Definition put_char (c : Z) : cmd tty unit :=
  leave_scrollback;;
  if c =? 10 then next_line else
  if c =? 13 then cmodify (λ s, set_pos (TTY_row s) 0 s) else
  if c =? 8 then TTY_backspace else
  if u8 c <? 32 then mret tt else print_char c.
Definition TTY_putc (c : Z) : cmd tty unit :=
  if c =? 9 then
    leave_scrollback;; s ← cget; each (seqZ 0 (4 - TTY_col s mod 4)) (λ _, put_char 32)
  else put_char c.
Definition TTY_puts (str : option cstring) : cmd tty unit :=
  match str with None => mret tt | Some text => serial_write (Some text);; each text TTY_putc end.

Definition TTY_putcat (row col ch fg bg : Z) : cmd tty unit :=
  s ← cget;
  if (TTY_ROWS s <=? row) || (TTY_COLS s <=? col) then mret tt else
  if fb_mode s then
    on_con (console_putc_at glyph_row row col ch (u8 (if fg =? TTY_COLOR_BLACK then 0x000000 else 0xFFFFFF))
      (u8 (if bg =? TTY_COLOR_BLACK then 0x000000 else 0xFFFFFF)))
  else if TTY_base s =? 0 then mret tt else put_cell (row * TTY_COLS s + col) (vga_entry ch fg bg).
Fixpoint put_at (row col : Z) (str : cstring) (fg bg : Z) : cmd tty unit :=
  match str with
  | [] => mret tt
  | c :: str => s ← cget; if negb (col <? TTY_COLS s) then mret tt else TTY_putcat row col c fg bg;; put_at row (col + 1) str fg bg
  end.
Definition TTY_putsat (row col : Z) (str : option cstring) (fg bg : Z) : cmd tty unit :=
  s ← cget;
  match str with
  | None => mret tt
  | Some str => if (TTY_ROWS s <=? row) || (TTY_COLS s <=? col) then mret tt else put_at row col str fg bg
  end.
End font.

(** ** Start-up, from [src/kernel/core/kernel.c] *)

(** The end of [map_boot_framebuffer]. *)
Definition start_framebuffer (address width height pitch bpp : Z) : cmd tty bool :=
  ok ← on_con (console_init_framebuffer address width height pitch bpp);
  if negb (ok : bool) then mret false else
  TTY_set_fb_backend 1;;
  TTY_init;;
  mret true.
(** The first calls of [kmain]. *)
Definition start_text : cmd tty unit := on_con console_init_vga;; TTY_init.

(** ** Input, from the line editor *)

Definition TTY_input_ready : cmd Input.line bool := Input.line_ready.
Definition TTY_input_eof : cmd Input.line bool := Input.line_eof.
(** The length and the bytes stored in the buffer. *)
Definition TTY_readline (buffer : bool) (size : Z) : cmd Input.line (Z * list Z) :=
  if negb buffer || (size =? 0) then mret (0, []) else
  ready ← Input.line_ready;
  if negb (ready : bool) then eof ← Input.line_eof; mret (0, if (eof : bool) then [0] else []) else
  s ← cget;
  len ← Input.line_get_length;
  let length := if size <=? len then size - 1 else len in
  mret (length, take (Z.to_nat length) (Input.line_buffer s) ++ [0]).
Definition TTY_input_consume : cmd Input.line unit := Input.line_consume.

(** ** The text memory *)

Definition words_ok s : Prop := ∀ a, is_u16 (words (con s) a).
(** Only cells of the screen change, and they are those of [F]. *)
Record drawn s s' (F : Z → Z) : Prop := {
  dr_rest : s' = set_con (set_words (words (con s')) (con s)) s;
  dr_ok : words_ok s → words_ok s';
  dr_cell i : 0 <= i < TTY_ROWS s * TTY_COLS s → cell_at i s' = F i;
  dr_outside a : a < TTY_base s ∨ cell_addr (TTY_base s) (TTY_ROWS s * TTY_COLS s) <= a → words (con s') a = words (con s) a
}.

Lemma drawn_none s : drawn s s (λ i, cell_at i s).
Proof. split; [|done|done|done]. by destruct s as [? ? ? ? ? ? ? ? ? ? ? ? []]. Qed.
Lemma drawn_trans s s1 s2 F G : drawn s s1 F → drawn s1 s2 G → drawn s s2 G.
Proof.
  intros [E1 K1 _ O1] [E2 K2 C2 O2].
  assert (TTY_base s1 = TTY_base s ∧ TTY_ROWS s1 = TTY_ROWS s ∧ TTY_COLS s1 = TTY_COLS s) as (Eb & Er & Ec) by by rewrite E1.
  rewrite Eb, Er, Ec in *. split; [|auto|done|].
  - rewrite E2 at 1. rewrite E1. by destruct s as [? ? ? ? ? ? ? ? ? ? ? ? []].
  - intros a Ha. by rewrite O2, O1.
Qed.
Lemma drawn_ext s s' F G : drawn s s' F → (∀ i, 0 <= i < TTY_ROWS s * TTY_COLS s → F i = G i) → drawn s s' G.
Proof. intros [E K C O] H. split; [done|done| |done]. intros i Hi. by rewrite C, H. Qed.
Lemma drawn_same s s' F : drawn s s' F →
  fb_mode s' = fb_mode s ∧ TTY_base s' = TTY_base s ∧ TTY_ROWS s' = TTY_ROWS s ∧ TTY_COLS s' = TTY_COLS s ∧ TTY_fg s' = TTY_fg s ∧ TTY_bg s' = TTY_bg s.
Proof. intros [E _ _ _]. by rewrite E. Qed.

Lemma put_cell_wp s i v : 0 <= i < TTY_ROWS s * TTY_COLS s → is_u16 v →
  wp (put_cell i v) (λ _ s', drawn s s' (λ j, if decide (j = i) then v else cell_at j s)) s.
Proof.
  intros Hi Hv. unfold put_cell, poke16, on_con. wp_step. wp_step. wp_step. apply wp_modify. split.
  - done.
  - intros Hok a. cbn. case_match; [apply u16_range|apply Hok].
  - intros j Hj. unfold cell_at, cell_addr. cbn. case_decide as Hd; [subst j; by rewrite Z.eqb_refl, u16_small|].
    by rewrite (proj2 (Z.eqb_neq _ _)) by lia.
  - intros a Ha. unfold cell_addr in *. cbn. by rewrite (proj2 (Z.eqb_neq _ _)) by lia.
Qed.

Lemma vga_entry_u16 c fg bg : is_u16 (vga_entry c fg bg).
Proof. apply u16_range. Qed.

(** Drawing the cells from [lo] on, each from the cells drawn so far. *)
Lemma fill_cells_wp s lo n v : 0 <= n → 0 <= lo → lo + n <= TTY_ROWS s * TTY_COLS s → is_u16 v →
  wp (each (seqZ 0 n) (λ col, put_cell (lo + col) v)) (λ _ s', drawn s s' (λ j, if decide (lo <= j < lo + n) then v else cell_at j s)) s.
Proof.
  intros Hn Hlo Hhi Hv. apply (wp_each (λ i s', drawn s s' (λ j, if decide (lo <= j < lo + i) then v else cell_at j s))); [done| | |done].
  - eapply drawn_ext; [apply drawn_none|]. intros j _. cbn. by rewrite decide_False by lia.
  - intros i s1 Hi H1. destruct (drawn_same _ _ _ H1) as (_ & _ & Er & Ec & _).
    eapply wp_mono; [apply put_cell_wp; [rewrite Er, Ec; lia|done]|]. cbn beta. intros _ s2 H2.
    eapply drawn_ext; [by eapply drawn_trans|]. intros j Hj. cbn. destruct (decide (j = lo + i)); [by rewrite decide_True by lia|].
    rewrite (dr_cell _ _ _ H1) by done. destruct (decide (lo <= j < lo + i)); [by rewrite decide_True by lia|by rewrite decide_False by lia].
Qed.

Lemma move_rows_wp s : 0 < TTY_ROWS s → 0 < TTY_COLS s → words_ok s →
  wp (each (seqZ 1 (TTY_ROWS s - 1)) (λ row, each (seqZ 0 (TTY_COLS s)) (λ col,
    s' ← cget; put_cell ((row - 1) * TTY_COLS s + col) (cell_at (row * TTY_COLS s + col) s'))))
    (λ _ s', drawn s s' (λ j, if decide (j < (TTY_ROWS s - 1) * TTY_COLS s) then cell_at (j + TTY_COLS s) s else cell_at j s)) s.
Proof.
  intros HR HC Hok. set (R := TTY_ROWS s) in *. set (C := TTY_COLS s) in *.
  set (F m j := if decide (j < m) then cell_at (j + C) s else cell_at j s).
  apply (wp_each (λ row s', drawn s s' (F ((row - 1) * C)))); [lia| | |].
  - eapply drawn_ext; [apply drawn_none|]. intros j Hj. unfold F. by rewrite decide_False by lia.
  - intros row s1 Hrow H1. apply (wp_each (λ col s', drawn s s' (F ((row - 1) * C + col)))); [lia|by rewrite Z.add_0_r| |].
    + intros col s2 Hcol H2. destruct (drawn_same _ _ _ H2) as (_ & _ & Er & Ec & _). wp_step. wp_step.
      eapply wp_mono; [apply put_cell_wp; [rewrite Er, Ec; fold R C; nia|by apply H2]|]. cbn beta. intros _ s3 H3.
      eapply drawn_ext; [by eapply drawn_trans|]. fold R C. intros j Hj. cbn. case_decide as Hd.
      * subst j. rewrite (dr_cell _ _ _ H2) by (fold R C; nia). unfold F. rewrite decide_False by nia. rewrite decide_True by lia. f_equal. lia.
      * rewrite (dr_cell _ _ _ H2) by (fold R C; lia). unfold F. destruct (decide (j < (row - 1) * C + col)); [by rewrite decide_True by lia|by rewrite decide_False by lia].
    + intros s2 H2. by replace ((row + 1 - 1) * C) with ((row - 1) * C + (0 + C)) by lia.
  - intros s1 H1. by replace (1 + (R - 1) - 1) with (R - 1) in H1 by lia.
Qed.

(** ** What is shown *)

Section show.
Context (glyph_row : Z → Z → Z).
Abbreviation look := (list (list (list Z))).

(** What a cell, a character and a blank look like: pixels, or a single word. *)
Definition cell_view s (row col : Z) : look :=
  if fb_mode s then cell_look (con s) row col else [[[cell_at (row * TTY_COLS s + col) s]]].
Definition char_view s (c : Z) : look :=
  if fb_mode s then char_look glyph_row (con s) c (u8 0xFFFFFF) (u8 0x000000) else [[[vga_entry c (TTY_fg s) (TTY_bg s)]]].
Definition blank_view s : look := if fb_mode s then blank_look (con s) else [[[vga_entry 32 (TTY_fg s) (TTY_bg s)]]].

(** The terminal can draw. *)
Record can_draw s : Prop := {
  cd_size : 0 < TTY_ROWS s < 2 ^ 31 ∧ 0 < TTY_COLS s < 2 ^ 31 ∧ TTY_ROWS s * TTY_COLS s < 2 ^ 32;
  cd_ring : length (scrollback s) = Z.to_nat TTY_SCROLLBACK_LINES;
  cd_backend : if fb_mode s then grid_ok (con s) ∧ rows (con s) = TTY_ROWS s ∧ cols (con s) = TTY_COLS s
    else 0 < TTY_base s ∧ words_ok s
}.
(** Everything that decides what characters look like, and the line, the
    offset and the memory outside the screen, are kept. *)
Record same_screen s s' : Prop := {
  sm_mode : fb_mode s' = fb_mode s ∧ TTY_base s' = TTY_base s;
  sm_size : TTY_ROWS s' = TTY_ROWS s ∧ TTY_COLS s' = TTY_COLS s;
  sm_colors : TTY_fg s' = TTY_fg s ∧ TTY_bg s' = TTY_bg s;
  sm_console : frame (con s') = frame (con s) ∧ background (con s') = background (con s);
  sm_offset : scrollback_offset s' = scrollback_offset s;
  sm_serial : serial_out s' = serial_out s;
  sm_outside a : fb_mode s = true ∨ a < TTY_base s ∨ cell_addr (TTY_base s) (TTY_ROWS s * TTY_COLS s) <= a → words (con s') a = words (con s) a
}.

Lemma same_screen_refl s : same_screen s s.
Proof. by split. Qed.
Lemma same_screen_trans s s1 s2 : same_screen s s1 → same_screen s1 s2 → same_screen s s2.
Proof.
  intros [[A1 A2] [B1 B2] [C1 C2] [D1 D2] E F O] [[A1' A2'] [B1' B2'] [C1' C2'] [D1' D2'] E' F' O'].
  split; try (split; congruence); try congruence. intros a Ha. rewrite O', O; [done|done|]. by rewrite A1, A2, B1, B2.
Qed.
Lemma same_views s s' : same_screen s s' → (∀ c, char_view s' c = char_view s c) ∧ blank_view s' = blank_view s.
Proof.
  intros [[A1 A2] [B1 B2] [C1 C2] [D1 D2] E F _]. unfold char_view, blank_view. rewrite A1. destruct (fb_mode s).
  - unfold char_look, blank_look. by rewrite D1, D2.
  - by rewrite C1, C2.
Qed.

(** Steps that do not draw: the position, the ring, the serial line. *)
Definition undrawn s s' : Prop :=
  fb_mode s' = fb_mode s ∧ TTY_base s' = TTY_base s ∧ TTY_ROWS s' = TTY_ROWS s ∧ TTY_COLS s' = TTY_COLS s ∧
  TTY_fg s' = TTY_fg s ∧ TTY_bg s' = TTY_bg s ∧ con s' = con s.
Lemma undrawn_views s s' : undrawn s s' → (∀ r k, cell_view s' r k = cell_view s r k) ∧ (∀ c, char_view s' c = char_view s c) ∧ blank_view s' = blank_view s.
Proof.
  intros (A & B & C & D & E & F & G). unfold cell_view, char_view, blank_view, cell_at. by rewrite A, B, D, E, F, G.
Qed.
Lemma undrawn_can s s' : undrawn s s' → length (scrollback s') = length (scrollback s) → can_draw s → can_draw s'.
Proof.
  intros (A & B & C & D & E & F & G) El [H1 H2 H3]. split; [by rewrite C, D|congruence|]. unfold words_ok. by rewrite A, B, C, D, G.
Qed.

Lemma drawn_can s s' F : fb_mode s = false → can_draw s → drawn s s' F → can_draw s' ∧ same_screen s s'.
Proof.
  intros Em [Hs Hr Hb] H. rewrite Em in Hb. destruct Hb as [Hb Hw]. pose proof (dr_outside _ _ _ H) as Ho.
  destruct H as [E K _ _]. specialize (K Hw).
  split.
  - split; rewrite E; [done|done|]. cbn. rewrite Em. split; [done|exact K].
  - split; rewrite E; try done. intros a [?|Ha]; [congruence|]. cbn. by apply Ho.
Qed.

(** A character at a cell of the screen. *)
Definition draw_char (row col c : Z) : cmd tty unit :=
  s ← cget;
  if fb_mode s then console_cell glyph_row row col c
  else put_cell (row * TTY_COLS s + col) (vga_entry c (TTY_fg s) (TTY_bg s)).

Lemma index_inj C r k r' k' : 0 <= k < C → 0 <= k' < C → r * C + k = r' * C + k' → r = r' ∧ k = k'.
Proof. intros Hk Hk' E. assert (r = r') by nia. subst. lia. Qed.

Lemma draw_char_wp s row col c : can_draw s → 0 <= row < TTY_ROWS s → 0 <= col < TTY_COLS s →
  wp (if fb_mode s then console_cell glyph_row row col c else put_cell (row * TTY_COLS s + col) (vga_entry c (TTY_fg s) (TTY_bg s)))
  (λ _ s', can_draw s' ∧ same_screen s s' ∧ TTY_row s' = TTY_row s ∧ TTY_col s' = TTY_col s ∧
    scrollback s' = scrollback s ∧ scrollback_total s' = scrollback_total s ∧
    ∀ r k, 0 <= r < TTY_ROWS s → 0 <= k < TTY_COLS s →
      cell_view s' r k = if decide (r = row ∧ k = col) then char_view s c else cell_view s r k) s.
Proof.
  intros Hd Hrow Hcol. pose proof Hd as [Hs Hr Hb]. destruct (fb_mode s) eqn:Em.
  - destruct Hb as (Hg & Er & Ec). unfold console_cell, on_con. apply wp_zoom.
    eapply wp_mono; [apply putc_at_wp; [done|lia|lia]|]. cbn beta. intros _ x (Hg' & (E1 & E2 & E3 & E4 & E5 & E6) & H).
    split; [split; cbn; [done|done|]; rewrite Em, E3, E4; done|]. split; [split; cbn; try done; intros; by rewrite E6|].
    do 4 (split; [done|]). intros r k Hr' Hk'. unfold cell_view, char_view. cbn. rewrite Em. apply H; lia.
  - eapply wp_mono; [apply put_cell_wp; [nia|apply vga_entry_u16]|]. cbn beta. intros _ s' H.
    destruct (drawn_can _ _ _ Em Hd H) as [Hd' Hsm]. split; [done|]. split; [done|].
    pose proof (dr_rest _ _ _ H) as E. do 4 (split; [by rewrite E|]). intros r k Hr' Hk'. unfold cell_view, char_view.
    rewrite (proj1 (sm_mode _ _ Hsm)), (proj2 (sm_size _ _ Hsm)), Em. rewrite (dr_cell _ _ _ H) by nia. cbn.
    destruct (decide (r = row ∧ k = col)) as [[-> ->]|Hne]; [by rewrite decide_True|]. rewrite decide_False; [done|].
    intros Ei. apply Hne. by eapply index_inj.
Qed.

(** A row as words, for the ring. *)
Definition row_words s (row : Z) : list Z := (λ col, cell_at (row * TTY_COLS s + col) s) <$> seqZ 0 TTY_SCROLLBACK_COLS.
(** Whether lines that scroll off go to the ring. *)
Definition keeps_lines s : bool := negb (fb_mode s) && (TTY_COLS s =? TTY_SCROLLBACK_COLS).
Definition ring_after s : list (list Z) * Z :=
  if keeps_lines s then
    (<[Z.to_nat (scrollback_total s mod TTY_SCROLLBACK_LINES) := row_words s 0]> (scrollback s), u32 (scrollback_total s + 1))
  else (scrollback s, scrollback_total s).

Lemma row_up_wp s (Q : unit → tty → Prop) : Q tt (set_pos (if 0 <? TTY_row s then TTY_row s - 1 else TTY_row s) (TTY_col s) s) → wp row_up Q s.
Proof. intros H. by apply wp_modify. Qed.

Lemma scroll_screen_wp s : can_draw s →
  wp TTY_scroll (λ _ s', can_draw s' ∧ same_screen s s' ∧
    TTY_row s' = (if 0 <? TTY_row s then TTY_row s - 1 else TTY_row s) ∧ TTY_col s' = TTY_col s ∧
    (scrollback s', scrollback_total s') = ring_after s ∧
    ∀ r k, 0 <= r < TTY_ROWS s → 0 <= k < TTY_COLS s →
      cell_view s' r k = if r + 1 <? TTY_ROWS s then cell_view s (r + 1) k else blank_view s) s.
Proof.
  intros Hd. pose proof Hd as [Hs Hr Hb]. unfold TTY_scroll, ring_after, keeps_lines. wp_step. wp_step. destruct (fb_mode s) eqn:Em; cbn [negb andb].
  - destruct Hb as (Hg & Er & Ec). wp_step. unfold on_con. apply wp_zoom.
    eapply wp_mono; [by apply console_scroll_wp|]. cbn beta. intros _ x (Hg' & (E1 & E2 & E3 & E4 & E5 & E6) & H). apply row_up_wp. cbn.
    split; [split; cbn; [done|done|]; rewrite Em, E3, E4; done|]. split; [split; cbn; try done; intros; by rewrite E6|].
    do 3 (split; [done|]). intros r k Hr' Hk'. unfold cell_view, blank_view. cbn. rewrite Em. rewrite <- Er. apply H; lia.
  - destruct Hb as [Hb Hw]. rewrite (proj2 (Z.eqb_neq _ 0)) by lia. wp_step.
    assert (Hsave : wp save_top_line (λ _ s1, undrawn s s1 ∧ TTY_row s1 = TTY_row s ∧ TTY_col s1 = TTY_col s ∧ scrollback_offset s1 = scrollback_offset s ∧
      serial_out s1 = serial_out s ∧ length (scrollback s1) = length (scrollback s) ∧ (scrollback s1, scrollback_total s1) =
        if TTY_COLS s =? TTY_SCROLLBACK_COLS then
          (<[Z.to_nat (scrollback_total s mod TTY_SCROLLBACK_LINES) := row_words s 0]> (scrollback s), u32 (scrollback_total s + 1))
        else (scrollback s, scrollback_total s)) s).
    { unfold save_top_line. wp_step. wp_step. destruct (TTY_COLS s =? TTY_SCROLLBACK_COLS); [|by wp_step]. apply wp_modify.
      repeat (split; [done|]). split; [cbn; by rewrite length_insert|]. cbn. do 2 f_equal. }
    eapply wp_mono; [exact Hsave|]. cbn beta. clear Hsave. intros _ s1 (Hu & Er1 & Ec1 & Eo1 & Es1 & El1 & Ering).
    pose proof Hu as (A & B & C & D & E & F & G). assert (Hd1 : can_draw s1) by by eapply undrawn_can.
    assert (Hw1 : words_ok s1) by (unfold words_ok; by rewrite G).
    rewrite <- C, <- D, <- E, <- F. wp_step. eapply wp_mono; [apply move_rows_wp; [rewrite C; lia|rewrite D; lia|done]|].
    cbn beta. intros _ s2 H2. destruct (drawn_same _ _ _ H2) as (A2 & B2 & C2 & D2 & E2 & F2). cbv zeta. wp_step.
    eapply wp_mono; [apply (fill_cells_wp s2); [rewrite D; lia|rewrite C, D; nia|rewrite C2, D2; rewrite C, D; lia|apply vga_entry_u16]|].
    cbn beta. intros _ s3 H3. pose proof (drawn_trans _ _ _ _ _ H2 H3) as H13. apply row_up_wp.
    destruct (drawn_can s1 s3 _ ltac:(congruence) Hd1 H13) as [Hd3 Hsm3]. pose proof (dr_rest _ _ _ H13) as Er3.
    assert (Hsm : same_screen s s3).
    { destruct Hsm3 as [[? ?] [? ?] [? ?] [? ?] ? ? Ho]. split; try (split; congruence); try congruence. intros a Ha. rewrite Ho by (by rewrite A, B, C, D). by rewrite G. }
    assert (Hu3 : undrawn s3 (set_pos (if 0 <? TTY_row s3 then TTY_row s3 - 1 else TTY_row s3) (TTY_col s3) s3)) by done.
    split; [exact (undrawn_can _ _ Hu3 eq_refl Hd3)|]. split; [by destruct Hsm|]. cbn. split; [by rewrite Er3; cbn; rewrite Er1|]. split; [by rewrite Er3|].
    split; [rewrite Er3; cbn; rewrite D; exact Ering|]. intros r k Hr' Hk'. rewrite (proj1 (undrawn_views _ _ Hu3)). unfold cell_view, blank_view.
    rewrite (proj1 (sm_mode _ _ Hsm)), (proj2 (sm_size _ _ Hsm)), Em. rewrite (dr_cell _ _ _ H13) by (rewrite C, D; nia). rewrite C, D.
    destruct (Z.ltb_spec (r + 1) (TTY_ROWS s)).
    + rewrite decide_False by nia. rewrite (dr_cell _ _ _ H2) by (rewrite C, D; nia). rewrite C, D. rewrite decide_True by nia.
      unfold cell_at. rewrite B, G. do 5 f_equal. lia.
    + rewrite decide_True by nia. by rewrite E, F.
Qed.

(** ** The layout of a text *)

(** The complete rows and the last one; a row is broken at [cols] characters. *)
Definition text := (list cstring * cstring)%type.
Definition place_char (cols : Z) (t : text) (c : Z) : text :=
  let '(rows, cur) := t in
  if cols <=? Z.of_nat (length cur) + 1 then (rows ++ [cur ++ [c]], []) else (rows, cur ++ [c]).
Definition new_row (t : text) : text := (t.1 ++ [t.2], []).
Definition layout_char (cols : Z) (t : text) (c : Z) : text :=
  if c =? 10 then new_row t else
  if c =? 9 then foldl (λ t _, place_char cols t 32) t (seqZ 0 (4 - Z.of_nat (length t.2) mod 4)) else
  if c <? 32 then t else place_char cols t c.
Definition layout (cols : Z) (str : cstring) : text := foldl (layout_char cols) ([], []) str.
Definition lines (t : text) : list cstring := t.1 ++ [t.2].
(** Characters that only go forward. *)
Definition forward (c : Z) : Prop := 0 < c < 256 ∧ c ≠ 8 ∧ c ≠ 13.

(** The first row that is still on the screen. *)
Definition first_shown s (t : text) : Z := Z.max 0 (Z.of_nat (length t.1) + 1 - TTY_ROWS s).
Definition text_view s (row : option cstring) (col : Z) : look :=
  match row ≫= λ r, r !! Z.to_nat col with Some c => char_view s c | None => blank_view s end.
Definition text_words s (row : option cstring) : list Z :=
  (λ col, match row ≫= λ r, r !! Z.to_nat col with Some c => vga_entry c (TTY_fg s) (TTY_bg s) | None => vga_entry 32 (TTY_fg s) (TTY_bg s) end)
    <$> seqZ 0 TTY_SCROLLBACK_COLS.

(** The terminal shows the end of the text, and the ring holds the rows that
    scrolled off; the cursor's row is the last. *)
Record showing (t : text) s : Prop := {
  sh_can : can_draw s;
  sh_offset : scrollback_offset s = 0;
  sh_row : TTY_row s = Z.of_nat (length t.1) - first_shown s t;
  sh_cells r k : 0 <= r < TTY_ROWS s → 0 <= k < TTY_COLS s →
    cell_view s r k = text_view s (lines t !! Z.to_nat (first_shown s t + r)) k;
  sh_ring : keeps_lines s = true → scrollback_total s = u32 (first_shown s t) ∧
    ∀ j, 0 <= j < first_shown s t → first_shown s t - TTY_SCROLLBACK_LINES <= j →
      scrollback s !! Z.to_nat (j mod TTY_SCROLLBACK_LINES) = Some (text_words s (lines t !! Z.to_nat j))
}.
(** And the cursor is behind its last character. *)
Definition shows (t : text) s : Prop := showing t s ∧ TTY_col s = Z.of_nat (length t.2) ∧ Z.of_nat (length t.2) < TTY_COLS s.

Lemma text_view_same s s' row col : same_screen s s' → text_view s' row col = text_view s row col.
Proof. intros H. destruct (same_views _ _ H) as [Hc Hb]. unfold text_view. destruct (row ≫= _); auto. Qed.
Lemma text_words_same s s' row : same_screen s s' → text_words s' row = text_words s row.
Proof. intros [_ _ [E1 E2] _ _ _ _]. unfold text_words. by rewrite E1, E2. Qed.
Lemma keeps_same s s' : same_screen s s' → keeps_lines s' = keeps_lines s.
Proof. intros [[E1 _] [_ E2] _ _ _ _ _]. unfold keeps_lines. by rewrite E1, E2. Qed.
Lemma first_same s s' t : same_screen s s' → first_shown s' t = first_shown s t.
Proof. intros [_ [E _] _ _ _ _ _]. unfold first_shown. by rewrite E. Qed.

(** The top row of the screen, as words. *)
Lemma top_row_words t s : showing t s → keeps_lines s = true → row_words s 0 = text_words s (lines t !! Z.to_nat (first_shown s t)).
Proof.
  intros [[Hs _ _] _ _ Hc _] Hk. unfold keeps_lines in Hk. apply andb_true_iff in Hk as [Em Ec]. apply negb_true_iff in Em. apply Z.eqb_eq in Ec.
  unfold row_words, text_words. apply list_fmap_ext. intros i k Hi%lookup_seqZ. destruct Hi as [-> Hi]. rewrite !Z.add_0_l.
  specialize (Hc 0 (Z.of_nat i) ltac:(lia) ltac:(lia)). rewrite Z.add_0_r in Hc. unfold cell_view, text_view, char_view, blank_view in Hc.
  rewrite Em in Hc. change (0 * TTY_COLS s + Z.of_nat i) with (Z.of_nat i) in Hc. destruct (_ ≫= _); by injection Hc.
Qed.

Lemma lines_new t j : j ≠ length (lines t) → lines (new_row t) !! j = lines t !! j.
Proof.
  intros Hj. unfold lines, new_row in *. cbn. rewrite length_app in Hj. cbn in Hj. destruct (decide (j < length (t.1 ++ [t.2]))%nat) as [Hl|Hl].
  - by rewrite lookup_app_l.
  - rewrite length_app in Hl. cbn in Hl. rewrite !lookup_ge_None_2; [done| |]; rewrite ?length_app; cbn; lia.
Qed.
Lemma lines_last t : lines (new_row t) !! length (lines t) = Some [].
Proof. unfold lines, new_row. cbn. by rewrite lookup_app_r, Nat.sub_diag by lia. Qed.
Lemma view_empty s col : text_view s (Some []) col = blank_view s.
Proof. unfold text_view. cbn. by rewrite lookup_nil. Qed.
Lemma view_none s col : text_view s None col = blank_view s.
Proof. done. Qed.

Lemma new_row_view s t j col : text_view s (lines (new_row t) !! j) col = text_view s (lines t !! j) col.
Proof.
  destruct (decide (j = length (lines t))) as [->|Hne]; [|by rewrite lines_new].
  rewrite lines_last, view_empty. by rewrite lookup_ge_None_2 by lia.
Qed.
Lemma new_row_words s t j : text_words s (lines (new_row t) !! j) = text_words s (lines t !! j).
Proof.
  destruct (decide (j = length (lines t))) as [->|Hne]; [|by rewrite lines_new].
  rewrite lines_last. by rewrite (lookup_ge_None_2 (lines t)) by lia.
Qed.

Lemma next_line_wp t s0 s : showing t s → same_screen s0 s →
  wp next_line (λ _ s', shows (new_row t) s' ∧ same_screen s0 s') s.
Proof.
  intros Hsh Hsm0. pose proof Hsh as [Hd Ho Hr Hc Hring]. pose proof Hd as [(HR & HC & HRC) Hl Hb]. unfold next_line. wp_step. apply wp_modify.
  assert (Hn : Z.of_nat (length (new_row t).1) = Z.of_nat (length t.1) + 1) by (cbn; rewrite length_app; cbn; lia).
  assert (Hrow : 0 <= TTY_row s < TTY_ROWS s) by (rewrite Hr; unfold first_shown; lia).
  set (s1 := set_pos (u32 (TTY_row s + 1)) 0 s). assert (Hu : undrawn s s1) by done.
  destruct (undrawn_views _ _ Hu) as (V1 & V2 & V3). assert (Hd1 : can_draw s1) by by eapply undrawn_can.
  assert (Hsm1 : same_screen s s1) by by destruct Hsm0.
  wp_step. wp_step. cbn [TTY_row set_pos s1 TTY_ROWS]. rewrite u32_small by lia.
  destruct (Z.leb_spec (TTY_ROWS s) (TTY_row s + 1)) as [Hscroll|Hstay].
  - eapply wp_mono; [by apply scroll_screen_wp|]. cbn beta. intros _ s2 (Hd2 & Hsm & Hr2 & Hc2 & Hring2 & Hv2).
    assert (Hf : first_shown s (new_row t) = first_shown s t + 1) by (unfold first_shown in *; lia).
    pose proof (same_screen_trans _ _ _ Hsm1 Hsm) as Hsm2. split; [|by eapply same_screen_trans].
    split; [|by split; [rewrite Hc2|cbn; destruct Hsm2 as [_ [_ ->] _ _ _ _ _]; lia]].
    assert (E0 : TTY_ROWS s1 = TTY_ROWS s ∧ TTY_COLS s1 = TTY_COLS s) by done. destruct E0 as [ER EC].
    split; [done|by rewrite (sm_offset _ _ Hsm2)| | |].
    + rewrite Hr2. cbn [TTY_row set_pos s1]. rewrite u32_small by lia. rewrite (proj2 (Z.ltb_lt _ _)) by lia.
      rewrite (first_same _ _ _ Hsm2), Hf. lia.
    + pose proof (sm_size _ _ Hsm2) as [ER2 EC2]. rewrite ER2, EC2. intros r k Hr' Hk'.
      rewrite Hv2 by by rewrite ?ER, ?EC. rewrite (text_view_same s s2) by by eapply same_screen_trans. rewrite new_row_view.
      rewrite (first_same s s2) by by eapply same_screen_trans. rewrite Hf, ER.
      destruct (Z.ltb_spec (r + 1) (TTY_ROWS s)) as [Hlt|Hge].
      * rewrite V1, Hc by lia. do 3 f_equal. lia.
      * rewrite V3, lookup_ge_None_2; [done|]. unfold lines. rewrite length_app. cbn. unfold first_shown in *. lia.
    + rewrite (keeps_same _ _ Hsm2). intros Hk. destruct (Hring Hk) as [Ht Hrows]. rewrite (first_same _ _ _ Hsm2), Hf.
      unfold ring_after in Hring2. rewrite (keeps_same _ _ Hsm1), Hk in Hring2. injection Hring2 as Er Et.
      assert (Ew : row_words s1 0 = row_words s 0) by done. change (scrollback_total s1) with (scrollback_total s) in *.
      change (scrollback s1) with (scrollback s) in *.
      assert (Emod : scrollback_total s mod TTY_SCROLLBACK_LINES = first_shown s t mod TTY_SCROLLBACK_LINES).
      { rewrite Ht. unfold u32, TTY_SCROLLBACK_LINES. change (2 ^ 32) with (256 * 2 ^ 24). rewrite Z.rem_mul_r by lia.
        rewrite Z.mul_comm, Z.mod_add by lia. by rewrite Z.mod_mod by lia. }
      split; [rewrite Et, Ht; unfold u32; by rewrite Zplus_mod_idemp_l|].
      intros j Hj Hj'. rewrite Er, Ew, Emod. rewrite (text_words_same _ _ _ Hsm2), new_row_words.
      unfold TTY_SCROLLBACK_LINES in *. destruct (decide (j = first_shown s t)) as [->|Hne].
      * rewrite list_lookup_insert_eq by lia. by rewrite (top_row_words t s).
      * rewrite list_lookup_insert_ne by lia. apply Hrows; lia.
  - wp_step. assert (Hf : first_shown s (new_row t) = first_shown s t) by (unfold first_shown in *; lia).
    split; [|by eapply same_screen_trans]. split; [|cbn; lia]. split; [done|done| | |].
    + rewrite (first_same s s1), Hf by done. cbn [TTY_row set_pos s1]. rewrite u32_small by lia. lia.
    + intros r k Hr' Hk'. rewrite V1, (text_view_same s s1) by done. rewrite (first_same s s1), Hf, new_row_view by done. by apply Hc.
    + intros Hk. destruct (Hring Hk) as [Ht Hrows]. rewrite (first_same s s1), Hf by done. split; [done|]. intros j Hj Hj'.
      rewrite (text_words_same s s1), new_row_words by done. by apply Hrows.
Qed.

Lemma leave_scrollback_wp s (Q : unit → tty → Prop) : scrollback_offset s = 0 → Q tt s → wp leave_scrollback Q s.
Proof. intros E H. unfold leave_scrollback. wp_step. wp_step. rewrite E. change (negb (0 =? 0)) with false. cbn iota. by wp_step. Qed.

(** A line that is one character longer. *)
Lemma lines_snoc rows cur c j : j ≠ length rows → lines (rows, cur ++ [c]) !! j = lines (rows, cur) !! j.
Proof.
  intros Hj. unfold lines. cbn. destruct (decide (j < length rows)%nat); [by rewrite !lookup_app_l|].
  rewrite !lookup_ge_None_2; [done| |]; rewrite length_app; cbn; lia.
Qed.
Lemma lines_cur rows cur : lines (rows, cur) !! length rows = Some cur.
Proof. unfold lines. cbn. by rewrite lookup_app_r, Nat.sub_diag by lia. Qed.

Lemma print_char_wp rows cur c s0 s : shows (rows, cur) s → same_screen s0 s →
  wp (print_char glyph_row c) (λ _ s', shows (place_char (TTY_COLS s0) (rows, cur) c) s' ∧ same_screen s0 s') s.
Proof.
  intros (Hsh & Hcol & Hlt) Hsm0. pose proof Hsh as [Hd Ho Hr Hc Hring]. pose proof Hd as [(HR & HC & HRC) Hl Hb]. cbn [fst snd] in *.
  pose proof (sm_size _ _ Hsm0) as [_ EC0].
  assert (Hrow : 0 <= TTY_row s < TTY_ROWS s) by (rewrite Hr; unfold first_shown in *; cbn [fst] in *; lia).
  unfold print_char. wp_step. wp_step. assert (Eb : negb (fb_mode s) && (TTY_base s =? 0) = false).
  { destruct (fb_mode s); [done|]. cbn. apply Z.eqb_neq. lia. }
  rewrite Eb. wp_step. eapply wp_mono; [apply draw_char_wp; [done|done|lia]|]. cbn beta.
  intros _ s1 (Hd1 & Hsm1 & Er1 & Ec1 & Es1 & Et1 & Hv1). pose proof (sm_size _ _ Hsm1) as [ER EC]. wp_step. apply wp_modify.
  set (s2 := set_pos (TTY_row s1) (u32 (TTY_col s1 + 1)) s1). assert (Hu : undrawn s1 s2) by done.
  destruct (undrawn_views _ _ Hu) as (V1 & V2 & V3). assert (Hd2 : can_draw s2) by by eapply undrawn_can.
  assert (Hsm2 : same_screen s s2) by by destruct Hsm1.
  assert (Hcol2 : TTY_col s2 = Z.of_nat (length cur) + 1) by (cbn; rewrite Ec1, Hcol, u32_small by lia; lia).
  assert (Hshow : showing (rows, cur ++ [c]) s2).
  { assert (Ef : first_shown s2 (rows, cur ++ [c]) = first_shown s (rows, cur)) by (by rewrite (first_same s s2)).
    split; [done|by rewrite (sm_offset _ _ Hsm2)| | |].
    - rewrite Ef. cbn [TTY_row set_pos s2 fst]. by rewrite Er1, Hr.
    - rewrite Ef. intros r k Hr' Hk'. cbn [TTY_ROWS TTY_COLS set_pos s2] in Hr', Hk'. rewrite ER in Hr'. rewrite EC in Hk'.
      rewrite V1, Hv1, (text_view_same s s2) by done. rewrite Hr, Hcol.
      destruct (decide (Z.to_nat (first_shown s (rows, cur) + r) = length rows)) as [E|N].
      + rewrite E, lines_cur. unfold text_view. cbn.
        destruct (decide (r = Z.of_nat (length rows) - first_shown s (rows, cur) ∧ k = Z.of_nat (length cur))) as [[_ ->]|Hne].
        * by rewrite lookup_app_r, Nat2Z.id, Nat.sub_diag by lia.
        * rewrite Hc by done. rewrite E, lines_cur. unfold text_view. cbn.
          assert (k ≠ Z.of_nat (length cur)) by (unfold first_shown in *; cbn [fst] in *; lia).
          destruct (decide (k < Z.of_nat (length cur))); [by rewrite lookup_app_l by lia|].
          rewrite !lookup_ge_None_2; [done| |]; rewrite ?length_app; cbn; lia.
      + rewrite lines_snoc by done. rewrite decide_False by (unfold first_shown in *; cbn [fst] in *; lia). by apply Hc.
    - rewrite (keeps_same _ _ Hsm2), Ef. intros Hk. destruct (Hring Hk) as [Ht Hrows]. cbn [scrollback_total scrollback set_pos s2].
      rewrite Es1, Et1. split; [done|]. intros j Hj Hj'. rewrite (Hrows j Hj Hj'). f_equal.
      rewrite (text_words_same s s2) by done. rewrite lines_snoc; [done|]. unfold first_shown in *. cbn [fst] in *. lia. }
  wp_step. wp_step. fold s2. rewrite Hcol2. change (TTY_COLS s2) with (TTY_COLS s1). rewrite EC. unfold place_char. rewrite <- EC0.
  destruct (Z.leb_spec (TTY_COLS s) (Z.of_nat (length cur) + 1)) as [Hwrap|Hstay].
  - apply (next_line_wp (rows, cur ++ [c]) s0 s2); [done|by eapply same_screen_trans].
  - wp_step. split; [|by eapply same_screen_trans]. split; [done|]. cbn [snd]. rewrite length_app. cbn [length].
    change (TTY_COLS s2) with (TTY_COLS s1). rewrite EC, Hcol2. lia.
Qed.

Lemma put_char_wp t c s0 s : shows t s → same_screen s0 s → forward c → c ≠ 9 →
  wp (put_char glyph_row c) (λ _ s', shows (layout_char (TTY_COLS s0) t c) s' ∧ same_screen s0 s') s.
Proof.
  intros Hsh Hsm (Hc & H8 & H13) H9. unfold put_char, layout_char. wp_step. apply leave_scrollback_wp; [apply Hsh|].
  rewrite (proj2 (Z.eqb_neq c 13)), (proj2 (Z.eqb_neq c 8)), (proj2 (Z.eqb_neq c 9)) by done.
  destruct (Z.eqb_spec c 10); [apply next_line_wp; [apply Hsh|done]|]. rewrite u8_small by (unfold is_u8; lia).
  destruct (Z.ltb_spec c 32); [by wp_step|]. destruct t. by apply print_char_wp.
Qed.

Lemma putc_wp t c s0 s : shows t s → same_screen s0 s → forward c →
  wp (TTY_putc glyph_row c) (λ _ s', shows (layout_char (TTY_COLS s0) t c) s' ∧ same_screen s0 s') s.
Proof.
  intros Hsh Hsm Hc. unfold TTY_putc. destruct (Z.eqb_spec c 9) as [->|H9]; [|by apply put_char_wp].
  wp_step. apply leave_scrollback_wp; [apply Hsh|]. wp_step. wp_step. destruct Hsh as (Hsh & Hcol & Hlt). rewrite Hcol.
  change (layout_char (TTY_COLS s0) t 9) with
    (foldl (λ t _, place_char (TTY_COLS s0) t 32) t (seqZ 0 (4 - Z.of_nat (length t.2) mod 4))).
  generalize (seqZ 0 (4 - Z.of_nat (length t.2) mod 4)) as l. intros l. pose proof (conj Hsh (conj Hcol Hlt)) as Ht. clear Hsh Hcol Hlt.
  revert t s Ht Hsm. induction l as [|i l IH]; intros t s Ht Hsm; cbn [each foldl]; [by wp_step|].
  wp_step. eapply wp_mono; [by apply put_char_wp|]. cbn beta. intros _ s' [Ht' Hsm']. by apply IH.
Qed.

Lemma each_putc_wp str : ∀ t s0 s, shows t s → same_screen s0 s → Forall forward str →
  wp (each str (TTY_putc glyph_row)) (λ _ s', shows (foldl (layout_char (TTY_COLS s0)) t str) s' ∧ same_screen s0 s') s.
Proof.
  induction str as [|c str IH]; intros t s0 s Hsh Hsm Hf; cbn [each foldl]; [by wp_step|].
  apply Forall_cons in Hf as [Hc Hf]. wp_step. eapply wp_mono; [by apply putc_wp|]. cbn beta. intros _ s' [Hsh' Hsm']. by apply IH.
Qed.

Lemma serial_write_wp str : ∀ s (Q : unit → tty → Prop),
  Q tt (set_serial (serial_out s ++ (u8 <$> str)) s) → wp (each str serial_write_char) Q s.
Proof.
  induction str as [|c str IH]; intros s Q HQ; cbn [each].
  - wp_step. cbn in HQ. rewrite app_nil_r in HQ. by destruct s.
  - wp_step. apply wp_modify. apply IH. cbn. by rewrite <- app_assoc.
Qed.

(** The escape sequence that clears the screen of a serial terminal. *)
Definition clear_sequence : cstring := [27; 91; 50; 74; 27; 91; 72].
(** The state in which [TTY_clear] draws. *)
Definition clearing s : tty := set_scrollback (scrollback s) 0 0 (set_serial (serial_out s ++ clear_sequence) s).

Lemma shows_nothing s1 s2 :
  can_draw s2 → same_screen s1 s2 → scrollback_offset s1 = 0 → TTY_row s2 = 0 → TTY_col s2 = 0 → scrollback_total s2 = 0 →
  (∀ r k, 0 <= r < TTY_ROWS s1 → 0 <= k < TTY_COLS s1 → cell_view s2 r k = blank_view s1) → shows ([], []) s2.
Proof.
  intros Hd Hsm Ho Hr Hc Ht Hv. pose proof Hd as [(HR & HC & _) _ _]. pose proof (sm_size _ _ Hsm) as [ER EC].
  assert (Hf : first_shown s2 ([], []) = 0) by (unfold first_shown; cbn; lia).
  split; [|cbn; lia]. split; [done|by rewrite (sm_offset _ _ Hsm)|by rewrite Hf| |].
  - intros r k Hr' Hk'. rewrite Hf, Z.add_0_l, Hv by by rewrite <- ?ER, <- ?EC. rewrite (text_view_same _ _ _ _ Hsm).
    destruct (Z.to_nat r) as [|j]; cbn; [by rewrite view_empty|done].
  - rewrite Hf. intros _. split; [done|]. intros j Hj. lia.
Qed.

Lemma clear_wp s : can_draw s → wp TTY_clear (λ _ s', shows ([], []) s' ∧ same_screen (clearing s) s') s.
Proof.
  intros Hd. pose proof Hd as [(HR & HC & HRC) Hl Hb]. unfold TTY_clear. wp_step. apply serial_write_wp. wp_step. apply wp_modify.
  change (set_scrollback _ 0 0 _) with (clearing s). assert (Hd1 : can_draw (clearing s)) by by eapply undrawn_can.
  wp_step. wp_step. cbn [fb_mode TTY_base TTY_ROWS TTY_COLS TTY_fg TTY_bg clearing set_scrollback set_serial].
  destruct (fb_mode s) eqn:Em.
  - destruct Hb as (Hg & Er & Ec). wp_step. unfold on_con. apply wp_zoom.
    eapply wp_mono; [by apply console_clear_wp|]. cbn beta. intros _ x (Hg' & (E1 & E2 & E3 & E4 & E5 & E6) & H). apply wp_modify.
    set (s2 := set_pos 0 0 (set_con x (clearing s))). cbn in E1, E2, E3, E4, E5, E6.
    assert (Hsm : same_screen (clearing s) s2) by (split; cbn; try done; intros; by rewrite E6). split; [|done].
    apply (shows_nothing (clearing s)); try done.
    + split; cbn; [done|done|]. rewrite Em, E3, E4. done.
    + intros r k Hr' Hk'. cbn in Hr', Hk'. unfold cell_view, blank_view. cbn. rewrite Em. apply H; cbn; lia.
  - destruct Hb as [Hb Hw]. rewrite (proj2 (Z.eqb_neq _ 0)) by lia. rewrite u32_small by nia. wp_step.
    eapply wp_mono; [apply (fill_cells_wp (clearing s) 0 (TTY_ROWS s * TTY_COLS s)); [nia|done|cbn; lia|apply vga_entry_u16]|].
    cbn beta. intros _ s2 H2. destruct (drawn_can (clearing s) s2 _ Em Hd1 H2) as [Hd2 Hsm2]. apply wp_modify.
    set (s3 := set_pos 0 0 s2). assert (Hu : undrawn s2 s3) by done. pose proof (dr_rest _ _ _ H2) as Er.
    assert (Hsm : same_screen (clearing s) s3) by by destruct Hsm2. split; [|done].
    apply (shows_nothing (clearing s)); try done.
    + by eapply undrawn_can.
    + cbn. by rewrite Er.
    + intros r k Hr' Hk'. cbn in Hr', Hk'. rewrite (proj1 (undrawn_views _ _ Hu)). unfold cell_view, blank_view.
      rewrite (proj1 (sm_mode _ _ Hsm2)), (proj2 (sm_size _ _ Hsm2)). cbn. rewrite Em.
      rewrite (dr_cell _ _ _ H2) by (cbn; nia). cbn. by rewrite decide_True by nia.
Qed.

(** The serial line is not the screen. *)
Lemma shows_serial t s l : shows t s → shows t (set_serial l s).
Proof.
  intros [[Hd1 Ho Hr Hc Hring] Hcol]. assert (Hu : undrawn s (set_serial l s)) by done. split; [|exact Hcol].
  split; [by eapply undrawn_can|done|done| |done].
  intros r k Hr' Hk'. rewrite (proj1 (undrawn_views _ _ Hu)). destruct (undrawn_views _ _ Hu) as (_ & V2 & V3).
  rewrite (Hc r k Hr' Hk'). unfold text_view. destruct (_ ≫= _); by rewrite ?V2, ?V3.
Qed.

(** The state before, with what goes to the serial line. *)
Definition printed s (str : cstring) : tty := set_scrollback (scrollback s) 0 0 (set_serial (serial_out s ++ clear_sequence ++ str) s).

End show.

(** ** Start-up *)

Lemma console_init_vga_wp x : (∀ a, is_u16 (words x a)) →
  wp console_init_vga (λ _ x', (∀ a, is_u16 (words x' a)) ∧ rows x' = 25 ∧ cols x' = 80 ∧ backend x' = CONSOLE_VGA) x.
Proof.
  intros Hw. unfold console_init_vga, vga_text_init, vga_text_clear. do 3 (wp_step; apply wp_modify). wp_step.
  apply (wp_each (λ _ x', (∀ a, is_u16 (words x' a)) ∧ rows x' = 25 ∧ cols x' = 80 ∧ backend x' = CONSOLE_VGA)); [done|done| |].
  - intros i x1 _ (H1 & H2). unfold poke16. apply wp_modify. split; [|exact H2]. intros a. cbn. case_match; [apply u16_range|apply H1].
  - intros x1 (H1 & H2). unfold vga_text_set_cursor. apply wp_modify. split; [exact H1|exact H2].
Qed.

Lemma grid_bounds width height pitch b : 8 <= width < 2 ^ 32 → 16 <= height < 2 ^ 32 → 2 <= b → width * b <= pitch → pitch * height < 2 ^ 32 →
  0 < height / 16 < 2 ^ 31 ∧ 0 < width / 8 < 2 ^ 31 ∧ height / 16 * (width / 8) < 2 ^ 32.
Proof.
  intros Hw Hh Hb Hp Hs. split; [clear -Hh; lia|]. split; [clear -Hw; lia|].
  assert (height / 16 * (width / 8) <= height * width) by (apply Z.mul_le_mono_nonneg; lia).
  assert (height * width <= pitch * height); nia.
Qed.

(** After start-up the terminal can draw and shows nothing: in the text mode,
    and on a frame buffer whose geometry passes the checks, which are exactly
    that the lines fit the pitch, that there is room for one character, and that
    the buffer ends in the address space. *)
Theorem tty_boots glyph_row s address width height pitch bpp :
  fb_mode s = false → 0 < TTY_base s → words_ok s → length (scrollback s) = Z.to_nat TTY_SCROLLBACK_LINES → bytes_ok (con s) →
  is_u32 address → is_u32 width → is_u32 height → is_u32 pitch →
  wp start_text (λ _ s', shows glyph_row ([], []) s' ∧ TTY_ROWS s' = 25 ∧ TTY_COLS s' = 80) s ∧
  wp (start_framebuffer address width height pitch bpp) (λ ok s',
    (ok = true ∧ frame_fits address width height pitch bpp ∧ shows glyph_row ([], []) s' ∧
      TTY_ROWS s' = height / 16 ∧ TTY_COLS s' = width / 8) ∨
    (ok = false ∧ ¬ frame_fits address width height pitch bpp ∧ s' = s)) s.
Proof.
  intros Em Hb Hw Hl Hby Ha Hwd Hh Hp. split.
  - unfold start_text, on_con. wp_step. apply wp_zoom. eapply wp_mono; [apply console_init_vga_wp; exact Hw|]. cbn beta.
    intros _ x (Hx & _). unfold TTY_init. wp_step. wp_step. cbn [fb_mode set_con]. rewrite Em. wp_step. apply wp_modify.
    wp_step. apply wp_modify. wp_step. apply wp_modify. eapply wp_mono; [apply clear_wp|].
    + split; cbn; [lia|done|]. by rewrite Em.
    + cbn beta. intros _ s' [Hs Hsm]. split; [exact Hs|]. by destruct (sm_size _ _ Hsm).
  - unfold start_framebuffer, on_con. wp_step. apply wp_zoom. eapply wp_mono; [by apply init_framebuffer_wp|]. cbn beta.
    intros ok x [(-> & Hfit & Hg & Er & Ec & _)|(-> & Hno & ->)]; cbn [negb].
    2: { wp_step. right. split; [done|]. split; [done|]. by destruct s. }
    wp_step. apply wp_modify. unfold TTY_init. wp_step. wp_step. wp_step. cbn [fb_mode set_backend Z.eqb negb]. unfold console_rows, console_cols.
    unfold on_con. repeat wp_step. apply wp_modify. cbn [con set_con set_backend]. rewrite Er, Ec.
    eapply wp_mono; [apply clear_wp|].
    + unfold frame_fits in Hfit. assert (HB : 2 <= bpp / 8) by (destruct Hfit as (_ & _ & _ & [->|[->| ->]] & _); by_eval). unfold is_u32 in *.
      split; [cbn|exact Hl|cbn; by rewrite Er, Ec].
      destruct Hfit as (_ & H8 & H16 & _ & Hpitch & Hsize & _). apply (grid_bounds width height pitch (bpp / 8)); lia.
    + cbn beta. intros _ s' [Hs Hsm]. destruct (sm_size _ _ Hsm) as [E1 E2]. wp_step. left. split; [done|]. split; [done|].
      split; [exact Hs|]. by split.
Qed.

(** ** Looking back

    [TTY_scrollback] draws the view over the cells it reads. *)

(** The ring as a table of cells. *)
Definition ring_cell s (line col : Z) : Z :=
  default 0 (scrollback s !! Z.to_nat (line mod TTY_SCROLLBACK_LINES) ≫= λ l, l !! Z.to_nat col).
Record ring_ok s : Prop := {
  rk_length : length (scrollback s) = Z.to_nat TTY_SCROLLBACK_LINES;
  rk_lines : Forall (λ l, length l = Z.to_nat TTY_SCROLLBACK_COLS ∧ Forall is_u16 l) (scrollback s)
}.

Lemma ring_cell_some s line col : ring_ok s → 0 <= col < 80 →
  (scrollback s !! Z.to_nat (line mod TTY_SCROLLBACK_LINES) ≫= λ l, l !! Z.to_nat col) = Some (ring_cell s line col) ∧ is_u16 (ring_cell s line col).
Proof.
  intros [Hl Hr] Hc. unfold ring_cell, TTY_SCROLLBACK_LINES in *.
  destruct (lookup_lt_is_Some_2 (scrollback s) (Z.to_nat (line mod 256))) as [l El]; [lia|]. rewrite El. cbn.
  destruct (proj1 (Forall_lookup _ _) Hr _ _ El) as [Hlen Hu]. unfold TTY_SCROLLBACK_COLS in Hlen.
  destruct (lookup_lt_is_Some_2 l (Z.to_nat col)) as [v Ev]; [lia|]. rewrite Ev. cbn. split; [done|]. exact (proj1 (Forall_lookup _ _) Hu _ _ Ev).
Qed.

(** The screen after the offset was set: the rows of the ring from [first] on
    repeat. *)
Lemma draw_view_wp s first n :
  can_draw s → fb_mode s = false → TTY_COLS s = 80 → ring_ok s → 0 < n <= TTY_SCROLLBACK_LINES → first + n = scrollback_total s →
  0 <= first → scrollback_total s + TTY_ROWS s < 2 ^ 32 →
  let oldest := if TTY_SCROLLBACK_LINES <? scrollback_total s then scrollback_total s - TTY_SCROLLBACK_LINES else 0 in
  wp (each (seqZ 0 (TTY_ROWS s)) (λ row, each (seqZ 0 (TTY_COLS s)) (λ col,
    s' ← cget; cell ← cget_opt (view_cell (u32 (first + row)) oldest col s'); put_cell (row * TTY_COLS s + col) cell)))
  (λ _ s', drawn s s' (λ i, ring_cell s (first + i / 80 mod n) (i mod 80))) s.
Proof.
  intros Hd Em EC Hring Hn Hfn Hfirst Htot oldest. pose proof Hd as [(HR & HC & HRC) Hl Hb]. rewrite Em in Hb. destruct Hb as [Hb Hw].
  rewrite !EC. set (G i := ring_cell s (first + i / 80 mod n) (i mod 80)).
  apply (wp_each (λ row s', drawn s s' (λ i, if decide (i < row * 80) then G i else cell_at i s))); [lia| | |].
  - eapply drawn_ext; [apply drawn_none|]. intros i Hi. cbn. by rewrite decide_False by lia.
  - intros row s1 Hrow H1. apply (wp_each (λ col s', drawn s s' (λ i, if decide (i < row * 80 + col) then G i else cell_at i s))); [done|by rewrite Z.add_0_r| |].
    + intros col s2 Hcol H2. pose proof (drawn_same _ _ _ H2) as (_ & _ & Er & Ec & _). pose proof (dr_rest _ _ _ H2) as E2. wp_step. wp_step.
      assert (Hidx : 0 <= row * 80 + col < TTY_ROWS s * TTY_COLS s) by (rewrite EC; lia).
      assert (Hcell : view_cell (u32 (first + row)) oldest col s2 = Some (G (row * 80 + col)) ∧ is_u16 (G (row * 80 + col))).
      { assert (EG : G (row * 80 + col) = ring_cell s (first + row mod n) col).
        { unfold G. rewrite Z.div_add_l by lia. rewrite (Z.div_small col 80) by lia. rewrite Z.add_0_r. f_equal.
          rewrite Z.add_comm, Z.mod_add by lia. apply Z.mod_small. lia. }
        rewrite EG. split; [|apply ring_cell_some; [done|lia]]. unfold view_cell. rewrite u32_small by lia.
        assert (Et : scrollback_total s2 = scrollback_total s ∧ scrollback s2 = scrollback s) by by rewrite E2. destruct Et as [-> ->].
        destruct (Z.ltb_spec (first + row) (scrollback_total s)) as [Hlt|Hge].
        - rewrite (proj2 (Z.leb_le oldest _)) by (unfold oldest; destruct (Z.ltb_spec TTY_SCROLLBACK_LINES (scrollback_total s)); lia). cbn [andb].
          rewrite (Z.mod_small row n) by lia. by apply ring_cell_some.
        - cbn [andb]. rewrite (proj2 (Z.leb_le _ _)), Er, (proj2 (Z.ltb_lt _ _)) by lia. cbn [andb]. f_equal.
          replace ((first + row - scrollback_total s) * TTY_COLS s2 + col) with ((row - n) * 80 + col) by (rewrite Ec, EC; lia).
          rewrite (dr_cell _ _ _ H2) by (rewrite EC in *; lia). rewrite decide_True by lia. unfold G. rewrite Z.div_add_l by lia.
          rewrite (Z.div_small col 80) by lia. rewrite Z.add_0_r. f_equal.
          + f_equal. rewrite <- (Z.mod_add (row - n) 1 n) by lia. f_equal. lia.
          + rewrite Z.add_comm, Z.mod_add by lia. apply Z.mod_small. lia. }
      destruct Hcell as [Hcell Hu]. wp_step. eapply wp_get_opt; [exact Hcell|].
      eapply wp_mono; [apply put_cell_wp; [by rewrite Er, Ec|done]|]. cbn beta. intros _ s3 H3.
      eapply drawn_ext; [by eapply drawn_trans|]. intros i Hi. cbn. case_decide as He; [subst i; by rewrite decide_True by lia|].
      rewrite (dr_cell _ _ _ H2) by done. destruct (decide (i < row * 80 + col)); [by rewrite decide_True by lia|by rewrite decide_False by lia].
    + intros s2 H2. by replace ((row + 1) * 80) with (row * 80 + (0 + 80)) by lia.
  - intros s1 H1. eapply drawn_ext; [exact H1|]. intros i Hi. cbn. rewrite EC in Hi. by rewrite decide_True by lia.
Qed.

Lemma scrollback_wp s lines n :
  can_draw s → fb_mode s = false → TTY_COLS s = 80 → ring_ok s → 0 < scrollback_total s →
  let max_offset := if scrollback_total s <? TTY_SCROLLBACK_LINES then scrollback_total s else TTY_SCROLLBACK_LINES in
  scroll_offset lines max_offset (scrollback_offset s) = n → 0 < n <= max_offset → scrollback_total s + TTY_ROWS s < 2 ^ 32 →
  wp (TTY_scrollback lines) (λ _ s', scrollback_offset s' = n ∧ scrollback_total s' = scrollback_total s ∧
    drawn (set_scrollback (scrollback s) (scrollback_total s) n s) s' (λ i, ring_cell s (scrollback_total s - n + i / 80 mod n) (i mod 80))) s.
Proof.
  intros Hd Em EC Hring Htot max_offset Hoff Hn Hbound. pose proof Hd as [(HR & HC & HRC) Hl Hb]. rewrite Em in Hb. destruct Hb as [Hb Hw].
  unfold TTY_scrollback. wp_step. wp_step. rewrite Em, (proj2 (Z.eqb_neq (TTY_base s) 0)), (proj2 (Z.eqb_neq (scrollback_total s) 0)) by lia.
  rewrite EC. cbn [orb negb Z.eqb TTY_SCROLLBACK_COLS Pos.eqb]. cbv zeta. fold max_offset. rewrite Hoff. wp_step. apply wp_modify.
  assert (Hmax : max_offset <= TTY_SCROLLBACK_LINES ∧ max_offset <= scrollback_total s) by (unfold max_offset; destruct (Z.ltb_spec (scrollback_total s) TTY_SCROLLBACK_LINES); lia).
  rewrite u32_small by lia. set (s1 := set_scrollback _ _ n s). assert (Hd1 : can_draw s1) by (apply (undrawn_can s s1); done).
  assert (EC1 : TTY_COLS s1 = 80) by done. assert (Hring1 : ring_ok s1) by by destruct Hring.
  pose proof (draw_view_wp s1 (scrollback_total s - n) n Hd1 Em EC1 Hring1 ltac:(lia) ltac:(cbn; lia) ltac:(lia) Hbound) as W.
  cbv zeta in W. rewrite EC1 in W. eapply wp_mono; [exact W|].
  cbn beta. intros _ s' H. pose proof (dr_rest _ _ _ H) as E. split; [by rewrite E|]. split; [by rewrite E|exact H].
Qed.

(** With offset 0 the view is the screen itself. *)
Lemma redraw_wp s oldest : can_draw s → fb_mode s = false → 0 <= scrollback_total s → scrollback_total s + TTY_ROWS s < 2 ^ 32 →
  wp (each (seqZ 0 (TTY_ROWS s)) (λ row, each (seqZ 0 (TTY_COLS s)) (λ col,
    s' ← cget; cell ← cget_opt (view_cell (u32 (scrollback_total s + row)) oldest col s'); put_cell (row * TTY_COLS s + col) cell)))
  (λ _ s', drawn s s' (λ i, cell_at i s)) s.
Proof.
  intros Hd Em Htot Hbound. pose proof Hd as [(HR & HC & HRC) Hl Hb]. rewrite Em in Hb. destruct Hb as [Hb Hw].
  apply (wp_each (λ _ s', drawn s s' (λ i, cell_at i s))); [lia|apply drawn_none| |done].
  intros row s1 Hrow H1. apply (wp_each (λ _ s', drawn s s' (λ i, cell_at i s))); [lia|done| |done].
  intros col s2 Hcol H2. pose proof (drawn_same _ _ _ H2) as (_ & _ & Er & Ec & _). pose proof (dr_rest _ _ _ H2) as E2. wp_step. wp_step.
  assert (Hidx : 0 <= row * TTY_COLS s + col < TTY_ROWS s * TTY_COLS s) by nia.
  assert (Hcell : view_cell (u32 (scrollback_total s + row)) oldest col s2 = Some (cell_at (row * TTY_COLS s + col) s)).
  { unfold view_cell. rewrite u32_small by lia. assert (Et : scrollback_total s2 = scrollback_total s) by by rewrite E2. rewrite Et, Er.
    rewrite (proj2 (Z.ltb_ge (scrollback_total s + row) _)) by lia. cbn [andb].
    rewrite (proj2 (Z.leb_le (scrollback_total s) _)), (proj2 (Z.ltb_lt (_ - _) _)) by lia. cbn [andb]. f_equal.
    rewrite Ec, Z.add_simpl_l. by apply H2. }
  wp_step. eapply wp_get_opt; [exact Hcell|]. eapply wp_mono; [apply put_cell_wp; [by rewrite Er, Ec|apply Hw]|]. cbn beta. intros _ s3 H3.
  eapply drawn_ext; [by eapply drawn_trans|]. intros i Hi. cbn. case_decide as He; [by subst|]. by apply H2.
Qed.

(** Looking back by [n] lines and returning loses the text on the screen: each
    row is drawn from cells that the rows above it have replaced, so that the
    last [n] lines of the ring fill the screen again and again, and they stay
    there when the offset is 0 again. *)
Theorem tty_scrollback_lost s n :
  can_draw s → fb_mode s = false → TTY_COLS s = 80 → ring_ok s → scrollback_offset s = 0 →
  0 < n <= TTY_SCROLLBACK_LINES → n <= scrollback_total s → scrollback_total s + TTY_ROWS s < 2 ^ 32 →
  wp (TTY_scrollback (- n);; TTY_scrollback n) (λ _ s', scrollback_offset s' = 0 ∧ ∀ row col, 0 <= row < TTY_ROWS s → 0 <= col < 80 →
    cell_at (row * 80 + col) s' = ring_cell s (scrollback_total s - n + row mod n) col) s.
Proof.
  intros Hd Em EC Hring Ho Hn Hnt Hbound. unfold TTY_SCROLLBACK_LINES in Hn. wp_step.
  assert (Hmax : n <= (if scrollback_total s <? TTY_SCROLLBACK_LINES then scrollback_total s else TTY_SCROLLBACK_LINES)).
  { unfold TTY_SCROLLBACK_LINES. destruct (Z.ltb_spec (scrollback_total s) 256); lia. }
  eapply wp_mono; [apply (scrollback_wp s (- n) n); try done; try lia|].
  { unfold scroll_offset. rewrite Ho, (proj2 (Z.ltb_lt _ _)) by lia. rewrite Z.opp_involutive, u32_small, (proj2 (Z.ltb_ge _ _)) by lia. lia. }
  cbn beta. intros _ s1 (Ho1 & Et1 & H1). set (s0 := set_scrollback _ _ n s) in H1.
  assert (Hd0 : can_draw s0) by (apply (undrawn_can s s0); done). destruct (drawn_can s0 s1 _ Em Hd0 H1) as [Hd1 Hsm1].
  pose proof Hsm1 as [[Em1 Eb1] [ER1 EC1] _ _ _ _ _]. change (fb_mode s0) with (fb_mode s) in Em1. change (TTY_COLS s0) with (TTY_COLS s) in EC1.
  change (TTY_ROWS s0) with (TTY_ROWS s) in ER1. change (TTY_base s0) with (TTY_base s) in Eb1.
  pose proof Hd as [(HR & HC & HRC) Hl Hb]. rewrite Em in Hb. destruct Hb as [Hb Hw].
  unfold TTY_scrollback. wp_step. wp_step. rewrite Em1, Em, Eb1, EC1, EC, Et1. rewrite (proj2 (Z.eqb_neq (TTY_base s) 0)), (proj2 (Z.eqb_neq _ 0)) by lia.
  cbn [orb negb Z.eqb TTY_SCROLLBACK_COLS Pos.eqb]. cbv zeta. rewrite Ho1. unfold scroll_offset. rewrite (proj2 (Z.ltb_ge n 0)), Z.ltb_irrefl, Z.sub_diag by lia.
  rewrite Z.sub_0_r, (u32_small (scrollback_total s)) by lia. wp_step. apply wp_modify. set (s2 := set_scrollback _ _ 0 s1).
  assert (Hd2 : can_draw s2) by (apply (undrawn_can s1 s2); done).
  pose proof (redraw_wp s2 (if TTY_SCROLLBACK_LINES <? scrollback_total s then scrollback_total s - TTY_SCROLLBACK_LINES else 0) Hd2) as W.
  change (fb_mode s2) with (fb_mode s1) in W. change (TTY_COLS s2) with (TTY_COLS s1) in W. change (TTY_ROWS s2) with (TTY_ROWS s1) in W.
  change (scrollback_total s2) with (scrollback_total s1) in W. rewrite Em1, EC1, ER1, Et1, EC in W.
  rewrite ER1. eapply wp_mono; [apply W; [done|lia|lia]|]. cbn beta. intros _ s3 H3. split; [by rewrite (dr_rest _ _ _ H3)|].
  intros row col Hrow Hcol. assert (Hi : 0 <= row * 80 + col < TTY_ROWS s2 * TTY_COLS s2).
  { change (TTY_COLS s2) with (TTY_COLS s1). change (TTY_ROWS s2) with (TTY_ROWS s1). rewrite ER1, EC1, EC. lia. }
  rewrite (dr_cell _ _ _ H3) by done. change (cell_at (row * 80 + col) s2) with (cell_at (row * 80 + col) s1).
  rewrite (dr_cell _ _ _ H1) by (change (TTY_COLS s0) with (TTY_COLS s); change (TTY_ROWS s0) with (TTY_ROWS s); rewrite EC; lia).
  rewrite Z.div_add_l by lia. rewrite (Z.div_small col 80) by lia. rewrite Z.add_0_r. f_equal.
  rewrite Z.add_comm, Z.mod_add by lia. apply Z.mod_small. lia.
Qed.

(** ** The terminal after start-up, in the text mode *)

Definition ex_console : console := mk_console (λ _, 0) (λ _, 0) 0 (mk_fb 0 0 0 0 0) CONSOLE_VGA 0 0 VGA_HEIGHT VGA_WIDTH 7 0.
Definition ex_tty : tty :=
  mk_tty false 0xB8000 3 5 25 80 7 0 (replicate 256 (replicate 80 0)) 0 0 [] ex_console.

Lemma ex_can_draw : can_draw ex_tty.
Proof. split; [by_eval|by_eval|]. split; [done|]. intros a. by_eval. Qed.


(** A frame buffer of 640 by 480 pixels is taken, one with lines that do not
    fit the pitch is not. *)
Lemma tty_boots_witness :
  wp (start_framebuffer 0xE0000000 640 480 2560 32) (λ ok s', ok = true ∧ TTY_ROWS s' = 30 ∧ TTY_COLS s' = 80) ex_tty ∧
  wp (start_framebuffer 0xE0000000 640 480 2559 32) (λ ok s', ok = false ∧ s' = ex_tty) ex_tty.
Proof.
  assert (Hw : words_ok ex_tty) by (intros a; by_eval). assert (Hb : bytes_ok (con ex_tty)) by (intros a; by_eval).
  assert (Hl : length (scrollback ex_tty) = Z.to_nat TTY_SCROLLBACK_LINES) by by vm_compute.
  assert (Hz : 0 < TTY_base ex_tty) by by_eval.
  assert (Hu : is_u32 0xE0000000 ∧ is_u32 640 ∧ is_u32 480 ∧ is_u32 2560 ∧ is_u32 2559) by by_eval. destruct Hu as (H1 & H2 & H3 & H4 & H5).
  destruct (tty_boots (λ _ _, 0) ex_tty 0xE0000000 640 480 2560 32 eq_refl Hz Hw Hl Hb H1 H2 H3 H4) as [_ W1].
  destruct (tty_boots (λ _ _, 0) ex_tty 0xE0000000 640 480 2559 32 eq_refl Hz Hw Hl Hb H1 H2 H3 H5) as [_ W2].
  split; [refine (wp_mono _ _ _ _ W1 _)|refine (wp_mono _ _ _ _ W2 _)].
  - intros ok s' [H|H].
    + destruct H as (Eok & _ & _ & Er & Ec). split; [exact Eok|]. split; [exact Er|exact Ec].
    + exfalso. apply (proj1 (proj2 H)). unfold frame_fits. by_eval.
  - intros ok s' [H|H].
    + exfalso. pose proof (proj1 (proj2 H)) as Hf. revert Hf. unfold frame_fits. by_eval.
    + split; [exact (proj1 H)|exact (proj2 (proj2 H))].
Defined.
End Tty.
