(* ===== verification/Printf.v ===== *)
(** * Formatted output

    [src/kernel/utils/printf.c]: [vsnprintf] into a buffer of fixed size, and the
    functions that print its result on the terminal of [Tty.v]. *)

From S2P Require Import Prelude Console Input Tty.
Import Console Tty.

Module Printf.

(** A variable argument: a string or NULL, or a word. *)
Inductive arg := AStr (s : option cstring) | AWord (w : Z).
(** [*out] as the array with the position of [out] in it, and [remaining]. *)
Record sink := mk_sink { s_buf : list Z; s_pos : nat; s_remaining : Z }.
Implicit Types (s : sink).

(** ** The characters *)

Definition out_char (c : Z) : cmd sink unit := λ s,
  if 1 <? s_remaining s then
    if (s_pos s <? length (s_buf s))%nat then Some (tt, mk_sink (<[s_pos s := c]> (s_buf s)) (s_pos s + 1) (s_remaining s - 1)) else None
  else Some (tt, s).
Definition out_text (cs : list Z) : cmd sink unit := each cs out_char.
Definition out_str (str : option cstring) : cmd sink unit :=
  out_text (match str with None => cstr "(null)" | Some str => str end).

Definition digit (d : Z) : Z := if d <? 10 then 48 + d else 97 + (d - 10).
(** The array [tmp] after the loop: the digits from the lowest on, at most
    [n] of them. *)
Fixpoint digits (n : nat) (v base : Z) : list Z :=
  match n with
  | O => []
  | S n => if v =? 0 then [] else digit (v mod base) :: digits n (v / base) base
  end.
Definition out_uint (v base : Z) : cmd sink unit :=
  if v =? 0 then out_char 48 else out_text (rev (digits 32 v base)).
Definition out_int (v : Z) : cmd sink unit :=
  if v <? 0 then out_char 45;; out_uint (u32 (- v)) 10 else out_uint v 10.

(** ** The format *)

(** One conversion, for the character behind the percent sign: the arguments
    that are left; an argument that is missing or of another kind is undefined. *)
Definition convert (d : Z) (args : list arg) : cmd sink (list arg) :=
  if d =? 115 then match args with AStr str :: args => out_str str;; mret args | _ => cundef end else
  if d =? 99 then match args with AWord w :: args => out_char (u8 w);; mret args | _ => cundef end else
  if d =? 100 then match args with AWord w :: args => out_int (as_int w);; mret args | _ => cundef end else
  if d =? 117 then match args with AWord w :: args => out_uint w 10;; mret args | _ => cundef end else
  if d =? 120 then match args with AWord w :: args => out_uint w 16;; mret args | _ => cundef end else
  if d =? 112 then match args with AWord w :: args => out_str (Some (cstr "0x"));; out_uint w 16;; mret args | _ => cundef end else
  if d =? 37 then out_char 37;; mret args
  else out_char 63;; mret args.
(** The loop over the bytes from [fmt] on; behind them memory is undefined. *)
Fixpoint format (fmt : list Z) (args : list arg) : cmd sink unit :=
  match fmt with
  | [] => cundef
  | c :: fmt =>
      if c =? 0 then mret tt else
      if negb (c =? 37) then out_char c;; format fmt args else
      match fmt with
      | [] => cundef
      | d :: fmt => args ← convert d args; format fmt args
      end
  end.
(** The result and the buffer. *)
Definition vsnprintf (buf : list Z) (size : Z) (fmt : list Z) (args : list arg) : option (Z * list Z) :=
  match format fmt args (mk_sink buf 0 size) with
  | None => None
  | Some (_, s) =>
      let ret := Z.of_nat (s_pos s) in
      if 0 <? size then if (s_pos s <? length (s_buf s))%nat then Some (ret, <[s_pos s := 0]> (s_buf s)) else None
      else Some (ret, s_buf s)
  end.
Definition snprintf (buf : list Z) (size : Z) (fmt : list Z) (args : list arg) : option (Z * list Z) := vsnprintf buf size fmt args.

(** ** On the terminal *)

Section printf.
Context (glyph_row : Z → Z → Z) (stale : list Z).
(** [stale] is what the stack held: the buffer [buf[256]]. *)
Definition vprintf (fmt : list Z) (args : list arg) : cmd tty unit :=
  '(_, buf) ← cget_opt (vsnprintf stale 256 fmt args);
  str ← cget_opt (Input.string_in buf);
  TTY_puts glyph_row (Some str).
Definition printf (fmt : list Z) (args : list arg) : cmd tty unit := vprintf fmt args.
Definition panic (fmt : list Z) (args : list arg) : cmd tty unit := vprintf fmt args.
Definition fmt_str (s : string) : list Z := cstr s ++ [0].

(** The bytes of a line of [hexdump], and its lines from [address] on. *)
Definition hex_bytes (data : list Z) : cmd tty unit := each data (λ b, printf (fmt_str "%x ") [AWord b]).
Fixpoint hex_lines (fuel : nat) (address : Z) (data : list Z) : cmd tty unit :=
  match fuel with
  | O => cundef
  | S fuel =>
      if bool_decide (data = []) then mret tt else
      printf (fmt_str "%p  ") [AWord address];;
      hex_bytes (take 16 data);;
      printf [10; 0] [];;
      hex_lines fuel (u32 (address + 16)) (drop 16 data)
  end.
Definition hexdump (address : Z) (data : list Z) : cmd tty unit := hex_lines (S (length data)) address data.
Definition assert_fail (expr file : option cstring) (line : Z) : cmd tty unit :=
  panic (fmt_str "Assertion failed: %s at %s:%d") [AStr expr; AStr file; AWord line].
End printf.

(** ** The reference: the whole text *)

(** The value of a digit and of a number. *)
Definition digit_value (c : Z) : Z := if c <? 58 then c - 48 else c - 87.
Definition value (base : Z) (cs : list Z) : Z := foldl (λ v c, v * base + digit_value c) 0 cs.

Definition show_uint (v base : Z) : list Z := if v =? 0 then [48] else rev (digits 32 v base).
Definition show_int (v : Z) : list Z := if v <? 0 then 45 :: show_uint (- v) 10 else show_uint v 10.
Definition show_str (str : option cstring) : list Z := default (cstr "(null)") str.
Definition show_arg (d : Z) (args : list arg) : option (list Z * list arg) :=
  if d =? 115 then match args with AStr str :: args => Some (show_str str, args) | _ => None end else
  if d =? 99 then match args with AWord w :: args => Some ([u8 w], args) | _ => None end else
  if d =? 100 then match args with AWord w :: args => Some (show_int (as_int w), args) | _ => None end else
  if d =? 117 then match args with AWord w :: args => Some (show_uint w 10, args) | _ => None end else
  if d =? 120 then match args with AWord w :: args => Some (show_uint w 16, args) | _ => None end else
  if d =? 112 then match args with AWord w :: args => Some (cstr "0x" ++ show_uint w 16, args) | _ => None end else
  if d =? 37 then Some ([37], args) else Some ([63], args).
(** The text of a format string without its NUL; none for a percent sign at the
    end, or for arguments that do not fit. *)
Fixpoint text_of (fmt : cstring) (args : list arg) : option (list Z) :=
  match fmt with
  | [] => Some []
  | c :: fmt =>
      if negb (c =? 37) then t ← text_of fmt args; Some (c :: t) else
      match fmt with
      | [] => None
      | d :: fmt => '(t, args) ← show_arg d args; t' ← text_of fmt args; Some (t ++ t')
      end
  end.

(** ** Lemmas *)

Lemma as_int_range w : - 2 ^ 31 <= as_int w < 2 ^ 31.
Proof. unfold as_int. pose proof (u32_range w). destruct (Z.ltb_spec (u32 w) (2 ^ 31)); lia. Qed.

Section output.
Context (buf : list Z) (size : Z) (Hsize : 0 <= size) (Hbuf : length buf = Z.to_nat size).
Let room : nat := (Z.to_nat size - 1)%nat.

(** The sink when [t] was put out. *)
Definition holding (t : list Z) : sink :=
  mk_sink (take room t ++ drop (length (take room t)) buf) (length (take room t)) (size - Z.of_nat (length (take room t))).

Lemma holding_nil : holding [] = mk_sink buf 0 size.
Proof. unfold holding. rewrite take_nil. cbn. by rewrite Z.sub_0_r. Qed.

Lemma out_char_run t c : out_char c (holding t) = Some (tt, holding (t ++ [c])).
Proof.
  unfold out_char, holding. cbn [s_remaining s_pos s_buf]. destruct (decide (length t < room)%nat) as [Hl|Hl].
  - rewrite !(take_ge t) by lia. rewrite (take_ge (t ++ [c])) by (rewrite length_app; cbn; lia).
    rewrite (proj2 (Z.ltb_lt _ _)) by lia. rewrite (proj2 (Nat.ltb_lt _ _)) by (rewrite length_app, length_drop; lia).
    do 2 f_equal. rewrite length_app. cbn [length]. f_equal; [|lia].
    destruct (drop (length t) buf) as [|x rest] eqn:Ed; [apply (f_equal length) in Ed; rewrite length_drop in Ed; cbn in Ed; lia|].
    rewrite insert_app_r_alt, Nat.sub_diag by lia. rewrite <- app_assoc. do 2 f_equal. cbn [app].
    rewrite <- drop_drop, Ed. by destruct rest.
  - rewrite (proj2 (Z.ltb_ge _ _)) by (rewrite length_take; lia). by rewrite !take_app_le by lia.
Qed.

Lemma out_text_run cs : ∀ t, out_text cs (holding t) = Some (tt, holding (t ++ cs)).
Proof.
  unfold out_text. induction cs as [|c cs IH]; intros t; cbn [each]; [by rewrite app_nil_r|].
  rewrite (bind_run _ _ _ _ _ (out_char_run t c)), IH. by rewrite <- app_assoc.
Qed.
Lemma out_uint_run v base t : out_uint v base (holding t) = Some (tt, holding (t ++ show_uint v base)).
Proof. unfold out_uint, show_uint. destruct (v =? 0); [apply out_char_run|apply out_text_run]. Qed.
Lemma out_int_run v t : - 2 ^ 31 <= v < 2 ^ 31 → out_int v (holding t) = Some (tt, holding (t ++ show_int v)).
Proof.
  intros Hv. unfold out_int, show_int. destruct (Z.ltb_spec v 0); [|apply out_uint_run].
  rewrite (bind_run _ _ _ _ _ (out_char_run t 45)), u32_small, out_uint_run by lia. by rewrite <- app_assoc.
Qed.
Lemma out_str_run str t : out_str str (holding t) = Some (tt, holding (t ++ show_str str)).
Proof. unfold out_str, show_str. destruct str; apply out_text_run. Qed.

Lemma convert_run d args args' t' t : show_arg d args = Some (t', args') → convert d args (holding t) = Some (args', holding (t ++ t')).
Proof.
  unfold show_arg, convert. intros H.
  repeat (case_match; simplify_eq; try done);
    try (erewrite bind_run by apply out_str_run); try (erewrite bind_run by apply out_char_run);
    try (erewrite bind_run by (apply out_int_run, as_int_range)); try (erewrite bind_run by apply out_uint_run);
    try done.
  by rewrite <- app_assoc.
Qed.

Lemma format_run n : ∀ fmt args rest t t', (length fmt <= n)%nat → Forall (λ c, c ≠ 0) fmt → text_of fmt args = Some t' →
  format (fmt ++ 0 :: rest) args (holding t) = Some (tt, holding (t ++ t')).
Proof.
  induction n as [|n IH]; intros fmt args rest t t' Hl Hz Ht; (destruct fmt as [|c fmt]; [injection Ht as <-; by rewrite app_nil_r|]); [cbn in Hl; lia|].
  inversion_clear Hz as [|? ? Hc Hz']. cbn [app format text_of length] in *. rewrite (proj2 (Z.eqb_neq c 0)) by done.
  destruct (Z.eqb_spec c 37) as [->|Hp]; cbn [negb] in *.
  - destruct fmt as [|d fmt]; [done|]. cbn [app length] in *. inversion_clear Hz' as [|? ? Hd Hz''].
    destruct (show_arg d args) as [[t1 args1]|] eqn:E1; [|done]. cbn [mbind option_bind] in Ht.
    destruct (text_of fmt args1) as [t2|] eqn:E2; [|done]. injection Ht as <-.
    rewrite (bind_run _ _ _ _ _ (convert_run d args args1 t1 t E1)). rewrite (IH fmt args1 rest (t ++ t1) t2) by (done || lia). by rewrite <- app_assoc.
  - destruct (text_of fmt args) as [t2|] eqn:E2; [|done]. injection Ht as <-.
    rewrite (bind_run _ _ _ _ _ (out_char_run t c)). rewrite (IH fmt args rest (t ++ [c]) t2) by (done || lia). by rewrite <- app_assoc.
Qed.

Lemma vsnprintf_run fmt rest args t : Forall (λ c, c ≠ 0) fmt → text_of fmt args = Some t →
  vsnprintf buf size (fmt ++ 0 :: rest) args = Some (Z.of_nat (length (take room t)),
    if size =? 0 then buf else take room t ++ 0 :: drop (length (take room t) + 1) buf).
Proof.
  intros Hz Ht. unfold vsnprintf. rewrite <- holding_nil, (format_run (length fmt) fmt args rest [] t) by done.
  cbn [app]. set (p := take room t). unfold holding. fold p. cbn [s_pos s_buf].
  assert (Hp : (length p <= room)%nat) by (unfold p; rewrite length_take; lia).
  destruct (Z.ltb_spec 0 size), (Z.eqb_spec size 0); try lia.
  - rewrite (proj2 (Nat.ltb_lt _ _)) by (rewrite length_app, length_drop; lia). do 2 f_equal.
    destruct (drop (length p) buf) as [|x tail] eqn:Ed; [apply (f_equal length) in Ed; rewrite length_drop in Ed; cbn in Ed; lia|].
    rewrite insert_app_r_alt, Nat.sub_diag by lia. f_equal. cbn. rewrite <- drop_drop, Ed. done.
  - do 2 f_equal. assert (length p = 0)%nat as E by lia. rewrite E. by destruct p.
Qed.
End output.

(** ** Numbers *)

Lemma digit_value_digit d : 0 <= d < 16 → digit_value (digit d) = d.
Proof. intros H. unfold digit_value, digit. destruct (Z.ltb_spec d 10); [rewrite (proj2 (Z.ltb_lt _ _)) by lia|rewrite (proj2 (Z.ltb_ge _ _)) by lia]; lia. Qed.
Lemma value_snoc base cs c : value base (cs ++ [c]) = value base cs * base + digit_value c.
Proof. unfold value. by rewrite foldl_app. Qed.

Lemma digits_value n base : 2 <= base <= 16 → ∀ v, 0 <= v < base ^ Z.of_nat n → value base (rev (digits n v base)) = v.
Proof.
  intros Hb. induction n as [|n IH]; intros v Hv; cbn [digits]; [cbn in Hv; unfold value; cbn; lia|].
  destruct (Z.eqb_spec v 0) as [->|Hn]; [done|]. cbn [rev]. rewrite value_snoc, IH, digit_value_digit; [|pose proof (Z.mod_pos_bound v base); lia|].
  - pose proof (Z.div_mod v base). lia.
  - rewrite Nat2Z.inj_succ, Z.pow_succ_r in Hv by lia. split; [apply Z.div_pos; lia|]. apply Z.div_lt_upper_bound; lia.
Qed.
(** The highest digit is not 0, so a number has one representation. *)
Lemma digits_head n base : 2 <= base <= 16 → ∀ v, 0 < v < base ^ Z.of_nat n → ∃ c cs, rev (digits n v base) = c :: cs ∧ c ≠ 48.
Proof.
  intros Hb. induction n as [|n IH]; intros v Hv; cbn [digits]; [cbn in Hv; lia|].
  rewrite (proj2 (Z.eqb_neq v 0)) by lia. cbn [rev]. rewrite Nat2Z.inj_succ, Z.pow_succ_r in Hv by lia.
  destruct (decide (v < base)) as [Hs|Hs].
  - rewrite Z.div_small, Z.mod_small by lia. exists (digit v), []. split; [by destruct n|]. unfold digit. destruct (v <? 10); lia.
  - destruct (IH (v / base)) as (c & cs & E & Hc).
    { split; [apply Z.div_str_pos; lia|apply Z.div_lt_upper_bound; lia]. }
    exists c, (cs ++ [digit (v mod base)]). by rewrite E.
Qed.
Lemma length_digits n base : 2 <= base → ∀ v k, 0 <= v < base ^ Z.of_nat k → (length (digits n v base) <= k)%nat.
Proof.
  intros Hb. induction n as [|n IH]; intros v k Hv; cbn [digits]; [cbn; lia|]. destruct (Z.eqb_spec v 0) as [|Hn]; [cbn; lia|].
  destruct k as [|k]; [cbn in Hv; lia|]. cbn [length]. apply le_n_S, IH. rewrite Nat2Z.inj_succ, Z.pow_succ_r in Hv by lia.
  split; [apply Z.div_pos; lia|]. apply Z.div_lt_upper_bound; lia.
Qed.

Lemma show_uint_spec v base : base = 10 ∨ base = 16 → 0 <= v < 2 ^ 32 →
  value base (show_uint v base) = v ∧ (length (show_uint v base) <= 10)%nat ∧ ∃ c cs, show_uint v base = c :: cs ∧ (v ≠ 0 → c ≠ 48).
Proof.
  intros Hb Hv. assert (H2 : 2 <= base <= 16) by lia.
  assert (Hlt : v < base ^ Z.of_nat 10 ∧ v < base ^ Z.of_nat 32) by (destruct Hb as [-> | ->]; cbn; lia).
  unfold show_uint. destruct (Z.eqb_spec v 0) as [->|Hn].
  - destruct Hb as [-> | ->]; (split; [done|]; split; [cbn; lia|]; by exists 48, []).
  - split; [apply digits_value; [done|lia]|]. split; [rewrite length_rev; apply length_digits; lia|].
    destruct (digits_head 32 base H2 v) as (c & cs & E & Hc); [lia|]. exists c, cs. by split.
Qed.

(** ** The statements *)

(** C40: [vsnprintf] formats exactly the prefix of the text that its buffer has room
    for, with a NUL behind it, keeps the rest of the buffer and writes nothing
    outside it; the result is the length of that prefix.  With size 0 it writes
    nothing. *)
Theorem vsnprintf_correct buf size fmt rest args t :
  0 <= size → length buf = Z.to_nat size → Forall (λ c, c ≠ 0) fmt → text_of fmt args = Some t →
  let shown := take (Z.to_nat size - 1) t in
  vsnprintf buf size (fmt ++ 0 :: rest) args = Some (Z.of_nat (length shown),
    if size =? 0 then buf else shown ++ 0 :: drop (length shown + 1) buf).
Proof. intros. by apply vsnprintf_run. Qed.
Lemma vsnprintf_correct_witness :
  vsnprintf (replicate 8 7) 8 (cstr "%s=%d" ++ [0]) [AStr (Some (cstr "ab")); AWord (2 ^ 32 - 12345)] = Some (7, cstr "ab=-123" ++ [0]).
Proof.
  assert (Ht : text_of (cstr "%s=%d") [AStr (Some (cstr "ab")); AWord (2 ^ 32 - 12345)] = Some (cstr "ab=-12345")) by (vm_compute; reflexivity).
  pose proof (vsnprintf_correct (replicate 8 7) 8 (cstr "%s=%d") [] _ _ ltac:(lia) ltac:(reflexivity) ltac:(by_eval) Ht) as H.
  cbn zeta in H. rewrite H. vm_compute. reflexivity.
Defined.

(** Numbers are printed so that they can be read back: in decimal and in
    hexadecimal the digits have the value of the word and no leading zero, and a
    negative integer is its sign and the digits of its absolute value. *)
Theorem snprintf_number_roundtrip buf size w :
  12 <= size → length buf = Z.to_nat size → is_u32 w →
  let printed fmt t := snprintf buf size (cstr fmt ++ [0]) [AWord w] = Some (Z.of_nat (length t), t ++ 0 :: drop (length t + 1) buf) in
  (∃ t, printed "%u"%string t ∧ value 10 t = w ∧ (w ≠ 0 → head t ≠ Some 48)) ∧
  (∃ t, printed "%x"%string t ∧ value 16 t = w ∧ (w ≠ 0 → head t ≠ Some 48)) ∧
  (∃ t, printed "%d"%string t ∧ (if as_int w <? 0 then ∃ u, t = 45 :: u ∧ value 10 u = - as_int w else value 10 t = as_int w)).
Proof.
  intros Hs Hb Hw. unfold is_u32 in Hw.
  assert (Hp : ∀ d t, (length t <= 11)%nat → d ≠ 0 → text_of [37; d] [AWord w] = Some t →
    snprintf buf size ([37; d] ++ [0]) [AWord w] = Some (Z.of_nat (length t), t ++ 0 :: drop (length t + 1) buf)).
  { intros d t Ht Hd E. unfold snprintf. rewrite (vsnprintf_run buf size ltac:(lia) Hb [37; d] [] [AWord w] t); [|by repeat constructor|done].
    rewrite take_ge by lia. by rewrite (proj2 (Z.eqb_neq size 0)) by lia. }
  destruct (show_uint_spec w 10 ltac:(by left) Hw) as (V10 & L10 & c10 & cs10 & E10 & H10).
  destruct (show_uint_spec w 16 ltac:(by right) Hw) as (V16 & L16 & c16 & cs16 & E16 & H16).
  split; [|split].
  - exists (show_uint w 10). split; [apply (Hp 117); [lia|lia|cbn -[show_uint]; by rewrite app_nil_r]|]. split; [exact V10|]. intros Hn. rewrite E10. cbn [head]. specialize (H10 Hn). congruence.
  - exists (show_uint w 16). split; [apply (Hp 120); [lia|lia|cbn -[show_uint]; by rewrite app_nil_r]|]. split; [exact V16|]. intros Hn. rewrite E16. cbn [head]. specialize (H16 Hn). congruence.
  - exists (show_int (as_int w)). pose proof (as_int_range w) as Hi. unfold show_int. destruct (Z.ltb_spec (as_int w) 0) as [Hneg|Hpos].
    + destruct (show_uint_spec (- as_int w) 10 ltac:(by left) ltac:(lia)) as (V & L & _).
      split; [|exists (show_uint (- as_int w) 10); split; [reflexivity|exact V]]. apply (Hp 100); [cbn [length]; lia|lia|]. cbn -[show_uint as_int Z.ltb]. unfold show_int. rewrite (proj2 (Z.ltb_lt _ _)) by done. by rewrite app_nil_r.
    + destruct (show_uint_spec (as_int w) 10 ltac:(by left) ltac:(lia)) as (V & L & _).
      split; [|exact V]. apply (Hp 100); [lia|lia|]. cbn -[show_uint as_int Z.ltb]. unfold show_int. rewrite (proj2 (Z.ltb_ge _ _)) by lia. by rewrite app_nil_r.
Qed.
Lemma snprintf_number_roundtrip_witness : ∃ t, snprintf (replicate 16 7) 16 (cstr "%x" ++ [0]) [AWord 0xBEEF] =
  Some (Z.of_nat (length t), t ++ 0 :: drop (length t + 1) (replicate 16 7)) ∧ value 16 t = 0xBEEF.
Proof.
  destruct (snprintf_number_roundtrip (replicate 16 7) 16 0xBEEF ltac:(lia) ltac:(reflexivity) ltac:(by_eval)) as (_ & (t & H & V & _) & _).
  by exists t.
Defined.

(** Finding: a percent sign at the end of the format makes [vsnprintf] read
    behind the string. *)
Theorem vsnprintf_open_percent buf size fmt args t :
  0 <= size → length buf = Z.to_nat size → Forall (λ c, c ≠ 0 ∧ c ≠ 37) fmt → text_of fmt args = Some t →
  vsnprintf buf size (fmt ++ [37; 0]) args = None.
Proof.
  intros Hs Hb Hf Ht. unfold vsnprintf. assert (H : ∀ s, format (fmt ++ [37; 0]) args s = None); [|by rewrite H].
  clear Ht. induction Hf as [|c fmt [Hc Hp] _ IH]; intros s.
  - change (format ([] ++ [37; 0]) args s) with ((convert 0 args ≫= λ _, @cundef sink unit) s). unfold mbind, cmd_bind.
    by destruct (convert 0 args s) as [[? ?]|].
  - cbn [app format]. rewrite (proj2 (Z.eqb_neq c 0)), (proj2 (Z.eqb_neq c 37)) by done. cbn [negb].
    unfold mbind, cmd_bind. destruct (out_char c s) as [[? ?]|]; [apply IH|done].
Qed.
End Printf.
