(* ===== verification/Mount.v ===== *)
(** * Mounts and file system types

    [src/kernel/fs/vfs/mount.c] and the registry of file system types in
    [vfs.c].  What a file system promises to the mount table is the class
    [FsTypes]; the table is proved against it, and [RamfsTree.v] shows that the
    RAM file system keeps the promise. *)

From S2P Require Import Prelude Vnode Objects Vfs.
Import Vnode Objects Vfs.

Module Mount.

(** [struct fs_type] with its [fs_ops]; a missing operation is a NULL pointer.
    The root operation answers its status and what it stored in [*out_root]. *)
Record fs_type (S : Type) := mk_fs_type {
  ft_name : option cstring;
  ft_mount : option (Z → option cstring → cmd S Z);
  ft_unmount : option (Z → cmd S Z);
  ft_sync : option (Z → cmd S Z);
  ft_root_vnode : option (Z → cmd S (Z * Z))
}.
Arguments mk_fs_type {S}.
Arguments ft_name {S} _.
Arguments ft_mount {S} _.
Arguments ft_unmount {S} _.
Arguments ft_sync {S} _.
Arguments ft_root_vnode {S} _.

(** [struct mount_stat] *)
Record mount_stat_t := mk_mount_stat { st_source : cstring; st_target : cstring; st_type : option cstring }.

Definition ROOT : cstring := [SLASH].

Section mount.
Context {F : Type}.
Abbreviation K := (kernel F).
(** The file system types of the kernel by address. *)
Context (types : Z → option (fs_type K)).
Implicit Types (k : K).

(** [m->type && m->type->op], or [fst->op]. *)
Definition type_op {A} (op : fs_type K → option A) (t : Z) : cmd K (option A) :=
  if t =? 0 then mret None else ft ← cget_opt (types t); mret (op ft).
(** A call of an operation when the type has it. *)
Definition call_op (op : fs_type K → option (Z → cmd K Z)) (mp : Z) : cmd K Z :=
  m ← get_mount mp;
  f ← type_op op (m_type m);
  match f with Some f => f mp | None => mret 0 end.

(** ** [mount.c] *)

Fixpoint find_mount_from (target : cstring) (l : list Z) : cmd K Z :=
  match l with
  | [] => mret 0
  | mp :: l => m ← get_mount mp; if streq (m_target m) target then mret mp else find_mount_from target l
  end.
Definition find_mount_by_target (target : option cstring) : cmd K Z :=
  match target with
  | None => mret 0
  | Some target => k ← cget; find_mount_from target (g_mounts k)
  end.

Definition mount_init : cmd K Z := cmodify (set_mount_list []);; mret ERR_SUCCESS.

(** The mount is on no list while the operations of the file system run. *)
Definition mount_ops (fst mp : Z) (opts : option cstring) : cmd K Z :=
  f ← type_op ft_mount fst;
  r ← match f with Some f => f mp opts | None => mret 0 end;
  if negb (r =? 0) then mret r else
  f ← type_op ft_root_vnode fst;
  match f with
  | None => mret 0
  | Some f =>
    '(r, vn) ← f mp;
    m ← get_mount mp;
    put_mount mp (with_root vn m);;
    if negb (r =? 0) then
      f ← type_op ft_unmount fst;
      match f with Some f => f mp;; mret tt | None => mret tt end;;
      mret r
    else mret 0
  end.

Definition set_root_to (vn : Z) : cmd K unit :=
  root ← vfs_get_root;
  if root =? 0 then vfs_set_root vn;; mret tt
  else if negb (root =? vn) then vfs_set_root vn;; mret tt else mret tt.

(** The strings of a mount are allocated and freed with it. *)
Definition mount_do_mount (fst : Z) (source target opts : option cstring) : cmd K Z :=
  match target with
  | None => mret ERR_INVALID_ARGUMENT
  | Some tgt =>
    if fst =? 0 then mret ERR_INVALID_ARGUMENT else
    found ← find_mount_by_target target;
    if negb (found =? 0) then mret ERR_ALREADY_EXISTS else
    mp ← kalloc;
    if mp =? 0 then mret ERR_OUT_OF_MEMORY else
    s ← kalloc;
    t ← kalloc;
    if (s =? 0) || (t =? 0) then mret ENOMEM else
    put_mount mp (mk_mount fst 0 (default [] source) tgt 0);;
    r ← mount_ops fst mp opts;
    if negb (r =? 0) then free_mount mp;; mret r else
    cmodify (λ k, set_mount_list (g_mounts k ++ [mp]) k);;
    m ← get_mount mp;
    (if streq tgt ROOT then set_root_to (m_root_vnode m) else mret tt);;
    mret ERR_SUCCESS
  end.

(** [ListRemove] and the three [free]s, after the root is cleared when it is the
    root of the mount. *)
Definition remove_mount (mp : Z) : cmd K unit :=
  m ← get_mount mp;
  root ← vfs_get_root;
  (if root =? m_root_vnode m then vfs_set_root 0;; mret tt else mret tt);;
  cmodify (λ k, set_mount_list (list_difference (g_mounts k) [mp]) k);;
  free_mount mp.

Fixpoint unmount_from (target : cstring) (l : list Z) : cmd K Z :=
  match l with
  | [] => mret ENOENT
  | mp :: l =>
    m ← get_mount mp;
    if streq (m_target m) target then
      r ← call_op ft_unmount mp;
      if negb (r =? 0) then mret r else
      remove_mount mp;;
      mret ERR_SUCCESS
    else unmount_from target l
  end.
Definition mount_do_unmount (target : option cstring) : cmd K Z :=
  match target with
  | None => mret ERR_INVALID_ARGUMENT
  | Some target => k ← cget; unmount_from target (g_mounts k)
  end.

(** The status and [*out_mount]; [out] says whether the pointer is not NULL. *)
Definition mount_lookup (target : option cstring) (out : bool) : cmd K (Z * option Z) :=
  match target with
  | None => mret (ERR_INVALID_ARGUMENT, None)
  | Some _ =>
    if negb out then mret (ERR_INVALID_ARGUMENT, None) else
    m ← find_mount_by_target target;
    if m =? 0 then mret (ENOENT, None) else mret (ERR_SUCCESS, Some m)
  end.

Definition mount_lookup_vnode (target : option cstring) (out : bool) : cmd K (Z * option Z) :=
  match target with
  | None => mret (ERR_INVALID_ARGUMENT, None)
  | Some _ =>
    if negb out then mret (ERR_INVALID_ARGUMENT, None) else
    '(r, m) ← mount_lookup target true;
    match m with
    | Some mp =>
      m ← get_mount mp;
      if m_root_vnode m =? 0 then mret (ENOENT, None) else mret (ERR_SUCCESS, Some (m_root_vnode m))
    | None => mret (r, None)
    end
  end.

(** The status and the array; [malloc(0)] answers NULL, which is no failure. *)
Definition mount_list (out : bool) : cmd K (Z * option (list Z)) :=
  if negb out then mret (ERR_INVALID_ARGUMENT, None) else
  k ← cget;
  let count := length (g_mounts k) in
  arr ← (if (count =? 0)%nat then mret 0 else kalloc);
  if (arr =? 0) && negb (count =? 0)%nat then mret (ERR_ADDRESS_IN_USE, None)
  else mret (ERR_SUCCESS, Some (g_mounts k)).

(** Every turn takes the first mount of the list off it. *)
Fixpoint cleanup (fuel : nat) : cmd K Z :=
  k ← cget;
  match g_mounts k, fuel with
  | [], _ => mret ERR_SUCCESS
  | _ :: _, O => cundef
  | mp :: _, S fuel => call_op ft_unmount mp;; remove_mount mp;; cleanup fuel
  end.
Definition mount_cleanup : cmd K Z := k ← cget; cleanup (length (g_mounts k)).
Definition mount_shutdown : cmd K Z := mount_cleanup.

Fixpoint sync_from (l : list Z) : cmd K Z :=
  match l with
  | [] => mret ERR_SUCCESS
  | mp :: l => r ← call_op ft_sync mp; if negb (r =? 0) then mret r else sync_from l
  end.
Definition mount_sync : cmd K Z := k ← cget; sync_from (g_mounts k).

Definition mount_stat (target : option cstring) (out : bool) : cmd K (Z * option mount_stat_t) :=
  match target with
  | None => mret (ERR_INVALID_ARGUMENT, None)
  | Some _ =>
    if negb out then mret (ERR_INVALID_ARGUMENT, None) else
    mp ← find_mount_by_target target;
    if mp =? 0 then mret (ERR_ADDRESS_IN_USE_NET, None) else
    m ← get_mount mp;
    name ← type_op ft_name (m_type m);
    mret (ERR_SUCCESS, Some (mk_mount_stat (m_source m) (m_target m) name))
  end.

(** ** The registry of [vfs.c]

    [g_fs_types] is the list of the registered types. *)

Fixpoint type_named (name : cstring) (l : list Z) : option Z :=
  match l with
  | [] => Some 0
  | t :: l => ft ← types t; n ← ft_name ft; if streq n name then Some t else type_named name l
  end.
Definition vfs_register_fs (fst : Z) : cmd (list Z) Z :=
  if fst =? 0 then mret ERR_INVALID_ARGUMENT else
  ft ← cget_opt (types fst);
  match ft_name ft with
  | None | Some [] => mret ERR_INVALID_ARGUMENT
  | Some name =>
    g_fs_types ← cget;
    registered ← cget_opt (type_named name g_fs_types);
    if negb (registered =? 0) then mret ERR_ALREADY_EXISTS else
    cput (g_fs_types ++ [fst]);;
    mret ERR_SUCCESS
  end.
Definition find_fs_type (g_fs_types : list Z) (name : option cstring) : option Z :=
  match name with None => Some 0 | Some name => type_named name g_fs_types end.
Definition vfs_mount (g_fs_types : list Z) (fs_name source target opts : option cstring) : cmd K Z :=
  match fs_name with
  | None => mret ERR_INVALID_ARGUMENT
  | Some _ =>
    fst ← cget_opt (find_fs_type g_fs_types fs_name);
    if fst =? 0 then mret ERR_NOT_FOUND else mount_do_mount fst source target opts
  end.
Definition vfs_unmount (target : option cstring) : cmd K Z := mount_do_unmount target.

(** ** What a file system promises

    An operation on the mount [mp] may change the objects of the file system,
    allocate, and set the private data of [mp]; the other mounts, the list and
    the root are not its business. *)

Record own (f : mount → mount → Prop) (mp : Z) k k' : Prop := {
  own_list : g_mounts k' = g_mounts k;
  own_root : g_root_vnode k' = g_root_vnode k;
  own_next : next k ≤ next k';
  own_other a : a ≠ mp → mounts k' !! a = mounts k !! a;
  own_self m : mounts k !! mp = Some m → ∃ m', mounts k' !! mp = Some m' ∧ f m m'
}.
Definition data_set m m' : Prop := ∃ d, m' = with_data d m.
Definition root_and_data_set m m' : Prop := ∃ v d, m' = with_root v (with_data d m).

(** [inv] is what the file systems need of the store between operations; it
    depends on the mounts through their private data only. *)
Class FsTypes (inv : K → Prop) : Prop := {
  fs_frame k k' : inv k → vnodes k' = vnodes k → files k' = files k → fs k' = fs k → next k ≤ next k' →
    (∀ a m', mounts k' !! a = Some m' → m_fs_data m' = 0 ∨
       ∃ m, mounts k !! a = Some m ∧ m_type m' = m_type m ∧ m_fs_data m' = m_fs_data m) → inv k';
  fs_mount t ft op mp m opts k : types t = Some ft → ft_mount ft = Some op → inv k → mounts k !! mp = Some m →
    mp ≠ 0 → m_type m = t → m_fs_data m = 0 → wp (op mp opts) (λ _ k', inv k' ∧ own root_and_data_set mp k k') k;
  fs_root_vnode t ft op mp m k : types t = Some ft → ft_root_vnode ft = Some op → inv k → mounts k !! mp = Some m →
    mp ≠ 0 → m_type m = t → wp (op mp) (λ _ k', inv k' ∧ own data_set mp k k') k;
  fs_unmount t ft op mp m k : types t = Some ft → ft_unmount ft = Some op → inv k → mounts k !! mp = Some m →
    mp ≠ 0 → m_type m = t → wp (op mp) (λ _ k', inv k' ∧ own data_set mp k k') k;
  fs_sync t ft op mp m k : types t = Some ft → ft_sync ft = Some op → inv k → mounts k !! mp = Some m →
    mp ≠ 0 → m_type m = t → wp (op mp) (λ _ k', inv k' ∧ own data_set mp k k') k
}.

(** ** The abstract mount table *)

Record entry := mk_entry { en_target : cstring; en_source : cstring; en_type : Z; en_root : Z }.
Definition entry_of (m : mount) : entry := mk_entry (m_target m) (m_source m) (m_type m) (m_root_vnode m).
Record abs := mk_abs { a_table : list entry; a_root : Z }.

Definition entry_at (target : cstring) (tbl : list entry) : option entry := List.find (λ e, streq (en_target e) target) tbl.

Inductive call :=
  | CMount (fst : Z) (source target opts : option cstring) | CUnmount (target : option cstring)
  | CLookup (target : option cstring) | CLookupVnode (target : option cstring)
  | CStat (target : option cstring) | CList | CSync | CCleanup.
(** What a call hands out beside its status. *)
Inductive reply := RNone | RMount (mp : Z) | RVnode (v : Z) | RList (l : list Z) | RStat (st : mount_stat_t).
Inductive view := VNone | VEntry (e : entry) | VVnode (v : Z) | VList (tbl : list entry) | VStat (st : mount_stat_t).

Definition run (c : call) : cmd K (Z * reply) :=
  match c with
  | CMount fst source target opts => r ← mount_do_mount fst source target opts; mret (r, RNone)
  | CUnmount target => r ← mount_do_unmount target; mret (r, RNone)
  | CLookup target => '(r, m) ← mount_lookup target true; mret (r, match m with Some m => RMount m | None => RNone end)
  | CLookupVnode target => '(r, v) ← mount_lookup_vnode target true; mret (r, match v with Some v => RVnode v | None => RNone end)
  | CStat target => '(r, st) ← mount_stat target true; mret (r, match st with Some st => RStat st | None => RNone end)
  | CList => '(r, l) ← mount_list true; mret (r, match l with Some l => RList l | None => RNone end)
  | CSync => r ← mount_sync; mret (r, RNone)
  | CCleanup => r ← mount_cleanup; mret (r, RNone)
  end.
Definition seen k (x : reply) (y : view) : Prop :=
  match x, y with
  | RNone, VNone => True
  | RMount mp, VEntry e => entry_of <$> mounts k !! mp = Some e
  | RVnode v, VVnode w => v = w
  | RList l, VList tbl => Forall2 (λ mp e, entry_of <$> mounts k !! mp = Some e) l tbl
  | RStat st, VStat st' => st = st'
  | _, _ => False
  end.

Definition spec_at (target : option cstring) (A : abs) (missing r : Z) (y : view) (found : entry → Prop) : Prop :=
  match target with
  | None => r = ERR_INVALID_ARGUMENT ∧ y = VNone
  | Some t => match entry_at t (a_table A) with None => r = missing ∧ y = VNone | Some e => found e end
  end.
(** Each call with its status, what it hands out, and the table behind it. *)
Definition spec (A : abs) (c : call) (r : Z) (y : view) (A' : abs) : Prop :=
  match c with
  | CMount fst source (Some t) _ =>
    y = VNone ∧
    if fst =? 0 then r = ERR_INVALID_ARGUMENT ∧ A' = A else
    match entry_at t (a_table A) with
    | Some _ => r = ERR_ALREADY_EXISTS ∧ A' = A
    | None => (r ≠ 0 ∧ A' = A) ∨
              (r = 0 ∧ ∃ v, A' = mk_abs (a_table A ++ [mk_entry t (default [] source) fst v]) (if decide (t = ROOT) then v else a_root A))
    end
  | CMount _ _ None _ => y = VNone ∧ r = ERR_INVALID_ARGUMENT ∧ A' = A
  | CUnmount (Some t) =>
    y = VNone ∧
    match entry_at t (a_table A) with
    | None => r = ENOENT ∧ A' = A
    | Some e => (r ≠ 0 ∧ A' = A) ∨
                (r = 0 ∧ A' = mk_abs (filter (λ e, en_target e ≠ t) (a_table A)) (if decide (a_root A = en_root e) then 0 else a_root A))
    end
  | CUnmount None => y = VNone ∧ r = ERR_INVALID_ARGUMENT ∧ A' = A
  | CLookup t => A' = A ∧ spec_at t A ENOENT r y (λ e, r = 0 ∧ y = VEntry e)
  | CLookupVnode t => A' = A ∧ spec_at t A ENOENT r y (λ e, if en_root e =? 0 then r = ENOENT ∧ y = VNone else r = 0 ∧ y = VVnode (en_root e))
  | CStat t => A' = A ∧ spec_at t A ERR_ADDRESS_IN_USE_NET r y (λ e,
      r = 0 ∧ y = VStat (mk_mount_stat (en_source e) (en_target e) (types (en_type e) ≫= ft_name)))
  | CList => A' = A ∧ ((r = ERR_ADDRESS_IN_USE ∧ y = VNone ∧ a_table A ≠ []) ∨ (r = 0 ∧ y = VList (a_table A)))
  | CSync => A' = A ∧ y = VNone
  | CCleanup => r = 0 ∧ y = VNone ∧ A' = mk_abs [] (if decide (a_root A ∈ en_root <$> a_table A) then 0 else a_root A)
  end.
(** The file system type of a call is one of the kernel's. *)
Definition allowed (c : call) : Prop :=
  match c with CMount fst _ _ _ => fst = 0 ∨ is_Some (types fst) | _ => True end.

(** ** Lemmas *)

Lemma filter_id {A} (P : A → Prop) `{∀ x, Decision (P x)} (l : list A) : Forall P l → filter P l = l.
Proof. induction 1; [done|]. rewrite filter_cons_True by done. by f_equal. Qed.
(** The one element of that value is taken out of a list without duplicates. *)
Lemma list_difference_split (l1 l2 : list Z) x : NoDup (l1 ++ x :: l2) → list_difference (l1 ++ x :: l2) [x] = l1 ++ l2.
Proof.
  intros (H1 & H12 & [H2 _]%NoDup_cons)%NoDup_app.
  assert (∀ l l', list_difference (l ++ l') [x] = list_difference l [x] ++ list_difference l' [x]) as Ha.
  { induction l as [|a l IH]; [done|]. intros l'. cbn. case_decide; by rewrite IH. }
  assert (∀ l, x ∉ l → list_difference l [x] = l) as Hd.
  { induction l as [|a l IH]; [done|]. intros [? ?]%not_elem_of_cons. cbn. case_decide; [set_solver|]. by rewrite IH. }
  rewrite Ha. cbn. case_decide; [|set_solver]. rewrite !Hd; [done|done|]. intros ?. apply (H12 x); [done|by constructor].
Qed.

Section laws.
Context (inv : K → Prop) `{!FsTypes inv}.

(** Every mount object has a known type and an address that was handed out. *)
Record sound k : Prop := {
  sd_inv : inv k;
  sd_next : 0 < next k;
  sd_types mp m : mounts k !! mp = Some m → m_type m ≠ 0 ∧ is_Some (types (m_type m));
  sd_fresh mp m : mounts k !! mp = Some m → 0 < mp < next k
}.
(** The list holds exactly the mount objects that exist, with the entries of
    the table in its order; no two have the same target. *)
Record models k A : Prop := {
  md_sound : sound k;
  md_entries : Forall2 (λ mp e, entry_of <$> mounts k !! mp = Some e) (g_mounts k) (a_table A);
  md_nodup : NoDup (g_mounts k);
  md_targets : NoDup (en_target <$> a_table A);
  md_all mp m : mounts k !! mp = Some m → mp ∈ g_mounts k;
  md_root : g_root_vnode k = a_root A
}.

Lemma type_op_run {A} (op : fs_type K → option A) t ft k : t ≠ 0 → types t = Some ft → type_op op t k = Some (op ft, k).
Proof. intros Ht E. unfold type_op. rewrite (proj2 (Z.eqb_neq t 0)) by done. unfold mbind, cmd_bind, cget_opt. by rewrite E. Qed.

Lemma own_refl f mp k : (∀ m, f m m) → own f mp k k.
Proof. intros Hf. split; try done. intros m Hm. by exists m. Qed.
Lemma data_set_refl m : data_set m m.
Proof. exists (m_fs_data m). by destruct m. Qed.
Lemma root_and_data_set_refl m : root_and_data_set m m.
Proof. exists (m_root_vnode m), (m_fs_data m). by destruct m. Qed.
#[local] Hint Resolve data_set_refl root_and_data_set_refl : core.
Lemma data_set_root m m' : data_set m m' → root_and_data_set m m'.
Proof. intros [d ->]. exists (m_root_vnode m), d. by destruct m. Qed.
Lemma own_weaken (f g : mount → mount → Prop) mp k k' : (∀ m m', f m m' → g m m') → own f mp k k' → own g mp k k'.
Proof. intros Hfg [H1 H2 H3 H4 H5]. split; [done..|]. intros m Hm. destruct (H5 m Hm) as (m' & ? & ?). exists m'. auto. Qed.
Lemma own_trans (f : mount → mount → Prop) mp k k1 k2 :
  (∀ m m1 m2, f m m1 → f m1 m2 → f m m2) → own f mp k k1 → own f mp k1 k2 → own f mp k k2.
Proof.
  intros Hf [A1 A2 A3 A4 A5] [B1 B2 B3 B4 B5]. split; [congruence|congruence|lia| |].
  - intros a Ha. by rewrite B4, A4.
  - intros m Hm. destruct (A5 m Hm) as (m1 & H1 & ?). destruct (B5 m1 H1) as (m2 & ? & ?). exists m2. eauto.
Qed.
Lemma root_and_data_set_trans m m1 m2 : root_and_data_set m m1 → root_and_data_set m1 m2 → root_and_data_set m m2.
Proof. intros (v & d & ->) (v' & d' & ->). by exists v', d'. Qed.

Lemma own_sound (f : mount → mount → Prop) mp k k' :
  (∀ m m', f m m' → m_type m' = m_type m) → is_Some (mounts k !! mp) → sound k → inv k' → own f mp k k' → sound k'.
Proof.
  intros Hf [m Hm] [S1 S2 S3 S4] Hinv [H1 H2 H3 H4 H5]. split; [done|lia| |].
  - intros a ma Ha. destruct (decide (a = mp)) as [->|Hne]; [|rewrite H4 in Ha by done; eauto].
    destruct (H5 m Hm) as (m' & Hm' & Hf'). rewrite Hm' in Ha. injection Ha as <-. rewrite (Hf _ _ Hf'). eauto.
  - intros a ma Ha. destruct (decide (a = mp)) as [->|Hne].
    + specialize (S4 mp m Hm). lia.
    + rewrite H4 in Ha by done. specialize (S4 a ma Ha). lia.
Qed.
Lemma data_set_type m m' : data_set m m' → m_type m' = m_type m.
Proof. by intros [d ->]. Qed.
Lemma root_and_data_set_type m m' : root_and_data_set m m' → m_type m' = m_type m.
Proof. by intros (v & d & ->). Qed.

Lemma own_models mp m k k' A : models k A → mounts k !! mp = Some m → inv k' → own data_set mp k k' → models k' A.
Proof.
  intros [HS HE HN HT HA HR] Hm Hinv Hown. pose proof Hown as [H1 H2 H3 H4 H5].
  assert (Hent : ∀ a, entry_of <$> mounts k' !! a = entry_of <$> mounts k !! a).
  { intros a. destruct (decide (a = mp)) as [->|Hne]; [|by rewrite H4].
    destruct (H5 m Hm) as (m' & Hm' & d & ->). by rewrite Hm, Hm'. }
  split; [|rewrite H1|by rewrite H1|done| |congruence].
  - eapply own_sound; [by apply data_set_type|by eexists|done..].
  - eapply Forall2_impl; [exact HE|]. intros a e. cbn beta. by rewrite Hent.
  - rewrite H1. intros a ma Ha. destruct (mounts k !! a) as [mb|] eqn:Hb; [by eapply HA|].
    specialize (Hent a). by rewrite Ha, Hb in Hent.
Qed.

(** A call of the operations that take a mount alone. *)
Lemma call_op_wp (op : fs_type K → option (Z → cmd K Z)) mp m k :
  (∀ t ft f, types t = Some ft → op ft = Some f → m_type m = t → wp (f mp) (λ _ k', inv k' ∧ own data_set mp k k') k) →
  sound k → mounts k !! mp = Some m → wp (call_op op mp) (λ _ k', inv k' ∧ own data_set mp k k') k.
Proof.
  intros Hop HS Hm. destruct (sd_types _ HS mp m Hm) as (Ht & ft & Hft). unfold call_op.
  wp_step. eapply get_mount_wp; [done|]. wp_step. eapply wp_eq; [by apply type_op_run|].
  destruct (op ft) as [f|] eqn:Ef; [by eapply Hop|]. wp_step. split; [apply HS|]. by apply own_refl.
Qed.
Lemma call_unmount_wp mp m k : sound k → mounts k !! mp = Some m →
  wp (call_op ft_unmount mp) (λ _ k', inv k' ∧ own data_set mp k k') k.
Proof.
  intros HS Hm. apply (call_op_wp _ mp m k); [|done|done]. intros t ft f Hft Hf Ht.
  eapply fs_unmount; [exact Hft|exact Hf|apply HS|exact Hm| |exact Ht]. pose proof (sd_fresh _ HS mp m Hm). lia.
Qed.
Lemma call_sync_wp mp m k : sound k → mounts k !! mp = Some m →
  wp (call_op ft_sync mp) (λ _ k', inv k' ∧ own data_set mp k k') k.
Proof.
  intros HS Hm. apply (call_op_wp _ mp m k); [|done|done]. intros t ft f Hft Hf Ht.
  eapply fs_sync; [exact Hft|exact Hf|apply HS|exact Hm| |exact Ht]. pose proof (sd_fresh _ HS mp m Hm). lia.
Qed.

(** *** Finding a mount *)

Lemma entry_at_Some t tbl e : entry_at t tbl = Some e → ∃ t1 t2, tbl = t1 ++ e :: t2 ∧ en_target e = t ∧ entry_at t t1 = None.
Proof.
  unfold entry_at. induction tbl as [|d tbl IH]; cbn [List.find]; [done|]. destruct (streq (en_target d) t) eqn:E.
  - intros [= ->]. apply streq_true in E. by exists [], tbl.
  - intros (t1 & t2 & -> & ? & ?)%IH. exists (d :: t1), t2. split_and!; [done|done|]. cbn. by rewrite E.
Qed.
Lemma entry_at_None t tbl : entry_at t tbl = None ↔ t ∉ en_target <$> tbl.
Proof.
  unfold entry_at. induction tbl as [|d tbl IH]; cbn [List.find]; [split; [intros _ H; inversion H|done]|].
  rewrite fmap_cons, not_elem_of_cons. destruct (streq (en_target d) t) eqn:E.
  - apply streq_true in E. naive_solver.
  - apply streq_false in E. rewrite IH. naive_solver.
Qed.

Lemma find_mount_from_run t k : ∀ l tbl, Forall2 (λ mp e, entry_of <$> mounts k !! mp = Some e) l tbl →
  ∃ mp, find_mount_from t l k = Some (mp, k) ∧
    match entry_at t tbl with Some e => mp ∈ l ∧ entry_of <$> mounts k !! mp = Some e | None => mp = 0 end.
Proof.
  induction 1 as [|a e l tbl Ha Hl IH]; [by exists 0|]. unfold entry_at. cbn [find_mount_from List.find].
  destruct (mounts k !! a) as [m|] eqn:Hm; [|done]. injection Ha as <-. cbn [en_target entry_of].
  erewrite bind_run by (unfold get_mount, cread; by rewrite Hm). destruct (streq (m_target m) t).
  - exists a. split; [done|]. split; [by constructor|by rewrite Hm].
  - destruct IH as (mp & E & H). exists mp. split; [exact E|]. change (List.find _ tbl) with (entry_at t tbl).
    destruct (entry_at t tbl); [|done]. split; [constructor|]; apply H.
Qed.
Lemma find_mount_run k A t : models k A →
  ∃ mp, find_mount_by_target (Some t) k = Some (mp, k) ∧
    match entry_at t (a_table A) with
    | Some e => mp ≠ 0 ∧ ∃ m, mounts k !! mp = Some m ∧ entry_of m = e
    | None => mp = 0
    end.
Proof.
  intros HM. destruct (find_mount_from_run t k _ _ (md_entries _ _ HM)) as (mp & E & H). exists mp.
  split; [unfold find_mount_by_target; by erewrite bind_run by done|]. destruct (entry_at t (a_table A)); [|done].
  destruct H as [_ H]. destruct (mounts k !! mp) as [m|] eqn:Hm; [|done]. injection H as <-.
  pose proof (sd_fresh _ (md_sound _ _ HM) mp m Hm). split; [lia|]. by exists m.
Qed.

(** *** Changes of the table *)

(** The store after the two lists of a mount that goes. *)
Lemma models_remove k A mp m : models k A → mounts k !! mp = Some m →
  models (set_mounts (delete mp (mounts k)) (set_mount_list (list_difference (g_mounts k) [mp]) k))
    (mk_abs (filter (λ e, en_target e ≠ m_target m) (a_table A)) (a_root A)).
Proof.
  intros [[S1 S2 S3 S4] HE HN HT HA HR] Hm.
  assert (Hin : mp ∈ g_mounts k) by (by eapply HA).
  apply list_elem_of_split in Hin as (l1 & l2 & El). rewrite El in *.
  apply Forall2_app_inv_l in HE as (t1 & t2' & H1 & H2 & Et). inversion H2 as [|? e ? t2 He H2']; subst.
  rewrite Hm in He. injection He as <-. pose proof HN as HN0. apply NoDup_app in HN as (HN1 & HN12 & [HN2 HN3]%NoDup_cons).
  rewrite Et, fmap_app, fmap_cons in HT. apply NoDup_app in HT as (HT1 & HT12 & [HT2 HT3]%NoDup_cons).
  assert (Hf : filter (λ e, en_target e ≠ m_target m) (a_table A) = t1 ++ t2).
  { rewrite Et, filter_app, filter_cons_False by (cbn; naive_solver). f_equal.
    - apply filter_id, Forall_forall. intros e He Ee. apply (HT12 (en_target e)); [by apply list_elem_of_fmap_2|]. rewrite Ee. by constructor.
    - apply filter_id, Forall_forall. intros e He Ee. apply HT2. cbn. rewrite <- Ee. by apply list_elem_of_fmap_2. }
  assert (Hl : list_difference (l1 ++ mp :: l2) [mp] = l1 ++ l2) by (by apply list_difference_split).
  assert (Hsub : ∀ l tbl, mp ∉ l → Forall2 (λ a e, entry_of <$> mounts k !! a = Some e) l tbl →
    Forall2 (λ a e, entry_of <$> delete mp (mounts k) !! a = Some e) l tbl).
  { intros l tbl Hn HF. induction HF as [|a e l tbl Ha HF IH]; [constructor|]. apply not_elem_of_cons in Hn as [? ?].
    constructor; [by rewrite lookup_delete_ne|by apply IH]. }
  assert (mp ∉ l1) by (intros ?; apply (HN12 mp); [done|by constructor]).
  split; cbn [a_table a_root mounts g_mounts g_root_vnode set_mounts set_mount_list]; rewrite ?Hf, ?Hl.
  - split; cbn; [|done| |].
    + eapply fs_frame; [exact S1|done..|cbn; lia|]. intros a m' Ha. right. cbn in Ha. apply lookup_delete_Some in Ha as [? Ha]. by exists m'.
    + intros a ma [? Ha]%lookup_delete_Some. eauto.
    + intros a ma [? Ha]%lookup_delete_Some. eauto.
  - apply Forall2_app; by apply Hsub.
  - apply NoDup_app. split_and!; [done| |done]. intros a Ha Ha2. apply (HN12 a); [done|]. by constructor.
  - rewrite fmap_app. apply NoDup_app. split_and!; [done| |done]. intros a Ha Ha2. apply (HT12 a); [done|]. by constructor.
  - intros a ma [Hne Ha]%lookup_delete_Some. specialize (HA a ma Ha). set_solver.
  - done.
Qed.

(** *** The operations *)

Lemma put_root_own mp m v k : inv k → mounts k !! mp = Some m →
  inv (set_mounts (<[mp := with_root v m]> (mounts k)) k) ∧ own root_and_data_set mp k (set_mounts (<[mp := with_root v m]> (mounts k)) k).
Proof.
  intros Hinv Hm. split.
  - eapply fs_frame; [exact Hinv|done..|]. intros a m' Ha. cbn in Ha. right.
    apply lookup_insert_Some in Ha as [[<- <-]|[_ Ha]]; [by exists m|by exists m'].
  - split; cbn; [done|done|lia| |].
    + intros a Ha. by rewrite lookup_insert_ne.
    + intros m0 Hm0. assert (m0 = m) as -> by congruence. exists (with_root v m). split; [apply lookup_insert_eq|]. exists v, (m_fs_data m). done.
Qed.

Lemma mount_ops_wp t ft mp m opts k :
  t ≠ 0 → types t = Some ft → sound k → mounts k !! mp = Some m → m_type m = t → m_fs_data m = 0 →
  wp (mount_ops t mp opts) (λ _ k', inv k' ∧ own root_and_data_set mp k k') k.
Proof.
  intros Ht Hft HS Hm Hty Hd. assert (Hmp : mp ≠ 0) by (pose proof (sd_fresh _ HS mp m Hm); lia). unfold mount_ops.
  wp_step. eapply wp_eq; [by apply type_op_run|]. wp_step.
  eapply wp_mono with (P := λ _ k1, inv k1 ∧ own root_and_data_set mp k k1).
  { destruct (ft_mount ft) as [f|] eqn:Ef; [by apply (fs_mount t ft f mp m opts k Hft Ef (sd_inv _ HS))|]. wp_step. split; [apply HS|by apply own_refl]. }
  intros r k1 [Hinv1 Hown1]. destruct (negb (r =? 0)); [by wp_step|].
  wp_step. eapply wp_eq; [by apply type_op_run|]. destruct (ft_root_vnode ft) as [f|] eqn:Ef; [|by wp_step].
  destruct (own_self _ _ _ _ Hown1 m Hm) as (m1 & Hm1 & Hm1'). apply root_and_data_set_type in Hm1'. rewrite Hty in Hm1'.
  wp_step. eapply wp_mono; [by apply (fs_root_vnode t ft f mp m1)|]. cbn beta. intros [r2 vn] k2 [Hinv2 Hown2].
  destruct (own_self _ _ _ _ Hown2 m1 Hm1) as (m2 & Hm2 & Hm2'). pose proof (data_set_type _ _ Hm2') as Hty2.
  wp_step. eapply get_mount_wp; [done|]. wp_step. apply wp_modify. destruct (put_root_own mp m2 vn k2 Hinv2 Hm2) as [Hinv3 Hown3].
  assert (Hown : own root_and_data_set mp k (set_mounts (<[mp := with_root vn m2]> (mounts k2)) k2)).
  { eapply own_trans; [by apply root_and_data_set_trans|exact Hown1|]. eapply own_trans; [by apply root_and_data_set_trans| |exact Hown3].
    eapply own_weaken; [apply data_set_root|done]. }
  set (k3 := set_mounts _ k2) in *. clearbody k3. destruct (negb (r2 =? 0)); [|by wp_step].
  wp_step. eapply wp_eq; [by apply type_op_run|]. wp_step.
  destruct (own_self _ _ _ _ Hown m Hm) as (m3 & Hm3 & Hm3'). apply root_and_data_set_type in Hm3'.
  destruct (ft_unmount ft) as [g|] eqn:Eg; [|wp_step; by wp_step].
  wp_step. eapply wp_mono; [apply (fs_unmount t ft g mp m3); try done; congruence|]. cbn beta. intros r4 k4 [Hinv4 Hown4].
  wp_step. wp_step. split; [done|]. eapply own_trans; [by apply root_and_data_set_trans|exact Hown|]. eapply own_weaken; [apply data_set_root|done].
Qed.

(** Beside the mount [mp], which is on no list, [k'] has the mounts of [k]. *)
Record beside mp k k' : Prop := {
  bs_list : g_mounts k' = g_mounts k;
  bs_root : g_root_vnode k' = g_root_vnode k;
  bs_next : next k ≤ next k';
  bs_other a : a ≠ mp → mounts k' !! a = mounts k !! a
}.

Lemma models_freed k A mp k' : models k A → mounts k !! mp = None → sound k' → beside mp k k' →
  models (set_mounts (delete mp (mounts k')) k') A.
Proof.
  intros [[S1 S2 S3 S4] HE HN HT HA HR] Hmp [S1' S2' S3' S4'] [H1 H2 H3 H4].
  assert (Hd : delete mp (mounts k') = mounts k).
  { apply map_eq. intros a. destruct (decide (a = mp)) as [->|Hne]; [by rewrite lookup_delete_eq|].
    rewrite lookup_delete_ne by done. by rewrite H4. }
  split; cbn; rewrite ?Hd, ?H1, ?H2; try done. split; cbn; rewrite ?Hd.
  - eapply fs_frame; [exact S1'|done..|]. cbn. intros a m' Ha. right. exists m'. split; [|done].
    rewrite H4; [done|]. intros ->. by rewrite Hmp in Ha.
  - done.
  - done.
  - intros a m Ha. specialize (S4 a m Ha). lia.
Qed.

Lemma models_listed k A mp m k' : models k A → mounts k !! mp = None → sound k' → beside mp k k' → mounts k' !! mp = Some m →
  entry_at (m_target m) (a_table A) = None →
  models (set_mount_list (g_mounts k' ++ [mp]) k') (mk_abs (a_table A ++ [entry_of m]) (a_root A)).
Proof.
  intros [HS HE HN HT HA HR] Hmp [S1' S2' S3' S4'] [H1 H2 H3 H4] Hm Ht.
  assert (Hin : mp ∉ g_mounts k).
  { intros Hin. apply list_elem_of_lookup in Hin as [i Hi]. destruct (Forall2_lookup_l _ _ _ _ _ HE Hi) as (e & _ & He). by rewrite Hmp in He. }
  split; cbn [a_table a_root mounts g_mounts g_root_vnode set_mount_list]; rewrite ?H1.
  - split; cbn; [|done..]. eapply fs_frame; [exact S1'|done..|]. cbn. intros a m' Ha. right. by exists m'.
  - apply Forall2_app; [|constructor; [by rewrite Hm|constructor]].
    apply Forall2_same_length_lookup. split; [by eapply Forall2_length|]. intros i a e Ha He.
    rewrite H4; [exact (Forall2_lookup_lr _ _ _ _ _ _ HE Ha He)|]. intros ->. apply Hin. by eapply list_elem_of_lookup_2.
  - apply NoDup_app. split_and!; [done| |apply NoDup_singleton]. intros a Ha ->%list_elem_of_singleton. done.
  - rewrite fmap_app. apply NoDup_app. split_and!; [done| |apply NoDup_singleton].
    apply entry_at_None in Ht. intros t Ht' ->%list_elem_of_singleton. done.
  - intros a ma Ha. destruct (decide (a = mp)) as [->|Hne]; [set_solver|]. rewrite H4 in Ha by done. specialize (HA a ma Ha). set_solver.
  - congruence.
Qed.

Lemma models_set_root k A v : models k A → models (set_root v k) (mk_abs (a_table A) v).
Proof.
  intros [[S1 S2 S3 S4] HE HN HT HA HR]. split; [|done..]. split; [|done..].
  eapply fs_frame; [exact S1|done..|]. cbn. intros a m' Ha. right. by exists m'.
Qed.
Lemma models_heap k A n o : models k A → next k ≤ n → models (set_heap n o k) A.
Proof.
  intros [[S1 S2 S3 S4] HE HN HT HA HR] Hn. split; [|done..]. split; cbn; [|lia|done|].
  - eapply fs_frame; [exact S1|done..|]. cbn. intros a m' Ha. right. by exists m'.
  - intros a m Ha. specialize (S4 a m Ha). lia.
Qed.

Lemma set_root_to_wp v k Q : Q tt (set_root v k) → wp (set_root_to v) Q k.
Proof.
  intros HQ. assert (g_root_vnode k = v → Q tt k) as HQ'.
  { intros <-. replace (set_root (g_root_vnode k) k) with k in HQ by (by destruct k). done. }
  unfold set_root_to, vfs_get_root, vfs_set_root. wp_steps. destruct (Z.eqb_spec (g_root_vnode k) 0); [by wp_steps|].
  destruct (Z.eqb_spec (g_root_vnode k) v); cbn [negb]; wp_steps; auto.
Qed.

Lemma models_fresh k A : models k A → mounts k !! next k = None.
Proof. intros HM. destruct (mounts k !! next k) as [m|] eqn:E; [|done]. pose proof (sd_fresh _ (md_sound _ _ HM) _ _ E). lia. Qed.

(** The new mount object, before the operations of the file system. *)
Lemma new_mount_sound k A mp m n o :
  models k A → mp = next k → next k < n → m_type m ≠ 0 → is_Some (types (m_type m)) → m_fs_data m = 0 →
  let k' := set_mounts (<[mp := m]> (mounts k)) (set_heap n o k) in sound k' ∧ beside mp k k'.
Proof.
  intros HM -> Hn Ht Hft Hd. destruct HM as [[S1 S2 S3 S4] _ _ _ _ _]. cbn zeta. split.
  - split; cbn; [|lia| |].
    + eapply fs_frame; [exact S1|done..|cbn; lia|]. cbn. intros a m' [[<- <-]|[_ Ha]]%lookup_insert_Some; [by left|]. right. by exists m'.
    + intros a ma [[<- <-]|[_ Ha]]%lookup_insert_Some; [done|eauto].
    + intros a ma [[<- <-]|[_ Ha]]%lookup_insert_Some; [lia|]. specialize (S4 a ma Ha). lia.
  - split; cbn; [done|done|lia|]. intros a Ha. by rewrite lookup_insert_ne.
Qed.

Lemma do_mount_wp k A fst source t opts :
  models k A → fst = 0 ∨ is_Some (types fst) →
  wp (mount_do_mount fst source (Some t) opts) (λ r k', ∃ A', spec A (CMount fst source (Some t) opts) r VNone A' ∧ models k' A') k.
Proof.
  intros HM Hfst. unfold mount_do_mount, spec. destruct (Z.eqb_spec fst 0) as [->|H0]; [wp_step; by exists A|].
  destruct Hfst as [|[ft Hft]]; [done|]. destruct (find_mount_run k A t HM) as (mp0 & E & Hf). wp_step. eapply wp_eq; [exact E|].
  destruct (entry_at t (a_table A)) as [e|] eqn:Ee.
  { destruct Hf as [Hmp _]. rewrite (proj2 (Z.eqb_neq mp0 0)) by done. cbn [negb]. wp_step. by exists A. }
  subst mp0. cbn [negb Z.eqb]. wp_step.
  assert (Hfail : ∀ r k', r ≠ 0 → models k' A → ∃ A', (VNone = VNone ∧ ((r ≠ 0 ∧ A' = A) ∨ (r = 0 ∧ ∃ v, A' = mk_abs (a_table A ++ [mk_entry t (default [] source) fst v]) (if decide (t = ROOT) then v else a_root A)))) ∧ models k' A').
  { intros r k' Hr HM'. exists A. by split; [split; [|left]|]. }
  apply kalloc_wp; intros o1; cbn beta; [cbn [Z.eqb]; wp_step; apply Hfail; [done|]; by apply models_heap|].
  pose proof (sd_next _ (md_sound _ _ HM)) as Hnext. rewrite (proj2 (Z.eqb_neq (next k) 0)) by lia.
  wp_step. apply kalloc_wp; intros o2; cbn beta; wp_step; apply kalloc_wp; intros o3; cbn [next set_heap];
    [cbn [Z.eqb orb]; wp_step; apply Hfail; [done|]; apply (models_heap k); [done|lia]..| |].
  { cbn [Z.eqb]. rewrite orb_true_r. wp_step. apply Hfail; [done|]. apply (models_heap k); [done|lia]. }
  rewrite !(proj2 (Z.eqb_neq _ 0)) by lia. cbn [orb]. wp_step. apply wp_modify. cbn [mounts set_heap].
  set (m0 := mk_mount fst 0 (default [] source) t 0).
  destruct (new_mount_sound k A (next k) m0 (next k + 1 + 1 + 1) o3) as [HS1 HB1]; [done|done|lia|done|by exists ft|done|].
  match goal with |- wp _ _ ?kk => change kk with (set_mounts (<[next k := m0]> (mounts k)) (set_heap (next k + 1 + 1 + 1) o3 k)) end.
  cbn zeta in HS1, HB1. set (k1 := set_mounts _ (set_heap _ _ _)) in *.
  assert (Hm1 : mounts k1 !! next k = Some m0) by apply lookup_insert_eq. clearbody k1.
  wp_step. eapply wp_mono; [by apply (mount_ops_wp fst ft (next k) m0)|]. cbn beta. intros r k2 [Hinv2 Hown2].
  assert (HS2 : sound k2) by (eapply own_sound; [apply root_and_data_set_type|by eexists|done..]).
  assert (HB2 : beside (next k) k k2).
  { destruct HB1, Hown2. split; [congruence|congruence|lia|]. intros a Ha. by rewrite own_other0, bs_other0. }
  destruct (own_self _ _ _ _ Hown2 m0 Hm1) as (m2 & Hm2 & v & d & Em2). clear Hown2 HB1 HS1 Hm1.
  destruct (Z.eqb_spec r 0) as [->|Hr]; cbn [negb].
  - wp_step. apply wp_modify. wp_step. eapply get_mount_wp; [exact Hm2|].
    pose proof (models_listed k A (next k) m2 k2 HM (models_fresh k A HM) HS2 HB2 Hm2) as HM2. rewrite Em2 in HM2. specialize (HM2 Ee). cbn in HM2.
    wp_step. eapply wp_mono with (P := λ _ k3, ∃ A', (True ∧ A' = mk_abs (a_table A ++ [mk_entry t (default [] source) fst v]) (if decide (t = ROOT) then v else a_root A)) ∧ models k3 A').
    { unfold streq. case_decide as Hd.
      - rewrite bool_decide_true by done. subst m2. apply set_root_to_wp. eexists. split; [done|]. by eapply models_set_root in HM2.
      - rewrite bool_decide_false by done. wp_step. by eexists. }
    intros _ k3 (A' & [_ ->] & HM3). wp_step. eexists. split; [split; [done|]|exact HM3]. right. split; [done|]. by exists v.
  - wp_step. apply wp_modify. wp_step. apply Hfail; [done|]. apply (models_freed k A); [done|by eapply models_fresh|done..].
Qed.

Lemma set_root_back k : set_root (g_root_vnode k) k = k.
Proof. by destruct k. Qed.

Lemma remove_mount_wp k A mp m :
  models k A → mounts k !! mp = Some m →
  wp (remove_mount mp) (λ _ k', models k' (mk_abs (filter (λ e, en_target e ≠ m_target m) (a_table A))
    (if decide (a_root A = m_root_vnode m) then 0 else a_root A)) ∧ g_mounts k' = list_difference (g_mounts k) [mp]) k.
Proof.
  intros HM Hm. unfold remove_mount, vfs_get_root, vfs_set_root, free_mount. wp_step. eapply get_mount_wp; [done|]. wp_steps.
  pose proof (md_root _ _ HM) as HR. destruct (Z.eqb_spec (g_root_vnode k) (m_root_vnode m)) as [E|E].
  - rewrite decide_True by congruence. wp_steps. cbn [mounts g_mounts set_root set_mount_list]. split; [|done].
    pose proof (models_remove _ _ mp m (models_set_root k A 0 HM) Hm) as H. exact H.
  - rewrite decide_False by congruence. wp_steps. split; [|done]. exact (models_remove k A mp m HM Hm).
Qed.

Lemma do_unmount_wp k A t : models k A →
  wp (mount_do_unmount (Some t)) (λ r k', ∃ A', spec A (CUnmount (Some t)) r VNone A' ∧ models k' A') k.
Proof.
  intros HM. unfold mount_do_unmount. wp_step. unfold spec.
  assert (H : ∀ l tbl, Forall2 (λ mp e, entry_of <$> mounts k !! mp = Some e) l tbl →
    wp (unmount_from t l) (λ r k', ∃ A', (VNone = VNone ∧ match entry_at t tbl with
      | None => r = ENOENT ∧ A' = A
      | Some e => (r ≠ 0 ∧ A' = A) ∨ (r = 0 ∧ A' = mk_abs (filter (λ e, en_target e ≠ t) (a_table A)) (if decide (a_root A = en_root e) then 0 else a_root A))
      end) ∧ models k' A') k); [|by apply H, HM].
  induction 1 as [|mp e l tbl He HF IH]; [cbn [unmount_from]; wp_step; by exists A|]. unfold entry_at. cbn [unmount_from List.find].
  destruct (mounts k !! mp) as [m|] eqn:Hm; [|done]. injection He as <-. wp_step. eapply get_mount_wp; [done|]. cbn [en_target entry_of].
  destruct (streq (m_target m) t) eqn:Et; [|exact IH]. apply streq_true in Et as <-.
  wp_step. eapply wp_mono; [apply (call_unmount_wp mp m); [apply HM|done]|]. cbn beta. intros r k1 [Hinv Hown].
  pose proof (own_models _ _ _ _ _ HM Hm Hinv Hown) as HM1. destruct (own_self _ _ _ _ Hown m Hm) as (m1 & Hm1 & d & ->).
  destruct (Z.eqb_spec r 0) as [->|Hr]; cbn [negb].
  - wp_step. eapply wp_mono; [by apply (remove_mount_wp k1 A mp (with_data d m))|]. cbn beta. intros _ k2 [HM2 _]. wp_step.
    eexists. split; [|exact HM2]. split; [done|]. right. done.
  - wp_step. exists A. split; [|done]. split; [done|]. by left.
Qed.

Lemma cleanup_wp fuel : ∀ k A, models k A → (length (g_mounts k) <= fuel)%nat →
  wp (cleanup fuel) (λ r k', r = 0 ∧ models k' (mk_abs [] (if decide (a_root A ∈ en_root <$> a_table A) then 0 else a_root A))) k.
Proof.
  induction fuel as [|fuel IH]; intros k A HM Hl; cbn [cleanup]; wp_step; wp_step; cbn beta; pose proof (md_entries _ _ HM) as HE; (destruct (g_mounts k) as [|mp l] eqn:El; [|]).
  - wp_step. split; [done|]. apply Forall2_nil_inv_l in HE. destruct A as [tbl root]. cbn in *. by subst.
  - cbn in Hl. lia.
  - wp_step. split; [done|]. apply Forall2_nil_inv_l in HE. destruct A as [tbl root]. cbn in *. by subst.
  - inversion HE as [|? e ? tbl He HE' E1 Etbl]; subst. destruct (mounts k !! mp) as [m|] eqn:Hm; [|done]. injection He as <-.
    wp_step. eapply wp_mono; [apply (call_unmount_wp mp m); [apply HM|done]|]. cbn beta. intros r k1 [Hinv Hown].
    pose proof (own_models _ _ _ _ _ HM Hm Hinv Hown) as HM1. destruct (own_self _ _ _ _ Hown m Hm) as (m1 & Hm1 & d & ->).
    wp_step. eapply wp_mono; [by apply (remove_mount_wp k1 A mp (with_data d m))|]. cbn beta. intros _ k2 [HM2 HL2].
    rewrite (own_list _ _ _ _ Hown), El in HL2. pose proof (md_nodup _ _ HM) as HN. rewrite El in HN.
    pose proof (list_difference_split [] l mp HN) as Hdiff. cbn [app] in Hdiff. rewrite Hdiff in HL2.
    pose proof (md_targets _ _ HM) as HT. rewrite <- Etbl, fmap_cons in HT. apply NoDup_cons in HT as [HT _].
    assert (Ef : filter (λ e, en_target e ≠ m_target (with_data d m)) (a_table A) = tbl).
    { rewrite <- Etbl, filter_cons_False by (cbn; naive_solver). apply filter_id, Forall_forall. intros e He Ee. apply HT.
      cbn in *. rewrite <- Ee. by apply list_elem_of_fmap_2. }
    rewrite Ef in HM2. eapply wp_mono; [apply (IH k2 _ HM2); rewrite HL2; cbn in Hl; lia|]. cbn beta. intros r' k3 [-> HM3]. split; [done|].
    cbn [a_table a_root m_root_vnode with_data] in HM3. rewrite fmap_cons. cbn [en_root entry_of].
    replace (if decide (a_root A ∈ m_root_vnode m :: (en_root <$> tbl)) then 0 else a_root A) with
      (if decide ((if decide (a_root A = m_root_vnode m) then 0 else a_root A) ∈ en_root <$> tbl) then 0 else
        (if decide (a_root A = m_root_vnode m) then 0 else a_root A)); [done|].
    repeat case_decide; try done; set_solver.
Qed.

Lemma sync_from_wp k A : models k A → ∀ l, (∀ mp, mp ∈ l → is_Some (mounts k !! mp)) →
  wp (sync_from l) (λ _ k', models k' A) k.
Proof.
  intros HM l. revert k HM. induction l as [|mp l IH]; intros k HM Hl; cbn [sync_from]; [by wp_step|].
  destruct (Hl mp ltac:(constructor)) as [m Hm]. wp_step. eapply wp_mono; [apply (call_sync_wp mp m); [apply HM|done]|]. cbn beta. intros r k1 [Hinv Hown].
  pose proof (own_models _ _ _ _ _ HM Hm Hinv Hown) as HM1. destruct (negb (r =? 0)); [by wp_step|]. apply IH; [done|].
  intros a Ha. destruct (decide (a = mp)) as [->|Hne]; [destruct (own_self _ _ _ _ Hown m Hm) as (m1 & ? & _); by exists m1|].
  rewrite (own_other _ _ _ _ Hown) by done. apply Hl. by constructor.
Qed.

(** A call that keeps the store. *)
Lemma lookup_run k A t : models k A → ∃ mp, mount_lookup (Some t) true k = Some (match entry_at t (a_table A) with
  | Some e => (ERR_SUCCESS, Some mp) | None => (ENOENT, None) end, k) ∧
  match entry_at t (a_table A) with Some e => ∃ m, mounts k !! mp = Some m ∧ entry_of m = e | None => True end.
Proof.
  intros HM. destruct (find_mount_run k A t HM) as (mp & E & H). exists mp. unfold mount_lookup. cbn [negb].
  erewrite bind_run by exact E. destruct (entry_at t (a_table A)).
  - destruct H as [H0 H]. split; [by rewrite (proj2 (Z.eqb_neq mp 0))|done].
  - subst mp. by split.
Qed.

Lemma mount_call_wp k A c : models k A → allowed c →
  wp (run c) (λ r k', ∃ y A', spec A c r.1 y A' ∧ seen k' r.2 y ∧ models k' A') k.
Proof.
  intros HM Hall. destruct c as [fst source [t|] opts|[t|]|[t|]|[t|]|[t|]| | |]; cbn [run spec spec_at allowed] in *.
  - wp_step. eapply wp_mono; [by apply do_mount_wp|]. cbn beta. intros r k' (A' & Hs & HM'). wp_step. exists VNone, A'. done.
  - wp_step. unfold mount_do_mount, mount_do_unmount, mount_lookup, mount_lookup_vnode, mount_stat. wp_step. wp_step. by exists VNone, A.
  - wp_step. eapply wp_mono; [by apply do_unmount_wp|]. cbn beta. intros r k' (A' & Hs & HM'). wp_step. exists VNone, A'. done.
  - wp_step. unfold mount_do_mount, mount_do_unmount, mount_lookup, mount_lookup_vnode, mount_stat. wp_step. wp_step. by exists VNone, A.
  - destruct (lookup_run k A t HM) as (mp & E & H). wp_step. eapply wp_eq; [exact E|]. destruct (entry_at t (a_table A)) as [e|].
    + destruct H as (m & Hm & <-). wp_step. exists (VEntry (entry_of m)), A. cbn. by rewrite Hm.
    + wp_step. by exists VNone, A.
  - wp_step. unfold mount_do_mount, mount_do_unmount, mount_lookup, mount_lookup_vnode, mount_stat. wp_step. wp_step. by exists VNone, A.
  - destruct (lookup_run k A t HM) as (mp & E & H). wp_step. unfold mount_lookup_vnode. cbn [negb]. wp_step. eapply wp_eq; [exact E|].
    destruct (entry_at t (a_table A)) as [e|]; [|wp_step; wp_step; by exists VNone, A]. destruct H as (m & Hm & <-).
    wp_step. eapply get_mount_wp; [done|]. cbn [en_root entry_of]. destruct (m_root_vnode m =? 0); wp_step; wp_step; [by exists VNone, A|].
    by exists (VVnode (m_root_vnode m)), A.
  - wp_step. unfold mount_do_mount, mount_do_unmount, mount_lookup, mount_lookup_vnode, mount_stat. wp_step. wp_step. by exists VNone, A.
  - destruct (find_mount_run k A t HM) as (mp & E & H). wp_step. unfold mount_stat. cbn [negb]. wp_step. eapply wp_eq; [exact E|].
    destruct (entry_at t (a_table A)) as [e|]; [|subst mp; cbn [Z.eqb]; wp_step; wp_step; by exists VNone, A].
    destruct H as [H0 (m & Hm & <-)]. rewrite (proj2 (Z.eqb_neq mp 0)) by done. wp_step. eapply get_mount_wp; [done|].
    destruct (sd_types _ (md_sound _ _ HM) mp m Hm) as (Ht & ft & Hft). wp_step. eapply wp_eq; [by apply type_op_run|]. wp_step. wp_step.
    eexists (VStat _), A. split; [|split; [reflexivity|done]]. cbn. by rewrite Hft.
  - wp_step. unfold mount_do_mount, mount_do_unmount, mount_lookup, mount_lookup_vnode, mount_stat. wp_step. wp_step. by exists VNone, A.
  - wp_step. unfold mount_list. cbn [negb]. wp_step. wp_step. cbn beta. pose proof (md_entries _ _ HM) as HE.
    destruct (Nat.eqb_spec (length (g_mounts k)) 0) as [El|El].
    + wp_step. wp_step. cbn [Z.eqb andb negb]. wp_step. wp_step. exists (VList (a_table A)), A. split; [by split; [|right]|done].
    + wp_step. apply kalloc_wp; intros o; cbn beta.
      * cbn [Z.eqb andb negb]. wp_step. wp_step. exists VNone, A. split; [|split; [done|by apply models_heap]].
        split; [done|]. left. split_and!; [done|done|]. intros Ht. apply El. apply Forall2_length in HE. rewrite HE, Ht. done.
      * pose proof (sd_next _ (md_sound _ _ HM)). rewrite (proj2 (Z.eqb_neq (next k) 0)) by lia. cbn [andb]. wp_step. wp_step.
        exists (VList (a_table A)), A. split; [by split; [|right]|]. split; [exact HE|]. apply models_heap; [done|lia].
  - wp_step. unfold mount_sync. wp_step. wp_step. cbn beta. eapply wp_mono; [apply (sync_from_wp k A HM)|].
    + intros mp Hin. apply list_elem_of_lookup in Hin as [i Hi]. destruct (Forall2_lookup_l _ _ _ _ _ (md_entries _ _ HM) Hi) as (e & _ & He).
      by destruct (mounts k !! mp) as [m|]; [exists m|].
    + cbn beta. intros r k' HM'. wp_step. by exists VNone, A.
  - wp_step. unfold mount_cleanup. wp_step. wp_step. cbn beta. eapply wp_mono; [by apply (cleanup_wp _ k A HM)|]. cbn beta.
    intros r k' [-> HM']. wp_step. eexists VNone, _. split; [|split; [done|exact HM']]. done.
Qed.

Lemma mount_init_wp k : inv k → mounts k = ∅ → 0 < next k → wp mount_init (λ r k', r = 0 ∧ models k' (mk_abs [] (g_root_vnode k))) k.
Proof.
  intros Hinv Hm Hn. unfold mount_init. wp_steps. split; [done|]. split; cbn; rewrite ?Hm; try done; try constructor; cbn; try done.
  - eapply fs_frame; [exact Hinv|done..|]. cbn. intros a m'. by rewrite Hm.
  - rewrite Hm. intros a m Ha. done.
  - rewrite Hm. intros a m Ha. done.
Qed.

End laws.
End mount.

(** ** Example: a file system whose root is always the vnode 9 *)

Definition ex_mount (mp : Z) : cmd (kernel unit) Z := m ← get_mount mp; put_mount mp (with_root 9 (with_data 77 m));; mret 0.
Definition ex_fs : fs_type (kernel unit) := mk_fs_type (Some (cstr "ex")) (Some (λ mp _, ex_mount mp)) None None None.
Definition ex_types (t : Z) : option (fs_type (kernel unit)) := if t =? 5 then Some ex_fs else None.

Instance ex_laws : FsTypes ex_types (λ _, True).
Proof.
  split; [done|..]; unfold ex_types; intros t ft op mp m; intros; (destruct (Z.eqb_spec t 5); [simplify_eq|done]).
  cbn in *. simplify_eq. unfold ex_mount. wp_step. eapply get_mount_wp; [done|]. wp_step. apply wp_modify. wp_step. split; [done|].
  split; cbn; [done|done|lia| |].
  - intros a Ha. by rewrite lookup_insert_ne.
  - intros m0 Hm0. assert (m0 = m) as -> by congruence. eexists. split; [apply lookup_insert_eq|]. by exists 9, 77.
Qed.

Definition ex_boot : kernel unit := mk_kernel ∅ ∅ ∅ [] 0 100 [] tt.
Definition ex_state : kernel unit := default ex_boot (snd <$> mount_init ex_boot).
Lemma ex_start : models ex_types (λ _, True) ex_state (mk_abs [] 0).
Proof.
  assert (H : wp mount_init (λ _ k, models ex_types (λ _, True) k (mk_abs [] 0)) ex_boot).
  { eapply wp_mono; [by apply (mount_init_wp ex_types (λ _, True))|]. by intros r k' [_ H]. }
  exact H.
Qed.

End Mount.
