(* ===== verification/RamfsTree.v ===== *)
(** * Trees of the RAM file system and their mounts

    [ramfs_tree_release] takes a whole tree apart and returns; with it the RAM
    file system keeps the promise that the mount table of [Mount.v] asks for
    ([src/kernel/fs/ramfs/ramfs.c]), and mounting it as [/] gives the empty root
    directory that [src/kernel/core/kinit.c] boots from. *)

From S2P Require Import Prelude Vnode Objects Ramfs Vfs Mount.
Import Vnode Objects Ramfs Mount.

Module RamfsTree.

Section tree.
Context {D : Type}.
Abbreviation K := (kernel (ramfs D)).
Implicit Types (k : K) (n : ramfs_node D) (N : gmap Z (ramfs_node D)).

(** ** Trees *)

(** The nodes of the siblings from [c] on and of all their trees. *)
Inductive forest N : Z → list Z → Prop :=
  | forest_nil : forest N 0 []
  | forest_cons c n l1 l2 : c ≠ 0 → N !! c = Some n → forest N (n_children n) l1 → forest N (n_sibling n) l2 →
      forest N c (c :: l1 ++ l2).
Record is_tree N (root : Z) (l : list Z) : Prop := {
  it_root : root ≠ 0;
  it_forest : ∃ n, N !! root = Some n ∧ forest N (n_children n) l;
  it_nodup : NoDup (root :: l)
}.

Lemma forest_frame N N' c l : forest N c l → (∀ a, a ∈ l → N' !! a = N !! a) → forest N' c l.
Proof.
  induction 1 as [|c n l1 l2 H0 Hn H1 IH1 H2 IH2]; intros HN; [constructor|]. apply (forest_cons _ c n); [done| | |].
  - by rewrite HN by constructor.
  - apply IH1. intros a Ha. apply HN. set_solver.
  - apply IH2. intros a Ha. apply HN. set_solver.
Qed.
Lemma forest_elem N c l a : forest N c l → a ∈ l → a ≠ 0 ∧ is_Some (N !! a).
Proof.
  induction 1 as [|c n l1 l2 H0 Hn H1 IH1 H2 IH2]; [by intros ?%elem_of_nil|].
  intros [->|[Ha|Ha]%elem_of_app]%elem_of_cons; [|auto|auto]. split; [done|by eexists].
Qed.
Lemma forest_det N c l l' : forest N c l → forest N c l' → l = l'.
Proof.
  intros H. revert l'. induction H as [|c n l1 l2 H0 Hn H1 IH1 H2 IH2]; intros l' H'.
  - inversion H'; subst; done.
  - inversion H' as [|? n' k1 k2 ? Hn' Hk1 Hk2]; subst; [done|]. assert (n' = n) as -> by congruence. by rewrite (IH1 _ Hk1), (IH2 _ Hk2).
Qed.
Lemma forest_size N c l : forest N c l → NoDup l → (length l <= size N)%nat.
Proof.
  intros Hf Hnd. rewrite <- (size_list_to_set (C := gset Z)) by done. rewrite <- (size_dom (D := gset Z) N).
  apply subseteq_size. intros a Ha%elem_of_list_to_set. apply elem_of_dom. by eapply forest_elem.
Qed.
Lemma is_tree_frame N N' root l : is_tree N root l → (∀ a, a ∈ root :: l → N' !! a = N !! a) → is_tree N' root l.
Proof.
  intros [H0 (n & Hn & Hf) Hnd] HN. split; [done| |done]. exists n. split; [rewrite HN by constructor; done|].
  eapply forest_frame; [done|]. intros a Ha. apply HN. by constructor.
Qed.
Lemma is_tree_size N root l : is_tree N root l → (S (length l) <= size N)%nat.
Proof.
  intros [H0 (n & Hn & Hf) Hnd]. change (S (length l)) with (length (root :: l)). rewrite <- (size_list_to_set (C := gset Z)) by done.
  rewrite <- (size_dom (D := gset Z) N). apply subseteq_size. intros a [->|Ha]%elem_of_list_to_set%elem_of_cons; apply elem_of_dom; [by exists n|by eapply forest_elem].
Qed.

(** ** What no operation on nodes touches *)

Definition frame k k' : Prop :=
  mounts k' = mounts k ∧ g_mounts k' = g_mounts k ∧ g_root_vnode k' = g_root_vnode k ∧ next k <= next k' ∧
  roots (fs k') = roots (fs k) ∧ files k' = files k.
Definition keeps {A} (m : cmd K A) : Prop := ∀ k r k', m k = Some (r, k') → frame k k'.

Lemma frame_refl k : frame k k.
Proof. split_and!; first [done|lia]. Qed.
Lemma frame_trans k k1 k2 : frame k k1 → frame k1 k2 → frame k k2.
Proof. intros (? & ? & ? & ? & ? & ?) (? & ? & ? & ? & ? & ?). split_and!; (congruence || lia). Qed.
Lemma keeps_ret {A} (a : A) : keeps (mret a).
Proof. intros k r k' [= <- <-]. apply frame_refl. Qed.
Lemma keeps_bind {A B} (m : cmd K A) (f : A → cmd K B) : keeps m → (∀ a, keeps (f a)) → keeps (m ≫= f).
Proof. intros Hm Hf k r k' (a & k1 & E1 & E2)%bind_Some. eapply frame_trans; [by eapply Hm|by eapply Hf]. Qed.
Lemma keeps_read {A} (f : K → option A) : keeps (cread f).
Proof. intros k r k'. unfold cread. destruct (f k); [|done]. intros [= <- <-]. apply frame_refl. Qed.
Lemma keeps_modify (f : K → K) : (∀ k, frame k (f k)) → keeps (cmodify f).
Proof. intros Hf k r k' [= <- <-]. apply Hf. Qed.
Lemma keeps_kalloc : keeps (kalloc : cmd K Z).
Proof. intros k r k'. unfold kalloc. destruct (oracle k) as [|[|] o]; intros [= <- <-]; split_and!; first [done|cbn; lia]. Qed.
Lemma keeps_undef {A} : keeps (A := A) cundef.
Proof. done. Qed.
Create HintDb keeps.
#[local] Hint Resolve keeps_ret keeps_kalloc keeps_undef : keeps.
Ltac keeps_step :=
  match goal with
  | |- keeps (mbind _ _) => apply keeps_bind; [|intros]
  | |- keeps (if _ then _ else _) => case_match
  | |- keeps (match _ with _ => _ end) => case_match
  | |- keeps (cread _) => apply keeps_read
  | |- keeps (cmodify _) => apply keeps_modify; intros; split_and!; first [done|cbn; lia]
  | |- keeps _ => progress auto with keeps
  end.

Lemma keeps_destroy vn : keeps (ramfs_destroy_vnode vn : cmd K unit).
Proof. unfold ramfs_destroy_vnode, ramfs_node_free, get_node, put_node, free_node, get_vnode, put_vnode. repeat keeps_step. Qed.
#[local] Hint Resolve keeps_destroy : keeps.
Lemma keeps_release a : keeps (ramfs_node_release a : cmd K unit).
Proof.
  unfold ramfs_node_release, vnode_unref, ramfs_node_free, destroy_of, get_node, put_node, free_node, get_vnode, put_vnode, free_vnode.
  repeat keeps_step. match goal with H : (if _ then _ else _) = Some _ |- _ => case_match; simplify_eq end. apply keeps_destroy.
Qed.
Lemma keeps_tree_release fuel : ∀ a, keeps (tree_release fuel a : cmd K unit).
Proof.
  induction fuel as [|fuel IH]; intros a; cbn [tree_release]; [apply keeps_undef|]. unfold get_node, put_node.
  repeat keeps_step; try apply IH; apply keeps_release.
Qed.

(** ** Taking a tree apart *)

(** A node that somebody holds stays without its links and its cache. *)
Definition detached n n' : Prop := ∃ p s, n' = with_cache 0 (with_children 0 (with_sibling s (with_parent p n))).

(** The nodes [S] were released, the rest is as it was. *)
Record torn (S : list Z) k k' : Prop := {
  tn_nodes a : a ∉ S → nodes (fs k') !! a = nodes (fs k) !! a;
  tn_vnodes v : (∀ a na, a ∈ S → nodes (fs k) !! a = Some na → n_vnode_cache na = v → v = 0) → vnodes k' !! v = vnodes k !! v;
  tn_gone a na : a ∈ S → nodes (fs k) !! a = Some na →
    if held k na then (∃ na', nodes (fs k') !! a = Some na' ∧ detached na na') ∧
                      vnodes k' !! n_vnode_cache na = (λ v, with_refcnt (vn_refcnt v - 1) v) <$> vnodes k !! n_vnode_cache na
    else nodes (fs k') !! a = None ∧ (n_vnode_cache na ≠ 0 → vnodes k' !! n_vnode_cache na = None)
}.
(** The nodes of [S] and their cached vnodes point at each other. *)
Definition caches_ok (S : list Z) k : Prop := ∀ a na, a ∈ S → nodes (fs k) !! a = Some na → cache_ok k a na.

(** Two nodes do not share a vnode. *)
Lemma caches_differ k a b na nb :
  cache_ok k a na → cache_ok k b nb → a ≠ b → n_vnode_cache na = n_vnode_cache nb → n_vnode_cache na = 0.
Proof.
  intros Ha Hb Hne E. destruct (decide (n_vnode_cache na = 0)) as [|H]; [done|].
  destruct (Ha H) as (v & Hv & _ & Hd & _). rewrite E in H. destruct (Hb H) as (w & Hw & _ & Hd' & _). congruence.
Qed.

Lemma release_torn k c n :
  nodes (fs k) !! c = Some n → c ≠ 0 → n_children n = 0 → cache_ok k c n → wp (ramfs_node_release c) (λ _ k', torn [c] k k') k.
Proof.
  intros Hn H0 Hch Hok. eapply wp_mono; [by apply (node_release_wp k c n)|]. cbn beta. intros _ k' [_ H]. destruct (held k n) eqn:Eh.
  - destruct H as [HN HV]. split.
    + intros a Ha%not_elem_of_cons. rewrite HN. by rewrite lookup_insert_ne by naive_solver.
    + intros v Hv. rewrite HV. destruct (decide (v = n_vnode_cache n)) as [->|]; [|by rewrite lookup_alter_ne].
      assert (E0 : n_vnode_cache n = 0) by (apply (Hv c n); [by constructor|done|done]).
      exfalso. unfold held in Eh. rewrite E0 in Eh. by destruct (vnodes k !! 0).
    + intros a na ->%list_elem_of_singleton Hna. assert (na = n) as -> by congruence. rewrite Eh, HN, HV, lookup_insert_eq, lookup_alter_eq.
      split; [|done]. eexists. split; [done|]. exists (n_parent n), (n_sibling n). rewrite <- Hch. by destruct n.
  - destruct H as [HN HV]. split.
    + intros a Ha%not_elem_of_cons. rewrite HN. by rewrite lookup_delete_ne by naive_solver.
    + intros v Hv. rewrite HV. destruct (Z.eqb_spec (n_vnode_cache n) 0) as [|Hc]; [done|].
      destruct (decide (v = n_vnode_cache n)) as [->|]; [|by rewrite lookup_delete_ne].
      exfalso. apply Hc, (Hv c n); [by constructor|done|done].
    + intros a na ->%list_elem_of_singleton Hna. assert (na = n) as -> by congruence. rewrite Eh, HN, lookup_delete_eq. split; [done|].
      intros Hc. rewrite HV, (proj2 (Z.eqb_neq _ 0)) by done. by rewrite lookup_delete_eq.
Qed.

(** The vnode of a node outside the trees that went is as it was. *)
Lemma torn_vnode S k k' b nb : caches_ok S k → torn S k k' → cache_ok k b nb → b ∉ S → n_vnode_cache nb ≠ 0 →
  vnodes k' !! n_vnode_cache nb = vnodes k !! n_vnode_cache nb.
Proof.
  intros HS HT Hb Hnin H0. apply (tn_vnodes _ _ _ HT). intros a na Ha Hna E.
  apply (caches_differ k b a nb na); [done|by apply HS|congruence|done].
Qed.
Lemma torn_cache_ok S k k' b nb : caches_ok S k → torn S k k' → cache_ok k b nb → b ∉ S → cache_ok k' b nb.
Proof. intros HS HT Hb Hnin H0. rewrite (torn_vnode S k k' b nb) by done. by apply Hb. Qed.
Lemma torn_held S k k' b nb : caches_ok S k → torn S k k' → cache_ok k b nb → b ∉ S → held k' nb = held k nb.
Proof.
  intros HS HT Hb Hnin. unfold held. destruct (Z.eqb_spec (n_vnode_cache nb) 0) as [E|E].
  - rewrite E. by destruct (vnodes k' !! 0), (vnodes k !! 0).
  - by rewrite (torn_vnode S k k' b nb).
Qed.

(** [k2] is [k] with other links in the nodes. *)
Definition relinked n n' : Prop := ∃ p s c, n' = with_children c (with_sibling s (with_parent p n)).
Lemma relinked_refl n : relinked n n.
Proof. exists (n_parent n), (n_sibling n), (n_children n). by destruct n. Qed.
Lemma relinked_cache n n' : relinked n n' → n_vnode_cache n' = n_vnode_cache n.
Proof. by intros (p & s & c & ->). Qed.
Lemma relinked_detached n n1 n' : relinked n n1 → detached n1 n' → detached n n'.
Proof. intros (p & s & c & ->) (p' & s' & ->). by exists p', s'. Qed.
Record links_changed k k2 : Prop := {
  lc_vnodes : vnodes k2 = vnodes k;
  lc_nodes a na : nodes (fs k) !! a = Some na → ∃ na', nodes (fs k2) !! a = Some na' ∧ relinked na na'
}.
Lemma links_held k k2 n n' : links_changed k k2 → relinked n n' → held k2 n' = held k n.
Proof. intros [E _] Hr. unfold held. by rewrite E, (relinked_cache _ _ Hr). Qed.
Lemma links_cache_ok k k2 a n n' : links_changed k k2 → relinked n n' → cache_ok k a n → cache_ok k2 a n'.
Proof. intros [E _] Hr. unfold cache_ok. by rewrite E, (relinked_cache _ _ Hr). Qed.
Lemma links_caches_ok S k k2 : links_changed k k2 → (∀ a, a ∈ S → is_Some (nodes (fs k) !! a)) → caches_ok S k → caches_ok S k2.
Proof.
  intros HL HS Hok a na2 Ha Hna2. destruct (HS a Ha) as [na Hna]. destruct (lc_nodes _ _ HL a na Hna) as (na' & Hna' & Hr).
  assert (na2 = na') as -> by congruence. by eapply links_cache_ok; [| |apply Hok].
Qed.

(** Two parts of a tree, one after the other. *)
Lemma torn_parts k k2 k3 k4 S1 S2 :
  links_changed k k2 → (∀ a, a ∈ S1 ++ S2 → is_Some (nodes (fs k) !! a)) → caches_ok (S1 ++ S2) k →
  (∀ a, a ∉ S1 ++ S2 → nodes (fs k2) !! a = nodes (fs k) !! a) → (∀ a, a ∈ S1 → a ∉ S2) →
  torn S1 k2 k3 → torn S2 k3 k4 → torn (S1 ++ S2) k k4.
Proof.
  intros HL HS Hok Hother Hd T1 T2. pose proof (links_caches_ok _ _ _ HL HS Hok) as Hok2.
  assert (Hok21 : caches_ok S1 k2) by (intros a na Ha; apply Hok2; set_solver).
  assert (Hin2 : ∀ a na, a ∈ S2 → nodes (fs k) !! a = Some na → ∃ na', nodes (fs k3) !! a = Some na' ∧ relinked na na' ∧ cache_ok k3 a na' ∧ held k3 na' = held k na).
  { intros a na Ha Hna. destruct (lc_nodes _ _ HL a na Hna) as (na' & Hna' & Hr).
    assert (Ha1 : a ∉ S1) by (intros ?; by eapply Hd). exists na'. split; [by rewrite (tn_nodes _ _ _ T1)|]. split; [done|].
    assert (cache_ok k2 a na') by (apply Hok2; [set_solver|done]).
    split; [by eapply torn_cache_ok|]. rewrite (torn_held S1 k2 k3 a) by done. by apply links_held. }
  assert (Hok32 : caches_ok S2 k3).
  { intros a na3 Ha Hna3. destruct (HS a ltac:(set_solver)) as [na Hna]. destruct (Hin2 a na Ha Hna) as (na' & Hna' & _ & Hc & _). assert (na3 = na') as -> by congruence. done. }
  split.
  - intros a Ha. rewrite (tn_nodes _ _ _ T2), (tn_nodes _ _ _ T1) by set_solver. by apply Hother.
  - intros v Hv. rewrite (tn_vnodes _ _ _ T2), (tn_vnodes _ _ _ T1); [by rewrite (lc_vnodes _ _ HL)| |].
    + intros a na2 Ha Hna2 E. destruct (HS a ltac:(set_solver)) as [na Hna]. destruct (lc_nodes _ _ HL a na Hna) as (na' & Hna' & Hr).
      apply (Hv a na); [set_solver|done|]. apply relinked_cache in Hr. congruence.
    + intros a na3 Ha Hna3 E. destruct (HS a ltac:(set_solver)) as [na Hna]. destruct (Hin2 a na Ha Hna) as (na' & Hna' & Hr & _).
      apply (Hv a na); [set_solver|done|]. apply relinked_cache in Hr. congruence.
  - intros a na [Ha|Ha]%elem_of_app Hna.
    + destruct (lc_nodes _ _ HL a na Hna) as (na' & Hna' & Hr). pose proof (tn_gone _ _ _ T1 a na' Ha Hna') as H.
      rewrite (links_held _ _ _ _ HL Hr), (relinked_cache _ _ Hr) in H. rewrite (tn_nodes _ _ _ T2) by (by apply Hd).
      assert (HV : n_vnode_cache na ≠ 0 → vnodes k4 !! n_vnode_cache na = vnodes k3 !! n_vnode_cache na).
      { intros H0. apply (tn_vnodes _ _ _ T2). intros b nb3 Hb Hnb3 E. destruct (HS b ltac:(set_solver)) as [nb Hnb].
        destruct (Hin2 b nb Hb Hnb) as (nb' & Hnb' & Hr' & _). assert (nb3 = nb') as -> by congruence. rewrite (relinked_cache _ _ Hr') in E.
        apply (caches_differ k a b na nb); [apply Hok; [set_solver|done]|apply Hok; [set_solver|done]|intros ->; by eapply Hd|done]. }
      rewrite (lc_vnodes _ _ HL) in H. destruct (held k na) eqn:Eh.
      * destruct H as [(n' & ? & ?) H]. rewrite HV.
        -- split; [|done]. exists n'. split; [done|]. by eapply relinked_detached.
        -- unfold held in Eh. intros E0. rewrite E0 in Eh. by destruct (vnodes k !! 0).
      * destruct H as [? H]. split; [done|]. intros Hc0. rewrite HV by done. by apply H.
    + destruct (Hin2 a na Ha Hna) as (na' & Hna' & Hr & Hc & Hh). pose proof (tn_gone _ _ _ T2 a na' Ha Hna') as H.
      rewrite Hh, (relinked_cache _ _ Hr) in H. destruct (held k na) eqn:Eh; [|done]. destruct H as [(n' & ? & ?) H]. split.
      * exists n'. split; [done|]. by eapply relinked_detached.
      * rewrite H. f_equal. rewrite <- (relinked_cache _ _ Hr).
        destruct (HS a ltac:(set_solver)) as [na0 Hna0]. rewrite (torn_vnode S1 k2 k3 a na'); [by rewrite (lc_vnodes _ _ HL)|done|done| | |].
        -- destruct (lc_nodes _ _ HL a na Hna) as (nb & Hnb & Hr2). rewrite (tn_nodes _ _ _ T1) in Hna' by (intros ?; by eapply Hd). apply Hok2; [set_solver|done].
        -- intros ?. by eapply Hd.
        -- rewrite (relinked_cache _ _ Hr). intros E0. unfold held in Eh. rewrite E0 in Eh. by destruct (vnodes k !! 0).
Qed.

Lemma torn_same S S' k k' : (∀ a, a ∈ S ↔ a ∈ S') → torn S k k' → torn S' k k'.
Proof.
  intros HS [H1 H2 H3]. split.
  - intros a Ha. apply H1. by rewrite HS.
  - intros v Hv. apply H2. intros a na Ha. apply Hv. by rewrite <- HS.
  - intros a na Ha. apply H3. by rewrite HS.
Qed.

(** Moving the first child out of a directory. *)
Lemma links_detach k node n c nc : nodes (fs k) !! node = Some n → nodes (fs k) !! c = Some nc → c ≠ node →
  links_changed k (set_nodes (<[c := with_parent 0 (with_sibling 0 nc)]> (<[node := with_children (n_sibling nc) n]> (nodes (fs k)))) k).
Proof.
  intros Hn Hc Hne. split; [done|]. cbn. intros a na Ha. destruct (decide (a = c)) as [->|].
  - rewrite lookup_insert_eq. assert (na = nc) as -> by congruence. eexists. split; [done|]. exists 0, 0, (n_children nc). by destruct nc.
  - rewrite lookup_insert_ne by done. destruct (decide (a = node)) as [->|].
    + rewrite lookup_insert_eq. assert (na = n) as -> by congruence. eexists. split; [done|]. exists (n_parent n), (n_sibling n), (n_sibling nc). by destruct n.
    + rewrite lookup_insert_ne by done. exists na. split; [done|]. apply relinked_refl.
Qed.

Lemma tree_release_wp fuel : ∀ k node n l,
  (length l < fuel)%nat → nodes (fs k) !! node = Some n → node ≠ 0 → forest (nodes (fs k)) (n_children n) l →
  NoDup (node :: l) → caches_ok (node :: l) k → wp (tree_release fuel node) (λ _ k', torn (node :: l) k k') k.
Proof.
  induction fuel as [|fuel IH]; intros k node n l Hl Hn H0 Hf Hnd Hok; [lia|]. cbn [tree_release].
  wp_step. eapply get_node_wp; [done|]. inversion Hf as [Ec|c nc l1 l2 Hc0 Hnc Hf1 Hf2 Ec]; subst.
  { rewrite (proj2 (Z.eqb_eq _ 0)) by done. apply (release_torn k node n); [done|done|done|]. apply Hok; [by constructor|done]. }
  rewrite (proj2 (Z.eqb_neq _ 0)) by done. set (c := n_children n) in *.
  apply NoDup_cons in Hnd as [Hnin [Hcnin Hnd]%NoDup_cons]. apply not_elem_of_cons in Hnin as [Hne Hnin].
  apply NoDup_app in Hnd as (Hnd1 & Hnd12 & Hnd2). cbn [length] in Hl. rewrite length_app in Hl.
  wp_step. eapply get_node_wp; [done|]. wp_step. apply wp_modify.
  wp_step. eapply get_node_wp; [cbn; by rewrite lookup_insert_ne|]. wp_step. apply wp_modify. cbn [nodes fs set_nodes set_fs].
  pose proof (links_detach k node n c nc Hn Hnc (not_eq_sym Hne)) as HL.
  set (k2 := set_nodes (<[c := _]> _) _). change (links_changed k k2) in HL.
  assert (Hother : ∀ a, a ≠ c → a ≠ node → nodes (fs k2) !! a = nodes (fs k) !! a) by (intros a ? ?; cbn; by rewrite !lookup_insert_ne).
  assert (Hc2 : nodes (fs k2) !! c = Some (with_parent 0 (with_sibling 0 nc))) by apply lookup_insert_eq.
  assert (Hn2 : nodes (fs k2) !! node = Some (with_children (n_sibling nc) n)) by (cbn; by rewrite lookup_insert_ne, lookup_insert_eq). clearbody k2.
  assert (Hall : ∀ a, a ∈ node :: c :: l1 ++ l2 → is_Some (nodes (fs k) !! a)).
  { intros a [->|Ha]%elem_of_cons; [by exists n|]. by eapply (forest_elem _ _ _ _ Hf). }
  assert (Hok2 : caches_ok (node :: c :: l1 ++ l2) k2) by (by apply (links_caches_ok _ k)).
  wp_step. eapply wp_mono; [apply (IH k2 c (with_parent 0 (with_sibling 0 nc)) l1)|].
  - lia.
  - done.
  - done.
  - eapply forest_frame; [exact Hf1|]. intros a Ha. apply Hother; set_solver.
  - constructor; [set_solver|done].
  - intros a na Ha. apply Hok2. set_solver.
  - cbn beta. intros _ k3 T1. assert (Hok3 : caches_ok (node :: l2) k3).
    { intros a na Ha Hna. rewrite (tn_nodes _ _ _ T1) in Hna by set_solver. eapply torn_cache_ok; [|exact T1| |set_solver].
      - intros b nb Hb. apply Hok2. set_solver.
      - apply Hok2; [set_solver|done]. }
    eapply wp_mono; [apply (IH k3 node (with_children (n_sibling nc) n) l2)|].
    + lia.
    + by rewrite (tn_nodes _ _ _ T1) by set_solver.
    + done.
    + eapply forest_frame; [exact Hf2|]. intros a Ha. rewrite (tn_nodes _ _ _ T1) by set_solver. apply Hother; set_solver.
    + constructor; [set_solver|done].
    + done.
    + cbn beta. intros _ k4 T2. apply (torn_same ((c :: l1) ++ (node :: l2))); [set_solver|].
      apply (torn_parts k k2 k3 k4); [done|intros a Ha; apply Hall; set_solver| |intros a Ha; apply Hother; set_solver|set_solver|done|done].
      intros a na Ha. apply Hok. set_solver.
Qed.

(** A tree whose nodes and vnodes fit together is taken apart whole: every node
    is freed together with its vnode, or stays behind its vnode, out of the tree,
    when somebody still holds that.  Nothing else changes. *)
Lemma ramfs_tree_release_wp k root l :
  is_tree (nodes (fs k)) root l → caches_ok (root :: l) k →
  wp (ramfs_tree_release root) (λ _ k', torn (root :: l) k k' ∧ frame k k') k.
Proof.
  intros HT Hok. pose proof (is_tree_size _ _ _ HT) as Hsize. destruct HT as [H0 (n & Hn & Hf) Hnd].
  unfold ramfs_tree_release. rewrite (proj2 (Z.eqb_neq root 0)) by done. wp_step. wp_step. cbn beta.
  pose proof (tree_release_wp (2 * size (nodes (fs k))) k root n l ltac:(lia) Hn H0 Hf Hnd Hok) as H.
  apply wp_run in H as (r & k' & E & H). eapply wp_eq; [exact E|]. split; [done|]. by apply (keeps_tree_release _ _ _ _ _ E).
Qed.

(** ** The promise to the mount table *)

Definition ramfs_type : fs_type K :=
  mk_fs_type (Some (cstr "ramfs")) (Some (λ mp _, ramfs_mount_fn mp)) (Some ramfs_unmount_fn) (Some ramfs_sync_fn) (Some (λ mp, ramfs_root_vnode mp true)).
(** The address of [ramfs_type]. *)
Definition RAMFS_TYPE : Z := 2.
Definition ramfs_types (t : Z) : option (fs_type K) := if t =? RAMFS_TYPE then Some ramfs_type else None.
Definition ramfs_init : cmd (list Z) unit := vfs_register_fs ramfs_types RAMFS_TYPE;; mret tt.

(** The private data [rm] of a mount leads to a tree. *)
Record volume k (rm root : Z) (l : list Z) : Prop := {
  vo_root : roots (fs k) !! rm = Some root;
  vo_tree : is_tree (nodes (fs k)) root l;
  vo_caches : caches_ok (root :: l) k
}.
(** Every mount has a tree of its own. *)
Record ramfs_inv k : Prop := {
  ri_store : store_ok k;
  ri_volume mp m : mounts k !! mp = Some m → m_fs_data m ≠ 0 → m_fs_data m < next k ∧ ∃ root l, volume k (m_fs_data m) root l;
  ri_apart mp1 mp2 m1 m2 r1 l1 r2 l2 : mp1 ≠ mp2 → mounts k !! mp1 = Some m1 → mounts k !! mp2 = Some m2 →
    m_fs_data m1 ≠ 0 → m_fs_data m2 ≠ 0 → volume k (m_fs_data m1) r1 l1 → volume k (m_fs_data m2) r2 l2 →
    m_fs_data m1 ≠ m_fs_data m2 ∧ ∀ a, a ∈ r1 :: l1 → a ∉ r2 :: l2
}.

Lemma volume_det k rm r l r' l' : volume k rm r l → volume k rm r' l' → r' = r ∧ l' = l.
Proof.
  intros [E1 [_ (n & Hn & Hf) _] _] [E2 [_ (n' & Hn' & Hf') _] _]. assert (r' = r) as -> by congruence.
  split; [done|]. assert (n' = n) as -> by congruence. by eapply forest_det.
Qed.
(** A volume stays when its nodes and their vnodes do. *)
Lemma volume_frame k k' rm r l :
  volume k rm r l → roots (fs k') !! rm = roots (fs k) !! rm → (∀ a, a ∈ r :: l → nodes (fs k') !! a = nodes (fs k) !! a) →
  (∀ a na, a ∈ r :: l → nodes (fs k) !! a = Some na → cache_ok k a na → cache_ok k' a na) → volume k' rm r l.
Proof.
  intros [E HT Hok] HR HN HV. split; [by rewrite HR|by eapply is_tree_frame|].
  intros a na Ha Hna. rewrite HN in Hna by done. apply HV; [done|done|by apply Hok].
Qed.

(** The invariant for a store in which all mounts but [mp] have the volumes they
    had, and [mp] has none, its old one, or a new one. *)
Lemma inv_update k k' mp m m' :
  ramfs_inv k → store_ok k' → next k <= next k' → mounts k !! mp = Some m → mounts k' !! mp = Some m' →
  (∀ a, a ≠ mp → mounts k' !! a = mounts k !! a) →
  (∀ a ma r l, a ≠ mp → mounts k !! a = Some ma → m_fs_data ma ≠ 0 → volume k (m_fs_data ma) r l → volume k' (m_fs_data ma) r l) →
  (m_fs_data m' ≠ 0 → m_fs_data m' < next k' ∧ ∃ r l, volume k' (m_fs_data m') r l ∧
     ∀ a ma ra la, a ≠ mp → mounts k !! a = Some ma → m_fs_data ma ≠ 0 → volume k (m_fs_data ma) ra la →
       m_fs_data m' ≠ m_fs_data ma ∧ ∀ b, b ∈ r :: l → b ∉ ra :: la) →
  ramfs_inv k'.
Proof.
  intros [I1 I2 I3] Hs Hnext Hm Hm' Hother Hvol Hnew. split; [done| |].
  - intros a ma Ha Hd. destruct (decide (a = mp)) as [->|Hne].
    + assert (ma = m') as -> by congruence. destruct (Hnew Hd) as (? & r & l & ? & _). split; [done|]. by exists r, l.
    + rewrite Hother in Ha by done. destruct (I2 a ma Ha Hd) as (? & r & l & Hv). split; [lia|]. exists r, l. by eapply Hvol.
  - assert (Hsym : ∀ a ma r1 l1 r2 l2, a ≠ mp → mounts k !! a = Some ma → m_fs_data ma ≠ 0 → m_fs_data m' ≠ 0 →
      volume k' (m_fs_data m') r1 l1 → volume k' (m_fs_data ma) r2 l2 → m_fs_data m' ≠ m_fs_data ma ∧ ∀ b, b ∈ r1 :: l1 → b ∉ r2 :: l2).
    { intros a ma r1 l1 r2 l2 Hne Ha Hd Hd' V1 V2. destruct (Hnew Hd') as (_ & r & l & V & H). destruct (volume_det _ _ _ _ _ _ V V1) as [-> ->].
      destruct (I2 a ma Ha Hd) as (_ & ra & la & Va). destruct (volume_det _ _ _ _ _ _ (Hvol a ma ra la Hne Ha Hd Va) V2) as [-> ->]. by eapply H. }
    intros a b ma mb r1 l1 r2 l2 Hab Ha Hb Hda Hdb V1 V2. destruct (decide (a = mp)) as [->|Hna]; [|destruct (decide (b = mp)) as [->|Hnb]].
    + assert (ma = m') as -> by congruence. rewrite Hother in Hb by done. by eapply Hsym.
    + assert (mb = m') as -> by congruence. rewrite Hother in Ha by done. destruct (Hsym a ma r2 l2 r1 l1) as [H1 H2]; [done..|].
      split; [congruence|]. intros c Hc1 Hc2. by eapply H2.
    + rewrite Hother in Ha, Hb by done. destruct (I2 a ma Ha Hda) as (_ & ra & la & Va). destruct (I2 b mb Hb Hdb) as (_ & rb & lb & Vb).
      destruct (volume_det _ _ _ _ _ _ (Hvol a ma ra la Hna Ha Hda Va) V1) as [-> ->]. destruct (volume_det _ _ _ _ _ _ (Hvol b mb rb lb Hnb Hb Hdb Vb) V2) as [-> ->].
      by apply (I3 a b ma mb).
Qed.

Lemma inv_frame k k' : ramfs_inv k → vnodes k' = vnodes k → files k' = files k → fs k' = fs k → next k <= next k' →
  (∀ a m', mounts k' !! a = Some m' → m_fs_data m' = 0 ∨
     ∃ m, mounts k !! a = Some m ∧ m_type m' = m_type m ∧ m_fs_data m' = m_fs_data m) → ramfs_inv k'.
Proof.
  intros [[S1 S2 S3] I2 I3] HV _ HF Hn HM.
  assert (Hvol : ∀ rm r l, volume k rm r l ↔ volume k' rm r l).
  { assert (Hc : ∀ a na, cache_ok k a na ↔ cache_ok k' a na) by (intros; unfold cache_ok; by rewrite HV).
    intros rm r l. split; intros [V1 V2 V3]; split; rewrite ?HF in *; try done; intros a na Ha Hna; rewrite ?HF in *.
    - apply Hc. by apply V3.
    - apply Hc. apply V3; [done|]. by rewrite HF. }
  split.
  - split; [lia| |]; intros a Ha; rewrite ?HF, ?HV; [apply S2|apply S3]; lia.
  - intros a m' Ha Hd. destruct (HM a m' Ha) as [|(m & Hm & _ & E)]; [done|]. rewrite E in *.
    destruct (I2 a m Hm Hd) as (? & r & l & V). split; [lia|]. exists r, l. by apply Hvol.
  - intros a b ma' mb' r1 l1 r2 l2 Hab Ha Hb Hda Hdb V1 V2.
    destruct (HM a ma' Ha) as [|(ma & Hma & _ & Ea)]; [done|]. destruct (HM b mb' Hb) as [|(mb & Hmb & _ & Eb)]; [done|].
    rewrite Ea, Eb in *. apply (I3 a b ma mb); [done..|by apply Hvol|by apply Hvol].
Qed.
Lemma inv_heap k nx o : ramfs_inv k → next k <= nx → ramfs_inv (set_heap nx o k).
Proof. intros HI Hn. eapply inv_frame; [exact HI|done..|]. intros a m' Ha. right. by exists m'. Qed.
Lemma frame_own mp k k' : frame k k' → own data_set mp k k'.
Proof.
  intros (E1 & E2 & E3 & E4 & E5 & E6). split; [done|done|done|by rewrite E1|]. intros m Hm. exists m. rewrite E1. split; [done|].
  apply data_set_refl.
Qed.

(** Other volumes do not contain a node at a fresh address or of this tree. *)
Lemma fresh_outside k rm r l c : store_ok k → volume k rm r l → next k <= c → c ∉ r :: l.
Proof.
  intros [_ HN _] [_ [H0 (n & Hn & Hf) _] _] Hc [->|Hin]%elem_of_cons; [by rewrite HN in Hn|].
  destruct (forest_elem _ _ _ _ Hf Hin) as [_ [nc Hnc]]. by rewrite HN in Hnc.
Qed.
(** A cached vnode is not at a fresh address. *)
Lemma cache_insert k k' v vn a na : store_ok k → vnodes k' = <[next k := v]> (vnodes k) → vn = next k → cache_ok k a na → cache_ok k' a na.
Proof.
  intros [_ _ HV] E -> Hok H0. destruct (Hok H0) as (vc & Hvc & Hrest). exists vc. split; [|done]. rewrite E, lookup_insert_ne; [done|].
  intros Eq. rewrite <- Eq, HV in Hvc by lia. done.
Qed.

Lemma keeps_node_create name type : keeps (ramfs_node_create name type : cmd K Z).
Proof. unfold ramfs_node_create, put_node, free_node. repeat keeps_step. Qed.
Lemma keeps_node_vnode mp node : keeps (ramfs_node_vnode mp node : cmd K Z).
Proof. unfold ramfs_node_vnode, vnode_create, get_node, put_node, put_vnode. repeat keeps_step. Qed.
(** Both what a command establishes and what it keeps. *)
Lemma wp_keeps {A} (m : cmd K A) Q k : keeps m → wp m Q k → wp m (λ r k', Q r k' ∧ frame k k') k.
Proof. intros Hk H. unfold wp in *. destruct (m k) as [[r k']|] eqn:E; [|done]. split; [done|by eapply Hk]. Qed.

Lemma mount_op_wp mp m k : ramfs_inv k → mounts k !! mp = Some m → mp ≠ 0 → m_fs_data m = 0 →
  wp (ramfs_mount_fn mp) (λ _ k', ramfs_inv k' ∧ own data_set mp k k') k.
Proof.
  intros HI Hm Hmp Hd. pose proof (ri_store _ HI) as Hs. pose proof (so_next _ Hs) as Hn. unfold ramfs_mount_fn. rewrite (proj2 (Z.eqb_neq mp 0)) by done.
  wp_step. apply kalloc_wp; intros o; cbn beta.
  { cbn [Z.eqb]. wp_step. split; [apply inv_heap; [done|lia]|]. apply frame_own. split_and!; first [done|cbn; lia]. }
  rewrite (proj2 (Z.eqb_neq (next k) 0)) by lia. set (k1 := set_heap (next k + 1) o k).
  assert (Hs1 : store_ok k1) by (destruct Hs as [? HN HV]; split; cbn; [lia|intros a ?; apply HN; lia|intros a ?; apply HV; lia]).
  wp_step. eapply wp_mono; [apply wp_keeps; [apply keeps_node_create|by apply node_create_wp]|]. cbn beta.
  intros c k2 [(Hs2 & HV2 & Hc) (F1 & F2 & F3 & F4 & F5 & F6)]. cbn [mounts g_mounts g_root_vnode next fs files vnodes set_heap k1] in *.
  destruct Hc as [[-> HN2]|(-> & Hn2 & HN2)].
  { cbn [Z.eqb]. wp_step. split; [|apply frame_own; split_and!; first [done|lia]].
    apply (inv_update k k2 mp m m); [done|done|lia|done|by rewrite F1|by rewrite F1| |by intros Hd'; contradict Hd'].
    intros a ma r l _ _ _ V. eapply volume_frame; [exact V|by rewrite F5|by rewrite HN2|]. intros b nb _ _ Hc. unfold cache_ok. by rewrite HV2. }
  rewrite (proj2 (Z.eqb_neq (next k + 1) 0)) by lia. wp_step. apply wp_modify.
  wp_step. eapply get_mount_wp; [cbn; by rewrite F1|]. wp_step. apply wp_modify. wp_step. cbn [mounts set_roots set_fs].
  set (k3 := set_mounts _ _).
  assert (Hout : ∀ rm r l, volume k rm r l → next k + 1 ∉ r :: l) by (intros rm r l V; apply (fresh_outside k rm r l); [done|done|lia]).
  split.
  - apply (inv_update k k3 mp m (with_data (next k) m)); [done| |cbn; lia|done|cbn; apply lookup_insert_eq| | |].
    + destruct Hs2 as [? HN HV]. split; cbn; [lia|intros a Ha; apply HN; lia|intros a Ha; apply HV; lia].
    + intros a Ha. cbn. by rewrite lookup_insert_ne, F1.
    + intros a ma r l Hne Ha Hda V. destruct (ri_volume _ HI a ma Ha Hda) as [Hlt _]. eapply volume_frame; [exact V| | |].
      * cbn. by rewrite lookup_insert_ne, F5 by lia.
      * intros b Hb. cbn. rewrite HN2, lookup_insert_ne; [done|]. intros <-. by eapply Hout.
      * intros b nb _ _ Hc. unfold cache_ok. cbn. by rewrite HV2.
    + intros _. cbn [m_fs_data with_data]. split; [cbn; lia|]. exists (next k + 1), []. split.
      * split; cbn; [apply lookup_insert_eq| |].
        -- split; [lia| |apply NoDup_singleton]. rewrite HN2, lookup_insert_eq. eexists. split; [done|]. constructor.
        -- intros a na ->%list_elem_of_singleton. cbn. rewrite HN2, lookup_insert_eq. intros [= <-] H. done.
      * intros a ma ra la Hne Ha Hda V. destruct (ri_volume _ HI a ma Ha Hda) as [Hlt _]. split; [lia|].
        intros b ->%list_elem_of_singleton. by eapply Hout.
  - split; cbn; [done|done|lia| |].
    + intros a Ha. by rewrite lookup_insert_ne, F1.
    + intros m0 Hm0. assert (m0 = m) as -> by congruence. eexists. split; [apply lookup_insert_eq|]. by eexists.
Qed.

Lemma root_op_wp mp m k : ramfs_inv k → mounts k !! mp = Some m → mp ≠ 0 →
  wp (ramfs_root_vnode mp true) (λ _ k', ramfs_inv k' ∧ own data_set mp k k') k.
Proof.
  intros HI Hm Hmp. pose proof (ri_store _ HI) as Hs. unfold ramfs_root_vnode. rewrite (proj2 (Z.eqb_neq mp 0)) by done. cbn [negb orb].
  wp_step. eapply get_mount_wp; [done|]. destruct (Z.eqb_spec (m_fs_data m) 0) as [Hd|Hd]; [wp_step; split; [done|apply frame_own, frame_refl]|].
  destruct (ri_volume _ HI mp m Hm Hd) as (Hlt & root & l & V). pose proof V as [VR [V0 (n & Hn & Hf) Vnd] VC].
  wp_step. eapply wp_read; [exact VR|]. rewrite (proj2 (Z.eqb_neq root 0)) by done.
  wp_step. eapply wp_mono; [apply wp_keeps; [apply keeps_node_vnode|by apply (node_vnode_wp k mp root n)]|]. cbn beta.
  intros vn k' [Hcase HF]. wp_step. pose proof HF as (F1 & F2 & F3 & F4 & F5 & F6). split; [|by apply frame_own].
  destruct Hcase as [(_ & _ & ->)|[(_ & _ & Hch)|(Hc0 & -> & Hnx & HN & HV & _)]]; [done| |].
  - assert (HN : nodes (fs k') = nodes (fs k)) by (rewrite (nc_nodes _ _ _ _ Hch); by apply insert_id).
    assert (HV : vnodes k' = vnodes k) by apply Hch.
    assert (Hv : ∀ a ma r l, mounts k !! a = Some ma → m_fs_data ma ≠ 0 → volume k (m_fs_data ma) r l → volume k' (m_fs_data ma) r l).
    { intros a ma r l0 _ _ Va. eapply volume_frame; [exact Va|by rewrite F5|by rewrite HN|]. intros b nb _ _ Hc. unfold cache_ok. by rewrite HV. }
    apply (inv_update k k' mp m m); [done| |done|done|by rewrite F1|by rewrite F1|intros a ma r l0 _; apply Hv|].
    + destruct Hs as [? HN0 HV0]. split; [lia| |]; intros a Ha; rewrite ?HN, ?HV; [apply HN0|apply HV0]; lia.
    + intros _. split; [lia|]. exists root, l. split; [by eapply Hv|]. intros a ma ra la Hne Ha Hda Va. by apply (ri_apart _ HI mp a m ma).
  - assert (Hcache : ∀ a na, cache_ok k a na → cache_ok k' a na) by (intros a na; by eapply cache_insert).
    apply (inv_update k k' mp m m); [done| |done|done|by rewrite F1|by rewrite F1| |].
    + destruct Hs as [? HN0 HV0]. split; [lia| |]; intros a Ha; rewrite ?HN, ?HV.
      * rewrite lookup_insert_ne; [apply HN0; lia|]. intros <-. rewrite HN0 in Hn by lia. done.
      * rewrite lookup_insert_ne by lia. apply HV0. lia.
    + intros a ma r l0 Hne Ha Hda Va. eapply volume_frame; [exact Va|by rewrite F5| |by auto].
      intros b Hb. rewrite HN, lookup_insert_ne; [done|]. intros <-. destruct (ri_apart _ HI a mp ma m r l0 root l) as [_ Hap]; [done..|].
      apply (Hap root); [done|by constructor].
    + intros _. split; [lia|]. exists root, l. split; [|intros a ma ra la Hne Ha Hda Va; by apply (ri_apart _ HI mp a m ma)]. split.
      * by rewrite F5.
      * split; [done| |done]. rewrite HN, lookup_insert_eq. eexists. split; [done|]. cbn [n_children with_cache].
        eapply forest_frame; [exact Hf|]. intros a Ha. rewrite lookup_insert_ne; [done|]. intros <-. by apply NoDup_cons in Vnd as [? _].
      * intros a na Ha Hna. rewrite HN in Hna. destruct (decide (a = root)) as [->|Hne].
        -- rewrite lookup_insert_eq in Hna. injection Hna as <-. intros _. cbn [n_vnode_cache with_cache]. rewrite HV, lookup_insert_eq.
           eexists. split; [done|]. cbn. split_and!; [done|done|lia].
        -- rewrite lookup_insert_ne in Hna by done. apply Hcache. by apply VC.
Qed.

Lemma torn_store S k k' : caches_ok S k → (∀ a, a ∈ S → is_Some (nodes (fs k) !! a)) → store_ok k → next k <= next k' → torn S k k' → store_ok k'.
Proof.
  intros Hok HS [S1 S2 S3] Hn HT. split; [lia| |].
  - intros a Ha. rewrite (tn_nodes _ _ _ HT); [apply S2; lia|]. intros Hin. destruct (HS a Hin) as [na Hna]. rewrite S2 in Hna by lia. done.
  - intros v Hv. rewrite (tn_vnodes _ _ _ HT); [apply S3; lia|]. intros a na Ha Hna <-. destruct (decide (n_vnode_cache na = 0)) as [|H0]; [done|].
    destruct (Hok a na Ha Hna H0) as (vc & Hvc & _). rewrite S3 in Hvc by lia. done.
Qed.
Lemma volume_exists k rm root l a : volume k rm root l → a ∈ root :: l → is_Some (nodes (fs k) !! a).
Proof. intros [_ [_ (n & Hn & Hf) _] _] [->|Ha]%elem_of_cons; [by exists n|]. by eapply forest_elem. Qed.

(** Unmounting takes the whole volume apart; another volume does not notice. *)
Lemma unmount_op_wp mp m k : ramfs_inv k → mounts k !! mp = Some m → mp ≠ 0 →
  wp (ramfs_unmount_fn mp) (λ r k', r = ERR_SUCCESS ∧ ramfs_inv k' ∧ own data_set mp k k' ∧
    ∀ root l, m_fs_data m ≠ 0 → volume k (m_fs_data m) root l →
      torn (root :: l) k k' ∧ mounts k' !! mp = Some (with_data 0 m) ∧ roots (fs k') !! m_fs_data m = None) k.
Proof.
  intros HI Hm Hmp. pose proof (ri_store _ HI) as Hs. unfold ramfs_unmount_fn. rewrite (proj2 (Z.eqb_neq mp 0)) by done.
  wp_step. eapply get_mount_wp; [done|]. destruct (Z.eqb_spec (m_fs_data m) 0) as [Hd|Hd].
  { wp_step. split; [done|]. split; [done|]. split; [apply frame_own, frame_refl|done]. }
  destruct (ri_volume _ HI mp m Hm Hd) as (Hlt & root & l & V). pose proof V as [VR VT VC].
  wp_step. apply wp_modify. wp_step. eapply wp_read; [exact VR|]. set (k1 := set_mounts _ _).
  wp_step. eapply wp_mono; [by apply (ramfs_tree_release_wp k1 root l)|]. cbn beta. intros _ k2 [HT (F1 & F2 & F3 & F4 & F5 & F6)].
  wp_step. apply wp_modify. wp_step. cbn [mounts g_mounts g_root_vnode next fs files vnodes k1 set_mounts] in *.
  assert (HT' : torn (root :: l) k k2) by (destruct HT; split; done). clear HT. split; [done|].
  set (k3 := set_roots _ k2). assert (HT : torn (root :: l) k k3) by (destruct HT'; split; done).
  assert (Hm3 : mounts k3 !! mp = Some (with_data 0 m)) by (cbn; rewrite F1; apply lookup_insert_eq).
  assert (Ho3 : ∀ a, a ≠ mp → mounts k3 !! a = mounts k !! a) by (intros a Ha; cbn; by rewrite F1, lookup_insert_ne).
  assert (Hr3 : ∀ rm, rm ≠ m_fs_data m → roots (fs k3) !! rm = roots (fs k) !! rm) by (intros rm Hrm; cbn; by rewrite lookup_delete_ne, F5).
  assert (Hn3 : next k <= next k3) by exact F4.
  split; [|split].
  - apply (inv_update k k3 mp m (with_data 0 m)); [done| |done|done|done|done| |done].
    + eapply torn_store; [exact VC|intros a; by eapply volume_exists|done|exact F4|exact HT].
    + intros a ma r l0 Hne Ha Hda Va. destruct (ri_apart _ HI a mp ma m r l0 root l) as [Hdd Hap]; [done..|].
      eapply volume_frame; [exact Va|by apply Hr3| |].
      * intros b Hb. apply (tn_nodes _ _ _ HT). by apply Hap.
      * intros b nb Hb Hnb Hc. eapply torn_cache_ok; [exact VC|exact HT|exact Hc|by apply Hap].
  - split; [cbn; done|cbn; done|done|done|]. intros m0 Hm0. assert (m0 = m) as -> by congruence. eexists. split; [exact Hm3|]. by eexists.
  - intros root' l' _ V'. destruct (volume_det _ _ _ _ _ _ V V') as [-> ->]. split; [done|]. split; [done|]. cbn. apply lookup_delete_eq.
Qed.

(** The RAM file system keeps the promise. *)
#[export] Instance ramfs_laws : FsTypes ramfs_types ramfs_inv.
Proof.
  assert (Ht : ∀ t ft, ramfs_types t = Some ft → ft = ramfs_type) by (unfold ramfs_types; intros t ft; by destruct (t =? RAMFS_TYPE); intros; simplify_eq).
  split; [apply inv_frame|..]; intros t ft op mp m; intros;
    match goal with H : ramfs_types _ = Some _ |- _ => apply Ht in H; subst end; cbn in *; simplify_eq.
  - eapply wp_mono; [by eapply mount_op_wp|]. cbn beta. intros r k' [? Ho]. split; [done|]. eapply own_weaken; [apply data_set_root|exact Ho].
  - eapply wp_mono; [by eapply root_op_wp|]. by intros r k' [? Ho].
  - eapply wp_mono; [by eapply unmount_op_wp|]. intros r k' (_ & ? & Ho & _). by split.
  - unfold ramfs_sync_fn. wp_step. split; [done|]. apply frame_own, frame_refl.
Qed.

(** C27: Unmounting the RAM file system succeeds and takes its tree apart: every
    node is freed together with its vnode, except that a node somebody holds open
    stays behind its vnode, out of the tree, with one reference less; no node outside the tree, no
    other vnode and no other volume changes, and the mount has no private data left. *)
Theorem ramfs_unmount_correct mp m k root l : ramfs_inv k → mounts k !! mp = Some m → mp ≠ 0 → m_fs_data m ≠ 0 →
  volume k (m_fs_data m) root l →
  wp (ramfs_unmount_fn mp) (λ r k', r = ERR_SUCCESS ∧ torn (root :: l) k k' ∧ ramfs_inv k' ∧ mounts k' !! mp = Some (with_data 0 m)) k.
Proof.
  intros HI Hm Hmp Hd V. eapply wp_mono; [by apply (unmount_op_wp mp m)|]. cbn beta. intros r k' (-> & HI' & _ & H).
  by destruct (H root l Hd V) as (? & ? & _).
Qed.

(** ** The root of the system *)

Lemma kalloc_ok_wp k Q : oracle k = [] → Q (next k) (set_heap (next k + 1) [] k) → wp kalloc Q k.
Proof. unfold wp, kalloc. by intros ->. Qed.
Lemma wp_both {A} (m : cmd K A) P Q k : wp m P k → wp m Q k → wp m (λ r k', P r k' ∧ Q r k') k.
Proof. unfold wp. by destruct (m k) as [[? ?]|]. Qed.

(** The file system, the mount object and the root vnode, with memory at hand. *)
Lemma mount_root_wp k source opts :
  ramfs_inv k → mounts k = ∅ → g_mounts k = [] → oracle k = [] →
  wp (mount_do_mount ramfs_types RAMFS_TYPE source (Some ROOT) opts) (λ r k', r = ERR_SUCCESS ∧
    ∃ node v n, is_dir k' (g_root_vnode k') node v n [] ∧ vn_refcnt v = 1 ∧ n_size n = 0 ∧ n_parent n = 0) k.
Proof.
  intros HI Hm Hg Ho. pose proof (so_next _ (ri_store _ HI)) as Hn.
  unfold mount_do_mount, find_mount_by_target. change (RAMFS_TYPE =? 0) with false. cbn iota.
  wp_step. wp_step. wp_step. cbn beta. rewrite Hg. cbn [find_mount_from]. wp_step. cbn [Z.eqb negb].
  wp_step. apply kalloc_ok_wp; [done|]. cbn beta. rewrite (proj2 (Z.eqb_neq (next k) 0)) by lia.
  wp_step. apply kalloc_ok_wp; [done|]. cbn [next set_heap]. wp_step. apply kalloc_ok_wp; [done|]. cbn [next set_heap].
  rewrite !(proj2 (Z.eqb_neq _ 0)) by lia. cbn [orb]. wp_step. apply wp_modify.
  unfold mount_ops. wp_step. wp_step. eapply wp_eq; [by apply (type_op_run _ _ RAMFS_TYPE ramfs_type)|]. cbn [ft_mount ramfs_type]. wp_step.
  unfold ramfs_mount_fn. rewrite (proj2 (Z.eqb_neq (next k) 0)) by lia.
  wp_step. apply kalloc_ok_wp; [done|]. cbn [next set_mounts set_heap]. rewrite !(proj2 (Z.eqb_neq _ 0)) by lia.
  unfold ramfs_node_create. wp_step. wp_step. apply kalloc_ok_wp; [done|]. cbn [next set_mounts set_heap]. rewrite !(proj2 (Z.eqb_neq _ 0)) by lia.
  wp_step. apply wp_modify. wp_step. apply kalloc_ok_wp; [done|]. cbn [next set_mounts set_heap set_nodes set_fs]. rewrite !(proj2 (Z.eqb_neq _ 0)) by lia.
  wp_step. apply wp_modify. wp_step. rewrite !(proj2 (Z.eqb_neq _ 0)) by lia.
  wp_step. apply wp_modify. wp_step. eapply get_mount_wp; [cbn; by rewrite lookup_insert_eq|].
  wp_step. apply wp_modify. wp_step. change (negb (ERR_SUCCESS =? 0)) with false. cbn iota.
  wp_step. eapply wp_eq; [by apply (type_op_run _ _ RAMFS_TYPE ramfs_type)|]. cbn [ft_root_vnode ramfs_type].
  unfold ramfs_root_vnode. rewrite !(proj2 (Z.eqb_neq _ 0)) by lia. cbn [negb orb].
  wp_step. wp_step. eapply get_mount_wp; [cbn; by rewrite lookup_insert_eq|]. cbn [m_fs_data with_data]. rewrite !(proj2 (Z.eqb_neq _ 0)) by lia.
  wp_step. eapply wp_read; [cbn; apply lookup_insert_eq|]. rewrite !(proj2 (Z.eqb_neq _ 0)) by lia.
  unfold ramfs_node_vnode. rewrite !(proj2 (Z.eqb_neq _ 0)) by lia. wp_step. wp_step. eapply get_node_wp; [cbn; apply lookup_insert_eq|]. cbn [n_vnode_cache Z.eqb].
  unfold vnode_create. wp_step. wp_step. apply kalloc_ok_wp; [done|]. cbn [next set_mounts set_heap set_nodes set_fs set_roots]. rewrite !(proj2 (Z.eqb_neq _ 0)) by lia.
  wp_step. apply wp_modify. wp_step. wp_step. apply wp_modify. wp_step. rewrite !(proj2 (Z.eqb_neq _ 0)) by lia. cbn [negb]. wp_step.
  wp_step. eapply get_mount_wp; [cbn; by rewrite lookup_insert_eq|]. wp_step. apply wp_modify. change (negb (ERR_SUCCESS =? 0)) with false. cbn iota. wp_step.
  change (negb (0 =? 0)) with false. cbn iota. wp_step. apply wp_modify. wp_step. eapply get_mount_wp; [cbn; by rewrite lookup_insert_eq|].
  rewrite streq_refl. wp_step. apply set_root_to_wp. wp_step. split; [done|].
  exists (next k + 1 + 1 + 1 + 1). eexists _, _. split; [split|]; cbn [vnodes fs nodes g_root_vnode set_root set_mounts set_mount_list set_heap set_nodes set_fs set_roots set_vnodes].
  - split; cbn; [lia|eexists; split; [apply lookup_insert_eq|reflexivity]|lia|apply lookup_insert_eq].
  - split; [apply lookup_insert_eq|done].
  - done.
  - apply NoDup_singleton.
  - constructor.
  - done.
Qed.

(** C32: The boot path of [kinit.c] without a disk: after [ramfs_init] and
    [mount_init], mounting the RAM file system as [/] succeeds when memory is
    at hand, the mount table holds that mount alone, and the root vnode of the system is the empty root
    directory, on which the theorems about directories hold. *)
Theorem boot_root_correct k source opts :
  ramfs_inv k → mounts k = ∅ → oracle k = [] → g_root_vnode k = 0 →
  ∃ types, ramfs_init [] = Some (tt, types) ∧
  wp (mount_init;; vfs_mount ramfs_types types (Some (cstr "ramfs")) source (Some ROOT) opts) (λ r k',
    r = ERR_SUCCESS ∧ ramfs_inv k' ∧ store_ok k' ∧
    models ramfs_types ramfs_inv k' (mk_abs [mk_entry ROOT (default [] source) RAMFS_TYPE (g_root_vnode k')] (g_root_vnode k')) ∧
    ∃ node v n, is_dir k' (g_root_vnode k') node v n [] ∧ vn_refcnt v = 1 ∧ n_size n = 0 ∧ n_parent n = 0) k.
Proof.
  intros HI Hm Ho Hr. exists [RAMFS_TYPE]. split; [reflexivity|]. pose proof (so_next _ (ri_store _ HI)) as Hn.
  wp_step. eapply wp_mono; [apply wp_both; [by apply (mount_init_wp ramfs_types ramfs_inv k)|]|].
  { instantiate (1 := λ _ k1, g_mounts k1 = [] ∧ mounts k1 = ∅ ∧ oracle k1 = []). unfold mount_init. by wp_steps. }
  cbn beta. intros _ k1 [[_ HM] (Hg1 & Hm1 & Ho1)]. rewrite Hr in HM.
  unfold vfs_mount, find_fs_type. wp_step. eapply (wp_get_opt _ RAMFS_TYPE); [reflexivity|]. change (RAMFS_TYPE =? 0) with false. cbn iota.
  eapply wp_mono; [apply wp_both; [apply (mount_root_wp k1 source opts); [apply HM|done..]|
    apply (do_mount_wp ramfs_types ramfs_inv k1 _ RAMFS_TYPE source ROOT opts HM); right; by exists ramfs_type]|].
  cbn beta. intros r k' [(-> & node & v & n & Hdir & Hrest) (A' & Hspec & HM')]. cbn in Hspec.
  destruct Hspec as (_ & [[Hne _]|(_ & vn & ->)]); [done|]. pose proof (md_root _ _ _ _ HM') as HR. cbn in HR.
  rewrite decide_True in HR, HM' by done. subst vn. pose proof (sd_inv _ _ _ (md_sound _ _ _ _ HM')) as HI'.
  split; [done|]. split; [done|]. split; [apply HI'|]. split; [exact HM'|]. exists node, v, n. done.
Qed.
End tree.

(** ** Example: the kernel before anything is mounted *)

Definition boot_kernel : kernel (ramfs unit) := mk_kernel ∅ ∅ ∅ [] 0 100 [] (mk_ramfs ∅ ∅ tt).
Lemma boot_inv : ramfs_inv boot_kernel.
Proof. split; [by split|done|done]. Qed.

Lemma boot_root_correct_witness : ∃ k', (mount_init;; vfs_mount ramfs_types [RAMFS_TYPE] (Some (cstr "ramfs")) (Some []) (Some ROOT) None) boot_kernel = Some (ERR_SUCCESS, k') ∧
  ∃ node v n, is_dir k' (g_root_vnode k') node v n [].
Proof.
  destruct (boot_root_correct boot_kernel (Some []) None boot_inv eq_refl eq_refl eq_refl) as (types & E & H).
  injection E as <-. apply wp_run in H as (r & k' & E' & -> & _ & _ & _ & node & v & n & Hdir & _).
  exists k'. split; [exact E'|]. by exists node, v, n.
Defined.

(** A volume of two directories and a file: releasing it keeps the file, which is open. *)
Definition ex_file : ramfs_node unit := mk_node (cstr "f") VNODE_TYPE_FILE 21 11 0 0 [1; 2] 2 2 None None.
Definition ex_nodes : gmap Z (ramfs_node unit) :=
  {[10 := mk_node [] VNODE_TYPE_DIR 20 0 0 11 [] 0 0 None None; 11 := mk_node (cstr "d") VNODE_TYPE_DIR 0 10 0 12 [] 0 0 None None; 12 := ex_file]}.
Definition ex_tree_kernel : kernel (ramfs unit) :=
  mk_kernel {[20 := mk_vnode VNODE_TYPE_DIR 1 30 RAMFS_OPS 10 0; 21 := mk_vnode VNODE_TYPE_FILE 2 30 RAMFS_OPS 12 0]} ∅
    {[30 := mk_mount RAMFS_TYPE 20 [] ROOT 40]} [30] 20 100 [] (mk_ramfs ex_nodes {[40 := 10]} tt).
Lemma ex_volume : volume ex_tree_kernel 40 10 [11; 12].
Proof.
  split; [done| |].
  - split; [done| |by_eval]. eexists. split; [reflexivity|].
    apply (forest_cons ex_nodes 11 (mk_node (cstr "d") VNODE_TYPE_DIR 0 10 0 12 [] 0 0 None None) [12] []); [done|done| |constructor].
    apply (forest_cons ex_nodes 12 ex_file [] []); [done|done|constructor|constructor].
  - intros a na Ha. rewrite !elem_of_cons, elem_of_nil in Ha. destruct Ha as [->|[->|[->|[]]]]; vm_compute; intros [= <-] H; [| done |]; eexists; done.
Qed.
Lemma ex_tree_inv : ramfs_inv ex_tree_kernel.
Proof.
  split.
  - split; [done| |]; intros a Ha; cbn in Ha; unfold ex_tree_kernel, ex_nodes; cbn [fs nodes vnodes]; rewrite ?lookup_insert_ne by lia; apply lookup_singleton_ne; lia.
  - intros mp m Hm Hd. cbn in Hm. apply lookup_singleton_Some in Hm as [<- <-]. split; [done|]. eexists _, _. exact ex_volume.
  - intros mp1 mp2 m1 m2 r1 l1 r2 l2 Hne H1 H2. cbn in H1, H2. apply lookup_singleton_Some in H1 as [<- _]. by apply lookup_singleton_Some in H2 as [<- _].
Qed.
Lemma ramfs_unmount_correct_witness : ∃ k', ramfs_unmount_fn 30 ex_tree_kernel = Some (ERR_SUCCESS, k') ∧ torn [10; 11; 12] ex_tree_kernel k'.
Proof.
  pose proof (ramfs_unmount_correct 30 (mk_mount RAMFS_TYPE 20 [] ROOT 40) ex_tree_kernel 10 [11; 12] ex_tree_inv eq_refl ltac:(done) ltac:(done) ex_volume) as H.
  apply wp_run in H as (r & k' & E & -> & HT & _). by exists k'.
Defined.
End RamfsTree.
