(* ===== verification/Tar.v ===== *)
(** * The archive of the first programs

    [src/kernel/binfmt/tar.c]: [tar_extract] creates the files and directories of a
    tar archive in memory below a root vnode, through the operations of the file system
    and the files of [Vfs.v]. *)

From S2P Require Import Prelude Vnode Objects Vfs.
Import Vnode Objects Vfs.

Module Tar.

(** ** The header, [struct tar_header] *)

Definition TAR_BLOCK : nat := 512.
Definition NAME_FIELD : nat := 100.
(** The offsets of [size] and [typeflag]. *)
Definition SIZE_AT : nat := 124.
Definition TYPEFLAG_AT : nat := 156.
Definition LEAF_MAX : nat := 64.

(** The string up to the first NUL, or to the end of the list. *)
Fixpoint str_of (l : list Z) : cstring :=
  match l with [] => [] | c :: l => if c =? 0 then [] else c :: str_of l end.

(** The octal digits from [str] on; behind the list memory is undefined. *)
Fixpoint oct2bin (val : Z) (str : list Z) : option Z :=
  match str with
  | [] => None
  | c :: str => if (48 <=? c) && (c <=? 55) then oct2bin (u32 (u32 (Z.shiftl val 3) + (c - 48))) str else Some val
  end.

(** The loop that cuts slashes off the end; [len] bytes are left. *)
Fixpoint cut_slashes (len : nat) (name : cstring) : cstring :=
  match len with
  | O => []
  | S l => if bool_decide (name !! l = Some SLASH) then cut_slashes l name else take len name
  end.
Definition normalize (name : cstring) : cstring :=
  let name := match name with a :: b :: name' => if (a =? 46) && (b =? SLASH) then name' else name | _ => name end in
  let name := skip_slashes name in
  cut_slashes (length name) name.

Fixpoint strchr (c : Z) (s : cstring) : option nat :=
  match s with [] => None | d :: s => if d =? c then Some O else S <$> strchr c s end.
Fixpoint strrchr (c : Z) (s : cstring) : option nat :=
  match s with
  | [] => None
  | d :: s => match strrchr c s with Some i => Some (S i) | None => if d =? c then Some O else None end
  end.
(** [parent] and [leaf]. *)
Definition split_path (path : cstring) : cstring * cstring :=
  match strrchr SLASH path with
  | None => ([], path)
  | Some i => (take i path, drop (S i) path)
  end.

Section tar.
Context {F : Type}.
Abbreviation K := (kernel F).
Context (ops_of : Z → option (vnode_ops K)).
Implicit Types (k : K).

(** [vn->ops->op]: without the table or the operation it is undefined. *)
Definition op {A} (sel : vnode_ops K → option A) (vn : Z) : cmd K A :=
  v ← get_vnode vn; cget_opt (ops_of (vn_ops v) ≫= sel).
Definition lookup_in (dir : Z) (name : cstring) : cmd K (Z * Z) := f ← op op_lookup dir; f dir (Some name) true.
Definition create_in (dir : Z) (name : cstring) (type : vnode_type) : cmd K (Z * Z) := f ← op op_create dir; f dir (Some name) type true.

(** The loop of [mkdir_p] from the component at [p] on; 0 is NULL. *)
Fixpoint mkdir_from (fuel : nat) (cur : Z) (p : cstring) : cmd K Z :=
  match p, fuel with
  | [], _ => mret cur
  | _, O => cundef
  | _, S fuel =>
    let slash := strchr SLASH p in
    let name := match slash with Some i => take i p | None => p end in
    '(failed, next) ←
      (if bool_decide (name = []) then mret (false, cur) else
       '(r, next) ← lookup_in cur name;
       if negb (r =? 0) then '(r, next) ← create_in cur name VNODE_TYPE_DIR; mret (negb (r =? 0), next)
       else mret (false, next));
    if failed : bool then mret 0 else
    match slash with None => mret next | Some i => mkdir_from fuel next (drop (S i) p) end
  end.
Definition mkdir_p (root : Z) (path : cstring) : cmd K Z :=
  if root =? 0 then mret 0 else mkdir_from (length path) root path.

(** What [tar_extract] does with a directory and with a file, whose bytes are the
    first [fsize] of [data]. *)
Definition extract_dir (parent : Z) (leaf : cstring) : cmd K unit :=
  '(r, _) ← lookup_in parent leaf;
  if negb (r =? 0) then create_in parent leaf VNODE_TYPE_DIR;; mret tt else mret tt.
Definition extract_file (parent : Z) (leaf : cstring) (data : list Z) (fsize : Z) : cmd K unit :=
  '(create_result, node) ← create_in parent leaf VNODE_TYPE_FILE;
  if negb (create_result =? 0) then mret tt else
  f ← vfs_open_vnode node;
  if f =? 0 then mret tt else
  vfs_write ops_of f (Some (take (Z.to_nat fsize) data)) fsize;;
  vfs_close ops_of f;;
  mret tt.
(** An entry with a name; the answer is false when [tar_extract] returns because
    a directory cannot be made.  The array [leaf] has 64 bytes. *)
Definition extract_entry (root : Z) (name : cstring) (typeflag fsize : Z) (data : list Z) : cmd K bool :=
  let '(parent_path, leaf) := split_path name in
  if (LEAF_MAX <=? length leaf)%nat then cundef else
  parent ← (if bool_decide (parent_path = []) then mret root else mkdir_p root parent_path);
  if parent =? 0 then mret false else
  (if typeflag =? 53 then extract_dir parent leaf else extract_file parent leaf data fsize);;
  mret true.

(** The rounded size, as the 32-bit expression of the code. *)
Definition padded (fsize : Z) : Z := u32 (u32 (fsize + 511) / 512 * 512).

(** The loop at the address [ptr]; the archive [image] lies at [start], and
    memory outside it is undefined.  Pointers have 32 bits. *)
Fixpoint extract_from (fuel : nat) (root start : Z) (image : list Z) (end_ ptr : Z) : cmd K unit :=
  match fuel with
  | O => cundef
  | S fuel =>
    if negb (ptr <? end_) then mret tt else
    if end_ <? u32 (ptr + 512) then mret tt else
    if ptr <? start then cundef else
    let hdr := drop (Z.to_nat (ptr - start)) image in
    c ← cget_opt (hdr !! 0%nat);
    if c =? 0 then mret tt else
    if (length hdr <? NAME_FIELD)%nat then cundef else
    let name := normalize (str_of (take NAME_FIELD hdr)) in
    fsize ← cget_opt (oct2bin 0 (drop SIZE_AT hdr));
    if bool_decide (name = []) then extract_from fuel root start image end_ (u32 (ptr + 512)) else
    typeflag ← cget_opt (hdr !! TYPEFLAG_AT);
    go ← extract_entry root name typeflag fsize (drop TAR_BLOCK hdr);
    if negb go then mret tt else
    extract_from fuel root start image end_ (u32 (ptr + u32 (512 + padded fsize)))
  end.
Definition tar_extract (fuel : nat) (root start : Z) (image : list Z) (size : Z) : cmd K unit :=
  if (root =? 0) || (start =? 0) || (size =? 0) then mret tt
  else extract_from fuel root start image (u32 (start + size)) start.

(** ** Archives *)

(** An entry: the name in the header, the type character and the bytes. *)
Record entry := mk_entry { te_name : cstring; te_type : Z; te_data : list Z }.

(** What one entry does, and all of them. *)
Definition install (root : Z) (e : entry) : cmd K bool :=
  let name := normalize (te_name e) in
  if bool_decide (name = []) then mret true
  else extract_entry root name (te_type e) (Z.of_nat (length (te_data e))) (te_data e).
Fixpoint install_all (root : Z) (es : list entry) : cmd K unit :=
  match es with
  | [] => mret tt
  | e :: es => go ← install root e; if negb go then mret tt else install_all root es
  end.
End tar.

(** A header block that describes the entry.  The code does not skip the bytes of
    an entry whose name is nothing but slashes, so such an entry has none. *)
Record header (h : list Z) (e : entry) : Prop := {
  hd_length : length h = TAR_BLOCK;
  hd_name : str_of (take NAME_FIELD h) = te_name e ∧ te_name e ≠ [];
  hd_size : oct2bin 0 (drop SIZE_AT h) = Some (Z.of_nat (length (te_data e)));
  hd_type : h !! TYPEFLAG_AT = Some (te_type e);
  hd_small : Z.of_nat (length (te_data e)) < 2 ^ 32 - 1024;
  hd_empty : normalize (te_name e) = [] → te_data e = []
}.
(** Headers and bytes padded to blocks, up to a block that starts with a NUL or the end. *)
Inductive archive : list entry → list Z → Prop :=
  | archive_nil : archive [] []
  | archive_zero rest : (TAR_BLOCK <= S (length rest))%nat → archive [] (0 :: rest)
  | archive_entry h e pad es rest : header h e → (length pad < TAR_BLOCK)%nat → Nat.divide TAR_BLOCK (length (te_data e) + length pad) →
      archive es rest → archive (e :: es) (h ++ te_data e ++ pad ++ rest).

(** A writer of archives. *)
Fixpoint oct_digits (n : nat) (v : Z) : list Z :=
  match n with O => [] | S n => oct_digits n (v / 8) ++ [48 + v mod 8] end.
Definition header_of (e : entry) : list Z :=
  te_name e ++ replicate (NAME_FIELD - length (te_name e)) 0 ++ replicate 24 0 ++ oct_digits 11 (Z.of_nat (length (te_data e))) ++
  0 :: replicate 20 0 ++ te_type e :: replicate 355 0.
Definition entry_bytes (e : entry) : list Z :=
  header_of e ++ te_data e ++ replicate (Z.to_nat (- Z.of_nat (length (te_data e)) mod 512)) 0.
Definition archive_of (es : list entry) : list Z := concat (entry_bytes <$> es) ++ replicate 1024 0.
Record writable (e : entry) : Prop := {
  wr_name : te_name e ≠ [] ∧ (length (te_name e) <= NAME_FIELD)%nat ∧ Forall (λ c, c ≠ 0) (te_name e);
  wr_small : Z.of_nat (length (te_data e)) < 2 ^ 32 - 1024;
  wr_empty : normalize (te_name e) = [] → te_data e = []
}.

(** ** Lemmas *)

Lemma oct2bin_app str rest v : ∀ val, oct2bin val str = Some v → oct2bin val (str ++ rest) = Some v.
Proof. induction str as [|c str IH]; intros val; cbn [oct2bin app]; [done|]. destruct ((48 <=? c) && (c <=? 55)); [apply IH|done]. Qed.

Lemma padded_spec n : 0 <= n < 2 ^ 32 - 1024 → padded n = (n + 511) / 512 * 512 ∧ u32 (512 + padded n) = 512 + padded n.
Proof.
  intros H. unfold padded. rewrite (u32_small (n + 511)) by lia. assert (0 <= (n + 511) / 512 * 512 < 2 ^ 32 - 512) by lia.
  rewrite u32_small by lia. split; [done|]. rewrite u32_small; lia.
Qed.
Lemma padded_length (data pad : list Z) : (length pad < TAR_BLOCK)%nat → Nat.divide TAR_BLOCK (length data + length pad) →
  (Z.of_nat (length data) + 511) / 512 * 512 = Z.of_nat (length data + length pad).
Proof. unfold TAR_BLOCK. intros Hp [q E]. rewrite E. assert (Z.of_nat (length data) + Z.of_nat (length pad) = Z.of_nat q * 512) by lia. lia. Qed.

Lemma str_of_head l c : str_of l = [] → l !! 0%nat = Some c → c = 0.
Proof. destruct l as [|d l]; [done|]. cbn. destruct (Z.eqb_spec d 0); [by intros _ [= <-]|done]. Qed.

Section extraction.
Context {F : Type} (ops_of : Z → option (vnode_ops (kernel F))).

Lemma extract_entry_ext root name t fsize data data' k :
  take (Z.to_nat fsize) data = take (Z.to_nat fsize) data' → extract_entry ops_of root name t fsize data k = extract_entry ops_of root name t fsize data' k.
Proof. intros E. unfold extract_entry, extract_file. by rewrite E. Qed.

Lemma extract_from_archive es rest : archive es rest → ∀ fuel root start image off k,
  0 < start → start + Z.of_nat (length image) < 2 ^ 32 → (off <= length image)%nat → drop off image = rest → (length es < fuel)%nat →
  extract_from ops_of fuel root start image (start + Z.of_nat (length image)) (start + Z.of_nat off) k = install_all ops_of root es k.
Proof.
  intros Ha. induction Ha as [|rest Hr|h e pad es rest [HL [HN HN0] HS HT Hsm He] Hp Hd Ha IH]; intros fuel root start image off k Hst Hend Hoff Hdrop Hf;
    (destruct fuel as [|fuel]; [cbn in Hf; lia|]); cbn [extract_from].
  - assert (length image = off) as E by (apply (f_equal length) in Hdrop; rewrite length_drop in Hdrop; cbn in Hdrop; lia).
    rewrite E, Z.ltb_irrefl. done.
  - pose proof (f_equal length Hdrop) as E. rewrite length_drop in E. cbn [length] in E. unfold TAR_BLOCK in Hr.
    rewrite (proj2 (Z.ltb_lt _ _)) by lia. cbn [negb]. rewrite u32_small by lia. rewrite (proj2 (Z.ltb_ge _ _)) by lia. rewrite (proj2 (Z.ltb_ge _ _)) by lia.
    replace (Z.to_nat (start + Z.of_nat off - start)) with off by lia. rewrite Hdrop. done.
  - pose proof (f_equal length Hdrop) as E. rewrite length_drop, !length_app, HL in E. unfold TAR_BLOCK in *.
    rewrite (proj2 (Z.ltb_lt _ _)) by lia. cbn [negb]. rewrite u32_small by lia. rewrite (proj2 (Z.ltb_ge _ _)) by lia. rewrite (proj2 (Z.ltb_ge _ _)) by lia.
    replace (Z.to_nat (start + Z.of_nat off - start)) with off by lia. rewrite Hdrop.
    assert (H0lt : (0 < length h)%nat) by (rewrite HL; lia). destruct (lookup_is_Some h 0 H0lt) as [c0 Hc0]. rewrite (lookup_app_l h _ 0) by exact H0lt. rewrite Hc0.
    assert (c0 ≠ 0). { intros ->. apply HN0. rewrite <- HN. destruct h as [|d h]; [done|]. cbn in Hc0. injection Hc0 as ->. done. }
    erewrite bind_run by done. rewrite (proj2 (Z.eqb_neq c0 0)) by done. rewrite (proj2 (Nat.ltb_ge _ _)) by (rewrite !length_app; unfold NAME_FIELD; lia).
    rewrite (take_app_le h _ NAME_FIELD) by (unfold NAME_FIELD; lia). rewrite HN. rewrite (drop_app_le h _ SIZE_AT) by (unfold SIZE_AT; lia).
    erewrite bind_run by (unfold cget_opt; by rewrite (oct2bin_app _ _ _ _ HS)). cbn [install_all]. unfold install. cbn zeta.
    destruct (padded_spec (Z.of_nat (length (te_data e)))) as [Hpad Hstep]; [lia|].
    assert (Hnext : ∀ d, (length h + length (te_data e) + length pad = d)%nat → drop (off + d) image = rest).
    { intros d <-. rewrite <- drop_drop, Hdrop. rewrite drop_app_ge by lia.
      replace (length h + length (te_data e) + length pad - length h)%nat with (length (te_data e) + length pad)%nat by lia.
      rewrite drop_app_ge by lia. rewrite drop_app_ge by lia. by replace (_ - _ - _)%nat with 0%nat by lia. }
    case_bool_decide as Hname.
    + pose proof (He Hname) as Hnil. erewrite bind_run by done. cbn [negb].
      assert (length pad = 0)%nat as Hp0 by (rewrite Hnil in Hd; destruct Hd as [q Hq]; cbn in Hq; lia).
      replace (start + Z.of_nat off + 512) with (start + Z.of_nat (off + 512)) by lia.
      apply IH; [done|done|lia| |cbn in Hf; lia]. apply Hnext. rewrite Hnil, Hp0. cbn. lia.
    + rewrite lookup_app_l by (unfold TYPEFLAG_AT; lia). rewrite HT. erewrite bind_run by done.
      rewrite drop_app_ge by lia. replace (512 - length h)%nat with 0%nat by lia. rewrite drop_0.
      unfold mbind at 1 2, cmd_bind at 1 2. rewrite (extract_entry_ext _ _ _ _ _ (te_data e)) by (rewrite Nat2Z.id, take_app_le, !take_ge by lia; done).
      destruct (extract_entry _ _ _ _ _ _ _) as [[go k']|]; [|done]. destruct (negb go); [done|].
      rewrite Hstep, Hpad, (padded_length (te_data e) pad) by done.
      replace (start + Z.of_nat off + (512 + Z.of_nat (length (te_data e) + length pad))) with (start + Z.of_nat (off + (512 + length (te_data e) + length pad))) by lia.
      rewrite u32_small by lia. apply IH; [done|done|lia| |cbn in Hf; lia]. apply Hnext. lia.
Qed.
End extraction.

(** A size that the writer stores is the size that the reader reads. *)
Lemma oct2bin_digits n : ∀ v rest, 0 <= v < 8 ^ Z.of_nat n → v < 2 ^ 32 → ∀ val, u32 (val * 8 ^ Z.of_nat n) = val * 8 ^ Z.of_nat n → 0 <= val → val * 8 ^ Z.of_nat n + v < 2 ^ 32 →
  oct2bin val (oct_digits n v ++ rest) = oct2bin (val * 8 ^ Z.of_nat n + v) rest.
Proof.
  induction n as [|n IH]; intros v rest Hv Hv32 val Hu Hval Hmax; cbn [oct_digits app]; [f_equal; cbn in *; lia|].
  rewrite Nat2Z.inj_succ, Z.pow_succ_r in * by lia. rewrite <- app_assoc. assert (0 < 8 ^ Z.of_nat n) by lia.
  rewrite IH; [| |lia| |lia|]; cbn [app oct2bin].
  - pose proof (Z.mod_pos_bound v 8 ltac:(lia)). rewrite (proj2 (Z.leb_le _ _)), (proj2 (Z.leb_le _ _)) by lia. cbn [andb]. f_equal.
    rewrite Z.shiftl_mul_pow2 by lia. rewrite (u32_small (_ * 2 ^ 3)) by lia. rewrite u32_small by lia. lia.
  - split; [lia|]. apply Z.div_lt_upper_bound; lia.
  - apply u32_small. nia.
  - assert (v / 8 <= v) by lia. nia.
Qed.

Lemma length_oct_digits n v : length (oct_digits n v) = n.
Proof. revert v. induction n as [|n IH]; intros v; cbn [oct_digits]; [done|]. rewrite length_app, IH. cbn. lia. Qed.
Lemma str_of_zeros s rest : Forall (λ c, c ≠ 0) s → str_of (s ++ 0 :: rest) = s.
Proof. induction 1 as [|c s Hc _ IH]; [done|]. cbn. rewrite (proj2 (Z.eqb_neq c 0)) by done. by rewrite IH. Qed.
Lemma str_of_all s : Forall (λ c, c ≠ 0) s → str_of s = s.
Proof. induction 1 as [|c s Hc _ IH]; [done|]. cbn. rewrite (proj2 (Z.eqb_neq c 0)) by done. by rewrite IH. Qed.

Lemma header_of_ok e : writable e → header (header_of e) e.
Proof.
  intros [(Hne & Hlen & Hnz) Hsm He]. unfold NAME_FIELD in *. unfold header_of.
  set (size := oct_digits 11 (Z.of_nat (length (te_data e)))). assert (Hls : length size = 11%nat) by apply length_oct_digits.
  set (pre := te_name e ++ replicate (NAME_FIELD - length (te_name e)) 0).
  assert (Hpre : length pre = 100%nat) by (unfold pre, NAME_FIELD; rewrite length_app, length_replicate; lia).
  assert (Eh : te_name e ++ replicate (NAME_FIELD - length (te_name e)) 0 ++ replicate 24 0 ++ size ++ 0 :: replicate 20 0 ++ te_type e :: replicate 355 0 =
    pre ++ replicate 24 0 ++ size ++ 0 :: replicate 20 0 ++ te_type e :: replicate 355 0) by (unfold pre; by rewrite <- app_assoc).
  rewrite Eh. split; [| | | |done|done].
  - rewrite !length_app, Hpre, !length_replicate. cbn [length]. rewrite length_app, Hls. cbn [length]. rewrite !length_replicate. done.
  - split; [|done]. rewrite take_app_length' by (unfold NAME_FIELD; lia). unfold pre, NAME_FIELD.
    destruct (100 - length (te_name e))%nat as [|d]; [rewrite app_nil_r; by apply str_of_all|by apply str_of_zeros].
  - unfold SIZE_AT. rewrite (drop_app_ge pre) by lia. rewrite drop_app_ge by (rewrite length_replicate; lia).
    rewrite length_replicate, Hpre. change (124 - 100 - 24)%nat with 0%nat. rewrite drop_0. unfold size.
    rewrite oct2bin_digits; [|cbn; lia|lia|done|lia|cbn; lia]. cbn [oct2bin]. done.
  - unfold TYPEFLAG_AT. rewrite (lookup_app_r pre) by lia. rewrite lookup_app_r by (rewrite length_replicate; lia).
    rewrite length_replicate, Hpre. rewrite lookup_app_r by (rewrite Hls; lia). rewrite Hls. reflexivity.
Qed.

Lemma archive_of_archive es : Forall writable es → archive es (archive_of es).
Proof.
  unfold archive_of. induction 1 as [|e es He Hes IH].
  - apply (archive_zero (replicate 1023 0)). rewrite length_replicate. unfold TAR_BLOCK. lia.
  - rewrite fmap_cons. cbn [concat]. unfold entry_bytes at 1. rewrite <- !app_assoc. apply archive_entry; [by apply header_of_ok| | |exact IH].
    + rewrite length_replicate. unfold TAR_BLOCK. lia.
    + rewrite length_replicate. set (d := Z.of_nat (length (te_data e))). exists (Z.to_nat ((d + - d mod 512) / 512)). unfold TAR_BLOCK. lia.
Qed.

(** ** The statements *)

Section statements.
Context {F : Type} (ops_of : Z → option (vnode_ops (kernel F))).

Lemma extract_run es image fuel root start k :
  archive es image → root ≠ 0 → 0 < start → start + Z.of_nat (length image) < 2 ^ 32 → (length es < fuel)%nat →
  tar_extract ops_of fuel root start image (Z.of_nat (length image)) k = install_all ops_of root es k.
Proof.
  intros Ha Hr Hst Hend Hf. unfold tar_extract. rewrite !(proj2 (Z.eqb_neq _ 0)) by lia. cbn [orb].
  destruct (Z.eqb_spec (Z.of_nat (length image)) 0) as [E|E].
  - destruct image; [|cbn in E; lia]. inversion Ha as [| |h e pad es' rest Hh _ _ _ Ees Eapp]; [done|]. apply app_nil in Eapp as [-> _].
    by pose proof (hd_length _ _ Hh).
  - rewrite u32_small by lia. pose proof (extract_from_archive ops_of es image Ha fuel root start image 0 k) as H.
    rewrite Z.add_0_r in H. apply H; [done|done|lia|done|done].
Qed.


(** Finding: the step to the next header is computed in 32 bits.  A directory whose
    size field is near 4 GiB makes it 0, and the loop never ends. *)
Theorem tar_size_hangs h name fsize root start size :
  (TAR_BLOCK <= length h)%nat → str_of (take NAME_FIELD h) = name → normalize name ≠ [] → oct2bin 0 (drop SIZE_AT h) = Some fsize →
  2 ^ 32 - 1024 < fsize <= 2 ^ 32 - 512 → h !! TYPEFLAG_AT = Some 53 → 0 < start → 512 <= size → start + size < 2 ^ 32 → root ≠ 0 →
  strrchr SLASH (normalize name) = None →
  ∀ fuel k, tar_extract ops_of fuel root start h size k = None.
Proof.
  unfold TAR_BLOCK. intros Hl Hname Hne Hsize Hf Ht Hst Hsz Hend Hr Hs fuel. unfold tar_extract. rewrite !(proj2 (Z.eqb_neq _ 0)) by lia. cbn [orb].
  rewrite u32_small by lia. induction fuel as [|fuel IH]; intros k; [done|]. cbn [extract_from].
  rewrite (proj2 (Z.ltb_lt _ _)) by lia. cbn [negb]. rewrite u32_small by lia. rewrite (proj2 (Z.ltb_ge _ _)) by lia. rewrite (proj2 (Z.ltb_ge _ _)) by lia.
  rewrite Z.sub_diag, drop_0. assert (H0lt : (0 < length h)%nat) by lia. destruct (lookup_is_Some h 0 H0lt) as [c Hc]. rewrite Hc.
  erewrite bind_run by done. destruct (Z.eqb_spec c 0) as [->|Hc0].
  { exfalso. apply Hne. rewrite <- Hname. destruct h as [|d h]; [done|]. cbn in Hc. injection Hc as ->. done. }
  rewrite (proj2 (Nat.ltb_ge _ _)) by (unfold NAME_FIELD; lia). rewrite Hname.
  erewrite bind_run by (unfold cget_opt; by rewrite Hsize). rewrite bool_decide_false by done. rewrite Ht. erewrite bind_run by done.
  assert (Hstep : u32 (start + u32 (512 + padded fsize)) = start).
  { assert (padded fsize = 2 ^ 32 - 512) as ->; [|change (u32 (512 + (2 ^ 32 - 512))) with 0; rewrite Z.add_0_r; apply u32_small; lia].
    unfold padded. rewrite (u32_small (fsize + 511)) by lia. rewrite u32_small by lia. lia. }
  unfold extract_entry, split_path. rewrite Hs.
  destruct (LEAF_MAX <=? length (normalize name))%nat; [done|]. rewrite bool_decide_true by done.
  unfold mbind at 1, cmd_bind at 1. erewrite bind_run by done. rewrite (proj2 (Z.eqb_neq root 0)) by done. change (53 =? 53) with true. cbn iota.
  unfold mbind at 1, cmd_bind at 1. destruct (extract_dir ops_of root (normalize name) k) as [[[] k']|]; [|done].
  cbn [negb mret cmd_ret]. rewrite Hstep. apply IH.
Qed.
End statements.

(** ** Example: a program in a directory *)

Definition ex_entries : list entry := [mk_entry (cstr "./bin/") 53 []; mk_entry (cstr "./bin/sh") 48 [127; 69; 76; 70]; mk_entry (cstr "init") 48 [1; 2; 3]].
Lemma ex_writable : Forall writable ex_entries.
Proof. repeat constructor; by_eval || done. Qed.
End Tar.
