(* ===== verification/TarSpec.v ===== *)
(** * Archives extracted into the RAM file system

    The composition of [Tar.v], [Vfs.v] and [Ramfs.v]: what the root directory holds
    after [tar_extract] (the boot path of [src/kernel/core/kinit.c]). *)

From S2P Require Import Prelude Vnode Objects Ramfs Vfs Stack Mount RamfsTree Tar.
Import Vnode Objects Mount RamfsTree Ramfs Stack Tar.

Module TarSpec.

Section extraction.
Context {D : Type} (stale : nat → Z).
Abbreviation K := (kernel (ramfs D)).
Abbreviation ops := (ops_of (D := D) stale).
Implicit Types (k : K) (n : ramfs_node D).
Abbreviation entries := (list (Z * ramfs_node D)).

(** A file at the top of the archive, with a name that needs no change. *)
Record plain (e : entry) : Prop := {
  pl_name : te_name e ≠ [] ∧ (SLASH ∉ te_name e) ∧ te_name e ≠ DOT ∧ te_name e ≠ DOTDOT;
  pl_leaf : (length (te_name e) < LEAF_MAX)%nat;
  pl_type : te_type e ≠ 53;
  pl_small : Z.of_nat (length (te_data e)) < 2 ^ 32 - 1024
}.

Lemma skip_slashes_plain name : SLASH ∉ name → Vfs.skip_slashes name = name.
Proof. destruct name as [|c name]; [done|]. intros [Hc _]%not_elem_of_cons. cbn. by rewrite (proj2 (Z.eqb_neq c Vfs.SLASH)) by (unfold Vfs.SLASH, SLASH in *; lia). Qed.
Lemma cut_slashes_plain name : SLASH ∉ name → cut_slashes (length name) name = name.
Proof.
  intros H. destruct name as [|c name]; [done|]. cbn [length cut_slashes]. rewrite bool_decide_false; [by apply take_ge|].
  intros E%list_elem_of_lookup_2. done.
Qed.
Lemma normalize_plain name : SLASH ∉ name → normalize name = name.
Proof.
  intros H. unfold normalize. destruct name as [|a [|b name]]; [done|by rewrite skip_slashes_plain, cut_slashes_plain|].
  apply not_elem_of_cons in H as Hab. destruct Hab as [_ [Hb _]%not_elem_of_cons].
  rewrite (proj2 (Z.eqb_neq b Vfs.SLASH)) by (unfold Vfs.SLASH, SLASH in *; lia). rewrite andb_false_r. by rewrite skip_slashes_plain, cut_slashes_plain.
Qed.
Lemma strrchr_plain name : SLASH ∉ name → strrchr Vfs.SLASH name = None.
Proof.
  induction name as [|c name IH]; [done|]. intros [Hc Hn]%not_elem_of_cons. cbn. rewrite IH by done.
  by rewrite (proj2 (Z.eqb_neq c Vfs.SLASH)) by (unfold Vfs.SLASH, SLASH in *; lia).
Qed.

(** *** Directories whose entries change *)

Lemma is_dir_same k k' vn node v n (es : entries) :
  is_dir k vn node v n es → nodes (fs k') = nodes (fs k) → vnodes k' !! vn = vnodes k !! vn → is_dir k' vn node v n es.
Proof. intros [[I1 I2 I3 I4] I5 I6 I7 I8] EN EV. split; rewrite ?EN, ?EV; try done. split; rewrite ?EN, ?EV; done. Qed.
(** The bytes of the first entry change. *)
Lemma is_dir_head k k' vn node v n c cn cn' (es : entries) :
  is_dir k vn node v n ((c, cn) :: es) → nodes (fs k') = <[c := cn']> (nodes (fs k)) → vnodes k' !! vn = vnodes k !! vn →
  n_sibling cn' = n_sibling cn → n_name cn' = n_name cn → is_dir k' vn node v n ((c, cn') :: es).
Proof.
  intros [[I1 I2 I3 I4] I5 I6 I7 I8] EN EV ES EM. cbn [chain] in I6. destruct I6 as (Hc & Hc0 & Hcn & Hch). rewrite !fmap_cons in *. cbn [fst snd] in *.
  apply NoDup_cons in I7 as [Hn1 [Hn2 Hn3]%NoDup_cons]. apply not_elem_of_cons in Hn1 as [Hne Hn1].
  split; rewrite ?EN, ?EV; try done.
  - split; rewrite ?EN, ?EV; try done. by rewrite lookup_insert_ne.
  - cbn [chain]. rewrite ES. split_and!; [done|done|apply lookup_insert_eq|]. eapply chain_frame; [exact Hch|].
    intros d nd Hin. rewrite lookup_insert_ne; [done|]. intros <-. apply Hn2. by apply (list_elem_of_fmap_2 fst _ (c, nd)).
  - rewrite fmap_cons. constructor; [by apply not_elem_of_cons|]. by constructor.
  - rewrite !fmap_cons. cbn. by rewrite EM.
Qed.

(** *** One file *)

(** The file [e] as an entry: all its bytes, or none when memory ran out. *)
Definition holds (e : entry) (cn : ramfs_node D) : Prop :=
  n_name cn = te_name e ∧ n_type cn = VNODE_TYPE_FILE ∧ (content cn = te_data e ∨ content cn = []).

Lemma file_write_empty bytes : file_write [] 0 bytes = bytes.
Proof. unfold file_write, extend. cbn. rewrite Nat.sub_0_r. apply splice_full. by rewrite length_replicate. Qed.

(** What is done to the new file: its node is [cn'] and only its vnode changed. *)
Record filled (c cv : Z) (cn : ramfs_node D) (data : list Z) k k' (cn' : ramfs_node D) : Prop := {
  fi_nodes : nodes (fs k') = <[c := cn']> (nodes (fs k));
  fi_next : next k <= next k';
  fi_vnodes a : a ≠ cv → vnodes k' !! a = vnodes k !! a;
  fi_vnode : is_Some (vnodes k' !! cv);
  fi_same : n_name cn' = n_name cn ∧ n_sibling cn' = n_sibling cn ∧ n_type cn' = n_type cn;
  fi_content : content cn' = data ∨ content cn' = []
}.

(** [vfs_close] on the only descriptor of a vnode that somebody else holds. *)
Lemma tar_close_wp k f fl cv v :
  f ≠ 0 → files k !! f = Some fl → f_refcount fl = 1 → f_vn fl = cv → cv ≠ 0 → vnodes k !! cv = Some v → vn_refcnt v = 2 →
  wp (Vfs.vfs_close ops f;; mret tt) (λ _ k', nodes (fs k') = nodes (fs k) ∧ next k' = next k ∧
    (∀ a, a ≠ cv → vnodes k' !! a = vnodes k !! a) ∧ is_Some (vnodes k' !! cv)) k.
Proof.
  intros Hf Hfl Hr <- Hcv Hv Hrv. unfold Vfs.vfs_close. rewrite (proj2 (Z.eqb_neq f 0)) by done. wp_step. wp_step. eapply get_file_wp; [done|].
  rewrite Hr. change (1 <? 1) with false. cbn iota. rewrite (proj2 (Z.eqb_neq (f_vn fl) 0)) by done. cbn [negb].
  wp_step. unfold vnode_unref. rewrite (proj2 (Z.eqb_neq (f_vn fl) 0)) by done. wp_step. eapply get_vnode_wp; [done|].
  rewrite Hrv. change (2 =? 0) with false. change (2 - 1 =? 0) with false. cbn iota. wp_step. apply wp_modify. wp_step.
  wp_step. apply wp_modify. wp_step. wp_step. split_and!; [done|done| |].
  - intros a Ha. cbn. by rewrite lookup_insert_ne.
  - cbn. rewrite lookup_insert_eq. by eexists.
Qed.

(** Nothing is written to an empty file. *)
Lemma write_nothing_run k f cv c cn :
  open_on k f (mk_file cv 0 0 Vfs.GENERIC_FILE_OPS 1) cv c cn →
  Vfs.vfs_write ops f (Some []) 0 k = Some ((ERR_SUCCESS, 0), set_files (<[f := mk_file cv 0 0 Vfs.GENERIC_FILE_OPS 1]> (files k)) k).
Proof.
  intros [(Hf & Hfl & _ & _) _ (v & Hv & Hvo) [I1 (v' & Hv' & Hd) I3 I4] Hok]. unfold Vfs.vfs_write. erewrite generic_run by done.
  unfold Vfs.vfs_generic_write. rewrite (proj2 (Z.eqb_neq f 0)) by done. erewrite bind_run by (unfold get_file, cread; by rewrite Hfl).
  cbn [f_vn f_offset]. rewrite (proj2 (Z.eqb_neq cv 0)) by done. cbn [orb negb andb Z.eqb]. erewrite bind_run by (unfold get_vnode, cread; by rewrite Hv).
  unfold Vfs.has_op, Ramfs.ops_of at 1. rewrite Hvo. cbn [Z.eqb RAMFS_OPS Pos.eqb mbind option_bind op_write ramfs_vnode_ops].
  assert (E : ramfs_write_vn stale cv (Some []) 0 0 k = Some ((ERR_SUCCESS, 0), k)).
  { unfold ramfs_write_vn. rewrite (proj2 (Z.eqb_neq cv 0)) by done. cbn [orb negb andb Z.eqb]. erewrite bind_run by (unfold get_vnode, cread; by rewrite Hv').
    rewrite Hd, (proj2 (Z.eqb_neq c 0)) by done. erewrite bind_run by (unfold get_node, cread; by rewrite I4).
    destruct (type_tests cn (fo_type _ Hok)) as (-> & -> & ->). done. }
  erewrite bind_run by exact E. cbn beta iota. erewrite transfer_done_run by done. done.
Qed.

(** Writing all bytes to the new, open file and closing it. *)
Lemma tar_fill_wp k f c cv cn (data : list Z) mp :
  open_on k f (mk_file cv 0 0 Vfs.GENERIC_FILE_OPS 1) cv c cn → vnodes k !! cv = Some (mk_vnode VNODE_TYPE_FILE 2 mp RAMFS_OPS c 0) →
  content cn = [] → Z.of_nat (length data) < 2 ^ 32 - 1024 →
  wp (Vfs.vfs_write ops f (Some data) (Z.of_nat (length data));; Vfs.vfs_close ops f;; mret tt) (λ _ k', ∃ cn', filled c cv cn data k k' cn') k.
Proof.
  intros Hopen Hv Hc Hl. pose proof Hopen as [(Hf & Hfl & _ & _) _ _ Hin Hok]. pose proof (in_vn _ _ _ _ Hin) as Hcv. pose proof (in_at _ _ _ _ Hin) as Hat.
  assert (Hclose : ∀ k1 cn' off, files k1 !! f = Some (mk_file cv off 0 Vfs.GENERIC_FILE_OPS 1) → vnodes k1 = vnodes k → next k <= next k1 →
    nodes (fs k1) = <[c := cn']> (nodes (fs k)) → n_name cn' = n_name cn ∧ n_sibling cn' = n_sibling cn ∧ n_type cn' = n_type cn →
    content cn' = data ∨ content cn' = [] → wp (Vfs.vfs_close ops f;; mret tt) (λ _ k', ∃ cn', filled c cv cn data k k' cn') k1).
  { intros k1 cn' off Hf1 EV Hn EN Hsame Hcon. eapply wp_mono; [eapply (tar_close_wp k1 f _ cv); [done|exact Hf1|done|done|done|by rewrite EV|done]|]. cbn beta.
    intros _ k' (E1 & E2 & E3 & E4). exists cn'. split; [congruence|lia| |done|done|done]. intros a Ha. by rewrite E3, EV. }
  destruct data as [|b data].
  - wp_step. eapply wp_eq; [by apply (write_nothing_run k f cv c cn)|]. apply (Hclose _ cn 0); [cbn; apply lookup_insert_eq|done|cbn; lia| |done|by left].
    cbn. by rewrite insert_id.
  - wp_step. eapply wp_mono; [apply (vfs_write_node_wp stale k f _ cv c cn (b :: data) _ Hopen); [cbn [length] in *; lia|lia]|]. cbn beta.
    intros r k2 (k1 & [(-> & _ & ->)|[(-> & Hk1)|(-> & _ & n' & Hk1 & _ & _ & Hcon & S1 & _ & S2 & _ & S3)]] & HF & ->); unfold write_state; cbn [fst].
    + apply (Hclose k cn 0); [done|done|lia|by rewrite insert_id|done|by right].
    + apply (Hclose k1 cn 0); [by rewrite HF|apply Hk1|apply Hk1|apply Hk1|done|by right].
    + change (ERR_SUCCESS =? ERR_SUCCESS) with true. cbn iota. eapply (Hclose _ n'); [cbn; apply lookup_insert_eq|cbn; apply Hk1|cbn; apply Hk1|cbn; apply Hk1|done|].
      left. rewrite Hcon, Hc. cbn [f_offset]. rewrite Nat2Z.id, firstn_all. apply file_write_empty.
Qed.

(** The root directory [root] with the entries [es], in a store in order. *)
Definition root_dir k (root node : Z) (v : vnode) (es : entries) : Prop := store_ok k ∧ ∃ n, is_dir k root node v n es.

Lemma plain_name e : plain e → bad_name (te_name e) = false.
Proof.
  intros [(H1 & H2 & H3 & H4) _ _ _]. unfold bad_name. rewrite !bool_decide_false by done. cbn [orb].
  rewrite (proj2 (streq_false _ _) H3). by apply streq_false.
Qed.

Lemma extract_file_wp k root node v e (es : entries) :
  root_dir k root node v es → vn_ops v = RAMFS_OPS → plain e → te_name e ∉ n_name <$> es.*2 →
  wp (extract_file ops root (te_name e) (te_data e) (Z.of_nat (length (te_data e)))) (λ _ k',
    root_dir k' root node v es ∨ ∃ c cn, root_dir k' root node v ((c, cn) :: es) ∧ holds e cn) k.
Proof.
  intros [Hok (n & Hdir)] Hvo Hpl Hnin. pose proof (id_vnode _ _ _ _ _ _ Hdir) as (Hv & _ & _). unfold extract_file, create_in, Tar.op.
  wp_step. wp_step. wp_step. eapply get_vnode_wp; [exact Hv|]. rewrite Hvo. eapply wp_get_opt; [reflexivity|].
  eapply wp_mono; [by apply (create_wp k root node v n es)|]. cbn beta. intros r k1. rewrite (plain_name e Hpl).
  change (negb (creatable VNODE_TYPE_FILE)) with false. cbn iota. rewrite bool_decide_false by (intros [x Hx]; by rewrite (proj2 (find_entry_None _ _) Hnin) in Hx).
  intros [(-> & EN & EV & Hs1)|(c & cv & -> & Hc & Hcvn & EN & EV & Hdir1 & Hcv & Hs1)].
  { change (negb (ERR_OUT_OF_MEMORY =? 0)) with true. cbn iota. wp_step. left. split; [done|]. exists n. apply (is_dir_same k); [done|done|by rewrite EV]. }
  change (negb (ERR_SUCCESS =? 0)) with false. cbn iota.
  set (cn := mk_node (te_name e) VNODE_TYPE_FILE cv node (n_children n) 0 [] 0 0 None None) in *.
  assert (Hrcv : root ≠ cv) by congruence.
  pose proof (id_chain _ _ _ _ _ _ Hdir1) as (_ & Hc0 & Hcn & _). pose proof (so_next _ Hs1) as Hn1.
  unfold Vfs.vfs_open_vnode, Vfs.open_file. rewrite (proj2 (Z.eqb_neq cv 0)) by done. wp_step. wp_step. wp_step. apply kalloc_wp; intros o; cbn beta.
  { cbn [Z.eqb]. wp_step. cbn beta iota. wp_step. cbn [Z.eqb]. wp_step. right. exists c, cn. split; [|split_and!; [done|done|by right]].
    split; [apply (store_ok_grows k1); [done|cbn; lia|done|done]|]. eexists. by apply (is_dir_same k1). }
  rewrite (proj2 (Z.eqb_neq (next k1) 0)) by lia. wp_step. unfold vnode_ref. rewrite (proj2 (Z.eqb_neq cv 0)) by done.
  wp_step. eapply get_vnode_wp; [cbn; rewrite EV; apply lookup_insert_eq|]. apply wp_modify. wp_step. apply wp_modify. wp_step. cbn beta iota. wp_step.
  rewrite (proj2 (Z.eqb_neq (next k1) 0)) by lia. rewrite Nat2Z.id, firstn_all.
  set (k2 := set_files _ _). eapply wp_mono; [apply (tar_fill_wp k2 (next k1) c cv cn (te_data e) (vn_mount v))|].
  - split; [split_and!; [lia|cbn; apply lookup_insert_eq|done|done]|done| | |].
    + eexists. split; [cbn; apply lookup_insert_eq|done].
    + split; [done|eexists; split; [cbn; apply lookup_insert_eq|done]|done|exact Hcn].
    + split; cbn; [by left|lia|lia|done].
  - cbn. apply lookup_insert_eq.
  - done.
  - apply Hpl.
  - cbn beta. intros _ k3 (cn' & [FN Fn FV [vc FVc] (S1 & S2 & S3) FC]). right. exists c, cn'. split; [|split_and!; [by rewrite S1|by rewrite S3|done]].
    assert (Hroot : vnodes k3 !! root = vnodes k1 !! root) by (rewrite FV by done; cbn; by rewrite lookup_insert_ne).
    split.
    + destruct Hs1 as [N1 N2 N3]. cbn in Fn. split; [lia| |]; intros a Ha.
      * rewrite FN, lookup_insert_ne; [apply N2; lia|]. intros <-. rewrite N2 in Hcn by lia. done.
      * assert (a ≠ cv). { intros ->. specialize (N3 cv ltac:(lia)). by rewrite EV, lookup_insert_eq in N3. }
        rewrite FV by done. cbn. rewrite lookup_insert_ne by done. apply N3. lia.
    + eexists. apply (is_dir_head k1 k3 root node v _ c cn); [done|exact FN|done|done|done].
Qed.

(** *** The whole archive *)

(** From the entries [old], [now] are those after the archive: a file is there in
    front with its bytes, or left out when memory ran out. *)
Inductive extracted : entries → list entry → entries → Prop :=
  | ex_end old : extracted old [] old
  | ex_absent old e es now : extracted old es now → extracted old (e :: es) now
  | ex_present old e es c cn now : holds e cn → extracted ((c, cn) :: old) es now → extracted old (e :: es) now.

Lemma tar_install_wp k root node v e (old : entries) :
  root_dir k root node v old → vn_ops v = RAMFS_OPS → plain e → te_name e ∉ n_name <$> old.*2 → root ≠ 0 →
  wp (install ops root e) (λ go k', go = true ∧
    (root_dir k' root node v old ∨ ∃ c cn, root_dir k' root node v ((c, cn) :: old) ∧ holds e cn)) k.
Proof.
  intros Hd Hvo Hpl Hnin Hr. pose proof Hpl as [(Hne & Hs & _) Hleaf Ht _]. unfold install. cbn zeta. rewrite normalize_plain by done.
  rewrite bool_decide_false by done. unfold extract_entry, split_path. rewrite strrchr_plain by done. cbn beta iota.
  rewrite (proj2 (Nat.leb_gt _ _)) by done. rewrite bool_decide_true by done. wp_step. wp_step. rewrite (proj2 (Z.eqb_neq root 0)) by done.
  wp_step. rewrite (proj2 (Z.eqb_neq _ 53)) by done. eapply wp_mono; [by apply (extract_file_wp k root node v e old)|]. cbn beta.
  intros _ k' H. by wp_step.
Qed.

Lemma install_all_wp root node v es : ∀ k (old : entries),
  root_dir k root node v old → vn_ops v = RAMFS_OPS → Forall plain es → NoDup ((te_name <$> es) ++ (n_name <$> old.*2)) → root ≠ 0 →
  wp (install_all ops root es) (λ _ k', ∃ now, root_dir k' root node v now ∧ extracted old es now) k.
Proof.
  induction es as [|e es IH]; intros k old Hd Hvo Hpl Hnd Hr; cbn [install_all].
  { wp_step. exists old. split; [done|constructor]. }
  inversion Hpl as [|? ? Hp Hps]; subst. rewrite fmap_cons in Hnd. cbn [app] in Hnd. apply NoDup_cons in Hnd as [Hnin Hnd].
  apply not_elem_of_app in Hnin as [Hnin1 Hnin2]. wp_step. eapply wp_mono; [by apply (tar_install_wp k root node v e old)|]. cbn beta.
  intros go k1 [-> [Hd1|(c & cn & Hd1 & Hh)]]; cbn [negb].
  - eapply wp_mono; [by apply (IH k1 old)|]. cbn beta. intros _ k' (now & ? & ?). exists now. split; [done|]. by constructor.
  - eapply wp_mono; [apply (IH k1 ((c, cn) :: old)); [done|done|done| |done]|].
    + rewrite !fmap_cons. cbn [fst snd]. rewrite (proj1 Hh). apply NoDup_app in Hnd as (N1 & N12 & N2). apply NoDup_app. split_and!; [done| |by constructor].
      intros a Ha [->|Ha2]%elem_of_cons; [done|]. by eapply N12.
    + cbn beta. intros _ k' (now & ? & ?). exists now. split; [done|]. by eapply ex_present.
Qed.

End extraction.

(** ** Examples *)

Definition ex_plain : list entry := [mk_entry (cstr "init") 48 [127; 69; 76; 70]; mk_entry (cstr "motd") 48 []].
Lemma ex_plain_ok : Forall plain ex_plain ∧ Forall writable ex_plain.
Proof. split; repeat constructor; by_eval || done. Qed.
(** The system behind [boot_root_correct]. *)
Definition ex_boot : kernel (ramfs unit) :=
  default boot_kernel (snd <$> (mount_init;; mount_do_mount ramfs_types RAMFS_TYPE (Some []) (Some ROOT) None) boot_kernel).

Lemma ex_boot_root : ∃ node v, root_dir ex_boot (g_root_vnode ex_boot) node v [] ∧ vn_ops v = RAMFS_OPS.
Proof.
  assert (H : wp (mount_init;; mount_do_mount ramfs_types RAMFS_TYPE (Some []) (Some ROOT) None) (λ _ k, ∃ node v n, is_dir k (g_root_vnode k) node v n []) boot_kernel).
  { wp_step. eapply wp_mono; [apply wp_both; [by apply (mount_init_wp ramfs_types ramfs_inv boot_kernel boot_inv)|]|].
    { instantiate (1 := λ _ k1, g_mounts k1 = [] ∧ mounts k1 = ∅ ∧ oracle k1 = []). by vm_compute. }
    cbn beta. intros _ k1 [[_ HM] (Hg1 & Hm1 & Ho1)]. eapply wp_mono; [apply mount_root_wp; [apply HM|done..]|]. cbn beta.
    intros r k' (_ & node & v & n & Hd & _). by exists node, v, n. }
  assert (E : (mount_init;; mount_do_mount ramfs_types RAMFS_TYPE (Some []) (Some ROOT) None) boot_kernel = Some (ERR_SUCCESS, ex_boot)) by (vm_compute; reflexivity).
  apply (wp_elim _ _ _ _ _ H) in E as (node & v & n & Hd). exists node, v.
  pose proof (id_vnode _ _ _ _ _ _ Hd) as (Hv & _ & _). assert (Hops : vn_ops <$> vnodes ex_boot !! g_root_vnode ex_boot = Some RAMFS_OPS) by (vm_compute; reflexivity).
  rewrite Hv in Hops. injection Hops as Hops. split; [|done]. split; [|by exists n].
  split; [by vm_compute| |]; intros a Ha; change (next ex_boot) with 107 in Ha.
  - assert (Hd1 : dom (nodes (fs ex_boot)) = {[104]}) by (vm_compute; reflexivity). apply not_elem_of_dom. rewrite Hd1. set_unfold. lia.
  - assert (Hd1 : dom (vnodes ex_boot) = {[106]}) by (vm_compute; reflexivity). apply not_elem_of_dom. rewrite Hd1. set_unfold. lia.
Qed.

(** A program in a directory, read back through a path. *)
Example boot_reads_program :
  fst <$> (tar_extract (ops_of ex_stale) 5 (g_root_vnode ex_boot) 0x200000 (archive_of ex_entries) 3584;;
    '(_, f) ← Vfs.vfs_open (ops_of ex_stale) (Some (cstr "/bin/sh")) 0 true;
    Vfs.vfs_read (ops_of ex_stale) f true 100) ex_boot = Some (ERR_SUCCESS, 4, [127; 69; 76; 70]).
Proof. vm_compute. reflexivity. Qed.
End TarSpec.
