(* ===== verification/UserPath.v ===== *)
(** * The paths of user programs

    [syscall_resolve_path] of [src/kernel/core/syscall.c]: a path is made
    absolute with the directory of the process, and its dots are resolved, in a
    buffer of fixed capacity. *)

From S2P Require Import Prelude Vfs Input.

Module UserPath.

(** ** Paths *)

(** Writes to the buffer [resolved]; outside it they are undefined. *)
Definition put (buf : list Z) (i : nat) (c : Z) : option (list Z) :=
  if (i <? length buf)%nat then Some (<[i := c]> buf) else None.
Definition put_all (buf : list Z) (i : nat) (cs : list Z) : option (list Z) :=
  if (i + length cs <=? length buf)%nat then Some (splice i cs buf) else None.

(** [while (length > 1 && resolved[length - 1] != '/') length--] *)
Fixpoint back_to_slash (buf : list Z) (length : nat) : option nat :=
  match length with
  | S (S _ as shorter) =>
      c ← buf !! shorter;
      if c =? Vfs.SLASH then Some length else back_to_slash buf shorter
  | _ => Some length
  end.
(** A component [".."]. *)
Definition go_up (buf : list Z) (length : nat) : option (list Z * nat) :=
  if (1 <? length)%nat then
    length ← back_to_slash buf length;
    let length := if (1 <? length)%nat then (length - 1)%nat else length in
    buf ← put buf length 0;
    Some (buf, length)
  else Some (buf, length).
(** Any other component. *)
Definition go_down (capacity : Z) (buf : list Z) (len : nat) (component : cstring) : option (Z * list Z * nat) :=
  let length := Z.of_nat len in
  let component_length := Z.of_nat (List.length component) in
  let separator := if 1 <? length then 1 else 0 in
  if (capacity - separator <=? length) || (capacity - length - separator <=? component_length) then Some (ERR_NAME_TOO_LONG, buf, len) else
  '(buf, len) ← (if negb (separator =? 0) then buf ← put buf len Vfs.SLASH; Some (buf, (len + 1)%nat) else Some (buf, len));
  buf ← put_all buf len component;
  let len := (len + List.length component)%nat in
  buf ← put buf len 0;
  Some (ERR_SUCCESS, buf, len).

(** The loop over the components; a path of [n] bytes has at most [n]. *)
Fixpoint resolve_loop (fuel : nat) (capacity : Z) (cursor : cstring) (buf : list Z) (len : nat) : option (Z * list Z) :=
  match fuel with
  | O => None
  | S fuel =>
      let cursor := Vfs.skip_slashes cursor in
      if bool_decide (cursor = []) then Some (ERR_SUCCESS, buf) else
      let component := Vfs.first_segment cursor in
      let cursor := drop (length component) cursor in
      if streq component Vfs.DOT then resolve_loop fuel capacity cursor buf len else
      if streq component Vfs.DOTDOT then
        '(buf, len) ← go_up buf len;
        resolve_loop fuel capacity cursor buf len
      else
        '(result, buf, len) ← go_down capacity buf len component;
        if negb (result =? ERR_SUCCESS) then Some (result, buf) else resolve_loop fuel capacity cursor buf len
  end.

(** The status and the bytes of [resolved], which holds [resolved] before; the
    process is given by its directory [cwd]. *)
Definition syscall_resolve_path (cwd : list Z) (path : option cstring) (resolved : list Z) (capacity : Z) : option (Z * list Z) :=
  match path with
  | None | Some [] => Some (ERR_INVALID_ARGUMENT, resolved)
  | Some ((c :: _) as path) =>
    if capacity <? 2 then Some (ERR_INVALID_ARGUMENT, resolved) else
    if c =? Vfs.SLASH then
      buf ← put resolved 0 Vfs.SLASH;
      buf ← put buf 1 0;
      resolve_loop (S (length path)) capacity path buf 1
    else
      dir ← Input.string_in cwd;
      if (length dir =? 0)%nat || negb (bool_decide (head dir = Some Vfs.SLASH)) || (capacity <=? Z.of_nat (length dir)) then Some (ERR_INTERNAL, resolved) else
      buf ← put_all resolved 0 (take (length dir + 1) cwd);
      resolve_loop (S (length path)) capacity path buf (length dir)
  end.

(** ** The reference definition

    A directory is the list of its components. *)

Definition slashed (cs : list cstring) : cstring := cs ≫= (λ c, Vfs.SLASH :: c).
Definition render (cs : list cstring) : cstring := if bool_decide (cs = []) then [Vfs.SLASH] else slashed cs.
(** The components [l] taken from the directory [cs]; [None] when a path on the
    way does not fit. *)
Fixpoint normalize (capacity : Z) (cs l : list cstring) : option (list cstring) :=
  match l with
  | [] => Some cs
  | c :: l =>
      if streq c Vfs.DOT then normalize capacity cs l else
      if streq c Vfs.DOTDOT then normalize capacity (removelast cs) l else
      if Z.of_nat (length (render (cs ++ [c]))) <? capacity then normalize capacity (cs ++ [c]) l else None
  end.

(** A component of a path, and one of a canonical path. *)
Definition name_ok (c : cstring) : Prop := c ≠ [] ∧ Forall (λ x, x ≠ 0 ∧ x ≠ Vfs.SLASH) c.
Definition canonical (cs : list cstring) : Prop := Forall (λ c, name_ok c ∧ c ≠ Vfs.DOT ∧ c ≠ Vfs.DOTDOT) cs.
(** The buffer holds a string. *)
Definition path_in (buf : list Z) (str : cstring) : Prop := ∃ rest, buf = str ++ 0 :: rest.

(** ** Lemmas *)

Lemma slashed_snoc cs c : slashed (cs ++ [c]) = slashed cs ++ Vfs.SLASH :: c.
Proof. unfold slashed. rewrite bind_app. cbn. by rewrite app_nil_r. Qed.
Lemma render_snoc cs c : render (cs ++ [c]) = slashed cs ++ Vfs.SLASH :: c.
Proof. unfold render. rewrite bool_decide_false by (by destruct cs). apply slashed_snoc. Qed.
Lemma render_cases cs : (cs = [] ∧ render cs = [Vfs.SLASH]) ∨ (cs ≠ [] ∧ render cs = slashed cs ∧ (1 ≤ length (slashed cs))%nat).
Proof.
  unfold render. destruct cs as [|c cs]; [by left|right]. split; [done|]. split; [done|]. cbn. lia.
Qed.

Lemma put_app a x b c : put (a ++ x :: b) (length a) c = Some (a ++ c :: b).
Proof.
  unfold put. rewrite (proj2 (Nat.ltb_lt _ _)) by (rewrite length_app; cbn; lia).
  by rewrite insert_app_r_alt, Nat.sub_diag by lia.
Qed.
Lemma put_all_app a cs b : (length cs ≤ length b)%nat → put_all (a ++ b) (length a) cs = Some (a ++ cs ++ drop (length cs) b).
Proof.
  intros H. unfold put_all. rewrite (proj2 (Nat.leb_le _ _)) by (rewrite length_app; lia). unfold splice.
  rewrite take_app_length. do 3 f_equal. rewrite drop_app_ge by lia. f_equal. lia.
Qed.

Lemma string_in_path buf str : Forall (λ x, x ≠ 0) str → path_in buf str → Input.string_in buf = Some str.
Proof.
  intros H [rest ->]. induction H as [|c str Hc _ IH]; [done|]. cbn. by rewrite (proj2 (Z.eqb_neq c 0)), IH.
Qed.
Lemma name_no_slash c : name_ok c → Forall (λ x, x ≠ Vfs.SLASH) c.
Proof. intros [_ H]. eapply Forall_impl; [exact H|]. by intros ? []. Qed.
Lemma slashed_no_nul cs : Forall name_ok cs → Forall (λ x, x ≠ 0) (slashed cs).
Proof.
  intros H. unfold slashed. apply Forall_bind. eapply Forall_impl; [exact H|]. intros c [_ Hc]. constructor; [done|].
  eapply Forall_impl; [exact Hc|]. by intros ? [].
Qed.
Lemma render_no_nul cs : Forall name_ok cs → Forall (λ x, x ≠ 0) (render cs).
Proof. intros H. destruct (render_cases cs) as [[_ ->]|(_ & -> & _)]; [by repeat constructor|by apply slashed_no_nul]. Qed.
Lemma canonical_names cs : canonical cs → Forall name_ok cs.
Proof. intros H. eapply Forall_impl; [exact H|]. by intros ? [? _]. Qed.

Lemma back_to_slash_step buf n :
  back_to_slash buf (S (S n)) = (c ← buf !! S n; if c =? Vfs.SLASH then Some (S (S n)) else back_to_slash buf (S n)).
Proof. done. Qed.
Lemma back_to_slash_spec a c rest : Forall (λ x, x ≠ Vfs.SLASH) c →
  back_to_slash (a ++ Vfs.SLASH :: c ++ rest) (length a + 1 + length c) = Some (length a + 1)%nat.
Proof.
  revert rest. induction c as [|x c IH] using rev_ind; intros rest H.
  - cbn [app length]. rewrite Nat.add_0_r. destruct (length a) as [|n] eqn:E; [done|].
    replace (S n + 1)%nat with (S (S n)) by lia. rewrite back_to_slash_step, lookup_app_r by lia. by rewrite E, Nat.sub_diag.
  - apply Forall_app in H as [Hc Hx]. inversion_clear Hx.
    rewrite length_app. cbn [length]. replace (length a + 1 + (length c + 1))%nat with (S (S (length a + length c))) by lia.
    rewrite back_to_slash_step, lookup_app_r by lia. replace (S (length a + length c) - length a)%nat with (S (length c)) by lia.
    rewrite lookup_cons, <- app_assoc. cbn [app]. rewrite list_lookup_middle by done. cbn [mbind option_bind].
    rewrite (proj2 (Z.eqb_neq x Vfs.SLASH)) by done.
    specialize (IH (x :: rest) Hc). by replace (length a + 1 + length c)%nat with (S (length a + length c)) in IH by lia.
Qed.

Lemma go_up_spec buf cs : Forall name_ok cs → path_in buf (render cs) →
  ∃ buf', go_up buf (length (render cs)) = Some (buf', length (render (removelast cs))) ∧
    path_in buf' (render (removelast cs)) ∧ length buf' = length buf.
Proof.
  intros H [rest ->]. destruct cs as [|c cs _] using rev_ind; [by exists (Vfs.SLASH :: 0 :: rest); split; [|split; [exists rest|]]|].
  apply Forall_app in H as [Hcs Hc]. inversion_clear Hc as [|? ? Hn _]. pose proof (name_no_slash _ Hn) as Hs.
  rewrite removelast_last, render_snoc. unfold go_up. rewrite (proj2 (Nat.ltb_lt _ _)).
  2: { rewrite length_app. cbn. destruct Hn as [Hn _]. destruct c; [done|]. cbn. lia. }
  replace (length (slashed cs ++ Vfs.SLASH :: c)) with (length (slashed cs) + 1 + length c)%nat by (rewrite length_app; cbn; lia).
  rewrite <- app_assoc. cbn [app]. rewrite back_to_slash_spec by done. cbn [mbind option_bind].
  destruct (render_cases cs) as [[-> ->]|(Hne & -> & Hlen)].
  - cbn. destruct c as [|x c]; [by destruct Hn|]. cbn. eexists. split; [done|]. split; [by eexists|]. done.
  - rewrite (proj2 (Nat.ltb_lt _ _)) by lia. replace (length (slashed cs) + 1 - 1)%nat with (length (slashed cs)) by lia.
    rewrite put_app. cbn [mbind option_bind]. eexists. split; [done|]. split; [by eexists|]. rewrite !length_app. done.
Qed.

Lemma slashed_length cs : Forall name_ok cs → cs ≠ [] → (2 ≤ length (slashed cs))%nat.
Proof.
  intros H Hn. destruct H as [|c cs [Hc _] _]; [done|]. destruct c; [done|]. cbn. lia.
Qed.

(** The end of [go_down], behind the separator. *)
Lemma put_component p c x rest : (length c ≤ length rest)%nat →
  ∃ buf', (buf ← put_all (p ++ x :: rest) (length p) c; buf ← put buf (length p + length c)%nat 0;
           Some (ERR_SUCCESS, buf, (length p + length c)%nat)) = Some (ERR_SUCCESS, buf', length (p ++ c)) ∧
    path_in buf' (p ++ c) ∧ length buf' = length (p ++ x :: rest).
Proof.
  intros H. rewrite put_all_app by (cbn; lia). cbn [mbind option_bind].
  destruct (drop (length c) (x :: rest)) as [|y tail] eqn:Ed; apply (f_equal length) in Ed; rewrite length_drop in Ed; cbn [length] in Ed; [lia|].
  rewrite app_assoc, <- length_app, put_app. cbn [mbind option_bind]. eexists. split; [done|]. split; [by eexists|].
  rewrite !length_app. cbn. lia.
Qed.

Lemma go_down_spec buf cs c : Forall name_ok cs → name_ok c → path_in buf (render cs) →
  if Z.of_nat (length (render (cs ++ [c]))) <? Z.of_nat (length buf)
  then ∃ buf', go_down (Z.of_nat (length buf)) buf (length (render cs)) c = Some (ERR_SUCCESS, buf', length (render (cs ++ [c]))) ∧
    path_in buf' (render (cs ++ [c])) ∧ length buf' = length buf
  else go_down (Z.of_nat (length buf)) buf (length (render cs)) c = Some (ERR_NAME_TOO_LONG, buf, length (render cs)).
Proof.
  intros Hcs [Hc _] [rest ->]. rewrite render_snoc. unfold go_down.
  assert (1 ≤ length c)%nat by (destruct c; [done|cbn; lia]).
  destruct (decide (cs = [])) as [->|Hne].
  - change (render []) with [Vfs.SLASH]. change (slashed []) with (@nil Z). cbn [app length].
    change (1 <? Z.of_nat 1) with false. cbn iota. change (negb (0 =? 0)) with false. cbn iota. rewrite !Z.sub_0_r.
    destruct (Z.ltb_spec (Z.of_nat (S (length c))) (Z.of_nat (S (S (length rest))))).
    + rewrite (proj2 (Z.leb_gt _ _)), (proj2 (Z.leb_gt _ _)) by lia. cbn [orb mbind option_bind].
      apply (put_component [Vfs.SLASH] c 0 rest). lia.
    + rewrite (proj2 (Z.leb_le (_ - _) _)) by lia. by rewrite orb_true_r.
  - pose proof (slashed_length _ Hcs Hne). replace (render cs) with (slashed cs) by (unfold render; by rewrite bool_decide_false).
    set (p := slashed cs) in *. rewrite !length_app, !length_cons, (proj2 (Z.ltb_lt 1 _)) by lia.
    change (negb (1 =? 0)) with true. cbn iota.
    destruct (Z.ltb_spec (Z.of_nat (length p + S (length c))) (Z.of_nat (length p + S (length rest)))).
    + rewrite (proj2 (Z.leb_gt _ _)), (proj2 (Z.leb_gt _ _)) by lia. cbn [orb]. rewrite put_app. cbn [mbind option_bind].
      destruct rest as [|y rest]; [cbn in *; lia|].
      destruct (put_component (p ++ [Vfs.SLASH]) c y rest) as (buf' & E & Hin & Hl); [cbn in *; lia|].
      rewrite <- !app_assoc in *. cbn [app] in *. rewrite length_app in E. cbn [length] in E. exists buf'.
      split; [|split; [done|]].
      * etransitivity; [exact E|]. by rewrite !length_app.
      * rewrite Hl, !length_app. done.
    + rewrite (proj2 (Z.leb_le (_ - _ - _) _)) by lia. by rewrite orb_true_r.
Qed.

(** ** The components of a cursor *)

Lemma segments_clean p : Forall (λ s, Forall (λ x, x ≠ Vfs.SLASH) s) (Vfs.segments p).
Proof.
  induction p as [|c p IH]; [by repeat constructor|]. cbn [Vfs.segments]. destruct (Z.eqb_spec c Vfs.SLASH); [by constructor|].
  destruct IH as [|s l Hs Hl]; [by repeat constructor|]. constructor; [by constructor|done].
Qed.
Lemma segments_chars (P : Z → Prop) p : Forall P p → Forall (Forall P) (Vfs.segments p).
Proof.
  intros H. induction H as [|c p Hc _ IH]; [by repeat constructor|]. cbn [Vfs.segments]. destruct (c =? Vfs.SLASH); [by constructor|].
  destruct IH as [|s l Hs Hl]; [by repeat constructor|]. constructor; [by constructor|done].
Qed.
Lemma components_names p : Forall (λ x, x ≠ 0) p → Forall name_ok (Vfs.components p).
Proof.
  intros H. apply Forall_forall. intros c Hc. unfold Vfs.components in Hc. apply list_elem_of_filter in Hc as [Hne Hc].
  split; [done|]. apply Forall_and. pose proof (segments_chars _ _ H) as H1. pose proof (segments_clean p) as H2.
  rewrite Forall_forall in H1, H2. auto.
Qed.

(** What one turn of the loop takes off the cursor. *)
Lemma cursor_step p :
  (Vfs.components p = [] ∧ Vfs.skip_slashes p = []) ∨
  (∃ c l, Vfs.components p = c :: l ∧ Vfs.skip_slashes p ≠ [] ∧ Vfs.first_segment (Vfs.skip_slashes p) = c ∧
     Vfs.components (drop (length c) (Vfs.skip_slashes p)) = l ∧
     (length (drop (length c) (Vfs.skip_slashes p)) < length p)%nat).
Proof.
  rewrite <- Vfs.components_skip. pose proof (Vfs.skip_slashes_length p) as Hl. revert Hl.
  destruct (Vfs.skip_slashes_head p) as [->|(c & q & -> & Hc)]; intros Hl; [by left|right].
  rewrite Vfs.components_cons by done. do 2 eexists. split; [done|]. split; [done|]. split; [done|]. split; [done|].
  rewrite length_drop. cbn [Vfs.first_segment]. rewrite (proj2 (Z.eqb_neq c Vfs.SLASH)) by done. cbn [length] in *. lia.
Qed.

Lemma normalize_step capacity cs c l :
  normalize capacity cs (c :: l) =
    if streq c Vfs.DOT then normalize capacity cs l else
    if streq c Vfs.DOTDOT then normalize capacity (removelast cs) l else
    if Z.of_nat (length (render (cs ++ [c]))) <? capacity then normalize capacity (cs ++ [c]) l else None.
Proof. done. Qed.

Lemma Forall_removelast {A} (P : A → Prop) l : Forall P l → Forall P (removelast l).
Proof. intros H. destruct l as [|x l _] using rev_ind; [done|]. rewrite removelast_last. by apply Forall_app in H as [? _]. Qed.

(** What the buffer holds when the components [l] were taken from [cs]. *)
Definition resolved (capacity : Z) (cs l : list cstring) (r : option (Z * list Z)) : Prop :=
  match normalize capacity cs l with
  | Some cs' => ∃ buf', r = Some (ERR_SUCCESS, buf') ∧ path_in buf' (render cs') ∧ Forall name_ok cs'
  | None => ∃ buf', r = Some (ERR_NAME_TOO_LONG, buf')
  end.

Lemma resolve_loop_spec fuel : ∀ cursor buf cs, (length cursor < fuel)%nat → Forall (λ x, x ≠ 0) cursor →
  Forall name_ok cs → path_in buf (render cs) →
  resolved (Z.of_nat (length buf)) cs (Vfs.components cursor) (resolve_loop fuel (Z.of_nat (length buf)) cursor buf (length (render cs))).
Proof.
  induction fuel as [|fuel IH]; intros cursor buf cs Hf Hz Hcs Hin; [lia|]. cbn [resolve_loop].
  destruct (cursor_step cursor) as [[-> ->]|(c & l & E & Hne & Ec & <- & Hl)]; [by exists buf|].
  assert (Hc : name_ok c ∧ Forall (λ x, x ≠ 0) (drop (length c) (Vfs.skip_slashes cursor))).
  { pose proof (components_names cursor Hz) as H. rewrite E in H. inversion_clear H as [|? ? Hn _]. split; [done|]. apply Forall_drop.
    clear -Hz. induction Hz as [|x p Hx Hp IH]; [done|]. cbn [Vfs.skip_slashes]. destruct (x =? Vfs.SLASH); [done|by constructor]. }
  destruct Hc as [Hc Hz']. rewrite bool_decide_false, Ec, E by done. unfold resolved. rewrite normalize_step.
  destruct (streq c Vfs.DOT); [by apply IH; [lia|..]|]. destruct (streq c Vfs.DOTDOT).
  - destruct (go_up_spec buf cs Hcs Hin) as (buf' & -> & Hin' & <-). cbn [mbind option_bind].
    apply IH; [lia|done|by apply Forall_removelast|done].
  - pose proof (go_down_spec buf cs c Hcs Hc Hin) as H.
    destruct (Z.of_nat (length (render (cs ++ [c]))) <? Z.of_nat (length buf)).
    + destruct H as (buf' & -> & Hin' & <-). cbn [mbind option_bind]. on_success. apply IH; [lia|done| |done].
      apply Forall_app. by split; [|constructor].
    + rewrite H. cbn [mbind option_bind]. by exists buf.
Qed.

(** ** Canonical paths *)

Lemma first_segment_app c p : Forall (λ x, x ≠ Vfs.SLASH) c → (p = [] ∨ head p = Some Vfs.SLASH) →
  Vfs.first_segment (c ++ p) = c.
Proof.
  intros H Hp. induction H as [|x c Hx _ IH].
  - destruct Hp as [->|Hp]; [done|]. destruct p as [|y p]; [done|]. injection Hp as ->. done.
  - cbn [app Vfs.first_segment]. by rewrite (proj2 (Z.eqb_neq x Vfs.SLASH)), IH.
Qed.
Lemma slashed_head cs : slashed cs = [] ∨ head (slashed cs) = Some Vfs.SLASH.
Proof. destruct cs; [by left|by right]. Qed.
Lemma components_slashed cs : Forall name_ok cs → Vfs.components (slashed cs) = cs.
Proof.
  intros H. induction H as [|c cs Hc _ IH]; [done|]. unfold slashed. rewrite bind_cons. cbn [app]. fold (slashed cs).
  rewrite Vfs.components_slash. pose proof (first_segment_app c (slashed cs) (name_no_slash _ Hc) (slashed_head cs)) as E.
  destruct Hc as [Hne Hc]. destruct c as [|x c]; [done|]. inversion_clear Hc as [|? ? [_ Hx] _]. cbn [app] in *.
  rewrite Vfs.components_cons, E by done. f_equal. unfold Vfs.after_segment. rewrite E.
  change (x :: c ++ slashed cs) with ((x :: c) ++ slashed cs). by rewrite drop_app_length.
Qed.
Lemma components_render cs : Forall name_ok cs → Vfs.components (render cs) = cs.
Proof.
  intros H. unfold render. destruct (decide (cs = [])) as [->|?]; [done|]. rewrite bool_decide_false by done. by apply components_slashed.
Qed.

Lemma normalize_canonical capacity l : ∀ cs cs', canonical cs → Forall name_ok l → normalize capacity cs l = Some cs' → canonical cs'.
Proof.
  induction l as [|c l IH]; intros cs cs' Hcs Hl E; [by injection E as <-|]. inversion_clear Hl as [|? ? Hc Hl'].
  rewrite normalize_step in E. destruct (streq c Vfs.DOT) eqn:E1; [by eapply IH|].
  destruct (streq c Vfs.DOTDOT) eqn:E2; [eapply IH; [|done..]; by apply Forall_removelast|].
  destruct (_ <? _); [|done]. eapply IH; [|done..]. apply Forall_app. split; [done|]. constructor; [|done].
  apply streq_false in E1, E2. done.
Qed.
Lemma length_removelast {A} (l : list A) : length (removelast l) = (length l - 1)%nat.
Proof. destruct l as [|x l _] using rev_ind; [done|]. rewrite removelast_last, length_app. cbn. lia. Qed.
Lemma render_shorter cs : (length (render (removelast cs)) ≤ length (render cs))%nat.
Proof.
  destruct cs as [|c cs _] using rev_ind; [done|]. rewrite removelast_last, render_snoc, length_app. cbn.
  destruct (render_cases cs) as [[_ ->]|(_ & -> & _)]; cbn; lia.
Qed.
Lemma normalize_fits capacity l : ∀ cs cs', Z.of_nat (length (render cs)) < capacity →
  normalize capacity cs l = Some cs' → Z.of_nat (length (render cs')) < capacity.
Proof.
  induction l as [|c l IH]; intros cs cs' Hcs E; [by injection E as <-|]. rewrite normalize_step in E.
  destruct (streq c Vfs.DOT); [by eapply IH|]. destruct (streq c Vfs.DOTDOT).
  - pose proof (render_shorter cs). eapply IH; [|done]. lia.
  - destruct (Z.ltb_spec (Z.of_nat (length (render (cs ++ [c])))) capacity); [by eapply IH|done].
Qed.

Lemma normalize_Forall (P : cstring → Prop) capacity l : ∀ cs cs', Forall P cs → Forall P l → normalize capacity cs l = Some cs' → Forall P cs'.
Proof.
  induction l as [|c l IH]; intros cs cs' Hcs Hl E; [by injection E as <-|]. inversion_clear Hl as [|? ? Hc Hl'].
  rewrite normalize_step in E. destruct (streq c Vfs.DOT); [exact (IH _ _ Hcs Hl' E)|].
  destruct (streq c Vfs.DOTDOT); [exact (IH _ _ (Forall_removelast P cs Hcs) Hl' E)|].
  destruct (_ <? _); [|done]. refine (IH _ _ _ Hl' E). apply Forall_app. split; [done|]. by constructor.
Qed.
Lemma components_chars (P : Z → Prop) p : Forall P p → Forall (Forall P) (Vfs.components p).
Proof. intros H. unfold Vfs.components. apply Forall_forall. intros c Hc. apply list_elem_of_filter in Hc as [_ Hc]. pose proof (segments_chars _ _ H) as H1. rewrite Forall_forall in H1. auto. Qed.
Lemma render_chars (P : Z → Prop) cs : P Vfs.SLASH → Forall (Forall P) cs → Forall P (render cs).
Proof.
  intros H0 H. destruct (render_cases cs) as [[_ ->]|(_ & -> & _)]; [by constructor|]. unfold slashed. apply Forall_bind.
  eapply Forall_impl; [exact H|]. intros c Hc. by constructor.
Qed.

(** The directories that a buffer of [capacity] bytes can hold. *)
Definition directory (capacity : Z) (cwd : list Z) (cs : list cstring) : Prop :=
  canonical cs ∧ path_in cwd (render cs) ∧ Z.of_nat (length (render cs)) < capacity.
Definition base_of (path : cstring) (cs : list cstring) : list cstring := if bool_decide (head path = Some Vfs.SLASH) then [] else cs.

Lemma resolve_path_spec cwd cs path buf :
  directory (Z.of_nat (length buf)) cwd cs → path ≠ [] → Forall (λ x, x ≠ 0) path → (2 ≤ length buf)%nat →
  match normalize (Z.of_nat (length buf)) (base_of path cs) (Vfs.components path) with
  | Some cs' => ∃ buf', syscall_resolve_path cwd (Some path) buf (Z.of_nat (length buf)) = Some (ERR_SUCCESS, buf') ∧
      directory (Z.of_nat (length buf)) buf' cs' ∧ Vfs.components (render cs') = cs'
  | None => ∃ buf', syscall_resolve_path cwd (Some path) buf (Z.of_nat (length buf)) = Some (ERR_NAME_TOO_LONG, buf')
  end.
Proof.
  intros (Hcan & Hcwd & Hfit) Hp Hz Hb. pose proof (canonical_names _ Hcan) as Hcs.
  assert (Hbase : canonical (base_of path cs) ∧ Z.of_nat (length (render (base_of path cs))) < Z.of_nat (length buf)).
  { unfold base_of. case_bool_decide; [|done]. split; [by constructor|]. cbn. lia. }
  assert (H : resolved (Z.of_nat (length buf)) (base_of path cs) (Vfs.components path)
                (syscall_resolve_path cwd (Some path) buf (Z.of_nat (length buf)))).
  { destruct path as [|c path]; [done|]. cbn [syscall_resolve_path]. rewrite (proj2 (Z.ltb_ge _ 2)) by lia.
    destruct buf as [|x [|y rest]]; [cbn in Hb; lia..|]. unfold base_of. cbn [head]. destruct (Z.eqb_spec c Vfs.SLASH) as [->|Hne].
    - rewrite bool_decide_true by done.
      apply (resolve_loop_spec _ (Vfs.SLASH :: path) (Vfs.SLASH :: 0 :: rest) []); [lia|done|by constructor|by exists rest].
    - rewrite bool_decide_false by congruence. rewrite (string_in_path _ _ (render_no_nul _ Hcs) Hcwd). cbn [mbind option_bind].
      assert (Hl : (1 ≤ length (render cs))%nat ∧ head (render cs) = Some Vfs.SLASH).
      { destruct (render_cases cs) as [[_ ->]|(Hn & -> & ?)]; [done|]. split; [done|]. by destruct (slashed_head cs) as [E|E]; [rewrite E in *; cbn in *; lia|]. }
      destruct Hl as [Hl Hh]. rewrite (proj2 (Nat.eqb_neq _ _)), Hh, bool_decide_true, (proj2 (Z.leb_gt _ _)) by (done || lia). cbn [orb negb].
      set (b := x :: y :: rest) in *. destruct Hcwd as [tail Hcwd].
      assert (Et : take (length (render cs) + 1) cwd = render cs ++ [0]).
      { rewrite Hcwd, take_app_ge by lia. f_equal. replace (_ - _)%nat with 1%nat by lia. done. }
      rewrite Et. change b with ([] ++ b). rewrite (put_all_app [] _ b) by (rewrite length_app; cbn [length]; lia). cbn [app mbind option_bind].
      assert (Eb : length b = length ((render cs ++ [0]) ++ drop (length (render cs ++ [0])) b)) by (rewrite length_app, length_drop, length_app; cbn [length]; lia).
      rewrite Eb. apply resolve_loop_spec; [lia|done|done|]. eexists. rewrite <- app_assoc. done. }
  unfold resolved in H. destruct (normalize _ (base_of path cs) (Vfs.components path)) as [cs'|] eqn:E; [|exact H].
  destruct H as (buf' & Er & Hin & Hn). exists buf'. split; [done|]. split; [|by apply components_render].
  split; [|split; [done|]].
  - eapply normalize_canonical; [apply Hbase| |exact E]. by apply components_names.
  - eapply normalize_fits; [|exact E]. apply Hbase.
Qed.

(** C4: A path of a program is resolved without an access outside the two arrays.
    The result is the canonical path of the directory that the components lead
    to from the root or from the directory of the process, a ".." removing one
    component and stopping at the root; it names again a directory that a
    process may have, and the virtual file system takes exactly its components
    from it.  A path that does not fit on the way is refused. *)
Theorem resolve_path_canonical cwd cs path buf :
  directory (Z.of_nat (length buf)) cwd cs → path ≠ [] → Forall (λ x, x ≠ 0) path → (2 ≤ length buf)%nat →
  match normalize (Z.of_nat (length buf)) (base_of path cs) (Vfs.components path) with
  | Some cs' => ∃ buf', syscall_resolve_path cwd (Some path) buf (Z.of_nat (length buf)) = Some (ERR_SUCCESS, buf') ∧
      directory (Z.of_nat (length buf)) buf' cs' ∧ Vfs.components (render cs') = cs'
  | None => ∃ buf', syscall_resolve_path cwd (Some path) buf (Z.of_nat (length buf)) = Some (ERR_NAME_TOO_LONG, buf')
  end.
Proof. apply resolve_path_spec. Qed.

Definition ex_cwd : list Z := cstr "/usr/bin" ++ replicate 248 0.
Definition ex_path : cstring := cstr "../lib/.//x/".
Lemma resolve_path_canonical_witness :
  ∃ buf, syscall_resolve_path ex_cwd (Some ex_path) (replicate 256 7) 256 = Some (ERR_SUCCESS, buf) ∧
    Input.string_in buf = Some (cstr "/usr/lib/x").
Proof.
  assert (Hd : directory (Z.of_nat (length (replicate 256 7))) ex_cwd [cstr "usr"; cstr "bin"]).
  { split; [by_eval|]. split; [by exists (replicate 247 0)|by_eval]. }
  destruct (resolve_path_canonical ex_cwd _ ex_path (replicate 256 7) Hd ltac:(done) ltac:(by_eval) ltac:(by_eval)) as (buf & E & (_ & Hin & _) & _).
  exists buf. split; [exact E|]. apply string_in_path; [by_eval|exact Hin].
Defined.
End UserPath.
