(* ===== verification/Syscall.v ===== *)
(** * System calls

    [src/kernel/core/syscall.c]: the calls of a user program, over the process
    table, the address spaces, the file store, the terminal and the line editor.
    A program's pointers are checked and copied by [Paging.v]; its paths are made
    absolute by [UserPath.v] before the virtual file system sees them. *)

From S2P Require Import Prelude Pmm Paging Spaces Vnode Objects Ramfs Vfs Fd Stack Sched Exec ExecFile Input Console Tty UserPath.
Import Paging Spaces Vnode Objects Ramfs Stack Sched Exec UserPath.

Module Syscall.

Definition SYSCALL_IO_MAX : Z := 64 * 1024.
Definition SYSCALL_IO_CHUNK : Z := 256.
Definition SYSCALL_PATH_MAX : Z := 256.
Definition SYSCALL_PRINT_MAX : Z := 4096.
Definition ERR_NO_CHILD_PROCESS : Z := -100.

(** The numbers of [src/include/shared/syscall.h]. *)
Definition SYS_exit : Z := 1.
Definition SYS_fork : Z := 2.
Definition SYS_read : Z := 3.
Definition SYS_write : Z := 4.
Definition SYS_open : Z := 5.
Definition SYS_close : Z := 6.
Definition SYS_waitpid : Z := 7.
Definition SYS_execve : Z := 8.
Definition SYS_chdir : Z := 9.
Definition SYS_getcwd : Z := 10.
Definition SYS_mkdir : Z := 11.
Definition SYS_rmdir : Z := 12.
Definition SYS_unlink : Z := 13.
Definition SYS_stat : Z := 14.
Definition SYS_lseek : Z := 15.
Definition SYS_getpid : Z := 16.
Definition SYS_readdir : Z := 20.
Definition SYS_print : Z := 40.
Definition SYS_scan : Z := 41.
Definition SYS_printcolor : Z := 42.
Definition SYS_clear : Z := 43.
Definition SYS_ftruncate : Z := 44.
Definition SYS_setcolor : Z := 45.
Definition MINIOS_SEEK_SET : Z := 0.
Definition MINIOS_SEEK_CUR : Z := 1.
Definition MINIOS_SEEK_END : Z := 2.

(** ** The state *)

(** The file store, the scheduler with the process table and the memory, the
    statics of this file, the line editor and the terminal. *)
Record system (D : Type) := mk_system {
  kern : kernel (ramfs D);
  sos : os;
  g_fd_tables : list Fd.fd_table;
  g_fd_tables_used : list bool;
  sline : Input.line;
  stty : Tty.tty
}.
Arguments mk_system {D}.
Arguments kern {D} _.
Arguments sos {D} _.
Arguments g_fd_tables {D} _.
Arguments g_fd_tables_used {D} _.
Arguments sline {D} _.
Arguments stty {D} _.

Section syscall.
Context {D : Type} (stale : nat → Z) (glyph_row : Z → Z → Z) (kthread_entry user_thread_entry : Z).
Abbreviation K := (kernel (ramfs D)).
Abbreviation sys := (system D).
Abbreviation ops := (ops_of (D := D) stale).
(** What the other threads do while a call waits, to the line editor and to the
    whole system, and a bound on the number of waits. *)
Context (typist : cmd Input.line unit) (others : cmd sys unit) (waits : nat).
Implicit Types (s : sys).

Definition set_kern (k : K) s : sys := mk_system k (sos s) (g_fd_tables s) (g_fd_tables_used s) (sline s) (stty s).
Definition set_sos (o : os) s : sys := mk_system (kern s) o (g_fd_tables s) (g_fd_tables_used s) (sline s) (stty s).
Definition set_tables (t : list Fd.fd_table) (u : list bool) s : sys := mk_system (kern s) (sos s) t u (sline s) (stty s).
Definition set_sline (l : Input.line) s : sys := mk_system (kern s) (sos s) (g_fd_tables s) (g_fd_tables_used s) l (stty s).
Definition set_stty (t : Tty.tty) s : sys := mk_system (kern s) (sos s) (g_fd_tables s) (g_fd_tables_used s) (sline s) t.

Definition on_kern {A} (m : cmd K A) : cmd sys A := czoom kern set_kern m.
Definition on_os {A} (m : cmd os A) : cmd sys A := czoom sos set_sos m.
Definition on_line {A} (m : cmd Input.line A) : cmd sys A := czoom sline set_sline m.
Definition on_tty {A} (m : cmd Tty.tty A) : cmd sys A := czoom stty set_stty m.
(** The table [g_fd_tables[i]] with the file store. *)
Definition on_table {A} (i : Z) (m : cmd (Fd.fds (ramfs D)) A) : cmd sys A :=
  t ← cread (λ s, g_fd_tables s !! Z.to_nat i);
  czoom (λ s, Fd.mk_fds t (kern s))
        (λ x s, set_kern (Fd.kern x) (set_tables (<[Z.to_nat i := Fd.table x]> (g_fd_tables s)) (g_fd_tables_used s) s)) m.

Definition current_process : cmd sys process := on_os (p ← proc_current; get_proc p).
(** A copy from or to the program, whose address space the process table gives. *)
Definition set_current_pd (pd : Z) (m : machine) : machine :=
  mk_machine (mem m) (frames m) (kernel_pd m) (kernel_pd_phys m) (cr3 m) (paging_on m) (Some pd) (temp_map_phys m).
Definition on_user {A} (m : cmd machine A) : cmd sys A :=
  x ← current_process;
  on_os (czoom (λ o, set_current_pd (p_pd x) (mm o)) set_mm m).

(** The index of the table of the current process. *)
Definition syscall_get_fd_table : cmd sys (option Z) :=
  x ← current_process;
  if (p_pid x <? 0) || (64 <=? p_pid x) then mret None else
  used ← cread (λ s, g_fd_tables_used s !! Z.to_nat (p_pid x));
  (if negb (used : bool) then
     on_table (p_pid x) (Fd.fd_table_init true);;
     cmodify (λ s, set_tables (g_fd_tables s) (<[Z.to_nat (p_pid x) := true]> (g_fd_tables_used s)) s)
   else mret tt);;
  mret (Some (p_pid x)).

(** The file of a descriptor, 0 for NULL. *)
Definition descriptor_file (fd : Z) : cmd sys Z :=
  fdt ← syscall_get_fd_table;
  match fdt with None => mret 0 | Some i => on_table i (Fd.fd_get true fd) end.

Definition syscall_user_range_valid (address length : Z) (write : bool) : cmd sys bool :=
  x ← current_process;
  on_user (paging_user_range_valid (p_pd x) address length write).

(** The first steps of the calls that take a path: it is copied and made
    absolute in the buffers [pathname] and [resolved]. *)
Definition user_path (address : Z) : cmd sys (Z * cstring) :=
  '(result, pathname) ← on_user (copy_user_string true SYSCALL_PATH_MAX address);
  if negb (result =? ERR_SUCCESS) then mret (result, []) else
  path ← cget_opt (Input.string_in pathname);
  x ← current_process;
  '(result, resolved) ← cget_opt (syscall_resolve_path (p_cwd x) (Some path) (stale <$> seq 0 (Z.to_nat SYSCALL_PATH_MAX)) SYSCALL_PATH_MAX);
  if negb (result =? ERR_SUCCESS) then mret (result, []) else
  resolved ← cget_opt (Input.string_in resolved);
  mret (ERR_SUCCESS, resolved).

(** ** Processes

    In the calls [arg1] to [arg3] are C integers; the result goes to [eax]. *)

Definition sys_exit (code : Z) : cmd sys Z :=
  on_os (
    proc_mark_exit code;;
    t ← sched_current;
    (if t =? 0 then mret tt else th ← get_thread t; put_thread t (with_state THREAD_ZOMBIE th));;
    ksched_yield);;
  mret ERR_SUCCESS.

Definition sys_getpid : cmd sys Z := x ← current_process; mret (p_pid x).

(** [while (child->alive) ksched_yield()] *)
Fixpoint wait_exit (fuel : nat) (child : Z) : cmd sys unit :=
  match fuel with
  | O => cundef
  | S fuel =>
      x ← on_os (get_proc child);
      if p_alive x then on_os ksched_yield;; others;; wait_exit fuel child else mret tt
  end.
(** The descriptors of the table [i] from [fd] on. *)
Fixpoint close_from (n : nat) (i fd : Z) : cmd sys unit :=
  match n with
  | O => mret tt
  | S n =>
      e ← on_table i (Fd.entry fd);
      (if Fd.e_used e then on_table i (Fd.fd_close ops true fd);; mret tt else mret tt);;
      close_from n i (fd + 1)
  end.
Definition close_table (child_pid : Z) : cmd sys unit :=
  if (0 <? child_pid) && (child_pid <? 64) then
    used ← cread (λ s, g_fd_tables_used s !! Z.to_nat child_pid);
    if (used : bool) then
      close_from (Z.to_nat Fd.FD_MAX) child_pid 0;;
      cmodify (λ s, set_tables (g_fd_tables s) (<[Z.to_nat child_pid := false]> (g_fd_tables_used s)) s)
    else mret tt
  else mret tt.
Definition sys_waitpid (child_pid status options : Z) : cmd sys Z :=
  parent ← current_process;
  child ← on_os (proc_find_child (p_pid parent) child_pid);
  if negb (options =? 0) then mret ERR_NOT_SUPPORTED else
  if child =? 0 then mret ERR_NO_CHILD_PROCESS else
  wait_exit waits child;;
  x ← on_os (get_proc child);
  copy_result ← (if negb (status =? 0) then on_user (copy_to_user (u32 status) (Some (put32 (p_exit_code x))) 4) else mret ERR_SUCCESS);
  if negb (copy_result =? ERR_SUCCESS) then mret copy_result else
  close_table child_pid;;
  reap_result ← on_os (proc_reap child_pid);
  mret (if reap_result =? ERR_SUCCESS then child_pid else reap_result).

(** The arguments from the number [argc] on; [n] are left of the array. *)
Fixpoint read_argv (n : nat) (user_argv argc : Z) (argv : list cstring) : cmd sys (Z * list cstring) :=
  let pointer_address := u32 (user_argv + argc * 4) in
  match n with
  | O =>
      if pointer_address <? user_argv then mret (ERR_BUFFER_TOO_SMALL, argv) else
      '(result, data) ← on_user (copy_from_user true pointer_address 4);
      if negb (result =? ERR_SUCCESS) then mret (ERR_BUFFER_TOO_SMALL, argv) else
      terminator ← cget_opt (le32 data 0);
      if negb (terminator =? 0) then mret (ERR_BUFFER_TOO_SMALL, argv) else mret (ERR_SUCCESS, argv)
  | S n =>
      if pointer_address <? user_argv then mret (ERR_BAD_ADDRESS, argv) else
      '(result, data) ← on_user (copy_from_user true pointer_address 4);
      if negb (result =? ERR_SUCCESS) then mret (ERR_BAD_ADDRESS, argv) else
      user_string ← cget_opt (le32 data 0);
      if user_string =? 0 then mret (ERR_SUCCESS, argv) else
      '(result, storage) ← on_user (copy_user_string true 128 user_string);
      if negb (result =? ERR_SUCCESS) then mret (result, argv) else
      arg ← cget_opt (Input.string_in storage);
      read_argv n user_argv (argc + 1) (argv ++ [arg])
  end.
(** Between [malloc] and [free] of the request. *)
Definition exec_request (user_path_ user_argv : Z) : cmd sys Z :=
  '(result, path) ← on_user (copy_user_string true SYSCALL_PATH_MAX user_path_);
  if negb (result =? ERR_SUCCESS) then mret result else
  path ← cget_opt (Input.string_in path);
  if bool_decide (path = []) then mret ERR_INVALID_ARGUMENT else
  '(result, argv) ← (if negb (user_argv =? 0) then read_argv 16 user_argv 0 [] else mret (ERR_SUCCESS, []));
  if negb (result =? ERR_SUCCESS) then mret result else
  x ← current_process;
  '(result, resolved) ← cget_opt (syscall_resolve_path (p_cwd x) (Some path) (stale <$> seq 0 (Z.to_nat SYSCALL_PATH_MAX)) SYSCALL_PATH_MAX);
  if negb (result =? ERR_SUCCESS) then mret result else
  resolved ← cget_opt (Input.string_in resolved);
  '(result, vn) ← on_kern (Vfs.vfs_lookup ops (Some resolved) true);
  if (result =? ERR_SUCCESS) && negb (vn =? 0) then
    '(result, _) ← czoom (λ s, (kern s, sos s)) (λ x s, set_kern x.1 (set_sos x.2 s))
                     (ExecFile.exec_elf_vnode_args stale kthread_entry user_thread_entry vn (Z.of_nat (length argv)) (Some argv));
    mret result
  else mret (if result =? ERR_SUCCESS then ERR_INTERNAL else result).
Definition syscall_exec_process (user_path_ user_argv : Z) : cmd sys Z :=
  request ← on_os malloc;
  if request =? 0 then mret ERR_OUT_OF_MEMORY else
  result ← exec_request user_path_ user_argv;
  on_os (free request);;
  mret result.

(** ** Files *)

Definition sys_open (path flags : Z) : cmd sys Z :=
  '(result, resolved) ← user_path (u32 path);
  if negb (result =? ERR_SUCCESS) then mret result else
  '(r, f) ← on_kern (Vfs.vfs_open ops (Some resolved) (u32 flags) true);
  if negb (r =? ERR_SUCCESS) || (f =? 0) then mret (if r =? ERR_SUCCESS then ERR_INTERNAL else r) else
  fdt ← syscall_get_fd_table;
  match fdt with
  | None => on_kern (Vfs.file_unref ops f);; mret ERR_INTERNAL
  | Some i =>
      fd ← on_table i (Fd.fd_alloc true f);
      on_kern (Vfs.file_unref ops f);;
      mret fd
  end.

Definition sys_close (fd : Z) : cmd sys Z :=
  fdt ← syscall_get_fd_table;
  match fdt with
  | None => mret ERR_INTERNAL
  | Some i =>
      r ← on_table i (Fd.fd_close ops true fd);
      mret (if r =? 0 then ERR_SUCCESS else ERR_BAD_FILE_DESCRIPTOR)
  end.

(** The length of the next chunk. *)
Definition chunk_length (count total : Z) : Z :=
  if SYSCALL_IO_CHUNK <? count - total then SYSCALL_IO_CHUNK else count - total.
(** Enough turns for [count] bytes. *)
Definition io_fuel (count : Z) : nat := Z.to_nat (count / SYSCALL_IO_CHUNK + 2).

(** The loop of [SYS_write], with the file [f], 0 for the terminal. *)
Fixpoint write_loop (fuel : nat) (fd f user_buf count total : Z) : cmd sys Z :=
  match fuel with
  | O => cundef
  | S fuel =>
      if negb (total <? count) then mret total else
      let length := chunk_length count total in
      '(r, chunk) ← on_user (copy_from_user true (u32 (user_buf + total)) length);
      if negb (r =? ERR_SUCCESS) then mret (if negb (total =? 0) then total else r) else
      if (fd =? 1) || (fd =? 2) then
        Console.each chunk (λ c, on_tty (Tty.TTY_putc glyph_row c;; Tty.serial_write_char c));;
        write_loop fuel fd f user_buf count (total + length)
      else
        '(r, written) ← on_kern (Vfs.vfs_write ops f (Some chunk) length);
        if length <? written then mret (if negb (total =? 0) then total else ERR_INTERNAL) else
        let total := total + written in
        if negb (r =? ERR_SUCCESS) || (written <? length) then mret (if negb (total =? 0) then total else r) else
        write_loop fuel fd f user_buf count total
  end.
Definition sys_write (fd user_buf count : Z) : cmd sys Z :=
  if (user_buf =? 0) || (count <=? 0) then mret ERR_INVALID_ARGUMENT else
  if SYSCALL_IO_MAX <? count then mret ERR_BUFFER_TOO_SMALL else
  ok ← syscall_user_range_valid (u32 user_buf) count false;
  if negb (ok : bool) then mret ERR_BAD_ADDRESS else
  f ← (if negb (fd =? 1) && negb (fd =? 2) then descriptor_file fd else mret 0);
  if negb (fd =? 1) && negb (fd =? 2) && (f =? 0) then mret ERR_BAD_FILE_DESCRIPTOR else
  write_loop (io_fuel count) fd f (u32 user_buf) count 0.

(** The loop of [SYS_read]: [total], and the result that a [break] has set. *)
Fixpoint read_loop (fuel : nat) (f user_buf count total : Z) : cmd sys (Z * option Z) :=
  match fuel with
  | O => cundef
  | S fuel =>
      if negb (total <? count) then mret (total, None) else
      let length := chunk_length count total in
      '(r, nread, chunk) ← on_kern (Vfs.vfs_read ops f true length);
      if negb (r =? ERR_SUCCESS) then mret (total, Some (if negb (total =? 0) then total else r)) else
      if length <? nread then mret (total, Some (if negb (total =? 0) then total else ERR_INTERNAL)) else
      if nread =? 0 then mret (total, None) else
      r ← on_user (copy_to_user (u32 (user_buf + total)) (Some chunk) nread);
      if negb (r =? ERR_SUCCESS) then mret (total, Some (if negb (total =? 0) then total else r)) else
      let total := total + nread in
      if nread <? length then mret (total, None) else read_loop fuel f user_buf count total
  end.
(** Descriptor 0 is a line of the editor. *)
Definition read_line (user_buf count : Z) : cmd sys Z :=
  let length := if SYSCALL_IO_CHUNK <? count then SYSCALL_IO_CHUNK else count in
  '(r, chunk) ← on_line (Input.line_read typist waits true length true);
  if r <? 0 then mret r else
  result ← on_user (copy_to_user user_buf (Some (splice 0 chunk (stale <$> seq 0 (Z.to_nat SYSCALL_IO_CHUNK)))) r);
  mret (if result =? ERR_SUCCESS then r else result).
(** What the loop set is overwritten behind it. *)
Definition sys_read (fd user_buf count : Z) : cmd sys Z :=
  if (user_buf =? 0) || (count <=? 0) then mret ERR_INVALID_ARGUMENT else
  if SYSCALL_IO_MAX <? count then mret ERR_BUFFER_TOO_SMALL else
  ok ← syscall_user_range_valid (u32 user_buf) count true;
  if negb (ok : bool) then mret ERR_BAD_ADDRESS else
  if fd =? 0 then read_line (u32 user_buf) count else
  f ← descriptor_file fd;
  if f =? 0 then mret ERR_BAD_FILE_DESCRIPTOR else
  '(total, _) ← read_loop (io_fuel count) f (u32 user_buf) count 0;
  mret (if (total =? count) || negb (total =? 0) then total else ERR_SUCCESS).

(** ** Directories and attributes *)

Definition type_code (t : vnode_type) : Z :=
  match t with
  | VNODE_TYPE_NONE => 0 | VNODE_TYPE_FILE => 1 | VNODE_TYPE_DIR => 2
  | VNODE_TYPE_DEV => 3 | VNODE_TYPE_BLOCK => 4 | VNODE_TYPE_EXEC => 5
  end.
(** [dirent_t], with a byte of padding. *)
Definition SIZEOF_DIRENT : Z := 260.
Definition dirent_bytes (name : cstring) (type : vnode_type) : list Z :=
  let length := if 256 <=? Z.of_nat (List.length name) then 255%nat else List.length name in
  put16 (Z.of_nat length) ++ [u8 (type_code type)] ++ splice 0 (take length name) (replicate 257 0).
(** [vfs_stat_t] *)
Definition SIZEOF_STAT : Z := 36.
Definition stat_bytes (st : vfs_stat) : list Z :=
  [type_code (st_type st); st_size st; st_capacity st; st_mode st; st_uid st; st_gid st; st_atime st; st_mtime st; st_ctime st] ≫= put32.

(** [f->vn->ops->op] for a descriptor: the vnode and the operation, [None] when
    one of the pointers on the way is NULL. *)
Definition file_op {A} (op : vnode_ops K → option A) (f : Z) : cmd sys (option (Z * A)) :=
  fl ← on_kern (get_file f);
  if f_vn fl =? 0 then mret None else
  v ← on_kern (get_vnode (f_vn fl));
  mret (run ← Vfs.has_op ops op v; Some (f_vn fl, run)).

Definition sys_readdir (fd index buf : Z) : cmd sys Z :=
  ok ← syscall_user_range_valid (u32 buf) SIZEOF_DIRENT true;
  if negb (ok : bool) then mret ERR_BAD_ADDRESS else
  f ← descriptor_file fd;
  op ← (if f =? 0 then mret None else file_op op_readdir f);
  match op with
  | None => mret ERR_BAD_FILE_DESCRIPTOR
  | Some (vn, readdir) =>
      if index <? 0 then mret ERR_INVALID_ARGUMENT else
      '(r, entry) ← on_kern (readdir vn index);
      if negb (r =? ERR_SUCCESS) then mret r else
      match entry with
      | None => mret ERR_INTERNAL
      | Some (name, type) => on_user (copy_to_user (u32 buf) (Some (dirent_bytes name type)) SIZEOF_DIRENT)
      end
  end.

(** The base of a seek, or the error. *)
Definition seek_base (f whence : Z) : cmd sys (Z * Z) :=
  if whence =? MINIOS_SEEK_SET then mret (ERR_SUCCESS, 0) else
  if whence =? MINIOS_SEEK_CUR then fl ← on_kern (get_file f); mret (ERR_SUCCESS, f_offset fl) else
  if whence =? MINIOS_SEEK_END then
    op ← file_op op_getattr f;
    match op with
    | None => mret (ERR_NOT_SUPPORTED, 0)
    | Some (vn, getattr) =>
        '(stat_result, stat) ← on_kern (getattr vn true);
        if negb (stat_result =? ERR_SUCCESS) then mret (stat_result, 0) else
        stat ← cget_opt stat;
        mret (ERR_SUCCESS, st_size stat)
    end
  else mret (ERR_INVALID_ARGUMENT, 0).
Definition sys_lseek (fd offset whence : Z) : cmd sys Z :=
  f ← descriptor_file fd;
  if f =? 0 then mret ERR_BAD_FILE_DESCRIPTOR else
  '(r, base) ← seek_base f whence;
  if negb (r =? ERR_SUCCESS) then mret r else
  let target := base + offset in
  if (target <? 0) || (0x7FFFFFFF <? target) then mret ERR_INVALID_ARGUMENT else
  result ← on_kern (Vfs.vfs_seek f (u32 target));
  mret (if result =? ERR_SUCCESS then target else result).

Definition sys_mkdir (path : Z) : cmd sys Z :=
  '(result, resolved) ← user_path (u32 path);
  if negb (result =? ERR_SUCCESS) then mret result else
  on_kern (Vfs.vfs_mkdir ops (Some resolved)).
(** [SYS_rmdir] when [directory], [SYS_unlink] otherwise. *)
Definition sys_remove (directory : bool) (path : Z) : cmd sys Z :=
  '(result, resolved) ← user_path (u32 path);
  if negb (result =? ERR_SUCCESS) then mret result else
  '(result, target) ← on_kern (Vfs.vfs_lookup ops (Some resolved) true);
  if negb (result =? ERR_SUCCESS) then mret result else
  v ← on_kern (get_vnode target);
  if directory && negb (bool_decide (vn_type v = VNODE_TYPE_DIR)) then mret ERR_NOT_DIRECTORY else
  if negb directory && bool_decide (vn_type v = VNODE_TYPE_DIR) then mret ERR_IS_DIRECTORY else
  on_kern (Vfs.vfs_unlink ops (Some resolved)).

Definition sys_stat (path buf : Z) : cmd sys Z :=
  '(result, resolved) ← user_path (u32 path);
  if negb (result =? ERR_SUCCESS) then mret result else
  ok ← syscall_user_range_valid (u32 buf) SIZEOF_STAT true;
  if negb (ok : bool) then mret ERR_BAD_ADDRESS else
  '(result, stat) ← on_kern (Vfs.vfs_stat ops (Some resolved) true);
  if result =? ERR_SUCCESS then
    stat ← cget_opt stat;
    on_user (copy_to_user (u32 buf) (Some (stat_bytes stat)) SIZEOF_STAT)
  else mret result.

Definition with_cwd (cwd : list Z) (x : process) : process :=
  mk_process (p_pid x) (p_ppid x) (p_exit_code x) (p_alive x) cwd (p_thread x) (p_pd x) (p_pd_phys x).
Definition sys_chdir (path : Z) : cmd sys Z :=
  '(result, resolved) ← user_path (u32 path);
  if negb (result =? ERR_SUCCESS) then mret result else
  '(result, directory) ← on_kern (Vfs.vfs_lookup ops (Some resolved) true);
  if negb (result =? ERR_SUCCESS) then mret result else
  v ← on_kern (get_vnode directory);
  if negb (bool_decide (vn_type v = VNODE_TYPE_DIR)) then mret ERR_NOT_DIRECTORY else
  p ← on_os proc_current;
  x ← on_os (get_proc p);
  if 256 <=? Z.of_nat (length resolved) then mret ERR_NAME_TOO_LONG else
  cwd ← cget_opt (put_all (p_cwd x) 0 (resolved ++ [0]));
  on_os (put_proc p (with_cwd cwd x));;
  mret ERR_SUCCESS.

Definition sys_getcwd (buf size : Z) : cmd sys Z :=
  x ← current_process;
  ok ← (if size <=? 0 then mret false else syscall_user_range_valid (u32 buf) size true);
  if negb (ok : bool) then mret ERR_BAD_ADDRESS else
  cwd ← cget_opt (Input.string_in (p_cwd x));
  let length := Z.of_nat (List.length cwd) in
  if size <? length + 1 then mret ERR_BUFFER_TOO_SMALL else
  result ← on_user (copy_to_user (u32 buf) (Some (p_cwd x)) (length + 1));
  mret (if result =? ERR_SUCCESS then length else result).

Definition sys_ftruncate (fd length : Z) : cmd sys Z :=
  f ← descriptor_file fd;
  if f =? 0 then mret ERR_BAD_FILE_DESCRIPTOR else
  if length <? 0 then mret ERR_INVALID_ARGUMENT else
  op ← file_op op_truncate f;
  match op with
  | None => mret ERR_NOT_SUPPORTED
  | Some (vn, truncate) => on_kern (truncate vn length)
  end.

(** ** The terminal *)

(** The text that a program prints, copied to a block of the heap, and what is
    done with it. *)
Definition with_text (text : Z) (show : cstring → cmd sys unit) : cmd sys Z :=
  block ← on_os malloc;
  if block =? 0 then mret ERR_OUT_OF_MEMORY else
  '(copy_result, data) ← on_user (copy_user_string true SYSCALL_PRINT_MAX text);
  if negb (copy_result =? ERR_SUCCESS) then on_os (free block);; mret copy_result else
  str ← cget_opt (Input.string_in data);
  show str;;
  on_os (free block);;
  mret ERR_SUCCESS.

Definition sys_print (text : Z) : cmd sys Z :=
  with_text (u32 text) (λ str, on_tty (Tty.TTY_puts glyph_row (Some str))).
Definition sys_clear : cmd sys Z := on_tty (Tty.TTY_clear);; mret ERR_SUCCESS.
Definition is_color (c : Z) : bool := (0 <=? c) && (c <=? 15).
Definition sys_printcolor (text fg bg : Z) : cmd sys Z :=
  if negb (is_color fg) || negb (is_color bg) then mret ERR_INVALID_ARGUMENT else
  with_text (u32 text) (λ str, on_tty (
    '(old_foreground, old_background) ← Tty.TTY_getcolor;
    Tty.TTY_setcolor fg bg;;
    Tty.TTY_puts glyph_row (Some str);;
    Tty.TTY_setcolor old_foreground old_background)).
Definition sys_setcolor (fg bg : Z) : cmd sys Z :=
  if negb (is_color fg) || negb (is_color bg) then mret ERR_INVALID_ARGUMENT else
  on_tty (Tty.TTY_setcolor fg bg);; mret ERR_SUCCESS.

Definition sys_scan (user_buf count : Z) : cmd sys Z :=
  if (user_buf =? 0) || (count <=? 0) then mret ERR_INVALID_ARGUMENT else
  if SYSCALL_IO_MAX <? count then mret ERR_BUFFER_TOO_SMALL else
  ok ← syscall_user_range_valid (u32 user_buf) count true;
  if negb (ok : bool) then mret ERR_BAD_ADDRESS else
  block ← on_os malloc;
  if block =? 0 then mret ERR_OUT_OF_MEMORY else
  '(result, stored) ← on_line (Input.line_scan typist waits true count);
  let buffer := splice 0 stored (replicate (Z.to_nat count) 0) in
  text ← cget_opt (Input.string_in buffer);
  copy_result ← on_user (copy_to_user (u32 user_buf) (Some buffer) (Z.of_nat (length text) + 1));
  on_os (free block);;
  mret (if copy_result =? ERR_SUCCESS then result else copy_result).

(** ** The handler *)

Definition syscall_handler (num arg1 arg2 arg3 : Z) : cmd sys Z :=
  if num =? SYS_exit then sys_exit arg1
  else if num =? SYS_getpid then sys_getpid
  else if num =? SYS_fork then mret ERR_NOT_SUPPORTED
  else if num =? SYS_execve then syscall_exec_process (u32 arg1) (u32 arg2)
  else if num =? SYS_waitpid then sys_waitpid arg1 arg2 arg3
  else if num =? SYS_open then sys_open arg1 arg2
  else if num =? SYS_close then sys_close arg1
  else if num =? SYS_write then sys_write arg1 arg2 arg3
  else if num =? SYS_read then sys_read arg1 arg2 arg3
  else if num =? SYS_readdir then sys_readdir arg1 arg2 arg3
  else if num =? SYS_lseek then sys_lseek arg1 arg2 arg3
  else if num =? SYS_mkdir then sys_mkdir arg1
  else if num =? SYS_rmdir then sys_remove true arg1
  else if num =? SYS_unlink then sys_remove false arg1
  else if num =? SYS_stat then sys_stat arg1 arg2
  else if num =? SYS_chdir then sys_chdir arg1
  else if num =? SYS_getcwd then sys_getcwd arg1 arg2
  else if num =? SYS_ftruncate then sys_ftruncate arg1 arg2
  else if num =? SYS_print then sys_print arg1
  else if num =? SYS_clear then sys_clear
  else if num =? SYS_printcolor then sys_printcolor arg1 arg2 arg3
  else if num =? SYS_setcolor then sys_setcolor arg1 arg2
  else if num =? SYS_scan then sys_scan arg1 arg2
  else mret ERR_NOT_SUPPORTED.
End syscall.
End Syscall.
