(* ===== verification/SyscallSpec.v ===== *)
(** * What the system calls do

    End-to-end statements about the calls of [Syscall.v]: from the memory of the
    program to its files and its terminal, and back. *)

From S2P Require Import Prelude Pmm Paging Spaces Elf Vnode Objects Ramfs Vfs Fd Stack Sched Exec ExecFile Input Console Tty UserPath Syscall.
Import Paging Spaces Elf Vnode Objects Ramfs Stack Sched Exec UserPath Syscall.

Module SyscallSpec.

(** ** Copies to the program *)

Section copies.
Context (S : list Z) (pd : Z).
Implicit Types (m : machine).

(** The program runs in its own space. *)
Definition in_program m : Prop := cr3 m = pd ∧ current_pd m = Some pd ∧ pd ≠ 0.

Lemma quiet_program W D m m' : quiet W D S m m' → in_program m → in_program m'.
Proof. intros Q (H1 & H2 & H3). destruct (q_rest _ _ _ _ _ Q) as (_ & E1 & E2 & _). unfold in_program. by rewrite E1, E2. Qed.

Lemma user_page_present m a f : user_page m pd a f → ∃ pde pte, translate m pd a = Some (f, pde, pte).
Proof. intros (_ & pte & Hm & _ & _ & <-). destruct (translate_mapping _ _ _ _ Hm) as [pde E]. by exists pde, pte. Qed.

Lemma store_user_wp m a b f : ready S pd m → in_program m → 0 <= a < 2 ^ 32 → not_temp a → user_page m pd a f → is_u8 b →
  wp (store a b) (λ _ m', wrote S pd m m' ∧ patched pd m m' a [b] ∧ in_program m') m.
Proof.
  intros Hr Hin Ha Ht Hf Hb. pose proof Hr as [Hok Hk Hc Hp Hpg]. destruct (user_page_present _ _ _ Hf) as (pde & pte & E).
  assert (Hd : data m S f) by (apply (pk_data _ _ _ Hpg a); [done|done|by apply user_page_frame]).
  unfold store. wp_step. wp_step. rewrite (proj1 Hin), E. wp_step. change (a mod PAGE_SIZE) with (a mod 4096).
  pose proof (put_quiet m S f (a mod 4096) b Hok Hd ltac:(lia)) as Q.
  assert (Hb' : ∀ y, byte_at (put_byte (f + a mod 4096) b m) (f + y) =
    default (byte_at m (f + y)) (if a mod 4096 <=? y then [b] !! Z.to_nat (y - a mod 4096) else None)).
  { intros y. rewrite put_byte_at by done. case_decide as E1.
    - replace y with (a mod 4096) by lia. by rewrite Z.leb_refl, Z.sub_diag.
    - destruct (Z.leb_spec (a mod 4096) y); [|done]. destruct (Z.to_nat (y - a mod 4096)) eqn:En; [lia|done]. }
  destruct (write_page_wp S pd m (put_byte (f + a mod 4096) b m) f a [b]) as [W P]; try done; [cbn; lia|by apply quiet_views].
Qed.

Lemma store_bytes_user_wp bs : ∀ m a, ready S pd m → in_program m → 0 <= a → a + Z.of_nat (length bs) <= 2 ^ 32 →
  writable pd m a (a + Z.of_nat (length bs)) → Forall is_u8 bs →
  wp (store_bytes a bs) (λ _ m', wrote S pd m m' ∧ patched pd m m' a bs ∧ in_program m') m.
Proof.
  induction bs as [|b bs IH]; intros m a Hr Hin Ha Hl Hw Hb; cbn [store_bytes].
  - wp_step. split; [by apply wrote_refl|]. split; [|done]. intros x _ _ _. by destruct (_ <=? _).
  - inversion_clear Hb as [|? ? Hb1 Hb2]. rewrite length_cons in Hl, Hw. destruct (Hw a ltac:(lia)) as [Ht [f Hf]]. pose proof (rd_pd _ _ _ Hr) as Hp.
    wp_step. eapply wp_mono; [by apply (store_user_wp m a b f); [..|lia| | |]|]. cbn beta. intros _ m1 (W1 & P1 & I1).
    eapply wp_mono; [apply (IH m1 (a + 1)); [apply W1|done|lia|lia| |done]|].
    { eapply wrote_writable; [done|exact W1|lia|lia|]. intros x Hx. apply Hw. lia. }
    cbn beta. intros _ m2 (W2 & P2 & I2). split; [by eapply wrote_trans|]. split; [|done].
    change (b :: bs) with ([b] ++ bs). by eapply patched_trans.
Qed.

Lemma writable_access m lo hi : spaces_ok m S → pd ∈ S → writable pd m lo hi → ∀ a, lo <= a < hi → user_access m pd true a = true.
Proof. intros Hok Hp Hw a Ha. destruct (Hw a Ha) as [_ [f Hf]]. by eapply user_page_access. Qed.

Lemma access_any m a write : user_access m pd true a = true → user_access m pd write a = true.
Proof. destruct write; [done|]. unfold user_access, entry_allows. rewrite !andb_true_iff. cbn. tauto. Qed.

(** [paging_user_range_valid] accepts a writable range. *)
Lemma range_writable m a len write : ready S pd m → in_program m → 0 <= a < 2 ^ 32 → 0 <= len < 2 ^ 32 → a + len <= 2 ^ 32 →
  writable pd m a (a + len) → paging_user_range_valid pd a len write m = Some (true, m).
Proof.
  intros Hr (_ & _ & Hpd) Ha Hl He Hw. destruct (user_range_wp m pd a len write Ha Hl) as (b & -> & Hb).
  do 2 f_equal. apply Hb. split; [done|]. split; [done|]. intros x Hx.
  by apply access_any, (writable_access m a (a + len) (rd_spaces _ _ _ Hr) (rd_pd _ _ _ Hr) Hw x Hx).
Qed.

Lemma copy_to_user_wp m a src len : ready S pd m → in_program m → 0 < a → 0 < len <= Z.of_nat (length src) → a + len <= 2 ^ 32 →
  writable pd m a (a + len) → Forall is_u8 (take (Z.to_nat len) src) →
  wp (copy_to_user a (Some src) len) (λ r m', r = ERR_SUCCESS ∧ wrote S pd m m' ∧ patched pd m m' a (take (Z.to_nat len) src) ∧ in_program m') m.
Proof.
  intros Hr Hin Ha Hl He Hw Hb. unfold copy_to_user. rewrite (proj2 (Z.eqb_neq a 0)), bool_decide_true by (done || lia). cbn [orb negb andb].
  wp_step. wp_step. unfold current_address_space. rewrite (proj1 (proj2 Hin)). change (default 0 (Some pd)) with pd.
  wp_step. eapply wp_eq; [apply range_writable; [done|done|lia|lia|lia|done]|]. cbn [negb]. rewrite (proj2 (Z.eqb_neq _ 0)) by lia.
  wp_step. eapply wp_get_opt; [done|]. rewrite (proj2 (Z.ltb_ge _ _)) by lia. assert (E : Z.of_nat (length (take (Z.to_nat len) src)) = len) by (rewrite length_take; lia).
  wp_step. eapply wp_mono; [apply store_bytes_user_wp; [done|done|lia|by rewrite E|by rewrite E|done]|]. cbn beta. intros _ m' H. by wp_step.
Qed.

(** The bytes of the program in [a, a + len). *)
Definition program_bytes m (a len : Z) : list Z := space_byte m pd <$> seqZ a len.

Lemma copy_from_program m a len : ready S pd m → in_program m → 0 < a < 2 ^ 32 → 0 <= len < 2 ^ 32 → a + len <= 2 ^ 32 →
  (∀ x, a <= x < a + len → user_access m pd false x = true) →
  copy_from_user true a len m = Some ((ERR_SUCCESS, program_bytes m a len), m).
Proof.
  intros Hr (H1 & H2 & H3) Ha Hl He Hacc.
  destruct (copy_from_user_run m a len) as [[E _]|[_ Hn]]; [unfold in_user_space, current_address_space; by rewrite H1, H2|done|done| |].
  - rewrite E. do 3 f_equal. unfold program_bytes. apply list_fmap_ext. intros i x _. unfold user_byte, space_byte. by rewrite H1.
  - destruct Hn. rewrite H1. split; [done|]. split; [done|]. exact Hacc.
Qed.
End copies.

(** ** The current process *)

Section system.
Context {D : Type} (stale : nat → Z) (glyph_row : Z → Z → Z) (kthread_entry user_thread_entry : Z).
Abbreviation K := (kernel (ramfs D)).
Abbreviation sys := (system D).
Abbreviation ops := (ops_of (D := D) stale).
Context (typist : cmd Input.line unit) (others : cmd sys unit) (waits : nat).
Implicit Types (s : sys) (x : process).

(** [x] is the process whose thread runs, in its own space, and [S] are the
    directories of all. *)
Record running (S : list Z) s x : Prop := {
  ru_process : current_process s = Some (x, s);
  ru_program : in_program (p_pd x) (mm (sos s));
  ru_ready : ready S (p_pd x) (mm (sos s))
}.
(** The state with another memory. *)
Definition with_mm (m : machine) s : sys := set_sos (set_mm m (sos s)) s.

Lemma set_current_pd_same pd (m : machine) : current_pd m = Some pd → set_current_pd pd m = m.
Proof. intros H. destruct m. cbn in H. by subst. Qed.

Lemma current_process_wp S s x (Q : process → sys → Prop) : running S s x → Q x s → wp current_process Q s.
Proof. intros Hr H. by eapply wp_eq; [apply (ru_process _ _ _ Hr)|]. Qed.

Lemma on_user_wp {A} S s x (m : cmd machine A) (Q : A → sys → Prop) : running S s x →
  wp m (λ a m', Q a (with_mm m' s)) (mm (sos s)) → wp (on_user m) Q s.
Proof.
  intros Hr H. unfold on_user. wp_step. apply (current_process_wp S s x); [done|]. unfold on_os. apply wp_zoom, wp_zoom.
  rewrite set_current_pd_same by apply (ru_program _ _ _ Hr). exact H.
Qed.

(** A call that only writes the program's memory leaves the process running. *)
Lemma process_of_mm m o : (p ← proc_current; get_proc p) (set_mm m o) =
  match (p ← proc_current; get_proc p) o with Some (x, _) => Some (x, set_mm m o) | None => None end.
Proof.
  unfold mbind, cmd_bind, proc_current, mbind, cmd_bind, cget, get_thread, get_proc, cread, mret, cmd_ret, proc_at. cbn [set_mm cpu threads procs].
  destruct (g_current (cpu o) =? 0); [done|]. change (threads (set_mm m o)) with (threads o).
  destruct (threads o !! g_current (cpu o)) as [th|]; [|done]. set (p := if negb (t_proc th =? 0) then t_proc th else BOOT_PROC).
  cbn [set_mm procs]. by destruct (if p =? BOOT_PROC then _ else _).
Qed.
Lemma current_process_mm m s x : current_process s = Some (x, s) → current_process (with_mm m s) = Some (x, with_mm m s).
Proof.
  unfold current_process, on_os, czoom. cbn [with_mm sos set_sos]. rewrite process_of_mm.
  by destruct ((p ← proc_current; get_proc p) (sos s)) as [[y o]|]; [intros [= -> _]|].
Qed.
Lemma running_mm S s x m : running S s x → in_program (p_pd x) m → ready S (p_pd x) m → running S (with_mm m s) x.
Proof. intros [H1 H2 H3] Hi Hr. split; [by apply current_process_mm|done|done]. Qed.
Lemma running_kern S s x k : running S s x → running S (set_kern k s) x.
Proof.
  intros [H1 H2 H3]. split; [|done|done]. revert H1. unfold current_process, on_os, czoom. cbn.
  destruct ((p ← proc_current; get_proc p) (sos s)) as [[y o]|]; [|done]. intros [= -> E]. do 2 f_equal.
  apply (f_equal sos) in E. cbn in E. by rewrite E.
Qed.
Lemma running_tty S s x t : running S s x → running S (set_stty t s) x.
Proof.
  intros [H1 H2 H3]. split; [|done|done]. revert H1. unfold current_process, on_os, czoom. cbn.
  destruct ((p ← proc_current; get_proc p) (sos s)) as [[y o]|]; [|done]. intros [= -> E]. do 2 f_equal.
  apply (f_equal sos) in E. cbn in E. by rewrite E.
Qed.

(** ** Descriptors *)

(** Descriptor [fd] of [x] is the open file [f]. *)
Record descriptor s x (fd f : Z) : Prop := {
  de_pid : 0 <= p_pid x < 64;
  de_used : g_fd_tables_used s !! Z.to_nat (p_pid x) = Some true;
  de_entry : ∃ t, g_fd_tables s !! Z.to_nat (p_pid x) = Some t ∧ 0 <= fd < Fd.FD_MAX ∧ t !! Z.to_nat fd = Some (Fd.mk_entry f true)
}.

Lemma on_table_id s i t : g_fd_tables s !! i = Some t →
  set_kern (kern s) (set_tables (<[i := t]> (g_fd_tables s)) (g_fd_tables_used s) s) = s.
Proof. intros H. unfold set_kern, set_tables. cbn. rewrite list_insert_id by done. by destruct s. Qed.

Lemma descriptor_file_wp S s x fd f (Q : Z → sys → Prop) : running S s x → descriptor s x fd f → Q f s → wp (descriptor_file fd) Q s.
Proof.
  intros Hr [Hp Hu (t & Ht & Hfd & He)] HQ. unfold descriptor_file, syscall_get_fd_table. wp_step. wp_step.
  apply (current_process_wp S s x); [done|]. rewrite (proj2 (Z.ltb_ge _ _)), (proj2 (Z.leb_gt _ _)) by lia. cbn [orb].
  wp_step. eapply wp_read; [exact Hu|]. cbn [negb]. wp_step. wp_step. wp_step. unfold on_table. wp_step. eapply wp_read; [exact Ht|]. apply wp_zoom.
  unfold Fd.fd_get. rewrite (proj2 (Z.ltb_ge _ _)), (proj2 (Z.leb_gt _ _)) by lia. cbn [negb orb]. wp_step. unfold Fd.entry.
  rewrite (proj2 (Z.ltb_ge _ _)) by lia. eapply wp_read; [exact He|]. cbn [Fd.e_used negb Fd.e_file]. wp_step.
  cbn [Fd.kern Fd.table]. by rewrite on_table_id.
Qed.

(** ** Reading a file *)

Lemma chunk_length_val count total : chunk_length count total = Z.min 256 (count - total).
Proof. unfold chunk_length, SYSCALL_IO_CHUNK. destruct (Z.ltb_spec 256 (count - total)); lia. Qed.

Lemma slice_app {A} (l : list A) off a b : length (slice off a l) = a → slice off (a + b) l = slice off a l ++ slice (off + a) b l.
Proof.
  unfold slice. intros H. rewrite length_take in H. rewrite <- (take_drop a (drop off l)) at 1. rewrite take_app_ge by (rewrite length_take; lia).
  f_equal. rewrite length_take, drop_drop. f_equal. lia.
Qed.
Lemma slice_short {A} (l : list A) off a b : (length (slice off a l) < a)%nat → (a ≤ b)%nat → slice off b l = slice off a l.
Proof. unfold slice. rewrite length_take. intros H Hab. rewrite !take_ge; [done|lia|lia]. Qed.
Lemma slice_Forall {A} (P : A → Prop) l off n : Forall P l → Forall P (slice off n l).
Proof. intros H. by apply Forall_take, Forall_drop. Qed.

(** The store of files with the offset of [f] moved on, and another memory. *)
Definition moved s (f : Z) (fl : file) (done : Z) (m : machine) : sys :=
  set_kern (set_files (<[f := with_offset (f_offset fl + done) fl]> (files (kern s))) (kern s)) (with_mm m s).

Lemma set_files_same (k : K) f fl : files k !! f = Some fl → set_files (<[f := with_offset (f_offset fl + 0) fl]> (files k)) k = k.
Proof. intros H. rewrite Z.add_0_r. replace (with_offset (f_offset fl) fl) with fl by by destruct fl. rewrite insert_id by done. by destruct k. Qed.
Lemma moved_zero s f fl : files (kern s) !! f = Some fl → moved s f fl 0 (mm (sos s)) = s.
Proof. intros H. unfold moved. rewrite set_files_same by done. destruct s as [k o]. unfold with_mm, set_kern, set_sos. cbn. by destruct o. Qed.
Lemma moved_moved s f fl d1 d2 m1 m2 :
  moved (moved s f fl d1 m1) f (with_offset (f_offset fl + d1) fl) d2 m2 = moved s f fl (d1 + d2) m2.
Proof.
  unfold moved, set_kern, with_mm, set_sos. cbn. f_equal. unfold set_files. cbn. rewrite insert_insert_eq. do 2 f_equal.
  unfold with_offset. cbn. f_equal. lia.
Qed.

Section read.
Context (S : list Z) (x : process) (f vn node : Z) (n : ramfs_node D) (buf count : Z).
Context (Hbuf : 0 < buf) (Hend : buf + count <= 2 ^ 32) (Hbytes : Forall is_u8 (content n)).
Let pd := p_pd x.

Definition read_done s fl (total : Z) (r : Z * option Z) s' : Prop :=
  let rest := slice (Z.to_nat (f_offset fl)) (Z.to_nat (count - total)) (content n) in
  r.1 = total + Z.of_nat (length rest) ∧
  ∃ m, s' = moved s f fl (Z.of_nat (length rest)) m ∧ wrote S pd (mm (sos s)) m ∧ patched pd (mm (sos s)) m (buf + total) rest.

Lemma sys_read_loop_wp fuel : ∀ s fl total, running S s x → open_on (kern s) f fl vn node n → 0 <= total <= count →
  count - total + 255 < 256 * Z.of_nat fuel → f_offset fl + (count - total) < 2 ^ 32 →
  writable pd (mm (sos s)) (buf + total) (buf + count) →
  wp (read_loop stale fuel f buf count total) (read_done s fl total) s.
Proof.
  induction fuel as [|fuel IH]; intros s fl total Hr Hop Ht Hf Ho Hw; [lia|]. cbn [read_loop].
  pose proof (oo_offset _ _ _ _ _ _ Hop) as Ho0. unfold is_u32 in Ho0. destruct (oo_file _ _ _ _ _ _ Hop) as (_ & Hfl & _).
  assert (Hnone : ∀ r, slice (Z.to_nat (f_offset fl)) (Z.to_nat (count - total)) (content n) = [] → r.1 = total → read_done s fl total r s).
  { intros r E Er. unfold read_done. rewrite E, Er. split; [cbn; lia|]. exists (mm (sos s)). rewrite moved_zero by done.
    split; [done|]. split; [apply wrote_refl, Hr|]. intros a _ _ _. by destruct (_ <=? _). }
  destruct (Z.ltb_spec total count) as [Hlt|Hge]; cbn [negb].
  2: { wp_step. apply Hnone; [|done]. by replace (count - total) with 0 by lia. }
  rewrite chunk_length_val. set (len := Z.min 256 (count - total)). assert (Hlen : 0 < len <= count - total /\ len <= 256) by lia.
  wp_step. unfold on_kern. apply wp_zoom.
  eapply wp_eq; [apply (vfs_read_run stale _ _ _ _ _ _ len Hop); [unfold is_u32; lia|lia]|].
  set (bytes := slice (Z.to_nat (f_offset fl)) (Z.to_nat len) (content n)).
  assert (Hb : Z.of_nat (length bytes) <= len) by (unfold bytes, slice; rewrite length_take; lia).
  on_success. rewrite (proj2 (Z.ltb_ge _ _)) by lia.
  set (d := Z.of_nat (length bytes)) in *. fold d.
  assert (E1 : set_kern (set_files (<[f := with_offset (f_offset fl + d) fl]> (files (kern s))) (kern s)) s = moved s f fl d (mm (sos s))).
  { unfold moved. f_equal. destruct s as [k o]. unfold with_mm, set_sos. cbn. by destruct o. }
  rewrite E1. destruct (Z.eqb_spec d 0) as [Hz|Hnz].
  { cbn iota. wp_step. rewrite Hz, moved_zero by done. apply Hnone; [|done]. destruct bytes eqn:Eb; [|unfold d in Hz; cbn in Hz; lia].
    rewrite <- Eb. unfold bytes. apply slice_short; [fold bytes; rewrite Eb; cbn; lia|lia]. }
  assert (Hr1 : running S (moved s f fl d (mm (sos s))) x) by (rewrite <- E1; by apply running_kern).
  wp_step. apply (on_user_wp S _ x); [done|]. change (mm (sos (moved s f fl d (mm (sos s))))) with (mm (sos s)).
  rewrite (u32_small (buf + total)) by lia.
  eapply wp_mono; [apply (copy_to_user_wp S pd (mm (sos s)) (buf + total) bytes d); [apply Hr|apply Hr|lia|lia|lia| |by apply Forall_take, slice_Forall]|].
  { intros a Ha. apply Hw. lia. }
  rewrite take_ge by lia. cbn beta. intros r m1 (-> & W1 & P1 & I1). on_success.
  change (with_mm m1 (moved s f fl d (mm (sos s)))) with (moved s f fl d m1).
  destruct (Z.ltb_spec d len) as [Hshort|Hfull].
  - wp_step. unfold read_done. rewrite (slice_short _ _ (Z.to_nat len)); [|fold bytes; lia|lia]. fold bytes d.
    split; [done|]. by exists m1.
  - assert (Hd : d = len) by lia.
    assert (Es : slice (Z.to_nat (f_offset fl)) (Z.to_nat (count - total)) (content n) =
                 bytes ++ slice (Z.to_nat (f_offset fl + d)) (Z.to_nat (count - (total + d))) (content n)).
    { replace (Z.to_nat (count - total)) with (Z.to_nat len + Z.to_nat (count - (total + d)))%nat by lia.
      rewrite slice_app by (fold bytes; lia). fold bytes. do 2 f_equal. lia. }
    eapply wp_mono; [apply (IH (moved s f fl d m1) (with_offset (f_offset fl + d) fl) (total + d))|].
    + change (moved s f fl d m1) with (with_mm m1 (moved s f fl d (mm (sos s)))). apply running_mm; [done|done|apply W1].
    + apply open_on_moved; [done|unfold is_u32; lia].
    + lia.
    + lia.
    + cbn. lia.
    + change (mm (sos (moved s f fl d m1))) with m1. apply (wrote_writable S pd (mm (sos s))); [apply Hr|done|lia|done|].
      intros a Ha. apply Hw. lia.
    + unfold read_done. rewrite Es, length_app. cbn [f_offset with_offset]. intros r s2 [-> (m2 & -> & W2 & P2)].
      split; [lia|]. exists m2. split; [by rewrite moved_moved, Nat2Z.inj_add|].
      change (mm (sos (moved s f fl d m1))) with m1 in *. split; [by eapply wrote_trans; [apply Hr|..]|].
      apply (patched_trans S pd (mm (sos s)) m1 m2); [apply Hr|done|done|]. by rewrite Z.add_assoc in P2.
Qed.
End read.

(** ** Writing a file *)

Lemma file_write_lookup c off bytes i : (i < length c `max` (off + length bytes))%nat →
  file_write c off bytes !! i =
    if decide (off ≤ i < off + length bytes)%nat then bytes !! (i - off)%nat else Some (if decide (i < length c)%nat then c !!! i else 0).
Proof.
  intros Hi. unfold file_write. rewrite splice_lookup by (rewrite (length_extend stale); lia). case_decide; [done|]. by apply (extend_lookup stale).
Qed.
Lemma length_file_write c off bytes : length (file_write c off bytes) = (length c `max` (off + length bytes))%nat.
Proof. unfold file_write. rewrite length_splice by (rewrite (length_extend stale); lia). apply (length_extend stale). Qed.
Lemma file_write_app c off a b : file_write (file_write c off a) (off + length a) b = file_write c off (a ++ b).
Proof.
  apply list_eq. intros i. destruct (decide (i < length c `max` (off + length a + length b))%nat) as [Hi|Hi].
  2: { rewrite !lookup_ge_None_2; [done| |]; rewrite !length_file_write, ?length_app; lia. }
  rewrite !file_write_lookup by (rewrite ?length_file_write, ?length_app; lia). rewrite length_app, length_file_write.
  destruct (decide (off + length a ≤ i < off + length a + length b)%nat).
  { rewrite decide_True by lia. rewrite lookup_app_r by lia. f_equal. lia. }
  destruct (decide (i < length c `max` (off + length a))%nat) as [Hc|Hc].
  - rewrite <- list_lookup_lookup_total_lt by (rewrite length_file_write; lia). rewrite file_write_lookup by done.
    destruct (decide (off ≤ i < off + length a)%nat), (decide (off ≤ i < off + (length a + length b))%nat); try lia; [|done].
    by rewrite lookup_app_l by lia.
  - lia.
Qed.

(** The bytes of a file that were overwritten by [data], none if there are none. *)
Definition stored (c : list Z) (off : nat) (data : list Z) : list Z := if bool_decide (data = []) then c else file_write c off data.
Lemma stored_app c off a b : a ≠ [] → stored (file_write c off a) (off + length a) b = stored c off (a ++ b).
Proof.
  intros Ha. unfold stored. rewrite (bool_decide_false (a ++ b = [])) by (by destruct a). case_bool_decide as E; [|apply file_write_app].
  by rewrite E, app_nil_r.
Qed.

Section write.
Context (S : list Z) (x : process) (f vn node fd buf count : Z) (m : machine).
Context (Hbuf : 0 < buf) (Hend : buf + count <= 2 ^ 32) (Hfd : fd ≠ 1 ∧ fd ≠ 2) (Hcount : 0 < count).
Let pd := p_pd x.
Context (Hacc : ∀ a, buf <= a < buf + count → user_access m pd false a = true).

(** [done] bytes of [data] were written; the rest was refused. *)
Record write_done s fl (n : ramfs_node D) (data : list Z) (done : Z) s' n' : Prop := {
  wd_range : 0 <= done <= Z.of_nat (length data);
  wd_rest : s' = set_kern (kern s') s;
  wd_files : files (kern s') = <[f := with_offset (f_offset fl + done) fl]> (files (kern s));
  wd_nodes : nodes (fs (kern s')) = <[node := n']> (nodes (fs (kern s)));
  wd_content : content n' = stored (content n) (Z.to_nat (f_offset fl)) (take (Z.to_nat done) data);
  wd_open : open_on (kern s') f (with_offset (f_offset fl + done) fl) vn node n'
}.

Lemma write_done_zero s k fl n data : open_on (kern s) f fl vn node n → kept_file (kern s) k → open_on k f fl vn node n →
  write_done s fl n data 0 (set_kern k s) n.
Proof.
  intros Hop [E1 E2] Hk. split; cbn; [lia|done| | | |].
  - rewrite E1, Z.add_0_r. symmetry. destruct (oo_file _ _ _ _ _ _ Hop) as (_ & Hfl & _). apply insert_id. rewrite Hfl. by destruct fl.
  - rewrite E2. symmetry. apply insert_id, (in_at _ _ _ _ (oo_node _ _ _ _ _ _ Hop)).
  - done.
  - rewrite Z.add_0_r. replace (with_offset (f_offset fl) fl) with fl by by destruct fl. done.
Qed.

Lemma write_done_trans s s1 s2 fl n n1 n2 chunk data d :
  chunk ≠ [] → write_done s fl n chunk (Z.of_nat (length chunk)) s1 n1 → 0 <= f_offset fl →
  write_done s1 (with_offset (f_offset fl + Z.of_nat (length chunk)) fl) n1 data d s2 n2 →
  write_done s fl n (chunk ++ data) (Z.of_nat (length chunk) + d) s2 n2.
Proof.
  intros Hc [R1 E1 F1 N1 C1 O1] Ho [R2 E2 F2 N2 C2 O2]. cbn [f_offset with_offset] in *. split.
  - rewrite length_app. lia.
  - rewrite E1 in E2. rewrite E2. unfold set_kern. cbn. done.
  - rewrite F2, F1, insert_insert_eq. f_equal. unfold with_offset. cbn. f_equal. lia.
  - by rewrite N2, N1, insert_insert_eq.
  - rewrite C2, C1. rewrite take_ge by lia. unfold stored at 2. rewrite bool_decide_false by done.
    replace (Z.to_nat (f_offset fl + Z.of_nat (length chunk))) with (Z.to_nat (f_offset fl) + length chunk)%nat by lia.
    rewrite stored_app by done. f_equal. rewrite take_app_ge by lia. f_equal. f_equal. lia.
  - replace (f_offset fl + (Z.of_nat (length chunk) + d)) with (f_offset fl + Z.of_nat (length chunk) + d) by lia. exact O2.
Qed.

Definition write_result (total done r : Z) : Prop := (0 < total + done ∧ r = total + done) ∨ (total + done = 0 ∧ r < 0).

Lemma write_loop_wp fuel : ∀ s fl n total, running S s x → mm (sos s) = m → open_on (kern s) f fl vn node n → 0 <= total <= count →
  count - total + 255 < 256 * Z.of_nat fuel →
  wp (write_loop stale glyph_row fuel fd f buf count total) (λ r s', ∃ d n',
    write_done s fl n (program_bytes pd m (buf + total) (count - total)) d s' n' ∧ write_result total d r) s.
Proof.
  induction fuel as [|fuel IH]; intros s fl n total Hr Hm Hop Ht Hf; [lia|]. cbn [write_loop].
  assert (Hkept : kept_file (kern s) (kern s)) by done.
  pose proof (oo_offset _ _ _ _ _ _ Hop) as Ho0. unfold is_u32 in Ho0.
  destruct (Z.ltb_spec total count) as [Hlt|Hge]; cbn [negb].
  2: { wp_step. exists 0, n. split; [|left; lia]. replace s with (set_kern (kern s) s) at 2 by by destruct s. by apply write_done_zero. }
  rewrite chunk_length_val. set (len := Z.min 256 (count - total)). assert (Hlen : 0 < len <= count - total /\ len <= 256) by lia.
  rewrite (u32_small (buf + total)) by lia. wp_step. apply (on_user_wp S _ x); [done|]. rewrite Hm.
  eapply wp_eq; [apply (copy_from_program S pd m (buf + total) len); [rewrite <- Hm; apply Hr|rewrite <- Hm; apply Hr|lia|lia|lia|]|].
  { intros a Ha. apply Hacc. lia. }
  on_success. replace (with_mm m s) with s by (rewrite <- Hm; destruct s as [k o]; unfold with_mm, set_sos; cbn; by destruct o).
  rewrite (proj2 (Z.eqb_neq fd 1)), (proj2 (Z.eqb_neq fd 2)) by apply Hfd. cbn [orb].
  set (chunk := program_bytes pd m (buf + total) len). set (data := program_bytes pd m (buf + total) (count - total)).
  assert (Hcl : Z.of_nat (length chunk) = len) by (unfold chunk, program_bytes; rewrite length_fmap, length_seqZ; lia).
  wp_step. unfold on_kern. apply wp_zoom. eapply wp_mono; [apply (vfs_write_wp stale _ _ _ _ _ _ chunk len Hop); lia|]. cbn beta.
  intros [r w] k1 [(Hr1 & Hw & Hk & Hop1)|([= -> ->] & Hov & n1 & [F1 N1 C1] & Hop1)]; cbn [fst snd] in *; cbn beta iota zeta.
  - rewrite Hw, (proj2 (Z.ltb_ge _ _)) by lia. rewrite (proj2 (Z.eqb_neq r _)) by (unfold ERR_SUCCESS; lia). cbn [negb orb].
    wp_step. exists 0, n. split; [by apply write_done_zero|]. unfold write_result. rewrite Z.add_0_r. destruct (Z.eqb_spec total 0); cbn [negb]; lia.
  - rewrite Z.ltb_irrefl. on_success. cbn [orb].
    rewrite take_ge in C1 by lia. assert (Hne : chunk ≠ []) by (intros E; rewrite E in Hcl; cbn in Hcl; lia).
    assert (H1 : write_done s fl n chunk (Z.of_nat (length chunk)) (set_kern k1 s) n1).
    { rewrite Hcl. split; cbn; [lia|done|done|done| |done]. rewrite take_ge by lia. unfold stored. by rewrite bool_decide_false. }
    assert (Ed : data = chunk ++ program_bytes pd m (buf + (total + len)) (count - (total + len))).
    { unfold data, chunk, program_bytes. replace (count - total) with (len + (count - (total + len))) by lia.
      rewrite seqZ_app, fmap_app by lia. do 3 f_equal. lia. }
    eapply wp_mono; [apply (IH (set_kern k1 s) (with_offset (f_offset fl + len) fl) n1 (total + len)); [by apply running_kern|done|done|lia|lia]|].
    cbn beta. intros r s2 (d & n2 & H2 & Hres). exists (len + d), n2. split; [|unfold write_result in *; lia].
    rewrite Ed, <- Hcl. rewrite <- Hcl in H2. eapply write_done_trans; [exact Hne|exact H1|lia|exact H2].
Qed.
End write.

(** ** Writing to the terminal *)

Lemma put_out_wp t t0 t1 c : Tty.shows glyph_row t t1 → Tty.same_screen t0 t1 → Tty.forward c →
  wp (Tty.TTY_putc glyph_row c;; Tty.serial_write_char c) (λ _ t', Tty.shows glyph_row (Tty.layout_char (Tty.TTY_COLS t0) t c) t' ∧
    Tty.same_screen (Tty.set_serial (Tty.serial_out t0 ++ [c]) t0) t') t1.
Proof.
  intros Hs Hm Hc. wp_step. eapply wp_mono; [by apply Tty.putc_wp|]. cbn beta. intros _ t2 [Hs2 Hm2]. unfold Tty.serial_write_char.
  apply wp_modify. split; [by apply Tty.shows_serial|]. destruct Hc as (Hc & _). rewrite u8_small by (unfold is_u8; lia).
  destruct Hm2 as [? ? ? ? ? Es ?]. split; try done. cbn. by rewrite Es.
Qed.

Lemma put_chunk_wp chunk : ∀ t (t0 : Tty.tty) s, Tty.shows glyph_row t (stty s) → Tty.same_screen t0 (stty s) → Forall Tty.forward chunk →
  wp (Console.each chunk (λ c, on_tty (Tty.TTY_putc glyph_row c;; Tty.serial_write_char c))) (λ _ s', ∃ t', s' = set_stty t' s ∧
    Tty.shows glyph_row (foldl (Tty.layout_char (Tty.TTY_COLS t0)) t chunk) t' ∧
    Tty.same_screen (Tty.set_serial (Tty.serial_out t0 ++ chunk) t0) t') s.
Proof.
  induction chunk as [|c chunk IH]; intros t t0 s Hs Hm Hf; cbn [Console.each foldl].
  - wp_step. exists (stty s). split; [by destruct s|]. split; [done|]. rewrite app_nil_r. by destruct t0.
  - inversion_clear Hf as [|? ? Hc Hf']. wp_step. unfold on_tty. apply wp_zoom. eapply wp_mono; [by apply put_out_wp|]. cbn beta.
    intros _ t1 [Hs1 Hm1]. eapply wp_mono; [by apply (IH (Tty.layout_char (Tty.TTY_COLS t0) t c) (Tty.set_serial (Tty.serial_out t0 ++ [c]) t0) (set_stty t1 s))|]. cbn beta.
    intros _ s2 (t2 & -> & Hs2 & Hm2). exists t2. split; [done|]. split; [done|]. cbn in Hm2. by rewrite <- app_assoc in Hm2.
Qed.

Section terminal.
Context (S : list Z) (x : process) (f fd buf count : Z) (m : machine).
Context (Hbuf : 0 < buf) (Hend : buf + count <= 2 ^ 32) (Hfd : fd = 1 ∨ fd = 2).
Let pd := p_pd x.
Context (Hacc : ∀ a, buf <= a < buf + count → user_access m pd false a = true).

Lemma write_terminal_wp fuel : ∀ s t (t0 : Tty.tty) total, running S s x → mm (sos s) = m → 0 <= total <= count →
  Tty.shows glyph_row t (stty s) → Tty.same_screen t0 (stty s) → count - total + 255 < 256 * Z.of_nat fuel →
  let data := program_bytes pd m (buf + total) (count - total) in Forall Tty.forward data →
  wp (write_loop stale glyph_row fuel fd f buf count total) (λ r s', r = count ∧ ∃ t', s' = set_stty t' s ∧
    Tty.shows glyph_row (foldl (Tty.layout_char (Tty.TTY_COLS t0)) t data) t' ∧ Tty.same_screen (Tty.set_serial (Tty.serial_out t0 ++ data) t0) t') s.
Proof.
  induction fuel as [|fuel IH]; intros s t t0 total Hr Hm Ht Hs Hsm Hf data Hfw; [lia|]. cbn [write_loop].
  destruct (Z.ltb_spec total count) as [Hlt|Hge]; cbn [negb].
  2: { wp_step. split; [lia|]. exists (stty s). split; [by destruct s|]. unfold data, program_bytes. replace (count - total) with 0 by lia.
       split; [done|]. cbn. rewrite app_nil_r. by destruct t0. }
  rewrite chunk_length_val. set (len := Z.min 256 (count - total)). assert (Hlen : 0 < len <= count - total /\ len <= 256) by lia.
  rewrite (u32_small (buf + total)) by lia. wp_step. apply (on_user_wp S _ x); [done|]. rewrite Hm.
  eapply wp_eq; [apply (copy_from_program S pd m (buf + total) len); [rewrite <- Hm; apply Hr|rewrite <- Hm; apply Hr|lia|lia|lia|]|].
  { intros a Ha. apply Hacc. lia. }
  on_success. replace (with_mm m s) with s by (rewrite <- Hm; destruct s as [k o]; unfold with_mm, set_sos; cbn; by destruct o).
  replace ((fd =? 1) || (fd =? 2)) with true by (destruct Hfd as [-> | ->]; done). set (chunk := program_bytes pd m (buf + total) len).
  assert (Ed : data = chunk ++ program_bytes pd m (buf + (total + len)) (count - (total + len))).
  { unfold data, chunk, program_bytes. replace (count - total) with (len + (count - (total + len))) by lia.
    rewrite seqZ_app, fmap_app by lia. do 3 f_equal. lia. }
  rewrite Ed in Hfw |- *. apply Forall_app in Hfw as [Hf1 Hf2]. wp_step. eapply wp_mono; [by apply (put_chunk_wp chunk t t0 s)|]. cbn beta.
  intros _ s1 (t1 & -> & Hs1 & Hsm1).
  eapply wp_mono; [apply (IH (set_stty t1 s) (foldl (Tty.layout_char (Tty.TTY_COLS t0)) t chunk) (Tty.set_serial (Tty.serial_out t0 ++ chunk) t0) (total + len)); [by apply running_tty|done|lia|done|done|lia|done]|].
  cbn beta. intros r s2 (-> & t2 & -> & Hs2 & Hsm2). split; [done|]. exists t2. split; [done|]. rewrite foldl_app. split; [done|].
  cbn in Hsm2. by rewrite <- app_assoc in Hsm2.
Qed.
End terminal.

(** ** The calls *)

Abbreviation handler := (syscall_handler stale glyph_row kthread_entry user_thread_entry typist others waits).

Lemma with_mm_same s : with_mm (mm (sos s)) s = s.
Proof. destruct s as [k o]. unfold with_mm, set_sos. cbn. by destruct o. Qed.

(** The access that a range needs. *)
Definition accessible s x (address length : Z) (write : bool) : Prop :=
  address + length <= 2 ^ 32 ∧ ∀ a, address <= a < address + length → user_access (mm (sos s)) (p_pd x) write a = true.

Lemma range_valid_run S s x address length write : running S s x → 0 <= address < 2 ^ 32 → 0 <= length < 2 ^ 32 →
  ∃ b, syscall_user_range_valid address length write s = Some (b, s) ∧ (b = true ↔ accessible s x address length write).
Proof.
  intros Hr Ha Hl. destruct (user_range_wp (mm (sos s)) (p_pd x) address length write Ha Hl) as (b & E & Hb). exists b.
  pose proof (ru_process _ _ _ Hr) as Hp. split.
  - unfold syscall_user_range_valid, on_user. rewrite (bind_run _ _ _ _ _ Hp), (bind_run _ _ _ _ _ Hp). unfold on_os, czoom.
    rewrite set_current_pd_same by apply (ru_program _ _ _ Hr). rewrite E. do 2 f_equal. apply with_mm_same.
  - rewrite Hb. unfold accessible. destruct (ru_program _ _ _ Hr) as (_ & _ & ?). naive_solver.
Qed.
Lemma range_valid_wp S s x address length write (Q : bool → sys → Prop) : running S s x → 0 <= address < 2 ^ 32 → 0 <= length < 2 ^ 32 →
  accessible s x address length write → Q true s → wp (syscall_user_range_valid address length write) Q s.
Proof.
  intros Hr Ha Hl Hacc HQ. destruct (range_valid_run S s x address length write Hr Ha Hl) as (b & E & Hb).
  eapply wp_eq; [exact E|]. by rewrite (proj2 Hb Hacc).
Qed.

Lemma io_fuel_enough count : 0 <= count → count - 0 + 255 < 256 * Z.of_nat (io_fuel count).
Proof. intros H. unfold io_fuel, SYSCALL_IO_CHUNK. lia. Qed.

(** What read and write check before they look at the descriptor. *)
Definition io_range (buf count : Z) : Prop := buf ≠ 0 ∧ u32 buf ≠ 0 ∧ 0 < count <= SYSCALL_IO_MAX.

Lemma sys_read_wp S s x fd f fl vn node n buf count :
  running S s x → descriptor s x fd f → fd ≠ 0 → open_on (kern s) f fl vn node n → Forall is_u8 (content n) →
  f_offset fl + count < 2 ^ 32 → io_range buf count → u32 buf + count <= 2 ^ 32 → writable (p_pd x) (mm (sos s)) (u32 buf) (u32 buf + count) →
  let bytes := slice (Z.to_nat (f_offset fl)) (Z.to_nat count) (content n) in
  wp (handler SYS_read fd buf count) (λ r s', r = Z.of_nat (length bytes) ∧
    ∃ m, s' = moved s f fl r m ∧ wrote S (p_pd x) (mm (sos s)) m ∧ patched (p_pd x) (mm (sos s)) m (u32 buf) bytes) s.
Proof.
  intros Hr Hd Hfd Hop Hb Ho (Hb0 & Hb1 & Hc) He Hw bytes. pose proof (u32_range buf) as Hu. unfold SYSCALL_IO_MAX in Hc.
  change (handler SYS_read fd buf count) with (sys_read (D := D) stale typist waits fd buf count). unfold sys_read, SYSCALL_IO_MAX.
  rewrite (proj2 (Z.eqb_neq buf 0)), (proj2 (Z.leb_gt count 0)), (proj2 (Z.ltb_ge (64 * 1024) count)) by (done || lia). cbn [orb].
  wp_step. apply (range_valid_wp S s x); [done|lia|lia| |].
  { split; [done|]. apply (writable_access S); [apply Hr|apply (ru_ready _ _ _ Hr)|done]. }
  cbn [negb]. rewrite (proj2 (Z.eqb_neq fd 0)) by done. wp_step. apply (descriptor_file_wp S s x fd f); [done|done|].
  rewrite (proj2 (Z.eqb_neq f 0)) by apply (oo_file _ _ _ _ _ _ Hop). wp_step.
  eapply wp_mono; [apply (sys_read_loop_wp S x f vn node n (u32 buf) count); [lia|done|done|done|done|lia|apply io_fuel_enough; lia|lia|by rewrite Z.add_0_r]|].
  unfold read_done. rewrite Z.sub_0_r, Z.add_0_r. fold bytes. intros [total e] s' [Er (m & -> & Hm)]. cbn [fst] in Er. rewrite Z.add_0_l in Er.
  wp_step. assert (E : (if (total =? count) || negb (total =? 0) then total else ERR_SUCCESS) = Z.of_nat (length bytes)).
  { rewrite Er. destruct (Z.eqb_spec (Z.of_nat (length bytes)) 0) as [->|]; cbn [negb]; [by rewrite orb_false_r, (proj2 (Z.eqb_neq _ _)) by lia|by rewrite orb_true_r]. }
  rewrite E. split; [done|]. by exists m.
Qed.

Lemma sys_write_wp S s x fd f fl vn node n buf count :
  running S s x → descriptor s x fd f → fd ≠ 1 ∧ fd ≠ 2 → open_on (kern s) f fl vn node n →
  io_range buf count → accessible s x (u32 buf) count false →
  wp (handler SYS_write fd buf count) (λ r s', ∃ d n',
    write_done f vn node s fl n (program_bytes (p_pd x) (mm (sos s)) (u32 buf) count) d s' n' ∧ write_result 0 d r) s.
Proof.
  intros Hr Hd Hfd Hop (Hb0 & Hb1 & Hc) Hacc. pose proof (u32_range buf) as Hu. unfold SYSCALL_IO_MAX in Hc.
  change (handler SYS_write fd buf count) with (sys_write (D := D) stale glyph_row fd buf count). unfold sys_write, SYSCALL_IO_MAX.
  rewrite (proj2 (Z.eqb_neq buf 0)), (proj2 (Z.leb_gt count 0)), (proj2 (Z.ltb_ge (64 * 1024) count)) by (done || lia). cbn [orb].
  wp_step. apply (range_valid_wp S s x); [done|lia|lia|done|]. cbn [negb].
  rewrite (proj2 (Z.eqb_neq fd 1)), (proj2 (Z.eqb_neq fd 2)) by apply Hfd. cbn [negb andb].
  wp_step. apply (descriptor_file_wp S s x fd f); [done|done|]. rewrite (proj2 (Z.eqb_neq f 0)) by apply (oo_file _ _ _ _ _ _ Hop). cbn [andb].
  destruct Hacc as [He Hacc].
  eapply wp_mono; [apply (write_loop_wp S x f vn node fd (u32 buf) count (mm (sos s))); try done|].
  all: try lia; try (apply io_fuel_enough; lia).
  cbn beta. rewrite Z.sub_0_r, Z.add_0_r. done.
Qed.

Lemma sys_write_terminal_wp S s x fd buf count t :
  running S s x → fd = 1 ∨ fd = 2 → io_range buf count → accessible s x (u32 buf) count false →
  let data := program_bytes (p_pd x) (mm (sos s)) (u32 buf) count in
  Forall Tty.forward data → Tty.shows glyph_row t (stty s) →
  wp (handler SYS_write fd buf count) (λ r s', r = count ∧ ∃ t', s' = set_stty t' s ∧
    Tty.shows glyph_row (foldl (Tty.layout_char (Tty.TTY_COLS (stty s))) t data) t' ∧
    Tty.same_screen (Tty.set_serial (Tty.serial_out (stty s) ++ data) (stty s)) t') s.
Proof.
  intros Hr Hfd (Hb0 & Hb1 & Hc) Hacc data Hfw Hs. pose proof (u32_range buf) as Hu. unfold SYSCALL_IO_MAX in Hc.
  change (handler SYS_write fd buf count) with (sys_write (D := D) stale glyph_row fd buf count). unfold sys_write, SYSCALL_IO_MAX.
  rewrite (proj2 (Z.eqb_neq buf 0)), (proj2 (Z.leb_gt count 0)), (proj2 (Z.ltb_ge (64 * 1024) count)) by (done || lia). cbn [orb].
  wp_step. apply (range_valid_wp S s x); [done|lia|lia|done|]. cbn [negb].
  replace (negb (fd =? 1) && negb (fd =? 2)) with false by (destruct Hfd as [-> | ->]; done). cbn [andb].
  wp_step. wp_step. destruct Hacc as [He Hacc].
  eapply wp_mono; [apply (write_terminal_wp S x 0 fd (u32 buf) count (mm (sos s)) ltac:(lia) He Hfd Hacc (io_fuel count) s t (stty s) 0)|].
  all: try done; try lia; try apply Tty.same_screen_refl; try (apply io_fuel_enough; lia).
  all: cbn beta zeta; by rewrite Z.sub_0_r, Z.add_0_r.
Qed.

(** ** Paths *)

(** The string at [a] of the program, which the kernel can read. *)
Definition user_string s x (a : Z) (str : cstring) : Prop :=
  accessible s x a (Z.of_nat (length str) + 1) false ∧
  program_bytes (p_pd x) (mm (sos s)) a (Z.of_nat (length str) + 1) = str ++ [0] ∧ Forall (λ c, c ≠ 0) str.

Lemma copy_user_string_wp S s x a str capacity : running S s x → 0 < a < 2 ^ 32 → user_string s x a str →
  Z.of_nat (length str) < capacity < 2 ^ 32 →
  copy_user_string true capacity a (mm (sos s)) = Some ((ERR_SUCCESS, str ++ [0]), mm (sos s)).
Proof.
  intros Hr Ha ([He Hacc] & Hb & Hz) Hc. set (m := mm (sos s)) in *. destruct (ru_program _ _ _ Hr) as (H1 & H2 & H3). fold m in H1, H2.
  assert (Hat : ∀ i, (i < length (str ++ [0%Z]))%nat → (str ++ [0%Z]) !! i = Some (user_byte m (a + Z.of_nat i))).
  { intros i Hi. rewrite length_app in Hi. cbn in Hi. rewrite <- Hb. unfold program_bytes. rewrite list_lookup_fmap, lookup_seqZ_lt by lia.
    cbn. unfold user_byte, space_byte. by rewrite H1. }
  assert (Hnz : ∀ i, (i < length str)%nat → user_byte m (a + Z.of_nat i) ≠ 0).
  { intros i Hi. specialize (Hat i ltac:(rewrite length_app; lia)). rewrite lookup_app_l in Hat by done. rewrite Forall_lookup in Hz. eauto. }
  assert (H0 : user_byte m (a + Z.of_nat (length str)) = 0).
  { specialize (Hat (length str) ltac:(rewrite length_app; cbn; lia)). rewrite lookup_app_r, Nat.sub_diag in Hat by lia. by injection Hat. }
  unfold copy_user_string. rewrite (proj2 (Z.eqb_neq capacity 0)), (proj2 (Z.eqb_neq a 0)) by lia. cbn [negb orb].
  destruct (copy_string_run m a (Z.to_nat capacity) []) as (r & -> & Hcase);
    [unfold in_user_space, current_address_space; by rewrite H1, H2|done|cbn; lia|]. cbn [length app] in Hcase.
  assert (Hat0 : ∀ i, a + Z.of_nat 0 + Z.of_nat i = a + Z.of_nat i) by lia.
  destruct Hcase as [(k & Hk & _ & Hnk & Hk0 & ->)|[(k & Hk & Hok & Hbad & ->)|(Hall & ->)]].
  - rewrite Hat0 in Hk0. assert (k = length str) as ->.
    { destruct (Nat.lt_trichotomy k (length str)) as [H|[H|H]]; [by destruct (Hnz k H)|done|]. destruct (Hnk _ H). by rewrite Hat0. }
    do 3 f_equal. rewrite <- Hb. unfold program_bytes.
    replace (Z.of_nat (Datatypes.S (length str))) with (Z.of_nat (length str) + 1) by lia. rewrite !Z.add_0_r.
    apply list_fmap_ext. intros i y _. unfold user_byte, space_byte. by rewrite H1.
  - exfalso. rewrite Hat0 in Hbad. destruct (decide (k ≤ length str)%nat) as [H|H].
    + apply Hbad. rewrite H1. split; [done|]. split; [lia|]. apply Hacc. lia.
    + destruct (Hok (length str) ltac:(lia)) as [_ Hn]. rewrite Hat0 in Hn. done.
  - exfalso. destruct (Hall (length str) ltac:(lia)) as [_ Hn]. rewrite Hat0 in Hn. done.
Qed.

Lemma user_path_wp S s x a str cs : running S s x → 0 < a < 2 ^ 32 → user_string s x a str →
  str ≠ [] → Z.of_nat (length str) < SYSCALL_PATH_MAX → directory SYSCALL_PATH_MAX (p_cwd x) cs →
  wp (user_path stale a) (λ r s', s' = s ∧
    match normalize SYSCALL_PATH_MAX (base_of str cs) (Vfs.components str) with
    | Some cs' => r = (ERR_SUCCESS, render cs') ∧ canonical cs' ∧ Z.of_nat (length (render cs')) < SYSCALL_PATH_MAX
    | None => r = (ERR_NAME_TOO_LONG, [])
    end) s.
Proof.
  intros Hr Ha Hs Hne Hl Hdir. unfold user_path. wp_step. apply (on_user_wp S s x); [done|]. unfold SYSCALL_PATH_MAX in *.
  eapply wp_eq; [by apply (copy_user_string_wp S s x)|]. on_success. rewrite with_mm_same. destruct Hs as (_ & _ & Hz).
  wp_step. eapply wp_get_opt; [apply (string_in_path _ str); [done|by exists nil]|]. wp_step. apply (current_process_wp S s x); [done|].
  set (buf := stale <$> seq 0 (Z.to_nat 256)). assert (Hbl : Z.of_nat (length buf) = 256) by (unfold buf; rewrite length_fmap, length_seq; lia).
  rewrite <- Hbl in Hdir |- *. pose proof (resolve_path_spec (p_cwd x) cs str buf Hdir Hne Hz ltac:(lia)) as H.
  destruct (normalize _ _ _) as [cs'|]; [destruct H as (buf' & E & (Hc & Hin & Hfit) & _)|destruct H as (buf' & E)];
    wp_step; (eapply wp_get_opt; [exact E|]); cbn beta iota;
    [|change (negb (ERR_NAME_TOO_LONG =? ERR_SUCCESS)) with true; cbn iota; by wp_step].
  on_success. wp_step. eapply wp_get_opt; [apply string_in_path; [by apply render_no_nul, canonical_names|exact Hin]|]. by wp_step.
Qed.

(** ** The current directory *)

Lemma proc_current_same o p o' : proc_current o = Some (p, o') → o' = o.
Proof.
  unfold proc_current, mbind, cmd_bind, cget, get_thread, cread, mret, cmd_ret. destruct (_ =? 0); [by intros [= _ <-]|].
  destruct (threads o !! _); [by intros [= _ <-]|done].
Qed.
Lemma proc_current_procs o t p : proc_current o = Some (p, o) → proc_current (set_procs t o) = Some (p, set_procs t o).
Proof.
  unfold proc_current, mbind, cmd_bind, cget, get_thread, cread, mret, cmd_ret. cbn [set_procs cpu threads].
  destruct (g_current (cpu o) =? 0); [by intros [= <-]|]. change (threads (set_procs t o)) with (threads o).
  destruct (threads o !! _); [by intros [= <-]|done].
Qed.
Lemma current_number S s x : running S s x → ∃ p, proc_current (sos s) = Some (p, sos s) ∧ get_proc p (sos s) = Some (x, sos s).
Proof.
  intros Hr. pose proof (ru_process _ _ _ Hr) as H. unfold current_process, on_os, czoom in H.
  destruct ((p ← proc_current; get_proc p) (sos s)) as [[y o]|] eqn:E; [|done]. injection H as -> _.
  apply bind_Some in E as (p & o1 & E1 & E2). pose proof (proc_current_same _ _ _ E1) as ->. exists p. split; [done|].
  revert E2. unfold get_proc, cread. destruct (proc_at p (sos s)); [|done]. by intros [= -> _].
Qed.
(** Another process in the current slot. *)
Lemma put_current p (x y : process) o : proc_current o = Some (p, o) → get_proc p o = Some (x, o) →
  ∃ t, put_proc p y o = Some (tt, set_procs t o) ∧ (p ← proc_current; get_proc p) (set_procs t o) = Some (y, set_procs t o).
Proof.
  intros Hp Hx. unfold put_proc. rewrite (bind_run _ _ _ _ _ Hx). eexists. split; [done|].
  rewrite (bind_run _ _ _ _ _ (proc_current_procs o _ p Hp)). revert Hx. unfold get_proc, cread, proc_at. cbn [set_procs procs].
  destruct (p =? BOOT_PROC); [done|]. destruct (p <? 2); [done|]. cbn [g_procs].
  destruct (g_procs (procs o) !! Z.to_nat (p - 2)) eqn:E; [|done]. intros _. rewrite list_lookup_insert_eq; [done|]. by eapply lookup_lt_Some.
Qed.

Lemma running_os S s (x y : process) t : running S s x → p_pd y = p_pd x →
  (p ← proc_current; get_proc p) (set_procs t (sos s)) = Some (y, set_procs t (sos s)) → running S (set_sos (set_procs t (sos s)) s) y.
Proof.
  intros [H1 H2 H3] E Hy. split.
  - unfold current_process, on_os, czoom. cbn [sos set_sos]. by rewrite Hy.
  - by rewrite E.
  - by rewrite E.
Qed.

(** The process after a change of directory: nothing else of it changes. *)
Definition in_directory (x : process) (cs : list cstring) (y : process) : Prop :=
  (∃ cwd, y = with_cwd cwd x) ∧ directory SYSCALL_PATH_MAX (p_cwd y) cs ∧ length (p_cwd y) = length (p_cwd x).

Lemma sys_chdir_wp S s x path a2 a3 str cs cs' vn v k :
  running S s x → length (p_cwd x) = 256%nat → directory SYSCALL_PATH_MAX (p_cwd x) cs → 0 < u32 path →
  user_string s x (u32 path) str → str ≠ [] → Z.of_nat (length str) < SYSCALL_PATH_MAX →
  normalize SYSCALL_PATH_MAX (base_of str cs) (Vfs.components str) = Some cs' →
  Vfs.vfs_lookup ops (Some (render cs')) true (kern s) = Some ((ERR_SUCCESS, vn), k) → vnodes k !! vn = Some v → vn_type v = VNODE_TYPE_DIR →
  wp (handler SYS_chdir path a2 a3) (λ r s', r = ERR_SUCCESS ∧ ∃ t y, s' = set_sos (set_procs t (sos s)) (set_kern k s) ∧
    in_directory x cs' y ∧ running S s' y) s.
Proof.
  intros Hr Hlen Hdir Hp Hs Hne Hl Hnorm Hlook Hv Hty. pose proof (u32_range path) as Hu.
  change (handler SYS_chdir path a2 a3) with (sys_chdir stale path : cmd sys Z). unfold sys_chdir.
  wp_step. eapply wp_mono; [apply (user_path_wp S s x (u32 path) str cs); [done|lia|done..]|]. cbn beta. intros r s' [-> Hres].
  rewrite Hnorm in Hres. destruct Hres as (-> & Hcan & Hfit). cbn beta iota. on_success.
  wp_step. unfold on_kern at 1. apply wp_zoom. eapply wp_eq; [exact Hlook|]. on_success.
  wp_step. unfold on_kern. apply wp_zoom. eapply wp_read; [exact Hv|]. rewrite Hty, bool_decide_true by done. cbn [negb].
  assert (E : set_kern (kern (set_kern k s)) (set_kern k s) = set_kern k s) by done.
  change (kern (set_kern k s)) with k. change (set_kern k (set_kern k s)) with (set_kern k s). clear E.
  assert (Hr1 : running S (set_kern k s) x) by by apply running_kern. destruct (current_number S s x Hr) as (p & E1 & E2).
  wp_step. unfold on_os at 1. apply wp_zoom. eapply wp_eq; [exact E1|]. wp_step. unfold on_os at 1. apply wp_zoom.
  change (sos (set_sos (sos (set_kern k s)) (set_kern k s))) with (sos s). eapply wp_eq; [exact E2|].
  unfold SYSCALL_PATH_MAX in *. rewrite (proj2 (Z.leb_gt _ _)) by lia. set (str' := render cs') in *.
  wp_step. unfold put_all. rewrite (proj2 (Nat.leb_le _ _)) by (rewrite length_app; cbn [length]; lia). eapply wp_get_opt; [done|].
  set (cwd := splice 0 (str' ++ [0]) (p_cwd x)).
  destruct (put_current p x (with_cwd cwd x) (sos s) E1 E2) as (t & Eput & Ecur).
  wp_step. unfold on_os. apply wp_zoom. eapply wp_eq; [exact Eput|]. wp_step. split; [done|]. exists t, (with_cwd cwd x).
  split; [done|]. split; [|by apply (running_os S (set_kern k s) x)].
  split; [by exists cwd|]. cbn [p_cwd with_cwd]. split.
  - split; [done|]. split; [|done]. unfold cwd, splice. cbn [take app]. rewrite <- app_assoc. by eexists.
  - unfold cwd. rewrite length_splice; [done|]. rewrite length_app. cbn [length]. lia.
Qed.

Lemma sys_getcwd_wp S s x buf size a3 cs :
  running S s x → directory SYSCALL_PATH_MAX (p_cwd x) cs → Forall is_u8 (render cs) → 0 < u32 buf → 0 < size < 2 ^ 32 → u32 buf + size <= 2 ^ 32 →
  Z.of_nat (length (render cs)) < size → writable (p_pd x) (mm (sos s)) (u32 buf) (u32 buf + size) →
  wp (handler SYS_getcwd buf size a3) (λ r s', r = Z.of_nat (length (render cs)) ∧ ∃ m, s' = with_mm m s ∧
    wrote S (p_pd x) (mm (sos s)) m ∧ patched (p_pd x) (mm (sos s)) m (u32 buf) (render cs ++ [0]) ∧ running S s' x) s.
Proof.
  intros Hr (Hcan & [rest Hcwd] & Hfit) Hb Hu Hsz He Hl Hw. pose proof (u32_range buf) as Hur.
  change (handler SYS_getcwd buf size a3) with (sys_getcwd buf size : cmd sys Z). unfold sys_getcwd.
  wp_step. apply (current_process_wp S s x); [done|]. rewrite (proj2 (Z.leb_gt size 0)) by lia.
  wp_step. apply (range_valid_wp S s x); [done|lia|lia| |].
  { split; [done|]. by apply (writable_access S); [apply Hr|apply (ru_ready _ _ _ Hr)|]. }
  cbn [negb]. wp_step. eapply wp_get_opt; [apply string_in_path; [by apply render_no_nul, canonical_names|by exists rest]|]. cbv zeta.
  rewrite (proj2 (Z.ltb_ge _ _)) by lia. set (str := render cs) in *.
  assert (Et : take (Z.to_nat (Z.of_nat (length str) + 1)) (p_cwd x) = str ++ [0]).
  { rewrite Hcwd. rewrite take_app_ge by lia. f_equal. replace (_ - _)%nat with 1%nat by lia. done. }
  wp_step. apply (on_user_wp S s x); [done|].
  eapply wp_mono; [apply (copy_to_user_wp S (p_pd x) (mm (sos s)) (u32 buf) (p_cwd x) (Z.of_nat (length str) + 1)); [apply Hr|apply Hr|done| |lia| |]|].
  - rewrite Hcwd, length_app. cbn [length]. lia.
  - intros y Hy. apply Hw. lia.
  - rewrite Et. apply Forall_app. split; [done|]. by repeat constructor.
  - rewrite Et. cbn beta. intros r m (-> & W & P & I). wp_step. change (ERR_SUCCESS =? ERR_SUCCESS) with true. cbn iota. split; [done|].
    exists m. split; [done|]. split; [done|]. split; [done|]. by apply running_mm; [|done|apply W].
Qed.

(** ** The statements *)

(** C2: Reading an open regular file by its descriptor delivers the bytes of the
    file from the offset on, as many as were asked for or as there are: the
    result is their number, they stand at the address in the memory of the
    program, the offset is behind them, and nothing else changes - no other
    byte of the program, no other frame, no table, no file, no other part of
    the system. *)
Theorem sys_read_file_correct S s x fd f fl vn node n buf count :
  running S s x → descriptor s x fd f → fd ≠ 0 → open_on (kern s) f fl vn node n → Forall is_u8 (content n) →
  f_offset fl + count < 2 ^ 32 → io_range buf count → u32 buf + count <= 2 ^ 32 → writable (p_pd x) (mm (sos s)) (u32 buf) (u32 buf + count) →
  let bytes := slice (Z.to_nat (f_offset fl)) (Z.to_nat count) (content n) in
  wp (handler SYS_read fd buf count) (λ r s', r = Z.of_nat (length bytes) ∧
    ∃ m, s' = moved s f fl r m ∧ wrote S (p_pd x) (mm (sos s)) m ∧ patched (p_pd x) (mm (sos s)) m (u32 buf) bytes) s.
Proof. apply sys_read_wp. Qed.


(** C14: Writing to the descriptors 1 and 2 shows the bytes of the program on the
    terminal behind what it showed, and sends them to the serial line; nothing
    else changes. *)
Theorem sys_write_terminal_correct S s x fd buf count t :
  running S s x → fd = 1 ∨ fd = 2 → io_range buf count → accessible s x (u32 buf) count false →
  let data := program_bytes (p_pd x) (mm (sos s)) (u32 buf) count in
  Forall Tty.forward data → Tty.shows glyph_row t (stty s) →
  wp (handler SYS_write fd buf count) (λ r s', r = count ∧ ∃ t', s' = set_stty t' s ∧
    Tty.shows glyph_row (foldl (Tty.layout_char (Tty.TTY_COLS (stty s))) t data) t' ∧
    Tty.same_screen (Tty.set_serial (Tty.serial_out (stty s) ++ data) (stty s)) t') s.
Proof. apply sys_write_terminal_wp. Qed.

(** A buffer that the program may not use is refused by the calls that read and
    write before anything happens: the state is as it was. *)
Theorem bad_ranges_refused S s x fd buf count :
  running S s x → io_range buf count →
  (¬ accessible s x (u32 buf) count true →
     handler SYS_read fd buf count s = Some (ERR_BAD_ADDRESS, s) ∧ handler SYS_scan buf count fd s = Some (ERR_BAD_ADDRESS, s)) ∧
  (¬ accessible s x (u32 buf) count false → handler SYS_write fd buf count s = Some (ERR_BAD_ADDRESS, s)).
Proof.
  intros Hr (Hb0 & Hb1 & Hc). pose proof (u32_range buf) as Hu. unfold SYSCALL_IO_MAX in Hc.
  assert (Hbad : ∀ write, ¬ accessible s x (u32 buf) count write → syscall_user_range_valid (u32 buf) count write s = Some (false, s)).
  { intros write Hn. destruct (range_valid_run S s x (u32 buf) count write) as (b & -> & Hb); [done|lia|lia|]. destruct b; [|done]. by destruct Hn; apply Hb. }
  change (handler SYS_read fd buf count) with (sys_read (D := D) stale typist waits fd buf count).
  change (handler SYS_scan buf count fd) with (sys_scan (D := D) typist waits buf count).
  change (handler SYS_write fd buf count) with (sys_write (D := D) stale glyph_row fd buf count).
  unfold sys_read, sys_scan, sys_write, SYSCALL_IO_MAX.
  rewrite (proj2 (Z.eqb_neq buf 0)), (proj2 (Z.leb_gt count 0)), (proj2 (Z.ltb_ge (64 * 1024) count)) by (done || lia). cbn [orb].
  split; intros Hn; [split|]; by rewrite (bind_run _ _ _ _ _ (Hbad _ Hn)).
Qed.

(** Finding: when the first read of the file fails, the program gets 0, the end
    of the file, and not the error that the loop set. *)
Theorem sys_read_error_lost S s x fd f buf count r done bytes k :
  running S s x → descriptor s x fd f → fd ≠ 0 → f ≠ 0 → io_range buf count → accessible s x (u32 buf) count true →
  Vfs.vfs_read ops f true (chunk_length count 0) (kern s) = Some ((r, done, bytes), k) → r ≠ ERR_SUCCESS →
  handler SYS_read fd buf count s = Some (0, set_kern k s).
Proof.
  intros Hr Hd Hfd Hf (Hb0 & Hb1 & Hc) Hacc Hread Her. pose proof (u32_range buf) as Hu. unfold SYSCALL_IO_MAX in Hc.
  assert (H : wp (handler SYS_read fd buf count) (λ r s', r = 0 ∧ s' = set_kern k s) s).
  2: { apply wp_run in H as (? & ? & ? & -> & ->). done. }
  change (handler SYS_read fd buf count) with (sys_read (D := D) stale typist waits fd buf count). unfold sys_read, SYSCALL_IO_MAX.
  rewrite (proj2 (Z.eqb_neq buf 0)), (proj2 (Z.leb_gt count 0)), (proj2 (Z.ltb_ge (64 * 1024) count)) by (done || lia). cbn [orb].
  wp_step. apply (range_valid_wp S s x); [done|lia|lia|done|]. cbn [negb]. rewrite (proj2 (Z.eqb_neq fd 0)) by done.
  wp_step. apply (descriptor_file_wp S s x fd f); [done|done|]. rewrite (proj2 (Z.eqb_neq f 0)) by done. wp_step.
  unfold io_fuel. replace (Z.to_nat (count / SYSCALL_IO_CHUNK + 2)) with (Datatypes.S (Z.to_nat (count / SYSCALL_IO_CHUNK + 1))) by (unfold SYSCALL_IO_CHUNK; lia).
  cbn [read_loop]. rewrite (proj2 (Z.ltb_lt 0 count)) by lia. cbn [negb]. wp_step. unfold on_kern. apply wp_zoom.
  eapply wp_eq; [exact Hread|]. cbn beta iota. rewrite (proj2 (Z.eqb_neq r _)) by done. cbn [negb]. wp_step. wp_step.
  by rewrite (proj2 (Z.eqb_neq 0 count)) by lia.
Qed.

(** C15: Changing the directory and asking for it: when the components of the path
    lead from the directory of the process to a directory that the file system
    has, the process is in it afterwards, in the canonical form, and [getcwd]
    puts exactly that path with its NUL into the program's buffer and returns its
    length; apart from what the lookup did to the file store, nothing but the
    directory of the process and those bytes changes. *)
Theorem sys_chdir_getcwd_correct S s x path buf size a2 a3 str cs cs' vn v k :
  running S s x → length (p_cwd x) = 256%nat → directory SYSCALL_PATH_MAX (p_cwd x) cs → Forall (Forall is_u8) cs → 0 < u32 path →
  user_string s x (u32 path) str → str ≠ [] → Z.of_nat (length str) < SYSCALL_PATH_MAX →
  normalize SYSCALL_PATH_MAX (base_of str cs) (Vfs.components str) = Some cs' →
  Vfs.vfs_lookup ops (Some (render cs')) true (kern s) = Some ((ERR_SUCCESS, vn), k) → vnodes k !! vn = Some v → vn_type v = VNODE_TYPE_DIR →
  0 < u32 buf → 0 < size < 2 ^ 32 → u32 buf + size <= 2 ^ 32 → Z.of_nat (length (render cs')) < size →
  writable (p_pd x) (mm (sos s)) (u32 buf) (u32 buf + size) →
  wp (r ← handler SYS_chdir path a2 a3; len ← handler SYS_getcwd buf size a3; mret (r, len)) (λ r s',
    r = (ERR_SUCCESS, Z.of_nat (length (render cs'))) ∧
    ∃ t y m, s' = with_mm m (set_sos (set_procs t (sos s)) (set_kern k s)) ∧ in_directory x cs' y ∧ running S s' y ∧
      wrote S (p_pd x) (mm (sos s)) m ∧ patched (p_pd x) (mm (sos s)) m (u32 buf) (render cs' ++ [0])) s.
Proof.
  intros Hr Hlen Hdir Hcs Hp Hs Hne Hl Hnorm Hlook Hv Hty Hbuf Hsz He Hfit Hw.
  assert (Hu8 : Forall is_u8 (render cs')).
  { apply render_chars; [by_eval|]. eapply normalize_Forall; [|apply components_chars|exact Hnorm].
    - unfold base_of. by case_bool_decide.
    - destruct Hs as (_ & E & _). assert (H : Forall is_u8 (str ++ [0])); [|by apply Forall_app in H as [? _]]. rewrite <- E. unfold program_bytes.
      apply Forall_fmap, Forall_forall. intros a _. unfold compose, space_byte, is_u8. destruct (translate _ _ _) as [[[? ?] ?]|]; [|lia]. unfold byte_at. lia. }
  wp_step. eapply wp_mono; [by apply (sys_chdir_wp S s x path a2 a3 str cs cs' vn v k)|]. cbn beta.
  intros r s1 (-> & t & y & -> & Hy & Hr1). pose proof Hy as ((cwd & Ey) & Hdy & _).
  assert (Epd : p_pd y = p_pd x) by by rewrite Ey.
  wp_step. eapply wp_mono; [apply (sys_getcwd_wp S _ y buf size a3 cs' Hr1 Hdy Hu8); [done|done|done|done|by rewrite Epd]|]. cbn beta.
  intros len s2 (-> & m & -> & W & P & Hr2). wp_step. split; [done|]. exists t, y, m. split; [done|]. split; [done|]. split; [done|].
  by rewrite Epd in W, P.
Qed.
End system.

(** ** Runs

    A process in the directory "/x" with the stack pages of [Exec.v], the file
    store of [Stack.v], and descriptor 5 on its open file. *)

Definition ex_process : process := mk_process 0 0 0 true (cstr "/x" ++ replicate 254 0) 0 0x4000 0x4000.
Definition ex_table : Fd.fd_table := <[5%nat := Fd.mk_entry 40 true]> (replicate 256 (Fd.mk_entry 0 false)).
Definition ex_sys (k : kernel (ramfs unit)) (m : machine) : system unit :=
  mk_system k (mk_os ∅ ∅ (mk_cpu 0 0 0 false 0 0 0) (mk_table ex_process [] []) (mk_heap ∅ []) m) [ex_table] [true] (Input.line_start None 25) Tty.ex_tty.
(** The stack with [bs] at its base. *)
Definition ex_memory (bs : list Z) : machine := default stk_machine (snd <$> store_bytes stack_base bs stk_machine).
(** [stack_base + i] as the C integer in the register. *)
Definition ex_address (i : Z) : Z := stack_base + i - 2 ^ 32.

Lemma ex_running k m : in_program 0x4000 m → ready ex_dirs 0x4000 m → running ex_dirs (ex_sys k m) ex_process.
Proof. intros H1 H2. by split. Qed.
Lemma ex_memory_ok bs : Forall is_u8 bs → Z.of_nat (length bs) <= 4096 → let m := ex_memory bs in
  in_program 0x4000 m ∧ ready ex_dirs 0x4000 m ∧ writable 0x4000 m stack_base USER_STACK_TOP ∧
  ∀ i c, bs !! i = Some c → space_byte m 0x4000 (stack_base + Z.of_nat i) = c.
Proof.
  intros Hb Hl. assert (Hin : in_program 0x4000 stk_machine) by done.
  assert (Hsub : writable 0x4000 stk_machine stack_base (stack_base + Z.of_nat (length bs))).
  { intros a Ha. apply stk_writable. unfold stack_base, USER_STACK_TOP, USER_STACK_SIZE, PAGE_SIZE in *. lia. }
  pose proof (store_bytes_user_wp ex_dirs 0x4000 bs stk_machine stack_base stk_ready Hin) as H. apply wp_run in H as ([] & m & E & W & P & I); [|by_eval| |done|done].
  2: { unfold stack_base, USER_STACK_TOP, USER_STACK_SIZE, PAGE_SIZE. lia. }
  unfold ex_memory. rewrite E. cbn. split; [done|]. split; [apply W|]. split.
  - apply (wrote_writable ex_dirs 0x4000 stk_machine); [right; left|done|by_eval|by_eval|exact stk_writable].
  - intros i c Hi. pose proof (lookup_lt_Some _ _ _ Hi) as Hil. destruct (Hsub (stack_base + Z.of_nat i)) as [Ht Hf]; [lia|].
    rewrite P; [| |done|done].
    + rewrite (proj2 (Z.leb_le _ _)) by lia. replace (Z.to_nat _) with i by lia. by rewrite Hi.
    + unfold stack_base, USER_STACK_TOP, USER_STACK_SIZE, PAGE_SIZE. lia.
Qed.

Definition ex_file (off : Z) : file := mk_file 21 off 3 Vfs.GENERIC_FILE_OPS 1.
Definition ex_files (off : Z) : kernel (ramfs unit) := set_files {[40 := ex_file off]} ex_kernel.
Lemma ex_open_on off : is_u32 off → open_on (ex_files off) 40 (ex_file off) 21 11 ex_a.
Proof. intros H. split; [by split_and!|done|by exists ex_a_vnode|destruct ex_is_a; by split|exact ex_a_ok]. Qed.
Lemma ex_descriptor k m : descriptor (ex_sys k m) ex_process 5 40.
Proof. split; [done|done|by exists ex_table]. Qed.
Lemma ex_io i count : 0 <= i < 4096 → 0 < count <= 4096 → io_range (ex_address i) count ∧ u32 (ex_address i) = stack_base + i.
Proof.
  intros Hi Hc. assert (E : u32 (ex_address i) = stack_base + i).
  { unfold ex_address, u32, stack_base, USER_STACK_TOP, USER_STACK_SIZE, PAGE_SIZE. lia. }
  split; [|done]. unfold io_range. rewrite E. unfold ex_address, SYSCALL_IO_MAX, stack_base, USER_STACK_TOP, USER_STACK_SIZE, PAGE_SIZE. lia.
Qed.
Lemma ex_range m i count : writable 0x4000 m stack_base USER_STACK_TOP → 0 <= i < 4096 → 0 < count <= 4096 →
  stack_base + i + count <= 2 ^ 32 ∧ writable 0x4000 m (stack_base + i) (stack_base + i + count).
Proof.
  intros Hw Hi Hc. unfold stack_base, USER_STACK_TOP, USER_STACK_SIZE, PAGE_SIZE in *. split; [lia|]. intros a Ha. apply Hw. lia.
Qed.
Lemma ex_accessible k m i count write : in_program 0x4000 m → ready ex_dirs 0x4000 m → writable 0x4000 m stack_base USER_STACK_TOP →
  0 <= i < 4096 → 0 < count <= 4096 → accessible (ex_sys k m) ex_process (stack_base + i) count write.
Proof.
  intros Hin Hr Hw Hi Hc. destruct (ex_range m i count Hw Hi Hc) as [He Hw']. split; [done|]. intros a Ha.
  apply access_any. apply (writable_access ex_dirs 0x4000 m (stack_base + i) (stack_base + i + count)); [apply Hr|apply (rd_pd _ _ _ Hr)|done|done].
Qed.
Lemma ex_bytes bs : Forall is_u8 bs → Z.of_nat (length bs) <= 4096 → program_bytes 0x4000 (ex_memory bs) stack_base (Z.of_nat (length bs)) = bs.
Proof.
  intros Hb Hl. destruct (ex_memory_ok bs Hb Hl) as (_ & _ & _ & H). apply list_eq. intros i. unfold program_bytes.
  destruct (decide (i < length bs)%nat) as [Hi|Hi].
  - rewrite list_lookup_fmap, lookup_seqZ_lt by lia. cbn. destruct (lookup_is_Some bs i Hi) as [c Hc]. rewrite Hc. f_equal. by apply H.
  - rewrite !lookup_ge_None_2; [done|lia|]. rewrite length_fmap, length_seqZ. lia.
Qed.
Abbreviation ex_handler := (syscall_handler ex_stale (λ _ _, 0) 0 0 (mret tt) (mret tt) 0).

(** Two of the three bytes of the file are left at offset 1. *)
Lemma sys_read_file_correct_witness :
  wp (ex_handler SYS_read 5 (ex_address 8) 10) (λ r s', r = 2 ∧ space_byte (mm (sos s')) 0x4000 (stack_base + 9) = 7 ∧
    files (kern s') !! 40 = Some (ex_file 3)) (ex_sys (ex_files 1) stk_machine).
Proof.
  destruct (ex_io 8 10 ltac:(lia) ltac:(lia)) as [Hio E]. destruct (ex_range stk_machine 8 10 stk_writable ltac:(lia) ltac:(lia)) as [He Hw].
  assert (Hop : open_on (kern (ex_sys (ex_files 1) stk_machine)) 40 (ex_file 1) 21 11 ex_a) by (apply ex_open_on; by_eval).
  assert (Hr : running ex_dirs (ex_sys (ex_files 1) stk_machine) ex_process) by (apply ex_running; [done|exact stk_ready]).
  rewrite <- E in He, Hw.
  pose proof (sys_read_file_correct ex_stale (λ _ _, 0) 0 0 (mret tt) (mret tt) 0 ex_dirs (ex_sys (ex_files 1) stk_machine) ex_process 5 40 (ex_file 1) 21 11 ex_a
    (ex_address 8) 10 Hr (ex_descriptor _ _) ltac:(done) Hop ltac:(by_eval) ltac:(by_eval) Hio He Hw) as H.
  refine (wp_mono _ _ _ _ H _). intros r s' [-> (m & -> & _ & P)]. split; [reflexivity|]. split; [|reflexivity].
  change (space_byte m 0x4000 (stack_base + 9) = 7). rewrite E in P. rewrite P; [reflexivity|by_eval|by_eval|]. apply stk_writable. by_eval.
Defined.


(** On the terminal after it was cleared. *)
Lemma sys_write_terminal_correct_witness :
  ∃ t, wp (ex_handler SYS_write 1 (ex_address 0) 3) (λ r s', r = 3 ∧ Tty.TTY_row (stty s') = 1 ∧ Tty.cell_at 1 (stty s') = 0x076B)
    (set_stty t (ex_sys (ex_files 1) (ex_memory [111; 107; 10]))).
Proof.
  destruct (ex_io 0 3 ltac:(lia) ltac:(lia)) as [Hio E]. destruct (ex_memory_ok [111; 107; 10]) as (Hin & Hrd & Hw & _); [by_eval|by_eval|].
  pose proof (ex_accessible (ex_files 1) _ 0 3 false Hin Hrd Hw ltac:(lia) ltac:(lia)) as Hacc. rewrite <- E in Hacc.
  assert (Ed : program_bytes 0x4000 (ex_memory [111; 107; 10]) (u32 (ex_address 0)) 3 = [111; 107; 10]).
  { rewrite E, Z.add_0_r. apply (ex_bytes [111; 107; 10]); by_eval. }
  destruct (proj1 (wp_run _ _ _) (Tty.clear_wp (λ _ _, 0) Tty.ex_tty Tty.ex_can_draw)) as ([] & t0 & _ & Hs & Hsm). exists t0.
  pose proof (ex_running (ex_files 1) _ Hin Hrd) as Hr. set (m := ex_memory [111; 107; 10]) in *. clearbody m.
  assert (Hf : Forall Tty.forward [111; 107; 10]) by (unfold Tty.forward; repeat (apply Forall_cons; split; [lia|]); by apply Forall_nil).
  pose proof (sys_write_terminal_correct ex_stale (λ _ _, 0) 0 0 (mret tt) (mret tt) 0 ex_dirs (set_stty t0 (ex_sys (ex_files 1) m)) ex_process 1 (ex_address 0) 3 ([], [])
    (running_tty _ _ _ t0 Hr) ltac:(by left) Hio Hacc) as H.
  cbn zeta in H. change (mm (sos (set_stty t0 (ex_sys (ex_files 1) m)))) with m in H. change (stty (set_stty t0 (ex_sys (ex_files 1) m))) with t0 in H.
  change (p_pd ex_process) with 0x4000 in H. rewrite Ed in H. specialize (H Hf Hs). refine (wp_mono _ _ _ _ H _). clear H.
  cbn beta. intros r s' (-> & t & -> & ([Hd Ho Hr' Hc _] & _) & [[Em _] [ER EC] [Ef Eb] _ _ _ _]). split; [reflexivity|].
  change (stty (set_stty t _)) with t. destruct Hsm as [[Em' _] [ER' EC'] [Ef' Eb'] _ _ _ _]. cbn in Em, ER, EC, Ef, Eb, Em', ER', EC', Ef', Eb'.
  rewrite Em' in Em. rewrite ER' in ER. rewrite EC' in EC, Hr', Hc. rewrite Ef' in Ef. rewrite Eb' in Eb.
  set (tx := foldl _ _ _) in *. vm_compute in tx. unfold Tty.first_shown in *. rewrite ER in *.
  split; [rewrite Hr'; reflexivity|]. pose proof (Hc 0 1 ltac:(lia) ltac:(rewrite EC; lia)) as H0.
  unfold Tty.cell_view, Tty.text_view, Tty.char_view in H0. rewrite Em, EC, Ef, Eb in H0. injection H0 as H0. exact H0.
Defined.

Lemma bad_ranges_refused_witness :
  ex_handler SYS_read 5 4096 10 (ex_sys (ex_files 1) stk_machine) = Some (ERR_BAD_ADDRESS, ex_sys (ex_files 1) stk_machine).
Proof.
  refine (proj1 (proj1 (bad_ranges_refused ex_stale (λ _ _, 0) 0 0 (mret tt) (mret tt) 0 ex_dirs (ex_sys (ex_files 1) stk_machine) ex_process 5 4096 10 _ _) _)).
  - apply ex_running; [done|exact stk_ready].
  - unfold io_range. by_eval.
  - intros [_ H]. specialize (H 4096 ltac:(by_eval)). vm_compute in H. discriminate.
Defined.

(** The process goes from "/x" to "/". *)
Lemma sys_chdir_getcwd_correct_witness :
  wp (r ← ex_handler SYS_chdir (ex_address 0) 0 0; len ← ex_handler SYS_getcwd (ex_address 8) 16 0; mret (r, len)) (λ r s',
    r = (0, 1) ∧ space_byte (mm (sos s')) 0x4000 (stack_base + 8) = 47) (ex_sys (ex_files 1) (ex_memory [46; 46; 0])).
Proof.
  destruct (ex_io 0 3 ltac:(lia) ltac:(lia)) as [_ E0]. destruct (ex_io 8 16 ltac:(lia) ltac:(lia)) as [_ E8].
  destruct (ex_memory_ok [46; 46; 0]) as (Hin & Hrd & Hw & _); [by_eval|by_eval|].
  set (m := ex_memory [46; 46; 0]) in *. destruct (ex_range m 8 16 Hw ltac:(lia) ltac:(lia)) as [He8 Hw8].
  assert (Hs : user_string (ex_sys (ex_files 1) m) ex_process (u32 (ex_address 0)) [46; 46]).
  { rewrite E0. split; [by apply (ex_accessible (ex_files 1) m 0 3 false)|]. split; [|by_eval].
    rewrite Z.add_0_r. apply (ex_bytes [46; 46; 0]); by_eval. }
  assert (Hdir : directory SYSCALL_PATH_MAX (p_cwd ex_process) [cstr "x"]) by (split; [by_eval|split; [by exists (replicate 253 0)|by_eval]]).
  pose proof (sys_chdir_getcwd_correct ex_stale (λ _ _, 0) 0 0 (mret tt) (mret tt) 0 ex_dirs (ex_sys (ex_files 1) m) ex_process
    (ex_address 0) (ex_address 8) 16 0 0 [46; 46] [cstr "x"] [] 20 ex_root_vnode (ex_files 1)
    (ex_running (ex_files 1) m Hin Hrd) ltac:(by_eval) Hdir ltac:(by_eval) ltac:(rewrite E0; by_eval) Hs ltac:(done) ltac:(by_eval) ltac:(by_eval)
    ltac:(vm_compute; reflexivity) ltac:(vm_compute; reflexivity) ltac:(done) ltac:(rewrite E8; by_eval) ltac:(lia) ltac:(rewrite E8; exact He8)
    ltac:(by_eval) ltac:(rewrite E8; exact Hw8)) as H.
  refine (wp_mono _ _ _ _ H _). intros r s' (-> & t & y & m' & -> & _ & _ & _ & P). split; [reflexivity|].
  change (space_byte m' 0x4000 (stack_base + 8) = 47). change (p_pd ex_process) with 0x4000 in P. rewrite E8 in P.
  rewrite P; [reflexivity|by_eval|by_eval|]. apply (Hw (stack_base + 8)). by_eval.
Defined.
End SyscallSpec.
